(* ===== verification/_CoqProject ===== *)
-Q . S2P
Prelude.v
Schema.v
Database.v
Rules.v
Authorization.v
Scenario.v
Scoring.v
Lifecycle.v
Timers.v
BracketOutcome.v
Cancellation.v
Exit.v
Appeals.v
Publication.v
Sanctions.v
Assignments.v
Phases.v
Snapshots.v
BracketGenerator.v
BracketTokens.v
BracketDraws.v
BracketStorage.v
BracketMatches.v
Calendar.v
Pricing.v
Entitlements.v
MediaDeletion.v
Retention.v
Accounts.v
Tournaments.v
Roster.v
AthleteImport.v
Eligibility.v
Redis.v
Presence.v
Sessions.v
MatchAccess.v
OfficialAccess.v
Officials.v
AdminAuth.v
System.v
Sockets.v
Gateway.v
