(* ===== verification/Prelude.v ===== *)
(** * dau-vo: a verification development of the tournament server

    The server (src/apps/api) runs martial-arts tournaments: administrators buy a subscription, set up
    a tournament with its roster, draw brackets and prepare matches; officials or holders of security
    codes run a match round by round over sockets; the result of a match moves its winner through the
    bracket. This library translates the services into executable definitions and proves what they
    promise. Sources are named below relative to src/apps/api/src.

    ** The model

    - The database ([Schema], [Database]) is one record of tables, each a list of rows in insertion
      order, of the tables and columns of prisma/schema.prisma the services use. A transaction is a
      function [DB -> result error (A * DB)] ([DbM]): an error is a rollback. The Prisma calls
      ([create], [update], [updateMany], [findFirst], ...) are operations on tables; a write that
      breaks a unique index, a partial unique index of a migration or a row check fails with the
      driver's code (P2002, P2025, ...). [wf] says every index and check holds, [sound] adds that the
      ids to come are unused; every operation keeps both ([keeps_sound], by the hints in [tx]), and
      [touches] bounds which tables an operation may write.
    - Redis ([Redis]) is a map of keys to values with an expiry; a request ([Sessions.Req]) is a
      sequence of transactions, Redis commands and socket closings that an error does not undo.
    - Time is an argument: every reading of the clock a command makes is a field of [Clock], or one
      [now] where the order of its readings is immaterial. Random tokens and generated ids are
      arguments as well. SHA-256, HMAC, bcrypt, base64url, the JSON codec, Unicode normalization, the
      random source of a draw and the answers of the object store are parameters; what is relied on of
      them is a named hypothesis with an instance in the witness.
    - Errors are values of [error], one constructor per HTTP status with the code the source names.
    - Integers are Z; where JavaScript's safe integers or UTF-16 lengths decide a branch
      ([isSafeInteger], [utf16Length]) they are modelled; 32-bit columns are not bounded.

    ** The match engine

    - [Rules]: sport-rules/, result-calculations.ts, match-score-projection.ts, round-timing.ts,
      match-display-state.ts, match-results/round-descriptor.ts: pure rules.
    - [Authorization]: realtime/supervisor-authorization.service.ts, the authorization queries of the
      other services and the release of a crew (match-official-assignment-lifecycle.service.ts).
    - [Scoring]: realtime/scoring.service.ts: judges' votes, one-second windows, majority. The loop over
      due windows has one more than their number as fuel, each step resolves one.
    - [Lifecycle], [Cancellation], [Exit]: realtime/match-lifecycle.service.ts: starting, pausing,
      resuming and ending rounds; taking results back and undoing it; leaving and completing a match.
      [Timers] is its in-process timers (and scoring's) as a step relation, with recovery.
    - [Appeals], [Publication], [Sanctions]: regulation-appeal.service.ts, overtime.service.ts,
      result-publication.service.ts, fault.service.ts and penalty.service.ts.
    - [Assignments]: match-official-assignments/: taking, confirming and releasing a crew.
    - [Snapshots]: realtime-match-state.service.ts: what clients are shown of a match and the commands they
      are offered. Exits and starts are offered exactly when the commands accept them; the score shown for
      an appeal is the one it records while the captured results are current, and a late point shows that
      they may not be.
    - [Phases] is the abstract specification of a match as a transition system; [System] collects the
      commands of all these services and proves that each implements one abstract step (refinement),
      that the phases stay well formed and that a finished match stays finished (rule induction over
      sequences of commands). [Scenario] is the store the witnesses run on.

    ** Brackets

    - [BracketGenerator]: brackets/bracket-summary.ts and single-elimination-bracket.generator.ts: the
      draw terminates for every random source in range, and the fixture graph is a full
      single-elimination tree. The loop of [nextPowerOfTwo] has its bound as fuel, which is enough
      because the power doubles; shuffle and rounds recur on the list they consume.
    - [BracketTokens], [BracketDraws], [BracketStorage]: the signed draw tokens, setup, preview and
      confirmation, and what a confirmation stores.
    - [BracketMatches]: the match part of admin-management.service.ts,
      bracket-round-staffing.service.ts and bracket-cancellation.service.ts.
    - [BracketOutcome]: bracket-outcome.service.ts: deciding, advancing and retracting winners.

    ** Administration

    - [Calendar], [Entitlements], [Pricing]: subscriptions/admin-access.policy.ts and
      subscriptions.service.ts with the calendar of JavaScript dates, pricing/.
    - [Retention], [MediaDeletion]: subscriptions/tournament-lifecycle.service.ts, media/ (outbox).
    - [Accounts], [Tournaments]: super-admin/, auth/roles.guard.ts and password policy; the tournament
      part of admin-management.service.ts and the sport catalogue.
    - [Roster], [AthleteImport]: tournament-roster/. [Eligibility] composes the roster with the
      brackets: over any sequence of their operations the entrants of a current bracket are the active
      athletes of its class.

    ** Sessions

    - [Redis], [Presence]: redis/redis.service.ts and realtime-session-registry.service.ts: the fixed
      window limiter, and presence counters against the sockets they count.
    - [Sessions]: the shared requests and the specification of the authentication services, a register
      of leases taken by compare and swap; class [SessionTable] is what a table of sessions offers.
    - [MatchAccess]: match-access/match-access.service.ts implements the register with access codes as
      credentials.
    - [OfficialAccess]: official-access.service.ts. An official logs in with the private passcode or with a
      login link, takes a session over, resolves and revokes its token. Logins, links and takeovers refine
      the register of leases of [Sessions]; a link admits its official for seven days while the passcode,
      the official and the tournament stand, and nothing else does; a token resolves exactly when it holds
      the official's lease. [resolveIdentity], which does not look at the tournament, is modelled as it is.
    - [Officials]: tournament-officials.service.ts. Creating, changing and deactivating officials and drawing
      their passcodes. No sequence of these and of staffing requests lets an unfinished bracket ask for more
      judges than are active; a deactivation and a new passcode end every session at once; eight colliding
      passcodes end in the raw unique violation.
    - [AdminAuth]: auth/admin-auth.service.ts. Sessions of administrators, kept in Redis alone, and
      registration. The password of a name is compared at most twice the limit times in any window while no
      login on it succeeds; a session follows its account; a registration may be committed and refused.


    ** The gateway

    - [Sockets]: realtime/realtime.gateway.ts and realtime.types.ts, a socket: handshake, session, rooms,
      presence and what it is sent. A handler ([Gw]) runs on the server and on its own socket; an error
      keeps what it did before, as a thrown promise does, and a transaction in it commits or is undone.
    - [Gateway]: the commands of the same file: payloads, authority, the service called, answers and
      broadcasts; [handle] is the dispatch of a message. A message acts only for the session behind its
      socket; composed with [System], sockets implement the phases of [Phases].

    ** What the theorems show

    Functional behaviour on every branch of the commands that change state (what a command leaves and
    which error it answers), idempotency of the commands with keys, round trips of tokens and dates,
    bounds of quotes and of the limiter, termination of the loops (window resolution, draws, retention
    purges), invariants over sequences of operations, and refinements of abstract specifications
    (phases of a match, presence, leases). Several theorems record behaviour that looks unintended; the
    findings of the manifest name the lines.

    ** Not modelled

    - Foreign keys, cascades and triggers of PostgreSQL, except where a file states what it relies on
      ([Retention.Cascades], [MatchAccess.sessionRefs], and the [_fk] facts of other files). Row and
      advisory locks only order transactions; a transaction runs alone, so deadlocks, lock timeouts and
      retries after serialization failures are left out except for the lost races that the code itself
      recovers from (replays after P2002).
    - The Socket.IO adapter and what the library delivers to whom; messages of another instance. A handler
      runs alone: of two handlers interleaved at their awaits only the transactions are ordered, as the
      sequences of [System] and [Gateway.socket_step] order them. A payload's enumeration strings and ids
      keep their type.
    - The listings of the administration: reads that change no state.
    - Controllers and DTO decorators: the shape checks run in class-validator before a service is
      called. Cookies and guards other than the roles guard.
    - Image storage, storage migration, configuration, health checks and module wiring: calls into
      third-party clients.
    - src/apps/web: React components and hooks over the interfaces above.
    - Log lines, and the dummy bcrypt comparisons against timing attacks. *)
From stdpp Require Export base tactics list strings option numbers.
From Stdlib Require Export ZArith Lia.
From Stdlib Require Import Sorting.Sorted.

#[global] Open Scope Z_scope.

(** ** Automation *)

Create HintDb tx discriminated.

(** JavaScript strict equality on the modelled (decidable) data. *)
Notation "a === b" := (bool_decide (a = b)) (at level 70, no associativity).
Notation "a !== b" := (negb (bool_decide (a = b))) (at level 70, no associativity).

(** Turns boolean facts of the code into propositions. *)
Ltac to_prop :=
  repeat match goal with
  | H : (_ && _)%bool = true |- _ => apply andb_prop in H; destruct H
  | H : (_ || _)%bool = false |- _ => apply orb_false_elim in H; destruct H
  | H : negb _ = true |- _ => apply negb_true_iff in H
  | H : negb _ = false |- _ => apply negb_false_iff in H
  | H : bool_decide _ = true |- _ => apply bool_decide_eq_true in H
  | H : bool_decide _ = false |- _ => apply bool_decide_eq_false in H
  | H : (_ <? _) = true |- _ => apply Z.ltb_lt in H
  | H : (_ <? _) = false |- _ => apply Z.ltb_ge in H
  | H : (_ <=? _) = true |- _ => apply Z.leb_le in H
  | H : (_ <=? _) = false |- _ => apply Z.leb_gt in H
  end.

(** Decides the comparisons of constants in a hypothesis. *)
Ltac decide_consts H :=
  repeat match type of H with
  | context [bool_decide ?P] =>
      let v := eval vm_compute in (bool_decide P) in
      match v with
      | true => change (bool_decide P) with true in H
      | false => change (bool_decide P) with false in H
      end
  end; rewrite ?andb_true_l, ?andb_false_l, ?orb_false_l in H.

Ltac decide_consts_goal :=
  repeat match goal with
  | |- context [bool_decide ?P] =>
      let v := eval vm_compute in (bool_decide P) in
      match v with
      | true => change (bool_decide P) with true
      | false => change (bool_decide P) with false
      end
  end.

(** ** Functional record update

    [r <| f := v |>] replaces one field and [r <| f ::= g |>] maps it. A record
    type opts in with an [Eta] instance, its own eta expansion. *)

Class Eta (R : Type) := eta_of : R -> R.
Class FieldUpd {R T : Type} (proj : R -> T) := field_upd : (T -> T) -> R -> R.
Arguments field_upd {R T} proj {_} _ _.

Ltac solve_field_upd :=
  match goal with
  | |- @FieldUpd ?R ?T ?proj =>
      let e := constr:(_ : Eta R) in
      let e := eval hnf in e in
      exact (fun (g : T -> T) (r : R) =>
        ltac:(let b := eval cbv beta in (e r) in
              match eval pattern (proj r) in b with
              | ?h _ => let b' := eval cbv beta in (h (g (proj r))) in exact b'
              end))
  end.
#[export] Hint Extern 1 (FieldUpd _) => solve_field_upd : typeclass_instances.

Declare Scope record_scope.
Notation "r <| f ::= g |>" := (field_upd f g r)
  (at level 1, left associativity, f at level 200, g at level 200) : record_scope.
Notation "r <| f := v |>" := (field_upd f (fun _ => v) r)
  (at level 1, left associativity, f at level 200, v at level 200) : record_scope.
#[global] Open Scope record_scope.

(** ** Transactions

    A transaction reads and writes a store and either commits a value or throws,
    in which case the store it started from is what remains. *)

Inductive result (E A : Type) : Type :=
  | Ok (a : A)
  | Err (e : E).
Arguments Ok {E A} _.
Arguments Err {E A} _.

Definition tx (S E A : Type) : Type := S -> result E (A * S).

Section Tx.
Context {S E : Type}.

#[global] Instance tx_ret : MRet (tx S E) := fun A a s => Ok (a, s).
#[global] Instance tx_bind : MBind (tx S E) := fun A B k c s =>
  match c s with
  | Ok (a, s') => k a s'
  | Err e => Err e
  end.

Definition throw {A} (e : E) : tx S E A := fun _ => Err e.
Definition gets {A} (f : S -> A) : tx S E A := fun s => Ok (f s, s).
Definition modify (f : S -> S) : tx S E unit := fun s => Ok (tt, f s).

(** [if (b) throw e] *)
Definition throw_if (b : bool) (e : E) : tx S E unit := if b then throw e else mret tt.
(** [if (b) c] *)
Definition when (b : bool) (c : tx S E unit) : tx S E unit := if b then c else mret tt.
(** [x ?? throw e] *)
Definition or_throw {A} (o : option A) (e : E) : tx S E A :=
  match o with Some a => mret a | None => throw e end.
(** [try { c } catch (e) { throw h e }] *)
Definition rethrow {A} (h : E -> E) (c : tx S E A) : tx S E A := fun s =>
  match c s with Ok r => Ok r | Err e => Err (h e) end.

(** [for (const x of l) await f(x)] *)
Fixpoint for_each {A} (f : A -> tx S E unit) (l : list A) : tx S E unit :=
  match l with
  | [] => mret tt
  | x :: l' => f x ≫= fun _ => for_each f l'
  end.

(** What [$transaction] leaves in the store: all of the writes or none. *)
Definition transaction {A} (c : tx S E A) (s : S) : result E A * S :=
  match c s with
  | Ok (a, s') => (Ok a, s')
  | Err e => (Err e, s)
  end.

(** *** Inversion of successful runs *)

Lemma bind_ok {A B} (c : tx S E A) (k : A -> tx S E B) s b s' :
  (c ≫= k) s = Ok (b, s') <-> exists a s1, c s = Ok (a, s1) /\ k a s1 = Ok (b, s').
Proof.
  unfold mbind, tx_bind; split.
  - destruct (c s) as [[a s1]|e]; [intros H; eauto | discriminate].
  - intros (a & s1 & -> & H); exact H.
Qed.

Lemma ret_ok {A} (a b : A) (s s' : S) : mret (M:=tx S E) a s = Ok (b, s') <-> a = b /\ s = s'.
Proof. unfold mret, tx_ret; split; [intros H; inv H; auto | intros [-> ->]; auto]. Qed.

Lemma throw_ok {A} (e : E) (a : A) (s s' : S) : throw e s = Ok (a, s') <-> False.
Proof. split; [discriminate | tauto]. Qed.

Lemma gets_ok {A} (f : S -> A) a s s' : gets f s = Ok (a, s') <-> a = f s /\ s' = s.
Proof. unfold gets; split; [intros H; inv H; auto | intros [-> ->]; auto]. Qed.

Lemma modify_ok (f : S -> S) u s s' : modify f s = Ok (u, s') <-> s' = f s.
Proof. unfold modify; destruct u; split; [intros H; inv H; auto | intros ->; auto]. Qed.

Lemma throw_if_ok b e u s s' : throw_if b e s = Ok (u, s') <-> b = false /\ s' = s.
Proof.
  unfold throw_if; destruct b, u; cbn; split; try discriminate; try tauto.
  - intros [? _]; discriminate.
  - intros H; inv H; auto.
  - intros [_ ->]; reflexivity.
Qed.

Lemma or_throw_ok {A} (o : option A) e a s s' :
  or_throw o e s = Ok (a, s') <-> o = Some a /\ s' = s.
Proof.
  unfold or_throw; destruct o; cbn; split; try discriminate.
  - intros H; inv H; auto.
  - intros [H ->]; inv H; reflexivity.
  - intros [H _]; discriminate.
Qed.

Lemma rethrow_ok {A} h (c : tx S E A) a s s' :
  rethrow h c s = Ok (a, s') <-> c s = Ok (a, s').
Proof. unfold rethrow; destruct (c s); split; intros; try discriminate; auto. Qed.

Lemma bind_err {A B} (c : tx S E A) (k : A -> tx S E B) s e :
  c s = Err e -> (c ≫= k) s = Err e.
Proof. unfold mbind, tx_bind; intros ->; reflexivity. Qed.

Lemma bind_step {A B} (c : tx S E A) (k : A -> tx S E B) s a s1 :
  c s = Ok (a, s1) -> (c ≫= k) s = k a s1.
Proof. unfold mbind, tx_bind; intros ->; reflexivity. Qed.

(** *** Relations every successful run respects

    For a preorder [R], [respects R c] says a committed run of [c] moves the
    store along [R]; the rules below follow the shape of the program. *)

Definition respects (R : S -> S -> Prop) {A} (c : tx S E A) : Prop :=
  forall s a s', c s = Ok (a, s') -> R s s'.

Section Respects.
Context (R : S -> S -> Prop) `{!PreOrder R}.

Lemma respects_ret {A} (a : A) : respects R (mret (M:=tx S E) a).
Proof. intros s b s' H; apply ret_ok in H as [_ ->]; reflexivity. Qed.

Lemma respects_bind {A B} (c : tx S E A) (k : A -> tx S E B) :
  respects R c -> (forall a, respects R (k a)) -> respects R (c ≫= k).
Proof.
  intros Hc Hk s b s' H; apply bind_ok in H as (a & s1 & H1 & H2).
  transitivity s1; [eapply Hc | eapply Hk]; eauto.
Qed.

Lemma respects_throw {A} (e : E) : respects R (throw (A:=A) e).
Proof. intros s b s' H; apply throw_ok in H as []. Qed.

Lemma respects_gets {A} (f : S -> A) : respects R (gets f).
Proof. intros s b s' H; apply gets_ok in H as [_ ->]; reflexivity. Qed.

Lemma respects_throw_if b e : respects R (throw_if b e).
Proof. intros s u s' H; apply throw_if_ok in H as [_ ->]; reflexivity. Qed.

Lemma respects_or_throw {A} (o : option A) e : respects R (or_throw o e).
Proof. intros s u s' H; apply or_throw_ok in H as [_ ->]; reflexivity. Qed.

Lemma respects_when b c : respects R c -> respects R (when b c).
Proof. intros Hc; destruct b; [exact Hc | apply respects_ret]. Qed.

Lemma respects_rethrow {A} h (c : tx S E A) : respects R c -> respects R (rethrow h c).
Proof. intros Hc s a s' H; apply rethrow_ok in H; eapply Hc; eauto. Qed.

Lemma respects_for_each {A} (f : A -> tx S E unit) l :
  (forall x, respects R (f x)) -> respects R (for_each f l).
Proof.
  intros Hf; induction l; cbn; [apply respects_ret |].
  apply respects_bind; auto.
Qed.

Lemma respects_modify (f : S -> S) : (forall s, R s (f s)) -> respects R (modify f).
Proof. intros Hf s u s' H; apply modify_ok in H as ->; auto. Qed.
End Respects.
End Tx.

(** *** Errors a program can raise *)

Section Raises.
Context {S E : Type} (P : E -> Prop).

Definition raises {A} (c : tx S E A) : Prop := forall s e, c s = Err e -> P e.

Lemma raises_ret {A} (a : A) : raises (mret a).
Proof. discriminate. Qed.
Lemma raises_bind {A B} (c : tx S E A) (k : A -> tx S E B) :
  raises c -> (forall a, raises (k a)) -> raises (c ≫= k).
Proof.
  unfold raises, mbind, tx_bind; intros Hc Hk s e.
  destruct (c s) as [[a s1] | e'] eqn:Ec; intros H; [eapply Hk | inv H; eapply Hc]; eauto.
Qed.
Lemma raises_throw {A} (e : E) : P e -> raises (throw (A:=A) e).
Proof. intros HP s e' H; inv H; exact HP. Qed.
Lemma raises_gets {A} (f : S -> A) : raises (gets f).
Proof. discriminate. Qed.
Lemma raises_throw_if b e : P e -> raises (throw_if b e).
Proof. destruct b; [apply raises_throw | intros _; apply raises_ret]. Qed.
Lemma raises_or_throw {A} (o : option A) e : P e -> raises (or_throw o e).
Proof. destruct o; [intros _; apply raises_ret | apply raises_throw]. Qed.
End Raises.

#[export] Hint Resolve raises_ret raises_bind raises_throw raises_gets raises_throw_if
  raises_or_throw : tx.

Ltac raises_step :=
  match goal with
  | |- raises _ (mbind _ _) => apply raises_bind; [| intros ?]
  | |- raises _ (match ?x with _ => _ end) => destruct x
  | |- raises _ _ => solve [eauto with tx]
  end.
Ltac raises_auto := repeat (cbv beta iota zeta; raises_step).

#[export] Hint Resolve respects_ret respects_bind respects_throw respects_gets
  respects_throw_if respects_or_throw respects_when respects_rethrow respects_for_each : tx.

(** Walks a [respects] goal along the program text: binds, matches and loops. *)
Ltac respects_step :=
  match goal with
  | |- respects _ (mbind _ _) => apply respects_bind; [try apply _ | | intros ?]
  | |- respects _ (match ?x with _ => _ end) => destruct x
  | |- respects _ (for_each _ _) => apply respects_for_each; [try apply _ | intros ?]
  | |- respects _ (when _ _) => apply respects_when; [try apply _ |]
  | |- respects _ (rethrow _ _) => apply respects_rethrow
  | |- respects _ _ => solve [eauto with tx typeclass_instances]
  end.
Ltac respects_auto := repeat (cbv beta iota zeta; respects_step).

(** Decomposes a hypothesis [c s = Ok (a, s')] along the program text. *)
Ltac tx_inv1 H :=
  lazymatch type of H with
  | mbind _ _ _ = Ok _ =>
      let a := fresh "x" in let s := fresh "s" in let H1 := fresh "Hx" in
      apply bind_ok in H as (a & s & H1 & H); tx_inv1 H1
  | mret _ _ = Ok _ => apply ret_ok in H as [? ?]
  | throw _ _ = Ok _ => apply throw_ok in H as []
  | gets _ _ = Ok _ => apply gets_ok in H as [? ?]
  | modify _ _ = Ok _ => apply modify_ok in H
  | throw_if _ _ _ = Ok _ => apply throw_if_ok in H as [? ?]
  | or_throw _ _ _ = Ok _ => apply or_throw_ok in H as [? ?]
  | rethrow _ _ _ = Ok _ => apply rethrow_ok in H; tx_inv1 H
  | _ => idtac
  end.
Ltac tx_inv H := repeat (cbv beta in H; progress tx_inv1 H); subst.

(** A lookup has one answer. *)
Lemma same_answer {A} (o : option A) x y : o = Some x -> o = Some y -> x = y.
Proof. congruence. Qed.

(** ** Lists *)

Lemma existsb_none {A} (p : A -> bool) l : existsb p l = false -> forall x, In x l -> p x = false.
Proof.
  intros H x Hx; destruct (p x) eqn:E; [| reflexivity].
  rewrite (proj2 (existsb_exists p l)) in H by eauto; discriminate.
Qed.

Section Lists.
Context {A B : Type}.

(** [l.find(p)] *)
Fixpoint find_first (p : A -> bool) (l : list A) : option A :=
  match l with
  | [] => None
  | x :: l' => if p x then Some x else find_first p l'
  end.

Lemma find_first_some p l x : find_first p l = Some x -> In x l /\ p x = true.
Proof.
  induction l as [|y l IH]; cbn; [discriminate |].
  destruct (p y) eqn:E; intros H; [inv H; auto | apply IH in H; tauto].
Qed.

Lemma find_first_none p l : find_first p l = None <-> forall x, In x l -> p x = false.
Proof.
  induction l as [|y l IH]; cbn; [split; auto; tauto |].
  destruct (p y) eqn:E; split; intros H.
  - discriminate.
  - rewrite (H y) in E by auto; discriminate.
  - intros x [<- | Hx]; [exact E | apply IH; auto].
  - apply IH; intros x Hx; apply H; auto.
Qed.

Lemma find_first_app p l1 l2 :
  find_first p (l1 ++ l2) = match find_first p l1 with Some x => Some x | None => find_first p l2 end.
Proof. induction l1 as [|x l1 IH]; cbn; [reflexivity | destruct (p x); auto]. Qed.

(** [UPDATE ... SET g WHERE p] on the rows of a table. *)
Definition map_where (p : A -> bool) (g : A -> A) (l : list A) : list A :=
  map (fun x => if p x then g x else x) l.

Lemma map_where_nil p g l : (forall x, In x l -> p x = false) -> map_where p g l = l.
Proof.
  intros H; unfold map_where; rewrite <- (map_id l) at 2; apply map_ext_in.
  intros x Hx; rewrite (H x Hx); reflexivity.
Qed.

Lemma in_map_where p g l y :
  In y (map_where p g l) <->
  exists x, In x l /\ y = (if p x then g x else x).
Proof. unfold map_where; rewrite in_map_iff; split; intros (x & ? & ?); eauto. Qed.

Lemma map_map_where (f : A -> B) p g l :
  (forall x, f (g x) = f x) -> map f (map_where p g l) = map f l.
Proof.
  intros H; unfold map_where; rewrite map_map; apply map_ext; intros x.
  destruct (p x); auto.
Qed.

(** A selection the update does not touch is left as it was. *)
Lemma filter_map_where (q p : A -> bool) g l :
  (forall x, p x = true -> q x = false /\ q (g x) = false) ->
  List.filter q (map_where p g l) = List.filter q l.
Proof.
  unfold map_where; intros H; induction l as [|x l IH]; cbn; [reflexivity |].
  destruct (p x) eqn:E; cbn.
  - destruct (H x E) as [-> ->]; exact IH.
  - destruct (q x); rewrite IH; reflexivity.
Qed.

(** An update that keeps what selects a row commutes with the selection. *)
Lemma find_first_map_where (q p : A -> bool) g l :
  (forall x, p x = true -> q (g x) = q x) ->
  find_first q (map_where p g l) = option_map (fun x => if p x then g x else x) (find_first q l).
Proof.
  intros H; unfold map_where; induction l as [|x l IH]; cbn; [reflexivity |].
  destruct (p x) eqn:E; [rewrite (H x E) |]; destruct (q x); cbn; rewrite ?E; auto.
Qed.

Lemma filter_map_where_comm (q p : A -> bool) g l :
  (forall x, p x = true -> q (g x) = q x) ->
  List.filter q (map_where p g l) = map_where p g (List.filter q l).
Proof.
  intros H; unfold map_where; induction l as [|x l IH]; cbn; [reflexivity |].
  destruct (p x) eqn:E; [rewrite (H x E) |]; destruct (q x); cbn; rewrite ?E, IH; auto.
Qed.

Lemma filter_andb (p q : A -> bool) l :
  List.filter p (List.filter q l) = List.filter (fun x => q x && p x) l.
Proof.
  induction l as [|x l IH]; cbn; [reflexivity |].
  destruct (q x); cbn; [destruct (p x); rewrite IH |]; auto.
Qed.

(** Two updates in a row of the same rows are one. *)
Lemma map_where_twice (p : A -> bool) g h l :
  (forall x, p x = true -> p (g x) = true) ->
  map_where p h (map_where p g l) = map_where p (fun x => h (g x)) l.
Proof.
  intros H; unfold map_where; rewrite map_map; apply map_ext; intros x.
  destruct (p x) eqn:E; [rewrite (H x E) | rewrite E]; reflexivity.
Qed.

Lemma map_where_ext (p : A -> bool) g h l :
  (forall x, In x l -> p x = true -> g x = h x) -> map_where p g l = map_where p h l.
Proof.
  intros H; unfold map_where; apply map_ext_in; intros x Hx; destruct (p x) eqn:E; auto.
Qed.

Lemma map_where_id (p : A -> bool) g l :
  (forall x, In x l -> p x = true -> g x = x) -> map_where p g l = l.
Proof.
  intros H; unfold map_where; rewrite <- (map_id l) at 2; apply map_ext_in.
  intros x Hx; destruct (p x) eqn:E; auto.
Qed.

Lemma map_where_guard (b : bool) (p : A -> bool) g l :
  map_where (fun x => b && p x) g l = if b then map_where p g l else l.
Proof. destruct b; [reflexivity | apply map_where_nil; reflexivity]. Qed.

Lemma map_where_eq (p q : A -> bool) g l :
  (forall x, In x l -> p x = q x) -> map_where p g l = map_where q g l.
Proof. intros H; unfold map_where; apply map_ext_in; intros x Hx; rewrite (H x Hx); reflexivity. Qed.

(** A stable sort, for [orderBy: { key: 'asc' }]. *)
Fixpoint insert_by (key : A -> Z) (x : A) (l : list A) : list A :=
  match l with
  | [] => [x]
  | y :: l' => if key y <? key x then y :: insert_by key x l' else x :: l
  end.
Definition sort_by (key : A -> Z) (l : list A) : list A := fold_right (insert_by key) [] l.

Lemma insert_by_perm (key : A -> Z) x l : Permutation (insert_by key x l) (x :: l).
Proof.
  induction l as [|y l IH]; cbn; [auto |].
  destruct (key y <? key x); [rewrite IH; constructor | auto].
Qed.

Lemma sort_by_perm (key : A -> Z) l : Permutation (sort_by key l) l.
Proof. induction l as [|x l IH]; cbn; [auto | rewrite insert_by_perm, IH; auto]. Qed.

(** A sorted list stays as it is, and a row above all others goes last. *)
Lemma sort_by_sorted (key : A -> Z) l :
  StronglySorted (fun x y => key x <= key y) l -> sort_by key l = l.
Proof.
  unfold sort_by; induction 1 as [| x l Hs IH Hx]; cbn; [reflexivity | rewrite IH].
  destruct Hx as [| y l Hy _]; cbn; [reflexivity |].
  destruct (Z.ltb_spec (key y) (key x)); [lia | reflexivity].
Qed.

Lemma insert_by_last (key : A -> Z) x l :
  (forall y, In y l -> key y < key x) -> insert_by key x l = l ++ [x].
Proof.
  induction l as [|y l IH]; cbn; intros Hl; [reflexivity |].
  destruct (Z.ltb_spec (key y) (key x)) as [_ | Hge]; [rewrite IH by auto; reflexivity |].
  specialize (Hl y (or_introl eq_refl)); lia.
Qed.

Lemma filter_length_perm (p : A -> bool) l l' :
  Permutation l l' -> length (List.filter p l) = length (List.filter p l').
Proof.
  induction 1; cbn; try congruence; repeat case_match; cbn; congruence.
Qed.

Lemma filter_length_le (p : A -> bool) (l : list A) :
  (length (List.filter p l) <= length l)%nat.
Proof. induction l; cbn; [lia | destruct (p a); cbn; lia]. Qed.

(** An update that takes one selected row out of a selection shrinks it. *)
Lemma filter_map_where_le (q p : A -> bool) g l :
  (forall x, p x = true -> q (g x) = false) ->
  (length (List.filter q (map_where p g l)) <= length (List.filter q l))%nat.
Proof.
  intros Hg; unfold map_where; induction l as [|x l IH]; cbn; [lia |].
  destruct (p x) eqn:E; [rewrite (Hg x E) |]; destruct (q x); cbn; lia.
Qed.

Lemma filter_map_where_lt (q p : A -> bool) g l x :
  In x l -> p x = true -> q x = true -> (forall x, p x = true -> q (g x) = false) ->
  (length (List.filter q (map_where p g l)) < length (List.filter q l))%nat.
Proof.
  intros Hin Hp Hq Hg; induction l as [|y l IH]; [destruct Hin |].
  pose proof (filter_map_where_le q p g l Hg); unfold map_where in *; cbn.
  destruct Hin as [-> | Hin].
  - rewrite Hp, (Hg x Hp), Hq; cbn; lia.
  - specialize (IH Hin); destruct (p y) eqn:E; [rewrite (Hg y E) |];
      destruct (q y); cbn; lia.
Qed.

Definition sum_by (f : A -> Z) (l : list A) : Z := fold_right (fun x a => f x + a) 0 l.

Lemma sum_by_app f l1 l2 : sum_by f (l1 ++ l2) = sum_by f l1 + sum_by f l2.
Proof. unfold sum_by; induction l1 as [|x l1 IH]; cbn; [reflexivity | rewrite IH; lia]. Qed.
End Lists.

#[global] Arguments map_where {A} p g l : simpl never.

Lemma filter_nothing {A} (p : A -> bool) l : (forall x, In x l -> p x = false) -> List.filter p l = [].
Proof. induction l as [|x l IH]; intros H; cbn; [reflexivity |]; rewrite H by (left; reflexivity); apply IH; intros; apply H; right; assumption. Qed.

Lemma filter_everything {A} (p : A -> bool) l : (forall x, In x l -> p x = true) -> List.filter p l = l.
Proof.
  induction l as [|x l IH]; intros H; cbn; [reflexivity |]; rewrite H by (left; reflexivity).
  f_equal; apply IH; intros; apply H; right; assumption.
Qed.

Lemma filter_single {A} (p : A -> bool) l x : NoDup l -> In x l -> p x = true ->
  (forall y, In y l -> p y = true -> y = x) -> List.filter p l = [x].
Proof.
  induction l as [|y l IH]; intros Hn Hin Hp Hu; [destruct Hin |]; apply list.NoDup_cons in Hn as [Hy Hn].
  rewrite list_elem_of_In in Hy; cbn; destruct Hin as [-> | Hin].
  - rewrite Hp; f_equal; apply filter_nothing; intros z Hz; destruct (p z) eqn:E; [| reflexivity].
    destruct Hy; rewrite <- (Hu z) by (auto; right; exact Hz); exact Hz.
  - destruct (p y) eqn:E; [destruct Hy; rewrite (Hu y) by (auto; left; reflexivity); exact Hin |].
    apply IH; auto; intros z Hz; apply Hu; right; exact Hz.
Qed.

(** ** Strings *)

(** [String.prototype.trim] on the ASCII white space. *)
Definition isSpace (c : Ascii.ascii) : bool :=
  existsb (fun n => bool_decide (Ascii.nat_of_ascii c = n)) [9; 10; 11; 12; 13; 32]%nat.
Fixpoint trimStart (s : string) : string :=
  match s with
  | String c s' => if isSpace c then trimStart s' else s
  | EmptyString => EmptyString
  end.
Fixpoint trimEnd (s : string) : string :=
  match s with
  | String c s' =>
      match trimEnd s' with
      | EmptyString => if isSpace c then EmptyString else String c EmptyString
      | t => String c t
      end
  | EmptyString => EmptyString
  end.
Definition trim (s : string) : string := trimEnd (trimStart s).

(** [toLocaleLowerCase] on ASCII. *)
Definition lowerChar (c : Ascii.ascii) : Ascii.ascii :=
  let n := Ascii.nat_of_ascii c in
  if ((65 <=? n) && (n <=? 90))%nat then Ascii.ascii_of_nat (n + 32) else c.
Fixpoint lower (s : string) : string :=
  match s with EmptyString => EmptyString | String c s => String (lowerChar c) (lower s) end.

(** [s.length] of the string whose UTF-8 bytes are given: the bytes that begin a character, those
    outside the basic plane counting twice. *)
Fixpoint utf16Length (s : string) : Z :=
  match s with
  | EmptyString => 0
  | String c s =>
      let n := Ascii.nat_of_ascii c in
      (if ((128 <=? n) && (n <? 192))%nat then 0 else if (240 <=? n)%nat then 2 else 1) + utf16Length s
  end.

(** [s.includes(p)] *)
Fixpoint includes (p s : string) : bool :=
  String.prefix p s || match s with EmptyString => false | String _ s => includes p s end.
