(* ===== verification/Schema.v ===== *)
(** * Schema

    The persisted data of the match engine: the enumerations and tables of
    [apps/api/prisma/schema.prisma] (and [packages/shared-types/src/enums.ts]), one
    record per row with the columns the modelled services read or write, and the
    whole store as one record of tables in insertion order. A uuid is a number drawn
    from a fresh supply, a timestamp is its epoch in milliseconds, and a nullable
    column is an option. The one join stored on
    the row that follows it: a tournament carries its sport group's code. *)
From S2P Require Import Prelude.

Abbreviation uuid := N.
Abbreviation timestamp := Z.

(** ** Enumerations

    Constructors that would collide across enumerations carry the name of theirs. *)

Inductive AthleteColor : Type :=
  | RED | BLUE.
#[export] Instance AthleteColor_eq_dec : EqDecision AthleteColor. Proof. solve_decision. Defined.

Inductive FaultSeverity : Type :=
  | MINOR | MAJOR.
#[export] Instance FaultSeverity_eq_dec : EqDecision FaultSeverity. Proof. solve_decision. Defined.

Inductive MatchStatus : Type :=
  | WAITING | ROUND_1_RUNNING | ROUND_1_PAUSED | BREAK
  | ROUND_2_RUNNING | ROUND_2_PAUSED | AWAITING_RESULT_SAVE | REGULATION_APPEAL
  | OVERTIME_READY | OVERTIME_RUNNING | OVERTIME_PAUSED | OVERTIME_APPEAL
  | OVERTIME_TIEBREAK_DECISION | RESULT_PUBLICATION_READY | FINISHED.
#[export] Instance MatchStatus_eq_dec : EqDecision MatchStatus. Proof. solve_decision. Defined.

Inductive MatchLifecycle : Type :=
  | NOT_STARTED | IN_PROGRESS | SUSPENDED | LIFECYCLE_COMPLETED.
#[export] Instance MatchLifecycle_eq_dec : EqDecision MatchLifecycle. Proof. solve_decision. Defined.

Inductive MatchExitMode : Type :=
  | CANCEL_RESULTS | SUSPEND_KEEP_ROUND_1 | SUSPEND_KEEP_ROUNDS_1_AND_2 | SUSPEND_KEEP_V2_PHASE.
#[export] Instance MatchExitMode_eq_dec : EqDecision MatchExitMode. Proof. solve_decision. Defined.

Inductive MatchDisplayState : Type :=
  | DISPLAY_NOT_READY | DISPLAY_READY | DISPLAY_NOT_STARTED | DISPLAY_IN_PROGRESS
  | DISPLAY_SUSPENDED | DISPLAY_COMPLETED.
#[export] Instance MatchDisplayState_eq_dec : EqDecision MatchDisplayState. Proof. solve_decision. Defined.

Inductive MatchRole : Type :=
  | ROLE_JUDGE | ROLE_SUPERVISOR.
#[export] Instance MatchRole_eq_dec : EqDecision MatchRole. Proof. solve_decision. Defined.

Inductive TournamentOfficialRole : Type :=
  | OFFICIAL_JUDGE | OFFICIAL_SUPERVISOR.
#[export] Instance TournamentOfficialRole_eq_dec : EqDecision TournamentOfficialRole. Proof. solve_decision. Defined.

Inductive JudgeSlot : Type :=
  | SLOT_JUDGE_1 | SLOT_JUDGE_2 | SLOT_JUDGE_3.
#[export] Instance JudgeSlot_eq_dec : EqDecision JudgeSlot. Proof. solve_decision. Defined.

Inductive MatchAccessRole : Type :=
  | ACCESS_JUDGE_1 | ACCESS_JUDGE_2 | ACCESS_JUDGE_3 | ACCESS_SUPERVISOR.
#[export] Instance MatchAccessRole_eq_dec : EqDecision MatchAccessRole. Proof. solve_decision. Defined.

Inductive RoundStage : Type :=
  | REGULATION | OVERTIME.
#[export] Instance RoundStage_eq_dec : EqDecision RoundStage. Proof. solve_decision. Defined.

Inductive MatchRulesVersion : Type :=
  | LEGACY_SCORE_PENALTY_V1 | FAULT_APPEAL_OVERTIME_V2.
#[export] Instance MatchRulesVersion_eq_dec : EqDecision MatchRulesVersion. Proof. solve_decision. Defined.

Inductive MatchAppealScope : Type :=
  | SCOPE_REGULATION | SCOPE_OVERTIME.
#[export] Instance MatchAppealScope_eq_dec : EqDecision MatchAppealScope. Proof. solve_decision. Defined.

Inductive MatchAppealStatus : Type :=
  | APPEAL_COMPLETED | APPEAL_INVALIDATED.
#[export] Instance MatchAppealStatus_eq_dec : EqDecision MatchAppealStatus. Proof. solve_decision. Defined.

Inductive MatchOutcomeMethod : Type :=
  | REGULATION_SCORE | OVERTIME_SCORE | MANUAL_AFTER_OVERTIME_TIE.
#[export] Instance MatchOutcomeMethod_eq_dec : EqDecision MatchOutcomeMethod. Proof. solve_decision. Defined.

Inductive ReleaseReason : Type :=
  | REASON_MATCH_FINISHED | OPERATIONAL_CANCELLED | MATCH_EXIT_CANCELLED | MATCH_EXIT_SUSPENDED_KEEP_ROUND_1
  | MATCH_EXIT_SUSPENDED_KEEP_ROUNDS_1_AND_2 | RESET_REQUIRES_SETUP | SUPERVISOR_RELEASED | REPLACED
  | OFFICIAL_DEACTIVATED.
#[export] Instance ReleaseReason_eq_dec : EqDecision ReleaseReason. Proof. solve_decision. Defined.

Inductive ScoreEventType : Type :=
  | JUDGE_POINT | PENALTY | ADMIN_ADJUSTMENT.
#[export] Instance ScoreEventType_eq_dec : EqDecision ScoreEventType. Proof. solve_decision. Defined.

Inductive MatchResultOperationType : Type :=
  | ROUND_RESET | MATCH_RESET | MATCH_EXIT_CANCEL_RESULTS | MATCH_EXIT_SUSPEND_KEEP_ROUND_1
  | MATCH_EXIT_SUSPEND_KEEP_ROUNDS_1_AND_2.
#[export] Instance MatchResultOperationType_eq_dec : EqDecision MatchResultOperationType. Proof. solve_decision. Defined.

Inductive MatchResultOperationStatus : Type :=
  | APPLIED | UNDONE.
#[export] Instance MatchResultOperationStatus_eq_dec : EqDecision MatchResultOperationStatus. Proof. solve_decision. Defined.

Inductive AuditEventType : Type :=
  | MATCH_ACTION | SCORE_ACTION | PENALTY_ACTION | ROUND_STARTED
  | ROUND_PAUSED | ROUND_RESUMED | ROUND_RESULT_CANCELLED | ROUND_RESULT_CANCEL_UNDONE
  | MATCH_RESULT_RESET | MATCH_RESULT_RESET_UNDONE | MATCH_EXITED | ROUND_ENDED
  | MATCH_FINISHED | BRACKET_WINNER_ADVANCED | BRACKET_WINNER_MANUALLY_DECIDED | BRACKET_WINNER_RETRACTED
  | BRACKET_COMPLETED | MATCH_OFFICIAL_ASSIGNMENT_RELEASED
  | MATCH_OFFICIAL_ASSIGNMENT_CONFIRMED | MATCH_OFFICIAL_ASSIGNMENT_REPLACED
  | BRACKET_CONFIRMED | BRACKET_CANCELLED | BRACKET_MATCH_PREPARED | BRACKET_ROUND_STAFFING_UPDATED
  | MATCH_CREATED | MATCH_UPDATED | SESSION_ACTION | ADMIN_ACTION | SYSTEM_EVENT
  | PRICING_VERSION_CREATED | TOURNAMENT_CREATED | TOURNAMENT_UPDATED | TOURNAMENT_OFFICIAL_CREATED
  | TOURNAMENT_OFFICIAL_UPDATED | TOURNAMENT_OFFICIAL_DEACTIVATED
  | TOURNAMENT_OFFICIAL_PASSCODE_REGENERATED.
#[export] Instance AuditEventType_eq_dec : EqDecision AuditEventType. Proof. solve_decision. Defined.

Inductive TournamentStatus : Type :=
  | TOURNAMENT_DRAFT | TOURNAMENT_ACTIVE | TOURNAMENT_FINISHED | TOURNAMENT_ARCHIVED.
#[export] Instance TournamentStatus_eq_dec : EqDecision TournamentStatus. Proof. solve_decision. Defined.

Inductive BracketStatus : Type :=
  | BRACKET_ACTIVE | BRACKET_STATUS_COMPLETED | BRACKET_STATUS_CANCELLED.
#[export] Instance BracketStatus_eq_dec : EqDecision BracketStatus. Proof. solve_decision. Defined.

Inductive BracketFixtureStatus : Type :=
  | PENDING_PARTICIPANTS | FIXTURE_READY | MATCH_PREPARED | AWAITING_WINNER
  | FIXTURE_COMPLETED.
#[export] Instance BracketFixtureStatus_eq_dec : EqDecision BracketFixtureStatus. Proof. solve_decision. Defined.

Inductive UserRole : Type :=
  | SUPER_ADMIN | ADMIN | USER.
#[export] Instance UserRole_eq_dec : EqDecision UserRole. Proof. solve_decision. Defined.

Inductive AdminEntitlementStatus : Type :=
  | ENTITLEMENT_ACTIVE | ENTITLEMENT_SUSPENDED | ENTITLEMENT_EXPIRED | ENTITLEMENT_REVOKED.
#[export] Instance AdminEntitlementStatus_eq_dec : EqDecision AdminEntitlementStatus. Proof. solve_decision. Defined.

Inductive TournamentDeletionReason : Type :=
  | ADMIN_SUBSCRIPTION_LAPSED.
#[export] Instance TournamentDeletionReason_eq_dec : EqDecision TournamentDeletionReason. Proof. solve_decision. Defined.

Inductive PricingDiscountType : Type :=
  | DURATION | TOURNAMENT.
#[export] Instance PricingDiscountType_eq_dec : EqDecision PricingDiscountType. Proof. solve_decision. Defined.

(** ** JSON

    Audit metadata and stored responses; enumeration values and ids keep their type
    where the source writes their string. *)
Inductive json : Type :=
  | JNull
  | JBool (b : bool)
  | JNum (n : Z)
  | JStr (s : string)
  | JId (u : uuid)
  | JTime (t : timestamp)
  | JStatus (s : MatchStatus)
  | JColor (c : AthleteColor)
  | JSlot (s : JudgeSlot)
  | JStage (s : RoundStage)
  | JMode (m : MatchExitMode)
  | JSeverity (s : FaultSeverity)
  | JMethod (m : MatchOutcomeMethod)
  | JReason (r : ReleaseReason)
  | JRole (r : TournamentOfficialRole)
  | JLifecycle (l : MatchLifecycle)
  | JFixtureStatus (s : BracketFixtureStatus)
  | JMatchRole (r : MatchRole)
  | JUserRole (r : UserRole)
  | JEntitlement (s : AdminEntitlementStatus)
  | JTournamentStatus (s : TournamentStatus)
  | JList (l : list json)
  | JObj (fields : list (string * json)).

(** [x ?? null] in metadata. *)
Definition jopt {A} (f : A -> json) (o : option A) : json :=
  match o with Some a => f a | None => JNull end.

(** ** Stored responses *)
Record DecisionResponse : Type := mkDecisionResponse {
  dr_fixtureId : uuid; dr_winnerEntrantId : uuid; dr_bracketId : uuid }.

Record PublicationResponse : Type := mkPublicationResponse {
  pr_matchId : uuid; pr_matchPublicId : string; pr_tournamentId : uuid;
  pr_releasedOfficialIds : list uuid; pr_winner : AthleteColor;
  pr_method : MatchOutcomeMethod; pr_finishedAt : timestamp }.

(** ** Rows *)

Record TournamentRow : Type := mkTournamentRow {
  tn_id : uuid; tn_sportGroupCode : string; tn_status : TournamentStatus; tn_softDeletedAt :
  option timestamp; tn_publicCode : string; tn_name : string; tn_ownerUserId : uuid; tn_sportId
  : uuid; tn_startDate : option timestamp; tn_endDate : option timestamp; tn_imagePath : option
  string; tn_purgeAfter : option timestamp; tn_deletionReason : option TournamentDeletionReason;
  tn_restoredAt : option timestamp }.
#[export] Instance eta_TournamentRow : Eta TournamentRow := fun x => mkTournamentRow
  (tn_id x) (tn_sportGroupCode x) (tn_status x) (tn_softDeletedAt x) (tn_publicCode x) (tn_name
  x) (tn_ownerUserId x) (tn_sportId x) (tn_startDate x) (tn_endDate x) (tn_imagePath x)
  (tn_purgeAfter x) (tn_deletionReason x) (tn_restoredAt x).

Record MatchRow : Type := mkMatchRow {
  m_id : uuid; m_publicId : string; m_tournamentId : uuid;
  m_bracketFixtureId : option uuid; m_requiredJudgeCount : Z; m_status : MatchStatus;
  m_lifecycle : MatchLifecycle; m_rulesVersion : MatchRulesVersion;
  m_suspendedAt : option timestamp; m_currentRound : option Z; m_roundDurationMs : Z;
  m_intermissionEndsAt : option timestamp;
  m_startedAt : option timestamp; m_finishedAt : option timestamp;
  m_weightClassId : option uuid; m_breakDurationMs : Z }.
#[export] Instance eta_MatchRow : Eta MatchRow := fun x => mkMatchRow (m_id x)
  (m_publicId x) (m_tournamentId x) (m_bracketFixtureId x) (m_requiredJudgeCount x)
  (m_status x) (m_lifecycle x) (m_rulesVersion x) (m_suspendedAt x) (m_currentRound x)
  (m_roundDurationMs x) (m_intermissionEndsAt x)
  (m_startedAt x) (m_finishedAt x) (m_weightClassId x) (m_breakDurationMs x).

Record RoundRow : Type := mkRoundRow {
  r_id : uuid; r_matchId : uuid; r_roundNumber : Z; r_stage : RoundStage;
  r_attemptNumber : Z; r_durationMs : option Z; r_startedAt : timestamp;
  r_endsAt : timestamp; r_pausedAt : option timestamp; r_remainingDurationMs : option Z;
  r_invalidatedAt : option timestamp; r_invalidatedByAuditId : option uuid;
  r_endedAt : option timestamp; r_createdAt : timestamp }.
#[export] Instance eta_RoundRow : Eta RoundRow := fun x => mkRoundRow (r_id x)
  (r_matchId x) (r_roundNumber x) (r_stage x) (r_attemptNumber x) (r_durationMs x)
  (r_startedAt x) (r_endsAt x) (r_pausedAt x) (r_remainingDurationMs x)
  (r_invalidatedAt x) (r_invalidatedByAuditId x) (r_endedAt x) (r_createdAt x).

Record WindowRow : Type := mkWindowRow {
  w_id : uuid; w_matchId : uuid; w_roundNumber : Z; w_roundId : option uuid;
  w_roundElapsedMs : option Z; w_startedAt : timestamp; w_endsAt : timestamp;
  w_resolvedAt : option timestamp; w_winningColor : option AthleteColor;
  w_scoreAwarded : bool; w_invalidatedAt : option timestamp;
  w_invalidatedByAuditId : option uuid; w_createdAt : timestamp }.
#[export] Instance eta_WindowRow : Eta WindowRow := fun x => mkWindowRow (w_id x)
  (w_matchId x) (w_roundNumber x) (w_roundId x) (w_roundElapsedMs x) (w_startedAt x)
  (w_endsAt x) (w_resolvedAt x) (w_winningColor x) (w_scoreAwarded x) (w_invalidatedAt x)
  (w_invalidatedByAuditId x) (w_createdAt x).

Record VoteRow : Type := mkVoteRow {
  v_id : uuid; v_scoringWindowId : uuid; v_matchId : uuid;
  v_judgeSlot : option JudgeSlot; v_athleteColor : AthleteColor;
  v_sessionId : option uuid; v_assignmentId : option uuid;
  v_serverReceivedAt : timestamp; v_invalidatedAt : option timestamp;
  v_invalidatedByAuditId : option uuid }.
#[export] Instance eta_VoteRow : Eta VoteRow := fun x => mkVoteRow (v_id x)
  (v_scoringWindowId x) (v_matchId x) (v_judgeSlot x) (v_athleteColor x) (v_sessionId x)
  (v_assignmentId x) (v_serverReceivedAt x) (v_invalidatedAt x)
  (v_invalidatedByAuditId x).

Record ScoreEventRow : Type := mkScoreEventRow {
  e_id : uuid; e_matchId : uuid; e_athleteId : uuid; e_roundNumber : option Z;
  e_roundId : option uuid; e_occurredAt : option timestamp; e_roundElapsedMs : option Z;
  e_type : ScoreEventType; e_value : Z; e_scoringWindowId : option uuid;
  e_penaltyId : option uuid; e_createdAt : timestamp; e_revertedAt : option timestamp;
  e_revertedByAuditId : option uuid }.
#[export] Instance eta_ScoreEventRow : Eta ScoreEventRow := fun x => mkScoreEventRow
  (e_id x) (e_matchId x) (e_athleteId x) (e_roundNumber x) (e_roundId x) (e_occurredAt x)
  (e_roundElapsedMs x) (e_type x) (e_value x) (e_scoringWindowId x) (e_penaltyId x)
  (e_createdAt x) (e_revertedAt x) (e_revertedByAuditId x).

Record PenaltyRow : Type := mkPenaltyRow {
  p_id : uuid; p_matchId : uuid; p_athleteId : uuid; p_roundNumber : option Z;
  p_value : Z; p_createdBySessionId : option uuid; p_createdAt : timestamp;
  p_revertedAt : option timestamp; p_revertedByAuditId : option uuid }.
#[export] Instance eta_PenaltyRow : Eta PenaltyRow := fun x => mkPenaltyRow (p_id x)
  (p_matchId x) (p_athleteId x) (p_roundNumber x) (p_value x) (p_createdBySessionId x)
  (p_createdAt x) (p_revertedAt x) (p_revertedByAuditId x).

Record FaultRow : Type := mkFaultRow {
  f_id : uuid; f_matchId : uuid; f_athleteId : uuid; f_roundId : uuid;
  f_severity : FaultSeverity; f_recordingSupervisorAssignmentId : option uuid;
  f_recordingSupervisorSessionId : option uuid; f_createdAt : timestamp;
  f_invalidatedAt : option timestamp; f_invalidatedByAuditId : option uuid }.
#[export] Instance eta_FaultRow : Eta FaultRow := fun x => mkFaultRow (f_id x)
  (f_matchId x) (f_athleteId x) (f_roundId x) (f_severity x)
  (f_recordingSupervisorAssignmentId x) (f_recordingSupervisorSessionId x)
  (f_createdAt x) (f_invalidatedAt x) (f_invalidatedByAuditId x).

Record RoundResultRow : Type := mkRoundResultRow {
  rr_id : uuid; rr_matchId : uuid; rr_roundId : uuid; rr_athleteId : uuid;
  rr_judgePoints : Z; rr_faultCount : Z; rr_capturedAt : timestamp;
  rr_invalidatedAt : option timestamp; rr_invalidatedByAuditId : option uuid }.
#[export] Instance eta_RoundResultRow : Eta RoundResultRow := fun x => mkRoundResultRow
  (rr_id x) (rr_matchId x) (rr_roundId x) (rr_athleteId x) (rr_judgePoints x)
  (rr_faultCount x) (rr_capturedAt x) (rr_invalidatedAt x) (rr_invalidatedByAuditId x).

Record AppealRow : Type := mkAppealRow {
  ap_id : uuid; ap_matchId : uuid; ap_scope : MatchAppealScope; ap_attemptNumber : Z;
  ap_status : MatchAppealStatus; ap_sourceRoundId : uuid;
  ap_completedSupervisorAssignmentId : option uuid;
  ap_completedSupervisorSessionId : option uuid; ap_completedAt : timestamp;
  ap_idempotencyKey : option string; ap_invalidatedAt : option timestamp;
  ap_invalidatedByAuditId : option uuid }.
#[export] Instance eta_AppealRow : Eta AppealRow := fun x => mkAppealRow (ap_id x)
  (ap_matchId x) (ap_scope x) (ap_attemptNumber x) (ap_status x) (ap_sourceRoundId x)
  (ap_completedSupervisorAssignmentId x) (ap_completedSupervisorSessionId x)
  (ap_completedAt x) (ap_idempotencyKey x) (ap_invalidatedAt x)
  (ap_invalidatedByAuditId x).

Record AppealRoundRow : Type := mkAppealRoundRow {
  ar_appealId : uuid; ar_roundId : uuid }.
#[export] Instance eta_AppealRoundRow : Eta AppealRoundRow := fun x => mkAppealRoundRow
  (ar_appealId x) (ar_roundId x).

Record AdjustmentRow : Type := mkAdjustmentRow {
  aa_appealId : uuid; aa_athleteId : uuid; aa_baseJudgeScore : Z; aa_bonusPoints : Z;
  aa_penaltyPoints : Z; aa_finalScore : Z }.
#[export] Instance eta_AdjustmentRow : Eta AdjustmentRow := fun x => mkAdjustmentRow
  (aa_appealId x) (aa_athleteId x) (aa_baseJudgeScore x) (aa_bonusPoints x)
  (aa_penaltyPoints x) (aa_finalScore x).

Record DecisionRow : Type := mkDecisionRow {
  dc_id : uuid; dc_matchId : uuid; dc_winnerAthleteId : uuid;
  dc_winnerColor : AthleteColor; dc_sourceAppealId : uuid;
  dc_sourceOvertimeRoundId : uuid; dc_selectedSupervisorAssignmentId : option uuid;
  dc_selectedSupervisorSessionId : option uuid; dc_selectedAt : timestamp;
  dc_invalidatedAt : option timestamp; dc_invalidatedByAuditId : option uuid }.
#[export] Instance eta_DecisionRow : Eta DecisionRow := fun x => mkDecisionRow (dc_id x)
  (dc_matchId x) (dc_winnerAthleteId x) (dc_winnerColor x) (dc_sourceAppealId x)
  (dc_sourceOvertimeRoundId x) (dc_selectedSupervisorAssignmentId x)
  (dc_selectedSupervisorSessionId x) (dc_selectedAt x) (dc_invalidatedAt x)
  (dc_invalidatedByAuditId x).

Record OutcomeRow : Type := mkOutcomeRow {
  oc_id : uuid; oc_matchId : uuid; oc_winnerAthleteId : uuid;
  oc_winnerColor : AthleteColor; oc_method : MatchOutcomeMethod;
  oc_sourceAppealId : option uuid; oc_sourceOvertimeRoundId : option uuid;
  oc_publishedSupervisorAssignmentId : option uuid;
  oc_publishedSupervisorSessionId : option uuid; oc_publishedAt : timestamp }.
#[export] Instance eta_OutcomeRow : Eta OutcomeRow := fun x => mkOutcomeRow (oc_id x)
  (oc_matchId x) (oc_winnerAthleteId x) (oc_winnerColor x) (oc_method x)
  (oc_sourceAppealId x) (oc_sourceOvertimeRoundId x)
  (oc_publishedSupervisorAssignmentId x) (oc_publishedSupervisorSessionId x)
  (oc_publishedAt x).

Record PublicationRow : Type := mkPublicationRow {
  pb_id : uuid; pb_matchId : uuid; pb_idempotencyKey : string; pb_fingerprint : string;
  pb_response : PublicationResponse; pb_createdAt : timestamp }.
#[export] Instance eta_PublicationRow : Eta PublicationRow := fun x => mkPublicationRow
  (pb_id x) (pb_matchId x) (pb_idempotencyKey x) (pb_fingerprint x) (pb_response x)
  (pb_createdAt x).

Record OperationRow : Type := mkOperationRow {
  op_id : uuid; op_matchId : uuid; op_auditLogId : uuid;
  op_type : MatchResultOperationType; op_roundNumbers : list Z;
  op_previousStatus : MatchStatus; op_previousLifecycle : MatchLifecycle;
  op_previousCurrentRound : option Z; op_previousStartedAt : option timestamp;
  op_previousFinishedAt : option timestamp; op_resultingStatus : MatchStatus;
  op_resultingLifecycle : MatchLifecycle; op_resultingCurrentRound : option Z;
  op_createdBySessionId : option uuid; op_status : MatchResultOperationStatus;
  op_createdAt : timestamp; op_undoneAt : option timestamp }.
#[export] Instance eta_OperationRow : Eta OperationRow := fun x => mkOperationRow
  (op_id x) (op_matchId x) (op_auditLogId x) (op_type x) (op_roundNumbers x)
  (op_previousStatus x) (op_previousLifecycle x) (op_previousCurrentRound x)
  (op_previousStartedAt x) (op_previousFinishedAt x) (op_resultingStatus x)
  (op_resultingLifecycle x) (op_resultingCurrentRound x) (op_createdBySessionId x)
  (op_status x) (op_createdAt x) (op_undoneAt x).

Record AuditRow : Type := mkAuditRow {
  al_id : uuid; al_matchId : option uuid; al_adminUserId : option uuid;
  al_sessionId : option uuid; al_officialSessionId : option uuid;
  al_eventType : AuditEventType; al_metadata : json }.
#[export] Instance eta_AuditRow : Eta AuditRow := fun x => mkAuditRow (al_id x)
  (al_matchId x) (al_adminUserId x) (al_sessionId x) (al_officialSessionId x)
  (al_eventType x) (al_metadata x).

Record MatchAthleteRow : Type := mkMatchAthleteRow {
  ma_id : uuid; ma_matchId : uuid; ma_athleteId : option uuid;
  ma_color : AthleteColor; ma_name : string; ma_organization : option string }.
#[export] Instance eta_MatchAthleteRow : Eta MatchAthleteRow := fun x => mkMatchAthleteRow
  (ma_id x) (ma_matchId x) (ma_athleteId x) (ma_color x) (ma_name x) (ma_organization x).

Record AssignmentRow : Type := mkAssignmentRow {
  oa_id : uuid; oa_matchId : uuid; oa_tournamentId : uuid; oa_officialId : uuid;
  oa_role : TournamentOfficialRole; oa_judgePosition : option Z;
  oa_assignedBySupervisorId : option uuid; oa_assignedAt : timestamp;
  oa_releasedAt : option timestamp; oa_releaseReason : option ReleaseReason }.
#[export] Instance eta_AssignmentRow : Eta AssignmentRow := fun x => mkAssignmentRow
  (oa_id x) (oa_matchId x) (oa_tournamentId x) (oa_officialId x) (oa_role x)
  (oa_judgePosition x) (oa_assignedBySupervisorId x) (oa_assignedAt x) (oa_releasedAt x) (oa_releaseReason x).

Record OfficialSessionRow : Type := mkOfficialSessionRow {
  os_id : uuid; os_officialId : uuid; os_active : bool; os_expiresAt : option timestamp;
  os_revokedAt : option timestamp; os_deviceId : string; os_tokenHash : string; os_lastSeenAt :
  option timestamp }.
#[export] Instance eta_OfficialSessionRow : Eta OfficialSessionRow := fun x => mkOfficialSessionRow
  (os_id x) (os_officialId x) (os_active x) (os_expiresAt x) (os_revokedAt x) (os_deviceId x)
  (os_tokenHash x) (os_lastSeenAt x).

Record OfficialRow : Type := mkOfficialRow {
  tf_id : uuid; tf_tournamentId : uuid; tf_role : TournamentOfficialRole; tf_isActive : bool;
  tf_name : string; tf_normalizedName : string; tf_passcodeHash : string;
  tf_passcodeLookupDigest : string; tf_deactivatedAt : option timestamp }.
#[export] Instance eta_OfficialRow : Eta OfficialRow := fun x => mkOfficialRow
  (tf_id x) (tf_tournamentId x) (tf_role x) (tf_isActive x) (tf_name x) (tf_normalizedName x)
  (tf_passcodeHash x) (tf_passcodeLookupDigest x) (tf_deactivatedAt x).

Record AccessCodeRow : Type := mkAccessCodeRow {
  ac_id : uuid; ac_matchId : uuid; ac_role : MatchAccessRole; ac_codeHash : string }.
#[export] Instance eta_AccessCodeRow : Eta AccessCodeRow := fun x => mkAccessCodeRow
  (ac_id x) (ac_matchId x) (ac_role x) (ac_codeHash x).

Record SessionRow : Type := mkSessionRow {
  ms_id : uuid; ms_matchId : uuid; ms_accessCodeId : uuid; ms_role : MatchRole; ms_judgeSlot :
  option JudgeSlot; ms_tokenHash : string; ms_active : bool; ms_expiresAt : option timestamp;
  ms_revokedAt : option timestamp; ms_deviceId : string; ms_lastSeenAt : option timestamp }.
#[export] Instance eta_SessionRow : Eta SessionRow := fun x => mkSessionRow
  (ms_id x) (ms_matchId x) (ms_accessCodeId x) (ms_role x) (ms_judgeSlot x) (ms_tokenHash x)
  (ms_active x) (ms_expiresAt x) (ms_revokedAt x) (ms_deviceId x) (ms_lastSeenAt x).

Record BracketRow : Type := mkBracketRow {
  br_id : uuid; br_tournamentId : uuid; br_weightClassId : uuid;
  br_status : BracketStatus; br_roundCount : Z; br_completedAt : option timestamp;
  br_championEntrantId : option uuid; br_athleteCount : Z; br_bracketSize : Z;
  br_confirmationKey : string; br_confirmationFingerprint : string;
  br_confirmedByUserId : option uuid; br_cancelledAt : option timestamp }.
#[export] Instance eta_BracketRow : Eta BracketRow := fun x => mkBracketRow (br_id x)
  (br_tournamentId x) (br_weightClassId x) (br_status x) (br_roundCount x)
  (br_completedAt x) (br_championEntrantId x) (br_athleteCount x) (br_bracketSize x)
  (br_confirmationKey x) (br_confirmationFingerprint x) (br_confirmedByUserId x) (br_cancelledAt x).

Record EntrantRow : Type := mkEntrantRow {
  en_id : uuid; en_bracketId : uuid; en_athleteId : uuid; en_snapshotName : string;
  en_snapshotBirthYear : Z; en_snapshotOrganization : option string;
  en_snapshotImagePath : option string; en_initialRoundNumber : Z;
  en_initialFixturePosition : option Z; en_initialSide : option AthleteColor;
  en_receivedBye : bool }.
#[export] Instance eta_EntrantRow : Eta EntrantRow := fun x => mkEntrantRow (en_id x)
  (en_bracketId x) (en_athleteId x) (en_snapshotName x) (en_snapshotBirthYear x)
  (en_snapshotOrganization x) (en_snapshotImagePath x) (en_initialRoundNumber x)
  (en_initialFixturePosition x) (en_initialSide x) (en_receivedBye x).

Record FixtureRow : Type := mkFixtureRow {
  fx_id : uuid; fx_bracketId : uuid; fx_roundNumber : Z; fx_position : Z;
  fx_status : BracketFixtureStatus; fx_winnerEntrantId : option uuid;
  fx_winnerDecision : option json; fx_displayReference : string }.
#[export] Instance eta_FixtureRow : Eta FixtureRow := fun x => mkFixtureRow (fx_id x)
  (fx_bracketId x) (fx_roundNumber x) (fx_position x) (fx_status x)
  (fx_winnerEntrantId x) (fx_winnerDecision x) (fx_displayReference x).

Record SlotRow : Type := mkSlotRow {
  sl_id : uuid; sl_fixtureId : uuid; sl_side : AthleteColor;
  sl_sourceFixtureId : option uuid; sl_resolvedEntrantId : option uuid;
  sl_directEntrantId : option uuid }.
#[export] Instance eta_SlotRow : Eta SlotRow := fun x => mkSlotRow (sl_id x)
  (sl_fixtureId x) (sl_side x) (sl_sourceFixtureId x) (sl_resolvedEntrantId x) (sl_directEntrantId x).

Record WinnerDecisionKeyRow : Type := mkWinnerDecisionKeyRow {
  wk_key : string; wk_fixtureId : uuid; wk_entrantId : uuid;
  wk_requestFingerprint : string; wk_response : DecisionResponse }.
#[export] Instance eta_WinnerDecisionKeyRow : Eta WinnerDecisionKeyRow := fun x => mkWinnerDecisionKeyRow
  (wk_key x) (wk_fixtureId x) (wk_entrantId x) (wk_requestFingerprint x) (wk_response x).

Record WeightClassRow : Type := mkWeightClassRow {
  wc_id : uuid; wc_tournamentId : uuid; wc_name : string;
  wc_intermissionDurationSeconds : Z; wc_isActive : bool; wc_normalizedName : string;
  wc_details : option string; wc_deactivatedAt : option timestamp }.
#[export] Instance eta_WeightClassRow : Eta WeightClassRow := fun x => mkWeightClassRow
  (wc_id x) (wc_tournamentId x) (wc_name x) (wc_intermissionDurationSeconds x) (wc_isActive x)
  (wc_normalizedName x) (wc_details x) (wc_deactivatedAt x).

Record OrganizationRow : Type := mkOrganizationRow {
  og_id : uuid; og_tournamentId : uuid; og_name : string; og_isActive : bool;
  og_updatedAt : timestamp; og_normalizedName : string; og_normalizedLocation : string;
  og_location : option string; og_details : option string; og_imagePath : option string;
  og_deactivatedAt : option timestamp }.
#[export] Instance eta_OrganizationRow : Eta OrganizationRow := fun x => mkOrganizationRow
  (og_id x) (og_tournamentId x) (og_name x) (og_isActive x) (og_updatedAt x)
  (og_normalizedName x) (og_normalizedLocation x) (og_location x) (og_details x) (og_imagePath x) (og_deactivatedAt x).

Record AthleteRow : Type := mkAthleteRow {
  at_id : uuid; at_tournamentId : uuid; at_organizationId : option uuid;
  at_weightClassId : uuid; at_name : string; at_birthYear : Z; at_imagePath : option string;
  at_isSeed : bool; at_isActive : bool; at_updatedAt : timestamp;
  at_details : option string; at_deactivatedAt : option timestamp }.
#[export] Instance eta_AthleteRow : Eta AthleteRow := fun x => mkAthleteRow (at_id x)
  (at_tournamentId x) (at_organizationId x) (at_weightClassId x) (at_name x)
  (at_birthYear x) (at_imagePath x) (at_isSeed x) (at_isActive x) (at_updatedAt x)
  (at_details x) (at_deactivatedAt x).

Record StaffingRow : Type := mkStaffingRow {
  st_id : uuid; st_bracketId : uuid; st_roundNumber : Z; st_requiredJudgeCount : Z }.
#[export] Instance eta_StaffingRow : Eta StaffingRow := fun x => mkStaffingRow (st_id x)
  (st_bracketId x) (st_roundNumber x) (st_requiredJudgeCount x).

Record UserRow : Type := mkUserRow {
  us_id : uuid; us_username : string; us_normalizedUsername : string; us_fullName : option
  string; us_email : option string; us_normalizedEmail : option string; us_phone : option
  string; us_normalizedPhone : option string; us_organization : option string; us_passwordHash :
  string; us_role : UserRole; us_isActive : bool; us_deletedAt : option timestamp }.
#[export] Instance eta_UserRow : Eta UserRow := fun x => mkUserRow
  (us_id x) (us_username x) (us_normalizedUsername x) (us_fullName x) (us_email x)
  (us_normalizedEmail x) (us_phone x) (us_normalizedPhone x) (us_organization x)
  (us_passwordHash x) (us_role x) (us_isActive x) (us_deletedAt x).

Record EntitlementRow : Type := mkEntitlementRow {
  ae_id : uuid; ae_userId : uuid; ae_status : AdminEntitlementStatus; ae_activeFrom : timestamp;
  ae_activeUntil : timestamp; ae_tournamentLimit : Z; ae_adminAccessEndedAt : option timestamp }.
#[export] Instance eta_EntitlementRow : Eta EntitlementRow := fun x => mkEntitlementRow
  (ae_id x) (ae_userId x) (ae_status x) (ae_activeFrom x) (ae_activeUntil x) (ae_tournamentLimit
  x) (ae_adminAccessEndedAt x).

Record OrderRow : Type := mkOrderRow {
  so_id : uuid; so_userId : uuid; so_pricingPlanVersionId : uuid; so_idempotencyKey : string;
  so_durationBundle : Z; so_tournamentBundle : Z; so_durationMonthsGranted : Z;
  so_tournamentLimitGranted : Z; so_priceSnapshot : json; so_totalAmountVnd : Z }.
#[export] Instance eta_OrderRow : Eta OrderRow := fun x => mkOrderRow
  (so_id x) (so_userId x) (so_pricingPlanVersionId x) (so_idempotencyKey x) (so_durationBundle
  x) (so_tournamentBundle x) (so_durationMonthsGranted x) (so_tournamentLimitGranted x)
  (so_priceSnapshot x) (so_totalAmountVnd x).

Record PlanRow : Type := mkPlanRow {
  pp_id : uuid; pp_baseAmountVnd : Z; pp_baseDurationMonths : Z; pp_baseTournamentLimit : Z;
  pp_durationAddonUnitAmountVnd : Z; pp_tournamentAddonUnitAmountVnd : Z; pp_active : bool;
  pp_activatedAt : option timestamp; pp_createdByUserId : option uuid }.
#[export] Instance eta_PlanRow : Eta PlanRow := fun x => mkPlanRow
  (pp_id x) (pp_baseAmountVnd x) (pp_baseDurationMonths x) (pp_baseTournamentLimit x)
  (pp_durationAddonUnitAmountVnd x) (pp_tournamentAddonUnitAmountVnd x) (pp_active x)
  (pp_activatedAt x) (pp_createdByUserId x).

Record TierRow : Type := mkTierRow {
  dt_id : uuid; dt_pricingPlanVersionId : uuid; dt_type : PricingDiscountType; dt_quantity : Z;
  dt_discountBasisPoints : Z }.
#[export] Instance eta_TierRow : Eta TierRow := fun x => mkTierRow
  (dt_id x) (dt_pricingPlanVersionId x) (dt_type x) (dt_quantity x) (dt_discountBasisPoints x).

Record MediaDeletionRow : Type := mkMediaDeletionRow {
  md_id : uuid; md_storageKey : string; md_reason : string; md_createdAt : timestamp;
  md_attempts : Z; md_lastError : option string; md_lastTriedAt : option timestamp;
  md_nextAttemptAt : timestamp; md_leaseOwner : option string; md_leaseUntil : option timestamp }.
#[export] Instance eta_MediaDeletionRow : Eta MediaDeletionRow := fun x => mkMediaDeletionRow
  (md_id x) (md_storageKey x) (md_reason x) (md_createdAt x) (md_attempts x) (md_lastError x)
  (md_lastTriedAt x) (md_nextAttemptAt x) (md_leaseOwner x) (md_leaseUntil x).

Record SportGroupRow : Type := mkSportGroupRow {
  sg_id : uuid; sg_code : string; sg_name : string }.
#[export] Instance eta_SportGroupRow : Eta SportGroupRow := fun x => mkSportGroupRow
  (sg_id x) (sg_code x) (sg_name x).

Record SportRow : Type := mkSportRow {
  sp_id : uuid; sp_code : string; sp_name : string; sp_normalizedName : string; sp_sportGroupId
  : uuid; sp_isActive : bool }.
#[export] Instance eta_SportRow : Eta SportRow := fun x => mkSportRow
  (sp_id x) (sp_code x) (sp_name x) (sp_normalizedName x) (sp_sportGroupId x) (sp_isActive x).

Record MediaMigrationRow : Type := mkMediaMigrationRow { mg_storageKey : string; mg_state : string }.
#[export] Instance eta_MediaMigrationRow : Eta MediaMigrationRow := fun x => mkMediaMigrationRow
  (mg_storageKey x) (mg_state x).

(** The results an import confirmation stores. *)
Inductive ImportStatus : Type := IMPORT_ELIGIBLE | IMPORT_INVALID | IMPORT_CREATED | IMPORT_FAILED.
#[export] Instance ImportStatus_eq_dec : EqDecision ImportStatus. Proof. solve_decision. Defined.
Inductive UnitStatus : Type := UNIT_EXISTING | UNIT_CREATED | UNIT_RESTORED | UNIT_PENDING | UNIT_INVALID.
#[export] Instance UnitStatus_eq_dec : EqDecision UnitStatus. Proof. solve_decision. Defined.
Inductive ImportedAthleteStatus : Type := ATHLETE_PENDING | ATHLETE_CREATED | ATHLETE_INVALID | ATHLETE_FAILED.
#[export] Instance ImportedAthleteStatus_eq_dec : EqDecision ImportedAthleteStatus. Proof. solve_decision. Defined.

Record ImportResult : Type := mkImportResult {
  ir_inputIndex : nat; ir_rowNumber : Z; ir_status : ImportStatus; ir_errors : list string;
  ir_unitName : string; ir_unitLocality : string; ir_unitStatus : UnitStatus; ir_unitErrors : list string;
  ir_athleteName : string; ir_athleteStatus : ImportedAthleteStatus; ir_athleteErrors : list string }.
#[export] Instance ImportResult_eq_dec : EqDecision ImportResult. Proof. solve_decision. Defined.
#[export] Instance eta_ImportResult : Eta ImportResult := fun x => mkImportResult
  (ir_inputIndex x) (ir_rowNumber x) (ir_status x) (ir_errors x) (ir_unitName x) (ir_unitLocality x)
  (ir_unitStatus x) (ir_unitErrors x) (ir_athleteName x) (ir_athleteStatus x) (ir_athleteErrors x).

Record ImportConfirmationRow : Type := mkImportConfirmationRow {
  ic_id : uuid; ic_tournamentId : uuid; ic_actorId : uuid; ic_key : string; ic_fingerprint : string;
  ic_results : list ImportResult }.
#[export] Instance eta_ImportConfirmationRow : Eta ImportConfirmationRow := fun x => mkImportConfirmationRow
  (ic_id x) (ic_tournamentId x) (ic_actorId x) (ic_key x) (ic_fingerprint x) (ic_results x).

(** ** The store *)
Record DB : Type := mkDB {
  db_nextId : uuid;
  db_tournaments : list TournamentRow;
  db_matches : list MatchRow;
  db_rounds : list RoundRow;
  db_scoringWindows : list WindowRow;
  db_judgeVotes : list VoteRow;
  db_scoreEvents : list ScoreEventRow;
  db_penalties : list PenaltyRow;
  db_faults : list FaultRow;
  db_roundAthleteResults : list RoundResultRow;
  db_matchAppeals : list AppealRow;
  db_matchAppealRounds : list AppealRoundRow;
  db_matchAppealAdjustments : list AdjustmentRow;
  db_matchResultDecisions : list DecisionRow;
  db_matchOutcomes : list OutcomeRow;
  db_matchResultPublications : list PublicationRow;
  db_matchResultOperations : list OperationRow;
  db_auditLogs : list AuditRow;
  db_matchAthletes : list MatchAthleteRow;
  db_matchOfficialAssignments : list AssignmentRow;
  db_tournamentOfficialSessions : list OfficialSessionRow;
  db_tournamentOfficials : list OfficialRow;
  db_matchAccessCodes : list AccessCodeRow;
  db_matchSessions : list SessionRow;
  db_tournamentBrackets : list BracketRow;
  db_bracketEntrants : list EntrantRow;
  db_bracketFixtures : list FixtureRow;
  db_bracketSlots : list SlotRow;
  db_bracketWinnerDecisionIdempotency : list WinnerDecisionKeyRow;
  db_tournamentWeightClasses : list WeightClassRow;
  db_tournamentOrganizations : list OrganizationRow;
  db_tournamentAthletes : list AthleteRow;
  db_bracketRoundStaffing : list StaffingRow;
  db_users : list UserRow;
  db_adminEntitlements : list EntitlementRow;
  db_subscriptionOrders : list OrderRow;
  db_pricingPlanVersions : list PlanRow;
  db_pricingDiscountTiers : list TierRow;
  db_mediaDeletions : list MediaDeletionRow;
  db_sportGroups : list SportGroupRow;
  db_sports : list SportRow;
  db_mediaMigrations : list MediaMigrationRow;
  db_athleteImportConfirmations : list ImportConfirmationRow }.
#[export] Instance eta_DB : Eta DB := fun d => mkDB (db_nextId d) (db_tournaments d)
  (db_matches d) (db_rounds d) (db_scoringWindows d) (db_judgeVotes d) (db_scoreEvents d)
  (db_penalties d) (db_faults d) (db_roundAthleteResults d) (db_matchAppeals d)
  (db_matchAppealRounds d) (db_matchAppealAdjustments d) (db_matchResultDecisions d)
  (db_matchOutcomes d) (db_matchResultPublications d) (db_matchResultOperations d)
  (db_auditLogs d) (db_matchAthletes d) (db_matchOfficialAssignments d)
  (db_tournamentOfficialSessions d) (db_tournamentOfficials d) (db_matchAccessCodes d)
  (db_matchSessions d) (db_tournamentBrackets d) (db_bracketEntrants d)
  (db_bracketFixtures d) (db_bracketSlots d) (db_bracketWinnerDecisionIdempotency d)
  (db_tournamentWeightClasses d) (db_tournamentOrganizations d) (db_tournamentAthletes d)
  (db_bracketRoundStaffing d) (db_users d) (db_adminEntitlements d) (db_subscriptionOrders d) (db_pricingPlanVersions d) (db_pricingDiscountTiers d) (db_mediaDeletions d) (db_sportGroups d) (db_sports d)
  (db_mediaMigrations d) (db_athleteImportConfirmations d).

Definition emptyDB : DB := mkDB 0%N [] [] [] [] [] [] [] [] [] [] [] [] [] [] [] [] [] [] [] [] [] [] [] [] [] [] [] [] [] [] [] [] [] [] [] [] [] [] [] [] [] [].
