(* ===== verification/Database.v ===== *)
(** * Database

    The store as a family of tables, the unique indexes of the schema, and the Prisma
    operations the services call on a transaction client: [create], [updateMany],
    [update], [findFirst], [findMany] and their ordered variants. A write that breaks
    a unique index or a row check fails as it does in PostgreSQL, which rolls the
    transaction back. Foreign keys and triggers are not modelled. *)
From S2P Require Import Prelude Schema.

(** ** Errors

    The exceptions of the modelled services, after the ones Prisma raises. *)
Inductive error : Type :=
  | RecordNotFound
  | UniqueViolation
  | CheckViolation
  | InternalError (message : string)
  (* a loop of the model ran out of fuel; shown not to happen *)
  | OutOfFuel
  | SportGroupRulesNotImplemented (code : string)
  (* scoring.errors.ts *)
  | InactiveVoteSession | DuplicateRefereeVote | MatchNotRunningForVote
  | RoundPausedForVote | RoundEndedForVote | PriorScoringWindowPending
  (* match-lifecycle.errors.ts *)
  | InactiveRoundStartSession | InactiveRoundControlSession
  | InvalidRoundControlState (s : MatchStatus) | InvalidResultCancellationState (s : MatchStatus)
  | InvalidRoundStartState (s : MatchStatus) | MatchParticipantsNotReady
  | MatchCompletionNotReady | MatchAlreadyCompleted | MatchLifecycleTargetMissing
  | ResultCancellationUndoNotAllowed
  (* penalty.errors.ts *)
  | InactivePenaltySession | MatchNotRunningForPenalty | PenaltyLegacyOnly | RoundEndedForPenalty
  (* fault.errors.ts *)
  | FaultMatchNotRunning | FaultRoundEnded | FaultRoundPaused | InactiveFaultSupervisor
  | InvalidFaultState
  (* regulation-appeal.service.ts and result-publication.service.ts *)
  | AppealStateError (message : string) | AppealIdentityError | AppealIdempotencyError
  | ResultPublicationConflict
  (* bracket-outcome.service.ts *)
  | BracketProgressionLocked | Conflict (code : string)
  (* match-official-assignments.service.ts *)
  | Forbidden (code : string) | NotFound (code : string)
  (* admin-management.errors.ts *)
  | BadRequest (code : string)
  (* match-access.service.ts, official-access.service.ts, admin-auth.service.ts *)
  | Unauthorized (code : string) | TooManyRequests (code : string).

(** ** Tables *)
Inductive table : Type :=
  | tournaments | matches | rounds | scoringWindows
  | judgeVotes | scoreEvents | penalties | faults
  | roundAthleteResults | matchAppeals | matchAppealRounds | matchAppealAdjustments
  | matchResultDecisions | matchOutcomes | matchResultPublications | matchResultOperations
  | auditLogs | matchAthletes | matchOfficialAssignments | tournamentOfficialSessions
  | tournamentOfficials | matchAccessCodes | matchSessions | tournamentBrackets
  | bracketEntrants | bracketFixtures | bracketSlots | bracketWinnerDecisionIdempotency
  | tournamentWeightClasses | tournamentOrganizations | tournamentAthletes | bracketRoundStaffing
  | users | adminEntitlements | subscriptionOrders | pricingPlanVersions
  | pricingDiscountTiers | mediaDeletions | sportGroups | sports
  | mediaMigrations | athleteImportConfirmations.
#[export] Instance table_eq_dec : EqDecision table. Proof. solve_decision. Defined.

Definition row_of (t : table) : Type :=
  match t with
  | tournaments => TournamentRow
  | matches => MatchRow
  | rounds => RoundRow
  | scoringWindows => WindowRow
  | judgeVotes => VoteRow
  | scoreEvents => ScoreEventRow
  | penalties => PenaltyRow
  | faults => FaultRow
  | roundAthleteResults => RoundResultRow
  | matchAppeals => AppealRow
  | matchAppealRounds => AppealRoundRow
  | matchAppealAdjustments => AdjustmentRow
  | matchResultDecisions => DecisionRow
  | matchOutcomes => OutcomeRow
  | matchResultPublications => PublicationRow
  | matchResultOperations => OperationRow
  | auditLogs => AuditRow
  | matchAthletes => MatchAthleteRow
  | matchOfficialAssignments => AssignmentRow
  | tournamentOfficialSessions => OfficialSessionRow
  | tournamentOfficials => OfficialRow
  | matchAccessCodes => AccessCodeRow
  | matchSessions => SessionRow
  | tournamentBrackets => BracketRow
  | bracketEntrants => EntrantRow
  | bracketFixtures => FixtureRow
  | bracketSlots => SlotRow
  | bracketWinnerDecisionIdempotency => WinnerDecisionKeyRow
  | tournamentWeightClasses => WeightClassRow
  | tournamentOrganizations => OrganizationRow
  | tournamentAthletes => AthleteRow
  | bracketRoundStaffing => StaffingRow
  | users => UserRow
  | adminEntitlements => EntitlementRow
  | subscriptionOrders => OrderRow
  | pricingPlanVersions => PlanRow
  | pricingDiscountTiers => TierRow
  | mediaDeletions => MediaDeletionRow
  | sportGroups => SportGroupRow
  | sports => SportRow
  | mediaMigrations => MediaMigrationRow
  | athleteImportConfirmations => ImportConfirmationRow
  end.

Definition get (t : table) : DB -> list (row_of t) :=
  match t with
  | tournaments => db_tournaments
  | matches => db_matches
  | rounds => db_rounds
  | scoringWindows => db_scoringWindows
  | judgeVotes => db_judgeVotes
  | scoreEvents => db_scoreEvents
  | penalties => db_penalties
  | faults => db_faults
  | roundAthleteResults => db_roundAthleteResults
  | matchAppeals => db_matchAppeals
  | matchAppealRounds => db_matchAppealRounds
  | matchAppealAdjustments => db_matchAppealAdjustments
  | matchResultDecisions => db_matchResultDecisions
  | matchOutcomes => db_matchOutcomes
  | matchResultPublications => db_matchResultPublications
  | matchResultOperations => db_matchResultOperations
  | auditLogs => db_auditLogs
  | matchAthletes => db_matchAthletes
  | matchOfficialAssignments => db_matchOfficialAssignments
  | tournamentOfficialSessions => db_tournamentOfficialSessions
  | tournamentOfficials => db_tournamentOfficials
  | matchAccessCodes => db_matchAccessCodes
  | matchSessions => db_matchSessions
  | tournamentBrackets => db_tournamentBrackets
  | bracketEntrants => db_bracketEntrants
  | bracketFixtures => db_bracketFixtures
  | bracketSlots => db_bracketSlots
  | bracketWinnerDecisionIdempotency => db_bracketWinnerDecisionIdempotency
  | tournamentWeightClasses => db_tournamentWeightClasses
  | tournamentOrganizations => db_tournamentOrganizations
  | tournamentAthletes => db_tournamentAthletes
  | bracketRoundStaffing => db_bracketRoundStaffing
  | users => db_users
  | adminEntitlements => db_adminEntitlements
  | subscriptionOrders => db_subscriptionOrders
  | pricingPlanVersions => db_pricingPlanVersions
  | pricingDiscountTiers => db_pricingDiscountTiers
  | mediaDeletions => db_mediaDeletions
  | sportGroups => db_sportGroups
  | sports => db_sports
  | mediaMigrations => db_mediaMigrations
  | athleteImportConfirmations => db_athleteImportConfirmations
  end.

Definition put (t : table) : list (row_of t) -> DB -> DB :=
  match t with
  | tournaments => fun l d => d <| db_tournaments := l |>
  | matches => fun l d => d <| db_matches := l |>
  | rounds => fun l d => d <| db_rounds := l |>
  | scoringWindows => fun l d => d <| db_scoringWindows := l |>
  | judgeVotes => fun l d => d <| db_judgeVotes := l |>
  | scoreEvents => fun l d => d <| db_scoreEvents := l |>
  | penalties => fun l d => d <| db_penalties := l |>
  | faults => fun l d => d <| db_faults := l |>
  | roundAthleteResults => fun l d => d <| db_roundAthleteResults := l |>
  | matchAppeals => fun l d => d <| db_matchAppeals := l |>
  | matchAppealRounds => fun l d => d <| db_matchAppealRounds := l |>
  | matchAppealAdjustments => fun l d => d <| db_matchAppealAdjustments := l |>
  | matchResultDecisions => fun l d => d <| db_matchResultDecisions := l |>
  | matchOutcomes => fun l d => d <| db_matchOutcomes := l |>
  | matchResultPublications => fun l d => d <| db_matchResultPublications := l |>
  | matchResultOperations => fun l d => d <| db_matchResultOperations := l |>
  | auditLogs => fun l d => d <| db_auditLogs := l |>
  | matchAthletes => fun l d => d <| db_matchAthletes := l |>
  | matchOfficialAssignments => fun l d => d <| db_matchOfficialAssignments := l |>
  | tournamentOfficialSessions => fun l d => d <| db_tournamentOfficialSessions := l |>
  | tournamentOfficials => fun l d => d <| db_tournamentOfficials := l |>
  | matchAccessCodes => fun l d => d <| db_matchAccessCodes := l |>
  | matchSessions => fun l d => d <| db_matchSessions := l |>
  | tournamentBrackets => fun l d => d <| db_tournamentBrackets := l |>
  | bracketEntrants => fun l d => d <| db_bracketEntrants := l |>
  | bracketFixtures => fun l d => d <| db_bracketFixtures := l |>
  | bracketSlots => fun l d => d <| db_bracketSlots := l |>
  | bracketWinnerDecisionIdempotency => fun l d => d <| db_bracketWinnerDecisionIdempotency := l |>
  | tournamentWeightClasses => fun l d => d <| db_tournamentWeightClasses := l |>
  | tournamentOrganizations => fun l d => d <| db_tournamentOrganizations := l |>
  | tournamentAthletes => fun l d => d <| db_tournamentAthletes := l |>
  | bracketRoundStaffing => fun l d => d <| db_bracketRoundStaffing := l |>
  | users => fun l d => d <| db_users := l |>
  | adminEntitlements => fun l d => d <| db_adminEntitlements := l |>
  | subscriptionOrders => fun l d => d <| db_subscriptionOrders := l |>
  | pricingPlanVersions => fun l d => d <| db_pricingPlanVersions := l |>
  | pricingDiscountTiers => fun l d => d <| db_pricingDiscountTiers := l |>
  | mediaDeletions => fun l d => d <| db_mediaDeletions := l |>
  | sportGroups => fun l d => d <| db_sportGroups := l |>
  | sports => fun l d => d <| db_sports := l |>
  | mediaMigrations => fun l d => d <| db_mediaMigrations := l |>
  | athleteImportConfirmations => fun l d => d <| db_athleteImportConfirmations := l |>
  end.

(** The match a row belongs to. *)
Definition row_match (t : table) : row_of t -> option uuid :=
  match t with
  | matches => fun r => Some (m_id r)
  | rounds => fun r => Some (r_matchId r)
  | scoringWindows => fun r => Some (w_matchId r)
  | judgeVotes => fun r => Some (v_matchId r)
  | scoreEvents => fun r => Some (e_matchId r)
  | penalties => fun r => Some (p_matchId r)
  | faults => fun r => Some (f_matchId r)
  | roundAthleteResults => fun r => Some (rr_matchId r)
  | matchAppeals => fun r => Some (ap_matchId r)
  | matchResultDecisions => fun r => Some (dc_matchId r)
  | matchOutcomes => fun r => Some (oc_matchId r)
  | matchResultPublications => fun r => Some (pb_matchId r)
  | matchResultOperations => fun r => Some (op_matchId r)
  | auditLogs => al_matchId
  | matchAthletes => fun r => Some (ma_matchId r)
  | matchOfficialAssignments => fun r => Some (oa_matchId r)
  | matchAccessCodes => fun r => Some (ac_matchId r)
  | matchSessions => fun r => Some (ms_matchId r)
  | _ => fun _ => None
  end.

(** Primary keys. *)
Definition row_id (t : table) : row_of t -> option uuid :=
  match t with
  | tournaments => fun r => Some (tn_id r)
  | matches => fun r => Some (m_id r)
  | rounds => fun r => Some (r_id r)
  | scoringWindows => fun r => Some (w_id r)
  | judgeVotes => fun r => Some (v_id r)
  | scoreEvents => fun r => Some (e_id r)
  | penalties => fun r => Some (p_id r)
  | faults => fun r => Some (f_id r)
  | roundAthleteResults => fun r => Some (rr_id r)
  | matchAppeals => fun r => Some (ap_id r)
  | matchResultDecisions => fun r => Some (dc_id r)
  | matchOutcomes => fun r => Some (oc_id r)
  | matchResultPublications => fun r => Some (pb_id r)
  | matchResultOperations => fun r => Some (op_id r)
  | auditLogs => fun r => Some (al_id r)
  | matchAthletes => fun r => Some (ma_id r)
  | matchOfficialAssignments => fun r => Some (oa_id r)
  | tournamentOfficialSessions => fun r => Some (os_id r)
  | tournamentOfficials => fun r => Some (tf_id r)
  | matchAccessCodes => fun r => Some (ac_id r)
  | matchSessions => fun r => Some (ms_id r)
  | tournamentBrackets => fun r => Some (br_id r)
  | bracketEntrants => fun r => Some (en_id r)
  | bracketFixtures => fun r => Some (fx_id r)
  | bracketSlots => fun r => Some (sl_id r)
  | tournamentWeightClasses => fun r => Some (wc_id r)
  | tournamentOrganizations => fun r => Some (og_id r)
  | tournamentAthletes => fun r => Some (at_id r)
  | bracketRoundStaffing => fun r => Some (st_id r)
  | users => fun r => Some (us_id r)
  | adminEntitlements => fun r => Some (ae_id r)
  | subscriptionOrders => fun r => Some (so_id r)
  | pricingPlanVersions => fun r => Some (pp_id r)
  | pricingDiscountTiers => fun r => Some (dt_id r)
  | mediaDeletions => fun r => Some (md_id r)
  | sportGroups => fun r => Some (sg_id r)
  | sports => fun r => Some (sp_id r)
  | athleteImportConfirmations => fun r => Some (ic_id r)
  | _ => fun _ => None
  end.

(** The audit entry that invalidated or reverted a row. *)
Definition row_audit (t : table) : row_of t -> option uuid :=
  match t with
  | rounds => r_invalidatedByAuditId
  | scoringWindows => w_invalidatedByAuditId
  | judgeVotes => v_invalidatedByAuditId
  | scoreEvents => e_revertedByAuditId
  | penalties => p_revertedByAuditId
  | faults => f_invalidatedByAuditId
  | roundAthleteResults => rr_invalidatedByAuditId
  | matchAppeals => ap_invalidatedByAuditId
  | matchResultDecisions => dc_invalidatedByAuditId
  | _ => fun _ => None
  end.

(** ** Unique indexes and row checks *)
Definition unique_by {R K} `{EqDecision K} (key : R -> option K) (l : list R) : bool :=
  bool_decide (NoDup (omap key l)).

(** rounds_match_id_stage_attempt_round_number_key (partial: not invalidated) *)
Definition round_key (r : RoundRow) : option (uuid * RoundStage * Z * Z) :=
  if r_invalidatedAt r === None
  then Some (r_matchId r, r_stage r, r_attemptNumber r, r_roundNumber r) else None.

(** scoring_windows_one_unresolved_match_key (partial: resolved_at IS NULL) *)
Definition window_key (w : WindowRow) : option uuid :=
  if w_resolvedAt w === None then Some (w_matchId w) else None.

(** referee_votes_scoring_window_assignment_id_key *)
Definition vote_assignment_key (v : VoteRow) : option (uuid * uuid) :=
  match v_assignmentId v with Some a => Some (v_scoringWindowId v, a) | None => None end.

(** referee_votes_legacy_window_slot_key *)
Definition vote_slot_key (v : VoteRow) : option (uuid * JudgeSlot) :=
  match v_assignmentId v, v_judgeSlot v with
  | None, Some s => Some (v_scoringWindowId v, s)
  | _, _ => None
  end.

(** match_appeals_one_valid_completed_scope_attempt_key *)
Definition appeal_key (a : AppealRow) : option (uuid * MatchAppealScope * Z) :=
  if (ap_status a === APPEAL_COMPLETED) && (ap_invalidatedAt a === None)
  then Some (ap_matchId a, ap_scope a, ap_attemptNumber a) else None.

(** match_appeal_adjustments_points_range_check and _final_score_check *)
Definition adjustment_ok (a : AdjustmentRow) : bool :=
  (0 <=? aa_bonusPoints a) && (aa_bonusPoints a <=? 100) &&
  (0 <=? aa_penaltyPoints a) && (aa_penaltyPoints a <=? 100) &&
  (0 <=? aa_baseJudgeScore a) && (0 <=? aa_finalScore a) &&
  (aa_finalScore a === Z.max 0 (aa_baseJudgeScore a + aa_bonusPoints a - aa_penaltyPoints a)).

(** match_official_assignments: one active match per official, one active supervisor and one
    active judge per position in a match. *)
Definition active_official_key (a : AssignmentRow) : option uuid :=
  if oa_releasedAt a === None then Some (oa_officialId a) else None.
Definition active_supervisor_key (a : AssignmentRow) : option uuid :=
  if (oa_releasedAt a === None) && (oa_role a === OFFICIAL_SUPERVISOR) then Some (oa_matchId a) else None.
Definition active_judge_key (a : AssignmentRow) : option (uuid * Z) :=
  match oa_judgePosition a with
  | Some n => if (oa_releasedAt a === None) && (oa_role a === OFFICIAL_JUDGE)
              then Some (oa_matchId a, n) else None
  | None => None
  end.

(** match_sessions_one_active_credential_key and
    tournament_official_sessions_one_active_official_key *)
Definition active_credential_key (s : SessionRow) : option uuid :=
  if ms_active s && (ms_revokedAt s === None) then Some (ms_accessCodeId s) else None.
Definition active_session_key (s : OfficialSessionRow) : option uuid :=
  if os_active s then Some (os_officialId s) else None.

(** tournament_brackets_one_current_per_weight_class_key *)
Definition current_bracket_key (b : BracketRow) : option (uuid * uuid) :=
  if br_status b === BRACKET_STATUS_CANCELLED then None
  else Some (br_tournamentId b, br_weightClassId b).

(** pricing_plan_versions_one_active_key *)
Definition active_plan_key (p : PlanRow) : option unit := if pp_active p then Some tt else None.

Definition indexes_ok (t : table) : list (row_of t) -> bool :=
  match t with
  | matches => fun l => unique_by (fun m => Some (m_publicId m)) l && unique_by m_bracketFixtureId l
  | rounds => fun l => unique_by round_key l
  | scoringWindows => fun l => unique_by window_key l
  | judgeVotes => fun l => unique_by vote_assignment_key l && unique_by vote_slot_key l
  | scoreEvents => fun l => unique_by e_scoringWindowId l
  | roundAthleteResults => fun l => unique_by (fun r => Some (rr_roundId r, rr_athleteId r)) l
  | matchAppeals => fun l => unique_by ap_idempotencyKey l && unique_by appeal_key l
  | matchAppealRounds => fun l => unique_by (fun r => Some (ar_appealId r, ar_roundId r)) l
  | matchAppealAdjustments => fun l => unique_by (fun r => Some (aa_appealId r, aa_athleteId r)) l
  | matchOutcomes => fun l => unique_by (fun r => Some (oc_matchId r)) l &&
      unique_by oc_sourceAppealId l
  | matchResultDecisions => fun l =>
      unique_by (fun r => Some (dc_matchId r, dc_sourceAppealId r)) l
  | matchResultPublications => fun l =>
      unique_by (fun r => Some (pb_matchId r, pb_idempotencyKey r)) l
  | matchResultOperations => fun l => unique_by (fun r => Some (op_auditLogId r)) l
  | matchAthletes => fun l => unique_by (fun a => Some (ma_matchId a, ma_color a)) l
  | matchOfficialAssignments => fun l => unique_by active_official_key l &&
      unique_by active_supervisor_key l && unique_by active_judge_key l
  | tournamentOfficialSessions => fun l => unique_by (fun s => Some (os_tokenHash s)) l &&
      unique_by active_session_key l
  | matchAccessCodes => fun l => unique_by (fun c => Some (ac_matchId c, ac_role c)) l
  | matchSessions => fun l => unique_by (fun s => Some (ms_tokenHash s)) l &&
      unique_by active_credential_key l
  | tournamentBrackets => fun l => unique_by current_bracket_key l &&
      unique_by (fun b => Some (br_confirmationKey b)) l
  | bracketEntrants => fun l => unique_by (fun e => Some (en_bracketId e, en_athleteId e)) l
  | bracketFixtures => fun l =>
      unique_by (fun f => Some (fx_bracketId f, fx_roundNumber f, fx_position f)) l
  | bracketSlots => fun l => unique_by (fun s => Some (sl_fixtureId s, sl_side s)) l
  | bracketWinnerDecisionIdempotency => fun l => unique_by (fun r => Some (wk_key r)) l
  | bracketRoundStaffing => fun l => unique_by (fun s => Some (st_bracketId s, st_roundNumber s)) l
  | tournaments => fun l => unique_by (fun t => Some (tn_publicCode t)) l
  | tournamentOfficials => fun l =>
      unique_by (fun o => Some (tf_tournamentId o, tf_role o, tf_normalizedName o)) l &&
      unique_by (fun o => Some (tf_tournamentId o, tf_passcodeLookupDigest o)) l
  | users => fun l => unique_by (fun u => Some (us_normalizedUsername u)) l &&
      unique_by us_normalizedEmail l && unique_by us_normalizedPhone l
  | adminEntitlements => fun l => unique_by (fun e => Some (ae_userId e)) l
  | subscriptionOrders => fun l => unique_by (fun o => Some (so_idempotencyKey o)) l
  | pricingPlanVersions => fun l => unique_by active_plan_key l
  | pricingDiscountTiers => fun l =>
      unique_by (fun t => Some (dt_pricingPlanVersionId t, dt_type t, dt_quantity t)) l
  | mediaDeletions => fun l => unique_by (fun r => Some (md_storageKey r)) l
  | sportGroups => fun l => unique_by (fun g => Some (sg_code g)) l
  | sports => fun l => unique_by (fun s => Some (sp_code s)) l &&
      unique_by (fun s => Some (sp_normalizedName s)) l
  | tournamentWeightClasses => fun l =>
      unique_by (fun w => Some (wc_tournamentId w, wc_normalizedName w)) l
  | tournamentOrganizations => fun l =>
      unique_by (fun o => Some (og_tournamentId o, og_normalizedName o, og_normalizedLocation o)) l
  | mediaMigrations => fun l => unique_by (fun r => Some (mg_storageKey r)) l
  | athleteImportConfirmations => fun l => unique_by (fun r => Some (ic_key r)) l
  | _ => fun _ => true
  end.

(** *** Row checks *)

Definition set_ {A} (o : option A) : bool := match o with Some _ => true | None => false end.

Lemma set_none {A} (o : option A) : set_ o = false -> o = None.
Proof. destruct o; [discriminate | reflexivity]. Qed.

(** matches_completed_lifecycle_check, matches_not_started_lifecycle_check and
    matches_suspended_timestamp_check *)
Definition match_ok (m : MatchRow) : bool :=
  ((m_lifecycle m !== LIFECYCLE_COMPLETED) || ((m_status m === FINISHED) && set_ (m_finishedAt m))) &&
  ((m_lifecycle m !== NOT_STARTED) ||
   ((m_status m === WAITING) && negb (set_ (m_startedAt m)) && negb (set_ (m_currentRound m)))) &&
  eqb (m_lifecycle m === SUSPENDED) (set_ (m_suspendedAt m)).

(** rounds_descriptor_check and rounds_remaining_duration_ms_check *)
Definition round_ok (r : RoundRow) : bool :=
  (((r_stage r === REGULATION) && (r_attemptNumber r =? 0) &&
    ((r_roundNumber r =? 1) || (r_roundNumber r =? 2))) ||
   ((r_stage r === OVERTIME) && (1 <=? r_attemptNumber r) && (r_roundNumber r =? 1))) &&
  match r_remainingDurationMs r with Some n => 0 <=? n | None => true end.

(** referee_votes_authorization_provenance_check *)
Definition vote_ok (v : VoteRow) : bool :=
  (set_ (v_assignmentId v) && negb (set_ (v_sessionId v)) && negb (set_ (v_judgeSlot v))) ||
  (negb (set_ (v_assignmentId v)) && set_ (v_sessionId v) && set_ (v_judgeSlot v)).

(** faults_actor_provenance_check and faults_invalidation_audit_check *)
Definition fault_ok (f : FaultRow) : bool :=
  negb (eqb (set_ (f_recordingSupervisorAssignmentId f)) (set_ (f_recordingSupervisorSessionId f))) &&
  eqb (set_ (f_invalidatedAt f)) (set_ (f_invalidatedByAuditId f)).

(** round_athlete_results_fault_count_nonnegative_check and _invalidation_audit_check *)
Definition round_result_ok (r : RoundResultRow) : bool :=
  (0 <=? rr_faultCount r) && eqb (set_ (rr_invalidatedAt r)) (set_ (rr_invalidatedByAuditId r)).

(** match_appeals_scope_attempt_check, _actor_provenance_check, _invalidation_audit_check and
    _status_invalidation_check *)
Definition appeal_ok (a : AppealRow) : bool :=
  (((ap_scope a === SCOPE_REGULATION) && (ap_attemptNumber a =? 0)) ||
   ((ap_scope a === SCOPE_OVERTIME) && (1 <=? ap_attemptNumber a))) &&
  negb (eqb (set_ (ap_completedSupervisorAssignmentId a)) (set_ (ap_completedSupervisorSessionId a))) &&
  eqb (set_ (ap_invalidatedAt a)) (set_ (ap_invalidatedByAuditId a)) &&
  eqb (ap_status a === APPEAL_INVALIDATED) (set_ (ap_invalidatedAt a)).

(** match_outcomes_actor_provenance_check and match_outcomes_method_source_check *)
Definition outcome_ok (o : OutcomeRow) : bool :=
  negb (eqb (set_ (oc_publishedSupervisorAssignmentId o)) (set_ (oc_publishedSupervisorSessionId o))) &&
  match oc_method o with
  | REGULATION_SCORE => set_ (oc_sourceAppealId o) && negb (set_ (oc_sourceOvertimeRoundId o))
  | OVERTIME_SCORE => set_ (oc_sourceAppealId o) && set_ (oc_sourceOvertimeRoundId o)
  | MANUAL_AFTER_OVERTIME_TIE => set_ (oc_sourceOvertimeRoundId o)
  end.

(** match_official_assignments_role_position_check and _release_state_check *)
Definition assignment_ok (a : AssignmentRow) : bool :=
  (((oa_role a === OFFICIAL_JUDGE) && match oa_judgePosition a with Some n => 0 <? n | None => false end) ||
   ((oa_role a === OFFICIAL_SUPERVISOR) && negb (set_ (oa_judgePosition a)))) &&
  eqb (set_ (oa_releasedAt a)) (set_ (oa_releaseReason a)).

(** tournament_weight_classes_intermission_duration_seconds_nonnegative *)
Definition weight_class_ok (w : WeightClassRow) : bool := 0 <=? wc_intermissionDurationSeconds w.

(** tournament_brackets_terminal_timestamp_check and _counts_check *)
Definition bracket_ok (b : BracketRow) : bool :=
  eqb (br_status b === BRACKET_STATUS_COMPLETED) (set_ (br_completedAt b)) &&
  eqb (br_status b === BRACKET_STATUS_CANCELLED) (set_ (br_cancelledAt b)) &&
  (0 <? br_athleteCount b) && (br_athleteCount b <=? br_bracketSize b) && (0 <? br_roundCount b).

(** bracket_fixtures_round_position_check *)
Definition fixture_ok (f : FixtureRow) : bool := (0 <? fx_roundNumber f) && (0 <? fx_position f).

(** bracket_slots_exactly_one_source_check and _direct_source_resolved_check *)
Definition slot_ok (s : SlotRow) : bool :=
  negb (eqb (set_ (sl_directEntrantId s)) (set_ (sl_sourceFixtureId s))) &&
  (negb (set_ (sl_directEntrantId s)) || (sl_resolvedEntrantId s === sl_directEntrantId s)).

(** bracket_round_staffing_required_judge_count_positive_check *)
Definition staffing_ok (s : StaffingRow) : bool := 0 <? st_requiredJudgeCount s.

(** pricing_plan_versions_amounts_positive and pricing_discount_tiers_values_valid *)
Definition plan_ok (p : PlanRow) : bool :=
  (0 <=? pp_baseAmountVnd p) && (0 <? pp_baseDurationMonths p) && (0 <? pp_baseTournamentLimit p) &&
  (0 <=? pp_durationAddonUnitAmountVnd p) && (0 <=? pp_tournamentAddonUnitAmountVnd p).
Definition tier_ok (t : TierRow) : bool :=
  (0 <? dt_quantity t) && (0 <=? dt_discountBasisPoints t) && (dt_discountBasisPoints t <=? 10000).

Definition row_ok (t : table) : row_of t -> bool :=
  match t with
  | matches => match_ok
  | rounds => round_ok
  | judgeVotes => vote_ok
  | faults => fault_ok
  | roundAthleteResults => round_result_ok
  | matchAppeals => appeal_ok
  | matchAppealAdjustments => adjustment_ok
  | matchOutcomes => outcome_ok
  | matchOfficialAssignments => assignment_ok
  | tournamentBrackets => bracket_ok
  | tournamentWeightClasses => weight_class_ok
  | bracketFixtures => fixture_ok
  | bracketSlots => slot_ok
  | bracketRoundStaffing => staffing_ok
  | pricingPlanVersions => plan_ok
  | pricingDiscountTiers => tier_ok
  | _ => fun _ => true
  end.

Definition table_ok (t : table) (l : list (row_of t)) : bool :=
  forallb (row_ok t) l && (unique_by (row_id t) l && indexes_ok t l).

(** PostgreSQL checks a row before it enters the indexes. *)
Definition table_error (t : table) (l : list (row_of t)) : error :=
  if forallb (row_ok t) l then UniqueViolation else CheckViolation.

(** ** Operations *)
Abbreviation DbM A := (tx DB error A).

Section Operations.
Context (t : table).

(** [transaction.t.create({ data })] *)
Definition create (mk : uuid -> row_of t) : DbM (row_of t) := fun d =>
  let row := mk (db_nextId d) in
  let l := get t d ++ [row] in
  if table_ok t l then Ok (row, put t l (d <| db_nextId ::= N.succ |>))
  else Err (table_error t l).

(** [transaction.t.createMany({ data })] *)
Definition create_many {A} (mk : A -> uuid -> row_of t) (l : list A) : DbM unit :=
  for_each (fun x => _ ← create (mk x); mret tt) l.

(** [transaction.t.updateMany({ where, data })], with the number of rows updated *)
Definition update_many (where_ : row_of t -> bool) (data : row_of t -> row_of t) : DbM nat :=
  fun d =>
    let l := map_where where_ data (get t d) in
    if table_ok t l then Ok (length (List.filter where_ (get t d)), put t l d)
    else Err (table_error t l).

(** [transaction.t.findMany({ where })] *)
Definition find_many (where_ : row_of t -> bool) : DbM (list (row_of t)) :=
  gets (fun d => List.filter where_ (get t d)).

(** [transaction.t.findFirst({ where })], [findUnique] *)
Definition find_one (where_ : row_of t -> bool) : DbM (option (row_of t)) :=
  gets (fun d => find_first where_ (get t d)).

(** [findUniqueOrThrow], [findFirstOrThrow] *)
Definition find_one_or_throw (where_ : row_of t -> bool) : DbM (row_of t) :=
  r ← find_one where_; or_throw r RecordNotFound.

(** [transaction.t.update({ where, data })] on a unique key, with the row it leaves *)
Definition update (where_ : row_of t -> bool) (data : row_of t -> row_of t) : DbM (row_of t) :=
  r ← find_one_or_throw where_; _ ← update_many where_ data; mret (data r).

(** [transaction.t.count({ where })] *)
Definition count (where_ : row_of t -> bool) : DbM Z :=
  gets (fun d => Z.of_nat (length (List.filter where_ (get t d)))).
End Operations.

(** [findFirst] with [orderBy: { key: 'asc' }] and ['desc']. *)
Fixpoint min_by {A} (key : A -> Z) (l : list A) : option A :=
  match l with
  | [] => None
  | x :: l' =>
      match min_by key l' with
      | Some y => if key y <? key x then Some y else Some x
      | None => Some x
      end
  end.
Definition max_by {A} (key : A -> Z) (l : list A) : option A := min_by (fun x => - key x) l.

(** ** Laws of the store *)

Lemma get_put_same t l d : get t (put t l d) = l.
Proof. destruct t; reflexivity. Qed.

Lemma get_put_other t t' l d : t <> t' -> get t (put t' l d) = get t d.
Proof. destruct t, t'; intros H; first [reflexivity | destruct (H eq_refl)]. Qed.

Lemma nextId_put t l d : db_nextId (put t l d) = db_nextId d.
Proof. destruct t; reflexivity. Qed.

Lemma get_nextId t f d : get t (d <| db_nextId ::= f |>) = get t d.
Proof. destruct t; reflexivity. Qed.

Lemma put_put t l l' d : put t l (put t l' d) = put t l d.
Proof. destruct t; reflexivity. Qed.

Lemma put_get t d : put t (get t d) d = d.
Proof. destruct t, d; reflexivity. Qed.

Lemma create_ok t mk d row d' :
  create t mk d = Ok (row, d') <->
  row = mk (db_nextId d) /\ table_ok t (get t d ++ [row]) = true /\
  d' = put t (get t d ++ [row]) (d <| db_nextId ::= N.succ |>).
Proof.
  unfold create; destruct (table_ok _ _) eqn:E; split.
  - intros H; injection H as <- <-; auto.
  - intros (-> & _ & ->); reflexivity.
  - discriminate.
  - intros (-> & H & _); congruence.
Qed.

Lemma update_many_ok t p g d n d' :
  update_many t p g d = Ok (n, d') <->
  n = length (List.filter p (get t d)) /\
  table_ok t (map_where p g (get t d)) = true /\ d' = put t (map_where p g (get t d)) d.
Proof.
  unfold update_many; destruct (table_ok _ _) eqn:E; split.
  - intros H; injection H as <- <-; auto.
  - intros (-> & _ & ->); reflexivity.
  - discriminate.
  - intros (_ & H & _); congruence.
Qed.

Lemma find_one_or_throw_ok t p d r d' :
  find_one_or_throw t p d = Ok (r, d') <-> find_first p (get t d) = Some r /\ d' = d.
Proof.
  unfold find_one_or_throw, find_one; rewrite bind_ok; split.
  - intros (a & s1 & H1 & H2); apply gets_ok in H1 as [-> ->].
    apply or_throw_ok in H2; exact H2.
  - intros [H ->]; exists (find_first p (get t d)), d; split; [reflexivity |].
    apply or_throw_ok; auto.
Qed.

Lemma update_ok t p g d r d' :
  update t p g d = Ok (r, d') <->
  exists x, find_first p (get t d) = Some x /\ r = g x /\
    table_ok t (map_where p g (get t d)) = true /\ d' = put t (map_where p g (get t d)) d.
Proof.
  unfold update; rewrite bind_ok; split.
  - intros (x & s1 & H1 & H2); apply find_one_or_throw_ok in H1 as [H1 ->].
    apply bind_ok in H2 as (n & s2 & H2 & H3); apply update_many_ok in H2 as (_ & H2 & ->).
    apply ret_ok in H3 as [<- <-]; eauto.
  - intros (x & H1 & -> & H2 & ->); exists x, d; split.
    { apply find_one_or_throw_ok; auto. }
    apply bind_ok; do 2 eexists; split; [apply update_many_ok; eauto | reflexivity].
Qed.

Lemma create_many_ok t {A} (mk : A -> uuid -> row_of t) l d u d' :
  create_many t mk l d = Ok (u, d') ->
  exists rows, get t d' = get t d ++ rows /\ Forall2 (fun x r => exists id, r = mk x id) l rows /\
    forall t', t' <> t -> get t' d' = get t' d.
Proof.
  unfold create_many; revert d; induction l as [|x l IH]; cbn; intros d H.
  - apply ret_ok in H as [_ ->]; exists []; rewrite app_nil_r; auto.
  - apply bind_ok in H as ([] & d1 & H1 & H); apply bind_ok in H1 as (r & d2 & H1 & H2).
    apply ret_ok in H2 as [_ ->]; apply create_ok in H1 as (-> & _ & ->).
    destruct (IH _ H) as (rows & Hg & Hf & Ho).
    rewrite get_put_same in Hg; eexists (_ :: rows); split_and!.
    + rewrite Hg, <- app_assoc; reflexivity.
    + constructor; eauto.
    + intros t' Ht; rewrite Ho, get_put_other, get_nextId by auto; reflexivity.
Qed.

(** One more layer on [tx_inv] for the store's own operations. *)
Ltac db_inv1 H :=
  lazymatch type of H with
  | create ?t ?f ?d = Ok (?r, ?d') => apply (create_ok t f d r d') in H as (? & ? & ?)
  | update_many ?t ?p ?g ?d = Ok (?n, ?d') =>
      apply (update_many_ok t p g d n d') in H as (? & ? & ?)
  | update ?t ?p ?g ?d = Ok (?r, ?d') =>
      apply (update_ok t p g d r d') in H as (? & ? & ? & ? & ?)
  | find_one_or_throw ?t ?p ?d = Ok (?r, ?d') =>
      apply (find_one_or_throw_ok t p d r d') in H as (? & ?)
  | find_one _ _ _ = Ok _ => apply gets_ok in H as (? & ?)
  | find_many _ _ _ = Ok _ => apply gets_ok in H as (? & ?)
  | count _ _ _ = Ok _ => apply gets_ok in H as (? & ?)
  | _ => idtac
  end.

(** Runs the program of [H] statement by statement, leaving one fact per call. *)
Ltac run H :=
  cbv beta iota zeta in H;
  lazymatch type of H with
  | mbind _ _ _ = Ok _ =>
      let a := fresh "x" in let s := fresh "s" in let H1 := fresh "Hx" in
      apply bind_ok in H as (a & s & H1 & H); run H1; subst; run H
  | _ => try first [ progress tx_inv1 H | progress db_inv1 H ]
  end; subst.

(** ** Generic relations between stores *)

(** The table keeps its rows. *)
Definition untouched (t : table) (d d' : DB) : Prop := get t d' = get t d.

#[export] Instance untouched_preorder t : PreOrder (untouched t).
Proof. split; unfold untouched; [intros ? | intros ??? -> ]; auto. Qed.

(** Only the tables listed may change. *)
Definition touches (ts : list table) (d d' : DB) : Prop :=
  forall t, t ∉ ts -> get t d' = get t d.

#[export] Instance touches_preorder ts : PreOrder (touches ts).
Proof.
  split; unfold touches; [auto | intros x y z H1 H2 t Ht; rewrite H2 by exact Ht; auto].
Qed.

(** Rows of other matches stay as they are, in every table. *)
Definition foreign (m : uuid) (t : table) (r : row_of t) : bool :=
  match row_match t r with Some m' => m' !== m | None => false end.
Definition frame (m : uuid) (d d' : DB) : Prop :=
  forall t, List.filter (foreign m t) (get t d') = List.filter (foreign m t) (get t d).

#[export] Instance frame_preorder m : PreOrder (frame m).
Proof. split; unfold frame; [auto | intros x y z H1 H2 t; rewrite H2; apply H1]. Qed.

(** Every unique index and check of the schema holds; PostgreSQL maintains it. *)
Definition wf (d : DB) : Prop := forall t, table_ok t (get t d) = true.

Lemma unique_by_inj {R K} `{EqDecision K} (key : R -> option K) l x y k :
  unique_by key l = true -> In x l -> In y l -> key x = Some k -> key y = Some k -> x = y.
Proof.
  unfold unique_by; rewrite bool_decide_eq_true; induction l as [|z l IH]; [intros _ [] |].
  cbn; intros Hnd [-> | Hx] [-> | Hy] Kx Ky; auto.
  - rewrite Kx in Hnd; inv Hnd; exfalso; apply H1, list_elem_of_omap; exists y.
    rewrite list_elem_of_In; auto.
  - rewrite Ky in Hnd; inv Hnd; exfalso; apply H1, list_elem_of_omap; exists x.
    rewrite list_elem_of_In; auto.
  - apply IH; auto; destruct (key z); [inv Hnd |]; auto.
Qed.

(** Distinct keys of a selection are distinct. *)
Lemma unique_by_filter {R K} `{EqDecision K} (key : R -> option K) (f : R -> K) (p : R -> bool) l :
  unique_by key l = true -> (forall x, In x l -> p x = true -> key x = Some (f x)) ->
  NoDup (map f (List.filter p l)).
Proof.
  unfold unique_by; rewrite bool_decide_eq_true.
  induction l as [| x l IH]; cbn; intros Hnd Hk; [constructor |].
  assert (Hl : NoDup (omap key l)) by (destruct (key x); [inversion Hnd |]; auto).
  specialize (IH Hl (fun y Hy => Hk y (or_intror Hy))).
  destruct (p x) eqn:E; [| exact IH]; cbn; constructor; [| exact IH].
  rewrite (Hk x (or_introl eq_refl) E) in Hnd; inversion Hnd as [| ? ? Hx _]; subst.
  rewrite list_elem_of_In, in_map_iff; intros (y & Hy & Hin); apply filter_In in Hin as [Hin Hp].
  apply Hx, list_elem_of_omap; exists y; rewrite list_elem_of_In, <- Hy; auto.
Qed.

(** A row whose key is already taken cannot be appended. *)
Lemma unique_by_app {R K} `{EqDecision K} (key : R -> option K) l x k :
  unique_by key (l ++ [x]) = true -> key x = Some k -> forall y, In y l -> key y <> Some k.
Proof.
  unfold unique_by; rewrite bool_decide_eq_true, omap_app; cbn; intros Hnd Kx y Hy Ky.
  rewrite Kx in Hnd; apply list.NoDup_app in Hnd as (_ & Hd & _).
  apply (Hd k); [| constructor].
  apply list_elem_of_omap; exists y; rewrite list_elem_of_In; auto.
Qed.

Lemma wf_put t l d : wf d -> table_ok t l = true -> wf (put t l d).
Proof.
  intros Hd Hl t'; destruct (decide (t' = t)) as [-> | Hne].
  - rewrite get_put_same; exact Hl.
  - rewrite get_put_other; auto.
Qed.

Lemma wf_nextId f d : wf d -> wf (d <| db_nextId ::= f |>).
Proof. intros Hd t; rewrite get_nextId; auto. Qed.

Lemma table_ok_true t l :
  table_ok t l = true <->
  forallb (row_ok t) l = true /\ unique_by (row_id t) l = true /\ indexes_ok t l = true.
Proof. unfold table_ok; rewrite !andb_true_iff; tauto. Qed.

(** Stored rows pass the checks of their table. *)
Lemma wf_row t d r : wf d -> In r (get t d) -> row_ok t r = true.
Proof.
  intros Hd Hr; specialize (Hd t); apply table_ok_true in Hd as (Hc & _).
  rewrite forallb_forall in Hc; auto.
Qed.

(** Rows with equal primary keys are the same row. *)
Lemma wf_id t d x y i :
  wf d -> In x (get t d) -> In y (get t d) -> row_id t x = Some i -> row_id t y = Some i -> x = y.
Proof.
  intros Hd; specialize (Hd t); apply table_ok_true in Hd as (_ & Hpk & _).
  intros; eapply (unique_by_inj (row_id t)); eauto.
Qed.

(** Every id in use was drawn from the supply. *)
Definition fresh (d : DB) : Prop :=
  forall t r i, In r (get t d) -> row_id t r = Some i -> (i < db_nextId d)%N.

(** *** Writes that cannot fail *)

Lemma unique_by_snoc {R K} `{EqDecision K} (key : R -> option K) l x :
  unique_by key l = true -> (forall y k, In y l -> key y = Some k -> key x <> Some k) ->
  unique_by key (l ++ [x]) = true.
Proof.
  unfold unique_by; rewrite !bool_decide_eq_true, omap_app; intros Hl Hx.
  apply list.NoDup_app; split_and!; [exact Hl | | cbn; destruct (key x); repeat constructor; inversion 1].
  intros k Hk; apply list_elem_of_omap in Hk as (y & Hy & Ky); cbn.
  rewrite list_elem_of_In in Hy; specialize (Hx y k Hy Ky); destruct (key x); [| inversion 1].
  rewrite list_elem_of_singleton; congruence.
Qed.

Lemma unique_by_map_where {R K} `{EqDecision K} (key : R -> option K) p g l :
  (forall x, In x l -> p x = true -> key (g x) = key x) ->
  unique_by key (map_where p g l) = unique_by key l.
Proof.
  intros Hk; unfold unique_by; f_equal; apply bool_decide_ext.
  enough (omap key (map_where p g l) = omap key l) as ->; [reflexivity |].
  unfold map_where; induction l as [|x l IH]; cbn; [reflexivity |].
  rewrite IH by (intros; apply Hk; cbn; auto).
  destruct (p x) eqn:E; [rewrite Hk by (cbn; auto) |]; reflexivity.
Qed.

(** A store in which inserts and key-preserving updates succeed. *)
Definition sound (d : DB) : Prop := wf d /\ fresh d.

Definition keeps_sound (d d' : DB) : Prop := sound d -> sound d'.
#[export] Instance keeps_sound_preorder : PreOrder keeps_sound.
Proof. split; unfold keeps_sound; intros ?; auto. Qed.

Lemma sound_put t l d :
  sound d -> table_ok t l = true ->
  (forall r i, In r l -> row_id t r = Some i -> (i < db_nextId d)%N) -> sound (put t l d).
Proof.
  intros [Hwf Hf] Hok Hid; split; [apply wf_put; auto |].
  intros t' r i; rewrite nextId_put; destruct (decide (t' = t)) as [-> | Hne].
  - rewrite get_put_same; apply Hid.
  - rewrite get_put_other by exact Hne; apply Hf.
Qed.

Lemma create_sound t mk d :
  sound d -> (forall n, row_id t (mk n) = Some n) ->
  row_ok t (mk (db_nextId d)) = true -> indexes_ok t (get t d ++ [mk (db_nextId d)]) = true ->
  exists d', create t mk d = Ok (mk (db_nextId d), d') /\
    d' = put t (get t d ++ [mk (db_nextId d)]) (d <| db_nextId ::= N.succ |>) /\ sound d'.
Proof.
  intros [Hwf Hf] Hid Hrow Hix.
  assert (Hok : table_ok t (get t d ++ [mk (db_nextId d)]) = true).
  { specialize (Hwf t) as Ht; apply table_ok_true in Ht as (Hc & Hpk & _).
    apply table_ok_true; split_and!; [rewrite forallb_app, Hc; cbn; rewrite Hrow; reflexivity | | exact Hix].
    apply unique_by_snoc; [exact Hpk |].
    intros y k Hy Hk; rewrite Hid; specialize (Hf t y k Hy Hk); intros [= <-]; lia. }
  eexists; split_and!; [apply create_ok; auto | reflexivity |].
  apply sound_put; [split; [apply wf_nextId, Hwf |] | exact Hok |].
  - intros t' r i; rewrite get_nextId; cbn; intros Hr Hi; specialize (Hf t' r i Hr Hi); lia.
  - cbn; intros r i; rewrite in_app_iff; intros [Hr | [<- | []]] Hi.
    + specialize (Hf t r i Hr Hi); lia.
    + rewrite Hid in Hi; injection Hi as <-; lia.
Qed.

Lemma update_sound t p g d x :
  sound d -> find_first p (get t d) = Some x ->
  (forall r, row_id t (g r) = row_id t r) ->
  indexes_ok t (map_where p g (get t d)) = indexes_ok t (get t d) ->
  (forall r, In r (get t d) -> p r = true -> row_ok t r = true -> row_ok t (g r) = true) ->
  exists d', update t p g d = Ok (g x, d') /\
    d' = put t (map_where p g (get t d)) d /\ sound d'.
Proof.
  intros [Hwf Hf] Hx Hid Hix Hrow.
  assert (Hok : table_ok t (map_where p g (get t d)) = true).
  { specialize (Hwf t) as Ht; apply table_ok_true in Ht as (Hc & Hpk & Hi).
    apply table_ok_true; rewrite Hix, unique_by_map_where by auto; split_and!; auto.
    rewrite forallb_forall in *; intros r Hr; apply in_map_where in Hr as (y & Hy & ->).
    destruct (p y) eqn:E; auto. }
  eexists; split_and!; [apply update_ok; eauto | reflexivity |].
  apply sound_put; [split; auto | exact Hok |].
  intros r i Hr; apply in_map_where in Hr as (y & Hy & ->).
  destruct (p y); [rewrite Hid |]; apply Hf, Hy.
Qed.

Lemma find_one_or_throw_total t p d r :
  find_first p (get t d) = Some r -> find_one_or_throw t p d = Ok (r, d).
Proof. intros H; apply find_one_or_throw_ok; auto. Qed.

(** Runs the next update, respectively insert, of the goal forward in a sound store. *)
Ltac keys_kept :=
  first [intros ?; reflexivity | cbv beta iota delta [indexes_ok];
          rewrite ?unique_by_map_where by (intros; reflexivity); reflexivity].
Ltac fwd_update t x H :=
  lazymatch goal with
  | |- context [(update t ?p ?g ≫= _) ?s] =>
      let s' := fresh "s" in let E := fresh "E" in let Es := fresh "Es" in
      destruct (update_sound t p g s x) as (s' & E & Es & ?);
      [assumption | exact H | keys_kept | keys_kept | try (intros ? _ _ Hrow_; exact Hrow_)
      | rewrite (bind_step _ _ _ _ _ E); cbv beta zeta; clear E ]
  end.
Ltac fwd_create t :=
  lazymatch goal with
  | |- context [(create t ?mk ≫= _) ?s] =>
      let s' := fresh "s" in let E := fresh "E" in let Es := fresh "Es" in
      destruct (create_sound t mk s) as (s' & E & Es & ?);
      [assumption | intros ?; reflexivity | | 
      | rewrite (bind_step _ _ _ _ _ E); cbv beta zeta; clear E ]
  end.

(** Ids are drawn in order and audit references point to drawn ids. *)
Definition refs_ok (d : DB) : Prop :=
  forall t r a, In r (get t d) -> row_audit t r = Some a -> (a < db_nextId d)%N.
Definition ids_grow (d d' : DB) : Prop := (db_nextId d <= db_nextId d')%N.

#[export] Instance ids_grow_preorder : PreOrder ids_grow.
Proof. split; unfold ids_grow; [intros ? | intros ???]; lia. Qed.

Section Relations.
Context (t : table).

Lemma untouched_create t' mk : t <> t' -> respects (untouched t) (create t' mk).
Proof.
  intros Hne d r d' H; apply create_ok in H as (_ & _ & ->); unfold untouched.
  rewrite get_put_other, get_nextId; auto.
Qed.

Lemma untouched_update_many t' p g : t <> t' -> respects (untouched t) (update_many t' p g).
Proof.
  intros Hne d r d' H; apply update_many_ok in H as (_ & _ & ->).
  apply get_put_other; auto.
Qed.

Lemma untouched_update t' p g : t <> t' -> respects (untouched t) (update t' p g).
Proof.
  intros Hne d r d' H; apply update_ok in H as (x & _ & _ & _ & ->).
  apply get_put_other; auto.
Qed.

Lemma touches_create ts mk : t ∈ ts -> respects (touches ts) (create t mk).
Proof.
  intros Hin d r d' H t' Ht; apply create_ok in H as (_ & _ & ->).
  rewrite get_put_other, get_nextId by congruence; reflexivity.
Qed.

Lemma touches_update_many ts p g : t ∈ ts -> respects (touches ts) (update_many t p g).
Proof.
  intros Hin d r d' H t' Ht; apply update_many_ok in H as (_ & _ & ->).
  rewrite get_put_other by congruence; reflexivity.
Qed.

Lemma touches_update ts p g : t ∈ ts -> respects (touches ts) (update t p g).
Proof.
  intros Hin d r d' H t' Ht; apply update_ok in H as (x & _ & _ & _ & ->).
  rewrite get_put_other by congruence; reflexivity.
Qed.

Lemma frame_put_app m row d f :
  foreign m t row = false -> frame m d (put t (get t d ++ [row]) (d <| db_nextId ::= f |>)).
Proof.
  intros Hf t'; destruct (decide (t' = t)) as [-> | Hne].
  - rewrite get_put_same, List.filter_app; cbn; rewrite Hf; apply app_nil_r.
  - rewrite get_put_other, get_nextId; auto.
Qed.

Lemma frame_create m mk :
  (forall id, row_match t (mk id) = Some m) -> respects (frame m) (create t mk).
Proof.
  intros Hm d r d' H; apply create_ok in H as (-> & _ & ->); apply frame_put_app.
  unfold foreign; rewrite Hm; apply negb_false_iff, bool_decide_eq_true; reflexivity.
Qed.

Lemma frame_put_map m p g d :
  (forall r, p r = true -> foreign m t r = false /\ foreign m t (g r) = false) ->
  frame m d (put t (map_where p g (get t d)) d).
Proof.
  intros Hp t'; destruct (decide (t' = t)) as [-> | Hne].
  - rewrite get_put_same; apply filter_map_where, Hp.
  - rewrite get_put_other; auto.
Qed.

Lemma frame_update_many m p g :
  (forall r, p r = true -> foreign m t r = false /\ foreign m t (g r) = false) ->
  respects (frame m) (update_many t p g).
Proof.
  intros Hp d n d' H; apply update_many_ok in H as (_ & _ & ->); apply frame_put_map, Hp.
Qed.

Lemma frame_update m p g :
  (forall r, p r = true -> foreign m t r = false /\ foreign m t (g r) = false) ->
  respects (frame m) (update t p g).
Proof.
  intros Hp d n d' H; apply update_ok in H as (x & _ & _ & _ & ->).
  apply frame_put_map, Hp.
Qed.

Lemma keeps_sound_create mk :
  (forall n i, row_id t (mk n) = Some i -> i = n) -> respects keeps_sound (create t mk).
Proof.
  intros Hid d r d' H [Hwf Hf]; apply create_ok in H as (-> & Hok & ->).
  apply sound_put; [split; [apply wf_nextId, Hwf |] | exact Hok |].
  - intros t' r i; rewrite get_nextId; cbn; intros Hr Hi; specialize (Hf t' r i Hr Hi); lia.
  - cbn; intros r i; rewrite in_app_iff; intros [Hr | [<- | []]] Hi.
    + specialize (Hf t r i Hr Hi); lia.
    + apply Hid in Hi as ->; lia.
Qed.

Lemma keeps_sound_create_many {A} (mk : A -> uuid -> row_of t) l :
  (forall x n i, row_id t (mk x n) = Some i -> i = n) -> respects keeps_sound (create_many t mk l).
Proof.
  intros Hid; apply respects_for_each; [apply _ | intros x]; apply respects_bind; [apply _ | |].
  - apply keeps_sound_create, Hid.
  - intros; apply respects_ret; apply _.
Qed.

Lemma touches_create_many ts {A} (mk : A -> uuid -> row_of t) l :
  t ∈ ts -> respects (touches ts) (create_many t mk l).
Proof.
  intros Hin d u d' H t' Ht; apply create_many_ok in H as (rows & _ & _ & Ho).
  apply Ho; congruence.
Qed.

Lemma sound_map_where p g d :
  (forall r, row_id t (g r) = row_id t r) -> table_ok t (map_where p g (get t d)) = true ->
  sound d -> sound (put t (map_where p g (get t d)) d).
Proof.
  intros Hid Hok Hs; apply sound_put; [exact Hs | exact Hok |].
  intros r i Hr; apply in_map_where in Hr as (y & Hy & ->).
  destruct (p y); [rewrite Hid |]; apply Hs, Hy.
Qed.

Lemma keeps_sound_update_many p g :
  (forall r, row_id t (g r) = row_id t r) -> respects keeps_sound (update_many t p g).
Proof.
  intros Hid d r d' H; apply update_many_ok in H as (_ & Hok & ->); intros Hs.
  apply sound_map_where; auto.
Qed.

Lemma keeps_sound_update p g :
  (forall r, row_id t (g r) = row_id t r) -> respects keeps_sound (update t p g).
Proof.
  intros Hid d r d' H; apply update_ok in H as (x & _ & _ & Hok & ->); intros Hs.
  apply sound_map_where; auto.
Qed.

Lemma ids_grow_create mk : respects ids_grow (create t mk).
Proof.
  intros d r d' H; apply create_ok in H as (_ & _ & ->); unfold ids_grow.
  rewrite nextId_put; cbn; lia.
Qed.

Lemma ids_grow_update_many p g : respects ids_grow (update_many t p g).
Proof.
  intros d r d' H; apply update_many_ok in H as (_ & _ & ->); unfold ids_grow.
  rewrite nextId_put; lia.
Qed.

Lemma ids_grow_update p g : respects ids_grow (update t p g).
Proof.
  intros d r d' H; apply update_ok in H as (x & _ & _ & _ & ->); unfold ids_grow.
  rewrite nextId_put; lia.
Qed.
End Relations.

Section Reads.
Context (R : DB -> DB -> Prop) `{!PreOrder R}.

Lemma respects_find_one t p : respects R (find_one t p).
Proof. apply respects_gets; auto. Qed.
Lemma respects_find_many t p : respects R (find_many t p).
Proof. apply respects_gets; auto. Qed.
Lemma respects_find_one_or_throw t p : respects R (find_one_or_throw t p).
Proof.
  apply respects_bind; [auto | apply respects_find_one | intros; apply respects_or_throw; auto].
Qed.
Lemma respects_count t p : respects R (count t p).
Proof. apply respects_gets; auto. Qed.
End Reads.

Section ReadErrors.
Context (P : error -> Prop) (t : table).

Lemma raises_find_one p : raises P (find_one t p).
Proof. apply raises_gets. Qed.
Lemma raises_find_many p : raises P (find_many t p).
Proof. apply raises_gets. Qed.
Lemma raises_find_one_or_throw p : P RecordNotFound -> raises P (find_one_or_throw t p).
Proof. intros HP; apply raises_bind; [apply raises_find_one | intros; apply raises_or_throw, HP]. Qed.
Lemma raises_create mk : P UniqueViolation -> P CheckViolation -> raises P (create t mk).
Proof.
  intros HU HC s e; unfold create, table_error; destruct (table_ok _ _); [discriminate |].
  destruct (forallb _ _); intros H; inv H; assumption.
Qed.
Lemma raises_update_many p g : P UniqueViolation -> P CheckViolation -> raises P (update_many t p g).
Proof.
  intros HU HC s e; unfold update_many, table_error; destruct (table_ok _ _); [discriminate |].
  destruct (forallb _ _); intros H; inv H; assumption.
Qed.
Lemma raises_update p g :
  P UniqueViolation -> P CheckViolation -> P RecordNotFound -> raises P (update t p g).
Proof.
  intros; apply raises_bind; [apply raises_find_one_or_throw; auto | intros x].
  apply raises_bind; [apply raises_update_many; auto | intros; apply raises_ret].
Qed.
End ReadErrors.
(** The services use a row at its record type; the rules speak of [row_of t]. *)
Ltac as_row A t :=
  lazymatch A with
  | row_of _ => fail
  | _ =>
      lazymatch goal with
      | |- @respects ?S ?E ?R _ ?c => change (@respects S E R (row_of t) c)
      | |- @raises ?S ?E ?P _ ?c => change (@raises S E P (row_of t) c)
      end
  end.
#[export] Hint Extern 1 (@respects _ _ _ ?A (create ?t _)) => as_row A t : tx.
#[export] Hint Extern 1 (@respects _ _ _ ?A (update ?t _ _)) => as_row A t : tx.
#[export] Hint Extern 1 (@respects _ _ _ ?A (find_one_or_throw ?t _)) => as_row A t : tx.
#[export] Hint Extern 1 (@raises _ _ _ ?A (create ?t _)) => as_row A t : tx.
#[export] Hint Extern 1 (@raises _ _ _ ?A (update ?t _ _)) => as_row A t : tx.
#[export] Hint Extern 1 (@raises _ _ _ ?A (find_one_or_throw ?t _)) => as_row A t : tx.

#[export] Hint Resolve raises_find_one raises_find_many raises_find_one_or_throw raises_create
  raises_update_many raises_update : tx.

#[export] Hint Resolve respects_find_one respects_find_many respects_find_one_or_throw
  respects_count ids_grow_create ids_grow_update_many ids_grow_update : tx.
#[export] Hint Extern 2 (respects (untouched _) (create _ _)) =>
  apply untouched_create; discriminate : tx.
#[export] Hint Extern 2 (respects (untouched _) (update_many _ _ _)) =>
  apply untouched_update_many; discriminate : tx.
#[export] Hint Extern 2 (respects (untouched _) (update _ _ _)) =>
  apply untouched_update; discriminate : tx.

(** [t ∈ ts] on concrete tables is decided. *)
Ltac table_in := apply (bool_decide_eq_true_1 _); reflexivity.
(** The ids of the rows a program writes are plain to see. *)
Ltac ids_plain :=
  intros; cbn in *; repeat case_match;
  first [reflexivity | discriminate | congruence | match goal with H : Some _ = Some _ |- _ => injection H; auto end].
#[export] Hint Extern 2 (respects keeps_sound (create _ _)) => apply keeps_sound_create; ids_plain : tx.
#[export] Hint Extern 2 (respects keeps_sound (create_many _ _ _)) =>
  apply keeps_sound_create_many; ids_plain : tx.
#[export] Hint Extern 2 (respects keeps_sound (update _ _ _)) => apply keeps_sound_update; ids_plain : tx.
#[export] Hint Extern 2 (respects keeps_sound (update_many _ _ _)) =>
  apply keeps_sound_update_many; ids_plain : tx.
Ltac table_notin := apply (bool_decide_eq_false_1 _); reflexivity.
#[export] Hint Extern 2 (respects (touches _) (create _ _)) =>
  apply touches_create; table_in : tx.
#[export] Hint Extern 2 (respects (touches _) (create_many _ _ _)) =>
  apply touches_create_many; table_in : tx.
#[export] Hint Extern 2 (respects (touches _) (update_many _ _ _)) =>
  apply touches_update_many; table_in : tx.
#[export] Hint Extern 2 (respects (touches _) (update _ _ _)) =>
  apply touches_update; table_in : tx.

(** Inclusions of concrete table lists are decided. *)
Ltac tables_apart :=
  let t := fresh "t" in let Ht := fresh "Ht" in
  intros t Ht; revert t Ht; apply list.Forall_forall; apply (bool_decide_eq_true_1 _); reflexivity.

Lemma touches_weaken ts ts' d d' :
  touches ts d d' -> (forall t, t ∈ ts -> t ∈ ts') -> touches ts' d d'.
Proof. intros H Hts t Ht; apply H; auto. Qed.

(** Orders only look at the key. *)
Lemma min_by_map {A} (key : A -> Z) (g : A -> A) l :
  (forall x, key (g x) = key x) -> min_by key (map g l) = option_map g (min_by key l).
Proof.
  intros Hk; induction l as [|x l IH]; cbn; [reflexivity |].
  rewrite IH; destruct (min_by key l) as [y|]; cbn; [rewrite !Hk; destruct (_ <? _) |]; reflexivity.
Qed.

Lemma min_by_in {A} (key : A -> Z) l x : min_by key l = Some x -> In x l.
Proof.
  revert x; induction l as [|y l IH]; cbn; [discriminate |]; intros x.
  destruct (min_by key l) as [z|]; [destruct (key z <? key y) |]; intros H; inv H; auto.
Qed.

(** The row a unique id selects. *)
Lemma wf_find_id t d (q : row_of t -> bool) x i :
  wf d -> In x (get t d) -> row_id t x = Some i ->
  (forall y, q y = true <-> row_id t y = Some i) -> find_first q (get t d) = Some x.
Proof.
  intros Hd Hin Hx Hq; destruct (find_first q (get t d)) as [y|] eqn:E.
  - apply find_first_some in E as [Hy Hy2]; f_equal.
    eapply (wf_id t d); eauto; apply Hq, Hy2.
  - eapply find_first_none in E; [|exact Hin]; apply Hq in Hx; congruence.
Qed.

(** The row a predicate that fixes the id selects. *)
Lemma find_unique t d (q : row_of t -> bool) x i :
  wf d -> In x (get t d) -> q x = true -> row_id t x = Some i ->
  (forall y, q y = true -> row_id t y = Some i) -> find_first q (get t d) = Some x.
Proof.
  intros Hd Hin Hq Hx Hi; destruct (find_first q (get t d)) as [y|] eqn:E.
  - apply find_first_some in E as [Hy Hy2]; f_equal; eapply (wf_id t d); eauto.
  - eapply find_first_none in E; [|exact Hin]; congruence.
Qed.

(** A program that respects equality only reads. *)
Lemma read_only {A} (c : DbM A) d a d' : respects eq c -> c d = Ok (a, d') -> d' = d.
Proof. intros Hc H; symmetry; eapply Hc; eauto. Qed.


(** Identifies the stores before and after each read of the run. *)
Ltac reads :=
  repeat match goal with
  | H : ?c ?d = Ok (_, ?d') |- _ =>
      is_var d'; tryif constr_eq d d' then fail else
      (assert (d' = d) by (eapply read_only; [| exact H]; solve [eauto with tx typeclass_instances
                                                                | respects_auto]);
       subst d')
  end.

(** A computation outside the store, with its errors translated. *)
Definition from_result {E A} (h : E -> error) (x : result E A) : DbM A :=
  match x with Ok a => mret a | Err e => throw (h e) end.

Lemma from_result_ok {E A} (h : E -> error) (x : result E A) d a d' : from_result h x d = Ok (a, d') <-> x = Ok a /\ d' = d.
Proof.
  unfold from_result; destruct x as [y | e]; [rewrite ret_ok; split; intros [H ->]; [subst; auto | injection H as ->; auto] |].
  rewrite throw_ok; split; [intros [] | intros [H _]; discriminate].
Qed.

Lemma respects_from_result (R : DB -> DB -> Prop) `{!PreOrder R} {E A} (h : E -> error) (x : result E A) :
  respects R (from_result h x).
Proof. intros d a d' H; apply from_result_ok in H as [_ ->]; reflexivity. Qed.
#[export] Hint Resolve respects_from_result : tx.

Section Numbered.
Open Scope N_scope.

(** Rows with consecutive ids. *)
Fixpoint numbered {A B} (mk : A -> uuid -> B) (n : uuid) (l : list A) : list B :=
  match l with [] => [] | x :: l => mk x n :: numbered mk (N.succ n) l end.

Lemma create_many_run t {A} (mk : A -> uuid -> row_of t) l : forall d u d',
  create_many t mk l d = Ok (u, d') ->
  get t d' = get t d ++ numbered mk (db_nextId d) l /\ db_nextId d' = db_nextId d + N.of_nat (length l) /\
  forall t', t' <> t -> get t' d' = get t' d.
Proof.
  unfold create_many; induction l as [|x l IH]; intros d u d' H; cbn [for_each] in H.
  - apply ret_ok in H as [_ ->]; cbn; rewrite app_nil_r, N.add_0_r; auto.
  - apply bind_ok in H as ([] & d1 & H1 & H); apply bind_ok in H1 as (r & d2 & H1 & H2).
    apply ret_ok in H2 as [_ ->]; apply create_ok in H1 as (-> & _ & ->).
    apply IH in H as (Hg & Hn & Ho); rewrite get_put_same in Hg; rewrite nextId_put in Hg, Hn.
    cbn [numbered length]; split; [rewrite Hg, <- app_assoc; reflexivity |]; split.
    + rewrite Hn; change (db_nextId (d <| db_nextId ::= N.succ |>)) with (N.succ (db_nextId d)); lia.
    + intros t' Ht; rewrite Ho, get_put_other, get_nextId by auto; reflexivity.
Qed.

Lemma numbered_in {A B} (mk : A -> uuid -> B) l : forall n y, In y (numbered mk n l) ->
  exists x i, In x l /\ n <= i /\ i < n + N.of_nat (length l) /\ y = mk x i.
Proof.
  induction l as [|x l IH]; intros n y; [intros [] |]; cbn [numbered length]; intros [<- | Hy].
  - exists x, n; repeat split; try lia; left; reflexivity.
  - apply IH in Hy as (z & i & Hz & Hlo & Hhi & ->); exists z, i; repeat split; try lia; right; exact Hz.
Qed.

Lemma numbered_surj {A B} (mk : A -> uuid -> B) l : forall n x, In x l -> exists i, In (mk x i) (numbered mk n l).
Proof.
  induction l as [|y l IH]; intros n x; [intros [] |]; cbn [numbered]; intros [-> | Hx].
  - exists n; left; reflexivity.
  - destruct (IH (N.succ n) x Hx) as (i & Hi); exists i; right; exact Hi.
Qed.
End Numbered.

(** ** Deletes

    [transaction.t.deleteMany({ where })] on a table no foreign key refers to. *)
Definition delete_many (t : table) (where_ : row_of t -> bool) : DbM nat := fun d =>
  Ok (length (List.filter where_ (get t d)), put t (List.filter (fun r => negb (where_ r)) (get t d)) d).

Lemma unique_by_sub {R K} `{EqDecision K} (key : R -> option K) p l :
  unique_by key l = true -> unique_by key (List.filter p l) = true.
Proof.
  unfold unique_by; rewrite !bool_decide_eq_true; induction l as [| x l IH]; cbn; [auto |].
  intros Hnd; assert (Hl : NoDup (omap key l)) by (destruct (key x); [inversion Hnd |]; auto).
  destruct (p x); [cbn | auto]; destruct (key x) as [k |]; [| auto].
  apply list.NoDup_cons in Hnd as [Hk _]; constructor; [| auto].
  intros Hin; apply Hk; apply list_elem_of_omap in Hin as (y & Hy & Ky); apply list_elem_of_omap; exists y.
  rewrite list_elem_of_In in Hy; apply filter_In in Hy as [Hy _]; rewrite list_elem_of_In; auto.
Qed.

Lemma table_ok_sub t p l : table_ok t l = true -> table_ok t (List.filter p l) = true.
Proof.
  intros H; apply table_ok_true in H as (Hc & Hpk & Hix); apply table_ok_true; split_and!.
  - rewrite forallb_forall in *; intros r Hr; apply filter_In in Hr as [Hr _]; auto.
  - apply unique_by_sub, Hpk.
  - destruct t; cbn in *; rewrite ?andb_true_iff in *; repeat match goal with H : _ /\ _ |- _ => destruct H end;
      split_and?; auto using unique_by_sub.
Qed.

Lemma delete_many_ok t p d n d' : delete_many t p d = Ok (n, d') <->
  n = length (List.filter p (get t d)) /\ d' = put t (List.filter (fun r => negb (p r)) (get t d)) d.
Proof. unfold delete_many; split; [intros [= <- <-]; auto | intros [-> ->]; reflexivity]. Qed.

Lemma keeps_sound_delete_many t p : respects keeps_sound (delete_many t p).
Proof.
  intros d n d' H Hs; apply delete_many_ok in H as [_ ->]; apply sound_put; [exact Hs | apply table_ok_sub, Hs |].
  intros r i Hr; apply filter_In in Hr as [Hr _]; apply Hs, Hr.
Qed.

Lemma touches_delete_many t ts p : t ∈ ts -> respects (touches ts) (delete_many t p).
Proof.
  intros Hin d n d' H t' Ht; apply delete_many_ok in H as [_ ->]; rewrite get_put_other by congruence; reflexivity.
Qed.
#[export] Hint Resolve keeps_sound_delete_many : tx.
#[export] Hint Extern 2 (respects (touches _) (delete_many _ _)) => apply touches_delete_many; table_in : tx.

(** An update of the rows of a stored table that keeps their ids, keys and checks goes through. *)
Lemma update_many_total t p g d :
  sound d -> (forall r, row_id t (g r) = row_id t r) ->
  indexes_ok t (map_where p g (get t d)) = indexes_ok t (get t d) ->
  (forall r, In r (get t d) -> p r = true -> row_ok t r = true -> row_ok t (g r) = true) ->
  update_many t p g d = Ok (length (List.filter p (get t d)), put t (map_where p g (get t d)) d).
Proof.
  intros [Hwf Hf] Hid Hix Hrow; apply update_many_ok; split_and!; auto.
  specialize (Hwf t) as Ht; apply table_ok_true in Ht as (Hc & Hpk & Hi).
  apply table_ok_true; rewrite Hix, unique_by_map_where by auto; split_and!; auto.
  rewrite forallb_forall in *; intros r Hr; apply in_map_where in Hr as (y & Hy & ->).
  destruct (p y) eqn:E; auto.
Qed.
