(* ===== verification/Rules.v ===== *)
(** * Rules

    The pure rules of the engine: server clock readings and command identities, the
    sport rules and their registry, round timing, round descriptors, the match score
    projection, final scores, and the display state shown for a match or fixture. *)
From stdpp Require Import gmap.
From S2P Require Import Prelude Schema Database.

(** ** Clock and identities *)

(** The readings one command takes: [clock_timestamp()] inside an authorization query,
    the server clock sampled after the match lock, the value row defaults [now()] get,
    and the successive [new Date()] of the process. *)
Record Clock : Type := mkClock {
  authNow : timestamp; serverNow : timestamp; rowNow : timestamp; jsNow : nat -> timestamp }.

Inductive SupervisorCommandIdentity : Type :=
  | IdLegacy (sessionId : uuid) (sessionTokenHash : string)
  | IdOfficial (assignmentId officialId officialSessionId : uuid).

(** [auditActor]: the session columns of an audit entry. *)
Definition auditActor (identity : SupervisorCommandIdentity) : option uuid * option uuid :=
  match identity with
  | IdLegacy s _ => (Some s, None)
  | IdOfficial _ _ os => (None, Some os)
  end.

(** [identity.kind === 'legacy' ? identity.sessionId : null] and its counterpart. *)
Definition legacySession (identity : SupervisorCommandIdentity) : option uuid :=
  match identity with IdLegacy s _ => Some s | IdOfficial _ _ _ => None end.
Definition officialAssignment (identity : SupervisorCommandIdentity) : option uuid :=
  match identity with IdLegacy _ _ => None | IdOfficial a _ _ => Some a end.
Definition officialSession (identity : SupervisorCommandIdentity) : option uuid :=
  match identity with IdLegacy _ _ => None | IdOfficial _ _ os => Some os end.

(** [...(identity.kind === 'official' ? { assignmentId } : {})] in metadata. *)
Definition assignmentField (identity : SupervisorCommandIdentity) : list (string * json) :=
  match identity with
  | IdLegacy _ _ => []
  | IdOfficial a _ _ => [("assignmentId"%string, JId a)]
  end.

(** ** Sport rules *)

Record SportRulesDefinition : Type := mkSportRules {
  code : string;
  athleteColors : list AthleteColor;
  accessRoles : list MatchAccessRole;
  minimumScoreboardConnections : Z;
  roundCount : Z;
  defaultRequiredJudgeCount : Z;
  minimumRequiredRefereeCount : Z;
  requiresOddRefereeCount : bool;
  judgeMajority : Z -> Z;
  judgePointValue : Z;
  supervisorPenaltyValue : Z;
  determineWinner : (AthleteColor -> Z) -> option AthleteColor }.

Definition oneOnOneCombatRules : SportRulesDefinition := {|
  accessRoles := [ACCESS_JUDGE_1; ACCESS_JUDGE_2; ACCESS_JUDGE_3; ACCESS_SUPERVISOR];
  athleteColors := [RED; BLUE];
  code := "ONE_ON_ONE_COMBAT";
  supervisorPenaltyValue := -1;
  determineWinner totals :=
    if totals RED =? totals BLUE then None
    else if totals BLUE <? totals RED then Some RED else Some BLUE;
  minimumScoreboardConnections := 1;
  defaultRequiredJudgeCount := 3;
  minimumRequiredRefereeCount := 3;
  requiresOddRefereeCount := true;
  judgeMajority judgeCount := judgeCount / 2 + 1;
  judgePointValue := 1;
  roundCount := 2 |}.

Definition registry : list (string * SportRulesDefinition) :=
  [(code oneOnOneCombatRules, oneOnOneCombatRules)].

(** [SportRulesRegistry.resolve] *)
Definition resolveRules (sportGroupCode : string) : DbM SportRulesDefinition :=
  match find_first (fun e => fst e === sportGroupCode) registry with
  | Some (_, definition) => mret definition
  | None => throw (SportGroupRulesNotImplemented sportGroupCode)
  end.

(** [rulesForMatch], the same method in the scoring, lifecycle and penalty services. *)
Definition rulesForMatch (matchId : uuid) : DbM SportRulesDefinition :=
  m ← find_one_or_throw matches (fun m => m_id m === matchId);
  tn ← find_one_or_throw tournaments (fun tn => tn_id tn === m_tournamentId m);
  resolveRules (tn_sportGroupCode tn).

(** ** Round timing *)

(** [activeRoundElapsedMs] *)
Definition activeRoundElapsedMs (durationMs : option Z) (endsAt occurredAt : timestamp) : option Z :=
  match durationMs with
  | None => None
  | Some duration =>
      let remainingMs := Z.max 0 (endsAt - occurredAt) in
      Some (Z.max 0 (duration - remainingMs))
  end.

(** ** Round descriptors *)

Record RoundDescriptor : Type := mkRoundDescriptor {
  rd_stage : RoundStage; rd_roundNumber : Z; rd_attemptNumber : Z }.

Definition assertRoundDescriptor (d : RoundDescriptor) : DbM RoundDescriptor :=
  if (rd_stage d === REGULATION) && (rd_attemptNumber d =? 0) &&
     ((rd_roundNumber d =? 1) || (rd_roundNumber d =? 2)) then mret d
  else if (rd_stage d === OVERTIME) && (rd_roundNumber d =? 1) && (1 <=? rd_attemptNumber d)
  then mret d
  else throw (InternalError "Invalid round descriptor").

Definition appealScope (d : RoundDescriptor) : DbM (MatchAppealScope * Z) :=
  valid ← assertRoundDescriptor d;
  mret (if rd_stage valid === REGULATION then (SCOPE_REGULATION, 0)
        else (SCOPE_OVERTIME, rd_attemptNumber valid)).

(** ** Score projection *)

Record AthleteProjection : Type := mkProjection {
  pj_athleteId : uuid; pj_color : AthleteColor; pj_faultCount : Z; pj_refereeScore : Z }.

(** The filter both score computations apply to an event. *)
Definition validJudgePoint (validRoundIds : list uuid) (e : ScoreEventRow) : bool :=
  (e_type e === JUDGE_POINT) && (e_revertedAt e === None) &&
  match e_roundId e with Some r => existsb (fun x => x === r) validRoundIds | None => false end.

Definition validFault (validRoundIds : list uuid) (f : FaultRow) : bool :=
  (f_invalidatedAt f === None) && existsb (fun x => x === f_roundId f) validRoundIds.

(** [calculateMatchScoreProjection] *)
Definition calculateMatchScoreProjection (athletes : list MatchAthleteRow)
    (faults_ : list FaultRow) (events : list ScoreEventRow) (validRoundIds : list uuid)
    : list AthleteProjection :=
  let zeros : gmap uuid Z := foldl (fun acc a => <[ma_id a := 0]> acc) ∅ athletes in
  let scores : gmap uuid Z :=
    foldl (fun acc e =>
      if validJudgePoint validRoundIds e
      then <[e_athleteId e := default 0 (acc !! e_athleteId e) + e_value e]> acc else acc)
      zeros events in
  let faultCounts : gmap uuid Z :=
    foldl (fun acc f =>
      if validFault validRoundIds f
      then <[f_athleteId f := default 0 (acc !! f_athleteId f) + 1]> acc else acc)
      zeros faults_ in
  map (fun a => {| pj_athleteId := ma_id a; pj_color := ma_color a;
                   pj_faultCount := default 0 (faultCounts !! ma_id a);
                   pj_refereeScore := default 0 (scores !! ma_id a) |}) athletes.

(** ** Result calculations *)

(** [finalScore] *)
Definition finalScore (base bonusPoints penaltyPoints : Z) : Z :=
  Z.max 0 (base + bonusPoints - penaltyPoints).

(** [judgeBaseForRounds] *)
Definition judgeBaseForRounds (athleteId : uuid) (roundIds : list uuid)
    (events : list ScoreEventRow) : Z :=
  foldl (fun total e =>
    if (e_athleteId e === athleteId) && validJudgePoint roundIds e
    then total + e_value e else total) 0 events.

(** ** Display state *)

Definition lifecycleDisplayState (l : MatchLifecycle) : MatchDisplayState :=
  match l with
  | NOT_STARTED => DISPLAY_NOT_STARTED
  | IN_PROGRESS => DISPLAY_IN_PROGRESS
  | SUSPENDED => DISPLAY_SUSPENDED
  | LIFECYCLE_COMPLETED => DISPLAY_COMPLETED
  end.

Inductive DisplayStateSource : Type :=
  | OPERATIONAL_MATCH (lifecycle : MatchLifecycle)
  | BRACKET_FIXTURE (fixtureStatus : BracketFixtureStatus) (lifecycle : option MatchLifecycle).

Definition projectMatchDisplayState (source : DisplayStateSource) : result error MatchDisplayState :=
  match source with
  | OPERATIONAL_MATCH l => Ok (lifecycleDisplayState l)
  | BRACKET_FIXTURE PENDING_PARTICIPANTS _ => Ok DISPLAY_NOT_READY
  | BRACKET_FIXTURE FIXTURE_READY _ => Ok DISPLAY_READY
  | BRACKET_FIXTURE FIXTURE_COMPLETED None => Ok DISPLAY_COMPLETED
  | BRACKET_FIXTURE FIXTURE_COMPLETED (Some l) => Ok (lifecycleDisplayState l)
  | BRACKET_FIXTURE MATCH_PREPARED None | BRACKET_FIXTURE AWAITING_WINNER None =>
      Err (InternalError "Fixture requires an operational match lifecycle")
  | BRACKET_FIXTURE MATCH_PREPARED (Some l) | BRACKET_FIXTURE AWAITING_WINNER (Some l) =>
      Ok (lifecycleDisplayState l)
  end.

(** ** Facts *)

Lemma resolveRules_ok c r d d' :
  resolveRules c d = Ok (r, d') -> r = oneOnOneCombatRules /\ d' = d.
Proof.
  unfold resolveRules; cbn [find_first registry fst].
  case_bool_decide; intros H0; [apply ret_ok in H0 as [<- <-]; auto | discriminate].
Qed.

Lemma rulesForMatch_ok m r d d' :
  rulesForMatch m d = Ok (r, d') -> r = oneOnOneCombatRules /\ d' = d.
Proof. unfold rulesForMatch; intros H; run H; eauto using resolveRules_ok. Qed.

Lemma respects_resolveRules R `{!PreOrder R} c : respects R (resolveRules c).
Proof. intros d r d' H; apply resolveRules_ok in H as [_ ->]; reflexivity. Qed.

Lemma respects_rulesForMatch R `{!PreOrder R} m : respects R (rulesForMatch m).
Proof. intros d r d' H; apply rulesForMatch_ok in H as [_ ->]; reflexivity. Qed.
#[export] Hint Resolve respects_resolveRules respects_rulesForMatch : tx.

Section Projection.
Context {A : Type} (key : A -> uuid) (sel : A -> bool) (val : A -> Z).

(** The source accumulates into a Map; reading one key back sums that key's items. *)
Lemma map_accumulate (l : list A) (acc : gmap uuid Z) k :
  default 0 (foldl (fun acc x => if sel x
     then <[key x := default 0 (acc !! key x) + val x]> acc else acc) acc l !! k) =
  default 0 (acc !! k) + sum_by val (List.filter (fun x => (key x === k) && sel x) l).
Proof.
  revert acc; induction l as [|x l IH]; intros acc; cbn [foldl List.filter]; [cbn; lia |].
  rewrite IH; destruct (sel x); [rewrite andb_true_r | rewrite andb_false_r; reflexivity].
  case_bool_decide as E; cbn [sum_by fold_right].
  - subst; rewrite lookup_insert_eq; cbn; unfold sum_by; lia.
  - rewrite lookup_insert_ne; auto.
Qed.
End Projection.

Lemma zeros_lookup (l : list MatchAthleteRow) (acc : gmap uuid Z) k :
  default 0 (acc !! k) = 0 ->
  default 0 (foldl (fun acc a => <[ma_id a := 0]> acc) acc l !! k) = 0.
Proof.
  revert acc; induction l as [|x l IH]; intros acc H; cbn; [exact H |].
  apply IH; rewrite lookup_insert; case_decide; [reflexivity | exact H].
Qed.

Lemma foldl_sum {A} (sel : A -> bool) (val : A -> Z) l acc :
  foldl (fun total x => if sel x then total + val x else total) acc l =
  acc + sum_by val (List.filter sel l).
Proof.
  revert acc; induction l as [|x l IH]; intros acc; cbn; [lia |].
  rewrite IH; destruct (sel x); cbn; unfold sum_by; lia.
Qed.

Lemma judgeBaseForRounds_sum a rs es :
  judgeBaseForRounds a rs es =
  sum_by e_value (List.filter (fun e => (e_athleteId e === a) && validJudgePoint rs e) es).
Proof. unfold judgeBaseForRounds; rewrite foldl_sum; lia. Qed.

(** The projection of each athlete, as a count and a sum over the stored rows. *)
Lemma projection_map athletes faults_ events validRoundIds :
  calculateMatchScoreProjection athletes faults_ events validRoundIds =
  map (fun a => {|
    pj_athleteId := ma_id a; pj_color := ma_color a;
    pj_faultCount := sum_by (fun _ => 1) (List.filter
      (fun f => (f_athleteId f === ma_id a) && validFault validRoundIds f) faults_);
    pj_refereeScore := sum_by e_value (List.filter
      (fun e => (e_athleteId e === ma_id a) && validJudgePoint validRoundIds e) events) |}) athletes.
Proof.
  unfold calculateMatchScoreProjection; apply map_ext; intros a; f_equal.
  - rewrite (map_accumulate f_athleteId (validFault validRoundIds) (fun _ => 1)).
    rewrite zeros_lookup by (rewrite lookup_empty; reflexivity); reflexivity.
  - rewrite (map_accumulate e_athleteId (validJudgePoint validRoundIds) e_value).
    rewrite zeros_lookup by (rewrite lookup_empty; reflexivity); reflexivity.
Qed.

Lemma sum_ones {A} (l : list A) : sum_by (fun _ => 1) l = Z.of_nat (length l).
Proof. unfold sum_by; induction l; cbn [fold_right length]; lia. Qed.

(** ** Properties *)

(** two colours never both reach the judge majority of a staffed match: with
    [n] votes at most [n] judges can cast, the colour that reaches
    [judgeMajority n] is the only one, so a window's winner does not depend on which
    colour is tested first. *)
Theorem judgeMajority_exclusive (judgeCount redVotes blueVotes : Z)
  (Hvotes : redVotes + blueVotes <= judgeCount)
  (Hred : judgeMajority oneOnOneCombatRules judgeCount <= redVotes) :
  blueVotes < judgeMajority oneOnOneCombatRules judgeCount.
Proof. cbn in *; pose proof (Z.div_mod judgeCount 2); pose proof (Z.mod_pos_bound judgeCount 2); lia. Qed.

Lemma judgeMajority_exclusive_witness :
  judgeMajority oneOnOneCombatRules 3 = 2 /\ 1 < judgeMajority oneOnOneCombatRules 3.
Proof. split; [reflexivity | apply (judgeMajority_exclusive 3 2 1); vm_compute; discriminate]. Defined.

(** the score projection published after a fault or on reconnect agrees with the
    result calculation: for every athlete of the match it carries exactly the judge
    base over the valid rounds, and counts exactly the athlete's valid faults. *)
Theorem projection_agrees_with_judge_base athletes faults_ events validRoundIds :
  calculateMatchScoreProjection athletes faults_ events validRoundIds =
  map (fun a => {|
    pj_athleteId := ma_id a; pj_color := ma_color a;
    pj_faultCount := Z.of_nat (length (List.filter
      (fun f => (f_athleteId f === ma_id a) && validFault validRoundIds f) faults_));
    pj_refereeScore := judgeBaseForRounds (ma_id a) validRoundIds events |}) athletes.
Proof.
  rewrite projection_map; apply map_ext; intros a; f_equal; [apply sum_ones |].
  symmetry; apply judgeBaseForRounds_sum.
Qed.
