(* ===== verification/Authorization.v ===== *)
(** * Authorization

    The locking authorization queries every command runs after it has locked its
    match: supervisors (one boundary shared by appeals, faults and publication, one in
    the lifecycle service, one for penalties) and judges (by assignment or by legacy
    session), and the lifecycle of official assignments, released when a match
    finishes, is exited or is reset out of the finished state. *)
From S2P Require Import Prelude Schema Database Rules.

(** ** Query helpers *)

(** [active = true AND revoked_at IS NULL AND expires_at > clock_timestamp()]; a null
    expiry compares to unknown, which a WHERE clause treats as false. *)
Definition session_live (active : bool) (revokedAt expiresAt : option timestamp) (now : timestamp)
  : bool :=
  active && (revokedAt === None) &&
  match expiresAt with Some e => now <? e | None => false end.

(** [SELECT ... FROM a JOIN b ... WHERE c] *)
Definition join (A B : table) (where_ : row_of A -> row_of B -> bool) (d : DB)
  : list (row_of A * row_of B) :=
  List.filter (fun ab => where_ (fst ab) (snd ab)) (list_prod (get A d) (get B d)).

(** [if (rows.length !== 1) throw e] *)
Definition exactly_one {A} (rows : list A) (e : error) : DbM A :=
  match rows with [r] => mret r | _ => throw e end.

(** [SELECT id FROM matches WHERE id = matchId FOR UPDATE] with the caller's check. *)
Definition lockMatch (matchId : uuid) (missing : error) : DbM unit :=
  m ← find_one matches (fun m => m_id m === matchId);
  match m with Some _ => mret tt | None => throw missing end.

Definition activeAssignment (matchId : uuid) (a : AssignmentRow) : bool :=
  (oa_matchId a === matchId) && (oa_releasedAt a === None).

(** [NOT EXISTS (SELECT 1 FROM match_official_assignments ... released_at IS NULL)] *)
Definition noActiveAssignment (matchId : uuid) (d : DB) : bool :=
  negb (existsb (activeAssignment matchId) (get matchOfficialAssignments d)).

(** ** Supervisors *)

Definition supervisorAssignmentRow (matchId a o os : uuid) (now : timestamp)
    (oa : AssignmentRow) (s : OfficialSessionRow) : bool :=
  (os_officialId s === oa_officialId oa) && (oa_id oa === a) && (oa_matchId oa === matchId) &&
  (oa_officialId oa === o) && (oa_role oa === OFFICIAL_SUPERVISOR) &&
  (oa_releasedAt oa === None) && (os_id s === os) &&
  session_live (os_active s) (os_revokedAt s) (os_expiresAt s) now.

Definition supervisorSessionRow (matchId sid : uuid) (tokenHash : option string) (now : timestamp)
    (s : SessionRow) (c : AccessCodeRow) : bool :=
  (ac_id c === ms_accessCodeId s) && (ms_id s === sid) && (ms_matchId s === matchId) &&
  match tokenHash with Some h => ms_tokenHash s === h | None => true end &&
  (ms_role s === ROLE_SUPERVISOR) && (ac_role c === ACCESS_SUPERVISOR) &&
  session_live (ms_active s) (ms_revokedAt s) (ms_expiresAt s) now.

(** [SupervisorAuthorizationService.lockAndVerify] *)
Definition lockAndVerify (clk : Clock) (matchId : uuid) (identity : SupervisorCommandIdentity)
    (e : error) : DbM unit :=
  match identity with
  | IdOfficial a o os =>
      rows ← gets (join matchOfficialAssignments tournamentOfficialSessions
                (supervisorAssignmentRow matchId a o os (authNow clk)));
      _ ← exactly_one rows e; mret tt
  | IdLegacy sid h =>
      free ← gets (noActiveAssignment matchId);
      rows ← gets (join matchSessions matchAccessCodes
                (fun s c => supervisorSessionRow matchId sid (Some h) (authNow clk) s c && free));
      _ ← exactly_one rows e; mret tt
  end.

(** The official's own row, which the lifecycle and penalty queries also join. *)
Definition activeSupervisorOfficial (matchId o : uuid) (d : DB) : bool :=
  existsb (fun tf => (tf_id tf === o) && tf_isActive tf && (tf_role tf === OFFICIAL_SUPERVISOR) &&
    existsb (fun m => (m_id m === matchId) && (m_tournamentId m === tf_tournamentId tf))
      (db_matches d)) (db_tournamentOfficials d).

(** [MatchLifecycleService.lockActiveSupervisorIdentity] *)
Definition lockActiveSupervisorIdentity (clk : Clock) (matchId : uuid)
    (identity : SupervisorCommandIdentity) : DbM unit :=
  match identity with
  | IdOfficial a o os =>
      official ← gets (activeSupervisorOfficial matchId o);
      rows ← gets (join matchOfficialAssignments tournamentOfficialSessions
                (fun oa s => supervisorAssignmentRow matchId a o os (authNow clk) oa s && official));
      _ ← exactly_one rows InactiveRoundStartSession; mret tt
  | IdLegacy sid h =>
      free ← gets (noActiveAssignment matchId);
      rows ← gets (join matchSessions matchAccessCodes
                (fun s c => supervisorSessionRow matchId sid (Some h) (authNow clk) s c && free));
      _ ← exactly_one rows InactiveRoundStartSession; mret tt
  end.

(** [MatchLifecycleService.lockActiveControlSession] *)
Definition lockActiveControlSession (clk : Clock) (matchId : uuid)
    (identity : SupervisorCommandIdentity) : DbM unit :=
  rethrow (fun e => match e with
                    | InactiveRoundStartSession => InactiveRoundControlSession
                    | _ => e end)
    (lockActiveSupervisorIdentity clk matchId identity).

(** [PenaltyService.lockActiveSupervisorIdentity]: a legacy session is identified by its
    id alone, must have no judge slot, and is accepted next to active assignments. *)
Definition lockPenaltySupervisor (clk : Clock) (matchId : uuid)
    (identity : SupervisorCommandIdentity) : DbM unit :=
  match identity with
  | IdOfficial a o os =>
      official ← gets (activeSupervisorOfficial matchId o);
      rows ← gets (join matchOfficialAssignments tournamentOfficialSessions
                (fun oa s => supervisorAssignmentRow matchId a o os (authNow clk) oa s && official));
      _ ← exactly_one rows InactivePenaltySession; mret tt
  | IdLegacy sid _ =>
      rows ← gets (join matchSessions matchAccessCodes
                (fun s c => supervisorSessionRow matchId sid None (authNow clk) s c &&
                            (ms_judgeSlot s === None)));
      _ ← exactly_one rows InactivePenaltySession; mret tt
  end.

(** ** Judges *)

Inductive VoteAuthorization : Type :=
  | VoteOfficial (assignmentId officialSessionId : uuid) (judgePosition : Z)
  | VoteLegacy (judgeSlot : JudgeSlot) (sessionId : uuid).

(** The row of [ScoringService.lockActiveJudgeAssignment]: the session's official is
    assigned to the match as a judge, inside the match's tournament. *)
Definition judgeAssignmentRow (matchId os : uuid) (now : timestamp) (d : DB)
    (oa : AssignmentRow) (s : OfficialSessionRow) : bool :=
  (oa_officialId oa === os_officialId s) && (os_id s === os) &&
  session_live (os_active s) (os_revokedAt s) (os_expiresAt s) now &&
  (oa_matchId oa === matchId) && (oa_role oa === OFFICIAL_JUDGE) && (oa_releasedAt oa === None) &&
  existsb (fun m => (m_id m === matchId) && (m_tournamentId m === oa_tournamentId oa)) (db_matches d) &&
  existsb (fun tf => (tf_id tf === os_officialId s) &&
                     (tf_tournamentId tf === oa_tournamentId oa)) (db_tournamentOfficials d).

Definition lockActiveJudgeAssignment (clk : Clock) (matchId officialSessionId : uuid)
    : DbM VoteAuthorization :=
  rows ← gets (fun d => join matchOfficialAssignments tournamentOfficialSessions
                (judgeAssignmentRow matchId officialSessionId (authNow clk) d) d);
  row ← exactly_one rows InactiveVoteSession;
  match oa_judgePosition (fst row) with
  | Some position => mret (VoteOfficial (oa_id (fst row)) officialSessionId position)
  | None => throw InactiveVoteSession
  end.

(** [lockActiveJudgeSession] *)
Definition lockActiveJudgeSession (clk : Clock) (matchId sessionId : uuid) (slot : JudgeSlot)
    : DbM uuid :=
  rows ← find_many matchSessions (fun s =>
    (ms_id s === sessionId) && (ms_matchId s === matchId) &&
    session_live (ms_active s) (ms_revokedAt s) (ms_expiresAt s) (authNow clk) &&
    (ms_role s === ROLE_JUDGE) && (ms_judgeSlot s === Some slot));
  row ← exactly_one rows InactiveVoteSession;
  mret (ms_id (row : SessionRow)).

(** [lockLegacyJudgeSession] *)
Definition lockLegacyJudgeSession (clk : Clock) (matchId : uuid) (sessionId : option uuid)
    (judgeSlot : option JudgeSlot) : DbM VoteAuthorization :=
  match sessionId, judgeSlot with
  | Some sid, Some slot =>
      locked ← lockActiveJudgeSession clk matchId sid slot; mret (VoteLegacy slot locked)
  | _, _ => throw InactiveVoteSession
  end.

(** ** Assignment lifecycle *)

(** [assignmentReleaseReasonForTransition] *)
Definition assignmentReleaseReasonForTransition (from to : MatchStatus) : option ReleaseReason :=
  if to === FINISHED then Some REASON_MATCH_FINISHED
  else if from === FINISHED then Some RESET_REQUIRES_SETUP
  else None.

Definition assignmentJson (a : AssignmentRow) : json :=
  JObj [("officialId", JId (oa_officialId a)); ("judgePosition", jopt JNum (oa_judgePosition a));
        ("role", JRole (oa_role a))]%string.

(** One of the two [updateMany] calls that retire a crew. *)
Definition releaseRole (matchId : uuid) (role : TournamentOfficialRole) (reason : ReleaseReason)
    (occurredAt : timestamp) : DbM nat :=
  update_many matchOfficialAssignments
    (fun a => activeAssignment matchId a && (oa_role a === role))
    (fun a => a <| oa_releaseReason := Some reason |> <| oa_releasedAt := Some occurredAt |>).

(** [MatchOfficialAssignmentLifecycleService.releaseForTransition] *)
Definition releaseForTransition (from to : MatchStatus) (matchId : uuid) (occurredAt : timestamp)
    (identity : SupervisorCommandIdentity) (reason : option ReleaseReason) : DbM (list uuid) :=
  match (match reason with
         | Some r => Some r
         | None => assignmentReleaseReasonForTransition from to
         end) with
  | None => mret []
  | Some reason =>
      assignments ← find_many matchOfficialAssignments (activeAssignment matchId);
      if bool_decide (length assignments = 0%nat) then mret [] else
      _ ← releaseRole matchId OFFICIAL_JUDGE reason occurredAt;
      _ ← releaseRole matchId OFFICIAL_SUPERVISOR reason occurredAt;
      _ ← create auditLogs (fun id => mkAuditRow id (Some matchId) None
            (legacySession identity) (officialSession identity)
            MATCH_OFFICIAL_ASSIGNMENT_RELEASED
            (JObj ([("assignments"%string, JList (map assignmentJson assignments))] ++
                   assignmentField identity ++
                   [("fromStatus", JStatus from); ("reason", JReason reason);
                    ("toStatus", JStatus to)]%string)));
      mret (map oa_officialId assignments)
  end.

(** [auditLog.create] with the actor of a supervisor command. *)
Definition auditCommand (matchId : uuid) (identity : SupervisorCommandIdentity)
    (eventType : AuditEventType) (metadata : list (string * json)) : DbM AuditRow :=
  create auditLogs (fun id => mkAuditRow id (Some matchId) None (fst (auditActor identity))
    (snd (auditActor identity)) eventType (JObj metadata)).

(** ** Facts *)

Lemma lockMatch_total m e d mr :
  find_first (fun x => m_id x === m) (db_matches d) = Some mr -> lockMatch m e d = Ok (tt, d).
Proof.
  intros H; assert (H' : find_first (fun x : row_of matches => m_id x === m) (get matches d) = Some mr)
    by exact H.
  unfold lockMatch; rewrite (bind_step _ _ _ _ _ (eq_refl : find_one matches _ d = Ok (_, d))).
  rewrite H'; reflexivity.
Qed.

Section Preserved.
Context (R : DB -> DB -> Prop) `{!PreOrder R}.

Lemma respects_exactly_one {A} (rows : list A) e : respects R (exactly_one rows e).
Proof. destruct rows as [|? [|]]; cbn; auto using respects_throw, respects_ret. Qed.

Lemma respects_lockMatch m e : respects R (lockMatch m e).
Proof.
  apply respects_bind; [auto | apply respects_find_one; auto | intros [|]].
  - apply respects_ret; auto.
  - apply respects_throw.
Qed.
End Preserved.
#[export] Hint Resolve respects_exactly_one respects_lockMatch : tx.

Section AuthPreserved.
Context (R : DB -> DB -> Prop) `{!PreOrder R}.

Lemma respects_lockAndVerify clk m i e : respects R (lockAndVerify clk m i e).
Proof. destruct i; unfold lockAndVerify; respects_auto. Qed.
Lemma respects_lockActiveSupervisorIdentity clk m i :
  respects R (lockActiveSupervisorIdentity clk m i).
Proof. destruct i; unfold lockActiveSupervisorIdentity; respects_auto. Qed.
Lemma respects_lockActiveControlSession clk m i : respects R (lockActiveControlSession clk m i).
Proof. apply respects_rethrow, respects_lockActiveSupervisorIdentity. Qed.
Lemma respects_lockPenaltySupervisor clk m i : respects R (lockPenaltySupervisor clk m i).
Proof. destruct i; unfold lockPenaltySupervisor; respects_auto. Qed.
Lemma respects_lockActiveJudgeAssignment clk m os :
  respects R (lockActiveJudgeAssignment clk m os).
Proof. unfold lockActiveJudgeAssignment; respects_auto. Qed.
Lemma respects_lockLegacyJudgeSession clk m s j : respects R (lockLegacyJudgeSession clk m s j).
Proof. unfold lockLegacyJudgeSession, lockActiveJudgeSession; respects_auto. Qed.
End AuthPreserved.
#[export] Hint Resolve respects_lockAndVerify respects_lockActiveSupervisorIdentity
  respects_lockActiveControlSession respects_lockPenaltySupervisor
  respects_lockActiveJudgeAssignment respects_lockLegacyJudgeSession : tx.
