(* ===== verification/Scenario.v ===== *)
(** * Scenario

    A small concrete store the witnesses run on: one tournament of the one-on-one
    combat group, match 10 under the current rules with a red and a blue athlete, three
    legacy judge sessions and a legacy supervisor session, and a second match 11 that
    no command of a witness is addressed to. *)
From stdpp Require Import pretty.
From S2P Require Import Prelude Schema Database Rules Authorization.

Definition at_time (t : timestamp) : Clock := mkClock t t t (fun _ => t).

Definition sampleMatch (id : uuid) (status : MatchStatus) (lifecycle : MatchLifecycle)
    (currentRound : option Z) (startedAt : option timestamp) : MatchRow :=
  mkMatchRow id (if N.eqb id 10 then "M" else "N") 1 None 3 status lifecycle FAULT_APPEAL_OVERTIME_V2 None currentRound
    120000 None startedAt None (Some 5%N) 30000.

Definition sampleSession (id code : uuid) (tokenHash : string) (role : MatchRole)
    (slot : option JudgeSlot) : SessionRow :=
  mkSessionRow id 10 code role slot tokenHash true (Some 100000000) None "device" None.

(** Tournament 1 of owner 2, and its officials. *)
Definition sampleTournament : TournamentRow :=
  mkTournamentRow 1 "ONE_ON_ONE_COMBAT" TOURNAMENT_ACTIVE None "T1" "Cup" 2 3 None None None None None None.
Definition sampleOfficial (id : uuid) (role : TournamentOfficialRole) : OfficialRow :=
  mkOfficialRow id 1 role true (pretty id) (pretty id) ("hash-" ++ pretty id) ("digest-" ++ pretty id) None.

(** Match 10 and the rows around it, with its rounds given. *)
Definition sampleDB (m : MatchRow) (rs : list RoundRow) : DB :=
  emptyDB <| db_nextId := 1000%N |>
    <| db_tournaments := [sampleTournament] |>
    <| db_tournamentWeightClasses := [mkWeightClassRow 5 1 "54" 30 true "54" None None] |>
    <| db_matches := [m; sampleMatch 11 WAITING NOT_STARTED None None] |>
    <| db_rounds := rs |>
    <| db_matchAthletes := [mkMatchAthleteRow 21 10 (Some 121%N) RED "A" None;
                            mkMatchAthleteRow 22 10 (Some 122%N) BLUE "B" None;
                            mkMatchAthleteRow 23 11 None RED "C" None] |>
    <| db_matchAccessCodes := [mkAccessCodeRow 30 10 ACCESS_SUPERVISOR "code0";
         mkAccessCodeRow 31 10 ACCESS_JUDGE_1 "code1"; mkAccessCodeRow 32 10 ACCESS_JUDGE_2 "code2";
         mkAccessCodeRow 33 10 ACCESS_JUDGE_3 "code3"] |>
    <| db_matchSessions := [sampleSession 40 30 "hash" ROLE_SUPERVISOR None;
         sampleSession 41 31 "hash1" ROLE_JUDGE (Some SLOT_JUDGE_1);
         sampleSession 42 32 "hash2" ROLE_JUDGE (Some SLOT_JUDGE_2);
         sampleSession 43 33 "hash3" ROLE_JUDGE (Some SLOT_JUDGE_3)] |>.

Definition supervisor : SupervisorCommandIdentity := IdLegacy 40 "hash".

Definition sampleRound (id : uuid) (number : Z) (stage : RoundStage) (attempt : Z)
    (startedAt : timestamp) (endedAt : option timestamp) : RoundRow :=
  mkRoundRow id 10 number stage attempt (Some 120000) startedAt (startedAt + 120000) None None
    None None endedAt startedAt.

Definition waitingDB : DB := sampleDB (sampleMatch 10 WAITING NOT_STARTED None None) [].
Definition runningDB : DB :=
  sampleDB (sampleMatch 10 ROUND_1_RUNNING IN_PROGRESS (Some 1) (Some 0))
    [sampleRound 50 1 REGULATION 0 0 None].

(** The store a command leaves, the old one when it throws. *)
Definition after {A} (c : DbM A) (d : DB) : DB := snd (transaction c d).

(** [wf] is decided by evaluating every index. *)
Ltac solve_wf := intros t; destruct t; vm_compute; reflexivity.

(** [fresh] is decided by looking at every row. *)
Ltac solve_fresh :=
  let t := fresh "t" in let r := fresh "r" in let i := fresh "i" in
  let Hr := fresh "Hr" in let Hi := fresh "Hi" in
  intros t r i Hr Hi; destruct t; vm_compute in Hr;
  repeat (destruct Hr as [<- | Hr]; [vm_compute in Hi; inversion Hi; vm_compute; reflexivity |]);
  destruct Hr.
Ltac solve_sound := split; [solve_wf | solve_fresh].

Lemma waitingDB_wf : wf waitingDB.
Proof. solve_wf. Defined.
Lemma runningDB_wf : wf runningDB.
Proof. solve_wf. Defined.
