(* ===== verification/Scoring.v ===== *)
(** * Scoring

    [realtime/scoring.service.ts]: judges vote in one-second windows, one window open
    per match; a window is resolved once, by majority, into at most one point. Every
    operation runs inside a transaction that holds the match row. *)
From S2P Require Import Prelude Schema Database Rules Authorization Scenario.

Definition SCORING_WINDOW_DURATION_MS : Z := 1000.

(** ** Data *)

Record VoteInput : Type := mkVoteInput {
  vi_athlete : AthleteColor; vi_matchId : uuid; vi_officialSessionId : option uuid;
  vi_judgeSlot : option JudgeSlot; vi_sessionId : option uuid }.

Record ScoreUpdated : Type := mkScoreUpdated {
  su_matchPublicId : string; su_scores : list (uuid * AthleteColor * Z);
  su_penaltyId : option uuid; su_scoringWindowId : option uuid; su_updatedAt : timestamp }.

(** A vote as the resolution payload and the audit entry list it. *)
Record VoteView : Type := mkVoteView {
  vv_athlete : AthleteColor; vv_assignmentId : option uuid; vv_judgePosition : option Z;
  vv_judgeSlot : option JudgeSlot; vv_serverReceivedAt : timestamp }.

Record ScoringResolutionTransition : Type := mkResolution {
  rt_matchId : uuid; rt_matchPublicId : string; rt_votes : list VoteView;
  rt_windowId : uuid; rt_startedAt : timestamp; rt_endsAt : timestamp;
  rt_resolvedAt : timestamp; rt_roundNumber : Z; rt_scoreAwarded : bool;
  rt_winningColor : option AthleteColor; rt_scoreUpdated : option ScoreUpdated }.

Record VoteAccepted : Type := mkVoteAccepted {
  va_athlete : AthleteColor; va_identity : VoteAuthorization; va_matchPublicId : string;
  va_scoringWindowId : uuid; va_serverReceivedAt : timestamp }.

Record WindowOpened : Type := mkWindowOpened {
  wo_matchPublicId : string; wo_windowId : uuid; wo_startedAt : timestamp;
  wo_endsAt : timestamp; wo_roundNumber : Z }.

Record VoteSubmissionTransition : Type := mkVoteSubmission {
  vs_accepted : VoteAccepted; vs_opened : option WindowOpened;
  vs_resolvedBeforeAcceptance : option ScoringResolutionTransition;
  vs_serverNow : timestamp; vs_windowEndsAt : timestamp; vs_windowId : uuid }.

(** ** Reading *)

(** [startedAt <= serverReceivedAt < endsAt] *)
Definition isWithinScoringWindow (serverReceivedAt startedAt endsAt : timestamp) : bool :=
  (startedAt <=? serverReceivedAt) && (serverReceivedAt <? endsAt).

(** [roundNumber]: only rounds 1 and 2 can be reported. *)
Definition scoringRoundNumber (n : Z) : DbM Z :=
  if (n =? 1) || (n =? 2) then mret n else throw (InternalError "Unsupported scoring round number").

Definition unresolvedWindow (matchId : uuid) (w : WindowRow) : bool :=
  (w_matchId w === matchId) && (w_invalidatedAt w === None) && (w_resolvedAt w === None).

Definition isPausedStatus (s : MatchStatus) : bool :=
  (s === ROUND_1_PAUSED) || (s === ROUND_2_PAUSED) || (s === OVERTIME_PAUSED).

(** [activeRound]: [unendedRounds] are the match's rounds with a null [endedAt]. *)
Definition scoringActiveRound (m : MatchRow) (unendedRounds : list RoundRow) : option RoundRow :=
  let expected :=
    match m_status m with
    | ROUND_1_RUNNING => Some (1, REGULATION)
    | ROUND_2_RUNNING => Some (2, REGULATION)
    | OVERTIME_RUNNING => Some (1, OVERTIME)
    | _ => None
    end in
  match expected with
  | None => None
  | Some (expectedRound, stage) =>
      if m_currentRound m === Some expectedRound
      then find_first (fun r => (r_roundNumber r =? expectedRound) && (r_stage r === stage))
             unendedRounds
      else None
  end.

(** Athletes with [orderBy: { color: 'asc' }]. *)
Definition athletesByColor (matchId : uuid) : DbM (list MatchAthleteRow) :=
  l ← find_many matchAthletes (fun a => ma_matchId a === matchId);
  mret (sort_by (fun a => match ma_color a with RED => 0 | BLUE => 1 end) l).

(** [groupBy athleteId, _sum value, where revertedAt null] read at one athlete. *)
Definition effectiveTotal (matchId athleteId : uuid) (d : DB) : Z :=
  sum_by e_value (List.filter (fun e => (e_matchId e === matchId) && (e_revertedAt e === None) &&
    (e_athleteId e === athleteId)) (db_scoreEvents d)).

(** [scoreUpdatedPayload], the same method in the scoring and penalty services. *)
Definition scoreUpdatedPayload (matchId : uuid) (matchPublicId : string)
    (scoringWindowId penaltyId : option uuid) (updatedAt : timestamp) : DbM ScoreUpdated :=
  athletes ← athletesByColor matchId;
  scores ← gets (fun d => map (fun a => (ma_id a, ma_color a, effectiveTotal matchId (ma_id a) d))
                              athletes);
  mret (mkScoreUpdated matchPublicId scores penaltyId scoringWindowId updatedAt).

Definition voteView (d : DB) (v : VoteRow) : VoteView := {|
  vv_athlete := v_athleteColor v;
  vv_assignmentId := v_assignmentId v;
  vv_judgePosition :=
    a ← v_assignmentId v;
    oa ← find_first (fun oa => oa_id oa === a) (db_matchOfficialAssignments d);
    oa_judgePosition oa;
  vv_judgeSlot := v_judgeSlot v;
  vv_serverReceivedAt := v_serverReceivedAt v |}.

Definition voteViewJson (v : VoteView) : json :=
  JObj [("athlete", JColor (vv_athlete v)); ("assignmentId", jopt JId (vv_assignmentId v));
        ("judgePosition", jopt JNum (vv_judgePosition v));
        ("judgeSlot", jopt JSlot (vv_judgeSlot v));
        ("serverReceivedAt", JTime (vv_serverReceivedAt v))]%string.

(** ** Resolution *)

Definition votesFor (c : AthleteColor) (votes : list VoteRow) : Z :=
  Z.of_nat (length (List.filter (fun v => v_athleteColor v === c) votes)).

(** The majority test of [resolveLockedWindow]. *)
Definition windowWinner (rules : SportRulesDefinition) (requiredJudgeCount : Z)
    (votes : list VoteRow) : option AthleteColor :=
  if judgeMajority rules requiredJudgeCount <=? votesFor RED votes then Some RED
  else if judgeMajority rules requiredJudgeCount <=? votesFor BLUE votes then Some BLUE
  else None.

(** The point of a decided window and the totals published with it. *)
Definition awardPoint (clk : Clock) (rules : SportRulesDefinition) (window : WindowRow)
    (winner : AthleteColor) (resolvedAt : timestamp) (matchPublicId : string) : DbM ScoreUpdated :=
  athlete ← find_one_or_throw matchAthletes
    (fun a => (ma_matchId a === w_matchId window) && (ma_color a === winner));
  _ ← create scoreEvents (fun id => mkScoreEventRow id (w_matchId window) (ma_id athlete)
        (Some (w_roundNumber window)) (w_roundId window) (Some (w_startedAt window))
        (w_roundElapsedMs window) JUDGE_POINT (judgePointValue rules) (Some (w_id window)) None
        (rowNow clk) None None);
  scoreUpdatedPayload (w_matchId window) matchPublicId (Some (w_id window)) None resolvedAt.

(** [resolveLockedWindow] *)
Definition resolveLockedWindow (clk : Clock) (window : WindowRow) (resolvedAt : timestamp)
    (matchPublicId : string) : DbM ScoringResolutionTransition :=
  rules ← rulesForMatch (w_matchId window);
  m ← find_one_or_throw matches (fun m => m_id m === w_matchId window);
  rows ← find_many judgeVotes (fun v => v_scoringWindowId v === w_id window);
  let votes := sort_by v_serverReceivedAt rows in
  let winningColor := windowWinner rules (m_requiredJudgeCount m) votes in
  updated ← update_many scoringWindows
    (fun w => (w_id w === w_id window) && (w_invalidatedAt w === None) && (w_resolvedAt w === None))
    (fun w => w <| w_resolvedAt := Some resolvedAt |>
                <| w_scoreAwarded := negb (winningColor === None) |>
                <| w_winningColor := winningColor |>);
  _ ← throw_if (negb (bool_decide (updated = 1%nat)))
        (InternalError "A locked scoring window could not be resolved exactly once");
  scoreUpdated ← match winningColor with
    | Some winner =>
        u ← awardPoint clk rules window winner resolvedAt matchPublicId; mret (Some u)
    | None => mret None
    end;
  views ← gets (fun d => map (voteView d) votes);
  _ ← create auditLogs (fun id => mkAuditRow id (Some (w_matchId window)) None None None
        SCORE_ACTION
        (JObj [("action", JStr "SCORING_WINDOW_RESOLVED");
               ("scoreAwarded", JBool (negb (winningColor === None)));
               ("scoringWindowId", JId (w_id window));
               ("votes", JList (map voteViewJson views));
               ("winningColor", jopt JColor winningColor)]%string));
  number ← scoringRoundNumber (w_roundNumber window);
  mret {| rt_matchId := w_matchId window; rt_matchPublicId := matchPublicId;
          rt_votes := views; rt_windowId := w_id window; rt_startedAt := w_startedAt window;
          rt_endsAt := w_endsAt window; rt_resolvedAt := resolvedAt; rt_roundNumber := number;
          rt_scoreAwarded := negb (winningColor === None); rt_winningColor := winningColor;
          rt_scoreUpdated := scoreUpdated |}.

(** [resolveDueWindowsLocked]: [for (;;)] until no due window is left. *)
Definition dueWindow (matchId : uuid) (resolvedAt : timestamp) (w : WindowRow) : bool :=
  unresolvedWindow matchId w && (w_endsAt w <=? resolvedAt).

Fixpoint resolveDueLoop (fuel : nat) (clk : Clock) (matchId : uuid) (matchPublicId : string)
    (resolvedAt : timestamp) : DbM unit :=
  match fuel with
  | O => throw OutOfFuel
  | S fuel' =>
      due ← find_many scoringWindows (dueWindow matchId resolvedAt);
      match min_by w_startedAt due with
      | None => mret tt
      | Some window =>
          _ ← resolveLockedWindow clk window resolvedAt matchPublicId;
          resolveDueLoop fuel' clk matchId matchPublicId resolvedAt
      end
  end.

Definition resolveDueWindowsLocked (clk : Clock) (matchId : uuid) (matchPublicId : string)
    (resolvedAt : timestamp) : DbM unit :=
  due ← find_many scoringWindows (dueWindow matchId resolvedAt);
  resolveDueLoop (S (length due)) clk matchId matchPublicId resolvedAt.

(** [resolveIfDue] *)
Inductive ResolutionDecision : Type :=
  | ResolutionInactive
  | ResolutionPending (delayMs : Z)
  | ResolutionResolved (transition : ScoringResolutionTransition).

Definition resolveIfDue (clk : Clock) (matchId windowId : uuid) : DbM ResolutionDecision :=
  _ ← lockMatch matchId (InternalError "Match not found while acquiring scoring lock");
  _ ← rulesForMatch matchId;
  m ← find_one_or_throw matches (fun m => m_id m === matchId);
  window ← find_one scoringWindows (fun w => (w_id w === windowId) && unresolvedWindow matchId w);
  match window with
  | None => mret ResolutionInactive
  | Some window =>
      let delayMs := w_endsAt window - serverNow clk in
      if 0 <? delayMs then mret (ResolutionPending delayMs)
      else t ← resolveLockedWindow clk window (serverNow clk) (m_publicId m);
           mret (ResolutionResolved t)
  end.

(** ** Votes *)

(** The [judgeVote.create] both branches of [submitVote] perform. *)
Definition createVote (clk : Clock) (input : VoteInput) (authorization : VoteAuthorization)
    (windowId : uuid) : DbM VoteRow :=
  create judgeVotes (fun id => mkVoteRow id windowId (vi_matchId input)
    (match authorization with VoteLegacy slot _ => Some slot | VoteOfficial _ _ _ => None end)
    (vi_athlete input)
    (match authorization with VoteLegacy _ s => Some s | VoteOfficial _ _ _ => None end)
    (match authorization with VoteOfficial a _ _ => Some a | VoteLegacy _ _ => None end)
    (serverNow clk) None None).

(** The judge's earlier vote in a window. *)
Definition sameJudge (authorization : VoteAuthorization) (v : VoteRow) : bool :=
  match authorization with
  | VoteOfficial a _ _ => v_assignmentId v === Some a
  | VoteLegacy slot _ => (v_assignmentId v === None) && (v_judgeSlot v === Some slot)
  end.

Definition acceptedPayload (athlete : AthleteColor) (matchPublicId : string)
    (authorization : VoteAuthorization) (windowId : uuid) (receivedAt : timestamp) : VoteAccepted :=
  mkVoteAccepted athlete authorization matchPublicId windowId receivedAt.

(** The branch of [submitVote] that adds a vote to the open window. *)
Definition voteInOpenWindow (clk : Clock) (input : VoteInput) (authorization : VoteAuthorization)
    (m : MatchRow) (resolvedBefore : option ScoringResolutionTransition) (window : WindowRow)
    : DbM VoteSubmissionTransition :=
  _ ← throw_if (negb (isWithinScoringWindow (serverNow clk) (w_startedAt window) (w_endsAt window)))
        RoundEndedForVote;
  existing ← find_one judgeVotes
    (fun v => (v_scoringWindowId v === w_id window) && sameJudge authorization v);
  _ ← match existing with Some _ => throw DuplicateRefereeVote | None => mret tt end;
  vote ← createVote clk input authorization (w_id window);
  mret {| vs_accepted := acceptedPayload (vi_athlete input) (m_publicId m) authorization
                           (w_id window) (v_serverReceivedAt vote);
          vs_opened := None; vs_resolvedBeforeAcceptance := resolvedBefore;
          vs_serverNow := serverNow clk; vs_windowEndsAt := w_endsAt window;
          vs_windowId := w_id window |}.

(** The branch of [submitVote] that opens a window with its first vote. *)
Definition voteInNewWindow (clk : Clock) (input : VoteInput) (authorization : VoteAuthorization)
    (m : MatchRow) (resolvedBefore : option ScoringResolutionTransition) (activeRound : RoundRow)
    : DbM VoteSubmissionTransition :=
  let endsAt := serverNow clk + SCORING_WINDOW_DURATION_MS in
  window ← create scoringWindows (fun id => mkWindowRow id (vi_matchId input)
    (r_roundNumber activeRound) (Some (r_id activeRound))
    (activeRoundElapsedMs (r_durationMs activeRound) (r_endsAt activeRound) (serverNow clk))
    (serverNow clk) endsAt None None false None None (rowNow clk));
  vote ← createVote clk input authorization (w_id window);
  number ← scoringRoundNumber (w_roundNumber window);
  mret {| vs_accepted := acceptedPayload (vi_athlete input) (m_publicId m) authorization
                           (w_id window) (v_serverReceivedAt vote);
          vs_opened := Some (mkWindowOpened (m_publicId m) (w_id window) (w_startedAt window)
                               (w_endsAt window) number);
          vs_resolvedBeforeAcceptance := resolvedBefore;
          vs_serverNow := serverNow clk; vs_windowEndsAt := w_endsAt window;
          vs_windowId := w_id window |}.

(** The open window a vote meets, after a due one has been resolved first. *)
Definition settleOpenWindow (clk : Clock) (m : MatchRow) (unresolved : option WindowRow)
    : DbM (option WindowRow * option ScoringResolutionTransition) :=
  match unresolved with
  | Some w =>
      if w_endsAt w <=? serverNow clk
      then t ← resolveLockedWindow clk w (serverNow clk) (m_publicId m); mret (None, Some t)
      else mret (Some w, None)
  | None => mret (None, None)
  end.

(** [submitVote] *)
Definition submitVote (clk : Clock) (input : VoteInput) : DbM VoteSubmissionTransition :=
  _ ← lockMatch (vi_matchId input) (InternalError "Match not found while acquiring scoring lock");
  _ ← rulesForMatch (vi_matchId input);
  authorization ← match vi_officialSessionId input with
    | Some os => lockActiveJudgeAssignment clk (vi_matchId input) os
    | None => lockLegacyJudgeSession clk (vi_matchId input) (vi_sessionId input) (vi_judgeSlot input)
    end;
  m ← find_one_or_throw matches (fun m => m_id m === vi_matchId input);
  unended ← find_many rounds
    (fun r => (r_matchId r === vi_matchId input) && (r_endedAt r === None));
  _ ← throw_if (isPausedStatus (m_status m)) RoundPausedForVote;
  activeRound ← or_throw (scoringActiveRound m unended) MatchNotRunningForVote;
  _ ← throw_if (r_endsAt activeRound <=? serverNow clk) RoundEndedForVote;
  open ← find_many scoringWindows (unresolvedWindow (vi_matchId input));
  settled ← settleOpenWindow clk m (min_by w_startedAt open);
  match settled with
  | (Some window, before) =>
      _ ← throw_if (negb (w_roundNumber window =? r_roundNumber activeRound))
            PriorScoringWindowPending;
      voteInOpenWindow clk input authorization m before window
  | (None, before) => voteInNewWindow clk input authorization m before activeRound
  end.

(** ** Facts *)

Lemma votesFor_sort c votes : votesFor c (sort_by v_serverReceivedAt votes) = votesFor c votes.
Proof. unfold votesFor; f_equal; apply filter_length_perm, sort_by_perm. Qed.

Lemma windowWinner_sort rules n votes :
  windowWinner rules n (sort_by v_serverReceivedAt votes) = windowWinner rules n votes.
Proof. unfold windowWinner; rewrite !votesFor_sort; reflexivity. Qed.

Lemma min_by_none {A} (key : A -> Z) l : min_by key l = None -> l = [].
Proof. destruct l as [|y l]; cbn; [auto |]; destruct (min_by key l); [case_match |]; discriminate. Qed.

Lemma windowWinner_spec n votes :
  match windowWinner oneOnOneCombatRules n votes with
  | Some c => n / 2 < votesFor c votes
  | None => forall c, votesFor c votes <= n / 2
  end.
Proof.
  unfold windowWinner; cbn [judgeMajority oneOnOneCombatRules].
  destruct (Z.leb_spec (n / 2 + 1) (votesFor RED votes)) as [H1 | H1]; [lia |].
  destruct (Z.leb_spec (n / 2 + 1) (votesFor BLUE votes)) as [H2 | H2]; [lia |].
  intros []; lia.
Qed.

Lemma windowWinner_decided n votes c :
  windowWinner oneOnOneCombatRules n votes = Some c -> n / 2 < votesFor c votes.
Proof. intros E; pose proof (windowWinner_spec n votes) as H; rewrite E in H; exact H. Qed.

Lemma windowWinner_undecided n votes :
  windowWinner oneOnOneCombatRules n votes = None -> forall c, votesFor c votes <= n / 2.
Proof. intros E; pose proof (windowWinner_spec n votes) as H; rewrite E in H; exact H. Qed.

(** The tables scoring writes. *)
Lemma respects_athletesByColor R `{!PreOrder R} m : respects R (athletesByColor m).
Proof. unfold athletesByColor; respects_auto. Qed.
#[export] Hint Resolve respects_athletesByColor : tx.
Definition scoringTables : list table := [scoringWindows; judgeVotes; scoreEvents; auditLogs].

Section ScoringRelations.
Context (R : DB -> DB -> Prop) `{!PreOrder R}.
Context (Rcreate : forall t mk, t ∈ scoringTables -> (forall n, row_id t (mk n) = Some n) ->
           respects R (create t mk))
        (Rupdate : forall t p g, t ∈ scoringTables -> (forall r, row_id t (g r) = row_id t r) ->
           respects R (update_many t p g)).
Hint Extern 3 (respects R (create _ _)) => apply Rcreate; [table_in | ids_plain] : tx.
Hint Extern 3 (respects R (update_many _ _ _)) => apply Rupdate; [table_in | ids_plain] : tx.

Lemma respects_scoringRoundNumber n : respects R (scoringRoundNumber n).
Proof. unfold scoringRoundNumber; respects_auto. Qed.
Hint Resolve respects_scoringRoundNumber : tx.

Lemma respects_scoreUpdatedPayload m p w pe at_ : respects R (scoreUpdatedPayload m p w pe at_).
Proof. unfold scoreUpdatedPayload, athletesByColor; respects_auto. Qed.
Hint Resolve respects_scoreUpdatedPayload : tx.

(** Scoring moves the store by inserts and updates only. *)
Lemma respects_resolveLockedWindow clk w at_ p : respects R (resolveLockedWindow clk w at_ p).
Proof. unfold resolveLockedWindow, awardPoint; respects_auto. Qed.
Hint Resolve respects_resolveLockedWindow : tx.

Lemma respects_resolveDueLoop fuel clk m p at_ : respects R (resolveDueLoop fuel clk m p at_).
Proof. induction fuel; cbn; respects_auto. Qed.
Hint Resolve respects_resolveDueLoop : tx.

Lemma respects_resolveDueWindowsLocked clk m p at_ :
  respects R (resolveDueWindowsLocked clk m p at_).
Proof. unfold resolveDueWindowsLocked; respects_auto. Qed.

Lemma respects_submitVote clk input : respects R (submitVote clk input).
Proof.
  unfold submitVote, voteInOpenWindow, voteInNewWindow, createVote, settleOpenWindow; respects_auto.
Qed.

Lemma respects_resolveIfDue clk m w : respects R (resolveIfDue clk m w).
Proof. unfold resolveIfDue; respects_auto. Qed.
End ScoringRelations.

#[export] Hint Resolve respects_scoringRoundNumber respects_scoreUpdatedPayload : tx.

Lemma keeps_sound_resolveDueWindowsLocked clk m p at_ :
  respects keeps_sound (resolveDueWindowsLocked clk m p at_).
Proof.
  apply respects_resolveDueWindowsLocked; [apply _ | |]; intros.
  - apply keeps_sound_create; congruence.
  - apply keeps_sound_update_many; auto.
Qed.

Lemma touches_resolveDueWindowsLocked ts clk m p at_ :
  scoringTables ⊆ ts -> respects (touches ts) (resolveDueWindowsLocked clk m p at_).
Proof.
  intros Hts; apply respects_resolveDueWindowsLocked; [apply _ | |];
    intros; [apply touches_create | apply touches_update_many]; auto.
Qed.

#[export] Hint Resolve keeps_sound_resolveDueWindowsLocked : tx.
#[export] Hint Extern 2 (respects (touches _) (resolveDueWindowsLocked _ _ _ _)) =>
  apply touches_resolveDueWindowsLocked; apply (bool_decide_eq_true_1 _); reflexivity : tx.

(** What a resolution does to the rows of the store. *)
Definition stillOpen (window w : WindowRow) : bool :=
  (w_id w === w_id window) && (w_invalidatedAt w === None) && (w_resolvedAt w === None).
Definition resolved (at_ : timestamp) (winner : option AthleteColor) (w : WindowRow) : WindowRow :=
  w <| w_resolvedAt := Some at_ |> <| w_scoreAwarded := negb (winner === None) |>
    <| w_winningColor := winner |>.

Lemma awardPoint_ok clk rules w c at_ p d u d' :
  awardPoint clk rules w c at_ p d = Ok (u, d') ->
  exists a ev, find_first (fun a => (ma_matchId a === w_matchId w) && (ma_color a === c))
      (db_matchAthletes d) = Some a /\
    e_matchId ev = w_matchId w /\ e_athleteId ev = ma_id a /\ e_type ev = JUDGE_POINT /\
    e_value ev = judgePointValue rules /\ e_scoringWindowId ev = Some (w_id w) /\
    e_roundId ev = w_roundId w /\ e_revertedAt ev = None /\
    table_ok scoreEvents (db_scoreEvents d ++ [ev]) = true /\
    d' = put scoreEvents (db_scoreEvents d ++ [ev]) (d <| db_nextId ::= N.succ |>).
Proof.
  unfold awardPoint; intros H; run H.
  apply read_only in H; [| apply respects_scoreUpdatedPayload; apply _]; subst.
  eexists _, _; split; [eauto |]; repeat split; eauto.
Qed.

Lemma resolveLockedWindow_ok clk w at_ p d t d' :
  resolveLockedWindow clk w at_ p d = Ok (t, d') ->
  exists m evs,
    let winner := windowWinner oneOnOneCombatRules (m_requiredJudgeCount m)
      (List.filter (fun v => v_scoringWindowId v === w_id w) (db_judgeVotes d)) in
    find_first (fun m => m_id m === w_matchId w) (db_matches d) = Some m /\
    rt_winningColor t = winner /\
    length (List.filter (stillOpen w) (db_scoringWindows d)) = 1%nat /\
    db_scoringWindows d' = map_where (stillOpen w) (resolved at_ winner) (db_scoringWindows d) /\
    db_scoreEvents d' = db_scoreEvents d ++ evs /\
    match winner with
    | None => evs = []
    | Some c => exists a ev, evs = [ev] /\
        find_first (fun a => (ma_matchId a === w_matchId w) && (ma_color a === c))
          (db_matchAthletes d) = Some a /\
        e_matchId ev = w_matchId w /\ e_athleteId ev = ma_id a /\ e_type ev = JUDGE_POINT /\
        e_value ev = 1 /\ e_scoringWindowId ev = Some (w_id w) /\ e_roundId ev = w_roundId w /\
        e_revertedAt ev = None
    end /\
    forall T, T <> scoringWindows -> T <> scoreEvents -> T <> auditLogs -> get T d' = get T d.
Proof.
  unfold resolveLockedWindow; intros H; run H.
  apply rulesForMatch_ok in Hx as [-> ->]; rewrite windowWinner_sort in *.
  apply read_only in Hx1; [subst | apply respects_scoringRoundNumber; apply _].
  set (winner := windowWinner _ _ _) in *.
  assert (Hlen : length (List.filter (stillOpen w) (db_scoringWindows d)) = 1%nat)
    by (to_prop; exact H1).
  clear H1 H2 H4; destruct winner as [c |] eqn:Ewin; run Hx0.
  - apply awardPoint_ok in Hx as (a & ev & Ha & E1 & E2 & E3 & E4 & E5 & E6 & E7 & _ & ->).
    exists x0, [ev]; cbv zeta.
    change (windowWinner _ _ _) with winner; rewrite Ewin.
    split_and!; try reflexivity; try assumption; [exists a, ev; split_and!; auto |].
    intros T; destruct T; intros; first [reflexivity | congruence].
  - exists x0, []; cbv zeta.
    change (windowWinner _ _ _) with winner; rewrite Ewin.
    split_and!; try reflexivity; try assumption; [symmetry; apply app_nil_r |].
    intros T; destruct T; intros; first [reflexivity | congruence].
Qed.

Lemma submitVote_inv clk input d r d' :
  submitVote clk input d = Ok (r, d') ->
  exists auth m rd settled d1,
    find_first (fun m => m_id m === vi_matchId input) (db_matches d) = Some m /\
    scoringActiveRound m (List.filter (fun r => (r_matchId r === vi_matchId input) &&
      (r_endedAt r === None)) (db_rounds d)) = Some rd /\
    serverNow clk < r_endsAt rd /\
    settleOpenWindow clk m (min_by w_startedAt
      (List.filter (unresolvedWindow (vi_matchId input)) (db_scoringWindows d))) d = Ok (settled, d1) /\
    match settled with
    | (Some w, before) => w_roundNumber w = r_roundNumber rd /\
        voteInOpenWindow clk input auth m before w d1 = Ok (r, d')
    | (None, before) => voteInNewWindow clk input auth m before rd d1 = Ok (r, d')
    end.
Proof.
  unfold submitVote; intros H; run H.
  apply read_only in Hx; [subst | apply respects_lockMatch; apply _].
  apply rulesForMatch_ok in Hx0 as [-> ->].
  assert (s1 = d) as ->.
  { destruct (vi_officialSessionId input); apply read_only in Hx1;
      eauto using respects_lockActiveJudgeAssignment, respects_lockLegacyJudgeSession with
        typeclass_instances. }
  match goal with Hs : settleOpenWindow _ _ _ _ = Ok (?st, ?d1) |- _ =>
    exists x1, x2, x4, st, d1; to_prop; split_and!; auto; clear Hs;
    destruct st as [[w |] before]; run H; to_prop; auto using Z.eqb_eq
  end.
  split; [apply Z.eqb_eq |]; assumption.
Qed.

(** [settleOpenWindow] hands back the open window untouched, or none after it resolved
    the due one. *)
Lemma settleOpenWindow_ok clk m u d o b d' :
  settleOpenWindow clk m u d = Ok ((o, b), d') ->
  match o with
  | Some w => u = Some w /\ d' = d /\ serverNow clk < w_endsAt w
  | None => match u with
            | None => d' = d
            | Some w => exists t, resolveLockedWindow clk w (serverNow clk) (m_publicId m) d = Ok (t, d')
            end
  end.
Proof.
  unfold settleOpenWindow; destruct u as [w |]; [destruct (w_endsAt w <=? serverNow clk) eqn:E |];
    intros H; run H; simplify_eq; to_prop; eauto.
Qed.

(** The vote row either branch of [submitVote] adds. *)
Definition newVote (clk : Clock) (input : VoteInput) (authorization : VoteAuthorization)
    (windowId : uuid) (v : VoteRow) : Prop :=
  v_scoringWindowId v = windowId /\ v_athleteColor v = vi_athlete input /\
  v_serverReceivedAt v = serverNow clk /\ sameJudge authorization v = true.

Lemma createVote_ok clk input auth w d v d' :
  createVote clk input auth w d = Ok (v, d') ->
  newVote clk input auth w v /\ d' = put judgeVotes (db_judgeVotes d ++ [v])
    (d <| db_nextId ::= N.succ |>).
Proof.
  unfold createVote; intros H; run H; unfold newVote; cbn; split_and!; auto.
  destruct auth; cbn; rewrite !bool_decide_true by auto; reflexivity.
Qed.

Lemma voteInOpenWindow_ok clk input auth m b w d r d' :
  voteInOpenWindow clk input auth m b w d = Ok (r, d') ->
  exists v, newVote clk input auth (w_id w) v /\
    w_startedAt w <= serverNow clk < w_endsAt w /\
    (forall v', In v' (db_judgeVotes d) -> v_scoringWindowId v' = w_id w ->
       sameJudge auth v' = false) /\
    va_identity (vs_accepted r) = auth /\ vs_windowId r = w_id w /\ vs_opened r = None /\
    d' = put judgeVotes (db_judgeVotes d ++ [v]) (d <| db_nextId ::= N.succ |>).
Proof.
  unfold voteInOpenWindow, isWithinScoringWindow; intros H; run H; to_prop.
  destruct (find_first _ _) as [dup |] eqn:Edup; run Hx.
  apply createVote_ok in Hx0 as [Hv ->].
  eexists; cbn [va_identity vs_accepted acceptedPayload vs_windowId vs_opened];
    split_and!; eauto.
  intros v' Hin Hw; rewrite find_first_none in Edup; specialize (Edup v' Hin); cbn in Edup.
  rewrite bool_decide_true in Edup by auto; exact Edup.
Qed.

Lemma voteInNewWindow_ok clk input auth m b rd d r d' :
  voteInNewWindow clk input auth m b rd d = Ok (r, d') ->
  exists w v, newVote clk input auth (w_id w) v /\ w_id w = db_nextId d /\
    w_matchId w = vi_matchId input /\ w_roundId w = Some (r_id rd) /\
    w_startedAt w = serverNow clk /\ w_endsAt w = serverNow clk + SCORING_WINDOW_DURATION_MS /\
    unresolvedWindow (w_matchId w) w = true /\
    va_identity (vs_accepted r) = auth /\ vs_windowId r = w_id w /\ vs_opened r <> None /\
    table_ok scoringWindows (db_scoringWindows d ++ [w]) = true /\
    db_scoringWindows d' = db_scoringWindows d ++ [w] /\
    db_judgeVotes d' = db_judgeVotes d ++ [v] /\
    (forall T, T <> scoringWindows -> T <> judgeVotes -> get T d' = get T d).
Proof.
  unfold voteInNewWindow; intros H; run H.
  apply createVote_ok in Hx as [Hv ->].
  apply read_only in Hx0; [subst | apply respects_scoringRoundNumber; apply _].
  do 2 eexists; split; [exact Hv |]; cbn -[table_ok]; split_and!; auto; try discriminate.
  - unfold unresolvedWindow; cbn; rewrite !bool_decide_true by auto; reflexivity.
  - intros T; destruct T; intros; first [reflexivity | congruence].
Qed.

(** The window a successful vote is counted in. *)
Lemma find_first_in {A} (p : A -> bool) l x : find_first p l = Some x -> In x l.
Proof. intros H; apply find_first_some in H; tauto. Qed.

Lemma raises_resolveLockedWindow clk w at_ p :
  raises (fun e => e <> OutOfFuel) (resolveLockedWindow clk w at_ p).
Proof.
  unfold resolveLockedWindow, awardPoint, scoreUpdatedPayload, athletesByColor, scoringRoundNumber,
    rulesForMatch, resolveRules.
  raises_auto; cbn; auto with tx; try discriminate.
Qed.

Lemma resolveDueLoop_enough_fuel clk m p at_ fuel d :
  (length (List.filter (dueWindow m at_) (db_scoringWindows d)) < fuel)%nat ->
  match resolveDueLoop fuel clk m p at_ d with
  | Ok (_, d') => List.filter (dueWindow m at_) (db_scoringWindows d') = []
  | Err e => e <> OutOfFuel
  end.
Proof.
  revert d; induction fuel as [|fuel IH]; intros d Hlen; [lia |]; cbn [resolveDueLoop].
  erewrite bind_step by reflexivity.
  change (get scoringWindows d) with (db_scoringWindows d).
  destruct (min_by w_startedAt _) as [w |] eqn:Emin; [| apply min_by_none in Emin; exact Emin].
  unfold mbind, tx_bind.
  destruct (resolveLockedWindow clk w at_ p d) as [[t d1] | e] eqn:Er;
    [| eapply raises_resolveLockedWindow; eauto].
  apply IH; apply resolveLockedWindow_ok in Er as (m0 & evs & _ & _ & _ & Hw & _).
  rewrite Hw; apply min_by_in, List.filter_In in Emin as [Hin Hdue].
  eapply Nat.lt_le_trans; [eapply (filter_map_where_lt _ _ _ _ w) | lia]; auto.
  - unfold dueWindow, unresolvedWindow, stillOpen in *; to_prop.
    rewrite !bool_decide_true by auto; reflexivity.
  - intros x _; unfold dueWindow, unresolvedWindow; cbn; rewrite andb_false_r; reflexivity.
Qed.

Lemma resolveDueWindowsLocked_spec clk m p at_ d :
  match resolveDueWindowsLocked clk m p at_ d with
  | Ok (_, d') => forall w, In w (db_scoringWindows d') -> dueWindow m at_ w = false
  | Err e => e <> OutOfFuel
  end.
Proof.
  unfold resolveDueWindowsLocked; erewrite bind_step by reflexivity.
  change (get scoringWindows d) with (db_scoringWindows d).
  pose proof (resolveDueLoop_enough_fuel clk m p at_
    (S (length (List.filter (dueWindow m at_) (db_scoringWindows d)))) d) as H.
  destruct (resolveDueLoop _ _ _ _ _ _) as [[u d'] | e]; [| apply H; lia].
  intros w Hin; specialize (H ltac:(lia)).
  destruct (dueWindow m at_ w) eqn:E; [| reflexivity].
  assert (Hf : In w (List.filter (dueWindow m at_) (db_scoringWindows d'))) by
    (apply List.filter_In; auto).
  rewrite H in Hf; destruct Hf.
Qed.

Lemma resolveDueWindowsLocked_settles clk m p at_ d u d' :
  resolveDueWindowsLocked clk m p at_ d = Ok (u, d') ->
  forall w, In w (db_scoringWindows d') -> dueWindow m at_ w = false.
Proof. intros H; pose proof (resolveDueWindowsLocked_spec clk m p at_ d) as S; rewrite H in S; exact S. Qed.

Lemma window_of_match_unique d w1 w2 m :
  wf d -> In w1 (db_scoringWindows d) -> In w2 (db_scoringWindows d) ->
  w_matchId w1 = m -> w_matchId w2 = m -> w_resolvedAt w1 = None -> w_resolvedAt w2 = None -> w1 = w2.
Proof.
  intros Hwf H1 H2 E1 E2 R1 R2; specialize (Hwf scoringWindows); apply table_ok_true in Hwf as (_ & _ & Hk).
  apply (unique_by_inj window_key (db_scoringWindows d) w1 w2 m Hk); auto;
    unfold window_key; rewrite bool_decide_true; congruence.
Qed.

(** ** Properties *)

(** C4: a resolution decides by the judge majority and moves the score by exactly the
    point it awards. The winner is the only colour that reached the majority of the
    required judge count among the window's votes, every athlete's effective total
    changes by one if he is the winning colour's athlete and by nothing otherwise, and
    no table but windows, score events and the audit log changes. *)
Theorem resolution_scores_majority clk w at_ p d t d'
  (H : resolveLockedWindow clk w at_ p d = Ok (t, d')) :
  exists m, find_first (fun m => m_id m === w_matchId w) (db_matches d) = Some m /\
    let votes := List.filter (fun v => v_scoringWindowId v === w_id w) (db_judgeVotes d) in
    (forall c, rt_winningColor t = Some c -> m_requiredJudgeCount m / 2 < votesFor c votes) /\
    (rt_winningColor t = None -> forall c, votesFor c votes <= m_requiredJudgeCount m / 2) /\
    (forall a, effectiveTotal (w_matchId w) a d' = effectiveTotal (w_matchId w) a d +
       match rt_winningColor t with
       | Some c =>
           match find_first (fun a => (ma_matchId a === w_matchId w) && (ma_color a === c))
                   (db_matchAthletes d) with
           | Some winner => if a === ma_id winner then 1 else 0
           | None => 0
           end
       | None => 0
       end) /\
    forall T, T <> scoringWindows -> T <> scoreEvents -> T <> auditLogs -> get T d' = get T d.
Proof.
  apply resolveLockedWindow_ok in H as (m & evs & Hm & Hwin & _ & _ & Hev & Hcase & Hframe).
  exists m; cbv zeta in *; rewrite Hwin; split_and!; auto.
  - intros c E; eapply windowWinner_decided; exact E.
  - intros E; eapply windowWinner_undecided; exact E.
  - intros a; unfold effectiveTotal; rewrite Hev, List.filter_app, sum_by_app; f_equal.
    destruct (windowWinner _ _ _) as [c |]; [| subst; reflexivity].
    destruct Hcase as (win & ev & -> & -> & E1 & E2 & _ & E4 & _ & _ & E7); cbn.
    rewrite E1, E2, E7, !bool_decide_true by auto; cbn.
    destruct (decide (a = ma_id win)) as [-> | Hne].
    + rewrite !bool_decide_true by auto; cbn; lia.
    + rewrite !bool_decide_false by auto; reflexivity.
Qed.

(** a window is resolved once. After a resolution, whatever the clock reads, the
    resolution timer of the same window finds nothing to do and leaves the store as it
    is, so no second point and no second audit entry can appear. *)
Theorem window_resolved_once clk w at_ p d t d' clk2 decision d''
  (H : resolveLockedWindow clk w at_ p d = Ok (t, d'))
  (H2 : resolveIfDue clk2 (w_matchId w) (w_id w) d' = Ok (decision, d'')) :
  decision = ResolutionInactive /\ d'' = d'.
Proof.
  apply resolveLockedWindow_ok in H as (m & evs & _ & _ & _ & Hw & _).
  assert (Hnone : find_first (fun x : row_of scoringWindows =>
            (w_id x === w_id w) && unresolvedWindow (w_matchId w) x) (get scoringWindows d') = None).
  { apply find_first_none; intros x Hx; cbn in Hx; rewrite Hw in Hx.
    apply in_map_where in Hx as (y & Hy & ->).
    destruct (stillOpen w y) eqn:E; [unfold unresolvedWindow; cbn; rewrite !andb_false_r; reflexivity |].
    unfold stillOpen, unresolvedWindow in *; destruct (w_id y === w_id w); cbn in *; [| reflexivity].
    destruct (w_matchId y === w_matchId w); cbn in *; auto. }
  unfold resolveIfDue in H2; run H2.
  apply read_only in Hx; [subst | apply respects_lockMatch; apply _].
  apply rulesForMatch_ok in Hx0 as [_ ->].
  rewrite Hnone in H2; run H2; auto.
Qed.

(** a vote is only accepted in time. When [submitVote] commits, the match was in a
    running phase with the active round not yet ended at the sampled server time; the
    vote is stored in a window of the match that is open at that time
    ([startedAt <= serverNow < endsAt]); and when it joined a window opened earlier, the
    same judge had no vote in it. *)
Theorem vote_accepted_in_time clk input d r d'
  (H : submitVote clk input d = Ok (r, d')) :
  (exists m rd, find_first (fun m => m_id m === vi_matchId input) (db_matches d) = Some m /\
     In rd (db_rounds d) /\ r_endedAt rd = None /\ serverNow clk < r_endsAt rd /\
     (m_status m = ROUND_1_RUNNING \/ m_status m = ROUND_2_RUNNING \/
      m_status m = OVERTIME_RUNNING) /\ m_currentRound m = Some (r_roundNumber rd)) /\
  (exists w v, In w (db_scoringWindows d') /\ w_id w = vs_windowId r /\
     unresolvedWindow (w_matchId w) w = true /\ w_matchId w = vi_matchId input /\
     w_startedAt w <= serverNow clk < w_endsAt w /\
     In v (db_judgeVotes d') /\ v_scoringWindowId v = w_id w /\
     v_athleteColor v = vi_athlete input /\ v_serverReceivedAt v = serverNow clk /\
     sameJudge (va_identity (vs_accepted r)) v = true /\
     (vs_opened r = None -> forall v', In v' (db_judgeVotes d') -> v' <> v ->
        v_scoringWindowId v' = w_id w -> sameJudge (va_identity (vs_accepted r)) v' = false)).
Proof.
  apply submitVote_inv in H as (auth & m & rd & [o before] & d1 & Hm & Hrd & Hend & Hs & H).
  split.
  - exists m, rd; unfold scoringActiveRound in Hrd.
    destruct (m_status m) eqn:Est; try discriminate;
      (case_bool_decide as Ecur; [| discriminate]; apply find_first_some in Hrd as [Hin Hp];
       apply List.filter_In in Hin as [Hin Hp2]; to_prop;
       match goal with E : (_ =? _) = true |- _ => apply Z.eqb_eq in E; rewrite E end;
       split_and!; auto).
  - apply settleOpenWindow_ok in Hs; destruct o as [w |].
    + destruct Hs as (Hmin & -> & _), H as [_ H].
      apply min_by_in, List.filter_In in Hmin as [Hin Hun].
      assert (Hw : w_matchId w = vi_matchId input) by (unfold unresolvedWindow in Hun; to_prop; auto).
      apply voteInOpenWindow_ok in H as (v & (E1 & E2 & E3 & E4) & Ht & Hdup & -> & E5 & E6 & ->).
      exists w, v; rewrite Hw in *; split_and!; auto; try lia.
      * cbn; rewrite in_app_iff; right; left; auto.
      * intros _ v' Hv' Hne; cbn in Hv'; rewrite in_app_iff in Hv'.
        destruct Hv' as [Hv' | [<- | []]]; [auto | congruence].
    + apply voteInNewWindow_ok in H as (w & v & (E1 & E2 & E3 & E4) & _ & Hw & _ & Es & Ee & Hun & -> &
        E5 & E6 & _ & Hws & Hvs & _).
      exists w, v; rewrite Hws, Hvs, Es, Ee; unfold SCORING_WINDOW_DURATION_MS.
      rewrite !in_app_iff; cbn; split_and!; auto; try lia; congruence.
Qed.

(** C5: the settling loop a round end runs terminates. Its fuel, one more than the
    number of due windows, is never exhausted, and when it returns no window of the match
    that was due is left unresolved. *)
Theorem resolveDueWindows_terminates clk m p at_ d :
  match resolveDueWindowsLocked clk m p at_ d with
  | Ok (_, d') => forall w, In w (db_scoringWindows d') -> dueWindow m at_ w = false
  | Err e => e <> OutOfFuel
  end.
Proof. exact (resolveDueWindowsLocked_spec clk m p at_ d). Qed.

(** an invalidated window that was never resolved blocks its match. The index
    scoring_windows_one_unresolved_match_key only looks at [resolved_at], so as long as
    such a row exists every vote of the match fails, whoever votes and whenever: the
    vote finds no open window to join, and opening one violates the index. *)
Theorem stale_window_blocks_votes clk input d w
  (Hin : In w (db_scoringWindows d)) (Hmatch : w_matchId w = vi_matchId input)
  (Hopen : w_resolvedAt w = None) (Hstale : w_invalidatedAt w <> None) (Hwf : wf d) :
  exists e, submitVote clk input d = Err e.
Proof.
  destruct (submitVote clk input d) as [[r d'] | e] eqn:H; [exfalso | eauto].
  apply submitVote_inv in H as (auth & m & rd & [o before] & d1 & _ & _ & _ & Hs & H).
  assert (Hnone : min_by w_startedAt
            (List.filter (unresolvedWindow (vi_matchId input)) (db_scoringWindows d)) = None).
  { destruct (min_by _ _) as [w2 |] eqn:E; [exfalso | reflexivity].
    apply min_by_in, List.filter_In in E as [Hin2 Hun]; unfold unresolvedWindow in Hun; to_prop.
    apply Hstale; rewrite (window_of_match_unique d w w2 (vi_matchId input)); auto. }
  rewrite Hnone in Hs; unfold settleOpenWindow in Hs; run Hs; simplify_eq.
  apply voteInNewWindow_ok in H as (w' & v & _ & _ & Hw' & _ & _ & _ & Hun & _ & _ & _ & Hok & _).
  apply table_ok_true in Hok as (_ & _ & Hok); unfold unresolvedWindow in Hun; to_prop.
  eapply (unique_by_app window_key) with (k := vi_matchId input); [exact Hok | | exact Hin |];
    unfold window_key; rewrite bool_decide_true; congruence.
Qed.

(** ** Witnesses

    Two judges of match 10 vote red within one second; the window is due at 2000. *)
Definition sampleVote (slot : JudgeSlot) (session : uuid) : VoteInput :=
  mkVoteInput RED 10 None (Some slot) (Some session).
Definition firstVoteDB : DB := after (submitVote (at_time 1000) (sampleVote SLOT_JUDGE_1 41)) runningDB.
Definition votedDB : DB := after (submitVote (at_time 1500) (sampleVote SLOT_JUDGE_2 42)) firstVoteDB.
Definition sampleWindow : WindowRow :=
  mkWindowRow 1000 10 1 (Some 50%N) (Some 1000) 1000 2000 None None false None None 1000.
Definition resolvedDB : DB := after (resolveLockedWindow (at_time 2000) sampleWindow 2000 "M") votedDB.

(** The same store after the open window was invalidated without being resolved. *)
Definition staleWindow : WindowRow :=
  sampleWindow <| w_invalidatedAt := Some 1800 |> <| w_invalidatedByAuditId := Some 7%N |>.
Definition staleDB : DB := votedDB <| db_scoringWindows := [staleWindow] |>.

Example votedDB_window : db_scoringWindows votedDB = [sampleWindow].
Proof. reflexivity. Qed.

Lemma resolution_scores_majority_witness :
  effectiveTotal 10 21 resolvedDB = effectiveTotal 10 21 votedDB + 1.
Proof.
  edestruct (resolution_scores_majority (at_time 2000) sampleWindow 2000 "M" votedDB)
    as (m & _ & _ & _ & Htotal & _); [vm_compute; reflexivity |].
  exact (Htotal 21%N).
Defined.

Lemma window_resolved_once_witness :
  exists decision d'', resolveIfDue (at_time 2500) 10 1000 resolvedDB = Ok (decision, d'') /\
    decision = ResolutionInactive.
Proof.
  eexists _, _; split; [vm_compute; reflexivity |].
  eapply (window_resolved_once (at_time 2000) sampleWindow 2000 "M" votedDB _ resolvedDB
            (at_time 2500)); vm_compute; reflexivity.
Defined.

Lemma vote_accepted_in_time_witness :
  exists rd, In rd (db_rounds firstVoteDB) /\ 1500 < r_endsAt rd.
Proof.
  edestruct (vote_accepted_in_time (at_time 1500) (sampleVote SLOT_JUDGE_2 42) firstVoteDB)
    as [(m & rd & _ & Hin & _ & Hlt & _) _]; [vm_compute; reflexivity |].
  exists rd; split; [exact Hin | exact Hlt].
Defined.

Lemma stale_window_blocks_votes_witness :
  exists e, submitVote (at_time 5000) (sampleVote SLOT_JUDGE_3 43) staleDB = Err e.
Proof.
  apply (stale_window_blocks_votes _ _ staleDB staleWindow);
    [left; reflexivity | reflexivity | reflexivity | discriminate | solve_wf].
Defined.
