(* ===== verification/Lifecycle.v ===== *)
(** * Lifecycle

    [realtime/match-lifecycle.service.ts], the round machine: starting, pausing and
    resuming a round, its expiration, and the phase a match moves to. The cancellation,
    exit and completion commands of the same service are in the files [Cancellation] and
    [Exit]. *)
From S2P Require Import Prelude Schema Database Rules Authorization Scenario Scoring.

(** ** Data *)

(** [MatchRoundState], the round as clients see it. *)
Record MatchRoundState : Type := mkRoundState {
  rs_id : uuid; rs_roundNumber : Z; rs_stage : RoundStage; rs_attemptNumber : Z;
  rs_startedAt : timestamp; rs_endsAt : timestamp; rs_endedAt : option timestamp;
  rs_pausedAt : option timestamp; rs_remainingDurationMs : option Z }.

(** [RoundStartedTransition], [RoundControlTransition] and [RoundEndedTransition]. *)
Record RoundTransition : Type := mkRoundTransition {
  tr_matchId : uuid; tr_matchPublicId : string; tr_round : MatchRoundState;
  tr_status : MatchStatus }.

(** The live sockets a start consults: the counts of the session registry. *)
Record Presence : Type := mkPresence {
  officialConnectedSocketCount : string -> uuid -> Z;
  connectedSocketCount : string -> MatchAccessRole -> Z;
  scoreboardConnectedCount : string -> Z }.

(** ** Pure steps *)

(** [nextRoundDescriptor]; [Math.max(0, ...attempts) + 1] numbers an overtime attempt. *)
Definition nextRoundDescriptor (status : MatchStatus) (currentRound : option Z)
    (startedAt : option timestamp) (overtimeAttempts : list Z) : DbM RoundDescriptor :=
  if (status === WAITING) && (currentRound === None) && (startedAt === None)
  then mret (mkRoundDescriptor REGULATION 1 0)
  else if (status === BREAK) && (currentRound === Some 1) && (startedAt !== None)
  then mret (mkRoundDescriptor REGULATION 2 0)
  else if status === OVERTIME_READY
  then mret (mkRoundDescriptor OVERTIME 1 (fold_right Z.max 0 overtimeAttempts + 1))
  else throw (InvalidRoundStartState status).

(** [runningStatus] *)
Definition runningStatus (roundNumber : Z) (stage : RoundStage) : option MatchStatus :=
  match stage with
  | OVERTIME => Some OVERTIME_RUNNING
  | REGULATION =>
      if roundNumber =? 1 then Some ROUND_1_RUNNING
      else if roundNumber =? 2 then Some ROUND_2_RUNNING
      else None
  end.

(** [sharedRound] *)
Definition sharedRound (r : RoundRow) : DbM MatchRoundState :=
  _ ← throw_if ((r_stage r === REGULATION) && negb (r_roundNumber r =? 1) &&
                negb (r_roundNumber r =? 2))
        (InternalError "Unsupported round number");
  mret {| rs_id := r_id r; rs_roundNumber := r_roundNumber r; rs_stage := r_stage r;
          rs_attemptNumber := (if r_stage r === REGULATION then 0 else r_attemptNumber r);
          rs_startedAt := r_startedAt r; rs_endsAt := r_endsAt r; rs_endedAt := r_endedAt r;
          rs_pausedAt := r_pausedAt r; rs_remainingDurationMs := r_remainingDurationMs r |}.

(** [lifecycleForPhase] *)
Definition lifecycleForPhase (phase : MatchStatus) : MatchLifecycle :=
  match phase with
  | WAITING => NOT_STARTED
  | FINISHED => LIFECYCLE_COMPLETED
  | _ => IN_PROGRESS
  end.

(** The round a running, respectively paused, status controls. *)
Definition runningRoundNumber (s : MatchStatus) : option Z :=
  match s with
  | ROUND_1_RUNNING => Some 1 | ROUND_2_RUNNING => Some 2 | OVERTIME_RUNNING => Some 1
  | _ => None
  end.
Definition pausedRoundNumber (s : MatchStatus) : option Z :=
  match s with
  | ROUND_1_PAUSED => Some 1 | ROUND_2_PAUSED => Some 2 | OVERTIME_PAUSED => Some 1
  | _ => None
  end.

(** The phase a round that ran out leads to. *)
Definition expirationStatus (stage : RoundStage) (roundNumber : Z) (v : MatchRulesVersion)
    : MatchStatus :=
  if stage === OVERTIME then OVERTIME_APPEAL
  else if roundNumber =? 1 then BREAK
  else if v === FAULT_APPEAL_OVERTIME_V2 then REGULATION_APPEAL
  else AWAITING_RESULT_SAVE.

(** [match.weightClass?.intermissionDurationSeconds ?? 0], read by join. *)
Definition weightClassIntermission (m : MatchRow) (d : DB) : Z :=
  match find_first (fun w => Some (wc_id w) === m_weightClassId m) (db_tournamentWeightClasses d) with
  | Some w => wc_intermissionDurationSeconds w
  | None => 0
  end.

(** The end of the break a first regulation round opens. *)
Definition intermissionDeadline (m : MatchRow) (seconds : Z) (stage : RoundStage) (roundNumber : Z)
    (now : timestamp) : option timestamp :=
  if (stage === REGULATION) && (roundNumber =? 1) then
    match m_intermissionEndsAt m with
    | Some t => Some t
    | None => if 0 <? seconds then Some (now + seconds * 1000) else None
    end
  else None.

(** ** Starting *)

(** The official branch of [assertStartReadiness]: one supervisor, the required number of
    distinct judges, all connected, and a scoreboard. *)
Definition officialsReady (net : Presence) (publicMatchId : string) (requiredJudgeCount : Z)
    (assignments : list AssignmentRow) : bool :=
  let inspectors := List.filter (fun a => oa_role a === OFFICIAL_SUPERVISOR) assignments in
  let referees := List.filter (fun a => oa_role a === OFFICIAL_JUDGE) assignments in
  (Z.of_nat (length inspectors) =? 1) &&
  (Z.of_nat (length referees) =? requiredJudgeCount) &&
  (Z.of_nat (length (nodup N.eq_dec (map oa_officialId referees))) =? requiredJudgeCount) &&
  negb (existsb (fun a => officialConnectedSocketCount net publicMatchId (oa_officialId a) <? 1)
          assignments) &&
  negb (scoreboardConnectedCount net publicMatchId <? 1).

(** The legacy branch: the supervisor and the three judge roles. *)
Definition legacyRolesReady (net : Presence) (publicMatchId : string) (requiredJudgeCount : Z)
    : bool :=
  (requiredJudgeCount =? 3) &&
  negb (existsb (fun role => connectedSocketCount net publicMatchId role <? 1)
          [ACCESS_SUPERVISOR; ACCESS_JUDGE_1; ACCESS_JUDGE_2; ACCESS_JUDGE_3]) &&
  negb (scoreboardConnectedCount net publicMatchId <? 1).

(** [assertStartReadiness] *)
Definition assertStartReadiness (net : Presence) (matchId : uuid) (publicMatchId : string)
    (requiredJudgeCount : Z) : DbM unit :=
  assignments ← find_many matchOfficialAssignments (activeAssignment matchId);
  throw_if (negb (if bool_decide (assignments = [])
                  then legacyRolesReady net publicMatchId requiredJudgeCount
                  else officialsReady net publicMatchId requiredJudgeCount assignments))
    MatchParticipantsNotReady.

(** The status a round starts. *)
Definition startedStatus (d : RoundDescriptor) : MatchStatus :=
  if rd_stage d === OVERTIME then OVERTIME_RUNNING
  else if rd_roundNumber d =? 1 then ROUND_1_RUNNING else ROUND_2_RUNNING.

(** [startRound], with the server time its expiration is scheduled from. *)
Definition startRound (clk : Clock) (net : Presence) (matchId : uuid)
    (identity : SupervisorCommandIdentity) : DbM RoundTransition :=
  _ ← lockMatch matchId MatchLifecycleTargetMissing;
  _ ← rulesForMatch matchId;
  _ ← lockActiveSupervisorIdentity clk matchId identity;
  m ← find_one_or_throw matches (fun m => m_id m === matchId);
  _ ← when ((m_status m === WAITING) && (m_currentRound m === None))
        (assertStartReadiness net matchId (m_publicId m) (m_requiredJudgeCount m));
  overtime ← find_many rounds (fun r => (r_matchId r === matchId) && (r_stage r === OVERTIME));
  descriptor ← nextRoundDescriptor (m_status m) (m_currentRound m) (m_startedAt m)
                 (map r_attemptNumber overtime);
  let roundNumber := rd_roundNumber descriptor in
  let nextStatus := startedStatus descriptor in
  let endsAt := serverNow clk + m_roundDurationMs m in
  round ← create rounds (fun id => mkRoundRow id matchId roundNumber (rd_stage descriptor)
            (rd_attemptNumber descriptor) (Some (m_roundDurationMs m)) (serverNow clk) endsAt
            None None None None None (rowNow clk));
  _ ← update matches (fun m => m_id m === matchId)
        (fun m' => m' <| m_currentRound := Some roundNumber |> <| m_intermissionEndsAt := None |>
           <| m_lifecycle := IN_PROGRESS |>
           <| m_startedAt := (if (roundNumber =? 1) && (rd_stage descriptor === REGULATION)
                              then Some (serverNow clk) else m_startedAt m) |>
           <| m_status := nextStatus |>);
  _ ← auditCommand matchId identity ROUND_STARTED
        ([("endsAt", JTime endsAt); ("fromStatus", JStatus (m_status m));
          ("roundId", JId (r_id round)); ("roundNumber", JNum roundNumber);
          ("stage", JStage (rd_stage descriptor));
          ("attemptNumber", JNum (rd_attemptNumber descriptor));
          ("startedAt", JTime (serverNow clk)); ("toStatus", JStatus nextStatus)]%string ++
         assignmentField identity);
  shared ← sharedRound round;
  mret (mkRoundTransition matchId (m_publicId m) shared nextStatus).

(** ** Pausing and resuming *)

(** The filter both controls apply to the match's rounds. *)
Definition openRound (matchId : uuid) (roundNumber : Z) (r : RoundRow) : bool :=
  (r_invalidatedAt r === None) && (r_matchId r === matchId) && (r_roundNumber r =? roundNumber) &&
  (r_endedAt r === None).

(** [findFirstOrThrow({ orderBy: { createdAt: 'desc' }, where: { ... } })] *)
Definition latestOpenRound (matchId : uuid) (roundNumber : Z) : DbM RoundRow :=
  candidates ← find_many rounds (openRound matchId roundNumber);
  or_throw (max_by r_createdAt candidates) RecordNotFound.

(** [if (roundNumber === null || match.currentRound !== roundNumber) throw] *)
Definition controlledRound (m : MatchRow) (roundNumber : option Z) : DbM Z :=
  match roundNumber with
  | Some n => _ ← throw_if (m_currentRound m !== Some n) (InvalidRoundControlState (m_status m)); mret n
  | None => throw (InvalidRoundControlState (m_status m))
  end.

Definition pauseStatus (s : MatchStatus) (roundNumber : Z) : MatchStatus :=
  if s === OVERTIME_RUNNING then OVERTIME_PAUSED
  else if roundNumber =? 1 then ROUND_1_PAUSED else ROUND_2_PAUSED.
Definition resumeStatus (s : MatchStatus) (roundNumber : Z) : MatchStatus :=
  if s === OVERTIME_PAUSED then OVERTIME_RUNNING
  else if roundNumber =? 1 then ROUND_1_RUNNING else ROUND_2_RUNNING.

(** [pauseRound] *)
Definition pauseRound (clk : Clock) (matchId : uuid) (identity : SupervisorCommandIdentity)
    : DbM RoundTransition :=
  _ ← lockMatch matchId MatchLifecycleTargetMissing;
  _ ← rulesForMatch matchId;
  _ ← lockActiveControlSession clk matchId identity;
  m ← find_one_or_throw matches (fun m => m_id m === matchId);
  roundNumber ← controlledRound m (runningRoundNumber (m_status m));
  round ← latestOpenRound matchId roundNumber;
  let remainingDurationMs := Z.max 0 (r_endsAt round - serverNow clk) in
  _ ← throw_if (remainingDurationMs =? 0) (InvalidRoundControlState (m_status m));
  let status := pauseStatus (m_status m) roundNumber in
  pausedRound ← update rounds (fun r => r_id r === r_id round)
    (fun r => r <| r_pausedAt := Some (serverNow clk) |>
                <| r_remainingDurationMs := Some remainingDurationMs |>);
  _ ← update matches (fun m => m_id m === matchId) (fun m => m <| m_status := status |>);
  _ ← auditCommand matchId identity ROUND_PAUSED
        ([("fromStatus", JStatus (m_status m)); ("pausedAt", JTime (serverNow clk));
          ("remainingDurationMs", JNum remainingDurationMs); ("roundId", JId (r_id round));
          ("roundNumber", JNum roundNumber); ("toStatus", JStatus status)]%string ++
         assignmentField identity);
  shared ← sharedRound pausedRound;
  mret (mkRoundTransition matchId (m_publicId m) shared status).

(** [resumeRound] *)
Definition resumeRound (clk : Clock) (matchId : uuid) (identity : SupervisorCommandIdentity)
    : DbM RoundTransition :=
  _ ← lockMatch matchId MatchLifecycleTargetMissing;
  _ ← rulesForMatch matchId;
  _ ← lockActiveControlSession clk matchId identity;
  m ← find_one_or_throw matches (fun m => m_id m === matchId);
  roundNumber ← controlledRound m (pausedRoundNumber (m_status m));
  round ← latestOpenRound matchId roundNumber;
  remaining ← match r_pausedAt round, r_remainingDurationMs round with
    | Some _, Some remaining => mret remaining
    | _, _ => throw (InvalidRoundControlState (m_status m))
    end;
  let endsAt := serverNow clk + remaining in
  let status := resumeStatus (m_status m) roundNumber in
  resumedRound ← update rounds (fun r => r_id r === r_id round)
    (fun r => r <| r_endsAt := endsAt |> <| r_pausedAt := None |>
                <| r_remainingDurationMs := None |>);
  _ ← update matches (fun m => m_id m === matchId) (fun m => m <| m_status := status |>);
  _ ← auditCommand matchId identity ROUND_RESUMED
        ([("endsAt", JTime endsAt); ("fromStatus", JStatus (m_status m));
          ("resumedAt", JTime (serverNow clk)); ("roundId", JId (r_id round));
          ("roundNumber", JNum roundNumber); ("toStatus", JStatus status)]%string ++
         assignmentField identity);
  shared ← sharedRound resumedRound;
  mret (mkRoundTransition matchId (m_publicId m) shared status).

(** ** Expiration *)

Inductive ExpirationDecision : Type :=
  | ExpirationInactive
  | ExpirationPending (delayMs : Z)
  | ExpirationEnded (transition : RoundTransition).

(** The per-athlete totals of one round that [roundAthleteResult.createMany] captures. *)
Definition roundJudgePoints (matchId roundId athleteId : uuid) (d : DB) : Z :=
  sum_by e_value (List.filter (fun e => (e_matchId e === matchId) &&
    (e_roundId e === Some roundId) && (e_type e === JUDGE_POINT) && (e_revertedAt e === None) &&
    (e_athleteId e === athleteId)) (db_scoreEvents d)).
Definition roundFaultCount (matchId roundId athleteId : uuid) (d : DB) : Z :=
  Z.of_nat (length (List.filter (fun f => (f_matchId f === matchId) &&
    (f_roundId f === roundId) && (f_invalidatedAt f === None) && (f_athleteId f === athleteId))
    (db_faults d))).

Definition captureRoundResults (matchId roundId : uuid) (endedAt : timestamp) : DbM unit :=
  athletes ← find_many matchAthletes (fun a => ma_matchId a === matchId);
  totals ← gets (fun d => map (fun a => (ma_id a, roundJudgePoints matchId roundId (ma_id a) d,
                                         roundFaultCount matchId roundId (ma_id a) d)) athletes);
  create_many roundAthleteResults (fun '(athleteId, judgePoints, faultCount) id =>
    mkRoundResultRow id matchId roundId athleteId judgePoints faultCount endedAt None None) totals.

(** The round is the one its match is running. *)
Definition roundIsCurrent (m : MatchRow) (round : RoundRow) : bool :=
  (r_endedAt round === None) && (m_currentRound m === Some (r_roundNumber round)) &&
  (Some (m_status m) === runningStatus (r_roundNumber round) (r_stage round)).

(** The writes of [evaluateExpiration] once the round's time is over. *)
Definition endRound (clk : Clock) (m : MatchRow) (round : RoundRow) : DbM RoundTransition :=
  let matchId := m_id m in
  let nextStatus := expirationStatus (r_stage round) (r_roundNumber round) (m_rulesVersion m) in
  seconds ← gets (weightClassIntermission m);
  let intermissionEndsAt :=
    intermissionDeadline m seconds (r_stage round) (r_roundNumber round) (serverNow clk) in
  let endedAt := r_endsAt round in
  endedRound ← update rounds (fun r => r_id r === r_id round)
    (fun r => r <| r_endedAt := Some endedAt |>);
  _ ← resolveDueWindowsLocked clk matchId (m_publicId m) (serverNow clk);
  _ ← when (m_rulesVersion m === FAULT_APPEAL_OVERTIME_V2)
        (captureRoundResults matchId (r_id round) endedAt);
  _ ← update matches (fun m => m_id m === matchId)
        (fun m => m <| m_intermissionEndsAt := intermissionEndsAt |>
                    <| m_lifecycle := IN_PROGRESS |> <| m_status := nextStatus |>);
  _ ← create auditLogs (fun id => mkAuditRow id (Some matchId) None None None ROUND_ENDED
        (JObj [("endedAt", JTime endedAt); ("fromStatus", JStatus (m_status m));
               ("roundId", JId (r_id round)); ("roundNumber", JNum (r_roundNumber round));
               ("toStatus", JStatus nextStatus)]%string));
  shared ← sharedRound endedRound;
  mret (mkRoundTransition matchId (m_publicId m) shared nextStatus).

(** [evaluateExpiration] *)
Definition evaluateExpiration (clk : Clock) (matchId roundId : uuid) : DbM ExpirationDecision :=
  _ ← lockMatch matchId MatchLifecycleTargetMissing;
  _ ← rulesForMatch matchId;
  m ← find_one_or_throw matches (fun m => m_id m === matchId);
  round ← find_one rounds (fun r => (r_id r === roundId) && (r_matchId r === matchId));
  match round with
  | None => mret ExpirationInactive
  | Some round =>
      if negb (roundIsCurrent m round) then mret ExpirationInactive else
      let delayMs := r_endsAt round - serverNow clk in
      if 0 <? delayMs then mret (ExpirationPending delayMs)
      else t ← endRound clk m round; mret (ExpirationEnded t)
  end.

(** ** Facts *)

Lemma controlledRound_ok m n k d d' :
  controlledRound m n d = Ok (k, d') -> n = Some k /\ m_currentRound m = Some k /\ d' = d.
Proof. unfold controlledRound; destruct n; intros H; run H; to_prop; auto. Qed.

Lemma sharedRound_ok r s d d' :
  sharedRound r d = Ok (s, d') ->
  d' = d /\ rs_id s = r_id r /\ rs_endsAt s = r_endsAt r /\ rs_pausedAt s = r_pausedAt r /\
  rs_endedAt s = r_endedAt r /\ rs_remainingDurationMs s = r_remainingDurationMs r.
Proof. unfold sharedRound; intros H; run H; auto 10. Qed.

Lemma respects_controlledRound R `{!PreOrder R} m n : respects R (controlledRound m n).
Proof. unfold controlledRound; respects_auto. Qed.
Lemma respects_sharedRound R `{!PreOrder R} r : respects R (sharedRound r).
Proof. unfold sharedRound; respects_auto. Qed.
#[export] Hint Resolve respects_controlledRound respects_sharedRound : tx.

Lemma pauseRound_ok clk m i d t d' :
  pauseRound clk m i d = Ok (t, d') ->
  (exists r, rulesForMatch m d = Ok (r, d)) /\
  exists mr n rd entry,
    find_first (fun x => m_id x === m) (db_matches d) = Some mr /\
    runningRoundNumber (m_status mr) = Some n /\ m_currentRound mr = Some n /\
    max_by r_createdAt (List.filter (openRound m n) (db_rounds d)) = Some rd /\
    serverNow clk < r_endsAt rd /\
    d' = put auditLogs (db_auditLogs d ++ [entry])
          (put matches (map_where (fun x => m_id x === m)
             (fun x => x <| m_status := pauseStatus (m_status mr) n |>) (db_matches d))
          (put rounds (map_where (fun r => r_id r === r_id rd)
             (fun r => r <| r_pausedAt := Some (serverNow clk) |>
                <| r_remainingDurationMs := Some (r_endsAt rd - serverNow clk) |>) (db_rounds d))
             d)) <| db_nextId ::= N.succ |>.
Proof.
  unfold pauseRound, lockMatch, latestOpenRound, auditCommand; intros H; run H.
  reads; apply controlledRound_ok in Hx2 as (Hn & Hc & _); to_prop.
  assert (Hlt : 0 < r_endsAt x4 - serverNow clk) by lia.
  rewrite Z.max_r in * by lia.
  split; [eauto |]; exists x2, x3, x4; eexists; split; [exact H0 |]; split; [exact Hn |]; split; [exact Hc |].
  split; [exact H1 |]; split; [lia |]; reflexivity.
Qed.

Lemma resumeRound_ok clk m i d t d' :
  resumeRound clk m i d = Ok (t, d') ->
  exists mr n rd left_ entry,
    find_first (fun x => m_id x === m) (db_matches d) = Some mr /\
    pausedRoundNumber (m_status mr) = Some n /\ m_currentRound mr = Some n /\
    max_by r_createdAt (List.filter (openRound m n) (db_rounds d)) = Some rd /\
    r_remainingDurationMs rd = Some left_ /\
    d' = put auditLogs (db_auditLogs d ++ [entry])
          (put matches (map_where (fun x => m_id x === m)
             (fun x => x <| m_status := resumeStatus (m_status mr) n |>) (db_matches d))
          (put rounds (map_where (fun r => r_id r === r_id rd)
             (fun r => r <| r_endsAt := serverNow clk + left_ |> <| r_pausedAt := None |>
                <| r_remainingDurationMs := None |>) (db_rounds d)) d)) <| db_nextId ::= N.succ |>.
Proof.
  unfold resumeRound, latestOpenRound, auditCommand; intros H; run H.
  reads; apply controlledRound_ok in Hx2 as (Hn & Hc & _).
  destruct (r_pausedAt x4); [| apply throw_ok in Hx3 as []].
  destruct (r_remainingDurationMs x4) eqn:Hl; [| apply throw_ok in Hx3 as []].
  apply ret_ok in Hx3 as [<- _].
  exists x2, x3, x4; do 2 eexists; split; [exact H0 |]; split; [exact Hn |]; split; [exact Hc |].
  split; [exact H1 |]; split; [exact Hl |]; reflexivity.
Qed.

Lemma nextRoundDescriptor_ok st cur sa atts d ds d' :
  nextRoundDescriptor st cur sa atts d = Ok (ds, d') ->
  d' = d /\
  ((st = WAITING /\ cur = None /\ sa = None /\ ds = mkRoundDescriptor REGULATION 1 0) \/
   (st = BREAK /\ cur = Some 1 /\ sa <> None /\ ds = mkRoundDescriptor REGULATION 2 0) \/
   (st = OVERTIME_READY /\ ds = mkRoundDescriptor OVERTIME 1 (fold_right Z.max 0 atts + 1))).
Proof.
  unfold nextRoundDescriptor; intros H; repeat case_match; run H; to_prop; auto 10.
Qed.

Lemma respects_nextRoundDescriptor R `{!PreOrder R} st cur sa atts :
  respects R (nextRoundDescriptor st cur sa atts).
Proof. unfold nextRoundDescriptor; respects_auto. Qed.
Lemma respects_assertStartReadiness R `{!PreOrder R} net m p n :
  respects R (assertStartReadiness net m p n).
Proof. unfold assertStartReadiness; respects_auto. Qed.
#[export] Hint Resolve respects_nextRoundDescriptor respects_assertStartReadiness : tx.

Definition startedRound (clk : Clock) (m : uuid) (mr : MatchRow) (ds : RoundDescriptor) (id : uuid)
  : RoundRow :=
  mkRoundRow id m (rd_roundNumber ds) (rd_stage ds) (rd_attemptNumber ds)
    (Some (m_roundDurationMs mr)) (serverNow clk) (serverNow clk + m_roundDurationMs mr)
    None None None None None (rowNow clk).

Lemma startRound_ok clk net m i d t d' :
  startRound clk net m i d = Ok (t, d') ->
  exists mr ds entry,
    find_first (fun x => m_id x === m) (db_matches d) = Some mr /\
    lockActiveSupervisorIdentity clk m i d = Ok (tt, d) /\
    nextRoundDescriptor (m_status mr) (m_currentRound mr) (m_startedAt mr)
      (map r_attemptNumber (List.filter (fun r => (r_matchId r === m) && (r_stage r === OVERTIME))
         (db_rounds d))) d = Ok (ds, d) /\
    rs_endsAt (tr_round t) = serverNow clk + m_roundDurationMs mr /\
    tr_status t = startedStatus ds /\
    table_ok rounds (db_rounds d ++ [startedRound clk m mr ds (db_nextId d)]) = true /\
    d' = put auditLogs (db_auditLogs d ++ [entry])
          (put matches (map_where (fun x => m_id x === m)
             (fun x => x <| m_currentRound := Some (rd_roundNumber ds) |>
                <| m_intermissionEndsAt := None |> <| m_lifecycle := IN_PROGRESS |>
                <| m_startedAt := (if (rd_roundNumber ds =? 1) && (rd_stage ds === REGULATION)
                                   then Some (serverNow clk) else m_startedAt mr) |>
                <| m_status := startedStatus ds |>) (db_matches d))
          (put rounds (db_rounds d ++ [startedRound clk m mr ds (db_nextId d)]) d))
          <| db_nextId ::= (fun n => N.succ (N.succ n)) |>.
Proof.
  unfold startRound, auditCommand; intros H; run H; reads; destruct x1.
  match goal with Hs : sharedRound _ _ = Ok _ |- _ => apply sharedRound_ok in Hs as (_ & _ & Hs & _) end.
  exists x2, x4; eexists; split; [exact H0 |]; split; [exact Hx1 |]; split; [exact Hx3 |].
  do 2 (split; [first [eassumption | reflexivity] |]); split; [assumption | reflexivity].
Qed.

Definition endedBy (rd : RoundRow) (l : list RoundRow) : list RoundRow :=
  map_where (fun r => r_id r === r_id rd) (fun r => r <| r_endedAt := Some (r_endsAt rd) |>) l.

Definition expiredMatch (clk : Clock) (seconds : Z) (mr : MatchRow) (rd : RoundRow) (l : list MatchRow) : list MatchRow :=
  map_where (fun x => m_id x === m_id mr)
    (fun x => x <| m_intermissionEndsAt := intermissionDeadline mr seconds (r_stage rd) (r_roundNumber rd) (serverNow clk) |>
                <| m_lifecycle := IN_PROGRESS |>
                <| m_status := expirationStatus (r_stage rd) (r_roundNumber rd) (m_rulesVersion mr) |>) l.

(** The row the capture leaves for one athlete. *)
Definition capturedRow (d : DB) (m : uuid) (rd : RoundRow) (a : MatchAthleteRow) (id : uuid)
  : RoundResultRow :=
  mkRoundResultRow id m (r_id rd) (ma_id a) (roundJudgePoints m (r_id rd) (ma_id a) d)
    (roundFaultCount m (r_id rd) (ma_id a) d) (r_endsAt rd) None None.

Lemma captureRoundResults_ok m rd d u d' :
  captureRoundResults m (r_id rd) (r_endsAt rd) d = Ok (u, d') ->
  (exists rows, db_roundAthleteResults d' = db_roundAthleteResults d ++ rows /\
     Forall2 (fun a r => exists id, r = capturedRow d m rd a id)
       (List.filter (fun a => ma_matchId a === m) (db_matchAthletes d)) rows) /\
  touches [roundAthleteResults] d d'.
Proof.
  unfold captureRoundResults; intros H; run H.
  apply create_many_ok in H as (rows & Hg & Hf & Ho); split.
  - exists rows; split; [exact Hg |].
    apply Forall2_fmap_l in Hf; exact Hf.
  - intros t Ht; apply Ho; intros ->; apply Ht; constructor.
Qed.

Lemma respects_captureRoundResults R `{!PreOrder R} m r t :
  (forall mk, respects R (create roundAthleteResults mk)) ->
  respects R (captureRoundResults m r t).
Proof.
  intros Hc; unfold captureRoundResults, create_many; respects_auto.
Qed.

Lemma touches_trans (ts1 ts2 : list table) d1 d2 d3 :
  touches ts1 d1 d2 -> touches ts2 d2 d3 -> touches (ts2 ++ ts1) d1 d3.
Proof.
  intros H1 H2 t Ht; rewrite elem_of_app in Ht; rewrite (H2 t), (H1 t) by tauto; reflexivity.
Qed.

Lemma touches_captureRoundResults ts m r t :
  roundAthleteResults ∈ ts -> respects (touches ts) (captureRoundResults m r t).
Proof.
  intros Hin; apply respects_captureRoundResults; [apply _ |]; intros; apply touches_create, Hin.
Qed.
#[export] Hint Extern 2 (respects (touches _) (captureRoundResults _ _ _)) =>
  apply touches_captureRoundResults; table_in : tx.

Lemma capturedRow_congr d1 d2 m rd a id :
  db_scoreEvents d1 = db_scoreEvents d2 -> db_faults d1 = db_faults d2 ->
  capturedRow d1 m rd a id = capturedRow d2 m rd a id.
Proof. unfold capturedRow, roundJudgePoints, roundFaultCount; intros -> ->; reflexivity. Qed.

Definition expirationTables : list table :=
  rounds :: matches :: roundAthleteResults :: scoringTables.

Lemma touches_endRound clk mr rd : respects (touches expirationTables) (endRound clk mr rd).
Proof. unfold endRound; respects_auto. Qed.

Lemma endRound_ok clk mr rd d t d' :
  endRound clk mr rd d = Ok (t, d') ->
  db_rounds d' = endedBy rd (db_rounds d) /\
  db_matches d' = expiredMatch clk (weightClassIntermission mr d) mr rd (db_matches d) /\
  db_faults d' = db_faults d /\ db_matchAthletes d' = db_matchAthletes d /\
  (exists rows, db_roundAthleteResults d' = db_roundAthleteResults d ++ rows /\
     if m_rulesVersion mr === FAULT_APPEAL_OVERTIME_V2
     then Forall2 (fun a r => exists id, r = capturedRow d' (m_id mr) rd a id)
            (List.filter (fun a => ma_matchId a === m_id mr) (db_matchAthletes d)) rows
     else rows = []) /\
  (forall w, In w (db_scoringWindows d') -> dueWindow (m_id mr) (serverNow clk) w = false) /\
  tr_status t = expirationStatus (r_stage rd) (r_roundNumber rd) (m_rulesVersion mr).
Proof.
  unfold endRound; intros H; run H; reads.
  match goal with Hd : resolveDueWindowsLocked _ _ _ _ _ = Ok (_, ?s) |- _ =>
    rename Hd into Hdue, s into s1 end.
  assert (T1 := touches_resolveDueWindowsLocked scoringTables _ _ _ _ (fun t H => H) _ _ _ Hdue).
  assert (Hspec := resolveDueWindowsLocked_settles _ _ _ _ _ _ _ Hdue).
  match goal with Hw : when _ _ _ = Ok (_, ?s) |- _ => rename Hw into Hcap, s into s2 end.
  assert (T2 : touches [roundAthleteResults] s1 s2).
  { eapply respects_when; [apply _ | | exact Hcap]; apply touches_captureRoundResults; table_in. }
  assert (T := touches_trans _ _ _ _ _ T1 T2).
  split; [exact (T rounds ltac:(table_notin)) |].
  split; [exact (f_equal (expiredMatch clk (weightClassIntermission mr d) mr rd) (T matches ltac:(table_notin))) |].
  split; [exact (T faults ltac:(table_notin)) |].
  split; [exact (T matchAthletes ltac:(table_notin)) |].
  split; [| split; [| reflexivity]].
  2: exact (eq_ind_r (fun l => forall w, In w l -> dueWindow (m_id mr) (serverNow clk) w = false)
              Hspec (T2 scoringWindows ltac:(table_notin))).
  unfold when in Hcap; case_match.
  - apply captureRoundResults_ok in Hcap as [(rows & Hrows & Hf) _]; exists rows; split.
    { exact (eq_trans Hrows (f_equal (fun l => l ++ rows) (T1 roundAthleteResults ltac:(table_notin)))). }
    assert (Ha : db_matchAthletes s1 = db_matchAthletes d) by exact (T1 matchAthletes ltac:(table_notin)).
    rewrite Ha in Hf.
    eapply Forall2_impl; [| exact Hf]; intros a r [id ->]; exists id; apply capturedRow_congr.
    + symmetry; exact (T2 scoreEvents ltac:(table_notin)).
    + symmetry; exact (T2 faults ltac:(table_notin)).
  - apply ret_ok in Hcap as [_ <-]; exists []; split; [| reflexivity].
    rewrite app_nil_r; exact (T1 roundAthleteResults ltac:(table_notin)).
Qed.

(** ** Round control *)

Lemma rulesForMatch_total m d mr tn :
  find_first (fun x => m_id x === m) (db_matches d) = Some mr ->
  find_first (fun x => tn_id x === m_tournamentId mr) (db_tournaments d) = Some tn ->
  tn_sportGroupCode tn = code oneOnOneCombatRules ->
  rulesForMatch m d = Ok (oneOnOneCombatRules, d).
Proof.
  intros Hm Ht Hc; unfold rulesForMatch.
  rewrite (bind_step _ _ _ mr d) by exact (find_one_or_throw_total matches _ _ _ Hm).
  rewrite (bind_step _ _ _ tn d) by exact (find_one_or_throw_total tournaments _ _ _ Ht).
  rewrite Hc; reflexivity.
Qed.

Lemma sharedRound_total r d :
  r_roundNumber r = 1 \/ r_roundNumber r = 2 -> exists s, sharedRound r d = Ok (s, d).
Proof.
  unfold sharedRound; intros [-> | ->]; rewrite andb_false_r, ?andb_false_r || idtac; eexists; cbn;
    rewrite ?andb_false_r; reflexivity.
Qed.

Lemma rulesForMatch_inv m d r d' :
  rulesForMatch m d = Ok (r, d') -> exists mr tn,
    find_first (fun x => m_id x === m) (db_matches d) = Some mr /\
    find_first (fun x => tn_id x === m_tournamentId mr) (db_tournaments d) = Some tn /\
    tn_sportGroupCode tn = code oneOnOneCombatRules.
Proof.
  unfold rulesForMatch; intros H; run H; do 2 eexists; split; [eassumption |]; split; [eassumption |].
  unfold resolveRules in H; cbn [registry find_first fst] in H.
  destruct (_ === _) eqn:E in H; [to_prop; congruence | discriminate].
Qed.

Lemma runningRoundNumber_cases s n :
  runningRoundNumber s = Some n ->
  (n = 1 \/ n = 2) /\ pausedRoundNumber (pauseStatus s n) = Some n /\
  resumeStatus (pauseStatus s n) n = s /\ pauseStatus s n <> s.
Proof. destruct s; cbn; intros [= <-]; split_and!; auto; discriminate. Qed.

(** The open round a resume selects is the one the pause left. *)
Lemma latest_open_after m n rd g l :
  (forall r, r_id (g r) = r_id r /\ r_createdAt (g r) = r_createdAt r /\
             openRound m n (g r) = openRound m n r) ->
  max_by r_createdAt (List.filter (openRound m n) l) = Some rd ->
  max_by r_createdAt (List.filter (openRound m n)
    (map_where (fun r => r_id r === r_id rd) g l)) = Some (g rd).
Proof.
  intros Hg H; unfold max_by in *; rewrite filter_map_where_comm by (intros; apply Hg).
  unfold map_where; rewrite min_by_map.
  - rewrite H; cbn; rewrite bool_decide_true; reflexivity.
  - intros r; destruct (_ === _); [f_equal; apply Hg | reflexivity].
Qed.

Lemma latest_open_in m n rd l :
  max_by r_createdAt (List.filter (openRound m n) l) = Some rd ->
  In rd l /\ openRound m n rd = true.
Proof. intros H; apply min_by_in, List.filter_In in H; exact H. Qed.

Lemma wf_match_unique d m x y :
  wf d -> find_first (fun x => m_id x === m) (db_matches d) = Some x ->
  In y (db_matches d) -> m_id y = m -> y = x.
Proof.
  intros Hwf Hx Hy Hm; apply find_first_some in Hx as [Hx Hid]; to_prop.
  apply (wf_id matches d y x m); cbn; auto; congruence.
Qed.

(** A paused match is in progress or suspended, and stays so when it runs again. *)
Lemma match_ok_phase mr s n :
  pausedRoundNumber (m_status mr) = Some n -> match_ok mr = true ->
  match_ok (mr <| m_status := resumeStatus s n |>) = true.
Proof.
  unfold match_ok; cbn; destruct (m_status mr) eqn:Es; try discriminate; intros _;
    destruct (m_lifecycle mr); intros H; try exact H; exfalso; destruct (m_finishedAt mr); discriminate H.
Qed.

Lemma resumeRound_total clk m i d mr tn rd n left_ :
  sound d -> lockActiveControlSession clk m i d = Ok (tt, d) ->
  find_first (fun x => m_id x === m) (db_matches d) = Some mr ->
  find_first (fun x => tn_id x === m_tournamentId mr) (db_tournaments d) = Some tn ->
  tn_sportGroupCode tn = code oneOnOneCombatRules ->
  pausedRoundNumber (m_status mr) = Some n -> m_currentRound mr = Some n ->
  max_by r_createdAt (List.filter (openRound m n) (db_rounds d)) = Some rd ->
  r_pausedAt rd <> None -> r_remainingDurationMs rd = Some left_ ->
  exists t d', resumeRound clk m i d = Ok (t, d').
Proof.
  intros Hs Hauth Hm Htn Hcode Hn Hc Hrd Hp Hl.
  destruct (latest_open_in _ _ _ _ Hrd) as [Hin Hopen]; unfold openRound in Hopen; to_prop.
  unfold resumeRound.
  rewrite (bind_step _ _ _ _ _ (lockMatch_total m _ d mr Hm)).
  erewrite bind_step by (eapply rulesForMatch_total; eauto).
  rewrite (bind_step _ _ _ _ _ Hauth).
  rewrite (bind_step _ _ _ mr d) by exact (find_one_or_throw_total matches _ _ _ Hm).
  rewrite (bind_step _ _ _ n d) by (unfold controlledRound; rewrite Hn, Hc, bool_decide_true; reflexivity).
  rewrite (bind_step _ _ _ rd d) by (unfold latestOpenRound; erewrite bind_step by reflexivity;
    apply or_throw_ok; auto).
  rewrite Hl; destruct (r_pausedAt rd); [| congruence].
  erewrite bind_step by reflexivity; cbv beta zeta.
  assert (Hfind : find_first (fun r => r_id r === r_id rd) (db_rounds d) = Some rd).
  { apply (wf_find_id rounds d _ rd (r_id rd)); [apply Hs | auto | auto |]; intros y; cbn; rewrite bool_decide_eq_true.
    split; congruence. }
  fwd_update rounds rd Hfind.
  { intros r _ _ Hr; cbn in *; unfold round_ok in *; cbn; apply andb_prop in Hr as [-> _]; reflexivity. }
  subst s; fwd_update matches mr Hm.
  { intros x Hx Hid Hr; to_prop; rewrite (wf_match_unique d m mr x) in * by (auto; apply Hs).
    exact (match_ok_phase mr _ n Hn Hr). }
  unfold auditCommand; fwd_create auditLogs; [reflexivity | reflexivity |].
  assert (Hshared : exists v, sharedRound (rd <| r_endsAt := serverNow clk + left_ |>
    <| r_pausedAt := None |> <| r_remainingDurationMs := None |>) s0 = Ok (v, s0)).
  { apply sharedRound_total; cbn; apply Z.eqb_eq in H1; rewrite H1.
    destruct (m_status mr); inv Hn; auto. }
  destruct Hshared as [v Hv]; exists (mkRoundTransition m (m_publicId mr) v (resumeStatus (m_status mr) n)), s0.
  rewrite (bind_step _ _ _ _ _ Hv); reflexivity.
Qed.

Lemma keeps_sound_pauseRound clk m i : respects keeps_sound (pauseRound clk m i).
Proof. unfold pauseRound, latestOpenRound, auditCommand; respects_auto. Qed.

(** C7: pausing and resuming is a round trip. In a sound store, whenever a supervisor
    has paused a round, any supervisor authorized at a later time can resume it, and
    then the match is as it was before the pause, and the round has only its end moved
    by exactly the time it was paused, so that the same time is left to fight; nothing
    but that round and the audit log has changed. *)
Theorem pause_then_resume clk1 m i1 d t1 d1 clk2 i2
  (Hpause : pauseRound clk1 m i1 d = Ok (t1, d1)) (Hsound : sound d)
  (Hauth : lockActiveControlSession clk2 m i2 d1 = Ok (tt, d1)) :
  exists rd t2 d2, resumeRound clk2 m i2 d1 = Ok (t2, d2) /\
    In rd (db_rounds d) /\ db_matches d2 = db_matches d /\
    db_rounds d2 = map_where (fun r => r_id r === r_id rd)
      (fun r => r <| r_endsAt := r_endsAt rd + (serverNow clk2 - serverNow clk1) |>
                  <| r_pausedAt := None |> <| r_remainingDurationMs := None |>) (db_rounds d) /\
    touches [rounds; matches; auditLogs] d d2.
Proof.
  pose proof (keeps_sound_pauseRound _ _ _ _ _ _ Hpause Hsound) as Hsound1.
  pose proof Hpause as Hp; apply pauseRound_ok in Hp
    as ((rules & Hrules) & mr & n & rd & entry & Hm & Hn & Hc & Hrd & Hlt & Hd1).
  destruct (runningRoundNumber_cases _ _ Hn) as (_ & Hpn & Hback & _).
  apply rulesForMatch_inv in Hrules as (mr' & tn & Hm' & Htn & Hcode).
  rewrite Hm in Hm'; injection Hm' as <-.
  set (pausing := fun r : RoundRow => r <| r_pausedAt := Some (serverNow clk1) |>
    <| r_remainingDurationMs := Some (r_endsAt rd - serverNow clk1) |>) in Hd1.
  set (held := fun x : MatchRow => x <| m_status := pauseStatus (m_status mr) n |>) in Hd1.
  assert (Hm1 : find_first (fun x => m_id x === m) (db_matches d1) = Some (held mr)).
  { subst d1; cbn; rewrite find_first_map_where by reflexivity; rewrite Hm; cbn.
    apply find_first_some in Hm as [_ Hid]; rewrite Hid; reflexivity. }
  assert (Hrd1 : max_by r_createdAt (List.filter (openRound m n) (db_rounds d1)) = Some (pausing rd)).
  { subst d1; apply (latest_open_after m n rd pausing); auto. }
  destruct (resumeRound_total clk2 m i2 d1 (held mr) tn (pausing rd) n (r_endsAt rd - serverNow clk1))
    as (t2 & d2 & Hres); auto; [subst d1; exact Htn |].
  exists rd, t2, d2; split; [exact Hres |]; split; [apply (latest_open_in _ _ _ _ Hrd) |].
  apply resumeRound_ok in Hres as (mr2 & n2 & rd2 & left2 & entry2 & Hm2 & Hn2 & _ & Hrd2 & Hl2 & Hd2).
  rewrite Hm1 in Hm2; injection Hm2 as <-; cbn in Hn2; rewrite Hpn in Hn2; injection Hn2 as <-.
  rewrite Hrd1 in Hrd2; injection Hrd2 as <-; injection Hl2 as <-.
  subst d2 d1; cbn; split_and!.
  - rewrite map_where_twice by (intros x E; exact E).
    apply map_where_id; intros x Hx E; to_prop.
    rewrite (wf_match_unique d m mr x) by (auto; apply Hsound).
    destruct mr; cbn in *; rewrite Hback; reflexivity.
  - rewrite map_where_twice by (intros x E; exact E).
    apply map_where_ext; intros r Hr E; unfold pausing; cbn.
    replace (serverNow clk2 + (r_endsAt rd - serverNow clk1))
      with (r_endsAt rd + (serverNow clk2 - serverNow clk1)) by lia; reflexivity.
  - intros t Ht; destruct t; first [reflexivity | exfalso; apply Ht; table_in].
Qed.

(** ** Starting *)

Lemma fold_max_le a l x : In x l -> x <= fold_right Z.max a l.
Proof. induction l; cbn; [tauto |]; intros [-> | Hx]; [lia | specialize (IHl Hx); lia]. Qed.

Lemma fold_max_pos l : 0 <= fold_right Z.max 0 l.
Proof. induction l; cbn; lia. Qed.

(** a started round is the next one of its match. A start succeeds only from the
    waiting phase (first regulation round), from the break (second regulation round) or
    when an overtime attempt is due; it leaves the match in progress in the running
    status of the round it started, and appends one round, not ended and not paused,
    that ends after exactly the configured duration. An overtime attempt gets a number
    above those of all overtime rounds the match ever had, invalidated ones included. *)
Theorem started_round_is_next clk net m i d t d'
  (H : startRound clk net m i d = Ok (t, d')) :
  exists mr mr' rd, find_first (fun x => m_id x === m) (db_matches d) = Some mr /\
    find_first (fun x => m_id x === m) (db_matches d') = Some mr' /\
    db_rounds d' = db_rounds d ++ [rd] /\ r_matchId rd = m /\
    ((m_status mr = WAITING /\ m_currentRound mr = None /\ m_startedAt mr = None /\
      (r_stage rd, r_roundNumber rd, r_attemptNumber rd) = (REGULATION, 1, 0)) \/
     (m_status mr = BREAK /\ m_currentRound mr = Some 1 /\
      (r_stage rd, r_roundNumber rd, r_attemptNumber rd) = (REGULATION, 2, 0)) \/
     (m_status mr = OVERTIME_READY /\ (r_stage rd, r_roundNumber rd) = (OVERTIME, 1) /\
      forall r, In r (db_rounds d) -> r_matchId r = m -> r_stage r = OVERTIME ->
        r_attemptNumber r < r_attemptNumber rd)) /\
    Some (m_status mr') = runningStatus (r_roundNumber rd) (r_stage rd) /\
    m_lifecycle mr' = IN_PROGRESS /\ roundIsCurrent mr' rd = true /\
    r_pausedAt rd = None /\ r_endsAt rd = serverNow clk + m_roundDurationMs mr /\
    touches [rounds; matches; auditLogs] d d'.
Proof.
  apply startRound_ok in H as (mr & ds & entry & Hm & _ & Hds & _ & _ & _ & Hd').
  apply nextRoundDescriptor_ok in Hds as [_ Hds].
  exists mr; eexists _, (startedRound clk m mr ds (db_nextId d)).
  split; [exact Hm |]; split.
  { subst d'; cbn; rewrite find_first_map_where by reflexivity; rewrite Hm; cbn.
    apply find_first_some in Hm as [_ Hid]; rewrite Hid; reflexivity. }
  split; [subst d'; reflexivity |]; split; [reflexivity |]; split; [| split_and!].
  - destruct Hds as [(? & ? & ? & ->) | [(? & ? & ? & ->) | (? & ->)]]; [left | right; left | right; right];
      split_and!; auto; cbn.
    intros r Hr Hrm Hro; apply Z.lt_succ_r, fold_max_le, in_map, List.filter_In; split; [exact Hr |].
    rewrite !bool_decide_true by assumption; reflexivity.
  - destruct Hds as [(? & ? & ? & ->) | [(? & ? & ? & ->) | (? & ->)]]; reflexivity.
  - reflexivity.
  - destruct Hds as [(? & ? & ? & ->) | [(? & ? & ? & ->) | (? & ->)]];
      unfold roundIsCurrent; cbn; reflexivity.
  - reflexivity.
  - reflexivity.
  - intros t' Ht; subst d'; destruct t'; first [reflexivity | exfalso; apply Ht; table_in].
Qed.

(** ** Expiration *)

Lemma evaluateExpiration_ok clk m rid d dec d' :
  evaluateExpiration clk m rid d = Ok (dec, d') ->
  exists mr, find_first (fun x => m_id x === m) (db_matches d) = Some mr /\
    let found := find_first (fun r => (r_id r === rid) && (r_matchId r === m)) (db_rounds d) in
    match dec with
    | ExpirationInactive => d' = d
    | ExpirationPending delay => d' = d /\ exists rd, found = Some rd /\
        roundIsCurrent mr rd = true /\ delay = r_endsAt rd - serverNow clk /\ 0 < delay
    | ExpirationEnded t => exists rd, found = Some rd /\ roundIsCurrent mr rd = true /\
        r_endsAt rd <= serverNow clk /\ endRound clk mr rd d = Ok (t, d')
    end.
Proof.
  unfold evaluateExpiration; intros H; run H; reads; eexists; split; [eassumption |]; cbn.
  set (found := find_first _ (db_rounds d)); change (find_first _ (get rounds d)) with found in H.
  destruct found as [rd |]; [| run H; reflexivity].
  destruct (roundIsCurrent _ rd) eqn:Ec; cbn in H; [| run H; reflexivity].
  destruct (0 <? _) eqn:El in H; to_prop; run H.
  - split; [reflexivity |]; exists rd; split_and!; auto.
  - exists rd; split_and!; auto; lia.
Qed.

(** expiration happens on time and once. Deciding a round before its end changes
    nothing and reports exactly the time left; a round that ends is the one its match is
    running, ends at its own scheduled end however late the decision runs, and moves the
    match to the phase after it, with every scoring window due by then resolved; and
    from then on any decision on that round finds it inactive and changes nothing. *)
Theorem expiration_on_time_once clk m rid d dec d'
  (H : evaluateExpiration clk m rid d = Ok (dec, d')) :
  match dec with
  | ExpirationInactive => d' = d
  | ExpirationPending delay => d' = d /\ exists rd, In rd (db_rounds d) /\ r_id rd = rid /\
      delay = r_endsAt rd - serverNow clk /\ serverNow clk < r_endsAt rd
  | ExpirationEnded t => exists mr mr' rd, In rd (db_rounds d) /\ r_id rd = rid /\
      roundIsCurrent mr rd = true /\ r_endsAt rd <= serverNow clk /\
      db_rounds d' = endedBy rd (db_rounds d) /\
      find_first (fun x => m_id x === m) (db_matches d) = Some mr /\
      find_first (fun x => m_id x === m) (db_matches d') = Some mr' /\
      m_status mr' = expirationStatus (r_stage rd) (r_roundNumber rd) (m_rulesVersion mr) /\
      (forall w, In w (db_scoringWindows d') -> dueWindow m (serverNow clk) w = false) /\
      touches expirationTables d d' /\
      forall clk2 dec2 d2, evaluateExpiration clk2 m rid d' = Ok (dec2, d2) ->
        dec2 = ExpirationInactive /\ d2 = d'
  end.
Proof.
  apply evaluateExpiration_ok in H as (mr & Hm & H); cbv zeta in H.
  destruct dec as [| delay | t]; [exact H | |].
  - destruct H as (-> & rd & Hf & _ & -> & Hlt); apply find_first_some in Hf as [Hin Hf]; to_prop.
    split; [reflexivity |]; exists rd; split_and!; auto; lia.
  - destruct H as (rd & Hf & Hcur & Hle & Hend); pose proof Hf as Hf0.
    apply find_first_some in Hf as [Hin Hid]; apply andb_prop in Hid as [Hid _]; to_prop.
    pose proof (touches_endRound _ _ _ _ _ _ Hend) as Htouch.
    apply endRound_ok in Hend as (Hr & Hms & _ & _ & _ & Hdue & _).
    pose proof Hm as Hmid; apply find_first_some in Hmid as [_ Hmid]; to_prop; subst m.
    exists mr; eexists _, rd; split; [exact Hin |]; split; [exact Hid |]; split; [exact Hcur |].
    split; [exact Hle |]; split; [exact Hr |]; split; [exact Hm |]; split.
    { rewrite Hms; unfold expiredMatch; rewrite find_first_map_where by reflexivity; rewrite Hm; cbn.
      rewrite bool_decide_true by reflexivity; reflexivity. }
    split; [reflexivity |]; split; [exact Hdue |]; split; [exact Htouch |].
    intros clk2 dec2 d2 H2; apply evaluateExpiration_ok in H2 as (mr2 & _ & H2); cbv zeta in H2.
    assert (Hdead : forall x, find_first (fun r => (r_id r === rid) && (r_matchId r === m_id mr))
              (db_rounds d') = Some x -> roundIsCurrent mr2 x = false).
    { intros x; rewrite Hr; unfold endedBy; rewrite find_first_map_where by reflexivity.
      rewrite Hf0; cbn; rewrite bool_decide_true by reflexivity; intros [= <-]; reflexivity. }
    destruct dec2; [auto | |]; exfalso.
    + destruct H2 as (_ & x & Hx & Hc & _); rewrite (Hdead x Hx) in Hc; discriminate.
    + destruct H2 as (x & Hx & Hc & _); rewrite (Hdead x Hx) in Hc; discriminate.
Qed.

Lemma roundJudgePoints_base m r a d :
  roundJudgePoints m r a d =
  judgeBaseForRounds a [r] (List.filter (fun e => e_matchId e === m) (db_scoreEvents d)).
Proof.
  rewrite judgeBaseForRounds_sum; unfold roundJudgePoints, validJudgePoint; f_equal.
  rewrite filter_andb; apply List.filter_ext; intros e; cbn.
  destruct (e_roundId e) as [i|]; cbn; rewrite ?orb_false_r.
  - rewrite <- (bool_decide_ext (r = i) (Some i = Some r)) by (split; congruence).
    repeat case_bool_decide; reflexivity || congruence.
  - repeat case_bool_decide; reflexivity || congruence.
Qed.

(** the per-athlete totals captured when a round expires are the results of that
    round: one row per athlete of the match, in order, whose points are the judge base
    of the athlete over that round in the store the expiration leaves (so after the
    due windows were resolved), whose fault count is the number of valid faults of the
    athlete in that round, stamped with the round's end. A legacy match captures none. *)
Theorem captured_results_are_the_round clk m rid d t d'
  (H : evaluateExpiration clk m rid d = Ok (ExpirationEnded t, d')) :
  exists mr rd rows, find_first (fun x => m_id x === m) (db_matches d) = Some mr /\
    In rd (db_rounds d) /\ r_id rd = rid /\
    db_roundAthleteResults d' = db_roundAthleteResults d ++ rows /\
    if m_rulesVersion mr === FAULT_APPEAL_OVERTIME_V2 then
      Forall2 (fun a r =>
        rr_athleteId r = ma_id a /\ rr_matchId r = m /\ rr_roundId r = rid /\
        rr_capturedAt r = r_endsAt rd /\ rr_invalidatedAt r = None /\
        rr_judgePoints r = judgeBaseForRounds (ma_id a) [rid]
          (List.filter (fun e => e_matchId e === m) (db_scoreEvents d')) /\
        rr_faultCount r = roundFaultCount m rid (ma_id a) d')
      (List.filter (fun a => ma_matchId a === m) (db_matchAthletes d)) rows
    else rows = [].
Proof.
  apply evaluateExpiration_ok in H as (mr & Hm & rd & Hf & _ & _ & Hend).
  apply find_first_some in Hf as [Hin Hid]; apply andb_prop in Hid as [Hid _]; to_prop.
  apply endRound_ok in Hend as (_ & _ & _ & _ & (rows & Hrows & Hcap) & _).
  pose proof Hm as Hmid; apply find_first_some in Hmid as [_ Hmid]; to_prop; subst m rid.
  exists mr, rd, rows; split_and!; auto.
  case_match; [| exact Hcap]; eapply Forall2_impl; [| exact Hcap].
  intros a r [id ->]; cbn; split_and!; auto using roundJudgePoints_base.
Qed.

(** ** Witnesses

    Round 1 of match 10 runs from 0 to 120000; it is paused at 30000 and resumed at
    50000, or expires at 120500. The waiting match starts with everybody connected. *)
Definition everybody : Presence := mkPresence (fun _ _ => 1) (fun _ _ => 1) (fun _ => 1).
Definition pausedDB : DB := after (pauseRound (at_time 30000) 10 supervisor) runningDB.
Definition expiredDB : DB := after (evaluateExpiration (at_time 120500) 10 50) runningDB.

Lemma pause_then_resume_witness :
  exists rd t2 d2, resumeRound (at_time 50000) 10 supervisor pausedDB = Ok (t2, d2) /\
    In rd (db_rounds runningDB) /\ db_matches d2 = db_matches runningDB.
Proof.
  edestruct (fun t1 => pause_then_resume (at_time 30000) 10 supervisor runningDB t1 pausedDB
               (at_time 50000) supervisor)
    as (rd & t2 & d2 & Hres & Hin & Hm & _);
    [vm_compute; reflexivity | solve_sound | vm_compute; reflexivity |].
  exists rd, t2, d2; split; [exact Hres | split; [exact Hin | exact Hm]].
Defined.

Lemma started_round_is_next_witness :
  exists rd, db_rounds (after (startRound (at_time 1000) everybody 10 supervisor) waitingDB)
             = db_rounds waitingDB ++ [rd].
Proof.
  edestruct (started_round_is_next (at_time 1000) everybody 10 supervisor waitingDB)
    as (mr & mr' & rd & _ & _ & Hr & _); [vm_compute; reflexivity |].
  exists rd; exact Hr.
Defined.

Lemma expiration_on_time_once_witness :
  map r_endedAt (db_rounds expiredDB) = [Some 120000] /\
  forall dec2 d2, evaluateExpiration (at_time 121000) 10 50 expiredDB = Ok (dec2, d2) ->
    dec2 = ExpirationInactive /\ d2 = expiredDB.
Proof.
  split; [vm_compute; reflexivity |]; edestruct (expiration_on_time_once (at_time 120500) 10 50 runningDB
               (ExpirationEnded (mkRoundTransition 10 "M"
                  (mkRoundState 50 1 REGULATION 0 0 120000 (Some 120000) None None) BREAK)) expiredDB)
    as (mr & mr' & rd & _ & _ & _ & _ & _ & _ & _ & _ & _ & _ & Honce);
    [vm_compute; reflexivity | exact (Honce (at_time 121000))].
Defined.

Lemma captured_results_are_the_round_witness :
  exists rows, db_roundAthleteResults expiredDB = db_roundAthleteResults runningDB ++ rows.
Proof.
  edestruct (captured_results_are_the_round (at_time 120500) 10 50 runningDB)
    as (mr & rd & rows & _ & _ & _ & Hrows & _); [vm_compute; reflexivity |].
  exists rows; exact Hrows.
Defined.
