(* ===== verification/Timers.v ===== *)
(** * Timers

    The in-process timers of [realtime/match-lifecycle.service.ts] (round expirations)
    and [realtime/scoring.service.ts] (window resolutions): a map from a match or window
    to its pending timeout, next to the timeouts the event loop holds. A committed
    command schedules or cancels; a timeout that fires asks the database what to do;
    recovery asks for every open round or window when the process starts. *)
From stdpp Require Import gmap.
From S2P Require Import Prelude Schema Database Rules Authorization Scenario Scoring Lifecycle.

Definition MAX_TIMEOUT_MS : Z := 2147483647.
Definition EXPIRATION_RETRY_DELAY_MS : Z := 1000.
Definition RESOLUTION_RETRY_DELAY_MS : Z := 1000.

(** ** Data *)

(** A timeout the event loop holds: when it is due and the arguments its callback closes
    over, the match and the round or window. *)
Record Timeout : Type := mkTimeout {
  to_at : timestamp; to_matchId : uuid; to_target : uuid }.

(** One service's timers. [entries] is [scheduledExpirations] (by match, with the round)
    or [scheduledResolutions] (by window); [live] is what [setTimeout] has started and
    neither fired nor been cleared. *)
Record Scheduler : Type := mkScheduler {
  nextTimer : N; live : gmap N Timeout; entries : gmap uuid (uuid * N); shuttingDown : bool }.
#[export] Instance eta_Scheduler : Eta Scheduler := fun s =>
  mkScheduler (nextTimer s) (live s) (entries s) (shuttingDown s).

Definition idle : Scheduler := mkScheduler 0 ∅ ∅ false.

(** [setTimeout(callback, Math.max(0, Math.min(delayMs, MAX_TIMEOUT_MS)))], recorded
    under [key]. *)
Definition startTimer (now : timestamp) (key matchId target : uuid) (delayMs : Z) (s : Scheduler)
  : Scheduler :=
  s <| live ::= <[nextTimer s :=
         mkTimeout (now + Z.max 0 (Z.min delayMs MAX_TIMEOUT_MS)) matchId target]> |>
    <| entries ::= <[key := (target, nextTimer s)]> |>
    <| nextTimer ::= N.succ |>.

(** [clearTimeout(scheduled.timer)] and the removal of its entry. *)
Definition clearEntry (key id : uuid) (s : Scheduler) : Scheduler :=
  s <| live ::= delete id |> <| entries ::= delete key |>.

(** The event loop takes a due timeout out of its queue. *)
Definition popTimer (id : N) (s : Scheduler) : Scheduler := s <| live ::= delete id |>.

(** ** Round expirations *)

(** [cancelExpiration(matchId, roundId?)] *)
Definition cancelExpiration (matchId : uuid) (roundId : option uuid) (s : Scheduler) : Scheduler :=
  match entries s !! matchId with
  | None => s
  | Some (scheduledRound, timer) =>
      if match roundId with Some r => scheduledRound !== r | None => false end then s
      else clearEntry matchId timer s
  end.

(** [scheduleExpirationAfter] *)
Definition scheduleExpirationAfter (now : timestamp) (matchId roundId : uuid) (delayMs : Z)
    (s : Scheduler) : Scheduler :=
  if shuttingDown s then s
  else startTimer now matchId matchId roundId delayMs (cancelExpiration matchId None s).

(** [scheduleExpiration] *)
Definition scheduleExpiration (now : timestamp) (matchId roundId : uuid)
    (endsAt serverNow_ : timestamp) (s : Scheduler) : Scheduler :=
  scheduleExpirationAfter now matchId roundId (endsAt - serverNow_) s.

(** The head of the timeout's callback: the fired entry leaves the map. *)
Definition expirationFired (matchId roundId : uuid) (s : Scheduler) : Scheduler :=
  match entries s !! matchId with
  | Some (scheduledRound, _) =>
      if scheduledRound === roundId then s <| entries ::= delete matchId |> else s
  | None => s
  end.

(** ** Window resolutions *)

(** [cancelResolution] *)
Definition cancelResolution (windowId : uuid) (s : Scheduler) : Scheduler :=
  match entries s !! windowId with
  | None => s
  | Some (_, timer) => clearEntry windowId timer s
  end.

(** [scheduleResolutionAfter] *)
Definition scheduleResolutionAfter (now : timestamp) (matchId windowId : uuid) (delayMs : Z)
    (s : Scheduler) : Scheduler :=
  if shuttingDown s then s
  else startTimer now windowId matchId windowId delayMs (cancelResolution windowId s).

(** [scheduleResolution] *)
Definition scheduleResolution (now : timestamp) (matchId windowId : uuid)
    (endsAt serverNow_ : timestamp) (s : Scheduler) : Scheduler :=
  scheduleResolutionAfter now matchId windowId (endsAt - serverNow_) s.

Definition resolutionFired (windowId : uuid) (s : Scheduler) : Scheduler :=
  s <| entries ::= delete windowId |>.

(** [onModuleDestroy], the same method in both services. *)
Definition onModuleDestroy (s : Scheduler) : Scheduler :=
  s <| shuttingDown := true |>
    <| live := map_fold (fun _ e acc => delete (snd e) acc) (live s) (entries s) |>
    <| entries := ∅ |>.

(** ** Handlers

    A handler runs its transaction and then moves the timers; [None] is an exception the
    caller sees. *)
Record Process : Type := mkProcess {
  ps_db : DB; ps_expirations : Scheduler; ps_resolutions : Scheduler }.
#[export] Instance eta_Process : Eta Process := fun p =>
  mkProcess (ps_db p) (ps_expirations p) (ps_resolutions p).

(** [handleExpiration] *)
Definition handleExpiration (clk : Clock) (now : timestamp) (matchId roundId : uuid) (p : Process)
  : option Process :=
  match evaluateExpiration clk matchId roundId (ps_db p) with
  | Err MatchLifecycleTargetMissing =>
      Some (p <| ps_expirations ::= cancelExpiration matchId (Some roundId) |>)
  | Err _ => None
  | Ok (ExpirationPending delayMs, d') =>
      Some (p <| ps_db := d' |>
              <| ps_expirations ::= scheduleExpirationAfter now matchId roundId delayMs |>)
  | Ok (_, d') =>
      Some (p <| ps_db := d' |> <| ps_expirations ::= cancelExpiration matchId (Some roundId) |>)
  end.

(** [handleResolution] *)
Definition handleResolution (clk : Clock) (now : timestamp) (matchId windowId : uuid) (p : Process)
  : option Process :=
  match resolveIfDue clk matchId windowId (ps_db p) with
  | Err _ => None
  | Ok (ResolutionPending delayMs, d') =>
      Some (p <| ps_db := d' |>
              <| ps_resolutions ::= scheduleResolutionAfter now matchId windowId delayMs |>)
  | Ok (_, d') => Some (p <| ps_db := d' |> <| ps_resolutions ::= cancelResolution windowId |>)
  end.

(** The whole callback of an expiration timeout, retried after a failure. *)
Definition onExpirationTimeout (clk : Clock) (now : timestamp) (matchId roundId : uuid) (p : Process)
  : Process :=
  let p := p <| ps_expirations ::= expirationFired matchId roundId |> in
  match handleExpiration clk now matchId roundId p with
  | Some p' => p'
  | None =>
      if shuttingDown (ps_expirations p) then p
      else p <| ps_expirations ::=
             scheduleExpirationAfter now matchId roundId EXPIRATION_RETRY_DELAY_MS |>
  end.

Definition onResolutionTimeout (clk : Clock) (now : timestamp) (matchId windowId : uuid) (p : Process)
  : Process :=
  let p := p <| ps_resolutions ::= resolutionFired windowId |> in
  match handleResolution clk now matchId windowId p with
  | Some p' => p'
  | None =>
      if shuttingDown (ps_resolutions p) then p
      else p <| ps_resolutions ::=
             scheduleResolutionAfter now matchId windowId RESOLUTION_RETRY_DELAY_MS |>
  end.

(** ** Recovery *)

Definition RUNNING_STATUSES : list MatchStatus :=
  [ROUND_1_RUNNING; ROUND_2_RUNNING; OVERTIME_RUNNING].

(** The round [recoverActiveRounds] finds for a running match. *)
Definition recoveredRound (d : DB) (m : MatchRow) : option RoundRow :=
  find_first (fun r => (m_currentRound m === Some (r_roundNumber r)) &&
      (if m_status m === OVERTIME_RUNNING then r_stage r === OVERTIME else r_stage r === REGULATION))
    (sort_by (fun r => - r_roundNumber r)
       (List.filter (fun r => (r_matchId r === m_id m) && (r_endedAt r === None) &&
                              (r_invalidatedAt r === None)) (db_rounds d))).

(** [recoverActiveRounds]: a match without an active round is logged and skipped; an
    exception of [handleExpiration] ends the recovery. *)
Fixpoint recoverRounds (clk : Clock) (now : timestamp) (l : list (uuid * uuid)) (p : Process)
  : option Process :=
  match l with
  | [] => Some p
  | (matchId, roundId) :: l' =>
      p' ← handleExpiration clk now matchId roundId p; recoverRounds clk now l' p'
  end.
Definition recoverActiveRounds (clk : Clock) (now : timestamp) (p : Process) : option Process :=
  let running := List.filter (fun m => existsb (fun s => m_status m === s) RUNNING_STATUSES)
                   (db_matches (ps_db p)) in
  recoverRounds clk now
    (omap (fun m => r ← recoveredRound (ps_db p) m; Some (m_id m, r_id r)) running) p.

(** [initializeResolutionRecovery] *)
Fixpoint recoverWindows (clk : Clock) (now : timestamp) (l : list (uuid * uuid)) (p : Process)
  : option Process :=
  match l with
  | [] => Some p
  | (matchId, windowId) :: l' =>
      p' ← handleResolution clk now matchId windowId p; recoverWindows clk now l' p'
  end.
Definition initializeResolutionRecovery (clk : Clock) (now : timestamp) (p : Process)
  : option Process :=
  recoverWindows clk now
    (map (fun w => (w_matchId w, w_id w))
       (List.filter (fun w => (w_invalidatedAt w === None) && (w_resolvedAt w === None))
          (db_scoringWindows (ps_db p)))) p.

(** ** The running process

    What one server process can do next: commit a round command and move the timer it
    moves, take a vote, fire a due timeout, recover, shut down; or find the database
    changed by another command or another process. *)
Inductive process_step : Process -> Process -> Prop :=
  | StepStart clk now net m i p t d' :
      startRound clk net m i (ps_db p) = Ok (t, d') ->
      process_step p (p <| ps_db := d' |> <| ps_expirations ::=
        scheduleExpiration now m (rs_id (tr_round t)) (rs_endsAt (tr_round t)) (serverNow clk) |>)
  | StepPause clk m i p t d' :
      pauseRound clk m i (ps_db p) = Ok (t, d') ->
      process_step p (p <| ps_db := d' |> <| ps_expirations ::= cancelExpiration m None |>)
  | StepResume clk now m i p t d' :
      resumeRound clk m i (ps_db p) = Ok (t, d') ->
      process_step p (p <| ps_db := d' |> <| ps_expirations ::=
        scheduleExpiration now m (rs_id (tr_round t)) (rs_endsAt (tr_round t)) (serverNow clk) |>)
  | StepVote clk now input p v d' :
      submitVote clk input (ps_db p) = Ok (v, d') ->
      process_step p (p <| ps_db := d' |> <| ps_resolutions ::=
        scheduleResolution now (vi_matchId input) (vs_windowId v) (vs_windowEndsAt v)
          (vs_serverNow v) |>)
  | StepExpirationTimeout clk now id x p :
      live (ps_expirations p) !! id = Some x -> to_at x <= now ->
      process_step p (onExpirationTimeout clk now (to_matchId x) (to_target x)
        (p <| ps_expirations ::= popTimer id |>))
  | StepResolutionTimeout clk now id x p :
      live (ps_resolutions p) !! id = Some x -> to_at x <= now ->
      process_step p (onResolutionTimeout clk now (to_matchId x) (to_target x)
        (p <| ps_resolutions ::= popTimer id |>))
  | StepRecoverRounds clk now p p' :
      recoverActiveRounds clk now p = Some p' -> process_step p p'
  | StepRecoverWindows clk now p p' :
      initializeResolutionRecovery clk now p = Some p' -> process_step p p'
  | StepShutdown p :
      process_step p (p <| ps_expirations ::= onModuleDestroy |>
                        <| ps_resolutions ::= onModuleDestroy |>)
  | StepDatabase p d' : process_step p (p <| ps_db := d' |>).

Inductive reachable : Process -> Prop :=
  | ReachStart d : reachable (mkProcess d idle idle)
  | ReachStep p p' : reachable p -> process_step p p' -> reachable p'.

(** ** The timers are exactly the entries *)

(** Every entry's timer is live and is the entry's own, every live timer has its entry,
    and a process that shut down has none. [key] is the field entries go by. *)
Definition timers_ok (key : Timeout -> uuid) (s : Scheduler) : Prop :=
  (forall k t id, entries s !! k = Some (t, id) ->
     exists x, live s !! id = Some x /\ to_target x = t /\ key x = k) /\
  (forall id x, live s !! id = Some x -> entries s !! key x = Some (to_target x, id)) /\
  (forall id x, live s !! id = Some x -> (id < nextTimer s)%N) /\
  (shuttingDown s = true -> live s = ∅).

Section TimersOk.
Context (key : Timeout -> uuid).

Lemma clearEntry_ok k t id s :
  timers_ok key s -> entries s !! k = Some (t, id) -> timers_ok key (clearEntry k id s).
Proof.
  intros (He & Hl & Hn & Hd) Hk; destruct (He _ _ _ Hk) as (x & Hx & Ht & Hkx).
  unfold clearEntry; split_and!; cbn.
  - intros k' t' id'; rewrite lookup_delete_Some; intros [Hne Hk'].
    destruct (He _ _ _ Hk') as (x' & Hx' & Ht' & Hkx'); exists x'; split_and!; auto.
    apply lookup_delete_Some; split; [intros <- | exact Hx'].
    rewrite Hx in Hx'; injection Hx' as <-; congruence.
  - intros id' x'; rewrite lookup_delete_Some; intros [Hne Hx'].
    apply lookup_delete_Some; split; [intros E | apply Hl, Hx'].
    specialize (Hl _ _ Hx'); rewrite <- E, Hk in Hl; congruence.
  - intros id' x'; rewrite lookup_delete_Some; intros [_ Hx']; eauto.
  - intros H; rewrite (Hd H); apply delete_empty.
Qed.

Lemma startTimer_ok now k m t delay s :
  timers_ok key s -> entries s !! k = None -> shuttingDown s = false ->
  (forall at_, key (mkTimeout at_ m t) = k) -> timers_ok key (startTimer now k m t delay s).
Proof.
  intros (He & Hl & Hn & Hd) Hk Hs Hkey; unfold startTimer; split_and!; cbn.
  - intros k' t' id'; rewrite lookup_insert_Some; intros [[<- [= <- <-]] | [Hne Hk']].
    + eexists; rewrite lookup_insert_eq; split_and!; [reflexivity | reflexivity | apply Hkey].
    + destruct (He _ _ _ Hk') as (x' & Hx' & Ht' & Hkx'); exists x'; split_and!; auto.
      rewrite lookup_insert_ne; [exact Hx' | specialize (Hn _ _ Hx'); lia].
  - intros id' x'; rewrite lookup_insert_Some; intros [[<- <-] | [Hne Hx']].
    + rewrite Hkey, lookup_insert_eq; reflexivity.
    + rewrite lookup_insert_ne; [apply Hl, Hx' | intros E; apply Hl in Hx'; congruence].
  - intros id' x'; rewrite lookup_insert_Some; intros [[<- _] | [_ Hx']]; [lia |].
    specialize (Hn _ _ Hx'); lia.
  - congruence.
Qed.

(** A timeout leaves the loop and its entry leaves the map. *)
Lemma fired_ok id x s :
  timers_ok key s -> live s !! id = Some x ->
  timers_ok key (popTimer id s <| entries ::= delete (key x) |>).
Proof. intros Hok Hx; apply (clearEntry_ok (key x) (to_target x) id); [exact Hok | apply Hok, Hx]. Qed.

Lemma onModuleDestroy_ok s :
  timers_ok key s -> timers_ok key (onModuleDestroy s) /\ live (onModuleDestroy s) = ∅.
Proof.
  intros (He & Hl & Hn & Hd).
  assert (Hlive : live (onModuleDestroy s) = ∅).
  { unfold onModuleDestroy; cbn; apply map_empty; intros id.
    assert (Hfold : forall y, map_fold (fun _ e acc => delete (snd e) acc) (live s) (entries s) !! id
              = Some y -> live s !! id = Some y /\
                forall k e, entries s !! k = Some e -> snd e <> id).
    { apply (map_fold_weak_ind (fun r m => forall y, r !! id = Some y ->
               live s !! id = Some y /\ forall k e, m !! k = Some e -> snd e <> id)).
      - intros y Hy; split; [exact Hy |]; intros k e; rewrite lookup_empty; discriminate.
      - intros k e m r Hk IH y; rewrite lookup_delete_Some; intros [Hne Hy]; apply IH in Hy as [Hy Hm].
        split; [exact Hy |]; intros k' e'; rewrite lookup_insert_Some.
        intros [[_ <-] | [_ Hk']]; [exact Hne | eapply Hm, Hk']. }
    destruct (map_fold _ _ _ !! id) as [y|] eqn:E; [exfalso | reflexivity].
    destruct (Hfold y eq_refl) as [Hy Hall]; eapply Hall; [apply Hl, Hy | reflexivity]. }
  split; [| exact Hlive]; split_and!.
  - intros k t id; cbn; rewrite lookup_empty; discriminate.
  - intros id x; rewrite Hlive, lookup_empty; discriminate.
  - intros id x; rewrite Hlive, lookup_empty; discriminate.
  - auto.
Qed.
End TimersOk.

Lemma cancelExpiration_ok m r s : timers_ok to_matchId s -> timers_ok to_matchId (cancelExpiration m r s).
Proof.
  intros Hok; unfold cancelExpiration; destruct (entries s !! m) as [[t id]|] eqn:E; [| exact Hok].
  case_match; [exact Hok | eapply clearEntry_ok; eauto].
Qed.

Lemma cancelExpiration_none m s : entries (cancelExpiration m None s) !! m = None.
Proof.
  unfold cancelExpiration; destruct (entries s !! m) as [[t id]|] eqn:E; [| exact E].
  apply lookup_delete_eq.
Qed.

Lemma cancelExpiration_shutdown m r s : shuttingDown (cancelExpiration m r s) = shuttingDown s.
Proof. unfold cancelExpiration; repeat case_match; reflexivity. Qed.

Lemma scheduleExpirationAfter_ok now m r delay s :
  timers_ok to_matchId s -> timers_ok to_matchId (scheduleExpirationAfter now m r delay s).
Proof.
  intros Hok; unfold scheduleExpirationAfter; destruct (shuttingDown s) eqn:Es; [exact Hok |].
  apply startTimer_ok; auto using cancelExpiration_ok, cancelExpiration_none.
  rewrite cancelExpiration_shutdown; exact Es.
Qed.

Lemma cancelResolution_ok w s : timers_ok to_target s -> timers_ok to_target (cancelResolution w s).
Proof.
  intros Hok; unfold cancelResolution; destruct (entries s !! w) as [[t id]|] eqn:E; [| exact Hok].
  eapply clearEntry_ok; eauto.
Qed.

Lemma cancelResolution_none w s :
  entries (cancelResolution w s) !! w = None /\ shuttingDown (cancelResolution w s) = shuttingDown s.
Proof.
  unfold cancelResolution; destruct (entries s !! w) as [[t id]|] eqn:E; [| auto].
  split; [apply lookup_delete_eq | reflexivity].
Qed.

Lemma scheduleResolutionAfter_ok now m w delay s :
  timers_ok to_target s -> timers_ok to_target (scheduleResolutionAfter now m w delay s).
Proof.
  intros Hok; unfold scheduleResolutionAfter; destruct (shuttingDown s) eqn:Es; [exact Hok |].
  destruct (cancelResolution_none w s) as [Hn Hs].
  apply startTimer_ok; auto using cancelResolution_ok; congruence.
Qed.
#[export] Hint Resolve cancelExpiration_ok scheduleExpirationAfter_ok cancelResolution_ok
  scheduleResolutionAfter_ok : tx.

Lemma expirationFired_ok id x s :
  timers_ok to_matchId s -> live s !! id = Some x ->
  timers_ok to_matchId (expirationFired (to_matchId x) (to_target x) (popTimer id s)).
Proof.
  intros Hok Hx; pose proof Hok as (_ & Hl & _); specialize (Hl _ _ Hx).
  unfold expirationFired; change (entries (popTimer id s)) with (entries s); rewrite Hl.
  rewrite bool_decide_true by reflexivity; exact (fired_ok to_matchId id x s Hok Hx).
Qed.

(** Both services' timers at once. *)
Definition process_ok (p : Process) : Prop :=
  timers_ok to_matchId (ps_expirations p) /\ timers_ok to_target (ps_resolutions p).

Lemma handleExpiration_ok clk now m r p p' :
  handleExpiration clk now m r p = Some p' -> process_ok p -> process_ok p'.
Proof.
  unfold handleExpiration, process_ok; intros H [He Hr]; repeat case_match; inv H; cbn; auto with tx.
Qed.

Lemma handleResolution_ok clk now m w p p' :
  handleResolution clk now m w p = Some p' -> process_ok p -> process_ok p'.
Proof.
  unfold handleResolution, process_ok; intros H [He Hr]; repeat case_match; inv H; cbn; auto with tx.
Qed.

Lemma recoverRounds_ok clk now l p p' :
  recoverRounds clk now l p = Some p' -> process_ok p -> process_ok p'.
Proof.
  revert p; induction l as [|[m r] l IH]; cbn; intros p H Hp; [inv H; exact Hp |].
  destruct (handleExpiration _ _ _ _ _) as [p1|] eqn:E; cbn in H; [| discriminate].
  eauto using handleExpiration_ok.
Qed.

Lemma recoverWindows_ok clk now l p p' :
  recoverWindows clk now l p = Some p' -> process_ok p -> process_ok p'.
Proof.
  revert p; induction l as [|[m w] l IH]; cbn; intros p H Hp; [inv H; exact Hp |].
  destruct (handleResolution _ _ _ _ _) as [p1|] eqn:E; cbn in H; [| discriminate].
  eauto using handleResolution_ok.
Qed.

Lemma onExpirationTimeout_ok clk now id x p :
  process_ok p -> live (ps_expirations p) !! id = Some x ->
  process_ok (onExpirationTimeout clk now (to_matchId x) (to_target x)
    (p <| ps_expirations ::= popTimer id |>)).
Proof.
  intros [He Hr] Hx; pose proof (expirationFired_ok _ _ _ He Hx) as Hf.
  unfold onExpirationTimeout; cbv zeta.
  destruct (handleExpiration _ _ _ _ _) as [p'|] eqn:E.
  - eapply handleExpiration_ok; [exact E | split; assumption].
  - case_match; split; cbn; auto with tx.
Qed.

Lemma onResolutionTimeout_ok clk now id x p :
  process_ok p -> live (ps_resolutions p) !! id = Some x ->
  process_ok (onResolutionTimeout clk now (to_matchId x) (to_target x)
    (p <| ps_resolutions ::= popTimer id |>)).
Proof.
  intros [He Hr] Hx; pose proof (fired_ok to_target _ _ _ Hr Hx) as Hf.
  unfold onResolutionTimeout; cbv zeta.
  destruct (handleResolution _ _ _ _ _) as [p'|] eqn:E.
  - eapply handleResolution_ok; [exact E | split; assumption].
  - case_match; split; cbn; auto with tx.
Qed.

Lemma process_step_ok p p' : process_step p p' -> process_ok p -> process_ok p'.
Proof.
  intros Hstep Hp; destruct Hstep;
    eauto using onExpirationTimeout_ok, onResolutionTimeout_ok, recoverRounds_ok, recoverWindows_ok;
    destruct Hp as [He Hr]; split; cbn; auto with tx;
    unfold scheduleExpiration, scheduleResolution; auto with tx.
  - apply onModuleDestroy_ok, He.
  - apply onModuleDestroy_ok, Hr.
Qed.

Lemma idle_ok key : timers_ok key idle.
Proof. split_and!; cbn; intros *; rewrite ?lookup_empty; try discriminate; auto. Qed.

Lemma reachable_ok p : reachable p -> process_ok p.
Proof. induction 1; [split; apply idle_ok | eapply process_step_ok; eauto]. Qed.

(** After the callback's head the match has no entry. *)
Lemma expirationFired_none id x s :
  timers_ok to_matchId s -> live s !! id = Some x ->
  entries (expirationFired (to_matchId x) (to_target x) (popTimer id s)) !! to_matchId x = None.
Proof.
  intros (_ & Hl & _) Hx; specialize (Hl _ _ Hx); unfold expirationFired.
  change (entries (popTimer id s)) with (entries s); rewrite Hl.
  rewrite bool_decide_true by reflexivity; apply lookup_delete_eq.
Qed.

Lemma expirationFired_shutdown m r s : shuttingDown (expirationFired m r s) = shuttingDown s.
Proof. unfold expirationFired; repeat case_match; reflexivity. Qed.

Lemma cancelExpiration_absent m r s : entries s !! m = None -> cancelExpiration m r s = s.
Proof. unfold cancelExpiration; intros ->; reflexivity. Qed.

(** Scheduling a match that has no entry starts one timeout. *)
Lemma scheduleExpirationAfter_starts now m r delay s :
  entries s !! m = None -> shuttingDown s = false ->
  live (scheduleExpirationAfter now m r delay s) !! nextTimer s =
    Some (mkTimeout (now + Z.max 0 (Z.min delay MAX_TIMEOUT_MS)) m r).
Proof.
  intros Hm Hs; unfold scheduleExpirationAfter; rewrite Hs, cancelExpiration_absent by exact Hm.
  apply lookup_insert_eq.
Qed.

(** ** Properties *)

(** C8: no timer is leaked and none is lost track of. In every state a server process
    can reach, the entries of both timer maps and the timeouts the event loop holds
    correspond one to one, so a match never has two pending expirations and a window
    never two pending resolutions; and a process that shut down holds no timeout,
    whatever commands are still committed afterwards. *)
Theorem timers_never_leak p (H : reachable p) :
  timers_ok to_matchId (ps_expirations p) /\ timers_ok to_target (ps_resolutions p).
Proof. exact (reachable_ok p H). Qed.

(** an expiration is never forgotten. When the timeout of a round fires in a process
    that is not shutting down and the round is still the one its match is running
    afterwards, the process holds a new timeout for that round, due when the round's
    remaining time is over by the database's clock, or a second later if the decision
    failed, and in any case within the platform's limit. *)
Theorem expiration_never_forgotten clk now id x p
  (Hp : process_ok p) (Hup : shuttingDown (ps_expirations p) = false)
  (Hx : live (ps_expirations p) !! id = Some x) :
  let p' := onExpirationTimeout clk now (to_matchId x) (to_target x)
              (p <| ps_expirations ::= popTimer id |>) in
  match evaluateExpiration clk (to_matchId x) (to_target x) (ps_db p) with
  | Ok (ExpirationPending delay, _) => exists id', 
      live (ps_expirations p') !! id' =
        Some (mkTimeout (now + Z.min delay MAX_TIMEOUT_MS) (to_matchId x) (to_target x))
  | Ok (_, d') => ps_db p' = d' /\ entries (ps_expirations p') !! to_matchId x = None
  | Err MatchLifecycleTargetMissing => entries (ps_expirations p') !! to_matchId x = None
  | Err _ => exists id', live (ps_expirations p') !! id' =
      Some (mkTimeout (now + EXPIRATION_RETRY_DELAY_MS) (to_matchId x) (to_target x))
  end.
Proof.
  destruct Hp as [He _]; pose proof (expirationFired_none _ _ _ He Hx) as Hnone.
  pose proof (expirationFired_shutdown (to_matchId x) (to_target x)
    (popTimer id (ps_expirations p))) as Hs; change (shuttingDown (popTimer _ _)) with
    (shuttingDown (ps_expirations p)) in Hs; rewrite Hup in Hs.
  pose proof (fun delay => scheduleExpirationAfter_starts now _ (to_target x) delay _ Hnone Hs) as Hstart.
  pose proof (cancelExpiration_absent _ (Some (to_target x)) _ Hnone) as Hcancel.
  unfold onExpirationTimeout, handleExpiration; cbn.
  destruct (evaluateExpiration _ _ _ (ps_db p)) as [[[| delay | t] d'] | e] eqn:E; cbn;
    rewrite ?Hcancel; auto.
  - apply evaluateExpiration_ok in E as (mr & _ & _ & rd & _ & _ & _ & Hpos).
    eexists; rewrite Hstart; do 2 f_equal; unfold MAX_TIMEOUT_MS; lia.
  - destruct e; cbn; rewrite ?Hs, ?Hcancel; cbn; auto; eexists; apply Hstart.
Qed.

(** ** Witnesses

    A process commits the start of match 10 at 1000 (its round is 1000 and ends at
    121000); the timeout of that round fires early, at 100000. *)
Definition startedDB : DB := after (startRound (at_time 1000) everybody 10 supervisor) waitingDB.
Definition startedProcess : Process :=
  mkProcess startedDB (scheduleExpiration 1000 10 1000 121000 1000 idle) idle.

Lemma startedProcess_reachable : reachable startedProcess.
Proof.
  eapply ReachStep; [apply (ReachStart waitingDB) |].
  refine (StepStart (at_time 1000) 1000 everybody 10 supervisor (mkProcess waitingDB idle idle)
    (mkRoundTransition 10 "M" (mkRoundState 1000 1 REGULATION 0 1000 121000 None None None)
       ROUND_1_RUNNING) _ _).
  vm_compute; reflexivity.
Defined.

Lemma timers_never_leak_witness :
  live (ps_expirations startedProcess) !! 0%N = Some (mkTimeout 121000 10 1000) /\
  entries (ps_expirations startedProcess) !! 10%N = Some (1000%N, 0%N).
Proof.
  destruct (timers_never_leak startedProcess startedProcess_reachable) as [(_ & Hl & _) _].
  assert (Hx : live (ps_expirations startedProcess) !! 0%N = Some (mkTimeout 121000 10 1000))
    by (vm_compute; reflexivity).
  split; [exact Hx | exact (Hl _ _ Hx)].
Defined.

Lemma expiration_never_forgotten_witness :
  exists id', live (ps_expirations (onExpirationTimeout (at_time 100000) 100000 10 1000
      (startedProcess <| ps_expirations ::= popTimer 0 |>))) !! id' =
    Some (mkTimeout 121000 10 1000).
Proof.
  exact (expiration_never_forgotten (at_time 100000) 100000 0 (mkTimeout 121000 10 1000) startedProcess
    (reachable_ok _ startedProcess_reachable) eq_refl eq_refl).
Defined.
