(* ===== verification/BracketOutcome.v ===== *)
(** * Bracket outcomes

    [brackets/bracket-outcome.service.ts]: the winner of a finished match is decided for
    its bracket fixture and propagated into the slots it feeds; a decision can be
    retracted until the next match is prepared; an administrator decides ties and
    withdrawals, once per idempotency key. *)
From S2P Require Import Prelude Schema Database Rules Authorization Scenario.

(** ** Data *)

Inductive DecisionType : Type := RULES | ADMIN_TIEBREAK | WITHDRAWAL_OR_INJURY.
#[export] Instance DecisionType_eq_dec : EqDecision DecisionType. Proof. solve_decision. Defined.

(** The [decision] object of [decide]; the fields it may lack are options. *)
Record Decision : Type := mkDecision {
  dn_actorId : option uuid; dn_decisionType : DecisionType; dn_reason : option string;
  dn_scoreSnapshot : option json }.

Definition decisionTypeName (t : DecisionType) : string :=
  match t with
  | RULES => "RULES" | ADMIN_TIEBREAK => "ADMIN_TIEBREAK"
  | WITHDRAWAL_OR_INJURY => "WITHDRAWAL_OR_INJURY"
  end.

Definition decisionFields (dn : Decision) : list (string * json) :=
  match dn_actorId dn with Some a => [("actorId"%string, JId a)] | None => [] end ++
  [("decisionType"%string, JStr (decisionTypeName (dn_decisionType dn)))] ++
  match dn_reason dn with Some r => [("reason"%string, JStr r)] | None => [] end ++
  match dn_scoreSnapshot dn with Some s => [("scoreSnapshot"%string, s)] | None => [] end.

(** [(fixture.winnerDecision as { scoreSnapshot?: unknown } | null)?.scoreSnapshot ?? null] *)
Definition priorSnapshot (winnerDecision : option json) : json :=
  match winnerDecision with
  | Some (JObj fields) =>
      match find_first (fun f => fst f === "scoreSnapshot"%string) fields with
      | Some (_, v) => v
      | None => JNull
      end
  | _ => JNull
  end.

(** What [processFinishedMatch] returns. *)
Inductive FinishedOutcome : Type :=
  | OutcomeNone
  | OutcomeSnapshot (snapshot : json) (winnerColor : option AthleteColor)
  | OutcomeDecided (response : DecisionResponse).

(** ** Reading *)

Definition matchOfFixture (fixtureId : uuid) (d : DB) : option MatchRow :=
  find_first (fun m => m_bracketFixtureId m === Some fixtureId) (db_matches d).

Definition slotsOf (fixtureId : uuid) (s : SlotRow) : bool := sl_fixtureId s === fixtureId.
Definition fedBy (fixtureId : uuid) (s : SlotRow) : bool := sl_sourceFixtureId s === Some fixtureId.
(** A decided fixture, or one waiting for a tie to be broken. *)
Definition hasOutcome (f : FixtureRow) : bool :=
  negb (fx_winnerEntrantId f === None) || (fx_status f === AWAITING_WINNER).
Definition resolvedSlot (s : SlotRow) : bool := negb (sl_resolvedEntrantId s === None).

(** [lockFixtureAndDownstream]: the rows it locks, in id order. *)
Definition lockFixtureAndDownstream (fixtureId : uuid) : DbM (list uuid) :=
  downstream ← find_many bracketSlots (fedBy fixtureId);
  mret (sort_by Z.of_N (fixtureId :: map sl_fixtureId downstream)).

(** [totals[color]]: the effective events of the match whose athlete has the colour. *)
Definition effectiveColorTotal (matchId : uuid) (d : DB) (c : AthleteColor) : Z :=
  sum_by e_value (List.filter (fun e => (e_matchId e === matchId) && (e_revertedAt e === None) &&
    existsb (fun a => (ma_id a === e_athleteId e) && (ma_color a === c)) (db_matchAthletes d))
    (db_scoreEvents d)).

Definition scoreSnapshot (evaluatedAt : timestamp) (totals : AthleteColor -> Z) (eventCount : Z) : json :=
  JObj [("effectiveTotals", JObj [("RED", JNum (totals RED)); ("BLUE", JNum (totals BLUE))]);
        ("evaluatedAt", JTime evaluatedAt); ("eventCount", JNum eventCount)]%string.

(** ** Propagation *)

(** The body of [decide]'s loop over the slots the fixture feeds. *)
Definition advanceInto (entrantId : uuid) (slot : SlotRow) : DbM unit :=
  _ ← throw_if (resolvedSlot slot && (sl_resolvedEntrantId slot !== Some entrantId))
        (Conflict "BRACKET_WINNER_DECISION_CONFLICT");
  _ ← when (negb (resolvedSlot slot))
        (_ ← update bracketSlots (fun s => sl_id s === sl_id slot)
               (fun s => s <| sl_resolvedEntrantId := Some entrantId |>); mret tt);
  slots ← find_many bracketSlots (slotsOf (sl_fixtureId slot));
  when (forallb resolvedSlot slots)
    (_ ← update_many bracketFixtures
           (fun f => (fx_id f === sl_fixtureId slot) && (fx_status f === PENDING_PARTICIPANTS))
           (fun f => f <| fx_status := FIXTURE_READY |>); mret tt).

(** The last round's winner is the champion. *)
Definition completeBracket (clk : Clock) (bracket : BracketRow) (entrantId : uuid) : DbM unit :=
  _ ← update tournamentBrackets (fun b => br_id b === br_id bracket)
        (fun b => b <| br_status := BRACKET_STATUS_COMPLETED |>
                    <| br_completedAt := Some (jsNow clk 1) |>
                    <| br_championEntrantId := Some entrantId |>);
  _ ← create auditLogs (fun id => mkAuditRow id None None None None BRACKET_COMPLETED
        (JObj [("bracketId", JId (br_id bracket)); ("tournamentId", JId (br_tournamentId bracket));
               ("weightClassId", JId (br_weightClassId bracket));
               ("championEntrantId", JId entrantId)]%string));
  mret tt.

(** [decide] *)
Definition decide (clk : Clock) (fixtureId entrantId : uuid) (decision : Decision)
    : DbM DecisionResponse :=
  _ ← lockFixtureAndDownstream fixtureId;
  fixture ← find_one_or_throw bracketFixtures (fun f => fx_id f === fixtureId);
  bracket ← find_one_or_throw tournamentBrackets (fun b => br_id b === fx_bracketId fixture);
  m ← gets (matchOfFixture fixtureId);
  let response := mkDecisionResponse fixtureId entrantId (fx_bracketId fixture) in
  match fx_winnerEntrantId fixture with
  | Some w =>
      _ ← throw_if (w !== entrantId) (Conflict "BRACKET_WINNER_DECISION_CONFLICT");
      mret response
  | None =>
      _ ← update bracketFixtures (fun f => fx_id f === fixtureId)
            (fun f => f <| fx_winnerEntrantId := Some entrantId |> <| fx_status := FIXTURE_COMPLETED |>
                        <| fx_winnerDecision := Some (JObj (decisionFields decision)) |>);
      downstream ← find_many bracketSlots (fedBy fixtureId);
      _ ← for_each (advanceInto entrantId) downstream;
      _ ← when (fx_roundNumber fixture =? br_roundCount bracket)
            (completeBracket clk bracket entrantId);
      _ ← create auditLogs (fun id => mkAuditRow id (option_map m_id m) (dn_actorId decision) None None
            (if (dn_decisionType decision === ADMIN_TIEBREAK) ||
                (dn_decisionType decision === WITHDRAWAL_OR_INJURY)
             then BRACKET_WINNER_MANUALLY_DECIDED else BRACKET_WINNER_ADVANCED)
            (JObj ([("fixtureId", JId fixtureId); ("entrantId", JId entrantId)]%string ++
                   decisionFields decision)));
      mret response
  end.

(** ** Finished matches *)

(** The fixture part of [processFinishedMatch], from the winning colour on. *)
Definition decideFinished (clk : Clock) (m : MatchRow) (fixture : FixtureRow) (snapshot : json)
    (winnerColor : option AthleteColor) : DbM FinishedOutcome :=
  slots ← find_many bracketSlots (slotsOf (fx_id fixture));
  if hasOutcome fixture then mret (OutcomeSnapshot snapshot winnerColor) else
  match winnerColor with
  | None =>
      _ ← update bracketFixtures (fun f => fx_id f === fx_id fixture)
            (fun f => f <| fx_status := AWAITING_WINNER |>
               <| fx_winnerDecision := Some (JObj [("decisionType", JStr "RULES_TIE");
                                                   ("scoreSnapshot", snapshot)]%string) |>);
      mret (OutcomeSnapshot snapshot None)
  | Some color =>
      athletes ← find_many matchAthletes (fun a => ma_matchId a === m_id m);
      entrants ← find_many bracketEntrants (fun e =>
        existsb (fun s => sl_resolvedEntrantId s === Some (en_id e)) slots);
      let winnerAthleteId :=
        a ← find_first (fun a => ma_color a === color) athletes; ma_athleteId a in
      let winner := find_first (fun s => resolvedSlot s && negb (winnerAthleteId === None) &&
        existsb (fun e => (sl_resolvedEntrantId s === Some (en_id e)) &&
                          (winnerAthleteId === Some (en_athleteId e))) entrants) slots in
      match (s ← winner; sl_resolvedEntrantId s) with
      | None => throw (Conflict "BRACKET_WINNER_DECISION_INVALID")
      | Some entrantId =>
          r ← decide clk (fx_id fixture) entrantId (mkDecision None RULES None (Some snapshot));
          mret (OutcomeDecided r)
      end
  end.

(** [processFinishedMatch] *)
Definition processFinishedMatch (clk : Clock) (matchId : uuid)
    (publishedWinnerColor : option AthleteColor) : DbM FinishedOutcome :=
  m ← find_one_or_throw matches (fun m => m_id m === matchId);
  tn ← find_one_or_throw tournaments (fun tn => tn_id tn === m_tournamentId m);
  if m_status m !== FINISHED then mret OutcomeNone else
  totals ← gets (effectiveColorTotal matchId);
  events ← find_many scoreEvents (fun e => (e_matchId e === matchId) && (e_revertedAt e === None));
  let snapshot := scoreSnapshot (jsNow clk 0) totals (Z.of_nat (length events)) in
  winnerColor ← match publishedWinnerColor with
    | Some c => mret (Some c)
    | None => rules ← resolveRules (tn_sportGroupCode tn); mret (determineWinner rules totals)
    end;
  match m_bracketFixtureId m with
  | None => mret (OutcomeSnapshot snapshot winnerColor)
  | Some fixtureId =>
      _ ← lockFixtureAndDownstream fixtureId;
      fixture ← find_one_or_throw bracketFixtures (fun f => fx_id f === fixtureId);
      decideFinished clk m fixture snapshot winnerColor
  end.

(** ** Retraction *)

(** The body of [retractFinishedMatch]'s loop over the slots the fixture fed. *)
Definition retractFrom (slot : SlotRow) : DbM unit :=
  _ ← update bracketSlots (fun s => sl_id s === sl_id slot) (fun s => s <| sl_resolvedEntrantId := None |>);
  slots ← find_many bracketSlots (slotsOf (sl_fixtureId slot));
  when (negb (forallb resolvedSlot slots))
    (_ ← update bracketFixtures (fun f => fx_id f === sl_fixtureId slot)
           (fun f => f <| fx_status := PENDING_PARTICIPANTS |>); mret tt).

Record RetractActor : Type := mkRetractActor {
  ra_sessionId : option uuid; ra_adminUserId : option uuid; ra_reason : string }.

(** [retractFinishedMatch] *)
Definition retractFinishedMatch (matchId : uuid) (actor : RetractActor) : DbM unit :=
  m ← find_one_or_throw matches (fun m => m_id m === matchId);
  match m_bracketFixtureId m with
  | None => mret tt
  | Some fixtureId =>
      _ ← lockFixtureAndDownstream fixtureId;
      fixture ← find_one_or_throw bracketFixtures (fun f => fx_id f === fixtureId);
      bracket ← find_one_or_throw tournamentBrackets (fun b => br_id b === fx_bracketId fixture);
      if negb (hasOutcome fixture) then mret tt else
      downstreamSlots ← find_many bracketSlots (fedBy fixtureId);
      prepared ← gets (fun d => existsb (fun s => negb (matchOfFixture (sl_fixtureId s) d === None))
                                        downstreamSlots);
      _ ← throw_if prepared BracketProgressionLocked;
      _ ← update bracketFixtures (fun f => fx_id f === fixtureId)
            (fun f => f <| fx_winnerEntrantId := None |> <| fx_winnerDecision := Some JNull |>
                        <| fx_status := MATCH_PREPARED |>);
      _ ← for_each retractFrom downstreamSlots;
      _ ← when (fx_roundNumber fixture =? br_roundCount bracket)
            (_ ← update tournamentBrackets (fun b => br_id b === br_id bracket)
                   (fun b => b <| br_status := BRACKET_ACTIVE |> <| br_completedAt := None |>
                               <| br_championEntrantId := None |>); mret tt);
      _ ← create auditLogs (fun id => mkAuditRow id (Some matchId) (ra_adminUserId actor)
            (ra_sessionId actor) None BRACKET_WINNER_RETRACTED
            (JObj [("action", JStr (ra_reason actor)); ("fixtureId", JId fixtureId);
                   ("previousState", JObj [("status", JFixtureStatus (fx_status fixture));
                      ("winnerEntrantId", jopt JId (fx_winnerEntrantId fixture));
                      ("winnerDecision", jopt (fun j => j) (fx_winnerDecision fixture))]);
                   ("nextState", JObj [("status", JFixtureStatus MATCH_PREPARED);
                      ("winnerEntrantId", JNull)])]%string));
      mret tt
  end.

(** ** Manual decisions *)

Section Manual.
(** [createHash('sha256').update(JSON.stringify(value)).digest('hex')] of node:crypto. *)
Context (sha256 : json -> string).

(** [manualDecisionFingerprint] *)
Definition manualDecisionFingerprint (fixtureId entrantId : uuid) (reason : string)
    (decisionType : DecisionType) : string :=
  sha256 (JObj [("fixtureId", JId fixtureId); ("entrantId", JId entrantId);
                ("reason", JStr (trim reason));
                ("decisionType", JStr (decisionTypeName decisionType))]%string).

Definition isTieDecision (decisionType : DecisionType) (m : option MatchRow) (f : FixtureRow) : bool :=
  (decisionType === ADMIN_TIEBREAK) && (option_map m_status m === Some FINISHED) &&
  (fx_status f === AWAITING_WINNER).
Definition isWithdrawalDecision (decisionType : DecisionType) (m : option MatchRow) (f : FixtureRow)
  : bool :=
  (decisionType === WITHDRAWAL_OR_INJURY) && (m === None) && (fx_status f === FIXTURE_READY).

(** [manuallyDecide] *)
Definition manuallyDecide (clk : Clock) (fixtureId entrantId actorId : uuid) (reason : string)
    (idempotencyKey : string) (decisionType : DecisionType) : DbM DecisionResponse :=
  let requestFingerprint := manualDecisionFingerprint fixtureId entrantId reason decisionType in
  _ ← lockFixtureAndDownstream fixtureId;
  existing ← find_one bracketWinnerDecisionIdempotency (fun k => wk_key k === idempotencyKey);
  match existing with
  | Some k =>
      _ ← throw_if (wk_requestFingerprint k !== requestFingerprint) (Conflict "IDEMPOTENCY_KEY_CONFLICT");
      mret (wk_response k)
  | None =>
      fixture ← find_one_or_throw bracketFixtures (fun f => fx_id f === fixtureId);
      m ← gets (matchOfFixture fixtureId);
      slots ← find_many bracketSlots (slotsOf fixtureId);
      _ ← throw_if (negb (isTieDecision decisionType m fixture) &&
                    negb (isWithdrawalDecision decisionType m fixture))
            (Conflict "BRACKET_WINNER_DECISION_INELIGIBLE");
      let participantIds := omap sl_resolvedEntrantId slots in
      _ ← throw_if (negb (bool_decide (length participantIds = 2%nat)) ||
                    negb (bool_decide (length (nodup N.eq_dec participantIds) = 2%nat)))
            (Conflict "BRACKET_FIXTURE_PARTICIPANTS_UNRESOLVED");
      _ ← throw_if (negb (existsb (fun i => i === entrantId) participantIds))
            (Conflict "BRACKET_WINNER_DECISION_INVALID");
      result ← decide clk fixtureId entrantId
        (mkDecision (Some actorId) decisionType (Some reason)
           (if isTieDecision decisionType m fixture then Some (priorSnapshot (fx_winnerDecision fixture))
            else None));
      _ ← create bracketWinnerDecisionIdempotency
            (fun _ => mkWinnerDecisionKeyRow idempotencyKey fixtureId entrantId requestFingerprint result);
      mret result
  end.
End Manual.

(** ** Facts *)

Definition outcomeTables : list table :=
  [bracketFixtures; bracketSlots; tournamentBrackets; auditLogs].

Lemma respects_lockFixtureAndDownstream R `{!PreOrder R} f : respects R (lockFixtureAndDownstream f).
Proof. unfold lockFixtureAndDownstream; respects_auto. Qed.
#[export] Hint Resolve respects_lockFixtureAndDownstream : tx.

Lemma touches_decide clk f e dn : respects (touches outcomeTables) (decide clk f e dn).
Proof. unfold decide, advanceInto, completeBracket; respects_auto. Qed.
#[export] Hint Resolve touches_decide : tx.

Lemma touches_processFinishedMatch clk m c :
  respects (touches outcomeTables) (processFinishedMatch clk m c).
Proof. unfold processFinishedMatch, decideFinished; respects_auto. Qed.

Lemma touches_retractFinishedMatch m a : respects (touches outcomeTables) (retractFinishedMatch m a).
Proof. unfold retractFinishedMatch, retractFrom; respects_auto. Qed.

Definition fillSlot (v : option uuid) (s : SlotRow) : SlotRow := s <| sl_resolvedEntrantId := v |>.

Lemma advanceInto_ok e s d u d' :
  advanceInto e s d = Ok (u, d') ->
  (sl_resolvedEntrantId s = None \/ sl_resolvedEntrantId s = Some e) /\
  db_bracketSlots d' = map_where (fun x => (sl_id x === sl_id s) && negb (resolvedSlot s))
    (fillSlot (Some e)) (db_bracketSlots d) /\
  db_bracketFixtures d' = map_where (fun f =>
      forallb resolvedSlot (List.filter (slotsOf (sl_fixtureId s)) (db_bracketSlots d')) &&
      ((fx_id f === sl_fixtureId s) && (fx_status f === PENDING_PARTICIPANTS)))
    (fun f => f <| fx_status := FIXTURE_READY |>) (db_bracketFixtures d) /\
  touches [bracketSlots; bracketFixtures] d d'.
Proof.
  intros H.
  assert (Ht : touches [bracketSlots; bracketFixtures] d d').
  { assert (Hr : respects (touches [bracketSlots; bracketFixtures]) (advanceInto e s))
      by (unfold advanceInto; respects_auto); exact (Hr _ _ _ H). }
  unfold advanceInto in H; run H.
  rewrite map_where_guard; split; [| split; [| split; [| exact Ht]]].
  - destruct (sl_resolvedEntrantId s) as [w|] eqn:E; [right | left; reflexivity].
    unfold resolvedSlot in *; rewrite E in *; cbn in *; to_prop; congruence.
  - rewrite (map_where_eq _ (fun x => negb (resolvedSlot s) && (sl_id x === sl_id s)))
      by (intros; apply andb_comm); rewrite map_where_guard.
    unfold when in *; case_match; run H; case_match; run Hx; reflexivity.
  - unfold when in *; destruct (forallb _ _) eqn:Ef in H; run H.
    + change (forallb resolvedSlot (List.filter (slotsOf (sl_fixtureId s)) (db_bracketSlots s0)) = true) in Ef.
      change (db_bracketSlots (put _ _ s0)) with (db_bracketSlots s0); rewrite Ef.
      case_match; run Hx; reflexivity.
    + change (forallb resolvedSlot (List.filter (slotsOf (sl_fixtureId s)) (db_bracketSlots d')) = false) in Ef.
      rewrite Ef; case_match; run Hx; reflexivity.
Qed.

(** A fixture whose slots are all resolved no longer waits for participants. *)
Definition noneWaiting (d : DB) (fixtureId : uuid) : Prop :=
  forallb resolvedSlot (List.filter (slotsOf fixtureId) (db_bracketSlots d)) = true ->
  forall f, In f (db_bracketFixtures d) -> fx_id f = fixtureId -> fx_status f <> PENDING_PARTICIPANTS.

(** Fixtures only move from waiting to ready. *)
Definition readied (f f' : FixtureRow) : Prop :=
  f' = f \/ (fx_status f = PENDING_PARTICIPANTS /\ f' = f <| fx_status := FIXTURE_READY |>).

Lemma readied_trans l1 l2 l3 : Forall2 readied l1 l2 -> Forall2 readied l2 l3 -> Forall2 readied l1 l3.
Proof.
  intros H; revert l3; induction H as [|x y l1 l2 Hxy _ IH]; intros l3 H3; inv H3; constructor; auto.
  match goal with Hyz : readied _ _ |- _ => destruct Hyz as [-> | [Hs' ->]] end;
    destruct Hxy as [-> | [Hs ->]]; unfold readied; auto; discriminate.
Qed.

Lemma map_where_readied p l :
  (forall f, p f = true -> fx_status f = PENDING_PARTICIPANTS) ->
  Forall2 readied l (map_where p (fun f => f <| fx_status := FIXTURE_READY |>) l).
Proof.
  intros Hp; unfold map_where; induction l as [|f l IH]; cbn; constructor; auto.
  unfold readied; destruct (p f) eqn:E; auto.
Qed.

Lemma readied_in l l' f' : Forall2 readied l l' -> In f' l' -> exists f, In f l /\ readied f f'.
Proof.
  induction 1 as [|x y l l' Hxy _ IH]; [intros [] |]; intros [<- | Hin]; [eexists; cbn; eauto |].
  destruct (IH Hin) as (f & ? & ?); exists f; cbn; auto.
Qed.

(** The snapshot of downstream slots the loop walks over still describes the store. *)
Definition snapshotOf (e : uuid) (l : list SlotRow) (d : DB) : Prop :=
  forall s x, In s l -> In x (db_bracketSlots d) -> sl_id x = sl_id s ->
    sl_fixtureId x = sl_fixtureId s /\
    (sl_resolvedEntrantId x = sl_resolvedEntrantId s \/ sl_resolvedEntrantId x = Some e).

Lemma advance_step e s l d u d' :
  advanceInto e s d = Ok (u, d') -> snapshotOf e (s :: l) d ->
  snapshotOf e l d' /\
  db_bracketSlots d' = map_where (fun x => sl_id x === sl_id s) (fillSlot (Some e)) (db_bracketSlots d) /\
  Forall2 readied (db_bracketFixtures d) (db_bracketFixtures d') /\ noneWaiting d' (sl_fixtureId s).
Proof.
  intros H Hsnap; apply advanceInto_ok in H as (Hs & Hslots & Hfix & _).
  assert (Hslots' : db_bracketSlots d' =
    map_where (fun x => sl_id x === sl_id s) (fillSlot (Some e)) (db_bracketSlots d)).
  { rewrite Hslots; unfold map_where; apply map_ext_in; intros x Hx.
    destruct (sl_id x === sl_id s) eqn:Ex; cbn; [| reflexivity]; to_prop.
    destruct (Hsnap s x (or_introl eq_refl) Hx Ex) as [_ Hr]; unfold resolvedSlot.
    destruct Hs as [-> | Hs]; [reflexivity |]; rewrite Hs in *; cbn.
    destruct x; unfold fillSlot; cbn in *; destruct Hr as [-> | ->]; reflexivity. }
  split_and!; [| exact Hslots' | |].
  - intros s' x' Hs' Hx' Hid; rewrite Hslots' in Hx'; apply in_map_where in Hx' as (x & Hx & ->).
    destruct (sl_id x === sl_id s); cbn in *; destruct (Hsnap s' x) as [? ?]; cbn; auto.
  - rewrite Hfix; apply map_where_readied; intros f Hf; to_prop; assumption.
  - intros Hall f Hf Hid; rewrite Hfix in Hf; rewrite Hall in Hf; apply in_map_where in Hf as (f0 & _ & ->).
    cbn in *; destruct ((fx_id f0 === _) && _) eqn:E; [discriminate |]; intros Hp.
    rewrite !bool_decide_true in E by auto; discriminate.
Qed.

Lemma advance_loop_ok e l d u d' :
  for_each (advanceInto e) l d = Ok (u, d') -> snapshotOf e l d ->
  db_bracketSlots d' = map_where (fun x => existsb (fun s => sl_id x === sl_id s) l)
    (fillSlot (Some e)) (db_bracketSlots d) /\
  Forall2 readied (db_bracketFixtures d) (db_bracketFixtures d') /\
  (forall s, In s l -> noneWaiting d' (sl_fixtureId s)).
Proof.
  revert d; induction l as [|s l IH]; cbn; intros d H Hsnap.
  { run H; split_and!; [rewrite map_where_nil; auto | | intros ? []].
    apply Forall2_diag || (induction (db_bracketFixtures _); constructor; unfold readied; auto). }
  apply bind_ok in H as (u1 & d1 & H1 & H).
  destruct (advance_step _ _ _ _ _ _ H1 Hsnap) as (Hsnap1 & Hsl1 & Hfx1 & Hw1).
  destruct (IH _ H Hsnap1) as (Hsl & Hfx & Hw).
  split_and!; [| eauto using readied_trans |].
  - rewrite Hsl, Hsl1; unfold map_where; rewrite map_map; apply map_ext; intros x.
    destruct (sl_id x === sl_id s) eqn:E; cbn; [| reflexivity].
    destruct (existsb _ l); reflexivity.
  - intros s' [<- | Hs']; [| auto].
    destruct (existsb (fun t => sl_fixtureId t === sl_fixtureId s) l) eqn:Eany.
    { apply existsb_exists in Eany as (t & Ht & Eq); to_prop; rewrite <- Eq; auto. }
    assert (Hsame : List.filter (slotsOf (sl_fixtureId s)) (db_bracketSlots d') =
                    List.filter (slotsOf (sl_fixtureId s)) (db_bracketSlots d1)).
    { rewrite Hsl, filter_map_where_comm by reflexivity; apply map_where_nil; intros x Hx.
      apply List.filter_In in Hx as [Hx Hf]; unfold slotsOf in Hf; to_prop.
      apply not_true_iff_false; intros Ex; apply existsb_exists in Ex as (t & Ht & Eq); to_prop.
      destruct (Hsnap1 t x Ht Hx Eq) as [Efx _]; rewrite <- not_true_iff_false in Eany.
      apply Eany, existsb_exists; exists t; split; [exact Ht | apply bool_decide_eq_true; congruence]. }
    intros Hall f' Hf' Hid; rewrite Hsame in Hall.
    destruct (readied_in _ _ _ Hfx Hf') as (f & Hf & [-> | [_ ->]]); [| discriminate].
    exact (Hw1 Hall f Hf Hid).
Qed.

Lemma slot_unique d x y :
  wf d -> In x (db_bracketSlots d) -> In y (db_bracketSlots d) -> sl_id x = sl_id y -> x = y.
Proof. intros Hwf Hx Hy E; apply (wf_id bracketSlots d x y (sl_id x)); cbn; congruence. Qed.

(** The rows an update by the ids of a selection reaches are the selection. *)
Lemma ids_of_selection d p g :
  wf d ->
  map_where (fun x => existsb (fun s => sl_id x === sl_id s) (List.filter p (db_bracketSlots d))) g
    (db_bracketSlots d) = map_where p g (db_bracketSlots d).
Proof.
  intros Hwf; apply map_where_eq; intros x Hx; apply eq_true_iff_eq; rewrite existsb_exists; split.
  - intros (s & Hs & E); apply List.filter_In in Hs as [Hs Hp]; to_prop.
    rewrite (slot_unique d x s); auto.
  - intros Hp; exists x; split; [apply List.filter_In; auto | apply bool_decide_eq_true; reflexivity].
Qed.

Lemma readied_in' l l' f : Forall2 readied l l' -> In f l -> exists f', In f' l' /\ readied f f'.
Proof.
  induction 1 as [|x y l l' Hxy _ IH]; [intros [] |]; intros [<- | Hin]; [eexists; cbn; eauto |].
  destruct (IH Hin) as (f' & ? & ?); exists f'; cbn; auto.
Qed.

Lemma find_bracket_map d b i g :
  find_first (fun x => br_id x === i) (db_tournamentBrackets d) = Some b -> 
  (forall x, br_id (g x) = br_id x) ->
  find_first (fun x => br_id x === i)
    (map_where (fun x => br_id x === br_id b) g (db_tournamentBrackets d)) = Some (g b).
Proof.
  intros Hb Hg; rewrite find_first_map_where by (intros; rewrite Hg; reflexivity).
  rewrite Hb; cbn; rewrite bool_decide_true; reflexivity.
Qed.

Definition decidedFixture (fid e : uuid) (dn : Decision) (l : list FixtureRow) : list FixtureRow :=
  map_where (fun f => fx_id f === fid) (fun f => f <| fx_winnerEntrantId := Some e |>
    <| fx_status := FIXTURE_COMPLETED |> <| fx_winnerDecision := Some (JObj (decisionFields dn)) |>) l.

Lemma touches_advance_loop e l d u d' :
  for_each (advanceInto e) l d = Ok (u, d') -> touches [bracketSlots; bracketFixtures] d d'.
Proof.
  assert (Hr : respects (touches [bracketSlots; bracketFixtures]) (for_each (advanceInto e) l))
    by (unfold advanceInto; respects_auto); apply Hr.
Qed.

Definition unreadied (fids : list uuid) (l : list FixtureRow) : list FixtureRow :=
  map_where (fun f => existsb (fun i => fx_id f === i) fids)
    (fun f => f <| fx_status := PENDING_PARTICIPANTS |>) l.

(** Advancing readies none but the fixtures of the slots. *)
Lemma advance_loop_unreadied e l fids d u d' : (forall s, In s l -> In (sl_fixtureId s) fids) ->
  for_each (advanceInto e) l d = Ok (u, d') -> unreadied fids (db_bracketFixtures d') = unreadied fids (db_bracketFixtures d).
Proof.
  revert d; induction l as [|s l IH]; cbn; intros d Hin H; [run H; reflexivity |].
  apply bind_ok in H as (u1 & d1 & H1 & H); rewrite (IH d1 ltac:(auto) H); apply advanceInto_ok in H1 as (_ & _ & -> & _).
  unfold unreadied, map_where; rewrite map_map; apply map_ext; intros f.
  match goal with |- context [if ?c then f <| fx_status := FIXTURE_READY |> else f] => destruct c eqn:E end; [| reflexivity].
  cbn; replace (existsb _ fids) with true; [reflexivity |]; symmetry; apply existsb_exists; exists (sl_fixtureId s).
  to_prop; rewrite bool_decide_eq_true; split; [apply Hin; left; reflexivity | assumption].
Qed.

Lemma completeBracket_ok clk b e d u d' :
  completeBracket clk b e d = Ok (u, d') ->
  db_bracketFixtures d' = db_bracketFixtures d /\ db_bracketSlots d' = db_bracketSlots d /\
  db_tournamentBrackets d' = map_where (fun x => br_id x === br_id b)
    (fun x => x <| br_status := BRACKET_STATUS_COMPLETED |> <| br_completedAt := Some (jsNow clk 1) |>
                <| br_championEntrantId := Some e |>) (db_tournamentBrackets d).
Proof. unfold completeBracket; intros H; run H; split_and!; reflexivity. Qed.

Lemma decide_ok clk fid e dn d r d' :
  decide clk fid e dn d = Ok (r, d') -> wf d ->
  exists f b, find_first (fun x => fx_id x === fid) (db_bracketFixtures d) = Some f /\
    find_first (fun x => br_id x === fx_bracketId f) (db_tournamentBrackets d) = Some b /\
    r = mkDecisionResponse fid e (fx_bracketId f) /\
    match fx_winnerEntrantId f with
    | Some w => w = e /\ d' = d
    | None =>
        db_bracketSlots d' = map_where (fedBy fid) (fillSlot (Some e)) (db_bracketSlots d) /\
        Forall2 readied (decidedFixture fid e dn (db_bracketFixtures d)) (db_bracketFixtures d') /\
        (forall s, In s (db_bracketSlots d) -> fedBy fid s = true -> noneWaiting d' (sl_fixtureId s)) /\
        (let fids := map sl_fixtureId (List.filter (fedBy fid) (db_bracketSlots d)) in
         unreadied fids (db_bracketFixtures d') = unreadied fids (decidedFixture fid e dn (db_bracketFixtures d))) /\
        db_tournamentBrackets d' =
          if fx_roundNumber f =? br_roundCount b
          then map_where (fun x => br_id x === br_id b)
            (fun x => x <| br_status := BRACKET_STATUS_COMPLETED |> <| br_completedAt := Some (jsNow clk 1) |>
                        <| br_championEntrantId := Some e |>) (db_tournamentBrackets d)
          else db_tournamentBrackets d
    end.
Proof.
  intros H Hwf; unfold decide in H; run H; reads.
  match goal with Hf : find_first _ (get bracketFixtures d) = Some ?x |- _ => exists x; rename x into f end.
  match goal with Hb : find_first _ (get tournamentBrackets d) = Some ?x |- _ => exists x; rename x into b end.
  split; [assumption |]; split; [assumption |].
  destruct (fx_winnerEntrantId f) as [w|]; run H; [to_prop; auto |].
  split; [reflexivity |].
  match goal with Hl : for_each _ _ _ = Ok (_, ?s) |- _ => rename Hl into Hloop, s into s1 end.
  match goal with Hc : when _ _ s1 = Ok (_, ?s) |- _ => rename Hc into Hlast, s into s2 end.
  pose proof (touches_advance_loop _ _ _ _ _ Hloop tournamentBrackets ltac:(table_notin)) as Hb.
  pose proof (advance_loop_unreadied _ _ (map sl_fixtureId (List.filter (fedBy fid) (db_bracketSlots d))) _ _ _
    (fun s Hs => in_map sl_fixtureId _ s Hs) Hloop) as Hun.
  apply advance_loop_ok in Hloop as (Hsl & Hfx & Hw).
  2: { intros s x3 Hs Hx3 E; apply List.filter_In in Hs as [Hs _]; rewrite (slot_unique d x3 s); auto. }
  change (db_bracketSlots s1 = map_where (fun x => existsb (fun s => sl_id x === sl_id s)
    (List.filter (fedBy fid) (db_bracketSlots d))) (fillSlot (Some e)) (db_bracketSlots d)) in Hsl.
  rewrite ids_of_selection in Hsl by exact Hwf.
  assert (Hsame : db_bracketFixtures s2 = db_bracketFixtures s1 /\ db_bracketSlots s2 = db_bracketSlots s1).
  { unfold when in Hlast; destruct (_ =? _) in Hlast; [apply completeBracket_ok in Hlast; tauto | run Hlast; auto]. }
  destruct Hsame as [Hf2 Hs2]; split_and!.
  - exact (eq_trans Hs2 Hsl).
  - change (Forall2 readied (decidedFixture fid e dn (db_bracketFixtures d)) (db_bracketFixtures s2)).
    rewrite Hf2; exact Hfx.
  - intros s Hs Hfed; assert (Hin : In s (List.filter (fedBy fid) (db_bracketSlots d)))
      by (apply List.filter_In; auto).
    specialize (Hw s Hin); unfold noneWaiting in *; cbn; rewrite Hs2, Hf2; exact Hw.
  - exact (eq_trans (f_equal (unreadied _) Hf2) Hun).
  - unfold when in Hlast; destruct (_ =? _) in Hlast |- *; [| run Hlast; exact Hb].
    apply completeBracket_ok in Hlast as (_ & _ & Hbr).
    exact (eq_trans Hbr (f_equal (map_where _ _) Hb)).
Qed.

(** ** Properties *)

(** C10: a bracket decision advances its winner. A committed decision on an undecided
    fixture records the winner and completes the fixture; every slot the fixture feeds,
    and no other slot of the tournament, then holds the winner; no fixture it feeds is
    left waiting for participants once all its slots are resolved; and when the fixture
    is in the last round its bracket is completed with the winner as champion. A
    decision on a fixture that already has a winner commits only for that winner, and
    then changes nothing. *)
Theorem decision_advances_winner clk fid e dn d r d'
  (H : decide clk fid e dn d = Ok (r, d')) (Hwf : wf d) :
  exists f, find_first (fun x => fx_id x === fid) (db_bracketFixtures d) = Some f /\
    r = mkDecisionResponse fid e (fx_bracketId f) /\
    (fx_winnerEntrantId f = Some e /\ d' = d \/
     fx_winnerEntrantId f = None /\
     (exists f', In f' (db_bracketFixtures d') /\ fx_id f' = fid /\
        fx_winnerEntrantId f' = Some e /\ fx_status f' = FIXTURE_COMPLETED) /\
     db_bracketSlots d' = map_where (fedBy fid) (fillSlot (Some e)) (db_bracketSlots d) /\
     (forall s, In s (db_bracketSlots d) -> fedBy fid s = true -> noneWaiting d' (sl_fixtureId s)) /\
     (forall b, find_first (fun x => br_id x === fx_bracketId f) (db_tournamentBrackets d) = Some b ->
        fx_roundNumber f = br_roundCount b -> exists b',
        find_first (fun x => br_id x === br_id b) (db_tournamentBrackets d') = Some b' /\
        br_status b' = BRACKET_STATUS_COMPLETED /\ br_championEntrantId b' = Some e)).
Proof.
  apply decide_ok in H as (f & b & Hf & Hb & -> & H); [| exact Hwf].
  exists f; split; [exact Hf |]; split; [reflexivity |].
  destruct (fx_winnerEntrantId f) as [w|] eqn:Ew; [left; destruct H as [-> ->]; auto | right].
  destruct H as (Hsl & Hfx & Hw & _ & Hchamp); split; [reflexivity |]; split; [| split_and!; auto].
  - apply find_first_some in Hf as [Hin Hid]; to_prop.
    set (f1 := f <| fx_winnerEntrantId := Some e |> <| fx_status := FIXTURE_COMPLETED |>
                 <| fx_winnerDecision := Some (JObj (decisionFields dn)) |>).
    assert (Hin1 : In f1 (decidedFixture fid e dn (db_bracketFixtures d))).
    { apply in_map_where; exists f; rewrite Hid, bool_decide_true by reflexivity; auto. }
    destruct (readied_in' _ _ _ Hfx Hin1) as (f' & Hf' & [-> | [Hp _]]); [| discriminate].
    exists f1; auto.
  - intros b0; rewrite Hb; intros [= <-] Elast; rewrite Hchamp, Elast, Z.eqb_refl.
    pose proof Hb as Hbid; apply find_first_some in Hbid as [_ Hbid]; to_prop; rewrite <- Hbid in Hb.
    eexists; split; [apply (find_bracket_map d b _ _ Hb); reflexivity | split; reflexivity].
Qed.

(** ** Retraction facts *)

(** Every slot of the list is in the store, up to what it is resolved to. *)
Definition listed (l : list SlotRow) (d : DB) : Prop :=
  forall s, In s l -> exists x, In x (db_bracketSlots d) /\ sl_id x = sl_id s /\
    sl_fixtureId x = sl_fixtureId s.

Lemma retractFrom_ok s d u d' :
  retractFrom s d = Ok (u, d') -> listed [s] d ->
  db_bracketSlots d' = map_where (fun x => sl_id x === sl_id s) (fillSlot None) (db_bracketSlots d) /\
  db_bracketFixtures d' = unreadied [sl_fixtureId s] (db_bracketFixtures d) /\
  touches [bracketSlots; bracketFixtures] d d'.
Proof.
  intros H Hin.
  assert (Ht : touches [bracketSlots; bracketFixtures] d d').
  { assert (Hr : respects (touches [bracketSlots; bracketFixtures]) (retractFrom s))
      by (unfold retractFrom; respects_auto); exact (Hr _ _ _ H). }
  unfold retractFrom in H; run H.
  destruct (Hin s (or_introl eq_refl)) as (x & Hx & Eid & Efx).
  match type of H with context [forallb resolvedSlot ?l] => assert (Hopen : forallb resolvedSlot l = false) end.
  { apply not_true_iff_false; intros Hall; rewrite forallb_forall in Hall.
    specialize (Hall (fillSlot None x)); cbn in Hall; discriminate Hall.
    apply List.filter_In; split.
    - apply in_map_where; exists x; split; [exact Hx |]; rewrite bool_decide_true by exact Eid; reflexivity.
    - apply bool_decide_eq_true; exact Efx. }
  rewrite Hopen in H; unfold when in H; cbn [negb] in H; run H; split_and!; [reflexivity | | exact Ht].
  unfold unreadied; cbn; apply map_where_eq; intros f _; rewrite orb_false_r; reflexivity.
Qed.

Lemma retract_loop_ok l d u d' :
  for_each retractFrom l d = Ok (u, d') -> listed l d ->
  db_bracketSlots d' = map_where (fun x => existsb (fun s => sl_id x === sl_id s) l)
    (fillSlot None) (db_bracketSlots d) /\
  db_bracketFixtures d' = unreadied (map sl_fixtureId l) (db_bracketFixtures d) /\
  touches [bracketSlots; bracketFixtures] d d'.
Proof.
  revert d; induction l as [|s l IH]; cbn; intros d H Hl.
  { run H; split_and!; [rewrite map_where_nil; auto | unfold unreadied; rewrite map_where_nil; auto |].
    reflexivity. }
  apply bind_ok in H as (u1 & d1 & H1 & H).
  apply retractFrom_ok in H1 as (Hs1 & Hf1 & Ht1).
  2: { intros s' [<- | []]; apply Hl; left; reflexivity. }
  apply IH in H as (Hs & Hf & Ht).
  2: { intros s' Hs'; destruct (Hl s' (or_intror Hs')) as (x & Hx & E1 & E2).
       exists (if sl_id x === sl_id s then fillSlot None x else x); rewrite Hs1; split.
       - apply in_map_where; eauto.
       - case_match; auto. }
  split_and!; [| | transitivity d1; assumption].
  - rewrite Hs, Hs1; unfold map_where; rewrite map_map; apply map_ext; intros x.
    destruct (sl_id x === sl_id s) eqn:E; cbn; [| reflexivity].
    destruct (existsb _ l); reflexivity.
  - rewrite Hf, Hf1; unfold unreadied, map_where; rewrite map_map; apply map_ext; intros f.
    cbn; rewrite orb_false_r; destruct (fx_id f === sl_fixtureId s) eqn:E; cbn; [| reflexivity].
    destruct (existsb _ _); reflexivity.
Qed.

Definition reopenedFixture (fid : uuid) (l : list FixtureRow) : list FixtureRow :=
  map_where (fun f => fx_id f === fid) (fun f => f <| fx_winnerEntrantId := None |>
    <| fx_winnerDecision := Some JNull |> <| fx_status := MATCH_PREPARED |>) l.

Lemma retract_ok m a d u d' mr fid f :
  retractFinishedMatch m a d = Ok (u, d') -> wf d ->
  find_first (fun x => m_id x === m) (db_matches d) = Some mr -> m_bracketFixtureId mr = Some fid ->
  find_first (fun x => fx_id x === fid) (db_bracketFixtures d) = Some f -> hasOutcome f = true ->
  (forall s, In s (db_bracketSlots d) -> fedBy fid s = true ->
     matchOfFixture (sl_fixtureId s) d = None) /\
  db_bracketSlots d' = map_where (fedBy fid) (fillSlot None) (db_bracketSlots d) /\
  db_bracketFixtures d' = unreadied (map sl_fixtureId (List.filter (fedBy fid) (db_bracketSlots d)))
    (reopenedFixture fid (db_bracketFixtures d)) /\
  exists b, find_first (fun x => br_id x === fx_bracketId f) (db_tournamentBrackets d) = Some b /\
    db_tournamentBrackets d' =
      if fx_roundNumber f =? br_roundCount b
      then map_where (fun x => br_id x === br_id b)
             (fun x => x <| br_status := BRACKET_ACTIVE |> <| br_completedAt := None |>
                         <| br_championEntrantId := None |>) (db_tournamentBrackets d)
      else db_tournamentBrackets d.
Proof.
  intros H Hwf Hm Hfid Hf Hout; unfold retractFinishedMatch in H; run H.
  match goal with Hx : find_first _ (get matches d) = Some ?x |- _ =>
    assert (x = mr) as -> by exact (same_answer _ _ _ Hx Hm) end.
  rewrite Hfid in H; run H; reads.
  match goal with Hx : find_first _ (get bracketFixtures d) = Some ?x |- _ =>
    assert (x = f) as -> by exact (same_answer _ _ _ Hx Hf) end.
  rewrite Hout in H; cbn [negb] in H; run H.
  match goal with Hl : for_each retractFrom _ _ = Ok (_, ?s) |- _ => rename Hl into Hloop, s into s1 end.
  apply retract_loop_ok in Hloop as (Hsl & Hfx & Ht).
  2: { intros s Hs; apply List.filter_In in Hs as [Hs _]; exists s; auto. }
  match goal with Hc : when _ _ s1 = Ok (_, ?s) |- _ => rename Hc into Hlast, s into s2 end.
  match goal with Hb : find_first _ (get tournamentBrackets d) = Some ?x |- _ => rename x into b end.
  pose proof (Ht tournamentBrackets ltac:(table_notin)) as Hb.
  assert (Hs2 : db_bracketSlots s2 = db_bracketSlots s1 /\ db_bracketFixtures s2 = db_bracketFixtures s1 /\
    db_tournamentBrackets s2 = if fx_roundNumber f =? br_roundCount b
      then map_where (fun x => br_id x === br_id b)
             (fun x => x <| br_status := BRACKET_ACTIVE |> <| br_completedAt := None |>
                         <| br_championEntrantId := None |>) (db_tournamentBrackets d)
      else db_tournamentBrackets d).
  { unfold when in Hlast; destruct (_ =? _) in Hlast |- *; run Hlast; split_and!; auto.
    exact (f_equal (map_where _ _) Hb). }
  destruct Hs2 as (Hs2 & Hf2 & Hb2); split_and!.
  - intros s Hs Hfed; destruct (matchOfFixture _ d) eqn:Em; [exfalso | reflexivity].
    match goal with Hp : existsb _ _ = false |- _ => rewrite <- not_true_iff_false in Hp; apply Hp end.
    apply existsb_exists; exists s; split; [apply List.filter_In; auto | rewrite Em; reflexivity].
  - refine (eq_trans Hs2 (eq_trans Hsl _)); exact (ids_of_selection d (fedBy fid) _ Hwf).
  - exact (eq_trans Hf2 Hfx).
  - exists b; split; [assumption | exact Hb2].
Qed.

Lemma keeps_sound_decide clk f e dn : respects keeps_sound (decide clk f e dn).
Proof. unfold decide, advanceInto, completeBracket; respects_auto. Qed.

Lemma wf_fixture_unique d x y :
  wf d -> In x (db_bracketFixtures d) -> In y (db_bracketFixtures d) -> fx_id x = fx_id y -> x = y.
Proof. intros Hwf Hx Hy E; apply (wf_id bracketFixtures d x y (fx_id x)); cbn; congruence. Qed.

(** A decided fixture, found again *)
Lemma decided_found fid e dn d d1 f : sound d1 ->
  find_first (fun x => fx_id x === fid) (db_bracketFixtures d) = Some f ->
  Forall2 readied (decidedFixture fid e dn (db_bracketFixtures d)) (db_bracketFixtures d1) ->
  exists f1, find_first (fun x => fx_id x === fid) (db_bracketFixtures d1) = Some f1 /\ hasOutcome f1 = true /\
    fx_roundNumber f1 = fx_roundNumber f /\ fx_bracketId f1 = fx_bracketId f.
Proof.
  intros Hs Hf Hfx; apply find_first_some in Hf as [Hin Hid]; to_prop.
  set (f1 := f <| fx_winnerEntrantId := Some e |> <| fx_status := FIXTURE_COMPLETED |>
               <| fx_winnerDecision := Some (JObj (decisionFields dn)) |>).
  assert (Hin1 : In f1 (db_bracketFixtures d1)).
  { destruct (readied_in' _ _ f1 Hfx) as (f' & Hf' & [-> | [Hp _]]); [| exact Hf' | discriminate].
    apply in_map_where; exists f; rewrite Hid, bool_decide_true by reflexivity; auto. }
  exists f1; split_and!; [| reflexivity..].
  apply (wf_find_id bracketFixtures d1 _ f1 fid); [apply Hs | exact Hin1 | cbn; congruence |].
  intros y; cbn; rewrite bool_decide_eq_true; split; congruence.
Qed.

(** The bracket of a decided fixture is the same, whether the decision completed it or not. *)
Lemma bracket_after d d1 i b b1 (last : bool) clk e : find_first (fun x => br_id x === i) (db_tournamentBrackets d) = Some b ->
  db_tournamentBrackets d1 = (if last then map_where (fun x => br_id x === br_id b)
    (fun x => x <| br_status := BRACKET_STATUS_COMPLETED |> <| br_completedAt := Some (jsNow clk 1) |> <| br_championEntrantId := Some e |>)
    (db_tournamentBrackets d) else db_tournamentBrackets d) ->
  find_first (fun x => br_id x === i) (db_tournamentBrackets d1) = Some b1 ->
  br_id b1 = br_id b /\ br_roundCount b1 = br_roundCount b.
Proof.
  intros Hb -> H; destruct last; [| rewrite Hb in H; injection H as <-; auto].
  rewrite (find_bracket_map d b _ _ Hb) in H by reflexivity; injection H as <-; auto.
Qed.

(** What a decision and its retraction leave a fixture as *)
Definition undecided (fid : uuid) (slots : list SlotRow) (g : FixtureRow) : FixtureRow :=
  let g1 := if fx_id g === fid
            then g <| fx_winnerEntrantId := None |> <| fx_winnerDecision := Some JNull |> <| fx_status := MATCH_PREPARED |> else g in
  if existsb (fun s => fedBy fid s && (sl_fixtureId s === fx_id g)) slots then g1 <| fx_status := PENDING_PARTICIPANTS |> else g1.

Lemma fed_fixtures fid i l :
  existsb (fun x => i === x) (map sl_fixtureId (List.filter (fedBy fid) l)) = existsb (fun s => fedBy fid s && (sl_fixtureId s === i)) l.
Proof.
  induction l as [|s l IH]; cbn; [reflexivity |]; destruct (fedBy fid s); cbn; [| exact IH]; rewrite IH; f_equal.
  apply bool_decide_ext; split; congruence.
Qed.

(** Reopening a decided fixture forgets the decision, and what it readied waits again. *)
Lemma reopened_decided fid e dn fids l l1 : unreadied fids l1 = unreadied fids (decidedFixture fid e dn l) ->
  unreadied fids (reopenedFixture fid l1) = unreadied fids (reopenedFixture fid l).
Proof.
  unfold unreadied, reopenedFixture, decidedFixture, map_where; rewrite !map_map; revert l1; induction l as [|f l IH];
    intros [|f1 l1] H; try discriminate H; [reflexivity |]; injection H as H Hl; cbn [map]; f_equal; [| exact (IH _ Hl)].
  assert (Hid : fx_id f1 = fx_id f).
  { apply (f_equal fx_id) in H; destruct (existsb _ _) in H; destruct (fx_id f === fid) in H; destruct (existsb _ _) in H; exact H. }
  destruct f, f1; cbn in *; subst fx_id0; destruct (_ === fid); cbn in *; destruct (existsb _ _); cbn in *; injection H; intros; subst; reflexivity.
Qed.

(** C11: retracting a decision undoes it. When an undecided fixture was decided, and the decision is then retracted
    (by a reset of its match, before any match it feeds was prepared), the slots it feeds are empty, and every other
    slot is as before the decision: all slots are, where those it feeds were empty before. The fixture has no winner,
    its decision is the JSON null and its status MATCH_PREPARED, whatever that was before the decision; every fixture
    it feeds is as before but waits for participants; every other fixture is untouched. In the last round its bracket
    is active without a champion or a time of completion; otherwise, and in every other bracket, nothing changed.
    Nothing else is written but audit entries. *)
Theorem retraction_undoes_decision clk fid e dn d r d1 m a u d2 f b mr
  (Hdec : decide clk fid e dn d = Ok (r, d1)) (Hsound : sound d)
  (Hf : find_first (fun x => fx_id x === fid) (db_bracketFixtures d) = Some f)
  (Hopen : fx_winnerEntrantId f = None)
  (Hm : find_first (fun x => m_id x === m) (db_matches d1) = Some mr)
  (Hfid : m_bracketFixtureId mr = Some fid)
  (Hb : find_first (fun x => br_id x === fx_bracketId f) (db_tournamentBrackets d) = Some b)
  (Hret : retractFinishedMatch m a d1 = Ok (u, d2)) :
  db_bracketSlots d2 = map_where (fedBy fid) (fillSlot None) (db_bracketSlots d) /\
  ((forall s, In s (db_bracketSlots d) -> fedBy fid s = true -> sl_resolvedEntrantId s = None) ->
     db_bracketSlots d2 = db_bracketSlots d) /\
  db_bracketFixtures d2 = map (undecided fid (db_bracketSlots d)) (db_bracketFixtures d) /\
  db_tournamentBrackets d2 =
    (if fx_roundNumber f =? br_roundCount b
     then map_where (fun x => br_id x === br_id b)
            (fun x => x <| br_status := BRACKET_ACTIVE |> <| br_completedAt := None |> <| br_championEntrantId := None |>)
            (db_tournamentBrackets d)
     else db_tournamentBrackets d) /\
  touches [bracketFixtures; bracketSlots; tournamentBrackets; auditLogs] d d2.
Proof.
  pose proof (keeps_sound_decide _ _ _ _ _ _ _ Hdec Hsound) as Hsound1; pose proof (touches_decide _ _ _ _ _ _ _ Hdec) as Ht1.
  apply decide_ok in Hdec as (f0 & b0 & Hf0 & Hb0 & -> & Hdec); [| apply Hsound].
  rewrite Hf in Hf0; injection Hf0 as <-; rewrite Hb in Hb0; injection Hb0 as <-.
  rewrite Hopen in Hdec; destruct Hdec as (Hsl & Hfx & _ & Hun & Hbr).
  destruct (decided_found _ _ _ _ _ _ Hsound1 Hf Hfx) as (f1 & Hf1 & Hout & Hround & Hbid).
  destruct (retract_ok _ _ _ _ _ _ _ _ Hret (proj1 Hsound1) Hm Hfid Hf1 Hout)
    as (_ & Hsl2 & Hfx2 & b1 & Hb1 & Hbr2); rewrite Hbid in Hb1.
  assert (Hs : db_bracketSlots d2 = map_where (fedBy fid) (fillSlot None) (db_bracketSlots d)).
  { rewrite Hsl2, Hsl, map_where_twice by (intros x E; exact E); reflexivity. }
  split_and!; [exact Hs | | | |].
  - intros Hempty; rewrite Hs; apply map_where_id; intros x Hx Hfed; specialize (Hempty x Hx Hfed); destruct x; cbn in *; subst; reflexivity.
  - rewrite Hfx2, Hsl, filter_map_where_comm by reflexivity; unfold map_where at 1; rewrite map_map.
    rewrite (map_ext _ sl_fixtureId) by (intros x; destruct (fedBy fid x); reflexivity); rewrite (reopened_decided _ _ _ _ _ _ Hun).
    unfold unreadied, reopenedFixture, map_where; rewrite map_map; apply map_ext; intros g; unfold undecided.
    rewrite fed_fixtures; destruct (fx_id g === fid); reflexivity.
  - destruct (bracket_after _ _ _ _ _ _ _ _ Hb Hbr Hb1) as [Ei Er]; rewrite Hbr2, Hround, Ei, Er, Hbr.
    destruct (fx_roundNumber f =? br_roundCount b); [| reflexivity].
    rewrite map_where_twice by (intros x E; exact E); reflexivity.
  - assert (Ht : touches outcomeTables d d2) by (etransitivity; [exact Ht1 | exact (touches_retractFinishedMatch _ _ _ _ _ Hret)]).
    exact Ht.
Qed.

(** a retraction strands a walkover. The guard of a retraction is that no match was
    prepared for a fixture the decision fed; a fixture that has no match may still have
    been decided itself, as a withdrawal. Then the retraction commits and leaves that
    fixture waiting for participants although it has a winner, whose advance is not taken
    back. *)
Theorem retraction_strands_walkover m a d u d' mr fid f s g w
  (Hret : retractFinishedMatch m a d = Ok (u, d')) (Hwf : wf d)
  (Hm : find_first (fun x => m_id x === m) (db_matches d) = Some mr)
  (Hfid : m_bracketFixtureId mr = Some fid)
  (Hf : find_first (fun x => fx_id x === fid) (db_bracketFixtures d) = Some f)
  (Hout : hasOutcome f = true)
  (Hs : In s (db_bracketSlots d)) (Hfed : fedBy fid s = true) (Hother : sl_fixtureId s <> fid)
  (Hg : In g (db_bracketFixtures d)) (Hgid : fx_id g = sl_fixtureId s)
  (Hwon : fx_winnerEntrantId g = Some w) :
  exists g', In g' (db_bracketFixtures d') /\ fx_id g' = fx_id g /\
    fx_status g' = PENDING_PARTICIPANTS /\ fx_winnerEntrantId g' = Some w.
Proof.
  destruct (retract_ok _ _ _ _ _ _ _ _ Hret Hwf Hm Hfid Hf Hout) as (_ & _ & Hfx & _).
  exists (g <| fx_status := PENDING_PARTICIPANTS |>); split_and!; auto.
  rewrite Hfx; apply in_map_where; exists g; split.
  - apply in_map_where; exists g; split; [exact Hg |].
    rewrite bool_decide_false by congruence; reflexivity.
  - assert (Hex : existsb (fun i => fx_id g === i)
      (map sl_fixtureId (List.filter (fedBy fid) (db_bracketSlots d))) = true); [| rewrite Hex; reflexivity].
    apply existsb_exists; exists (sl_fixtureId s); split; [| apply bool_decide_eq_true; exact Hgid].
    apply in_map, List.filter_In; auto.
Qed.

Lemma lockFixtureAndDownstream_total f d : exists ids, lockFixtureAndDownstream f d = Ok (ids, d).
Proof. eexists; reflexivity. Qed.

(** A committed manual decision leaves its key with its fingerprint and response. *)
Lemma manual_key_stored sha256 clk fid e actor reason key t d r d1 :
  manuallyDecide sha256 clk fid e actor reason key t d = Ok (r, d1) ->
  exists k, find_first (fun k => wk_key k === key) (db_bracketWinnerDecisionIdempotency d1) = Some k /\
    wk_requestFingerprint k = manualDecisionFingerprint sha256 fid e reason t /\ wk_response k = r.
Proof.
  intros H; unfold manuallyDecide in H; run H; reads.
  match type of H with (match ?o with _ => _ end) _ = _ => destruct o as [k|] eqn:Ek end; run H.
  - to_prop; exists k; auto.
  - match goal with Hd : decide _ _ _ _ _ = Ok (_, ?s) |- _ =>
      pose proof (touches_decide _ _ _ _ _ _ _ Hd bracketWinnerDecisionIdempotency ltac:(table_notin)) as Ht
    end.
    match goal with Hd : decide _ _ _ _ _ = Ok (_, ?s) |- _ => rename s into s1 end.
    assert (Ht' : db_bracketWinnerDecisionIdempotency s1 = db_bracketWinnerDecisionIdempotency d) by exact Ht.
    assert (Ek' : find_first (fun k => wk_key k === key) (db_bracketWinnerDecisionIdempotency d) = None)
      by exact Ek.
    eexists; split; [cbn; rewrite find_first_app, Ht', Ek'; cbn; rewrite bool_decide_true; reflexivity |].
    auto.
Qed.

(** a manual decision is applied once per idempotency key. After a manual decision
    has committed, repeating the request under its key, at any time and whatever happened
    to the fixture, returns the same response and changes nothing, and any request with
    another fingerprint under that key is refused. *)
Theorem manual_decision_once sha256 clk fid e actor reason key t d r d1
  (H : manuallyDecide sha256 clk fid e actor reason key t d = Ok (r, d1)) d2
  (Hkeys : db_bracketWinnerDecisionIdempotency d2 = db_bracketWinnerDecisionIdempotency d1)
  clk2 actor2 fid2 e2 reason2 t2 :
  let same := manualDecisionFingerprint sha256 fid e reason t ===
              manualDecisionFingerprint sha256 fid2 e2 reason2 t2 in
  manuallyDecide sha256 clk2 fid2 e2 actor2 reason2 key t2 d2 =
  if same then Ok (r, d2) else Err (Conflict "IDEMPOTENCY_KEY_CONFLICT").
Proof.
  destruct (manual_key_stored _ _ _ _ _ _ _ _ _ _ _ H) as (k & Hk & Hfp & Hr); intros same.
  unfold manuallyDecide.
  destruct (lockFixtureAndDownstream_total fid2 d2) as [ids Hlock].
  rewrite (bind_step _ _ _ _ _ Hlock).
  rewrite (bind_step _ _ _ (Some k) d2).
  2: { unfold find_one, gets; f_equal; f_equal; rewrite <- Hk, <- Hkeys; reflexivity. }
  rewrite Hfp; unfold throw_if, same.
  destruct (_ === _); cbn; [rewrite Hr |]; reflexivity.
Qed.

(** ** Witnesses

    A four-athlete bracket 70: match 10 belongs to fixture 80, whose slots hold the
    entrants 61 and 62; fixture 81 was won by entrant 63; both feed the final, 82. *)
Definition bracketMatch : MatchRow :=
  (sampleMatch 10 FINISHED LIFECYCLE_COMPLETED (Some 2) (Some 0))
    <| m_bracketFixtureId := Some 80%N |> <| m_finishedAt := Some 500000 |>.
Definition bracketEntrant (id athlete : uuid) (position : Z) (side : AthleteColor) : EntrantRow :=
  mkEntrantRow id 70 athlete "n" 2000 None None 1 (Some position) (Some side) false.
Definition bracketDB : DB :=
  (sampleDB bracketMatch [])
    <| db_tournamentBrackets := [mkBracketRow 70 1 5 BRACKET_ACTIVE 2 None None 4 4 "c" "f" (Some 7%N) None] |>
    <| db_bracketEntrants := [bracketEntrant 61 121 1 RED; bracketEntrant 62 122 1 BLUE;
                              bracketEntrant 63 123 2 RED; bracketEntrant 64 124 2 BLUE] |>
    <| db_bracketFixtures := [mkFixtureRow 80 70 1 1 MATCH_PREPARED None None "R1-M01";
                              mkFixtureRow 81 70 1 2 FIXTURE_COMPLETED (Some 63%N) None "R1-M02";
                              mkFixtureRow 82 70 2 1 PENDING_PARTICIPANTS None None "R2-M01"] |>
    <| db_bracketSlots := [mkSlotRow 90 80 RED None (Some 61%N) (Some 61%N); mkSlotRow 91 80 BLUE None (Some 62%N) (Some 62%N);
                           mkSlotRow 92 81 RED None (Some 63%N) (Some 63%N); mkSlotRow 93 81 BLUE None (Some 64%N) (Some 64%N);
                           mkSlotRow 94 82 RED (Some 80%N) None None;
                           mkSlotRow 95 82 BLUE (Some 81%N) (Some 63%N) None] |>.
Definition byRules : Decision := mkDecision None RULES None None.
Definition reset : RetractActor := mkRetractActor (Some 40%N) None "MATCH_RESET".
Definition noHash : json -> string := fun _ => EmptyString.

(** Fixture 80 decided for 61, then the final given to 63 because 61 withdrew. *)
Definition advancedDB : DB := after (decide (at_time 0) 80 61 byRules) bracketDB.
Definition walkoverDB : DB :=
  after (manuallyDecide noHash (at_time 0) 82 63 7 "injury" "k" WITHDRAWAL_OR_INJURY) advancedDB.
Definition strandedDB : DB := after (retractFinishedMatch 10 reset) walkoverDB.

Lemma decision_advances_winner_witness :
  exists f', In f' (db_bracketFixtures advancedDB) /\ fx_id f' = 80%N /\
    fx_winnerEntrantId f' = Some 61%N.
Proof.
  edestruct (decision_advances_winner (at_time 0) 80 61 byRules bracketDB)
    as (f & Hf & _ & [[Hw _] | [_ [(f' & Hin & Hid & Hw & _) _]]]);
    [vm_compute; reflexivity | solve_wf | |].
  - vm_compute in Hf; injection Hf as <-; discriminate Hw.
  - exists f'; split; [exact Hin | split; [exact Hid | exact Hw]].
Defined.

Lemma retraction_undoes_decision_witness :
  exists d2, retractFinishedMatch 10 reset advancedDB = Ok (tt, d2) /\
    db_bracketSlots d2 = map_where (fedBy 80) (fillSlot None) (db_bracketSlots bracketDB).
Proof.
  eexists; split; [vm_compute; reflexivity |].
  eapply (fun r d2 f b mr H1 H2 H3 H4 H5 H6 H7 H8 => proj1 (retraction_undoes_decision (at_time 0) 80 61 byRules bracketDB r advancedDB
            10 reset tt d2 f b mr H1 H2 H3 H4 H5 H6 H7 H8));
    [vm_compute; reflexivity | solve_sound | vm_compute; reflexivity | reflexivity
    | vm_compute; reflexivity | reflexivity | vm_compute; reflexivity | vm_compute; reflexivity].
Defined.

Lemma retraction_strands_walkover_witness :
  exists g, In g (db_bracketFixtures strandedDB) /\ fx_id g = 82%N /\
    fx_status g = PENDING_PARTICIPANTS /\ fx_winnerEntrantId g = Some 63%N.
Proof.
  eapply (retraction_strands_walkover 10 reset walkoverDB tt strandedDB bracketMatch 80
           (mkFixtureRow 80 70 1 1 FIXTURE_COMPLETED (Some 61%N)
              (Some (JObj [("decisionType"%string, JStr "RULES")])) "R1-M01")
           (mkSlotRow 94 82 RED (Some 80%N) (Some 61%N) None)
           (mkFixtureRow 82 70 2 1 FIXTURE_COMPLETED (Some 63%N)
              (Some (JObj [("actorId", JId 7); ("decisionType", JStr "WITHDRAWAL_OR_INJURY");
                           ("reason", JStr "injury")]%string)) "R2-M01") 63);
    first [vm_compute; reflexivity | solve_wf | vm_compute; tauto | discriminate].
Defined.

Lemma manual_decision_once_witness :
  exists d, manuallyDecide noHash (at_time 9) 82 63 7 "injury" "k" WITHDRAWAL_OR_INJURY strandedDB
    = Ok (mkDecisionResponse 82 63 70, d).
Proof.
  eexists; eapply (fun H => manual_decision_once noHash (at_time 0) 82 63 7 "injury" "k"
    WITHDRAWAL_OR_INJURY advancedDB (mkDecisionResponse 82 63 70) walkoverDB H strandedDB);
    vm_compute; reflexivity.
Defined.
