(* ===== verification/Cancellation.v ===== *)
(** * Cancellation

    [realtime/match-lifecycle.service.ts], taking results back: cancelling the current
    round's result or resetting the whole match, and undoing either. Rows are never deleted:
    they are marked with the time and the audit entry of the operation, and an undo clears
    the marks of that entry. *)
From S2P Require Import Prelude Schema Database Rules Authorization Scenario Scoring Lifecycle.
From S2P Require Import BracketOutcome.

(** ** Marks

    [{ invalidatedAt, invalidatedByAuditId }] or [{ revertedAt, revertedByAuditId }] of a
    row; [None] is the pair of nulls an undo writes. *)
Definition mark : Type := option (timestamp * uuid).
Definition markedAt (k : mark) : option timestamp := option_map fst k.
Definition markedBy (k : mark) : option uuid := option_map snd k.

Definition markRound (k : mark) (r : RoundRow) : RoundRow :=
  r <| r_invalidatedAt := markedAt k |> <| r_invalidatedByAuditId := markedBy k |>.
Definition markWindow (k : mark) (w : WindowRow) : WindowRow :=
  w <| w_invalidatedAt := markedAt k |> <| w_invalidatedByAuditId := markedBy k |>.
Definition markVote (k : mark) (v : VoteRow) : VoteRow :=
  v <| v_invalidatedAt := markedAt k |> <| v_invalidatedByAuditId := markedBy k |>.
Definition markEvent (k : mark) (e : ScoreEventRow) : ScoreEventRow :=
  e <| e_revertedAt := markedAt k |> <| e_revertedByAuditId := markedBy k |>.
Definition markPenalty (k : mark) (p : PenaltyRow) : PenaltyRow :=
  p <| p_revertedAt := markedAt k |> <| p_revertedByAuditId := markedBy k |>.
Definition markFault (k : mark) (f : FaultRow) : FaultRow :=
  f <| f_invalidatedAt := markedAt k |> <| f_invalidatedByAuditId := markedBy k |>.
Definition markRoundResult (k : mark) (r : RoundResultRow) : RoundResultRow :=
  r <| rr_invalidatedAt := markedAt k |> <| rr_invalidatedByAuditId := markedBy k |>.
Definition markDecision (k : mark) (x : DecisionRow) : DecisionRow :=
  x <| dc_invalidatedAt := markedAt k |> <| dc_invalidatedByAuditId := markedBy k |>.
Definition markAppeal (k : mark) (a : AppealRow) : AppealRow :=
  a <| ap_status := (match k with Some _ => APPEAL_INVALIDATED | None => APPEAL_COMPLETED end) |>
    <| ap_invalidatedAt := markedAt k |> <| ap_invalidatedByAuditId := markedBy k |>.

Definition member (l : list uuid) (i : uuid) : bool := existsb (fun x => x === i) l.
Definition memberOpt (l : list uuid) (i : option uuid) : bool :=
  match i with Some i => member l i | None => false end.
Definition memberZ (l : list Z) (n : option Z) : bool :=
  match n with Some n => existsb (fun x => x =? n) l | None => false end.

(** [[...new Set(l)]] *)
Fixpoint distinct (l : list Z) : list Z :=
  match l with
  | [] => []
  | x :: l' => x :: List.filter (fun y => negb (y =? x)) (distinct l')
  end.

(** ** Cancelling results *)

(** The match's valid rounds, ordered by stage, attempt and creation. *)
Definition activeRounds (matchId : uuid) : DbM (list RoundRow) :=
  l ← find_many rounds (fun r => (r_invalidatedAt r === None) && (r_matchId r === matchId));
  mret (sort_by (fun r => if r_stage r === REGULATION then 0 else 1)
         (sort_by (fun r => - r_attemptNumber r) (sort_by (fun r => - r_createdAt r) l))).

Definition overtimePhase (s : MatchStatus) : bool :=
  existsb (fun x => s === x) [OVERTIME_READY; OVERTIME_RUNNING; OVERTIME_PAUSED; OVERTIME_APPEAL;
                              OVERTIME_TIEBREAK_DECISION; RESULT_PUBLICATION_READY].

Definition regulationRound (n : Z) (r : RoundRow) : bool :=
  (r_stage r === REGULATION) && (r_roundNumber r =? n).

(** [selectedRounds] *)
Definition selectedRounds (entireMatch : bool) (m : MatchRow) (active : list RoundRow)
    : list RoundRow :=
  if entireMatch then active
  else if m_status m === REGULATION_APPEAL then List.filter (regulationRound 2) active
  else if overtimePhase (m_status m) then
    firstn 1 (List.filter (fun r => r_stage r === OVERTIME) active)
  else if (m_status m === BREAK) && (m_currentRound m === Some 1)
  then List.filter (regulationRound 1) active
  else if ((m_status m === FINISHED) || (m_status m === AWAITING_RESULT_SAVE)) &&
          (m_currentRound m === Some 2)
  then List.filter (regulationRound 2) active
  else [].

Definition cancelledStatus (entireMatch : bool) (selected : list RoundRow) : MatchStatus :=
  if entireMatch || existsb (regulationRound 1) selected then WAITING
  else if existsb (fun r => r_stage r === OVERTIME) selected then OVERTIME_READY
  else BREAK.

(** The rows a cancellation marks: the rounds' own and what hangs on them. *)
Definition invalidateScores (matchId : uuid) (entireMatch : bool) (roundIds : list uuid)
    (roundNumbers : list Z) (k : mark) : DbM unit :=
  windowsNow ← gets db_scoringWindows;
  _ ← update_many judgeVotes (fun v => (v_invalidatedAt v === None) && (v_matchId v === matchId) &&
        existsb (fun w => (w_id w === v_scoringWindowId v) && memberOpt roundIds (w_roundId w))
          windowsNow) (markVote k);
  _ ← update_many scoreEvents (fun e => (e_matchId e === matchId) && (e_revertedAt e === None) &&
        (entireMatch || memberOpt roundIds (e_roundId e))) (markEvent k);
  _ ← update_many penalties (fun p => (p_matchId p === matchId) && (p_revertedAt p === None) &&
        (entireMatch || memberZ roundNumbers (p_roundNumber p))) (markPenalty k);
  _ ← update_many faults (fun f => (f_invalidatedAt f === None) && (f_matchId f === matchId) &&
        (entireMatch || member roundIds (f_roundId f))) (markFault k);
  _ ← update_many roundAthleteResults (fun r => (rr_invalidatedAt r === None) &&
        (rr_matchId r === matchId) && member roundIds (rr_roundId r)) (markRoundResult k);
  mret tt.

(** The appeals a cancellation affects and the decisions taken on them. *)
Definition invalidateAppeals (matchId : uuid) (entireMatch : bool) (roundIds : list uuid) (k : mark)
    : DbM unit :=
  sources ← gets db_matchAppealRounds;
  affected ← find_many matchAppeals (fun a => (ap_invalidatedAt a === None) &&
    (ap_matchId a === matchId) &&
    (entireMatch || member roundIds (ap_sourceRoundId a) ||
     existsb (fun s => (ar_appealId s === ap_id a) && member roundIds (ar_roundId s)) sources));
  let appealIds := map ap_id affected in
  _ ← when (negb (bool_decide (length appealIds = 0%nat)))
        (_ ← update_many matchResultDecisions (fun x => (dc_invalidatedAt x === None) &&
               (dc_matchId x === matchId) && member appealIds (dc_sourceAppealId x)) (markDecision k);
         _ ← update_many matchAppeals (fun a => member appealIds (ap_id a)) (markAppeal k);
         mret tt);
  _ ← update_many matchResultDecisions (fun x => (dc_invalidatedAt x === None) &&
        (dc_matchId x === matchId) && member roundIds (dc_sourceOvertimeRoundId x)) (markDecision k);
  mret tt.

Definition invalidateRounds (matchId : uuid) (roundIds : list uuid) (k : mark) : DbM unit :=
  _ ← update_many scoringWindows (fun w => (w_invalidatedAt w === None) && (w_matchId w === matchId) &&
        memberOpt roundIds (w_roundId w)) (markWindow k);
  _ ← update_many rounds (fun r => member roundIds (r_id r) && (r_invalidatedAt r === None) &&
        (r_matchId r === matchId)) (markRound k);
  mret tt.

(** [ResultCancellationPayload] with the match and the released officials. *)
Record CancellationTransition : Type := mkCancellation {
  ct_matchId : uuid; ct_actionId : uuid; ct_matchPublicId : string; ct_roundNumbers : list Z;
  ct_status : MatchStatus; ct_releasedOfficialIds : list uuid }.

Definition cancellationLifecycle (s : MatchStatus) : MatchLifecycle :=
  if s === WAITING then NOT_STARTED else IN_PROGRESS.
Definition cancellationRound (s : MatchStatus) : option Z := if s === WAITING then None else Some 1.

(** The audit entry and the operation row of a cancellation. *)
Definition recordCancellation (clk : Clock) (m : MatchRow) (identity : SupervisorCommandIdentity)
    (entireMatch : bool) (roundNumbers : list Z) (nextStatus : MatchStatus)
    : DbM (AuditRow * OperationRow) :=
  audit ← auditCommand (m_id m) identity (if entireMatch then MATCH_RESULT_RESET else ROUND_RESULT_CANCELLED)
    ([("cancelledAt", JTime (serverNow clk)); ("fromStatus", JStatus (m_status m));
      ("roundNumbers", JList (map JNum roundNumbers)); ("toStatus", JStatus nextStatus)]%string ++
     assignmentField identity);
  operation ← create matchResultOperations (fun id => mkOperationRow id (m_id m) (al_id audit)
    (if entireMatch then MATCH_RESET else ROUND_RESET) roundNumbers (m_status m)
    (lifecycleForPhase (m_status m)) (m_currentRound m) (m_startedAt m) (m_finishedAt m)
    nextStatus (cancellationLifecycle nextStatus) (cancellationRound nextStatus)
    (legacySession identity) APPLIED (serverNow clk) None);
  _ ← update auditLogs (fun a => al_id a === al_id audit) (fun a => a <| al_metadata := JObj
        [("cancelledAt", JTime (serverNow clk)); ("fromStatus", JStatus (m_status m));
         ("resetOperationId", JId (op_id operation));
         ("roundNumber", if entireMatch then JNull else jopt JNum (head roundNumbers));
         ("roundNumbers", JList (map JNum roundNumbers)); ("toStatus", JStatus nextStatus)]%string |>);
  mret (audit, operation).

(** The end of a cancellation: the match goes back and, when it was finished, its crew is
    released. *)
Definition finishCancellation (clk : Clock) (matchId : uuid) (m : MatchRow)
    (identity : SupervisorCommandIdentity) (operation : OperationRow) (roundNumbers : list Z)
    (nextStatus : MatchStatus) : DbM CancellationTransition :=
  _ ← update matches (fun x => m_id x === matchId)
        (fun x => x <| m_currentRound := cancellationRound nextStatus |> <| m_finishedAt := None |>
                    <| m_intermissionEndsAt := None |>
                    <| m_lifecycle := cancellationLifecycle nextStatus |>
                    <| m_startedAt := (if nextStatus === WAITING then None else m_startedAt m) |>
                    <| m_status := nextStatus |>);
  released ← releaseForTransition (m_status m) nextStatus matchId (serverNow clk) identity None;
  mret (mkCancellation matchId (op_id operation) (m_publicId m) roundNumbers nextStatus released).

(** [cancelResults] from the point where the rounds are selected. *)
Definition applyCancellation (clk : Clock) (matchId : uuid) (m : MatchRow)
    (identity : SupervisorCommandIdentity) (entireMatch : bool) (selected : list RoundRow)
    : DbM CancellationTransition :=
  let roundIds := map r_id selected in
  let roundNumbers := distinct (map r_roundNumber selected) in
  _ ← throw_if (bool_decide (length roundIds = 0%nat)) (InvalidResultCancellationState (m_status m));
  _ ← when (m_status m === FINISHED)
        (retractFinishedMatch matchId (mkRetractActor (legacySession identity) None
           (if entireMatch then "MATCH_RESET" else "ROUND_RESET")));
  let nextStatus := cancelledStatus entireMatch selected in
  '(audit, operation) ← recordCancellation clk m identity entireMatch roundNumbers nextStatus;
  let k := Some (serverNow clk, al_id audit) in
  _ ← invalidateScores matchId entireMatch roundIds roundNumbers k;
  _ ← invalidateAppeals matchId entireMatch roundIds k;
  _ ← invalidateRounds matchId roundIds k;
  finishCancellation clk matchId m identity operation roundNumbers nextStatus.

(** [cancelResults]: [cancelCurrentRoundResult] and [resetMatchResults]. *)
Definition cancelResults (clk : Clock) (matchId : uuid) (identity : SupervisorCommandIdentity)
    (entireMatch : bool) : DbM CancellationTransition :=
  _ ← lockMatch matchId MatchLifecycleTargetMissing;
  _ ← rulesForMatch matchId;
  _ ← lockActiveControlSession clk matchId identity;
  m ← find_one_or_throw matches (fun m => m_id m === matchId);
  active ← activeRounds matchId;
  applyCancellation clk matchId m identity entireMatch (selectedRounds entireMatch m active).

(** ** Undoing a cancellation *)

(** [activitySinceCancellation.some((count) => count > 0)] *)
Definition activitySince (matchId : uuid) (t : timestamp) (d : DB) : bool :=
  existsb (fun r => (t <? r_createdAt r) && (r_invalidatedAt r === None) && (r_matchId r === matchId))
    (db_rounds d) ||
  existsb (fun w => (t <? w_createdAt w) && (w_invalidatedAt w === None) && (w_matchId w === matchId))
    (db_scoringWindows d) ||
  existsb (fun e => (t <? e_createdAt e) && (e_matchId e === matchId) && (e_revertedAt e === None))
    (db_scoreEvents d) ||
  existsb (fun p => (t <? p_createdAt p) && (p_matchId p === matchId) && (p_revertedAt p === None))
    (db_penalties d) ||
  existsb (fun f => (t <? f_createdAt f) && (f_invalidatedAt f === None) && (f_matchId f === matchId))
    (db_faults d) ||
  existsb (fun a => (t <? ap_completedAt a) && (ap_invalidatedAt a === None) && (ap_matchId a === matchId))
    (db_matchAppeals d) ||
  existsb (fun x => (t <? dc_selectedAt x) && (dc_invalidatedAt x === None) && (dc_matchId x === matchId))
    (db_matchResultDecisions d) ||
  existsb (fun o => (t <? oc_publishedAt o) && (oc_matchId o === matchId)) (db_matchOutcomes d) ||
  existsb (fun p => (t <? pb_createdAt p) && (pb_matchId p === matchId)) (db_matchResultPublications d).

(** The marks of one audit entry are cleared in every table. *)
Definition clearMarks (matchId auditId : uuid) : DbM unit :=
  _ ← update_many judgeVotes (fun v => (v_invalidatedByAuditId v === Some auditId) &&
        (v_matchId v === matchId)) (markVote None);
  _ ← update_many scoreEvents (fun e => (e_matchId e === matchId) &&
        (e_revertedByAuditId e === Some auditId)) (markEvent None);
  _ ← update_many penalties (fun p => (p_matchId p === matchId) &&
        (p_revertedByAuditId p === Some auditId)) (markPenalty None);
  _ ← update_many faults (fun f => (f_invalidatedByAuditId f === Some auditId) &&
        (f_matchId f === matchId)) (markFault None);
  _ ← update_many roundAthleteResults (fun r => (rr_invalidatedByAuditId r === Some auditId) &&
        (rr_matchId r === matchId)) (markRoundResult None);
  _ ← update_many matchResultDecisions (fun x => (dc_invalidatedByAuditId x === Some auditId) &&
        (dc_matchId x === matchId)) (markDecision None);
  _ ← update_many matchAppeals (fun a => (ap_invalidatedByAuditId a === Some auditId) &&
        (ap_matchId a === matchId)) (markAppeal None);
  _ ← update_many scoringWindows (fun w => (w_invalidatedByAuditId w === Some auditId) &&
        (w_matchId w === matchId)) (markWindow None);
  _ ← update_many rounds (fun r => (r_invalidatedByAuditId r === Some auditId) &&
        (r_matchId r === matchId)) (markRound None);
  mret tt.

(** [undoResultCancellation] once the undo is allowed. *)
Definition applyUndo (clk : Clock) (matchId : uuid) (m : MatchRow) (operation : OperationRow)
    (identity : SupervisorCommandIdentity) : DbM CancellationTransition :=
  _ ← clearMarks matchId (op_auditLogId operation);
  _ ← update matches (fun x => m_id x === matchId)
        (fun x => x <| m_currentRound := op_previousCurrentRound operation |>
                    <| m_finishedAt := op_previousFinishedAt operation |>
                    <| m_intermissionEndsAt := None |>
                    <| m_lifecycle := op_previousLifecycle operation |>
                    <| m_startedAt := op_previousStartedAt operation |>
                    <| m_status := op_previousStatus operation |>);
  _ ← update matchResultOperations (fun o => op_id o === op_id operation)
        (fun o => o <| op_status := UNDONE |> <| op_undoneAt := Some (serverNow clk) |>);
  _ ← when (op_previousStatus operation === FINISHED)
        (_ ← processFinishedMatch clk matchId None; mret tt);
  _ ← auditCommand matchId identity
        (if op_type operation === MATCH_RESET then MATCH_RESULT_RESET_UNDONE
         else ROUND_RESULT_CANCEL_UNDONE)
        ([("resetOperationId", JId (op_id operation)); ("restoredAt", JTime (serverNow clk));
          ("restoredStatus", JStatus (op_previousStatus operation));
          ("roundNumber", if op_type operation === ROUND_RESET
                          then jopt JNum (head (op_roundNumbers operation)) else JNull);
          ("roundNumbers", JList (map JNum (op_roundNumbers operation)))]%string ++
         assignmentField identity);
  mret (mkCancellation matchId (op_id operation) (m_publicId m) (op_roundNumbers operation)
          (op_previousStatus operation) []).

(** [undoResultCancellation] *)
Definition undoResultCancellation (clk : Clock) (matchId operationId : uuid)
    (identity : SupervisorCommandIdentity) : DbM CancellationTransition :=
  _ ← lockMatch matchId MatchLifecycleTargetMissing;
  _ ← rulesForMatch matchId;
  _ ← lockActiveControlSession clk matchId identity;
  found ← find_one matchResultOperations
    (fun o => (op_id o === operationId) && (op_matchId o === matchId));
  operation ← match found with
    | Some o => _ ← throw_if (op_status o !== APPLIED) ResultCancellationUndoNotAllowed; mret o
    | None => throw ResultCancellationUndoNotAllowed
    end;
  m ← find_one_or_throw matches (fun m => m_id m === matchId);
  active ← gets (activitySince matchId (op_createdAt operation));
  _ ← throw_if ((m_status m !== op_resultingStatus operation) ||
                (m_currentRound m !== op_resultingCurrentRound operation) || active)
        ResultCancellationUndoNotAllowed;
  applyUndo clk matchId m operation identity.

(** ** Markable rows

    The interface a cancellation relies on: a row that belongs to a match and carries
    the mark of the operation that took it back. *)
Class Markable (R : Type) := {
  mk_match : R -> uuid; mk_at : R -> option timestamp; mk_by : R -> option uuid;
  mk_set : mark -> R -> R;
  (* unmarked and as the operations that create rows leave them *)
  mk_clean : R -> Prop;
  mk_set_match : forall k x, mk_match (mk_set k x) = mk_match x;
  mk_set_at : forall k x, mk_at (mk_set k x) = markedAt k;
  mk_set_by : forall k x, mk_by (mk_set k x) = markedBy k;
  mk_restore : forall k x, mk_clean x -> mk_set None (mk_set k x) = x }.

Ltac solve_markable :=
  cbn; intros; try reflexivity;
  match goal with x : _ |- _ => destruct x; cbn in *; intuition (subst; reflexivity) end.

#[export] Program Instance markable_round : Markable RoundRow := {|
  mk_match := r_matchId; mk_at := r_invalidatedAt; mk_by := r_invalidatedByAuditId;
  mk_set := markRound;
  mk_clean r := r_invalidatedAt r = None /\ r_invalidatedByAuditId r = None |}.
Solve All Obligations with solve_markable.
#[export] Program Instance markable_window : Markable WindowRow := {|
  mk_match := w_matchId; mk_at := w_invalidatedAt; mk_by := w_invalidatedByAuditId;
  mk_set := markWindow;
  mk_clean w := w_invalidatedAt w = None /\ w_invalidatedByAuditId w = None |}.
Solve All Obligations with solve_markable.
#[export] Program Instance markable_vote : Markable VoteRow := {|
  mk_match := v_matchId; mk_at := v_invalidatedAt; mk_by := v_invalidatedByAuditId;
  mk_set := markVote;
  mk_clean v := v_invalidatedAt v = None /\ v_invalidatedByAuditId v = None |}.
Solve All Obligations with solve_markable.
#[export] Program Instance markable_event : Markable ScoreEventRow := {|
  mk_match := e_matchId; mk_at := e_revertedAt; mk_by := e_revertedByAuditId;
  mk_set := markEvent;
  mk_clean e := e_revertedAt e = None /\ e_revertedByAuditId e = None |}.
Solve All Obligations with solve_markable.
#[export] Program Instance markable_penalty : Markable PenaltyRow := {|
  mk_match := p_matchId; mk_at := p_revertedAt; mk_by := p_revertedByAuditId;
  mk_set := markPenalty;
  mk_clean p := p_revertedAt p = None /\ p_revertedByAuditId p = None |}.
Solve All Obligations with solve_markable.
#[export] Program Instance markable_fault : Markable FaultRow := {|
  mk_match := f_matchId; mk_at := f_invalidatedAt; mk_by := f_invalidatedByAuditId;
  mk_set := markFault;
  mk_clean f := f_invalidatedAt f = None /\ f_invalidatedByAuditId f = None |}.
Solve All Obligations with solve_markable.
#[export] Program Instance markable_round_result : Markable RoundResultRow := {|
  mk_match := rr_matchId; mk_at := rr_invalidatedAt; mk_by := rr_invalidatedByAuditId;
  mk_set := markRoundResult;
  mk_clean r := rr_invalidatedAt r = None /\ rr_invalidatedByAuditId r = None |}.
Solve All Obligations with solve_markable.
#[export] Program Instance markable_decision : Markable DecisionRow := {|
  mk_match := dc_matchId; mk_at := dc_invalidatedAt; mk_by := dc_invalidatedByAuditId;
  mk_set := markDecision;
  mk_clean x := dc_invalidatedAt x = None /\ dc_invalidatedByAuditId x = None |}.
Solve All Obligations with solve_markable.
#[export] Program Instance markable_appeal : Markable AppealRow := {|
  mk_match := ap_matchId; mk_at := ap_invalidatedAt; mk_by := ap_invalidatedByAuditId;
  mk_set := markAppeal;
  mk_clean a := ap_invalidatedAt a = None /\ ap_invalidatedByAuditId a = None /\
                ap_status a = APPEAL_COMPLETED |}.
Solve All Obligations with solve_markable.

Section Marking.
Context {R : Type} `{Markable R}.

(** [l'] is [l] with some unmarked rows of the match marked. *)
Definition marking (m : uuid) (k : mark) (l l' : list R) : Prop :=
  exists p, l' = map_where p (mk_set k) l /\
    forall x, In x l -> p x = true -> mk_at x = None /\ mk_match x = m.

Lemma marking_refl m k l : marking m k l l.
Proof. exists (fun _ => false); split; [symmetry; apply map_where_nil; auto | discriminate]. Qed.

Lemma marking_step m k p l :
  (forall x, In x l -> p x = true -> mk_at x = None /\ mk_match x = m) ->
  marking m k l (map_where p (mk_set k) l).
Proof. intros Hp; exists p; auto. Qed.

Lemma marking_trans m t a l1 l2 l3 :
  marking m (Some (t, a)) l1 l2 -> marking m (Some (t, a)) l2 l3 -> marking m (Some (t, a)) l1 l3.
Proof.
  intros (p & -> & Hp) (q & -> & Hq); exists (fun x => p x || q x); split.
  - unfold map_where; rewrite map_map; apply map_ext_in; intros x Hx.
    destruct (p x) eqn:E; cbn; [| reflexivity].
    destruct (q (mk_set _ x)) eqn:Eq; [| reflexivity]; exfalso.
    assert (Hin : In (mk_set (Some (t, a)) x) (map_where p (mk_set (Some (t, a))) l1)).
    { apply in_map_where; exists x; rewrite E; auto. }
    destruct (Hq _ Hin Eq) as [Hat _]; rewrite mk_set_at in Hat; discriminate.
  - intros x Hx; destruct (p x) eqn:E; cbn; [intros _; auto |]; intros Eq; apply Hq; [| exact Eq].
    apply in_map_where; exists x; rewrite E; auto.
Qed.

(** Clearing the marks of the operation restores the rows. *)
Lemma marking_undone m t a l l' :
  marking m (Some (t, a)) l l' ->
  (forall x, In x l -> mk_by x <> Some a) -> (forall x, In x l -> mk_at x = None -> mk_clean x) ->
  map_where (fun x => (mk_by x === Some a) && (mk_match x === m)) (mk_set None) l' = l.
Proof.
  intros (p & -> & Hp) Hby Hclean; unfold map_where; rewrite map_map; rewrite <- (map_id l) at 2.
  apply map_ext_in; intros x Hx; destruct (p x) eqn:E.
  - destruct (Hp x Hx E) as [Hat Hm]; rewrite mk_set_by, mk_set_match, !bool_decide_true by auto; cbn.
    apply mk_restore; auto.
  - rewrite bool_decide_false by auto; reflexivity.
Qed.

Lemma marking_in m k l l' x : marking m k l l' -> In x l -> In x l' \/ In (mk_set k x) l'.
Proof.
  intros (p & -> & _) Hx; destruct (p x) eqn:E; [right | left]; apply in_map_where; exists x;
    rewrite E; auto.
Qed.
End Marking.

(** What a cancellation does to the nine result tables. *)
Definition marked_all (m : uuid) (k : mark) (d d' : DB) : Prop :=
  marking m k (db_judgeVotes d) (db_judgeVotes d') /\
  marking m k (db_scoreEvents d) (db_scoreEvents d') /\
  marking m k (db_penalties d) (db_penalties d') /\
  marking m k (db_faults d) (db_faults d') /\
  marking m k (db_roundAthleteResults d) (db_roundAthleteResults d') /\
  marking m k (db_matchResultDecisions d) (db_matchResultDecisions d') /\
  marking m k (db_matchAppeals d) (db_matchAppeals d') /\
  marking m k (db_scoringWindows d) (db_scoringWindows d') /\
  marking m k (db_rounds d) (db_rounds d').

#[export] Instance marked_all_preorder m t a : PreOrder (marked_all m (Some (t, a))).
Proof.
  split; [intros d; split_and!; apply marking_refl |].
  intros d1 d2 d3 H1 H2; unfold marked_all in *; destruct_and!; split_and!; eapply marking_trans; eauto.
Qed.

Definition markTables : list table :=
  [judgeVotes; scoreEvents; penalties; faults; roundAthleteResults; matchResultDecisions;
   matchAppeals; scoringWindows; rounds].

(** Writes to other tables mark nothing. *)
Lemma touches_marked ts m k d d' :
  touches ts d d' -> (forall t, t ∈ markTables -> t ∉ ts) -> marked_all m k d d'.
Proof.
  intros Ht Hts.
  assert (E : forall t, t ∈ markTables -> get t d' = get t d) by auto.
  split_and!.
  - rewrite (E judgeVotes ltac:(table_in) : db_judgeVotes d' = db_judgeVotes d); apply marking_refl.
  - rewrite (E scoreEvents ltac:(table_in) : db_scoreEvents d' = db_scoreEvents d); apply marking_refl.
  - rewrite (E penalties ltac:(table_in) : db_penalties d' = db_penalties d); apply marking_refl.
  - rewrite (E faults ltac:(table_in) : db_faults d' = db_faults d); apply marking_refl.
  - rewrite (E roundAthleteResults ltac:(table_in) : db_roundAthleteResults d' = db_roundAthleteResults d).
    apply marking_refl.
  - rewrite (E matchResultDecisions ltac:(table_in) : db_matchResultDecisions d' = db_matchResultDecisions d).
    apply marking_refl.
  - rewrite (E matchAppeals ltac:(table_in) : db_matchAppeals d' = db_matchAppeals d); apply marking_refl.
  - rewrite (E scoringWindows ltac:(table_in) : db_scoringWindows d' = db_scoringWindows d); apply marking_refl.
  - rewrite (E rounds ltac:(table_in) : db_rounds d' = db_rounds d); apply marking_refl.
Qed.

(** One of the [updateMany] calls of a cancellation. *)
Ltac marks_step p Hp :=
  intros ? ? ? Hrun; apply update_many_ok in Hrun as (_ & _ & ->);
  split_and!; first [apply marking_refl | exists p; split; [reflexivity | intros x _; exact (Hp x)]].

Section MarkSteps.
Context (m : uuid) (t : timestamp) (a : uuid).
Let k := Some (t, a).

Lemma marks_votes p :
  (forall v, p v = true -> v_invalidatedAt v = None /\ v_matchId v = m) ->
  respects (marked_all m k) (update_many judgeVotes p (markVote k)).
Proof. intros Hp; marks_step p Hp. Qed.
Lemma marks_events p :
  (forall e, p e = true -> e_revertedAt e = None /\ e_matchId e = m) ->
  respects (marked_all m k) (update_many scoreEvents p (markEvent k)).
Proof. intros Hp; marks_step p Hp. Qed.
Lemma marks_penalties p :
  (forall x, p x = true -> p_revertedAt x = None /\ p_matchId x = m) ->
  respects (marked_all m k) (update_many penalties p (markPenalty k)).
Proof. intros Hp; marks_step p Hp. Qed.
Lemma marks_faults p :
  (forall f, p f = true -> f_invalidatedAt f = None /\ f_matchId f = m) ->
  respects (marked_all m k) (update_many faults p (markFault k)).
Proof. intros Hp; marks_step p Hp. Qed.
Lemma marks_results p :
  (forall r, p r = true -> rr_invalidatedAt r = None /\ rr_matchId r = m) ->
  respects (marked_all m k) (update_many roundAthleteResults p (markRoundResult k)).
Proof. intros Hp; marks_step p Hp. Qed.
Lemma marks_decisions p :
  (forall x, p x = true -> dc_invalidatedAt x = None /\ dc_matchId x = m) ->
  respects (marked_all m k) (update_many matchResultDecisions p (markDecision k)).
Proof. intros Hp; marks_step p Hp. Qed.
Lemma marks_windows p :
  (forall w, p w = true -> w_invalidatedAt w = None /\ w_matchId w = m) ->
  respects (marked_all m k) (update_many scoringWindows p (markWindow k)).
Proof. intros Hp; marks_step p Hp. Qed.
Lemma marks_rounds p :
  (forall r, p r = true -> r_invalidatedAt r = None /\ r_matchId r = m) ->
  respects (marked_all m k) (update_many rounds p (markRound k)).
Proof. intros Hp; marks_step p Hp. Qed.
End MarkSteps.

Ltac selection := intros; to_prop; auto.
#[export] Hint Extern 2 (respects (marked_all _ _) (update_many judgeVotes _ _)) =>
  apply marks_votes; selection : tx.
#[export] Hint Extern 2 (respects (marked_all _ _) (update_many scoreEvents _ _)) =>
  apply marks_events; selection : tx.
#[export] Hint Extern 2 (respects (marked_all _ _) (update_many penalties _ _)) =>
  apply marks_penalties; selection : tx.
#[export] Hint Extern 2 (respects (marked_all _ _) (update_many faults _ _)) =>
  apply marks_faults; selection : tx.
#[export] Hint Extern 2 (respects (marked_all _ _) (update_many roundAthleteResults _ _)) =>
  apply marks_results; selection : tx.
#[export] Hint Extern 2 (respects (marked_all _ _) (update_many matchResultDecisions _ _)) =>
  apply marks_decisions; selection : tx.
#[export] Hint Extern 2 (respects (marked_all _ _) (update_many scoringWindows _ _)) =>
  apply marks_windows; selection : tx.
#[export] Hint Extern 2 (respects (marked_all _ _) (update_many rounds _ _)) =>
  apply marks_rounds; selection : tx.

Lemma marks_invalidateScores m b rids ns t a :
  respects (marked_all m (Some (t, a))) (invalidateScores m b rids ns (Some (t, a))).
Proof. unfold invalidateScores; respects_auto. Qed.

Lemma marks_invalidateRounds m rids t a :
  respects (marked_all m (Some (t, a))) (invalidateRounds m rids (Some (t, a))).
Proof. unfold invalidateRounds; respects_auto. Qed.

#[export] Hint Resolve marks_invalidateScores marks_invalidateRounds : tx.

(** The affected appeals are selected by id, which is unique. *)
Lemma marks_invalidateAppeals m b rids t a d u d' :
  wf d -> invalidateAppeals m b rids (Some (t, a)) d = Ok (u, d') -> marked_all m (Some (t, a)) d d'.
Proof.
  intros Hwf H; unfold invalidateAppeals in H.
  apply bind_ok in H as (src & ? & Hs & H); apply gets_ok in Hs as [-> ->].
  apply bind_ok in H as (aff & ? & Hs & H); apply gets_ok in Hs as [-> ->].
  apply bind_ok in H as ([] & d1 & H1 & H); transitivity d1.
  2:{ assert (Hr : respects (marked_all m (Some (t, a))) (_ ← update_many matchResultDecisions
        (fun x => (dc_invalidatedAt x === None) && (dc_matchId x === m) &&
           member rids (dc_sourceOvertimeRoundId x)) (markDecision (Some (t, a))); mret tt))
        by respects_auto.
      eapply Hr, H. }
  clear H; unfold when in H1; destruct (negb _) in H1; [| apply ret_ok in H1 as [_ ->]; reflexivity].
  apply bind_ok in H1 as (n & d2 & H1 & H); transitivity d2.
  { revert H1; apply marks_decisions; selection. }
  apply bind_ok in H as (n' & d3 & H & Hr); apply ret_ok in Hr as [_ ->].
  apply update_many_ok in H1 as (_ & _ & ->); apply update_many_ok in H as (_ & _ & ->).
  split_and!; try apply marking_refl.
  eexists; split; [reflexivity | cbn; intros x Hx Hp].
  apply existsb_exists in Hp as (i & Hi & Hxi); apply in_map_iff in Hi as (y & <- & Hy).
  apply filter_In in Hy as [Hy Hy2]; to_prop.
  assert (y = x) as <- by (eapply (wf_id matchAppeals d); eauto; cbn; congruence).
  auto.
Qed.

Lemma touches_invalidateAppeals m b rids k :
  respects (touches markTables) (invalidateAppeals m b rids k).
Proof. unfold invalidateAppeals; respects_auto. Qed.
Lemma touches_invalidateScores m b rids ns k :
  respects (touches markTables) (invalidateScores m b rids ns k).
Proof. unfold invalidateScores; respects_auto. Qed.
Lemma touches_invalidateRounds m rids k : respects (touches markTables) (invalidateRounds m rids k).
Proof. unfold invalidateRounds; respects_auto. Qed.
Lemma touches_releaseForTransition f to m t i r :
  respects (touches [matchOfficialAssignments; auditLogs]) (releaseForTransition f to m t i r).
Proof. unfold releaseForTransition, releaseRole; respects_auto. Qed.
#[export] Hint Resolve touches_invalidateScores touches_invalidateAppeals touches_invalidateRounds
  touches_releaseForTransition : tx.

Section SoundCancellation.
Lemma keeps_sound_invalidateScores m b rids ns k : respects keeps_sound (invalidateScores m b rids ns k).
Proof. unfold invalidateScores; respects_auto. Qed.
Lemma keeps_sound_invalidateAppeals m b rids k : respects keeps_sound (invalidateAppeals m b rids k).
Proof. unfold invalidateAppeals; respects_auto. Qed.
Lemma keeps_sound_invalidateRounds m rids k : respects keeps_sound (invalidateRounds m rids k).
Proof. unfold invalidateRounds; respects_auto. Qed.
Lemma keeps_sound_releaseForTransition f to m t i r :
  respects keeps_sound (releaseForTransition f to m t i r).
Proof. unfold releaseForTransition, releaseRole; respects_auto. Qed.
Lemma keeps_sound_retractFinishedMatch m a : respects keeps_sound (retractFinishedMatch m a).
Proof. unfold retractFinishedMatch, retractFrom, lockFixtureAndDownstream; respects_auto. Qed.
Lemma ids_grow_retractFinishedMatch m a : respects ids_grow (retractFinishedMatch m a).
Proof. unfold retractFinishedMatch, retractFrom, lockFixtureAndDownstream; respects_auto. Qed.
End SoundCancellation.

(** The operation row of a cancellation. *)
Definition cancellationRow (clk : Clock) (m : MatchRow) (identity : SupervisorCommandIdentity)
    (entireMatch : bool) (roundNumbers : list Z) (nextStatus : MatchStatus) (auditId id : uuid)
    : OperationRow :=
  mkOperationRow id (m_id m) auditId (if entireMatch then MATCH_RESET else ROUND_RESET) roundNumbers
    (m_status m) (lifecycleForPhase (m_status m)) (m_currentRound m) (m_startedAt m) (m_finishedAt m)
    nextStatus (cancellationLifecycle nextStatus) (cancellationRound nextStatus)
    (legacySession identity) APPLIED (serverNow clk) None.

Lemma recordCancellation_ok clk m i b ns next d audit op d' :
  recordCancellation clk m i b ns next d = Ok ((audit, op), d') ->
  al_id audit = db_nextId d /\ db_matchResultOperations d' = db_matchResultOperations d ++ [op] /\
  op = cancellationRow clk m i b ns next (al_id audit) (N.succ (al_id audit)) /\
  touches [auditLogs; matchResultOperations] d d' /\ (keeps_sound d d').
Proof.
  intros H.
  assert (Ht : touches [auditLogs; matchResultOperations] d d').
  { eapply (_ : respects _ (recordCancellation clk m i b ns next)), H.
    Unshelve. unfold recordCancellation, auditCommand; respects_auto. }
  assert (Hs : keeps_sound d d').
  { eapply (_ : respects _ (recordCancellation clk m i b ns next)), H.
    Unshelve. unfold recordCancellation, auditCommand; respects_auto. }
  unfold recordCancellation, auditCommand in H.
  apply bind_ok in H as (au & d1 & H1 & H); apply bind_ok in H as (o & d2 & H2 & H).
  apply bind_ok in H as (? & d3 & H3 & H); apply ret_ok in H as [E <-]; injection E as <- <-.
  apply (create_ok auditLogs) in H1 as (-> & _ & ->).
  apply (create_ok matchResultOperations) in H2 as (-> & _ & ->).
  apply (update_ok auditLogs) in H3 as (? & _ & _ & _ & ->).
  split_and!; auto; reflexivity.
Qed.

Definition cancelledRow (nextStatus : MatchStatus) (m x : MatchRow) : MatchRow :=
  x <| m_currentRound := cancellationRound nextStatus |> <| m_finishedAt := None |>
    <| m_intermissionEndsAt := None |> <| m_lifecycle := cancellationLifecycle nextStatus |>
    <| m_startedAt := (if nextStatus === WAITING then None else m_startedAt m) |>
    <| m_status := nextStatus |>.

(** What a committed cancellation did. *)
Lemma cancelResults_ok clk mid i b d t d' :
  sound d -> cancelResults clk mid i b d = Ok (t, d') ->
  exists m selected op,
    let next := cancelledStatus b selected in
    find_first (fun x => m_id x === mid) (db_matches d) = Some m /\ selected <> [] /\
    (db_nextId d <= op_auditLogId op)%N /\
    op = cancellationRow clk m i b (distinct (map r_roundNumber selected)) next (op_auditLogId op)
           (N.succ (op_auditLogId op)) /\
    db_matchResultOperations d' = db_matchResultOperations d ++ [op] /\
    ct_actionId t = op_id op /\ ct_status t = next /\
    marked_all mid (Some (serverNow clk, op_auditLogId op)) d d' /\
    db_matches d' = map_where (fun x => m_id x === mid) (cancelledRow next m) (db_matches d) /\
    sound d' /\ exists active, selected = selectedRounds b m active.
Proof.
  intros Hs H; unfold cancelResults, applyCancellation, finishCancellation in H.
  apply bind_ok in H as ([] & d1 & H1 & H); apply bind_ok in H as (ru & d2 & H2 & H).
  apply bind_ok in H as (ci & d3 & H3 & H); apply bind_ok in H as (m & d4 & Hm & H).
  apply (find_one_or_throw_ok matches) in Hm as [Hm ->].
  apply bind_ok in H as (act & d5 & H5 & H).
  unfold activeRounds in H5; run H5; reads.
  set (sel := selectedRounds b m _) in *; cbv zeta in H.
  apply bind_ok in H as ([] & d4 & H4 & H); apply throw_if_ok in H4 as [Hne ->]; to_prop.
  apply bind_ok in H as ([] & d4 & Hret & H).
  apply bind_ok in H as ([au op] & d5 & Hrec & H); cbv beta iota in H.
  apply bind_ok in H as ([] & d6 & Hsc & H); apply bind_ok in H as ([] & d7 & Hap & H).
  apply bind_ok in H as ([] & d8 & Hro & H); apply bind_ok in H as (mr & d9 & Hup & H).
  apply bind_ok in H as (rel & d10 & Hrel & H); apply ret_ok in H as [<- <-].
  assert (S4 : sound d4 /\ touches outcomeTables d d4 /\ ids_grow d d4).
  { unfold when in Hret; destruct (m_status m === FINISHED).
    - split_and!; [eapply keeps_sound_retractFinishedMatch | eapply touches_retractFinishedMatch
                  | eapply ids_grow_retractFinishedMatch]; eauto.
    - apply ret_ok in Hret as [_ ->]; split_and!; auto; reflexivity. }
  destruct S4 as (S4 & T4 & G4).
  apply recordCancellation_ok in Hrec as (Hau & Hop & Eop & T5 & S5); specialize (S5 S4).
  pose proof (keeps_sound_invalidateScores _ _ _ _ _ _ _ _ Hsc S5) as S6.
  pose proof (keeps_sound_invalidateAppeals _ _ _ _ _ _ _ Hap S6) as S7.
  pose proof (keeps_sound_invalidateRounds _ _ _ _ _ _ Hro S7) as S8.
  assert (T8 : touches markTables d5 d8).
  { transitivity d6; [eapply touches_invalidateScores, Hsc |].
    transitivity d7; [eapply touches_invalidateAppeals, Hap | eapply touches_invalidateRounds, Hro]. }
  assert (S9 : sound d9).
  { revert S8; eapply (keeps_sound_update matches); [| exact Hup]; intros; reflexivity. }
  pose proof (touches_releaseForTransition _ _ _ _ _ _ _ _ _ Hrel) as T10.
  assert (Eid : op_auditLogId op = al_id au) by (rewrite Eop; reflexivity).
  exists m, sel, op; cbv zeta; rewrite Eid; split_and!.
  - exact Hm.
  - intros E; rewrite E in Hne; apply Hne; reflexivity.
  - rewrite Hau; exact G4.
  - exact Eop.
  - apply (update_ok matches) in Hup as (? & _ & _ & _ & ->).
    rewrite (T10 matchResultOperations ltac:(table_notin) : db_matchResultOperations d10 = _); cbn.
    rewrite (T8 matchResultOperations ltac:(table_notin) : db_matchResultOperations d8 = db_matchResultOperations d5).
    rewrite Hop, (T4 matchResultOperations ltac:(table_notin) : db_matchResultOperations d4 = _); reflexivity.
  - reflexivity.
  - reflexivity.
  - transitivity d4; [eapply touches_marked; [exact T4 | tables_apart] |].
    transitivity d5; [eapply touches_marked; [exact T5 | tables_apart] |].
    transitivity d6; [eapply marks_invalidateScores, Hsc |].
    transitivity d7; [eapply marks_invalidateAppeals; [apply S6 | exact Hap] |].
    transitivity d8; [eapply marks_invalidateRounds, Hro |].
    transitivity d9; [| eapply touches_marked; [exact T10 | tables_apart]].
    eapply touches_marked; [eapply (touches_update matches [matches]); [table_in | exact Hup] | tables_apart].
  - rewrite (T10 matches ltac:(table_notin) : db_matches d10 = db_matches d9).
    apply (update_ok matches) in Hup as (? & _ & _ & _ & ->); cbn.
    rewrite (T8 matches ltac:(table_notin) : db_matches d8 = db_matches d5).
    rewrite (T5 matches ltac:(table_notin) : db_matches d5 = db_matches d4).
    rewrite (T4 matches ltac:(table_notin) : db_matches d4 = db_matches d); reflexivity.
  - eapply keeps_sound_releaseForTransition; eauto.
  - eexists; reflexivity.
Qed.

(** The marks of one audit entry, cleared from a table. *)
Definition unmark {R} `{Markable R} (m auditId : uuid) (l : list R) : list R :=
  map_where (fun x => (mk_by x === Some auditId) && (mk_match x === m)) (mk_set None) l.

Definition cleared (m a : uuid) (d d' : DB) : Prop :=
  db_judgeVotes d' = unmark m a (db_judgeVotes d) /\
  db_scoreEvents d' = unmark m a (db_scoreEvents d) /\
  db_penalties d' = unmark m a (db_penalties d) /\
  db_faults d' = unmark m a (db_faults d) /\
  db_roundAthleteResults d' = unmark m a (db_roundAthleteResults d) /\
  db_matchResultDecisions d' = unmark m a (db_matchResultDecisions d) /\
  db_matchAppeals d' = unmark m a (db_matchAppeals d) /\
  db_scoringWindows d' = unmark m a (db_scoringWindows d) /\
  db_rounds d' = unmark m a (db_rounds d).

Lemma unmark_comm {R} `{Markable R} m a (l : list R) :
  map_where (fun x => (mk_match x === m) && (mk_by x === Some a)) (mk_set None) l = unmark m a l.
Proof. apply map_where_eq; intros; apply andb_comm. Qed.

Lemma clearMarks_ok m a d u d' : clearMarks m a d = Ok (u, d') -> cleared m a d d'.
Proof.
  intros H; unfold clearMarks in H; run H; clear; unfold cleared; cbn; split_and!;
    first [reflexivity | exact (unmark_comm (R := ScoreEventRow) m a _)
          | exact (unmark_comm (R := PenaltyRow) m a _)].
Qed.

(** Unmarked rows carry no trace of an operation; the schema's checks promise part of it. *)
Definition clean_rows {R} `{Markable R} (l : list R) : Prop :=
  forall x, In x l -> mk_at x = None -> mk_clean x.
Definition marks_clean (d : DB) : Prop :=
  clean_rows (db_judgeVotes d) /\ clean_rows (db_scoreEvents d) /\ clean_rows (db_penalties d) /\
  clean_rows (db_faults d) /\ clean_rows (db_roundAthleteResults d) /\
  clean_rows (db_matchResultDecisions d) /\ clean_rows (db_matchAppeals d) /\
  clean_rows (db_scoringWindows d) /\ clean_rows (db_rounds d).

(** The nine result tables are as they were. *)
Definition restored (d d' : DB) : Prop := forall t, t ∈ markTables -> get t d' = get t d.

Lemma restored_tables d d' :
  db_judgeVotes d' = db_judgeVotes d -> db_scoreEvents d' = db_scoreEvents d ->
  db_penalties d' = db_penalties d -> db_faults d' = db_faults d ->
  db_roundAthleteResults d' = db_roundAthleteResults d ->
  db_matchResultDecisions d' = db_matchResultDecisions d -> db_matchAppeals d' = db_matchAppeals d ->
  db_scoringWindows d' = db_scoringWindows d -> db_rounds d' = db_rounds d -> restored d d'.
Proof.
  intros; unfold restored; apply (proj1 (list.Forall_forall (fun t => get t d' = get t d) markTables)).
  repeat constructor; assumption.
Qed.

(** Clearing the marks a cancellation made gives the tables it found. *)
Definition unmarks_to (m a : uuid) (d1 d : DB) : Prop :=
  unmark m a (db_judgeVotes d1) = db_judgeVotes d /\
  unmark m a (db_scoreEvents d1) = db_scoreEvents d /\
  unmark m a (db_penalties d1) = db_penalties d /\
  unmark m a (db_faults d1) = db_faults d /\
  unmark m a (db_roundAthleteResults d1) = db_roundAthleteResults d /\
  unmark m a (db_matchResultDecisions d1) = db_matchResultDecisions d /\
  unmark m a (db_matchAppeals d1) = db_matchAppeals d /\
  unmark m a (db_scoringWindows d1) = db_scoringWindows d /\
  unmark m a (db_rounds d1) = db_rounds d.

Lemma marked_unmarks m t a d d1 :
  refs_ok d -> marks_clean d -> (db_nextId d <= a)%N ->
  marked_all m (Some (t, a)) d d1 -> unmarks_to m a d1 d.
Proof.
  intros Hrefs Hclean Ha Hm.
  assert (Hr : forall tb (x : row_of tb), In x (get tb d) -> row_audit tb x <> Some a).
  { intros tb x Hx Hx2; specialize (Hrefs tb x a Hx Hx2); lia. }
  unfold marked_all, marks_clean in *; destruct_and!.
  split_and!; eapply marking_undone; eauto; intros x Hx Hx2.
  - exact (Hr judgeVotes x Hx Hx2).
  - exact (Hr scoreEvents x Hx Hx2).
  - exact (Hr penalties x Hx Hx2).
  - exact (Hr faults x Hx Hx2).
  - exact (Hr roundAthleteResults x Hx Hx2).
  - exact (Hr matchResultDecisions x Hx Hx2).
  - exact (Hr matchAppeals x Hx Hx2).
  - exact (Hr scoringWindows x Hx Hx2).
  - exact (Hr rounds x Hx Hx2).
Qed.

Lemma marked_cleared m t a d d1 d2 :
  refs_ok d -> marks_clean d -> (db_nextId d <= a)%N ->
  marked_all m (Some (t, a)) d d1 -> cleared m a d1 d2 -> restored d d2.
Proof.
  intros Hrefs Hclean Ha Hm Hc; apply marked_unmarks in Hm; auto.
  unfold unmarks_to, cleared in *; destruct_and!; apply restored_tables; congruence.
Qed.

(** The undo of a cancellation never breaks a unique index. *)
Lemma update_many_ran t p g d :
  table_ok t (map_where p g (get t d)) = true ->
  exists n, update_many t p g d = Ok (n, put t (map_where p g (get t d)) d).
Proof. intros H; eexists; apply update_many_ok; auto. Qed.

(** One of the clearing updates: it leaves the rows of [d], whose indexes hold. *)
Ltac fwd_clear d Hwf :=
  lazymatch goal with
  | |- context [(update_many ?t ?p ?g ≫= _) ?s] =>
      let n := fresh "n" in let Hn := fresh "Hn" in
      destruct (update_many_ran t p g s) as [n Hn];
      [ let l := constr:(map_where p g (get t s)) in
        assert (l = get t d) as -> ; [| exact (Hwf t)];
        first [match goal with H : unmark _ _ _ = _ |- _ => exact H end
              | match goal with H : unmark _ _ _ = _ |- _ =>
                  exact (eq_trans (unmark_comm _ _ _) H) end]
      | rewrite (bind_step _ _ _ _ _ Hn); clear n Hn]
  end.

Lemma clearMarks_total m a d d1 :
  wf d -> unmarks_to m a d1 d -> exists d2, clearMarks m a d1 = Ok (tt, d2).
Proof.
  intros Hwf Hu; unfold unmarks_to in Hu; destruct_and!; unfold clearMarks.
  do 9 fwd_clear d Hwf; eexists; reflexivity.
Qed.

(** The match row an undo leaves. *)
Definition undoneRow (op : OperationRow) (x : MatchRow) : MatchRow :=
  x <| m_currentRound := op_previousCurrentRound op |>
    <| m_finishedAt := op_previousFinishedAt op |> <| m_intermissionEndsAt := None |>
    <| m_lifecycle := op_previousLifecycle op |> <| m_startedAt := op_previousStartedAt op |>
    <| m_status := op_previousStatus op |>.

Lemma touches_clearMarks m a : respects (touches markTables) (clearMarks m a).
Proof. unfold clearMarks; respects_auto. Qed.
Lemma keeps_sound_clearMarks m a : respects keeps_sound (clearMarks m a).
Proof. unfold clearMarks; respects_auto. Qed.

Lemma undo_ok clk mid oid i d t d' :
  undoResultCancellation clk mid oid i d = Ok (t, d') ->
  exists op d1, In op (db_matchResultOperations d) /\ op_id op = oid /\ op_status op = APPLIED /\
    cleared mid (op_auditLogId op) d d1 /\ restored d1 d' /\
    db_matches d' = map_where (fun x => m_id x === mid) (undoneRow op) (db_matches d) /\
    ct_status t = op_previousStatus op /\
    op_matchId op = mid /\
    db_matchResultOperations d' = map_where (fun o => op_id o === op_id op)
      (fun o => o <| op_status := UNDONE |> <| op_undoneAt := Some (serverNow clk) |>)
      (db_matchResultOperations d) /\
    exists m, find_first (fun x => m_id x === mid) (db_matches d) = Some m /\
      m_status m = op_resultingStatus op /\ m_currentRound m = op_resultingCurrentRound op.
Proof.
  intros H; unfold undoResultCancellation, applyUndo in H.
  apply bind_ok in H as ([] & d1 & H1 & H); apply bind_ok in H as (ru & d2 & H2 & H).
  apply bind_ok in H as (ci & d3 & H3 & H); reads.
  apply bind_ok in H as (found & d1 & Hf & H); apply gets_ok in Hf as [-> ->].
  apply bind_ok in H as (op & d1 & Hop & H).
  destruct (find_first _ _) as [o |] eqn:Ef; [| discriminate].
  apply bind_ok in Hop as ([] & d2 & Ha & Hop); apply throw_if_ok in Ha as [Ha ->].
  apply ret_ok in Hop as [<- <-]; apply find_first_some in Ef as [Hin Hid]; to_prop.
  apply bind_ok in H as (m & d1 & Hm & H); apply (find_one_or_throw_ok matches) in Hm as [Hm ->].
  apply bind_ok in H as (act & d1 & Hm2 & H); apply gets_ok in Hm2 as [-> ->].
  apply bind_ok in H as ([] & d1 & Hg & H); apply throw_if_ok in Hg as [Hg ->].
  apply bind_ok in H as ([] & d1 & Hc & H); apply bind_ok in H as (mr & d2 & Hup & H).
  apply bind_ok in H as (op' & d3 & Hop & H); apply bind_ok in H as ([] & d4 & Hpr & H).
  apply bind_ok in H as (au & d5 & Hau & H); apply ret_ok in H as [<- <-].
  assert (T4 : touches outcomeTables d3 d4).
  { unfold when in Hpr; destruct (op_previousStatus _ === FINISHED) in Hpr; [| apply ret_ok in Hpr as [_ ->]; reflexivity].
    apply bind_ok in Hpr as (pd & d6 & Hpr & Hr); apply ret_ok in Hr as [_ ->].
    eapply touches_processFinishedMatch, Hpr. }
  assert (T5 : touches [auditLogs] d4 d5) by
    (eapply (touches_create auditLogs [auditLogs]); [table_in | exact Hau]).
  apply (update_ok matches) in Hup as (? & _ & _ & _ & ->).
  apply (update_ok matchResultOperations) in Hop as (? & _ & _ & _ & ->).
  exists o, d1; split_and!; auto.
  - eapply clearMarks_ok, Hc.
  - intros tb Htb; rewrite T5, T4, !get_put_other; [reflexivity | ..]; revert tb Htb; tables_apart.
  - rewrite (T5 matches ltac:(table_notin) : db_matches d5 = db_matches d4).
    rewrite (T4 matches ltac:(table_notin) : db_matches d4 = _); cbn.
    rewrite (touches_clearMarks _ _ _ _ _ Hc matches ltac:(table_notin) : db_matches d1 = db_matches d).
    reflexivity.
  - rewrite (T5 matchResultOperations ltac:(table_notin) : db_matchResultOperations d5 = db_matchResultOperations d4).
    rewrite (T4 matchResultOperations ltac:(table_notin) : db_matchResultOperations d4 = _); cbn.
    rewrite (touches_clearMarks _ _ _ _ _ Hc matchResultOperations ltac:(table_notin) :
      db_matchResultOperations d1 = db_matchResultOperations d); reflexivity.
  - to_prop; exists m; auto.
Qed.

(** C6: an undo gives back every result row a cancellation took, and the match, except
    that an intermission is not resumed and the lifecycle is the one of the phase. *)
Theorem cancel_then_undo clk1 clk2 mid i1 i2 b d t1 d1 t2 d2
  (Hs : sound d) (Hr : refs_ok d) (Hc : marks_clean d)
  (Hcancel : cancelResults clk1 mid i1 b d = Ok (t1, d1))
  (Hundo : undoResultCancellation clk2 mid (ct_actionId t1) i2 d1 = Ok (t2, d2)) :
  restored d d2 /\
  exists m, find_first (fun x => m_id x === mid) (db_matches d) = Some m /\
    ct_status t2 = m_status m /\
    db_matches d2 = map_where (fun x => m_id x === mid)
      (fun x => x <| m_intermissionEndsAt := None |> <| m_lifecycle := lifecycleForPhase (m_status m) |>)
      (db_matches d).
Proof.
  apply cancelResults_ok in Hcancel as (m & sel & op & Hm & _ & Ha & Eop & Eops & Eid & _ & Hmk & Hms & Hs1 & _); auto.
  assert (Hin : In op (db_matchResultOperations d1)) by (rewrite Eops; apply in_app_iff; right; left; reflexivity).
  apply undo_ok in Hundo as (op' & d1' & Hin' & Hid & _ & Hcl & Hre & Hms' & Est & _).
  assert (op' = op) as ->.
  { destruct Hs1 as [Hwf _]; eapply (wf_id matchResultOperations d1); eauto; cbn; congruence. }
  split; [intros tb Htb; rewrite (Hre tb Htb); eapply marked_cleared; eauto |].
  exists m; split_and!; [exact Hm | rewrite Est, Eop; reflexivity |].
  rewrite Hms', Hms, map_where_twice by auto; apply map_where_ext; intros x Hx Hx2; to_prop.
  assert (x = m) as -> by (eapply wf_match_unique; eauto; apply Hs).
  rewrite Eop; destruct m; reflexivity.
Qed.

Definition cancelTables : list table :=
  [matches; matchResultOperations; matchOfficialAssignments; auditLogs; bracketFixtures; bracketSlots;
   tournamentBrackets] ++ markTables.

Lemma respects_activeRounds R `{!PreOrder R} m : respects R (activeRounds m).
Proof. unfold activeRounds; respects_auto. Qed.

Lemma touches_cancelResults clk mid i b :
  respects (touches cancelTables) (cancelResults clk mid i b).
Proof.
  unfold cancelResults, applyCancellation, finishCancellation, retractFinishedMatch, retractFrom, lockFixtureAndDownstream, recordCancellation,
    auditCommand, invalidateScores, invalidateAppeals, invalidateRounds, releaseForTransition,
    releaseRole, activeRounds, rulesForMatch.
  respects_auto.
Qed.

(** The match keeps its rules through a cancellation. *)
Lemma rulesForMatch_cancelled clk mid i b d t d1 :
  sound d -> cancelResults clk mid i b d = Ok (t, d1) -> exists r, rulesForMatch mid d1 = Ok (r, d1).
Proof.
  intros Hs Hcancel; pose proof (touches_cancelResults _ _ _ _ _ _ _ Hcancel) as Ht.
  apply cancelResults_ok in Hcancel as Hi; [| exact Hs].
  destruct Hi as (m & sel & op & Hm & _ & _ & _ & _ & _ & _ & _ & Hms & _ & _).
  unfold cancelResults in Hcancel.
  apply bind_ok in Hcancel as ([] & d0 & ? & Hcancel); reads.
  apply bind_ok in Hcancel as (r & d2 & Hru & _).
  apply rulesForMatch_inv in Hru as (mr & tn & Hmr & Htn & Hcode).
  pose proof (same_answer _ _ _ Hm Hmr) as <-.
  eexists; eapply (rulesForMatch_total mid d1 _ tn); [| | exact Hcode].
  - rewrite Hms, find_first_map_where, Hmr by (intros; reflexivity); reflexivity.
  - rewrite (Ht tournaments ltac:(table_notin) : db_tournaments d1 = db_tournaments d), <- Htn.
    cbv beta; destruct (m_id m === mid); reflexivity.
Qed.

(** right after a cancellation of a match that is not finished, the supervisor's undo
    commits unless a later result exists, and then it is refused. *)
Theorem undo_unless_activity clk1 clk2 mid i1 i2 b d t1 d1 m c
  (Hs : sound d) (Hr : refs_ok d) (Hc : marks_clean d)
  (Hm : find_first (fun x => m_id x === mid) (db_matches d) = Some m)
  (Hphase : m_lifecycle m = lifecycleForPhase (m_status m)) (Hopen : m_status m <> FINISHED)
  (Hcancel : cancelResults clk1 mid i1 b d = Ok (t1, d1))
  (Hauth : lockActiveControlSession clk2 mid i2 d1 = Ok (c, d1)) :
  if activitySince mid (serverNow clk1) d1
  then undoResultCancellation clk2 mid (ct_actionId t1) i2 d1 = Err ResultCancellationUndoNotAllowed
  else exists t2 d2, undoResultCancellation clk2 mid (ct_actionId t1) i2 d1 = Ok (t2, d2).
Proof.
  destruct (rulesForMatch_cancelled _ _ _ _ _ _ _ Hs Hcancel) as [ru Hru].
  apply cancelResults_ok in Hcancel as (m' & sel & op & Hm' & Hsel & Ha & Eop & Eops & Eid & Est & Hmk & Hms & Hs1 & _); auto.
  assert (Hin : In op (db_matchResultOperations d1)) by (rewrite Eops; apply in_app_iff; right; left; reflexivity).
  pose proof (same_answer _ _ _ Hm Hm') as <-.
  set (m1 := cancelledRow (cancelledStatus b sel) m m).
  assert (Hm1 : find_first (fun x => m_id x === mid) (db_matches d1) = Some m1).
  { apply find_first_some in Hm as Hmid; destruct Hmid as [_ Hmid].
    rewrite Hms, find_first_map_where, Hm by (intros; reflexivity); cbn in *; rewrite Hmid; reflexivity. }
  assert (Hop1 : find_first (fun o => (op_id o === ct_actionId t1) && (op_matchId o === mid))
                   (db_matchResultOperations d1) = Some op).
  { apply (find_unique matchResultOperations d1 _ _ (op_id op)); cbn; auto.
    - apply Hs1.
    - rewrite Eid, Eop; cbn; apply find_first_some in Hm as [_ Hmid]; to_prop.
      rewrite !bool_decide_true by auto; reflexivity.
    - intros y; rewrite andb_true_iff, !bool_decide_eq_true; intros [-> _]; congruence. }
  unfold undoResultCancellation, applyUndo.
  rewrite (bind_step _ _ _ tt d1) by (eapply lockMatch_total; exact Hm1).
  rewrite (bind_step _ _ _ _ _ Hru), (bind_step _ _ _ _ _ Hauth).
  rewrite (bind_step _ _ _ (Some op) d1) by (unfold find_one, gets; cbn; rewrite Hop1; reflexivity).
  rewrite (bind_step _ _ _ op d1) by (rewrite Eop; reflexivity).
  rewrite (bind_step _ _ _ m1 d1) by (apply (find_one_or_throw_total matches); exact Hm1).
  rewrite (bind_step _ _ _ _ _ (eq_refl : gets _ d1 = Ok (_, d1))).
  replace (op_createdAt op) with (serverNow clk1) by (rewrite Eop; reflexivity).
  destruct (activitySince _ _ _) eqn:Eact.
  { rewrite orb_true_r; reflexivity. }
  rewrite (bind_step _ _ _ tt d1).
  2:{ rewrite Eop; cbn; rewrite !bool_decide_true by reflexivity; reflexivity. }
  destruct (clearMarks_total mid (op_auditLogId op) d d1) as [d2 Hcl]; [apply Hs | |].
  { eapply marked_unmarks; eauto. }
  rewrite (bind_step _ _ _ _ _ Hcl).
  pose proof (keeps_sound_clearMarks _ _ _ _ _ Hcl Hs1) as Hs2.
  pose proof (touches_clearMarks _ _ _ _ _ Hcl) as Ht2.
  assert (Hm2 : find_first (fun x => m_id x === mid) (db_matches d2) = Some m1)
    by (rewrite (Ht2 matches ltac:(table_notin) : db_matches d2 = db_matches d1); exact Hm1).
  fwd_update matches m1 Hm2.
  { intros r Hin2 Hr2 _; to_prop.
    assert (r = m1) as ->.
    { eapply wf_match_unique; [apply Hs2 | exact Hm2 | exact Hin2 | exact Hr2]. }
    rewrite Eop; pose proof (wf_row matches d m (proj1 Hs) (proj1 (find_first_some _ _ _ Hm))) as Hok.
    revert Hok; cbn; unfold match_ok; cbn; rewrite Hphase; auto. }
  assert (Hop2 : find_first (fun o => op_id o === op_id op) (db_matchResultOperations s) = Some op).
  { rewrite Es; cbn.
    rewrite (Ht2 matchResultOperations ltac:(table_notin) :
               db_matchResultOperations d2 = db_matchResultOperations d1).
    apply (find_unique matchResultOperations d1 _ _ (op_id op)); cbn; auto.
    - apply Hs1.
    - apply bool_decide_true; reflexivity.
    - intros y; rewrite bool_decide_eq_true; intros ->; reflexivity. }
  fwd_update matchResultOperations op Hop2.
  rewrite (bind_step _ _ _ tt s0).
  2:{ rewrite Eop; cbn; rewrite bool_decide_false by exact Hopen; reflexivity. }
  unfold auditCommand; fwd_create auditLogs; [reflexivity | reflexivity |].
  do 2 eexists; reflexivity.
Qed.

(** The lifecycle checks of a stored match. *)
Lemma match_ok_completed m : match_ok m = true -> m_lifecycle m = LIFECYCLE_COMPLETED -> m_status m = FINISHED.
Proof.
  unfold match_ok; intros H E; apply andb_prop in H as [H _]; apply andb_prop in H as [H _].
  rewrite E, bool_decide_true in H by reflexivity; cbn in H; to_prop; assumption.
Qed.
Lemma match_ok_active m : match_ok m = true -> m_lifecycle m <> SUSPENDED -> m_suspendedAt m = None.
Proof.
  unfold match_ok; intros H E; apply andb_prop in H as [_ H]; rewrite bool_decide_false in H by exact E.
  destruct (m_suspendedAt m); [discriminate | reflexivity].
Qed.

Lemma keeps_sound_startRound clk net m i : respects keeps_sound (startRound clk net m i).
Proof.
  unfold startRound, assertStartReadiness, auditCommand; respects_auto.
Qed.
Lemma keeps_sound_evaluateExpiration clk m rid : respects keeps_sound (evaluateExpiration clk m rid).
Proof.
  unfold evaluateExpiration, endRound, captureRoundResults; respects_auto.
Qed.

(** A write that leaves a suspended match outside suspension breaks a row check. *)
Lemma suspended_stays mid d m d' g :
  sound d -> sound d' -> find_first (fun x => m_id x === mid) (db_matches d) = Some m ->
  m_suspendedAt m <> None ->
  db_matches d' = map_where (fun x => m_id x === mid) g (db_matches d) ->
  m_suspendedAt (g m) = m_suspendedAt m -> m_lifecycle (g m) = SUSPENDED.
Proof.
  intros Hs Hs' Hm Hsus Hms Hg; destruct (base.decide (m_lifecycle (g m) = SUSPENDED)) as [|Hn]; [assumption |].
  exfalso; apply Hsus; rewrite <- Hg; apply match_ok_active; [| exact Hn].
  apply find_first_some in Hm as [Hin Hid].
  apply (wf_row matches d' (g m)); [apply Hs' |]; change (In (g m) (db_matches d')).
  rewrite Hms; apply in_map_where; exists m; rewrite Hid; auto.
Qed.

(** a suspended match refuses every command that would put it in another phase: it can
    neither be cancelled, nor start a round, nor have its running round end, since these
    leave its suspension time and so break the check of the match row. *)
Theorem suspended_match_refuses mid d m
  (Hs : sound d) (Hm : find_first (fun x => m_id x === mid) (db_matches d) = Some m)
  (Hsus : m_suspendedAt m <> None) :
  (forall clk i b r, cancelResults clk mid i b d <> Ok r) /\
  (forall clk net i r, startRound clk net mid i d <> Ok r) /\
  (forall clk rid t d', evaluateExpiration clk mid rid d <> Ok (ExpirationEnded t, d')).
Proof.
  split_and!.
  - intros clk i b [t d'] H; apply cancelResults_ok in H as (m' & sel & op & Hm' & _ & _ & _ & _ & _ & _ & _ & Hms & Hs' & _); auto.
    pose proof (same_answer _ _ _ Hm Hm') as <-.
    apply (suspended_stays _ _ _ _ _ Hs Hs' Hm Hsus) in Hms; [| reflexivity].
    revert Hms; cbn; unfold cancellationLifecycle; destruct (_ === _); discriminate.
  - intros clk net i [t d'] H; pose proof (keeps_sound_startRound _ _ _ _ _ _ _ H Hs) as Hs'.
    apply startRound_ok in H as (m' & ds & entry & Hm' & _ & _ & _ & _ & _ & E).
    assert (Hms : db_matches d' = map_where (fun x => m_id x === mid)
             (fun x => x <| m_currentRound := Some (rd_roundNumber ds) |>
                <| m_intermissionEndsAt := None |> <| m_lifecycle := IN_PROGRESS |>
                <| m_startedAt := (if (rd_roundNumber ds =? 1) && (rd_stage ds === REGULATION)
                                   then Some (serverNow clk) else m_startedAt m') |>
                <| m_status := startedStatus ds |>) (db_matches d)) by (rewrite E; reflexivity).
    apply (suspended_stays _ _ _ _ _ Hs Hs' Hm Hsus) in Hms; [discriminate Hms | reflexivity].
  - intros clk rid t d' H; pose proof (keeps_sound_evaluateExpiration _ _ _ _ _ _ H Hs) as Hs'.
    apply evaluateExpiration_ok in H as (m' & Hm' & rd & _ & _ & _ & H).
    apply endRound_ok in H as (_ & Hms & _); unfold expiredMatch in Hms.
    apply find_first_some in Hm' as Hid; destruct Hid as [_ Hid]; to_prop; rewrite Hid in Hms.
    apply (suspended_stays _ _ _ _ _ Hs Hs' Hm Hsus) in Hms; [discriminate Hms | reflexivity].
Qed.

(** ** Witnesses *)

(** Round 1 of the match is over, with a point and a fault on it. *)
Definition breakDB : DB := Eval vm_compute in
  (after (evaluateExpiration (at_time 120500) 10 50) resolvedDB)
    <| db_faults := [mkFaultRow 70 10 22 50 MINOR None (Some 40%N) 90000 None None] |>.
Definition cancelledDB : DB := Eval vm_compute in after (cancelResults (at_time 130000) 10 supervisor false) breakDB.
Definition cancelOperation : uuid := 1009.
Definition undoneDB : DB := Eval vm_compute in
  after (undoResultCancellation (at_time 140000) 10 cancelOperation supervisor) cancelledDB.

Ltac each_row Hr tac :=
  vm_compute in Hr; repeat (destruct Hr as [<- | Hr]; [tac |]); destruct Hr.
Ltac solve_refs :=
  let t := fresh "t" in let r := fresh "r" in let a := fresh "a" in
  let Hr := fresh "Hr" in let Ha := fresh "Ha" in
  intros t r a Hr Ha; destruct t;
  each_row Hr ltac:(vm_compute in Ha; first [discriminate Ha | injection Ha as <-; vm_compute; reflexivity]).
Ltac solve_clean :=
  let x := fresh "x" in let Hx := fresh "Hx" in
  split_and!; intros x Hx; each_row Hx ltac:(intros _; vm_compute; auto).

Lemma breakDB_sound : sound breakDB.
Proof. solve_sound. Defined.
Lemma breakDB_refs : refs_ok breakDB.
Proof. solve_refs. Defined.
Lemma breakDB_clean : marks_clean breakDB.
Proof. solve_clean. Defined.
Definition cancelledRound1 : CancellationTransition :=
  mkCancellation 10 cancelOperation "M" [1] WAITING [].

Lemma cancel_then_undo_witness :
  map r_invalidatedAt (db_rounds cancelledDB) = [Some 130000] /\
  map f_invalidatedAt (db_faults cancelledDB) = [Some 130000] /\
  restored breakDB undoneDB.
Proof.
  split; [reflexivity |]; split; [reflexivity |].
  apply (cancel_then_undo (at_time 130000) (at_time 140000) 10 supervisor supervisor false breakDB
           cancelledRound1 cancelledDB (mkCancellation 10 cancelOperation "M" [1] BREAK []) undoneDB
           breakDB_sound breakDB_refs breakDB_clean);
    vm_compute; reflexivity.
Defined.

Lemma undo_unless_activity_witness :
  activitySince 10 130000 cancelledDB = false /\
  exists t2 d2, undoResultCancellation (at_time 140000) 10 cancelOperation supervisor cancelledDB
                  = Ok (t2, d2).
Proof.
  split; [vm_compute; reflexivity |].
  assert (E : activitySince 10 130000 cancelledDB = false) by (vm_compute; reflexivity).
  pose proof (undo_unless_activity (at_time 130000) (at_time 140000) 10 supervisor supervisor false
    breakDB cancelledRound1 cancelledDB
    ((sampleMatch 10 BREAK IN_PROGRESS (Some 1) (Some 0)) <| m_intermissionEndsAt := Some 150500 |>)
    tt breakDB_sound breakDB_refs breakDB_clean) as U.
  cbn [serverNow at_time] in U; rewrite E in U.
  apply U; first [vm_compute; reflexivity | discriminate].
Defined.

(** A match suspended during the break. *)
Definition suspendedDB : DB :=
  sampleDB ((sampleMatch 10 BREAK SUSPENDED (Some 1) (Some 0)) <| m_suspendedAt := Some 125000 |>)
    [sampleRound 50 1 REGULATION 0 0 (Some 120000)].

Lemma suspended_match_refuses_witness :
  match_ok (sampleMatch 10 BREAK SUSPENDED (Some 1) (Some 0)) = false /\
  forall clk i b r, cancelResults clk 10 i b suspendedDB <> Ok r.
Proof.
  split; [reflexivity |].
  apply (suspended_match_refuses 10 suspendedDB
    ((sampleMatch 10 BREAK SUSPENDED (Some 1) (Some 0)) <| m_suspendedAt := Some 125000 |>));
    [solve_sound | vm_compute; reflexivity | discriminate].
Defined.
