(* ===== verification/Exit.v ===== *)
(** * Exit

    [realtime/match-lifecycle.service.ts], ending a match: leaving it with its results
    cancelled, or suspended with the ones of its finished rounds kept, and completing it. *)
From S2P Require Import Prelude Schema Database Rules Authorization Scenario Scoring Lifecycle.
From S2P Require Import BracketOutcome Cancellation.

(** ** Leaving a match *)

Definition retainableV2Phase (s : MatchStatus) : bool :=
  existsb (fun x => s === x) [REGULATION_APPEAL; OVERTIME_READY; OVERTIME_RUNNING; OVERTIME_PAUSED;
    OVERTIME_APPEAL; OVERTIME_TIEBREAK_DECISION; RESULT_PUBLICATION_READY].

Definition exitRoundNumbers (mode : MatchExitMode) : list Z :=
  match mode with CANCEL_RESULTS => [1; 2] | SUSPEND_KEEP_ROUND_1 => [2] | _ => [] end.
Definition exitStatus (mode : MatchExitMode) (s : MatchStatus) : MatchStatus :=
  match mode with
  | CANCEL_RESULTS => WAITING
  | SUSPEND_KEEP_V2_PHASE => s
  | SUSPEND_KEEP_ROUND_1 => BREAK
  | SUSPEND_KEEP_ROUNDS_1_AND_2 => AWAITING_RESULT_SAVE
  end.
Definition exitLifecycle (mode : MatchExitMode) : MatchLifecycle :=
  match mode with CANCEL_RESULTS => NOT_STARTED | _ => SUSPENDED end.
Definition exitCurrentRound (mode : MatchExitMode) (currentRound : option Z) : option Z :=
  match mode with
  | CANCEL_RESULTS => None
  | SUSPEND_KEEP_V2_PHASE => currentRound
  | SUSPEND_KEEP_ROUND_1 => Some 1
  | SUSPEND_KEEP_ROUNDS_1_AND_2 => Some 2
  end.
Definition exitOperationType (mode : MatchExitMode) : MatchResultOperationType :=
  match mode with
  | CANCEL_RESULTS => MATCH_EXIT_CANCEL_RESULTS
  | SUSPEND_KEEP_ROUND_1 => MATCH_EXIT_SUSPEND_KEEP_ROUND_1
  | _ => MATCH_EXIT_SUSPEND_KEEP_ROUNDS_1_AND_2
  end.
Definition exitReason (mode : MatchExitMode) : ReleaseReason :=
  match mode with
  | CANCEL_RESULTS => MATCH_EXIT_CANCELLED
  | SUSPEND_KEEP_ROUND_1 => MATCH_EXIT_SUSPENDED_KEEP_ROUND_1
  | _ => MATCH_EXIT_SUSPENDED_KEEP_ROUNDS_1_AND_2
  end.

(** The modes whose conditions do not hold are refused. *)
Definition exitRefused (mode : MatchExitMode) (s : MatchStatus)
    (hasRoundOne hasRoundTwo unresolved : bool) : bool :=
  ((mode === SUSPEND_KEEP_V2_PHASE) && negb (retainableV2Phase s)) ||
  ((mode === SUSPEND_KEEP_ROUND_1) && (negb hasRoundOne || unresolved)) ||
  ((mode === SUSPEND_KEEP_ROUNDS_1_AND_2) && (negb hasRoundOne || negb hasRoundTwo || unresolved)).

Definition endedRound (n : Z) (r : RoundRow) : bool :=
  (r_roundNumber r =? n) && negb (r_endedAt r === None).

(** The rows of the cancelled round numbers. *)
Definition invalidateRoundNumbers (matchId : uuid) (roundNumbers : list Z) (k : mark) : DbM unit :=
  windowsNow ← gets db_scoringWindows;
  roundsNow ← gets db_rounds;
  _ ← update_many judgeVotes (fun v => (v_invalidatedAt v === None) && (v_matchId v === matchId) &&
        existsb (fun w => (w_id w === v_scoringWindowId v) &&
                          memberZ roundNumbers (Some (w_roundNumber w))) windowsNow) (markVote k);
  _ ← update_many scoreEvents (fun e => (e_revertedAt e === None) && (e_matchId e === matchId) &&
        memberZ roundNumbers (e_roundNumber e)) (markEvent k);
  _ ← update_many penalties (fun p => (p_revertedAt p === None) && (p_matchId p === matchId) &&
        memberZ roundNumbers (p_roundNumber p)) (markPenalty k);
  _ ← update_many faults (fun f => (f_invalidatedAt f === None) && (f_matchId f === matchId) &&
        existsb (fun r => (r_id r === f_roundId f) && memberZ roundNumbers (Some (r_roundNumber r)))
          roundsNow) (markFault k);
  _ ← update_many scoringWindows (fun w => (w_invalidatedAt w === None) && (w_matchId w === matchId) &&
        memberZ roundNumbers (Some (w_roundNumber w))) (markWindow k);
  _ ← update_many rounds (fun r => (r_invalidatedAt r === None) && (r_matchId r === matchId) &&
        memberZ roundNumbers (Some (r_roundNumber r))) (markRound k);
  mret tt.

(** [MatchExitTransition] *)
Record ExitTransition : Type := mkExit {
  et_matchId : uuid; et_matchPublicId : string; et_tournamentId : uuid; et_mode : MatchExitMode;
  et_releasedOfficialIds : list uuid }.

(** The operation row of an exit. *)
Definition exitRow (clk : Clock) (m : MatchRow) (identity : SupervisorCommandIdentity)
    (mode : MatchExitMode) (auditId id : uuid) : OperationRow :=
  mkOperationRow id (m_id m) auditId (exitOperationType mode) (exitRoundNumbers mode) (m_status m)
    (m_lifecycle m) (m_currentRound m) (m_startedAt m) (m_finishedAt m) (exitStatus mode (m_status m))
    (exitLifecycle mode) (exitCurrentRound mode (m_currentRound m)) (legacySession identity) APPLIED
    (rowNow clk) None.

(** The audit entry and the operation row of an exit. *)
Definition recordExit (clk : Clock) (m : MatchRow) (identity : SupervisorCommandIdentity)
    (mode : MatchExitMode) : DbM AuditRow :=
  audit ← auditCommand (m_id m) identity MATCH_EXITED
    [("mode", JMode mode); ("exitedAt", JTime (serverNow clk)); ("fromStatus", JStatus (m_status m));
     ("toStatus", JStatus (exitStatus mode (m_status m)))]%string;
  operation ← create matchResultOperations (exitRow clk m identity mode (al_id audit));
  _ ← update auditLogs (fun a => al_id a === al_id audit) (fun a => a <| al_metadata := JObj
        [("mode", JMode mode); ("exitOperationId", JId (op_id operation));
         ("invalidatedRoundNumbers", JList (map JNum (exitRoundNumbers mode)))]%string |>);
  mret audit.

(** [exitMatch] once the mode is accepted. *)
Definition applyExit (clk : Clock) (matchId : uuid) (m : MatchRow)
    (identity : SupervisorCommandIdentity) (mode : MatchExitMode) : DbM ExitTransition :=
  audit ← recordExit clk m identity mode;
  _ ← when (negb (bool_decide (length (exitRoundNumbers mode) = 0%nat)))
        (invalidateRoundNumbers matchId (exitRoundNumbers mode) (Some (serverNow clk, al_id audit)));
  _ ← update matches (fun x => m_id x === matchId)
        (fun x => x <| m_currentRound := exitCurrentRound mode (m_currentRound m) |>
                    <| m_finishedAt := None |> <| m_intermissionEndsAt := None |>
                    <| m_lifecycle := exitLifecycle mode |>
                    <| m_startedAt := (if mode === CANCEL_RESULTS then None else m_startedAt m) |>
                    <| m_status := exitStatus mode (m_status m) |>
                    <| m_suspendedAt := (if exitLifecycle mode === SUSPENDED
                                         then Some (serverNow clk) else None) |>);
  released ← releaseForTransition (m_status m) (exitStatus mode (m_status m)) matchId (serverNow clk)
               identity (Some (exitReason mode));
  mret (mkExit matchId (m_publicId m) (m_tournamentId m) mode released).

(** [exitMatch] *)
Definition exitMatch (clk : Clock) (matchId : uuid) (identity : SupervisorCommandIdentity)
    (mode : MatchExitMode) : DbM ExitTransition :=
  _ ← lockMatch matchId MatchLifecycleTargetMissing;
  _ ← rulesForMatch matchId;
  _ ← lockActiveSupervisorIdentity clk matchId identity;
  m ← find_one_or_throw matches (fun m => m_id m === matchId);
  _ ← throw_if ((m_lifecycle m === LIFECYCLE_COMPLETED) || (m_status m === FINISHED))
        (InvalidResultCancellationState (m_status m));
  valid ← find_many rounds (fun r => (r_invalidatedAt r === None) && (r_matchId r === matchId));
  unresolved ← find_one scoringWindows (unresolvedWindow matchId);
  _ ← throw_if (exitRefused mode (m_status m) (existsb (endedRound 1) valid) (existsb (endedRound 2) valid)
                  (match unresolved with Some _ => true | None => false end))
        (InvalidResultCancellationState (m_status m));
  applyExit clk matchId m identity mode.

(** ** Completing a match *)

(** [MatchCompletionTransition] *)
Record CompletionTransition : Type := mkCompletion {
  cp_matchId : uuid; cp_matchPublicId : string; cp_tournamentId : uuid; cp_finishedAt : timestamp;
  cp_releasedOfficialIds : list uuid }.

(** [completeMatch] *)
Definition completeMatch (clk : Clock) (matchId : uuid) (identity : SupervisorCommandIdentity)
    : DbM CompletionTransition :=
  _ ← lockMatch matchId MatchLifecycleTargetMissing;
  _ ← rulesForMatch matchId;
  _ ← lockActiveSupervisorIdentity clk matchId identity;
  m ← find_one_or_throw matches (fun m => m_id m === matchId);
  if (m_lifecycle m === LIFECYCLE_COMPLETED) || (m_status m === FINISHED) then
    finishedAt ← or_throw (m_finishedAt m) MatchAlreadyCompleted;
    mret (mkCompletion matchId (m_publicId m) (m_tournamentId m) finishedAt [])
  else
  _ ← throw_if ((m_lifecycle m === SUSPENDED) || (m_status m !== AWAITING_RESULT_SAVE))
        MatchCompletionNotReady;
  valid ← find_many rounds (fun r => (r_invalidatedAt r === None) && (r_matchId r === matchId));
  unresolved ← find_one scoringWindows (unresolvedWindow matchId);
  _ ← throw_if (match unresolved with Some _ => true | None => false end ||
                negb (existsb (endedRound 1) valid) || negb (existsb (endedRound 2) valid))
        MatchCompletionNotReady;
  _ ← update matches (fun x => m_id x === matchId)
        (fun x => x <| m_finishedAt := Some (serverNow clk) |> <| m_lifecycle := LIFECYCLE_COMPLETED |>
                    <| m_status := FINISHED |>);
  _ ← processFinishedMatch clk matchId None;
  _ ← auditCommand matchId identity MATCH_FINISHED
        (("completedAt"%string, JTime (serverNow clk)) :: assignmentField identity);
  released ← releaseForTransition (m_status m) FINISHED matchId (serverNow clk) identity None;
  mret (mkCompletion matchId (m_publicId m) (m_tournamentId m) (serverNow clk) released).

Lemma marks_invalidateRoundNumbers m ns t a :
  respects (marked_all m (Some (t, a))) (invalidateRoundNumbers m ns (Some (t, a))).
Proof. unfold invalidateRoundNumbers; respects_auto. Qed.

Lemma touches_invalidateRoundNumbers m ns k :
  respects (touches markTables) (invalidateRoundNumbers m ns k).
Proof. unfold invalidateRoundNumbers; respects_auto. Qed.
#[export] Hint Resolve marks_invalidateRoundNumbers touches_invalidateRoundNumbers : tx.

(** ** Facts *)

(** Releasing the crew leaves nobody assigned and reports who was. *)
Lemma releaseForTransition_ok from to m t i r d ids d' :
  releaseForTransition from to m t i (Some r) d = Ok (ids, d') ->
  (forall a, In a (db_matchOfficialAssignments d') -> activeAssignment m a = false) /\
  ids = map oa_officialId (List.filter (activeAssignment m) (db_matchOfficialAssignments d)).
Proof.
  unfold releaseForTransition; intros H; apply bind_ok in H as (l & d1 & Hl & H).
  apply gets_ok in Hl as [-> ->].
  destruct (bool_decide _) eqn:E in H; to_prop.
  - apply ret_ok in H as [<- <-]; apply nil_length_inv in E; cbn in E; split; [| rewrite E; reflexivity].
    intros a Ha; destruct (activeAssignment m a) eqn:Ea; [exfalso | reflexivity].
    assert (Hin : In a (List.filter (activeAssignment m) (db_matchOfficialAssignments d)))
      by (apply filter_In; auto).
    rewrite E in Hin; destruct Hin.
  - apply bind_ok in H as (n1 & d1 & H1 & H); apply bind_ok in H as (n2 & d2 & H2 & H).
    apply bind_ok in H as (au & d3 & H3 & H); apply ret_ok in H as [<- <-]; split; [| reflexivity].
    unfold releaseRole in H1, H2.
    apply (update_many_ok matchOfficialAssignments) in H1 as (_ & _ & ->).
    apply (update_many_ok matchOfficialAssignments) in H2 as (_ & _ & ->).
    apply (create_ok auditLogs) in H3 as (_ & _ & ->); cbn.
    intros a Ha; apply in_map_where in Ha as (b & Hb & ->); apply in_map_where in Hb as (c & Hc & ->).
    destruct (activeAssignment m c) eqn:Ec; cbn.
    + destruct (oa_role c === OFFICIAL_JUDGE) eqn:Ej; cbn.
      * assert (Hn : activeAssignment m (c <| oa_releaseReason := Some r |> <| oa_releasedAt := Some t |>) = false).
        { unfold activeAssignment; cbn; apply andb_false_iff; auto. }
        rewrite Hn; cbn; exact Hn.
      * rewrite Ec; destruct (oa_role c); [discriminate Ej |]; cbn.
        unfold activeAssignment; cbn; apply andb_false_iff; auto.
    + rewrite Ec; cbn; exact Ec.
Qed.

(** The rounds of a match with the numbers [drops] accepts are taken back, with everything counted in them; every
    other row is as it was. *)
Definition takenBack (m : uuid) (drops : Z -> bool) (k : mark) (d d' : DB) : Prop :=
  db_rounds d' = map_where (fun r => (r_invalidatedAt r === None) && (r_matchId r === m) && drops (r_roundNumber r))
    (markRound k) (db_rounds d) /\
  db_scoringWindows d' = map_where (fun w => (w_invalidatedAt w === None) && (w_matchId w === m) && drops (w_roundNumber w))
    (markWindow k) (db_scoringWindows d) /\
  db_judgeVotes d' = map_where (fun v => (v_invalidatedAt v === None) && (v_matchId v === m) &&
      existsb (fun w => (w_id w === v_scoringWindowId v) && drops (w_roundNumber w)) (db_scoringWindows d))
    (markVote k) (db_judgeVotes d) /\
  db_scoreEvents d' = map_where (fun e => (e_revertedAt e === None) && (e_matchId e === m) && from_option drops false (e_roundNumber e))
    (markEvent k) (db_scoreEvents d) /\
  db_penalties d' = map_where (fun p => (p_revertedAt p === None) && (p_matchId p === m) && from_option drops false (p_roundNumber p))
    (markPenalty k) (db_penalties d) /\
  db_faults d' = map_where (fun f => (f_invalidatedAt f === None) && (f_matchId f === m) &&
      existsb (fun r => (r_id r === f_roundId f) && drops (r_roundNumber r)) (db_rounds d))
    (markFault k) (db_faults d).

Lemma invalidateRoundNumbers_ok m ns k d u d' :
  invalidateRoundNumbers m ns k d = Ok (u, d') -> takenBack m (fun n => memberZ ns (Some n)) k d d'.
Proof.
  unfold invalidateRoundNumbers; intros H; run H; clear; unfold takenBack; split_and!; reflexivity.
Qed.

Lemma takenBack_ext m drops drops' k d d' : (forall n, drops n = drops' n) -> takenBack m drops k d d' -> takenBack m drops' k d d'.
Proof.
  intros E; assert (Hx : forall {A} (q : A -> bool) num l, existsb (fun x => q x && drops (num x)) l = existsb (fun x => q x && drops' (num x)) l)
    by (intros A q num l; induction l as [| x l IH]; cbn; [| rewrite E, IH]; reflexivity).
  intros (H1 & H2 & H3 & H4 & H5 & H6); unfold takenBack; rewrite H1, H2, H3, H4, H5, H6.
  split_and!; apply map_where_eq; intros x _; f_equal; try apply E; try apply Hx.
  - destruct (e_roundNumber x); cbn; [apply E | reflexivity].
  - destruct (p_roundNumber x); cbn; [apply E | reflexivity].
Qed.
Lemma takenBack_none m k d : takenBack m (fun _ => false) k d d.
Proof.
  assert (Hn : forall {A} (q : A -> bool) l, existsb (fun x => q x && false) l = false)
    by (intros A q l; induction l as [| x l IH]; cbn; [reflexivity | rewrite andb_false_r; exact IH]).
  unfold takenBack; split_and!; symmetry; apply map_where_nil; intros x _; cbn; rewrite ?Hn; try apply andb_false_r.
  - destruct (e_roundNumber x); cbn; apply andb_false_r.
  - destruct (p_roundNumber x); cbn; apply andb_false_r.
Qed.
Definition marked (d : DB) :=
  (db_rounds d, db_scoringWindows d, db_judgeVotes d, db_scoreEvents d, db_penalties d, db_faults d).
Lemma takenBack_same m drops k d d1 d2 d' : marked d1 = marked d -> marked d' = marked d2 -> takenBack m drops k d1 d2 -> takenBack m drops k d d'.
Proof. unfold marked, takenBack; intros E E'; injection E as -> -> -> -> -> ->; injection E' as -> -> -> -> -> ->; auto. Qed.

Lemma touches_recordExit clk m i mode :
  respects (touches [auditLogs; matchResultOperations]) (recordExit clk m i mode).
Proof. unfold recordExit, auditCommand; respects_auto. Qed.

Lemma recordExit_ops clk m i mode d au d' :
  recordExit clk m i mode d = Ok (au, d') ->
  exists id, db_matchResultOperations d' = db_matchResultOperations d ++ [exitRow clk m i mode (al_id au) id].
Proof.
  intros H; unfold recordExit, auditCommand in H.
  apply bind_ok in H as (a & d1 & H1 & H); apply (create_ok auditLogs) in H1 as (-> & _ & ->).
  apply bind_ok in H as (o & d2 & H2 & H); apply (create_ok matchResultOperations) in H2 as (-> & _ & ->).
  apply bind_ok in H as (? & d3 & H3 & H); apply ret_ok in H as [<- <-].
  apply (update_ok auditLogs) in H3 as (? & _ & _ & _ & ->); eexists; reflexivity.
Qed.

(** The regulation rounds whose results a mode keeps. *)
Definition keptRounds (mode : MatchExitMode) : list Z :=
  match mode with
  | SUSPEND_KEEP_ROUND_1 => [1]
  | SUSPEND_KEEP_ROUNDS_1_AND_2 => [1; 2]
  | _ => []
  end.

Definition exitedRow (clk : Clock) (mode : MatchExitMode) (m x : MatchRow) : MatchRow :=
  x <| m_currentRound := exitCurrentRound mode (m_currentRound m) |>
    <| m_finishedAt := None |> <| m_intermissionEndsAt := None |>
    <| m_lifecycle := exitLifecycle mode |>
    <| m_startedAt := (if mode === CANCEL_RESULTS then None else m_startedAt m) |>
    <| m_status := exitStatus mode (m_status m) |>
    <| m_suspendedAt := (if exitLifecycle mode === SUSPENDED then Some (serverNow clk) else None) |>.

(** What a committed exit did. *)
Lemma exitMatch_ok clk mid i mode d t d' :
  exitMatch clk mid i mode d = Ok (t, d') ->
  exists m aid open, let valid := List.filter (fun r => (r_invalidatedAt r === None) && (r_matchId r === mid))
                               (db_rounds d) in
    find_first (fun x => m_id x === mid) (db_matches d) = Some m /\
    m_status m <> FINISHED /\ m_lifecycle m <> LIFECYCLE_COMPLETED /\
    exitRefused mode (m_status m) (existsb (endedRound 1) valid) (existsb (endedRound 2) valid)
      open = false /\
    (open = false -> forall w, In w (db_scoringWindows d) -> unresolvedWindow mid w = false) /\
    db_matches d' = map_where (fun x => m_id x === mid) (exitedRow clk mode m) (db_matches d) /\
    takenBack mid (fun n => memberZ (exitRoundNumbers mode) (Some n)) (Some (serverNow clk, aid)) d d' /\
    (forall a, In a (db_matchOfficialAssignments d') -> activeAssignment mid a = false) /\
    et_releasedOfficialIds t =
      map oa_officialId (List.filter (activeAssignment mid) (db_matchOfficialAssignments d)) /\
    exists id, db_matchResultOperations d' =
      db_matchResultOperations d ++ [exitRow clk m i mode aid id].
Proof.
  intros H; unfold exitMatch, applyExit in H.
  apply bind_ok in H as ([] & d1 & ? & H); apply bind_ok in H as (ru & d2 & ? & H).
  apply bind_ok in H as (ci & d3 & ? & H); reads.
  apply bind_ok in H as (m & d1 & Hm & H); apply (find_one_or_throw_ok matches) in Hm as [Hm ->].
  apply bind_ok in H as ([] & d1 & Hg & H); apply throw_if_ok in Hg as [Hg ->].
  apply bind_ok in H as (valid & d1 & Hv & H); apply gets_ok in Hv as [-> ->].
  apply bind_ok in H as (un & d1 & Hv & H); apply gets_ok in Hv as [-> ->].
  apply bind_ok in H as ([] & d1 & Hr & H); apply throw_if_ok in Hr as [Hr ->].
  apply bind_ok in H as (au & d1 & Hrec & H); apply bind_ok in H as ([] & d2 & Hinv & H).
  apply bind_ok in H as (mr & d3 & Hup & H); apply bind_ok in H as (ids & d4 & Hrel & H).
  apply ret_ok in H as [<- <-]; pose proof (recordExit_ops _ _ _ _ _ _ _ Hrec) as Eops.
  apply touches_recordExit in Hrec.
  pose proof (touches_releaseForTransition _ _ _ _ _ _ _ _ _ Hrel) as T4.
  apply releaseForTransition_ok in Hrel as [Hnone ->].
  apply (update_ok matches) in Hup as (? & _ & _ & _ & ->).
  assert (Hinv' : takenBack mid (fun n => memberZ (exitRoundNumbers mode) (Some n)) (Some (serverNow clk, al_id au)) d1 d2 /\
                  touches markTables d1 d2).
  { destruct mode; cbn [exitRoundNumbers length] in *; unfold when in Hinv;
      rewrite ?bool_decide_true, ?bool_decide_false in Hinv by (try discriminate; reflexivity); cbn in Hinv;
      first [ split; [eapply invalidateRoundNumbers_ok, Hinv | eapply touches_invalidateRoundNumbers, Hinv]
            | apply ret_ok in Hinv as [_ ->]; split; [apply takenBack_none | reflexivity] ]. }
  destruct Hinv' as [Hrd T2]; to_prop.
  do 3 eexists; cbv zeta; split_and!; [exact Hm | assumption | assumption | exact Hr | ..].
  - intros Ho; apply find_first_none.
    match type of Ho with (match ?x with _ => _ end = _) => destruct x eqn:E end;
      [discriminate Ho | exact E].
  - rewrite (T4 matches ltac:(table_notin) : db_matches d4 = _); cbn.
    rewrite (T2 matches ltac:(table_notin) : db_matches d2 = db_matches d1).
    rewrite (Hrec matches ltac:(table_notin) : db_matches d1 = db_matches d); reflexivity.
  - refine (takenBack_same _ _ _ d d1 d2 d4 _ _ Hrd); unfold marked.
    + rewrite (Hrec rounds ltac:(table_notin) : db_rounds d1 = _), (Hrec scoringWindows ltac:(table_notin) : db_scoringWindows d1 = _),
        (Hrec judgeVotes ltac:(table_notin) : db_judgeVotes d1 = _), (Hrec scoreEvents ltac:(table_notin) : db_scoreEvents d1 = _),
        (Hrec penalties ltac:(table_notin) : db_penalties d1 = _), (Hrec faults ltac:(table_notin) : db_faults d1 = _); reflexivity.
    + rewrite (T4 rounds ltac:(table_notin) : db_rounds d4 = _), (T4 scoringWindows ltac:(table_notin) : db_scoringWindows d4 = _),
        (T4 judgeVotes ltac:(table_notin) : db_judgeVotes d4 = _), (T4 scoreEvents ltac:(table_notin) : db_scoreEvents d4 = _),
        (T4 penalties ltac:(table_notin) : db_penalties d4 = _), (T4 faults ltac:(table_notin) : db_faults d4 = _); reflexivity.
  - exact Hnone.
  - cbn; rewrite (T2 matchOfficialAssignments ltac:(table_notin) :
      db_matchOfficialAssignments d2 = db_matchOfficialAssignments d1).
    rewrite (Hrec matchOfficialAssignments ltac:(table_notin) :
      db_matchOfficialAssignments d1 = db_matchOfficialAssignments d); reflexivity.
  - rewrite (T4 matchResultOperations ltac:(table_notin) : db_matchResultOperations d4 = _); cbn.
    rewrite (T2 matchResultOperations ltac:(table_notin) :
      db_matchResultOperations d2 = db_matchResultOperations d1); exact Eops.
Qed.

(** The regulation rounds a mode drops *)
Definition dropsRound (mode : MatchExitMode) (n : Z) : bool :=
  match mode with
  | CANCEL_RESULTS => (n =? 1) || (n =? 2)
  | SUSPEND_KEEP_ROUND_1 => n =? 2
  | SUSPEND_KEEP_ROUNDS_1_AND_2 | SUSPEND_KEEP_V2_PHASE => false
  end.
(** Where a mode leaves a match: its status, lifecycle and current round *)
Definition exitedPhase (mode : MatchExitMode) (m : MatchRow) : MatchStatus * MatchLifecycle * option Z :=
  match mode with
  | CANCEL_RESULTS => (WAITING, NOT_STARTED, None)
  | SUSPEND_KEEP_ROUND_1 => (BREAK, SUSPENDED, Some 1)
  | SUSPEND_KEEP_ROUNDS_1_AND_2 => (AWAITING_RESULT_SAVE, SUSPENDED, Some 2)
  | SUSPEND_KEEP_V2_PHASE => (m_status m, SUSPENDED, m_currentRound m)
  end.
Lemma dropped_rounds mode n : memberZ (exitRoundNumbers mode) (Some n) = dropsRound mode n.
Proof. destruct mode; unfold memberZ, exitRoundNumbers, dropsRound; cbn [existsb]; rewrite ?orb_false_r, ?(Z.eqb_sym _ n); reflexivity. Qed.

(** A selected round that has ended. *)
Lemma ended_valid mid n l :
  existsb (endedRound n) (List.filter (fun r => (r_invalidatedAt r === None) && (r_matchId r === mid)) l) = true ->
  exists r, In r l /\ r_matchId r = mid /\ r_roundNumber r = n /\ r_endedAt r <> None /\
    r_invalidatedAt r = None.
Proof.
  intros Hk; apply existsb_exists in Hk as (r & Hin & He); apply filter_In in Hin as [Hin Hv].
  unfold endedRound in He; to_prop; exists r; split_and!; auto; lia.
Qed.

(** C12: leaving a match frees its whole crew and reports it; exactly the valid rounds with a number the mode drops
    (both when results are cancelled, the second when only the first is kept, none otherwise) are taken back, with the
    windows, votes, score events, penalties and faults of those rounds, and every other row of these tables is as it
    was; the rounds the mode keeps are there, ended and valid, and no scoring window is open; the match, which was not
    finished, is suspended now in the phase of the mode, or back to waiting when its results are cancelled. *)
Theorem exit_outcome clk mid i mode d t d'
  (H : exitMatch clk mid i mode d = Ok (t, d')) :
  (forall a, In a (db_matchOfficialAssignments d') -> activeAssignment mid a = false) /\
  et_releasedOfficialIds t =
    map oa_officialId (List.filter (activeAssignment mid) (db_matchOfficialAssignments d)) /\
  (exists m m', find_first (fun x => m_id x === mid) (db_matches d) = Some m /\
    find_first (fun x => m_id x === mid) (db_matches d') = Some m' /\
    m_status m <> FINISHED /\ (m_status m', m_lifecycle m', m_currentRound m') = exitedPhase mode m /\ m_finishedAt m' = None /\
    m_suspendedAt m' = (if mode === CANCEL_RESULTS then None else Some (serverNow clk)) /\
    (mode = SUSPEND_KEEP_V2_PHASE -> retainableV2Phase (m_status m) = true)) /\
  (exists audit, takenBack mid (dropsRound mode) (Some (serverNow clk, audit)) d d') /\
  (forall n, In n (keptRounds mode) -> exists r, In r (db_rounds d') /\ r_matchId r = mid /\
     r_roundNumber r = n /\ r_endedAt r <> None /\ r_invalidatedAt r = None) /\
  (keptRounds mode <> [] -> forall w, In w (db_scoringWindows d) -> unresolvedWindow mid w = false).
Proof.
  apply exitMatch_ok in H as (m & aid & open & Hm & Hfin & _ & Hr & Hwin & Hms & Hrd & Hnone & Hids & _).
  apply (takenBack_ext _ _ _ _ _ _ (dropped_rounds mode)) in Hrd.
  split; [exact Hnone |]; split; [exact Hids |]; unfold exitRefused in Hr.
  apply orb_false_elim in Hr as [Hr Hr3]; apply orb_false_elim in Hr as [Hr1 Hr2].
  split_and!; [| eauto | |].
  - pose proof (find_first_some _ _ _ Hm) as [_ Hid].
    exists m, (exitedRow clk mode m m); split_and!; try reflexivity; auto.
    + rewrite Hms, find_first_map_where, Hm by (intros; reflexivity); cbn in *; rewrite Hid; reflexivity.
    + destruct mode; reflexivity.
    + destruct mode; reflexivity.
    + intros ->; decide_consts Hr1; destruct (retainableV2Phase _); [reflexivity | discriminate].
  - intros n Hn.
    assert (Hk : existsb (endedRound n) (List.filter (fun r => (r_invalidatedAt r === None) &&
                   (r_matchId r === mid)) (db_rounds d)) = true).
    { destruct mode; cbn in Hn; try tauto; decide_consts Hr2; decide_consts Hr3.
      - destruct Hn as [<- | []]; destruct (existsb (endedRound 1) _); [reflexivity | discriminate].
      - destruct Hn as [<- | [<- | []]]; destruct (existsb (endedRound 1) _), (existsb (endedRound 2) _);
          first [reflexivity | discriminate]. }
    apply ended_valid in Hk as (r & Hin & Hrm & En & He & Hv); exists r; split_and!; auto.
    rewrite (proj1 Hrd); apply in_map_where; exists r; split; [exact Hin |].
    assert (Hkeep : dropsRound mode (r_roundNumber r) = false)
      by (rewrite En; clear - Hn; destruct mode; cbn in Hn; intuition (subst; reflexivity)).
    rewrite Hkeep, andb_false_r; reflexivity.
  - intros Hk; apply Hwin; destruct open; [exfalso | reflexivity].
    destruct mode; cbn in Hk; try tauto; decide_consts Hr2; decide_consts Hr3;
      first [rewrite orb_true_r in Hr2; discriminate Hr2 | rewrite orb_true_r in Hr3; discriminate Hr3].
Qed.

(** What a committed completion did. *)
Lemma completeMatch_ok clk mid i d t d' :
  completeMatch clk mid i d = Ok (t, d') ->
  exists m, find_first (fun x => m_id x === mid) (db_matches d) = Some m /\
    if (m_lifecycle m === LIFECYCLE_COMPLETED) || (m_status m === FINISHED)
    then d' = d /\ m_finishedAt m = Some (cp_finishedAt t) /\ cp_releasedOfficialIds t = []
    else m_status m = AWAITING_RESULT_SAVE /\ m_lifecycle m <> SUSPENDED /\
      cp_finishedAt t = serverNow clk /\
      (forall w, In w (db_scoringWindows d) -> unresolvedWindow mid w = false) /\
      (forall n, n = 1 \/ n = 2 -> exists r, In r (db_rounds d) /\ r_matchId r = mid /\
         r_roundNumber r = n /\ r_endedAt r <> None /\ r_invalidatedAt r = None) /\
      (forall a, In a (db_matchOfficialAssignments d') -> activeAssignment mid a = false) /\
      cp_releasedOfficialIds t =
        map oa_officialId (List.filter (activeAssignment mid) (db_matchOfficialAssignments d)) /\
      db_matches d' = map_where (fun x => m_id x === mid)
        (fun x => x <| m_finishedAt := Some (serverNow clk) |> <| m_lifecycle := LIFECYCLE_COMPLETED |>
                    <| m_status := FINISHED |>) (db_matches d) /\
      touches (matches :: matchOfficialAssignments :: outcomeTables) d d'.
Proof.
  intros H; unfold completeMatch in H.
  apply bind_ok in H as ([] & d1 & ? & H); apply bind_ok in H as (ru & d2 & ? & H).
  apply bind_ok in H as (ci & d3 & ? & H); reads.
  apply bind_ok in H as (m & d1 & Hm & H); apply (find_one_or_throw_ok matches) in Hm as [Hm ->].
  exists m; split; [exact Hm |]; destruct (_ || _) eqn:Edone in H; rewrite Edone.
  { apply bind_ok in H as (f & d1 & Hf & H); apply or_throw_ok in Hf as [Hf ->].
    apply ret_ok in H as [<- <-]; auto. }
  apply bind_ok in H as ([] & d1 & Hg & H); apply throw_if_ok in Hg as [Hg ->].
  apply bind_ok in H as (valid & d1 & Hv & H); apply gets_ok in Hv as [-> ->].
  apply bind_ok in H as (un & d1 & Hv & H); apply gets_ok in Hv as [-> ->].
  apply bind_ok in H as ([] & d1 & Hr & H); apply throw_if_ok in Hr as [Hr ->].
  apply bind_ok in H as (mr & d1 & Hup & H); apply bind_ok in H as (pf & d2 & Hpf & H).
  apply bind_ok in H as (au & d3 & Hau & H); apply bind_ok in H as (ids & d4 & Hrel & H).
  apply ret_ok in H as [<- <-].
  pose proof (touches_releaseForTransition _ _ _ _ _ _ _ _ _ Hrel) as T4.
  pose proof (touches_processFinishedMatch _ _ _ _ _ _ Hpf) as T2.
  assert (T3 : touches [auditLogs] d2 d3) by
    (eapply (touches_create auditLogs [auditLogs]); [table_in | exact Hau]).
  apply (update_ok matches) in Hup as (? & _ & _ & _ & ->).
  assert (Hrel' : exists r, releaseForTransition (m_status m) FINISHED mid (serverNow clk) i (Some r) d3 = Ok (ids, d4))
    by (eexists; exact Hrel).
  destruct Hrel' as [r Hrel']; apply releaseForTransition_ok in Hrel' as [Hnone ->].
  to_prop; split_and!; auto.
  - apply find_first_none.
    match goal with Ho : (match ?x with _ => _ end = _) |- _ => destruct x eqn:E; [discriminate Ho | exact E] end.
  - intros n Hn; apply ended_valid; destruct Hn as [-> | ->]; assumption.
  - cbn; rewrite (T3 matchOfficialAssignments ltac:(table_notin) :
      db_matchOfficialAssignments d3 = db_matchOfficialAssignments d2).
    rewrite (T2 matchOfficialAssignments ltac:(table_notin) :
      db_matchOfficialAssignments d2 = _); reflexivity.
  - rewrite (T4 matches ltac:(table_notin) : db_matches d4 = db_matches d3).
    rewrite (T3 matches ltac:(table_notin) : db_matches d3 = db_matches d2).
    rewrite (T2 matches ltac:(table_notin) : db_matches d2 = _); reflexivity.
  - transitivity d2; [| transitivity d3; [eapply touches_weaken; [exact T3 | tables_apart]
                                         | eapply touches_weaken; [exact T4 | tables_apart]]].
    eapply transitivity; [| eapply touches_weaken; [exact T2 | tables_apart]].
    intros tb Htb; apply get_put_other; intros ->; apply Htb; table_in.
Qed.

(** The match keeps its rules when it is completed. *)
Lemma rulesForMatch_completed clk mid i d t d1 :
  completeMatch clk mid i d = Ok (t, d1) -> exists r, rulesForMatch mid d1 = Ok (r, d1).
Proof.
  intros H; apply completeMatch_ok in H as Hi; destruct Hi as (m & Hm & Hi).
  unfold completeMatch in H; apply bind_ok in H as ([] & d0 & ? & H); reads.
  apply bind_ok in H as (r & d2 & Hru & _); pose proof Hru as Hru'; reads.
  destruct (_ || _) in Hi; [destruct Hi as (-> & _); eauto |].
  destruct Hi as (_ & _ & _ & _ & _ & _ & _ & Hms & Ht).
  apply rulesForMatch_inv in Hru as (mr & tn & Hmr & Htn & Hcode).
  pose proof (same_answer _ _ _ Hm Hmr) as <-.
  eexists; eapply (rulesForMatch_total mid d1 _ tn); [| | exact Hcode].
  - rewrite Hms, find_first_map_where, Hmr by (intros; reflexivity); reflexivity.
  - rewrite (Ht tournaments ltac:(table_notin) : db_tournaments d1 = db_tournaments d), <- Htn.
    cbv beta; destruct (m_id m === mid); reflexivity.
Qed.

(** completing a match takes a saved result: the match awaits it and is not suspended,
    both rounds are over and no scoring window is open. It finishes the match now and
    frees its crew, and completing it again, at any later time, changes nothing and
    reports the time it was finished. *)
Theorem complete_once clk1 clk2 mid i1 i2 c d t1 d1
  (Hs : wf d) (H : completeMatch clk1 mid i1 d = Ok (t1, d1))
  (Hauth : lockActiveSupervisorIdentity clk2 mid i2 d1 = Ok (c, d1)) :
  exists m m1, find_first (fun x => m_id x === mid) (db_matches d) = Some m /\
    find_first (fun x => m_id x === mid) (db_matches d1) = Some m1 /\
    m_status m1 = FINISHED /\ m_finishedAt m1 = Some (cp_finishedAt t1) /\
    (m_status m <> FINISHED ->
       m_status m = AWAITING_RESULT_SAVE /\ m_suspendedAt m = None /\
       cp_finishedAt t1 = serverNow clk1 /\
       (forall w, In w (db_scoringWindows d) -> unresolvedWindow mid w = false) /\
       (forall n, n = 1 \/ n = 2 -> exists r, In r (db_rounds d) /\ r_matchId r = mid /\
          r_roundNumber r = n /\ r_endedAt r <> None /\ r_invalidatedAt r = None) /\
       (forall a, In a (db_matchOfficialAssignments d1) -> activeAssignment mid a = false)) /\
    completeMatch clk2 mid i2 d1 =
      Ok (mkCompletion mid (m_publicId m1) (m_tournamentId m1) (cp_finishedAt t1) [], d1).
Proof.
  pose proof (rulesForMatch_completed _ _ _ _ _ _ H) as [ru Hru].
  apply completeMatch_ok in H as (m & Hm & H).
  assert (Hok : match_ok m = true) by
    exact (wf_row matches d m Hs (proj1 (find_first_some _ _ _ Hm))).
  pose proof (find_first_some _ _ _ Hm) as [_ Hid].
  enough (exists m1, find_first (fun x => m_id x === mid) (db_matches d1) = Some m1 /\
    m_status m1 = FINISHED /\ m_finishedAt m1 = Some (cp_finishedAt t1) /\
    (m_status m <> FINISHED ->
       m_status m = AWAITING_RESULT_SAVE /\ m_suspendedAt m = None /\
       cp_finishedAt t1 = serverNow clk1 /\
       (forall w, In w (db_scoringWindows d) -> unresolvedWindow mid w = false) /\
       (forall n, n = 1 \/ n = 2 -> exists r, In r (db_rounds d) /\ r_matchId r = mid /\
          r_roundNumber r = n /\ r_endedAt r <> None /\ r_invalidatedAt r = None) /\
       (forall a, In a (db_matchOfficialAssignments d1) -> activeAssignment mid a = false)))
    as (m1 & Hm1 & Hst & Hfin & Hrest).
  { exists m, m1; split_and!; try tauto; unfold completeMatch.
    rewrite (bind_step _ _ _ tt d1) by (eapply lockMatch_total; exact Hm1).
    rewrite (bind_step _ _ _ _ _ Hru), (bind_step _ _ _ _ _ Hauth).
    rewrite (bind_step _ _ _ m1 d1) by (apply (find_one_or_throw_total matches); exact Hm1).
    rewrite Hst, (bool_decide_true (FINISHED = FINISHED)), orb_true_r, Hfin by reflexivity; reflexivity. }
  destruct (_ || _) eqn:E in H.
  - destruct H as (-> & Hf & _).
    assert (Hst : m_status m = FINISHED).
    { apply orb_prop in E as [E | E]; to_prop; [apply match_ok_completed; assumption | exact E]. }
    exists m; split_and!; auto; tauto.
  - destruct H as (Hst & Hns & Hf & Hw & Hr & Ha & _ & Hms & _); eexists; split_and!.
    + rewrite Hms, find_first_map_where, Hm by (intros; reflexivity); cbn in *; rewrite Hid; reflexivity.
    + reflexivity.
    + cbn; rewrite Hf; reflexivity.
    + intros _; split_and!; auto; apply match_ok_active; assumption.
Qed.

(** ** Witnesses *)

Definition exitedDB : DB := Eval vm_compute in after (exitMatch (at_time 125000) 10 supervisor SUSPEND_KEEP_ROUND_1) breakDB.

Lemma exit_outcome_witness :
  exitMatch (at_time 125000) 10 supervisor SUSPEND_KEEP_ROUND_1 breakDB
    = Ok (mkExit 10 "M" 1 SUSPEND_KEEP_ROUND_1 [], exitedDB) /\
  forall a, In a (db_matchOfficialAssignments exitedDB) -> activeAssignment 10 a = false.
Proof.
  assert (E : exitMatch (at_time 125000) 10 supervisor SUSPEND_KEEP_ROUND_1 breakDB
    = Ok (mkExit 10 "M" 1 SUSPEND_KEEP_ROUND_1 [], exitedDB)) by (vm_compute; reflexivity).
  split; [exact E | apply (exit_outcome _ _ _ _ _ _ _ E)].
Defined.

(** A legacy match whose two rounds are over. *)
Definition savedDB : DB :=
  sampleDB ((sampleMatch 10 AWAITING_RESULT_SAVE IN_PROGRESS (Some 2) (Some 0))
              <| m_rulesVersion := LEGACY_SCORE_PENALTY_V1 |>)
    [sampleRound 50 1 REGULATION 0 0 (Some 120000); sampleRound 51 2 REGULATION 0 150000 (Some 270000)].
Definition completedDB : DB := Eval vm_compute in after (completeMatch (at_time 300000) 10 supervisor) savedDB.

Lemma complete_once_witness :
  completeMatch (at_time 300000) 10 supervisor savedDB =
    Ok (mkCompletion 10 "M" 1 300000 [], completedDB) /\
  completeMatch (at_time 400000) 10 supervisor completedDB =
    Ok (mkCompletion 10 "M" 1 300000 [], completedDB).
Proof.
  assert (E : completeMatch (at_time 300000) 10 supervisor savedDB =
    Ok (mkCompletion 10 "M" 1 300000 [], completedDB)) by (vm_compute; reflexivity).
  split; [exact E |].
  destruct (complete_once (at_time 300000) (at_time 400000) 10 supervisor supervisor tt savedDB _ completedDB
    ltac:(solve_wf) E ltac:(vm_compute; reflexivity)) as (m & m1 & _ & Hm1 & _ & _ & _ & H).
  vm_compute in Hm1; injection Hm1 as <-; exact H.
Defined.

(** Leaving a match with its results cancelled while a round runs: the next first round
    is looked up among the rounds that have not ended, the invalidated one included, and
    its votes are judged by the time of the invalidated round. *)
Definition restartedDB : DB := Eval vm_compute in
  after (_ ← exitMatch (at_time 1500) 10 supervisor CANCEL_RESULTS;
         startRound (at_time 200000) everybody 10 supervisor) runningDB.
Example exit_leaves_unended_round :
  map m_status (List.filter (fun m => m_id m === 10%N) (db_matches restartedDB)) = [ROUND_1_RUNNING] /\
  submitVote (at_time 201000) (sampleVote SLOT_JUDGE_2 42) restartedDB = Err RoundEndedForVote.
Proof. split; vm_compute; reflexivity. Qed.

(** A round cancelled while its last scoring window is open: the window's resolution finds
    nothing to do, and the repeated round refuses every vote. *)
Definition repeatedDB : DB := Eval vm_compute in
  after (_ ← submitVote (at_time 119900) (sampleVote SLOT_JUDGE_1 41);
         _ ← evaluateExpiration (at_time 120000) 10 50;
         _ ← cancelResults (at_time 120500) 10 supervisor false;
         _ ← resolveIfDue (at_time 120900) 10 1000;
         startRound (at_time 200000) everybody 10 supervisor) runningDB.
Example cancel_leaves_open_window :
  map m_status (List.filter (fun m => m_id m === 10%N) (db_matches repeatedDB)) = [ROUND_1_RUNNING] /\
  submitVote (at_time 201000) (sampleVote SLOT_JUDGE_2 42) repeatedDB = Err UniqueViolation.
Proof. split; vm_compute; reflexivity. Qed.
