(* ===== verification/Appeals.v ===== *)
(** * Appeals

    [realtime/regulation-appeal.service.ts] and [realtime/overtime.service.ts]: the
    supervisor's appeal after regulation and after an overtime round, which adjusts the
    captured judge scores and decides the phase after it; the restart of a tied overtime;
    and the manual winner of one. *)
From S2P Require Import Prelude Schema Database Rules Authorization Scenario Scoring Lifecycle.
From S2P Require Import BracketOutcome Cancellation.

(** ** Data *)

(** [RegulationAppealInput]: bonus and penalty points per colour. *)
Record AppealInput : Type := mkAppealInput {
  in_bonusPoints : AthleteColor -> Z; in_penaltyPoints : AthleteColor -> Z;
  in_idempotencyKey : string; in_traceId : option string }.

(** One side of the [regulation] record of a transition. *)
Record SideScore : Type := mkSideScore {
  sd_base : Z; sd_bonusPoints : Z; sd_penaltyPoints : Z; sd_final : Z }.

(** [RegulationAppealTransition] *)
Record RegulationTransition : Type := mkRegulationTransition {
  rt_appealId : uuid; rt_matchId : uuid; rt_matchPublicId : string; rt_phase : MatchStatus;
  rt_red : SideScore; rt_blue : SideScore; rt_isTie : bool }.

(** [OvertimeAppealTransition] *)
Record OvertimeTransition : Type := mkOvertimeTransition {
  ot_appealId : uuid; ot_matchId : uuid; ot_matchPublicId : string; ot_phase : MatchStatus;
  ot_attemptNumber : Z; ot_isTie : bool }.

(** The returns of [restart] and [manualWinner]. *)
Record RestartTransition : Type := mkRestart {
  rs_matchId : uuid; rs_matchPublicId : string; rs_attemptNumber : Z; rs_phase : MatchStatus }.
Record ManualWinnerTransition : Type := mkManualWinner {
  mw_matchId : uuid; mw_matchPublicId : string; mw_attemptNumber : Z; mw_phase : MatchStatus;
  mw_winner : AthleteColor }.

(** A match athlete with the score an appeal gives it. *)
Record AppealValue : Type := mkAppealValue { av_athlete : MatchAthleteRow; av_score : SideScore }.

Definition sideScore (base : Z) (payload : AppealInput) (c : AthleteColor) : SideScore :=
  mkSideScore base (in_bonusPoints payload c) (in_penaltyPoints payload c)
    (finalScore base (in_bonusPoints payload c) (in_penaltyPoints payload c)).

Definition sideJson (s : SideScore) : json :=
  JObj [("base", JNum (sd_base s)); ("bonusPoints", JNum (sd_bonusPoints s));
        ("penaltyPoints", JNum (sd_penaltyPoints s)); ("final", JNum (sd_final s))]%string.

(** The adjustment rows of an appeal with the colour of their athlete. *)
Definition adjustmentsOf (appealId : uuid) (d : DB) : list (AthleteColor * AdjustmentRow) :=
  omap (fun x => a ← find_first (fun a => ma_id a === aa_athleteId x) (db_matchAthletes d);
                 Some (ma_color a, x))
    (List.filter (fun x => aa_appealId x === appealId) (db_matchAppealAdjustments d)).

(** [new Map(adjustments.map((x) => [x.athlete.color, x])).get(color)]: the last entry. *)
Definition adjustmentFor (c : AthleteColor) (l : list (AthleteColor * AdjustmentRow))
    : option AdjustmentRow :=
  option_map snd (find_first (fun x => fst x === c) (rev l)).

Definition sideOfRow (x : AdjustmentRow) : SideScore :=
  mkSideScore (aa_baseJudgeScore x) (aa_bonusPoints x) (aa_penaltyPoints x) (aa_finalScore x).

(** The source round of an appeal is invalidated, respectively valid. *)
Definition sourceRoundIs (p : option timestamp -> bool) (d : DB) (a : AppealRow) : bool :=
  existsb (fun r => (r_id r === ap_sourceRoundId a) && p (r_invalidatedAt r)) (db_rounds d).

Definition completedAppeal (matchId : uuid) (a : AppealRow) : bool :=
  (ap_matchId a === matchId) && (ap_status a === APPEAL_COMPLETED) && (ap_invalidatedAt a === None).

(** ** The regulation appeal *)

(** Appeals that outlived their round are invalidated before anything else. *)
Definition invalidateStaleAppeals (clk : Clock) (matchId : uuid)
    (identity : SupervisorCommandIdentity) : DbM unit :=
  staleAppeals ← gets (fun d => List.filter (fun a => completedAppeal matchId a &&
    sourceRoundIs (fun t => negb (t === None)) d a) (db_matchAppeals d));
  when (negb (bool_decide (length staleAppeals = 0%nat)))
    (invalidationAudit ← auditCommand matchId identity MATCH_ACTION
       [("action", JStr "STALE_APPEALS_INVALIDATED");
        ("appealIds", JList (map (fun a => JId (ap_id a)) staleAppeals));
        ("reason", JStr "SOURCE_ROUND_INVALIDATED")]%string;
     _ ← update_many matchAppeals (fun a => member (map ap_id staleAppeals) (ap_id a))
           (markAppeal (Some (jsNow clk 0, al_id invalidationAudit)));
     mret tt).

(** [replay]: the transition of an appeal stored under the same key with the same points. *)
Definition replay (existing : AppealRow) (adjustments : list (AthleteColor * AdjustmentRow))
    (payload : AppealInput) (publicId : string) (phase : MatchStatus) : option RegulationTransition :=
  if (ap_scope existing !== SCOPE_REGULATION) || negb (bool_decide (length adjustments = 2%nat))
  then None
  else
    match adjustmentFor RED adjustments, adjustmentFor BLUE adjustments with
    | Some red, Some blue =>
        if (aa_bonusPoints red =? in_bonusPoints payload RED) &&
           (aa_penaltyPoints red =? in_penaltyPoints payload RED) &&
           (aa_bonusPoints blue =? in_bonusPoints payload BLUE) &&
           (aa_penaltyPoints blue =? in_penaltyPoints payload BLUE)
        then Some (mkRegulationTransition (ap_id existing) (ap_matchId existing) publicId phase
                     (sideOfRow red) (sideOfRow blue) (aa_finalScore red === aa_finalScore blue))
        else None
    | _, _ => None
    end.

(** The ended valid regulation rounds, in order. *)
Definition regulationRounds (matchId : uuid) : DbM (list RoundRow) :=
  l ← find_many rounds (fun r => (r_matchId r === matchId) && (r_stage r === REGULATION) &&
        (r_attemptNumber r =? 0) && (r_invalidatedAt r === None) && negb (r_endedAt r === None));
  mret (sort_by r_roundNumber l).

Definition appealRow (matchId : uuid) (scope : MatchAppealScope) (attemptNumber : Z)
    (sourceRoundId : uuid) (identity : SupervisorCommandIdentity) (completedAt : timestamp)
    (key : string) (id : uuid) : AppealRow :=
  mkAppealRow id matchId scope attemptNumber APPEAL_COMPLETED sourceRoundId
    (officialAssignment identity) (legacySession identity) completedAt (Some key) None None.

Definition adjustmentRow (appealId : uuid) (x : AppealValue) : AdjustmentRow :=
  mkAdjustmentRow appealId (ma_id (av_athlete x)) (sd_base (av_score x))
    (sd_bonusPoints (av_score x)) (sd_penaltyPoints (av_score x)) (sd_final (av_score x)).

(** The value of one colour; the code asserts that it is there. *)
Definition valueFor (c : AthleteColor) (values : list AppealValue) : DbM AppealValue :=
  or_throw (find_first (fun x => ma_color (av_athlete x) === c) values) (InternalError "TypeError").

(** The summaries of the rounds added up for each athlete. *)
Definition appealValues (payload : AppealInput) (athletes : list MatchAthleteRow)
    (summaries : list RoundResultRow) : list AppealValue :=
  map (fun a => mkAppealValue a
         (sideScore (sum_by rr_judgePoints (List.filter (fun s => rr_athleteId s === ma_id a) summaries))
            payload (ma_color a))) athletes.

(** The state the regulation appeal needs: rounds, athletes and their summaries. *)
Definition regulationInputs (matchId : uuid) : DbM (list RoundRow * list MatchAthleteRow * list RoundResultRow) :=
  rds ← regulationRounds matchId;
  unresolved ← find_one scoringWindows (unresolvedWindow matchId);
  priorAppeal ← gets (fun d => existsb (fun a => completedAppeal matchId a &&
      (ap_scope a === SCOPE_REGULATION) && (ap_attemptNumber a =? 0) &&
      sourceRoundIs (fun t => t === None) d a) (db_matchAppeals d));
  athletes ← athletesByColor matchId;
  _ ← throw_if (set_ unresolved || (map r_roundNumber rds !== [1; 2]) ||
                negb (bool_decide (length athletes = 2%nat)) || priorAppeal)
        (AppealStateError "Regulation appeal inputs are incomplete or no longer valid");
  summaries ← find_many roundAthleteResults (fun s => (rr_matchId s === matchId) &&
        member (map r_id rds) (rr_roundId s) && (rr_invalidatedAt s === None));
  _ ← throw_if (negb (bool_decide (length summaries = 4%nat)))
        (AppealStateError "Valid regulation round summaries are required");
  mret (rds, athletes, summaries).

(** The writes of a regulation appeal. *)
Definition recordRegulation (clk : Clock) (m : MatchRow) (identity : SupervisorCommandIdentity)
    (payload : AppealInput) (rds : list RoundRow) (values : list AppealValue)
    : DbM RegulationTransition :=
  let matchId := m_id m in
  source ← or_throw (nth_error rds 1) (InternalError "TypeError");
  appeal ← create matchAppeals (appealRow matchId SCOPE_REGULATION 0 (r_id source) identity
             (serverNow clk) (in_idempotencyKey payload));
  _ ← create_many matchAppealRounds (fun r _ => mkAppealRoundRow (ap_id appeal) (r_id r)) rds;
  _ ← create_many matchAppealAdjustments (fun x _ => adjustmentRow (ap_id appeal) x) values;
  red ← valueFor RED values;
  blue ← valueFor BLUE values;
  let isTie := sd_final (av_score red) === sd_final (av_score blue) in
  let phase := if isTie then OVERTIME_READY else RESULT_PUBLICATION_READY in
  _ ← update matches (fun m => m_id m === matchId) (fun m => m <| m_status := phase |>);
  _ ← auditCommand matchId identity MATCH_ACTION
        [("action", JStr "REGULATION_APPEAL_COMPLETED"); ("appealId", JId (ap_id appeal));
         ("idempotencyKey", JStr (in_idempotencyKey payload));
         ("traceId", jopt JStr (in_traceId payload)); ("phase", JStatus phase);
         ("isTie", JBool isTie);
         ("regulation", JObj [("RED", sideJson (av_score red)); ("BLUE", sideJson (av_score blue))])]%string;
  mret (mkRegulationTransition (ap_id appeal) matchId (m_publicId m) phase (av_score red)
          (av_score blue) isTie).

(** [RegulationAppealService.complete] *)
Definition completeRegulation (clk : Clock) (matchId : uuid) (identity : SupervisorCommandIdentity)
    (payload : AppealInput) : DbM RegulationTransition :=
  _ ← lockAndVerify clk matchId identity AppealIdentityError;
  m ← find_one_or_throw matches (fun m => m_id m === matchId);
  _ ← invalidateStaleAppeals clk matchId identity;
  existing ← find_one matchAppeals (fun a => ap_idempotencyKey a === Some (in_idempotencyKey payload));
  match existing with
  | Some existing =>
      adjustments ← gets (adjustmentsOf (ap_id existing));
      or_throw (replay existing adjustments payload (m_publicId m) (m_status m)) AppealIdempotencyError
  | None =>
      _ ← throw_if ((m_rulesVersion m !== FAULT_APPEAL_OVERTIME_V2) ||
                    (m_lifecycle m !== IN_PROGRESS) || (m_status m !== REGULATION_APPEAL))
            (AppealStateError "Match is not awaiting a regulation appeal");
      '(rds, athletes, summaries) ← regulationInputs matchId;
      recordRegulation clk m identity payload rds (appealValues payload athletes summaries)
  end.

(** ** The overtime appeal *)

(** The transition of an overtime appeal stored under the same key. *)
Definition overtimeReplay (matchId : uuid) (publicId : string) (payload : AppealInput)
    (existing : AppealRow) (adjustments : list (AthleteColor * AdjustmentRow)) : DbM OvertimeTransition :=
  match adjustmentFor RED adjustments, adjustmentFor BLUE adjustments with
  | Some red, Some blue =>
      _ ← throw_if ((ap_matchId existing !== matchId) || (ap_scope existing !== SCOPE_OVERTIME) ||
             negb (aa_bonusPoints red =? in_bonusPoints payload RED) ||
             negb (aa_penaltyPoints red =? in_penaltyPoints payload RED) ||
             negb (aa_bonusPoints blue =? in_bonusPoints payload BLUE) ||
             negb (aa_penaltyPoints blue =? in_penaltyPoints payload BLUE)) AppealIdempotencyError;
      let isTie := aa_finalScore red === aa_finalScore blue in
      mret (mkOvertimeTransition (ap_id existing) matchId publicId
              (if isTie then OVERTIME_TIEBREAK_DECISION else RESULT_PUBLICATION_READY)
              (ap_attemptNumber existing) isTie)
  | _, _ => throw AppealIdempotencyError
  end.

(** The latest ended valid overtime round. *)
Definition latestOvertime (matchId : uuid) : DbM (option RoundRow) :=
  l ← find_many rounds (fun r => (r_matchId r === matchId) && (r_stage r === OVERTIME) &&
        (r_invalidatedAt r === None) && negb (r_endedAt r === None));
  mret (max_by r_attemptNumber l).

(** One colour of an overtime appeal: the athlete's first summary of the round. *)
Definition overtimeValue (payload : AppealInput) (athletes : list MatchAthleteRow)
    (summaries : list RoundResultRow) (c : AthleteColor) : DbM AppealValue :=
  athlete ← or_throw (find_first (fun a => ma_color a === c) athletes) (InternalError "TypeError");
  let base := match find_first (fun s => rr_athleteId s === ma_id athlete) summaries with
              | Some s => rr_judgePoints s | None => 0 end in
  mret (mkAppealValue athlete (sideScore base payload c)).

Definition overtimeInputs (matchId : uuid)
    : DbM (RoundRow * list MatchAthleteRow * list RoundResultRow) :=
  found ← latestOvertime matchId;
  round ← or_throw found (AppealStateError "A completed overtime round is required");
  unresolved ← find_one scoringWindows (fun w => (w_matchId w === matchId) &&
     (w_roundId w === Some (r_id round)) && (w_invalidatedAt w === None) && (w_resolvedAt w === None));
  prior ← find_one matchAppeals (fun a => (ap_matchId a === matchId) && (ap_scope a === SCOPE_OVERTIME) &&
     (ap_attemptNumber a =? r_attemptNumber round) && (ap_invalidatedAt a === None));
  _ ← throw_if (set_ unresolved || set_ prior)
        (AppealStateError "Overtime appeal inputs are incomplete or already committed");
  athletes ← find_many matchAthletes (fun a => ma_matchId a === matchId);
  summaries ← find_many roundAthleteResults (fun s => (rr_matchId s === matchId) &&
     (rr_roundId s === r_id round) && (rr_invalidatedAt s === None));
  _ ← throw_if (negb (bool_decide (length athletes = 2%nat)) ||
                negb (bool_decide (length summaries = 2%nat)))
        (AppealStateError "Overtime round summary is missing");
  mret (round, athletes, summaries).

(** The writes of an overtime appeal. *)
Definition recordOvertime (clk : Clock) (m : MatchRow) (identity : SupervisorCommandIdentity)
    (payload : AppealInput) (round : RoundRow) (red blue : AppealValue) : DbM OvertimeTransition :=
  let matchId := m_id m in
  let isTie := sd_final (av_score red) === sd_final (av_score blue) in
  appeal ← create matchAppeals (appealRow matchId SCOPE_OVERTIME (r_attemptNumber round) (r_id round)
             identity (serverNow clk) (in_idempotencyKey payload));
  _ ← create matchAppealRounds (fun _ => mkAppealRoundRow (ap_id appeal) (r_id round));
  _ ← create_many matchAppealAdjustments (fun x _ => adjustmentRow (ap_id appeal) x) [red; blue];
  let phase := if isTie then OVERTIME_TIEBREAK_DECISION else RESULT_PUBLICATION_READY in
  _ ← update matches (fun m => m_id m === matchId) (fun m => m <| m_status := phase |>);
  _ ← auditCommand matchId identity MATCH_ACTION
        [("action", JStr "OVERTIME_APPEAL_COMPLETED"); ("appealId", JId (ap_id appeal));
         ("attemptNumber", JNum (r_attemptNumber round)); ("isTie", JBool isTie);
         ("phase", JStatus phase)]%string;
  mret (mkOvertimeTransition (ap_id appeal) matchId (m_publicId m) phase (r_attemptNumber round) isTie).

(** [OvertimeService.complete] *)
Definition completeOvertime (clk : Clock) (matchId : uuid) (identity : SupervisorCommandIdentity)
    (payload : AppealInput) : DbM OvertimeTransition :=
  _ ← lockAndVerify clk matchId identity AppealIdentityError;
  m ← find_one_or_throw matches (fun m => m_id m === matchId);
  existing ← find_one matchAppeals (fun a => ap_idempotencyKey a === Some (in_idempotencyKey payload));
  match existing with
  | Some existing =>
      adjustments ← gets (adjustmentsOf (ap_id existing));
      overtimeReplay matchId (m_publicId m) payload existing adjustments
  | None =>
      _ ← throw_if (m_rulesVersion m !== FAULT_APPEAL_OVERTIME_V2)
            (AppealStateError "Overtime is unavailable for legacy matches");
      _ ← throw_if ((m_status m !== OVERTIME_APPEAL) || (m_lifecycle m !== IN_PROGRESS))
            (AppealStateError "Match is not awaiting an overtime appeal");
      '(round, athletes, summaries) ← overtimeInputs matchId;
      red ← overtimeValue payload athletes summaries RED;
      blue ← overtimeValue payload athletes summaries BLUE;
      recordOvertime clk m identity payload round red blue
  end.

(** ** Tied overtime *)

(** The match and its latest completed overtime appeal, which must be tied. *)
Definition tiedOvertime (clk : Clock) (matchId : uuid) (identity : SupervisorCommandIdentity)
    (refusal : string) : DbM (MatchRow * AppealRow) :=
  _ ← lockAndVerify clk matchId identity AppealIdentityError;
  m ← find_one_or_throw matches (fun m => m_id m === matchId);
  _ ← throw_if (m_rulesVersion m !== FAULT_APPEAL_OVERTIME_V2)
        (AppealStateError "Overtime is unavailable for legacy matches");
  _ ← throw_if (m_status m !== OVERTIME_TIEBREAK_DECISION) (AppealStateError refusal);
  l ← find_many matchAppeals (fun a => completedAppeal matchId a && (ap_scope a === SCOPE_OVERTIME));
  appeal ← or_throw (max_by ap_attemptNumber l) RecordNotFound;
  mret (m, appeal).

(** [restart] *)
Definition restart (clk : Clock) (matchId : uuid) (identity : SupervisorCommandIdentity)
    : DbM RestartTransition :=
  '(m, appeal) ← tiedOvertime clk matchId identity
                   "Only a tied committed overtime appeal may be restarted";
  audit ← auditCommand matchId identity MATCH_ACTION
            [("action", JStr "OVERTIME_RESTARTED"); ("attemptNumber", JNum (ap_attemptNumber appeal))]%string;
  let source := ap_sourceRoundId appeal in
  let k n := Some (jsNow clk n, al_id audit) in
  _ ← update rounds (fun r => r_id r === source) (markRound (k 0%nat));
  _ ← update_many roundAthleteResults (fun r => (rr_roundId r === source) && (rr_invalidatedAt r === None))
        (markRoundResult (k 1%nat));
  _ ← update_many scoreEvents (fun e => (e_roundId e === Some source) && (e_revertedAt e === None))
        (markEvent (k 2%nat));
  _ ← update_many faults (fun f => (f_roundId f === source) && (f_invalidatedAt f === None))
        (markFault (k 3%nat));
  _ ← update_many scoringWindows (fun w => (w_roundId w === Some source) && (w_invalidatedAt w === None))
        (markWindow (k 4%nat));
  _ ← update matchAppeals (fun a => ap_id a === ap_id appeal) (markAppeal (k 5%nat));
  _ ← update_many matchResultDecisions (fun x => (dc_sourceAppealId x === ap_id appeal) &&
        (dc_invalidatedAt x === None)) (markDecision (k 6%nat));
  _ ← update matches (fun m => m_id m === matchId) (fun m => m <| m_status := OVERTIME_READY |>);
  mret (mkRestart matchId (m_publicId m) (ap_attemptNumber appeal + 1) OVERTIME_READY).

(** [manualWinner] *)
Definition manualWinner (clk : Clock) (matchId : uuid) (identity : SupervisorCommandIdentity)
    (winner : AthleteColor) : DbM ManualWinnerTransition :=
  '(m, appeal) ← tiedOvertime clk matchId identity "Manual winner requires a tied overtime appeal";
  athlete ← find_one_or_throw matchAthletes (fun a => (ma_matchId a === matchId) && (ma_color a === winner));
  _ ← create matchResultDecisions (fun id => mkDecisionRow id matchId (ma_id athlete) winner
        (ap_id appeal) (ap_sourceRoundId appeal) (officialAssignment identity) (legacySession identity)
        (rowNow clk) None None);
  _ ← update matches (fun m => m_id m === matchId) (fun m => m <| m_status := RESULT_PUBLICATION_READY |>);
  _ ← auditCommand matchId identity MATCH_ACTION
        [("action", JStr "MANUAL_AFTER_OVERTIME_TIE_SELECTED"); ("winner", JColor winner);
         ("appealId", JId (ap_id appeal)); ("attemptNumber", JNum (ap_attemptNumber appeal));
         ("pendingPublication", JBool true)]%string;
  mret (mkManualWinner matchId (m_publicId m) (ap_attemptNumber appeal) RESULT_PUBLICATION_READY winner).

(** ** Facts *)

Lemma respects_regulationInputs R `{!PreOrder R} m : respects R (regulationInputs m).
Proof. unfold regulationInputs, regulationRounds, athletesByColor; respects_auto. Qed.
Lemma respects_overtimeInputs R `{!PreOrder R} m : respects R (overtimeInputs m).
Proof. unfold overtimeInputs, latestOvertime; respects_auto. Qed.
Lemma respects_overtimeValue R `{!PreOrder R} p l1 l2 c : respects R (overtimeValue p l1 l2 c).
Proof. unfold overtimeValue; respects_auto. Qed.
Lemma respects_overtimeReplay R `{!PreOrder R} m s p a l : respects R (overtimeReplay m s p a l).
Proof. unfold overtimeReplay; respects_auto. Qed.
Lemma respects_tiedOvertime R `{!PreOrder R} clk m i s : respects R (tiedOvertime clk m i s).
Proof. unfold tiedOvertime; respects_auto. Qed.
#[export] Hint Resolve respects_regulationInputs respects_overtimeInputs respects_overtimeValue
  respects_overtimeReplay respects_tiedOvertime : tx.

Definition appealTables : list table :=
  [matchAppeals; matchAppealRounds; matchAppealAdjustments; matches; auditLogs].

Lemma touches_completeRegulation clk m i p :
  respects (touches appealTables) (completeRegulation clk m i p).
Proof. unfold completeRegulation, invalidateStaleAppeals, recordRegulation, valueFor, auditCommand; respects_auto. Qed.
Lemma touches_completeOvertime clk m i p :
  respects (touches appealTables) (completeOvertime clk m i p).
Proof. unfold completeOvertime, recordOvertime, auditCommand; respects_auto. Qed.

Lemma keeps_sound_invalidateStaleAppeals clk m i : respects keeps_sound (invalidateStaleAppeals clk m i).
Proof. unfold invalidateStaleAppeals, auditCommand; respects_auto. Qed.
Lemma keeps_sound_completeRegulation clk m i p : respects keeps_sound (completeRegulation clk m i p).
Proof. unfold completeRegulation, invalidateStaleAppeals, recordRegulation, valueFor, auditCommand; respects_auto. Qed.
Lemma keeps_sound_completeOvertime clk m i p : respects keeps_sound (completeOvertime clk m i p).
Proof. unfold completeOvertime, recordOvertime, auditCommand; respects_auto. Qed.

(** Rows created without looking at the fresh id. *)
Lemma create_many_plain t {A} (mk : A -> row_of t) l d u d' :
  create_many t (fun x _ => mk x) l d = Ok (u, d') ->
  get t d' = get t d ++ map mk l /\ forall t', t' <> t -> get t' d' = get t' d.
Proof.
  intros H; apply create_many_ok in H as (rows & Hg & Hf & Ho); split; [| exact Ho].
  rewrite Hg; f_equal; clear - Hf; induction Hf as [| x r l rows [id ->] _ IH]; cbn; congruence.
Qed.

(** A composite unique key is a key of each of its selections. *)
Lemma unique_by_second {R K1 K2} `{EqDecision K1} `{EqDecision K2} (k1 : R -> K1) (k2 : R -> K2) p m l :
  unique_by (fun a => Some (k1 a, k2 a)) l = true -> (forall x, p x = true -> k1 x = m) ->
  NoDup (map k2 (List.filter p l)).
Proof.
  unfold unique_by; rewrite bool_decide_eq_true; intros Hu Hp; induction l as [|x l IH]; cbn; [constructor |].
  cbn in Hu; inv Hu; destruct (p x) eqn:E; cbn; [constructor | auto]; [| auto].
  rewrite list_elem_of_In, in_map_iff; intros (y & Hy & Hin); apply filter_In in Hin as [Hin Ey].
  match goal with H : _ ∉ _ |- _ => apply H end; apply list_elem_of_omap; exists y.
  rewrite list_elem_of_In; split; [exact Hin |]; rewrite Hy, (Hp x E), (Hp y Ey); reflexivity.
Qed.

(** The two athletes of a match, red first. *)
Lemma athletes_two d m l d' :
  wf d -> athletesByColor m d = Ok (l, d') -> length l = 2%nat ->
  exists a b, l = [a; b] /\ ma_color a = RED /\ ma_color b = BLUE /\
    In a (db_matchAthletes d) /\ In b (db_matchAthletes d) /\ ma_matchId a = m /\ ma_matchId b = m.
Proof.
  intros Hwf H Hlen; unfold athletesByColor in H.
  apply bind_ok in H as (l0 & d1 & H0 & H); apply gets_ok in H0 as [-> ->]; apply ret_ok in H as [<- <-].
  rewrite (Permutation_length (sort_by_perm _ _)) in Hlen.
  specialize (Hwf matchAthletes) as Hok; apply table_ok_true in Hok as (_ & _ & Hix).
  assert (Hu : NoDup (map ma_color (List.filter (fun a => ma_matchId a === m) (db_matchAthletes d)))).
  { eapply (unique_by_second ma_matchId); [exact Hix | intros x Hx; to_prop; exact Hx]. }
  change (get matchAthletes d) with (db_matchAthletes d) in *.
  assert (Hin : forall x, In x (List.filter (fun a => ma_matchId a === m) (db_matchAthletes d)) ->
                  In x (db_matchAthletes d) /\ ma_matchId x = m).
  { intros x Hx; apply filter_In in Hx as [Hx Hm]; to_prop; auto. }
  change (row_of matchAthletes) with MatchAthleteRow in *.
  destruct (List.filter (fun a => ma_matchId a === m) (db_matchAthletes d)) as [| x [| y [|]]] eqn:E;
    try discriminate Hlen.
  destruct (Hin x) as [Hx1 Hx2]; [left; reflexivity |].
  destruct (Hin y) as [Hy1 Hy2]; [right; left; reflexivity |].
  cbn in Hu; inv Hu; cbn.
  destruct (ma_color x) eqn:Ex, (ma_color y) eqn:Ey; cbn.
  2: exists x, y. 3: exists y, x. 2,3: split_and!; auto.
  all: match goal with H : _ ∉ _ |- _ => exfalso; apply H; constructor end.
Qed.

(** Every adjustment belongs to a stored appeal; its foreign key. *)
Definition adjustments_fk (d : DB) : Prop :=
  forall x, In x (db_matchAppealAdjustments d) -> exists a, In a (db_matchAppeals d) /\ ap_id a = aa_appealId x.

Lemma adjustments_recorded d d' i values :
  wf d -> db_matchAppealAdjustments d' = db_matchAppealAdjustments d ++ map (adjustmentRow i) values ->
  db_matchAthletes d' = db_matchAthletes d ->
  (forall x, In x (db_matchAppealAdjustments d) -> aa_appealId x <> i) ->
  (forall v, In v values -> In (av_athlete v) (db_matchAthletes d)) ->
  adjustmentsOf i d' = map (fun v => (ma_color (av_athlete v), adjustmentRow i v)) values.
Proof.
  intros Hwf Hadj Hath Hnew Hin; unfold adjustmentsOf; rewrite Hadj, List.filter_app, Hath.
  replace (List.filter _ (db_matchAppealAdjustments d)) with (@nil AdjustmentRow).
  2:{ clear Hadj; induction (db_matchAppealAdjustments d) as [| x l IH]; cbn; [reflexivity |].
      rewrite bool_decide_false by (apply Hnew; left; reflexivity); apply IH; intros; apply Hnew; right; auto. }
  cbn; clear Hadj Hnew; induction values as [| v l IH]; cbn; [reflexivity |].
  rewrite bool_decide_true by reflexivity; cbn.
  assert (E : find_first (fun a => ma_id a === ma_id (av_athlete v)) (db_matchAthletes d) = Some (av_athlete v)).
  { apply (find_unique matchAthletes d _ _ (ma_id (av_athlete v))); cbn; auto.
    - apply Hin; left; reflexivity.
    - apply bool_decide_true; reflexivity.
    - intros y Hy; to_prop; congruence. }
  rewrite E; cbn; f_equal; apply IH; intros; apply Hin; right; auto.
Qed.

Definition settledPhase (tie : bool) (tied : MatchStatus) : MatchStatus :=
  if tie then tied else RESULT_PUBLICATION_READY.

(** What a recorded regulation appeal wrote. *)
Lemma recordRegulation_ok clk m i payload r1 r2 va vb d t d' :
  ma_color (av_athlete va) = RED -> ma_color (av_athlete vb) = BLUE ->
  recordRegulation clk m i payload [r1; r2] [va; vb] d = Ok (t, d') ->
  let tie := sd_final (av_score va) === sd_final (av_score vb) in
  t = mkRegulationTransition (db_nextId d) (m_id m) (m_publicId m) (settledPhase tie OVERTIME_READY)
        (av_score va) (av_score vb) tie /\
  db_matchAppeals d' = db_matchAppeals d ++ [appealRow (m_id m) SCOPE_REGULATION 0 (r_id r2) i
     (serverNow clk) (in_idempotencyKey payload) (db_nextId d)] /\
  db_matchAppealRounds d' = db_matchAppealRounds d ++
     [mkAppealRoundRow (db_nextId d) (r_id r1); mkAppealRoundRow (db_nextId d) (r_id r2)] /\
  db_matchAppealAdjustments d' = db_matchAppealAdjustments d ++
     map (adjustmentRow (db_nextId d)) [va; vb] /\
  db_matches d' = map_where (fun x => m_id x === m_id m)
     (fun x => x <| m_status := settledPhase tie OVERTIME_READY |>) (db_matches d).
Proof.
  intros Ha Hb H; unfold recordRegulation in H; cbn [nth_error or_throw] in H.
  apply bind_ok in H as (src & d1 & Hs & H); apply ret_ok in Hs as [<- <-].
  apply bind_ok in H as (ap & d1 & H1 & H); apply (create_ok matchAppeals) in H1 as (-> & _ & ->).
  apply bind_ok in H as ([] & d2 & H2 & H); apply (create_many_plain matchAppealRounds) in H2 as [G2 O2].
  apply bind_ok in H as ([] & d3 & H3 & H); apply (create_many_plain matchAppealAdjustments) in H3 as [G3 O3].
  unfold valueFor in H; cbn [find_first] in H; rewrite Ha, Hb in H.
  apply bind_ok in H as (red & d4 & Hs & H); apply or_throw_ok in Hs as [Hs ->]; injection Hs as <-.
  apply bind_ok in H as (blue & d4 & Hs & H); apply or_throw_ok in Hs as [Hs ->]; injection Hs as <-.
  apply bind_ok in H as (mr & d4 & H4 & H); apply (update_ok matches) in H4 as (? & _ & _ & _ & ->).
  apply bind_ok in H as (au & d5 & H5 & H); apply (create_ok auditLogs) in H5 as (_ & _ & ->).
  apply ret_ok in H as [<- <-]; cbn.
  assert (Ea : db_matchAppeals d3 = _) by exact (eq_trans (O3 matchAppeals ltac:(discriminate)) (O2 matchAppeals ltac:(discriminate))).
  assert (Er : db_matchAppealRounds d3 = _) by exact (eq_trans (O3 matchAppealRounds ltac:(discriminate)) G2).
  assert (Em : db_matches d3 = _) by exact (eq_trans (O3 matches ltac:(discriminate)) (O2 matches ltac:(discriminate))).
  assert (Ej : db_matchAppealAdjustments d3 = _) by exact (eq_trans G3 (f_equal (fun l => l ++ _) (O2 matchAppealAdjustments ltac:(discriminate)))).
  rewrite Ea, Er, Em, Ej; split_and!; reflexivity.
Qed.

Lemma touches_invalidateStaleAppeals clk m i :
  respects (touches [matchAppeals; auditLogs]) (invalidateStaleAppeals clk m i).
Proof. unfold invalidateStaleAppeals, auditCommand; respects_auto. Qed.

Lemma invalidateStaleAppeals_ok clk m i d u d' :
  invalidateStaleAppeals clk m i d = Ok (u, d') ->
  touches [matchAppeals; auditLogs] d d' /\
  map ap_idempotencyKey (db_matchAppeals d') = map ap_idempotencyKey (db_matchAppeals d) /\
  map ap_id (db_matchAppeals d') = map ap_id (db_matchAppeals d).
Proof.
  intros H; split; [eapply touches_invalidateStaleAppeals, H |]; unfold invalidateStaleAppeals in H.
  apply bind_ok in H as (l & d1 & Hl & H); apply gets_ok in Hl as [-> ->].
  unfold when in H; destruct (negb _) in H; [| apply ret_ok in H as [_ ->]; auto].
  apply bind_ok in H as (au & d1 & Ha & H); apply (create_ok auditLogs) in Ha as (_ & _ & ->).
  apply bind_ok in H as (n & d2 & Hn & H); apply (update_many_ok matchAppeals) in Hn as (_ & _ & ->).
  apply ret_ok in H as [_ <-]; cbn; split; apply map_map_where; reflexivity.
Qed.

(** The captured judge points of an athlete over some rounds. *)
Definition capturedBase (matchId : uuid) (roundIds : list uuid) (athleteId : uuid) (d : DB) : Z :=
  sum_by rr_judgePoints (List.filter (fun s => ((rr_matchId s === matchId) &&
    member roundIds (rr_roundId s) && (rr_invalidatedAt s === None)) && (rr_athleteId s === athleteId))
    (db_roundAthleteResults d)).

(** An ended valid regulation round of the match. *)
Definition endedRegulation (matchId : uuid) (n : Z) (r : RoundRow) (d : DB) : Prop :=
  In r (db_rounds d) /\ r_matchId r = matchId /\ r_stage r = REGULATION /\ r_roundNumber r = n /\
  r_invalidatedAt r = None /\ r_endedAt r <> None.

Lemma regulationInputs_ok m d rds athletes summaries d' :
  wf d -> regulationInputs m d = Ok (rds, athletes, summaries, d') ->
  exists r1 r2 red blue, rds = [r1; r2] /\ athletes = [red; blue] /\
    endedRegulation m 1 r1 d /\ endedRegulation m 2 r2 d /\
    ma_color red = RED /\ ma_color blue = BLUE /\
    In red (db_matchAthletes d) /\ In blue (db_matchAthletes d) /\
    ma_matchId red = m /\ ma_matchId blue = m /\
    (forall w, In w (db_scoringWindows d) -> unresolvedWindow m w = false) /\
    summaries = List.filter (fun s => (rr_matchId s === m) && member [r_id r1; r_id r2] (rr_roundId s) &&
                               (rr_invalidatedAt s === None)) (db_roundAthleteResults d).
Proof.
  intros Hwf H; unfold regulationInputs in H.
  apply bind_ok in H as (rds0 & d1 & Hr & H); unfold regulationRounds in Hr.
  apply bind_ok in Hr as (l & d2 & Hl & Hr); apply gets_ok in Hl as [-> ->]; apply ret_ok in Hr as [Er <-].
  apply bind_ok in H as (un & d2 & Hl & H); apply gets_ok in Hl as [-> ->].
  apply bind_ok in H as (prior & d2 & Hl & H); apply gets_ok in Hl as [-> ->].
  apply bind_ok in H as (at_ & d2 & Ha & H); reads.
  apply bind_ok in H as ([] & d2 & Hg & H); apply throw_if_ok in Hg as [Hg ->].
  apply bind_ok in H as (su & d2 & Hl & H); apply gets_ok in Hl as [-> ->].
  apply bind_ok in H as ([] & d2 & Hg2 & H); apply throw_if_ok in Hg2 as [Hg2 ->].
  apply ret_ok in H as [E _]; injection E as <- <- <-.
  apply orb_false_elim in Hg as [Hg _]; apply orb_false_elim in Hg as [Hg Hlen].
  apply orb_false_elim in Hg as [Hun Hnum]; to_prop.
  assert (Hin : forall r, In r rds0 -> endedRegulation m (r_roundNumber r) r d).
  { intros r Hr; rewrite <- Er in Hr; apply (Permutation_in _ (sort_by_perm _ _)), filter_In in Hr as [Hr Hq].
    to_prop; unfold endedRegulation; auto 10. }
  destruct rds0 as [| r1 [| r2 [|]]]; try discriminate Hnum; cbn in Hnum; injection Hnum as N1 N2.
  destruct (athletes_two d m at_ d Hwf Ha Hlen) as (red & blue & -> & ?); destruct_and!.
  exists r1, r2, red, blue; split_and!; auto.
  - rewrite <- N1; apply Hin; left; reflexivity.
  - rewrite <- N2; apply Hin; right; left; reflexivity.
  - apply find_first_none; destruct (find_first _ _) eqn:E in Hun; [discriminate Hun | exact E].
Qed.

Lemma find_first_keys {A B} `{EqDecision B} (f : A -> B) (v : B) l l' :
  map f l' = map f l -> (forall x, In x l -> f x <> v) -> find_first (fun x => f x === v) l' = None.
Proof.
  intros Hm Hn; apply find_first_none; intros x Hx; apply bool_decide_eq_false; intros Ex.
  apply (in_map f) in Hx; rewrite Hm, Ex in Hx; apply in_map_iff in Hx as (y & Hy & Hin).
  exact (Hn y Hin Hy).
Qed.

(** What a regulation appeal under a new key did. *)
Lemma completeRegulation_new clk m i payload d t d' :
  sound d -> (forall a, In a (db_matchAppeals d) -> ap_idempotencyKey a <> Some (in_idempotencyKey payload)) ->
  completeRegulation clk m i payload d = Ok (t, d') ->
  exists mr r1 r2 red blue d1,
    let ids := [r_id r1; r_id r2] in
    let side a c := sideScore (capturedBase m ids (ma_id a) d) payload c in
    find_first (fun x => m_id x === m) (db_matches d) = Some mr /\
    m_rulesVersion mr = FAULT_APPEAL_OVERTIME_V2 /\ m_lifecycle mr = IN_PROGRESS /\
    m_status mr = REGULATION_APPEAL /\
    endedRegulation m 1 r1 d /\ endedRegulation m 2 r2 d /\
    (forall w, In w (db_scoringWindows d) -> unresolvedWindow m w = false) /\
    ma_color red = RED /\ ma_color blue = BLUE /\
    In red (db_matchAthletes d) /\ In blue (db_matchAthletes d) /\
    ma_matchId red = m /\ ma_matchId blue = m /\
    invalidateStaleAppeals clk m i d = Ok (tt, d1) /\ sound d1 /\
    recordRegulation clk mr i payload [r1; r2]
      [mkAppealValue red (side red RED); mkAppealValue blue (side blue BLUE)] d1 = Ok (t, d').
Proof.
  intros Hs Hnew H; unfold completeRegulation in H.
  apply bind_ok in H as ([] & d0 & ? & H); reads.
  apply bind_ok in H as (mr & d0 & Hm & H); apply (find_one_or_throw_ok matches) in Hm as [Hm ->].
  apply bind_ok in H as ([] & d1 & Hst & H).
  pose proof (invalidateStaleAppeals_ok _ _ _ _ _ _ Hst) as (Ht & Hk & _).
  assert (Hs1 : sound d1).
  { eapply keeps_sound_invalidateStaleAppeals; eauto. }
  apply bind_ok in H as (ex & d2 & He & H); apply gets_ok in He as [-> ->].
  rewrite (find_first_keys ap_idempotencyKey _ (db_matchAppeals d) (db_matchAppeals d1) Hk Hnew
            : find_first _ (get matchAppeals d1) = None) in H.
  apply bind_ok in H as ([] & d2 & Hg & H); apply throw_if_ok in Hg as [Hg ->]; to_prop.
  apply bind_ok in H as ([[rds ath] su] & d2 & Hi & H); cbv beta iota in H.
  assert (d2 = d1) as -> by (symmetry; eapply (respects_regulationInputs eq), Hi).
  apply regulationInputs_ok in Hi as (r1 & r2 & red & blue & -> & -> & R1 & R2 & Cr & Cb & Ir & Ib & Mr & Mb & Hw & ->);
    [| apply Hs1].
  assert (Er : db_rounds d1 = db_rounds d) by exact (Ht rounds ltac:(table_notin)).
  assert (Ea : db_matchAthletes d1 = db_matchAthletes d) by exact (Ht matchAthletes ltac:(table_notin)).
  assert (Ew : db_scoringWindows d1 = db_scoringWindows d) by exact (Ht scoringWindows ltac:(table_notin)).
  assert (Es : db_roundAthleteResults d1 = db_roundAthleteResults d) by exact (Ht roundAthleteResults ltac:(table_notin)).
  unfold endedRegulation in *; rewrite Er, Ea, Ew, Es in *.
  exists mr, r1, r2, red, blue, d1; cbv zeta; split_and!; try assumption; try tauto.
  revert H; unfold appealValues; cbn [map]; rewrite !filter_andb, Cr, Cb; auto.
Qed.

(** No appeal outlives its source round any more. *)
Definition noStale (m : uuid) (d : DB) : Prop :=
  List.filter (fun a => completedAppeal m a && sourceRoundIs (fun t => negb (t === None)) d a)
    (db_matchAppeals d) = [].

Lemma filter_nil_iff {A} (p : A -> bool) l : List.filter p l = [] <-> forall x, In x l -> p x = false.
Proof.
  split.
  - intros H x Hx; destruct (p x) eqn:E; [| reflexivity].
    assert (Hin : In x (List.filter p l)) by (apply filter_In; auto); rewrite H in Hin; destruct Hin.
  - induction l as [| x l IH]; cbn; intros H; [reflexivity |]; rewrite (H x) by auto; apply IH; auto.
Qed.

Lemma invalidateStaleAppeals_none clk m i d u d' :
  invalidateStaleAppeals clk m i d = Ok (u, d') -> noStale m d'.
Proof.
  intros H; pose proof (touches_invalidateStaleAppeals _ _ _ _ _ _ H) as Ht.
  unfold noStale, invalidateStaleAppeals in *.
  apply bind_ok in H as (l & d1 & Hl & H); apply gets_ok in Hl as [-> ->].
  assert (Hr : db_rounds d' = db_rounds d) by exact (Ht rounds ltac:(table_notin)).
  apply filter_nil_iff; intros x Hx; unfold sourceRoundIs in *; rewrite Hr.
  unfold when in H; destruct (negb _) eqn:En in H.
  - apply bind_ok in H as (au & d1 & Ha & H); apply (create_ok auditLogs) in Ha as (_ & _ & ->).
    apply bind_ok in H as (n & d2 & Hn & H); apply (update_many_ok matchAppeals) in Hn as (_ & _ & ->).
    apply ret_ok in H as [_ <-]; cbn in Hx; apply in_map_where in Hx as (y & Hy & ->).
    destruct (member _ _) eqn:Em; [unfold completedAppeal; cbn; rewrite andb_false_r; reflexivity |].
    apply not_true_is_false; intros Hst; apply not_true_iff_false in Em; apply Em.
    apply existsb_exists; exists (ap_id y); split; [| apply bool_decide_true; reflexivity].
    apply in_map, filter_In; auto.
  - apply ret_ok in H as [_ <-]; to_prop; apply nil_length_inv in En.
    rewrite filter_nil_iff in En; auto.
Qed.

Lemma invalidateStaleAppeals_idle clk m i d : noStale m d -> invalidateStaleAppeals clk m i d = Ok (tt, d).
Proof.
  intros H; unfold invalidateStaleAppeals.
  rewrite (bind_step _ _ _ _ _ (eq_refl : gets _ d = Ok (_, d))); unfold noStale in H; rewrite H; reflexivity.
Qed.

(** The row an appeal is found under its key by. *)
Lemma appeal_by_key d a k :
  wf d -> In a (db_matchAppeals d) -> ap_idempotencyKey a = Some k ->
  find_first (fun a => ap_idempotencyKey a === Some k) (db_matchAppeals d) = Some a.
Proof.
  intros Hwf Hin Hk; specialize (Hwf matchAppeals) as Hok; apply table_ok_true in Hok as (_ & _ & Hix).
  apply andb_prop in Hix as [Hix _].
  destruct (find_first _ _) as [b |] eqn:E.
  - apply find_first_some in E as [Hb Hkb]; to_prop; f_equal.
    eapply (unique_by_inj ap_idempotencyKey); eauto.
  - eapply find_first_none in E; [| exact Hin]; rewrite Hk, bool_decide_true in E by reflexivity; discriminate.
Qed.

Lemma replay_same now m i r2 payload va vb n phase publicId b1 b2 :
  av_score va = sideScore b1 payload RED -> av_score vb = sideScore b2 payload BLUE ->
  replay (appealRow m SCOPE_REGULATION 0 r2 i now (in_idempotencyKey payload) n)
    [(RED, adjustmentRow n va); (BLUE, adjustmentRow n vb)] payload publicId phase =
  Some (mkRegulationTransition n m publicId phase (av_score va) (av_score vb)
          (sd_final (av_score va) === sd_final (av_score vb))).
Proof.
  destruct va as [a sa], vb as [b sb]; cbn [av_score]; intros -> ->; unfold replay, adjustmentFor, adjustmentRow.
  cbn -[finalScore]; decide_consts_goal; cbn -[finalScore]; rewrite !Z.eqb_refl; reflexivity.
Qed.

(** The adjustments of a recorded appeal are read back. *)
Lemma recorded_adjustments clk m i d d1 d' values :
  sound d -> adjustments_fk d -> invalidateStaleAppeals clk m i d = Ok (tt, d1) -> sound d1 ->
  db_matchAppealAdjustments d' = db_matchAppealAdjustments d1 ++ map (adjustmentRow (db_nextId d1)) values ->
  db_matchAthletes d' = db_matchAthletes d ->
  (forall v, In v values -> In (av_athlete v) (db_matchAthletes d)) ->
  adjustmentsOf (db_nextId d1) d' =
    map (fun v => (ma_color (av_athlete v), adjustmentRow (db_nextId d1) v)) values.
Proof.
  intros Hs Hfk Hstale Hs1 Ead Ha' Hv; apply invalidateStaleAppeals_ok in Hstale as (Ht & _ & Hids).
  assert (Ea1 : db_matchAthletes d1 = db_matchAthletes d) by exact (Ht matchAthletes ltac:(table_notin)).
  apply (adjustments_recorded d1); [apply Hs1 | exact Ead | congruence | | rewrite Ea1; exact Hv].
  intros x Hx Heq; rewrite (Ht matchAppealAdjustments ltac:(table_notin) :
    db_matchAppealAdjustments d1 = db_matchAppealAdjustments d) in Hx.
  destruct (Hfk x Hx) as (a & Hina & Ha); apply (in_map ap_id) in Hina; rewrite <- Hids in Hina.
  apply in_map_iff in Hina as (b & Hb & Hinb).
  assert (Hlt : (ap_id b < db_nextId d1)%N) by (eapply (proj2 Hs1 matchAppeals b); eauto; reflexivity).
  rewrite Hb, Ha, Heq in Hlt; lia.
Qed.

(** An appeal on a valid round is not stale. *)
Lemma noStale_recorded m d1 d' a :
  wf d1 -> noStale m d1 -> db_rounds d' = db_rounds d1 -> db_matchAppeals d' = db_matchAppeals d1 ++ [a] ->
  (exists r, In r (db_rounds d1) /\ r_id r = ap_sourceRoundId a /\ r_invalidatedAt r = None) -> noStale m d'.
Proof.
  unfold noStale, sourceRoundIs; intros Hwf Hn Hr Ha (r & Hin & Hid & Hv); rewrite Ha, Hr, List.filter_app.
  rewrite Hn; cbn; destruct (existsb _ _) eqn:E; rewrite ?andb_false_r; [exfalso | reflexivity].
  apply existsb_exists in E as (r' & Hin' & E); to_prop.
  assert (r' = r) as -> by (eapply (wf_id rounds d1); eauto; cbn; congruence); auto.
Qed.

(** C19: an appeal under a new key settles regulation. It needs the match to await it, both
    regulation rounds ended and valid, and no open window; each side's score is the points
    captured for it over the two rounds with its bonus and penalty, never below zero; the
    appeal and the two adjustments are stored; and the match goes to overtime exactly when
    the scores are equal, to publication otherwise. *)
Theorem regulation_appeal_settles clk m i payload d t d'
  (Hs : sound d) (Hfk : adjustments_fk d)
  (Hnew : forall a, In a (db_matchAppeals d) -> ap_idempotencyKey a <> Some (in_idempotencyKey payload))
  (H : completeRegulation clk m i payload d = Ok (t, d')) :
  exists mr mr' r1 r2 red blue,
    let ids := [r_id r1; r_id r2] in
    find_first (fun x => m_id x === m) (db_matches d) = Some mr /\ m_status mr = REGULATION_APPEAL /\
    endedRegulation m 1 r1 d /\ endedRegulation m 2 r2 d /\
    (forall w, In w (db_scoringWindows d) -> unresolvedWindow m w = false) /\
    In red (db_matchAthletes d) /\ In blue (db_matchAthletes d) /\
    ma_matchId red = m /\ ma_matchId blue = m /\ ma_color red = RED /\ ma_color blue = BLUE /\
    rt_red t = sideScore (capturedBase m ids (ma_id red) d) payload RED /\
    rt_blue t = sideScore (capturedBase m ids (ma_id blue) d) payload BLUE /\
    (rt_isTie t = true <-> sd_final (rt_red t) = sd_final (rt_blue t)) /\
    rt_phase t = settledPhase (rt_isTie t) OVERTIME_READY /\
    find_first (fun x => m_id x === m) (db_matches d') = Some mr' /\ m_status mr' = rt_phase t /\
    adjustmentsOf (rt_appealId t) d' =
      [(RED, adjustmentRow (rt_appealId t) (mkAppealValue red (rt_red t)));
       (BLUE, adjustmentRow (rt_appealId t) (mkAppealValue blue (rt_blue t)))].
Proof.
  destruct (completeRegulation_new _ _ _ _ _ _ _ Hs Hnew H)
    as (mr & r1 & r2 & red & blue & d1 & Hm & _ & _ & Hst & R1 & R2 & Hw & Cr & Cb & Ir & Ib & Mr & Mb & Hstale & Hs1 & Hrec).
  pose proof (invalidateStaleAppeals_ok _ _ _ _ _ _ Hstale) as (Ht & _ & Hids).
  apply find_first_some in Hm as Hid; destruct Hid as [_ Hid]; to_prop.
  apply recordRegulation_ok in Hrec as (Et & Eap & _ & Ead & Ems); [| exact Cr | exact Cb].
  assert (Em1 : db_matches d1 = db_matches d) by exact (Ht matches ltac:(table_notin)).
  rewrite Em1, Hid in Ems.
  assert (Ea1 : db_matchAthletes d1 = db_matchAthletes d) by exact (Ht matchAthletes ltac:(table_notin)).
  assert (Ha' : db_matchAthletes d' = db_matchAthletes d1).
  { rewrite Ea1; exact (touches_completeRegulation _ _ _ _ _ _ _ H matchAthletes ltac:(table_notin)). }
  eexists mr, _, r1, r2, red, blue; cbv zeta; rewrite Et; cbn; split_and!; try assumption; try reflexivity.
  - rewrite bool_decide_eq_true; reflexivity.
  - rewrite Ems, find_first_map_where, Hm by (intros; reflexivity); cbn.
    rewrite Hid, bool_decide_true by reflexivity; reflexivity.
  - reflexivity.
  - rewrite (recorded_adjustments clk m i d d1 d' _ Hs Hfk Hstale Hs1 Ead); [| congruence |].
    + cbn; rewrite Cr, Cb; reflexivity.
    + cbn; intros v [<- | [<- | []]]; assumption.
Qed.

(** an appeal is idempotent under its key. Sending it again, by any supervisor with a
    live assignment or session, before the match moves on, returns the same transition and
    writes nothing. *)
Theorem regulation_appeal_once clk1 clk2 m i1 i2 payload d t d'
  (Hs : sound d) (Hfk : adjustments_fk d)
  (Hnew : forall a, In a (db_matchAppeals d) -> ap_idempotencyKey a <> Some (in_idempotencyKey payload))
  (H : completeRegulation clk1 m i1 payload d = Ok (t, d'))
  (Hauth : lockAndVerify clk2 m i2 AppealIdentityError d' = Ok (tt, d')) :
  completeRegulation clk2 m i2 payload d' = Ok (t, d').
Proof.
  pose proof (keeps_sound_completeRegulation _ _ _ _ _ _ _ H Hs) as Hs'.
  pose proof (touches_completeRegulation _ _ _ _ _ _ _ H) as Ht'.
  destruct (completeRegulation_new _ _ _ _ _ _ _ Hs Hnew H)
    as (mr & r1 & r2 & red & blue & d1 & Hm & _ & _ & Hst & R1 & R2 & Hw & Cr & Cb & Ir & Ib & Mr & Mb & Hstale & Hs1 & Hrec).
  pose proof (invalidateStaleAppeals_ok _ _ _ _ _ _ Hstale) as (Ht & _ & _).
  apply find_first_some in Hm as Hid; destruct Hid as [_ Hid]; to_prop.
  apply recordRegulation_ok in Hrec as (Et & Eap & _ & Ead & Ems); [| exact Cr | exact Cb].
  rewrite (Ht matches ltac:(table_notin) : db_matches d1 = db_matches d), Hid in Ems.
  assert (Er1 : db_rounds d1 = db_rounds d) by exact (Ht rounds ltac:(table_notin)).
  unfold completeRegulation; rewrite (bind_step _ _ _ _ _ Hauth).
  assert (Hm' : find_first (fun x => m_id x === m) (db_matches d') = Some (mr <| m_status := rt_phase t |>)).
  { rewrite Ems, find_first_map_where, Hm, Et by (intros; reflexivity); cbn.
    rewrite Hid, bool_decide_true by reflexivity; reflexivity. }
  rewrite (bind_step _ _ _ (mr <| m_status := rt_phase t |>) d') by exact (find_one_or_throw_total matches _ _ _ Hm').
  rewrite (bind_step _ _ _ tt d').
  2:{ apply invalidateStaleAppeals_idle; eapply noStale_recorded;
        [exact (proj1 Hs1) | eapply invalidateStaleAppeals_none, Hstale | | exact Eap |].
      - rewrite Er1; exact (Ht' rounds ltac:(table_notin)).
      - exists r2; rewrite Er1; destruct R2 as (? & _ & _ & _ & ? & _); auto. }
  set (row := appealRow (m_id mr) SCOPE_REGULATION 0 (r_id r2) i1 (serverNow clk1)
                (in_idempotencyKey payload) (db_nextId d1)) in Eap.
  assert (Hex : find_first (fun a => ap_idempotencyKey a === Some (in_idempotencyKey payload))
                  (db_matchAppeals d') = Some row).
  { apply appeal_by_key; [apply Hs' | | reflexivity].
    rewrite Eap; apply in_app_iff; right; left; reflexivity. }
  rewrite (bind_step _ _ _ (Some row) d') by (unfold find_one, gets; do 2 f_equal; exact Hex).
  cbn beta iota; rewrite (bind_step _ _ _ _ _ (eq_refl : gets _ d' = Ok (_, d'))).
  subst row; cbn [appealRow ap_id]; rewrite (recorded_adjustments clk1 m i1 d d1 d' _ Hs Hfk Hstale Hs1 Ead).
  - cbn [map av_athlete]; rewrite Cr, Cb, Hid.
    erewrite replay_same by (cbn; reflexivity); rewrite Et, Hid; reflexivity.
  - exact (Ht' matchAthletes ltac:(table_notin)).
  - cbn; intros v [<- | [<- | []]]; assumption.
Qed.

(** the replay of a regulation appeal looks its key up among all appeals. A key whose
    appeal belongs to another match, or was invalidated by a reset, is answered with that
    appeal's transition as long as the points agree, and nothing is recorded. *)
Theorem appeal_replay_ignores_match clk m i payload d mr a red blue
  (Hwf : wf d) (Hauth : lockAndVerify clk m i AppealIdentityError d = Ok (tt, d))
  (Hm : find_first (fun x => m_id x === m) (db_matches d) = Some mr) (Hstale : noStale m d)
  (Hin : In a (db_matchAppeals d)) (Hkey : ap_idempotencyKey a = Some (in_idempotencyKey payload))
  (Hscope : ap_scope a = SCOPE_REGULATION)
  (Hadj : adjustmentsOf (ap_id a) d = [(RED, red); (BLUE, blue)])
  (Hred : aa_bonusPoints red = in_bonusPoints payload RED /\ aa_penaltyPoints red = in_penaltyPoints payload RED)
  (Hblue : aa_bonusPoints blue = in_bonusPoints payload BLUE /\ aa_penaltyPoints blue = in_penaltyPoints payload BLUE) :
  completeRegulation clk m i payload d =
    Ok (mkRegulationTransition (ap_id a) (ap_matchId a) (m_publicId mr) (m_status mr)
          (sideOfRow red) (sideOfRow blue) (aa_finalScore red === aa_finalScore blue), d).
Proof.
  unfold completeRegulation; rewrite (bind_step _ _ _ _ _ Hauth).
  rewrite (bind_step _ _ _ mr d) by exact (find_one_or_throw_total matches _ _ _ Hm).
  rewrite (bind_step _ _ _ _ _ (invalidateStaleAppeals_idle clk m i d Hstale)).
  rewrite (bind_step _ _ _ (Some a) d).
  2:{ unfold find_one, gets; do 2 f_equal; exact (appeal_by_key d a _ Hwf Hin Hkey). }
  cbn beta iota; rewrite (bind_step _ _ _ _ _ (eq_refl : gets _ d = Ok (_, d))), Hadj.
  unfold replay, adjustmentFor; rewrite Hscope; cbn [rev app find_first fst option_map snd length].
  decide_consts_goal; cbn; destruct Hred as [-> ->], Hblue as [-> ->]; rewrite !Z.eqb_refl; reflexivity.
Qed.

(** What a new overtime appeal writes. *)
Lemma recordOvertime_ok clk m i payload r va vb d t d' :
  recordOvertime clk m i payload r va vb d = Ok (t, d') ->
  let tie := sd_final (av_score va) === sd_final (av_score vb) in
  t = mkOvertimeTransition (db_nextId d) (m_id m) (m_publicId m)
        (settledPhase tie OVERTIME_TIEBREAK_DECISION) (r_attemptNumber r) tie /\
  db_matchAppeals d' = db_matchAppeals d ++ [appealRow (m_id m) SCOPE_OVERTIME (r_attemptNumber r)
     (r_id r) i (serverNow clk) (in_idempotencyKey payload) (db_nextId d)] /\
  db_matchAppealAdjustments d' = db_matchAppealAdjustments d ++
     map (adjustmentRow (db_nextId d)) [va; vb] /\
  db_matches d' = map_where (fun x => m_id x === m_id m)
     (fun x => x <| m_status := settledPhase tie OVERTIME_TIEBREAK_DECISION |>) (db_matches d).
Proof.
  intros H; unfold recordOvertime in H.
  apply bind_ok in H as (ap & d1 & H1 & H); apply (create_ok matchAppeals) in H1 as (-> & _ & ->).
  apply bind_ok in H as (ar & d2 & H2 & H); apply (create_ok matchAppealRounds) in H2 as (_ & _ & ->).
  apply bind_ok in H as ([] & d3 & H3 & H); apply (create_many_plain matchAppealAdjustments) in H3 as [G3 O3].
  apply bind_ok in H as (mr & d4 & H4 & H); apply (update_ok matches) in H4 as (? & _ & _ & _ & ->).
  apply bind_ok in H as (au & d5 & H5 & H); apply (create_ok auditLogs) in H5 as (_ & _ & ->).
  apply ret_ok in H as [<- <-]; cbn.
  assert (Ea : db_matchAppeals d3 = _) by exact (O3 matchAppeals ltac:(discriminate)).
  assert (Em : db_matches d3 = _) by exact (O3 matches ltac:(discriminate)).
  assert (Ej : db_matchAppealAdjustments d3 = _) by exact G3.
  rewrite Ea, Em, Ej; split_and!; reflexivity.
Qed.

(** The greatest element [max_by] picks. *)
Lemma max_by_greatest {A} (key : A -> Z) l x :
  max_by key l = Some x -> In x l /\ forall y, In y l -> key y <= key x.
Proof.
  unfold max_by; revert x; induction l as [| y l IH]; cbn; [discriminate |]; intros x.
  destruct (min_by _ l) as [z |] eqn:E.
  - destruct (IH z eq_refl) as [Hz Hle].
    destruct (- key z <? - key y) eqn:C; intros [= <-]; to_prop; (split; [auto |]).
    + intros w [<- | Hw]; [lia | auto].
    + intros w [<- | Hw]; [lia | specialize (Hle w Hw); lia].
  - intros [= <-]; split; [auto |]; intros w [<- | Hw]; [lia |].
    destruct l; [destruct Hw |]; cbn in E; destruct (min_by _ l); [destruct (_ <? _) |]; discriminate.
Qed.

Lemma found_none {A} (p : A -> bool) l :
  set_ (find_first p l) = false -> forall x, In x l -> p x = false.
Proof. destruct (find_first p l) eqn:E; [discriminate | intros _; apply find_first_none, E]. Qed.

(** What the inputs of an overtime appeal are. *)
Lemma overtimeInputs_ok m d r athletes summaries d' :
  wf d -> overtimeInputs m d = Ok (r, athletes, summaries, d') ->
  In r (db_rounds d) /\ r_matchId r = m /\ r_stage r = OVERTIME /\ r_invalidatedAt r = None /\
  r_endedAt r <> None /\
  (forall r2, In r2 (db_rounds d) -> r_matchId r2 = m -> r_stage r2 = OVERTIME ->
     r_invalidatedAt r2 = None -> r_endedAt r2 <> None -> r_attemptNumber r2 <= r_attemptNumber r) /\
  (forall w, In w (db_scoringWindows d) -> unresolvedWindow m w = true -> w_roundId w <> Some (r_id r)) /\
  (forall a, In a (db_matchAppeals d) -> ap_matchId a = m -> ap_scope a = SCOPE_OVERTIME ->
     ap_attemptNumber a = r_attemptNumber r -> ap_invalidatedAt a <> None) /\
  d' = d /\ (forall a, In a athletes <-> In a (db_matchAthletes d) /\ ma_matchId a = m) /\
  summaries = List.filter (fun s => (rr_matchId s === m) && (rr_roundId s === r_id r) &&
                             (rr_invalidatedAt s === None)) (db_roundAthleteResults d).
Proof.
  intros Hwf H; unfold overtimeInputs in H.
  apply bind_ok in H as (fo & d1 & Hf & H); unfold latestOvertime in Hf.
  apply bind_ok in Hf as (l & d2 & Hl & Hf); apply gets_ok in Hl as [-> ->]; apply ret_ok in Hf as [<- <-].
  apply bind_ok in H as (r0 & d2 & Hr & H); apply or_throw_ok in Hr as [Hr ->].
  apply bind_ok in H as (un & d2 & Hl & H); apply gets_ok in Hl as [-> ->].
  apply bind_ok in H as (prior & d2 & Hl & H); apply gets_ok in Hl as [-> ->].
  apply bind_ok in H as ([] & d2 & Hg & H); apply throw_if_ok in Hg as [Hg ->].
  apply bind_ok in H as (at_ & d2 & Hl & H); apply gets_ok in Hl as [-> ->].
  apply bind_ok in H as (su & d2 & Hl & H); apply gets_ok in Hl as [-> ->].
  apply bind_ok in H as ([] & d2 & Hg2 & H); apply throw_if_ok in Hg2 as [_ ->].
  apply ret_ok in H as [E <-]; injection E as <- <- <-.
  apply max_by_greatest in Hr as [Hin Hmax]; apply filter_In in Hin as [Hin Hq]; to_prop.
  repeat match goal with X : set_ (find_first _ _) = false |- _ =>
    pose proof (found_none _ _ X); clear X end.
  split_and!; auto.
  - intros r2 I2 M2 S2 V2 E2; apply Hmax, filter_In; split; [exact I2 |].
    rewrite M2, S2, V2, !bool_decide_true, bool_decide_false by auto; reflexivity.
  - intros w Iw Uw Rw; unfold unresolvedWindow in Uw; to_prop.
    match goal with X : forall x, In x (get scoringWindows d) -> _ |- _ => specialize (X w Iw); cbv beta in X; revert X end.
    rewrite !bool_decide_true by auto; discriminate.
  - intros a Ia Ma Sa Na Va.
    match goal with X : forall x, In x (get matchAppeals d) -> _ |- _ => specialize (X a Ia); cbv beta in X; revert X end.
    rewrite Ma, Sa, Na, Va, !bool_decide_true, Z.eqb_refl by auto; discriminate.
  - intros a; rewrite filter_In, bool_decide_eq_true; reflexivity.
Qed.

(** One value of an overtime appeal: the athlete of the colour and the points captured for
    it in the round. *)
Lemma overtimeValue_ok mf rid payload athletes d c v d' :
  wf d -> (forall a, In a athletes <-> In a (db_matchAthletes d) /\ ma_matchId a = mf) ->
  overtimeValue payload athletes (List.filter (fun s => (rr_matchId s === mf) && (rr_roundId s === rid) &&
     (rr_invalidatedAt s === None)) (db_roundAthleteResults d)) c d = Ok (v, d') ->
  exists a, In a (db_matchAthletes d) /\ ma_matchId a = mf /\ ma_color a = c /\ d' = d /\
    v = mkAppealValue a (sideScore (capturedBase mf [rid] (ma_id a) d) payload c).
Proof.
  intros Hwf Hath H; unfold overtimeValue in H.
  apply bind_ok in H as (a & d1 & Ha & H); apply or_throw_ok in Ha as [Ha ->].
  apply ret_ok in H as [<- <-]; apply find_first_some in Ha as [Ia Ca]; apply Hath in Ia as [Ia Ma]; to_prop.
  exists a; split_and!; auto; f_equal; f_equal; clear Ca Ia Hath.
  unfold capturedBase; rewrite <- (filter_andb (fun s => rr_athleteId s === ma_id a)).
  rewrite (filter_ext (fun x => (rr_matchId x === mf) && member [rid] (rr_roundId x) && (rr_invalidatedAt x === None))
             (fun s => (rr_matchId s === mf) && (rr_roundId s === rid) && (rr_invalidatedAt s === None)))
    by (intros s; unfold member; cbn; rewrite orb_false_r; f_equal; f_equal; apply bool_decide_ext; split; auto).
  assert (Hu : NoDup (map rr_athleteId (List.filter (fun s => (rr_matchId s === mf) && (rr_roundId s === rid) &&
             (rr_invalidatedAt s === None)) (db_roundAthleteResults d)))).
  { specialize (Hwf roundAthleteResults); apply table_ok_true in Hwf as (_ & _ & Hix).
    eapply (unique_by_second rr_roundId _ _ rid); [exact Hix | intros x Hx; to_prop; assumption]. }
  revert Hu; induction (List.filter _ (db_roundAthleteResults d)) as [| s l IH]; cbn; intros Hu; [reflexivity |].
  inv Hu; case_bool_decide as E; cbn; [| auto].
  replace (List.filter _ l) with (@nil RoundResultRow); [cbn; lia |].
  symmetry; apply filter_nil_iff; intros y Hy; apply bool_decide_eq_false; intros Ey.
  match goal with X : _ ∉ _ |- _ => apply X end; rewrite E, <- Ey; apply list_elem_of_In, in_map, Hy.
Qed.

(** an overtime appeal under a new key settles the latest ended overtime round. No window
    of that round is open and no appeal on the attempt stands; each side's score is the
    points captured for it in that round with its bonus and penalty, never below zero; a tie
    goes to the tie-break decision, anything else to publication. *)
Theorem overtime_appeal_settles clk m i payload d t d'
  (Hs : sound d) (Hfk : adjustments_fk d)
  (Hnew : forall a, In a (db_matchAppeals d) -> ap_idempotencyKey a <> Some (in_idempotencyKey payload))
  (H : completeOvertime clk m i payload d = Ok (t, d')) :
  exists mr mr' r red blue,
    find_first (fun x => m_id x === m) (db_matches d) = Some mr /\ m_status mr = OVERTIME_APPEAL /\
    In r (db_rounds d) /\ r_matchId r = m /\ r_stage r = OVERTIME /\ r_invalidatedAt r = None /\
    r_endedAt r <> None /\
    (forall r2, In r2 (db_rounds d) -> r_matchId r2 = m -> r_stage r2 = OVERTIME ->
       r_invalidatedAt r2 = None -> r_endedAt r2 <> None -> r_attemptNumber r2 <= r_attemptNumber r) /\
    (forall w, In w (db_scoringWindows d) -> unresolvedWindow m w = true -> w_roundId w <> Some (r_id r)) /\
    In red (db_matchAthletes d) /\ In blue (db_matchAthletes d) /\
    ma_matchId red = m /\ ma_matchId blue = m /\ ma_color red = RED /\ ma_color blue = BLUE /\
    let va := mkAppealValue red (sideScore (capturedBase m [r_id r] (ma_id red) d) payload RED) in
    let vb := mkAppealValue blue (sideScore (capturedBase m [r_id r] (ma_id blue) d) payload BLUE) in
    (ot_isTie t = true <-> sd_final (av_score va) = sd_final (av_score vb)) /\
    ot_attemptNumber t = r_attemptNumber r /\
    ot_phase t = settledPhase (ot_isTie t) OVERTIME_TIEBREAK_DECISION /\
    find_first (fun x => m_id x === m) (db_matches d') = Some mr' /\ m_status mr' = ot_phase t /\
    adjustmentsOf (ot_appealId t) d' =
      [(RED, adjustmentRow (ot_appealId t) va); (BLUE, adjustmentRow (ot_appealId t) vb)].
Proof.
  pose proof (touches_completeOvertime _ _ _ _ _ _ _ H) as Ht'.
  unfold completeOvertime in H.
  apply bind_ok in H as ([] & d0 & ? & H); reads.
  apply bind_ok in H as (mr & d0 & Hm & H); apply (find_one_or_throw_ok matches) in Hm as [Hm ->].
  apply bind_ok in H as (ex & d0 & He & H); apply gets_ok in He as [-> ->].
  destruct (find_first _ (get matchAppeals d)) as [a |] eqn:Hx in H.
  { apply find_first_some in Hx as [Ha Hk]; apply bool_decide_eq_true in Hk; destruct (Hnew a Ha Hk). }
  clear Hx.
  apply bind_ok in H as ([] & d0 & Hg & H); apply throw_if_ok in Hg as [_ ->].
  apply bind_ok in H as ([] & d0 & Hg & H); apply throw_if_ok in Hg as [Hg ->]; to_prop.
  apply bind_ok in H as ([[r ath] su] & d0 & Hi & H); cbv beta iota in H.
  apply overtimeInputs_ok in Hi as (Ir & Mr & Sr & Vr & Er & Lr & Wr & _ & -> & Hath & ->); [| apply Hs].
  apply bind_ok in H as (va & d0 & Hva & H); apply (overtimeValue_ok m) in Hva as (red & Ired & Mred & Cred & -> & ->); [| apply Hs | exact Hath].
  apply bind_ok in H as (vb & d0 & Hvb & H); apply (overtimeValue_ok m) in Hvb as (blue & Iblue & Mblue & Cblue & -> & ->); [| apply Hs | exact Hath].
  change (find_first (fun x => m_id x === m) (db_matches d) = Some mr) in Hm.
  apply find_first_some in Hm as Hid; destruct Hid as [_ Hid]; to_prop.
  apply recordOvertime_ok in H as (Et & _ & Ead & Ems); rewrite Hid in Ems.
  eexists mr, _, r, red, blue; cbv zeta; rewrite Et; cbn; split_and!; try assumption; try reflexivity.
  - rewrite bool_decide_eq_true; reflexivity.
  - rewrite Ems, find_first_map_where, Hm by (intros; reflexivity); cbn.
    rewrite Hid, bool_decide_true by reflexivity; reflexivity.
  - reflexivity.
  - rewrite (adjustments_recorded d d' _ _ (proj1 Hs) Ead).
    + cbn; rewrite Cred, Cblue; reflexivity.
    + exact (Ht' matchAthletes ltac:(table_notin)).
    + intros x Hx Heq; destruct (Hfk x Hx) as (a & Hina & Ha).
      pose proof (proj2 Hs matchAppeals a _ Hina eq_refl); lia.
    + cbn; intros v [<- | [<- | []]]; assumption.
Qed.

(** What a tied overtime is. *)
Lemma tiedOvertime_ok clk m i s d mr a d' :
  tiedOvertime clk m i s d = Ok (mr, a, d') ->
  d' = d /\ find_first (fun x => m_id x === m) (db_matches d) = Some mr /\
  m_status mr = OVERTIME_TIEBREAK_DECISION /\ m_rulesVersion mr = FAULT_APPEAL_OVERTIME_V2 /\
  In a (db_matchAppeals d) /\ completedAppeal m a = true /\ ap_scope a = SCOPE_OVERTIME /\
  forall b, In b (db_matchAppeals d) -> completedAppeal m b = true -> ap_scope b = SCOPE_OVERTIME ->
    ap_attemptNumber b <= ap_attemptNumber a.
Proof.
  intros H; unfold tiedOvertime in H.
  apply bind_ok in H as ([] & d0 & ? & H); reads.
  apply bind_ok in H as (mr0 & d0 & Hm & H); apply (find_one_or_throw_ok matches) in Hm as [Hm ->].
  apply bind_ok in H as ([] & d0 & Hg & H); apply throw_if_ok in Hg as [Hg ->].
  apply bind_ok in H as ([] & d0 & Hg2 & H); apply throw_if_ok in Hg2 as [Hg2 ->]; to_prop.
  apply bind_ok in H as (l & d0 & Hl & H); unfold find_many in Hl; apply gets_ok in Hl as [-> ->].
  apply bind_ok in H as (ap & d0 & Ha & H); apply or_throw_ok in Ha as [Ha ->].
  apply ret_ok in H as [E _]; injection E as <- <-.
  apply max_by_greatest in Ha as [Ha Hmax]; apply filter_In in Ha as [Ia Ha]; apply andb_prop in Ha as [Ha Hs]; to_prop.
  split_and!; auto; intros b Ib Cb Sb; apply Hmax, filter_In; rewrite Cb, Sb; auto.
Qed.

(** Rows an update selects come out marked. *)
Lemma marked_by_update {A} (p : A -> bool) (q : A -> Prop) (g : A -> A) (stamp : A -> option timestamp) l :
  (forall x, q (g x) -> q x) -> (forall x, stamp (g x) <> None) ->
  (forall x, q x -> stamp x = None -> p x = true) ->
  forall x, In x (map_where p g l) -> q x -> stamp x <> None.
Proof.
  intros Hq Hd Hp x Hx Qx; apply in_map_where in Hx as (y & Hy & ->); destruct (p y) eqn:E; [apply Hd |].
  intros Hn; rewrite Hp in E by auto; discriminate.
Qed.

(** restarting a tied overtime takes back all of its attempt and leaves the rest. The
    appeal is the latest one standing; its round, the captured results, scores, faults and
    windows of that round, the appeal and any winner chosen for it are invalidated; rows of
    other rounds keep their state; the match is ready for overtime under the next number. *)
Theorem restart_reopens_overtime clk m i d t d'
  (H : restart clk m i d = Ok (t, d')) :
  exists mr mr' a, let source := ap_sourceRoundId a in
    find_first (fun x => m_id x === m) (db_matches d) = Some mr /\
    m_status mr = OVERTIME_TIEBREAK_DECISION /\
    In a (db_matchAppeals d) /\ completedAppeal m a = true /\ ap_scope a = SCOPE_OVERTIME /\
    (forall b, In b (db_matchAppeals d) -> completedAppeal m b = true -> ap_scope b = SCOPE_OVERTIME ->
       ap_attemptNumber b <= ap_attemptNumber a) /\
    rs_attemptNumber t = ap_attemptNumber a + 1 /\
    find_first (fun x => m_id x === m) (db_matches d') = Some mr' /\ m_status mr' = OVERTIME_READY /\
    (forall r, In r (db_rounds d') -> r_id r = source -> r_invalidatedAt r <> None) /\
    (forall s, In s (db_roundAthleteResults d') -> rr_roundId s = source -> rr_invalidatedAt s <> None) /\
    (forall e, In e (db_scoreEvents d') -> e_roundId e = Some source -> e_revertedAt e <> None) /\
    (forall f, In f (db_faults d') -> f_roundId f = source -> f_invalidatedAt f <> None) /\
    (forall w, In w (db_scoringWindows d') -> w_roundId w = Some source -> w_invalidatedAt w <> None) /\
    (forall b, In b (db_matchAppeals d') -> ap_id b = ap_id a -> ap_invalidatedAt b <> None) /\
    (forall x, In x (db_matchResultDecisions d') -> dc_sourceAppealId x = ap_id a -> dc_invalidatedAt x <> None) /\
    (forall e, e_roundId e <> Some source -> In e (db_scoreEvents d) <-> In e (db_scoreEvents d')).
Proof.
  unfold restart in H.
  apply bind_ok in H as ([mr a] & d0 & Ht & H); apply tiedOvertime_ok in Ht as (-> & Hm & Hst & _ & Ia & Ca & Sa & Max).
  apply bind_ok in H as (au & d1 & H1 & H); apply (create_ok auditLogs) in H1 as (_ & _ & ->).
  apply bind_ok in H as (rr & d2 & H2 & H); apply (update_ok rounds) in H2 as (? & _ & _ & _ & ->).
  apply bind_ok in H as (n3 & d3 & H3 & H); apply (update_many_ok roundAthleteResults) in H3 as (_ & _ & ->).
  apply bind_ok in H as (n4 & d4 & H4 & H); apply (update_many_ok scoreEvents) in H4 as (_ & _ & ->).
  apply bind_ok in H as (n5 & d5 & H5 & H); apply (update_many_ok faults) in H5 as (_ & _ & ->).
  apply bind_ok in H as (n6 & d6 & H6 & H); apply (update_many_ok scoringWindows) in H6 as (_ & _ & ->).
  apply bind_ok in H as (a7 & d7 & H7 & H); apply (update_ok matchAppeals) in H7 as (? & _ & _ & _ & ->).
  apply bind_ok in H as (n8 & d8 & H8 & H); apply (update_many_ok matchResultDecisions) in H8 as (_ & _ & ->).
  apply bind_ok in H as (mr9 & d9 & H9 & H); apply (update_ok matches) in H9 as (? & _ & _ & _ & ->).
  apply ret_ok in H as [<- <-]; cbn.
  apply find_first_some in Hm as Hid; destruct Hid as [_ Hid]; to_prop.
  eexists mr, _, a; cbv zeta; split_and!; try assumption; try reflexivity.
  { rewrite find_first_map_where, Hm by (intros; reflexivity); cbn.
    rewrite Hid, bool_decide_true by reflexivity; reflexivity. }
  { reflexivity. }
  1-7: apply marked_by_update; [intros ?; exact id | intros ?; discriminate |].
  1-7: intros y Hx Hv; cbn in *; rewrite ?Hx, ?Hv, ?bool_decide_true by reflexivity; reflexivity.
  intros e He; rewrite in_map_where; split; [intros Hin; exists e; split; [exact Hin |] | intros (y & Hx & E)].
  - rewrite bool_decide_false by exact He; reflexivity.
  - destruct (_ && _) eqn:Eb in E; [exfalso | rewrite E; exact Hx].
    apply andb_prop in Eb as [Eb _]; to_prop; apply He; rewrite E; exact Eb.
Qed.

(** What choosing a winner by hand wrote. *)
Lemma manualWinner_ok clk m i w d t d' :
  manualWinner clk m i w d = Ok (t, d') ->
  exists mr a athlete,
    find_first (fun x => m_id x === m) (db_matches d) = Some mr /\
    m_status mr = OVERTIME_TIEBREAK_DECISION /\
    In a (db_matchAppeals d) /\ completedAppeal m a = true /\ ap_scope a = SCOPE_OVERTIME /\
    (forall b, In b (db_matchAppeals d) -> completedAppeal m b = true -> ap_scope b = SCOPE_OVERTIME ->
       ap_attemptNumber b <= ap_attemptNumber a) /\
    In athlete (db_matchAthletes d) /\ ma_matchId athlete = m /\ ma_color athlete = w /\
    db_matchResultDecisions d' = db_matchResultDecisions d ++
      [mkDecisionRow (db_nextId d) m (ma_id athlete) w (ap_id a) (ap_sourceRoundId a)
         (officialAssignment i) (legacySession i) (rowNow clk) None None] /\
    find_first (fun x => m_id x === m) (db_matches d') = Some (mr <| m_status := RESULT_PUBLICATION_READY |>) /\
    touches [matchResultDecisions; matches; auditLogs] d d'.
Proof.
  intros H; assert (Ht' : touches [matchResultDecisions; matches; auditLogs] d d').
  { assert (Hr : respects (touches [matchResultDecisions; matches; auditLogs]) (manualWinner clk m i w))
      by (unfold manualWinner, auditCommand; respects_auto); eapply Hr, H. }
  unfold manualWinner in H.
  apply bind_ok in H as ([mr a] & d0 & Ht & H); apply tiedOvertime_ok in Ht as (-> & Hm & Hst & _ & Ia & Ca & Sa & Max).
  apply bind_ok in H as (at_ & d1 & Ha & H); apply (find_one_or_throw_ok matchAthletes) in Ha as [Ha ->].
  apply find_first_some in Ha as [Iat Hat]; to_prop.
  apply bind_ok in H as (dec & d2 & H2 & H); apply (create_ok matchResultDecisions) in H2 as (-> & _ & ->).
  apply bind_ok in H as (mr9 & d9 & H9 & H); apply (update_ok matches) in H9 as (? & _ & _ & _ & ->).
  apply bind_ok in H as (au & d1 & Hau & H); apply (create_ok auditLogs) in Hau as (_ & _ & ->).
  apply ret_ok in H as [<- <-].
  eexists mr, a, at_; split_and!; try eassumption; try reflexivity.
  cbn; rewrite find_first_map_where, Hm by (intros; reflexivity); cbn.
  apply find_first_some in Hm as [_ Hm]; rewrite Hm; reflexivity.
Qed.

(** a manual winner is chosen once. It takes a tied overtime appeal, the latest one
    standing, and records one valid decision for it that names the athlete of the chosen
    colour; the match awaits publication, and until it is taken back no other winner can be
    chosen and overtime cannot be restarted. *)
Theorem manual_winner_decides clk m i w d t d'
  (H : manualWinner clk m i w d = Ok (t, d')) :
  exists mr mr' a athlete decision,
    find_first (fun x => m_id x === m) (db_matches d) = Some mr /\
    m_status mr = OVERTIME_TIEBREAK_DECISION /\
    In a (db_matchAppeals d) /\ completedAppeal m a = true /\ ap_scope a = SCOPE_OVERTIME /\
    (forall b, In b (db_matchAppeals d) -> completedAppeal m b = true -> ap_scope b = SCOPE_OVERTIME ->
       ap_attemptNumber b <= ap_attemptNumber a) /\
    In athlete (db_matchAthletes d) /\ ma_matchId athlete = m /\ ma_color athlete = w /\
    db_matchResultDecisions d' = db_matchResultDecisions d ++ [decision] /\
    dc_matchId decision = m /\ dc_winnerColor decision = w /\ dc_winnerAthleteId decision = ma_id athlete /\
    dc_sourceAppealId decision = ap_id a /\ dc_sourceOvertimeRoundId decision = ap_sourceRoundId a /\
    dc_invalidatedAt decision = None /\
    find_first (fun x => m_id x === m) (db_matches d') = Some mr' /\ m_status mr' = RESULT_PUBLICATION_READY /\
    (forall clk2 i2 w2 r, manualWinner clk2 m i2 w2 d' <> Ok r) /\
    (forall clk2 i2 r, restart clk2 m i2 d' <> Ok r).
Proof.
  apply manualWinner_ok in H as (mr & a & at_ & Hm & Hst & Ia & Ca & Sa & Max & Iat & Mat & Cat & Ed & Hm' & _).
  assert (No : forall clk2 i2 s r, tiedOvertime clk2 m i2 s d' <> Ok r).
  { intros clk2 i2 s [[mr2 a2] d2] Ht; apply tiedOvertime_ok in Ht as (-> & Hm2 & Hs2 & _).
    rewrite Hm' in Hm2; injection Hm2 as <-; discriminate Hs2. }
  eexists mr, _, a, at_, _; split_and!; try eassumption; try reflexivity.
  - intros clk2 i2 w2 [r d2] H; apply bind_ok in H as (? & ? & H & _); exact (No _ _ _ _ H).
  - intros clk2 i2 [r d2] H; apply bind_ok in H as (? & ? & H & _); exact (No _ _ _ _ H).
Qed.

(** ** Witnesses

    Match 10 after two regulation rounds with one judge point to red in each. *)
Definition sampleResult (id rid athlete : uuid) (points : Z) : RoundResultRow :=
  mkRoundResultRow id 10 rid athlete points 0 120000 None None.

Definition regulationAppealDB : DB := Eval vm_compute in
  (sampleDB (sampleMatch 10 REGULATION_APPEAL IN_PROGRESS (Some 2) (Some 0))
    [sampleRound 50 1 REGULATION 0 0 (Some 120000); sampleRound 51 2 REGULATION 0 150000 (Some 270000)])
  <| db_roundAthleteResults := [sampleResult 60 50 21 1; sampleResult 61 50 22 0;
                                sampleResult 62 51 21 1; sampleResult 63 51 22 0] |>.

Definition points (red blue : Z) (key : string) : AppealInput :=
  mkAppealInput (fun c => match c with RED => red | BLUE => blue end) (fun _ => 0) key None.

(** Two bonus points for blue tie the regulation. *)
Definition tiedRegulationDB : DB := Eval vm_compute in
  after (completeRegulation (at_time 300000) 10 supervisor (points 0 2 "reg")) regulationAppealDB.

(** The overtime round of attempt one, ended without points. *)
Definition overtimeAppealDB : DB := Eval vm_compute in
  let d := tiedRegulationDB in
  d <| db_matches := [sampleMatch 10 OVERTIME_APPEAL IN_PROGRESS (Some 1) (Some 0);
                      sampleMatch 11 WAITING NOT_STARTED None None] |>
    <| db_rounds := db_rounds d ++ [sampleRound 52 1 OVERTIME 1 310000 (Some 430000)] |>
    <| db_roundAthleteResults := db_roundAthleteResults d ++ [sampleResult 64 52 21 1; sampleResult 65 52 22 1] |>.

Definition tiedOvertimeDB : DB := Eval vm_compute in
  after (completeOvertime (at_time 440000) 10 supervisor (points 1 1 "ot")) overtimeAppealDB.

Lemma regulationAppealDB_sound : sound regulationAppealDB. Proof. solve_sound. Defined.
Lemma overtimeAppealDB_sound : sound overtimeAppealDB. Proof. solve_sound. Defined.
Lemma tiedOvertimeDB_sound : sound tiedOvertimeDB. Proof. solve_sound. Defined.

Ltac no_such_key := intros ? Hin_; vm_compute in Hin_; intuition (subst; discriminate).
Ltac solve_fk :=
  intros ? Hin_; vm_compute in Hin_; intuition subst; eexists; (split; [left; reflexivity | reflexivity]).

Lemma overtime_fk : adjustments_fk overtimeAppealDB. Proof. solve_fk. Defined.

Definition tiedRegulation : RegulationTransition :=
  mkRegulationTransition 1000 10 "M" OVERTIME_READY (mkSideScore 2 0 0 2) (mkSideScore 0 2 0 2) true.
Definition tiedOvertimeTransition : OvertimeTransition :=
  mkOvertimeTransition 1006 10 "M" OVERTIME_TIEBREAK_DECISION 1 true.

Lemma regulation_appeal_settles_witness :
  completeRegulation (at_time 300000) 10 supervisor (points 0 2 "reg") regulationAppealDB =
    Ok (tiedRegulation, tiedRegulationDB) /\
  exists r1 r2 red, endedRegulation 10 1 r1 regulationAppealDB /\ endedRegulation 10 2 r2 regulationAppealDB /\
    rt_red tiedRegulation = sideScore (capturedBase 10 [r_id r1; r_id r2] (ma_id red) regulationAppealDB)
                              (points 0 2 "reg") RED /\
    rt_phase tiedRegulation = settledPhase (rt_isTie tiedRegulation) OVERTIME_READY.
Proof.
  split; [vm_compute; reflexivity |].
  destruct (regulation_appeal_settles (at_time 300000) 10 supervisor (points 0 2 "reg") regulationAppealDB
              tiedRegulation tiedRegulationDB) as (mr & mr' & r1 & r2 & red & blue & Hall);
    [apply regulationAppealDB_sound | intros ? [] | intros ? [] | vm_compute; reflexivity |].
  exists r1, r2, red; destruct_and! Hall; auto.
Defined.

Lemma regulation_appeal_once_witness :
  completeRegulation (at_time 300000) 10 supervisor (points 0 2 "reg") regulationAppealDB =
    Ok (tiedRegulation, tiedRegulationDB) /\
  completeRegulation (at_time 310000) 10 supervisor (points 0 2 "reg") tiedRegulationDB =
    Ok (tiedRegulation, tiedRegulationDB).
Proof.
  split; [vm_compute; reflexivity |].
  apply (regulation_appeal_once (at_time 300000) (at_time 310000) 10 supervisor supervisor _ regulationAppealDB);
    [apply regulationAppealDB_sound | intros ? [] | intros ? [] | vm_compute; reflexivity | vm_compute; reflexivity].
Defined.

(** The regulation appeal of match 11 is answered to a request on match 10. *)
Definition foreignAppealDB : DB := Eval vm_compute in
  tiedRegulationDB <| db_matchAppeals := map (fun a => a <| ap_matchId := 11%N |>) (db_matchAppeals tiedRegulationDB) |>.
Definition foreignAppeal : AppealRow := Eval vm_compute in
  match db_matchAppeals foreignAppealDB with a :: _ => a | [] => appealRow 0 SCOPE_OVERTIME 0 0 supervisor 0 "" 0 end.

Lemma appeal_replay_ignores_match_witness :
  ap_matchId foreignAppeal = 11%N /\
  completeRegulation (at_time 310000) 10 supervisor (points 0 2 "reg") foreignAppealDB =
    Ok (mkRegulationTransition 1000 11 "M" OVERTIME_READY (mkSideScore 2 0 0 2) (mkSideScore 0 2 0 2) true,
        foreignAppealDB).
Proof.
  split; [reflexivity |].
  apply (appeal_replay_ignores_match (at_time 310000) 10 supervisor (points 0 2 "reg") foreignAppealDB
           (sampleMatch 10 OVERTIME_READY IN_PROGRESS (Some 2) (Some 0)) foreignAppeal
           (mkAdjustmentRow 1000 21 2 0 0 2) (mkAdjustmentRow 1000 22 0 2 0 2));
    try (vm_compute; reflexivity).
  - solve_wf.
  - left; reflexivity.
  - vm_compute; auto.
  - vm_compute; auto.
Defined.

Lemma overtime_appeal_settles_witness :
  completeOvertime (at_time 440000) 10 supervisor (points 1 1 "ot") overtimeAppealDB =
    Ok (tiedOvertimeTransition, tiedOvertimeDB) /\
  exists mr' r, r_stage r = OVERTIME /\ ot_attemptNumber tiedOvertimeTransition = r_attemptNumber r /\
    find_first (fun x => m_id x === 10%N) (db_matches tiedOvertimeDB) = Some mr' /\
    m_status mr' = ot_phase tiedOvertimeTransition.
Proof.
  split; [vm_compute; reflexivity |].
  destruct (overtime_appeal_settles (at_time 440000) 10 supervisor (points 1 1 "ot") overtimeAppealDB
              tiedOvertimeTransition tiedOvertimeDB) as (mr & mr' & r & red & blue & Hall);
    [apply overtimeAppealDB_sound | exact overtime_fk | no_such_key | vm_compute; reflexivity |].
  exists mr', r; cbv zeta in Hall; destruct_and! Hall; auto.
Defined.

Definition restartedOvertimeDB : DB := Eval vm_compute in
  after (restart (at_time 450000) 10 supervisor) tiedOvertimeDB.

Lemma restart_reopens_overtime_witness :
  restart (at_time 450000) 10 supervisor tiedOvertimeDB =
    Ok (mkRestart 10 "M" 2 OVERTIME_READY, restartedOvertimeDB) /\
  exists a, ap_scope a = SCOPE_OVERTIME /\
    forall r, In r (db_rounds restartedOvertimeDB) -> r_id r = ap_sourceRoundId a -> r_invalidatedAt r <> None.
Proof.
  split; [vm_compute; reflexivity |].
  destruct (restart_reopens_overtime (at_time 450000) 10 supervisor tiedOvertimeDB
              (mkRestart 10 "M" 2 OVERTIME_READY) restartedOvertimeDB) as (mr & mr' & a & Hall);
    [vm_compute; reflexivity |].
  exists a; cbv zeta in Hall; destruct_and! Hall; auto.
Defined.

Definition manualWinnerDB : DB := Eval vm_compute in
  after (manualWinner (at_time 450000) 10 supervisor BLUE) tiedOvertimeDB.

Lemma manual_winner_decides_witness :
  manualWinner (at_time 450000) 10 supervisor BLUE tiedOvertimeDB =
    Ok (mkManualWinner 10 "M" 1 RESULT_PUBLICATION_READY BLUE, manualWinnerDB) /\
  exists decision, db_matchResultDecisions manualWinnerDB = db_matchResultDecisions tiedOvertimeDB ++ [decision] /\
    dc_winnerColor decision = BLUE.
Proof.
  split; [vm_compute; reflexivity |].
  destruct (manual_winner_decides (at_time 450000) 10 supervisor BLUE tiedOvertimeDB
              (mkManualWinner 10 "M" 1 RESULT_PUBLICATION_READY BLUE) manualWinnerDB)
    as (mr & mr' & a & at_ & decision & Hall); [vm_compute; reflexivity |].
  exists decision; destruct_and! Hall; auto.
Defined.
