(* ===== verification/Publication.v ===== *)
(** * Publication

    [realtime/result-publication.service.ts]: publishing the result of a match under the
    current rules. The winner is the athlete the latest valid appeal puts ahead, or the one
    chosen by hand on a tied overtime appeal; the match is finished, the bracket is told,
    the crew is released and the response is stored under the request's key. *)
From S2P Require Import Prelude Schema Database Rules Authorization Scenario Scoring Lifecycle.
From S2P Require Import BracketOutcome Cancellation Exit Appeals.

(** ** Operations *)

(** What the appeal or the decision on it selects. *)
Record Selection : Type := mkSelection {
  se_winner : AthleteColor; se_winnerAthleteId : uuid; se_method : MatchOutcomeMethod }.

(** The readings left after the service took its first [new Date()]. *)
Definition laterClock (clk : Clock) : Clock :=
  mkClock (authNow clk) (serverNow clk) (rowNow clk) (fun n => jsNow clk (S n)).

Section Publish.
(** [createHash('sha256').update(JSON.stringify(value)).digest('hex')] of node:crypto. *)
Context (sha256 : json -> string).

Definition publicationFingerprint (traceId : option string) : string :=
  sha256 (JObj [("traceId", jopt JStr traceId)]%string).

(** The valid committed appeal completed last. *)
Definition latestAppeal (matchId : uuid) : DbM (option AppealRow) :=
  l ← gets (fun d => List.filter (fun a => completedAppeal matchId a &&
                       sourceRoundIs (fun t => t === None) d a) (db_matchAppeals d));
  mret (max_by ap_completedAt l).

(** The winner: by decision on a tied overtime appeal, else by the higher final score. *)
Definition selectWinner (appeal : AppealRow) (x y : AthleteColor * AdjustmentRow)
    (decision : option DecisionRow) : DbM Selection :=
  let tie := aa_finalScore (snd x) === aa_finalScore (snd y) in
  match decision with
  | Some decision =>
      _ ← throw_if ((ap_scope appeal !== SCOPE_OVERTIME) || negb tie)
            (AppealStateError "Manual decision source is no longer tied");
      mret (mkSelection (dc_winnerColor decision) (dc_winnerAthleteId decision) MANUAL_AFTER_OVERTIME_TIE)
  | None =>
      _ ← throw_if tie (AppealStateError "A tied appeal requires a manual decision");
      let selected := if aa_finalScore (snd y) <? aa_finalScore (snd x) then x else y in
      mret (mkSelection (fst selected) (aa_athleteId (snd selected))
              (if ap_scope appeal === SCOPE_REGULATION then REGULATION_SCORE else OVERTIME_SCORE))
  end.

(** The reads and guards of [publish] up to the selection. *)
Definition publicationInputs (clk : Clock) (matchId : uuid) (identity : SupervisorCommandIdentity)
    : DbM (MatchRow * AppealRow * Selection) :=
  _ ← lockAndVerify clk matchId identity AppealIdentityError;
  m ← find_one_or_throw matches (fun m => m_id m === matchId);
  _ ← throw_if (m_rulesVersion m !== FAULT_APPEAL_OVERTIME_V2)
        (AppealStateError "Result publication is unavailable for legacy matches");
  _ ← throw_if ((m_status m !== RESULT_PUBLICATION_READY) || (m_lifecycle m !== IN_PROGRESS))
        (AppealStateError "Match is not ready for result publication");
  found ← latestAppeal matchId;
  appeal ← or_throw found (AppealStateError "A valid committed appeal is required");
  adjustments ← gets (adjustmentsOf (ap_id appeal));
  match adjustments with
  | [x; y] =>
      decision ← find_one matchResultDecisions (fun q => (dc_matchId q === matchId) &&
                   (dc_sourceAppealId q === ap_id appeal) && (dc_invalidatedAt q === None));
      selected ← selectWinner appeal x y decision;
      mret (m, appeal, selected)
  | _ => throw (AppealStateError "A valid committed appeal is required")
  end.

Definition outcomeRow (matchId : uuid) (identity : SupervisorCommandIdentity) (appeal : AppealRow)
    (selected : Selection) (now : timestamp) (id : uuid) : OutcomeRow :=
  mkOutcomeRow id matchId (se_winnerAthleteId selected) (se_winner selected) (se_method selected)
    (Some (ap_id appeal))
    (if ap_scope appeal === SCOPE_OVERTIME then Some (ap_sourceRoundId appeal) else None)
    (officialAssignment identity) (legacySession identity) now.

Definition finishedRow (now : timestamp) (m : MatchRow) : MatchRow :=
  m <| m_status := FINISHED |> <| m_lifecycle := LIFECYCLE_COMPLETED |> <| m_finishedAt := Some now |>.

(** The writes of [publish]. *)
Definition recordPublication (clk : Clock) (m : MatchRow) (identity : SupervisorCommandIdentity)
    (key : string) (traceId : option string) (appeal : AppealRow) (selected : Selection)
    : DbM PublicationResponse :=
  let matchId := m_id m in
  let now := jsNow clk 0 in
  _ ← create matchOutcomes (outcomeRow matchId identity appeal selected now);
  _ ← update matches (fun m => m_id m === matchId) (finishedRow now);
  _ ← processFinishedMatch (laterClock clk) matchId (Some (se_winner selected));
  released ← releaseForTransition RESULT_PUBLICATION_READY FINISHED matchId now identity None;
  _ ← auditCommand matchId identity MATCH_ACTION
        [("action", JStr "RESULT_PUBLISHED"); ("traceId", jopt JStr traceId);
         ("winner", JColor (se_winner selected)); ("method", JMethod (se_method selected))]%string;
  let transition := mkPublicationResponse matchId (m_publicId m) (m_tournamentId m) released
                      (se_winner selected) (se_method selected) now in
  _ ← create matchResultPublications (fun id => mkPublicationRow id matchId key
        (publicationFingerprint traceId) transition (rowNow clk));
  mret transition.

(** [ResultPublicationService.publish] *)
Definition publish (clk : Clock) (matchId : uuid) (identity : SupervisorCommandIdentity)
    (key : string) (traceId : option string) : DbM PublicationResponse :=
  replay ← find_one matchResultPublications
             (fun p => (pb_matchId p === matchId) && (pb_idempotencyKey p === key));
  match replay with
  | Some p =>
      _ ← throw_if (pb_fingerprint p !== publicationFingerprint traceId) ResultPublicationConflict;
      mret (pb_response p)
  | None =>
      '(m, appeal, selected) ← publicationInputs clk matchId identity;
      recordPublication clk m identity key traceId appeal selected
  end.
End Publish.

(** ** Facts *)

(** The appeal publication goes by: valid, on a valid round, and completed last. *)
Definition governs (m : uuid) (d : DB) (a : AppealRow) : Prop :=
  In a (db_matchAppeals d) /\ completedAppeal m a = true /\ sourceRoundIs (fun t => t === None) d a = true /\
  forall b, In b (db_matchAppeals d) -> completedAppeal m b = true ->
    sourceRoundIs (fun t => t === None) d b = true -> ap_completedAt b <= ap_completedAt a.

(** A valid decision on an appeal of the match. *)
Definition decides (m : uuid) (a : AppealRow) (q : DecisionRow) : Prop :=
  dc_matchId q = m /\ dc_sourceAppealId q = ap_id a /\ dc_invalidatedAt q = None.

(** The winner the stored rows call for. *)
Definition rightful (m : uuid) (d : DB) (a : AppealRow) (s : Selection) : Prop :=
  exists x y, adjustmentsOf (ap_id a) d = [x; y] /\
    ((exists q, In q (db_matchResultDecisions d) /\ decides m a q /\ ap_scope a = SCOPE_OVERTIME /\
        aa_finalScore (snd x) = aa_finalScore (snd y) /\
        s = mkSelection (dc_winnerColor q) (dc_winnerAthleteId q) MANUAL_AFTER_OVERTIME_TIE) \/
     ((forall q, In q (db_matchResultDecisions d) -> ~ decides m a q) /\
        exists win lose, (win = x /\ lose = y \/ win = y /\ lose = x) /\
          aa_finalScore (snd lose) < aa_finalScore (snd win) /\
          s = mkSelection (fst win) (aa_athleteId (snd win))
                (if ap_scope a === SCOPE_REGULATION then REGULATION_SCORE else OVERTIME_SCORE))).

Lemma publicationInputs_ok clk m i d mr a s d' :
  publicationInputs clk m i d = Ok (mr, a, s, d') ->
  d' = d /\ find_first (fun x => m_id x === m) (db_matches d) = Some mr /\
  m_rulesVersion mr = FAULT_APPEAL_OVERTIME_V2 /\ m_status mr = RESULT_PUBLICATION_READY /\
  m_lifecycle mr = IN_PROGRESS /\ governs m d a /\ rightful m d a s.
Proof.
  intros H; unfold publicationInputs in H.
  apply bind_ok in H as ([] & d0 & Hl & H).
  assert (d0 = d) as -> by (eapply read_only; [| exact Hl]; eauto with tx typeclass_instances); clear Hl.
  apply bind_ok in H as (mr0 & d0 & Hm & H); apply (find_one_or_throw_ok matches) in Hm as [Hm ->].
  apply bind_ok in H as ([] & d0 & Hg & H); apply throw_if_ok in Hg as [Hg ->].
  apply bind_ok in H as ([] & d0 & Hg2 & H); apply throw_if_ok in Hg2 as [Hg2 ->]; to_prop.
  apply bind_ok in H as (fo & d0 & Hf & H); unfold latestAppeal in Hf.
  apply bind_ok in Hf as (l & d1 & Hl & Hf); apply gets_ok in Hl as [-> ->]; apply ret_ok in Hf as [<- <-].
  apply bind_ok in H as (ap & d1 & Ha & H); apply or_throw_ok in Ha as [Ha ->].
  apply max_by_greatest in Ha as [Ha Hmax]; apply filter_In in Ha as [Ia Ha]; apply andb_prop in Ha as [Ca Sa].
  apply bind_ok in H as (adj & d1 & Hadj & H); apply gets_ok in Hadj as [-> ->].
  destruct (adjustmentsOf (ap_id ap) d) as [| x [| y [|]]] eqn:Eadj;
    try (apply throw_ok in H; destruct H).
  apply bind_ok in H as (dec & d1 & Hd & H); apply gets_ok in Hd as [-> ->].
  apply bind_ok in H as (sel & d1 & Hsel & H).
  apply ret_ok in H as [E <-]; injection E as <- <- <-; unfold selectWinner in Hsel.
  assert (Hgov : governs m d ap).
  { split_and!; auto; intros b Ib Cb Sb; apply Hmax, filter_In; rewrite Cb, Sb; auto. }
  destruct (find_first _ (get matchResultDecisions d)) as [q |] eqn:Eq in Hsel.
  - apply bind_ok in Hsel as ([] & d2 & Hw & Hsel); apply throw_if_ok in Hw as [Hw ->].
    apply ret_ok in Hsel as [<- <-]; apply find_first_some in Eq as [Iq Hq]; to_prop.
    split_and!; auto; exists x, y; split; [exact Eadj |]; left; exists q; unfold decides; auto 10.
  - apply bind_ok in Hsel as ([] & d2 & Hw & Hsel); apply throw_if_ok in Hw as [Hw ->].
    apply ret_ok in Hsel as [<- <-]; to_prop.
    split_and!; auto; exists x, y; split; [exact Eadj |]; right; split.
    + intros q Iq (Q1 & Q2 & Q3); eapply find_first_none in Eq; [| exact Iq]; cbv beta in Eq.
      rewrite Q1, Q2, Q3, !bool_decide_true in Eq by reflexivity; discriminate.
    + destruct (aa_finalScore (snd y) <? aa_finalScore (snd x)) eqn:C; to_prop; [exists x, y | exists y, x];
        (split_and!; [auto | lia | reflexivity]).
Qed.

Lemma recordPublication_ok sha256 clk m i key trace a s d t d' :
  wf d -> recordPublication sha256 clk m i key trace a s d = Ok (t, d') ->
  let now := jsNow clk 0 in
  t = mkPublicationResponse (m_id m) (m_publicId m) (m_tournamentId m)
        (map oa_officialId (List.filter (activeAssignment (m_id m)) (db_matchOfficialAssignments d)))
        (se_winner s) (se_method s) now /\
  db_matchOutcomes d' = db_matchOutcomes d ++ [outcomeRow (m_id m) i a s now (db_nextId d)] /\
  db_matches d' = map_where (fun x => m_id x === m_id m) (finishedRow now) (db_matches d) /\
  (exists id, db_matchResultPublications d' = db_matchResultPublications d ++
     [mkPublicationRow id (m_id m) key (publicationFingerprint sha256 trace) t (rowNow clk)]) /\
  (forall x, In x (db_matchOfficialAssignments d') -> activeAssignment (m_id m) x = false).
Proof.
  intros Hwf H; unfold recordPublication in H.
  apply bind_ok in H as (oc & d1 & Hoc & H); apply (create_ok matchOutcomes) in Hoc as (-> & _ & ->).
  apply bind_ok in H as (mr & d2 & Hmr & H); apply (update_ok matches) in Hmr as (? & _ & _ & _ & ->).
  match type of H with _ ?x = _ => set (d2 := x) in H end.
  apply bind_ok in H as (pf & d3 & Hpf & H); apply touches_processFinishedMatch in Hpf as Tpf.
  apply bind_ok in H as (ids & d4 & Hrel & H).
  pose proof (touches_releaseForTransition _ _ _ _ _ _ _ _ _ Hrel) as Trel.
  apply (releaseForTransition_ok _ _ _ _ _ REASON_MATCH_FINISHED) in Hrel as [Hnone Eids].
  apply bind_ok in H as (au & d5 & Hau & H); apply (create_ok auditLogs) in Hau as (_ & _ & ->).
  apply bind_ok in H as (pub & d6 & Hpub & H); apply (create_ok matchResultPublications) in Hpub as (-> & _ & ->).
  apply ret_ok in H as [<- <-]; cbn.
  assert (E : forall tbl, tbl ∉ outcomeTables ++ [matchOfficialAssignments; auditLogs] -> get tbl d4 = get tbl d2).
  { intros tbl Ht; rewrite (Trel tbl), (Tpf tbl); [reflexivity | |]; intros Hin; apply Ht, elem_of_app; auto. }
  assert (Ea : db_matchOfficialAssignments d3 = db_matchOfficialAssignments d)
    by exact (Tpf matchOfficialAssignments ltac:(table_notin)).
  pose proof (E matchOutcomes ltac:(table_notin)) as Eo; pose proof (E matches ltac:(table_notin)) as Em.
  pose proof (E matchResultPublications ltac:(table_notin)) as Ep; cbn in Eo, Em, Ep.
  rewrite Eids, Ea, Eo, Em, Ep; subst d2; cbn; split_and!; try reflexivity.
  - eexists; reflexivity.
  - exact Hnone.
Qed.

(** ** Properties *)

Definition unpublished (m : uuid) (key : string) (d : DB) : Prop :=
  forall p, In p (db_matchResultPublications d) -> pb_matchId p = m -> pb_idempotencyKey p <> key.

(** A publication under a new key is made from the inputs. *)
Lemma publish_new sha256 clk m i key trace d r :
  unpublished m key d -> publish sha256 clk m i key trace d = Ok r ->
  exists mr a s, publicationInputs clk m i d = Ok (mr, a, s, d) /\
    recordPublication sha256 clk mr i key trace a s d = Ok r.
Proof.
  intros Hnew H; unfold publish in H; destruct r as [t d'].
  apply bind_ok in H as (ex & d0 & He & H); apply gets_ok in He as [-> ->].
  destruct (find_first _ (get matchResultPublications d)) as [p |] eqn:Hp in H.
  { apply find_first_some in Hp as [Hin Hp]; to_prop; destruct (Hnew p Hin); assumption. }
  apply bind_ok in H as ([[mr a] s] & d0 & Hi & H); exists mr, a, s.
  pose proof (publicationInputs_ok _ _ _ _ _ _ _ _ Hi) as [-> _]; auto.
Qed.

(** C15: publication names the rightful winner. A match is published once it awaits it, from
    the appeal completed last among the valid ones; the winner is the one chosen for that
    appeal by hand, which needs it to be a tied overtime appeal, and without a decision the
    athlete with the higher final score; the outcome is stored, the match is completed at
    that instant, and nobody stays assigned to it. *)
Theorem publication_winner sha256 clk m i key trace d t d'
  (Hwf : wf d) (Hnew : unpublished m key d)
  (H : publish sha256 clk m i key trace d = Ok (t, d')) :
  exists mr mr' a s outcome,
    find_first (fun x => m_id x === m) (db_matches d) = Some mr /\
    m_status mr = RESULT_PUBLICATION_READY /\ m_lifecycle mr = IN_PROGRESS /\
    governs m d a /\ rightful m d a s /\
    pr_winner t = se_winner s /\ pr_method t = se_method s /\ pr_finishedAt t = jsNow clk 0 /\
    db_matchOutcomes d' = db_matchOutcomes d ++ [outcome] /\ oc_matchId outcome = m /\
    oc_winnerColor outcome = se_winner s /\ oc_winnerAthleteId outcome = se_winnerAthleteId s /\
    oc_method outcome = se_method s /\ oc_sourceAppealId outcome = Some (ap_id a) /\
    find_first (fun x => m_id x === m) (db_matches d') = Some mr' /\
    m_status mr' = FINISHED /\ m_lifecycle mr' = LIFECYCLE_COMPLETED /\
    m_finishedAt mr' = Some (pr_finishedAt t) /\
    (forall x, In x (db_matchOfficialAssignments d') -> activeAssignment m x = false) /\
    pr_releasedOfficialIds t =
      map oa_officialId (List.filter (activeAssignment m) (db_matchOfficialAssignments d)).
Proof.
  apply publish_new in H as (mr & a & s & Hi & H); [| exact Hnew].
  apply publicationInputs_ok in Hi as (_ & Hm & _ & Hst & Hlc & Hgov & Hr).
  apply find_first_some in Hm as Hid; destruct Hid as [_ Hid]; to_prop.
  apply recordPublication_ok in H as (-> & Eo & Em & _ & Hnone); [| exact Hwf]; rewrite Hid in *.
  eexists mr, (finishedRow (jsNow clk 0) mr), a, s, _; split_and!; try eassumption; try reflexivity.
  rewrite Em, find_first_map_where, Hm by (intros; reflexivity); cbn.
  rewrite Hid, bool_decide_true by reflexivity; reflexivity.
Qed.

(** publication happens once. After it, the same key returns the stored response to
    anyone and writes nothing; the same key with another trace is a conflict, unless the
    digests agree; and no other key publishes the match again. *)
Theorem publication_once sha256 clk m i key trace d t d'
  (Hwf : wf d) (Hnew : unpublished m key d)
  (H : publish sha256 clk m i key trace d = Ok (t, d')) :
  (forall clk2 i2, publish sha256 clk2 m i2 key trace d' = Ok (t, d')) /\
  (forall clk2 i2 trace2, publicationFingerprint sha256 trace2 <> publicationFingerprint sha256 trace ->
     publish sha256 clk2 m i2 key trace2 d' = Err ResultPublicationConflict) /\
  (forall clk2 i2 key2 trace2 r, unpublished m key2 d' -> publish sha256 clk2 m i2 key2 trace2 d' <> Ok r).
Proof.
  apply publish_new in H as (mr & a & s & Hi & H); [| exact Hnew].
  apply publicationInputs_ok in Hi as (_ & Hm & _).
  apply find_first_some in Hm as Hid; destruct Hid as [_ Hid]; to_prop.
  apply recordPublication_ok in H as (_ & _ & Em & (id & Ep) & _); [| exact Hwf]; rewrite Hid in *.
  assert (Hp : forall q, (forall p, q p = (pb_matchId p === m) && (pb_idempotencyKey p === key)) ->
     find_first q (db_matchResultPublications d') =
     Some (mkPublicationRow id m key (publicationFingerprint sha256 trace) t (rowNow clk))).
  { intros q Hq; rewrite Ep, find_first_app.
    replace (find_first q _) with (@None PublicationRow).
    - cbn; rewrite Hq; cbn; rewrite !bool_decide_true by reflexivity; reflexivity.
    - symmetry; apply find_first_none; intros p Hin; rewrite Hq; apply andb_false_iff.
      destruct (bool_decide (pb_matchId p = m)) eqn:E; [right | left; reflexivity]; to_prop.
      apply bool_decide_eq_false; auto. }
  assert (Rep : forall clk2 i2 trace2, publish sha256 clk2 m i2 key trace2 d' =
     (_ ← throw_if (publicationFingerprint sha256 trace !== publicationFingerprint sha256 trace2)
             ResultPublicationConflict; mret t) d').
  { intros; unfold publish, find_one; erewrite bind_step by (unfold gets; rewrite (Hp : forall q, _ -> find_first q (get matchResultPublications d') = _) by reflexivity; reflexivity).
    reflexivity. }
  split_and!.
  - intros; rewrite Rep, bool_decide_true by reflexivity; reflexivity.
  - intros clk2 i2 trace2 Hne; rewrite Rep, bool_decide_false by congruence; reflexivity.
  - intros clk2 i2 key2 trace2 r Hn H2; apply publish_new in H2 as (mr2 & a2 & s2 & Hi & _); [| exact Hn].
    apply publicationInputs_ok in Hi as (_ & Hm2 & _ & Hst & _).
    rewrite Em, find_first_map_where, Hm in Hm2 by (intros; reflexivity); cbn in Hm2.
    rewrite Hid, bool_decide_true in Hm2 by reflexivity; injection Hm2 as <-; discriminate.
Qed.

Lemma keeps_sound_manualWinner clk m i w : respects keeps_sound (manualWinner clk m i w).
Proof. unfold manualWinner, auditCommand; respects_auto. Qed.

(** Appeals are completed in the order of their attempts. *)
Definition appeals_in_order (m : uuid) (d : DB) : Prop :=
  forall a b, In a (db_matchAppeals d) -> In b (db_matchAppeals d) ->
    completedAppeal m a = true -> completedAppeal m b = true ->
    ap_attemptNumber a < ap_attemptNumber b -> ap_completedAt a < ap_completedAt b.

(** No valid appeal outlives its round. *)
Definition appeals_on_valid_rounds (m : uuid) (d : DB) : Prop :=
  forall a, In a (db_matchAppeals d) -> completedAppeal m a = true ->
    sourceRoundIs (fun t => t === None) d a = true.

(** One valid appeal per scope and attempt. *)
Lemma completed_unique m d a b :
  wf d -> In a (db_matchAppeals d) -> In b (db_matchAppeals d) -> completedAppeal m a = true ->
  completedAppeal m b = true -> ap_scope a = ap_scope b -> ap_attemptNumber a = ap_attemptNumber b -> a = b.
Proof.
  intros Hwf Ia Ib Ca Cb Hs Hn; specialize (Hwf matchAppeals); apply table_ok_true in Hwf as (_ & _ & Hix).
  apply andb_prop in Hix as [_ Hix]; unfold completedAppeal in *; to_prop.
  eapply (unique_by_inj appeal_key); eauto; unfold appeal_key.
  - rewrite !bool_decide_true by assumption; cbn; reflexivity.
  - rewrite !bool_decide_true by assumption; cbn; congruence.
Qed.

(** The appeal a tied overtime is decided on is the one publication goes by. *)
Lemma governing_overtime m d a b :
  wf d -> appeals_in_order m d -> appeals_on_valid_rounds m d ->
  In a (db_matchAppeals d) -> completedAppeal m a = true -> ap_scope a = SCOPE_OVERTIME ->
  (forall b, In b (db_matchAppeals d) -> completedAppeal m b = true -> ap_scope b = SCOPE_OVERTIME ->
     ap_attemptNumber b <= ap_attemptNumber a) ->
  governs m d b -> b = a.
Proof.
  intros Hwf Hord Hval Ia Ca Sa Max (Ib & Cb & _ & Hmax).
  specialize (Hmax a Ia Ca (Hval a Ia Ca)).
  assert (Hnot : ~ ap_attemptNumber b < ap_attemptNumber a) by (intros Hlt; specialize (Hord b a Ib Ia Cb Ca Hlt); lia).
  assert (Sb : ap_scope b = SCOPE_OVERTIME).
  { destruct (ap_scope b) eqn:Sb; [exfalso | reflexivity].
    pose proof (wf_row matchAppeals d a Hwf Ia) as Oa; pose proof (wf_row matchAppeals d b Hwf Ib) as Ob.
    cbn in Oa, Ob; unfold appeal_ok in Oa, Ob; rewrite Sa in Oa; rewrite Sb in Ob.
    decide_consts Oa; decide_consts Ob; rewrite ?orb_false_r in Ob; to_prop; lia. }
  eapply completed_unique; eauto; [congruence | specialize (Max b Ib Cb Sb); lia].
Qed.

(** the winner chosen by hand is the one published. After a manual choice, whoever
    publishes the match under whichever key, the published winner is the chosen colour by
    the manual method: no earlier appeal and no other decision takes its place. *)
Theorem manual_winner_published sha256 clk1 clk2 m i1 i2 w key trace d t1 d1 t2 d2
  (Hs : sound d) (Hord : appeals_in_order m d) (Hval : appeals_on_valid_rounds m d)
  (Hnew : unpublished m key d)
  (H1 : manualWinner clk1 m i1 w d = Ok (t1, d1)) (H2 : publish sha256 clk2 m i2 key trace d1 = Ok (t2, d2)) :
  pr_winner t2 = w /\ pr_method t2 = MANUAL_AFTER_OVERTIME_TIE.
Proof.
  pose proof (keeps_sound_manualWinner _ _ _ _ _ _ _ H1 Hs) as [Hwf1 _].
  apply manualWinner_ok in H1 as (mr & a & at_ & Hm & _ & Ia & Ca & Sa & Max & _ & _ & _ & Ed & Hm' & Ht).
  assert (Ep : db_matchResultPublications d1 = db_matchResultPublications d)
    by exact (Ht matchResultPublications ltac:(table_notin)).
  assert (Ea : db_matchAppeals d1 = db_matchAppeals d) by exact (Ht matchAppeals ltac:(table_notin)).
  assert (Er : db_rounds d1 = db_rounds d) by exact (Ht rounds ltac:(table_notin)).
  apply publish_new in H2 as (mr2 & b & s & Hi & H2); [| unfold unpublished; rewrite Ep; exact Hnew].
  apply publicationInputs_ok in Hi as (_ & _ & _ & _ & _ & Hgov & (x & y & _ & Hr)).
  apply recordPublication_ok in H2 as (-> & _); [| exact Hwf1]; cbn.
  assert (b = a) as ->.
  { eapply (governing_overtime m d1); eauto; rewrite ?Ea; auto.
    - unfold appeals_in_order; rewrite Ea; exact Hord.
    - unfold appeals_on_valid_rounds, sourceRoundIs; rewrite Ea, Er; exact Hval. }
  destruct Hr as [(q & Iq & (Q1 & Q2 & Q3) & _ & _ & ->) | [Hno _]].
  - set (q0 := mkDecisionRow _ _ _ _ _ _ _ _ _ _ _) in Ed.
    enough (q = q0) as -> by (split; reflexivity).
    specialize (Hwf1 matchResultDecisions); apply table_ok_true in Hwf1 as (_ & _ & Hix).
    eapply (unique_by_inj (fun q => Some (dc_matchId q, dc_sourceAppealId q))); [exact Hix | exact Iq | | | reflexivity].
    + change (In q0 (db_matchResultDecisions d1)); rewrite Ed; apply in_app_iff; right; left; reflexivity.
    + cbn; congruence.
  - exfalso; eapply Hno; [rewrite Ed; apply in_app_iff; right; left; reflexivity |].
    split_and!; reflexivity.
Qed.

(** a match is published at most once, resets included. A published match that is reset
    and fought again cannot be published under a new key, whatever has been recorded since,
    because its first outcome is still stored and the unique index refuses a second one;
    only cancelling the bracket removes it. *)
Theorem reset_match_unpublishable sha256 clk1 clk2 clk3 m i1 i2 i3 key1 key3 trace1 trace3 d t1 d1 t2 d2 d3 r
  (Hwf : wf d) (Hnew1 : unpublished m key1 d)
  (H1 : publish sha256 clk1 m i1 key1 trace1 d = Ok (t1, d1))
  (H2 : cancelResults clk2 m i2 true d1 = Ok (t2, d2))
  (Hkept : forall o, In o (db_matchOutcomes d2) -> In o (db_matchOutcomes d3))
  (Hnew3 : unpublished m key3 d3) :
  publish sha256 clk3 m i3 key3 trace3 d3 <> Ok r.
Proof.
  apply publish_new in H1 as (mr1 & a1 & s1 & Hi1 & H1); [| exact Hnew1].
  apply publicationInputs_ok in Hi1 as (_ & Hm1 & _); apply find_first_some in Hm1 as [_ Hid1]; to_prop.
  apply recordPublication_ok in H1 as (_ & Eo & _); [| exact Hwf].
  set (o := outcomeRow _ _ _ _ _ _) in Eo.
  assert (Io : In o (db_matchOutcomes d3)).
  { apply Hkept; rewrite (touches_cancelResults _ _ _ _ _ _ _ H2 matchOutcomes ltac:(table_notin)
                       : db_matchOutcomes d2 = db_matchOutcomes d1), Eo.
    apply in_app_iff; right; left; reflexivity. }
  intros H; destruct r as [t d4].
  apply publish_new in H as (mr & a & s & Hi & H); [| exact Hnew3].
  apply publicationInputs_ok in Hi as (_ & Hm & _); apply find_first_some in Hm as [_ Hid]; to_prop.
  apply bind_ok in H as (oc & d5 & Hoc & _); apply (create_ok matchOutcomes) in Hoc as (-> & Hok & _).
  apply table_ok_true in Hok as (_ & _ & Hix); apply andb_prop in Hix as [Hix _].
  eapply (unique_by_app (fun o => Some (oc_matchId o))); [exact Hix | reflexivity | exact Io |].
  cbn; congruence.
Qed.

(** The decision a finished match with a published winner makes on its fixture. *)
Lemma processFinishedMatch_decides clk m c d o d' mr fid f :
  processFinishedMatch clk m (Some c) d = Ok (o, d') ->
  find_first (fun x => m_id x === m) (db_matches d) = Some mr -> m_status mr = FINISHED ->
  m_bracketFixtureId mr = Some fid ->
  find_first (fun x => fx_id x === fid) (db_bracketFixtures d) = Some f -> hasOutcome f = false ->
  exists at_ e s snapshot r, In at_ (db_matchAthletes d) /\ ma_matchId at_ = m /\ ma_color at_ = c /\
    In e (db_bracketEntrants d) /\ ma_athleteId at_ = Some (en_athleteId e) /\
    In s (db_bracketSlots d) /\ sl_fixtureId s = fid /\ sl_resolvedEntrantId s = Some (en_id e) /\
    decide clk fid (en_id e) (mkDecision None RULES None (Some snapshot)) d = Ok (r, d').
Proof.
  intros H Hm Hst Hfx Hf Hout; unfold processFinishedMatch in H.
  apply bind_ok in H as (mr0 & d1 & H0 & H); apply (find_one_or_throw_ok matches) in H0 as [H0 ->].
  pose proof (same_answer _ _ _ H0 Hm) as ->; clear H0.
  apply bind_ok in H as (tn & d1 & H0 & H); apply (find_one_or_throw_ok tournaments) in H0 as [_ ->].
  rewrite Hst, bool_decide_true in H by reflexivity; cbn [negb] in H.
  apply bind_ok in H as (tot & d1 & H0 & H); apply gets_ok in H0 as [-> ->].
  apply bind_ok in H as (ev & d1 & H0 & H); apply gets_ok in H0 as [-> ->]; cbv zeta in H.
  apply bind_ok in H as (wc & d1 & H0 & H); apply ret_ok in H0 as [<- <-].
  rewrite Hfx in H; apply bind_ok in H as (lk & d1 & H0 & H); reads.
  apply bind_ok in H as (f0 & d1 & H1 & H); apply (find_one_or_throw_ok bracketFixtures) in H1 as [H1 ->].
  pose proof (same_answer _ _ _ H1 Hf) as ->; clear H1.
  pose proof Hf as Hfid; apply find_first_some in Hfid as [_ Hfid].
  pose proof Hm as Hid; apply find_first_some in Hid as [_ Hid]; to_prop.
  unfold decideFinished in H; apply bind_ok in H as (sl & d1 & H2 & H); apply gets_ok in H2 as [-> ->].
  rewrite Hout in H.
  apply bind_ok in H as (ath & d1 & H2 & H); apply gets_ok in H2 as [-> ->].
  apply bind_ok in H as (en & d1 & H2 & H); apply gets_ok in H2 as [-> ->].
  match type of H with context [find_first ?p (List.filter ?q (get matchAthletes d))] =>
    destruct (find_first p (List.filter q (get matchAthletes d))) as [at_ |] eqn:Eat in H end.
  2:{ cbn in H; match type of H with context [find_first ?p ?l] => destruct (find_first p l) as [q |] eqn:E end.
      - apply find_first_some in E as [_ E]; rewrite andb_false_r in E; discriminate.
      - discriminate. }
  apply find_first_some in Eat as [Iat Cat]; apply filter_In in Iat as [Iat Mat]; to_prop.
  cbn [mbind option_bind] in H.
  match type of H with (match ?x with _ => _ end) _ = _ =>
    destruct x as [eid |] eqn:Ew in H; [| discriminate H] end.
  apply bind_Some in Ew as (s & Es & Hs).
  apply find_first_some in Es as [Is Hq]; apply filter_In in Is as [Is Fs]; apply andb_prop in Hq as [_ Hex].
  apply existsb_exists in Hex as (e & Ie & He); apply filter_In in Ie as [Ie _]; unfold slotsOf in Fs; to_prop.
  apply bind_ok in H as (r & d1 & Hdec & H); apply ret_ok in H as [_ <-].
  assert (eid = en_id e) as -> by congruence.
  rewrite Hfid in *; exists at_, e, s; do 2 eexists; split_and!; try eassumption; congruence.
Qed.

(** a published winner moves on. Publishing a bracket match whose fixture is undecided
    advances, in the same transaction, the entrant of the published winner: the entrant
    holds one of the fixture's slots and is the athlete who played under the winning
    colour; the fixture is completed for it, and every slot the fixture feeds holds it. *)
Theorem published_winner_advances sha256 clk m i key trace d t d' mr fid f
  (Hs : sound d) (Hnew : unpublished m key d)
  (Hm : find_first (fun x => m_id x === m) (db_matches d) = Some mr)
  (Hfx : m_bracketFixtureId mr = Some fid)
  (Hf : find_first (fun x => fx_id x === fid) (db_bracketFixtures d) = Some f) (Hout : hasOutcome f = false)
  (H : publish sha256 clk m i key trace d = Ok (t, d')) :
  exists at_ e s f', In at_ (db_matchAthletes d) /\ ma_matchId at_ = m /\ ma_color at_ = pr_winner t /\
    In e (db_bracketEntrants d) /\ ma_athleteId at_ = Some (en_athleteId e) /\
    In s (db_bracketSlots d) /\ sl_fixtureId s = fid /\ sl_resolvedEntrantId s = Some (en_id e) /\
    In f' (db_bracketFixtures d') /\ fx_id f' = fid /\ fx_status f' = FIXTURE_COMPLETED /\
    fx_winnerEntrantId f' = Some (en_id e) /\
    db_bracketSlots d' = map_where (fedBy fid) (fillSlot (Some (en_id e))) (db_bracketSlots d).
Proof.
  apply publish_new in H as (mr0 & a & se & Hi & H); [| exact Hnew].
  apply publicationInputs_ok in Hi as (_ & Hm0 & _); pose proof (same_answer _ _ _ Hm0 Hm) as ->; clear Hm0.
  pose proof Hm as Hid; apply find_first_some in Hid as [_ Hid]; to_prop; unfold recordPublication in H; rewrite Hid in H.
  apply bind_ok in H as (oc & d1 & Hoc & H).
  assert (Hs1 : sound d1) by (eapply (keeps_sound_create matchOutcomes); [| exact Hoc | exact Hs]; ids_plain).
  apply (create_ok matchOutcomes) in Hoc as (_ & _ & ->).
  apply bind_ok in H as (mr2 & d2 & Hup & H).
  assert (Hs2 : sound d2) by (eapply (keeps_sound_update matches); [| exact Hup | exact Hs1]; ids_plain).
  apply (update_ok matches) in Hup as (? & _ & _ & _ & ->).
  apply bind_ok in H as (pf & d3 & Hpf & H).
  apply (processFinishedMatch_decides _ _ _ _ _ _ (finishedRow (jsNow clk 0) mr) fid f) in Hpf
    as (at_ & e & s & snap & r & Iat & Mat & Cat & Ie & Ae & Is & Fs & Rs & Hdec);
    [| | reflexivity | exact Hfx | exact Hf | exact Hout].
  2:{ cbn; rewrite find_first_map_where, Hm by (intros; reflexivity); cbn.
      rewrite Hid, bool_decide_true by reflexivity; reflexivity. }
  apply decide_ok in Hdec as (f0 & b & Hf0 & _ & _ & Hdec); [| apply Hs2].
  pose proof (same_answer _ _ _ Hf0 Hf) as ->; clear Hf0.
  unfold hasOutcome in Hout.
  destruct (fx_winnerEntrantId f) eqn:Ew; [discriminate |]; destruct Hdec as (Hsl & Hfxs & _).
  apply bind_ok in H as (ids & d4 & Hrel & H); pose proof (touches_releaseForTransition _ _ _ _ _ _ _ _ _ Hrel) as Trel.
  apply bind_ok in H as (au & d5 & Hau & H); apply (create_ok auditLogs) in Hau as (_ & _ & ->).
  apply bind_ok in H as (pub & d6 & Hpub & H); apply (create_ok matchResultPublications) in Hpub as (_ & _ & ->).
  apply ret_ok in H as [<- <-]; cbn.
  pose proof (Trel bracketSlots ltac:(table_notin)) as Esl; pose proof (Trel bracketFixtures ltac:(table_notin)) as Efx.
  cbn in Esl, Efx; rewrite Esl, Efx.
  pose proof Hf as Hfid; apply find_first_some in Hfid as [Inf Hfid]; to_prop.
  set (dn := mkDecision _ _ _ _) in Hfxs.
  assert (Hin : In (f <| fx_winnerEntrantId := Some (en_id e) |> <| fx_status := FIXTURE_COMPLETED |>
                      <| fx_winnerDecision := Some (JObj (decisionFields dn)) |>)
                   (decidedFixture fid (en_id e) dn (db_bracketFixtures d))).
  { apply in_map_where; exists f; rewrite Hfid, bool_decide_true by reflexivity; auto. }
  destruct (readied_in' _ _ _ Hfxs Hin) as (f' & Inf' & [-> | [Hp _]]); [| discriminate Hp].
  exists at_, e, s; eexists; split_and!; try eassumption; reflexivity.
Qed.

(** ** Witnesses *)

(** The digest of a one-field request: its trace. *)
Definition traceDigest (j : json) : string :=
  match j with JObj [(_, JStr s)] => s | _ => EmptyString end.

Definition publishedDB : DB := Eval vm_compute in
  after (publish traceDigest (at_time 460000) 10 supervisor "p" None) manualWinnerDB.
Definition published : PublicationResponse :=
  mkPublicationResponse 10 "M" 1 [] BLUE MANUAL_AFTER_OVERTIME_TIE 460000.

Lemma manualWinnerDB_sound : sound manualWinnerDB. Proof. solve_sound. Defined.
Ltac none_published := intros ? Hin_; vm_compute in Hin_; intuition (subst; discriminate).

Lemma publication_winner_witness :
  publish traceDigest (at_time 460000) 10 supervisor "p" None manualWinnerDB = Ok (published, publishedDB) /\
  exists a s, governs 10 manualWinnerDB a /\ rightful 10 manualWinnerDB a s /\ pr_winner published = se_winner s.
Proof.
  split; [vm_compute; reflexivity |].
  destruct (publication_winner traceDigest (at_time 460000) 10 supervisor "p" None manualWinnerDB published publishedDB)
    as (mr & mr' & a & s & o & Hall);
    [apply manualWinnerDB_sound | none_published | vm_compute; reflexivity |].
  exists a, s; destruct_and! Hall; auto.
Defined.

Lemma publication_once_witness :
  publish traceDigest (at_time 470000) 10 supervisor "p" None publishedDB = Ok (published, publishedDB) /\
  publish traceDigest (at_time 470000) 10 supervisor "p" (Some "x") publishedDB = Err ResultPublicationConflict.
Proof.
  destruct (publication_once traceDigest (at_time 460000) 10 supervisor "p" None manualWinnerDB published publishedDB)
    as (A & B & _); [apply manualWinnerDB_sound | none_published | vm_compute; reflexivity |].
  split; [apply A | apply B; vm_compute; discriminate].
Defined.

Lemma manual_winner_published_witness :
  manualWinner (at_time 450000) 10 supervisor BLUE tiedOvertimeDB =
    Ok (mkManualWinner 10 "M" 1 RESULT_PUBLICATION_READY BLUE, manualWinnerDB) /\
  pr_winner published = BLUE /\ pr_method published = MANUAL_AFTER_OVERTIME_TIE.
Proof.
  split; [vm_compute; reflexivity |].
  apply (manual_winner_published traceDigest (at_time 450000) (at_time 460000) 10 supervisor supervisor BLUE "p" None
           tiedOvertimeDB (mkManualWinner 10 "M" 1 RESULT_PUBLICATION_READY BLUE) manualWinnerDB published publishedDB).
  - apply tiedOvertimeDB_sound.
  - intros a b Ia Ib; vm_compute in Ia, Ib; destruct Ia as [<- | [<- | []]], Ib as [<- | [<- | []]]; vm_compute; congruence.
  - intros a Ia _; vm_compute in Ia; destruct Ia as [<- | [<- | []]]; vm_compute; reflexivity.
  - none_published.
  - vm_compute; reflexivity.
  - vm_compute; reflexivity.
Defined.

Definition resetDB : DB := Eval vm_compute in after (cancelResults (at_time 480000) 10 supervisor true) publishedDB.
Definition resetTransition : CancellationTransition := Eval vm_compute in
  match cancelResults (at_time 480000) 10 supervisor true publishedDB with
  | Ok (t, _) => t | Err _ => cancelledRound1 end.

(** The match is reset after its publication; later it awaits publication again. *)
Definition refoughtDB : DB := Eval vm_compute in
  resetDB <| db_matches := db_matches manualWinnerDB |> <| db_matchAppeals := db_matchAppeals manualWinnerDB |>
    <| db_rounds := db_rounds manualWinnerDB |> <| db_matchResultDecisions := db_matchResultDecisions manualWinnerDB |>.

Lemma reset_match_unpublishable_witness :
  cancelResults (at_time 480000) 10 supervisor true publishedDB = Ok (resetTransition, resetDB) /\
  publish traceDigest (at_time 900000) 10 supervisor "q" None refoughtDB = Err UniqueViolation /\
  forall r, publish traceDigest (at_time 900000) 10 supervisor "q" None refoughtDB <> Ok r.
Proof.
  split; [vm_compute; reflexivity |]; split; [vm_compute; reflexivity | intros r].
  apply (reset_match_unpublishable traceDigest (at_time 460000) (at_time 480000) (at_time 900000) 10 supervisor supervisor
           supervisor "p" "q" None None manualWinnerDB published publishedDB resetTransition resetDB).
  - apply manualWinnerDB_sound.
  - none_published.
  - vm_compute; reflexivity.
  - vm_compute; reflexivity.
  - intros o Ho; exact Ho.
  - none_published.
Defined.

(** The match of fixture 80, decided by regulation for red. *)
Definition decidedDB : DB := Eval vm_compute in
  after (completeRegulation (at_time 300000) 10 supervisor (points 0 0 "reg"))
    (bracketDB <| db_matches := [(sampleMatch 10 REGULATION_APPEAL IN_PROGRESS (Some 2) (Some 0))
                                   <| m_bracketFixtureId := Some 80%N |>] |>
       <| db_rounds := db_rounds regulationAppealDB |>
       <| db_roundAthleteResults := db_roundAthleteResults regulationAppealDB |>).
Definition advancedByPublication : DB := Eval vm_compute in
  after (publish traceDigest (at_time 310000) 10 supervisor "p" None) decidedDB.

Lemma published_winner_advances_witness :
  exists e f', In f' (db_bracketFixtures advancedByPublication) /\ fx_id f' = 80%N /\
    fx_winnerEntrantId f' = Some (en_id e) /\ In e (db_bracketEntrants decidedDB).
Proof.
  destruct (published_winner_advances traceDigest (at_time 310000) 10 supervisor "p" None decidedDB
              (mkPublicationResponse 10 "M" 1 [] RED REGULATION_SCORE 310000) advancedByPublication
              ((sampleMatch 10 RESULT_PUBLICATION_READY IN_PROGRESS (Some 2) (Some 0)) <| m_bracketFixtureId := Some 80%N |>)
              80 (mkFixtureRow 80 70 1 1 MATCH_PREPARED None None "R1-M01"))
    as (at_ & e & s & f' & Hall); first [solve_sound | none_published | vm_compute; reflexivity | idtac].
  exists e, f'; destruct_and! Hall; auto.
Defined.
