(* ===== verification/Sanctions.v ===== *)
(** * Sanctions

    [realtime/fault.service.ts] and [realtime/penalty.service.ts]: the faults of the
    current rules, which are counted and do not change the score, and the penalties of the
    legacy rules, which are score events. *)
From S2P Require Import Prelude Schema Database Rules Authorization Scenario Scoring.

(** ** Faults *)

(** The return of [record]. *)
Record FaultTransition : Type := mkFaultTransition {
  ft_auditId : uuid; ft_faultId : uuid; ft_athlete : AthleteColor; ft_athleteId : uuid;
  ft_severity : FaultSeverity; ft_createdAt : timestamp; ft_roundId : uuid; ft_matchId : uuid;
  ft_matchPublicId : string; ft_projection : list AthleteProjection }.

Definition isRunningStatus (s : MatchStatus) : bool :=
  (s === ROUND_1_RUNNING) || (s === ROUND_2_RUNNING) || (s === OVERTIME_RUNNING).

(** The guards of [record] down to the round the fault falls in. *)
Definition faultRound (clk : Clock) (matchId : uuid) (identity : SupervisorCommandIdentity)
    : DbM (MatchRow * RoundRow) :=
  _ ← lockMatch matchId InvalidFaultState;
  _ ← lockAndVerify clk matchId identity InactiveFaultSupervisor;
  m ← find_one_or_throw matches (fun m => m_id m === matchId);
  live ← find_many rounds (fun r => (r_matchId r === matchId) && (r_endedAt r === None) &&
                                    (r_invalidatedAt r === None));
  _ ← throw_if (negb (isRunningStatus (m_status m)))
        (if isPausedStatus (m_status m) then FaultRoundPaused else FaultMatchNotRunning);
  round ← or_throw (find_first (fun r => (Some (r_roundNumber r) === m_currentRound m) &&
                      ((r_stage r === REGULATION) || (r_stage r === OVERTIME))) live) InvalidFaultState;
  _ ← throw_if (negb (r_pausedAt round === None)) FaultRoundPaused;
  _ ← throw_if (r_endsAt round <=? serverNow clk) FaultRoundEnded;
  mret (m, round).

(** The projection [record] returns, read after its writes. *)
Definition faultProjection (matchId : uuid) : DbM (list AthleteProjection) :=
  athletes ← find_many matchAthletes (fun a => ma_matchId a === matchId);
  events ← find_many scoreEvents (fun e => e_matchId e === matchId);
  faults_ ← find_many faults (fun f => f_matchId f === matchId);
  rds ← find_many rounds (fun r => (r_matchId r === matchId) && (r_invalidatedAt r === None));
  mret (calculateMatchScoreProjection athletes faults_ events (map r_id rds)).

(** [FaultService.record] *)
Definition record (clk : Clock) (matchId : uuid) (identity : SupervisorCommandIdentity)
    (athlete_ : AthleteColor) (severity : FaultSeverity) (traceId : option string)
    : DbM FaultTransition :=
  '(m, round) ← faultRound clk matchId identity;
  found ← find_one matchAthletes (fun a => (ma_matchId a === matchId) && (ma_color a === athlete_));
  athlete ← or_throw found InvalidFaultState;
  fault ← create faults (fun id => mkFaultRow id matchId (ma_id athlete) (r_id round) severity
            (officialAssignment identity) (legacySession identity) (serverNow clk) None None);
  audit ← auditCommand matchId identity MATCH_ACTION
            [("action", JStr "FAULT_RECORDED"); ("athlete", JColor athlete_);
             ("severity", JSeverity severity); ("faultId", JId (f_id fault));
             ("roundId", JId (r_id round)); ("traceId", jopt JStr traceId)]%string;
  projection ← faultProjection matchId;
  mret (mkFaultTransition (al_id audit) (f_id fault) athlete_ (ma_id athlete) (f_severity fault)
          (f_createdAt fault) (r_id round) matchId (m_publicId m) projection).

(** ** Penalties *)

(** [PenaltyTransition] *)
Record PenaltyTransition : Type := mkPenaltyTransition {
  pt_matchId : uuid; pt_matchPublicId : string; pt_athlete : AthleteColor; pt_athleteId : uuid;
  pt_createdAt : timestamp; pt_id : uuid; pt_roundNumber : Z; pt_value : Z;
  pt_violationCount : Z; pt_scoreUpdated : ScoreUpdated }.

(** [activeRound] *)
Definition penaltyActiveRound (m : MatchRow) (unended : list RoundRow) : option RoundRow :=
  if (m_status m !== ROUND_1_RUNNING) && (m_status m !== ROUND_2_RUNNING) then None else
  let expectedRound := if m_status m === ROUND_1_RUNNING then 1 else 2 in
  if m_currentRound m !== Some expectedRound then None
  else find_first (fun r => r_roundNumber r =? expectedRound) unended.

(** [roundNumber] *)
Definition penaltyRoundNumber (n : Z) : DbM Z :=
  if (n =? 1) || (n =? 2) then mret n else throw (InternalError "Unsupported penalty round number").

(** The guards of [addPenalty] down to the round the penalty falls in. *)
Definition penaltyRound (clk : Clock) (matchId : uuid) (identity : SupervisorCommandIdentity)
    : DbM (SportRulesDefinition * MatchRow * RoundRow) :=
  _ ← lockMatch matchId (InternalError "Match not found while acquiring penalty lock");
  rules ← rulesForMatch matchId;
  _ ← lockPenaltySupervisor clk matchId identity;
  m ← find_one_or_throw matches (fun m => m_id m === matchId);
  unended ← find_many rounds (fun r => (r_matchId r === matchId) && (r_endedAt r === None));
  _ ← throw_if (m_rulesVersion m !== LEGACY_SCORE_PENALTY_V1) PenaltyLegacyOnly;
  round ← or_throw (penaltyActiveRound m unended) MatchNotRunningForPenalty;
  _ ← throw_if (r_endsAt round <=? serverNow clk) RoundEndedForPenalty;
  mret (rules, m, round).

(** [PenaltyService.addPenalty], called with an identity as the gateway does. *)
Definition addPenalty (clk : Clock) (matchId : uuid) (identity : SupervisorCommandIdentity)
    (athlete_ : AthleteColor) : DbM PenaltyTransition :=
  '(rules, m, round) ← penaltyRound clk matchId identity;
  athlete ← find_one_or_throw matchAthletes (fun a => (ma_color a === athlete_) && (ma_matchId a === matchId));
  penalty ← create penalties (fun id => mkPenaltyRow id matchId (ma_id athlete) (Some (r_roundNumber round))
              (supervisorPenaltyValue rules) (legacySession identity) (serverNow clk) None None);
  _ ← create scoreEvents (fun id => mkScoreEventRow id matchId (ma_id athlete) (Some (r_roundNumber round))
        (Some (r_id round)) (Some (serverNow clk))
        (activeRoundElapsedMs (r_durationMs round) (r_endsAt round) (serverNow clk))
        PENALTY (p_value penalty) None (Some (p_id penalty)) (serverNow clk) None None);
  violationCount ← count penalties (fun p => (p_athleteId p === ma_id athlete) &&
                     (p_matchId p === matchId) && (p_revertedAt p === None));
  _ ← auditCommand matchId identity PENALTY_ACTION
        ([("action", JStr "PENALTY_ADDED"); ("athlete", JColor athlete_); ("athleteId", JId (ma_id athlete));
          ("penaltyId", JId (p_id penalty)); ("roundNumber", JNum (r_roundNumber round));
          ("value", JNum (p_value penalty)); ("violationCount", JNum violationCount)]%string
         ++ assignmentField identity);
  number ← penaltyRoundNumber (r_roundNumber round);
  scoreUpdated ← scoreUpdatedPayload matchId (m_publicId m) None (Some (p_id penalty)) (serverNow clk);
  mret (mkPenaltyTransition matchId (m_publicId m) athlete_ (ma_id athlete) (p_createdAt penalty)
          (p_id penalty) number (p_value penalty) violationCount scoreUpdated).

(** ** Facts *)

Lemma respects_faultRound R `{!PreOrder R} clk m i : respects R (faultRound clk m i).
Proof. unfold faultRound, lockMatch; respects_auto. Qed.
Lemma respects_faultProjection R `{!PreOrder R} m : respects R (faultProjection m).
Proof. unfold faultProjection; respects_auto. Qed.
#[export] Hint Resolve respects_faultRound respects_faultProjection : tx.
Lemma respects_penaltyRound R `{!PreOrder R} clk m i : respects R (penaltyRound clk m i).
Proof. unfold penaltyRound, lockMatch; respects_auto. Qed.
#[export] Hint Resolve respects_penaltyRound : tx.

Lemma keeps_sound_record clk m i c s tr : respects keeps_sound (record clk m i c s tr).
Proof. unfold record, auditCommand; respects_auto. Qed.
Lemma touches_record clk m i c s tr : respects (touches [faults; auditLogs]) (record clk m i c s tr).
Proof. unfold record, auditCommand; respects_auto. Qed.
Lemma keeps_sound_addPenalty clk m i c : respects keeps_sound (addPenalty clk m i c).
Proof. unfold addPenalty, auditCommand, penaltyRoundNumber, scoreUpdatedPayload, athletesByColor; respects_auto. Qed.
Lemma touches_addPenalty clk m i c :
  respects (touches [penalties; scoreEvents; auditLogs]) (addPenalty clk m i c).
Proof. unfold addPenalty, auditCommand, penaltyRoundNumber, scoreUpdatedPayload, athletesByColor; respects_auto. Qed.

(** The round a sanction falls in. *)
Definition liveRound (clk : Clock) (mr : MatchRow) (r : RoundRow) (d : DB) : Prop :=
  In r (db_rounds d) /\ r_matchId r = m_id mr /\ r_endedAt r = None /\
  m_currentRound mr = Some (r_roundNumber r) /\ serverNow clk < r_endsAt r.

Lemma faultRound_ok clk m i d mr r d' :
  faultRound clk m i d = Ok (mr, r, d') ->
  d' = d /\ find_first (fun x => m_id x === m) (db_matches d) = Some mr /\
  isRunningStatus (m_status mr) = true /\ liveRound clk mr r d /\
  r_invalidatedAt r = None /\ r_pausedAt r = None.
Proof.
  intros H; pose proof (respects_faultRound eq _ _ _ _ _ _ H) as <-; split; [reflexivity |].
  unfold faultRound in H.
  apply bind_ok in H as (u1 & d1 & H1 & H); apply (respects_lockMatch eq) in H1 as <-.
  apply bind_ok in H as (u2 & d1 & H2 & H); apply (respects_lockAndVerify eq) in H2 as <-.
  apply bind_ok in H as (mr0 & d1 & Hm & H); apply (find_one_or_throw_ok matches) in Hm as [Hm ->].
  apply bind_ok in H as (l & d1 & Hl & H); apply gets_ok in Hl as [-> ->].
  apply bind_ok in H as (u3 & d1 & Hg & H); apply throw_if_ok in Hg as [Hg ->].
  apply bind_ok in H as (r0 & d1 & Hr & H); apply or_throw_ok in Hr as [Hr ->].
  apply bind_ok in H as (u4 & d1 & Hp & H); apply throw_if_ok in Hp as [Hp ->].
  apply bind_ok in H as (u5 & d1 & He & H); apply throw_if_ok in He as [He ->].
  apply ret_ok in H as [E _]; injection E as <- <-.
  apply find_first_some in Hr as [Hin Hr]; apply filter_In in Hin as [Hin Hq].
  pose proof Hm as Hid; apply find_first_some in Hid as [_ Hid]; apply andb_prop in Hr as [Hc _]; to_prop.
  unfold liveRound; split_and!; auto; congruence.
Qed.

Lemma penaltyRound_ok clk m i d rules mr r d' :
  penaltyRound clk m i d = Ok (rules, mr, r, d') ->
  d' = d /\ rules = oneOnOneCombatRules /\
  find_first (fun x => m_id x === m) (db_matches d) = Some mr /\
  m_rulesVersion mr = LEGACY_SCORE_PENALTY_V1 /\ liveRound clk mr r d /\
  ((m_status mr = ROUND_1_RUNNING /\ r_roundNumber r = 1) \/ (m_status mr = ROUND_2_RUNNING /\ r_roundNumber r = 2)).
Proof.
  intros H; pose proof (respects_penaltyRound eq _ _ _ _ _ _ H) as <-; split; [reflexivity |].
  unfold penaltyRound in H.
  apply bind_ok in H as (u1 & d1 & H1 & H); apply (respects_lockMatch eq) in H1 as <-.
  apply bind_ok in H as (ru & d1 & H2 & H); apply rulesForMatch_ok in H2 as [-> ->].
  apply bind_ok in H as (u2 & d1 & H2 & H); apply (respects_lockPenaltySupervisor eq) in H2 as <-.
  apply bind_ok in H as (mr0 & d1 & Hm & H); apply (find_one_or_throw_ok matches) in Hm as [Hm ->].
  apply bind_ok in H as (l & d1 & Hl & H); apply gets_ok in Hl as [-> ->].
  apply bind_ok in H as (u3 & d1 & Hg & H); apply throw_if_ok in Hg as [Hg ->].
  apply bind_ok in H as (r0 & d1 & Hr & H); apply or_throw_ok in Hr as [Hr ->].
  apply bind_ok in H as (u5 & d1 & He & H); apply throw_if_ok in He as [He ->].
  apply ret_ok in H as [E _]; injection E as <- <- <-.
  unfold penaltyActiveRound in Hr; destruct (_ && _) eqn:Es in Hr; [discriminate |].
  destruct (negb _) eqn:Ec in Hr; [discriminate |].
  apply find_first_some in Hr as [Hin Hr]; apply filter_In in Hin as [Hin Hq].
  pose proof Hm as Hid; apply find_first_some in Hid as [_ Hid]; apply Z.eqb_eq in Hr; to_prop.
  unfold liveRound; split_and!; auto; [congruence | congruence |].
  rewrite Hr; apply andb_false_iff in Es; case_bool_decide as E1; [left; auto | right; split; [| reflexivity]].
  destruct Es as [Es | Es]; to_prop; congruence.
Qed.

Definition validRounds (m : uuid) (d : DB) : list uuid :=
  map r_id (List.filter (fun r => (r_matchId r === m) && (r_invalidatedAt r === None)) (db_rounds d)).

(** The valid faults of an athlete, and the points the judges gave it in valid rounds. *)
Definition faultsOf (m athleteId : uuid) (d : DB) : Z :=
  sum_by (fun _ => 1) (List.filter (fun f => (f_athleteId f === athleteId) && validFault (validRounds m d) f)
    (List.filter (fun f => f_matchId f === m) (db_faults d))).
Definition judgeScoreOf (m athleteId : uuid) (d : DB) : Z :=
  sum_by e_value (List.filter (fun e => (e_athleteId e === athleteId) && validJudgePoint (validRounds m d) e)
    (List.filter (fun e => e_matchId e === m) (db_scoreEvents d))).

Lemma sum_by_filter_app {A} (f : A -> Z) (p : A -> bool) l x :
  sum_by f (List.filter p (l ++ [x])) = sum_by f (List.filter p l) + if p x then f x else 0.
Proof. rewrite List.filter_app, sum_by_app; cbn; destruct (p x); cbn; lia. Qed.

(** a fault is recorded against the running round. It needs a running, unpaused and
    valid round of the match with time left; it is stored with the server's time for the
    athlete of the colour, changes no score, and the projection sent out counts exactly
    one fault more for that athlete and the same as before for the other. *)
Theorem fault_recorded clk m i c severity trace d t d'
  (Hwf : wf d) (H : record clk m i c severity trace d = Ok (t, d')) :
  exists mr r athlete fault,
    find_first (fun x => m_id x === m) (db_matches d) = Some mr /\
    isRunningStatus (m_status mr) = true /\ liveRound clk mr r d /\
    r_invalidatedAt r = None /\ r_pausedAt r = None /\
    In athlete (db_matchAthletes d) /\ ma_matchId athlete = m /\ ma_color athlete = c /\
    db_faults d' = db_faults d ++ [fault] /\
    f_athleteId fault = ma_id athlete /\ f_roundId fault = r_id r /\ f_severity fault = severity /\
    f_createdAt fault = serverNow clk /\ f_invalidatedAt fault = None /\
    db_scoreEvents d' = db_scoreEvents d /\
    ft_projection t = map (fun a => mkProjection (ma_id a) (ma_color a)
        (faultsOf m (ma_id a) d + if ma_id a === ma_id athlete then 1 else 0)
        (judgeScoreOf m (ma_id a) d))
      (List.filter (fun a => ma_matchId a === m) (db_matchAthletes d)).
Proof.
  pose proof (touches_record _ _ _ _ _ _ _ _ _ H) as Ht; unfold record in H.
  apply bind_ok in H as ([mr r] & d1 & Hr & H); apply faultRound_ok in Hr as (-> & Hm & Hrun & Hlive & Hv & Hp).
  apply bind_ok in H as (fo & d1 & Hf & H); apply gets_ok in Hf as [-> ->].
  apply bind_ok in H as (at_ & d1 & Ha & H); apply or_throw_ok in Ha as [Ha ->].
  apply find_first_some in Ha as [Ia Ha]; to_prop.
  apply bind_ok in H as (f & d1 & Hf & H); apply (create_ok faults) in Hf as (-> & _ & ->).
  apply bind_ok in H as (au & d2 & Hau & H); apply (create_ok auditLogs) in Hau as (_ & _ & ->).
  apply bind_ok in H as (pj & d3 & Hpj & H); apply ret_ok in H as [<- <-].
  pose proof (respects_faultProjection eq _ _ _ _ Hpj) as <-.
  unfold faultProjection in Hpj.
  apply bind_ok in Hpj as (l1 & d1 & Hl & Hpj); apply gets_ok in Hl as [-> ->].
  apply bind_ok in Hpj as (l1 & d1 & Hl & Hpj); apply gets_ok in Hl as [-> ->].
  apply bind_ok in Hpj as (l1 & d1 & Hl & Hpj); apply gets_ok in Hl as [-> ->].
  apply bind_ok in Hpj as (l1 & d1 & Hl & Hpj); apply gets_ok in Hl as [-> ->].
  apply ret_ok in Hpj as [<- _].
  eexists mr, r, at_, _; split_and!; try eassumption; try reflexivity.
  cbn [ft_projection]; rewrite projection_map; apply map_ext; intros a; f_equal.
  cbn -[sum_by]; rewrite List.filter_app; cbn -[sum_by]; rewrite bool_decide_true by reflexivity. rewrite sum_by_filter_app.
  unfold faultsOf; f_equal; unfold validFault; cbn.
  destruct Hlive as (Ir & Mr & _); apply find_first_some in Hm as [_ Hid]; to_prop.
  rewrite (bool_decide_ext (ma_id at_ = ma_id a) (ma_id a = ma_id at_)) by (split; congruence).
  assert (Hex : existsb (fun x => x === r_id r) (validRounds m d) = true).
  { apply existsb_exists; exists (r_id r); split; [| apply bool_decide_true; reflexivity].
    apply in_map, filter_In; split; [exact Ir |]; rewrite Hv, !bool_decide_true by congruence; reflexivity. }
  unfold validRounds in Hex; rewrite Hex, andb_true_r; reflexivity.
Qed.

(** a penalty costs exactly one point. It needs a legacy match in a running regulation
    round with time left; the penalty and the score event that carries it are stored
    together, one point off the athlete of the colour; the scores sent out are the totals
    before with that point taken, and the violation count is the athlete's valid penalties
    with the new one. *)
Theorem penalty_costs_a_point clk m i c d t d'
  (Hwf : wf d) (H : addPenalty clk m i c d = Ok (t, d')) :
  exists mr r athlete penalty event,
    find_first (fun x => m_id x === m) (db_matches d) = Some mr /\
    m_rulesVersion mr = LEGACY_SCORE_PENALTY_V1 /\ liveRound clk mr r d /\
    ((m_status mr = ROUND_1_RUNNING /\ r_roundNumber r = 1) \/
     (m_status mr = ROUND_2_RUNNING /\ r_roundNumber r = 2)) /\
    In athlete (db_matchAthletes d) /\ ma_matchId athlete = m /\ ma_color athlete = c /\
    db_penalties d' = db_penalties d ++ [penalty] /\ db_scoreEvents d' = db_scoreEvents d ++ [event] /\
    p_athleteId penalty = ma_id athlete /\ p_value penalty = -1 /\
    e_penaltyId event = Some (p_id penalty) /\ e_type event = PENALTY /\ e_roundId event = Some (r_id r) /\
    (forall a, effectiveTotal m a d' = effectiveTotal m a d + if a === ma_id athlete then -1 else 0) /\
    (forall a color total, In (a, color, total) (su_scores (pt_scoreUpdated t)) -> total = effectiveTotal m a d') /\
    pt_violationCount t = 1 + Z.of_nat (length (List.filter (fun p => (p_athleteId p === ma_id athlete) &&
      (p_matchId p === m) && (p_revertedAt p === None)) (db_penalties d))).
Proof.
  unfold addPenalty in H.
  apply bind_ok in H as ([[ru mr] r] & d1 & Hr & H); apply penaltyRound_ok in Hr as (-> & -> & Hm & Hv & Hlive & Hst).
  apply bind_ok in H as (at_ & d1 & Ha & H); apply (find_one_or_throw_ok matchAthletes) in Ha as [Ha ->].
  apply find_first_some in Ha as [Ia Ha]; to_prop.
  apply bind_ok in H as (p & d1 & Hp & H); apply (create_ok penalties) in Hp as (-> & _ & ->).
  apply bind_ok in H as (e & d1 & He & H); apply (create_ok scoreEvents) in He as (-> & _ & ->).
  apply bind_ok in H as (n & d2 & Hn & H); apply gets_ok in Hn as [-> ->].
  apply bind_ok in H as (au & d2 & Hau & H); apply (create_ok auditLogs) in Hau as (_ & _ & ->).
  apply bind_ok in H as (k & d2 & Hk & H).
  assert (Ek : penaltyRoundNumber (r_roundNumber r) = mret (r_roundNumber r)).
  { unfold penaltyRoundNumber; destruct Hst as [[_ ->] | [_ ->]]; reflexivity. }
  rewrite Ek in Hk; apply ret_ok in Hk as [<- <-].
  apply bind_ok in H as (su & d3 & Hsu & H); apply ret_ok in H as [<- <-].
  unfold scoreUpdatedPayload in Hsu; apply bind_ok in Hsu as (ath & d2 & Hath & Hsu).
  pose proof (respects_athletesByColor eq _ _ _ _ Hath) as <-.
  apply bind_ok in Hsu as (sc & d2 & Hsc & Hsu); apply gets_ok in Hsc as [-> ->].
  apply ret_ok in Hsu as [<- <-].
  eexists mr, r, at_, _, _; split_and!; try eassumption; try reflexivity.
  - intros a; unfold effectiveTotal; cbn -[sum_by]; rewrite sum_by_filter_app; cbn; f_equal.
    rewrite bool_decide_true by reflexivity; cbn.
    rewrite (bool_decide_ext (ma_id at_ = a) (a = ma_id at_)) by (split; congruence); reflexivity.
  - cbn; intros a color total Hin; apply in_map_iff in Hin as (b & E & _); injection E as <- _ <-; reflexivity.
  - cbn; rewrite List.filter_app, length_app; cbn; rewrite !bool_decide_true by reflexivity; cbn; lia.
Qed.

(** ** Witnesses *)

Definition faultedDB : DB := Eval vm_compute in
  after (record (at_time 5000) 10 supervisor RED MINOR None) runningDB.
Definition faultTransition : FaultTransition :=
  mkFaultTransition 1001 1000 RED 21 MINOR 5000 50 10 "M" [mkProjection 21 RED 1 0; mkProjection 22 BLUE 0 0].

Lemma fault_recorded_witness :
  record (at_time 5000) 10 supervisor RED MINOR None runningDB = Ok (faultTransition, faultedDB) /\
  exists r fault, db_faults faultedDB = db_faults runningDB ++ [fault] /\ f_roundId fault = r_id r /\
    serverNow (at_time 5000) < r_endsAt r.
Proof.
  split; [vm_compute; reflexivity |].
  destruct (fault_recorded (at_time 5000) 10 supervisor RED MINOR None runningDB faultTransition faultedDB)
    as (mr & r & at_ & fault & Hall); [apply runningDB_wf | vm_compute; reflexivity |].
  exists r, fault; unfold liveRound in Hall; destruct_and! Hall; auto.
Defined.

Definition legacyRunningDB : DB := Eval vm_compute in
  runningDB <| db_matches := [(sampleMatch 10 ROUND_1_RUNNING IN_PROGRESS (Some 1) (Some 0))
                                <| m_rulesVersion := LEGACY_SCORE_PENALTY_V1 |>] |>.
Definition penalizedDB : DB := Eval vm_compute in
  after (addPenalty (at_time 5000) 10 supervisor BLUE) legacyRunningDB.
Definition penaltyTransition : PenaltyTransition :=
  mkPenaltyTransition 10 "M" BLUE 22 5000 1000 1 (-1) 1
    (mkScoreUpdated "M" [(21%N, RED, 0); (22%N, BLUE, -1)] (Some 1000%N) None 5000).

Lemma penalty_costs_a_point_witness :
  addPenalty (at_time 5000) 10 supervisor BLUE legacyRunningDB = Ok (penaltyTransition, penalizedDB) /\
  exists athlete, ma_color athlete = BLUE /\
    effectiveTotal 10 22 penalizedDB = effectiveTotal 10 22 legacyRunningDB + if 22%N === ma_id athlete then -1 else 0.
Proof.
  split; [vm_compute; reflexivity |].
  destruct (penalty_costs_a_point (at_time 5000) 10 supervisor BLUE legacyRunningDB penaltyTransition penalizedDB)
    as (mr & r & at_ & p & e & Hall); [solve_wf | vm_compute; reflexivity |].
  exists at_; destruct_and! Hall; auto.
Defined.

(** A match suspended while overtime runs keeps its running status, and [record] looks at
    neither the lifecycle nor the rules version: the fault is recorded. *)
Definition suspendedOvertimeDB : DB := Eval vm_compute in
  sampleDB ((sampleMatch 10 OVERTIME_RUNNING SUSPENDED (Some 1) (Some 0)) <| m_suspendedAt := Some 1000 |>)
    [sampleRound 52 1 OVERTIME 1 0 None].
Example suspended_match_records_fault :
  wf suspendedOvertimeDB /\
  exists t d', record (at_time 5000) 10 supervisor RED MAJOR None suspendedOvertimeDB = Ok (t, d') /\
    ft_roundId t = 52%N.
Proof. split; [solve_wf | do 2 eexists; split; vm_compute; reflexivity]. Qed.
