(* ===== verification/Assignments.v ===== *)
(** * Assignments

    [match-official-assignments/match-official-assignments.service.ts]: a tournament
    supervisor takes a match together with its whole crew of judges, may replace judges
    and may release the match before it starts. The row locks the service takes first
    (tournament, match, officials, assignments) order concurrent transactions and read
    nothing; a transaction of the model runs alone. The messages published after the
    commit are the lists [publishCommitted], [publishAssignments] and [publishRelease]. *)
From S2P Require Import Prelude Schema Database Rules Authorization Scenario.
From Stdlib Require Import Sorting.Sorted.

(** ** Identities and results *)

(** [ValidatedOfficialSession], the fields the service reads. *)
Record OfficialIdentity : Type := mkOfficialIdentity {
  oi_sessionId : uuid; oi_officialId : uuid; oi_tournamentId : uuid;
  oi_role : TournamentOfficialRole }.

(** One active assignment as [committedState] selects it. *)
Record AssignmentView : Type := mkAssignmentView {
  av_id : uuid; av_officialId : uuid; av_role : TournamentOfficialRole;
  av_judgePosition : option Z }.

Record CommittedState : Type := mkCommittedState {
  cs_id : uuid; cs_tournamentId : uuid; cs_publicId : string; cs_status : MatchStatus;
  cs_requiredJudgeCount : Z; cs_officialAssignments : list AssignmentView }.

(** What [take] hands to its caller: the state, and whether to publish it. *)
Record TakeResult : Type := mkTakeResult { tr_state : CommittedState; tr_publish : bool }.

Record ConfirmResult : Type := mkConfirmResult {
  cr_state : CommittedState; cr_removedOfficialIds : list uuid }.

Record ReleaseResult : Type := mkReleaseResult {
  rs_before : list uuid; rs_state : CommittedState }.

(** ** Guards *)

(** [supervisor] *)
Definition requireSupervisorRole (identity : OfficialIdentity) : DbM unit :=
  throw_if (oi_role identity !== OFFICIAL_SUPERVISOR) (Forbidden "SUPERVISOR_REQUIRED").

(** [tournament: { softDeletedAt: null, status: { not: ARCHIVED } }] *)
Definition openTournament (tournamentId : uuid) (d : DB) : bool :=
  existsb (fun tn => (tn_id tn === tournamentId) && (tn_softDeletedAt tn === None) &&
                     (tn_status tn !== TOURNAMENT_ARCHIVED)) (db_tournaments d).

(** [requireActiveInspector] *)
Definition requireActiveInspector (officialId tournamentId : uuid) : DbM unit :=
  official ← find_one tournamentOfficials (fun tf =>
    (tf_id tf === officialId) && (tf_tournamentId tf === tournamentId) &&
    (tf_role tf === OFFICIAL_SUPERVISOR) && tf_isActive tf);
  _ ← or_throw official (Forbidden "OFFICIAL_INACTIVE"); mret tt.

(** [activeMatch] *)
Definition activeMatch (matchId tournamentId : uuid) : DbM MatchRow :=
  open ← gets (openTournament tournamentId);
  m ← find_one matches (fun m => (m_id m === matchId) && (m_tournamentId m === tournamentId) &&
        (m_status m === WAITING) && (m_startedAt m === None) && open);
  or_throw m (Conflict "MATCH_ASSIGNMENT_LOCKED").

(** [claimableMatch] *)
Definition claimableMatch (matchId tournamentId : uuid) : DbM MatchRow :=
  open ← gets (openTournament tournamentId);
  m ← find_one matches (fun m => (m_id m === matchId) && (m_tournamentId m === tournamentId) &&
        ((m_lifecycle m === NOT_STARTED) || (m_lifecycle m === SUSPENDED)) && open);
  or_throw m (Conflict "MATCH_LIFECYCLE_MISMATCH").

Definition memberOf (ids : list uuid) (i : uuid) : bool := existsb (fun x => x === i) ids.

(** [judgeIds.map((officialId, index) => ({ officialId, judgePosition: index + 1 }))] *)
Definition positioned (judgeIds : list uuid) : list (uuid * Z) :=
  imap (fun i o => (o, Z.of_nat i + 1)) judgeIds.

(** The owner check of [confirm] and [release]. *)
Definition requireOwner (matchId : uuid) (identity : OfficialIdentity) : DbM unit :=
  owner ← find_one matchOfficialAssignments (fun a => activeAssignment matchId a &&
            (oa_officialId a === oi_officialId identity) && (oa_role a === OFFICIAL_SUPERVISOR));
  _ ← or_throw owner (Forbidden "SUPERVISOR_NOT_MATCH_OWNER"); mret tt.

(** [assertActiveSupervisorAssignment] *)
Definition assertActiveSupervisorAssignment (matchId : uuid) (identity : OfficialIdentity) : DbM unit :=
  _ ← requireSupervisorRole identity;
  assignment ← find_one matchOfficialAssignments (fun a => activeAssignment matchId a &&
            (oa_officialId a === oi_officialId identity) && (oa_role a === OFFICIAL_SUPERVISOR) &&
            (oa_tournamentId a === oi_tournamentId identity));
  _ ← or_throw assignment (Forbidden "SUPERVISOR_NOT_MATCH_OWNER"); mret tt.

(** The checks of the requested judges shared by [take] and [confirm]; [elsewhere] selects
    the active assignments that make one of them unavailable. *)
Definition requireJudges (judgeIds : list uuid) (tournamentId : uuid)
    (elsewhere : AssignmentRow -> bool) : DbM unit :=
  officials ← find_many tournamentOfficials (fun tf => memberOf judgeIds (tf_id tf));
  _ ← throw_if ((Z.of_nat (length officials) !== Z.of_nat (length judgeIds)) ||
                existsb (fun tf => tf_tournamentId tf !== tournamentId) officials)
        (Conflict "OFFICIAL_TOURNAMENT_MISMATCH");
  _ ← throw_if (existsb (fun tf => tf_role tf !== OFFICIAL_JUDGE) officials)
        (Conflict "JUDGE_NOT_AVAILABLE");
  _ ← throw_if (existsb (fun tf => negb (tf_isActive tf)) officials) (Conflict "JUDGE_INACTIVE");
  occupied ← find_one matchOfficialAssignments (fun a =>
               memberOf judgeIds (oa_officialId a) && (oa_releasedAt a === None) && elsewhere a);
  throw_if (set_ occupied) (Conflict "JUDGE_ALREADY_IN_MATCH").

(** ** States *)

(** [orderBy: [{ role: 'asc' }, { judgePosition: 'asc' }]]; a supervisor, alone in its
    role, has no position. *)
Definition roleRank (a : AssignmentRow) : Z :=
  match oa_role a with OFFICIAL_JUDGE => 0 | OFFICIAL_SUPERVISOR => 1 end.
Definition positionRank (a : AssignmentRow) : Z := default 0 (oa_judgePosition a).
Definition crewOrder (l : list AssignmentRow) : list AssignmentRow :=
  sort_by roleRank (sort_by positionRank l).

Definition assignmentView (a : AssignmentRow) : AssignmentView :=
  mkAssignmentView (oa_id a) (oa_officialId a) (oa_role a) (oa_judgePosition a).

(** [committedState]; [stateInTx] selects the same rows. *)
Definition committedState (matchId : uuid) : DbM CommittedState :=
  m ← find_one_or_throw matches (fun m => m_id m === matchId);
  crew ← find_many matchOfficialAssignments (activeAssignment matchId);
  mret (mkCommittedState (m_id m) (m_tournamentId m) (m_publicId m) (m_status m)
          (m_requiredJudgeCount m) (map assignmentView (crewOrder crew))).

(** The service's [audit]. *)
Definition auditAssignment (eventType : AuditEventType) (matchId : uuid) (identity : OfficialIdentity)
    (metadata : list (string * json)) : DbM AuditRow :=
  create auditLogs (fun id => mkAuditRow id (Some matchId) None None (Some (oi_sessionId identity))
    eventType (JObj metadata)).

Definition positionJson (x : uuid * Z) : json :=
  JObj [("officialId", JId (fst x)); ("judgePosition", JNum (snd x))]%string.

(** ** [take] *)

(** The idempotence test: the caller's crew is already the match's. *)
Definition sameCrew (current : list AssignmentRow) (supervisorId : uuid) (requested : list (uuid * Z))
    : bool :=
  let referees := List.filter (fun a => oa_role a === OFFICIAL_JUDGE) current in
  match find_first (fun a => oa_role a === OFFICIAL_SUPERVISOR) current with
  | Some a => oa_officialId a === supervisorId
  | None => false
  end &&
  (map (fun a => (oa_officialId a, oa_judgePosition a)) referees ===
   map (fun x => (fst x, Some (snd x))) requested).

(** The writes of [take]: the supervisor, the judges, the resumed match and the audit entry. *)
Definition assembleCrew (clk : Clock) (m : MatchRow) (requested : list (uuid * Z))
    (identity : OfficialIdentity) : DbM unit :=
  let matchId := m_id m in
  _ ← create matchOfficialAssignments (fun id => mkAssignmentRow id matchId (m_tournamentId m)
        (oi_officialId identity) OFFICIAL_SUPERVISOR None None (rowNow clk) None None);
  _ ← create_many matchOfficialAssignments (fun x id => mkAssignmentRow id matchId (m_tournamentId m)
        (fst x) OFFICIAL_JUDGE (Some (snd x)) (Some (oi_officialId identity)) (rowNow clk) None None)
        requested;
  _ ← when (m_lifecycle m === SUSPENDED)
        (_ ← update matches (fun m => m_id m === matchId)
               (fun m => m <| m_lifecycle := IN_PROGRESS |> <| m_suspendedAt := None |>); mret tt);
  _ ← auditAssignment MATCH_OFFICIAL_ASSIGNMENT_CONFIRMED matchId identity
        [("inspectorId", JId (oi_officialId identity)); ("referees", JList (map positionJson requested));
         ("priorLifecycle", JLifecycle (m_lifecycle m)); ("resumed", JBool (m_lifecycle m === SUSPENDED))]%string;
  mret tt.

Definition take (clk : Clock) (matchId : uuid) (judgeIds : list uuid) (identity : OfficialIdentity)
    : DbM TakeResult :=
  _ ← requireSupervisorRole identity;
  _ ← throw_if (negb (bool_decide (NoDup judgeIds))) (Conflict "JUDGE_COUNT_MISMATCH");
  m ← claimableMatch matchId (oi_tournamentId identity);
  _ ← requireActiveInspector (oi_officialId identity) (oi_tournamentId identity);
  _ ← throw_if (Z.of_nat (length judgeIds) !== m_requiredJudgeCount m) (Conflict "JUDGE_COUNT_MISMATCH");
  rows ← find_many matchOfficialAssignments (activeAssignment matchId);
  let current := crewOrder rows in
  let requested := positioned judgeIds in
  if sameCrew current (oi_officialId identity) requested then
    state ← committedState matchId; mret (mkTakeResult state false)
  else
  _ ← throw_if (set_ (find_first (fun a => oa_role a === OFFICIAL_SUPERVISOR) current))
        (Conflict "MATCH_ALREADY_CLAIMED");
  _ ← throw_if (negb (bool_decide (current = []))) (Conflict "STALE_ASSIGNMENT_SELECTION");
  inspectorOccupied ← find_one matchOfficialAssignments (fun a =>
      (oa_officialId a === oi_officialId identity) && (oa_releasedAt a === None));
  _ ← throw_if (set_ inspectorOccupied) (Conflict "SUPERVISOR_ALREADY_IN_MATCH");
  _ ← requireJudges judgeIds (oi_tournamentId identity) (fun _ => true);
  _ ← assembleCrew clk m requested identity;
  state ← committedState matchId;
  mret (mkTakeResult state true).

(** The compatibility endpoint never claims. *)
Definition claim (identity : OfficialIdentity) : DbM unit :=
  _ ← requireSupervisorRole identity; throw (Conflict "ATOMIC_TAKE_REQUIRED").

(** ** [confirm] *)

Definition sameSeat (old : AssignmentRow) (next : uuid * Z) : bool :=
  (fst next === oa_officialId old) && (Some (snd next) === oa_judgePosition old).

(** The writes of [confirm] and the officials it takes out of the match. *)
Definition replaceJudges (clk : Clock) (m : MatchRow) (before : list AssignmentRow)
    (after : list (uuid * Z)) (identity : OfficialIdentity) : DbM (list uuid) :=
  let matchId := m_id m in
  let retained := List.filter (fun old => existsb (sameSeat old) after) before in
  let replaced := List.filter (fun old => negb (existsb (fun kept => oa_id kept === oa_id old) retained)) before in
  let added := List.filter (fun next => negb (existsb (fun kept => sameSeat kept next) retained)) after in
  _ ← update_many matchOfficialAssignments (fun a => memberOf (map oa_id replaced) (oa_id a))
        (fun a => a <| oa_releasedAt := Some (jsNow clk 0) |> <| oa_releaseReason := Some REPLACED |>);
  _ ← create_many matchOfficialAssignments (fun x id => mkAssignmentRow id matchId (m_tournamentId m)
        (fst x) OFFICIAL_JUDGE (Some (snd x)) (Some (oi_officialId identity)) (rowNow clk) None None)
        added;
  _ ← auditAssignment (if before is [] then MATCH_OFFICIAL_ASSIGNMENT_CONFIRMED
                       else MATCH_OFFICIAL_ASSIGNMENT_REPLACED) matchId identity
        [("before", JList (map assignmentJson before)); ("after", JList (map positionJson after));
         ("retained", JList (map assignmentJson retained)); ("removed", JList (map assignmentJson replaced));
         ("added", JList (map positionJson added))]%string;
  mret (map oa_officialId (List.filter (fun old =>
          negb (existsb (fun next => fst next === oa_officialId old) after)) replaced)).

Definition confirm (clk : Clock) (matchId : uuid) (judgeIds : list uuid) (identity : OfficialIdentity)
    : DbM ConfirmResult :=
  _ ← requireSupervisorRole identity;
  _ ← throw_if (negb (bool_decide (NoDup judgeIds))) (Conflict "JUDGE_COUNT_MISMATCH");
  m ← activeMatch matchId (oi_tournamentId identity);
  _ ← requireActiveInspector (oi_officialId identity) (oi_tournamentId identity);
  _ ← throw_if (Z.of_nat (length judgeIds) !== m_requiredJudgeCount m) (Conflict "JUDGE_COUNT_MISMATCH");
  _ ← requireOwner matchId identity;
  _ ← requireJudges judgeIds (oi_tournamentId identity) (fun a => oa_matchId a !== matchId);
  rows ← find_many matchOfficialAssignments (fun a => activeAssignment matchId a &&
           (oa_role a === OFFICIAL_JUDGE));
  removed ← replaceJudges clk m (sort_by positionRank rows) (positioned judgeIds) identity;
  state ← committedState matchId;
  mret (mkConfirmResult state removed).

(** ** [release] *)

Definition release (clk : Clock) (matchId : uuid) (identity : OfficialIdentity) : DbM ReleaseResult :=
  _ ← requireSupervisorRole identity;
  _ ← activeMatch matchId (oi_tournamentId identity);
  _ ← requireActiveInspector (oi_officialId identity) (oi_tournamentId identity);
  _ ← requireOwner matchId identity;
  before ← find_many matchOfficialAssignments (activeAssignment matchId);
  _ ← update_many matchOfficialAssignments (activeAssignment matchId)
        (fun a => a <| oa_releasedAt := Some (jsNow clk 0) |> <| oa_releaseReason := Some SUPERVISOR_RELEASED |>);
  _ ← auditAssignment MATCH_OFFICIAL_ASSIGNMENT_RELEASED matchId identity
        [("before", JList (map assignmentJson before))]%string;
  state ← committedState matchId;
  mret (mkReleaseResult (map oa_officialId before) state).

(** ** Publication after the commit *)

Inductive Room : Type :=
  | MatchRoom (matchPublicId : string) | TournamentRoom (tournamentId : uuid)
  | OfficialRoom (officialId : uuid).

Inductive Message : Type :=
  | MatchOfficialsUpdated (matchId tournamentId : uuid)
  | MatchStateSnapshot (matchId : uuid)
  | OfficialAssignmentUpdated (officialId : uuid) (assignment : option (AssignmentView * MatchStatus))
  | MatchAssignmentReleased (matchId : uuid) (releasedOfficialIds : list uuid).

(** [RealtimeOfficialRoutingService]: the rooms of each message. *)
Definition publishMatchOfficials (matchId : uuid) (publicId : string) (tournamentId : uuid)
    : list (Room * Message) :=
  [(MatchRoom publicId, MatchOfficialsUpdated matchId tournamentId);
   (TournamentRoom tournamentId, MatchOfficialsUpdated matchId tournamentId)].

Definition publishAssignment (status : MatchStatus) (a : AssignmentView) : Room * Message :=
  (OfficialRoom (av_officialId a), OfficialAssignmentUpdated (av_officialId a) (Some (a, status))).

Definition publishReleased (matchId : uuid) (publicId : string) (released : list uuid)
    : list (Room * Message) :=
  (MatchRoom publicId, MatchAssignmentReleased matchId released) ::
  concat (map (fun o => [(OfficialRoom o, MatchAssignmentReleased matchId released);
                         (OfficialRoom o, OfficialAssignmentUpdated o None)]) released).

(** [publishCommitted] *)
Definition publishCommitted (state : CommittedState) : list (Room * Message) :=
  publishMatchOfficials (cs_id state) (cs_publicId state) (cs_tournamentId state) ++
  (MatchRoom (cs_publicId state), MatchStateSnapshot (cs_id state)) ::
  map (publishAssignment (cs_status state)) (cs_officialAssignments state).

(** [publishAssignments], from the store it reads after the commit *)
Definition publishAssignments (matchId tournamentId : uuid) (released : list uuid) (d : DB)
    : list (Room * Message) :=
  match find_first (fun m => m_id m === matchId) (db_matches d) with
  | None => []
  | Some m =>
      publishMatchOfficials matchId (m_publicId m) tournamentId ++
      (if bool_decide (released = []) then [] else publishReleased matchId (m_publicId m) released) ++
      map (fun a => publishAssignment (m_status m) (assignmentView a))
        (List.filter (activeAssignment matchId) (db_matchOfficialAssignments d))
  end.

(** [publishRelease] *)
Definition publishRelease (matchId : uuid) (released : list uuid) (d : DB) : list (Room * Message) :=
  match find_first (fun m => m_id m === matchId) (db_matches d) with
  | None => []
  | Some m => publishReleased matchId (m_publicId m) released
  end.

(** ** Reads *)

Inductive OfficialStatus : Type := DISABLED | IN_MATCH (matchId : uuid) | READY.

(** [officialStatus], with the match disclosed *)
Definition officialStatus (tf : OfficialRow) (assigned : list AssignmentRow) : OfficialStatus :=
  if negb (tf_isActive tf) then DISABLED
  else match assigned with a :: _ => IN_MATCH (oa_matchId a) | [] => READY end.

(** [list]: the matches a supervisor of the tournament may look at, in creation order, each
    with whether the supervisor may take it. *)
Definition claimable (d : DB) (identity : OfficialIdentity) (m : MatchRow) : bool :=
  let crew := List.filter (activeAssignment (m_id m)) (db_matchOfficialAssignments d) in
  negb (existsb (fun a => oa_role a === OFFICIAL_SUPERVISOR) crew) ||
  existsb (fun a => oa_officialId a === oi_officialId identity) crew.

Definition list_matches (identity : OfficialIdentity) : DbM (list (MatchRow * bool)) :=
  _ ← requireSupervisorRole identity;
  open ← gets (openTournament (oi_tournamentId identity));
  ms ← find_many matches (fun m => (m_tournamentId m === oi_tournamentId identity) &&
         ((m_lifecycle m === NOT_STARTED) || (m_lifecycle m === SUSPENDED)) && open);
  gets (fun d => map (fun m => (m, claimable d identity m)) ms).

(** [state]: the match, its crew and the judges of the tournament with their status; the
    source orders the judges by name, a column the model does not keep. *)
Definition state (matchId : uuid) (identity : OfficialIdentity)
    : DbM (MatchRow * list AssignmentView * list (uuid * OfficialStatus)) :=
  _ ← requireSupervisorRole identity;
  m ← find_one matches (fun m => (m_id m === matchId) && (m_tournamentId m === oi_tournamentId identity));
  m ← or_throw m (NotFound "MATCH_NOT_FOUND");
  crew ← find_many matchOfficialAssignments (activeAssignment matchId);
  referees ← find_many tournamentOfficials (fun tf =>
    (tf_tournamentId tf === oi_tournamentId identity) && (tf_role tf === OFFICIAL_JUDGE));
  statuses ← gets (fun d => map (fun tf => (tf_id tf, officialStatus tf
    (List.filter (fun a => (oa_officialId a === tf_id tf) && (oa_releasedAt a === None))
       (db_matchOfficialAssignments d)))) referees);
  mret (m, map assignmentView (crewOrder crew), statuses).

(** ** Facts *)

Section Guards.
Context (R : DB -> DB -> Prop) `{!PreOrder R}.

Lemma respects_requireSupervisorRole i : respects R (requireSupervisorRole i).
Proof. unfold requireSupervisorRole; respects_auto. Qed.
Lemma respects_requireActiveInspector o t : respects R (requireActiveInspector o t).
Proof. unfold requireActiveInspector; respects_auto. Qed.
Lemma respects_requireOwner m i : respects R (requireOwner m i).
Proof. unfold requireOwner; respects_auto. Qed.
Lemma respects_requireJudges ids t p : respects R (requireJudges ids t p).
Proof. unfold requireJudges; respects_auto. Qed.
Lemma respects_activeMatch m t : respects R (activeMatch m t).
Proof. unfold activeMatch; respects_auto. Qed.
Lemma respects_claimableMatch m t : respects R (claimableMatch m t).
Proof. unfold claimableMatch; respects_auto. Qed.
Lemma respects_committedState m : respects R (committedState m).
Proof. unfold committedState; respects_auto. Qed.
End Guards.
#[export] Hint Resolve respects_requireSupervisorRole respects_requireActiveInspector
  respects_requireOwner respects_requireJudges respects_activeMatch respects_claimableMatch
  respects_committedState : tx.

Lemma keeps_sound_assembleCrew clk m req i : respects keeps_sound (assembleCrew clk m req i).
Proof. unfold assembleCrew, auditAssignment; respects_auto. Qed.
Lemma keeps_sound_replaceJudges clk m b a i : respects keeps_sound (replaceJudges clk m b a i).
Proof. unfold replaceJudges, auditAssignment; respects_auto. Qed.
#[export] Hint Resolve keeps_sound_assembleCrew keeps_sound_replaceJudges : tx.

Lemma keeps_sound_take clk m ids i : respects keeps_sound (take clk m ids i).
Proof. unfold take; respects_auto. Qed.
Lemma keeps_sound_confirm clk m ids i : respects keeps_sound (confirm clk m ids i).
Proof. unfold confirm; respects_auto. Qed.
Lemma keeps_sound_release clk m i : respects keeps_sound (release clk m i).
Proof. unfold release, auditAssignment; respects_auto. Qed.

Lemma touches_take clk m ids i :
  respects (touches [matchOfficialAssignments; matches; auditLogs]) (take clk m ids i).
Proof. unfold take, assembleCrew, auditAssignment; respects_auto. Qed.
Lemma touches_confirm clk m ids i :
  respects (touches [matchOfficialAssignments; auditLogs]) (confirm clk m ids i).
Proof. unfold confirm, replaceJudges, auditAssignment; respects_auto. Qed.
Lemma touches_release clk m i :
  respects (touches [matchOfficialAssignments; auditLogs]) (release clk m i).
Proof. unfold release, auditAssignment; respects_auto. Qed.

Lemma memberOf_in ids i : memberOf ids i = true <-> In i ids.
Proof.
  unfold memberOf; rewrite existsb_exists; split; [intros (x & Hx & E); to_prop; subst; exact Hx |].
  intros H; exists i; split; [exact H | apply bool_decide_eq_true; reflexivity].
Qed.


Lemma assembleCrew_ok clk m req i d u d' :
  assembleCrew clk m req i d = Ok (u, d') ->
  exists sup js, db_matchOfficialAssignments d' = db_matchOfficialAssignments d ++ sup :: js /\
    (oa_matchId sup, oa_officialId sup, oa_role sup, oa_judgePosition sup, oa_releasedAt sup) =
      (m_id m, oi_officialId i, OFFICIAL_SUPERVISOR, None, None) /\
    map (fun a => (oa_matchId a, oa_officialId a, oa_role a, oa_judgePosition a, oa_releasedAt a)) js =
      map (fun x => (m_id m, fst x, OFFICIAL_JUDGE, Some (snd x), None)) req /\
    db_matches d' = (if m_lifecycle m === SUSPENDED
      then map_where (fun x => m_id x === m_id m)
             (fun x => x <| m_lifecycle := IN_PROGRESS |> <| m_suspendedAt := None |>) (db_matches d)
      else db_matches d).
Proof.
  unfold assembleCrew; intros H.
  apply bind_ok in H as (sup & d1 & Hc & H); apply (create_ok matchOfficialAssignments) in Hc as (-> & _ & ->).
  apply bind_ok in H as ([] & d2 & Hc & H).
  apply (create_many_ok matchOfficialAssignments) in Hc as (js & Hg & Hf & Ho).
  apply bind_ok in H as ([] & d3 & Hw & H).
  apply bind_ok in H as (au & d4 & Ha & H); apply ret_ok in H as [_ <-].
  apply (create_ok auditLogs) in Ha as (_ & _ & ->).
  assert (Hm : db_matches d2 = db_matches d) by (exact (Ho matches ltac:(discriminate))).
  assert (Hs : db_matchOfficialAssignments d3 = db_matchOfficialAssignments d2 /\
    db_matches d3 = if m_lifecycle m === SUSPENDED
      then map_where (fun x => m_id x === m_id m)
             (fun x => x <| m_lifecycle := IN_PROGRESS |> <| m_suspendedAt := None |>) (db_matches d)
      else db_matches d).
  { destruct (m_lifecycle m === SUSPENDED); unfold when in Hw.
    - apply bind_ok in Hw as (x & d5 & Hu & Hw); apply ret_ok in Hw as [_ <-].
      apply (update_ok matches) in Hu as (y & _ & _ & _ & ->); rewrite <- Hm; split; reflexivity.
    - apply ret_ok in Hw as [_ <-]; auto. }
  destruct Hs as [Hs Hms].
  eexists _, js; split_and!; [| | | exact Hms].
  - transitivity (db_matchOfficialAssignments d2); [exact Hs |].
    change (db_matchOfficialAssignments d2) with (get matchOfficialAssignments d2); rewrite Hg.
    rewrite get_put_same, <- app_assoc; reflexivity.
  - reflexivity.
  - clear -Hf; induction Hf as [| x r l l' (id & ->) _ IH]; cbn; [reflexivity | rewrite IH; reflexivity].
Qed.

Lemma committedState_ok m d s d' : committedState m d = Ok (s, d') ->
  exists r, find_first (fun x => m_id x === m) (db_matches d) = Some r /\
  s = mkCommittedState (m_id r) (m_tournamentId r) (m_publicId r) (m_status r) (m_requiredJudgeCount r)
        (map assignmentView (crewOrder (List.filter (activeAssignment m) (db_matchOfficialAssignments d)))).
Proof.
  unfold committedState; intros H; run H; eauto.
Qed.

Lemma crewOrder_nil l : crewOrder l = [] -> l = [].
Proof.
  unfold crewOrder; intros H; apply Permutation_nil.
  rewrite <- H, !sort_by_perm; reflexivity.
Qed.

(** A committed [take] either found the caller's own crew or assembled it. *)
Lemma take_ok clk m ids i d r d' :
  take clk m ids i d = Ok (r, d') ->
  exists mr,
    find_first (fun x => (m_id x === m) && (m_tournamentId x === oi_tournamentId i) &&
        ((m_lifecycle x === NOT_STARTED) || (m_lifecycle x === SUSPENDED)) &&
        openTournament (oi_tournamentId i) d) (db_matches d) = Some mr /\
    oi_role i = OFFICIAL_SUPERVISOR /\ NoDup ids /\ Z.of_nat (length ids) = m_requiredJudgeCount mr /\
    requireActiveInspector (oi_officialId i) (oi_tournamentId i) d = Ok (tt, d) /\
    committedState m d' = Ok (tr_state r, d') /\
    if tr_publish r then
      List.filter (activeAssignment m) (db_matchOfficialAssignments d) = [] /\
      (forall a, In a (db_matchOfficialAssignments d) -> oa_releasedAt a = None ->
         oa_officialId a <> oi_officialId i) /\
      requireJudges ids (oi_tournamentId i) (fun _ => true) d = Ok (tt, d) /\
      assembleCrew clk mr (positioned ids) i d = Ok (tt, d')
    else
      d' = d /\ sameCrew (crewOrder (List.filter (activeAssignment m) (db_matchOfficialAssignments d)))
                  (oi_officialId i) (positioned ids) = true.
Proof.
  unfold take; intros H.
  apply bind_ok in H as ([] & d1 & Hr & H); apply throw_if_ok in Hr as [Hr ->].
  apply bind_ok in H as ([] & d1 & Hn & H); apply throw_if_ok in Hn as [Hn ->].
  apply bind_ok in H as (mr & d1 & Hm & H).
  unfold claimableMatch in Hm; run Hm.
  apply bind_ok in H as ([] & d1 & Hi & H).
  pose proof (respects_requireActiveInspector eq _ _ _ _ _ Hi) as <-.
  apply bind_ok in H as ([] & d1 & Hl & H); apply throw_if_ok in Hl as [Hl ->].
  apply bind_ok in H as (rows & d1 & Hc & H); apply gets_ok in Hc as [-> ->].
  cbv zeta in H; exists mr; to_prop.
  assert (Hid : requireActiveInspector (oi_officialId i) (oi_tournamentId i) d = Ok (tt, d)) by exact Hi.
  destruct (sameCrew _ _ _) eqn:E in H.
  - apply bind_ok in H as (s & d1 & Hs & H); apply ret_ok in H as [<- <-].
    pose proof (respects_committedState eq _ _ _ _ Hs) as <-; cbn; split_and!; auto.
  - apply bind_ok in H as ([] & d1 & Hcl & H); apply throw_if_ok in Hcl as [_ ->].
    apply bind_ok in H as ([] & d2 & Hem & H); apply throw_if_ok in Hem as [Hem ->].
    apply bind_ok in H as (o & d3 & Ho & H); apply gets_ok in Ho as [-> ->].
    apply bind_ok in H as ([] & d4 & Ho & H); apply throw_if_ok in Ho as [Ho ->].
    apply bind_ok in H as ([] & d5 & Hj & H).
    pose proof (respects_requireJudges eq _ _ _ _ _ _ Hj) as <-.
    apply bind_ok in H as ([] & d6 & Ha & H).
    apply bind_ok in H as (s & d7 & Hs & H); apply ret_ok in H as [<- <-].
    pose proof (respects_committedState eq _ _ _ _ Hs) as <-; cbn [tr_state tr_publish].
    apply negb_false_iff, bool_decide_eq_true, crewOrder_nil in Hem; apply set_none in Ho.
    split_and!; try assumption.
    intros a Hin Hrel Hoff; eapply find_first_none in Ho; [| exact Hin].
    cbv beta in Ho; rewrite Hrel, Hoff in Ho; rewrite !bool_decide_eq_true_2 in Ho by reflexivity; discriminate.
Qed.

Lemma active_seats mid : forall (l : list (uuid * Z)) js,
  map (fun a => (oa_matchId a, oa_officialId a, oa_role a, oa_judgePosition a, oa_releasedAt a)) js =
    map (fun x => (mid, fst x, OFFICIAL_JUDGE, Some (snd x), None)) l ->
  List.filter (activeAssignment mid) js = js.
Proof.
  induction l as [| x l IH]; intros [| a js]; cbn; intros H; try discriminate; [reflexivity |].
  injection H as Hm Ho Hr Hp Hrel H; unfold activeAssignment at 1.
  rewrite Hm, Hrel, bool_decide_eq_true_2 by reflexivity; cbn; rewrite (IH _ H); reflexivity.
Qed.

(** The crew a fresh take leaves. *)
Lemma take_crew clk m ids i d r d' :
  take clk m ids i d = Ok (r, d') -> tr_publish r = true ->
  exists sup js,
    List.filter (activeAssignment m) (db_matchOfficialAssignments d') = sup :: js /\
    (oa_officialId sup, oa_role sup, oa_judgePosition sup) = (oi_officialId i, OFFICIAL_SUPERVISOR, None) /\
    map (fun a => (oa_officialId a, oa_role a, oa_judgePosition a)) js =
      map (fun x => (fst x, OFFICIAL_JUDGE, Some (snd x))) (positioned ids).
Proof.
  intros H Hp; apply take_ok in H as (mr & Hm & _ & _ & _ & _ & _ & H); rewrite Hp in H.
  destruct H as (He & _ & _ & Ha); apply assembleCrew_ok in Ha as (sup & js & Hd & Hs & Hj & _).
  assert (Hid : m_id mr = m) by (apply find_first_some in Hm as [_ Hm]; to_prop; assumption).
  rewrite Hid in *; exists sup, js; split_and!.
  - rewrite Hd, List.filter_app, He; cbn; injection Hs as Hsm _ _ _ Hsr.
    unfold activeAssignment at 1; rewrite Hsm, Hsr, bool_decide_eq_true_2 by reflexivity; cbn.
    rewrite (active_seats m _ _ Hj); reflexivity.
  - congruence.
  - apply (f_equal (map (fun '(_, o, ro, p, _) => (o, ro, p)))) in Hj.
    rewrite !map_map in Hj; exact Hj.
Qed.





(** Seats numbered from [k] on are in order. *)
Lemma seats_sorted ids : forall k js,
  map (fun a => (oa_officialId a, oa_role a, oa_judgePosition a)) js =
    map (fun x => (fst x, OFFICIAL_JUDGE, Some (snd x))) (imap (fun n o => (o, Z.of_nat (k + n) + 1)) ids) ->
  StronglySorted (fun x y => positionRank x <= positionRank y) js /\
  forall a, In a js -> oa_role a = OFFICIAL_JUDGE /\ Z.of_nat k < positionRank a.
Proof.
  induction ids as [| o ids IH]; intros k [| a js] H; cbn in H; try discriminate.
  - split; [constructor | intros _ []].
  - injection H as _ Er Ep H.
    replace (imap ((fun n o0 => (o0, Z.of_nat (k + n) + 1)) ∘ S) ids)
      with (imap (fun n o => (o, Z.of_nat (S k + n) + 1)) ids) in H
      by (apply imap_ext; intros n x _; cbn; do 2 f_equal; lia).
    destruct (IH (S k) js H) as [Hs Ha].
    assert (Hra : positionRank a = Z.of_nat k + 1) by (unfold positionRank; rewrite Ep; cbn; lia).
    split.
    + constructor; [exact Hs |]; apply list.Forall_forall; intros x Hx.
      rewrite list_elem_of_In in Hx; destruct (Ha x Hx); lia.
    + intros x [<- | Hx]; [split; [exact Er | lia] | destruct (Ha x Hx); split; [assumption | lia]].
Qed.

Lemma crewOrder_fresh o ids sup js :
  (oa_officialId sup, oa_role sup, oa_judgePosition sup) = (o, OFFICIAL_SUPERVISOR, None) ->
  map (fun a => (oa_officialId a, oa_role a, oa_judgePosition a)) js =
      map (fun x => (fst x, OFFICIAL_JUDGE, Some (snd x))) (positioned ids) ->
  crewOrder (sup :: js) = js ++ [sup] /\
  List.filter (fun a => oa_role a === OFFICIAL_JUDGE) (js ++ [sup]) = js /\
  find_first (fun a => oa_role a === OFFICIAL_SUPERVISOR) (js ++ [sup]) = Some sup.
Proof.
  intros Hsup Hjs; injection Hsup as _ Hr Hp.
  destruct (seats_sorted ids 0 js Hjs) as [Hs Ha].
  assert (Hrs : positionRank sup = 0) by (unfold positionRank; rewrite Hp; reflexivity).
  split_and!.
  - unfold crewOrder; rewrite (sort_by_sorted positionRank).
    + cbn [sort_by fold_right]; change (fold_right (insert_by roleRank) [] js) with (sort_by roleRank js).
      rewrite (sort_by_sorted roleRank js).
      * apply insert_by_last; intros a Hin; unfold roleRank; rewrite Hr; destruct (Ha a Hin) as [-> _]; lia.
      * clear Hs Hjs; induction js as [| a js IH]; constructor; [apply IH; intros; apply Ha; right; auto |].
        apply list.Forall_forall; intros x Hx; rewrite list_elem_of_In in Hx; unfold roleRank.
        destruct (Ha a (or_introl eq_refl)) as [-> _], (Ha x (or_intror Hx)) as [-> _]; lia.
    + constructor; [exact Hs |]; apply list.Forall_forall; intros x Hx.
      rewrite list_elem_of_In in Hx; destruct (Ha x Hx); lia.
  - rewrite List.filter_app; cbn; rewrite Hr; cbn; rewrite app_nil_r.
    clear Hs Hjs; induction js as [| a js IH]; cbn; [reflexivity |].
    destruct (Ha a (or_introl eq_refl)) as [-> _]; cbn; rewrite IH; [reflexivity | intros; apply Ha; right; auto].
  - rewrite find_first_app; replace (find_first _ js) with (@None AssignmentRow).
    + cbn; rewrite Hr; reflexivity.
    + symmetry; apply find_first_none; intros a Hin; destruct (Ha a Hin) as [-> _]; reflexivity.
Qed.

Lemma take_same_crew ids i sup js :
  (oa_officialId sup, oa_role sup, oa_judgePosition sup) = (oi_officialId i, OFFICIAL_SUPERVISOR, None) ->
  map (fun a => (oa_officialId a, oa_role a, oa_judgePosition a)) js =
      map (fun x => (fst x, OFFICIAL_JUDGE, Some (snd x))) (positioned ids) ->
  sameCrew (crewOrder (sup :: js)) (oi_officialId i) (positioned ids) = true.
Proof.
  intros Hsup Hjs; destruct (crewOrder_fresh _ _ _ _ Hsup Hjs) as (-> & Hf & Hs).
  unfold sameCrew; rewrite Hf, Hs; injection Hsup as -> _ _.
  apply andb_true_iff; split; apply bool_decide_eq_true; [reflexivity |].
  apply (f_equal (map (fun '(o, _, p) => (o, p)))) in Hjs; rewrite !map_map in Hjs; exact Hjs.
Qed.

(** Taking a match again with the same crew returns the same state, writes nothing and
    publishes nothing, as long as the match has not started; after a take that resumed a
    suspended match the repetition is refused with MATCH_LIFECYCLE_MISMATCH, so that retry is
    not idempotent. *)
Theorem take_retried clk clk' m ids i d r d' (Hs : sound d)
    (H : take clk m ids i d = Ok (r, d')) (Hp : tr_publish r = true) :
  exists mr, In mr (db_matches d) /\ m_id mr = m /\
    (m_lifecycle mr = NOT_STARTED -> take clk' m ids i d' = Ok (mkTakeResult (tr_state r) false, d')) /\
    (m_lifecycle mr = SUSPENDED -> take clk' m ids i d' = Err (Conflict "MATCH_LIFECYCLE_MISMATCH")).
Proof.
  destruct (take_crew _ _ _ _ _ _ _ H Hp) as (sup & js & Hc & Hsup & Hjs).
  pose proof (touches_take _ _ _ _ _ _ _ H) as Ht.
  pose proof (keeps_sound_take _ _ _ _ _ _ _ H Hs) as [Hwf' _].
  apply take_ok in H as (mr & Hm & Hr & Hnd & Hl & Hi & Hst & H); rewrite Hp in H.
  destruct H as (_ & _ & _ & Ha); apply assembleCrew_ok in Ha as (_ & _ & _ & _ & _ & Hms).
  pose proof Hm as Hm0; apply find_first_some in Hm0 as [Hin Hm0]; to_prop.
  assert (Ho : openTournament (oi_tournamentId i) d' = openTournament (oi_tournamentId i) d).
  { unfold openTournament; rewrite (Ht tournaments ltac:(table_notin) : db_tournaments d' = _); reflexivity. }
  subst m; exists mr; split_and!; [exact Hin | reflexivity | |]; intros Hlc; rewrite Hlc in Hms.
  - assert (Hm' : claimableMatch (m_id mr) (oi_tournamentId i) d' = Ok (mr, d')).
    { rewrite bool_decide_eq_false_2 in Hms by discriminate.
      unfold claimableMatch; rewrite (bind_step _ _ d' (openTournament (oi_tournamentId i) d') d') by reflexivity.
      rewrite Ho; apply bind_ok; do 2 eexists; split; [apply gets_ok; split; reflexivity |].
      apply or_throw_ok; split; [| reflexivity].
      change (get matches d') with (db_matches d'); rewrite Hms; exact Hm. }
    assert (Hi' : requireActiveInspector (oi_officialId i) (oi_tournamentId i) d' = Ok (tt, d')).
    { revert Hi; unfold requireActiveInspector, find_one, gets, mbind, tx_bind, or_throw.
      cbv beta; rewrite (Ht tournamentOfficials ltac:(table_notin)); destruct (find_first _ (get tournamentOfficials d)); intros E; [reflexivity | discriminate]. }
    unfold take, requireSupervisorRole; rewrite Hr.
    rewrite (bool_decide_eq_true_2 (OFFICIAL_SUPERVISOR = _)) by reflexivity.
    rewrite (bool_decide_eq_true_2 (NoDup ids)) by exact Hnd.
    rewrite (bind_step _ _ d' tt d') by reflexivity; rewrite (bind_step _ _ d' tt d') by reflexivity.
    rewrite (bind_step _ _ _ _ _ Hm'), (bind_step _ _ _ _ _ Hi').
    rewrite (bool_decide_eq_true_2 (Z.of_nat (length ids) = _)) by exact Hl; rewrite (bind_step _ _ d' tt d') by reflexivity.
    rewrite (bind_step _ _ d' (List.filter (activeAssignment (m_id mr)) (db_matchOfficialAssignments d')) d') by reflexivity.
    cbv zeta; rewrite Hc, (take_same_crew _ _ _ _ Hsup Hjs), (bind_step _ _ _ _ _ Hst); reflexivity.
  - assert (Hm' : claimableMatch (m_id mr) (oi_tournamentId i) d' = Err (Conflict "MATCH_LIFECYCLE_MISMATCH")).
    { unfold claimableMatch, find_one, gets, mbind, tx_bind.
      destruct (find_first _ (get matches d')) as [x |] eqn:E; [exfalso | reflexivity].
      apply find_first_some in E as [Hx Hq]; change (In x (db_matches d')) in Hx; rewrite Hms in Hx.
      apply in_map_where in Hx as (y & Hy & ->); to_prop.
      destruct (m_id y === m_id mr) eqn:Ey; to_prop; [discriminate | congruence]. }
    unfold take, requireSupervisorRole; rewrite Hr.
    rewrite (bool_decide_eq_true_2 (OFFICIAL_SUPERVISOR = _)) by reflexivity.
    rewrite (bool_decide_eq_true_2 (NoDup ids)) by exact Hnd.
    rewrite (bind_step _ _ d' tt d') by reflexivity; rewrite (bind_step _ _ d' tt d') by reflexivity.
    apply bind_err, Hm'.
Qed.

Definition activeJudge (matchId : uuid) (a : AssignmentRow) : bool :=
  activeAssignment matchId a && (oa_role a === OFFICIAL_JUDGE).
Definition seat (a : AssignmentRow) : uuid * option Z := (oa_officialId a, oa_judgePosition a).
Definition seatOf (x : uuid * Z) : uuid * option Z := (fst x, Some (snd x)).

Lemma sameSeat_true a x : sameSeat a x = true <-> seat a = seatOf x.
Proof.
  unfold sameSeat, seat, seatOf; rewrite andb_true_iff, !bool_decide_eq_true.
  split; [intros [-> ->]; reflexivity | intros [= -> ->]; auto].
Qed.

Lemma positioned_fst ids : map fst (positioned ids) = ids.
Proof.
  unfold positioned; transitivity (imap (fun _ o => o) ids).
  - apply list_eq; intros n; rewrite list_lookup_fmap, !list_lookup_imap.
    destruct (ids !! n); reflexivity.
  - clear; induction ids as [| o ids IH]; cbn; [reflexivity | f_equal; exact IH].
Qed.

Lemma positioned_seats_nodup ids : NoDup ids -> NoDup (map seatOf (positioned ids)).
Proof.
  intros Hnd; apply (NoDup_fmap_1 fst); rewrite <- list_fmap_compose.
  replace ((fst ∘ seatOf) <$> positioned ids) with ids; [exact Hnd |].
  rewrite <- (positioned_fst ids) at 1; reflexivity.
Qed.

(** The writes of [confirm] on the rows. *)
Lemma replaceJudges_ok clk mr before after i d rem d' :
  replaceJudges clk mr before after i d = Ok (rem, d') ->
  let retained := List.filter (fun old => existsb (sameSeat old) after) before in
  let replaced := List.filter (fun old => negb (existsb (fun kept => oa_id kept === oa_id old) retained)) before in
  exists js,
    db_matchOfficialAssignments d' =
      map_where (fun a => memberOf (map oa_id replaced) (oa_id a))
        (fun a => a <| oa_releasedAt := Some (jsNow clk 0) |> <| oa_releaseReason := Some REPLACED |>)
        (db_matchOfficialAssignments d) ++ js /\
    map (fun a => (oa_matchId a, seat a, oa_role a, oa_releasedAt a)) js =
      map (fun x => (m_id mr, seatOf x, OFFICIAL_JUDGE, None))
        (List.filter (fun next => negb (existsb (fun kept => sameSeat kept next) retained)) after) /\
    rem = map oa_officialId (List.filter (fun old =>
            negb (existsb (fun next => fst next === oa_officialId old) after)) replaced).
Proof.
  unfold replaceJudges; intros H; cbv zeta in *.
  apply bind_ok in H as (n & d1 & Hu & H); apply (update_many_ok matchOfficialAssignments) in Hu as (_ & _ & ->).
  apply bind_ok in H as ([] & d2 & Hc & H).
  apply (create_many_ok matchOfficialAssignments) in Hc as (js & Hg & Hf & _).
  apply bind_ok in H as (au & d3 & Ha & H); apply ret_ok in H as [<- <-].
  apply (create_ok auditLogs) in Ha as (_ & _ & ->).
  exists js; split_and!; [| | reflexivity].
  - change (db_matchOfficialAssignments (put auditLogs ?l (?x <| db_nextId ::= ?f |>)))
      with (get matchOfficialAssignments x); rewrite Hg, get_put_same; reflexivity.
  - clear -Hf; induction Hf as [| x r l l' (id & ->) _ IH]; cbn; [reflexivity | rewrite IH; reflexivity].
Qed.

Lemma confirm_ok clk m ids i d r d' :
  confirm clk m ids i d = Ok (r, d') ->
  exists mr, In mr (db_matches d) /\ m_id mr = m /\ m_status mr = WAITING /\ m_startedAt mr = None /\
    NoDup ids /\ Z.of_nat (length ids) = m_requiredJudgeCount mr /\
    requireJudges ids (oi_tournamentId i) (fun a => oa_matchId a !== m) d = Ok (tt, d) /\
    replaceJudges clk mr (sort_by positionRank (List.filter (activeJudge m) (db_matchOfficialAssignments d)))
      (positioned ids) i d = Ok (cr_removedOfficialIds r, d').
Proof.
  unfold confirm; intros H.
  apply bind_ok in H as ([] & d1 & Hr & H); apply throw_if_ok in Hr as [Hr ->].
  apply bind_ok in H as ([] & d1 & Hn & H); apply throw_if_ok in Hn as [Hn ->].
  apply bind_ok in H as (mr & d1 & Hm & H); unfold activeMatch in Hm; run Hm.
  apply bind_ok in H as ([] & d1 & Hi & H).
  pose proof (respects_requireActiveInspector eq _ _ _ _ _ Hi) as <-.
  apply bind_ok in H as ([] & d1 & Hl & H); apply throw_if_ok in Hl as [Hl ->].
  apply bind_ok in H as ([] & d1 & Ho & H); pose proof (respects_requireOwner eq _ _ _ _ _ Ho) as <-.
  apply bind_ok in H as ([] & d1 & Hj & H); pose proof (respects_requireJudges eq _ _ _ _ _ _ Hj) as <-.
  apply bind_ok in H as (rows & d1 & Hrows & H); apply gets_ok in Hrows as [-> ->].
  apply bind_ok in H as (rem & d1 & Hrep & H).
  apply bind_ok in H as (s & d2 & Hs & H); apply ret_ok in H as [<- <-].
  pose proof (respects_committedState eq _ _ _ _ Hs) as <-.
  apply find_first_some in H0 as [Hin Hq]; to_prop; exists mr; split_and!; auto.
Qed.

(** The rows to replace are those not retained. *)
Lemma replaced_iff (before retained : list AssignmentRow) a :
  (forall x y, In x before -> In y before -> oa_id x = oa_id y -> x = y) ->
  (forall x, In x retained -> In x before) -> In a before ->
  memberOf (map oa_id (List.filter
    (fun old => negb (existsb (fun kept => oa_id kept === oa_id old) retained)) before)) (oa_id a) = true
  <-> ~ In a retained.
Proof.
  intros Hinj Hincl Ha; rewrite memberOf_in, in_map_iff; split.
  - intros (b & Hb & Hin) Hr; apply filter_In in Hin as [_ Hin].
    apply negb_true_iff in Hin; eapply existsb_none in Hin; [| exact Hr]; cbv beta in Hin; to_prop; auto.
  - intros Hr; exists a; split; [reflexivity |]; apply filter_In; split; [exact Ha |].
    apply negb_true_iff; destruct (existsb _ retained) eqn:E; [| reflexivity].
    apply existsb_exists in E as (b & Hb & E); apply bool_decide_eq_true in E.
    rewrite (Hinj b a) in Hb by auto; contradiction.
Qed.

(** A row of the added seats is an active judge of the match. *)
Lemma added_seat m l js x :
  map (fun a => (oa_matchId a, seat a, oa_role a, oa_releasedAt a)) js =
    map (fun x => (m, seatOf x, OFFICIAL_JUDGE, None)) l -> In x js ->
  activeJudge m x = true /\ exists y, In y l /\ seat x = seatOf y.
Proof.
  intros Hjs Hx; assert (E : In (oa_matchId x, seat x, oa_role x, oa_releasedAt x)
        (map (fun x => (m, seatOf x, OFFICIAL_JUDGE, None)) l)) by (rewrite <- Hjs; apply in_map_iff; eauto).
  apply in_map_iff in E as (y & E & Hy); injection E as Em Es1 Es2 Er El; split.
  - unfold activeJudge, activeAssignment; rewrite <- Em, <- Er, <- El.
    rewrite !bool_decide_eq_true_2 by reflexivity; reflexivity.
  - exists y; split; [exact Hy | unfold seat, seatOf; congruence].
Qed.

(** The judges before and after the writes of [confirm], by row. *)
Lemma confirm_rows clk m ids i d r d' :
  sound d -> confirm clk m ids i d = Ok (r, d') ->
  (forall a, In a (db_matchOfficialAssignments d) -> activeJudge m a = true ->
     In (seat a) (map seatOf (positioned ids)) -> In a (db_matchOfficialAssignments d')) /\
  (forall a, In a (db_matchOfficialAssignments d') -> activeJudge m a = true ->
     In (seat a) (map seatOf (positioned ids))) /\
  (forall x, In x (positioned ids) ->
     exists a, In a (db_matchOfficialAssignments d') /\ activeJudge m a = true /\ seat a = seatOf x).
Proof.
  intros [Hwf _] H; apply confirm_ok in H as (mr & _ & Hid & _ & _ & _ & _ & _ & H).
  apply replaceJudges_ok in H; cbv zeta in H; rewrite Hid in H.
  set (after := positioned ids) in *.
  set (before := sort_by positionRank _) in H.
  set (retained := List.filter (fun old => existsb (sameSeat old) after) before) in *.
  set (replaced := List.filter _ before) in H; destruct H as (js & Hd & Hjs & _).
  assert (Hbefore : forall a, In a before <-> In a (db_matchOfficialAssignments d) /\ activeJudge m a = true).
  { intros a; unfold before; rewrite <- filter_In; split; apply Permutation_in;
      [| symmetry]; apply sort_by_perm. }
  assert (Hret : forall a, In a retained <-> In a before /\ In (seat a) (map seatOf after)).
  { intros a; unfold retained; rewrite filter_In, existsb_exists, in_map_iff.
    split; intros [Ha (x & Hx & Hs)]; (split; [exact Ha |]); exists x;
      [apply sameSeat_true in Hx || apply sameSeat_true in Hs | rewrite sameSeat_true]; auto. }
  assert (Hrep : forall a, In a before -> memberOf (map oa_id replaced) (oa_id a) = true <-> ~ In a retained).
  { intros a Ha; apply replaced_iff; [| intros x Hx; apply Hret, Hx | exact Ha].
    intros x y Hx Hy E; apply Hbefore in Hx as [Hx _]; apply Hbefore in Hy as [Hy _].
    eapply (wf_id matchOfficialAssignments d); eauto; cbn; congruence. }
  split_and!.
  - intros a Ha Hact Hs; rewrite Hd; apply in_app_iff; left; apply in_map_where; exists a; split; [exact Ha |].
    destruct (memberOf _ _) eqn:E; [| reflexivity].
    apply Hrep in E; [destruct E; apply Hret; split; [apply Hbefore; auto | exact Hs] | apply Hbefore; auto].
  - intros a Ha Hact; rewrite Hd in Ha; apply in_app_iff in Ha as [Ha | Ha].
    + apply in_map_where in Ha as (b & Hb & ->); destruct (memberOf _ _) eqn:E in Hact |- *.
      * unfold activeJudge, activeAssignment in Hact; to_prop; cbn in *; discriminate.
      * assert (Hb' : In b before) by (apply Hbefore; auto).
        apply Hret; destruct (existsb (sameSeat b) after) eqn:Er; [apply filter_In; auto |].
        enough (memberOf (map oa_id replaced) (oa_id b) = true) by congruence.
        apply Hrep; [exact Hb' |]; intros Hr; apply filter_In in Hr as [_ Hr]; congruence.
    + destruct (added_seat _ _ _ _ Hjs Ha) as (_ & y & Hy & ->); apply filter_In in Hy as [Hy _].
      apply in_map; exact Hy.
  - intros x Hx; destruct (existsb (fun kept => sameSeat kept x) retained) eqn:E.
    + apply existsb_exists in E as (k & Hk & E); apply sameSeat_true in E; exists k.
      pose proof Hk as Hk'; apply Hret in Hk' as [Hb _]; pose proof (proj1 (Hbefore _) Hb) as [Hin Hact].
      split_and!; auto; rewrite Hd; apply in_app_iff; left; apply in_map_where; exists k; split; [exact Hin |].
      destruct (memberOf _ _) eqn:Em; [| reflexivity]; apply Hrep in Em; [contradiction | exact Hb].
    + assert (Hy : In (m, seatOf x, OFFICIAL_JUDGE, None : option timestamp)
        (map (fun a => (oa_matchId a, seat a, oa_role a, oa_releasedAt a)) js)).
      { rewrite Hjs; apply in_map_iff; exists x; split; [reflexivity |].
        apply filter_In; rewrite E; auto. }
      apply in_map_iff in Hy as (a & Ea & Ha); destruct (added_seat _ _ _ _ Hjs Ha) as [Hact _].
      exists a; split_and!; [rewrite Hd; apply in_app_iff; auto | exact Hact | congruence].
Qed.

Lemma seats_nodup m d :
  wf d -> NoDup (map seat (List.filter (activeJudge m) (db_matchOfficialAssignments d))).
Proof.
  intros Hwf; specialize (Hwf matchOfficialAssignments); apply table_ok_true in Hwf as (_ & _ & Hix).
  cbn in Hix; to_prop; apply (NoDup_fmap_1 fst).
  change (NoDup (map fst (map seat (List.filter (activeJudge m) (db_matchOfficialAssignments d))))).
  rewrite map_map; eapply (unique_by_filter active_official_key); [eassumption |].
  intros a _ Ha; unfold activeJudge, activeAssignment in Ha; to_prop.
  unfold active_official_key; rewrite bool_decide_eq_true_2; auto.
Qed.

(** Confirming judges for a match that has not started leaves exactly the requested judges
    active, each at its position in the request, as many as the match requires; a judge who
    keeps their position keeps their assignment row, and matches and every other table but
    the assignments and the audit log stay as they are. *)
Theorem confirm_replaces_judges clk m ids i d r d' (Hs : sound d)
    (H : confirm clk m ids i d = Ok (r, d')) :
  Permutation (map seat (List.filter (activeJudge m) (db_matchOfficialAssignments d')))
    (map seatOf (positioned ids)) /\
  (forall a, In a (db_matchOfficialAssignments d) -> activeJudge m a = true ->
     In (seat a) (map seatOf (positioned ids)) -> In a (db_matchOfficialAssignments d')) /\
  (exists mr, In mr (db_matches d) /\ m_id mr = m /\ m_status mr = WAITING /\
     Z.of_nat (length ids) = m_requiredJudgeCount mr) /\
  touches [matchOfficialAssignments; auditLogs] d d'.
Proof.
  pose proof (keeps_sound_confirm _ _ _ _ _ _ _ H Hs) as [Hwf' _].
  pose proof (touches_confirm _ _ _ _ _ _ _ H) as Ht.
  destruct (confirm_rows _ _ _ _ _ _ _ Hs H) as (Hkeep & Hin & Hout).
  apply confirm_ok in H as (mr & Hm & Hid & Hst & _ & Hnd & Hl & _).
  split_and!; [| exact Hkeep | eauto | exact Ht].
  apply list.NoDup_Permutation; [apply seats_nodup, Hwf' | apply positioned_seats_nodup, Hnd |].
  intros s; rewrite !list_elem_of_In; split.
  - intros Hx; apply in_map_iff in Hx as (a & <- & Ha); apply filter_In in Ha as [Ha Hact]; auto.
  - intros Hx; apply in_map_iff in Hx as (x & <- & Hx); destruct (Hout x Hx) as (a & Ha & Hact & <-).
    apply in_map, filter_In; auto.
Qed.

(** ** Scenario

    The supervisor 60 of tournament 1, judges 61 to 64, and match 10 before its start and
    suspended in its break. *)
Definition crewIdentity : OfficialIdentity := mkOfficialIdentity 70 60 1 OFFICIAL_SUPERVISOR.
Definition withOfficials (d : DB) : DB :=
  d <| db_tournamentOfficials := sampleOfficial 60 OFFICIAL_SUPERVISOR ::
         map (fun n => sampleOfficial n OFFICIAL_JUDGE) [61; 62; 63; 64]%N |>.
Definition unclaimedDB : DB := Eval vm_compute in withOfficials waitingDB.
Definition suspendedDB : DB := Eval vm_compute in
  withOfficials (sampleDB ((sampleMatch 10 BREAK SUSPENDED (Some 1) (Some 0)) <| m_suspendedAt := Some 500 |>)
    [sampleRound 50 1 REGULATION 0 0 (Some 120000)]).
Definition takenDB : DB := Eval vm_compute in after (take (at_time 600) 10 [61; 62; 63]%N crewIdentity) unclaimedDB.

Lemma unclaimedDB_sound : sound unclaimedDB.
Proof. solve_sound. Qed.
Lemma takenDB_sound : sound takenDB.
Proof. solve_sound. Qed.


Lemma take_retried_witness :
  exists r, take (at_time 600) 10 [61; 62; 63]%N crewIdentity unclaimedDB = Ok (r, takenDB) /\
    exists mr, In mr (db_matches unclaimedDB) /\ m_id mr = 10%N /\
    (m_lifecycle mr = NOT_STARTED ->
       take (at_time 700) 10 [61; 62; 63]%N crewIdentity takenDB = Ok (mkTakeResult (tr_state r) false, takenDB)) /\
    (m_lifecycle mr = SUSPENDED ->
       take (at_time 700) 10 [61; 62; 63]%N crewIdentity takenDB = Err (Conflict "MATCH_LIFECYCLE_MISMATCH")).
Proof.
  eexists; split; [vm_compute; reflexivity |].
  apply (take_retried (at_time 600)); [apply unclaimedDB_sound | vm_compute; reflexivity | reflexivity].
Defined.

Example resumed_take_refused :
  let d := after (take (at_time 600) 10 [61; 62; 63]%N crewIdentity) suspendedDB in
  take (at_time 700) 10 [61; 62; 63]%N crewIdentity d = Err (Conflict "MATCH_LIFECYCLE_MISMATCH").
Proof. vm_compute; reflexivity. Qed.

Lemma confirm_replaces_judges_witness :
  exists r d', confirm (at_time 700) 10 [62; 61; 64]%N crewIdentity takenDB = Ok (r, d') /\
    Permutation (map seat (List.filter (activeJudge 10) (db_matchOfficialAssignments d')))
      [(62%N, Some 1); (61%N, Some 2); (64%N, Some 3)].
Proof.
  eexists _, _; split; [vm_compute; reflexivity |].
  edestruct (confirm_replaces_judges (at_time 700) 10 [62; 61; 64]%N crewIdentity takenDB)
    as [H _]; [apply takenDB_sound | vm_compute; reflexivity |].
  exact H.
Defined.
