(* ===== verification/Phases.v ===== *)
(** * Phases

    The abstract specification of a match: its lifecycle, status and current round, and
    the phases its result operations can still bring back. The moves are what the engine
    promises about the phase of a match whatever the rows around it hold; the file [System]
    proves that every command of the services implements them. *)
From stdpp Require Import relations.
From S2P Require Import Prelude Schema Database Rules Lifecycle Cancellation Exit.

(** ** States *)

Record Phase : Type := phase {
  ph_lifecycle : MatchLifecycle; ph_status : MatchStatus; ph_round : option Z }.
#[export] Instance Phase_eq_dec : EqDecision Phase. Proof. solve_decision. Defined.

(** A phase an applied operation keeps, with the status and round it must be undone from. *)
Record Saved : Type := saved { sv_previous : Phase; sv_status : MatchStatus; sv_round : option Z }.

Record AState : Type := astate { a_phase : Phase; a_saved : list Saved }.

(** ** Well-formed phases *)

(** The phases only the current rules reach. *)
Definition v2Status (s : MatchStatus) : bool := retainableV2Phase s.

Definition round_fits (s : MatchStatus) (n : option Z) : bool :=
  match s with
  | WAITING => n === None
  | ROUND_1_RUNNING | ROUND_1_PAUSED | BREAK => n === Some 1
  | ROUND_2_RUNNING | ROUND_2_PAUSED | AWAITING_RESULT_SAVE | REGULATION_APPEAL => n === Some 2
  | OVERTIME_RUNNING | OVERTIME_PAUSED | OVERTIME_APPEAL | OVERTIME_TIEBREAK_DECISION => n === Some 1
  | OVERTIME_READY | RESULT_PUBLICATION_READY | FINISHED => (n === Some 1) || (n === Some 2)
  end.

(** The statuses a match can be suspended in. *)
Definition suspendable (s : MatchStatus) : bool :=
  (s === BREAK) || (s === AWAITING_RESULT_SAVE) || v2Status s.

Definition phase_ok (v : MatchRulesVersion) (p : Phase) : bool :=
  eqb (ph_lifecycle p === NOT_STARTED) (ph_status p === WAITING) &&
  eqb (ph_lifecycle p === LIFECYCLE_COMPLETED) (ph_status p === FINISHED) &&
  implb (ph_lifecycle p === SUSPENDED) (suspendable (ph_status p)) &&
  implb (v2Status (ph_status p)) (v === FAULT_APPEAL_OVERTIME_V2) &&
  round_fits (ph_status p) (ph_round p).

Definition aok (v : MatchRulesVersion) (s : AState) : Prop :=
  phase_ok v (a_phase s) = true /\
  Forall (fun sv => phase_ok v (sv_previous sv) = true /\ sv_status sv <> FINISHED) (a_saved s).

(** ** Steps *)

(** What is asked of a match, as far as its phase is concerned. *)
Inductive Action : Type :=
  | AStart | APause | AResume | AExpire | ARegulationAppeal | AOvertimeAppeal | ARestart
  | AManualWinner | APublish | AComplete | ATake | ACancel | AExit (mode : MatchExitMode) | AUndo
  | ANothing.

Inductive pauses : MatchStatus -> MatchStatus -> Prop :=
  | pauses_1 : pauses ROUND_1_RUNNING ROUND_1_PAUSED
  | pauses_2 : pauses ROUND_2_RUNNING ROUND_2_PAUSED
  | pauses_overtime : pauses OVERTIME_RUNNING OVERTIME_PAUSED.

(** Moves that save nothing. *)
Inductive moves (v : MatchRulesVersion) : Action -> Phase -> Phase -> Prop :=
  | move_start_first :
      moves v AStart (phase NOT_STARTED WAITING None) (phase IN_PROGRESS ROUND_1_RUNNING (Some 1))
  | move_start_second :
      moves v AStart (phase IN_PROGRESS BREAK (Some 1)) (phase IN_PROGRESS ROUND_2_RUNNING (Some 2))
  | move_start_overtime n :
      moves v AStart (phase IN_PROGRESS OVERTIME_READY n) (phase IN_PROGRESS OVERTIME_RUNNING (Some 1))
  | move_pause l s s' n : pauses s s' -> moves v APause (phase l s n) (phase l s' n)
  | move_resume l s s' n : pauses s s' -> moves v AResume (phase l s' n) (phase l s n)
  | move_end_first :
      moves v AExpire (phase IN_PROGRESS ROUND_1_RUNNING (Some 1)) (phase IN_PROGRESS BREAK (Some 1))
  | move_end_second :
      moves v AExpire (phase IN_PROGRESS ROUND_2_RUNNING (Some 2))
        (phase IN_PROGRESS (if v === FAULT_APPEAL_OVERTIME_V2 then REGULATION_APPEAL else AWAITING_RESULT_SAVE)
           (Some 2))
  | move_end_overtime :
      moves v AExpire (phase IN_PROGRESS OVERTIME_RUNNING (Some 1)) (phase IN_PROGRESS OVERTIME_APPEAL (Some 1))
  | move_regulation_tied n :
      moves v ARegulationAppeal (phase IN_PROGRESS REGULATION_APPEAL n) (phase IN_PROGRESS OVERTIME_READY n)
  | move_regulation_decided n :
      moves v ARegulationAppeal (phase IN_PROGRESS REGULATION_APPEAL n) (phase IN_PROGRESS RESULT_PUBLICATION_READY n)
  | move_overtime_tied n :
      moves v AOvertimeAppeal (phase IN_PROGRESS OVERTIME_APPEAL n) (phase IN_PROGRESS OVERTIME_TIEBREAK_DECISION n)
  | move_overtime_decided n :
      moves v AOvertimeAppeal (phase IN_PROGRESS OVERTIME_APPEAL n) (phase IN_PROGRESS RESULT_PUBLICATION_READY n)
  | move_restart l n :
      moves v ARestart (phase l OVERTIME_TIEBREAK_DECISION n) (phase l OVERTIME_READY n)
  | move_manual_winner l n :
      moves v AManualWinner (phase l OVERTIME_TIEBREAK_DECISION n) (phase l RESULT_PUBLICATION_READY n)
  | move_publish n :
      moves v APublish (phase IN_PROGRESS RESULT_PUBLICATION_READY n) (phase LIFECYCLE_COMPLETED FINISHED n)
  | move_complete n :
      moves v AComplete (phase IN_PROGRESS AWAITING_RESULT_SAVE n) (phase LIFECYCLE_COMPLETED FINISHED n)
  | move_take s n : moves v ATake (phase SUSPENDED s n) (phase IN_PROGRESS s n).

(** Where a cancellation leads. *)
Inductive cancels : Phase -> Phase -> Prop :=
  | cancel_match l s n : l <> SUSPENDED -> cancels (phase l s n) (phase NOT_STARTED WAITING None)
  | cancel_second_round l s :
      l <> SUSPENDED -> s = FINISHED \/ s = AWAITING_RESULT_SAVE \/ s = REGULATION_APPEAL ->
      cancels (phase l s (Some 2)) (phase IN_PROGRESS BREAK (Some 1))
  | cancel_overtime l s n :
      l <> SUSPENDED -> overtimePhase s = true ->
      cancels (phase l s n) (phase IN_PROGRESS OVERTIME_READY (Some 1)).

(** Where leaving a match leads. *)
Definition exitPhase (mode : MatchExitMode) (p : Phase) : Phase :=
  phase (exitLifecycle mode) (exitStatus mode (ph_status p)) (exitCurrentRound mode (ph_round p)).

Inductive astep (v : MatchRulesVersion) : Action -> AState -> AState -> Prop :=
  | step_move a p p' l : moves v a p p' -> astep v a (astate p l) (astate p' l)
  | step_cancel p p' l :
      cancels p p' -> astep v ACancel (astate p l) (astate p' (l ++ [saved p (ph_status p') (ph_round p')]))
  | step_exit mode p l :
      ph_lifecycle p <> LIFECYCLE_COMPLETED ->
      (mode = SUSPEND_KEEP_V2_PHASE -> v2Status (ph_status p) = true) ->
      astep v (AExit mode) (astate p l) (astate (exitPhase mode p)
        (l ++ [saved p (ph_status (exitPhase mode p)) (ph_round (exitPhase mode p))]))
  | step_undo p s l1 l2 :
      ph_status p = sv_status s -> ph_round p = sv_round s ->
      ph_lifecycle p = SUSPENDED <-> ph_lifecycle (sv_previous s) = SUSPENDED ->
      astep v AUndo (astate p (l1 ++ s :: l2)) (astate (sv_previous s) (l1 ++ l2)).

(** A run on a list of requests: each is carried out or refused. *)
Inductive aruns (v : MatchRulesVersion) : list Action -> AState -> AState -> Prop :=
  | runs_nil s : aruns v [] s s
  | runs_refuse a l s s' : aruns v l s s' -> aruns v (a :: l) s s'
  | runs_step a l s s1 s' : astep v a s s1 -> aruns v l s1 s' -> aruns v (a :: l) s s'.

(** ** Well-formedness is kept *)

Lemma phase_ok_facts v l s n :
  phase_ok v (phase l s n) = true ->
  (l = NOT_STARTED <-> s = WAITING) /\ (l = LIFECYCLE_COMPLETED <-> s = FINISHED) /\
  (l = SUSPENDED -> suspendable s = true) /\ (v2Status s = true -> v = FAULT_APPEAL_OVERTIME_V2) /\
  round_fits s n = true.
Proof.
  unfold phase_ok; cbn [ph_lifecycle ph_status ph_round]; intros H.
  apply andb_prop in H as [H Hr]; apply andb_prop in H as [H Hv]; apply andb_prop in H as [H Hs].
  apply andb_prop in H as [Hn Hc]; apply eqb_prop in Hn, Hc.
  split_and!; [| | | | exact Hr].
  - rewrite <- (bool_decide_eq_true (l = _)), Hn, bool_decide_eq_true; reflexivity.
  - rewrite <- (bool_decide_eq_true (l = _)), Hc, bool_decide_eq_true; reflexivity.
  - intros ->; exact Hs.
  - intros Hv2; rewrite Hv2 in Hv; apply bool_decide_eq_true in Hv; exact Hv.
Qed.

(** Phases are finite but for the round, of which only two values matter. *)
Ltac decide_rounds :=
  repeat match goal with
  | |- context [bool_decide (?n = Some 1)] => is_var n; destruct (bool_decide (n = Some 1))
  | |- context [bool_decide (?n = Some 2)] => is_var n; destruct (bool_decide (n = Some 2))
  | |- context [bool_decide (?n = None)] => is_var n; destruct (bool_decide (n = None))
  end.
Ltac decide_phase :=
  unfold phase_ok; cbn [ph_lifecycle ph_status ph_round round_fits]; decide_rounds;
  vm_compute; first [reflexivity | discriminate | intros; assumption].

Lemma moves_ok v a p p' : moves v a p p' -> phase_ok v p = true -> phase_ok v p' = true.
Proof.
  intros Hm; destruct Hm;
    try match goal with H : pauses _ _ |- _ => destruct H end;
    try match goal with l : MatchLifecycle |- _ => destruct l end;
    try match goal with s : MatchStatus |- _ => destruct s end; destruct v; decide_phase.
Qed.

Lemma cancels_ok v p p' : cancels p p' -> phase_ok v p = true -> phase_ok v p' = true.
Proof.
  intros Hc; destruct Hc as [l s n Hl | l s Hl Hs | l s n Hl Ho].
  - reflexivity.
  - reflexivity.
  - destruct s; try discriminate Ho; destruct l, v; decide_phase.
Qed.

(** A match is only left for a phase its mode leads to. *)
Lemma exit_ok v mode p :
  ph_lifecycle p <> LIFECYCLE_COMPLETED -> (mode = SUSPEND_KEEP_V2_PHASE -> v2Status (ph_status p) = true) ->
  phase_ok v p = true -> phase_ok v (exitPhase mode p) = true.
Proof.
  destruct p as [l s n]; cbn; intros Hl Hv; destruct mode; try reflexivity.
  specialize (Hv eq_refl); unfold exitPhase; cbn [exitLifecycle exitStatus exitCurrentRound ph_status ph_round].
  destruct s; try discriminate Hv; destruct l, v; decide_phase.
Qed.

Lemma cancels_open p p' : cancels p p' -> ph_status p' <> FINISHED.
Proof. intros []; discriminate. Qed.

Lemma exit_open mode p :
  (mode = SUSPEND_KEEP_V2_PHASE -> v2Status (ph_status p) = true) -> ph_status (exitPhase mode p) <> FINISHED.
Proof.
  destruct mode; cbn; try discriminate; intros Hv E; specialize (Hv eq_refl); rewrite E in Hv; discriminate.
Qed.

Lemma astep_ok v a s s' : astep v a s s' -> aok v s -> aok v s'.
Proof.
  intros Hs [Hp Hl]; unfold aok; destruct Hs; cbn [a_phase a_saved] in *.
  - split; [eapply moves_ok; eauto | exact Hl].
  - split; [eapply cancels_ok; eauto |]; apply Forall_app; split; [exact Hl |].
    repeat constructor; [exact Hp | eapply cancels_open; eauto].
  - split; [apply exit_ok; auto |]; apply Forall_app; split; [exact Hl |].
    repeat constructor; [exact Hp | apply exit_open; auto].
  - apply Forall_app in Hl as [Hl1 Hl2]; inversion Hl2 as [| ? ? [Hx _] Hl3]; subst; split; [exact Hx |].
    apply Forall_app; auto.
Qed.

Lemma aruns_ok v l s s' : aruns v l s s' -> aok v s -> aok v s'.
Proof. induction 1; eauto using astep_ok. Qed.

(** Only a cancellation takes a finished match anywhere. *)
Lemma finished_moves v a s s' :
  aok v s -> astep v a s s' -> ph_status (a_phase s) = FINISHED -> a = ACancel.
Proof.
  intros [Hp Hl] Hs Hf; destruct Hs as [a p p' l Hm | | mode p l Hne _ | p s l1 l2 Est _ _]; cbn in *.
  - destruct Hm; cbn in Hf; try discriminate; try (destruct H; discriminate).
    subst s; apply phase_ok_facts in Hp as (_ & _ & Hs & _); discriminate (Hs eq_refl).
  - reflexivity.
  - destruct p as [lc st n]; cbn in *; apply phase_ok_facts in Hp as (_ & [_ Hc] & _); destruct Hne; auto.
  - apply Forall_app in Hl as [_ Hl]; inversion Hl as [| ? ? [_ Hx] _]; subst; congruence.
Qed.

(** What a match can be finished from. *)
Lemma finishing_moves v a s s' :
  astep v a s s' -> ph_status (a_phase s) <> FINISHED -> ph_status (a_phase s') = FINISHED ->
  (a = APublish /\ ph_status (a_phase s) = RESULT_PUBLICATION_READY) \/
  (a = AComplete /\ ph_status (a_phase s) = AWAITING_RESULT_SAVE) \/ a = AUndo.
Proof.
  intros Hs Hne Hf; destruct Hs as [a p p' l Hm | p p' l Hc | mode p l _ Hv | p s l1 l2 Est _ _]; cbn in *; auto.
  - destruct Hm; cbn in *; try discriminate; try (destruct H; discriminate); auto; try contradiction.
    destruct (v === _); discriminate.
  - destruct (cancels_open _ _ Hc Hf).
  - destruct (exit_open mode p Hv Hf).
Qed.
