(* ===== verification/Snapshots.v ===== *)
(** * Snapshots

    realtime/realtime-match-state.service.ts: what clients are shown of a match, its score, its presence
    and readiness, and the commands it offers. The offers are informational: every command checks its own
    conditions again under the lock of the match; the theorems compare the two. The counts of connected
    sockets are an argument, the clock is read once. *)
From stdpp Require Import sets.
From S2P Require Import Prelude Schema Database Rules Authorization Scenario Scoring Lifecycle Cancellation Exit Appeals Publication Assignments Phases.

(** ** Data (packages/shared-types/src/realtime.ts) *)

Inductive MatchCompletionBlockedReason : Type :=
  | COMPLETION_ALREADY_COMPLETED | COMPLETION_MATCH_SUSPENDED | COMPLETION_ROUND_1_NOT_ENDED | COMPLETION_ROUND_2_NOT_ENDED
  | COMPLETION_INVALIDATED_ROUND
  | COMPLETION_UNRESOLVED_SCORING_WINDOW | NOT_AWAITING_RESULT_SAVE | RESULT_DECISION_REQUIRED.

Inductive ResultCapabilityBlockedReason : Type :=
  | RESULT_MATCH_SUSPENDED | RESULT_MATCH_COMPLETED | NOT_REGULATION_APPEAL | ROUND_SUMMARIES_MISSING | UNRESOLVED_SCORING_WINDOW
  | APPEAL_ALREADY_COMPLETED | NOT_OVERTIME_READY | NOT_AWAITING_PUBLICATION.

Inductive MatchExitBlockedReason : Type :=
  | EXIT_ALREADY_COMPLETED | EXIT_ROUND_1_NOT_ENDED | EXIT_ROUND_2_NOT_ENDED | EXIT_UNRESOLVED_SCORING_WINDOW
  | EXIT_NOT_ASSIGNED.

Record MatchCompletionCapability : Type := mkCompletionCapability { canComplete : bool; cc_blockedReasons : list MatchCompletionBlockedReason }.

(** [AppealResultContext]; a breakdown is a [RegulationScoreBreakdown], here [SideScore]. *)
Record AppealResultContext : Type := mkAppealContext {
  canAppeal : bool; committed : bool; ax_blockedReasons : list ResultCapabilityBlockedReason; ax_red : option SideScore; ax_blue : option SideScore }.

Inductive ScoreSource : Type := SOURCE_REGULATION | SOURCE_OVERTIME.

Record TieBreakCapability : Type := mkTieBreak {
  canStartOvertime : bool; canRestartOvertime : bool; canSelectManualWinner : bool; tb_isTie : option bool }.

Record PublicationCapability : Type := mkPublicationCapability {
  canPublish : bool; pc_blockedReasons : list ResultCapabilityBlockedReason; pc_source : option ScoreSource }.

Record ResultCapability : Type := mkResultCapability {
  regulationAppeal : AppealResultContext; currentOvertimeAttempt : option RoundDescriptor; overtimeAppeal : AppealResultContext;
  tieBreak : TieBreakCapability; publication : PublicationCapability }.

Record MatchExitCapability : Type := mkExitCapability {
  canExit : bool; allowedModes : list MatchExitMode; xc_blockedReasons : list MatchExitBlockedReason }.

Record MatchPresenceEntry : Type := mkPresenceEntry {
  pe_accessRole : MatchAccessRole; pe_activeSession : bool; pe_connected : bool; pe_connectedSocketCount : Z }.

Record MatchOfficialPresenceEntry : Type := mkOfficialPresence {
  op_activeSession : bool; op_connected : bool; op_connectedSocketCount : Z; op_name : string; op_officialId : uuid;
  op_judgePosition : option Z; op_role : TournamentOfficialRole }.

(** The result of [presence] *)
Record PresenceState : Type := mkPresenceState {
  officials : list MatchOfficialPresenceEntry; presence_ : list MatchPresenceEntry; ps_scoreboards : Z; ps_requiredJudgeCount : Z }.

(** A referee of [MatchStartReadinessDetails]; all of them are assigned. *)
Record RefereeReadiness : Type := mkRefereeReadiness { rf_officialId : uuid; rf_name : string; rf_position : Z; rf_connected : bool }.

Record StartReadiness : Type := mkStartReadiness {
  sr_requiredJudgeCount : Z; assignedRefereeCount : Z; connectedRefereeCount : Z; referees : list RefereeReadiness;
  inspector : option (uuid * bool); sr_missingRequirements : list string; sr_scoreboards : Z }.

Inductive MatchReadiness : Type :=
  | LEGACY_MATCH_ACCESS (canStartRound : bool) (missingRequirements : list string) (requiredJudgeCount : Z) (judge1 judge2 judge3 : bool)
      (scoreboardCount : Z)
  | TOURNAMENT_OFFICIALS (canStartRound : bool) (details : StartReadiness).

Record MatchScoringWindowState : Type := mkWindowState {
  wst_id : uuid; wst_stage : RoundStage; wst_roundNumber : Z; wst_attemptNumber : Z; wst_startedAt : timestamp; wst_endsAt : timestamp }.

Record MatchStateAthlete : Type := mkStateAthlete {
  sa_color : AthleteColor; sa_id : uuid; sa_name : string; sa_organization : option string; sa_athleteImagePath : option string;
  sa_organizationImagePath : option string; sa_score : Z; sa_violations : Z; sa_minor : Z; sa_major : Z }.

Record MatchStateIdentity : Type := mkStateIdentity {
  mi_currentRound : option Z; mi_finishedAt : option timestamp; mi_id : uuid; mi_publicId : string; mi_lifecycle : MatchLifecycle;
  mi_phase : MatchStatus; mi_rulesVersion : MatchRulesVersion; mi_startedAt : option timestamp; mi_intermissionEndsAt : option timestamp }.

(** The judge a snapshot is made for. *)
Inductive Viewer : Type :=
  | ViewerLegacy (judgeSlot : option JudgeSlot)
  | ViewerOfficial (assignmentId : uuid) (judgePosition : Z).

(** The vote of the viewer in the open window: [acceptedVote] with the viewer as its identity *)
Record ViewedVote : Type := mkViewedVote {
  vw_athlete : AthleteColor; vw_identity : Viewer; vw_matchPublicId : string; vw_scoringWindowId : uuid; vw_serverReceivedAt : timestamp }.

Record MatchStatePayload : Type := mkMatchState {
  st_activeRound : option MatchRoundState; st_activeScoringWindow : option MatchScoringWindowState; st_athletes : list MatchStateAthlete;
  completion : MatchCompletionCapability; result_ : ResultCapability; exit_ : MatchExitCapability; st_generatedAt : timestamp;
  st_match : MatchStateIdentity; st_presence : PresenceState; readiness : MatchReadiness; viewer_ : option (option ViewedVote) }.

(** [PublicMatchStatePayload]: no ids, no presence, no votes *)
Record PublicAthlete : Type := mkPublicAthlete {
  pa_color : AthleteColor; pa_name : string; pa_organization : option string; pa_athleteImagePath : option string;
  pa_organizationImagePath : option string; pa_score : Z; pa_violations : Z; pa_minor : Z; pa_major : Z }.

Record CommittedScores : Type := mkCommittedScores {
  cs_source : option ScoreSource; cs_attemptNumber : option Z; cs_red : option Z; cs_blue : option Z }.

Record PublicMatchStatePayload : Type := mkPublicState {
  pu_activeRound : option (RoundStage * Z * Z * timestamp * timestamp * option timestamp * option timestamp * option Z);
  pu_intermissionEndsAt : option timestamp; pu_athletes : list PublicAthlete; committedScores : CommittedScores; pu_generatedAt : timestamp;
  pu_publicId : string; pu_currentRound : option Z; pu_finishedAt : option timestamp; pu_lifecycle : MatchLifecycle; pu_phase : MatchStatus;
  pu_rulesVersion : MatchRulesVersion; pu_outcome : option (AthleteColor * MatchOutcomeMethod) }.

(** ** Capabilities *)

Definition reason {A} (b : bool) (r : A) : list A := if b then [r] else [].

(** [breakdown] as a committed adjustment, or as the live score without any *)
Definition renderedScore (base : Z) : SideScore := mkSideScore base 0 0 (finalScore base 0 0).
Definition render (adjustments : list (AthleteColor * AdjustmentRow)) (available : bool) (roundIds : list uuid) (events : list ScoreEventRow)
    (athletes : list MatchAthleteRow) (c : AthleteColor) : option SideScore :=
  match adjustmentFor c adjustments with
  | Some x => Some (sideOfRow x)
  | None =>
      match find_first (fun a => ma_color a === c) athletes with
      | Some a => if available then Some (renderedScore (judgeBaseForRounds (ma_id a) roundIds events)) else None
      | None => None
      end
  end.

(** Every athlete has a captured result in the round. *)
Definition summarized (athletes : list MatchAthleteRow) (results : list RoundResultRow) (roundId : uuid) : bool :=
  forallb (fun a => existsb (fun r => (rr_athleteId r === ma_id a) && (rr_roundId r === roundId)) results) athletes.

Definition commonReasons (m : MatchRow) (unresolved : bool) : list ResultCapabilityBlockedReason :=
  reason (m_lifecycle m === SUSPENDED) RESULT_MATCH_SUSPENDED ++ reason (m_lifecycle m === LIFECYCLE_COMPLETED) RESULT_MATCH_COMPLETED ++
  reason unresolved UNRESOLVED_SCORING_WINDOW.

Definition regulationRoundsOf (rds : list RoundRow) : list RoundRow :=
  List.filter (fun r => (r_stage r === REGULATION) && (r_endedAt r !== None)) rds.
Definition currentOvertimeRound (rds : list RoundRow) : option RoundRow := find_first (fun r => r_stage r === OVERTIME) rds.

Definition noReasons {A} (l : list A) : bool := match l with [] => true | _ => false end.
Definition tied (red blue : option SideScore) : option bool :=
  match red, blue with Some r, Some b => Some (sd_final r === sd_final b) | _, _ => None end.

(** [resultCapability]; an appeal comes with its adjustments. *)
Definition resultCapability (m : MatchRow) (rds : list RoundRow) (unresolved : bool) (appeal : option (list (AthleteColor * AdjustmentRow)))
    (overtimeAppeals : list (AppealRow * list (AthleteColor * AdjustmentRow))) (results : list RoundResultRow) (events : list ScoreEventRow)
    (athletes : list MatchAthleteRow) : ResultCapability :=
  let regulationRoundIds := map r_id (regulationRoundsOf rds) in
  let overtime := currentOvertimeRound rds in
  let hasRegulationSummaries := (Nat.eqb (length regulationRoundIds) 2) && forallb (summarized athletes results) regulationRoundIds in
  let regulationReasons := commonReasons m unresolved ++ reason (negb hasRegulationSummaries) ROUND_SUMMARIES_MISSING ++
    reason (set_ appeal) APPEAL_ALREADY_COMPLETED ++ reason (m_status m !== REGULATION_APPEAL) NOT_REGULATION_APPEAL in
  let otAppeal := match overtime with
    | Some o => find_first (fun x => (ap_sourceRoundId x.1 === r_id o) && (ap_attemptNumber x.1 =? r_attemptNumber o)) overtimeAppeals
    | None => None end in
  let hasOvertimeSummary := match overtime with Some o => summarized athletes results (r_id o) | None => false end in
  let overtimeReasons := commonReasons m unresolved ++ reason (negb hasOvertimeSummary) ROUND_SUMMARIES_MISSING ++
    reason (set_ otAppeal) APPEAL_ALREADY_COMPLETED ++ reason (m_status m !== OVERTIME_APPEAL) NOT_OVERTIME_READY in
  let side := render (default [] appeal) hasRegulationSummaries regulationRoundIds events athletes in
  let overtimeSide := render (match otAppeal with Some x => x.2 | None => [] end) hasOvertimeSummary
    (match overtime with Some o => [r_id o] | None => [] end) events athletes in
  let tieBroken := (m_status m === OVERTIME_TIEBREAK_DECISION) && (tied (overtimeSide RED) (overtimeSide BLUE) === Some true) in
  let publicationReasons := commonReasons m unresolved ++ reason (m_status m !== RESULT_PUBLICATION_READY) NOT_AWAITING_PUBLICATION in
  let source := if set_ (overtimeSide RED) && set_ (overtimeSide BLUE) then Some SOURCE_OVERTIME
                else if set_ (side RED) && set_ (side BLUE) then Some SOURCE_REGULATION else None in
  mkResultCapability
    (mkAppealContext (noReasons regulationReasons) (set_ appeal) regulationReasons (side RED) (side BLUE))
    (option_map (fun o => mkRoundDescriptor OVERTIME (r_roundNumber o) (r_attemptNumber o)) overtime)
    (mkAppealContext (noReasons overtimeReasons) (set_ otAppeal) overtimeReasons (overtimeSide RED) (overtimeSide BLUE))
    (mkTieBreak (m_status m === OVERTIME_READY) tieBroken tieBroken
       (match source with
        | Some SOURCE_OVERTIME => tied (overtimeSide RED) (overtimeSide BLUE)
        | Some SOURCE_REGULATION => tied (side RED) (side BLUE)
        | None => None end))
    (mkPublicationCapability (noReasons publicationReasons) publicationReasons source).

(** The first listed round of a number has ended. *)
Definition firstEnded (n : Z) (rds : list RoundRow) : bool :=
  match find_first (fun r => r_roundNumber r =? n) rds with Some r => r_endedAt r !== None | None => false end.

(** [completionCapability] *)
Definition completionCapability (m : MatchRow) (rds : list RoundRow) (unresolved : bool) : MatchCompletionCapability :=
  let blocked := reason (m_lifecycle m === LIFECYCLE_COMPLETED) COMPLETION_ALREADY_COMPLETED ++
    reason (m_lifecycle m === SUSPENDED) COMPLETION_MATCH_SUSPENDED ++ reason (negb (firstEnded 1 rds)) COMPLETION_ROUND_1_NOT_ENDED ++
    reason (negb (firstEnded 2 rds)) COMPLETION_ROUND_2_NOT_ENDED ++ reason unresolved COMPLETION_UNRESOLVED_SCORING_WINDOW ++
    reason (m_status m !== AWAITING_RESULT_SAVE) NOT_AWAITING_RESULT_SAVE in
  mkCompletionCapability (noReasons blocked) blocked.

(** [exitCapability] *)
Definition exitCapability (m : MatchRow) (rds : list RoundRow) (unresolved : bool) : MatchExitCapability :=
  if m_lifecycle m === LIFECYCLE_COMPLETED then mkExitCapability false [] [EXIT_ALREADY_COMPLETED] else
  let roundOneEnded := existsb (endedRound 1) rds in
  let roundTwoEnded := existsb (endedRound 2) rds in
  let keepOne := roundOneEnded && negb unresolved in
  let keepTwo := roundTwoEnded && negb unresolved in
  mkExitCapability true
    ([CANCEL_RESULTS] ++ reason (retainableV2Phase (m_status m)) SUSPEND_KEEP_V2_PHASE ++ reason keepOne SUSPEND_KEEP_ROUND_1 ++
     reason keepTwo SUSPEND_KEEP_ROUNDS_1_AND_2)
    (reason (negb keepOne && negb roundOneEnded) EXIT_ROUND_1_NOT_ENDED ++
     (if negb keepTwo && roundOneEnded then [if unresolved then EXIT_UNRESOLVED_SCORING_WINDOW else EXIT_ROUND_2_NOT_ENDED] else [])).

(** ** Presence and readiness *)

Definition ACCESS_ROLES : list MatchAccessRole := [ACCESS_JUDGE_1; ACCESS_JUDGE_2; ACCESS_JUDGE_3; ACCESS_SUPERVISOR].

(** An owner of an access code of the match, at a time. *)
Definition activeOwner (matchId : uuid) (now : timestamp) (s : SessionRow) : bool :=
  (ms_matchId s === matchId) && ms_active s && (ms_revokedAt s === None) && match ms_expiresAt s with Some e => now <? e | None => false end.
Definition activeOfficialSession (officialId : uuid) (now : timestamp) (s : OfficialSessionRow) : bool :=
  (os_officialId s === officialId) && os_active s && (os_revokedAt s === None) && match os_expiresAt s with Some e => now <? e | None => false end.

Definition accessEntry (net : Presence) (publicId : string) (activeRoles : list MatchAccessRole) (role : MatchAccessRole) : MatchPresenceEntry :=
  let n := connectedSocketCount net publicId role in
  mkPresenceEntry role (existsb (fun r => r === role) activeRoles) (0 <? n) n.

Definition officialEntry (net : Presence) (now : timestamp) (publicId : string) (a : AssignmentRow) : DbM MatchOfficialPresenceEntry :=
  official ← find_one_or_throw tournamentOfficials (fun o => tf_id o === oa_officialId a);
  sessions ← find_many tournamentOfficialSessions (activeOfficialSession (oa_officialId a) now);
  let n := officialConnectedSocketCount net publicId (oa_officialId a) in
  mret (mkOfficialPresence (negb (bool_decide (length sessions = 0%nat))) (0 <? n) n (tf_name official) (oa_officialId a) (oa_judgePosition a) (oa_role a)).

Fixpoint mapDb {A B} (f : A -> DbM B) (l : list A) : DbM (list B) :=
  match l with
  | [] => mret []
  | a :: l => b ← f a; bs ← mapDb f l; mret (b :: bs)
  end.

(** The role of the access code of an owner, a required relation. *)
Definition ownerRole (s : SessionRow) : DbM MatchAccessRole :=
  c ← find_one_or_throw matchAccessCodes (fun c => ac_id c === ms_accessCodeId s); mret (ac_role c).

(** [presence] *)
Definition presence (net : Presence) (now : timestamp) (matchId : uuid) (publicId : string) : DbM PresenceState :=
  owners ← find_many matchSessions (activeOwner matchId now);
  activeRoles ← mapDb ownerRole owners;
  assignments ← find_many matchOfficialAssignments (activeAssignment matchId);
  m ← find_one_or_throw matches (fun m => m_id m === matchId);
  entries ← mapDb (officialEntry net now publicId) (crewOrder assignments);
  mret (mkPresenceState entries (map (accessEntry net publicId activeRoles) ACCESS_ROLES) (scoreboardConnectedCount net publicId) (m_requiredJudgeCount m)).

(** A requirement that is missing *)
Definition gap (b : bool) (requirement : string) : list string := reason b requirement.

(** [officialReadinessFromPresence] *)
Definition officialReadinessFromPresence (p : PresenceState) : bool * StartReadiness :=
  let rs := map (fun x => mkRefereeReadiness (op_officialId x) (op_name x) (default 0 (op_judgePosition x)) (op_connected x))
              (List.filter (fun x => op_role x === OFFICIAL_JUDGE) (officials p)) in
  let insp := match List.filter (fun x => op_role x === OFFICIAL_SUPERVISOR) (officials p) with
              | [x] => Some (op_officialId x, op_connected x) | _ => None end in
  let missing := gap (negb (set_ insp)) "SUPERVISOR_ASSIGNMENT" ++
    gap (negb match insp with Some (_, c) => c | None => false end) "SUPERVISOR_DISCONNECTED" ++
    gap (negb (Z.of_nat (length rs) =? ps_requiredJudgeCount p)) "JUDGE_ASSIGNMENTS" ++
    gap (existsb (fun x => negb (rf_connected x)) rs) "JUDGE_DISCONNECTED" ++
    gap (ps_scoreboards p <? 1) "SCOREBOARD" in
  (noReasons missing, mkStartReadiness (ps_requiredJudgeCount p) (Z.of_nat (length rs)) (Z.of_nat (length (List.filter rf_connected rs))) rs insp missing
     (ps_scoreboards p)).

(** [connectedRoles.has(role)] *)
Definition roleConnected (p : PresenceState) (role : MatchAccessRole) : bool :=
  existsb (fun e => pe_connected e && (pe_accessRole e === role)) (presence_ p).

(** [readinessFromPresence] *)
Definition readinessFromPresence (p : PresenceState) : MatchReadiness :=
  match officials p with
  | [] =>
      let judge1 := roleConnected p ACCESS_JUDGE_1 in
      let judge2 := roleConnected p ACCESS_JUDGE_2 in
      let judge3 := roleConnected p ACCESS_JUDGE_3 in
      let missing := gap (negb (roleConnected p ACCESS_SUPERVISOR)) "SUPERVISOR" ++
        gap (negb (ps_requiredJudgeCount p =? 3)) "JUDGE_ASSIGNMENTS" ++ gap (negb (judge1 && judge2 && judge3)) "REFEREES" ++
        gap (ps_scoreboards p <? 1) "SCOREBOARD" in
      LEGACY_MATCH_ACCESS (noReasons missing) missing (ps_requiredJudgeCount p) judge1 judge2 judge3 (ps_scoreboards p)
  | _ => let '(ready, details) := officialReadinessFromPresence p in TOURNAMENT_OFFICIALS ready details
  end.

Definition MATCH_NOT_FOUND : error := NotFound "Match not found".

(** [startReadiness]: the official view whatever the match uses. *)
Definition startReadiness (net : Presence) (now : timestamp) (matchId : uuid) (publicId : string) : DbM StartReadiness :=
  p ← presence net now matchId publicId; mret (officialReadinessFromPresence p).2.

(** [presenceUpdatedForPublicMatch]; [presenceUpdated] is its last line. *)
Definition presenceUpdatedForPublicMatch (net : Presence) (now : timestamp) (publicId : string) : DbM (string * PresenceState * timestamp) :=
  found ← find_one matches (fun m => m_publicId m === publicId);
  m ← or_throw found MATCH_NOT_FOUND;
  p ← presence net now (m_id m) publicId;
  mret (publicId, p, now).

(** ** Rounds, windows and votes *)

Definition runningOrPaused (s : MatchStatus) : bool :=
  existsb (fun x => s === x) [ROUND_1_RUNNING; ROUND_1_PAUSED; ROUND_2_RUNNING; ROUND_2_PAUSED; OVERTIME_RUNNING; OVERTIME_PAUSED].

(** The stage a status plays. *)
Definition statusStage (s : MatchStatus) : RoundStage := if (s === OVERTIME_RUNNING) || (s === OVERTIME_PAUSED) then OVERTIME else REGULATION.

(** [activeRound]; the state it builds is the one the lifecycle commands answer with. *)
Definition activeRound (m : MatchRow) (open : list RoundRow) : DbM (option MatchRoundState) :=
  if negb (runningOrPaused (m_status m)) then mret None else
  match find_first (fun r => (m_currentRound m === Some (r_roundNumber r)) && (r_stage r === statusStage (m_status m))) open with
  | None => mret None
  | Some r => s ← sharedRound r; mret (Some s)
  end.

(** [scoringWindowState] *)
Definition scoringWindowState (w : WindowRow) : DbM MatchScoringWindowState :=
  round ← gets (fun d => r ← w_roundId w; find_first (fun x => r_id x === r) (db_rounds d));
  round ← or_throw round (InternalError "Scoring window is missing its round descriptor");
  throw_if ((r_stage round === REGULATION) && negb (w_roundNumber w =? 1) && negb (w_roundNumber w =? 2))
    (InternalError "Unsupported scoring window round number");;
  mret (mkWindowState (w_id w) (r_stage round) (w_roundNumber w) (if r_stage round === REGULATION then 0 else r_attemptNumber round)
          (w_startedAt w) (w_endsAt w)).

(** [viewerState] *)
Definition viewerState (viewer : option Viewer) (unresolved : option WindowRow) (publicId : string) : DbM (option (option ViewedVote)) :=
  match viewer, unresolved with
  | None, _ => mret None
  | Some _, None | Some (ViewerLegacy None), _ => mret (Some None)
  | Some v, Some w =>
      vote ← find_one judgeVotes (fun x => (v_scoringWindowId x === w_id w) &&
               match v with ViewerOfficial a _ => v_assignmentId x === Some a | ViewerLegacy s => v_judgeSlot x === s end);
      mret (Some (option_map (fun x => mkViewedVote (v_athleteColor x) v publicId (w_id w) (v_serverReceivedAt x)) vote))
  end.

(** ** Athletes *)

Definition projectionOf (id : uuid) (l : list AthleteProjection) : option AthleteProjection := find_first (fun p => pj_athleteId p === id) (rev l).

Definition faultsOf (validRoundIds : list uuid) (severity : FaultSeverity) (id : uuid) (l : list FaultRow) : Z :=
  Z.of_nat (length (List.filter (fun f => validFault validRoundIds f && (f_athleteId f === id) && (f_severity f === severity)) l)).

Definition athleteImages (a : MatchAthleteRow) (d : DB) : option string * option string :=
  match ma_athleteId a with
  | None => (None, None)
  | Some i =>
      match find_first (fun x => at_id x === i) (db_tournamentAthletes d) with
      | None => (None, None)
      | Some x => (at_imagePath x, o ← at_organizationId x; og ← find_first (fun g => og_id g === o) (db_tournamentOrganizations d); og_imagePath og)
      end
  end.

(** One entry of [athletes] *)
Definition stateAthlete (m : MatchRow) (events : list ScoreEventRow) (penaltyRows : list PenaltyRow) (faultRows : list FaultRow)
    (canonical : list AthleteProjection) (validRoundIds : list uuid) (d : DB) (a : MatchAthleteRow) : MatchStateAthlete :=
  let current := m_rulesVersion m === FAULT_APPEAL_OVERTIME_V2 in
  let projection := projectionOf (ma_id a) canonical in
  let violations := Z.of_nat (length (List.filter (fun p => p_athleteId p === ma_id a) penaltyRows)) in
  let faultCount := default 0 (option_map pj_faultCount projection) in
  mkStateAthlete (ma_color a) (ma_id a) (ma_name a) (ma_organization a) (athleteImages a d).1 (athleteImages a d).2
    (if current then default 0 (option_map pj_refereeScore projection)
     else sum_by e_value (List.filter (fun e => (e_athleteId e === ma_id a) && (e_revertedAt e === None)) events))
    (if current then faultCount else violations + faultCount)
    (faultsOf validRoundIds MINOR (ma_id a) faultRows + (if current then 0 else violations))
    (faultsOf validRoundIds MAJOR (ma_id a) faultRows).

(** ** The snapshot *)

(** The valid rounds of the match, the latest attempt of a stage first. *)
Definition validRounds (matchId : uuid) (d : DB) : list RoundRow :=
  sort_by (fun r => match r_stage r with REGULATION => 0 | OVERTIME => 1 end)
    (sort_by (fun r => - r_attemptNumber r) (List.filter (fun r => (r_invalidatedAt r === None) && (r_matchId r === matchId)) (db_rounds d))).

Definition unresolvedOf (matchId : uuid) (d : DB) : option WindowRow :=
  min_by w_startedAt (List.filter (unresolvedWindow matchId) (db_scoringWindows d)).

(** The committed appeal on regulation, and those on overtime, with their adjustments *)
Definition regulationAppealOf (matchId : uuid) (d : DB) : option (list (AthleteColor * AdjustmentRow)) :=
  option_map (fun a => adjustmentsOf (ap_id a) d)
    (find_first (fun a => completedAppeal matchId a && (ap_scope a === SCOPE_REGULATION) && (ap_attemptNumber a =? 0) &&
       sourceRoundIs (fun t => t === None) d a) (db_matchAppeals d)).
Definition overtimeAppealsOf (matchId : uuid) (d : DB) : list (AppealRow * list (AthleteColor * AdjustmentRow)) :=
  map (fun a => (a, adjustmentsOf (ap_id a) d))
    (List.filter (fun a => completedAppeal matchId a && (ap_scope a === SCOPE_OVERTIME)) (db_matchAppeals d)).

Definition resultsOf (matchId : uuid) (d : DB) : list RoundResultRow :=
  List.filter (fun r => (rr_matchId r === matchId) && (rr_invalidatedAt r === None)) (db_roundAthleteResults d).
Definition eventsOf (matchId : uuid) (d : DB) : list ScoreEventRow := List.filter (fun e => e_matchId e === matchId) (db_scoreEvents d).

Definition resultOf (m : MatchRow) (athletes : list MatchAthleteRow) (d : DB) : ResultCapability :=
  resultCapability m (validRounds (m_id m) d) (set_ (unresolvedOf (m_id m) d)) (regulationAppealOf (m_id m) d) (overtimeAppealsOf (m_id m) d)
    (resultsOf (m_id m) d) (eventsOf (m_id m) d) athletes.

(** [snapshot] *)
Definition snapshot (net : Presence) (now : timestamp) (matchId : uuid) (viewer : option Viewer) : DbM MatchStatePayload :=
  found ← find_one matches (fun m => m_id m === matchId);
  m ← or_throw found MATCH_NOT_FOUND;
  athletes ← athletesByColor matchId;
  openRounds ← find_many rounds (fun r => (r_matchId r === matchId) && (r_endedAt r === None) && (r_invalidatedAt r === None));
  penaltyRows ← find_many penalties (fun p => (p_matchId p === matchId) && (p_revertedAt p === None));
  faultRows ← find_many faults (fun f => f_matchId f === matchId);
  presenceState ← presence net now matchId (m_publicId m);
  unresolved ← gets (unresolvedOf matchId);
  valid ← gets (validRounds matchId);
  events ← gets (eventsOf matchId);
  let canonical := calculateMatchScoreProjection athletes faultRows events (map r_id valid) in
  round ← activeRound m (sort_by (fun r => - r_roundNumber r) openRounds);
  window ← match unresolved with Some w => s ← scoringWindowState w; mret (Some s) | None => mret None end;
  viewer ← viewerState viewer unresolved (m_publicId m);
  result ← gets (resultOf m athletes);
  rows ← gets (fun d => map (stateAthlete m events penaltyRows faultRows canonical (map r_id valid) d) athletes);
  mret (mkMatchState round window rows (completionCapability m valid (set_ unresolved)) result (exitCapability m valid (set_ unresolved)) now
    (mkStateIdentity (m_currentRound m) (m_finishedAt m) (m_id m) (m_publicId m) (m_lifecycle m) (m_status m) (m_rulesVersion m) (m_startedAt m)
       (m_intermissionEndsAt m))
    presenceState (readinessFromPresence presenceState) viewer).

(** ** The public snapshot *)

(** [committedScores] *)
Definition committedScoresOf (r : ResultCapability) : CommittedScores :=
  let overtime := set_ (currentOvertimeAttempt r) && committed (overtimeAppeal r) in
  let side (f : AppealResultContext -> option SideScore) := option_map sd_final (f (if overtime then overtimeAppeal r else regulationAppeal r)) in
  mkCommittedScores
    (if overtime && set_ (ax_red (overtimeAppeal r)) && set_ (ax_blue (overtimeAppeal r)) then Some SOURCE_OVERTIME
     else if committed (regulationAppeal r) && set_ (ax_red (regulationAppeal r)) && set_ (ax_blue (regulationAppeal r)) then Some SOURCE_REGULATION
     else None)
    (if committed (overtimeAppeal r) then option_map rd_attemptNumber (currentOvertimeAttempt r) else None)
    (side ax_red) (side ax_blue).

(** [toPublicSnapshot] *)
Definition toPublicSnapshot (s : MatchStatePayload) (outcome : option (AthleteColor * MatchOutcomeMethod)) : PublicMatchStatePayload :=
  mkPublicState
    (option_map (fun r => (rs_stage r, rs_roundNumber r, Lifecycle.rs_attemptNumber r, rs_startedAt r, rs_endsAt r, rs_endedAt r, rs_pausedAt r,
       rs_remainingDurationMs r)) (st_activeRound s))
    (mi_intermissionEndsAt (st_match s))
    (map (fun a => mkPublicAthlete (sa_color a) (sa_name a) (sa_organization a) (sa_athleteImagePath a) (sa_organizationImagePath a) (sa_score a)
       (sa_violations a) (sa_minor a) (sa_major a)) (st_athletes s))
    (committedScoresOf (result_ s)) (st_generatedAt s) (mi_publicId (st_match s)) (mi_currentRound (st_match s)) (mi_finishedAt (st_match s))
    (mi_lifecycle (st_match s)) (mi_phase (st_match s)) (mi_rulesVersion (st_match s)) outcome.

(** [publicSnapshot] *)
Definition publicSnapshot (net : Presence) (now : timestamp) (publicMatchId : string) : DbM PublicMatchStatePayload :=
  found ← find_one matches (fun m => m_publicId m === publicMatchId);
  m ← or_throw found MATCH_NOT_FOUND;
  s ← snapshot net now (m_id m) None;
  outcome ← find_one matchOutcomes (fun o => oc_matchId o === m_id m);
  mret (toPublicSnapshot s (option_map (fun o => (oc_winnerColor o, oc_method o)) outcome)).

(** ** Facts *)

Lemma noReasons_reason {A} b (r : A) l : noReasons (reason b r ++ l) = negb b && noReasons l.
Proof. destruct b; reflexivity. Qed.
Lemma noReasons_last {A} b (r : A) : noReasons (reason b r) = negb b.
Proof. destruct b; reflexivity. Qed.

Section Reads.
Context (R : DB -> DB -> Prop) `{!PreOrder R}.

Lemma respects_mapDb {A B} (f : A -> DbM B) l : (forall a, respects R (f a)) -> respects R (mapDb f l).
Proof. intros Hf; induction l as [| a l IH]; cbn; respects_auto. Qed.
Lemma respects_presence net now m p : respects R (presence net now m p).
Proof.
  unfold presence; respects_auto; [apply respects_mapDb; intros x; unfold ownerRole; respects_auto |].
  apply respects_mapDb; intros x; unfold officialEntry; respects_auto.
Qed.
Lemma respects_activeRound m l : respects R (activeRound m l).
Proof. unfold activeRound; respects_auto. Qed.
Lemma respects_scoringWindowState w : respects R (scoringWindowState w).
Proof. unfold scoringWindowState; respects_auto. Qed.
Lemma respects_viewerState v w p : respects R (viewerState v w p).
Proof. unfold viewerState; respects_auto. Qed.
End Reads.
#[export] Hint Resolve respects_presence respects_activeRound respects_scoringWindowState respects_viewerState : tx.

(** What a snapshot is made of; it reads only. *)
Lemma snapshot_ok net now id v d s d' : snapshot net now id v d = Ok (s, d') ->
  exists m athletes, d' = d /\ find_first (fun m => m_id m === id) (db_matches d) = Some m /\ athletesByColor id d = Ok (athletes, d) /\
    completion s = completionCapability m (validRounds id d) (set_ (unresolvedOf id d)) /\
    exit_ s = exitCapability m (validRounds id d) (set_ (unresolvedOf id d)) /\ result_ s = resultOf m athletes d /\
    presence net now id (m_publicId m) d = Ok (st_presence s, d) /\ readiness s = readinessFromPresence (st_presence s).
Proof.
  intros H; unfold snapshot in H.
  apply bind_ok in H as (o & d2 & Ho & H); apply gets_ok in Ho as [-> ->].
  apply bind_ok in H as (m & d3 & Hm & H); apply or_throw_ok in Hm as [Em ->].
  apply bind_ok in H as (athletes & d4 & Ha & H); reads.
  apply bind_ok in H as (open & d5 & Hx & H); apply gets_ok in Hx as [-> ->].
  apply bind_ok in H as (pens & d6 & Hx & H); apply gets_ok in Hx as [-> ->].
  apply bind_ok in H as (flts & d7 & Hx & H); apply gets_ok in Hx as [-> ->].
  apply bind_ok in H as (p & d8 & Hp & H); reads.
  apply bind_ok in H as (un & d9 & Hx & H); apply gets_ok in Hx as [-> ->].
  apply bind_ok in H as (vr & d10 & Hx & H); apply gets_ok in Hx as [-> ->].
  apply bind_ok in H as (ev & d11 & Hx & H); apply gets_ok in Hx as [-> ->].
  apply bind_ok in H as (round & d12 & Hx & H); reads.
  apply bind_ok in H as (win & d13 & Hy & H); reads.
  apply bind_ok in H as (vw & d14 & Hz & H); reads.
  apply bind_ok in H as (res & d15 & Hw & H); apply gets_ok in Hw as [-> ->].
  apply bind_ok in H as (rows & d16 & Hw & H); apply gets_ok in Hw as [-> ->].
  apply ret_ok in H as [Es Ed]; subst; eexists _, _; split_and!; eauto.
Qed.

Lemma validRounds_perm id d :
  Permutation (validRounds id d) (List.filter (fun r => (r_invalidatedAt r === None) && (r_matchId r === id)) (db_rounds d)).
Proof. unfold validRounds; rewrite !sort_by_perm; reflexivity. Qed.

Lemma existsb_perm {A} (p : A -> bool) l l' : Permutation l l' -> existsb p l = existsb p l'.
Proof.
  intros H; apply eq_true_iff_eq; rewrite !existsb_exists.
  split; intros (x & Hx & Hp); exists x; split; auto; eapply Permutation_in; [exact H | exact Hx | symmetry; exact H | exact Hx].
Qed.

Lemma endedRound_valid n id d :
  existsb (endedRound n) (validRounds id d) =
  existsb (endedRound n) (List.filter (fun r => (r_invalidatedAt r === None) && (r_matchId r === id)) (db_rounds d)).
Proof. apply existsb_perm, validRounds_perm. Qed.

Lemma min_by_set {A} (key : A -> Z) l : set_ (min_by key l) = negb (bool_decide (l = [])).
Proof. destruct l as [| x l]; [reflexivity |]; cbn; destruct (min_by key l); [destruct (_ <? _) |]; reflexivity. Qed.

Lemma find_first_set {A} (p : A -> bool) l : set_ (find_first p l) = negb (bool_decide (List.filter p l = [])).
Proof. induction l as [| x l IH]; [reflexivity |]; cbn; destruct (p x); [reflexivity | exact IH]. Qed.

(** The window the snapshot reports is there exactly when the commands find one. *)
Lemma unresolvedOf_set id d : set_ (unresolvedOf id d) = set_ (find_first (unresolvedWindow id) (db_scoringWindows d)).
Proof. unfold unresolvedOf; rewrite min_by_set, find_first_set; reflexivity. Qed.

(** ** Exits *)

Definition offered (mode : MatchExitMode) (s : MatchStatePayload) : bool := existsb (fun x => x === mode) (allowedModes (exit_ s)).

(** The guard of [exitMatch] is the offer of the snapshot, except that keeping both rounds also needs the
    first one. *)
Lemma exit_guard m rds unresolved mode : (m_lifecycle m === LIFECYCLE_COMPLETED) || (m_status m === FINISHED) = false ->
  let allowed mode := existsb (fun x => x === mode) (allowedModes (exitCapability m rds unresolved)) in
  negb (exitRefused mode (m_status m) (existsb (endedRound 1) rds) (existsb (endedRound 2) rds) unresolved) =
  allowed mode && ((mode !== SUSPEND_KEEP_ROUNDS_1_AND_2) || allowed SUSPEND_KEEP_ROUND_1).
Proof.
  intros Hl; apply orb_false_elim in Hl as [Hl _]; unfold exitCapability, exitRefused; cbv zeta; rewrite Hl; cbn [allowedModes].
  destruct (retainableV2Phase _), (existsb (endedRound 1) rds), (existsb (endedRound 2) rds), unresolved, mode; reflexivity.
Qed.

(** C13: The exits a client is offered are the ones accepted: for a supervisor in charge, leaving a match in a
    mode goes through exactly when the snapshot lists the mode (and, for keeping both rounds, keeping the
    first one as well), and is refused as an invalid state otherwise. *)
Theorem exits_offered_as_accepted net now id v clk i mode d s r (H : snapshot net now id v d = Ok (s, d))
    (Hr : rulesForMatch id d = Ok (r, d)) (Ha : lockActiveSupervisorIdentity clk id i d = Ok (tt, d))
    (Hp : forall m, In m (db_matches d) -> phase_ok (m_rulesVersion m) (phase (m_lifecycle m) (m_status m) (m_currentRound m)) = true) :
  exists m, find_first (fun m => m_id m === id) (db_matches d) = Some m /\
    exitMatch clk id i mode d =
      if offered mode s && ((mode !== SUSPEND_KEEP_ROUNDS_1_AND_2) || offered SUSPEND_KEEP_ROUND_1 s) then applyExit clk id m i mode d
      else Err (InvalidResultCancellationState (m_status m)).
Proof.
  apply snapshot_ok in H as (m & athletes & _ & Em & _ & _ & Ex & _); exists m; split; [exact Em |].
  unfold exitMatch, offered; rewrite (bind_step _ _ _ _ _ (lockMatch_total _ _ _ _ Em)), (bind_step _ _ _ _ _ Hr), (bind_step _ _ _ _ _ Ha).
  rewrite (bind_step _ _ _ _ _ (find_one_or_throw_total matches _ d m Em)), Ex.
  assert (Hf : eqb (m_lifecycle m === LIFECYCLE_COMPLETED) (m_status m === FINISHED) = true).
  { apply find_first_some in Em as [Hin _]; specialize (Hp m Hin); unfold phase_ok in Hp; cbn in Hp; to_prop; assumption. }
  destruct ((m_lifecycle m === LIFECYCLE_COMPLETED) || (m_status m === FINISHED)) eqn:El.
  - assert (Hl : m_lifecycle m === LIFECYCLE_COMPLETED = true) by (destruct (m_lifecycle m === _), (m_status m === _); auto).
    rewrite (bind_err _ _ _ (InvalidResultCancellationState (m_status m))) by reflexivity.
    unfold exitCapability; rewrite Hl; reflexivity.
  - rewrite (bind_step _ _ _ tt d) by reflexivity; unfold find_many, find_one.
    rewrite (bind_step _ _ _ _ d eq_refl), (bind_step _ _ _ _ d eq_refl), <- (exit_guard _ _ _ mode El), unresolvedOf_set, !endedRound_valid.
    change (get scoringWindows d) with (db_scoringWindows d).
    match goal with |- (throw_if ?b _ ≫= _) _ = (if negb ?c then _ else _) => change c with b; destruct b; reflexivity end.
Qed.

(** ** Readiness *)

Lemma mapDb_ok {A B} (f : A -> DbM B) d : (forall a, respects eq (f a)) -> forall l bs d', mapDb f l d = Ok (bs, d') ->
  d' = d /\ Forall2 (fun a b => f a d = Ok (b, d)) l bs.
Proof.
  intros Hf; induction l as [| a l IH]; intros bs d' H; cbn in H; [apply ret_ok in H as [<- <-]; auto |].
  apply bind_ok in H as (b & d1 & H1 & H); pose proof (Hf a _ _ _ H1) as E; subst d1.
  apply bind_ok in H as (bs' & d1 & H2 & H); apply IH in H2 as [-> H2]; apply ret_ok in H as [<- <-]; auto.
Qed.

(** What readiness looks at of an assignment. *)
Definition shows (net : Presence) (publicId : string) (a : AssignmentRow) (e : MatchOfficialPresenceEntry) : Prop :=
  op_role e = oa_role a /\ op_connected e = negb (officialConnectedSocketCount net publicId (oa_officialId a) <? 1).

Lemma presence_ok net now id p d st d' : presence net now id p d = Ok (st, d') ->
  exists m activeRoles, find_first (fun m => m_id m === id) (db_matches d) = Some m /\ ps_requiredJudgeCount st = m_requiredJudgeCount m /\
    ps_scoreboards st = scoreboardConnectedCount net p /\ presence_ st = map (accessEntry net p activeRoles) ACCESS_ROLES /\
    Forall2 (shows net p) (crewOrder (List.filter (activeAssignment id) (db_matchOfficialAssignments d))) (officials st).
Proof.
  intros H; unfold presence in H.
  apply bind_ok in H as (ow & d1 & Ho & H); apply gets_ok in Ho as [Eo ->].
  apply bind_ok in H as (roles & d2 & Hr & H); apply mapDb_ok in Hr as [-> _]; [| intros x; unfold ownerRole; respects_auto].
  apply bind_ok in H as (l & d3 & Hl & H); apply gets_ok in Hl as [El Ed]; subst l d3.
  apply bind_ok in H as (m & d4 & Hm & H); apply (find_one_or_throw_ok matches) in Hm as [Hm ->].
  apply bind_ok in H as (es & d5 & He & H); apply mapDb_ok in He as [-> He]; [| intros x; unfold officialEntry; respects_auto].
  apply ret_ok in H as [<- _]; exists m, roles; cbn; split_and!; auto; eapply Forall2_impl; [| exact He]; clear.
  intros a e H; unfold officialEntry in H; apply bind_ok in H as (o & d1 & _ & H); apply bind_ok in H as (ss & d2 & _ & H).
  apply ret_ok in H as [<- _]; split; cbn; [reflexivity |]; rewrite <- Z.leb_antisym; apply eq_true_iff_eq; rewrite Z.ltb_lt, Z.leb_le; lia.
Qed.

Lemma crewOrder_perm l : Permutation (crewOrder l) l.
Proof. unfold crewOrder; rewrite !sort_by_perm; reflexivity. Qed.

Lemma filter_perm {A} (p : A -> bool) l l' : Permutation l l' -> Permutation (List.filter p l) (List.filter p l').
Proof. induction 1; cbn; repeat case_match; eauto using Permutation. Qed.

Lemma shows_filter net p role l es : Forall2 (shows net p) l es ->
  Forall2 (shows net p) (List.filter (fun a => oa_role a === role) l) (List.filter (fun e => op_role e === role) es).
Proof.
  induction 1 as [| a e l es [Hr Hc] _ IH]; cbn; [constructor |]; rewrite Hr; destruct (oa_role a === role); [constructor |]; auto; split; auto.
Qed.
Lemma shows_connected net p l es : Forall2 (shows net p) l es ->
  existsb (fun e => negb (op_connected e)) es = existsb (fun a => officialConnectedSocketCount net p (oa_officialId a) <? 1) l.
Proof. induction 1 as [| a e l es [_ Hc] _ IH]; cbn; [reflexivity |]; rewrite Hc, negb_involutive, IH; reflexivity. Qed.

Lemma existsb_roles (f : AssignmentRow -> bool) l : existsb f l =
  existsb f (List.filter (fun a => oa_role a === OFFICIAL_SUPERVISOR) l) || existsb f (List.filter (fun a => oa_role a === OFFICIAL_JUDGE) l).
Proof.
  induction l as [| a l IH]; cbn; [reflexivity |]; rewrite IH; destruct (oa_role a); decide_consts_goal; cbn [existsb];
    destruct (f a), (existsb f (List.filter (fun a => oa_role a === OFFICIAL_SUPERVISOR) l)); reflexivity.
Qed.

Lemma existsb_map {A B} (g : A -> B) (p : B -> bool) l : existsb p (map g l) = existsb (fun x => p (g x)) l.
Proof. induction l as [| x l IH]; cbn; congruence. Qed.

Lemma NoDup_map_filter {A B} (f : A -> B) (p : A -> bool) l : NoDup (map f l) -> NoDup (map f (List.filter p l)).
Proof.
  induction l as [| a l IH]; cbn; [auto |]; intros [Hni Hnd]%list.NoDup_cons; destruct (p a); [| auto].
  cbn; apply list.NoDup_cons; split; [| auto]; rewrite list_elem_of_In, in_map_iff in *; intros (x & E & Hx); apply filter_In in Hx as [Hx _]; eauto.
Qed.

(** The readiness of a crew is the condition of the start. *)
Lemma official_ready net p l st : Forall2 (shows net p) (crewOrder l) (officials st) -> NoDup (map oa_officialId l) ->
  ps_scoreboards st = scoreboardConnectedCount net p ->
  (officialReadinessFromPresence st).1 = officialsReady net p (ps_requiredJudgeCount st) l.
Proof.
  intros Hs Hnd Hsb; unfold officialReadinessFromPresence, officialsReady, gap; cbn [fst].
  pose proof (shows_filter _ _ OFFICIAL_SUPERVISOR _ _ Hs) as H1; pose proof (shows_filter _ _ OFFICIAL_JUDGE _ _ Hs) as H2.
  rewrite !noReasons_reason, noReasons_last, length_map, existsb_map, !negb_involutive, Hsb; cbn [rf_connected].
  rewrite (shows_connected _ _ _ _ H2), (existsb_roles _ l).
  assert (Hp : forall role, Permutation (List.filter (fun a => oa_role a === role) (crewOrder l)) (List.filter (fun a => oa_role a === role) l)).
  { intros role; apply filter_perm, crewOrder_perm. }
  rewrite <- (Forall2_length H2), (Permutation_length (Hp OFFICIAL_JUDGE)), (existsb_perm _ _ _ (Hp OFFICIAL_JUDGE)).
  rewrite <- (Permutation_length (Hp OFFICIAL_SUPERVISOR)), <- (existsb_perm _ _ _ (Hp OFFICIAL_SUPERVISOR)).
  rewrite (nodup_fixed_point N.eq_dec), length_map.
  2: { apply NoDup_ListNoDup, NoDup_map_filter, Hnd. }
  set (big := existsb _ (List.filter (fun a => oa_role a === OFFICIAL_JUDGE) l)).
  destruct (Z.of_nat (length (List.filter (fun a => oa_role a === OFFICIAL_JUDGE) l)) =? ps_requiredJudgeCount st); cbn [andb];
    rewrite ?andb_false_r; cbn [andb]; try reflexivity.
  destruct H1 as [| a e ls es [_ Hc] H1]; [reflexivity |]; destruct H1 as [| a' e' ls es]; cbn [set_ length Z.of_nat].
  - cbn [existsb]; rewrite Hc, orb_false_r, andb_true_l; destruct (_ <? 1), big, (scoreboardConnectedCount net p <? 1); reflexivity.
  - cbn [andb]; symmetry; rewrite (proj2 (Z.eqb_neq _ _)) by lia; reflexivity.
Qed.

Lemma legacy_ready net p roles st : presence_ st = map (accessEntry net p roles) ACCESS_ROLES -> officials st = [] ->
  ps_scoreboards st = scoreboardConnectedCount net p ->
  (match readinessFromPresence st with LEGACY_MATCH_ACCESS b _ _ _ _ _ _ | TOURNAMENT_OFFICIALS b _ => b end) = legacyRolesReady net p (ps_requiredJudgeCount st).
Proof.
  intros Hp Ho Hs; unfold readinessFromPresence, roleConnected, legacyRolesReady, gap; rewrite Ho, Hp, Hs.
  assert (Hlt : forall n, 0 <? n = negb (n <? 1)) by (intros n; rewrite <- Z.leb_antisym; apply eq_true_iff_eq; rewrite Z.ltb_lt, Z.leb_le; lia).
  cbn [map existsb ACCESS_ROLES accessEntry pe_connected pe_accessRole]; decide_consts_goal.
  rewrite !noReasons_reason, noReasons_last, !Hlt, !andb_true_r, !andb_false_r, !orb_false_r, !orb_false_l.
  destruct (connectedSocketCount net p ACCESS_SUPERVISOR <? 1), (connectedSocketCount net p ACCESS_JUDGE_1 <? 1), (connectedSocketCount net p ACCESS_JUDGE_2 <? 1),
    (connectedSocketCount net p ACCESS_JUDGE_3 <? 1), (ps_requiredJudgeCount st =? 3), (scoreboardConnectedCount net p <? 1); reflexivity.
Qed.

Definition canStart (r : MatchReadiness) : bool := match r with LEGACY_MATCH_ACCESS b _ _ _ _ _ _ | TOURNAMENT_OFFICIALS b _ => b end.

Lemma active_officials_distinct id d : wf d ->
  NoDup (map oa_officialId (List.filter (activeAssignment id) (db_matchOfficialAssignments d))).
Proof.
  intros Hwf; specialize (Hwf matchOfficialAssignments); apply table_ok_true in Hwf as (_ & _ & Hix); cbn [indexes_ok get] in Hix.
  apply andb_prop in Hix as [Hix _]; apply andb_prop in Hix as [Hix _]; unfold unique_by in Hix; apply bool_decide_eq_true in Hix; revert Hix.
  induction (db_matchOfficialAssignments d) as [| a l IH]; intros Hu; cbn in *; [constructor |].
  unfold active_official_key at 1 in Hu; unfold activeAssignment at 1; destruct (oa_releasedAt a === None) eqn:Er.
  - apply list.NoDup_cons in Hu as [Hni Hu]; destruct (oa_matchId a === id); cbn [andb]; [| exact (IH Hu)].
    cbn; apply list.NoDup_cons; split; [| exact (IH Hu)]; intros Hi; apply Hni, list_elem_of_omap.
    apply list_elem_of_In, in_map_iff in Hi as (x & E & Hx); apply filter_In in Hx as [Hx Hxa]; unfold activeAssignment in Hxa; to_prop.
    exists x; split; [apply list_elem_of_In, Hx |]; unfold active_official_key; rewrite bool_decide_eq_true_2 by assumption; congruence.
  - rewrite andb_false_r; exact (IH Hu).
Qed.

(** The start a client is offered is the one accepted: a match that waits for its first round passes the
    readiness gate of the start exactly when the snapshot shows it ready, and the start is refused for
    the participants otherwise. *)
Theorem start_offered_as_accepted net now id v d s (Hs : sound d) (H : snapshot net now id v d = Ok (s, d)) :
  exists m, find_first (fun m => m_id m === id) (db_matches d) = Some m /\
    assertStartReadiness net id (m_publicId m) (m_requiredJudgeCount m) d =
      (if canStart (readiness s) then Ok (tt, d) else Err MatchParticipantsNotReady) /\
    (forall clk i r, rulesForMatch id d = Ok (r, d) -> lockActiveSupervisorIdentity clk id i d = Ok (tt, d) ->
       m_status m = WAITING -> m_currentRound m = None -> canStart (readiness s) = false ->
       startRound clk net id i d = Err MatchParticipantsNotReady).
Proof.
  apply snapshot_ok in H as (m & athletes & _ & Em & _ & _ & _ & _ & Hp & Hr); exists m; split; [exact Em |].
  apply presence_ok in Hp as (m' & roles & Em' & En & Hsb & Hroles & Hof); rewrite Em in Em'; injection Em' as <-.
  assert (Hgate : assertStartReadiness net id (m_publicId m) (m_requiredJudgeCount m) d =
      if canStart (readiness s) then Ok (tt, d) else Err MatchParticipantsNotReady).
  { unfold assertStartReadiness, find_many; rewrite (bind_step _ _ _ _ d eq_refl); change (get matchOfficialAssignments d) with (db_matchOfficialAssignments d).
    rewrite <- En, Hr; pose proof (active_officials_distinct id d (proj1 Hs)) as Hnd; set (l := List.filter (activeAssignment id) (db_matchOfficialAssignments d)) in *.
    case_bool_decide as El.
    - change (l = []) in El; rewrite El in Hof; unfold crewOrder, sort_by in Hof; cbn in Hof; inversion Hof as [E1 E2 |]; symmetry in E2.
      unfold canStart; rewrite (legacy_ready net (m_publicId m) roles (st_presence s) Hroles E2 Hsb); destruct (legacyRolesReady _ _ _); reflexivity.
    - change (l <> []) in El; unfold readinessFromPresence; destruct (officials (st_presence s)) as [| e es] eqn:Eo.
      { exfalso; inversion Hof as [E1 |]; symmetry in E1; apply El, Permutation_nil; rewrite <- E1; apply crewOrder_perm. }
      pose proof (official_ready net (m_publicId m) l (st_presence s) ltac:(rewrite Eo; exact Hof) Hnd Hsb) as Ho.
      change (officialsReady _ _ _ _) with (officialsReady net (m_publicId m) (ps_requiredJudgeCount (st_presence s)) l).
      rewrite <- Ho; destruct (officialReadinessFromPresence (st_presence s)) as [[] det]; reflexivity. }
  split; [exact Hgate |]; intros clk i r Hru Ha Hst Hcr Hc; rewrite Hc in Hgate.
  unfold startRound; rewrite (bind_step _ _ _ _ _ (lockMatch_total _ _ _ _ Em)), (bind_step _ _ _ _ _ Hru), (bind_step _ _ _ _ _ Ha).
  rewrite (bind_step _ _ _ _ _ (find_one_or_throw_total matches _ d m Em)), Hst, Hcr; apply bind_err; exact Hgate.
Qed.

(** ** Shown and recorded scores *)

Definition shownSide (c : AthleteColor) (x : AppealResultContext) : option SideScore := match c with RED => ax_red x | BLUE => ax_blue x end.
Definition recordedSide (c : AthleteColor) (t : RegulationTransition) : SideScore := match c with RED => rt_red t | BLUE => rt_blue t end.

(** The captured results still are the points the events add up to. *)
Definition resultsCurrent (id : uuid) (d : DB) : Prop :=
  forall r, In r (resultsOf id d) -> rr_judgePoints r = judgeBaseForRounds (rr_athleteId r) [rr_roundId r] (eventsOf id d).

Lemma validJudgePoint_two x y e : x <> y -> validJudgePoint [x; y] e = validJudgePoint [x] e || validJudgePoint [y] e /\
  (validJudgePoint [x] e && validJudgePoint [y] e) = false.
Proof.
  intros Hne; unfold validJudgePoint; destruct (e_type e === JUDGE_POINT), (e_revertedAt e === None); cbn [andb orb]; try (split; reflexivity).
  destruct (e_roundId e) as [r |]; [| split; reflexivity]; cbn [existsb]; rewrite !orb_false_r; split; [reflexivity |].
  destruct (bool_decide_reflect (x = r)) as [<- |]; [rewrite bool_decide_eq_false_2 by congruence |]; reflexivity.
Qed.

Lemma judgeBase_two a x y es : x <> y -> judgeBaseForRounds a [x; y] es = judgeBaseForRounds a [x] es + judgeBaseForRounds a [y] es.
Proof.
  intros Hne; rewrite !judgeBaseForRounds_sum; induction es as [| e es IH]; [reflexivity |]; cbn [List.filter].
  destruct (validJudgePoint_two x y e Hne) as [-> Hb]; destruct (e_athleteId e === a); cbn [andb]; [| exact IH].
  destruct (validJudgePoint [x] e), (validJudgePoint [y] e); try discriminate Hb; cbn [orb]; unfold sum_by in *; cbn [fold_right]; lia.
Qed.

Lemma judgeBase_perm a l l' es : Permutation l l' -> judgeBaseForRounds a l es = judgeBaseForRounds a l' es.
Proof.
  intros Hp; rewrite !judgeBaseForRounds_sum; f_equal; apply List.filter_ext; intros e; unfold validJudgePoint.
  destruct (e_roundId e) as [r |]; [rewrite (existsb_perm _ _ _ Hp) |]; reflexivity.
Qed.

Lemma results_distinct d : wf d -> NoDup (db_roundAthleteResults d) /\
  forall x y, In x (db_roundAthleteResults d) -> In y (db_roundAthleteResults d) -> rr_roundId x = rr_roundId y -> rr_athleteId x = rr_athleteId y -> x = y.
Proof.
  intros Hwf; specialize (Hwf roundAthleteResults); apply table_ok_true in Hwf as (_ & _ & Hix); cbn [indexes_ok get] in Hix; split.
  - pose proof (unique_by_filter _ (fun r => (rr_roundId r, rr_athleteId r)) (fun _ => true) _ Hix (fun x _ _ => eq_refl)) as Hn.
    rewrite filter_everything in Hn by reflexivity; apply NoDup_ListNoDup in Hn; apply NoDup_ListNoDup; exact (NoDup_map_inv _ _ Hn).
  - intros x y Hx Hy E1 E2; apply (unique_by_inj _ _ x y (rr_roundId x, rr_athleteId x) Hix Hx Hy); [reflexivity | congruence].
Qed.

(** The captured points of an athlete with a valid result in each of two rounds. *)
Lemma capturedBase_two id x y a d rx ry : wf d -> x <> y -> In rx (resultsOf id d) -> In ry (resultsOf id d) ->
  rr_athleteId rx = a -> rr_athleteId ry = a -> rr_roundId rx = x -> rr_roundId ry = y ->
  capturedBase id [x; y] a d = rr_judgePoints rx + rr_judgePoints ry.
Proof.
  intros Hwf Hne Hx Hy Ax Ay Rx Ry; destruct (results_distinct d Hwf) as [Hnd Hu]; unfold resultsOf in Hx, Hy.
  apply filter_In in Hx as [Hx Px], Hy as [Hy Py]; to_prop.
  set (single q := List.filter (fun s => (rr_matchId s === id) && (rr_roundId s === q) && (rr_invalidatedAt s === None) && (rr_athleteId s === a))).
  assert (Hs : forall q r, In r (db_roundAthleteResults d) -> rr_matchId r = id -> rr_roundId r = q -> rr_invalidatedAt r = None -> rr_athleteId r = a ->
    single q (db_roundAthleteResults d) = [r]).
  { intros q r Hr E1 E2 E3 E4; apply filter_single; [exact Hnd | exact Hr | |].
    - rewrite !bool_decide_eq_true_2 by assumption; reflexivity.
    - intros z Hz Hp; to_prop; apply Hu; congruence. }
  transitivity (sum_by rr_judgePoints (single x (db_roundAthleteResults d)) + sum_by rr_judgePoints (single y (db_roundAthleteResults d))).
  - unfold capturedBase, single; rewrite (List.filter_ext _ (fun s => (rr_matchId s === id) && ((rr_roundId s === x) || (rr_roundId s === y)) &&
      (rr_invalidatedAt s === None) && (rr_athleteId s === a))).
    2: { intros s; unfold member; cbn [existsb]; rewrite orb_false_r; do 2 f_equal; f_equal; f_equal; apply bool_decide_ext; split; congruence. }
    clear - Hne; induction (db_roundAthleteResults d) as [| s l IH]; [reflexivity |]; cbn [List.filter].
    destruct (rr_matchId s === id), (rr_invalidatedAt s === None), (rr_athleteId s === a); cbn [andb]; rewrite ?andb_false_r, ?andb_true_r; try exact IH.
    destruct (bool_decide_reflect (rr_roundId s = x)) as [E | Nx]; [rewrite bool_decide_eq_false_2 by congruence |]; cbn [orb andb].
    + unfold sum_by in *; cbn [fold_right] in *; lia.
    + destruct (rr_roundId s === y); [unfold sum_by in *; cbn [fold_right] in *; lia | exact IH].
  - rewrite (Hs x rx), (Hs y ry) by (assumption || congruence); unfold sum_by; cbn; lia.
Qed.

Lemma noReasons_app {A} (l l' : list A) : noReasons (l ++ l') = noReasons l && noReasons l'.
Proof. destruct l; reflexivity. Qed.

(** What an offered regulation appeal is shown with. *)
Lemma offered_appeal m rds un ap ots results events athletes :
  let r := regulationAppeal (resultCapability m rds un ap ots results events athletes) in
  let ids := map r_id (regulationRoundsOf rds) in
  canAppeal r = true ->
  length ids = 2%nat /\
  (forall a x, In a athletes -> In x ids -> exists s, In s results /\ rr_athleteId s = ma_id a /\ rr_roundId s = x) /\
  forall c a, find_first (fun a => ma_color a === c) athletes = Some a ->
    shownSide c r = Some (renderedScore (judgeBaseForRounds (ma_id a) ids events)).
Proof.
  cbv zeta; unfold resultCapability; cbn [regulationAppeal canAppeal]; rewrite !noReasons_app, !noReasons_last, negb_involutive.
  intros H; repeat (apply andb_prop in H as [H ?]); repeat match goal with E : _ && _ = true |- _ => apply andb_prop in E as [? ?] end.
  assert (ap = None) as -> by (destruct ap; [discriminate | reflexivity]).
  assert (Hl : length (map r_id (regulationRoundsOf rds)) = 2%nat) by (apply Nat.eqb_eq; assumption).
  assert (Hall : forallb (summarized athletes results) (map r_id (regulationRoundsOf rds)) = true) by assumption.
  split_and!; [exact Hl | |].
  - intros a x Ha Hx; rewrite forallb_forall in Hall; specialize (Hall x Hx); unfold summarized in Hall; rewrite forallb_forall in Hall.
    specialize (Hall a Ha); apply existsb_exists in Hall as (s & Hs & E); to_prop; eauto.
  - intros c a Ea; rewrite Hl, Hall; destruct c; cbn [shownSide ax_red ax_blue]; unfold render; cbn [default adjustmentFor]; rewrite Ea; reflexivity.
Qed.

(** The athlete of a colour. *)
Lemma athlete_found id d l d' c a : wf d -> athletesByColor id d = Ok (l, d') -> In a (db_matchAthletes d) -> ma_matchId a = id -> ma_color a = c ->
  In a l /\ find_first (fun x => ma_color x === c) l = Some a.
Proof.
  intros Hwf H Ha Hm Hc; unfold athletesByColor in H; apply bind_ok in H as (l0 & d1 & H0 & H); apply gets_ok in H0 as [-> ->]; apply ret_ok in H as [<- _].
  assert (Hin : forall x, In x (sort_by (fun a => match ma_color a with RED => 0 | BLUE => 1 end)
      (List.filter (fun a => ma_matchId a === id) (db_matchAthletes d))) <-> In x (db_matchAthletes d) /\ ma_matchId x = id).
  { intros x; split.
    - intros Hx; apply (Permutation_in _ (sort_by_perm _ _)), filter_In in Hx as [Hx E]; to_prop; auto.
    - intros [Hx E]; apply (Permutation_in _ (Permutation_sym (sort_by_perm _ _))), filter_In; rewrite bool_decide_eq_true; auto. }
  assert (Hain : In a (sort_by (fun a => match ma_color a with RED => 0 | BLUE => 1 end)
      (List.filter (fun a => ma_matchId a === id) (db_matchAthletes d)))) by (apply Hin; auto).
  split; [exact Hain |]; destruct (find_first _ _) as [y |] eqn:E.
  - apply find_first_some in E as [Hy Ey]; apply Hin in Hy as [Hy My]; to_prop; f_equal.
    specialize (Hwf matchAthletes); apply table_ok_true in Hwf as (_ & _ & Hix); cbn [indexes_ok get] in Hix.
    apply (unique_by_inj _ _ y a (id, c) Hix Hy Ha); cbn; congruence.
  - exfalso; eapply find_first_none in E; [| exact Hain]; rewrite Hc, bool_decide_eq_true_2 in E by reflexivity; discriminate.
Qed.

(** What a client was shown while the appeal was offered, and what the appeal recorded. *)
Lemma shown_and_recorded net now id v clk i payload d s t d' c (Hs : sound d)
    (Hnew : forall a, In a (db_matchAppeals d) -> ap_idempotencyKey a <> Some (in_idempotencyKey payload))
    (H : snapshot net now id v d = Ok (s, d)) (Hoff : canAppeal (regulationAppeal (result_ s)) = true)
    (Hc : completeRegulation clk id i payload d = Ok (t, d')) :
  exists x y a rx ry, x <> y /\ In a (db_matchAthletes d) /\ ma_matchId a = id /\ ma_color a = c /\
    Permutation [x; y] (map r_id (regulationRoundsOf (validRounds id d))) /\
    In rx (resultsOf id d) /\ In ry (resultsOf id d) /\ rr_athleteId rx = ma_id a /\ rr_athleteId ry = ma_id a /\ rr_roundId rx = x /\ rr_roundId ry = y /\
    shownSide c (regulationAppeal (result_ s)) = Some (renderedScore (judgeBaseForRounds (ma_id a) [x; y] (eventsOf id d))) /\
    recordedSide c t = sideScore (capturedBase id [x; y] (ma_id a) d) payload c.
Proof.
  destruct Hs as [Hwf Hfr]; apply snapshot_ok in H as (m & athletes & _ & Em & Ha & _ & _ & Er & _); rewrite Er in *; unfold resultOf in *.
  assert (Hid : m_id m = id) by (apply find_first_some in Em as [_ E]; to_prop; exact E); rewrite Hid in *.
  apply offered_appeal in Hoff as (Hl & Hall & Hside).
  apply completeRegulation_new in Hc as (mr & r1 & r2 & red & blue & d1 & _ & _ & _ & _ & R1 & R2 & _ & Cr & Cb & Ir & Ib & Mr & Mb & _ & _ & Hrec);
    [| split; assumption | assumption].
  apply recordRegulation_ok in Hrec as (-> & _); [| exact Cr | exact Cb].
  set (a := match c with RED => red | BLUE => blue end).
  assert (Haa : In a (db_matchAthletes d) /\ ma_matchId a = id /\ ma_color a = c) by (subst a; destruct c; auto).
  destruct Haa as (Ia & Ma & Ca); destruct (athlete_found id d athletes d c a Hwf Ha Ia Ma Ca) as [Hal Hfa].
  assert (Hin : forall r n, endedRegulation id n r d -> In (r_id r) (map r_id (regulationRoundsOf (validRounds id d)))).
  { intros r n (E1 & E2 & E3 & _ & E5 & E6); apply in_map, filter_In; split.
    - apply (Permutation_in _ (Permutation_sym (validRounds_perm id d))), filter_In; rewrite !bool_decide_eq_true_2 by assumption; auto.
    - rewrite bool_decide_eq_true_2, bool_decide_eq_false_2 by assumption; reflexivity. }
  assert (Hne : r_id r1 <> r_id r2).
  { intros E; destruct R1 as (I1 & _ & _ & N1 & _), R2 as (I2 & _ & _ & N2 & _).
    assert (r1 = r2) as Er12 by (apply (wf_id rounds d r1 r2 (r_id r1) Hwf I1 I2); cbn; congruence); congruence. }
  assert (Hperm : Permutation [r_id r1; r_id r2] (map r_id (regulationRoundsOf (validRounds id d)))).
  { apply NoDup_Permutation_bis; [| rewrite Hl; reflexivity |].
    - constructor; [intros [E | []]; congruence | constructor; [intros [] | constructor]].
    - intros x [<- | [<- | []]]; eauto. }
  destruct (Hall a (r_id r1) Hal (Hin r1 1 R1)) as (rx & Hx & Ax & Rx), (Hall a (r_id r2) Hal (Hin r2 2 R2)) as (ry & Hy & Ay & Ry).
  exists (r_id r1), (r_id r2), a, rx, ry; split_and!; auto.
  - rewrite (Hside c a Hfa), (judgeBase_perm _ _ _ _ (Permutation_sym Hperm)); reflexivity.
  - subst a; destruct c; reflexivity.
Qed.

(** The score shown while the regulation appeal is offered is the one the appeal starts from, as long as
    the captured results are the points of the events: its base is recorded, and an appeal without
    adjustments of a colour records exactly what was shown of it. *)
Theorem preview_is_recorded net now id v clk i payload d s t d' c (Hs : sound d) (Hcur : resultsCurrent id d)
    (Hnew : forall a, In a (db_matchAppeals d) -> ap_idempotencyKey a <> Some (in_idempotencyKey payload))
    (H : snapshot net now id v d = Ok (s, d)) (Hoff : canAppeal (regulationAppeal (result_ s)) = true)
    (Hc : completeRegulation clk id i payload d = Ok (t, d')) :
  exists p, shownSide c (regulationAppeal (result_ s)) = Some p /\ sd_base p = sd_base (recordedSide c t) /\
    (in_bonusPoints payload c = 0 -> in_penaltyPoints payload c = 0 -> recordedSide c t = p).
Proof.
  destruct (shown_and_recorded net now id v clk i payload d s t d' c Hs Hnew H Hoff Hc)
    as (x & y & a & rx & ry & Hne & _ & _ & _ & _ & Hx & Hy & Ax & Ay & Rx & Ry & -> & ->).
  assert (E : capturedBase id [x; y] (ma_id a) d = judgeBaseForRounds (ma_id a) [x; y] (eventsOf id d)).
  { rewrite (capturedBase_two id x y (ma_id a) d rx ry (proj1 Hs) Hne Hx Hy Ax Ay Rx Ry), (Hcur rx Hx), (Hcur ry Hy), Ax, Ay, Rx, Ry.
    symmetry; apply judgeBase_two, Hne. }
  eexists; split; [reflexivity |]; rewrite E; split; [reflexivity |]; intros E1 E2; unfold sideScore, renderedScore; rewrite E1, E2; reflexivity.
Qed.

(** C14: A point won late is shown and not counted: when a window of an ended regulation round is resolved
    after the results of the round were captured, the score the client is shown for the appeal carries
    the point, and the appeal records one point less. *)
Theorem late_point_lost clk0 w at_ pub id d0 res d net now v clk i payload s t d' c r (Hs : sound d0) (Hcur : resultsCurrent id d0)
    (Hw : resolveLockedWindow clk0 w at_ pub d0 = Ok (res, d)) (Hm : w_matchId w = id) (Hwin : Scoring.rt_winningColor res = Some c)
    (Hround : w_roundId w = Some r) (Hended : In r (map r_id (regulationRoundsOf (validRounds id d0))))
    (Hnew : forall a, In a (db_matchAppeals d0) -> ap_idempotencyKey a <> Some (in_idempotencyKey payload))
    (H : snapshot net now id v d = Ok (s, d)) (Hoff : canAppeal (regulationAppeal (result_ s)) = true)
    (Hc : completeRegulation clk id i payload d = Ok (t, d')) :
  exists p, shownSide c (regulationAppeal (result_ s)) = Some p /\ sd_base p = sd_base (recordedSide c t) + 1.
Proof.
  assert (Hs' : sound d).
  { refine (respects_resolveLockedWindow keeps_sound _ _ clk0 w at_ pub _ _ _ Hw Hs); intros; [apply keeps_sound_create; congruence | apply keeps_sound_update_many; auto]. }
  apply resolveLockedWindow_ok in Hw as (m & evs & _ & Ew & _ & _ & Eev & Hevs & Hother); rewrite <- Ew, Hwin in Hevs.
  destruct Hevs as (b & ev & -> & Hb & Em & Eb & Ety & Ev & _ & Er & Erv); apply find_first_some in Hb as [Ib Hb]; to_prop.
  assert (Eres : resultsOf id d = resultsOf id d0) by exact (f_equal (List.filter _) (Hother roundAthleteResults ltac:(discriminate) ltac:(discriminate) ltac:(discriminate))).
  assert (Erd : validRounds id d = validRounds id d0) by exact (f_equal (fun l => sort_by _ (sort_by _ (List.filter _ l))) (Hother rounds ltac:(discriminate) ltac:(discriminate) ltac:(discriminate))).
  pose proof (Hother matchAthletes ltac:(discriminate) ltac:(discriminate) ltac:(discriminate)) as Eat.
  pose proof (Hother matchAppeals ltac:(discriminate) ltac:(discriminate) ltac:(discriminate)) as Eap; cbn [get] in Eat, Eap.
  rewrite <- Eap in Hnew; destruct (shown_and_recorded net now id v clk i payload d s t d' c Hs' Hnew H Hoff Hc)
    as (x & y & a & rx & ry & Hne & Ia & Ma & Ca & Hperm & Hx & Hy & Ax & Ay & Rx & Ry & -> & ->).
  eexists; split; [reflexivity |]; cbn [sd_base renderedScore sideScore].
  rewrite (capturedBase_two id x y (ma_id a) d rx ry (proj1 Hs') Hne Hx Hy Ax Ay Rx Ry); rewrite Eres in Hx, Hy.
  rewrite (Hcur rx Hx), (Hcur ry Hy), Ax, Ay, Rx, Ry, <- (judgeBase_two _ _ _ _ Hne), !judgeBaseForRounds_sum.
  assert (b = a) as ->.
  { pose proof (proj1 Hs' matchAthletes) as Hix; apply table_ok_true in Hix as (_ & _ & Hix); cbn [indexes_ok get] in Hix.
    rewrite <- Eat in Ib; apply (unique_by_inj _ _ b a (id, c) Hix Ib Ia); cbn; congruence. }
  rewrite Erd in Hperm; apply (Permutation_in _ (Permutation_sym Hperm)) in Hended.
  unfold eventsOf; rewrite Eev, List.filter_app; cbn [List.filter]; rewrite (bool_decide_eq_true_2 (e_matchId ev = id)) by congruence.
  rewrite List.filter_app, sum_by_app; cbn [List.filter]; rewrite (bool_decide_eq_true_2 (e_athleteId ev = ma_id a)) by exact Eb; cbn [andb].
  unfold validJudgePoint at 2; rewrite Ety, Erv, Er, Hround, !bool_decide_eq_true_2 by reflexivity; cbn [andb].
  assert (Hex : existsb (fun z => z === r) [x; y] = true) by (apply existsb_exists; exists r; split; [exact Hended | apply bool_decide_eq_true_2; reflexivity]).
  rewrite Hex; unfold sum_by at 2; cbn [fold_right]; rewrite Ev; lia.
Qed.

Lemma uncommitted_scores r : committed (regulationAppeal r) = false -> committed (overtimeAppeal r) = false ->
  committedScoresOf r = mkCommittedScores None None (option_map sd_final (ax_red (regulationAppeal r))) (option_map sd_final (ax_blue (regulationAppeal r))).
Proof. intros E1 E2; unfold committedScoresOf; rewrite E1, E2, andb_false_r; reflexivity. Qed.

(** The scores called committed are shown before they are: while the regulation appeal is only offered
    (and no overtime is), the public snapshot names no source for its scores, and yet carries the points
    the judges gave so far as the final score of each colour. *)
Theorem public_scores_uncommitted net now pid d pub d' (H : publicSnapshot net now pid d = Ok (pub, d')) :
  exists m athletes s, find_first (fun m => m_publicId m === pid) (db_matches d) = Some m /\ snapshot net now (m_id m) None d = Ok (s, d) /\
    athletesByColor (m_id m) d = Ok (athletes, d) /\
    (canAppeal (regulationAppeal (result_ s)) = true -> committed (overtimeAppeal (result_ s)) = false ->
     committed (regulationAppeal (result_ s)) = false /\ cs_source (committedScores pub) = None /\
     forall c a, find_first (fun a => ma_color a === c) athletes = Some a ->
       match c with RED => cs_red (committedScores pub) | BLUE => cs_blue (committedScores pub) end =
       Some (finalScore (judgeBaseForRounds (ma_id a) (map r_id (regulationRoundsOf (validRounds (m_id m) d))) (eventsOf (m_id m) d)) 0 0)).
Proof.
  unfold publicSnapshot in H; apply bind_ok in H as (o & d2 & Ho & H); apply gets_ok in Ho as [-> ->].
  apply bind_ok in H as (m & d3 & Hm & H); apply or_throw_ok in Hm as [Em ->].
  apply bind_ok in H as (s & d4 & Hs & H); pose proof (snapshot_ok _ _ _ _ _ _ _ Hs) as (m1 & athletes & -> & Em1 & Ha & _ & _ & Er & _).
  apply bind_ok in H as (oc & d5 & Hx & H); apply gets_ok in Hx as [-> ->]; apply ret_ok in H as [<- _].
  exists m, athletes, s; split_and!; [exact Em | exact Hs | exact Ha |]; intros Hoff Hot; rewrite Er in Hoff, Hot; unfold resultOf in Hoff, Hot.
  assert (Eid : m_id m1 = m_id m) by (apply find_first_some in Em1 as [_ E]; to_prop; exact E).
  pose proof (offered_appeal _ _ _ _ _ _ _ _ Hoff) as (_ & _ & Hside).
  assert (Hno : committed (regulationAppeal (result_ s)) = false).
  { rewrite Er; unfold resultOf, resultCapability in *; cbn [regulationAppeal canAppeal committed] in *.
    rewrite !noReasons_app, !noReasons_last in Hoff; destruct (set_ (regulationAppealOf _ _)); [| reflexivity]; cbn [negb] in Hoff; rewrite ?andb_false_r in Hoff; discriminate. }
  cbn [committedScores toPublicSnapshot]; rewrite (uncommitted_scores _ Hno) by (rewrite Er; exact Hot); cbn [cs_source cs_red cs_blue].
  split_and!; [exact Hno | reflexivity |]; intros c a Ec; specialize (Hside c a Ec); rewrite <- Eid, Er; unfold resultOf.
  destruct c; cbn [shownSide] in Hside; rewrite Hside; reflexivity.
Qed.

(** ** Witnesses *)

(** Every seat of a match is connected. *)
Definition fullHouse : Presence := mkPresence (fun _ _ => 1) (fun _ _ => 1) (fun _ => 1).
Definition nobodyHome : Presence := mkPresence (fun _ _ => 0) (fun _ _ => 0) (fun _ => 0).

Definition snapshotOf (net : Presence) (now : timestamp) (d : DB) : MatchStatePayload :=
  match snapshot net now 10 None d with
  | Ok (s, _) => s
  | Err _ => mkMatchState None None [] (mkCompletionCapability false []) (resultCapability (sampleMatch 10 WAITING NOT_STARTED None None) [] false None [] [] [] [])
      (mkExitCapability false [] []) now (mkStateIdentity None None 10 "" NOT_STARTED WAITING FAULT_APPEAL_OVERTIME_V2 None None)
      (mkPresenceState [] [] 0 0) (readinessFromPresence (mkPresenceState [] [] 0 0)) None
  end.

Definition breakSnapshot : MatchStatePayload := Eval vm_compute in snapshotOf fullHouse 125000 breakDB.

Ltac solve_phases := let m := fresh "m" in let Hm := fresh "Hm" in intros m Hm; vm_compute in Hm; intuition (subst; reflexivity).

Lemma exits_offered_as_accepted_witness :
  (exists m, exitMatch (at_time 125000) 10 supervisor SUSPEND_KEEP_ROUND_1 breakDB =
     applyExit (at_time 125000) 10 m supervisor SUSPEND_KEEP_ROUND_1 breakDB) /\
  exists m, exitMatch (at_time 125000) 10 supervisor SUSPEND_KEEP_ROUNDS_1_AND_2 breakDB = Err (InvalidResultCancellationState (m_status m)).
Proof.
  split.
  - assert (E : offered SUSPEND_KEEP_ROUND_1 breakSnapshot &&
      ((SUSPEND_KEEP_ROUND_1 !== SUSPEND_KEEP_ROUNDS_1_AND_2) || offered SUSPEND_KEEP_ROUND_1 breakSnapshot) = true) by reflexivity.
    edestruct (exits_offered_as_accepted fullHouse 125000 10 None (at_time 125000) supervisor SUSPEND_KEEP_ROUND_1 breakDB breakSnapshot) as (m & _ & H);
      [vm_compute; reflexivity | vm_compute; reflexivity | vm_compute; reflexivity | solve_phases |]; rewrite E in H; exists m; exact H.
  - assert (E : offered SUSPEND_KEEP_ROUNDS_1_AND_2 breakSnapshot &&
      ((SUSPEND_KEEP_ROUNDS_1_AND_2 !== SUSPEND_KEEP_ROUNDS_1_AND_2) || offered SUSPEND_KEEP_ROUND_1 breakSnapshot) = false) by reflexivity.
    edestruct (exits_offered_as_accepted fullHouse 125000 10 None (at_time 125000) supervisor SUSPEND_KEEP_ROUNDS_1_AND_2 breakDB breakSnapshot) as (m & _ & H);
      [vm_compute; reflexivity | vm_compute; reflexivity | vm_compute; reflexivity | solve_phases |]; rewrite E in H; exists m; exact H.
Defined.

Lemma start_offered_as_accepted_witness :
  (exists m, assertStartReadiness fullHouse 10 (m_publicId m) (m_requiredJudgeCount m) waitingDB = Ok (tt, waitingDB)) /\
  startRound (at_time 1000) nobodyHome 10 supervisor waitingDB = Err MatchParticipantsNotReady.
Proof.
  assert (Hs : sound waitingDB) by solve_sound; split.
  - edestruct (start_offered_as_accepted fullHouse 500 10 None waitingDB) as (m & _ & H & _); [exact Hs | vm_compute; reflexivity |].
    exists m; exact H.
  - edestruct (start_offered_as_accepted nobodyHome 500 10 None waitingDB) as (m & Em & _ & H); [exact Hs | vm_compute; reflexivity |].
    vm_compute in Em; injection Em as <-; eapply H; [vm_compute; reflexivity | vm_compute; reflexivity | reflexivity | reflexivity | vm_compute; reflexivity].
Defined.

(** The second round: two judges vote red in its last second, after which it ends; their window, that lasts
    longer than the round, is resolved when it is due. *)
Definition lastSecondDB : DB := Eval vm_compute in
  let d := (sampleDB (sampleMatch 10 ROUND_2_RUNNING IN_PROGRESS (Some 2) (Some 0))
    [sampleRound 50 1 REGULATION 0 0 (Some 120000); sampleRound 51 2 REGULATION 0 150000 None])
    <| db_roundAthleteResults := [sampleResult 60 50 21 0; sampleResult 61 50 22 0] |> in
  let d := after (submitVote (at_time 269500) (sampleVote SLOT_JUDGE_1 41)) d in
  let d := after (submitVote (at_time 269800) (sampleVote SLOT_JUDGE_2 42)) d in
  after (evaluateExpiration (at_time 270000) 10 51) d.
Definition lastWindow : WindowRow := mkWindowRow 1000 10 2 (Some 51%N) (Some 119500) 269500 270500 None None false None None 269500.
Definition shownDB : DB := Eval vm_compute in after (resolveLockedWindow (at_time 270500) lastWindow 270500 "M") lastSecondDB.
Definition shownSnapshot : MatchStatePayload := Eval vm_compute in snapshotOf fullHouse 280000 shownDB.

Ltac solve_current := let r := fresh "r" in let Hr := fresh "Hr" in intros r Hr; vm_compute in Hr; intuition (subst; reflexivity).

Lemma late_point_lost_witness :
  option_map sd_base (shownSide RED (regulationAppeal (result_ shownSnapshot))) = Some 1 /\
  exists t d', completeRegulation (at_time 300000) 10 supervisor (points 0 0 "reg") shownDB = Ok (t, d') /\ sd_base (recordedSide RED t) = 0.
Proof.
  split; [vm_compute; reflexivity |]; eexists _, _; split; [vm_compute; reflexivity |].
  edestruct (late_point_lost (at_time 270500) lastWindow 270500 "M" 10 lastSecondDB) with (net := fullHouse) (now := 280000) (v := None (A := Viewer))
    (payload := points 0 0 "reg") (clk := at_time 300000) (i := supervisor) (c := RED) as (p & E1 & E2);
    [solve_sound | solve_current | vm_compute; reflexivity | reflexivity | reflexivity | reflexivity | vm_compute; auto | intros ? [] | vm_compute; reflexivity |
     vm_compute; reflexivity | vm_compute; reflexivity |].
  vm_compute in E1; injection E1 as <-; cbn in *; lia.
Defined.

(** Match 10 after two rounds that were won by nobody. *)
Definition quietDB : DB := Eval vm_compute in
  regulationAppealDB <| db_roundAthleteResults := [sampleResult 60 50 21 0; sampleResult 61 50 22 0; sampleResult 62 51 21 0; sampleResult 63 51 22 0] |>.

Lemma preview_is_recorded_witness :
  exists t d' p, completeRegulation (at_time 300000) 10 supervisor (points 0 2 "reg") quietDB = Ok (t, d') /\
    shownSide RED (regulationAppeal (result_ (snapshotOf fullHouse 280000 quietDB))) = Some p /\ recordedSide RED t = p.
Proof.
  eexists _, _, _; split_and!; [vm_compute; reflexivity | vm_compute; reflexivity |].
  edestruct (preview_is_recorded fullHouse 280000 10 None (at_time 300000) supervisor (points 0 2 "reg") quietDB) with (c := RED) as (p & E1 & _ & E2);
    [solve_sound | solve_current | intros ? [] | vm_compute; reflexivity | vm_compute; reflexivity | vm_compute; reflexivity |].
  vm_compute in E1; injection E1 as <-; apply E2; reflexivity.
Defined.

Lemma public_scores_uncommitted_witness :
  exists pub d', publicSnapshot fullHouse 280000 "M" shownDB = Ok (pub, d') /\ cs_source (committedScores pub) = None /\
    cs_red (committedScores pub) = Some 1.
Proof.
  eexists _, _; split; [vm_compute; reflexivity |].
  edestruct (public_scores_uncommitted fullHouse 280000 "M" shownDB) as (m & athletes & s & Em & Es & Ea & H); [vm_compute; reflexivity |].
  vm_compute in Em; injection Em as <-; vm_compute in Ea; injection Ea as <-; vm_compute in Es; injection Es as <-.
  destruct H as (_ & H1 & H2); [vm_compute; reflexivity | vm_compute; reflexivity |]; split; [exact H1 |]; exact (H2 RED _ eq_refl).
Defined.
