(* ===== verification/BracketGenerator.v ===== *)
(** * Bracket generator

    brackets/bracket-summary.ts and brackets/single-elimination-bracket.generator.ts: the
    shape of a draw, the random draw itself and the fixture graph built from it. The random
    source is a parameter: a function from a random state and a bound to a number (None for a
    value that is not an integer) and the next state. *)
From stdpp Require Import gmap pretty.
From S2P Require Import Prelude Schema.

(** ** Errors: one constructor per message of the generator. *)
Inductive GeneratorError : Type :=
  | TooFewToSize | CapacityExceeded (limit : Z)
  | TooFewAthletes | DuplicateAthletes | InvalidMaximum
  | DuplicateDesignatedByes | UnknownDesignatedBye | TooManyDesignatedByes
  | InvalidPlacements | InvalidPlacementSize | IncompletePair | DoubleBye | MissingFixtureSource
  | InvalidRandomIndex (value : option Z)
  (* an element read past the end of an array; shown not to happen *)
  | UndefinedElement.

(** ** Shape of a draw *)
Definition MAX_BRACKET_ATHLETES : Z := 64.

Record BracketSummary : Type := mkSummary {
  su_athleteCount : nat; su_bracketSize : nat; su_roundCount : nat;
  su_totalFixtureCount : nat; su_firstRoundFixtureCount : nat; su_byeCount : nat }.

(** [while (result < value) result *= 2]; [value] iterations are enough. *)
Fixpoint nextPowerOfTwo_loop (fuel result value : nat) : nat :=
  match fuel with
  | O => result
  | S fuel => if (result <? value)%nat then nextPowerOfTwo_loop fuel (2 * result) value else result
  end.
Definition nextPowerOfTwo (value : nat) : nat := nextPowerOfTwo_loop value 1 value.

Definition summarizeBracket {S} (athleteCount : nat) : tx S GeneratorError BracketSummary :=
  throw_if (athleteCount <? 2)%nat TooFewToSize;;
  throw_if (MAX_BRACKET_ATHLETES <? Z.of_nat athleteCount) (CapacityExceeded MAX_BRACKET_ATHLETES);;
  let bracketSize := nextPowerOfTwo athleteCount in
  mret (mkSummary athleteCount bracketSize (Nat.log2 bracketSize) (athleteCount - 1)
    (athleteCount - bracketSize / 2) (bracketSize - athleteCount)).

(** ** Data of a bracket *)
Record BracketEntrantPlacement : Type := mkPlacement {
  pl_drawPosition : Z; pl_athleteId : option uuid }.

(** [BracketSlotSource] and [Advancement] have the same two shapes. *)
Inductive Advancement : Type := ENTRANT (entrantId : uuid) | FIXTURE_WINNER (fixtureId : string).

Record GeneratedBracketSlot : Type := mkGeneratedSlot {
  gs_side : AthleteColor; gs_source : Advancement; gs_resolvedEntrantId : option uuid }.

Record GeneratedBracketFixture : Type := mkGeneratedFixture {
  gf_id : string; gf_roundNumber : nat; gf_position : nat; gf_displayReference : string;
  gf_slots : GeneratedBracketSlot * GeneratedBracketSlot;
  gf_downstream : option (string * AthleteColor) }.
#[export] Instance eta_GeneratedBracketFixture : Eta GeneratedBracketFixture := fun x =>
  mkGeneratedFixture (gf_id x) (gf_roundNumber x) (gf_position x) (gf_displayReference x)
    (gf_slots x) (gf_downstream x).

Record GeneratedBracketRound : Type := mkGeneratedRound {
  gr_roundNumber : nat; gr_label : string; gr_fixtures : list GeneratedBracketFixture }.

Record GeneratedBracket : Type := mkBracket {
  gb_athleteCount : nat; gb_bracketSize : nat; gb_byeCount : nat; gb_roundCount : nat;
  gb_firstRoundMatchCount : nat; gb_totalFixtureCount : nat;
  gb_initialEntrants : list BracketEntrantPlacement;
  gb_rounds : list GeneratedBracketRound; gb_fixtures : list GeneratedBracketFixture }.

(** packages/shared-types/src/bracket-presentation.ts *)
Definition bracketRoundLabel (roundNumber roundCount : nat) : string :=
  let roundsFromFinal := Z.of_nat roundCount - Z.of_nat roundNumber in
  if roundsFromFinal === 0 then "Chung kết"
  else if roundsFromFinal === 1 then "Bán kết"
  else if roundsFromFinal === 2 then "Tứ kết"
  else ("Vòng " +:+ pretty roundNumber)%string.

(** ** The graph of a draw *)
Definition toAdvancement (placement : BracketEntrantPlacement) : option Advancement :=
  match pl_athleteId placement with None => None | Some id => Some (ENTRANT id) end.

Definition createSlot (side : AthleteColor) (advancement : Advancement) : GeneratedBracketSlot :=
  match advancement with
  | ENTRANT id => mkGeneratedSlot side (ENTRANT id) (Some id)
  | FIXTURE_WINNER id => mkGeneratedSlot side (FIXTURE_WINNER id) None
  end.

Definition fixtureId (roundNumber position : nat) : string :=
  ("r" +:+ pretty roundNumber +:+ "-m" +:+ pretty position)%string.

(** [String(position).padStart(2, '0')] *)
Definition padStart2 (s : string) : string :=
  match String.length s with 0%nat => "00" | 1%nat => ("0" +:+ s) | _ => s end%string.

Definition createFixture (roundNumber position : nat) (red blue : Advancement) : GeneratedBracketFixture :=
  mkGeneratedFixture (fixtureId roundNumber position) roundNumber position
    ("R" +:+ pretty roundNumber +:+ "-M" +:+ padStart2 (pretty position))%string
    (createSlot RED red, createSlot BLUE blue) None.

(** The arrays under construction. The rounds hold references to the fixtures, which the
    linking step mutates later: here indices into [bs_fixtures]. *)
Record BuildState : Type := mkBuildState {
  bs_fixtures : list GeneratedBracketFixture; bs_fixturesByRound : gmap nat (list nat) }.
#[export] Instance eta_BuildState : Eta BuildState := fun x =>
  mkBuildState (bs_fixtures x) (bs_fixturesByRound x).

Definition build := tx BuildState GeneratorError.

(** [fixtures.push(fixture); addFixtureToRound(fixturesByRound, fixture)] *)
Definition addFixtureToRound (fixture : GeneratedBracketFixture) : build unit :=
  modify (fun b =>
    let round := default [] (bs_fixturesByRound b !! gf_roundNumber fixture) in
    mkBuildState (bs_fixtures b ++ [fixture])
      (<[gf_roundNumber fixture := round ++ [length (bs_fixtures b)]]> (bs_fixturesByRound b))).

(** One pass of the inner loop over the pairs of a round. *)
Fixpoint pairRound (roundNumber index : nat) (advancements : list (option Advancement)) :
    build (list Advancement) :=
  match advancements with
  | [] => mret []
  | [_] => throw IncompletePair
  | red :: blue :: rest =>
      next ← match red, blue with
        | Some red, Some blue =>
            let fixture := createFixture roundNumber (index / 2 + 1) red blue in
            addFixtureToRound fixture;; mret (FIXTURE_WINNER (gf_id fixture))
        | Some advancingEntrant, None | None, Some advancingEntrant => mret advancingEntrant
        | None, None => throw DoubleBye
        end;
      nexts ← pairRound roundNumber (index + 2) rest;
      mret (next :: nexts)
  end.

Fixpoint pairRounds (roundNumbers : list nat) (advancements : list (option Advancement)) :
    build (list (option Advancement)) :=
  match roundNumbers with
  | [] => mret advancements
  | roundNumber :: later =>
      nextAdvancements ← pairRound roundNumber 0 advancements;
      pairRounds later (map Some nextAdvancements)
  end.

(** [new Map(fixtures.map((fixture) => [fixture.id, fixture]))]: a later entry wins. *)
Definition fixturesById (fixtures : list GeneratedBracketFixture) : gmap string nat :=
  list_to_map (reverse (zip (map gf_id fixtures) (seq 0 (length fixtures)))).

Definition setDownstream (upstream : nat) (target : string * AthleteColor) : build unit :=
  modify (fun b => b <| bs_fixtures ::= alter (fun f => f <| gf_downstream := Some target |>) upstream |>).

Definition linkSlot (byId : gmap string nat) (fixture : GeneratedBracketFixture)
    (slot : GeneratedBracketSlot) : build unit :=
  match gs_source slot with
  | ENTRANT _ => mret tt
  | FIXTURE_WINNER source =>
      upstream ← or_throw (byId !! source) MissingFixtureSource;
      setDownstream upstream (gf_id fixture, gs_side slot)
  end.

(** Only [downstream] is mutated while the loop runs, so the ids and slots it reads are the
    ones the fixtures have when it starts. *)
Definition linkDownstreamFixtures : build unit :=
  fixtures ← gets bs_fixtures;
  let byId := fixturesById fixtures in
  for_each (fun fixture =>
    linkSlot byId fixture (gf_slots fixture).1;; linkSlot byId fixture (gf_slots fixture).2) fixtures.

Definition createRounds (roundCount : nat) (b : BuildState) : list GeneratedBracketRound :=
  map (fun roundNumber =>
    mkGeneratedRound roundNumber (bracketRoundLabel roundNumber roundCount)
      (omap (fun i => bs_fixtures b !! i) (default [] (bs_fixturesByRound b !! roundNumber))))
    (seq 1 roundCount).

Definition athleteIdsOf (placements : list BracketEntrantPlacement) : list uuid :=
  omap pl_athleteId placements.

Definition placementsInvalid (initialEntrants : list BracketEntrantPlacement) : bool :=
  let athleteIds := athleteIdsOf initialEntrants in
  let size := length initialEntrants in
  (size <? 2)%nat || negb (Nat.land size (size - 1) =? 0)%nat || (length athleteIds <? 2)%nat ||
  negb (bool_decide (NoDup athleteIds)) ||
  existsb (fun '(index, placement) => pl_drawPosition placement !== Z.of_nat index + 1)
    (zip (seq 0 size) initialEntrants).

Definition buildSingleEliminationBracket_tx (initialEntrants : list BracketEntrantPlacement) :
    build GeneratedBracket :=
  throw_if (placementsInvalid initialEntrants) InvalidPlacements;;
  let athleteCount := length (athleteIdsOf initialEntrants) in
  let bracketSize := length initialEntrants in
  summary ← summarizeBracket athleteCount;
  throw_if (su_bracketSize summary !== bracketSize) InvalidPlacementSize;;
  _ ← pairRounds (seq 1 (su_roundCount summary)) (map toAdvancement initialEntrants);
  linkDownstreamFixtures;;
  built ← gets (fun b => b);
  mret (mkBracket athleteCount bracketSize (su_byeCount summary) (su_roundCount summary)
    (su_firstRoundFixtureCount summary) (su_totalFixtureCount summary) initialEntrants
    (createRounds (su_roundCount summary) built) (bs_fixtures built)).

Definition buildSingleEliminationBracket (initialEntrants : list BracketEntrantPlacement) :
    result GeneratorError GeneratedBracket :=
  match buildSingleEliminationBracket_tx initialEntrants (mkBuildState [] ∅) with
  | Ok (bracket, _) => Ok bracket
  | Err e => Err e
  end.

(** ** The draw *)
Record GenerateBracketInput : Type := mkGenerateInput {
  gi_athleteIds : list uuid;
  gi_designatedByeAthleteIds : option (list uuid);
  gi_maxAthletes : option Z }.

(** [Number.isSafeInteger] of an integer. *)
Definition isSafeInteger (z : Z) : bool := (-(2^53 - 1) <=? z) && (z <=? 2^53 - 1).

Section Draw.
Context {R : Type} (nextInt : R -> nat -> option Z * R).

Definition draw := tx R GeneratorError.

(** A computation that does not draw, as a step of one that does. *)
Definition outcome {A} (x : result GeneratorError A) : draw A := fun r =>
  match x with Ok a => Ok (a, r) | Err e => Err e end.

Definition assertValidAthletes (athleteIds : list uuid) (maxAthletes : option Z) : draw unit :=
  throw_if (length athleteIds <? 2)%nat TooFewAthletes;;
  throw_if (negb (bool_decide (NoDup athleteIds))) DuplicateAthletes;;
  match maxAthletes with
  | None => mret tt
  | Some most =>
      throw_if (negb (isSafeInteger most) || (most <? 2)) InvalidMaximum;;
      throw_if (most <? Z.of_nat (length athleteIds)) (CapacityExceeded most)
  end.

Definition assertValidDesignatedByes (athleteIds designatedByeAthleteIds : list uuid) (byeCount : nat) :
    draw unit :=
  throw_if (negb (bool_decide (NoDup designatedByeAthleteIds))) DuplicateDesignatedByes;;
  throw_if (existsb (fun id => negb (bool_decide (id ∈ athleteIds))) designatedByeAthleteIds)
    UnknownDesignatedBye;;
  throw_if (byeCount <? length designatedByeAthleteIds)%nat TooManyDesignatedByes.

Definition nextRandomIndex (maxExclusive : nat) : draw nat := fun r =>
  let (value, r) := nextInt r maxExclusive in
  match value with
  | Some z => if (z <? 0) || (Z.of_nat maxExclusive <=? z) then Err (InvalidRandomIndex value)
              else Ok (Z.to_nat z, r)
  | None => Err (InvalidRandomIndex value)
  end.

(** [[l[i], l[j]] = [l[j]!, l[i]!]] for indices inside the array. *)
Definition exchange {A} (i j : nat) (l : list A) : list A :=
  match l !! i, l !! j with
  | Some a, Some b => <[j := a]> (<[i := b]> l)
  | _, _ => l
  end.

Fixpoint shuffleFrom {A} (index : nat) (shuffled : list A) : draw (list A) :=
  match index with
  | O => mret shuffled
  | S below =>
      swapIndex ← nextRandomIndex (index + 1);
      shuffleFrom below (exchange index swapIndex shuffled)
  end.
Definition fisherYatesShuffle {A} (items : list A) : draw (list A) :=
  shuffleFrom (length items - 1) items.

Definition chooseByePairPositions (pairCount byeCount : nat) : draw (list nat) :=
  shuffled ← fisherYatesShuffle (seq 0 pairCount);
  mret (take byeCount shuffled).

(** The loop over the pairs [pairIndexes], from the cursors into the two arrays. *)
Fixpoint placePairs (byePairPositions : list nat) (byeRecipients contestEntrants : list uuid)
    (pairIndexes : list nat) (byeIndex contestIndex : nat) : draw (list BracketEntrantPlacement) :=
  match pairIndexes with
  | [] => mret []
  | pairIndex :: later =>
      let first := Z.of_nat pairIndex * 2 + 1 in
      let second := Z.of_nat pairIndex * 2 + 2 in
      if bool_decide (pairIndex ∈ byePairPositions)
      then
        recipient ← or_throw (byeRecipients !! byeIndex) UndefinedElement;
        placements ← placePairs byePairPositions byeRecipients contestEntrants later
          (S byeIndex) contestIndex;
        mret (mkPlacement first (Some recipient) :: mkPlacement second None :: placements)
      else
        red ← or_throw (contestEntrants !! contestIndex) UndefinedElement;
        blue ← or_throw (contestEntrants !! S contestIndex) UndefinedElement;
        placements ← placePairs byePairPositions byeRecipients contestEntrants later
          byeIndex (S (S contestIndex));
        mret (mkPlacement first (Some red) :: mkPlacement second (Some blue) :: placements)
  end.

Definition createInitialEntrants (bracketSize : nat) (byePairPositions : list nat)
    (byeRecipients contestEntrants : list uuid) : draw (list BracketEntrantPlacement) :=
  placePairs byePairPositions byeRecipients contestEntrants (seq 0 (bracketSize / 2)) 0 0.

Definition generateSingleEliminationBracket (input : GenerateBracketInput) : draw GeneratedBracket :=
  assertValidAthletes (gi_athleteIds input) (gi_maxAthletes input);;
  summary ← summarizeBracket (length (gi_athleteIds input));
  let bracketSize := su_bracketSize summary in
  let byeCount := su_byeCount summary in
  let designated := default [] (gi_designatedByeAthleteIds input) in
  assertValidDesignatedByes (gi_athleteIds input) designated byeCount;;
  let remainingAthletes := List.filter (fun id => negb (bool_decide (id ∈ designated))) (gi_athleteIds input) in
  shuffledRemaining ← fisherYatesShuffle remainingAthletes;
  let additionalByeRecipients := take (byeCount - length designated) shuffledRemaining in
  byeRecipients ← fisherYatesShuffle (designated ++ additionalByeRecipients);
  contestEntrants ← fisherYatesShuffle
    (List.filter (fun id => negb (bool_decide (id ∈ byeRecipients))) (gi_athleteIds input));
  byePairPositions ← chooseByePairPositions (bracketSize / 2) byeCount;
  initialEntrants ← createInitialEntrants bracketSize byePairPositions byeRecipients contestEntrants;
  outcome (buildSingleEliminationBracket initialEntrants).
End Draw.

(** A concrete source for the witnesses: the state is the list of the answers. *)
Definition scripted (answers : list Z) (maxExclusive : nat) : option Z * list Z :=
  match answers with [] => (Some 0, []) | z :: later => (Some (z mod Z.of_nat maxExclusive), later) end.

(** ** The shape of a draw *)
Section Shape.
Open Scope nat_scope.

Lemma nextPowerOfTwo_loop_ok value fuel k :
  value <= 2 ^ (k + fuel) -> exists j,
    nextPowerOfTwo_loop fuel (2 ^ k) value = 2 ^ j /\ value <= 2 ^ j /\ (j = k \/ 2 ^ j < 2 * value).
Proof.
  revert k; induction fuel as [|fuel IH]; intros k H; cbn [nextPowerOfTwo_loop].
  - exists k; rewrite Nat.add_0_r in H; auto.
  - destruct (2 ^ k <? value) eqn:E.
    + rewrite <- Nat.pow_succ_r'; destruct (IH (S k)) as (j & -> & Hj & Hlt).
      { rewrite Nat.add_succ_comm; exact H. }
      exists j; split; [reflexivity |]; split; [exact Hj |]; right.
      apply Nat.ltb_lt in E; destruct Hlt as [-> | Hlt]; [cbn; lia | exact Hlt].
    + apply Nat.ltb_ge in E; eauto.
Qed.

(** The loop ends, at the least power of two that is not below [value]. *)
Lemma nextPowerOfTwo_ok value : 2 <= value -> exists k,
  nextPowerOfTwo value = 2 ^ k /\ 1 <= k /\ value <= 2 ^ k < 2 * value.
Proof.
  intros Hv; destruct (nextPowerOfTwo_loop_ok value value 0) as (k & Hk & Hle & Hlt).
  { cbn; pose proof (Nat.pow_gt_lin_r 2 value); lia. }
  unfold nextPowerOfTwo; change 1 with (2 ^ 0) at 1; exists k; split; [exact Hk |].
  destruct k as [|k]; [cbn in Hle; lia |]; destruct Hlt as [Hlt | Hlt]; [discriminate | lia].
Qed.

Lemma summarize_ok {S} n (s : S) su s' : summarizeBracket n s = Ok (su, s') -> exists k,
  s' = s /\ 2 <= n /\ (Z.of_nat n <= MAX_BRACKET_ATHLETES)%Z /\ 1 <= k /\ n <= 2 ^ k < 2 * n /\
  su = mkSummary n (2 ^ k) k (n - 1) (n - 2 ^ k / 2) (2 ^ k - n).
Proof.
  unfold summarizeBracket; intros H; tx_inv H.
  match goal with H1 : (n <? 2) = false |- _ => apply Nat.ltb_ge in H1 end.
  destruct (nextPowerOfTwo_ok n) as (k & Hk & Hk1 & Hb); [assumption |].
  exists k; rewrite Hk, Nat.log2_pow2 by lia; repeat split; try lia.
Qed.

Lemma summarize_total {S} n (s : S) : 2 <= n -> (Z.of_nat n <= MAX_BRACKET_ATHLETES)%Z ->
  exists su, summarizeBracket n s = Ok (su, s).
Proof.
  intros H2 Hm; unfold summarizeBracket.
  rewrite (proj2 (Nat.ltb_ge n 2)), (proj2 (Z.ltb_ge _ _)) by assumption; eexists; reflexivity.
Qed.

(** A round count is at most six. *)
Lemma round_bound n k : (Z.of_nat n <= MAX_BRACKET_ATHLETES)%Z -> 2 ^ k < 2 * n -> k <= 6.
Proof.
  unfold MAX_BRACKET_ATHLETES; intros Hn Hk.
  assert (Hp : 2 ^ k < 2 ^ 7) by (cbn [Nat.pow]; lia).
  apply Nat.pow_lt_mono_r_iff in Hp; lia.
Qed.

(** Ids of different tree positions are different. *)
Definition cells : list (nat * nat) := list_prod (seq 1 6) (seq 1 32).
Lemma cell_ids_distinct : NoDup (map (fun c => fixtureId c.1 c.2) cells).
Proof. apply (bool_decide_eq_true_1 _); vm_compute; reflexivity. Qed.

Lemma in_cells r p : 1 <= r <= 6 -> 1 <= p <= 32 -> In (r, p) cells.
Proof. intros Hr Hp; apply in_prod; apply in_seq; lia. Qed.

Lemma NoDup_map_inj {A B} (f : A -> B) l x y :
  NoDup (map f l) -> In x l -> In y l -> f x = f y -> x = y.
Proof.
  induction l as [|z l IH]; cbn; [tauto |].
  intros [Hz Hn]%list.NoDup_cons Hx Hy E; rewrite list_elem_of_In in Hz.
  destruct Hx as [-> | Hx], Hy as [-> | Hy]; [reflexivity | exfalso | exfalso | auto].
  - apply Hz; rewrite E; apply in_map, Hy.
  - apply Hz; rewrite <- E; apply in_map, Hx.
Qed.

Lemma NoDup_map_via {A B C} (f : A -> B) (g : B -> C) l :
  NoDup (map (fun x => g (f x)) l) -> NoDup (map f l).
Proof.
  induction l as [|x l IH]; cbn; [constructor |].
  intros [Hx Hn]%list.NoDup_cons; apply list.NoDup_cons; split; [| auto].
  intros (y & E & Hy)%list_elem_of_In%in_map_iff; apply Hx, list_elem_of_In, in_map_iff.
  exists y; rewrite E; auto.
Qed.

Lemma fixtureId_inj r p r' p' : 1 <= r <= 6 -> 1 <= p <= 32 -> 1 <= r' <= 6 -> 1 <= p' <= 32 ->
  fixtureId r p = fixtureId r' p' -> r = r' /\ p = p'.
Proof.
  intros; enough ((r, p) = (r', p')) as [= <- <-] by auto.
  apply (NoDup_map_inj (fun c => fixtureId c.1 c.2) cells); auto using cell_ids_distinct, in_cells.
Qed.
End Shape.

(** ** The graph as a tree

    The rounds without the arrays: what a round of nodes becomes, and its fixtures. *)
Section Tree.
Open Scope nat_scope.

Lemma pair_ind {A} (P : list A -> Prop) :
  P [] -> (forall x, P [x]) -> (forall x y l, P l -> P (x :: y :: l)) -> forall l, P l.
Proof.
  intros H0 H1 H2; enough (H : forall l, P l /\ forall x, P (x :: l)) by (intros l; apply H).
  induction l as [|y l [IH IH1]]; auto.
Qed.

(** The node a pair leaves, [None] for two empty branches. *)
Definition parent (r p : nat) (red blue : option Advancement) : option Advancement :=
  match red, blue with
  | Some _, Some _ => Some (FIXTURE_WINNER (fixtureId r p))
  | Some a, None | None, Some a => Some a
  | None, None => None
  end.

Fixpoint advance (r p : nat) (l : list (option Advancement)) : list (option Advancement) :=
  match l with
  | red :: blue :: rest => parent r p red blue :: advance r (S p) rest
  | _ => []
  end.

Fixpoint roundFixtures (r p : nat) (l : list (option Advancement)) : list GeneratedBracketFixture :=
  match l with
  | Some red :: Some blue :: rest => createFixture r p red blue :: roundFixtures r (S p) rest
  | _ :: _ :: rest => roundFixtures r (S p) rest
  | _ => []
  end.

(** Complete pairs, none of them of two empty branches. *)
Fixpoint noDoubleBye (l : list (option Advancement)) : bool :=
  match l with
  | [] => true
  | None :: None :: _ => false
  | _ :: _ :: rest => noDoubleBye rest
  | [_] => false
  end.

Definition addFixtures (r : nat) (fs : list GeneratedBracketFixture) (b : BuildState) : BuildState :=
  fold_left (fun b f => mkBuildState (bs_fixtures b ++ [f])
    (<[r := default [] (bs_fixturesByRound b !! r) ++ [length (bs_fixtures b)]]> (bs_fixturesByRound b))) fs b.

Lemma pairRound_run r l : forall p b, noDoubleBye l = true -> exists nexts,
  pairRound r (2 * p) l b = Ok (nexts, addFixtures r (roundFixtures r (S p) l) b) /\
  map Some nexts = advance r (S p) l.
Proof.
  induction l as [| x | red blue l IH] using pair_ind; intros p b H; [exists []; auto | destruct x; discriminate |].
  assert (Hl : noDoubleBye l = true) by (destruct red, blue; cbn in H; congruence).
  assert (Hp : 2 * p / 2 + 1 = S p) by (rewrite Nat.mul_comm, Nat.div_mul; lia).
  assert (Hs : 2 * p + 2 = 2 * S p) by lia.
  destruct red as [red |], blue as [blue |]; [| | | discriminate].
  - destruct (IH (S p) (addFixtures r [createFixture r (S p) red blue] b) Hl) as (nexts & Hrun & Hn).
    exists (FIXTURE_WINNER (fixtureId r (S p)) :: nexts); cbn [map advance parent roundFixtures]; rewrite Hn.
    split; [| reflexivity]; cbn [pairRound]; unfold mbind, tx_bind, addFixtureToRound, modify, mret, tx_ret.
    rewrite Hp, Hs; unfold addFixtures in Hrun; cbn [fold_left] in Hrun |- *; cbn [createFixture gf_roundNumber gf_id].
    cbn [createFixture] in Hrun; rewrite Hrun; reflexivity.
  - destruct (IH (S p) b Hl) as (nexts & Hrun & Hn); exists (red :: nexts).
    cbn [map advance parent roundFixtures pairRound]; rewrite Hn; split; [| reflexivity].
    unfold mbind, tx_bind, mret, tx_ret; rewrite Hs, Hrun; reflexivity.
  - destruct (IH (S p) b Hl) as (nexts & Hrun & Hn); exists (blue :: nexts).
    cbn [map advance parent roundFixtures pairRound]; rewrite Hn; split; [| reflexivity].
    unfold mbind, tx_bind, mret, tx_ret; rewrite Hs, Hrun; reflexivity.
Qed.

Lemma pairRound_refuses r l : forall i b nexts b', pairRound r i l b = Ok (nexts, b') -> noDoubleBye l = true.
Proof.
  induction l as [| x | red blue l IH] using pair_ind; intros i b nexts b' H;
    [reflexivity | discriminate |].
  cbn [pairRound] in H; destruct red, blue; cbn [noDoubleBye];
    apply bind_ok in H as (x & b1 & Hx & H); try discriminate Hx;
    apply bind_ok in H as (y & b2 & Hy & _); eauto.
Qed.

(** *** Lengths, and rounds without empty branches *)
Lemma advance_length r l : forall p, noDoubleBye l = true -> length l = 2 * length (advance r p l).
Proof.
  induction l as [| x | red blue l IH] using pair_ind; intros p H; [reflexivity | destruct x; discriminate |].
  cbn [advance length]; rewrite (IH (S p)); [lia | destruct red, blue; cbn in H; congruence].
Qed.

Lemma advance_full r l : forall p, noDoubleBye l = true -> Forall is_Some (advance r p l).
Proof.
  induction l as [| x | red blue l IH] using pair_ind; intros p H; cbn [advance]; auto.
  destruct red, blue; try discriminate H; constructor; eauto; eexists; reflexivity.
Qed.

Lemma full_noDoubleBye l : Forall is_Some l -> Nat.even (length l) = true -> noDoubleBye l = true.
Proof.
  induction l as [| x | red blue l IH] using pair_ind; intros Hf He; [reflexivity | discriminate |].
  inversion Hf as [| ? ? [a ->] Hf']; subst; inversion Hf' as [| ? ? [c ->] Hf'']; subst.
  apply IH; assumption.
Qed.

(** *** Every node is the source of one slot, or still in the round *)
Definition sources (fs : list GeneratedBracketFixture) : list Advancement :=
  flat_map (fun f => [gs_source (gf_slots f).1; gs_source (gf_slots f).2]) fs.
Definition winners (fs : list GeneratedBracketFixture) : list Advancement :=
  map (fun f => FIXTURE_WINNER (gf_id f)) fs.
Definition nodes (l : list (option Advancement)) : list Advancement := omap id l.

Lemma slot_source side a : gs_source (createSlot side a) = a.
Proof. destruct a; reflexivity. Qed.

Lemma round_sources r l : forall p, noDoubleBye l = true ->
  Permutation (sources (roundFixtures r p l) ++ nodes (advance r p l))
              (nodes l ++ winners (roundFixtures r p l)).
Proof.
  induction l as [| x | red blue l IH] using pair_ind; intros p H; [reflexivity | destruct x; discriminate |].
  specialize (IH (S p)).
  destruct red as [red |], blue as [blue |]; try discriminate H;
    cbn [roundFixtures advance parent nodes omap list_omap id];
    change (omap id) with nodes; specialize (IH H).
  - cbn [sources winners flat_map map createFixture gf_slots gf_id fst snd];
    change (flat_map _ ?l) with (sources l); change (map _ ?l) with (winners l).
    rewrite !slot_source; cbn [app]; do 2 apply perm_skip.
    rewrite <- !Permutation_middle; apply perm_skip, IH.
  - rewrite <- Permutation_middle; apply perm_skip, IH.
  - rewrite <- Permutation_middle; apply perm_skip, IH.
Qed.
End Tree.

(** ** All rounds *)
Section Rounds.
Open Scope nat_scope.

Fixpoint treeFixtures (rs : list nat) (l : list (option Advancement)) : list GeneratedBracketFixture :=
  match rs with [] => [] | r :: rs => roundFixtures r 1 l ++ treeFixtures rs (advance r 1 l) end.
Fixpoint treeRoot (rs : list nat) (l : list (option Advancement)) : list (option Advancement) :=
  match rs with [] => l | r :: rs => treeRoot rs (advance r 1 l) end.
Fixpoint addRounds (rs : list nat) (l : list (option Advancement)) (b : BuildState) : BuildState :=
  match rs with
  | [] => b
  | r :: rs => addRounds rs (advance r 1 l) (addFixtures r (roundFixtures r 1 l) b)
  end.

(** A level of the tree with [k] rounds to go. *)
Definition level (k : nat) (l : list (option Advancement)) : Prop :=
  length l = 2 ^ k /\ (k = 0 \/ noDoubleBye l = true).

Lemma level_next k r l : level (S k) l -> level k (advance r 1 l) /\ Forall is_Some (advance r 1 l).
Proof.
  intros [Hl [H | H]]; [discriminate |].
  pose proof (advance_full r l 1 H) as Hf; pose proof (advance_length r l 1 H) as Hn.
  rewrite Hl, Nat.pow_succ_r' in Hn.
  assert (Hk : length (advance r 1 l) = 2 ^ k) by lia.
  repeat split; try assumption; destruct k as [|k]; [auto | right; apply full_noDoubleBye; [assumption |]].
  rewrite Hk, Nat.pow_succ_r', Nat.even_mul; reflexivity.
Qed.

Lemma level_paired k l : level (S k) l -> noDoubleBye l = true.
Proof. intros [_ [H | H]]; [discriminate | exact H]. Qed.

Lemma pairRounds_run rs : forall l b, level (length rs) l ->
  pairRounds rs l b = Ok (treeRoot rs l, addRounds rs l b).
Proof.
  induction rs as [|r rs IH]; intros l b Hl; [reflexivity |].
  destruct (pairRound_run r l 0 b (level_paired _ _ Hl)) as (nexts & Hrun & Hn).
  cbn [pairRounds treeRoot addRounds]; unfold mbind, tx_bind; change 0 with (2 * 0).
  rewrite Hrun, Hn; apply IH, level_next, Hl.
Qed.

Lemma tree_sources rs : forall l, level (length rs) l ->
  Permutation (sources (treeFixtures rs l) ++ nodes (treeRoot rs l)) (nodes l ++ winners (treeFixtures rs l)).
Proof.
  induction rs as [|r rs IH]; intros l Hl; cbn [treeFixtures treeRoot]; [cbn; rewrite app_nil_r; reflexivity |].
  unfold sources, winners; rewrite flat_map_app, map_app.
  change (flat_map _ ?x) with (sources x); change (map _ ?x) with (winners x).
  rewrite <- app_assoc, (IH (advance r 1 l)) by apply level_next, Hl.
  rewrite !app_assoc, (round_sources r l 1 (level_paired _ _ Hl)); reflexivity.
Qed.

(** *** Where the fixtures are *)
Lemma advance_lookup r l : forall p i, advance r p l !! i =
  match l !! (2 * i), l !! (2 * i + 1) with
  | Some red, Some blue => Some (parent r (p + i) red blue)
  | _, _ => None
  end.
Proof.
  induction l as [| x | red blue l IH] using pair_ind; intros p i; cbn [advance].
  - reflexivity.
  - destruct i as [|i]; [reflexivity |]; replace (2 * S i) with (S (S (2 * i))) by lia; reflexivity.
  - destruct i as [|i]; [cbn; rewrite Nat.add_0_r; reflexivity |].
    replace (2 * S i) with (S (S (2 * i))) by lia; cbn [lookup list_lookup Nat.add].
    change (list_lookup i ?x) with (x !! i); rewrite IH.
    replace (S p + i) with (p + S i) by lia; reflexivity.
Qed.

Lemma in_roundFixtures r f l : forall p, In f (roundFixtures r p l) <-> exists i red blue,
  l !! (2 * i) = Some (Some red) /\ l !! (2 * i + 1) = Some (Some blue) /\
  f = createFixture r (p + i) red blue.
Proof.
  induction l as [| x | red blue l IH] using pair_ind; intros p.
  - split; [intros [] | intros (i & ? & ? & H & _); discriminate].
  - split; [destruct x; intros [] | intros (i & ? & ? & _ & H & _)].
    rewrite Nat.add_1_r in H; discriminate.
  - assert (Htail : (exists i red' blue', (red :: blue :: l) !! (2 * S i) = Some (Some red') /\
        (red :: blue :: l) !! (2 * S i + 1) = Some (Some blue') /\ f = createFixture r (p + S i) red' blue')
        <-> In f (roundFixtures r (S p) l)).
    { rewrite IH; split; intros (i & c & e & H); exists i, c, e; revert H;
        replace (2 * S i) with (S (S (2 * i))) by lia; replace (p + S i) with (S p + i) by lia; auto. }
    split.
    + destruct red as [c |], blue as [e |]; cbn [roundFixtures]; intros H;
        [destruct H as [<- | H]; [exists 0, c, e; rewrite Nat.add_0_r; auto |] | ..];
        apply Htail in H as (i & Hi); eauto.
    + intros ([|i] & c & e & Hc & He & ->).
      * injection Hc as ->; injection He as ->; rewrite Nat.add_0_r; left; reflexivity.
      * assert (Hin : In (createFixture r (p + S i) c e) (roundFixtures r (S p) l)) by (apply Htail; exists i, c, e; auto).
        destruct red, blue; cbn [roundFixtures]; [right | ..]; exact Hin.
Qed.
(** Fixtures of the tree: their cell, their id, and no two in one cell. *)
Definition cell (f : GeneratedBracketFixture) : nat * nat := (gf_roundNumber f, gf_position f).
Definition cellId (f : GeneratedBracketFixture) : string := fixtureId (gf_roundNumber f) (gf_position f).

Lemma round_cells r k l f : level (S k) l -> In f (roundFixtures r 1 l) ->
  gf_roundNumber f = r /\ 1 <= gf_position f <= 2 ^ k /\ gf_id f = cellId f.
Proof.
  intros Hl (i & red & blue & Hi & _ & ->)%in_roundFixtures; apply lookup_lt_Some in Hi.
  destruct Hl as [Hl _]; rewrite Hl, Nat.pow_succ_r' in Hi; cbn; repeat split; lia.
Qed.

Lemma tree_cells k : forall r l f, level k l -> In f (treeFixtures (seq r k) l) ->
  r <= gf_roundNumber f < r + k /\ 1 <= gf_position f <= 2 ^ (k - 1) /\ gf_id f = cellId f.
Proof.
  induction k as [|k IH]; intros r l f Hl Hf; [destruct Hf |].
  cbn [seq treeFixtures] in Hf; apply in_app_or in Hf as [Hf | Hf].
  - apply (round_cells r k) in Hf as (Hr & Hp & Hid); [| exact Hl].
    replace (S k - 1) with k by lia; repeat split; try assumption; lia.
  - apply IH in Hf as (Hr & Hp & Hid); [| apply level_next, Hl].
    assert (2 ^ (k - 1) <= 2 ^ (S k - 1)) by (apply Nat.pow_le_mono_r; lia).
    repeat split; try assumption; lia.
Qed.

Lemma round_positions r l : forall p,
  NoDup (map gf_position (roundFixtures r p l)) /\ forall f, In f (roundFixtures r p l) -> p <= gf_position f.
Proof.
  induction l as [| x | red blue l IH] using pair_ind; intros p.
  - split; [constructor | intros f []].
  - split; [destruct x; constructor | destruct x; intros f []].
  - destruct (IH (S p)) as [Hn Hp].
    assert (Hrest : NoDup (map gf_position (roundFixtures r (S p) l)) /\
      forall f, In f (roundFixtures r (S p) l) -> p <= gf_position f)
      by (split; [exact Hn | intros f Hf; specialize (Hp f Hf); lia]).
    destruct red as [c |], blue as [e |]; cbn [roundFixtures]; [| exact Hrest..]; split.
    + cbn [map]; apply list.NoDup_cons; split; [| exact Hn].
      rewrite list_elem_of_In, in_map_iff; intros (f & Hf & Hin); specialize (Hp f Hin).
      cbn in Hf; lia.
    + intros f [<- | Hf]; [cbn; lia | apply Hrest, Hf].
Qed.

Lemma tree_cells_distinct k : forall r l, level k l -> NoDup (map cell (treeFixtures (seq r k) l)).
Proof.
  induction k as [|k IH]; intros r l Hl; [constructor |].
  cbn [seq treeFixtures]; rewrite map_app; apply list.NoDup_app; repeat split.
  - apply (NoDup_map_via cell snd), round_positions.
  - intros c (f & <- & Hf)%list_elem_of_In%in_map_iff (g & Hg & Hin)%list_elem_of_In%in_map_iff.
    apply (round_cells r k) in Hf as [Hf _]; [| exact Hl].
    apply tree_cells in Hin as [Hin _]; [| apply level_next, Hl].
    injection Hg; intros; lia.
  - apply IH, level_next, Hl.
Qed.

(** The winner of every fixture before the last round enters the fixture above it. *)
Lemma tree_consumer k : forall r l f, level k l -> In f (treeFixtures (seq r k) l) ->
  gf_roundNumber f + 1 < r + k -> exists red blue,
  let g := createFixture (gf_roundNumber f + 1) ((gf_position f + 1) / 2) red blue in
  In g (treeFixtures (seq r k) l) /\
  (if Nat.odd (gf_position f) then red else blue) = FIXTURE_WINNER (gf_id f).
Proof.
  induction k as [|k IH]; intros r l f Hl Hf Hr; [destruct Hf |].
  destruct (level_next k r l Hl) as [Hl' Hfull].
  cbn [seq treeFixtures] in *; apply in_app_or in Hf as [Hf | Hf].
  - apply in_roundFixtures in Hf as (i & a & c & Ha & Hc & ->).
    cbn [createFixture gf_roundNumber gf_position gf_id] in *.
    assert (Hi : advance r 1 l !! i = Some (Some (FIXTURE_WINNER (fixtureId r (1 + i)))))
      by (rewrite advance_lookup, Ha, Hc; reflexivity).
    destruct k as [|k]; [lia |]; set (q := i / 2).
    assert (Hq : i = 2 * q \/ i = 2 * q + 1)
      by (pose proof (Nat.div_mod_eq i 2); pose proof (Nat.mod_upper_bound i 2); unfold q; lia).
    assert (Hlen : 2 * q + 1 < length (advance r 1 l))
      by (apply lookup_lt_Some in Hi; destruct Hl' as [Hl' _]; rewrite Hl', Nat.pow_succ_r' in *; lia).
    destruct (lookup_lt_is_Some_2 (advance r 1 l) (2 * q)) as [x Hx]; [lia |].
    destruct (lookup_lt_is_Some_2 (advance r 1 l) (2 * q + 1)) as [y Hy]; [lia |].
    destruct (Forall_lookup_1 _ _ _ _ Hfull Hx) as [red ->].
    destruct (Forall_lookup_1 _ _ _ _ Hfull Hy) as [blue ->].
    exists red, blue; split.
    + apply in_or_app; right; cbn [seq treeFixtures]; apply in_or_app; left.
      apply in_roundFixtures; exists q, red, blue; repeat split; try assumption.
      f_equal; [lia | replace (1 + i + 1) with (i + 1 * 2) by lia; rewrite Nat.div_add by lia; fold q; lia].
    + rewrite Nat.add_1_l, Nat.odd_succ; destruct Hq as [Hq | Hq]; rewrite Hq in Hi |- *.
      * rewrite Nat.even_mul; cbn [Nat.even orb]; rewrite Hi in Hx; injection Hx as <-; reflexivity.
      * rewrite Nat.even_add, Nat.even_mul; cbn; rewrite Hi in Hy; injection Hy as <-; reflexivity.
  - destruct (IH (S r) _ f Hl' Hf) as (red & blue & Hin & Hs); [lia |].
    exists red, blue; split; [apply in_or_app; right; exact Hin | exact Hs].
Qed.

Lemma tree_slots rs : forall l f, In f (treeFixtures rs l) -> exists red blue,
  gf_slots f = (createSlot RED red, createSlot BLUE blue).
Proof.
  induction rs as [|r rs IH]; intros l f; [intros [] |]; cbn [treeFixtures].
  intros [(i & red & blue & _ & _ & ->)%in_roundFixtures | H]%in_app_or; [exists red, blue; reflexivity | eauto].
Qed.

(** The rounds come one after the other. *)
Lemma tree_order k : forall r l i j f g, level k l -> treeFixtures (seq r k) l !! i = Some f ->
  treeFixtures (seq r k) l !! j = Some g -> gf_roundNumber f < gf_roundNumber g -> i < j.
Proof.
  induction k as [|k IH]; intros r l i j f g Hl Hi Hj Hlt; [discriminate |].
  destruct (level_next k r l Hl) as [Hl' _]; cbn [seq treeFixtures] in Hi, Hj.
  assert (Hround : forall n x, roundFixtures r 1 l !! n = Some x -> gf_roundNumber x = r).
  { intros n x Hx; apply (round_cells r k l); [exact Hl |]; apply list_elem_of_In, list_elem_of_lookup; eauto. }
  apply lookup_app_Some in Hi as [Hi | [Hni Hi]]; apply lookup_app_Some in Hj as [Hj | [Hnj Hj]].
  - apply Hround in Hi, Hj; lia.
  - apply lookup_lt_Some in Hi; lia.
  - assert (Hin : In f (treeFixtures (seq (S r) k) (advance r 1 l))) by (apply list_elem_of_In, list_elem_of_lookup; eauto).
    apply tree_cells in Hin as [Hin _]; [| exact Hl']; apply Hround in Hj; lia.
  - pose proof (IH (S r) _ _ _ _ _ Hl' Hi Hj Hlt); lia.
Qed.

(** With two entrants the last round is one fixture, whose winner is the root. *)
Lemma tree_final k : forall r l, level (S k) l -> 2 <= length (nodes l) -> exists init red blue,
  let final := createFixture (r + k) 1 red blue in
  treeFixtures (seq r (S k)) l = init ++ [final] /\
  treeRoot (seq r (S k)) l = [Some (FIXTURE_WINNER (gf_id final))] /\
  forall f, In f init -> gf_roundNumber f < r + k.
Proof.
  induction k as [|k IH]; intros r l Hl Hn.
  - destruct Hl as [Hl _]; destruct l as [| red [| blue [| ? ?]]]; try discriminate Hl.
    destruct red as [red |], blue as [blue |]; cbn in Hn; try lia.
    exists [], red, blue; rewrite Nat.add_0_r; repeat split; intros f [].
  - destruct (level_next (S k) r l Hl) as [Hl' Hfull].
    assert (Hn' : length (nodes (advance r 1 l)) = 2 ^ S k).
    { rewrite <- (proj1 Hl'); clear -Hfull; induction Hfull as [| x xs [a ->] _ IH]; [reflexivity |].
      change (S (length (nodes xs)) = S (length xs)); congruence. }
    destruct (IH (S r) _ Hl') as (init & red & blue & Ht & Hroot & Hinit).
    { rewrite Hn', Nat.pow_succ_r'; pose proof (Nat.pow_nonzero 2 k); lia. }
    exists (roundFixtures r 1 l ++ init), red, blue.
    replace (r + S k) with (S r + k) by lia.
    change (seq r (S (S k))) with (r :: seq (S r) (S k)); cbn [treeFixtures treeRoot].
    rewrite Ht, Hroot, app_assoc; repeat split.
    intros f [Hf | Hf]%in_app_or; [| apply Hinit, Hf].
    apply (round_cells r (S k)) in Hf as [-> _]; [lia | exact Hl].
Qed.
End Rounds.

(** ** Linking and indexing *)
Section Linking.
Open Scope nat_scope.

Definition slotEdge (g : GeneratedBracketFixture) (s : GeneratedBracketSlot) :
    list (string * (string * AthleteColor)) :=
  match gs_source s with ENTRANT _ => [] | FIXTURE_WINNER id => [(id, (gf_id g, gs_side s))] end.
Definition fixtureEdges (g : GeneratedBracketFixture) : list (string * (string * AthleteColor)) :=
  slotEdge g (gf_slots g).1 ++ slotEdge g (gf_slots g).2.
Definition edges (fs : list GeneratedBracketFixture) : list (string * (string * AthleteColor)) :=
  flat_map fixtureEdges fs.

Definition linkOne (e : string * (string * AthleteColor)) (f : GeneratedBracketFixture) :=
  if gf_id f === e.1 then f <| gf_downstream := Some e.2 |> else f.
Definition linked (es : list (string * (string * AthleteColor))) (f : GeneratedBracketFixture) :=
  fold_left (fun f e => linkOne e f) es f.

Lemma linked_keeps es : forall f, gf_id (linked es f) = gf_id f /\ gf_slots (linked es f) = gf_slots f /\
  gf_roundNumber (linked es f) = gf_roundNumber f /\ gf_position (linked es f) = gf_position f.
Proof.
  induction es as [|e es IH]; intros f; [auto |]; cbn [linked fold_left]; change (fold_left _ es ?x) with (linked es x).
  destruct (IH (linkOne e f)) as (-> & -> & -> & ->); unfold linkOne; destruct (gf_id f === e.1); auto.
Qed.

Lemma linked_unused es : forall f, ~ In (gf_id f) (map fst es) -> linked es f = f.
Proof.
  induction es as [|e es IH]; intros f H; [reflexivity |]; cbn in *.
  unfold linkOne; rewrite bool_decide_eq_false_2 by intuition; apply IH; tauto.
Qed.

Lemma linked_once es : forall f t, NoDup (map fst es) -> In (gf_id f, t) es ->
  gf_downstream (linked es f) = Some t.
Proof.
  induction es as [|e es IH]; intros f t Hn Hin; [destruct Hin |].
  cbn [map] in Hn; apply list.NoDup_cons in Hn as [He Hn]; rewrite list_elem_of_In in He.
  destruct Hin as [-> | Hin]; cbn [linked fold_left]; change (fold_left _ es ?x) with (linked es x); unfold linkOne.
  - cbn [fst snd]; rewrite bool_decide_eq_true_2 by reflexivity; rewrite linked_unused; [reflexivity | exact He].
  - rewrite bool_decide_eq_false_2; [apply IH; assumption |].
    intros E; apply He; rewrite <- E; apply (in_map fst _ _ Hin).
Qed.

Lemma alter_by_id g l : forall i f, NoDup (map gf_id l) -> l !! i = Some f ->
  alter g i l = map (fun x => if gf_id x === gf_id f then g x else x) l.
Proof.
  induction l as [|x l IH]; intros i f Hn Hi; [discriminate |].
  cbn [map] in Hn; apply list.NoDup_cons in Hn as [Hx Hn]; rewrite list_elem_of_In in Hx.
  destruct i as [|i]; cbn [map].
  - injection Hi as ->; rewrite bool_decide_eq_true_2 by reflexivity; cbn; f_equal.
    rewrite <- (map_id l) at 1; apply map_ext_in; intros y Hy.
    rewrite bool_decide_eq_false_2; [reflexivity | intros E; apply Hx; rewrite <- E; apply in_map, Hy].
  - cbn in Hi; rewrite bool_decide_eq_false_2.
    + change (x :: alter g i l = x :: map (fun x => if gf_id x === gf_id f then g x else x) l).
      f_equal; apply IH; assumption.
    + intros E; apply Hx; rewrite E; apply in_map, list_elem_of_In, list_elem_of_lookup; eauto.
Qed.

Lemma fixturesById_ok fs id : NoDup (map gf_id fs) -> In id (map gf_id fs) -> exists i f,
  fixturesById fs !! id = Some i /\ fs !! i = Some f /\ gf_id f = id.
Proof.
  intros Hn (f & Hf & Hin)%in_map_iff; apply list_elem_of_In, list_elem_of_lookup in Hin as [i Hi].
  exists i, f; split; [| auto]; unfold fixturesById; apply elem_of_list_to_map.
  - assert (Hfst : forall n, map fst (zip (map gf_id fs) (seq n (length fs))) = map gf_id fs).
    { clear; induction fs as [|x fs IH]; intros n; cbn; [reflexivity | rewrite IH; reflexivity]. }
    change (NoDup (map fst (reverse (zip (map gf_id fs) (seq 0 (length fs)))))).
    change (map fst ?x) with (fst <$> x); rewrite fmap_reverse; rewrite reverse_Permutation.
    change (fst <$> ?x) with (map fst x); rewrite Hfst; exact Hn.
  - apply elem_of_reverse, list_elem_of_lookup; exists i; rewrite lookup_zip_with.
    change (map gf_id fs) with (gf_id <$> fs); rewrite list_lookup_fmap, Hi; cbn.
    rewrite lookup_seq_lt by (apply lookup_lt_Some in Hi; exact Hi); rewrite Hf; reflexivity.
Qed.
Lemma linked_snoc es e l : map (linkOne e) (map (linked es) l) = map (linked (es ++ [e])) l.
Proof. rewrite map_map; apply map_ext; intros f; unfold linked; rewrite fold_left_app; reflexivity. Qed.

Lemma map_linked_ids es l : map gf_id (map (linked es) l) = map gf_id l.
Proof. rewrite map_map; apply map_ext; intros f; apply linked_keeps. Qed.

Lemma linkSlot_run fs es m g s : NoDup (map gf_id fs) ->
  (forall e, In e (slotEdge g s) -> In e.1 (map gf_id fs)) ->
  linkSlot (fixturesById fs) g s (mkBuildState (map (linked es) fs) m) =
  Ok (tt, mkBuildState (map (linked (es ++ slotEdge g s)) fs) m).
Proof.
  intros Hn Hin; unfold linkSlot, slotEdge in *; destruct (gs_source s) as [| id]; [rewrite app_nil_r; reflexivity |].
  destruct (fixturesById_ok fs id Hn) as (i & f & Hi & Hf & Hid); [apply (Hin (id, (gf_id g, gs_side s))); left; reflexivity |].
  rewrite Hi, <- linked_snoc; unfold setDownstream, or_throw, mbind, tx_bind, mret, tx_ret, modify.
  do 2 f_equal; cbn [field_upd]; unfold field_upd, eta_BuildState; cbn; f_equal.
  rewrite (alter_by_id _ _ i (linked es f)).
  - apply map_ext; intros x; rewrite (proj1 (linked_keeps es f)), Hid; reflexivity.
  - rewrite map_linked_ids; exact Hn.
  - change (map (linked es) fs) with (linked es <$> fs); rewrite list_lookup_fmap, Hf; reflexivity.
Qed.

Lemma linkDownstream_run fs m : NoDup (map gf_id fs) ->
  (forall e, In e (edges fs) -> In e.1 (map gf_id fs)) ->
  linkDownstreamFixtures (mkBuildState fs m) = Ok (tt, mkBuildState (map (linked (edges fs)) fs) m).
Proof.
  intros Hn Hin; unfold linkDownstreamFixtures; unfold mbind at 1, tx_bind at 1, gets; cbn [bs_fixtures].
  enough (Hgen : forall gs es, (forall e, In e (edges gs) -> In e.1 (map gf_id fs)) ->
    for_each (fun fixture => linkSlot (fixturesById fs) fixture (gf_slots fixture).1;;
                linkSlot (fixturesById fs) fixture (gf_slots fixture).2) gs (mkBuildState (map (linked es) fs) m)
    = Ok (tt, mkBuildState (map (linked (es ++ edges gs)) fs) m)).
  { specialize (Hgen fs [] Hin); cbn [app] in Hgen; rewrite <- Hgen; f_equal; f_equal.
    symmetry; apply map_id. }
  clear Hin; induction gs as [|g gs IH]; intros es Hin; cbn [for_each edges flat_map].
  - rewrite app_nil_r; reflexivity.
  - cbn [edges flat_map] in Hin; change (flat_map _ gs) with (edges gs) in *.
    unfold mbind, tx_bind; unfold fixtureEdges in *.
    rewrite !linkSlot_run by (try assumption; intros e He; apply Hin; rewrite !in_app_iff; auto).
    rewrite IH by (intros e He; apply Hin; rewrite !in_app_iff; auto).
    rewrite !app_assoc; reflexivity.
Qed.

(** *** The references of the rounds *)
Definition refs (b : BuildState) (n : nat) : list nat := default [] (bs_fixturesByRound b !! n).
Definition indexed (b : BuildState) : Prop := forall n,
  Forall (fun i => i < length (bs_fixtures b)) (refs b n) /\
  omap (fun i => bs_fixtures b !! i) (refs b n) =
    List.filter (fun f => gf_roundNumber f =? n) (bs_fixtures b).

Lemma omap_lookup_app {A} (l l' : list A) js : Forall (fun i => i < length l) js ->
  omap (fun i => (l ++ l') !! i) js = omap (fun i => l !! i) js.
Proof. induction 1 as [|i js Hi _ IH]; cbn; [reflexivity |]; rewrite lookup_app_l, IH by exact Hi; reflexivity. Qed.

Lemma addFixtures_indexed r fs : forall b, (forall f, In f fs -> gf_roundNumber f = r) -> indexed b ->
  indexed (addFixtures r fs b) /\ bs_fixtures (addFixtures r fs b) = bs_fixtures b ++ fs.
Proof.
  induction fs as [|f fs IH]; intros b Hfs Hb; cbn [addFixtures fold_left]; [rewrite app_nil_r; auto |].
  change (fold_left _ fs ?x) with (addFixtures r fs x).
  match goal with |- indexed (addFixtures _ _ ?x) /\ _ => set (b1 := x) end.
  destruct (IH b1) as [Hi Hf]; [intros g Hg; apply Hfs; right; exact Hg | | split; [exact Hi |]].
  2: { rewrite Hf; cbn; rewrite <- app_assoc; reflexivity. }
  assert (Hr : gf_roundNumber f = r) by (apply Hfs; left; reflexivity).
  intros n; destruct (Hb n) as [Hlt Heq]; unfold b1, refs; cbn [bs_fixtures bs_fixturesByRound].
  rewrite List.filter_app; cbn [List.filter]; destruct (base.decide (n = r)) as [-> | Hne].
  - rewrite lookup_insert_eq, Hr, Nat.eqb_refl; change (default [] (Some ?x)) with x; fold (refs b r); split.
    + apply Forall_app; split; [eapply list.Forall_impl; [exact Hlt |]; intros i Hi'; cbn in Hi'; rewrite length_app; cbn; lia |].
      constructor; [rewrite length_app; cbn; lia | constructor].
    + rewrite omap_app, omap_lookup_app, Heq by exact Hlt; cbn.
      rewrite lookup_app_r, Nat.sub_diag by lia; reflexivity.
  - rewrite lookup_insert_ne by congruence; change (default [] _) with (refs b n).
    rewrite Hr, (proj2 (Nat.eqb_neq r n)), app_nil_r by congruence; split.
    + eapply list.Forall_impl; [exact Hlt |]; intros i Hi'; cbn in Hi'; rewrite length_app; cbn; lia.
    + rewrite omap_lookup_app; [exact Heq | exact Hlt].
Qed.

Lemma addRounds_indexed rs : forall l b, indexed b ->
  indexed (addRounds rs l b) /\ bs_fixtures (addRounds rs l b) = bs_fixtures b ++ treeFixtures rs l.
Proof.
  induction rs as [|r rs IH]; intros l b Hb; cbn [addRounds treeFixtures]; [rewrite app_nil_r; auto |].
  destruct (addFixtures_indexed r (roundFixtures r 1 l) b) as [Hi Hf]; [| exact Hb |].
  { intros f (i & c & e & _ & _ & ->)%in_roundFixtures; reflexivity. }
  destruct (IH (advance r 1 l) _ Hi) as [Hi' Hf']; split; [exact Hi' |].
  rewrite Hf', Hf, app_assoc; reflexivity.
Qed.

Lemma round_fixtures b es n : indexed b ->
  omap (fun i => map (linked es) (bs_fixtures b) !! i) (refs b n) =
  List.filter (fun f => gf_roundNumber f =? n) (map (linked es) (bs_fixtures b)).
Proof.
  intros Hb; destruct (Hb n) as [_ Heq].
  assert (Hm : omap (fun i => map (linked es) (bs_fixtures b) !! i) (refs b n) =
    map (linked es) (omap (fun i => bs_fixtures b !! i) (refs b n))).
  { clear; induction (refs b n) as [|i js IH]; cbn; [reflexivity |].
    change (map (linked es) (bs_fixtures b)) with (linked es <$> bs_fixtures b) in *.
    rewrite list_lookup_fmap; destruct (bs_fixtures b !! i); cbn; rewrite IH; reflexivity. }
  rewrite Hm, Heq; generalize (bs_fixtures b); clear; intros l; induction l as [|f l IH]; cbn; [reflexivity |].
  destruct (linked_keeps es f) as (_ & _ & -> & _); destruct (_ =? _); cbn; rewrite IH; reflexivity.
Qed.
End Linking.

(** ** What a built bracket is *)
Section Built.
Open Scope nat_scope.

(** A single-elimination tree over the placements [ps]: every athlete enters one slot, and the
    winner of every fixture but the final enters one slot of the next round. *)
Record single_elimination (ps : list BracketEntrantPlacement) (b : GeneratedBracket) : Prop := {
  se_entrants : gb_initialEntrants b = ps /\ gb_athleteCount b = length (athleteIdsOf ps) /\
    gb_bracketSize b = length ps /\ gb_byeCount b + gb_athleteCount b = gb_bracketSize b /\
    gb_bracketSize b = 2 ^ gb_roundCount b;
  se_count : length (gb_fixtures b) + 1 = gb_athleteCount b /\
    gb_totalFixtureCount b = length (gb_fixtures b);
  se_ids : NoDup (map gf_id (gb_fixtures b));
  se_direct : Permutation (omap (fun a => match a with ENTRANT e => Some e | _ => None end) (sources (gb_fixtures b)))
                          (athleteIdsOf ps);
  se_winner : forall f, In f (gb_fixtures b) -> gf_roundNumber f < gb_roundCount b ->
    exists g, In g (gb_fixtures b) /\ gf_roundNumber g = gf_roundNumber f + 1 /\
      gf_position g = (gf_position f + 1) / 2 /\
      gf_downstream f = Some (gf_id g, if Nat.odd (gf_position f) then RED else BLUE) /\
      gs_source (if Nat.odd (gf_position f) then (gf_slots g).1 else (gf_slots g).2) = FIXTURE_WINNER (gf_id f);
  se_source : forall g s id, In g (gb_fixtures b) -> s = (gf_slots g).1 \/ s = (gf_slots g).2 ->
    gs_source s = FIXTURE_WINNER id -> exists f, In f (gb_fixtures b) /\ gf_id f = id /\
      gf_downstream f = Some (gf_id g, gs_side s);
  se_final : exists init final, gb_fixtures b = init ++ [final] /\ gf_downstream final = None /\
    gf_roundNumber final = gb_roundCount b /\ gf_position final = 1 /\
    forall f, In f init -> gf_roundNumber f < gb_roundCount b;
  se_order : forall i j f g, gb_fixtures b !! i = Some f -> gb_fixtures b !! j = Some g ->
    gf_roundNumber f < gf_roundNumber g -> i < j;
  se_slots : forall f, In f (gb_fixtures b) -> exists red blue,
    gf_slots f = (createSlot RED red, createSlot BLUE blue);
  se_cells : NoDup (map (fun f => (gf_roundNumber f, gf_position f)) (gb_fixtures b)) /\
    forall f, In f (gb_fixtures b) -> 1 <= gf_roundNumber f <= gb_roundCount b /\ 1 <= gf_position f;
  se_rounds : map gr_roundNumber (gb_rounds b) = seq 1 (gb_roundCount b) /\
    forall r, In r (gb_rounds b) -> gr_fixtures r =
      List.filter (fun f => gf_roundNumber f =? gr_roundNumber r) (gb_fixtures b) }.

Definition winnerId (a : Advancement) : option string :=
  match a with FIXTURE_WINNER id => Some id | _ => None end.
Definition entrantId_of (a : Advancement) : option uuid :=
  match a with ENTRANT e => Some e | _ => None end.

Lemma omap_winners (fs : list GeneratedBracketFixture) :
  omap winnerId (winners fs) = map gf_id fs /\ omap entrantId_of (winners fs) = [].
Proof. unfold winners; split; induction fs as [|f fs IH]; cbn; congruence. Qed.

Lemma omap_placed ps : omap winnerId (nodes (map toAdvancement ps)) = [] /\
  omap entrantId_of (nodes (map toAdvancement ps)) = athleteIdsOf ps.
Proof.
  unfold athleteIdsOf, toAdvancement; split; induction ps as [|p ps IH]; cbn; try reflexivity;
    destruct (pl_athleteId p); cbn; try exact IH; f_equal; exact IH.
Qed.

Lemma nodes_placed ps : length (nodes (map toAdvancement ps)) = length (athleteIdsOf ps).
Proof.
  unfold athleteIdsOf, toAdvancement; induction ps as [|p ps IH]; cbn; [reflexivity |].
  destruct (pl_athleteId p); cbn; [f_equal |]; exact IH.
Qed.

Lemma edges_sources fs : map fst (edges fs) = omap winnerId (sources fs).
Proof.
  induction fs as [|f fs IH]; [reflexivity |]; unfold edges; cbn [flat_map sources].
  change (flat_map fixtureEdges fs) with (edges fs); change (flat_map _ fs) with (sources fs).
  rewrite map_app, IH, omap_app; f_equal; unfold fixtureEdges, slotEdge.
  destruct (gs_source (gf_slots f).1), (gs_source (gf_slots f).2); reflexivity.
Qed.

Lemma in_edges fs g s id : In g fs -> s = (gf_slots g).1 \/ s = (gf_slots g).2 ->
  gs_source s = FIXTURE_WINNER id -> In (id, (gf_id g, gs_side s)) (edges fs).
Proof.
  intros Hg Hs Hid; apply in_flat_map; exists g; split; [exact Hg |]; unfold fixtureEdges, slotEdge.
  apply in_or_app; destruct Hs as [<- | <-]; rewrite Hid; cbn; auto.
Qed.

Lemma sources_linked es fs : sources (map (linked es) fs) = sources fs.
Proof.
  induction fs as [|f fs IH]; [reflexivity |]; cbn [map sources flat_map].
  change (flat_map _ ?x) with (sources x); rewrite IH.
  destruct (linked_keeps es f) as (_ & -> & _); reflexivity.
Qed.

(** The placements a bracket can be built from. *)
Definition draws (ps : list BracketEntrantPlacement) (k : nat) : Prop :=
  length ps = 2 ^ S k /\ (forall i p, ps !! i = Some p -> pl_drawPosition p = (Z.of_nat i + 1)%Z) /\
  NoDup (athleteIdsOf ps) /\ (Z.of_nat (length (athleteIdsOf ps)) <= MAX_BRACKET_ATHLETES)%Z /\
  length ps < 2 * length (athleteIdsOf ps) /\ noDoubleBye (map toAdvancement ps) = true.

(** The facts about the tree of valid placements the bracket's fields are read from. *)
Lemma tree_facts ps k : draws ps k -> let l := map toAdvancement ps in let fs := treeFixtures (seq 1 (S k)) l in
  level (S k) l /\ k < 6 /\ NoDup (map gf_id fs) /\ length fs + 1 = length (athleteIdsOf ps) /\
  Permutation (omap entrantId_of (sources fs)) (athleteIdsOf ps) /\
  exists final, Permutation (map fst (edges fs) ++ [gf_id final]) (map gf_id fs) /\
    (exists init, fs = init ++ [final] /\ (forall f, In f init -> gf_roundNumber f < S k)) /\
    gf_roundNumber final = S k /\ gf_position final = 1 /\ gf_downstream final = None.
Proof.
  intros (Hlen & _ & _ & Hmax & Hhalf & Hbye) l fs.
  assert (Hl : level (S k) l) by (split; [unfold l; rewrite length_map; exact Hlen | auto]).
  assert (Hk : k < 6) by (rewrite Hlen in Hhalf; apply (round_bound _ _ Hmax) in Hhalf; lia).
  assert (H2 : 2 <= length (nodes l))
    by (unfold l; rewrite nodes_placed; rewrite Hlen, Nat.pow_succ_r' in Hhalf; pose proof (Nat.pow_nonzero 2 k); lia).
  destruct (tree_final k 1 l Hl H2) as (init & red & blue & Hfs & Hroot & Hinit).
  pose proof (tree_sources (seq 1 (S k)) l) as Hperm; rewrite length_seq in Hperm; specialize (Hperm Hl).
  rewrite Hroot in Hperm; fold fs in Hperm, Hfs; set (final := createFixture (1 + k) 1 red blue) in *.
  destruct (omap_winners fs) as [Hwin Hwin0], (omap_placed ps) as [Hp0 Hp]; fold l in Hp0, Hp.
  split; [exact Hl |]; split; [exact Hk |]; split; [| split; [| split]].
  - assert (Hcells : map gf_id fs = map (fun c => fixtureId c.1 c.2) (map cell fs)).
    { rewrite map_map; apply map_ext_in; intros f Hf; apply tree_cells in Hf as (_ & _ & Hid); [exact Hid | exact Hl]. }
    rewrite Hcells; pose proof (tree_cells_distinct (S k) 1 l Hl) as Hn; fold fs in Hn.
    assert (Hin : forall c, In c (map cell fs) -> In c cells).
    { intros c (f & <- & Hf)%in_map_iff; apply tree_cells in Hf as (Hr & Hp' & _); [| exact Hl].
      assert (2 ^ (S k - 1) <= 2 ^ 5) by (apply Nat.pow_le_mono_r; lia).
      apply in_cells; [lia |]; change (2 ^ 5) with 32 in *; lia. }
    revert Hn Hin; generalize (map cell fs); clear; intros cs; induction cs as [|c cs IH]; cbn [map]; [constructor |].
    intros [Hc Hn]%list.NoDup_cons Hin; apply list.NoDup_cons; split; [| apply IH; auto with datatypes].
    intros (c' & E & Hc')%list_elem_of_In%in_map_iff; apply Hc, list_elem_of_In.
    rewrite (NoDup_map_inj _ _ c c' cell_ids_distinct) by (auto with datatypes); exact Hc'.
  - apply Permutation_length in Hperm; rewrite !length_app in Hperm; unfold winners in Hperm.
    rewrite length_map, (nodes_placed ps : length (nodes l) = _) in Hperm; cbn [length] in Hperm.
    assert (Hs : length (sources fs) = 2 * length fs)
      by (clear; induction fs as [|f fs IH]; [reflexivity |]; change (S (S (length (sources fs))) = 2 * S (length fs)); lia).
    change (length (nodes [_])) with 1 in Hperm; lia.
  - pose proof (omap_Permutation entrantId_of _ _ Hperm) as He; rewrite !omap_app, Hwin0, Hp in He.
    cbn in He; rewrite !app_nil_r in He; exact He.
  - exists final; split; [| split; [exists init; auto | auto]].
    pose proof (omap_Permutation winnerId _ _ Hperm) as He; rewrite !omap_app, Hwin, Hp0 in He.
    rewrite edges_sources; exact He.
Qed.
Lemma positions_ok ps :
  existsb (fun '(index, placement) => pl_drawPosition placement !== (Z.of_nat index + 1)%Z)
    (zip (seq 0 (length ps)) ps) = false
  <-> (forall i p, ps !! i = Some p -> pl_drawPosition p = (Z.of_nat i + 1)%Z).
Proof.
  assert (Hg : forall n, existsb (fun '(index, placement) => pl_drawPosition placement !== (Z.of_nat index + 1)%Z)
    (zip (seq n (length ps)) ps) = false <->
    (forall i p, ps !! i = Some p -> pl_drawPosition p = (Z.of_nat (n + i) + 1)%Z)); [| apply (Hg 0)].
  induction ps as [|p ps IH]; intros n; cbn [length seq zip zip_with existsb].
  - split; [intros _ i p; discriminate | reflexivity].
  - rewrite orb_false_iff, IH, negb_false_iff, bool_decide_eq_true; split.
    + intros [H0 H] [|i] q Hq; [injection Hq as <-; rewrite Nat.add_0_r; exact H0 |].
      rewrite <- Nat.add_succ_comm; exact (H i q Hq).
    + intros H; split; [rewrite (H 0 p eq_refl), Nat.add_0_r; reflexivity |].
      intros i q Hq; rewrite Nat.add_succ_comm; exact (H (S i) q Hq).
Qed.

Lemma land_pow2 k : Nat.land (2 ^ k) (2 ^ k - 1) = 0.
Proof.
  replace (2 ^ k - 1) with (Nat.ones k) by (rewrite Nat.ones_equiv; lia).
  rewrite Nat.land_ones, Nat.Div0.mod_same; reflexivity.
Qed.

Lemma pow2_between j k n : n <= 2 ^ j < 2 * n -> n <= 2 ^ k < 2 * n -> j = k.
Proof.
  intros Hj Hk; destruct (Nat.lt_trichotomy j k) as [H | [H | H]]; [| exact H |];
    apply (Nat.pow_le_mono_r 2) in H; rewrite ?Nat.pow_succ_r' in H; lia.
Qed.

Definition built (ps : list BracketEntrantPlacement) (k : nat) : BuildState :=
  addRounds (seq 1 (S k)) (map toAdvancement ps) (mkBuildState [] ∅).
Definition linkedFixtures (ps : list BracketEntrantPlacement) (k : nat) : list GeneratedBracketFixture :=
  let fs := treeFixtures (seq 1 (S k)) (map toAdvancement ps) in map (linked (edges fs)) fs.

Lemma built_indexed ps k : indexed (built ps k) /\
  bs_fixtures (built ps k) = treeFixtures (seq 1 (S k)) (map toAdvancement ps).
Proof.
  apply addRounds_indexed; intros n; unfold refs; cbn; rewrite lookup_empty; split; [constructor | reflexivity].
Qed.

Lemma athletes_le ps : length (athleteIdsOf ps) <= length ps.
Proof.
  unfold athleteIdsOf; induction ps as [|p ps IH]; [reflexivity |].
  cbn; destruct (pl_athleteId p); cbn; lia.
Qed.

(** Valid placements are built, whatever they are. *)
Lemma build_run ps k : draws ps k -> let n := length (athleteIdsOf ps) in
  buildSingleEliminationBracket ps = Ok (mkBracket n (2 ^ S k) (2 ^ S k - n) (S k) (n - 2 ^ S k / 2) (n - 1) ps
    (createRounds (S k) (mkBuildState (linkedFixtures ps k) (bs_fixturesByRound (built ps k))))
    (linkedFixtures ps k)).
Proof.
  intros Hd n; pose proof (tree_facts ps k Hd) as (Hl & _ & Hids & _ & _ & final & Hperm & _).
  destruct Hd as (Hlen & Hpos & Hnd & Hmax & Hhalf & _); pose proof (athletes_le ps) as Hle; fold n in Hle, Hhalf, Hmax.
  assert (Hp : 2 ^ S k >= 2) by (rewrite Nat.pow_succ_r'; pose proof (Nat.pow_nonzero 2 k); lia).
  assert (Hn : 2 <= n) by lia.
  unfold buildSingleEliminationBracket, buildSingleEliminationBracket_tx.
  assert (Hv : placementsInvalid ps = false).
  { unfold placementsInvalid; fold n; rewrite (proj2 (positions_ok ps) Hpos), (bool_decide_eq_true_2 _ Hnd), Hlen, land_pow2.
    rewrite !(proj2 (Nat.ltb_ge _ _)) by assumption; reflexivity. }
  rewrite (bind_step _ _ _ tt (mkBuildState [] ∅)) by (rewrite Hv; reflexivity); fold n.
  destruct (summarize_total n (mkBuildState [] ∅) Hn Hmax) as [su Hsu]; rewrite (bind_step _ _ _ _ _ Hsu).
  apply summarize_ok in Hsu as (j & _ & _ & _ & _ & Hj & ->); cbn [su_bracketSize su_roundCount su_byeCount su_firstRoundFixtureCount su_totalFixtureCount].
  rewrite (pow2_between j (S k) n) by lia; rewrite Hlen, bool_decide_eq_true_2 by reflexivity.
  rewrite (bind_step _ _ _ tt (mkBuildState [] ∅)) by reflexivity.
  assert (Hrounds := pairRounds_run (seq 1 (S k)) (map toAdvancement ps) (mkBuildState [] ∅)).
  rewrite length_seq in Hrounds; rewrite (bind_step _ _ _ _ _ (Hrounds Hl)); fold (built ps k).
  destruct (built_indexed ps k) as [_ Hb]; destruct (built ps k) as [fs m]; cbn [bs_fixtures] in Hb; subst fs.
  assert (Hlink := linkDownstream_run (treeFixtures (seq 1 (S k)) (map toAdvancement ps)) m Hids).
  rewrite (bind_step _ _ _ _ _ (Hlink ltac:(intros e He; apply list_elem_of_In; rewrite <- Hperm;
    apply list_elem_of_In, in_or_app; left; apply in_map, He))); reflexivity.
Qed.

(** Only valid placements are. *)
Lemma build_ok ps b : buildSingleEliminationBracket ps = Ok b -> exists k, draws ps k.
Proof.
  unfold buildSingleEliminationBracket, buildSingleEliminationBracket_tx; intros H.
  match type of H with match ?c with _ => _ end = _ => destruct c as [[b' s'] | e] eqn:E; [| discriminate] end.
  apply bind_ok in E as (u & s1 & Hv & E); apply throw_if_ok in Hv as [Hv ->].
  apply bind_ok in E as (su & s2 & Hs & E).
  apply summarize_ok in Hs as (k & -> & H2 & Hmax & Hk & Hb & ->); cbn [su_bracketSize su_roundCount] in E.
  apply bind_ok in E as (u' & s3 & Hz & E); apply throw_if_ok in Hz as [Hz ->].
  apply negb_false_iff, bool_decide_eq_true in Hz; unfold placementsInvalid in Hv; rewrite !orb_false_iff in Hv.
  destruct Hv as [[[[_ _] _] Hnd] Hpos]; apply negb_false_iff, bool_decide_eq_true in Hnd.
  pose proof (proj1 (positions_ok ps) Hpos) as Hdraw; destruct k as [|k]; [lia |]; exists k; unfold draws; rewrite <- Hz.
  repeat split; try assumption; try lia.
  apply bind_ok in E as (l & s4 & Hr & _); cbn [seq pairRounds] in Hr.
  apply bind_ok in Hr as (nexts & s5 & Hp & _); exact (pairRound_refuses _ _ _ _ _ _ Hp).
Qed.

(** The winner of a fixture before the final enters its slot of the next round. *)
Lemma winner_linked k l f : let fs := treeFixtures (seq 1 (S k)) l in
  level (S k) l -> NoDup (map fst (edges fs)) -> In f fs -> gf_roundNumber f < S k ->
  exists g, In g fs /\ gf_roundNumber g = gf_roundNumber f + 1 /\ gf_position g = (gf_position f + 1) / 2 /\
    gf_downstream (linked (edges fs) f) = Some (gf_id g, if Nat.odd (gf_position f) then RED else BLUE) /\
    gs_source (if Nat.odd (gf_position f) then (gf_slots g).1 else (gf_slots g).2) = FIXTURE_WINNER (gf_id f).
Proof.
  intros fs Hl Hes Hf Hlt; destruct (tree_consumer (S k) 1 l f Hl Hf) as (red & blue & Hg & Hs); [lia |].
  set (g := createFixture (gf_roundNumber f + 1) ((gf_position f + 1) / 2) red blue) in *.
  exists g; split; [exact Hg |]; split; [reflexivity |]; split; [reflexivity |]; split.
  - apply linked_once; [exact Hes |].
    pose proof (in_edges fs g (if Nat.odd (gf_position f) then (gf_slots g).1 else (gf_slots g).2) (gf_id f) Hg) as He.
    destruct (Nat.odd (gf_position f)); cbn [g createFixture gf_slots fst snd] in He |- *;
      rewrite slot_source, Hs in He; cbn [createSlot gs_side] in He; apply He; auto.
  - destruct (Nat.odd (gf_position f)); cbn [g createFixture gf_slots fst snd]; rewrite slot_source; exact Hs.
Qed.

(** A built bracket is a single-elimination tree over its placements. *)
Lemma built_tree ps b : buildSingleEliminationBracket ps = Ok b -> single_elimination ps b.
Proof.
  intros H; destruct (build_ok ps b H) as [k Hd]; rewrite (build_run ps k Hd) in H; injection H as <-.
  destruct (tree_facts ps k Hd) as (Hl & Hk & Hids & Hcount & Hent & final & Hperm & (init & Hfs & Hinit) & Hr & Hpos & Hdown).
  destruct Hd as (Hlen & _ & _ & _ & Hhalf & _); pose proof (athletes_le ps) as Hle.
  unfold linkedFixtures; set (l := map toAdvancement ps) in *; set (fs := treeFixtures (seq 1 (S k)) l) in *.
  assert (Hes : NoDup (map fst (edges fs)) /\ ~ In (gf_id final) (map fst (edges fs))).
  { rewrite <- Hperm in Hids; apply list.NoDup_app in Hids as (Hn & Hd & _); split; [exact Hn |].
    intros Hin; apply (Hd (gf_id final)); [apply list_elem_of_In, Hin | left]. }
  destruct Hes as [Hes Hfin]; split; cbn [gb_initialEntrants gb_athleteCount gb_bracketSize gb_byeCount gb_roundCount
    gb_fixtures gb_totalFixtureCount gb_rounds].
  - assert (Hsize : length ps = 2 ^ k + (2 ^ k + 0)) by exact Hlen; repeat split; lia.
  - rewrite length_map; lia.
  - rewrite map_linked_ids; exact Hids.
  - rewrite sources_linked; exact Hent.
  - intros f' (f & <- & Hf)%in_map_iff Hlt; destruct (linked_keeps (edges fs) f) as (Eid & _ & Er & Ep).
    rewrite Er, Ep, Eid in *; destruct (winner_linked k l f Hl Hes Hf Hlt) as (g & Hg & H).
    destruct (linked_keeps (edges fs) g) as (Gid & Gs & Gr & Gp).
    exists (linked (edges fs) g); rewrite Gid, Gs, Gr, Gp; split; [apply in_map, Hg | exact H].
  - intros g' s id (g & <- & Hg)%in_map_iff Hs Hid; destruct (linked_keeps (edges fs) g) as (-> & Es & _).
    rewrite Es in Hs; pose proof (in_edges fs g s id Hg Hs Hid) as He.
    assert (Hin : In id (map gf_id fs))
      by (apply list_elem_of_In; rewrite <- Hperm; apply list_elem_of_In, in_or_app; left; apply (in_map fst _ _ He)).
    apply in_map_iff in Hin as (f & <- & Hf); exists (linked (edges fs) f).
    split; [apply in_map, Hf |]; split; [apply linked_keeps |]; apply linked_once; assumption.
  - exists (map (linked (edges fs)) init), final; rewrite Hfs at 2; rewrite map_app; cbn [map].
    rewrite (linked_unused (edges fs) final) by exact Hfin; repeat split; try assumption.
    intros f' (f & <- & Hf)%in_map_iff; destruct (linked_keeps (edges fs) f) as (_ & _ & -> & _); apply Hinit, Hf.
  - intros i j f' g'; change (map (linked (edges fs)) fs) with (linked (edges fs) <$> fs); rewrite !list_lookup_fmap.
    destruct (fs !! i) as [f |] eqn:Hi; [| discriminate]; destruct (fs !! j) as [g |] eqn:Hj; [| discriminate].
    intros [= <-] [= <-]; destruct (linked_keeps (edges fs) f) as (_ & _ & -> & _), (linked_keeps (edges fs) g) as (_ & _ & -> & _).
    exact (tree_order (S k) 1 l i j f g Hl Hi Hj).
  - intros f' (f & <- & Hf)%in_map_iff; destruct (linked_keeps (edges fs) f) as (_ & -> & _); exact (tree_slots _ _ f Hf).
  - split; [| intros f' (f & <- & Hf)%in_map_iff; destruct (linked_keeps (edges fs) f) as (_ & _ & -> & ->);
              apply (tree_cells (S k) 1 l f Hl) in Hf; lia].
    rewrite map_map; erewrite map_ext; [exact (tree_cells_distinct (S k) 1 l Hl) |].
    intros f; destruct (linked_keeps (edges fs) f) as (_ & _ & -> & ->); reflexivity.
  - unfold createRounds; rewrite map_map; cbn [gr_roundNumber]; split; [apply map_id |].
    intros r (n & <- & _)%in_map_iff; cbn [gr_fixtures gr_roundNumber bs_fixtures bs_fixturesByRound].
    destruct (built_indexed ps k) as [Hi Hb]; fold l fs in Hb.
    pose proof (round_fixtures _ (edges fs) n Hi) as Hrf; rewrite Hb in Hrf; exact Hrf.
Qed.
(** *** Where the athletes enter *)

(** The other place of a pair, and the side of a place *)
Definition sibling (i : nat) : nat := if Nat.even i then i + 1 else i - 1.
Definition sideAt (i : nat) : AthleteColor := if Nat.even i then RED else BLUE.
Definition slotOn (c : AthleteColor) (f : GeneratedBracketFixture) : GeneratedBracketSlot :=
  match c with RED => (gf_slots f).1 | BLUE => (gf_slots f).2 end.

(** The athlete of the placement at [i] enters in the first round, in the fixture of its pair; or, when the pair has
    nobody else, in the second, in the fixture of the pair of that pair. *)
Definition entrySeat (ps : list BracketEntrantPlacement) (i : nat) : nat * nat * AthleteColor :=
  match ps !! sibling i ≫= pl_athleteId with
  | Some _ => (1, i / 2 + 1, sideAt i)
  | None => (2, i / 2 / 2 + 1, sideAt (i / 2))
  end.

Lemma sibling_cases i : exists q, i / 2 = q /\
  (i = 2 * q /\ Nat.even i = true /\ sibling i = 2 * q + 1 \/ i = 2 * q + 1 /\ Nat.even i = false /\ sibling i = 2 * q).
Proof.
  exists (i / 2); split; [reflexivity |]; pose proof (Nat.div_mod_eq i 2) as E; pose proof (Nat.mod_upper_bound i 2 ltac:(lia)).
  assert (Hc : i mod 2 = 0 \/ i mod 2 = 1) by lia; set (q := i / 2) in *; unfold sibling; destruct Hc as [Hc | Hc]; rewrite Hc in E.
  - left; rewrite E, Nat.add_0_r, Nat.even_mul; auto.
  - right; rewrite E, Nat.even_add, Nat.even_mul; repeat split; cbn; lia.
Qed.

Lemma sibling_in i k : i < 2 ^ S k -> sibling i < 2 ^ S k.
Proof. rewrite Nat.pow_succ_r'; destruct (sibling_cases i) as (q & _ & [(-> & _ & ->) | (-> & _ & ->)]); lia. Qed.

(** An athlete whose sibling advances too enters a fixture of the round. *)
Lemma round_seat r l i y e : l !! i = Some (Some (ENTRANT e)) -> l !! sibling i = Some (Some y) ->
  exists f, In f (roundFixtures r 1 l) /\ (gf_roundNumber f, gf_position f) = (r, i / 2 + 1) /\
    gs_source (slotOn (sideAt i) f) = ENTRANT e.
Proof.
  intros Hi Hy; destruct (sibling_cases i) as (q & Hq & Hc).
  assert (Hpair : exists red blue, l !! (2 * q) = Some (Some red) /\ l !! (2 * q + 1) = Some (Some blue) /\
    (if Nat.even i then red else blue) = ENTRANT e).
  { destruct Hc as [(E & -> & Es) | (E & -> & Es)]; rewrite Es in Hy; rewrite E in Hi; eauto 6. }
  destruct Hpair as (red & blue & Hr & Hb & Hs); exists (createFixture r (1 + q) red blue).
  split; [apply in_roundFixtures; eauto 6 |]; cbn [createFixture gf_roundNumber gf_position]; split; [f_equal; lia |].
  unfold sideAt; destruct (Nat.even i); unfold slotOn; cbn [createFixture gf_slots fst snd]; rewrite slot_source; exact Hs.
Qed.

(** A bye takes its athlete to the place of the pair in the second round, which there is. *)
Lemma bye_advances ps k i e : draws ps k -> ps !! i ≫= pl_athleteId = Some e -> ps !! sibling i ≫= pl_athleteId = None ->
  k <> 0 /\ advance 1 1 (map toAdvancement ps) !! (i / 2) = Some (Some (ENTRANT e)).
Proof.
  intros (Hlen & _ & _ & _ & Hhalf & _) He Hs; split.
  - intros ->; change (2 ^ 1) with 2 in Hlen; destruct ps as [| p0 [| p1 [| ? ?]]]; cbn in Hlen; try lia.
    destruct i as [| [| i]]; [| | discriminate He]; cbn in He, Hs; unfold athleteIdsOf in Hhalf; cbn in Hhalf; rewrite He, Hs in Hhalf; cbn in Hhalf; lia.
  - assert (Hat : forall j, map toAdvancement ps !! j = option_map toAdvancement (ps !! j)) by (intros j; apply list_lookup_fmap).
    assert (Hlt : i < 2 ^ S k) by (rewrite <- Hlen; destruct (ps !! i) eqn:E; [apply lookup_lt_Some in E; exact E | discriminate]).
    apply sibling_in in Hlt; rewrite <- Hlen in Hlt; destruct (lookup_lt_is_Some_2 _ _ Hlt) as [x Hx]; rewrite Hx in Hs; cbn in Hs.
    destruct (ps !! i) as [p |] eqn:Ep; [| discriminate]; cbn in He.
    rewrite advance_lookup; destruct (sibling_cases i) as (q & -> & [(-> & _ & Es) | (-> & _ & Es)]); rewrite Es in Hx; rewrite !Hat, Hx, Ep;
      cbn [option_map]; unfold toAdvancement; rewrite He, Hs; reflexivity.
Qed.

Lemma tree_seats ps k i e : draws ps k -> ps !! i ≫= pl_athleteId = Some e ->
  exists f, In f (treeFixtures (seq 1 (S k)) (map toAdvancement ps)) /\
    (gf_roundNumber f, gf_position f) = (entrySeat ps i).1 /\ gs_source (slotOn (entrySeat ps i).2 f) = ENTRANT e.
Proof.
  intros Hd He; pose proof (tree_facts ps k Hd) as (Hl & _); set (l := map toAdvancement ps) in *.
  assert (Hat : forall j o, ps !! j ≫= pl_athleteId = Some o -> l !! j = Some (Some (ENTRANT o))).
  { intros j o Ho; unfold l; change (map toAdvancement ps) with (toAdvancement <$> ps); rewrite list_lookup_fmap.
    destruct (ps !! j) as [p |]; [| discriminate]; cbn in *; unfold toAdvancement; rewrite Ho; reflexivity. }
  unfold entrySeat; destruct (ps !! sibling i ≫= pl_athleteId) as [o |] eqn:Eo; cbn [fst snd seq treeFixtures].
  - destruct (round_seat 1 l i (ENTRANT o) e (Hat _ _ He) (Hat _ _ Eo)) as (f & Hf & H); exists f; split; [apply in_or_app; auto | exact H].
  - destruct (bye_advances ps k i e Hd He Eo) as [Hk Hq]; fold l in Hq; destruct k as [| k]; [destruct (Hk eq_refl) |].
    destruct (level_next (S k) 1 l Hl) as [[Hl2 _] Hfull]; pose proof (lookup_lt_Some _ _ _ Hq) as Hlt; rewrite Hl2 in Hlt.
    apply sibling_in in Hlt; rewrite <- Hl2 in Hlt; destruct (lookup_lt_is_Some_2 _ _ Hlt) as [y Hy].
    destruct (Forall_lookup_1 _ _ _ _ Hfull Hy) as [a ->].
    destruct (round_seat 2 _ _ a e Hq Hy) as (f & Hf & H); exists f.
    split; [apply in_or_app; right; cbn [seq treeFixtures]; apply in_or_app; left; exact Hf | exact H].
Qed.

(** Every placed athlete enters a built bracket at the seat of its placement. *)
Lemma built_seats ps b i e : buildSingleEliminationBracket ps = Ok b -> ps !! i ≫= pl_athleteId = Some e ->
  exists f, In f (gb_fixtures b) /\ (gf_roundNumber f, gf_position f) = (entrySeat ps i).1 /\ gs_source (slotOn (entrySeat ps i).2 f) = ENTRANT e.
Proof.
  intros H He; destruct (build_ok ps b H) as [k Hd]; rewrite (build_run ps k Hd) in H; injection H as <-; cbn [gb_fixtures].
  destruct (tree_seats ps k i e Hd He) as (f & Hf & Hc & Hs); unfold linkedFixtures.
  set (fs := treeFixtures _ _) in *; exists (linked (edges fs) f); destruct (linked_keeps (edges fs) f) as (_ & Es & Er & Ep).
  split; [apply in_map, Hf |]; rewrite Er, Ep; split; [exact Hc |]; unfold slotOn in *; rewrite Es; exact Hs.
Qed.
End Built.

(** ** What a draw is *)

(** A source that answers every request inside its bounds. *)
Definition sane {R} (nextInt : R -> nat -> option Z * R) : Prop := forall r n, (0 < n)%nat ->
  exists z r', nextInt r n = (Some z, r') /\ 0 <= z < Z.of_nat n.

Section Draws.
Open Scope nat_scope.
Context {R : Type} (nextInt : R -> nat -> option Z * R).

Lemma exchange_perm {A} i j (l : list A) : Permutation (exchange i j l) l.
Proof.
  unfold exchange; destruct (l !! i) as [a |] eqn:Hi; [| reflexivity].
  destruct (l !! j) as [b |] eqn:Hj; [| reflexivity].
  destruct (base.decide (i = j)) as [<- | Hne].
  - rewrite list_insert_insert_eq, list_insert_id by congruence; reflexivity.
  - symmetry; rewrite list_insert_insert_ne by congruence.
    apply Permutation_inj; split; [rewrite !length_insert; reflexivity |].
    exists (fun k => if base.decide (k = i) then j else if base.decide (k = j) then i else k).
    pose proof (lookup_lt_Some _ _ _ Hi); pose proof (lookup_lt_Some _ _ _ Hj); split.
    + intros x y; repeat destruct (base.decide _); congruence.
    + intros k; destruct (base.decide (k = i)) as [-> |]; [| destruct (base.decide (k = j)) as [-> |]].
      * rewrite list_lookup_insert_ne, list_lookup_insert_eq by (rewrite ?length_insert; congruence); congruence.
      * rewrite list_lookup_insert_eq by (rewrite length_insert; assumption); congruence.
      * rewrite !list_lookup_insert_ne by congruence; reflexivity.
Qed.

Lemma shuffleFrom_ok {A} index : forall (l l' : list A) r r',
  shuffleFrom nextInt index l r = Ok (l', r') -> Permutation l' l.
Proof.
  induction index as [|below IH]; intros l l' r r' H; cbn [shuffleFrom] in H.
  - apply ret_ok in H as [<- _]; reflexivity.
  - apply bind_ok in H as (j & r1 & _ & H); rewrite (IH _ _ _ _ H); apply exchange_perm.
Qed.

Lemma shuffle_ok {A} (l l' : list A) r r' :
  fisherYatesShuffle nextInt l r = Ok (l', r') -> Permutation l' l.
Proof. apply shuffleFrom_ok. Qed.

Lemma shuffle_total {A} (l : list A) r : sane nextInt -> exists l' r',
  fisherYatesShuffle nextInt l r = Ok (l', r').
Proof.
  intros Hs; unfold fisherYatesShuffle; generalize (length l - 1); intros index.
  revert l r; induction index as [|below IH]; intros l r; cbn [shuffleFrom]; [eexists _, _; reflexivity |].
  destruct (Hs r (S below + 1)) as (z & r1 & Hz & Hb); [lia |].
  assert (Hd : nextRandomIndex nextInt (S below + 1) r = Ok (Z.to_nat z, r1)).
  { unfold nextRandomIndex; rewrite Hz, (proj2 (Z.ltb_ge _ _)), (proj2 (Z.leb_gt _ _)) by lia; reflexivity. }
  rewrite (bind_step _ _ _ _ _ Hd); apply IH.
Qed.

Lemma choose_ok pairs byes positions r r' : byes <= pairs ->
  chooseByePairPositions nextInt pairs byes r = Ok (positions, r') ->
  NoDup positions /\ length positions = byes /\ forall i, i ∈ positions -> i ∈ seq 0 pairs.
Proof.
  intros Hle H; apply bind_ok in H as (l & r1 & Hl & H); apply ret_ok in H as [<- _].
  apply shuffle_ok in Hl; pose proof (NoDup_seq 0 pairs) as Hn; rewrite <- Hl in Hn.
  apply Permutation_length in Hl as Hlen; rewrite length_seq in Hlen; repeat split.
  - eapply sublist_NoDup; [exact Hn | apply sublist_take].
  - rewrite length_take; lia.
  - intros i Hi; rewrite <- Hl; eapply elem_of_take in Hi as (j & Hj & _).
    apply list_elem_of_lookup; eauto.
Qed.

(** The athletes whose opponent of the first round is an empty place. *)
Fixpoint byeAthletes (ps : list BracketEntrantPlacement) : list uuid :=
  match ps with
  | a :: b :: rest =>
      match pl_athleteId a, pl_athleteId b with
      | Some x, None | None, Some x => x :: byeAthletes rest
      | _, _ => byeAthletes rest
      end
  | _ => []
  end.

Definition inside (positions : list nat) (k m : nat) : nat :=
  length (List.filter (fun i => bool_decide (i ∈ positions)) (seq k m)).

Lemma placePairs_run positions byes contest m : forall k bi ci r,
  bi + inside positions k m = length byes -> ci + 2 * m = length contest + 2 * inside positions k m ->
  exists ps, placePairs positions byes contest (seq k m) bi ci r = Ok (ps, r : R) /\
    length ps = 2 * m /\ noDoubleBye (map toAdvancement ps) = true /\ byeAthletes ps = drop bi byes /\
    Permutation (athleteIdsOf ps) (drop bi byes ++ drop ci contest) /\
    forall i p, ps !! i = Some p -> pl_drawPosition p = (Z.of_nat (2 * k + i) + 1)%Z.
Proof.
  induction m as [|m IH]; intros k bi ci r Hb Hc.
  - unfold inside in *; cbn in Hb, Hc; exists []; cbn; rewrite !drop_ge by lia; repeat split; first [reflexivity | intros i p Hi; discriminate Hi].
  - assert (Hin : inside positions k (S m) = (if bool_decide (k ∈ positions) then 1 else 0) + inside positions (S k) m)
      by (unfold inside; cbn; destruct (bool_decide (k ∈ positions)); reflexivity).
    assert (Hle : inside positions (S k) m <= m)
      by (unfold inside; rewrite <- (length_seq m (S k)) at 2; apply filter_length_le).
    rewrite Hin in Hb, Hc; cbn [seq placePairs]; destruct (bool_decide (k ∈ positions)).
    + destruct (lookup_lt_is_Some_2 byes bi) as [x Hx]; [lia |].
      destruct (IH (S k) (S bi) ci r) as (ps & Hrun & Hlen & Hd & Hby & Hp & Hpos); [lia.. |].
      rewrite Hx; exists (mkPlacement (Z.of_nat k * 2 + 1) (Some x) :: mkPlacement (Z.of_nat k * 2 + 2) None :: ps).
      unfold mbind, tx_bind, or_throw, mret, tx_ret; rewrite Hrun, (drop_S _ _ _ Hx).
      split; [reflexivity |]; split; [cbn; lia |]; split; [exact Hd |]; split; [cbn; rewrite Hby; reflexivity |].
      split; [cbn; rewrite Hp; reflexivity |].
      intros [|[|i]] p Hi; [injection Hi as <-; cbn; lia.. |]; cbn in Hi; rewrite (Hpos i p Hi); lia.
    + destruct (lookup_lt_is_Some_2 contest ci) as [x Hx]; [lia |].
      destruct (lookup_lt_is_Some_2 contest (S ci)) as [y Hy]; [lia |].
      destruct (IH (S k) bi (S (S ci)) r) as (ps & Hrun & Hlen & Hd & Hby & Hp & Hpos); [lia.. |].
      rewrite Hx, Hy; exists (mkPlacement (Z.of_nat k * 2 + 1) (Some x) :: mkPlacement (Z.of_nat k * 2 + 2) (Some y) :: ps).
      unfold mbind, tx_bind, or_throw, mret, tx_ret; rewrite Hrun.
      rewrite (drop_S _ _ _ Hx), (drop_S _ _ _ Hy).
      split; [reflexivity |]; split; [cbn; lia |]; split; [exact Hd |]; split; [exact Hby |].
      split; [cbn; rewrite <- !Permutation_middle, Hp; reflexivity |].
      intros [|[|i]] p Hi; [injection Hi as <-; cbn; lia.. |]; cbn in Hi; rewrite (Hpos i p Hi); lia.
Qed.
Lemma NoDup_keep {A} (p : A -> bool) l : NoDup l -> NoDup (List.filter p l).
Proof.
  induction 1 as [|x l Hx _ IH]; cbn; [constructor |]; destruct (p x); [| exact IH].
  constructor; [| exact IH]; rewrite list_elem_of_In, filter_In, <- list_elem_of_In; tauto.
Qed.

Definition outside (d l : list uuid) : list uuid := List.filter (fun x => negb (bool_decide (x ∈ d))) l.

Lemma elem_of_outside d l x : x ∈ outside d l <-> (x ∉ d) /\ x ∈ l.
Proof.
  unfold outside; rewrite !list_elem_of_In, filter_In, negb_true_iff, bool_decide_eq_false, list_elem_of_In; tauto.
Qed.

Lemma outside_perm l d : NoDup l -> NoDup d -> (forall x, x ∈ d -> x ∈ l) ->
  Permutation l (d ++ outside d l).
Proof.
  intros Hl Hd Hin; apply NoDup_Permutation; [exact Hl | apply list.NoDup_app; repeat split |].
  - exact Hd.
  - intros x Hx [Hx' _]%elem_of_outside; exact (Hx' Hx).
  - apply NoDup_keep, Hl.
  - intros x; rewrite elem_of_app, elem_of_outside; split; [| intros [H | [_ H]]; auto].
    destruct (base.decide (x ∈ d)); auto.
Qed.

Lemma inside_all positions pairs : NoDup positions -> (forall i, i ∈ positions -> i ∈ seq 0 pairs) ->
  inside positions 0 pairs = length positions.
Proof.
  intros Hn Hin; unfold inside; apply Permutation_length, NoDup_Permutation; [apply NoDup_keep, NoDup_seq | exact Hn |].
  intros i; rewrite list_elem_of_In, filter_In, bool_decide_eq_true, <- list_elem_of_In.
  split; [tauto |]; intros Hi; split; [exact (Hin i Hi) | exact Hi].
Qed.

(** The recipients: the designated athletes, filled up to the number of byes. *)
Lemma recipients ids designated shuffled byes count :
  NoDup ids -> NoDup designated -> (forall x, x ∈ designated -> x ∈ ids) -> length designated <= count <= length ids ->
  Permutation shuffled (outside designated ids) ->
  Permutation byes (designated ++ take (count - length designated) shuffled) ->
  NoDup byes /\ length byes = count /\ (forall x, x ∈ byes -> x ∈ ids) /\ (forall x, x ∈ designated -> x ∈ byes).
Proof.
  intros Hn Hd Hin Hc Hs Hb.
  assert (Hperm : Permutation ids (designated ++ shuffled)) by (rewrite Hs; apply outside_perm; assumption).
  pose proof Hn as Hall; rewrite Hperm in Hall.
  apply Permutation_length in Hperm as Hlen; rewrite length_app in Hlen; split; [| split; [| split]].
  - rewrite Hb; eapply sublist_NoDup; [exact Hall |].
    apply sublist_app; [reflexivity | apply sublist_take].
  - rewrite Hb, length_app, length_take; lia.
  - intros x; rewrite Hb, Hperm, !elem_of_app; intros [H | H]; [auto | right].
    apply elem_of_take in H as (i & Hi & _); apply list_elem_of_lookup; eauto.
  - intros x Hx; rewrite Hb; apply elem_of_app; auto.
Qed.

(** The placements of a draw with [2 ^ S k - n] byes. *)
Lemma placed k ids byes contest positions r : let n := length ids in let count := 2 ^ S k - n in
  NoDup ids -> (Z.of_nat n <= MAX_BRACKET_ATHLETES)%Z -> n <= 2 ^ S k < 2 * n ->
  NoDup byes -> length byes = count -> (forall x, x ∈ byes -> x ∈ ids) -> Permutation contest (outside byes ids) ->
  NoDup positions -> length positions = count -> (forall i, i ∈ positions -> i ∈ seq 0 (2 ^ S k / 2)) ->
  exists ps, createInitialEntrants (2 ^ S k) positions byes contest r = Ok (ps, r : R) /\
    draws ps k /\ Permutation (athleteIdsOf ps) ids /\ byeAthletes ps = byes.
Proof.
  intros n count Hn Hmax Hk Hb Hblen Hbin Hcon Hp Hplen Hpin; subst count.
  assert (Hperm : Permutation ids (byes ++ contest)) by (rewrite Hcon; apply outside_perm; assumption).
  apply Permutation_length in Hperm as Hlen; rewrite length_app in Hlen; fold n in Hlen.
  assert (Hhalf : 2 ^ S k / 2 = 2 ^ k) by (rewrite Nat.pow_succ_r', Nat.mul_comm, Nat.div_mul; lia).
  pose proof (inside_all _ _ Hp Hpin) as Hins; rewrite Hhalf in *.
  unfold createInitialEntrants; rewrite Hhalf; rewrite Nat.pow_succ_r' in *.
  destruct (placePairs_run positions byes contest (2 ^ k) 0 0 0 r) as (ps & Hrun & Hl & Hd & Hby & Hat & Hpos);
    [lia | rewrite Hins, Hplen; clear Hins Hhalf; subst n; lia |].
  cbn [drop] in Hby, Hat; rewrite <- Hperm in Hat; exists ps; split; [exact Hrun |]; split; [| split; assumption].
  apply Permutation_length in Hat as Hat'; unfold draws; rewrite Hat, Hl, Nat.pow_succ_r'; fold n.
  repeat split; try assumption; lia.
Qed.

(** What a draw owes its input: a tree over exactly the athletes, in which the byes go to
    different athletes, the designated ones among them, as many as the size leaves. *)
Definition drawn (input : GenerateBracketInput) (b : GeneratedBracket) : Prop :=
  let ps := gb_initialEntrants b in
  single_elimination ps b /\ Permutation (athleteIdsOf ps) (gi_athleteIds input) /\
  NoDup (byeAthletes ps) /\ length (byeAthletes ps) = gb_byeCount b /\
  forall x, x ∈ default [] (gi_designatedByeAthleteIds input) -> x ∈ byeAthletes ps.

(** The inputs a draw accepts. *)
Definition acceptable (input : GenerateBracketInput) : Prop :=
  let ids := gi_athleteIds input in let designated := default [] (gi_designatedByeAthleteIds input) in
  2 <= length ids /\ NoDup ids /\ (Z.of_nat (length ids) <= MAX_BRACKET_ATHLETES)%Z /\
  (forall most, gi_maxAthletes input = Some most ->
    isSafeInteger most = true /\ (2 <= most)%Z /\ (Z.of_nat (length ids) <= most)%Z) /\
  NoDup designated /\ (forall x, x ∈ designated -> x ∈ ids) /\
  length designated <= nextPowerOfTwo (length ids) - length ids.
Lemma assertValidAthletes_ok ids max r u r' : assertValidAthletes (R := R) ids max r = Ok (u, r') ->
  r' = r /\ NoDup ids /\ 2 <= length ids.
Proof.
  intros H; apply bind_ok in H as (? & r1 & Hx & H); apply throw_if_ok in Hx as [Hx ->].
  apply bind_ok in H as (? & r2 & Hy & H); apply throw_if_ok in Hy as [Hy ->].
  apply negb_false_iff, bool_decide_eq_true in Hy; apply Nat.ltb_ge in Hx; split; [| auto].
  destruct max as [most |]; [| apply ret_ok in H as [_ ->]; reflexivity].
  apply bind_ok in H as (? & r3 & Hz & H); apply throw_if_ok in Hz as [_ ->]; apply throw_if_ok in H as [_ ->].
  reflexivity.
Qed.

Lemma assertValidByes_iff ids designated count r u r' :
  assertValidDesignatedByes (R := R) ids designated count r = Ok (u, r') <->
  r' = r /\ NoDup designated /\ (forall x, x ∈ designated -> x ∈ ids) /\ length designated <= count.
Proof.
  unfold assertValidDesignatedByes; split.
  - intros H; apply bind_ok in H as (? & r1 & Hx & H); apply throw_if_ok in Hx as [Hx ->].
    apply bind_ok in H as (? & r2 & Hy & H); apply throw_if_ok in Hy as [Hy ->].
    apply throw_if_ok in H as [Hz ->]; apply negb_false_iff, bool_decide_eq_true in Hx; apply Nat.ltb_ge in Hz.
    repeat split; try assumption; intros y Hin; pose proof (existsb_none _ _ Hy y) as Hd.
    apply list_elem_of_In in Hin; specialize (Hd Hin); apply negb_false_iff, bool_decide_eq_true in Hd; exact Hd.
  - intros (-> & Hn & Hin & Hle); destruct u; rewrite bool_decide_eq_true_2 by exact Hn.
    rewrite (proj2 (Nat.ltb_ge _ _)) by exact Hle.
    destruct (existsb _ designated) eqn:E; [| reflexivity]; apply existsb_exists in E as (x & Hx & E).
    apply list_elem_of_In in Hx; rewrite bool_decide_eq_true_2 in E by (apply Hin, Hx); discriminate.
Qed.

(** The end of a draw: the placements from what the shuffles returned, and the tree. *)
Lemma draw_end input k shuffled byes contest positions r r1 r2 r3 r4 :
  let ids := gi_athleteIds input in let designated := default [] (gi_designatedByeAthleteIds input) in
  let count := 2 ^ S k - length ids in
  NoDup ids -> (Z.of_nat (length ids) <= MAX_BRACKET_ATHLETES)%Z -> length ids <= 2 ^ S k < 2 * length ids ->
  NoDup designated -> (forall x, x ∈ designated -> x ∈ ids) -> length designated <= count ->
  fisherYatesShuffle nextInt (outside designated ids) r = Ok (shuffled, r1) ->
  fisherYatesShuffle nextInt (designated ++ take (count - length designated) shuffled) r1 = Ok (byes, r2) ->
  fisherYatesShuffle nextInt (outside byes ids) r2 = Ok (contest, r3) ->
  chooseByePairPositions nextInt (2 ^ S k / 2) count r3 = Ok (positions, r4) ->
  exists ps b, createInitialEntrants (2 ^ S k) positions byes contest r4 = Ok (ps, r4) /\
    buildSingleEliminationBracket ps = Ok b /\ drawn input b.
Proof.
  intros ids designated count Hn Hmax Hk Hd Hin Hle Hs Hb Hc Hp.
  apply shuffle_ok in Hs, Hb, Hc.
  destruct (recipients ids designated shuffled byes count Hn Hd Hin) as (Hbn & Hbl & Hbin & Hbd);
    [subst count; lia | exact Hs | exact Hb |].
  apply choose_ok in Hp as (Hpn & Hpl & Hpin).
  2: { rewrite Nat.pow_succ_r', Nat.mul_comm, Nat.div_mul; subst count; rewrite Nat.pow_succ_r' in *; lia. }
  destruct (placed k ids byes contest positions r4 Hn Hmax Hk Hbn Hbl Hbin Hc Hpn Hpl Hpin) as (ps & Hrun & Hdr & Hat & Hby).
  pose proof (build_run ps k Hdr) as Hbuild; cbn zeta in Hbuild.
  match type of Hbuild with _ = Ok ?x => set (b := x) in Hbuild end; exists ps, b; split; [exact Hrun |].
  split; [exact Hbuild |]; unfold drawn.
  change (gb_initialEntrants b) with ps; change (gb_byeCount b) with (2 ^ S k - length (athleteIdsOf ps)).
  rewrite Hby, Hat, Hbl; apply built_tree in Hbuild; auto.
Qed.

(** Every draw that is returned is one its input asks for. *)
Lemma generate_ok input r b r' : generateSingleEliminationBracket nextInt input r = Ok (b, r') -> drawn input b.
Proof.
  intros H; apply bind_ok in H as (u & s1 & Hv & H); apply assertValidAthletes_ok in Hv as (-> & Hn & H2).
  apply bind_ok in H as (su & s2 & Hs & H); apply summarize_ok in Hs as (k & -> & _ & Hmax & Hk1 & Hk & ->).
  cbn zeta in H; cbn [su_bracketSize su_byeCount] in H; destruct k as [|k]; [lia |].
  apply bind_ok in H as (u' & s3 & Hd & H); apply assertValidByes_iff in Hd as (-> & Hdn & Hin & Hle).
  apply bind_ok in H as (shuffled & r1 & H1 & H); apply bind_ok in H as (byes & r2 & H2' & H).
  apply bind_ok in H as (contest & r3 & H3 & H); apply bind_ok in H as (positions & r4 & H4 & H).
  destruct (draw_end input k shuffled byes contest positions _ r1 r2 r3 r4 Hn Hmax Hk Hdn Hin Hle H1 H2' H3 H4)
    as (ps & b' & Hps & Hb & Hdrawn).
  apply bind_ok in H as (ps' & r5 & Hps' & H); rewrite Hps in Hps'; injection Hps' as <- <-.
  unfold outcome in H; rewrite Hb in H; injection H as <- _; exact Hdrawn.
Qed.

(** The bracket of a draw is the one its placements build. *)
Lemma generate_rebuilt input r b r' : generateSingleEliminationBracket nextInt input r = Ok (b, r') ->
  buildSingleEliminationBracket (gb_initialEntrants b) = Ok b.
Proof.
  intros H; do 7 (apply bind_ok in H as (? & ? & _ & H)).
  apply bind_ok in H as (ps & s & _ & H); unfold outcome in H.
  destruct (buildSingleEliminationBracket ps) as [b' |] eqn:E; [| discriminate]; injection H as <- _.
  rewrite (proj1 (se_entrants _ _ (built_tree _ _ E))); exact E.
Qed.

(** Only acceptable designations are drawn. *)
Lemma generate_designated input r b r' : generateSingleEliminationBracket nextInt input r = Ok (b, r') ->
  NoDup (default [] (gi_designatedByeAthleteIds input)).
Proof.
  intros H; do 2 (apply bind_ok in H as (? & ? & _ & H)); apply bind_ok in H as (? & ? & Hd & _).
  apply assertValidByes_iff in Hd; apply Hd.
Qed.

(** With a source inside its bounds every acceptable input is drawn: no loop gets stuck and no
    array is read past its end. *)
Lemma generate_total input r : sane nextInt -> acceptable input -> exists b r',
  generateSingleEliminationBracket nextInt input r = Ok (b, r') /\ drawn input b.
Proof.
  intros Hsane (H2 & Hn & Hmax & Hmost & Hdn & Hin & Hle).
  assert (Hv : assertValidAthletes (gi_athleteIds input) (gi_maxAthletes input) r = Ok (tt, r)).
  { unfold assertValidAthletes; rewrite (proj2 (Nat.ltb_ge _ _)), bool_decide_eq_true_2 by assumption.
    destruct (gi_maxAthletes input) as [most |]; [| reflexivity]; destruct (Hmost most eq_refl) as (-> & Hm1 & Hm2).
    rewrite !(proj2 (Z.ltb_ge _ _)) by assumption; reflexivity. }
  destruct (summarize_total _ r H2 Hmax) as [su Hsu]; unfold generateSingleEliminationBracket.
  rewrite (bind_step _ _ _ _ _ Hv), (bind_step _ _ _ _ _ Hsu).
  destruct (nextPowerOfTwo_ok _ H2) as (j & Hj & _ & Hjb); rewrite Hj in Hle.
  apply summarize_ok in Hsu as (k & _ & _ & _ & Hk1 & Hk & ->); rewrite (pow2_between j k _ Hjb Hk) in *.
  cbn zeta; cbn [su_bracketSize su_byeCount]; destruct k as [|k]; [lia |].
  pose proof (proj2 (assertValidByes_iff _ _ _ r tt r) (conj eq_refl (conj Hdn (conj Hin Hle)))) as Hbyes.
  rewrite (bind_step _ _ _ _ _ Hbyes).
  set (designated := default [] (gi_designatedByeAthleteIds input)) in *; set (count := 2 ^ S k - _) in *.
  destruct (shuffle_total (outside designated (gi_athleteIds input)) r Hsane) as (shuffled & r1 & H1).
  rewrite (bind_step _ _ _ _ _ H1).
  destruct (shuffle_total (designated ++ take (count - length designated) shuffled) r1 Hsane) as (byes & r2 & H2').
  rewrite (bind_step _ _ _ _ _ H2').
  destruct (shuffle_total (outside byes (gi_athleteIds input)) r2 Hsane) as (contest & r3 & H3).
  rewrite (bind_step _ _ _ _ _ H3).
  assert (H4 : exists positions r4,
    chooseByePairPositions nextInt (2 ^ S k / 2) count r3 = Ok (positions, r4)).
  { destruct (shuffle_total (seq 0 (2 ^ S k / 2)) r3 Hsane) as (l & r4 & Hl); unfold chooseByePairPositions.
    rewrite (bind_step _ _ _ _ _ Hl); eexists _, _; reflexivity. }
  destruct H4 as (positions & r4 & H4); rewrite (bind_step _ _ _ _ _ H4).
  destruct (draw_end input k shuffled byes contest positions r r1 r2 r3 r4 Hn Hmax Hk Hdn Hin Hle H1 H2' H3 H4)
    as (ps & b & Hps & Hb & Hdrawn).
  rewrite (bind_step _ _ _ _ _ Hps); unfold outcome; rewrite Hb; eauto.
Qed.
End Draws.

(** ** Properties *)

(** C21: A draw always comes back: for 2 to 64 different athletes, an optional limit that admits them and
    designated bye athletes among them, no more than the byes, every random source inside its bounds
    yields a bracket; it is a single-elimination tree over exactly these athletes in which the byes go
    to different athletes and every designated athlete has one. *)
Theorem draw_total {R} (nextInt : R -> nat -> option Z * R) input r :
  sane nextInt -> acceptable input -> exists b r',
  generateSingleEliminationBracket nextInt input r = Ok (b, r') /\ drawn input b.
Proof. apply generate_total. Qed.

(** A source that replays answers, reduced into the bound. *)
Lemma scripted_sane : sane scripted.
Proof.
  intros [|z r] n Hn; [exists 0, [] | exists (z mod Z.of_nat n), r]; (split; [reflexivity |]); [lia |].
  apply Z.mod_pos_bound; lia.
Qed.

Definition fiveAthletes : GenerateBracketInput :=
  mkGenerateInput [11; 12; 13; 14; 15]%N (Some [13%N]) (Some 64).

Lemma fiveAthletes_acceptable : acceptable fiveAthletes.
Proof.
  unfold acceptable, fiveAthletes; cbn [gi_athleteIds gi_designatedByeAthleteIds gi_maxAthletes default from_option].
  assert (Hids : NoDup [11; 12; 13; 14; 15]%N) by (apply (bool_decide_eq_true_1 _); vm_compute; reflexivity).
  split; [cbn; lia |]; split; [exact Hids |]; split; [vm_compute; discriminate |]; split; [| split; [| split]].
  - intros most [= <-]; split; [reflexivity |]; split; vm_compute; discriminate.
  - apply NoDup_singleton.
  - intros x ->%list_elem_of_singleton; apply (bool_decide_eq_true_1 _); vm_compute; reflexivity.
  - vm_compute; lia.
Qed.

Lemma draw_total_witness : exists b r',
  generateSingleEliminationBracket scripted fiveAthletes [3; 1; 4; 1; 5; 9; 2; 6] = Ok (b, r') /\ drawn fiveAthletes b.
Proof. apply (draw_total scripted); [exact scripted_sane | exact fiveAthletes_acceptable]. Defined.

(** Whatever its random source does, a draw that is returned is one its input asks for: the same
    tree, entrants and byes. *)
Theorem draw_sound {R} (nextInt : R -> nat -> option Z * R) input r b r' :
  generateSingleEliminationBracket nextInt input r = Ok (b, r') -> drawn input b.
Proof. apply generate_ok. Qed.

Definition fiveDrawn : result GeneratorError (GeneratedBracket * list Z) := Eval vm_compute in
  generateSingleEliminationBracket scripted fiveAthletes [3; 1; 4; 1; 5; 9; 2; 6].

Lemma draw_sound_witness : match fiveDrawn with
  | Ok (b, _) => drawn fiveAthletes b /\
      map pl_athleteId (gb_initialEntrants b) =
        [Some 13; None; Some 11; None; Some 12; Some 15; Some 14; None]%N /\
      map gf_downstream (gb_fixtures b) =
        [Some ("r2-m2", RED); Some ("r3-m1", RED); Some ("r3-m1", BLUE); None]%string
  | Err _ => False
  end.
Proof.
  split; [| split; reflexivity].
  apply (draw_sound scripted fiveAthletes [3; 1; 4; 1; 5; 9; 2; 6] _ []); vm_compute; reflexivity.
Defined.

(** C22: The graph is built exactly from the placements of a power of two of places, numbered in
    order, with 2 to 64 different athletes, more than half of the places, and no pair of two empty
    places; and every graph that is built is a single-elimination tree over its placements. *)
Theorem built_brackets ps :
  ((exists b, buildSingleEliminationBracket ps = Ok b) <-> exists k, draws ps k) /\
  forall b, buildSingleEliminationBracket ps = Ok b -> single_elimination ps b.
Proof.
  split; [split; [intros [b H]; exact (build_ok ps b H) | intros [k H]; rewrite (build_run ps k H); eauto] |].
  exact (built_tree ps).
Qed.
