(* ===== verification/BracketTokens.v ===== *)
(** * Draw tokens

    brackets/bracket-preview-token.service.ts and bracket-draw-setup-token.service.ts: the
    short-lived signed tokens that carry a draw between the requests of its setup, preview and
    confirmation. The HMAC and the base64url JSON codec are parameters. *)
From S2P Require Import Prelude Schema BracketGenerator.

(** ** Strings *)

Definition dot : Ascii.ascii := Ascii.ascii_of_N 46.

(** [token.split('.')] *)
Fixpoint splitDots (s : string) : list string :=
  match s with
  | EmptyString => [EmptyString]
  | String c rest =>
      match splitDots rest with
      | piece :: pieces => if Ascii.eqb c dot then EmptyString :: piece :: pieces
                           else String c piece :: pieces
      | [] => [EmptyString]
      end
  end.

Fixpoint noDot (s : string) : bool :=
  match s with EmptyString => true | String c rest => negb (Ascii.eqb c dot) && noDot rest end.

Fixpoint forallChars (p : Ascii.ascii -> bool) (s : string) : bool :=
  match s with EmptyString => true | String c rest => p c && forallChars p rest end.

(** [/^[a-f0-9]{64}$/i] *)
Definition isHexDigit (c : Ascii.ascii) : bool :=
  let n := Z.of_N (Ascii.N_of_ascii c) in
  ((48 <=? n) && (n <=? 57)) || ((97 <=? n) && (n <=? 102)) || ((65 <=? n) && (n <=? 70)).
Definition isHex64 (s : string) : bool := (String.length s =? 64)%nat && forallChars isHexDigit s.

(** ** JSON values *)
Definition jfield (name : string) (j : json) : option json :=
  match j with
  | JObj fields => option_map snd (find_first (fun f => f.1 === name) (rev fields))
  | _ => None
  end.

Definition readNum (j : option json) : option Z :=
  match j with Some (JNum n) => if isSafeInteger n then Some n else None | _ => None end.
Definition readStr (j : option json) : option string :=
  match j with Some (JStr s) => Some s | _ => None end.
Definition readId (j : option json) : option uuid :=
  match j with Some (JId u) => Some u | _ => None end.

(** [Boolean(value)] of a parsed value. *)
Definition truthy (j : json) : bool :=
  match j with
  | JNull => false
  | JBool b => b
  | JNum n => negb (n =? 0)
  | JStr s => s !== EmptyString
  | _ => true
  end.

(** All the elements, when [read] accepts each of them. *)
Fixpoint readAll {A} (read : json -> option A) (l : list json) : option (list A) :=
  match l with
  | [] => Some []
  | x :: l => match read x, readAll read l with Some a, Some as_ => Some (a :: as_) | _, _ => None end
  end.
Definition readList {A} (read : json -> option A) (j : option json) : option (list A) :=
  match j with Some (JList l) => readAll read l | _ => None end.

(** ** Claims *)
Inductive ByeStrategy : Type := RANDOM | MANUAL | SEEDED.
#[export] Instance ByeStrategy_eq_dec : EqDecision ByeStrategy. Proof. solve_decision. Defined.

Definition strategyName (s : ByeStrategy) : string :=
  match s with RANDOM => "RANDOM" | MANUAL => "MANUAL" | SEEDED => "SEEDED" end.
Definition readStrategy (j : option json) : option ByeStrategy :=
  match readStr j with
  | Some s => find_first (fun x => strategyName x === s) [RANDOM; MANUAL; SEEDED]
  | None => None
  end.

Record PreviewClaims : Type := mkPreviewClaims {
  pc_tournamentId : uuid; pc_weightClassId : uuid;
  pc_placements : list BracketEntrantPlacement;
  pc_designatedByeAthleteIds : list uuid; pc_byeStrategy : ByeStrategy;
  pc_rosterFingerprint : string; pc_issuedAt : Z; pc_expiresAt : Z; pc_nonce : string }.

Record SetupClaims : Type := mkSetupClaims {
  sc_tournamentId : uuid; sc_weightClassId : uuid; sc_rosterFingerprint : string;
  sc_summary : BracketSummary; sc_issuedAt : Z; sc_expiresAt : Z; sc_nonce : string }.

Definition TOKEN_VERSION : Z := 1.
Definition TOKEN_TTL_SECONDS : Z := 5 * 60.

Definition placementJson (p : BracketEntrantPlacement) : json :=
  JObj [("drawPosition", JNum (pl_drawPosition p)); ("athleteId", jopt JId (pl_athleteId p))]%string.

Definition previewJson (c : PreviewClaims) : json :=
  JObj [("tournamentId", JId (pc_tournamentId c)); ("weightClassId", JId (pc_weightClassId c));
        ("placements", JList (map placementJson (pc_placements c)));
        ("rosterFingerprint", JStr (pc_rosterFingerprint c));
        ("designatedByeAthleteIds", JList (map JId (pc_designatedByeAthleteIds c)));
        ("byeStrategy", JStr (strategyName (pc_byeStrategy c)));
        ("version", JNum TOKEN_VERSION); ("issuedAt", JNum (pc_issuedAt c));
        ("expiresAt", JNum (pc_expiresAt c)); ("nonce", JStr (pc_nonce c))]%string.

Definition summaryJson (s : BracketSummary) : json :=
  JObj [("athleteCount", JNum (Z.of_nat (su_athleteCount s)));
        ("bracketSize", JNum (Z.of_nat (su_bracketSize s)));
        ("roundCount", JNum (Z.of_nat (su_roundCount s)));
        ("totalFixtureCount", JNum (Z.of_nat (su_totalFixtureCount s)));
        ("firstRoundFixtureCount", JNum (Z.of_nat (su_firstRoundFixtureCount s)));
        ("byeCount", JNum (Z.of_nat (su_byeCount s)))]%string.

Definition setupJson (c : SetupClaims) : json :=
  JObj [("tournamentId", JId (sc_tournamentId c)); ("weightClassId", JId (sc_weightClassId c));
        ("rosterFingerprint", JStr (sc_rosterFingerprint c)); ("summary", summaryJson (sc_summary c));
        ("version", JNum TOKEN_VERSION); ("issuedAt", JNum (sc_issuedAt c));
        ("expiresAt", JNum (sc_expiresAt c)); ("nonce", JStr (sc_nonce c))]%string.

(** A placement the verification lets through: a positive draw position, an athlete or null. *)
Definition readPlacement (j : json) : option BracketEntrantPlacement :=
  match readNum (jfield "drawPosition" j), jfield "athleteId" j with
  | Some n, Some (JId u) => if 0 <? n then Some (mkPlacement n (Some u)) else None
  | Some n, Some JNull => if 0 <? n then Some (mkPlacement n None) else None
  | _, _ => None
  end.

(** ** Tokens *)
Inductive TokenError : Type := TOKEN_INVALID | TOKEN_EXPIRED.

(** A value, or a refusal of the whole token. *)
Definition need {A} (o : option A) : tx unit TokenError A := or_throw o TOKEN_INVALID.
Definition verdict {A} (c : tx unit TokenError A) : result TokenError A :=
  match c tt with Ok (a, _) => Ok a | Err e => Err e end.

Section Tokens.
(** [createHmac('sha256', secret).update(payload).digest('base64url')], the encoding
    [Buffer.from(JSON.stringify(claims)).toString('base64url')] and its inverse, [None] where
    [JSON.parse] throws. *)
Context (signature : string -> string) (encode : json -> string) (decode : string -> option json).

Definition seal (claims : json) : string :=
  (encode claims +:+ "." +:+ signature (encode claims))%string.

(** The payload of a token whose signature is right, parsed. *)
Definition unseal (token : string) : tx unit TokenError json :=
  match splitDots token with
  | [payload; received] =>
      throw_if (payload === EmptyString) TOKEN_INVALID;;
      throw_if (received === EmptyString) TOKEN_INVALID;;
      throw_if (signature payload !== received) TOKEN_INVALID;;
      need (decode payload)
  | _ => throw TOKEN_INVALID
  end.

(** The time checks of both services, in seconds. *)
Definition assertCurrent (issuedAt expiresAt now : Z) (rest : bool) : tx unit TokenError unit :=
  let nowSeconds := now / 1000 in
  throw_if ((nowSeconds <? issuedAt) || (expiresAt <=? issuedAt) ||
            (TOKEN_TTL_SECONDS <? expiresAt - issuedAt) || negb rest) TOKEN_INVALID;;
  throw_if (expiresAt <=? nowSeconds) TOKEN_EXPIRED.

Definition issuePreview (c : PreviewClaims) (now : Z) (nonce : string) : string * Z :=
  let issuedAt := now / 1000 in
  let expiresAt := issuedAt + TOKEN_TTL_SECONDS in
  (seal (previewJson (mkPreviewClaims (pc_tournamentId c) (pc_weightClassId c) (pc_placements c)
     (pc_designatedByeAthleteIds c) (pc_byeStrategy c) (pc_rosterFingerprint c) issuedAt expiresAt nonce)),
   expiresAt * 1000).

Definition verifyPreview (tournamentId weightClassId : uuid) (now : Z) (token : string) :
    result TokenError PreviewClaims := verdict (
  claims ← unseal token;
  version ← need (readNum (jfield "version" claims));
  throw_if (version !== TOKEN_VERSION) TOKEN_INVALID;;
  tournament ← need (readId (jfield "tournamentId" claims));
  weightClass ← need (readId (jfield "weightClassId" claims));
  throw_if ((tournament !== tournamentId) || (weightClass !== weightClassId)) TOKEN_INVALID;;
  placements ← need (readList readPlacement (jfield "placements" claims));
  designated ← need (readList (fun j => readId (Some j)) (jfield "designatedByeAthleteIds" claims));
  strategy ← need (readStrategy (jfield "byeStrategy" claims));
  rosterFingerprint ← need (readStr (jfield "rosterFingerprint" claims));
  nonce ← need (readStr (jfield "nonce" claims));
  issuedAt ← need (readNum (jfield "issuedAt" claims));
  expiresAt ← need (readNum (jfield "expiresAt" claims));
  assertCurrent issuedAt expiresAt now
    (isHex64 rosterFingerprint && (nonce !== EmptyString) && bool_decide (NoDup designated));;
  mret (mkPreviewClaims tournament weightClass placements designated strategy rosterFingerprint
          issuedAt expiresAt nonce)).

Definition issueSetup (c : SetupClaims) (now : Z) (nonce : string) : string * Z :=
  let issuedAt := now / 1000 in
  let expiresAt := issuedAt + TOKEN_TTL_SECONDS in
  (seal (setupJson (mkSetupClaims (sc_tournamentId c) (sc_weightClassId c) (sc_rosterFingerprint c)
     (sc_summary c) issuedAt expiresAt nonce)), expiresAt * 1000).

(** The service returns the claims; its one caller discards them. *)
Definition verifySetup (tournamentId weightClassId : uuid) (rosterFingerprint : string) (now : Z)
    (token : string) : result TokenError unit := verdict (
  claims ← unseal token;
  version ← need (readNum (jfield "version" claims));
  throw_if (version !== TOKEN_VERSION) TOKEN_INVALID;;
  tournament ← need (readId (jfield "tournamentId" claims));
  weightClass ← need (readId (jfield "weightClassId" claims));
  fingerprint ← need (readStr (jfield "rosterFingerprint" claims));
  throw_if ((tournament !== tournamentId) || (weightClass !== weightClassId) ||
            (fingerprint !== rosterFingerprint) || negb (isHex64 fingerprint)) TOKEN_INVALID;;
  nonce ← need (jfield "nonce" claims);
  throw_if (negb (truthy nonce)) TOKEN_INVALID;;
  issuedAt ← need (readNum (jfield "issuedAt" claims));
  expiresAt ← need (readNum (jfield "expiresAt" claims));
  summary ← need (jfield "summary" claims);
  for_each (fun name => _ ← need (readNum (jfield name summary)); mret tt)
    ["athleteCount"; "bracketSize"; "roundCount"; "totalFixtureCount"; "firstRoundFixtureCount"; "byeCount"]%string;;
  assertCurrent issuedAt expiresAt now true).
End Tokens.

(** ** Strings and lists that are read back *)
Lemma splitDots_nodot s : noDot s = true -> splitDots s = [s].
Proof.
  induction s as [|c s IH]; cbn; [reflexivity |]; intros [Hc H]%andb_prop.
  rewrite IH by exact H; apply negb_true_iff in Hc as ->; reflexivity.
Qed.

Lemma splitDots_join s t : noDot s = true -> noDot t = true -> splitDots (s +:+ "." +:+ t)%string = [s; t].
Proof.
  intros Hs Ht; induction s as [|c s IH].
  - change (splitDots (String dot t) = [EmptyString; t]); cbn [splitDots].
    rewrite (splitDots_nodot t Ht); reflexivity.
  - apply andb_prop in Hs as [Hc Hs]; apply negb_true_iff in Hc.
    change (splitDots (String c (s +:+ "." +:+ t)%string) = [String c s; t]); cbn [splitDots].
    rewrite (IH Hs), Hc; reflexivity.
Qed.

Lemma readAll_map {A B} (read : json -> option B) (print : A -> json) (f : A -> B) l :
  (forall x, In x l -> read (print x) = Some (f x)) -> readAll read (map print l) = Some (map f l).
Proof.
  induction l as [|x l IH]; intros H; [reflexivity |]; cbn.
  rewrite H by (left; reflexivity); rewrite IH by (intros y Hy; apply H; right; exact Hy); reflexivity.
Qed.

(** A draw position a token carries. *)
Definition placementFits (p : BracketEntrantPlacement) : bool :=
  (0 <? pl_drawPosition p) && isSafeInteger (pl_drawPosition p).

Lemma readPlacement_print p : placementFits p = true -> readPlacement (placementJson p) = Some p.
Proof.
  intros [Hp Hs]%andb_prop; unfold readPlacement.
  change (jfield "drawPosition" (placementJson p)) with (Some (JNum (pl_drawPosition p))).
  change (jfield "athleteId" (placementJson p)) with (Some (jopt JId (pl_athleteId p))).
  unfold readNum; rewrite Hs; destruct p as [n [u |]]; cbn in *; rewrite Hp; reflexivity.
Qed.

Lemma readStrategy_print s : readStrategy (Some (JStr (strategyName s))) = Some s.
Proof. destruct s; reflexivity. Qed.

Lemma isSafe_bounds z : isSafeInteger z = true <-> -(2^53 - 1) <= z <= 2^53 - 1.
Proof. unfold isSafeInteger; rewrite andb_true_iff, !Z.leb_le; reflexivity. Qed.

Section Laws.
Context (signature : string -> string) (encode : json -> string) (decode : string -> option json).

(** What the codec does for one value: it reads back, its pieces are not empty, and neither the
    base64url text nor the digest has a dot. *)
Definition carries (j : json) : Prop :=
  decode (encode j) = Some j /\ noDot (encode j) = true /\ encode j <> EmptyString /\
  noDot (signature (encode j)) = true /\ signature (encode j) <> EmptyString.

Lemma unseal_seal j : carries j ->
  unseal signature decode (seal signature encode j) tt = Ok (j, tt).
Proof.
  intros (Hd & He & Hne & Hs & Hsne); unfold unseal, seal; rewrite splitDots_join by assumption.
  rewrite (bool_decide_eq_false_2 _ Hne), (bool_decide_eq_false_2 _ Hsne), bool_decide_eq_true_2 by reflexivity.
  unfold need; rewrite Hd; reflexivity.
Qed.

(** Only a signed payload is read. *)
Lemma unseal_ok token j u : unseal signature decode token tt = Ok (j, u) ->
  exists payload, splitDots token = [payload; signature payload] /\ decode payload = Some j.
Proof.
  unfold unseal; destruct (splitDots token) as [|payload [|received [|? ?]]];
    try (intros H; apply throw_ok in H; destruct H).
  intros H; apply bind_ok in H as (? & [] & _ & H); apply bind_ok in H as (? & [] & _ & H).
  apply bind_ok in H as (? & [] & Hs & H); apply throw_if_ok in Hs as [Hs _].
  apply negb_false_iff, bool_decide_eq_true in Hs as <-; apply or_throw_ok in H as [H _]; eauto.
Qed.
End Laws.

(** ** Properties *)
Section Properties.
Context (signature : string -> string) (encode : json -> string) (decode : string -> option json).

(** The claims a preview token is issued with. *)
Definition stamped (c : PreviewClaims) (now : Z) (nonce : string) : PreviewClaims :=
  mkPreviewClaims (pc_tournamentId c) (pc_weightClassId c) (pc_placements c) (pc_designatedByeAthleteIds c)
    (pc_byeStrategy c) (pc_rosterFingerprint c) (now / 1000) (now / 1000 + TOKEN_TTL_SECONDS) nonce.

(** Claims as the preview service issues them. *)
Definition issuable (c : PreviewClaims) (now : Z) (nonce : string) : bool :=
  forallb placementFits (pc_placements c) && bool_decide (NoDup (pc_designatedByeAthleteIds c)) &&
  isHex64 (pc_rosterFingerprint c) && (nonce !== EmptyString) && (0 <=? now) && (now <=? 2^52).

Lemma need_ok {A} (o : option A) a u u' : need o u = Ok (a, u') <-> o = Some a /\ u' = u.
Proof. apply or_throw_ok. Qed.

Lemma need_err {A} (o : option A) u e : need o u = Err e -> e = TOKEN_INVALID.
Proof. destruct o; [discriminate |]; intros H; injection H as <-; reflexivity. Qed.

Lemma issued_times now : 0 <= now <= 2^52 ->
  isSafeInteger (now / 1000) = true /\ isSafeInteger (now / 1000 + TOKEN_TTL_SECONDS) = true.
Proof.
  intros H; rewrite !isSafe_bounds; unfold TOKEN_TTL_SECONDS.
  assert (0 <= now / 1000 <= 2^52) by (split; [apply Z.div_pos | apply Z.div_le_upper_bound]; lia).
  change (2^53) with (2 * 2^52); change (2^52) with 4503599627370496 in *; lia.
Qed.

Lemma assertCurrent_issued now now' : assertCurrent (now / 1000) (now / 1000 + TOKEN_TTL_SECONDS) now' true tt =
  if now' / 1000 <? now / 1000 then Err TOKEN_INVALID
  else if now / 1000 + TOKEN_TTL_SECONDS <=? now' / 1000 then Err TOKEN_EXPIRED else Ok (tt, tt).
Proof.
  unfold assertCurrent; rewrite orb_false_r.
  rewrite (proj2 (Z.leb_gt (now / 1000 + TOKEN_TTL_SECONDS) (now / 1000))) by (unfold TOKEN_TTL_SECONDS; lia).
  rewrite (proj2 (Z.ltb_ge TOKEN_TTL_SECONDS _)) by lia.
  destruct (now' / 1000 <? now / 1000); cbn [orb]; [reflexivity |].
  destruct (_ <=? now' / 1000); reflexivity.
Qed.

Lemma preview_token_roundtrip_run c now nonce tournamentId weightClassId now' :
  issuable c now nonce = true -> carries signature encode decode (previewJson (stamped c now nonce)) ->
  verifyPreview signature decode tournamentId weightClassId now' (issuePreview signature encode c now nonce).1 =
  if (pc_tournamentId c !== tournamentId) || (pc_weightClassId c !== weightClassId) then Err TOKEN_INVALID
  else if now' / 1000 <? now / 1000 then Err TOKEN_INVALID
  else if now / 1000 + TOKEN_TTL_SECONDS <=? now' / 1000 then Err TOKEN_EXPIRED
  else Ok (stamped c now nonce).
Proof.
  unfold issuable; rewrite !andb_true_iff, !Z.leb_le, bool_decide_eq_true; intros [[[[[Hp Hd] Hx] Hn] Hlo] Hhi] Hc.
  destruct (issued_times now (conj Hlo Hhi)) as [Hi He].
  unfold verifyPreview, verdict; cbn [fst issuePreview]; rewrite (bind_step _ _ _ _ _ (unseal_seal _ _ _ _ Hc)).
  set (s := stamped c now nonce).
  rewrite (bind_step _ _ _ TOKEN_VERSION tt) by reflexivity; rewrite (bind_step _ _ _ tt tt) by reflexivity.
  rewrite (bind_step _ _ _ (pc_tournamentId c) tt) by reflexivity.
  rewrite (bind_step _ _ _ (pc_weightClassId c) tt) by reflexivity.
  destruct ((pc_tournamentId c !== tournamentId) || (pc_weightClassId c !== weightClassId)); [reflexivity |].
  rewrite (bind_step _ _ _ tt tt) by reflexivity.
  assert (Hpl : readAll readPlacement (map placementJson (pc_placements c)) = Some (pc_placements c)).
  { rewrite (readAll_map _ _ id), map_id; [reflexivity |].
    intros p Hin; apply readPlacement_print; rewrite forallb_forall in Hp; apply Hp, Hin. }
  assert (Hds : readAll (fun j => readId (Some j)) (map JId (pc_designatedByeAthleteIds c)) = Some (pc_designatedByeAthleteIds c)).
  { rewrite (readAll_map _ _ id), map_id; reflexivity. }
  rewrite (bind_step _ _ _ (pc_placements c) tt) by (apply need_ok; auto).
  rewrite (bind_step _ _ _ (pc_designatedByeAthleteIds c) tt) by (apply need_ok; auto).
  rewrite (bind_step _ _ _ (pc_byeStrategy c) tt) by (apply need_ok; split; [apply readStrategy_print | reflexivity]).
  rewrite (bind_step _ _ _ (pc_rosterFingerprint c) tt) by reflexivity; rewrite (bind_step _ _ _ nonce tt) by reflexivity.
  rewrite (bind_step _ _ _ (now / 1000) tt) by (apply need_ok; split; [change (readNum (Some (JNum (now / 1000))) = Some (now / 1000)); unfold readNum; rewrite Hi |]; reflexivity).
  rewrite (bind_step _ _ _ (now / 1000 + TOKEN_TTL_SECONDS) tt) by (apply need_ok; split; [| reflexivity];
    change (readNum (Some (JNum (now / 1000 + TOKEN_TTL_SECONDS))) = Some (now / 1000 + TOKEN_TTL_SECONDS)); unfold readNum; rewrite He; reflexivity).
  rewrite Hx, Hn, (bool_decide_eq_true_2 _ Hd); cbn [andb].
  unfold mbind, tx_bind; rewrite assertCurrent_issued.
  destruct (now' / 1000 <? now / 1000); [reflexivity |]; destruct (_ <=? now' / 1000); reflexivity.
Qed.

(** C23: A preview token that is issued and read back within its five minutes, for the same tournament
    and weight class, yields exactly the claims it was issued with; earlier than its issue or for
    another class it is invalid, and from its expiry on it is expired. *)
Theorem preview_token_roundtrip c now nonce tournamentId weightClassId now' :
  issuable c now nonce = true -> carries signature encode decode (previewJson (stamped c now nonce)) ->
  verifyPreview signature decode tournamentId weightClassId now' (issuePreview signature encode c now nonce).1 =
  if (pc_tournamentId c !== tournamentId) || (pc_weightClassId c !== weightClassId) then Err TOKEN_INVALID
  else if now' / 1000 <? now / 1000 then Err TOKEN_INVALID
  else if now / 1000 + TOKEN_TTL_SECONDS <=? now' / 1000 then Err TOKEN_EXPIRED
  else Ok (stamped c now nonce).
Proof. apply preview_token_roundtrip_run. Qed.

(** A successful run of [need], in the step shape of [bind_ok]. *)
Ltac need_inv H x E :=
  let u := fresh "u" in apply bind_ok in H as (x & u & E & H); apply need_ok in E as [E ->].
Ltac guard_inv H E :=
  let u := fresh "u" in let v := fresh "v" in
  apply bind_ok in H as (u & v & E & H); apply throw_if_ok in E as [E ->].

Lemma assertCurrent_ok issuedAt expiresAt now rest u v w : assertCurrent issuedAt expiresAt now rest u = Ok (v, w) ->
  issuedAt <= now / 1000 < expiresAt /\ expiresAt - issuedAt <= TOKEN_TTL_SECONDS /\ rest = true.
Proof.
  intros H; guard_inv H E; apply throw_if_ok in H as [H _]; apply Z.leb_gt in H.
  rewrite !orb_false_iff, Z.ltb_ge, Z.leb_gt, Z.ltb_ge, negb_false_iff in E; lia || tauto.
Qed.

Lemma readAll_in {A} (read : json -> option A) l : forall as_, readAll read l = Some as_ ->
  forall a, In a as_ -> exists j, In j l /\ read j = Some a.
Proof.
  induction l as [|x l IH]; cbn; intros as_ H a Ha; [injection H as <-; destruct Ha |].
  destruct (read x) as [b |] eqn:E; [| discriminate]; destruct (readAll read l) as [bs |]; [| discriminate].
  injection H as <-; destruct Ha as [<- | Ha]; [eauto |]; destruct (IH bs eq_refl a Ha) as (j & Hj & Hr); eauto.
Qed.

Lemma readPlacement_fits j p : readPlacement j = Some p -> placementFits p = true.
Proof.
  unfold readPlacement, placementFits; destruct (readNum (jfield "drawPosition" j)) as [n |] eqn:E; [| discriminate].
  assert (Hs : isSafeInteger n = true).
  { unfold readNum in E; destruct (jfield "drawPosition" j) as [[] |]; try discriminate.
    destruct (isSafeInteger _) eqn:Hn; [injection E as <-; exact Hn | discriminate]. }
  destruct (jfield "athleteId" j) as [[] |]; try discriminate; destruct (0 <? n) eqn:Hn; try discriminate;
    intros [= <-]; cbn; rewrite Hn, Hs; reflexivity.
Qed.

(** An accepted preview token carries the signature of its payload under the service's secret; its
    claims are for the requested tournament and weight class, no older than five minutes, and
    name distinct bye athletes and positive draw positions. *)
Theorem preview_token_accepted tournamentId weightClassId now token c :
  verifyPreview signature decode tournamentId weightClassId now token = Ok c ->
  (exists payload j, splitDots token = [payload; signature payload] /\ decode payload = Some j) /\
  pc_tournamentId c = tournamentId /\ pc_weightClassId c = weightClassId /\
  pc_issuedAt c <= now / 1000 < pc_expiresAt c /\ now / 1000 - pc_issuedAt c < TOKEN_TTL_SECONDS /\
  NoDup (pc_designatedByeAthleteIds c) /\ forall p, In p (pc_placements c) -> 0 < pl_drawPosition p.
Proof.
  unfold verifyPreview, verdict; intros H.
  match type of H with match ?x with _ => _ end = _ => destruct x as [[c' []] |] eqn:E; [| discriminate] end.
  injection H as ->; rename E into H.
  apply bind_ok in H as (j & [] & Hj & H); apply unseal_ok in Hj as (payload & Hsplit & Hdec).
  need_inv H version Hv; guard_inv H Hv'; need_inv H t Ht; need_inv H w Hw; guard_inv H Htw.
  need_inv H ps Hps; need_inv H ds Hds; need_inv H st Hst; need_inv H rf Hrf; need_inv H nn Hnn.
  need_inv H i Hi; need_inv H e He.
  apply bind_ok in H as (uc & vc & Hcur & H); apply assertCurrent_ok in Hcur as (Ht1 & Ht2 & Hrest).
  apply ret_ok in H as [<- _]; cbn [pc_tournamentId pc_weightClassId pc_issuedAt pc_expiresAt pc_designatedByeAthleteIds pc_placements].
  apply orb_false_iff in Htw as [Ht' Hw']; apply negb_false_iff, bool_decide_eq_true in Ht', Hw'.
  apply andb_prop in Hrest as [_ Hnd]; apply bool_decide_eq_true in Hnd.
  repeat split; try assumption; try lia; [eauto |].
  intros p Hp; unfold readList in Hps; destruct (jfield "placements" j) as [[] |]; try discriminate.
  destruct (readAll_in _ _ _ Hps p Hp) as (x & _ & Hx); apply readPlacement_fits in Hx.
  apply andb_prop in Hx as [Hx _]; apply Z.ltb_lt, Hx.
Qed.

(** The two services sign with the same secret, and still neither accepts the other's tokens. *)
Theorem tokens_not_interchangeable (c : PreviewClaims) (sc : SetupClaims) now nonce tournamentId weightClassId fingerprint now' :
  (carries signature encode decode (setupJson (mkSetupClaims (sc_tournamentId sc) (sc_weightClassId sc)
     (sc_rosterFingerprint sc) (sc_summary sc) (now / 1000) (now / 1000 + TOKEN_TTL_SECONDS) nonce)) ->
   verifyPreview signature decode tournamentId weightClassId now' (issueSetup signature encode sc now nonce).1 = Err TOKEN_INVALID) /\
  (carries signature encode decode (previewJson (stamped c now nonce)) ->
   verifySetup signature decode tournamentId weightClassId fingerprint now' (issuePreview signature encode c now nonce).1 = Err TOKEN_INVALID).
Proof.
  split; intros Hc.
  - unfold verifyPreview, verdict; cbn [fst issueSetup]; rewrite (bind_step _ _ _ _ _ (unseal_seal _ _ _ _ Hc)).
    rewrite (bind_step _ _ _ TOKEN_VERSION tt), (bind_step _ _ _ tt tt) by reflexivity.
    rewrite (bind_step _ _ _ (sc_tournamentId sc) tt), (bind_step _ _ _ (sc_weightClassId sc) tt) by reflexivity.
    destruct (_ || _); [reflexivity |]; rewrite (bind_step _ _ _ tt tt) by reflexivity.
    rewrite (bind_err _ _ _ TOKEN_INVALID) by reflexivity; reflexivity.
  - unfold verifySetup, verdict; cbn [fst issuePreview]; rewrite (bind_step _ _ _ _ _ (unseal_seal _ _ _ _ Hc)).
    rewrite (bind_step _ _ _ TOKEN_VERSION tt), (bind_step _ _ _ tt tt) by reflexivity.
    rewrite (bind_step _ _ _ (pc_tournamentId c) tt), (bind_step _ _ _ (pc_weightClassId c) tt) by reflexivity.
    rewrite (bind_step _ _ _ (pc_rosterFingerprint c) tt) by reflexivity.
    destruct (_ || _); [reflexivity |]; rewrite (bind_step _ _ _ tt tt), (bind_step _ _ _ (JStr nonce) tt) by reflexivity.
    destruct (negb (truthy (JStr nonce))); [reflexivity |]; rewrite (bind_step _ _ _ tt tt) by reflexivity.
    destruct (need (readNum (jfield "issuedAt" (previewJson (stamped c now nonce)))) tt) as [[i []] | e] eqn:Ei.
    2: { rewrite (bind_err _ _ _ e Ei), (need_err _ _ _ Ei); reflexivity. }
    rewrite (bind_step _ _ _ _ _ Ei).
    destruct (need (readNum (jfield "expiresAt" (previewJson (stamped c now nonce)))) tt) as [[x []] | e] eqn:Ex.
    2: { rewrite (bind_err _ _ _ e Ex), (need_err _ _ _ Ex); reflexivity. }
    rewrite (bind_step _ _ _ _ _ Ex), (bind_err _ _ _ TOKEN_INVALID) by reflexivity; reflexivity.
Qed.
End Properties.

(** ** Witnesses: a codec that carries one payload, of four athletes with one bye slot each way. *)
Definition sampleClaims : PreviewClaims := mkPreviewClaims 1 5
  [mkPlacement 1 (Some 121%N); mkPlacement 2 None; mkPlacement 3 (Some 122%N); mkPlacement 4 (Some 123%N)]
  [121%N] MANUAL "0123456789abcdef0123456789abcdef0123456789abcdef0123456789ABCDEF" 0 0 EmptyString.
Definition sampleSetup : SetupClaims :=
  mkSetupClaims 1 5 "0123456789abcdef0123456789abcdef0123456789abcdef0123456789ABCDEF" (mkSummary 3 4 2 2 1 1) 0 0 EmptyString.
Definition fixedEncode (_ : json) : string := "payload".
Definition fixedSignature (payload : string) : string := if payload === "payload"%string then "digest" else "other".
Definition fixedDecode (j : json) (_ : string) : option json := Some j.

Lemma fixed_carries j : carries fixedSignature fixedEncode (fixedDecode j) j.
Proof. repeat split; discriminate. Qed.

Definition sampleToken : string := (issuePreview fixedSignature fixedEncode sampleClaims 5000 "nonce").1.
Definition sampleDecode : string -> option json := fixedDecode (previewJson (stamped sampleClaims 5000 "nonce")).

Lemma preview_token_roundtrip_witness :
  verifyPreview fixedSignature sampleDecode 1 5 304999 sampleToken = Ok (stamped sampleClaims 5000 "nonce") /\
  verifyPreview fixedSignature sampleDecode 1 5 305000 sampleToken = Err TOKEN_EXPIRED.
Proof.
  split; (etransitivity; [apply (preview_token_roundtrip fixedSignature fixedEncode sampleDecode);
    [vm_compute; reflexivity | apply fixed_carries] | vm_compute; reflexivity]).
Defined.

Lemma preview_token_accepted_witness : splitDots sampleToken = ["payload"; "digest"]%string /\
  exists payload j, splitDots sampleToken = [payload; fixedSignature payload] /\ sampleDecode payload = Some j.
Proof.
  split; [vm_compute; reflexivity |].
  apply (preview_token_accepted fixedSignature sampleDecode 1 5 6000 sampleToken (stamped sampleClaims 5000 "nonce")).
  vm_compute; reflexivity.
Defined.

Lemma tokens_not_interchangeable_witness :
  verifyPreview fixedSignature (fixedDecode (setupJson (mkSetupClaims 1 5 (sc_rosterFingerprint sampleSetup)
    (sc_summary sampleSetup) 5 305 "nonce"))) 1 5 6000 (issueSetup fixedSignature fixedEncode sampleSetup 5000 "nonce").1
    = Err TOKEN_INVALID.
Proof.
  apply (tokens_not_interchangeable fixedSignature fixedEncode
    (fixedDecode (setupJson (mkSetupClaims 1 5 (sc_rosterFingerprint sampleSetup) (sc_summary sampleSetup) 5 305 "nonce")))
    sampleClaims sampleSetup 5000 "nonce" 1 5 "x" 6000); apply fixed_carries.
Defined.
