(* ===== verification/BracketDraws.v ===== *)
(** * Bracket draws

    brackets/bracket-draw-setup.service.ts, bracket-preview.service.ts and
    bracket-confirmation.service.ts: a draw is set up, previewed, adjusted and confirmed; the
    state of the first three steps travels in signed tokens, the last one stores the bracket
    that BracketOutcome advances winners through. *)
From stdpp Require Import gmap.
From S2P Require Import Prelude Schema Database Rules Scenario BracketGenerator BracketTokens.

#[export] Instance Advancement_eq_dec : EqDecision Advancement. Proof. solve_decision. Defined.

(** ** The roster of a draw *)

Definition activeWeightClass (tournamentId weightClassId : uuid) (w : WeightClassRow) : bool :=
  (wc_id w === weightClassId) && (wc_tournamentId w === tournamentId) && wc_isActive w.

(** [status: { in: [ACTIVE, COMPLETED] }] of the class *)
Definition currentBracket (tournamentId weightClassId : uuid) (b : BracketRow) : bool :=
  (br_tournamentId b === tournamentId) && (br_weightClassId b === weightClassId) &&
  ((br_status b === BRACKET_ACTIVE) || (br_status b === BRACKET_STATUS_COMPLETED)).

(** The relations [organization] and [weightClass] of an athlete. *)
Definition organizationOf (d : DB) (a : AthleteRow) : option OrganizationRow :=
  match at_organizationId a with
  | None => None
  | Some o => find_first (fun g => og_id g === o) (db_tournamentOrganizations d)
  end.

Definition eligible (tournamentId weightClassId : uuid) (d : DB) (a : AthleteRow) : bool :=
  (at_tournamentId a === tournamentId) && (at_weightClassId a === weightClassId) && at_isActive a &&
  existsb (fun w => (wc_id w === at_weightClassId a) && wc_isActive w) (db_tournamentWeightClasses d) &&
  ((at_organizationId a === None) ||
   match organizationOf d a with Some g => og_isActive g | None => false end).

(** The athletes of a draw, by id, with their organizations. *)
Definition eligibleAthletes (tournamentId weightClassId : uuid) (d : DB) :
    list (AthleteRow * option OrganizationRow) :=
  map (fun a => (a, organizationOf d a))
    (sort_by (fun a => Z.of_N (at_id a))
      (List.filter (eligible tournamentId weightClassId d) (db_tournamentAthletes d))).

Definition idsOf (athletes : list (AthleteRow * option OrganizationRow)) : list uuid :=
  map (fun a => at_id a.1) athletes.

Definition canonicalAthlete (a : AthleteRow * option OrganizationRow) : json :=
  JObj [("athleteId", JId (at_id a.1)); ("active", JBool (at_isActive a.1)); ("isSeed", JBool (at_isSeed a.1));
        ("weightClassId", JId (at_weightClassId a.1)); ("updatedAt", JTime (at_updatedAt a.1));
        ("organizationId", jopt JId (at_organizationId a.1));
        ("organization", jopt (fun g => JObj [("id", JId (og_id g)); ("active", JBool (og_isActive g));
                                              ("updatedAt", JTime (og_updatedAt g))]) a.2)]%string.

(** [BracketPreviewService.assertStrategySelection] *)
Definition seedsOf (athletes : list (AthleteRow * option OrganizationRow)) : list uuid :=
  idsOf (List.filter (fun a => at_isSeed a.1) athletes).

Definition assertStrategySelection (strategy : ByeStrategy) (ids : list uuid)
    (athletes : list (AthleteRow * option OrganizationRow)) (byeCount : Z) : DbM unit :=
  match strategy with
  | RANDOM => throw_if (negb (length ids =? 0)%nat) (Conflict "BRACKET_BYE_STRATEGY_INVALID")
  | MANUAL => mret tt
  | SEEDED =>
      throw_if (negb (Z.of_nat (length ids) =? byeCount)) (Conflict "BRACKET_SEEDED_BYE_SELECTION_INVALID");;
      let seeds := seedsOf athletes in
      if byeCount <=? Z.of_nat (length seeds)
      then throw_if (existsb (fun id => negb (bool_decide (id ∈ seeds))) ids)
             (Conflict "BRACKET_SEEDED_BYE_SELECTION_INVALID")
      else throw_if (existsb (fun id => negb (bool_decide (id ∈ ids))) seeds)
             (Conflict "BRACKET_SEEDED_BYE_SELECTION_INVALID")
  end.

Definition previewTokenError (e : TokenError) : error :=
  match e with TOKEN_EXPIRED => Conflict "BRACKET_PREVIEW_EXPIRED" | TOKEN_INVALID => Conflict "BRACKET_PREVIEW_INVALID" end.
Definition setupTokenError (e : TokenError) : error :=
  match e with TOKEN_EXPIRED => Conflict "BRACKET_DRAW_SETUP_EXPIRED" | TOKEN_INVALID => Conflict "BRACKET_DRAW_SETUP_INVALID" end.

(** The guards setup and preview open with: a live tournament, an active class, a sport group of
    two-sided matches and no current bracket. *)
Definition openDraw (tournamentId weightClassId : uuid) : DbM unit :=
  tournament ← find_one tournaments (fun t => (tn_id t === tournamentId) && (tn_softDeletedAt t === None));
  tournament ← or_throw tournament (NotFound "TOURNAMENT_NOT_FOUND");
  throw_if (tn_status tournament === TOURNAMENT_ARCHIVED) (Conflict "TOURNAMENT_ARCHIVED");;
  weightClass ← find_one tournamentWeightClasses (activeWeightClass tournamentId weightClassId);
  _ ← or_throw weightClass (NotFound "WEIGHT_CLASS_NOT_FOUND");
  rules ← rethrow (fun e => match e with SportGroupRulesNotImplemented _ => Conflict "BRACKET_SPORT_GROUP_UNSUPPORTED" | _ => e end)
            (resolveRules (tn_sportGroupCode tournament));
  throw_if (negb (length (athleteColors rules) =? 2)%nat) (Conflict "BRACKET_SPORT_GROUP_UNSUPPORTED");;
  active ← find_one tournamentBrackets (currentBracket tournamentId weightClassId);
  throw_if (match active with Some _ => true | None => false end) (Conflict "BRACKET_ALREADY_EXISTS").

Section Draws.
(** SHA-256 of the JSON text, and the parameters of the token services. *)
Context (sha256 : json -> string)
  (signature : string -> string) (encode : json -> string) (decode : string -> option json).

Definition rosterFingerprint (athletes : list (AthleteRow * option OrganizationRow)) : string :=
  sha256 (JList (map canonicalAthlete (sort_by (fun a => Z.of_N (at_id a.1)) athletes))).

(** [BracketDrawSetupService.setup]: the token and the shape of the draw. *)
Definition setup (tournamentId weightClassId : uuid) (now : Z) (nonce : string) :
    DbM (string * BracketSummary * list uuid) :=
  openDraw tournamentId weightClassId;;
  athletes ← gets (eligibleAthletes tournamentId weightClassId);
  throw_if (length athletes <? 2)%nat (Conflict "BRACKET_INSUFFICIENT_ATHLETES");;
  summary ← from_result (fun _ : GeneratorError => Conflict "BRACKET_ATHLETE_LIMIT_EXCEEDED")
    (match summarizeBracket (length athletes) tt with Ok (s, _) => Ok s | Err e => Err e end);
  let token := issueSetup signature encode
    (mkSetupClaims tournamentId weightClassId (rosterFingerprint athletes) summary 0 0 EmptyString) now nonce in
  mret (token.1, summary, idsOf athletes).

Record PreviewResult : Type := mkPreviewResult {
  pv_previewToken : string; pv_expiresAt : Z; pv_rosterFingerprint : string; pv_bracket : GeneratedBracket }.

(** [input.byeStrategy ?? (input.designatedByeAthleteIds.length === 0 ? 'RANDOM' : 'MANUAL')] *)
Definition chosenStrategy (byeStrategy : option ByeStrategy) (designatedByeAthleteIds : list uuid) : ByeStrategy :=
  match byeStrategy with
  | Some s => s
  | None => if (length designatedByeAthleteIds =? 0)%nat then RANDOM else MANUAL
  end.

(** [BracketPreviewService.preview]; the random source starts in the state [r]. An error of the
    generator leaves as it is, an internal error. *)
Definition preview {R} (nextInt : R -> nat -> option Z * R) (tournamentId weightClassId : uuid)
    (setupToken : string) (designatedByeAthleteIds : list uuid) (byeStrategy : option ByeStrategy)
    (now : Z) (nonce : string) (r : R) : DbM PreviewResult :=
  openDraw tournamentId weightClassId;;
  athletes ← gets (eligibleAthletes tournamentId weightClassId);
  throw_if (length athletes <? 2)%nat (Conflict "BRACKET_INSUFFICIENT_ATHLETES");;
  throw_if (MAX_BRACKET_ATHLETES <? Z.of_nat (length athletes)) (Conflict "BRACKET_ATHLETE_LIMIT_EXCEEDED");;
  let fingerprint := rosterFingerprint athletes in
  _ ← from_result setupTokenError (verifySetup signature decode tournamentId weightClassId fingerprint now setupToken);
  summary ← from_result (fun _ : GeneratorError => InternalError "summarizeBracket")
    (match summarizeBracket (length athletes) tt with Ok (s, _) => Ok s | Err e => Err e end);
  throw_if (existsb (fun id => negb (bool_decide (id ∈ idsOf athletes))) designatedByeAthleteIds)
    (Conflict "BRACKET_BYE_ATHLETE_INELIGIBLE");;
  throw_if (su_byeCount summary <? length designatedByeAthleteIds)%nat (Conflict "BRACKET_BYE_SELECTION_EXCESSIVE");;
  let strategy := chosenStrategy byeStrategy designatedByeAthleteIds in
  assertStrategySelection strategy designatedByeAthleteIds athletes (Z.of_nat (su_byeCount summary));;
  generated ← from_result (fun _ : GeneratorError => InternalError "generateSingleEliminationBracket")
    (match generateSingleEliminationBracket nextInt
       (mkGenerateInput (idsOf athletes) (Some designatedByeAthleteIds) (Some MAX_BRACKET_ATHLETES)) r
     with Ok (b, _) => Ok b | Err e => Err e end);
  let token := issuePreview signature encode
    (mkPreviewClaims tournamentId weightClassId (gb_initialEntrants generated)
       (sort_by Z.of_N designatedByeAthleteIds) strategy fingerprint 0 0 EmptyString) now nonce in
  mret (mkPreviewResult token.1 token.2 fingerprint generated).

(** [placements.findIndex((placement) => placement.athleteId === id)] *)
Fixpoint findPlacement (id : uuid) (ps : list BracketEntrantPlacement) : option nat :=
  match ps with
  | [] => None
  | p :: ps => if pl_athleteId p === Some id then Some 0%nat else option_map S (findPlacement id ps)
  end.

(** [[p[first]!.athleteId, p[second]!.athleteId] = [p[second]!.athleteId, p[first]!.athleteId]] *)
Definition swapAthletes (first second : nat) (ps : list BracketEntrantPlacement) : list BracketEntrantPlacement :=
  match ps !! first, ps !! second with
  | Some a, Some b =>
      let athleteAt id p := mkPlacement (pl_drawPosition p) id in
      alter (athleteAt (pl_athleteId a)) second (alter (athleteAt (pl_athleteId b)) first ps)
  | _, _ => ps
  end.

(** [BracketPreviewService.swap] *)
Definition swap (tournamentId weightClassId : uuid) (previewToken : string) (athleteId swapWithAthleteId : uuid)
    (now : Z) (nonce : string) : DbM PreviewResult :=
  claims ← from_result previewTokenError (verifyPreview signature decode tournamentId weightClassId now previewToken);
  throw_if (athleteId === swapWithAthleteId) (Conflict "BRACKET_SWAP_INVALID");;
  active ← find_one tournamentBrackets (currentBracket tournamentId weightClassId);
  throw_if (match active with Some _ => true | None => false end) (Conflict "BRACKET_ALREADY_EXISTS");;
  athletes ← gets (eligibleAthletes tournamentId weightClassId);
  throw_if (rosterFingerprint athletes !== pc_rosterFingerprint claims) (Conflict "BRACKET_ROSTER_CHANGED");;
  let first := findPlacement athleteId (pc_placements claims) in
  let second := findPlacement swapWithAthleteId (pc_placements claims) in
  throw_if (negb (bool_decide (athleteId ∈ idsOf athletes)) || negb (bool_decide (swapWithAthleteId ∈ idsOf athletes)))
    (Conflict "BRACKET_SWAP_INELIGIBLE");;
  i ← or_throw first (Conflict "BRACKET_SWAP_INELIGIBLE");
  j ← or_throw second (Conflict "BRACKET_SWAP_INELIGIBLE");
  let placements := swapAthletes i j (pc_placements claims) in
  generated ← from_result (fun _ => Conflict "BRACKET_GRAPH_INVALID") (buildSingleEliminationBracket placements);
  let token := issuePreview signature encode
    (mkPreviewClaims tournamentId weightClassId placements (pc_designatedByeAthleteIds claims)
       (pc_byeStrategy claims) (pc_rosterFingerprint claims) 0 0 EmptyString) now nonce in
  mret (mkPreviewResult token.1 token.2 (pc_rosterFingerprint claims) generated).
End Draws.

(** ** Confirmation *)

(** Rows for a [new Map(entries)]: a later entry wins. *)
Definition jsMap {K A} `{Countable K} (entries : list (K * A)) : gmap K A := list_to_map (rev entries).

Definition slotList (f : GeneratedBracketFixture) : list GeneratedBracketSlot := [(gf_slots f).1; (gf_slots f).2].

(** [openingByAthleteId] *)
Definition openings (fixtures : list GeneratedBracketFixture) : gmap uuid GeneratedBracketFixture :=
  jsMap (flat_map (fun f => flat_map (fun s => match gs_source s with ENTRANT e => [(e, f)] | _ => [] end) (slotList f)) fixtures).

(** The placement across from [p] in its first-round pair. *)
Definition pairedWith (placements : list BracketEntrantPlacement) (p : BracketEntrantPlacement) :
    option BracketEntrantPlacement :=
  placements !! Z.to_nat (if pl_drawPosition p mod 2 =? 0 then pl_drawPosition p - 2 else pl_drawPosition p).

Definition receivedBye (placements : list BracketEntrantPlacement) (p : BracketEntrantPlacement) : bool :=
  match pairedWith placements p with Some q => pl_athleteId q === None | None => false end.

(** The nested [entrants.create] of one placement; the non-null assertions throw when they fail. *)
Definition createEntrant (bracketId : uuid) (placements : list BracketEntrantPlacement)
    (athletes : list (AthleteRow * option OrganizationRow)) (opening : gmap uuid GeneratedBracketFixture)
    (p : BracketEntrantPlacement) : DbM unit :=
  match pl_athleteId p with
  | None => mret tt
  | Some athleteId =>
      a ← or_throw (jsMap (map (fun a => (at_id a.1, a)) athletes) !! athleteId) (InternalError "TypeError");
      at_ ← or_throw (opening !! athleteId) (InternalError "TypeError");
      slot ← or_throw (find_first (fun s => gs_source s === ENTRANT athleteId) (slotList at_)) (InternalError "TypeError");
      _ ← create bracketEntrants (fun id => mkEntrantRow id bracketId (at_id a.1) (at_name a.1) (at_birthYear a.1)
            (option_map og_name a.2) (at_imagePath a.1) (Z.of_nat (gf_roundNumber at_))
            (Some (Z.of_nat (gf_position at_))) (Some (gs_side slot)) (receivedBye placements p));
      mret tt
  end.

(** The columns of one slot. *)
Definition slotRow (entrants : gmap uuid uuid) (fixtureIds : gmap string uuid) (fixtureId : uuid)
    (s : GeneratedBracketSlot) (id : uuid) : SlotRow :=
  match gs_source s with
  | ENTRANT e => mkSlotRow id fixtureId (gs_side s) None
      (match gs_resolvedEntrantId s with Some r => entrants !! r | None => None end) (entrants !! e)
  | FIXTURE_WINNER f => mkSlotRow id fixtureId (gs_side s) (fixtureIds !! f) None None
  end.

Definition fixtureRow (bracketId : uuid) (f : GeneratedBracketFixture) (slots : list SlotRow) (id : uuid) : FixtureRow :=
  mkFixtureRow id bracketId (Z.of_nat (gf_roundNumber f)) (Z.of_nat (gf_position f))
    (if forallb (fun s => set_ (sl_resolvedEntrantId s)) slots then FIXTURE_READY else PENDING_PARTICIPANTS)
    None None (gf_displayReference f).

(** The loop over the graph: a fixture, its two slots, and the map from graph ids to rows. *)
Fixpoint createFixtures (bracketId : uuid) (entrants : gmap uuid uuid) (fs : list GeneratedBracketFixture)
    (fixtureIds : gmap string uuid) : DbM unit :=
  match fs with
  | [] => mret tt
  | f :: fs =>
      row ← create bracketFixtures
              (fixtureRow bracketId f (map (fun s => slotRow entrants fixtureIds 0%N s 0%N) (slotList f)));
      create_many bracketSlots (slotRow entrants fixtureIds (fx_id row)) (slotList f);;
      createFixtures bracketId entrants fs (<[gf_id f := fx_id row]> fixtureIds)
  end.

Section Confirmation.
Context (sha256 : json -> string) (signature : string -> string) (decode : string -> option json).

(** [fingerprint]: the semantic claims, without nonce and timestamps. *)
Definition fingerprint (c : PreviewClaims) : string := sha256 (JObj
  [("tournamentId", JId (pc_tournamentId c)); ("weightClassId", JId (pc_weightClassId c));
   ("rosterFingerprint", JStr (pc_rosterFingerprint c));
   ("designatedByeAthleteIds", JList (map JId (sort_by Z.of_N (pc_designatedByeAthleteIds c))));
   ("byeStrategy", JStr (strategyName (pc_byeStrategy c)));
   ("bracketSize", JNum (Z.of_nat (length (pc_placements c))));
   ("placements", JList (map (fun p => JList [JNum (pl_drawPosition p); jopt JId (pl_athleteId p)])
                           (sort_by pl_drawPosition (pc_placements c))))]%string).

(** [graph] *)
Definition graph (c : PreviewClaims) (eligibleIds : list uuid) : DbM GeneratedBracket :=
  let ids := athleteIdsOf (pc_placements c) in
  let size := length (pc_placements c) in
  throw_if ((size <? 2)%nat || negb (Nat.land size (size - 1) =? 0)%nat ||
            negb (length ids =? length (remove_dups eligibleIds))%nat || negb (bool_decide (NoDup ids)) ||
            existsb (fun id => negb (bool_decide (id ∈ eligibleIds))) ids) (Conflict "BRACKET_GRAPH_INVALID");;
  from_result (fun _ => Conflict "BRACKET_GRAPH_INVALID") (buildSingleEliminationBracket (pc_placements c)).

(** The writes of a confirmation. *)
Definition storeBracket (tournamentId weightClassId userId : uuid) (idempotencyKey : string) (claims : PreviewClaims)
    (athletes : list (AthleteRow * option OrganizationRow)) (rules : SportRulesDefinition) (g : GeneratedBracket) :
    DbM BracketRow :=
  let opening := openings (gb_fixtures g) in
  bracket ← create tournamentBrackets (fun id => mkBracketRow id tournamentId weightClassId BRACKET_ACTIVE
    (Z.of_nat (gb_roundCount g)) None None (Z.of_nat (length athletes)) (Z.of_nat (length (pc_placements claims)))
    idempotencyKey (fingerprint claims) (Some userId) None);
  for_each (createEntrant (br_id bracket) (pc_placements claims) athletes opening) (pc_placements claims);;
  stored ← find_many bracketEntrants (fun e => en_bracketId e === br_id bracket);
  let entrants := jsMap (map (fun e => (en_athleteId e, en_id e)) stored) in
  createFixtures (br_id bracket) entrants (gb_fixtures g) ∅;;
  create_many bracketRoundStaffing (fun roundNumber id =>
      mkStaffingRow id (br_id bracket) (Z.of_nat roundNumber) (defaultRequiredJudgeCount rules))
    (seq 1 (gb_roundCount g));;
  _ ← create auditLogs (fun id => mkAuditRow id None (Some userId) None None BRACKET_CONFIRMED
    (JObj [("athleteCount", JNum (Z.of_nat (length athletes))); ("bracketId", JId (br_id bracket));
           ("bracketSize", JNum (Z.of_nat (length (pc_placements claims))));
           ("roundCount", JNum (Z.of_nat (gb_roundCount g))); ("tournamentId", JId tournamentId);
           ("weightClassId", JId weightClassId)]%string));
  find_one_or_throw tournamentBrackets (fun b => br_id b === br_id bracket).

(** [BracketConfirmationService.confirm] without its recovery from a concurrent transaction
    that won a unique index. *)
Definition confirm (tournamentId weightClassId : uuid) (previewToken idempotencyKey : string) (userId : uuid)
    (now : Z) : DbM BracketRow :=
  claims ← from_result previewTokenError (verifyPreview signature decode tournamentId weightClassId now previewToken);
  existing ← find_one tournamentBrackets (fun b => br_confirmationKey b === idempotencyKey);
  match existing with
  | Some b =>
      throw_if (br_confirmationFingerprint b !== fingerprint claims) (Conflict "BRACKET_CONFIRMATION_KEY_REUSED");;
      mret b
  | None =>
      tournament ← find_one tournaments (fun t => tn_id t === tournamentId);
      tournament ← or_throw tournament (NotFound "TOURNAMENT_NOT_FOUND");
      throw_if (tn_status tournament === TOURNAMENT_ARCHIVED) (Conflict "TOURNAMENT_ARCHIVED");;
      rules ← resolveRules (tn_sportGroupCode tournament);
      weight ← find_one tournamentWeightClasses (activeWeightClass tournamentId weightClassId);
      _ ← or_throw weight (NotFound "WEIGHT_CLASS_NOT_FOUND");
      current ← find_one tournamentBrackets (currentBracket tournamentId weightClassId);
      throw_if (match current with Some _ => true | None => false end) (Conflict "BRACKET_ALREADY_EXISTS");;
      athletes ← gets (eligibleAthletes tournamentId weightClassId);
      throw_if (rosterFingerprint sha256 athletes !== pc_rosterFingerprint claims) (Conflict "BRACKET_ROSTER_CHANGED");;
      assertStrategySelection (pc_byeStrategy claims) (pc_designatedByeAthleteIds claims) athletes
        (Z.of_nat (length (pc_placements claims)) - Z.of_nat (length athletes));;
      g ← graph claims (idsOf athletes);
      storeBracket tournamentId weightClassId userId idempotencyKey claims athletes rules g
  end.
End Confirmation.
