(* ===== verification/BracketStorage.v ===== *)
(** * Stored brackets

    What a confirmation leaves in the store: the rows of its graph, and that they form the
    single-elimination tree BracketOutcome moves winners through. *)
From stdpp Require Import gmap.
From S2P Require Import Prelude Schema Database Rules Scenario BracketGenerator BracketTokens BracketDraws.

Section Rows.
Open Scope N_scope.

(** The rows of a graph whose first fixture gets the id [n]: each fixture is followed by its two
    slots. *)
Fixpoint fixtureRows (entrants : gmap uuid uuid) (b n : uuid) (fs : list GeneratedBracketFixture) : list FixtureRow :=
  match fs with
  | [] => []
  | f :: fs => fixtureRow b f (map (fun s => slotRow entrants ∅ 0 s 0) (slotList f)) n :: fixtureRows entrants b (n + 3) fs
  end.

Fixpoint slotRows (entrants : gmap uuid uuid) (ids : gmap string uuid) (n : uuid) (fs : list GeneratedBracketFixture) :
    list SlotRow :=
  match fs with
  | [] => []
  | f :: fs => numbered (slotRow entrants ids n) (N.succ n) (slotList f) ++
               slotRows entrants (<[gf_id f := n]> ids) (n + 3) fs
  end.

Lemma fixtureRow_ids entrants ids b f n :
  fixtureRow b f (map (fun s => slotRow entrants ids 0 s 0) (slotList f)) n =
  fixtureRow b f (map (fun s => slotRow entrants ∅ 0 s 0) (slotList f)) n.
Proof.
  unfold fixtureRow, slotList; cbn [map]; unfold slotRow.
  destruct (gs_source (gf_slots f).1), (gs_source (gf_slots f).2); reflexivity.
Qed.

Lemma createFixtures_run b entrants fs : forall ids d u d', createFixtures b entrants fs ids d = Ok (u, d') ->
  db_bracketFixtures d' = db_bracketFixtures d ++ fixtureRows entrants b (db_nextId d) fs /\
  db_bracketSlots d' = db_bracketSlots d ++ slotRows entrants ids (db_nextId d) fs /\
  db_nextId d' = db_nextId d + 3 * N.of_nat (length fs) /\ touches [bracketFixtures; bracketSlots] d d'.
Proof.
  induction fs as [|f fs IH]; intros ids d u d' H; cbn [createFixtures] in H.
  - apply ret_ok in H as [_ ->]; cbn; rewrite !app_nil_r, N.add_0_r; repeat split.
  - apply bind_ok in H as (row & d1 & Hf & H); apply (create_ok bracketFixtures) in Hf as (-> & _ & ->).
    apply bind_ok in H as (v & d2 & Hs & H); apply (create_many_run bracketSlots) in Hs as (Hg & Hn & Ho).
    rewrite nextId_put in Hg, Hn; change (db_nextId (d <| db_nextId ::= N.succ |>)) with (N.succ (db_nextId d)) in Hg, Hn.
    apply IH in H as (Hf & Hsl & Hn' & Ht); cbn [fx_id fixtureRow] in *.
    change (length (slotList f)) with 2%nat in Hn.
    assert (E3 : db_nextId d2 = db_nextId d + 3) by (rewrite Hn; lia); rewrite E3 in *.
    change (get bracketSlots ?x) with (db_bracketSlots x) in Hg.
    assert (Ef : db_bracketFixtures d2 = db_bracketFixtures d ++
      [fixtureRow b f (map (fun s => slotRow entrants ids 0 s 0) (slotList f)) (db_nextId d)])
      by exact (Ho bracketFixtures ltac:(discriminate)).
    cbn [fixtureRows slotRows]; split; [| split; [| split]].
    + rewrite Hf, Ef, <- app_assoc, fixtureRow_ids; reflexivity.
    + rewrite Hsl, Hg, <- app_assoc; reflexivity.
    + rewrite Hn'; cbn [length]; lia.
    + intros t Hnot; rewrite (Ht t Hnot).
      assert (t <> bracketSlots /\ t <> bracketFixtures) as [Hns Hnf]
        by (split; intros ->; apply Hnot; table_in).
      rewrite (Ho t Hns), get_put_other, get_nextId by exact Hnf; reflexivity.
Qed.

(** The ids known when the fixture at [i] is stored. *)
Fixpoint idsBefore (ids : gmap string uuid) (n : uuid) (fs : list GeneratedBracketFixture) : gmap string uuid :=
  match fs with [] => ids | f :: fs => idsBefore (<[gf_id f := n]> ids) (n + 3) fs end.

Lemma fixtureRows_lookup entrants b fs : forall n i,
  fixtureRows entrants b n fs !! i =
  option_map (fun f => fixtureRow b f (map (fun s => slotRow entrants ∅ 0 s 0) (slotList f)) (n + 3 * N.of_nat i)) (fs !! i).
Proof.
  induction fs as [|f fs IH]; intros n [|i]; cbn; try reflexivity.
  - rewrite N.add_0_r; reflexivity.
  - change (list_lookup i ?x) with (x !! i); rewrite IH; destruct (fs !! i); cbn; [| reflexivity].
    do 2 f_equal; lia.
Qed.

Lemma slotRows_in entrants fs : forall ids n s, In s (slotRows entrants ids n fs) -> exists i f gs k,
  fs !! i = Some f /\ (gs = (gf_slots f).1 /\ k = n + 3 * N.of_nat i + 1 \/ gs = (gf_slots f).2 /\ k = n + 3 * N.of_nat i + 2) /\
  s = slotRow entrants (idsBefore ids n (list.take i fs)) (n + 3 * N.of_nat i) gs k.
Proof.
  induction fs as [|f fs IH]; intros ids n s; [intros [] |]; cbn [slotRows].
  intros [[<- | [<- | []]] | H]%in_app_or.
  - exists 0%nat, f, (gf_slots f).1, (N.succ n); split; [reflexivity |]; split; [left; split; [reflexivity | lia] |].
    cbn; f_equal; lia.
  - exists 0%nat, f, (gf_slots f).2, (N.succ (N.succ n)); split; [reflexivity |]; split; [right; split; [reflexivity | lia] |].
    cbn; f_equal; lia.
  - apply IH in H as (i & g & gs & k & Hi & Hgs & ->); exists (S i), g, gs, k; split; [exact Hi |]; split.
    + destruct Hgs as [[-> ->] | [-> ->]]; [left | right]; (split; [reflexivity | lia]).
    + cbn [list.take idsBefore]; f_equal; lia.
Qed.

Lemma slotRow_id entrants ids f s k : sl_id (slotRow entrants ids f s k) = k /\ sl_fixtureId (slotRow entrants ids f s k) = f /\
  sl_side (slotRow entrants ids f s k) = gs_side s.
Proof. unfold slotRow; destruct (gs_source s); auto. Qed.

(** The two slots stored with the fixture at [i]. *)
Lemma slotRows_at entrants fs : forall ids n i f, fs !! i = Some f ->
  List.filter (fun s => sl_fixtureId s === n + 3 * N.of_nat i) (slotRows entrants ids n fs) =
  numbered (slotRow entrants (idsBefore ids n (list.take i fs)) (n + 3 * N.of_nat i)) (n + 3 * N.of_nat i + 1) (slotList f).
Proof.
  induction fs as [|g fs IH]; intros ids n i f Hi; [discriminate |]; cbn [slotRows]; rewrite List.filter_app.
  assert (Hhead : forall m, List.filter (fun s => sl_fixtureId s === m) (numbered (slotRow entrants ids n) (N.succ n) (slotList g)) =
    if n === m then numbered (slotRow entrants ids n) (N.succ n) (slotList g) else []).
  { intros m; unfold slotList; cbn [numbered List.filter].
    destruct (slotRow_id entrants ids n (gf_slots g).1 (N.succ n)) as (_ & -> & _).
    destruct (slotRow_id entrants ids n (gf_slots g).2 (N.succ (N.succ n))) as (_ & -> & _).
    destruct (n === m); reflexivity. }
  rewrite Hhead; destruct i as [|i].
  - injection Hi as ->; rewrite bool_decide_eq_true_2 by lia.
    rewrite (filter_nothing _ (slotRows _ _ _ _)), app_nil_r.
    + cbn [list.take idsBefore]; f_equal; [f_equal; lia | lia].
    + intros s Hs; apply slotRows_in in Hs as (j & g & gs & k & _ & _ & ->).
      destruct (slotRow_id entrants (idsBefore (<[gf_id f:=n]> ids) (n + 3) (list.take j fs)) (n + 3 + 3 * N.of_nat j) gs k) as (_ & -> & _).
      apply bool_decide_eq_false_2; lia.
  - rewrite bool_decide_eq_false_2 by lia; cbn [app list.take idsBefore].
    replace (n + 3 * N.of_nat (S i)) with (n + 3 + 3 * N.of_nat i) by lia; apply IH, Hi.
Qed.

Lemma slotRows_distinct entrants fs : forall ids n, NoDup (slotRows entrants ids n fs) /\
  forall s, In s (slotRows entrants ids n fs) -> n < sl_id s.
Proof.
  induction fs as [|f fs IH]; intros ids n; cbn [slotRows]; [split; [constructor | intros s []] |].
  destruct (IH (<[gf_id f := n]> ids) (n + 3)) as [Hn Hlt]; unfold slotList; cbn [numbered app].
  set (s1 := slotRow entrants ids n (gf_slots f).1 (N.succ n)); set (s2 := slotRow entrants ids n (gf_slots f).2 (N.succ (N.succ n))).
  assert (E1 : sl_id s1 = N.succ n) by apply slotRow_id; assert (E2 : sl_id s2 = N.succ (N.succ n)) by apply slotRow_id.
  split.
  - apply list.NoDup_cons; split; [| apply list.NoDup_cons; split; [| exact Hn]]; rewrite list_elem_of_In.
    + intros [E | Hin]; [rewrite E in E2; lia | apply Hlt in Hin; lia].
    + intros Hin; apply Hlt in Hin; lia.
  - intros s [<- | [<- | Hin]]; [lia | lia | apply Hlt in Hin; lia].
Qed.

Lemma idsBefore_other fs id : forall ids n, ~ In id (map gf_id fs) -> idsBefore ids n fs !! id = ids !! id.
Proof.
  induction fs as [|f fs IH]; intros ids n H; [reflexivity |]; cbn in *.
  rewrite IH, lookup_insert_ne by tauto; reflexivity.
Qed.

Lemma idsBefore_lookup fs : forall ids n i j f, NoDup (map gf_id fs) -> fs !! j = Some f -> (j < i)%nat ->
  idsBefore ids n (list.take i fs) !! gf_id f = Some (n + 3 * N.of_nat j).
Proof.
  induction fs as [|g fs IH]; intros ids n i j f Hn Hj Hlt; [discriminate |].
  cbn [map] in Hn; apply list.NoDup_cons in Hn as [Hg Hn]; destruct i as [|i]; [lia |]; cbn [list.take idsBefore].
  destruct j as [|j].
  - injection Hj as ->; rewrite idsBefore_other, lookup_insert_eq, N.mul_0_r, N.add_0_r; [reflexivity |].
    intros Hin; apply Hg, list_elem_of_In; apply in_map_iff in Hin as (h & <- & Hh).
    apply in_map; apply list_elem_of_In; apply list_elem_of_In, elem_of_take in Hh as (k & Hk & _).
    apply list_elem_of_lookup; eauto.
  - rewrite (IH _ _ i j f Hn Hj) by lia; f_equal; lia.
Qed.
End Rows.

(** ** The entrants *)
Section Entrants.
Open Scope N_scope.

Lemma jsMap_some {A} (entries : list (uuid * A)) k a : jsMap entries !! k = Some a -> In (k, a) entries.
Proof. intros H; apply elem_of_list_to_map_2, list_elem_of_In, in_rev in H; exact H. Qed.

Lemma jsMap_in {A} (entries : list (uuid * A)) k : In k (map fst entries) -> exists a, jsMap entries !! k = Some a.
Proof.
  intros H; destruct (jsMap entries !! k) as [a |] eqn:E; [eauto |].
  apply not_elem_of_list_to_map_2 in E; exfalso; apply E, list_elem_of_In.
  change (fst <$> rev entries) with (map fst (rev entries)); rewrite map_rev; apply in_rev in H; exact H.
Qed.

(** An entrant: its athlete as registered now, and the slot of the graph it enters. *)
Definition entrantAt (ps : list BracketEntrantPlacement) (athletes : list (AthleteRow * option OrganizationRow))
    (opening : gmap uuid GeneratedBracketFixture) (e : EntrantRow) : Prop := exists p a f s,
  In p ps /\ pl_athleteId p = Some (en_athleteId e) /\ In a athletes /\ at_id a.1 = en_athleteId e /\
  opening !! en_athleteId e = Some f /\ find_first (fun s => gs_source s === ENTRANT (en_athleteId e)) (slotList f) = Some s /\
  e = mkEntrantRow (en_id e) (en_bracketId e) (at_id a.1) (at_name a.1) (at_birthYear a.1) (option_map og_name a.2) (at_imagePath a.1)
        (Z.of_nat (gf_roundNumber f)) (Some (Z.of_nat (gf_position f))) (Some (gs_side s)) (receivedBye ps p).

Lemma createEntrants_run b ps athletes opening l : (forall p, In p l -> In p ps) -> forall d u d',
  for_each (createEntrant b ps athletes opening) l d = Ok (u, d') -> exists rows,
  db_bracketEntrants d' = db_bracketEntrants d ++ rows /\ map en_athleteId rows = athleteIdsOf l /\
  (forall e, In e rows -> en_bracketId e = b /\ db_nextId d <= en_id e < db_nextId d' /\ entrantAt ps athletes opening e) /\
  NoDup (map en_id rows) /\
  db_nextId d <= db_nextId d' /\ touches [bracketEntrants] d d'.
Proof.
  induction l as [|p l IH]; intros Hps d u d' H; cbn [for_each] in H.
  - apply ret_ok in H as [_ ->]; exists []; rewrite app_nil_r; split; [reflexivity |]; split; [reflexivity |].
    split; [intros e [] |]; split; [constructor |]; split; [lia |]; intros t _; reflexivity.
  - apply bind_ok in H as (v & d1 & Hp & H); apply (IH ltac:(auto with datatypes)) in H as (rows & Hrows & Hids & Hin & Hnd & Hle & Ht).
    unfold createEntrant in Hp; unfold athleteIdsOf; cbn [omap list_omap]; change (omap pl_athleteId l) with (athleteIdsOf l).
    destruct (pl_athleteId p) as [id |] eqn:Epl; [| apply ret_ok in Hp as [_ <-]; exists rows; auto 8].
    apply bind_ok in Hp as (a & d2 & Ha & Hp); apply or_throw_ok in Ha as [Ha ->].
    apply bind_ok in Hp as (f & d3 & Hf & Hp); apply or_throw_ok in Hf as [Hf ->].
    apply bind_ok in Hp as (sl & d4 & Hs & Hp); apply or_throw_ok in Hs as [Hs ->].
    apply bind_ok in Hp as (row & d5 & Hc & Hp); apply ret_ok in Hp as [_ ->].
    apply (create_ok bracketEntrants) in Hc as (Hrow & _ & Hd1).
    apply jsMap_some, in_map_iff in Ha as (a' & [= Hid <-] & Hath).
    assert (Hn : db_nextId d1 = N.succ (db_nextId d)) by (rewrite Hd1, nextId_put; reflexivity).
    exists (row :: rows); rewrite Hn in *; split; [| split; [| split; [| split; [| split]]]].
    + rewrite Hrows, Hd1; change (db_bracketEntrants (put bracketEntrants ?x ?y)) with x.
      rewrite <- app_assoc; reflexivity.
    + cbn [map]; rewrite Hids, Hrow; cbn; rewrite Hid; reflexivity.
    + intros e [<- | He]; [| destruct (Hin e He) as (Hb & [Hlo Hhi] & Hat); split; [exact Hb |]; split; [lia | exact Hat]].
      rewrite Hrow; cbn [en_bracketId en_id]; split; [reflexivity |]; split; [lia |]; exists p, a', f, sl; cbn; rewrite Hid.
      split_and!; auto with datatypes.
    + cbn [map]; apply list.NoDup_cons; split; [| exact Hnd]; rewrite list_elem_of_In, in_map_iff; intros (e & E & He).
      destruct (Hin e He) as (_ & [Hlo _] & _); rewrite Hrow in E; cbn in E; lia.
    + lia.
    + intros t Hnot; rewrite (Ht t Hnot), Hd1.
      assert (t <> bracketEntrants) by (intros ->; apply Hnot; table_in).
      rewrite get_put_other, get_nextId by assumption; reflexivity.
Qed.

(** What the foreign keys of the bracket tables say about ids not yet drawn. *)
Definition bracket_refs (d : DB) : Prop :=
  (forall e, In e (db_bracketEntrants d) -> en_bracketId e < db_nextId d) /\
  (forall f, In f (db_bracketFixtures d) -> fx_bracketId f < db_nextId d) /\
  (forall s, In s (db_bracketSlots d) -> sl_fixtureId s < db_nextId d /\
     forall u, sl_sourceFixtureId s = Some u -> u < db_nextId d).

(** The rows a confirmation adds to the store [d]. *)
Record stored (d d' : DB) (b : BracketRow) (ps : list BracketEntrantPlacement) (g : GeneratedBracket) : Prop := {
  sto_entrants : exists rows, db_bracketEntrants d' = db_bracketEntrants d ++ rows /\
    map en_athleteId rows = athleteIdsOf ps /\ (forall e, In e rows -> en_bracketId e = br_id b) /\ NoDup (map en_id rows) /\
    exists n, db_nextId d <= n /\ let entrants := jsMap (map (fun e => (en_athleteId e, en_id e)) rows) in
      db_bracketFixtures d' = db_bracketFixtures d ++ fixtureRows entrants (br_id b) n (gb_fixtures g) /\
      db_bracketSlots d' = db_bracketSlots d ++ slotRows entrants ∅ n (gb_fixtures g);
  sto_bracket : db_tournamentBrackets d' = db_tournamentBrackets d ++ [b];
  sto_staffing : exists rules m, db_bracketRoundStaffing d' = db_bracketRoundStaffing d ++
    numbered (fun r id => mkStaffingRow id (br_id b) (Z.of_nat r) (defaultRequiredJudgeCount rules)) m (seq 1 (gb_roundCount g));
  sto_audit : exists a, db_auditLogs d' = db_auditLogs d ++ [a];
  sto_touches : touches [tournamentBrackets; bracketEntrants; bracketFixtures; bracketSlots; bracketRoundStaffing; auditLogs] d d' }.
End Entrants.

Section Store.
Context (sha256 : json -> string).
Open Scope N_scope.

(** The bracket row a confirmation creates. *)
Definition confirmedBracket (id tournamentId weightClassId userId : uuid) (key : string) (claims : PreviewClaims)
    (count : nat) (g : GeneratedBracket) : BracketRow :=
  mkBracketRow id tournamentId weightClassId BRACKET_ACTIVE (Z.of_nat (gb_roundCount g)) None None (Z.of_nat count)
    (Z.of_nat (length (pc_placements claims))) key (fingerprint sha256 claims) (Some userId) None.

Lemma storeBracket_ok tournamentId weightClassId userId key claims athletes rules g d b d' :
  storeBracket sha256 tournamentId weightClassId userId key claims athletes rules g d = Ok (b, d') ->
  fresh d -> bracket_refs d ->
  b = confirmedBracket (db_nextId d) tournamentId weightClassId userId key claims (length athletes) g /\
  stored d d' b (pc_placements claims) g /\
  forall e, In e (db_bracketEntrants d') -> en_bracketId e = br_id b -> entrantAt (pc_placements claims) athletes (openings (gb_fixtures g)) e.
Proof.
  intros H Hfresh Hrefs; apply bind_ok in H as (b0 & d1 & Hb & H).
  apply (create_ok tournamentBrackets) in Hb as (Hb0 & _ & Hd1).
  assert (Hn1 : db_nextId d1 = N.succ (db_nextId d)) by (rewrite Hd1, nextId_put; reflexivity).
  assert (Ho1 : forall t, t <> tournamentBrackets -> get t d1 = get t d)
    by (intros t Ht; rewrite Hd1, get_put_other, get_nextId by exact Ht; reflexivity).
  apply bind_ok in H as (u1 & d2 & He & H); apply createEntrants_run in He as (rows & Hrows & Hathletes & Hin & Hnd & Hle & Ht2); [| auto].
  apply bind_ok in H as (found & d3 & Hf & H); apply gets_ok in Hf as [Hfound ->].
  assert (Hmine : found = rows).
  { rewrite Hfound; change (get bracketEntrants d2) with (db_bracketEntrants d2); rewrite Hrows, List.filter_app.
    change (db_bracketEntrants d1) with (get bracketEntrants d1); rewrite Ho1 by discriminate.
    rewrite filter_nothing, filter_everything; [reflexivity | |].
    - intros e Hi; apply bool_decide_eq_true_2, (Hin e Hi).
    - intros e Hi; apply bool_decide_eq_false_2; rewrite Hb0; intros E.
      destruct Hrefs as (Hr & _); specialize (Hr e Hi); cbn in E; lia. }
  subst found; rewrite Hmine in H; clear Hmine.
  set (entrants := jsMap (map (fun e => (en_athleteId e, en_id e)) rows)) in H.
  apply bind_ok in H as (u2 & d3 & Hx & H); apply createFixtures_run in Hx as (Hfx & Hsl & Hn3 & Ht3).
  apply bind_ok in H as (u3 & d4 & Hs & H); apply (create_many_run bracketRoundStaffing) in Hs as (Hst & Hn4 & Ho4).
  apply bind_ok in H as (au & d5 & Hau & H); apply (create_ok auditLogs) in Hau as (Hau & _ & Hd5).
  assert (Ho5 : forall t, t <> auditLogs -> get t d5 = get t d4)
    by (intros t Ht; rewrite Hd5, get_put_other, get_nextId by exact Ht; reflexivity).
  apply (find_one_or_throw_ok tournamentBrackets) in H as [Hfind ->].
  assert (Htb : db_tournamentBrackets d5 = db_tournamentBrackets d ++ [b0]).
  { change (db_tournamentBrackets d5) with (get tournamentBrackets d5).
    rewrite Ho5, Ho4, (Ht3 tournamentBrackets), (Ht2 tournamentBrackets) by (discriminate || table_notin).
    rewrite Hd1, get_put_same; reflexivity. }
  assert (Hbb : b = b0).
  { change (find_first (fun b => br_id b === br_id b0) (db_tournamentBrackets d5) = Some b) in Hfind.
    rewrite Htb, find_first_app in Hfind.
    destruct (find_first _ (db_tournamentBrackets d)) as [x |] eqn:E.
    - apply find_first_some in E as [Hi E]; apply bool_decide_eq_true in E.
      specialize (Hfresh tournamentBrackets x (br_id x) Hi eq_refl); rewrite E, Hb0 in Hfresh; cbn in Hfresh; lia.
    - cbn in Hfind; rewrite bool_decide_eq_true_2 in Hfind by reflexivity; congruence. }
  subst b; split; [exact Hb0 |]; split.
  - split.
    + exists rows; change (db_bracketEntrants d5) with (get bracketEntrants d5).
      change (db_bracketFixtures d5) with (get bracketFixtures d5); change (db_bracketSlots d5) with (get bracketSlots d5).
      rewrite !Ho5, !Ho4, (Ht3 bracketEntrants) by (discriminate || table_notin).
      change (get bracketFixtures d3) with (db_bracketFixtures d3); change (get bracketSlots d3) with (db_bracketSlots d3).
      change (get bracketEntrants d2) with (db_bracketEntrants d2); rewrite Hrows, Hfx, Hsl.
      change (db_bracketEntrants d1) with (get bracketEntrants d1); change (db_bracketFixtures d2) with (get bracketFixtures d2);
        change (db_bracketSlots d2) with (get bracketSlots d2).
      rewrite (Ht2 bracketFixtures), (Ht2 bracketSlots), !Ho1 by (discriminate || table_notin).
      split; [reflexivity |]; split; [exact Hathletes |]; split; [intros e Hi; apply (Hin e Hi) |]; split; [exact Hnd |].
      exists (db_nextId d2); split; [lia | split; reflexivity].
    + exact Htb.
    + exists rules, (db_nextId d3); change (db_bracketRoundStaffing d5) with (get bracketRoundStaffing d5); rewrite Ho5, Hst by discriminate.
      rewrite (Ht3 bracketRoundStaffing), (Ht2 bracketRoundStaffing), Ho1 by (discriminate || table_notin); reflexivity.
    + exists au; rewrite Hd5; change (db_auditLogs (put auditLogs ?x ?y)) with x; f_equal.
      change (db_auditLogs d4) with (get auditLogs d4); rewrite Ho4, (Ht3 auditLogs), (Ht2 auditLogs), Ho1 by (discriminate || table_notin); reflexivity.
    + intros t Ht; rewrite Ho5, Ho4, (Ht3 t), (Ht2 t), Ho1; [reflexivity | ..]; first [intros ->; apply Ht; table_in | intros E; apply Ht; set_solver].
  - intros e He Eb; change (db_bracketEntrants d5) with (get bracketEntrants d5) in He.
    rewrite Ho5, Ho4, (Ht3 bracketEntrants) in He by (discriminate || table_notin).
    change (get bracketEntrants d2) with (db_bracketEntrants d2) in He; rewrite Hrows in He; apply in_app_or in He as [He | He].
    + change (db_bracketEntrants d1) with (get bracketEntrants d1) in He; rewrite Ho1 in He by discriminate.
      destruct Hrefs as (Hr & _); specialize (Hr e He); rewrite Eb, Hb0 in Hr; cbn in Hr; lia.
    + apply (Hin e He).
Qed.
End Store.

(** ** The stored tree *)

Definition fixturesOf (b : uuid) (d : DB) : list FixtureRow :=
  List.filter (fun f => fx_bracketId f === b) (db_bracketFixtures d).
Definition slotsAt (f : uuid) (d : DB) : list SlotRow :=
  List.filter (fun s => sl_fixtureId s === f) (db_bracketSlots d).
Definition fedFrom (f : uuid) (d : DB) : list SlotRow :=
  List.filter (fun s => sl_sourceFixtureId s === Some f) (db_bracketSlots d).

(** A bracket in the store that is a single-elimination tree with nothing decided yet: every fixture
    has a red and a blue slot; a slot holds an entrant of the bracket or waits for the fixture of
    the round before it that feeds it; every fixture but the one of the last round feeds one slot; a
    fixture is ready exactly when both its entrants are known. *)
Record stored_tree (d : DB) (b : BracketRow) : Prop := {
  stt_slots : forall f, In f (fixturesOf (br_id b) d) -> exists red blue,
    slotsAt (fx_id f) d = [red; blue] /\ sl_side red = RED /\ sl_side blue = BLUE;
  stt_source : forall f s, In f (fixturesOf (br_id b) d) -> In s (slotsAt (fx_id f) d) ->
    (exists e, In e (db_bracketEntrants d) /\ en_bracketId e = br_id b /\
       sl_directEntrantId s = Some (en_id e) /\ sl_resolvedEntrantId s = Some (en_id e) /\ sl_sourceFixtureId s = None) \/
    (exists u, In u (fixturesOf (br_id b) d) /\ sl_sourceFixtureId s = Some (fx_id u) /\
       sl_directEntrantId s = None /\ sl_resolvedEntrantId s = None /\ fx_roundNumber f = fx_roundNumber u + 1 /\
       fx_position f = (fx_position u + 1) / 2 /\ sl_side s = if Z.odd (fx_position u) then RED else BLUE);
  stt_feeds : forall u, In u (fixturesOf (br_id b) d) -> fx_roundNumber u < br_roundCount b ->
    exists s, fedFrom (fx_id u) d = [s] /\ exists f, In f (fixturesOf (br_id b) d) /\ sl_fixtureId s = fx_id f;
  stt_final : exists u, In u (fixturesOf (br_id b) d) /\ fx_roundNumber u = br_roundCount b /\ fedFrom (fx_id u) d = [] /\
    forall f, In f (fixturesOf (br_id b) d) -> fx_roundNumber f = br_roundCount b -> f = u;
  stt_status : forall f, In f (fixturesOf (br_id b) d) -> fx_winnerEntrantId f = None /\
    fx_status f = if forallb (fun s => set_ (sl_resolvedEntrantId s)) (slotsAt (fx_id f) d)
                  then FIXTURE_READY else PENDING_PARTICIPANTS }.

(** *** From the graph to the rows *)
Section FromGraph.
Context (ps : list BracketEntrantPlacement) (g : GeneratedBracket) (Hse : single_elimination ps g).
Context (rows : list EntrantRow) (b n : uuid).
Let fs := gb_fixtures g.
Let entrants := jsMap (map (fun e => (en_athleteId e, en_id e)) rows).
Context (Hrows : map en_athleteId rows = athleteIdsOf ps).

Definition rowOf (i : nat) (f : GeneratedBracketFixture) : FixtureRow :=
  fixtureRow b f (map (fun s => slotRow entrants ∅ 0%N s 0%N) (slotList f)) (n + 3 * N.of_nat i)%N.

(** The fixture at [i] and the slots stored with it. *)
Definition idsAt (i : nat) : gmap string uuid := idsBefore ∅ n (list.take i fs).
Definition slotAt (i : nat) (s : GeneratedBracketSlot) (k : uuid) : SlotRow :=
  slotRow entrants (idsAt i) (n + 3 * N.of_nat i)%N s k.

Lemma fixture_source i f s id : fs !! i = Some f -> In s (slotList f) -> gs_source s = FIXTURE_WINNER id ->
  exists j u, (j < i)%nat /\ fs !! j = Some u /\ gf_id u = id /\ gf_roundNumber f = (gf_roundNumber u + 1)%nat /\
    gf_position f = ((gf_position u + 1) / 2)%nat /\ gf_downstream u = Some (gf_id f, gs_side s) /\
    gs_side s = (if Nat.odd (gf_position u) then RED else BLUE) /\ (gf_roundNumber u < gb_roundCount g)%nat.
Proof.
  intros Hi Hs Hsrc; assert (Hf : In f fs) by (apply list_elem_of_In, list_elem_of_lookup; eauto).
  destruct (se_source _ _ Hse f s id Hf) as (u & Hu & Hid & Hdown); [destruct Hs as [<- | [<- | []]]; auto | exact Hsrc |].
  destruct (se_final _ _ Hse) as (init & final & Hfs & Hnone & _ & _ & Hinit).
  assert (Hround : (gf_roundNumber u < gb_roundCount g)%nat).
  { rewrite Hfs in Hu; apply in_app_or in Hu as [Hu | [<- | []]]; [exact (Hinit u Hu) | congruence]. }
  destruct (se_winner _ _ Hse u Hu Hround) as (f' & Hf' & Hr & Hp & Hdown' & _).
  assert (f' = f) as -> by (apply (NoDup_map_inj gf_id fs); [apply (se_ids _ _ Hse) | exact Hf' | exact Hf | congruence]).
  pose proof Hu as [j Hj]%list_elem_of_In%list_elem_of_lookup.
  exists j, u; repeat split; try assumption; try congruence.
  apply (se_order _ _ Hse j i u f Hj Hi); lia.
Qed.

Lemma entrant_row e : In e (athleteIdsOf ps) -> exists row, In row rows /\ entrants !! e = Some (en_id row).
Proof.
  intros He; destruct (jsMap_in (map (fun r => (en_athleteId r, en_id r)) rows) e) as [id Hid].
  { rewrite map_map; change (In e (map en_athleteId rows)); rewrite Hrows; exact He. }
  apply jsMap_some in Hid as Hin; apply in_map_iff in Hin as (row & [= _ <-] & Hrow); exists row; auto.
Qed.

Lemma direct_entrant i f s e : fs !! i = Some f -> In s (slotList f) -> gs_source s = ENTRANT e -> In e (athleteIdsOf ps).
Proof.
  intros Hi Hs Hsrc; assert (Hf : In f fs) by (apply list_elem_of_In, list_elem_of_lookup; eauto).
  apply list_elem_of_In; rewrite <- (se_direct _ _ Hse); apply list_elem_of_omap; exists (ENTRANT e); split; [| reflexivity].
  apply list_elem_of_In, in_flat_map; exists f; split; [exact Hf |]; rewrite <- Hsrc.
  destruct Hs as [<- | [<- | []]]; [left | right; left]; reflexivity.
Qed.

Lemma slot_sides f : In f fs -> gs_side (gf_slots f).1 = RED /\ gs_side (gf_slots f).2 = BLUE /\
  forall s, In s (slotList f) -> forall e, gs_source s = ENTRANT e -> gs_resolvedEntrantId s = Some e.
Proof.
  intros Hf; destruct (se_slots _ _ Hse f Hf) as (red & blue & E); unfold slotList; rewrite E; cbn [fst snd].
  destruct red, blue; cbn; repeat split; intros s [<- | [<- | []]] x; cbn; congruence.
Qed.

(** What a stored slot says. *)
Lemma slot_kind i f s k : fs !! i = Some f -> In s (slotList f) ->
  (exists row, In row rows /\ sl_directEntrantId (slotAt i s k) = Some (en_id row) /\
     sl_resolvedEntrantId (slotAt i s k) = Some (en_id row) /\ sl_sourceFixtureId (slotAt i s k) = None) \/
  (exists j u, fs !! j = Some u /\ gs_source s = FIXTURE_WINNER (gf_id u) /\
     sl_sourceFixtureId (slotAt i s k) = Some (fx_id (rowOf j u)) /\
     sl_directEntrantId (slotAt i s k) = None /\ sl_resolvedEntrantId (slotAt i s k) = None /\
     gf_roundNumber f = (gf_roundNumber u + 1)%nat /\ gf_position f = ((gf_position u + 1) / 2)%nat /\
     gs_side s = if Nat.odd (gf_position u) then RED else BLUE).
Proof.
  intros Hi Hs; destruct (gs_source s) as [e | id] eqn:Hsrc.
  - left; destruct (entrant_row e) as (row & Hrow & He); [exact (direct_entrant i f s e Hi Hs Hsrc) |].
    assert (Hf : In f fs) by (apply list_elem_of_In, list_elem_of_lookup; eauto).
    destruct (slot_sides f Hf) as (_ & _ & Hres); specialize (Hres s Hs e Hsrc).
    exists row; unfold slotAt, slotRow; rewrite Hsrc, Hres; auto.
  - right; destruct (fixture_source i f s id Hi Hs Hsrc) as (j & u & Hji & Hj & <- & Hr & Hp & _ & Hside & _).
    exists j, u; unfold slotAt, slotRow; rewrite Hsrc; cbn; unfold idsAt.
    rewrite (idsBefore_lookup fs ∅ n i j u (se_ids _ _ Hse) Hj Hji); auto 10.
Qed.

(** A stored slot, with the fixture and the graph slot it comes from. *)
Lemma stored_slot s : In s (slotRows entrants ∅ n fs) -> exists i f gs k,
  fs !! i = Some f /\ (gs = (gf_slots f).1 /\ k = n + 3 * N.of_nat i + 1 \/ gs = (gf_slots f).2 /\ k = n + 3 * N.of_nat i + 2)%N /\
  In gs (slotList f) /\ s = slotAt i gs k.
Proof.
  intros H; apply slotRows_in in H as (i & f & gs & k & Hi & Hgs & ->); exists i, f, gs, k.
  repeat split; try assumption; unfold slotList; destruct Hgs as [[-> _] | [-> _]]; [left | right; left]; reflexivity.
Qed.

Lemma same_fixture i j f u : fs !! i = Some f -> fs !! j = Some u -> gf_id f = gf_id u -> i = j /\ f = u.
Proof.
  intros Hi Hj E; assert (f = u) as <-.
  { apply (NoDup_map_inj gf_id fs); [apply (se_ids _ _ Hse) | | | exact E];
      apply list_elem_of_In, list_elem_of_lookup; eauto. }
  split; [| reflexivity]; pose proof (se_ids _ _ Hse) as Hn; revert i j Hi Hj Hn; clear; fold fs.
  induction fs as [|x l IH]; intros i j Hi Hj Hn; [discriminate |].
  cbn [map] in Hn; apply list.NoDup_cons in Hn as [Hx Hn]; rewrite list_elem_of_In in Hx.
  assert (Hout : forall m, l !! m = Some x -> False)
    by (intros m Hm; apply Hx, in_map, list_elem_of_In, list_elem_of_lookup; eauto).
  destruct i as [|i], j as [|j]; [reflexivity | exfalso | exfalso | f_equal; apply IH; assumption].
  - injection Hi as ->; exact (Hout j Hj).
  - injection Hj as ->; exact (Hout i Hi).
Qed.

(** The slots a stored fixture feeds: none for the final, one for the others. *)
Lemma feeding j u s : fs !! j = Some u -> In s (slotRows entrants ∅ n fs) ->
  sl_sourceFixtureId s = Some (fx_id (rowOf j u)) -> exists i f gs k, s = slotAt i gs k /\ fs !! i = Some f /\
  gf_downstream u = Some (gf_id f, gs_side gs) /\ (gf_roundNumber u < gb_roundCount g)%nat /\
  (gs = (gf_slots f).1 /\ k = n + 3 * N.of_nat i + 1 \/ gs = (gf_slots f).2 /\ k = n + 3 * N.of_nat i + 2)%N.
Proof.
  intros Hj Hs Hsrc; apply stored_slot in Hs as (i & f & gs & k & Hi & Hgs & Hin & ->).
  exists i, f, gs, k; split; [reflexivity |]; split; [exact Hi |].
  unfold slotAt, slotRow in Hsrc; destruct (gs_source gs) as [e | id] eqn:E; cbn in Hsrc; [discriminate |].
  destruct (fixture_source i f gs id Hi Hin E) as (j' & u' & Hlt & Hj' & <- & _ & _ & Hdown & _ & Hround).
  unfold idsAt in Hsrc; rewrite (idsBefore_lookup fs ∅ n i j' u' (se_ids _ _ Hse) Hj' Hlt) in Hsrc.
  injection Hsrc as Hid; assert (j' = j) as -> by lia; rewrite Hj in Hj'; injection Hj' as <-; auto.
Qed.

Lemma feeds_one j u : fs !! j = Some u -> (gf_roundNumber u < gb_roundCount g)%nat -> exists s i f,
  List.filter (fun s => sl_sourceFixtureId s === Some (fx_id (rowOf j u))) (slotRows entrants ∅ n fs) = [s] /\
  fs !! i = Some f /\ sl_fixtureId s = fx_id (rowOf i f).
Proof.
  intros Hj Hround; assert (Hu : In u fs) by (apply list_elem_of_In, list_elem_of_lookup; eauto).
  destruct (se_winner _ _ Hse u Hu Hround) as (f & Hf & _ & _ & Hdown & Hsrc).
  apply list_elem_of_In, list_elem_of_lookup in Hf as [i Hi].
  set (gs := if Nat.odd (gf_position u) then (gf_slots f).1 else (gf_slots f).2) in *.
  set (k := (n + 3 * N.of_nat i + (if Nat.odd (gf_position u) then 1 else 2))%N).
  exists (slotAt i gs k), i, f; split; [| split; [exact Hi | apply slotRow_id]].
  assert (Hin : In (slotAt i gs k) (List.filter (fun s => sl_fixtureId s === (n + 3 * N.of_nat i)%N) (slotRows entrants ∅ n fs))).
  { rewrite (slotRows_at entrants fs ∅ n i f Hi); unfold slotList; cbn [numbered]; fold (idsAt i); unfold slotAt, k, gs.
    destruct (Nat.odd (gf_position u)); [left | right; left]; f_equal; lia. }
  apply filter_In in Hin as [Hin _].
  assert (Hgs : In gs (slotList f)) by (unfold gs, slotList; destruct (Nat.odd _); [left | right; left]; reflexivity).
  destruct (fixture_source i f gs (gf_id u) Hi Hgs Hsrc) as (j' & u' & Hlt & Hj' & Hid & _ & _ & Hd' & Hside & _).
  destruct (same_fixture j' j u' u Hj' Hj Hid) as [-> ->]; apply filter_single; [apply slotRows_distinct | exact Hin | |].
  - apply bool_decide_eq_true_2; unfold slotAt, slotRow; rewrite Hsrc; cbn; unfold idsAt.
    apply (idsBefore_lookup fs ∅ n i j u (se_ids _ _ Hse) Hj Hlt).
  - intros y Hy E; apply bool_decide_eq_true in E.
    destruct (feeding j u y Hj Hy E) as (i' & f' & gs' & k' & -> & Hi' & Hdown' & _ & Hk').
    rewrite Hd' in Hdown'; injection Hdown' as Hid' Hside'.
    destruct (same_fixture i i' f f' Hi Hi' Hid') as [<- <-].
    destruct (slot_sides f) as (Hred & Hblue & _); [apply list_elem_of_In, list_elem_of_lookup; eauto |].
    unfold k, gs in *; destruct (Nat.odd (gf_position u)), Hk' as [[-> ->] | [-> ->]]; try reflexivity; congruence.
Qed.
End FromGraph.

Lemma odd_of_nat p : Z.odd (Z.of_nat p) = Nat.odd p.
Proof.
  induction p as [|p IH]; [reflexivity |].
  rewrite Nat2Z.inj_succ, Z.odd_succ, <- Z.negb_odd, IH, Nat.odd_succ, Nat.negb_odd; reflexivity.
Qed.

Section InStore.
Context (d d' : DB) (b : BracketRow) (ps : list BracketEntrantPlacement) (g : GeneratedBracket).
Context (Hse : single_elimination ps g) (Hrefs : bracket_refs d).
Context (Hid : br_id b = db_nextId d) (Hcount : br_roundCount b = Z.of_nat (gb_roundCount g)).

(** The rows of the new bracket, among those already there. *)
Lemma new_rows rows n : (db_nextId d <= n)%N ->
  let entrants := jsMap (map (fun e => (en_athleteId e, en_id e)) rows) in
  db_bracketFixtures d' = db_bracketFixtures d ++ fixtureRows entrants (br_id b) n (gb_fixtures g) ->
  db_bracketSlots d' = db_bracketSlots d ++ slotRows entrants ∅ n (gb_fixtures g) ->
  fixturesOf (br_id b) d' = fixtureRows entrants (br_id b) n (gb_fixtures g) /\
  (forall m, (n <= m)%N -> slotsAt m d' = List.filter (fun s => sl_fixtureId s === m) (slotRows entrants ∅ n (gb_fixtures g))) /\
  (forall m, (n <= m)%N -> fedFrom m d' = List.filter (fun s => sl_sourceFixtureId s === Some m) (slotRows entrants ∅ n (gb_fixtures g))).
Proof.
  intros Hn entrants Hf Hs; destruct Hrefs as (_ & Hrf & Hrs); unfold fixturesOf, slotsAt, fedFrom.
  rewrite Hf, Hs, !List.filter_app; split; [| split; intros m Hm; rewrite List.filter_app].
  - rewrite filter_nothing, filter_everything; [reflexivity | |].
    + clear Hf Hs; generalize n; induction (gb_fixtures g) as [|f fs IH]; intros k x; [intros [] |]; cbn.
      intros [<- | Hx]; [apply bool_decide_eq_true_2; reflexivity | exact (IH _ x Hx)].
    + intros f Hin; apply bool_decide_eq_false_2; rewrite Hid; specialize (Hrf f Hin); lia.
  - rewrite filter_nothing; [reflexivity |]; intros s Hin; apply bool_decide_eq_false_2.
    destruct (Hrs s Hin) as [Hlt _]; lia.
  - rewrite filter_nothing; [reflexivity |]; intros s Hin; apply bool_decide_eq_false_2; intros E.
    destruct (Hrs s Hin) as [_ Hlt]; specialize (Hlt m E); lia.
Qed.

Lemma stored_tree_holds : stored d d' b ps g -> stored_tree d' b.
Proof.
  intros [(rows & Hent & Hath & Hown & _ & n & Hn & Hf & Hs) _ _ _ _].
  destruct (new_rows rows n Hn Hf Hs) as (Hfx & Hsl & Hfd).
  set (entrants := jsMap (map (fun e => (en_athleteId e, en_id e)) rows)) in *; set (fs := gb_fixtures g) in *.
  assert (Hin : forall f', In f' (fixturesOf (br_id b) d') -> exists i f, fs !! i = Some f /\ f' = rowOf rows (br_id b) n i f).
  { intros f' Hf'; rewrite Hfx in Hf'; apply list_elem_of_In, list_elem_of_lookup in Hf' as [i Hi].
    rewrite fixtureRows_lookup in Hi; destruct (fs !! i) as [f |] eqn:E; [| discriminate].
    injection Hi as <-; exists i, f; auto. }
  assert (Hback : forall i f, fs !! i = Some f -> In (rowOf rows (br_id b) n i f) (fixturesOf (br_id b) d')).
  { intros i f Hi; rewrite Hfx; apply list_elem_of_In, list_elem_of_lookup; exists i.
    rewrite fixtureRows_lookup, Hi; reflexivity. }
  assert (Hat : forall i f, fs !! i = Some f -> slotsAt (fx_id (rowOf rows (br_id b) n i f)) d' =
      [slotAt g rows n i (gf_slots f).1 (n + 3 * N.of_nat i + 1); slotAt g rows n i (gf_slots f).2 (n + 3 * N.of_nat i + 2)]%N).
  { intros i f Hi; cbn [rowOf fixtureRow fx_id]; rewrite Hsl by lia; rewrite (slotRows_at entrants fs ∅ n i f Hi).
    unfold slotList; cbn [numbered]; do 2 f_equal; unfold slotAt; f_equal; lia. }
  assert (Hfin : forall i f, fs !! i = Some f -> In f fs) by (intros i f Hi; apply list_elem_of_In, list_elem_of_lookup; eauto).
  split.
  - intros f' Hf'; destruct (Hin f' Hf') as (i & f & Hi & ->); rewrite (Hat i f Hi).
    destruct (slot_sides ps g Hse f (Hfin i f Hi)) as (Hred & Hblue & _).
    do 2 eexists; split; [reflexivity |]; unfold slotAt; rewrite !(fun e m k s j => proj2 (proj2 (slotRow_id e m k s j))); auto.
  - intros f' s Hf' Hs'; destruct (Hin f' Hf') as (i & f & Hi & ->); rewrite (Hat i f Hi) in Hs'.
    assert (exists gs k, In gs (slotList f) /\ s = slotAt g rows n i gs k) as (gs & k & Hgs & ->)
      by (destruct Hs' as [<- | [<- | []]]; do 2 eexists; (split; [| reflexivity]); unfold slotList; [left | right; left]; reflexivity).
    destruct (slot_kind ps g Hse rows (br_id b) n Hath i f gs k Hi Hgs) as [(row & Hrow & H1 & H2 & H3) | (j & u & Hj & _ & H1 & H2 & H3 & H4 & H5 & H6)].
    + left; exists row; repeat split; try assumption; [rewrite Hent; apply in_or_app; auto | apply Hown, Hrow].
    + right; exists (rowOf rows (br_id b) n j u); split; [exact (Hback j u Hj) |]; repeat split; try assumption.
      * cbn; rewrite H4; lia.
      * cbn; rewrite H5, Nat2Z.inj_div; f_equal; lia.
      * unfold slotAt; rewrite (proj2 (proj2 (slotRow_id _ _ _ _ _))), H6; cbn.
        rewrite odd_of_nat; reflexivity.
  - intros u' Hu Hlt; destruct (Hin u' Hu) as (j & u & Hj & ->); rewrite Hcount in Hlt; cbn in Hlt.
    destruct (feeds_one ps g Hse rows (br_id b) n j u Hj) as (s & i & f & Hs' & Hi & Hfix); [lia |].
    exists s; split; [rewrite Hfd by (cbn; lia); exact Hs' |]; exists (rowOf rows (br_id b) n i f); auto.
  - destruct (se_final _ _ Hse) as (init & final & Hfs & Hnone & Hround & _ & Hinit); fold fs in Hfs.
    assert (Hj : fs !! length init = Some final) by (rewrite Hfs, lookup_app_r, Nat.sub_diag; reflexivity).
    exists (rowOf rows (br_id b) n (length init) final); split; [exact (Hback _ _ Hj) |]; split; [cbn; congruence |]; split.
    + rewrite Hfd by (cbn; lia); apply filter_nothing; intros s Hs'; apply bool_decide_eq_false_2; intros E.
      destruct (feeding ps g Hse rows (br_id b) n _ _ s Hj Hs' E) as (i & f & gs & k & _ & _ & Hdown & _); congruence.
    + intros f' Hf' Hr; destruct (Hin f' Hf') as (i & f & Hi & ->); rewrite Hcount in Hr; cbn in Hr.
      assert (Hlast : f = final).
      { pose proof (Hfin i f Hi) as Hf0; rewrite Hfs in Hf0; apply in_app_or in Hf0 as [Hf0 | [<- | []]]; [| reflexivity].
        apply Hinit in Hf0; lia. }
      subst f; destruct (same_fixture ps g Hse i (length init) final final Hi Hj eq_refl) as [-> _]; reflexivity.
  - intros f' Hf'; destruct (Hin f' Hf') as (i & f & Hi & ->); split; [reflexivity |]; rewrite (Hat i f Hi).
    cbn; unfold slotList, slotAt, slotRow; cbn [map forallb].
    destruct (gs_source (gf_slots f).1), (gs_source (gf_slots f).2); reflexivity.
Qed.
End InStore.

(** ** Confirmations *)
Section Confirmed.
Context (sha256 : json -> string) (signature : string -> string) (encode : json -> string) (decode : string -> option json).

Lemma graph_ok c ids d g d' : graph c ids d = Ok (g, d') -> d' = d /\
  buildSingleEliminationBracket (pc_placements c) = Ok g /\ NoDup (athleteIdsOf (pc_placements c)) /\
  length (athleteIdsOf (pc_placements c)) = length (remove_dups ids) /\
  forall x, x ∈ athleteIdsOf (pc_placements c) -> x ∈ ids.
Proof.
  intros H; apply bind_ok in H as (u & d1 & Hg & H); apply throw_if_ok in Hg as [Hg ->].
  apply from_result_ok in H as [H ->]; rewrite !orb_false_iff, !negb_false_iff, !Nat.eqb_eq, bool_decide_eq_true in Hg.
  destruct Hg as [[[[_ _] Hlen] Hn] Hin]; do 4 (split; [first [reflexivity | assumption] |]); intros x Hx.
  apply list_elem_of_In in Hx; pose proof (existsb_none _ _ Hin x Hx) as Hd.
  apply negb_false_iff, bool_decide_eq_true in Hd; exact Hd.
Qed.

(** The two ways a confirmation succeeds: an earlier one is repeated, or a bracket is stored. *)
Lemma confirm_cases t w token key user now d b d' : confirm sha256 signature decode t w token key user now d = Ok (b, d') ->
  exists c, verifyPreview signature decode t w now token = Ok c /\
  ((find_first (fun b => br_confirmationKey b === key) (db_tournamentBrackets d) = Some b /\
    br_confirmationFingerprint b = fingerprint sha256 c /\ d' = d) \/
   (find_first (fun b => br_confirmationKey b === key) (db_tournamentBrackets d) = None /\ exists rules g,
    find_first (currentBracket t w) (db_tournamentBrackets d) = None /\
    rosterFingerprint sha256 (eligibleAthletes t w d) = pc_rosterFingerprint c /\
    graph c (idsOf (eligibleAthletes t w d)) d = Ok (g, d) /\
    storeBracket sha256 t w user key c (eligibleAthletes t w d) rules g d = Ok (b, d'))).
Proof.
  intros H; apply bind_ok in H as (c & d0 & Hc & H); apply from_result_ok in Hc as [Hc ->]; exists c; split; [exact Hc |].
  apply bind_ok in H as (ex & d1 & He & H); apply gets_ok in He as [-> ->].
  destruct (find_first _ (get tournamentBrackets d)) as [b0 |] eqn:Hfind.
  - left; apply bind_ok in H as (u & d1 & Hf & H); apply throw_if_ok in Hf as [Hf ->]; apply ret_ok in H as [<- ->].
    apply negb_false_iff, bool_decide_eq_true in Hf; auto.
  - right; split; [exact Hfind |].
    apply bind_ok in H as (tn & d1 & Ht & H); apply gets_ok in Ht as [_ ->].
    apply bind_ok in H as (tn' & d1 & Ht & H); apply or_throw_ok in Ht as [_ ->].
    apply bind_ok in H as (u & d1 & Ha & H); apply throw_if_ok in Ha as [_ ->].
    apply bind_ok in H as (rules & d1 & Hr & H).
    assert (d1 = d) as -> by (unfold resolveRules in Hr; destruct (find_first _ registry) as [[? ?] |];
      [apply ret_ok in Hr as [_ Hr]; exact (eq_sym Hr) | apply throw_ok in Hr as []]).
    apply bind_ok in H as (wc & d1 & Hw & H); apply gets_ok in Hw as [_ ->].
    apply bind_ok in H as (wc' & d1 & Hw & H); apply or_throw_ok in Hw as [_ ->].
    apply bind_ok in H as (cur & d1 & Hcur & H); apply gets_ok in Hcur as [Hcur ->].
    apply bind_ok in H as (u1 & d1 & Hno & H); apply throw_if_ok in Hno as [Hno ->].
    apply bind_ok in H as (athletes & d1 & Hath & H); apply gets_ok in Hath as [-> ->].
    apply bind_ok in H as (u2 & d1 & Hros & H); apply throw_if_ok in Hros as [Hros ->].
    apply negb_false_iff, bool_decide_eq_true in Hros.
    apply bind_ok in H as (u3 & d1 & Hstr & H).
    assert (d1 = d) as -> by (unfold assertStrategySelection in Hstr; destruct (pc_byeStrategy c);
      [apply throw_if_ok in Hstr; apply Hstr | apply ret_ok in Hstr as [_ Hstr]; exact (eq_sym Hstr) |];
      apply bind_ok in Hstr as (? & d2 & Hl & Hstr); apply throw_if_ok in Hl as [_ ->];
      destruct (_ <=? _); apply throw_if_ok in Hstr; apply Hstr).
    apply bind_ok in H as (g & d1 & Hg & H); pose proof (graph_ok _ _ _ _ _ Hg) as (-> & _).
    exists rules, g; subst cur; repeat split; try assumption.
    assert (Hno' : match find_first (currentBracket t w) (db_tournamentBrackets d) with Some _ => true | None => false end = false)
      by exact Hno.
    destruct (find_first (currentBracket t w) (db_tournamentBrackets d)); [discriminate Hno' | reflexivity].
Qed.

Lemma eligible_distinct t w d : wf d -> NoDup (idsOf (eligibleAthletes t w d)).
Proof.
  intros Hwf; unfold idsOf, eligibleAthletes; rewrite map_map; cbn [fst].
  change (NoDup (map at_id (sort_by (fun a => Z.of_N (at_id a)) (List.filter (eligible t w d) (db_tournamentAthletes d))))).
  rewrite (Permutation_map at_id (sort_by_perm _ _)).
  specialize (Hwf tournamentAthletes); apply table_ok_true in Hwf as (_ & Hpk & _).
  apply (unique_by_filter (row_id tournamentAthletes) at_id); [exact Hpk | intros; reflexivity].
Qed.

(** What a confirmation that stores a bracket leaves behind. *)
Lemma confirm_stored t w token key user now d b d' :
  confirm sha256 signature decode t w token key user now d = Ok (b, d') -> sound d -> bracket_refs d ->
  find_first (fun b => br_confirmationKey b === key) (db_tournamentBrackets d) = None ->
  exists c g, verifyPreview signature decode t w now token = Ok c /\
  buildSingleEliminationBracket (pc_placements c) = Ok g /\
  b = confirmedBracket sha256 (db_nextId d) t w user key c (length (eligibleAthletes t w d)) g /\
  stored d d' b (pc_placements c) g /\ stored_tree d' b /\
  Permutation (athleteIdsOf (pc_placements c)) (idsOf (eligibleAthletes t w d)) /\ NoDup (athleteIdsOf (pc_placements c)) /\
  forall e, In e (db_bracketEntrants d') -> en_bracketId e = br_id b ->
    entrantAt (pc_placements c) (eligibleAthletes t w d) (openings (gb_fixtures g)) e.
Proof.
  intros H [Hwf Hfresh] Hrefs Hnew.
  destruct (confirm_cases t w token key user now d b d' H) as (c & Hc & [(Hold & _) | (_ & rules & g & _ & _ & Hg & Hs)]);
    [congruence |].
  pose proof (graph_ok _ _ _ _ _ Hg) as (_ & Hb & Hn & Hlen & Hin); exists c, g; split; [exact Hc |]; split; [exact Hb |].
  destruct (storeBracket_ok _ _ _ _ _ _ _ _ _ _ _ _ Hs Hfresh Hrefs) as (Hrow & Hst & Hat).
  split; [exact Hrow |]; split; [exact Hst |]; split.
  - apply (stored_tree_holds d d' b (pc_placements c) g (built_tree _ _ Hb) Hrefs); [rewrite Hrow; reflexivity.. | exact Hst].
  - pose proof (eligible_distinct t w d Hwf) as Hel.
    assert (Hrem : Permutation (remove_dups (idsOf (eligibleAthletes t w d))) (idsOf (eligibleAthletes t w d)))
      by (apply NoDup_Permutation; [apply NoDup_remove_dups | exact Hel | apply elem_of_remove_dups]).
    split; [| split; [exact Hn | exact Hat]].
    apply submseteq_length_Permutation; [| rewrite Hlen, Hrem; lia].
    apply NoDup_submseteq; [exact Hn | exact Hin].
Qed.
End Confirmed.

(** ** Previews *)
Section Previewed.
Context (sha256 : json -> string) (signature : string -> string) (encode : json -> string) (decode : string -> option json).
Context {R : Type} (nextInt : R -> nat -> option Z * R).

Lemma openDraw_read t w d u d' : openDraw t w d = Ok (u, d') -> d' = d.
Proof.
  intros H; unfold openDraw in H.
  apply bind_ok in H as (x1 & d1 & Hx & H); apply gets_ok in Hx as [_ ->].
  apply bind_ok in H as (x2 & d1 & Hx & H); apply or_throw_ok in Hx as [_ ->].
  apply bind_ok in H as (x3 & d1 & Hx & H); apply throw_if_ok in Hx as [_ ->].
  apply bind_ok in H as (x4 & d1 & Hx & H); apply gets_ok in Hx as [_ ->].
  apply bind_ok in H as (x5 & d1 & Hx & H); apply or_throw_ok in Hx as [_ ->].
  apply bind_ok in H as (x6 & d1 & Hx & H); apply rethrow_ok in Hx.
  assert (d1 = d) as -> by (unfold resolveRules in Hx; destruct (find_first _ registry) as [[? ?] |];
    [apply ret_ok in Hx as [_ Hx]; exact (eq_sym Hx) | apply throw_ok in Hx as []]).
  apply bind_ok in H as (x7 & d1 & Hx' & H); apply throw_if_ok in Hx' as [_ ->].
  apply bind_ok in H as (x8 & d1 & Hx' & H); apply gets_ok in Hx' as [_ ->]; apply throw_if_ok in H; apply H.
Qed.

(** What the strategy check accepts. *)
Definition selection_ok (strategy : ByeStrategy) (ids seeds : list uuid) (byeCount : Z) : Prop :=
  match strategy with
  | RANDOM => ids = []
  | MANUAL => True
  | SEEDED => Z.of_nat (length ids) = byeCount /\
      if byeCount <=? Z.of_nat (length seeds) then forall x, x ∈ ids -> x ∈ seeds else forall x, x ∈ seeds -> x ∈ ids
  end.

Lemma existsb_subset (l k : list uuid) : existsb (fun x => negb (bool_decide (x ∈ k))) l = false -> forall x, x ∈ l -> x ∈ k.
Proof.
  intros H x Hx; apply list_elem_of_In in Hx; pose proof (existsb_none _ _ H x Hx) as Hd.
  apply negb_false_iff, bool_decide_eq_true in Hd; exact Hd.
Qed.

Lemma selection_accepted strategy ids athletes byeCount d u d' :
  assertStrategySelection strategy ids athletes byeCount d = Ok (u, d') ->
  d' = d /\ selection_ok strategy ids (seedsOf athletes) byeCount.
Proof.
  unfold assertStrategySelection, selection_ok; destruct strategy; intros H.
  - apply throw_if_ok in H as [H ->]; apply negb_false_iff, Nat.eqb_eq in H; destruct ids; [auto | discriminate].
  - apply ret_ok in H as [_ ->]; auto.
  - apply bind_ok in H as (x & d1 & Hl & H); apply throw_if_ok in Hl as [Hl ->]; apply negb_false_iff, Z.eqb_eq in Hl.
    destruct (byeCount <=? _); apply throw_if_ok in H as [H ->]; repeat split; try assumption; apply existsb_subset, H.
Qed.

(** The claims a preview is signed with. *)
Definition previewClaims (t w : uuid) (designated : list uuid) (strategy : ByeStrategy) (pv : PreviewResult) : PreviewClaims :=
  mkPreviewClaims t w (gb_initialEntrants (pv_bracket pv)) (sort_by Z.of_N designated) strategy (pv_rosterFingerprint pv) 0 0 EmptyString.

Lemma preview_ok t w token designated strategy now nonce r d pv d' :
  preview sha256 signature encode decode nextInt t w token designated strategy now nonce r d = Ok (pv, d') ->
  d' = d /\ let athletes := eligibleAthletes t w d in
  pv_rosterFingerprint pv = rosterFingerprint sha256 athletes /\
  pv_previewToken pv = (issuePreview signature encode (previewClaims t w designated (chosenStrategy strategy designated) pv) now nonce).1 /\
  buildSingleEliminationBracket (gb_initialEntrants (pv_bracket pv)) = Ok (pv_bracket pv) /\
  drawn (mkGenerateInput (idsOf athletes) (Some designated) (Some MAX_BRACKET_ATHLETES)) (pv_bracket pv) /\
  NoDup designated /\
  selection_ok (chosenStrategy strategy designated) designated (seedsOf athletes) (Z.of_nat (gb_byeCount (pv_bracket pv))).
Proof.
  intros H; unfold preview in H.
  apply bind_ok in H as (x1 & d1 & Ho & H); apply openDraw_read in Ho as ->.
  apply bind_ok in H as (athletes & d1 & Ha & H); apply gets_ok in Ha as [-> ->].
  apply bind_ok in H as (x2 & d1 & Hx & H); apply throw_if_ok in Hx as [_ ->].
  apply bind_ok in H as (x3 & d1 & Hx & H); apply throw_if_ok in Hx as [_ ->]; cbn zeta in H.
  apply bind_ok in H as (x4 & d1 & Hx & H); apply from_result_ok in Hx as [_ ->].
  apply bind_ok in H as (su & d1 & Hx & H); apply from_result_ok in Hx as [Hsu ->].
  apply bind_ok in H as (x5 & d1 & Hx & H); apply throw_if_ok in Hx as [_ ->].
  apply bind_ok in H as (x6 & d1 & Hx & H); apply throw_if_ok in Hx as [_ ->].
  apply bind_ok in H as (x7 & d1 & Hx & H); apply selection_accepted in Hx as [-> Hsel].
  apply bind_ok in H as (b & d1 & Hx & H); apply from_result_ok in Hx as [Hg ->].
  apply ret_ok in H as [<- <-]; cbn [pv_rosterFingerprint pv_previewToken pv_bracket]; split; [reflexivity |].
  match type of Hg with match ?c with _ => _ end = _ => destruct c as [[b' r'] | e] eqn:E; [| discriminate] end.
  injection Hg as ->; pose proof (generate_ok nextInt _ _ _ _ E) as Hd.
  split; [reflexivity |]; split; [reflexivity |]; split; [exact (generate_rebuilt nextInt _ _ _ _ E) |].
  split; [exact Hd |]; split; [exact (generate_designated nextInt _ _ _ _ E) |].
  destruct (summarizeBracket (length (eligibleAthletes t w d)) tt) as [[su' u] |] eqn:Es; [| discriminate].
  injection Hsu as ->; apply summarize_ok in Es as (k & _ & _ & _ & _ & Hk & ->); cbn [su_byeCount] in Hsel.
  enough (Hbyes : (gb_byeCount b = 2 ^ k - length (eligibleAthletes t w d))%nat) by (rewrite Hbyes; exact Hsel).
  destruct Hd as (Hse & Hperm & _); destruct (se_entrants _ _ Hse) as (_ & Hn & _ & Hsum & Hsize).
  apply Permutation_length in Hperm; cbn [gi_athleteIds] in Hperm.
  unfold idsOf in Hperm; rewrite length_map in Hperm; rewrite Hperm in Hn.
  destruct (build_ok _ _ (generate_rebuilt nextInt _ _ _ _ E)) as [k' Hdr]; destruct Hdr as (Hlen & _ & _ & _ & Hhalf & _).
  assert (Hk' : k = S k') by (apply (pow2_between k (S k') (length (eligibleAthletes t w d))); [exact Hk |];
    pose proof (athletes_le (gb_initialEntrants b)); rewrite Hlen, Hperm in *; lia).
  destruct (se_entrants _ _ Hse) as (_ & _ & Hps & _); rewrite Hlen, <- Hk' in Hps; lia.
Qed.
End Previewed.

(** ** Swaps *)
Section Swapped.
Open Scope nat_scope.

Lemma findPlacement_some id ps i : findPlacement id ps = Some i ->
  exists p, ps !! i = Some p /\ pl_athleteId p = Some id.
Proof.
  revert i; induction ps as [|p ps IH]; intros i; [discriminate |]; cbn.
  destruct (pl_athleteId p === Some id) eqn:E; [intros [= <-]; apply bool_decide_eq_true in E; eauto |].
  destruct (findPlacement id ps) as [j |]; [| discriminate]; intros [= <-]; apply (IH j); reflexivity.
Qed.

Lemma findPlacement_in id ps : In id (athleteIdsOf ps) -> exists i, findPlacement id ps = Some i.
Proof.
  unfold athleteIdsOf; induction ps as [|p ps IH]; [intros [] |]; cbn.
  destruct (pl_athleteId p === Some id) eqn:E; [eauto |]; apply bool_decide_eq_false in E.
  intros H; destruct IH as [i ->]; [| eauto].
  destruct (pl_athleteId p) as [x |]; [| exact H]; destruct H as [-> | H]; [congruence | exact H].
Qed.

Lemma swapAthletes_lookup i j ps a b k : i <> j -> ps !! i = Some a -> ps !! j = Some b ->
  swapAthletes i j ps !! k = option_map (fun p => mkPlacement (pl_drawPosition p)
    (if k =? i then pl_athleteId b else if k =? j then pl_athleteId a else pl_athleteId p)) (ps !! k).
Proof.
  intros Hne Hi Hj; unfold swapAthletes; rewrite Hi, Hj.
  destruct (Nat.eqb_spec k i) as [-> |]; [| destruct (Nat.eqb_spec k j) as [-> |]].
  - rewrite list_lookup_alter_ne, list_lookup_alter_eq, Hi by congruence; reflexivity.
  - rewrite list_lookup_alter_eq, list_lookup_alter_ne, Hj by congruence; reflexivity.
  - rewrite !list_lookup_alter_ne by congruence; destruct (ps !! k) as [[] |]; reflexivity.
Qed.

Lemma swapAthletes_ids i j ps a b : i <> j -> ps !! i = Some a -> ps !! j = Some b ->
  Permutation (athleteIdsOf (swapAthletes i j ps)) (athleteIdsOf ps).
Proof.
  intros Hne Hi Hj.
  assert (E : map pl_athleteId (swapAthletes i j ps) = exchange i j (map pl_athleteId ps)).
  { change (map pl_athleteId) with (fmap (M:=list) pl_athleteId); apply list_eq; intros k.
    rewrite list_lookup_fmap, (swapAthletes_lookup i j ps a b k Hne Hi Hj).
    unfold exchange; rewrite !list_lookup_fmap, Hi, Hj; cbn.
    destruct (Nat.eqb_spec k i) as [-> |]; [| destruct (Nat.eqb_spec k j) as [-> |]].
    - rewrite list_lookup_insert_ne, list_lookup_insert_eq, Hi by (congruence || (rewrite length_fmap; eapply lookup_lt_Some; eauto)); reflexivity.
    - rewrite list_lookup_insert_eq, Hj by (rewrite length_insert, length_fmap; eapply lookup_lt_Some; eauto); reflexivity.
    - rewrite !list_lookup_insert_ne, list_lookup_fmap by congruence; destruct (ps !! k); reflexivity. }
  assert (Hm : forall l, athleteIdsOf l = omap id (map pl_athleteId l))
    by (intros l; unfold athleteIdsOf; induction l as [|p l IH]; cbn; [reflexivity |];
        destruct (pl_athleteId p); cbn; congruence).
  rewrite !Hm, E; apply omap_Permutation, exchange_perm.
Qed.

Lemma athlete_once ps : forall i j p q x, NoDup (athleteIdsOf ps) -> ps !! i = Some p -> ps !! j = Some q ->
  pl_athleteId p = Some x -> pl_athleteId q = Some x -> i = j.
Proof.
  assert (Hin : forall l m r x, l !! m = Some r -> pl_athleteId r = Some x -> x ∈ athleteIdsOf l).
  { intros l m r x Hm Hr; apply list_elem_of_omap; exists r; split; [apply list_elem_of_lookup; eauto | exact Hr]. }
  induction ps as [|y ps IH]; intros i j p q x Hn Hi Hj Hp Hq; [discriminate |].
  assert (Hn' : NoDup (athleteIdsOf ps) /\ forall z, pl_athleteId y = Some z -> z ∉ athleteIdsOf ps).
  { unfold athleteIdsOf in Hn; cbn in Hn; change (omap pl_athleteId ps) with (athleteIdsOf ps) in Hn.
    destruct (pl_athleteId y) as [z |]; [apply list.NoDup_cons in Hn as [Hz Hn]; split; [exact Hn | congruence] |].
    split; [exact Hn | discriminate]. }
  destruct Hn' as [Hn' Hy], i as [|i], j as [|j]; [reflexivity | exfalso | exfalso | f_equal; exact (IH i j p q x Hn' Hi Hj Hp Hq)].
  - injection Hi as ->; exact (Hy x Hp (Hin ps j q x Hj Hq)).
  - injection Hj as ->; exact (Hy x Hq (Hin ps i p x Hi Hp)).
Qed.

Lemma noDoubleBye_same l : forall l', map set_ l = map set_ l' -> noDoubleBye l = noDoubleBye l'.
Proof.
  induction l as [| x | x y l IH] using pair_ind; intros l' E.
  - destruct l'; [reflexivity | discriminate].
  - destruct l' as [| x' [| ? ?]]; try discriminate; destruct x, x'; try discriminate; reflexivity.
  - destruct l' as [| x' [| y' l']]; try discriminate; injection E as Ex Ey El; specialize (IH l' El).
    destruct x, x', y, y'; try discriminate; cbn; auto.
Qed.

(** A swap of two athletes keeps the numbers, the empty places and so the shape of the draw. *)
Lemma swapAthletes_draws i j ps a b k : i <> j -> ps !! i = Some a -> ps !! j = Some b ->
  set_ (pl_athleteId a) = true -> set_ (pl_athleteId b) = true -> draws ps k -> draws (swapAthletes i j ps) k.
Proof.
  intros Hne Hi Hj Ha Hb (Hlen & Hpos & Hn & Hmax & Hhalf & Hbye).
  pose proof (swapAthletes_ids i j ps a b Hne Hi Hj) as Hperm; apply Permutation_length in Hperm as Hl.
  assert (Hlen' : length (swapAthletes i j ps) = length ps)
    by (unfold swapAthletes; rewrite Hi, Hj, !length_alter; reflexivity).
  unfold draws; rewrite Hl, Hlen'; repeat split; try assumption.
  - intros m p Hm; rewrite (swapAthletes_lookup i j ps a b m Hne Hi Hj) in Hm.
    destruct (ps !! m) as [q |] eqn:Hq; [| discriminate]; injection Hm as <-; exact (Hpos m q Hq).
  - rewrite Hperm; exact Hn.
  - rewrite <- Hbye; apply noDoubleBye_same.
    assert (Hnull : forall l, map set_ (map toAdvancement l) = map (fun p => set_ (pl_athleteId p)) l)
      by (intros l; rewrite map_map; apply map_ext; intros p; unfold toAdvancement; destruct (pl_athleteId p); reflexivity).
    rewrite !Hnull; change (map (fun p => set_ (pl_athleteId p))) with (fmap (M:=list) (fun p => set_ (pl_athleteId p))).
    apply list_eq; intros m; rewrite !list_lookup_fmap, (swapAthletes_lookup i j ps a b m Hne Hi Hj).
    destruct (ps !! m) as [q |] eqn:Hq; [| reflexivity]; cbn; f_equal.
    destruct (Nat.eqb_spec m i) as [-> |]; [rewrite Hi in Hq; injection Hq as <-; congruence |].
    destruct (Nat.eqb_spec m j) as [-> |]; [rewrite Hj in Hq; injection Hq as <-; congruence | reflexivity].
Qed.
End Swapped.

(** ** Who sits where *)

(** A list whose picked values are distinct picks each once. *)
Lemma omap_once {A B} (h : A -> option B) l x y v : NoDup (omap h l) -> In x l -> In y l -> h x = Some v -> h y = Some v -> x = y.
Proof.
  induction l as [| z l IH]; [intros _ [] |]; cbn; intros Hn Hx Hy Ex Ey.
  assert (Hin : forall w, In w l -> h w = Some v -> v ∈ omap h l)
    by (intros w Hw Ew; apply list_elem_of_omap; exists w; split; [apply list_elem_of_In, Hw | exact Ew]).
  destruct (h z) as [u |] eqn:Ez.
  - apply list.NoDup_cons in Hn as [Hu Hn]; destruct Hx as [<- | Hx], Hy as [<- | Hy]; try reflexivity.
    + rewrite Ez in Ex; injection Ex as ->; destruct (Hu (Hin y Hy Ey)).
    + rewrite Ez in Ey; injection Ey as ->; destruct (Hu (Hin x Hx Ex)).
    + exact (IH Hn Hx Hy Ex Ey).
  - destruct Hx as [<- | Hx], Hy as [<- | Hy]; try congruence; exact (IH Hn Hx Hy Ex Ey).
Qed.

(** An athlete is the source of one slot of a tree. *)
Lemma one_slot ps g f s f' s' a : single_elimination ps g -> NoDup (athleteIdsOf ps) ->
  In f (gb_fixtures g) -> In s (slotList f) -> In f' (gb_fixtures g) -> In s' (slotList f') ->
  gs_source s = ENTRANT a -> gs_source s' = ENTRANT a -> f = f' /\ s = s'.
Proof.
  intros Hse Hn Hf Hs Hf' Hs' Ea Ea'; rewrite <- (se_direct _ _ Hse) in Hn.
  set (places := flat_map (fun f => map (fun s => (f, s)) (slotList f)) (gb_fixtures g)).
  assert (Hp : forall x y, In x (gb_fixtures g) -> In y (slotList x) -> In (x, y) places)
    by (intros x y Hx Hy; apply in_flat_map; exists x; split; [exact Hx | apply in_map, Hy]).
  enough (E : (f, s) = (f', s')) by (injection E; auto).
  refine (omap_once (fun x => entrantId_of (gs_source x.2)) places _ _ a _ (Hp f s Hf Hs) (Hp f' s' Hf' Hs') _ _); [| cbn; rewrite ?Ea, ?Ea'; reflexivity..].
  assert (E : map (fun x => gs_source x.2) places = sources (gb_fixtures g)).
  { unfold places, sources; generalize (gb_fixtures g); clear; intros fs; induction fs as [| x fs IH]; [reflexivity |].
    cbn [flat_map]; rewrite List.map_app, IH; reflexivity. }
  rewrite <- E in Hn; revert Hn; generalize places; clear; intros l Hn.
  assert (E : omap entrantId_of (map (fun x : GeneratedBracketFixture * GeneratedBracketSlot => gs_source x.2) l) =
    omap (fun x => entrantId_of (gs_source x.2)) l) by (clear; induction l as [| x l IH]; [reflexivity |]; cbn; rewrite IH; reflexivity).
  rewrite <- E; exact Hn.
Qed.

(** The seats of the placements [ps] in the rows of a bracket: each entrant is the direct entrant of one slot, which
    is the seat of its placement, is resolved to it and is recorded with it, as is whether it had a bye. *)
Definition drawSeats (ps : list BracketEntrantPlacement) (rows : list EntrantRow) (fixtures : list FixtureRow) (slots : list SlotRow) : Prop :=
  Permutation (omap sl_directEntrantId slots) (map en_id rows) /\ NoDup (map en_id rows) /\
  forall i a, ps !! i ≫= pl_athleteId = Some a -> exists e f s,
    In e rows /\ en_athleteId e = a /\ In f fixtures /\ In s slots /\ sl_fixtureId s = fx_id f /\
    sl_directEntrantId s = Some (en_id e) /\ sl_resolvedEntrantId s = Some (en_id e) /\
    let '(round, position, side) := entrySeat ps i in
    fx_roundNumber f = Z.of_nat round /\ fx_position f = Z.of_nat position /\ sl_side s = side /\
    en_initialRoundNumber e = fx_roundNumber f /\ en_initialFixturePosition e = Some (fx_position f) /\ en_initialSide e = Some (sl_side s) /\
    en_receivedBye e = (round =? 2)%nat.

Section Seats.
Context (ps : list BracketEntrantPlacement) (g : GeneratedBracket) (Hbuild : buildSingleEliminationBracket ps = Ok g).
Context (rows : list EntrantRow) (b n : uuid) (athletes : list (AthleteRow * option OrganizationRow)).
Context (Hrows : map en_athleteId rows = athleteIdsOf ps) (Hnd : NoDup (athleteIdsOf ps)).
Let Hse : single_elimination ps g := built_tree ps g Hbuild.
Let entrants := jsMap (map (fun e => (en_athleteId e, en_id e)) rows).

Lemma entrant_known e : In e rows -> entrants !! en_athleteId e = Some (en_id e).
Proof.
  intros He; destruct (jsMap_in (map (fun r => (en_athleteId r, en_id r)) rows) (en_athleteId e)) as [id Hid].
  { rewrite map_map; apply in_map with (f := en_athleteId) in He; exact He. }
  fold entrants in Hid; rewrite Hid; apply jsMap_some, in_map_iff in Hid as (r & [= E <-] & Hr).
  rewrite <- Hrows in Hnd; rewrite (NoDup_map_inj en_athleteId rows r e Hnd Hr He E); reflexivity.
Qed.

Lemma direct_slots ids m fs : omap sl_directEntrantId (slotRows entrants ids m fs) = omap (fun a => entrants !! a) (omap entrantId_of (sources fs)).
Proof.
  revert ids m; induction fs as [| f fs IH]; intros ids m; [reflexivity |]; unfold sources; cbn [slotRows slotList numbered flat_map app].
  change (flat_map _ ?l) with (sources l); unfold slotRow at 1 2; cbn [omap list_omap].
  change (@list_omap SlotRow uuid sl_directEntrantId) with (omap (M:=list) sl_directEntrantId); rewrite IH.
  destruct (gs_source (gf_slots f).1), (gs_source (gf_slots f).2); cbn; reflexivity.
Qed.

(** The opening recorded with an entrant is its slot of the tree. *)
Lemma opening_slot e f s gs f' : openings (gb_fixtures g) !! en_athleteId e = Some f' ->
  find_first (fun s => gs_source s === ENTRANT (en_athleteId e)) (slotList f') = Some s ->
  In f (gb_fixtures g) -> In gs (slotList f) -> gs_source gs = ENTRANT (en_athleteId e) -> f' = f /\ s = gs.
Proof.
  intros Hop Hfind Hf Hgs Hsrc; apply find_first_some in Hfind as [Hin E]; apply bool_decide_eq_true in E.
  apply jsMap_some, in_flat_map in Hop as (f0 & Hf0 & Hop); apply in_flat_map in Hop as (s0 & Hs0 & Hop).
  destruct (gs_source s0) eqn:Es0; [| destruct Hop]; destruct Hop as [[= -> <-] | []].
  apply (one_slot ps g f0 s f gs (en_athleteId e) Hse Hnd Hf0 Hin Hf Hgs E Hsrc).
Qed.

(** A bye is recorded exactly with those who enter in the second round. *)
Lemma bye_recorded p i a : In p ps -> pl_athleteId p = Some a -> ps !! i ≫= pl_athleteId = Some a ->
  receivedBye ps p = ((entrySeat ps i).1.1 =? 2)%nat.
Proof.
  intros Hp Ea Hi; destruct (build_ok ps g Hbuild) as [k Hd]; pose proof Hd as (Hlen & Hpos & _).
  destruct (ps !! i) as [q |] eqn:Eq; [| discriminate]; cbn in Hi.
  apply list_elem_of_In, list_elem_of_lookup in Hp as [j Hj]; assert (j = i) as -> by exact (athlete_once ps j i p q a Hnd Hj Eq Ea Hi).
  rewrite Eq in Hj; injection Hj as ->; specialize (Hpos i p Eq); unfold receivedBye, pairedWith; rewrite Hpos.
  assert (Esib : Z.to_nat (if (Z.of_nat i + 1) mod 2 =? 0 then Z.of_nat i + 1 - 2 else Z.of_nat i + 1) = sibling i).
  { clear; destruct (sibling_cases i) as (m & _ & Hc); pose proof (Z.div_mod (Z.of_nat i + 1) 2 ltac:(lia)).
    pose proof (Z.mod_pos_bound (Z.of_nat i + 1) 2 ltac:(lia)); destruct (Z.eqb_spec ((Z.of_nat i + 1) mod 2) 0); lia. }
  rewrite Esib; assert (Hlt : (sibling i < length ps)%nat) by (rewrite Hlen; apply sibling_in; rewrite <- Hlen; eapply lookup_lt_Some, Eq).
  destruct (lookup_lt_is_Some_2 _ _ Hlt) as [x Hx]; unfold entrySeat; rewrite Hx; cbn [mbind option_bind]; destruct (pl_athleteId x); reflexivity.
Qed.

Lemma rows_seated : (forall e, In e rows -> entrantAt ps athletes (openings (gb_fixtures g)) e) -> NoDup (map en_id rows) ->
  drawSeats ps rows (fixtureRows entrants b n (gb_fixtures g)) (slotRows entrants ∅ n (gb_fixtures g)).
Proof.
  intros Hat Hids; split; [| split; [exact Hids |]].
  - rewrite direct_slots, (se_direct _ _ Hse : Permutation (omap entrantId_of _) _), <- Hrows.
    assert (E : forall l, (forall e, In e l -> In e rows) -> omap (fun a => entrants !! a) (map en_athleteId l) = map en_id l);
      [| rewrite (E rows) by auto; reflexivity].
    induction l as [| e l IH]; intros Hl; [reflexivity |]; cbn; rewrite (entrant_known e) by auto with datatypes; cbn; f_equal; apply IH; auto with datatypes.
  - intros i a Ha; destruct (built_seats ps g i a Hbuild Ha) as (f & Hf & Hcell & Hsrc); destruct (entrySeat ps i) as [[round position] side] eqn:Es.
    cbn [fst snd] in Hcell, Hsrc; set (gs := slotOn side f) in *.
    assert (Hgs : In gs (slotList f)) by (unfold gs, slotOn, slotList; destruct side; [left | right; left]; reflexivity).
    destruct (slot_sides ps g Hse f Hf) as (Hred & Hblue & Hres); specialize (Hres gs Hgs a Hsrc).
    assert (Hain : In a (map en_athleteId rows)).
    { rewrite Hrows; apply list_elem_of_In, list_elem_of_omap; destruct (ps !! i) as [p |] eqn:Ep; [| discriminate].
      exists p; split; [eapply list_elem_of_lookup_2, Ep | exact Ha]. }
    apply in_map_iff in Hain as (e & Ea & He); pose proof Hf as Hj; apply list_elem_of_In, list_elem_of_lookup in Hj as [j Hj].
    set (m := (n + 3 * N.of_nat j)%N); set (s := slotRow entrants (idsBefore ∅ n (list.take j (gb_fixtures g))) m gs (m + (if side then 1 else 2))%N).
    exists e, (fixtureRow b f (map (fun s => slotRow entrants ∅ 0%N s 0%N) (slotList f)) m), s.
    assert (Hdir : sl_directEntrantId s = Some (en_id e) /\ sl_resolvedEntrantId s = Some (en_id e)).
    { unfold s, slotRow; rewrite Hsrc, Hres; cbn; rewrite <- Ea, (entrant_known e He); auto. }
    assert (Hside : sl_side s = side) by (unfold s; rewrite (proj2 (proj2 (slotRow_id _ _ _ _ _))); unfold gs, slotOn; destruct side; assumption).
    destruct (Hat e He) as (p & at_ & f' & gs' & Hp0 & Epl & _ & _ & Hop & Hfind & Erow).
    assert (Hsame : f' = f /\ gs' = gs) by (apply (opening_slot e f gs' gs f' Hop Hfind Hf Hgs); congruence).
    pose proof (bye_recorded p i a Hp0 ltac:(congruence) Ha) as Hbye; rewrite Es in Hbye; cbn [fst] in Hbye.
    destruct Hsame as [-> ->]; injection Hcell as Hr Hp; split_and!; try apply Hdir; try assumption.
    + apply list_elem_of_In, list_elem_of_lookup; exists j; rewrite fixtureRows_lookup, Hj; reflexivity.
    + pose proof (slotRows_at entrants (gb_fixtures g) ∅ n j f Hj) as Hfilter; fold m in Hfilter.
      assert (Hin : In s (List.filter (fun s => sl_fixtureId s === m) (slotRows entrants ∅ n (gb_fixtures g))));
        [| apply filter_In in Hin; apply Hin].
      rewrite Hfilter; unfold s, gs, slotOn, slotList; cbn [numbered]; destruct side; [left | right; left]; f_equal; lia.
    + unfold s; rewrite (proj1 (proj2 (slotRow_id _ _ _ _ _))); reflexivity.
    + cbn; rewrite Hr; reflexivity.
    + cbn; rewrite Hp; reflexivity.
    + rewrite Erow; cbn; reflexivity.
    + rewrite Erow; cbn; reflexivity.
    + rewrite Erow; cbn; f_equal; unfold s; rewrite (proj2 (proj2 (slotRow_id _ _ _ _ _))); reflexivity.
    + rewrite Erow; exact Hbye.
Qed.
End Seats.

(** ** Properties *)
Section Properties.
Context (sha256 : json -> string) (signature : string -> string) (encode : json -> string) (decode : string -> option json).

(** A preview reads the store only and shows a draw of exactly the eligible athletes in which every
    designated athlete has a bye; under the seeded strategy the byes go to seeds only when there are
    enough of them, and otherwise every seed has one. *)
Theorem preview_honours_byes {R} (nextInt : R -> nat -> option Z * R) t w token designated strategy now nonce r d pv d' :
  preview sha256 signature encode decode nextInt t w token designated strategy now nonce r d = Ok (pv, d') ->
  let athletes := eligibleAthletes t w d in let byes := byeAthletes (gb_initialEntrants (pv_bracket pv)) in
  d' = d /\ Permutation (athleteIdsOf (gb_initialEntrants (pv_bracket pv))) (idsOf athletes) /\
  (forall x, x ∈ designated -> x ∈ byes) /\
  (chosenStrategy strategy designated = SEEDED ->
   if (length byes <=? length (seedsOf athletes))%nat then forall x, x ∈ byes -> x ∈ seedsOf athletes
   else forall x, x ∈ seedsOf athletes -> x ∈ byes).
Proof.
  intros H; destruct (preview_ok _ _ _ _ _ _ _ _ _ _ _ _ _ _ _ _ H) as (-> & _ & _ & _ & Hd & Hnd & Hsel).
  destruct Hd as (_ & Hperm & Hbn & Hbl & Hdes); cbn [gi_athleteIds gi_designatedByeAthleteIds default from_option] in *.
  cbn zeta; split; [reflexivity |]; split; [exact Hperm |]; split; [exact Hdes |]; intros Hs; rewrite Hs in Hsel.
  destruct Hsel as [Hlen Hsel]; rewrite <- Hbl in Hlen, Hsel.
  assert (Hall : forall x, x ∈ byeAthletes (gb_initialEntrants (pv_bracket pv)) -> x ∈ designated).
  { intros x Hx; assert (Hp : Permutation designated (byeAthletes (gb_initialEntrants (pv_bracket pv)))).
    { apply submseteq_length_Permutation; [apply NoDup_submseteq; [exact Hnd | exact Hdes] | lia]. }
    rewrite Hp; exact Hx. }
  destruct (Nat.leb_spec (length (byeAthletes (gb_initialEntrants (pv_bracket pv)))) (length (seedsOf (eligibleAthletes t w d)))) as [Hle | Hlt].
  - rewrite (proj2 (Z.leb_le _ _)) in Hsel by lia; intros x Hx; apply Hsel, Hall, Hx.
  - rewrite (proj2 (Z.leb_gt _ _)) in Hsel by lia; intros x Hx; apply Hdes, Hsel, Hx.
Qed.

(** Swapping two athletes of a previewed draw always works while the roster is unchanged and the class
    has no bracket: the graph is rebuilt, the two trade their places and everything else, the
    empty places included, stays. *)
Theorem swap_trades_places t w token now nonce a b d c k :
  verifyPreview signature decode t w now token = Ok c -> draws (pc_placements c) k -> a <> b ->
  find_first (currentBracket t w) (db_tournamentBrackets d) = None ->
  rosterFingerprint sha256 (eligibleAthletes t w d) = pc_rosterFingerprint c ->
  Permutation (athleteIdsOf (pc_placements c)) (idsOf (eligibleAthletes t w d)) ->
  In a (athleteIdsOf (pc_placements c)) -> In b (athleteIdsOf (pc_placements c)) ->
  exists pv, swap sha256 signature encode decode t w token a b now nonce d = Ok (pv, d) /\
  let before := pc_placements c in let after := gb_initialEntrants (pv_bracket pv) in
  Permutation (athleteIdsOf after) (athleteIdsOf before) /\
  forall i p, before !! i = Some p -> exists q, after !! i = Some q /\ pl_drawPosition q = pl_drawPosition p /\
    pl_athleteId q = if pl_athleteId p === Some a then Some b else if pl_athleteId p === Some b then Some a else pl_athleteId p.
Proof.
  intros Hc Hd Hne Hcur Hros Hperm Ha Hb.
  destruct (findPlacement_in _ _ Ha) as [i Hi], (findPlacement_in _ _ Hb) as [j Hj].
  destruct (findPlacement_some _ _ _ Hi) as (pa & Hpa & Hea), (findPlacement_some _ _ _ Hj) as (pb & Hpb & Heb).
  assert (Hij : i <> j) by (intros ->; congruence).
  pose proof (swapAthletes_draws i j _ pa pb k Hij Hpa Hpb) as Hd'; rewrite Hea, Heb in Hd'; specialize (Hd' eq_refl eq_refl Hd).
  pose proof (build_run _ k Hd') as Hbuild; cbn zeta in Hbuild.
  match type of Hbuild with _ = Ok ?x => set (g := x) in Hbuild end.
  assert (Hel : forall x, In x (athleteIdsOf (pc_placements c)) -> bool_decide (x ∈ idsOf (eligibleAthletes t w d)) = true).
  { intros x Hx; apply bool_decide_eq_true_2; rewrite <- Hperm; apply list_elem_of_In, Hx. }
  eexists; split.
  - unfold swap; rewrite (bind_step _ _ _ c d) by (apply from_result_ok; auto).
    rewrite (bool_decide_eq_false_2 _ Hne), (bind_step _ _ _ tt d) by reflexivity.
    rewrite (bind_step _ _ _ None d) by (unfold find_one, gets; f_equal; f_equal; exact Hcur).
    rewrite (bind_step _ _ _ tt d), (bind_step _ _ _ (eligibleAthletes t w d) d) by reflexivity.
    rewrite (bool_decide_eq_true_2 _ Hros), (bind_step _ _ _ tt d) by reflexivity.
    rewrite (Hel a Ha), (Hel b Hb), (bind_step _ _ _ tt d) by reflexivity.
    cbn zeta; rewrite Hi, Hj, (bind_step _ _ _ i d), (bind_step _ _ _ j d) by reflexivity.
    rewrite (bind_step _ _ _ g d) by (apply from_result_ok; auto); reflexivity.
  - cbn [pv_bracket]; change (gb_initialEntrants g) with (swapAthletes i j (pc_placements c)).
    split; [exact (swapAthletes_ids i j _ pa pb Hij Hpa Hpb) |]; intros m p Hm.
    rewrite (swapAthletes_lookup i j _ pa pb m Hij Hpa Hpb), Hm; eexists; split; [reflexivity |]; split; [reflexivity |].
    cbn [pl_athleteId]; destruct Hd as (_ & _ & Hnd & _).
    destruct (Nat.eqb_spec m i) as [-> |]; [rewrite Hpa in Hm; injection Hm as <-; rewrite Hea, bool_decide_eq_true_2 by reflexivity; congruence |].
    rewrite bool_decide_eq_false_2 by (intros E; assert (m = i) by exact (athlete_once _ m i p pa a Hnd Hm Hpa E Hea); congruence).
    destruct (Nat.eqb_spec m j) as [-> |]; [rewrite Hpb in Hm; injection Hm as <-; rewrite Heb, bool_decide_eq_true_2 by reflexivity; congruence |].
    rewrite bool_decide_eq_false_2 by (intros E; assert (m = j) by exact (athlete_once _ m j p pb b Hnd Hm Hpb E Heb); congruence).
    reflexivity.
Qed.

(** What the new rows of a confirmed bracket say. *)
Record confirmed_rows (t w : uuid) (d d' : DB) (b : BracketRow) (ps : list BracketEntrantPlacement)
    (rows : list EntrantRow) (fixtures : list FixtureRow) (slots : list SlotRow) (staffing : list StaffingRow) : Prop := {
  cr_entrants : db_bracketEntrants d' = db_bracketEntrants d ++ rows;
  cr_fixtures : db_bracketFixtures d' = db_bracketFixtures d ++ fixtures;
  cr_slots : db_bracketSlots d' = db_bracketSlots d ++ slots;
  cr_staffing : db_bracketRoundStaffing d' = db_bracketRoundStaffing d ++ staffing;
  cr_rounds : exists n, br_roundCount b = Z.of_nat n /\ map st_roundNumber staffing = map Z.of_nat (seq 1 n) /\
    forall s, In s staffing -> st_bracketId s = br_id b;
  cr_audit : exists a, db_auditLogs d' = db_auditLogs d ++ [a];
  cr_athletes : Permutation (map en_athleteId rows) (idsOf (eligibleAthletes t w d));
  cr_snapshots : forall e, In e rows -> en_bracketId e = br_id b /\ exists a, In a (eligibleAthletes t w d) /\
    en_athleteId e = at_id a.1 /\ en_snapshotName e = at_name a.1 /\ en_snapshotBirthYear e = at_birthYear a.1 /\
    en_snapshotOrganization e = option_map og_name a.2 /\ en_snapshotImagePath e = at_imagePath a.1;
  cr_seats : drawSeats ps rows fixtures slots }.

(** C24: a confirmation under a new idempotency key stores an active bracket of the class with one entrant for every
    eligible athlete, as registered now; its fixtures and slots form a single-elimination tree, in which every entrant
    is the direct entrant of exactly one slot: the seat that its placement in the claims of the token has, in the
    first round, or in the second after a bye, as recorded with the entrant. Every round gets its staffing and one
    audit entry is written. These are new rows: no row that was there is changed or deleted. *)
Theorem confirm_stores_tree t w token key user now d b d' :
  confirm sha256 signature decode t w token key user now d = Ok (b, d') -> sound d -> bracket_refs d ->
  find_first (fun b => br_confirmationKey b === key) (db_tournamentBrackets d) = None ->
  stored_tree d' b /\ br_status b = BRACKET_ACTIVE /\ br_tournamentId b = t /\ br_weightClassId b = w /\
  db_tournamentBrackets d' = db_tournamentBrackets d ++ [b] /\
  (exists c rows fixtures slots staffing, verifyPreview signature decode t w now token = Ok c /\
     confirmed_rows t w d d' b (pc_placements c) rows fixtures slots staffing) /\
  touches [tournamentBrackets; bracketEntrants; bracketFixtures; bracketSlots; bracketRoundStaffing; auditLogs] d d'.
Proof.
  intros H Hs Hr Hnew; destruct (confirm_stored _ _ _ _ _ _ _ _ _ _ _ _ H Hs Hr Hnew)
    as (c & g & Hc & Hg & -> & Hst & Htree & Hperm & Hnd & Hat).
  split; [exact Htree |]; do 3 (split; [reflexivity |]); split; [exact (sto_bracket _ _ _ _ _ Hst) |].
  split; [| exact (sto_touches _ _ _ _ _ Hst)].
  destruct (sto_entrants _ _ _ _ _ Hst) as (rows & Hrows & Hath & Hown & Hids & n & _ & Hfx & Hsl); cbv zeta in Hfx, Hsl.
  destruct (sto_staffing _ _ _ _ _ Hst) as (rules & m & Hstaff).
  assert (Hnew' : forall e, In e rows -> entrantAt (pc_placements c) (eligibleAthletes t w d) (openings (gb_fixtures g)) e)
    by (intros e He; apply Hat; [rewrite Hrows; apply in_or_app; auto | exact (Hown e He)]).
  do 5 eexists; split; [exact Hc |]; split; [exact Hrows | exact Hfx | exact Hsl | exact Hstaff | | exact (sto_audit _ _ _ _ _ Hst) | | |].
  - exists (gb_roundCount g); split; [reflexivity |]; generalize m, (seq 1 (gb_roundCount g)); clear; intros m l.
    revert m; induction l as [| x l IH]; intros m; [split; [reflexivity | intros s []] |]; destruct (IH (N.succ m)) as [E Hb].
    cbn [numbered map]; rewrite E; split; [reflexivity | intros s [<- | Hs]; [reflexivity | exact (Hb s Hs)]].
  - rewrite Hath; exact Hperm.
  - intros e He; split; [exact (Hown e He) |]; destruct (Hnew' e He) as (p & a & f & s & _ & _ & Ha & _ & _ & _ & E).
    exists a; split; [exact Ha |]; rewrite E; cbn; auto.
  - exact (rows_seated _ g Hg rows _ n _ Hath Hnd Hnew' Hids).
Qed.

(** A confirmation can be repeated: with the same idempotency key a token of the same semantic
    claims is answered with the bracket already stored, any other is refused, and neither writes. *)
Theorem confirm_repeated t w token key user now d b d' c token2 t2 w2 user2 now2 c2 :
  confirm sha256 signature decode t w token key user now d = Ok (b, d') -> sound d -> bracket_refs d ->
  verifyPreview signature decode t w now token = Ok c -> verifyPreview signature decode t2 w2 now2 token2 = Ok c2 ->
  confirm sha256 signature decode t2 w2 token2 key user2 now2 d' =
  if fingerprint sha256 c2 === fingerprint sha256 c then Ok (b, d') else Err (Conflict "BRACKET_CONFIRMATION_KEY_REUSED").
Proof.
  intros H Hs Hr Hc Hc2.
  assert (Hfind : find_first (fun b => br_confirmationKey b === key) (db_tournamentBrackets d') = Some b /\
                  br_confirmationFingerprint b = fingerprint sha256 c).
  { destruct (confirm_cases _ _ _ _ _ _ _ _ _ _ _ _ H) as (c' & Hc' & [(Hf & Hfp & ->) | (Hnew & _)]);
      [split; [exact Hf | congruence] |].
    destruct (confirm_stored _ _ _ _ _ _ _ _ _ _ _ _ H Hs Hr Hnew) as (c'' & g & Hc'' & _ & -> & Hst & _).
    rewrite (sto_bracket _ _ _ _ _ Hst), find_first_app, Hnew; cbn.
    rewrite bool_decide_eq_true_2 by reflexivity; split; [reflexivity | congruence]. }
  destruct Hfind as [Hfind Hfp]; unfold confirm.
  rewrite (bind_step _ _ _ c2 d') by (apply from_result_ok; auto).
  rewrite (bind_step _ _ _ (Some b) d') by (unfold find_one, gets; f_equal; f_equal; exact Hfind); rewrite Hfp.
  destruct (base.decide (fingerprint sha256 c2 = fingerprint sha256 c)) as [E | E].
  - rewrite E, !bool_decide_eq_true_2 by reflexivity; reflexivity.
  - rewrite !bool_decide_eq_false_2 by congruence; reflexivity.
Qed.

(** C25: What was previewed is what a confirmation stores: if the token a preview returned is confirmed
    under a new key, the stored entrants, fixtures and slots are those of the previewed bracket. *)
Theorem confirmed_as_previewed {R} (nextInt : R -> nat -> option Z * R) t w setupToken designated strategy now nonce r d0 pv
    now' key user d b d' :
  let claims := previewClaims t w designated (chosenStrategy strategy designated) pv in
  preview sha256 signature encode decode nextInt t w setupToken designated strategy now nonce r d0 = Ok (pv, d0) ->
  isHex64 (pv_rosterFingerprint pv) = true -> nonce <> EmptyString -> 0 <= now <= 2^52 ->
  carries signature encode decode (previewJson (stamped claims now nonce)) ->
  confirm sha256 signature decode t w (pv_previewToken pv) key user now' d = Ok (b, d') -> sound d -> bracket_refs d ->
  find_first (fun b => br_confirmationKey b === key) (db_tournamentBrackets d) = None ->
  stored d d' b (gb_initialEntrants (pv_bracket pv)) (pv_bracket pv) /\ stored_tree d' b.
Proof.
  intros claims Hp Hx Hnonce Hnow Hcar H Hs Hr Hnew.
  destruct (preview_ok _ _ _ _ _ _ _ _ _ _ _ _ _ _ _ _ Hp) as (_ & _ & Htok & Hbuild & Hdrawn & Hnd & _).
  destruct (confirm_stored _ _ _ _ _ _ _ _ _ _ _ _ H Hs Hr Hnew) as (c & g & Hc & Hg & -> & Hst & Htree & _).
  assert (Hiss : issuable claims now nonce = true).
  { unfold issuable; rewrite !andb_true_iff, !Z.leb_le, bool_decide_eq_true; repeat split; try lia; try exact Hx.
    - apply forallb_forall; intros p Hin; destruct (build_ok _ _ Hbuild) as [k (Hlen & Hpos & _ & Hmax & Hhalf & _)].
      apply list_elem_of_In, list_elem_of_lookup in Hin as [i Hi]; apply lookup_lt_Some in Hi as Hlt.
      apply andb_true_iff; rewrite Z.ltb_lt, isSafe_bounds, (Hpos i p Hi); unfold MAX_BRACKET_ATHLETES in Hmax; cbn [pc_placements claims previewClaims] in Hlt.
      split; [lia |]; change (2^53) with 9007199254740992; lia.
    - cbn [pc_designatedByeAthleteIds claims previewClaims]; rewrite (sort_by_perm Z.of_N designated); exact Hnd.
    - apply negb_true_iff, bool_decide_eq_false; exact Hnonce. }
  fold claims in Htok; rewrite Htok, (preview_token_roundtrip_run signature encode decode claims now nonce t w now' Hiss Hcar) in Hc.
  destruct (_ || _); [discriminate |]; destruct (_ <? _); [discriminate |]; destruct (_ <=? _); [discriminate |].
  injection Hc as <-; cbn [stamped claims previewClaims pc_placements] in *; rewrite Hbuild in Hg; injection Hg as <-; auto.
Qed.
End Properties.

(** ** Witnesses: three athletes of the weight class 5, one of them seeded. *)
Definition drawHash (j : json) : string :=
  if readStrategy (jfield "byeStrategy" j) === Some RANDOM
  then "1123456789abcdef0123456789abcdef0123456789abcdef0123456789abcdef"
  else "0123456789abcdef0123456789abcdef0123456789abcdef0123456789abcdef".
Definition drawEncode (j : json) : string := match jfield "summary" j with Some _ => "setup" | None => "preview" end.
Definition drawSignature (payload : string) : string := if payload === "setup"%string then "digest" else "other".
Definition drawAthlete (id : uuid) (organization : option uuid) (seed : bool) : AthleteRow :=
  mkAthleteRow id 1 organization 5 "A" 2000 None seed true 7 None None.
Definition drawDB : DB := Eval vm_compute in
  emptyDB <| db_nextId := 1000%N |>
    <| db_tournaments := [sampleTournament] |>
    <| db_tournamentWeightClasses := [mkWeightClassRow 5 1 "54" 30 true "54" None None] |>
    <| db_tournamentOrganizations := [mkOrganizationRow 61 1 "O" true 7 "o" EmptyString None None None None] |>
    <| db_tournamentAthletes := [drawAthlete 123 None false; drawAthlete 121 (Some 61%N) true; drawAthlete 122 None false] |>.

Definition zeros (r : unit) (_ : nat) : option Z * unit := (Some 0, r).
Definition drawSetup : json := setupJson (mkSetupClaims 1 5
  "0123456789abcdef0123456789abcdef0123456789abcdef0123456789abcdef" (mkSummary 3 4 2 2 1 1) 5 305 "nonce").
Definition setupDecode (_ : string) : option json := Some drawSetup.
Definition drawn_pv : PreviewResult := Eval vm_compute in
  match preview drawHash drawSignature drawEncode setupDecode zeros 1 5 "setup.digest" [121%N] (Some SEEDED) 5000 "nonce" tt drawDB with
  | Ok (pv, _) => pv
  | Err _ => mkPreviewResult EmptyString 0 EmptyString (mkBracket 0 0 0 0 0 0 [] [] [])
  end.
Definition drawClaims : PreviewClaims := previewClaims 1 5 [121%N] SEEDED drawn_pv.
(** The same placements under another strategy. *)
Definition otherClaims : PreviewClaims := mkPreviewClaims 1 5 (pc_placements drawClaims) [] RANDOM
  (pc_rosterFingerprint drawClaims) 5 305 "nonce".
Definition drawDecode (payload : string) : option json :=
  if payload === "setup"%string then Some drawSetup
  else if payload === "preview"%string then Some (previewJson (stamped drawClaims 5000 "nonce"))
  else Some (previewJson otherClaims).

Definition confirmed : BracketRow * DB := Eval vm_compute in
  match confirm drawHash drawSignature drawDecode 1 5 (pv_previewToken drawn_pv) "key" 9 6000 drawDB with
  | Ok r => r
  | Err _ => (mkBracketRow 0 0 0 BRACKET_ACTIVE 0 None None 0 0 EmptyString EmptyString None None, emptyDB)
  end.
Definition confirmedRow : BracketRow := Eval vm_compute in confirmed.1.
Definition confirmedDB : DB := Eval vm_compute in confirmed.2.

Lemma draw_confirmed :
  confirm drawHash drawSignature drawDecode 1 5 (pv_previewToken drawn_pv) "key" 9 6000 drawDB = Ok (confirmedRow, confirmedDB).
Proof. vm_compute; reflexivity. Defined.
Lemma draw_previewed : preview drawHash drawSignature drawEncode drawDecode zeros 1 5 "setup.digest" [121%N] (Some SEEDED) 5000
  "nonce" tt drawDB = Ok (drawn_pv, drawDB).
Proof. vm_compute; reflexivity. Defined.
Lemma drawDB_sound : sound drawDB.
Proof. solve_sound. Defined.
Lemma drawDB_refs : bracket_refs drawDB.
Proof. split; [| split]; intros x []. Defined.

Lemma preview_honours_byes_witness :
  athleteIdsOf (gb_initialEntrants (pv_bracket drawn_pv)) = [123; 122; 121]%N /\
  (forall x, x ∈ [121%N] -> x ∈ byeAthletes (gb_initialEntrants (pv_bracket drawn_pv))).
Proof. split; [vm_compute; reflexivity |].
  destruct (preview_honours_byes _ _ _ _ _ _ _ _ _ _ _ _ _ _ _ _ draw_previewed) as (_ & _ & H & _); exact H. Defined.

Lemma swap_trades_places_witness : exists pv,
  swap drawHash drawSignature drawEncode drawDecode 1 5 (pv_previewToken drawn_pv) 121 122 7000 "nonce2" drawDB = Ok (pv, drawDB) /\
  Permutation (athleteIdsOf (gb_initialEntrants (pv_bracket pv))) (athleteIdsOf (pc_placements drawClaims)).
Proof.
  destruct (swap_trades_places drawHash drawSignature drawEncode drawDecode 1 5 (pv_previewToken drawn_pv) 7000 "nonce2" 121 122
    drawDB (stamped drawClaims 5000 "nonce") 1) as (pv & Hpv & Hperm & _).
  - vm_compute; reflexivity.
  - split; [reflexivity |]; split; [| split; [vm_compute; repeat constructor; set_solver | split; [vm_compute; discriminate | split; [vm_compute; repeat constructor | reflexivity]]]].
    intros i p Hp; do 4 (destruct i as [|i]; [injection Hp as <-; reflexivity |]); discriminate.
  - discriminate.
  - reflexivity.
  - vm_compute; reflexivity.
  - vm_compute; apply (Permutation_rev [123; 122; 121]%N).
  - vm_compute; auto.
  - vm_compute; auto.
  - exists pv; auto.
Defined.

Lemma confirm_stores_tree_witness : stored_tree confirmedDB confirmedRow /\ length (db_bracketFixtures confirmedDB) = 2%nat.
Proof.
  split; [| reflexivity].
  apply (confirm_stores_tree _ _ _ _ _ _ _ _ _ _ _ _ draw_confirmed drawDB_sound drawDB_refs); reflexivity.
Defined.

Lemma confirm_repeated_witness :
  confirm drawHash drawSignature drawDecode 1 5 (pv_previewToken drawn_pv) "key" 10 7000 confirmedDB = Ok (confirmedRow, confirmedDB) /\
  confirm drawHash drawSignature drawDecode 1 5 "other.other" "key" 10 7000 confirmedDB = Err (Conflict "BRACKET_CONFIRMATION_KEY_REUSED").
Proof.
  split.
  - etransitivity; [apply (confirm_repeated _ _ _ _ _ _ _ _ _ _ _ _ (stamped drawClaims 5000 "nonce") _ _ _ _ _
      (stamped drawClaims 5000 "nonce") draw_confirmed drawDB_sound drawDB_refs); vm_compute; reflexivity | vm_compute; reflexivity].
  - etransitivity; [apply (confirm_repeated _ _ _ _ _ _ _ _ _ _ _ _ (stamped drawClaims 5000 "nonce") _ _ _ _ _
      otherClaims draw_confirmed drawDB_sound drawDB_refs); vm_compute; reflexivity | vm_compute; reflexivity].
Defined.

Lemma confirmed_as_previewed_witness :
  stored drawDB confirmedDB confirmedRow (gb_initialEntrants (pv_bracket drawn_pv)) (pv_bracket drawn_pv).
Proof.
  eapply (confirmed_as_previewed _ _ _ _ zeros 1 5 "setup.digest" [121%N] (Some SEEDED) 5000 "nonce" tt drawDB);
    [exact draw_previewed | reflexivity | discriminate | lia | | exact draw_confirmed | exact drawDB_sound | exact drawDB_refs | reflexivity].
  repeat split; discriminate.
Defined.
