(* ===== verification/BracketMatches.v ===== *)
(** * Operational matches

    The match part of admin-management/admin-management.service.ts with
    brackets/bracket-round-staffing.service.ts and brackets/bracket-cancellation.service.ts: a
    match is created from the roster or from a ready bracket fixture, the staffing of a bracket
    round is set until a match of the round exists, and a bracket without matches is cancelled. *)
From stdpp Require Import gmap.
From S2P Require Import Prelude Schema Database Rules Scenario BracketOutcome BracketGenerator BracketTokens BracketDraws BracketStorage.

(** ** Public ids *)

Definition PUBLIC_ID_GENERATION_ATTEMPTS : nat := 8.

(** [isPublicIdCollision]: a unique violation whose target is the index on [public_id]. *)
Definition isPublicIdCollision (publicId : string) (d : DB) (e : error) : bool :=
  match e with UniqueViolation => existsb (fun m => m_publicId m === publicId) (db_matches d) | _ => false end.

(** The loop of [createMatch] and [prepareBracketFixtureMatch]: each attempt is a transaction with
    a new id of [credentialGenerator.generatePublicId]; only a collision is tried again. *)
Fixpoint withPublicId {A} (attempts : nat) (generatePublicId : nat -> string) (attempt : nat)
    (body : string -> DbM A) : DbM A := fun d =>
  match attempts with
  | O => Err (Conflict "PUBLIC_MATCH_ID_COLLISION")
  | S attempts =>
      match body (generatePublicId attempt) d with
      | Ok r => Ok r
      | Err e =>
          if isPublicIdCollision (generatePublicId attempt) d e
          then withPublicId attempts generatePublicId (S attempt) body d
          else Err e
      end
  end.

(** [resolveRules] of the admin management service *)
Definition resolveRulesConflict (sportGroupCode : string) : DbM SportRulesDefinition :=
  rethrow (fun e => match e with
                    | SportGroupRulesNotImplemented _ => Conflict "SPORT_GROUP_RULES_NOT_IMPLEMENTED"
                    | _ => e
                    end) (resolveRules sportGroupCode).

(** A new match: the column defaults of the schema under the given values. *)
Definition newMatch (publicId : string) (tournamentId weightClassId : uuid) (bracketFixtureId : option uuid)
    (requiredJudgeCount roundDurationMs breakDurationMs : Z) (id : uuid) : MatchRow :=
  mkMatchRow id publicId tournamentId bracketFixtureId requiredJudgeCount WAITING NOT_STARTED
    FAULT_APPEAL_OVERTIME_V2 None None roundDurationMs None None None (Some weightClassId)
    breakDurationMs.

(** ** Matches between athletes of the roster *)

(** [MatchAthleteDto]; [CreateMatchDto] and [UpdateMatchDto] with their optional fields. *)
Record MatchAthleteDto : Type := mkMatchAthleteDto { md_color : AthleteColor; md_athleteId : uuid }.
Record CreateMatchDto : Type := mkCreateMatchDto {
  cm_athletes : list MatchAthleteDto; cm_roundDurationMs : option Z; cm_breakDurationMs : option Z }.
Record UpdateMatchDto : Type := mkUpdateMatchDto {
  um_athletes : option (list MatchAthleteDto); um_roundDurationMs : option Z; um_breakDurationMs : option Z }.

(** [new Set(items).size === items.length] *)
Definition allDistinct {A} `{EqDecision A} (l : list A) : bool := bool_decide (NoDup l).

Definition assertAthleteColors (athletes : list MatchAthleteDto) (colors : list AthleteColor) : DbM unit :=
  let given := remove_dups (map md_color athletes) in
  throw_if (negb (length athletes =? length colors)%nat || negb (length given =? length colors)%nat ||
            negb (forallb (fun c => bool_decide (c ∈ given)) colors)) (BadRequest "INVALID_MATCH_ATHLETES");;
  throw_if (negb (allDistinct (map md_athleteId athletes))) (BadRequest "DUPLICATE_MATCH_ATHLETE").

Record PreparedAthlete : Type := mkPreparedAthlete {
  pa_color : AthleteColor; pa_athleteId : uuid; pa_name : string; pa_organization : option string;
  pa_weightClassId : uuid }.

Definition prepareRosterAthletes (tournamentId : uuid) (selections : list MatchAthleteDto) : DbM (list PreparedAthlete) :=
  selected ← find_many tournamentAthletes (fun a =>
    bool_decide (at_id a ∈ map md_athleteId selections) && (at_tournamentId a === tournamentId));
  throw_if (negb (length selected =? length selections)%nat) (NotFound "MATCH_ATHLETE_NOT_FOUND");;
  throw_if (existsb (fun a => negb (at_isActive a)) selected) (Conflict "MATCH_ATHLETE_INACTIVE");;
  activeClass ← gets (fun d a => existsb (fun w => (wc_id w === at_weightClassId a) && wc_isActive w)
                                   (db_tournamentWeightClasses d));
  throw_if (existsb (fun a => negb (activeClass a)) selected) (Conflict "MATCH_ATHLETE_WEIGHT_CLASS_MISMATCH");;
  organization ← gets organizationOf;
  throw_if (existsb (fun a => match organization a with Some g => negb (og_isActive g) | None => false end) selected)
    (Conflict "MATCH_ATHLETE_ORGANIZATION_INVALID");;
  throw_if (negb (length (remove_dups (map at_weightClassId selected)) =? 1)%nat)
    (BadRequest "MATCH_ATHLETE_WEIGHT_CLASS_MISMATCH");;
  mret (omap (fun s => option_map (fun a => mkPreparedAthlete (md_color s) (md_athleteId s) (at_name a)
                 (option_map og_name (organization a)) (at_weightClassId a))
               (find_first (fun a => at_id a === md_athleteId s) selected)) selections).

(** [athletes[0]!.weightClassId] *)
Definition commonWeightClass (athletes : list PreparedAthlete) : DbM uuid :=
  match athletes with a :: _ => mret (pa_weightClassId a) | [] => throw (InternalError "TypeError") end.

Section Settings.
(** The configured durations. *)
Context (defaultRoundDurationMs defaultBreakDurationMs : Z).

(** One attempt of [createMatch]. *)
Definition createMatchAs (tournamentId adminUserId : uuid) (input : CreateMatchDto) (publicId : string) : DbM uuid :=
  tournament ← find_one tournaments (fun t => tn_id t === tournamentId);
  tournament ← or_throw tournament (NotFound "TOURNAMENT_NOT_FOUND");
  throw_if (tn_status tournament === TOURNAMENT_ARCHIVED) (Conflict "TOURNAMENT_ARCHIVED");;
  rules ← resolveRulesConflict (tn_sportGroupCode tournament);
  assertAthleteColors (cm_athletes input) (athleteColors rules);;
  athletes ← prepareRosterAthletes tournamentId (cm_athletes input);
  weightClassId ← commonWeightClass athletes;
  created ← create matches (newMatch publicId tournamentId weightClassId None (defaultRequiredJudgeCount rules)
    (default defaultRoundDurationMs (cm_roundDurationMs input))
    (default defaultBreakDurationMs (cm_breakDurationMs input)));
  create_many matchAthletes (fun a id => mkMatchAthleteRow id (m_id created) (Some (pa_athleteId a)) (pa_color a)
    (pa_name a) (pa_organization a)) athletes;;
  _ ← create auditLogs (fun id => mkAuditRow id (Some (m_id created)) (Some adminUserId) None None MATCH_CREATED
    (JObj [("athleteIds", JList (map (fun a => JId (md_athleteId a)) (cm_athletes input))); ("publicId", JStr publicId);
           ("tournamentId", JId tournamentId); ("weightClassId", JId weightClassId)]%string));
  mret (m_id created).

(** [getMatch], without the projection of the row. *)
Definition getMatch (id : uuid) : DbM MatchRow :=
  m ← find_one matches (fun m => m_id m === id); or_throw m (NotFound "MATCH_NOT_FOUND").

Definition createMatch (generatePublicId : nat -> string) (tournamentId adminUserId : uuid) (input : CreateMatchDto) :
    DbM MatchRow :=
  withPublicId PUBLIC_ID_GENERATION_ATTEMPTS generatePublicId 1
    (fun publicId => id ← createMatchAs tournamentId adminUserId input publicId; getMatch id).

(** ** Matches of bracket fixtures *)

(** [fixture.slots.find((slot) => slot.side === side)?.resolvedEntrant] *)
Definition seated (fixtureId : uuid) (side : AthleteColor) (d : DB) : option EntrantRow :=
  match find_first (fun s => (sl_fixtureId s === fixtureId) && (sl_side s === side)) (db_bracketSlots d) with
  | Some s => find_first (fun e => Some (en_id e) === sl_resolvedEntrantId s) (db_bracketEntrants d)
  | None => None
  end.

(** The active bracket of the tournament a fixture is asked for in. *)
Definition activeBracketOf (tournamentId bracketId : uuid) (b : BracketRow) : bool :=
  (br_id b === bracketId) && (br_tournamentId b === tournamentId) && (br_status b === BRACKET_ACTIVE).

(** One attempt of [prepareBracketFixtureMatch]. *)
Definition prepareFixtureAs (tournamentId bracketId fixtureId adminUserId : uuid) (publicId : string) : DbM uuid :=
  tournament ← find_one tournaments (fun t => tn_id t === tournamentId);
  tournament ← or_throw tournament (NotFound "TOURNAMENT_NOT_FOUND");
  throw_if (tn_status tournament === TOURNAMENT_ARCHIVED) (Conflict "TOURNAMENT_ARCHIVED");;
  bracket ← find_one tournamentBrackets (activeBracketOf tournamentId bracketId);
  fixture ← find_one bracketFixtures (fun f => (fx_id f === fixtureId) && (fx_bracketId f === bracketId));
  bracket ← or_throw bracket (NotFound "BRACKET_FIXTURE_NOT_FOUND");
  fixture ← or_throw fixture (NotFound "BRACKET_FIXTURE_NOT_FOUND");
  m ← gets (matchOfFixture fixtureId);
  throw_if (match m with Some _ => true | None => false end) (Conflict "BRACKET_MATCH_ALREADY_PREPARED");;
  throw_if (fx_status fixture !== FIXTURE_READY) (Conflict "BRACKET_FIXTURE_NOT_READY");;
  red ← gets (seated fixtureId RED);
  blue ← gets (seated fixtureId BLUE);
  red ← or_throw red (Conflict "BRACKET_FIXTURE_PARTICIPANTS_UNRESOLVED");
  blue ← or_throw blue (Conflict "BRACKET_FIXTURE_PARTICIPANTS_UNRESOLVED");
  throw_if (en_athleteId red === en_athleteId blue) (Conflict "DUPLICATE_MATCH_ATHLETE");;
  staffing ← find_one bracketRoundStaffing (fun s =>
    (st_bracketId s === bracketId) && (st_roundNumber s === fx_roundNumber fixture));
  staffing ← or_throw staffing (Conflict "BRACKET_ROUND_STAFFING_NOT_FOUND");
  created ← create matches (newMatch publicId tournamentId (br_weightClassId bracket) (Some (fx_id fixture))
    (st_requiredJudgeCount staffing) defaultRoundDurationMs defaultBreakDurationMs);
  create_many matchAthletes (fun x id => mkMatchAthleteRow id (m_id created) (Some (en_athleteId x.2)) x.1
    (en_snapshotName x.2) (en_snapshotOrganization x.2)) [(RED, red); (BLUE, blue)];;
  _ ← update bracketFixtures (fun f => fx_id f === fx_id fixture) (fun f => f <| fx_status := MATCH_PREPARED |>);
  _ ← create auditLogs (fun id => mkAuditRow id (Some (m_id created)) (Some adminUserId) None None BRACKET_MATCH_PREPARED
    (JObj [("tournamentId", JId tournamentId); ("bracketId", JId bracketId); ("fixtureId", JId fixtureId);
           ("publicId", JStr publicId); ("entrantIds", JList [JId (en_id red); JId (en_id blue)]);
           ("athleteIds", JList [JId (en_athleteId red); JId (en_athleteId blue)])]%string));
  mret (m_id created).

Definition prepareBracketFixtureMatch (generatePublicId : nat -> string)
    (tournamentId bracketId fixtureId adminUserId : uuid) : DbM MatchRow :=
  withPublicId PUBLIC_ID_GENERATION_ATTEMPTS generatePublicId 1
    (fun publicId => id ← prepareFixtureAs tournamentId bracketId fixtureId adminUserId publicId; getMatch id).
End Settings.

(** ** Changing a match *)

(** [assertSafeAthleteReplacement] *)
Definition matchActivity (matchId : uuid) (d : DB) : nat :=
  length (List.filter (fun r => r_matchId r === matchId) (db_rounds d)) +
  length (List.filter (fun w => w_matchId w === matchId) (db_scoringWindows d)) +
  length (List.filter (fun v => v_matchId v === matchId) (db_judgeVotes d)) +
  length (List.filter (fun e => e_matchId e === matchId) (db_scoreEvents d)) +
  length (List.filter (fun p => p_matchId p === matchId) (db_penalties d)) +
  length (List.filter (fun o => op_matchId o === matchId) (db_matchResultOperations d)) +
  length (List.filter (fun s => ms_matchId s === matchId) (db_matchSessions d)).

Definition assertSafeAthleteReplacement (matchId : uuid) (status : MatchStatus) : DbM unit :=
  throw_if (status !== WAITING) (Conflict "MATCH_ATHLETE_REPLACEMENT_UNSAFE");;
  activity ← gets (matchActivity matchId);
  throw_if (0 <? activity)%nat (Conflict "MATCH_ATHLETE_REPLACEMENT_UNSAFE").

(** [Object.keys(input)] *)
Definition updateFields (input : UpdateMatchDto) : list string :=
  (match um_roundDurationMs input with Some _ => ["roundDurationMs"%string] | None => [] end ++
   match um_breakDurationMs input with Some _ => ["breakDurationMs"%string] | None => [] end ++
   match um_athletes input with Some _ => ["athletes"%string] | None => [] end).

(** The athletes part of [updateMatch], checked before anything is written. *)
Definition replacementAthletes (existing : MatchRow) (selections : list MatchAthleteDto) : DbM (list PreparedAthlete) :=
  throw_if (set_ (m_bracketFixtureId existing)) (Conflict "BRACKET_MATCH_PARTICIPANTS_IMMUTABLE");;
  tn ← find_one_or_throw tournaments (fun t => tn_id t === m_tournamentId existing);
  rules ← resolveRulesConflict (tn_sportGroupCode tn);
  assertAthleteColors selections (athleteColors rules);;
  assertSafeAthleteReplacement (m_id existing) (m_status existing);;
  prepareRosterAthletes (m_tournamentId existing) selections.

(** The update of one seat. *)
Definition reseat (matchId : uuid) (a : PreparedAthlete) : DbM unit :=
  _ ← update matchAthletes (fun x => (ma_matchId x === matchId) && (ma_color x === pa_color a))
        (fun x => x <| ma_athleteId := Some (pa_athleteId a) |> <| ma_name := pa_name a |>
                    <| ma_organization := pa_organization a |>);
  mret tt.

(** The columns of the match an update writes. *)
Definition updatedMatch (input : UpdateMatchDto) (weightClass : option uuid) (m : MatchRow) : MatchRow :=
  let m := m <| m_roundDurationMs := default (m_roundDurationMs m) (um_roundDurationMs input) |>
             <| m_breakDurationMs := default (m_breakDurationMs m) (um_breakDurationMs input) |> in
  match weightClass with
  | Some w => m <| m_weightClassId := Some w |>
  | None => m
  end.

(** [updateMatch] *)
Definition updateMatch (id adminUserId : uuid) (input : UpdateMatchDto) : DbM MatchRow :=
  throw_if (length (updateFields input) =? 0)%nat (BadRequest "INVALID_MATCH");;
  existing ← find_one matches (fun m => m_id m === id);
  existing ← or_throw existing (NotFound "MATCH_NOT_FOUND");
  before ← find_many matchAthletes (fun a => ma_matchId a === id);
  athletes ← match um_athletes input with
             | Some selections => l ← replacementAthletes existing selections; mret (Some l)
             | None => mret None
             end;
  weightClass ← match athletes with
                | Some l => w ← commonWeightClass l; mret (Some w)
                | None => mret None
                end;
  _ ← update matches (fun m => m_id m === id) (updatedMatch input weightClass);
  for_each (reseat id) (default [] athletes);;
  let fields := ("fields"%string, JList (map JStr (updateFields input))) in
  _ ← create auditLogs (fun a => mkAuditRow a (Some id) (Some adminUserId) None None MATCH_UPDATED
    (JObj (match um_athletes input with
           | None => [fields]
           | Some selections =>
               [("afterAthleteIds"%string, JList (map (fun s => JId (md_athleteId s)) selections));
                ("beforeAthleteIds"%string, JList (map JId (omap ma_athleteId before))); fields]
           end)));
  find_one_or_throw matches (fun m => m_id m === id).

(** ** Staffing of a bracket round *)

(** A fixture whose match exists or no longer will. *)
Definition staffingLocked (bracketId : uuid) (roundNumber : Z) (f : FixtureRow) : bool :=
  (fx_bracketId f === bracketId) && (fx_roundNumber f === roundNumber) &&
  ((fx_status f === MATCH_PREPARED) || (fx_status f === AWAITING_WINNER) || (fx_status f === FIXTURE_COMPLETED)).

Definition activeJudgeOf (tournamentId : uuid) (o : OfficialRow) : bool :=
  (tf_tournamentId o === tournamentId) && (tf_role o === OFFICIAL_JUDGE) && tf_isActive o.

Definition staffingInvalid (rules : SportRulesDefinition) (requiredJudgeCount activeRefereeCount : Z) : bool :=
  (requiredJudgeCount <? minimumRequiredRefereeCount rules) ||
  (requiresOddRefereeCount rules && (Z.rem requiredJudgeCount 2 =? 0)) ||
  (activeRefereeCount <? requiredJudgeCount).

(** [BracketRoundStaffingService.update]: the row it leaves, the label of the round, spelled like
    [bracketRoundLabel], and the number of active judges. *)
Definition updateStaffing (tournamentId weightClassId : uuid) (roundNumber requiredJudgeCount : Z) (actorId : uuid) :
    DbM (StaffingRow * string * Z) :=
  tournament ← find_one tournaments (fun t => (tn_id t === tournamentId) && (tn_softDeletedAt t === None));
  tournament ← or_throw tournament (NotFound "TOURNAMENT_NOT_FOUND");
  throw_if (tn_status tournament === TOURNAMENT_ARCHIVED) (Conflict "TOURNAMENT_ARCHIVED");;
  policy ← resolveRulesConflict (tn_sportGroupCode tournament);
  bracket ← find_one tournamentBrackets (fun b => (br_tournamentId b === tournamentId) &&
    (br_weightClassId b === weightClassId) && (br_status b === BRACKET_ACTIVE));
  bracket ← or_throw bracket (NotFound "BRACKET_NOT_FOUND");
  staffing ← find_one bracketRoundStaffing (fun s => (st_bracketId s === br_id bracket) && (st_roundNumber s === roundNumber));
  staffing ← or_throw staffing (NotFound "BRACKET_ROUND_NOT_FOUND");
  prepared ← find_one bracketFixtures (staffingLocked (br_id bracket) roundNumber);
  throw_if (match prepared with Some _ => true | None => false end) (Conflict "BRACKET_ROUND_STAFFING_LOCKED");;
  activeRefereeCount ← count tournamentOfficials (activeJudgeOf tournamentId);
  throw_if (staffingInvalid policy requiredJudgeCount activeRefereeCount) (Conflict "BRACKET_ROUND_STAFFING_INVALID");;
  updated ← update bracketRoundStaffing (fun s => st_id s === st_id staffing)
              (fun s => s <| st_requiredJudgeCount := requiredJudgeCount |>);
  _ ← create auditLogs (fun id => mkAuditRow id None (Some actorId) None None BRACKET_ROUND_STAFFING_UPDATED
    (JObj [("tournamentId", JId tournamentId); ("bracketId", JId (br_id bracket)); ("roundNumber", JNum roundNumber);
           ("before", JNum (st_requiredJudgeCount staffing)); ("after", JNum requiredJudgeCount)]%string));
  mret (updated, bracketRoundLabel (Z.to_nat roundNumber) (Z.to_nat (br_roundCount bracket)), activeRefereeCount).

(** ** Cancelling a bracket *)

(** The matches of the bracket's fixtures. *)
Definition bracketMatches (bracketId : uuid) (d : DB) : list MatchRow :=
  omap (fun f => matchOfFixture (fx_id f) d)
    (List.filter (fun f => fx_bracketId f === bracketId) (db_bracketFixtures d)).

(** [BracketCancellationService.cancel] without [force]; with no match in the bracket the lists of
    the audit entry are empty. *)
Definition cancelBracket (clk : Clock) (tournamentId weightClassId actorId : uuid) (reason : string) : DbM (uuid * timestamp) :=
  bracket ← find_one tournamentBrackets (currentBracket tournamentId weightClassId);
  bracket ← or_throw bracket (NotFound "BRACKET_NOT_FOUND");
  linked ← gets (bracketMatches (br_id bracket));
  throw_if (0 <? length linked)%nat (Conflict "BRACKET_CANCELLATION_UNSAFE");;
  let cancelledAt := jsNow clk 0 in
  _ ← update tournamentBrackets (fun b => br_id b === br_id bracket)
        (fun b => b <| br_status := BRACKET_STATUS_CANCELLED |> <| br_cancelledAt := Some cancelledAt |>);
  _ ← create auditLogs (fun id => mkAuditRow id None (Some actorId) None None BRACKET_CANCELLED
    (JObj [("actorId", JId actorId); ("reason", JStr reason); ("bracketId", JId (br_id bracket));
           ("tournamentId", JId tournamentId); ("weightClassId", JId weightClassId); ("forced", JBool false);
           ("unsafeMatchIds", JList []); ("deletedMatchIds", JList [])]%string));
  mret (br_id bracket, cancelledAt).

(** ** Facts *)

Lemma withPublicId_ok {A} n (gen : nat -> string) (body : string -> DbM A) d r : forall k,
  withPublicId n gen k body d = Ok r -> exists j, (k <= j < k + n)%nat /\ body (gen j) d = Ok r.
Proof.
  induction n as [|n IH]; intros k; cbn; [discriminate |].
  destruct (body (gen k) d) as [x | e] eqn:E; [intros [= ->]; exists k; split; [lia | exact E] |].
  destruct (isPublicIdCollision _ _ _); [| discriminate].
  intros H; destruct (IH _ H) as (j & Hj & Hb); exists j; split; [lia | exact Hb].
Qed.

(** Ids in use collide, the first one that is not is the one the body runs with. *)
Lemma withPublicId_skips {A} (gen : nat -> string) (body : string -> DbM A) d j : forall n k,
  (k <= j < k + n)%nat ->
  (forall i, (k <= i < j)%nat -> body (gen i) d = Err UniqueViolation /\
     existsb (fun m => m_publicId m === gen i) (db_matches d) = true) ->
  (exists r, body (gen j) d = Ok r) ->
  withPublicId n gen k body d = body (gen j) d.
Proof.
  induction n as [|n IH]; intros k Hk Hused [r Hr]; [lia |]; cbn.
  destruct (Nat.eq_dec k j) as [-> | Hne]; [rewrite Hr; reflexivity |].
  destruct (Hused k) as [Hb Hin]; [lia |]; rewrite Hb; cbn; rewrite Hin.
  apply IH; [lia | intros i Hi; apply Hused; lia | eauto].
Qed.

Section Preparation.
Context (roundMs breakMs : Z).

(** What a prepared fixture leaves in the store. *)
Record prepared (t b f : uuid) (d d' : DB) (m : MatchRow) (fx : FixtureRow) (br : BracketRow) (red blue : EntrantRow)
    (st : StaffingRow) : Prop := {
  pr_tournament : exists tn, find_first (fun tn => tn_id tn === t) (db_tournaments d) = Some tn /\ tn_status tn <> TOURNAMENT_ARCHIVED;
  pr_bracket : find_first (activeBracketOf t b) (db_tournamentBrackets d) = Some br;
  pr_fixture : find_first (fun x => (fx_id x === f) && (fx_bracketId x === b)) (db_bracketFixtures d) = Some fx;
  pr_ready : fx_status fx = FIXTURE_READY;
  pr_unprepared : matchOfFixture f d = None;
  pr_red : seated f RED d = Some red;
  pr_blue : seated f BLUE d = Some blue;
  pr_distinct : en_athleteId red <> en_athleteId blue;
  pr_staffing : find_first (fun s => (st_bracketId s === b) && (st_roundNumber s === fx_roundNumber fx))
                  (db_bracketRoundStaffing d) = Some st;
  pr_match : exists publicId, m = newMatch publicId t (br_weightClassId br) (Some f) (st_requiredJudgeCount st)
               roundMs breakMs (db_nextId d);
  pr_matches : db_matches d' = db_matches d ++ [m];
  pr_athletes : exists i j, db_matchAthletes d' = db_matchAthletes d ++
    [mkMatchAthleteRow i (m_id m) (Some (en_athleteId red)) RED (en_snapshotName red) (en_snapshotOrganization red);
     mkMatchAthleteRow j (m_id m) (Some (en_athleteId blue)) BLUE (en_snapshotName blue) (en_snapshotOrganization blue)];
  pr_fixtures : db_bracketFixtures d' =
    map_where (fun x => fx_id x === f) (fun x => x <| fx_status := MATCH_PREPARED |>) (db_bracketFixtures d);
  pr_touches : touches [matches; matchAthletes; bracketFixtures; auditLogs] d d';
  pr_sound : sound d -> sound d' }.

Lemma prepareFixtureAs_ok t b f a publicId d i d' : prepareFixtureAs roundMs breakMs t b f a publicId d = Ok (i, d') ->
  exists m fx br red blue st, prepared t b f d d' m fx br red blue st /\ m_id m = i /\ m_publicId m = publicId.
Proof.
  intros H.
  assert (Ht : touches [matches; matchAthletes; bracketFixtures; auditLogs] d d').
  { assert (Hr : respects (touches [matches; matchAthletes; bracketFixtures; auditLogs]) (prepareFixtureAs roundMs breakMs t b f a publicId))
      by (unfold prepareFixtureAs; respects_auto); exact (Hr _ _ _ H). }
  assert (Hsound : sound d -> sound d').
  { assert (Hr : respects keeps_sound (prepareFixtureAs roundMs breakMs t b f a publicId))
      by (unfold prepareFixtureAs; respects_auto); exact (Hr _ _ _ H). }
  unfold prepareFixtureAs in H.
  apply bind_ok in H as (tn & d1 & Hx & H); apply gets_ok in Hx as [Htn ->].
  apply bind_ok in H as (tn' & d1 & Hx & H); apply or_throw_ok in Hx as [-> ->].
  apply bind_ok in H as (u & d1 & Hx & H); apply throw_if_ok in Hx as [Harch ->].
  apply bind_ok in H as (br & d1 & Hx & H); apply gets_ok in Hx as [Hbr ->].
  apply bind_ok in H as (fx & d1 & Hx & H); apply gets_ok in Hx as [Hfx ->].
  apply bind_ok in H as (br' & d1 & Hx & H); apply or_throw_ok in Hx as [-> ->].
  apply bind_ok in H as (fx' & d1 & Hx & H); apply or_throw_ok in Hx as [-> ->].
  apply bind_ok in H as (mo & d1 & Hx & H); apply gets_ok in Hx as [Hmo ->].
  apply bind_ok in H as (u2 & d1 & Hx & H); apply throw_if_ok in Hx as [Hnone ->].
  apply bind_ok in H as (u3 & d1 & Hx & H); apply throw_if_ok in Hx as [Hready ->].
  apply bind_ok in H as (r0 & d1 & Hx & H); apply gets_ok in Hx as [Hred ->].
  apply bind_ok in H as (b0 & d1 & Hx & H); apply gets_ok in Hx as [Hblue ->].
  apply bind_ok in H as (red & d1 & Hx & H); apply or_throw_ok in Hx as [-> ->].
  apply bind_ok in H as (blue & d1 & Hx & H); apply or_throw_ok in Hx as [-> ->].
  apply bind_ok in H as (u4 & d1 & Hx & H); apply throw_if_ok in Hx as [Hne ->].
  apply bind_ok in H as (st0 & d1 & Hx & H); apply gets_ok in Hx as [Hst ->].
  apply bind_ok in H as (st & d1 & Hx & H); apply or_throw_ok in Hx as [-> ->].
  apply bind_ok in H as (m & d1 & Hm & H); apply (create_ok matches) in Hm as (Hm & _ & Hd1).
  apply bind_ok in H as (u5 & d2 & Ha & H); apply (create_many_ok matchAthletes) in Ha as (rows & Hrows & Hf2 & Ho2).
  apply bind_ok in H as (fx2 & d3 & Hu & H); apply (update_ok bracketFixtures) in Hu as (x & _ & _ & _ & Hd3).
  apply bind_ok in H as (au & d4 & Hau & H); apply (create_ok auditLogs) in Hau as (_ & _ & Hd4).
  apply ret_ok in H as [<- <-].
  pose proof (find_first_some _ _ _ (eq_sym Hfx)) as [_ Hid]; apply andb_prop in Hid as [Hid _]; apply bool_decide_eq_true in Hid.
  exists m, fx', br', red, blue, st; split; [| split; [reflexivity | rewrite Hm; reflexivity]].
  rewrite Hid in Hd3, Hm.
  assert (Hn : matchOfFixture f d = None) by (rewrite <- Hmo; destruct mo; [discriminate | reflexivity]).
  assert (Em : db_matches d4 = db_matches d ++ [m]).
  { change (db_matches d4) with (get matches d4); rewrite Hd4, get_put_other, get_nextId by discriminate.
    rewrite Hd3, get_put_other, (Ho2 matches) by discriminate; rewrite Hd1, get_put_same; reflexivity. }
  assert (Ea : db_matchAthletes d4 = db_matchAthletes d ++ rows).
  { change (db_matchAthletes d4) with (get matchAthletes d4); rewrite Hd4, get_put_other, get_nextId by discriminate.
    rewrite Hd3, get_put_other, Hrows by discriminate; rewrite Hd1, get_put_other, get_nextId by discriminate; reflexivity. }
  assert (Ef : db_bracketFixtures d4 = map_where (fun x => fx_id x === f) (fun x => x <| fx_status := MATCH_PREPARED |>) (db_bracketFixtures d)).
  { change (db_bracketFixtures d4) with (get bracketFixtures d4); rewrite Hd4, get_put_other, get_nextId by discriminate.
    rewrite Hd3, get_put_same, (Ho2 bracketFixtures) by discriminate; rewrite Hd1, get_put_other, get_nextId by discriminate; reflexivity. }
  inv Hf2; match goal with Hl : Forall2 _ [_] _ |- _ => inv Hl end; match goal with Hl : Forall2 _ [] _ |- _ => inv Hl end.
  repeat match goal with Hl : exists _, _ |- _ => destruct Hl as [? ->] end.
  to_prop.
  split; try assumption; try (symmetry; assumption); eauto.
Qed.
Lemma prepare_ok gen t b f a d m d' : prepareBracketFixtureMatch roundMs breakMs gen t b f a d = Ok (m, d') -> sound d ->
  exists fx br red blue st, prepared t b f d d' m fx br red blue st.
Proof.
  intros H Hs; apply withPublicId_ok in H as (j & _ & H); apply bind_ok in H as (i & d1 & H & Hget).
  apply prepareFixtureAs_ok in H as (m0 & fx & br & red & blue & st & Hp & Hid & _).
  apply bind_ok in Hget as (mo & d2 & Hx & Hget); apply gets_ok in Hx as [Hx ->]; apply or_throw_ok in Hget as [-> Hd]; subst d1.
  symmetry in Hx; apply find_first_some in Hx as [Hin Hx]; apply bool_decide_eq_true in Hx.
  assert (m0 = m) as ->; [| eauto 10].
  apply (wf_id matches d' m0 m i (proj1 (pr_sound _ _ _ _ _ _ _ _ _ _ _ Hp Hs))); [| exact Hin | cbn; congruence | cbn; congruence].
  change (In m0 (db_matches d')); rewrite (pr_matches _ _ _ _ _ _ _ _ _ _ _ Hp); apply in_or_app; right; left; reflexivity.
Qed.
End Preparation.

(** ** Properties *)

(** A match prepared for a bracket fixture seats exactly the two entrants of its slots, in the
    colours of the slots, with the judges the round is staffed with; it waits under the current
    rules, its fixture moves from ready to prepared and nothing else of the bracket changes. *)
Theorem prepare_seats_entrants rd bd gen t b f a d m d' :
  prepareBracketFixtureMatch rd bd gen t b f a d = Ok (m, d') -> sound d ->
  exists fx br red blue st, prepared rd bd t b f d d' m fx br red blue st /\ m_status m = WAITING /\ m_lifecycle m = NOT_STARTED /\
    m_rulesVersion m = FAULT_APPEAL_OVERTIME_V2 /\ m_bracketFixtureId m = Some f /\ m_requiredJudgeCount m = st_requiredJudgeCount st /\
    matchOfFixture f d' = Some m.
Proof.
  intros H Hs; destruct (prepare_ok _ _ _ _ _ _ _ _ _ _ H Hs) as (fx & br & red & blue & st & Hp).
  destruct (pr_match _ _ _ _ _ _ _ _ _ _ _ _ _ Hp) as (pid & Hm).
  exists fx, br, red, blue, st; split; [exact Hp |]; rewrite Hm; do 5 (split; [reflexivity |]); rewrite <- Hm.
  unfold matchOfFixture; rewrite (pr_matches _ _ _ _ _ _ _ _ _ _ _ _ _ Hp), find_first_app.
  change (find_first _ (db_matches d)) with (matchOfFixture f d); rewrite (pr_unprepared _ _ _ _ _ _ _ _ _ _ _ _ _ Hp).
  rewrite Hm; cbn; rewrite bool_decide_eq_true_2 by reflexivity; reflexivity.
Qed.

(** *** A prepared match decides its fixture *)

(** The entrant of a side is found again from the colour of the seat. *)
Lemma seated_slot f c d e : seated f c d = Some e -> exists s, In s (db_bracketSlots d) /\ sl_fixtureId s = f /\ sl_side s = c /\
  sl_resolvedEntrantId s = Some (en_id e) /\ In e (db_bracketEntrants d).
Proof.
  unfold seated; destruct (find_first _ (db_bracketSlots d)) as [s |] eqn:Es; [| discriminate]; intros He.
  apply find_first_some in Es as [Hs Hp]; apply andb_prop in Hp as [Hf Hc]; apply bool_decide_eq_true in Hf, Hc.
  apply find_first_some in He as [He Hr]; apply bool_decide_eq_true in Hr; exists s; auto.
Qed.

Lemma seated_entrant d f c x : wf d -> seated f c d = Some x ->
  forall s, In s (db_bracketSlots d) -> sl_fixtureId s = f -> sl_side s = c -> sl_resolvedEntrantId s = Some (en_id x).
Proof.
  intros Hwf Hx s Hs Hf Hc; destruct (seated_slot _ _ _ _ Hx) as (s' & Hs' & Hf' & Hc' & Hr & _).
  specialize (Hwf bracketSlots); apply table_ok_true in Hwf as (_ & _ & Hix).
  assert (s = s') as ->; [| exact Hr].
  apply (unique_by_inj (fun s => Some (sl_fixtureId s, sl_side s)) (db_bracketSlots d) s s' (f, c)); try assumption; congruence.
Qed.

(** The foreign key of the seats. *)
Definition seat_refs (d : DB) : Prop := forall x, In x (db_matchAthletes d) -> (ma_matchId x < db_nextId d)%N.

(** The seats of the prepared match by colour. *)
Lemma prepared_seat rd bd t b f d d' m fx br red blue st c e : prepared rd bd t b f d d' m fx br red blue st -> seat_refs d ->
  seated f c d = Some e -> exists i name organization,
  find_first (fun a => ma_color a === c) (List.filter (fun a => ma_matchId a === m_id m) (db_matchAthletes d')) =
    Some (mkMatchAthleteRow i (m_id m) (Some (en_athleteId e)) c name organization).
Proof.
  intros Hp Hr He; destruct (pr_athletes _ _ _ _ _ _ _ _ _ _ _ _ _ Hp) as (i & j & ->).
  destruct (pr_match _ _ _ _ _ _ _ _ _ _ _ _ _ Hp) as (pid & Hm).
  rewrite List.filter_app, filter_nothing.
  2: { intros x Hx; specialize (Hr x Hx); apply bool_decide_eq_false_2; rewrite Hm; cbn; lia. }
  cbn [app List.filter ma_matchId]; rewrite !bool_decide_eq_true_2 by reflexivity.
  pose proof (pr_red _ _ _ _ _ _ _ _ _ _ _ _ _ Hp); pose proof (pr_blue _ _ _ _ _ _ _ _ _ _ _ _ _ Hp).
  destruct c; [assert (e = red) as -> by congruence; exists i | assert (e = blue) as -> by congruence; exists j]; do 2 eexists; reflexivity.
Qed.

(** Among the fixture's slots exactly that of the side [c] holds an entrant of [e]'s athlete. *)
Lemma winning_slot d f c e red blue : wf d -> seated f RED d = Some red -> seated f BLUE d = Some blue ->
  en_athleteId red <> en_athleteId blue -> seated f c d = Some e ->
  let slots := List.filter (slotsOf f) (db_bracketSlots d) in
  let entrants := List.filter (fun x => existsb (fun s => sl_resolvedEntrantId s === Some (en_id x)) slots) (db_bracketEntrants d) in
  exists s, find_first (fun s => resolvedSlot s && negb (Some (en_athleteId e) === None) &&
    existsb (fun x => (sl_resolvedEntrantId s === Some (en_id x)) && (Some (en_athleteId e) === Some (en_athleteId x))) entrants) slots
    = Some s /\ sl_resolvedEntrantId s = Some (en_id e).
Proof.
  intros Hwf Hred Hblue Hne He slots entrants.
  destruct (seated_slot _ _ _ _ He) as (s0 & Hs0 & Hf0 & Hc0 & Hr0 & Hin0).
  assert (Hs0' : In s0 slots) by (apply filter_In; split; [exact Hs0 | apply bool_decide_eq_true_2, Hf0]).
  assert (Hent : In e entrants).
  { apply filter_In; split; [exact Hin0 |]; apply existsb_exists; exists s0; split; [exact Hs0' |].
    apply bool_decide_eq_true_2, Hr0. }
  destruct (find_first _ slots) as [s |] eqn:E.
  - exists s; split; [reflexivity |]; apply find_first_some in E as [Hs E].
    apply filter_In in Hs as [Hs Hf]; apply bool_decide_eq_true in Hf.
    apply andb_prop in E as [_ E]; apply existsb_exists in E as (x & Hx & E); apply filter_In in Hx as [Hx _].
    apply andb_prop in E as [E1 E2]; apply bool_decide_eq_true in E1, E2.
    destruct (base.decide (sl_side s = c)) as [Hc | Hc]; [exact (seated_entrant d f c e Hwf He s Hs Hf Hc) |].
    assert (exists y, seated f (sl_side s) d = Some y /\ en_athleteId y <> en_athleteId e) as (y & Hy & Hny)
      by (destruct (sl_side s), c; try congruence; [exists red | exists blue]; split; congruence).
    rewrite (seated_entrant d f (sl_side s) y Hwf Hy s Hs Hf eq_refl) in E1; injection E1 as E1.
    destruct (seated_slot _ _ _ _ Hy) as (_ & _ & _ & _ & _ & Hyin).
    assert (x = y) as -> by (apply (wf_id bracketEntrants d x y (en_id x)); cbn; auto || congruence).
    congruence.
  - rewrite find_first_none in E; specialize (E s0 Hs0'); cbv beta in E.
    unfold resolvedSlot in E; rewrite Hr0, bool_decide_eq_false_2 in E by discriminate; cbn [negb andb] in E.
    rewrite (bool_decide_eq_false_2 (Some _ = None)) in E by discriminate; cbn [negb andb] in E.
    apply existsb_none with (x := e) in E; [| exact Hent]; rewrite !bool_decide_eq_true_2 in E by reflexivity; discriminate.
Qed.

(** The rows a decision of the match [m] of the fixture [f] reads: the seats of the match, the slots of the fixture and
    the entrants in them *)
Definition fixtureEntrants (f : uuid) (d : DB) : list EntrantRow :=
  List.filter (fun e => existsb (fun s => sl_resolvedEntrantId s === Some (en_id e)) (List.filter (slotsOf f) (db_bracketSlots d)))
    (db_bracketEntrants d).
Record undisturbed (m f : uuid) (d d2 : DB) : Prop := {
  ud_slots : List.filter (slotsOf f) (db_bracketSlots d2) = List.filter (slotsOf f) (db_bracketSlots d);
  ud_entrants : fixtureEntrants f d2 = fixtureEntrants f d;
  ud_seats : List.filter (fun a => ma_matchId a === m) (db_matchAthletes d2) = List.filter (fun a => ma_matchId a === m) (db_matchAthletes d) }.
(** A fixture that waits to be decided *)
Definition undecidedIn (f : uuid) (d : DB) : Prop :=
  exists fx, find_first (fun x => fx_id x === f) (db_bracketFixtures d) = Some fx /\ hasOutcome fx = false.

#[export] Instance undisturbed_preorder m f : PreOrder (undisturbed m f).
Proof.
  split; [intros d; split; reflexivity | intros d1 d2 d3 [H1 H2 H3] [H4 H5 H6]; split; congruence].
Qed.

(** Preparing the match of another fixture disturbs no earlier match. *)
Lemma preparation_undisturbed rd bd gen t b g a d m' d' m f : prepareBracketFixtureMatch rd bd gen t b g a d = Ok (m', d') -> sound d ->
  (m < db_nextId d)%N -> g <> f -> undisturbed m f d d' /\ (undecidedIn f d -> undecidedIn f d').
Proof.
  intros H Hs Hm Hne; destruct (prepare_ok _ _ _ _ _ _ _ _ _ _ H Hs) as (fx & br & red & blue & st & Hp).
  pose proof (pr_touches _ _ _ _ _ _ _ _ _ _ _ _ _ Hp) as Ht.
  assert (Es : db_bracketSlots d' = db_bracketSlots d) by exact (Ht bracketSlots ltac:(table_notin)).
  assert (Ee : db_bracketEntrants d' = db_bracketEntrants d) by exact (Ht bracketEntrants ltac:(table_notin)).
  destruct (pr_athletes _ _ _ _ _ _ _ _ _ _ _ _ _ Hp) as (i & j & Ea), (pr_match _ _ _ _ _ _ _ _ _ _ _ _ _ Hp) as (pid & Em).
  split; [split |].
  - rewrite Es; reflexivity.
  - unfold fixtureEntrants; rewrite Es, Ee; reflexivity.
  - rewrite Ea, List.filter_app; cbn [List.filter ma_matchId].
    rewrite Em; cbn [m_id newMatch]; rewrite !bool_decide_eq_false_2 by lia; apply app_nil_r.
  - intros (x & Hx & Ho); exists x; split; [| exact Ho]; rewrite (pr_fixtures _ _ _ _ _ _ _ _ _ _ _ _ _ Hp).
    rewrite find_first_map_where by reflexivity; rewrite Hx; cbn.
    apply find_first_some in Hx as [_ Hx]; apply bool_decide_eq_true in Hx; rewrite bool_decide_eq_false_2 by congruence; reflexivity.
Qed.

(** Neither does the decision of a fixture that does not feed this one. *)
Lemma decision_undisturbed clk g e dn d r d' m f : BracketOutcome.decide clk g e dn d = Ok (r, d') -> wf d -> g <> f ->
  (forall s, In s (db_bracketSlots d) -> sl_fixtureId s = f -> fedBy g s = false) ->
  undisturbed m f d d' /\ (undecidedIn f d -> undecidedIn f d').
Proof.
  intros H Hwf Hne Hfeed; pose proof (touches_decide _ _ _ _ _ _ _ H) as Ht.
  assert (Ea : db_matchAthletes d' = db_matchAthletes d) by exact (Ht matchAthletes ltac:(table_notin)).
  assert (Ee : db_bracketEntrants d' = db_bracketEntrants d) by exact (Ht bracketEntrants ltac:(table_notin)).
  apply decide_ok in H as (fx & b & Hfx & _ & _ & H); [| exact Hwf].
  destruct (fx_winnerEntrantId fx); [destruct H as [_ ->]; split; [reflexivity | auto] |].
  destruct H as (Hsl & Hrd & _ & _ & _).
  assert (Es : List.filter (slotsOf f) (db_bracketSlots d') = List.filter (slotsOf f) (db_bracketSlots d)).
  { rewrite Hsl, filter_map_where_comm by reflexivity; apply map_where_nil; intros s Hs; apply filter_In in Hs as [Hs Hf].
    unfold slotsOf in Hf; apply bool_decide_eq_true in Hf; exact (Hfeed s Hs Hf). }
  split; [split; [exact Es | unfold fixtureEntrants; rewrite Es, Ee; reflexivity | rewrite Ea; reflexivity] |].
  intros (x & Hx & Ho).
  assert (Hd : find_first (fun y => fx_id y === f) (decidedFixture g e dn (db_bracketFixtures d)) = Some x).
  { unfold decidedFixture; rewrite find_first_map_where by reflexivity; rewrite Hx; cbn.
    apply find_first_some in Hx as [_ Hx]; apply bool_decide_eq_true in Hx; rewrite bool_decide_eq_false_2 by congruence; reflexivity. }
  revert Hd Hrd; generalize (decidedFixture g e dn (db_bracketFixtures d)); unfold undecidedIn; generalize (db_bracketFixtures d').
  clear - Ho; intros l' l Hd Hrd; induction Hrd as [| y y' l l' Hy _ IH]; [discriminate |]; cbn in Hd |- *.
  assert (Ey : fx_id y' = fx_id y) by (destruct Hy as [-> | [_ ->]]; reflexivity); rewrite Ey.
  destruct (fx_id y === f); [| exact (IH Hd)]; injection Hd as ->; exists y'; split; [reflexivity |].
  destruct Hy as [-> | [Hw ->]]; [exact Ho |]; unfold hasOutcome in *; cbn; apply orb_false_iff in Ho as [-> _]; reflexivity.
Qed.

(** C26: once a prepared match is finished, and while its fixture is undecided and the seats of the match, the slots of
    the fixture and the entrants in them are as the preparation left them, whatever else happened, a winning colour
    decides the fixture for exactly the entrant whom the bracket had in the slot of that colour. Preparing the match of
    another fixture, or deciding a fixture that does not feed this one, leaves those rows as they are, and the fixture
    undecided. *)
Theorem prepared_match_decides rd bd gen clk t b f a d m d' :
  prepareBracketFixtureMatch rd bd gen t b f a d = Ok (m, d') -> sound d -> seat_refs d ->
  (forall d2 m2 tn c e,
     find_first (fun x => m_id x === m_id m) (db_matches d2) = Some m2 -> m_status m2 = FINISHED ->
     m_bracketFixtureId m2 = Some f -> find_first (fun tn => tn_id tn === m_tournamentId m2) (db_tournaments d2) = Some tn ->
     undisturbed (m_id m) f d' d2 -> undecidedIn f d2 -> seated f c d = Some e ->
     exists snapshot, processFinishedMatch clk (m_id m) (Some c) d2 =
       (r ← BracketOutcome.decide clk f (en_id e) (mkDecision None RULES None (Some snapshot)); mret (OutcomeDecided r)) d2) /\
  (forall d2 d3 g b' t' a' m', undisturbed (m_id m) f d' d2 -> undecidedIn f d2 -> sound d2 -> (m_id m < db_nextId d2)%N -> g <> f ->
     prepareBracketFixtureMatch rd bd gen t' b' g a' d2 = Ok (m', d3) -> undisturbed (m_id m) f d' d3 /\ undecidedIn f d3) /\
  (forall d2 d3 g e dn r, undisturbed (m_id m) f d' d2 -> undecidedIn f d2 -> sound d2 -> g <> f ->
     (forall s, In s (db_bracketSlots d2) -> sl_fixtureId s = f -> fedBy g s = false) ->
     BracketOutcome.decide clk g e dn d2 = Ok (r, d3) -> undisturbed (m_id m) f d' d3 /\ undecidedIn f d3).
Proof.
  intros H Hs Hrefs; split; [| split].
  - intros d2 m2 tn c e Hm2 Hfin Hfx2 Htn [Usl Uen Ust] (fx2 & Hfind & Hno) He.
    destruct (prepare_ok _ _ _ _ _ _ _ _ _ _ H Hs) as (fx & br & red & blue & st & Hp).
    pose proof (pr_touches _ _ _ _ _ _ _ _ _ _ _ _ _ Hp) as Ht.
    assert (Es : db_bracketSlots d' = db_bracketSlots d) by exact (Ht bracketSlots ltac:(table_notin)).
    assert (Ee : db_bracketEntrants d' = db_bracketEntrants d) by exact (Ht bracketEntrants ltac:(table_notin)).
    unfold fixtureEntrants in Uen; rewrite Usl, Es, Ee in Uen; rewrite Es in Usl.
    destruct (find_first_some _ _ _ Hfind) as [_ Hfid]; apply bool_decide_eq_true in Hfid.
    unfold processFinishedMatch.
    rewrite (bind_step _ _ _ m2 d2) by (apply (find_one_or_throw_total matches); exact Hm2).
    rewrite (bind_step _ _ _ tn d2) by (apply (find_one_or_throw_total tournaments); exact Htn).
    rewrite Hfin, !bool_decide_eq_true_2 by reflexivity; cbn [negb].
    rewrite (bind_step _ _ _ (effectiveColorTotal (m_id m) d2) d2) by reflexivity.
    rewrite (bind_step _ _ _ (List.filter (fun e => (e_matchId e === m_id m) && (e_revertedAt e === None)) (db_scoreEvents d2)) d2) by reflexivity.
    cbv zeta; set (snap := scoreSnapshot _ _ _); exists snap.
    rewrite (bind_step _ _ _ (Some c) d2) by reflexivity; rewrite Hfx2.
    rewrite (bind_step _ _ _ (sort_by Z.of_N (f :: map sl_fixtureId (List.filter (fedBy f) (db_bracketSlots d2)))) d2) by reflexivity.
    rewrite (bind_step _ _ _ fx2 d2) by (apply (find_one_or_throw_total bracketFixtures); exact Hfind).
    unfold decideFinished; rewrite Hfid; set (slots := List.filter (slotsOf f) (db_bracketSlots d)) in *.
    rewrite (bind_step _ _ _ slots d2) by (unfold find_many, gets; rewrite <- Usl; reflexivity).
    rewrite Hno; destruct (find_first_some _ _ _ Hm2) as [_ Hid2]; apply bool_decide_eq_true in Hid2; rewrite Hid2.
    destruct (prepared_seat _ _ _ _ _ _ _ _ _ _ _ _ _ _ _ Hp Hrefs He) as (i & nm & og & Hseat).
    rewrite (bind_step _ _ _ (List.filter (fun a => ma_matchId a === m_id m) (db_matchAthletes d')) d2)
      by (unfold find_many, gets; rewrite <- Ust; reflexivity).
    rewrite (bind_step _ _ _ (List.filter (fun e => existsb (fun s => sl_resolvedEntrantId s === Some (en_id e)) slots) (db_bracketEntrants d)) d2)
      by (unfold find_many, gets; rewrite <- Uen; reflexivity).
    cbv zeta; rewrite Hseat; cbn [mbind option_bind ma_athleteId].
    destruct (winning_slot d f c e red blue (proj1 Hs) (pr_red _ _ _ _ _ _ _ _ _ _ _ _ _ Hp) (pr_blue _ _ _ _ _ _ _ _ _ _ _ _ _ Hp)
      (pr_distinct _ _ _ _ _ _ _ _ _ _ _ _ _ Hp) He) as (s & Hwin & Hres); cbv zeta in Hwin; fold slots in Hwin.
    rewrite Hwin; cbn [mbind option_bind]; rewrite Hres; reflexivity.
  - intros d2 d3 g b' t' a' m' Hu Ho Hs2 Hlt Hne Hg.
    destruct (preparation_undisturbed _ _ _ _ _ _ _ _ _ _ (m_id m) f Hg Hs2 Hlt Hne) as [Hu2 Ho2]; split; [etransitivity; eassumption | auto].
  - intros d2 d3 g e dn r Hu Ho Hs2 Hne Hfeed Hg.
    destruct (decision_undisturbed _ _ _ _ _ _ _ (m_id m) f Hg (proj1 Hs2) Hne Hfeed) as [Hu2 Ho2]; split; [etransitivity; eassumption | auto].
Qed.

(** *** A ready fixture can be prepared *)

(** What a preparation needs. *)
Record preparable (t b f : uuid) (d : DB) (br : BracketRow) (fx : FixtureRow) (red blue : EntrantRow) (st : StaffingRow) : Prop := {
  pp_tournament : exists tn, find_first (fun tn => tn_id tn === t) (db_tournaments d) = Some tn /\ tn_status tn <> TOURNAMENT_ARCHIVED;
  pp_bracket : find_first (activeBracketOf t b) (db_tournamentBrackets d) = Some br;
  pp_fixture : find_first (fun x => (fx_id x === f) && (fx_bracketId x === b)) (db_bracketFixtures d) = Some fx;
  pp_ready : fx_status fx = FIXTURE_READY;
  pp_unprepared : matchOfFixture f d = None;
  pp_red : seated f RED d = Some red;
  pp_blue : seated f BLUE d = Some blue;
  pp_distinct : en_athleteId red <> en_athleteId blue;
  pp_staffing : find_first (fun s => (st_bracketId s === b) && (st_roundNumber s === fx_roundNumber fx))
                  (db_bracketRoundStaffing d) = Some st }.

(** The writes of an attempt. *)
Definition preparationWrites (rd bd : Z) (t b a : uuid) (br : BracketRow) (fx : FixtureRow) (red blue : EntrantRow) (st : StaffingRow)
    (publicId : string) : DbM uuid :=
  created ← create matches (newMatch publicId t (br_weightClassId br) (Some (fx_id fx)) (st_requiredJudgeCount st) rd bd);
  create_many matchAthletes (fun x id => mkMatchAthleteRow id (m_id created) (Some (en_athleteId x.2)) x.1
    (en_snapshotName x.2) (en_snapshotOrganization x.2)) [(RED, red); (BLUE, blue)];;
  _ ← update bracketFixtures (fun f => fx_id f === fx_id fx) (fun f => f <| fx_status := MATCH_PREPARED |>);
  _ ← create auditLogs (fun id => mkAuditRow id (Some (m_id created)) (Some a) None None BRACKET_MATCH_PREPARED
    (JObj [("tournamentId", JId t); ("bracketId", JId b); ("fixtureId", JId (fx_id fx));
           ("publicId", JStr publicId); ("entrantIds", JList [JId (en_id red); JId (en_id blue)]);
           ("athleteIds", JList [JId (en_athleteId red); JId (en_athleteId blue)])]%string));
  mret (m_id created).

Lemma prepareFixtureAs_run rd bd t b f a publicId d br fx red blue st : preparable t b f d br fx red blue st ->
  prepareFixtureAs rd bd t b f a publicId d =
  preparationWrites rd bd t b a br fx red blue st publicId d.
Proof.
  intros [(tn & Htn & Harch) Hbr Hfx Hready Hnone Hred Hblue Hne Hst]; unfold prepareFixtureAs.
  rewrite (bind_step _ _ _ (Some tn) d) by (unfold find_one, gets; f_equal; f_equal; exact Htn).
  rewrite (bind_step _ _ _ tn d) by reflexivity; rewrite (bool_decide_eq_false_2 _ Harch), (bind_step _ _ _ tt d) by reflexivity.
  rewrite (bind_step _ _ _ (Some br) d) by (unfold find_one, gets; f_equal; f_equal; exact Hbr).
  rewrite (bind_step _ _ _ (Some fx) d) by (unfold find_one, gets; f_equal; f_equal; exact Hfx).
  rewrite (bind_step _ _ _ br d), (bind_step _ _ _ fx d) by reflexivity.
  rewrite (bind_step _ _ _ None d) by (unfold gets; rewrite Hnone; reflexivity).
  rewrite (bind_step _ _ _ tt d) by reflexivity; rewrite (bool_decide_eq_true_2 _ Hready), (bind_step _ _ _ tt d) by reflexivity.
  rewrite (bind_step _ _ _ (Some red) d) by (unfold gets; rewrite Hred; reflexivity).
  rewrite (bind_step _ _ _ (Some blue) d) by (unfold gets; rewrite Hblue; reflexivity).
  rewrite (bind_step _ _ _ red d), (bind_step _ _ _ blue d) by reflexivity.
  rewrite (bool_decide_eq_false_2 _ Hne), (bind_step _ _ _ tt d) by reflexivity.
  rewrite (bind_step _ _ _ (Some st) d) by (unfold find_one, gets; f_equal; f_equal; exact Hst).
  rewrite (bind_step _ _ _ st d) by reflexivity.
  destruct (find_first_some _ _ _ Hfx) as [_ Hid]; apply andb_prop in Hid as [Hid _]; apply bool_decide_eq_true in Hid.
  unfold preparationWrites; rewrite Hid; reflexivity.
Qed.

(** A public id in use refuses the insert. *)
Lemma used_public_id rd bd t b a br fx red blue st publicId d : wf d ->
  existsb (fun m => m_publicId m === publicId) (db_matches d) = true ->
  preparationWrites rd bd t b a br fx red blue st publicId d = Err UniqueViolation.
Proof.
  intros Hwf Hused; unfold preparationWrites; apply bind_err; unfold create; cbv zeta.
  set (row := newMatch _ _ _ _ _ _ _ _).
  destruct (table_ok _ _) eqn:E.
  - apply table_ok_true in E as (_ & _ & E); apply andb_prop in E as [E _].
    apply existsb_exists in Hused as (m & Hm & Hp); apply bool_decide_eq_true in Hp.
    destruct (unique_by_app _ _ _ publicId E eq_refl m Hm); rewrite Hp; reflexivity.
  - unfold table_error; specialize (Hwf matches); apply table_ok_true in Hwf as (Hrows & _ & _).
    rewrite forallb_app, Hrows; reflexivity.
Qed.

(** The key of an index survives a row with a new key. *)
Lemma seats_indexed (l : list MatchAthleteRow) r : indexes_ok matchAthletes l = true ->
  (forall y, In y l -> ma_matchId y = ma_matchId r -> ma_color y <> ma_color r) -> indexes_ok matchAthletes (l ++ [r]) = true.
Proof. intros Hl Hr; apply unique_by_snoc; [exact Hl |]; intros y k Hy [= <-] [= E1 E2]; apply (Hr y Hy); congruence. Qed.

Lemma seats_created d m (red blue : EntrantRow) : sound d -> (forall y, In y (db_matchAthletes d) -> ma_matchId y <> m) ->
  exists d', create_many matchAthletes (fun x id => mkMatchAthleteRow id m (Some (en_athleteId x.2)) x.1
    (en_snapshotName x.2) (en_snapshotOrganization x.2)) [(RED, red); (BLUE, blue)] d = Ok (tt, d') /\
    sound d' /\ touches [matchAthletes] d d'.
Proof.
  intros Hs Hno; unfold create_many; cbn [for_each fst snd].
  destruct (create_sound matchAthletes (fun id => mkMatchAthleteRow id m (Some (en_athleteId red)) RED
    (en_snapshotName red) (en_snapshotOrganization red)) d Hs) as (d1 & E1 & Ed1 & Hs1); [reflexivity | reflexivity | |].
  { apply seats_indexed; [exact (proj2 (proj2 (proj1 (table_ok_true _ _) (proj1 Hs matchAthletes)))) |].
    intros y Hy E; destruct (Hno y Hy E). }
  destruct (create_sound matchAthletes (fun id => mkMatchAthleteRow id m (Some (en_athleteId blue)) BLUE
    (en_snapshotName blue) (en_snapshotOrganization blue)) d1 Hs1) as (d2 & E2 & Ed2 & Hs2); [reflexivity | reflexivity | |].
  { apply seats_indexed; [exact (proj2 (proj2 (proj1 (table_ok_true _ _) (proj1 Hs1 matchAthletes)))) |].
    rewrite Ed1, get_put_same; intros y [Hy | [<- | []]]%in_app_or E; [destruct (Hno y Hy E) | discriminate]. }
  exists d2; split; [| split; [exact Hs2 |]].
  - rewrite (bind_step _ _ _ tt d1) by (rewrite (bind_step _ _ _ _ _ E1); reflexivity).
    rewrite (bind_step _ _ _ tt d2) by (rewrite (bind_step _ _ _ _ _ E2); reflexivity); reflexivity.
  - intros T HT; assert (T <> matchAthletes) by (intros ->; apply HT; table_in).
    rewrite Ed2, get_put_other, get_nextId, Ed1, get_put_other, get_nextId by assumption; reflexivity.
Qed.

Lemma preparationWrites_total rd bd t b a d br fx red blue st publicId : sound d -> seat_refs d ->
  In fx (db_bracketFixtures d) -> matchOfFixture (fx_id fx) d = None ->
  existsb (fun m => m_publicId m === publicId) (db_matches d) = false ->
  exists d', preparationWrites rd bd t b a br fx red blue st publicId d = Ok (db_nextId d, d').
Proof.
  intros Hs Hrefs Hfx Hnone Hpid; unfold preparationWrites.
  destruct (create_sound matches (newMatch publicId t (br_weightClassId br) (Some (fx_id fx)) (st_requiredJudgeCount st) rd bd) d Hs)
    as (d1 & E1 & Ed1 & Hs1); [reflexivity | reflexivity | |].
  { pose proof (proj2 (proj2 (proj1 (table_ok_true _ _) (proj1 Hs matches)))) as Hix; apply andb_prop in Hix as [Hix1 Hix2].
    apply andb_true_iff; split; (apply unique_by_snoc; [assumption |]); intros y k Hy Hk Hk'.
    - injection Hk as <-; injection Hk' as Hk'; apply existsb_none with (x := y) in Hpid; [| exact Hy].
      apply bool_decide_eq_false in Hpid; congruence.
    - unfold matchOfFixture in Hnone; rewrite find_first_none in Hnone; specialize (Hnone y Hy).
      apply bool_decide_eq_false in Hnone; cbn in Hk'; congruence. }
  rewrite (bind_step _ _ _ _ _ E1).
  destruct (seats_created d1 (db_nextId d) red blue Hs1) as (d2 & E2 & Hs2 & Ht2).
  { change (db_matchAthletes d1) with (get matchAthletes d1); rewrite Ed1, get_put_other, get_nextId by discriminate.
    intros y Hy E; specialize (Hrefs y Hy); lia. }
  change (m_id (newMatch _ _ _ _ _ _ _ ?i)) with i; rewrite (bind_step _ _ _ _ _ E2).
  assert (Hf2 : get bracketFixtures d2 = get bracketFixtures d)
    by (rewrite (Ht2 bracketFixtures ltac:(table_notin)), Ed1, get_put_other, get_nextId by discriminate; reflexivity).
  destruct (find_first (fun f => fx_id f === fx_id fx) (db_bracketFixtures d)) as [x |] eqn:Ex.
  2: { rewrite find_first_none in Ex; specialize (Ex fx Hfx); apply bool_decide_eq_false in Ex; congruence. }
  fwd_update bracketFixtures x (eq_trans (f_equal (find_first (fun f : FixtureRow => fx_id f === fx_id fx)) Hf2) Ex).
  fwd_create auditLogs; [reflexivity | reflexivity |]; eexists; reflexivity.
Qed.

(** Preparing a ready fixture of an active bracket succeeds whenever one of the eight generated public
    ids is free: the ids in use are skipped and the match carries the first free one. *)
Theorem prepare_succeeds rd bd gen t b f a d br fx red blue st j :
  preparable t b f d br fx red blue st -> sound d -> seat_refs d -> (1 <= j <= PUBLIC_ID_GENERATION_ATTEMPTS)%nat ->
  (forall i, (1 <= i < j)%nat -> existsb (fun m => m_publicId m === gen i) (db_matches d) = true) ->
  existsb (fun m => m_publicId m === gen j) (db_matches d) = false ->
  exists m d', prepareBracketFixtureMatch rd bd gen t b f a d = Ok (m, d') /\ m_publicId m = gen j /\ m_id m = db_nextId d.
Proof.
  intros Hp Hs Hrefs Hj Hused Hfree.
  destruct (find_first_some _ _ _ (pp_fixture _ _ _ _ _ _ _ _ _ Hp)) as [Hfx Hid]; apply andb_prop in Hid as [Hid _]; apply bool_decide_eq_true in Hid.
  destruct (preparationWrites_total rd bd t b a d br fx red blue st (gen j) Hs Hrefs Hfx)
    as (d' & Hw); [rewrite Hid; apply Hp | exact Hfree |].
  rewrite <- (prepareFixtureAs_run rd bd t b f a (gen j) d br fx red blue st Hp) in Hw.
  destruct (prepareFixtureAs_ok _ _ _ _ _ _ _ _ _ _ Hw) as (m & fx' & br' & red' & blue' & st' & Hok & Hmid & Hpid).
  assert (Hget : getMatch (db_nextId d) d' = Ok (m, d')).
  { unfold getMatch; rewrite (bind_step _ _ _ (Some m) d'); [reflexivity |]; unfold find_one, gets; f_equal; f_equal.
    change (get matches d') with (db_matches d'); rewrite (pr_matches _ _ _ _ _ _ _ _ _ _ _ _ _ Hok), find_first_app.
    match goal with |- context [find_first ?p ?l] => destruct (find_first p l) as [y |] eqn:Ey end.
    - apply find_first_some in Ey as [Hy Ey]; apply bool_decide_eq_true in Ey.
      pose proof (proj2 Hs matches y (m_id y) Hy eq_refl); lia.
    - cbn; rewrite bool_decide_eq_true_2 by exact Hmid; reflexivity. }
  exists m, d'; split; [| split; [exact Hpid | exact Hmid]].
  unfold prepareBracketFixtureMatch; rewrite withPublicId_skips with (j := j).
  - rewrite (bind_step _ _ _ _ _ Hw); exact Hget.
  - unfold PUBLIC_ID_GENERATION_ATTEMPTS in *; lia.
  - intros i Hi; split; [| apply Hused, Hi]; apply bind_err.
    rewrite (prepareFixtureAs_run _ _ _ _ _ _ _ _ _ _ _ _ _ Hp); apply used_public_id; [apply Hs | apply Hused, Hi].
  - exists (m, d'); rewrite (bind_step _ _ _ _ _ Hw); exact Hget.
Qed.

(** *** Staffing *)

Lemma resolved_rules code d rules d' : resolveRulesConflict code d = Ok (rules, d') ->
  rules = oneOnOneCombatRules /\ d' = d /\ code = "ONE_ON_ONE_COMBAT"%string.
Proof.
  intros H; apply rethrow_ok in H; unfold resolveRules, registry in H; cbn [find_first fst] in H.
  destruct (Rules.code oneOnOneCombatRules === code) eqn:E; [| discriminate].
  apply bool_decide_eq_true in E; apply ret_ok in H as [<- <-]; auto.
Qed.

Lemma updateStaffing_ok t w n k a d st lbl c d' : updateStaffing t w n k a d = Ok ((st, lbl, c), d') ->
  exists br old, find_first (fun b => (br_tournamentId b === t) && (br_weightClassId b === w) && (br_status b === BRACKET_ACTIVE))
    (db_tournamentBrackets d) = Some br /\
  find_first (fun s => (st_bracketId s === br_id br) && (st_roundNumber s === n)) (db_bracketRoundStaffing d) = Some old /\
  find_first (staffingLocked (br_id br) n) (db_bracketFixtures d) = None /\
  staffingInvalid oneOnOneCombatRules k c = false /\ c = Z.of_nat (length (List.filter (activeJudgeOf t) (db_tournamentOfficials d))) /\
  (sound d -> st = old <| st_requiredJudgeCount := k |>) /\
  db_bracketRoundStaffing d' = map_where (fun s => st_id s === st_id old) (fun s => s <| st_requiredJudgeCount := k |>)
    (db_bracketRoundStaffing d) /\
  touches [bracketRoundStaffing; auditLogs] d d'.
Proof.
  intros H.
  assert (Ht : touches [bracketRoundStaffing; auditLogs] d d').
  { assert (Hr : respects (touches [bracketRoundStaffing; auditLogs]) (updateStaffing t w n k a))
      by (unfold updateStaffing, resolveRulesConflict, resolveRules; respects_auto); exact (Hr _ _ _ H). }
  unfold updateStaffing in H.
  apply bind_ok in H as (tn & d1 & Hx & H); apply gets_ok in Hx as [Htn ->].
  apply bind_ok in H as (tn' & d1 & Hx & H); apply or_throw_ok in Hx as [_ ->].
  apply bind_ok in H as (u & d1 & Hx & H); apply throw_if_ok in Hx as [_ ->].
  apply bind_ok in H as (rules & d1 & Hx & H); apply resolved_rules in Hx as (-> & -> & _).
  apply bind_ok in H as (br & d1 & Hx & H); apply gets_ok in Hx as [Hbr ->].
  apply bind_ok in H as (br' & d1 & Hx & H); apply or_throw_ok in Hx as [-> ->].
  apply bind_ok in H as (o & d1 & Hx & H); apply gets_ok in Hx as [Ho ->].
  apply bind_ok in H as (old & d1 & Hx & H); apply or_throw_ok in Hx as [-> ->].
  apply bind_ok in H as (lk & d1 & Hx & H); apply gets_ok in Hx as [Hlk ->].
  apply bind_ok in H as (u2 & d1 & Hx & H); apply throw_if_ok in Hx as [Hnone ->].
  apply bind_ok in H as (c' & d1 & Hx & H); apply gets_ok in Hx as [Hc ->].
  apply bind_ok in H as (u3 & d1 & Hx & H); apply throw_if_ok in Hx as [Hinv ->].
  apply bind_ok in H as (up & d1 & Hx & H); apply (update_ok bracketRoundStaffing) in Hx as (x & Hx & Hup & _ & Hd1).
  apply bind_ok in H as (au & d2 & Hau & H); apply (create_ok auditLogs) in Hau as (_ & _ & Hd2).
  apply ret_ok in H as [[= <- _ <-] <-].
  exists br', old; split; [symmetry; exact Hbr |]; split; [symmetry; exact Ho |]; split.
  { destruct lk; [discriminate | symmetry; exact Hlk]. }
  split; [exact Hinv |]; split; [exact Hc |]; split; [| split; [| exact Ht]].
  - intros Hs; assert (x = old) as ->; [| exact Hup].
    apply find_first_some in Hx as [Hin Hid]; apply bool_decide_eq_true in Hid.
    symmetry in Ho; apply find_first_some in Ho as [Hin' _].
    apply (wf_id bracketRoundStaffing d x old (st_id old) (proj1 Hs) Hin Hin'); cbn; congruence.
  - change (db_bracketRoundStaffing d2) with (get bracketRoundStaffing d2).
    rewrite Hd2, get_put_other, get_nextId by discriminate; rewrite Hd1, get_put_same; reflexivity.
Qed.

(** A round of a bracket is only staffed with an odd number of judges, at least three and no more
    than the tournament has active ones, and only while none of its fixtures has or had a match;
    exactly the row of that round changes. *)
Theorem staffing_within_policy t w n k a d st lbl c d' : updateStaffing t w n k a d = Ok ((st, lbl, c), d') -> sound d ->
  3 <= k /\ Z.odd k = true /\ k <= Z.of_nat (length (List.filter (activeJudgeOf t) (db_tournamentOfficials d))) /\
  st_requiredJudgeCount st = k /\ st_roundNumber st = n /\
  (forall f, In f (db_bracketFixtures d) -> fx_bracketId f = st_bracketId st -> fx_roundNumber f = n ->
     fx_status f = PENDING_PARTICIPANTS \/ fx_status f = FIXTURE_READY) /\
  db_bracketRoundStaffing d' = map_where (fun s => st_id s === st_id st) (fun s => s <| st_requiredJudgeCount := k |>)
    (db_bracketRoundStaffing d) /\
  touches [bracketRoundStaffing; auditLogs] d d'.
Proof.
  intros H Hs; destruct (updateStaffing_ok _ _ _ _ _ _ _ _ _ _ H) as (br & old & _ & Hold & Hlk & Hinv & Hc & Hst & Hrows & Ht).
  rewrite (Hst Hs); unfold staffingInvalid in Hinv; cbn in Hinv.
  rewrite !orb_false_iff, Z.ltb_ge, Z.ltb_ge, Z.eqb_neq in Hinv; destruct Hinv as [[Hmin Hodd] Hmax].
  apply find_first_some in Hold as [_ Hold]; apply andb_prop in Hold as [Hb Hn]; apply bool_decide_eq_true in Hb, Hn.
  split; [exact Hmin |]; split.
  { rewrite Z.rem_mod_nonneg, Zmod_odd in Hodd by lia; destruct (Z.odd k); congruence. }
  split; [congruence || lia |]; split; [reflexivity |]; split; [exact Hn |]; split; [| split; [exact Hrows | exact Ht]].
  intros f Hf Hfb Hfn; rewrite find_first_none in Hlk; specialize (Hlk f Hf); unfold staffingLocked in Hlk.
  change (st_bracketId (old <| st_requiredJudgeCount := k |>)) with (st_bracketId old) in Hfb.
  rewrite (bool_decide_eq_true_2 (fx_bracketId f = br_id br)), (bool_decide_eq_true_2 (fx_roundNumber f = n)) in Hlk by congruence.
  destruct (fx_status f); auto; discriminate.
Qed.

(** The active bracket of a class is found by its class. *)
Lemma active_bracket_unique d t br : wf d -> In br (db_tournamentBrackets d) -> br_tournamentId br = t -> br_status br = BRACKET_ACTIVE ->
  find_first (fun b => (br_tournamentId b === t) && (br_weightClassId b === br_weightClassId br) && (br_status b === BRACKET_ACTIVE))
    (db_tournamentBrackets d) = Some br.
Proof.
  intros Hwf Hbr Et Ea.
  match goal with |- find_first ?p ?l = _ => destruct (find_first p l) as [y |] eqn:Ey end.
  - apply find_first_some in Ey as [Hy E]; apply andb_prop in E as [E E3]; apply andb_prop in E as [E1 E2].
    apply bool_decide_eq_true in E1, E2, E3.
    pose proof (proj2 (proj2 (proj1 (table_ok_true _ _) (Hwf tournamentBrackets)))) as Hix.
    apply andb_prop in Hix as [Hix _]; f_equal.
    apply (unique_by_inj current_bracket_key _ y br (t, br_weightClassId br) Hix Hy Hbr);
      unfold current_bracket_key; rewrite bool_decide_eq_false_2 by congruence; congruence.
  - rewrite find_first_none in Ey; specialize (Ey br Hbr); rewrite !bool_decide_eq_true_2 in Ey by (assumption || reflexivity); discriminate.
Qed.

(** Preparing a match freezes the staffing of its round: afterwards no number of judges is accepted
    for it. *)
Theorem prepare_freezes_staffing rd bd gen t b f a d m d' tn k a2 :
  prepareBracketFixtureMatch rd bd gen t b f a d = Ok (m, d') -> sound d ->
  find_first (fun tn => (tn_id tn === t) && (tn_softDeletedAt tn === None)) (db_tournaments d) = Some tn ->
  tn_sportGroupCode tn = "ONE_ON_ONE_COMBAT"%string ->
  exists w n, m_weightClassId m = Some w /\ (exists x, In x (db_bracketFixtures d) /\ fx_id x = f /\ fx_roundNumber x = n) /\
  updateStaffing t w n k a2 d' = Err (Conflict "BRACKET_ROUND_STAFFING_LOCKED").
Proof.
  intros H Hs Htn Hcode; destruct (prepare_ok _ _ _ _ _ _ _ _ _ _ H Hs) as (fx & br & red & blue & st & Hp).
  destruct (pr_match _ _ _ _ _ _ _ _ _ _ _ _ _ Hp) as (pid & Hm).
  destruct (pr_tournament _ _ _ _ _ _ _ _ _ _ _ _ _ Hp) as (tn' & Htn' & Harch).
  assert (tn' = tn) as ->.
  { apply find_first_some in Htn as [Hin E]; apply andb_prop in E as [E _]; apply bool_decide_eq_true in E.
    apply find_first_some in Htn' as [Hin' E']; apply bool_decide_eq_true in E'.
    apply (wf_id tournaments d tn' tn t (proj1 Hs) Hin' Hin); cbn; congruence. }
  destruct (find_first_some _ _ _ (pr_fixture _ _ _ _ _ _ _ _ _ _ _ _ _ Hp)) as [Hfx E]; apply andb_prop in E as [Efx Efb].
  destruct (find_first_some _ _ _ (pr_bracket _ _ _ _ _ _ _ _ _ _ _ _ _ Hp)) as [Hbr E]; unfold activeBracketOf in E.
  apply andb_prop in E as [E Ea]; apply andb_prop in E as [Eb Et].
  apply bool_decide_eq_true in Efx, Efb, Eb, Et, Ea.
  assert (Hkeep : forall T, T ∈ [tournaments; tournamentBrackets; bracketRoundStaffing] -> get T d' = get T d)
    by (intros T HT; apply (pr_touches _ _ _ _ _ _ _ _ _ _ _ _ _ Hp); set_solver).
  exists (br_weightClassId br), (fx_roundNumber fx); split; [rewrite Hm; reflexivity |]; split; [eauto |].
  unfold updateStaffing.
  rewrite (bind_step _ _ _ (Some tn) d') by (unfold find_one, gets; rewrite (Hkeep tournaments) by table_in; f_equal; f_equal; exact Htn).
  rewrite (bind_step _ _ _ tn d') by reflexivity; rewrite (bool_decide_eq_false_2 _ Harch), (bind_step _ _ _ tt d') by reflexivity.
  rewrite Hcode, (bind_step _ _ _ oneOnOneCombatRules d') by reflexivity.
  assert (Hfb : find_one tournamentBrackets (fun b => (br_tournamentId b === t) && (br_weightClassId b === br_weightClassId br) &&
    (br_status b === BRACKET_ACTIVE)) d' = Ok (Some br, d')).
  { unfold find_one, gets; rewrite (Hkeep tournamentBrackets) by table_in; f_equal; f_equal.
    apply (active_bracket_unique d t br (proj1 Hs) Hbr Et Ea). }
  rewrite (bind_step _ _ _ _ _ Hfb), (bind_step _ _ _ br d') by reflexivity.
  assert (Hfs : find_one bracketRoundStaffing (fun s => (st_bracketId s === br_id br) && (st_roundNumber s === fx_roundNumber fx)) d' = Ok (Some st, d')).
  { unfold find_one, gets; rewrite (Hkeep bracketRoundStaffing) by table_in; f_equal; f_equal; rewrite Eb.
    exact (pr_staffing _ _ _ _ _ _ _ _ _ _ _ _ _ Hp). }
  rewrite (bind_step _ _ _ _ _ Hfs), (bind_step _ _ _ st d') by reflexivity.
  destruct (find_first (staffingLocked (br_id br) (fx_roundNumber fx)) (db_bracketFixtures d')) as [y |] eqn:Ey.
  - rewrite (bind_step _ _ _ (Some y) d') by (unfold find_one, gets; f_equal; f_equal; exact Ey); reflexivity.
  - rewrite find_first_none in Ey; rewrite (pr_fixtures _ _ _ _ _ _ _ _ _ _ _ _ _ Hp) in Ey.
    specialize (Ey (fx <| fx_status := MATCH_PREPARED |>)); unfold staffingLocked in Ey; cbn in Ey.
    rewrite !bool_decide_eq_true_2 in Ey by congruence; cbn in Ey; discriminate Ey.
    apply in_map_iff; exists fx; rewrite bool_decide_eq_true_2 by exact Efx; auto.
Qed.

(** *** Cancellation *)

Lemma cancelled_bracket_ok b at_ : bracket_ok b = true ->
  bracket_ok (b <| br_status := BRACKET_STATUS_CANCELLED |> <| br_cancelledAt := Some at_ |>) = negb (set_ (br_completedAt b)).
Proof.
  unfold bracket_ok; cbn [br_status br_completedAt br_cancelledAt br_athleteCount br_bracketSize br_roundCount set_]; cbn.
  intros H; rewrite !andb_true_iff in H; destruct H as [[[[_ _] H1] H2] H3]; rewrite H1, H2, H3, !andb_true_r.
  destruct (set_ (br_completedAt b)); reflexivity.
Qed.

(** The bracket of a row id. *)
Lemma bracket_by_id d b x : wf d -> In b (db_tournamentBrackets d) -> In x (db_tournamentBrackets d) -> br_id x = br_id b -> x = b.
Proof. intros Hwf Hb Hx E; apply (wf_id tournamentBrackets d x b (br_id b) Hwf Hx Hb); cbn; congruence. Qed.

(** Cancelling a bracket is possible only while none of its fixtures has a match; it keeps the bracket
    as cancelled, leaves the weight class free for a new draw and changes nothing but that row. *)
Theorem cancel_frees_class clk t w a reason d r d' : cancelBracket clk t w a reason d = Ok (r, d') -> sound d ->
  exists b, find_first (currentBracket t w) (db_tournamentBrackets d) = Some b /\ bracketMatches (br_id b) d = [] /\
  br_status b = BRACKET_ACTIVE /\ find_first (currentBracket t w) (db_tournamentBrackets d') = None /\
  db_tournamentBrackets d' = map_where (fun x => br_id x === br_id b)
    (fun x => x <| br_status := BRACKET_STATUS_CANCELLED |> <| br_cancelledAt := Some (jsNow clk 0) |>) (db_tournamentBrackets d) /\
  touches [tournamentBrackets; auditLogs] d d'.
Proof.
  intros H Hs.
  assert (Ht : touches [tournamentBrackets; auditLogs] d d').
  { assert (Hr : respects (touches [tournamentBrackets; auditLogs]) (cancelBracket clk t w a reason))
      by (unfold cancelBracket; respects_auto); exact (Hr _ _ _ H). }
  unfold cancelBracket in H.
  apply bind_ok in H as (o & d1 & Hx & H); apply gets_ok in Hx as [Hb ->].
  apply bind_ok in H as (b & d1 & Hx & H); apply or_throw_ok in Hx as [-> ->]; symmetry in Hb.
  apply bind_ok in H as (l & d1 & Hx & H); apply gets_ok in Hx as [Hl ->].
  apply bind_ok in H as (u & d1 & Hx & H); apply throw_if_ok in Hx as [Hempty ->].
  apply bind_ok in H as (x & d1 & Hx & H); apply (update_ok tournamentBrackets) in Hx as (b' & Hb' & _ & Hok & Hd1).
  apply bind_ok in H as (au & d2 & Hau & H); apply (create_ok auditLogs) in Hau as (_ & _ & Hd2); apply ret_ok in H as [_ <-].
  destruct (find_first_some _ _ _ Hb) as [Hin Hcur]; unfold currentBracket in Hcur.
  assert (Hrows : db_tournamentBrackets d2 = map_where (fun x => br_id x === br_id b)
    (fun x => x <| br_status := BRACKET_STATUS_CANCELLED |> <| br_cancelledAt := Some (jsNow clk 0) |>) (db_tournamentBrackets d)).
  { change (db_tournamentBrackets d2) with (get tournamentBrackets d2).
    rewrite Hd2, get_put_other, get_nextId by discriminate; rewrite Hd1, get_put_same; reflexivity. }
  exists b; split; [exact Hb |]; split; [rewrite <- Hl; destruct l; [reflexivity | discriminate] |]; split; [| split; [| split; [exact Hrows | exact Ht]]].
  - apply table_ok_true in Hok as (Hall & _ & _); rewrite forallb_forall in Hall.
    specialize (Hall (b <| br_status := BRACKET_STATUS_CANCELLED |> <| br_cancelledAt := Some (jsNow clk 0) |>)).
    assert (E : bracket_ok (b <| br_status := BRACKET_STATUS_CANCELLED |> <| br_cancelledAt := Some (jsNow clk 0) |>) = true)
      by (apply Hall, in_map_iff; exists b; rewrite bool_decide_eq_true_2 by reflexivity; auto).
    pose proof (wf_row tournamentBrackets d b (proj1 Hs) Hin) as Hrow; rewrite cancelled_bracket_ok in E by exact Hrow.
    change (bracket_ok b = true) in Hrow; unfold bracket_ok in Hrow; rewrite !andb_true_iff in Hrow; destruct Hrow as [[[[H1 _] _] _] _].
    apply andb_prop in Hcur as [_ Hst]; destruct (br_status b); [reflexivity | | discriminate].
    destruct (set_ (br_completedAt b)); [discriminate E | discriminate H1].
  - rewrite Hrows; apply find_first_none; intros y Hy; apply in_map_where in Hy as (x0 & Hx0 & ->).
    destruct (br_id x0 === br_id b) eqn:E; [apply andb_false_r |].
    destruct (currentBracket t w x0) eqn:Ec; [| reflexivity]; exfalso; apply bool_decide_eq_false in E; apply E; f_equal.
    unfold currentBracket in Ec; to_prop.
    pose proof (proj2 (proj2 (proj1 (table_ok_true _ _) (proj1 Hs tournamentBrackets)))) as Hix; apply andb_prop in Hix as [Hix _].
    assert (Hkey : forall z, (br_status z === BRACKET_ACTIVE) || (br_status z === BRACKET_STATUS_COMPLETED) = true ->
      current_bracket_key z = Some (br_tournamentId z, br_weightClassId z)).
    { intros z Hz; unfold current_bracket_key; destruct (br_status z); [reflexivity | reflexivity | discriminate]. }
    apply (unique_by_inj current_bracket_key _ x0 b (br_tournamentId b, br_weightClassId b) Hix Hx0 Hin); rewrite Hkey by assumption; congruence.
Qed.

(** A completed bracket without matches, such as one decided by withdrawals alone, cannot be cancelled: the
    request always fails on the check of the bracket's timestamps, an internal error. *)
Theorem completed_bracket_uncancellable clk t w a reason d b : sound d ->
  find_first (currentBracket t w) (db_tournamentBrackets d) = Some b -> br_status b = BRACKET_STATUS_COMPLETED ->
  bracketMatches (br_id b) d = [] -> cancelBracket clk t w a reason d = Err CheckViolation.
Proof.
  intros Hs Hb Hst Hnone; destruct (find_first_some _ _ _ Hb) as [Hin _]; unfold cancelBracket.
  rewrite (bind_step _ _ _ (Some b) d) by (unfold find_one, gets; f_equal; f_equal; exact Hb).
  rewrite (bind_step _ _ _ b d) by reflexivity.
  rewrite (bind_step _ _ _ [] d) by (unfold gets; rewrite Hnone; reflexivity); rewrite (bind_step _ _ _ tt d) by reflexivity.
  cbv zeta; apply bind_err; unfold update.
  rewrite (bind_step _ _ _ b d).
  2: { apply (find_one_or_throw_total tournamentBrackets).
       match goal with |- find_first ?p ?l = _ => destruct (find_first p l) as [y |] eqn:Ey end.
       - apply find_first_some in Ey as [Hy E]; apply bool_decide_eq_true in E; f_equal; exact (bracket_by_id d b y (proj1 Hs) Hin Hy E).
       - rewrite find_first_none in Ey; specialize (Ey b Hin); apply bool_decide_eq_false in Ey; congruence. }
  apply bind_err; unfold update_many; cbv zeta.
  set (l := map_where _ _ _).
  assert (Hbad : forallb (row_ok tournamentBrackets) l = false).
  { apply not_true_is_false; intros Hall; rewrite forallb_forall in Hall.
    specialize (Hall (b <| br_status := BRACKET_STATUS_CANCELLED |> <| br_cancelledAt := Some (jsNow clk 0) |>)).
    assert (E : bracket_ok (b <| br_status := BRACKET_STATUS_CANCELLED |> <| br_cancelledAt := Some (jsNow clk 0) |>) = true)
      by (apply Hall, in_map_iff; exists b; rewrite bool_decide_eq_true_2 by reflexivity; auto).
    pose proof (wf_row tournamentBrackets d b (proj1 Hs) Hin) as Hrow; rewrite cancelled_bracket_ok in E by exact Hrow.
    change (bracket_ok b = true) in Hrow; unfold bracket_ok in Hrow; rewrite Hst, !andb_true_iff in Hrow; destruct Hrow as [[[[H1 _] _] _] _].
    destruct (set_ (br_completedAt b)); [discriminate E | discriminate H1]. }
  destruct (table_ok _ _) eqn:E; [apply table_ok_true in E as (E & _); congruence |].
  unfold table_error; rewrite Hbad; reflexivity.
Qed.

(** *** Replacing athletes *)

Lemma assertAthleteColors_ok l d u d' : assertAthleteColors l [RED; BLUE] d = Ok (u, d') ->
  d' = d /\ Permutation (map md_color l) [RED; BLUE] /\ NoDup (map md_athleteId l).
Proof.
  intros H; apply bind_ok in H as (v & d1 & Hx & H); apply throw_if_ok in Hx as [Hc ->]; apply throw_if_ok in H as [Hd ->].
  apply negb_false_iff, bool_decide_eq_true in Hd; split; [reflexivity |]; split; [| exact Hd].
  destruct l as [| [[] x] [| [[] y] [| ? ?]]]; try discriminate; cbn; [reflexivity | apply Permutation_swap].
Qed.

(** The selected rows are those of the selection, each once. *)
Lemma selected_complete d (t : uuid) (ids : list uuid) : wf d -> NoDup ids ->
  let selected := List.filter (fun a => bool_decide (at_id a ∈ ids) && (at_tournamentId a === t)) (db_tournamentAthletes d) in
  length selected = length ids ->
  forall i, In i ids -> exists a, find_first (fun a => at_id a === i) selected = Some a /\ In a selected /\ at_id a = i.
Proof.
  intros Hwf Hn selected Hlen i Hi.
  assert (Hnd : NoDup (map at_id selected)).
  { apply (unique_by_filter (row_id tournamentAthletes)); [| reflexivity].
    exact (proj1 (proj2 (proj1 (table_ok_true _ _) (Hwf tournamentAthletes)))). }
  assert (Hsub : map at_id selected ⊆+ ids).
  { apply NoDup_submseteq; [exact Hnd |]; intros x Hx; apply list_elem_of_In, in_map_iff in Hx as (y & <- & Hy).
    apply filter_In in Hy as [_ Hy]; apply andb_prop in Hy as [Hy _]; apply bool_decide_eq_true in Hy; exact Hy. }
  assert (Hp : Permutation (map at_id selected) ids)
    by (apply submseteq_length_Permutation; [exact Hsub | rewrite length_map; lia]).
  apply (Permutation_in _ (Permutation_sym Hp)) in Hi; apply in_map_iff in Hi as (a & Ha & Hin).
  destruct (find_first (fun a => at_id a === i) selected) as [y |] eqn:Ey.
  - apply find_first_some in Ey as Hy; destruct Hy as [Hy E]; apply bool_decide_eq_true in E; exists y; auto.
  - rewrite find_first_none in Ey; specialize (Ey a Hin); apply bool_decide_eq_false in Ey; congruence.
Qed.

Lemma remove_dups_single {A} `{EqDecision A} (l : list A) : length (remove_dups l) = 1%nat -> exists w, forall x, In x l -> x = w.
Proof.
  intros H; destruct (remove_dups l) as [| w [| ? ?]] eqn:E; try discriminate; exists w; intros x Hx.
  apply list_elem_of_In, elem_of_remove_dups in Hx; rewrite E in Hx; apply list_elem_of_singleton in Hx; exact Hx.
Qed.

Lemma prepareRosterAthletes_ok t sel d l d' : prepareRosterAthletes t sel d = Ok (l, d') -> wf d -> NoDup (map md_athleteId sel) ->
  d' = d /\ exists w, map pa_color l = map md_color sel /\ (forall p, In p l -> pa_weightClassId p = w) /\
  forall s, In s sel -> exists p a, In p l /\ pa_color p = md_color s /\ pa_athleteId p = md_athleteId s /\ pa_name p = at_name a /\
    In a (db_tournamentAthletes d) /\ at_id a = md_athleteId s /\ at_tournamentId a = t /\ at_isActive a = true /\ at_weightClassId a = w.
Proof.
  intros H Hwf Hn; unfold prepareRosterAthletes in H.
  apply bind_ok in H as (selected & d1 & Hx & H); apply gets_ok in Hx as [Hsel ->].
  apply bind_ok in H as (u1 & d1 & Hx & H); apply throw_if_ok in Hx as [Hlen ->].
  apply bind_ok in H as (u2 & d1 & Hx & H); apply throw_if_ok in Hx as [Hact ->].
  apply bind_ok in H as (ac & d1 & Hx & H); apply gets_ok in Hx as [_ ->].
  apply bind_ok in H as (u3 & d1 & Hx & H); apply throw_if_ok in Hx as [_ ->].
  apply bind_ok in H as (org & d1 & Hx & H); apply gets_ok in Hx as [_ ->].
  apply bind_ok in H as (u4 & d1 & Hx & H); apply throw_if_ok in Hx as [_ ->].
  apply bind_ok in H as (u5 & d1 & Hx & H); apply throw_if_ok in Hx as [Hone ->]; apply ret_ok in H as [<- <-].
  apply negb_false_iff, Nat.eqb_eq in Hlen, Hone; split; [reflexivity |].
  destruct (remove_dups_single _ Hone) as [w Hw]; exists w.
  assert (Hall : forall s, In s sel -> exists a, find_first (fun a => at_id a === md_athleteId s) selected = Some a /\ In a selected /\ at_id a = md_athleteId s).
  { intros s Hs; rewrite Hsel; apply (selected_complete d t (map md_athleteId sel) Hwf Hn); [| apply in_map, Hs].
    etransitivity; [exact (f_equal length (eq_sym Hsel)) | rewrite length_map; exact Hlen]. }
  assert (Hin : forall a, In a selected -> In a (db_tournamentAthletes d) /\ at_tournamentId a = t).
  { intros a Ha; rewrite Hsel in Ha; apply filter_In in Ha as [Ha E]; apply andb_prop in E as [_ E]; apply bool_decide_eq_true in E; auto. }
  set (mk := fun s => option_map _ (find_first (fun a => at_id a === md_athleteId s) selected)).
  assert (Hmk : forall s, In s sel -> exists a, mk s = Some (mkPreparedAthlete (md_color s) (md_athleteId s) (at_name a)
      (option_map og_name (org a)) (at_weightClassId a)) /\ In a selected /\ at_id a = md_athleteId s).
  { intros s Hs; destruct (Hall s Hs) as (a & Ha & Hia & Hid); exists a; unfold mk; rewrite Ha; auto. }
  assert (Hback : forall p, In p (omap mk sel) -> exists s a, In s sel /\ In a selected /\ mk s = Some p /\
      p = mkPreparedAthlete (md_color s) (md_athleteId s) (at_name a) (option_map og_name (org a)) (at_weightClassId a)).
  { intros p Hp; apply list_elem_of_In, list_elem_of_omap in Hp as (s & Hs & Hp); apply list_elem_of_In in Hs.
    destruct (Hmk s Hs) as (a & Ha & Hia & _); exists s, a; split; [exact Hs |]; split; [exact Hia |]; split; [exact Hp | congruence]. }
  assert (Hfwd : forall s, In s sel -> exists p a, In p (omap mk sel) /\ In a selected /\ at_id a = md_athleteId s /\
      p = mkPreparedAthlete (md_color s) (md_athleteId s) (at_name a) (option_map og_name (org a)) (at_weightClassId a)).
  { intros s Hs; destruct (Hmk s Hs) as (a & Ha & Hia & Hid); eexists _, a; split; [| split; [exact Hia | split; [exact Hid | reflexivity]]].
    apply list_elem_of_In, list_elem_of_omap; exists s; split; [apply list_elem_of_In, Hs | exact Ha]. }
  split; [| split].
  - clear Hback Hfwd Hall Hn Hsel Hlen; induction sel as [|s sel' IH]; [reflexivity |]; cbn [omap list_omap map].
    destruct (Hmk s (or_introl eq_refl)) as (a & -> & _); cbn [map pa_color]; f_equal; apply IH; intros s' Hs'; apply Hmk; right; exact Hs'.
  - intros p Hp; destruct (Hback p Hp) as (s & a & _ & Ha & _ & ->); exact (Hw _ (in_map at_weightClassId _ _ Ha)).
  - intros s Hs; destruct (Hfwd s Hs) as (p & a & Hp & Ha & Hid & ->); eexists _, a; split; [exact Hp |].
    destruct (Hin a Ha) as [Hdb Ht]; apply existsb_none with (x := a) in Hact; [| exact Ha]; apply negb_false_iff in Hact.
    do 3 (split; [reflexivity |]); repeat (split; [assumption |]); apply Hw, in_map, Ha.
Qed.

(** The seats an update leaves: each selected athlete in the seat of its colour. *)
Lemma reseat_ok m a d u d' : reseat m a d = Ok (u, d') ->
  db_matchAthletes d' = map_where (fun x => (ma_matchId x === m) && (ma_color x === pa_color a))
    (fun x => x <| ma_athleteId := Some (pa_athleteId a) |> <| ma_name := pa_name a |> <| ma_organization := pa_organization a |>)
    (db_matchAthletes d) /\
  (exists x, In x (db_matchAthletes d) /\ ma_matchId x = m /\ ma_color x = pa_color a) /\ touches [matchAthletes] d d'.
Proof.
  intros H; apply bind_ok in H as (r & d1 & H & Hret); apply ret_ok in Hret as [_ <-].
  assert (Ht : touches [matchAthletes] d d1) by exact (touches_update matchAthletes [matchAthletes] _ _ ltac:(table_in) _ _ _ H).
  apply (update_ok matchAthletes) in H as (x & Hx & _ & _ & ->); split; [reflexivity |]; split; [| exact Ht].
  apply find_first_some in Hx as [Hin E]; to_prop; eauto.
Qed.

Lemma reseat_all m l : forall d u d', for_each (reseat m) l d = Ok (u, d') -> NoDup (map pa_color l) ->
  touches [matchAthletes] d d' /\
  (forall x', In x' (db_matchAthletes d') -> exists x, In x (db_matchAthletes d) /\ ma_id x' = ma_id x /\ ma_matchId x' = ma_matchId x /\
     ma_color x' = ma_color x /\ (~ In (ma_color x) (map pa_color l) \/ ma_matchId x <> m -> x' = x)) /\
  (forall x, In x (db_matchAthletes d) -> ma_matchId x <> m \/ ~ In (ma_color x) (map pa_color l) -> In x (db_matchAthletes d')) /\
  forall p, In p l -> exists x, In x (db_matchAthletes d') /\ ma_matchId x = m /\ ma_color x = pa_color p /\
    ma_athleteId x = Some (pa_athleteId p) /\ ma_name x = pa_name p /\ ma_organization x = pa_organization p.
Proof.
  induction l as [|a l IH]; intros d u d' H Hn; cbn [for_each] in H.
  - apply ret_ok in H as [_ ->]; split; [reflexivity |]; split; [intros x' Hx; exists x'; auto 10 |]; split; [auto | intros p []].
  - apply bind_ok in H as (v & d1 & H1 & H); apply reseat_ok in H1 as (Hrows & (x0 & Hx0 & Hm0 & Hc0) & Ht1).
    cbn [map] in Hn; apply list.NoDup_cons in Hn as [Ha Hn]; rewrite list_elem_of_In in Ha.
    destruct (IH d1 v d') as (Ht & Hback & Hkeep & Hseat); [destruct v, u; exact H | exact Hn |].
    split; [etransitivity; eassumption |]; split; [| split].
    + intros x' Hx'; destruct (Hback x' Hx') as (y & Hy & Hi & Hm & Hc & Hsame).
      rewrite Hrows in Hy; apply in_map_where in Hy as (x & Hx & ->).
      exists x; split; [exact Hx |]; destruct ((ma_matchId x === m) && (ma_color x === pa_color a)) eqn:E; cbn in *.
      * to_prop; do 3 (split; [assumption |]); intros [Hno | Hno]; [destruct Hno; left; congruence | congruence].
      * do 3 (split; [assumption |]); intros [Hno | Hno]; apply Hsame; tauto.
    + intros x Hx Hor; apply Hkeep; [| cbn in Hor; tauto].
      rewrite Hrows; apply in_map_iff; exists x; split; [| exact Hx].
      destruct ((ma_matchId x === m) && (ma_color x === pa_color a)) eqn:E; [| reflexivity].
      to_prop; destruct Hor as [Hor | Hor]; [congruence | destruct Hor; left; congruence].
    + intros p [<- | Hp]; [| exact (Hseat p Hp)].
      eexists; split; [apply Hkeep; [rewrite Hrows; apply in_map_iff; exists x0; split; [reflexivity | exact Hx0] |] |].
      * rewrite Hm0, Hc0, !bool_decide_eq_true_2 by reflexivity; cbn; rewrite Hc0; right; exact Ha.
      * rewrite Hm0, Hc0, !bool_decide_eq_true_2 by reflexivity; cbn; auto 10.
Qed.

Lemma replacementAthletes_ok m0 sel d l d' : replacementAthletes m0 sel d = Ok (l, d') -> wf d ->
  d' = d /\ m_bracketFixtureId m0 = None /\ m_status m0 = WAITING /\ matchActivity (m_id m0) d = 0%nat /\
  Permutation (map md_color sel) [RED; BLUE] /\ NoDup (map md_athleteId sel) /\
  prepareRosterAthletes (m_tournamentId m0) sel d = Ok (l, d).
Proof.
  intros H Hwf; apply bind_ok in H as (u & d1 & Hx & H); apply throw_if_ok in Hx as [Hbr ->].
  apply bind_ok in H as (tn & d1 & Hx & H); apply (find_one_or_throw_ok tournaments) in Hx as [_ ->].
  apply bind_ok in H as (rules & d1 & Hx & H); apply resolved_rules in Hx as (-> & -> & _).
  apply bind_ok in H as (u2 & d1 & Hx & H); apply assertAthleteColors_ok in Hx as (-> & Hcol & Hnd).
  apply bind_ok in H as (u3 & d1 & Hx & H); unfold assertSafeAthleteReplacement in Hx.
  apply bind_ok in Hx as (u4 & d2 & Hy & Hx); apply throw_if_ok in Hy as [Hst ->].
  apply bind_ok in Hx as (n & d2 & Hy & Hx); apply gets_ok in Hy as [-> ->]; apply throw_if_ok in Hx as [Hact ->].
  destruct (prepareRosterAthletes_ok _ _ _ _ _ H Hwf Hnd) as [-> _].
  apply negb_false_iff, bool_decide_eq_true in Hst; apply Nat.ltb_ge in Hact; apply set_none in Hbr.
  split; [reflexivity |]; do 2 (split; [assumption |]); split; [lia | auto].
Qed.

(** The athletes of a match are only replaced while it waits, belongs to no bracket and nothing at all has
    happened in it; then each colour's seat holds the selected athlete, an active one of the
    tournament, both of one weight class, which becomes the match's. Seats of other matches and
    every other table keep their rows. *)
Theorem replacement_before_activity id a input sel d m d' : updateMatch id a input d = Ok (m, d') -> sound d ->
  um_athletes input = Some sel -> exists m0, In m0 (db_matches d) /\ m_id m0 = id /\
  m_status m0 = WAITING /\ m_bracketFixtureId m0 = None /\ matchActivity id d = 0%nat /\
  Permutation (map md_color sel) [RED; BLUE] /\ NoDup (map md_athleteId sel) /\
  (exists w, m_weightClassId m = Some w /\ forall s, In s sel -> exists at_ x,
     In at_ (db_tournamentAthletes d) /\ at_id at_ = md_athleteId s /\ at_tournamentId at_ = m_tournamentId m0 /\
     at_isActive at_ = true /\ at_weightClassId at_ = w /\
     In x (db_matchAthletes d') /\ ma_matchId x = id /\ ma_color x = md_color s /\
     ma_athleteId x = Some (md_athleteId s) /\ ma_name x = at_name at_) /\
  (forall x, ma_matchId x <> id -> (In x (db_matchAthletes d') <-> In x (db_matchAthletes d))) /\
  touches [matches; matchAthletes; auditLogs] d d'.
Proof.
  intros H Hs Hsel.
  assert (Ht : touches [matches; matchAthletes; auditLogs] d d').
  { assert (Hr : respects (touches [matches; matchAthletes; auditLogs]) (updateMatch id a input)).
    { unfold updateMatch, replacementAthletes, assertAthleteColors, assertSafeAthleteReplacement, prepareRosterAthletes,
        resolveRulesConflict, resolveRules, commonWeightClass, reseat; respects_auto. }
    exact (Hr _ _ _ H). }
  unfold updateMatch in H; rewrite Hsel in H.
  apply bind_ok in H as (u & d1 & Hx & H); apply throw_if_ok in Hx as [_ ->].
  apply bind_ok in H as (mo & d1 & Hx & H); apply gets_ok in Hx as [Hmo ->].
  apply bind_ok in H as (m0 & d1 & Hx & H); apply or_throw_ok in Hx as [-> ->]; symmetry in Hmo.
  apply find_first_some in Hmo as [Hin Hid]; apply bool_decide_eq_true in Hid.
  apply bind_ok in H as (before & d1 & Hx & H); apply gets_ok in Hx as [_ ->].
  apply bind_ok in H as (al & d1 & Hx & H); apply bind_ok in Hx as (l & d2 & Hr & Hx); apply ret_ok in Hx as [<- <-].
  apply replacementAthletes_ok in Hr as (-> & Hbr & Hst & Hact & Hcol & Hnd & Hr); [| apply Hs].
  apply bind_ok in H as (wc & d1 & Hx & H); apply bind_ok in Hx as (w & d2 & Hw & Hx).
  apply ret_ok in Hx as [<- <-].
  destruct (prepareRosterAthletes_ok _ _ _ _ _ Hr (proj1 Hs) Hnd) as (_ & w' & Hcolors & Hwc & Hfwd).
  assert (w = w' /\ d2 = d) as [-> ->].
  { destruct l as [|p l']; [discriminate Hw |]; apply ret_ok in Hw as [<- <-]; split; [apply Hwc; left; reflexivity | reflexivity]. }
  apply bind_ok in H as (m1 & d1 & Hx & H); apply (update_ok matches) in Hx as (mx & Hmx & _ & _ & Hd1).
  apply bind_ok in H as (u5 & d2 & Hseats & H); cbn [default from_option] in Hseats.
  apply bind_ok in H as (au & d3 & Hau & H); apply (create_ok auditLogs) in Hau as (_ & _ & Hd3).
  apply (find_one_or_throw_ok matches) in H as [Hm ->].
  assert (Hcl : NoDup (map pa_color l)).
  { rewrite Hcolors, Hcol; repeat constructor; set_solver. }
  destruct (reseat_all id l d1 u5 d2 Hseats Hcl) as (Ht2 & Hold & Hkeep & Hseat).
  assert (E1 : db_matchAthletes d1 = db_matchAthletes d) by (change (get matchAthletes d1 = get matchAthletes d); rewrite Hd1, get_put_other by discriminate; reflexivity).
  assert (E3 : db_matchAthletes d3 = db_matchAthletes d2)
    by (change (get matchAthletes d3 = get matchAthletes d2); rewrite Hd3, get_put_other, get_nextId by discriminate; reflexivity).
  exists m0; do 2 (split; [assumption |]); do 2 (split; [assumption |]); split; [congruence |]; do 2 (split; [assumption |]).
  split; [| split; [| exact Ht]].
  - exists w'; split.
    + apply find_first_some in Hm as [Hm Hmid]; apply bool_decide_eq_true in Hmid.
      rewrite Hd3, get_put_other, get_nextId, (Ht2 matches), Hd1, get_put_same in Hm by (discriminate || table_notin).
      apply in_map_where in Hm as (y & Hy & ->); destruct (m_id y === id) eqn:E; [reflexivity |].
      apply bool_decide_eq_false in E; congruence.
    + intros s Hin'; destruct (Hfwd s Hin') as (p & at_ & Hp & Hpc & Hpa & Hpn & Hat & Hati & Hatt & Hata & Hatw).
      destruct (Hseat p Hp) as (x & Hx & Hxm & Hxc & Hxa & Hxn & _); exists at_, x; rewrite E3.
      do 5 (split; [assumption |]); do 2 (split; [assumption |]); split; [congruence |]; split; congruence.
  - intros x Hx; rewrite E3; split; intros Hi.
    + destruct (Hold x Hi) as (y & Hy & _ & Hym & _ & Hsame); rewrite E1 in Hy; rewrite Hsame; [exact Hy | right; congruence].
    + apply Hkeep; [rewrite E1; exact Hi | left; exact Hx].
Qed.

(** ** Witnesses: the bracket confirmed in BracketStorage, five active judges, and match 11 whose
    public id is the first one generated. *)
Definition generated (attempt : nat) : string := if (attempt =? 1)%nat then "N" else "P".
Definition openDB : DB := Eval vm_compute in
  confirmedDB <| db_matches := [sampleMatch 11 WAITING NOT_STARTED None None] |>
    <| db_matchAthletes := [mkMatchAthleteRow 23 11 (Some 121%N) RED "C" None; mkMatchAthleteRow 24 11 (Some 122%N) BLUE "C" None] |>
    <| db_tournamentOfficials := map (fun i => sampleOfficial i OFFICIAL_JUDGE) [71; 72; 73; 74; 75]%N |>.
Definition preparedMatch : MatchRow := Eval vm_compute in
  match prepareBracketFixtureMatch 120000 30000 generated 1 1000 1004 7 openDB with
  | Ok (m, _) => m
  | Err _ => sampleMatch 0 WAITING NOT_STARTED None None
  end.
Definition preparedDB : DB := Eval vm_compute in after (prepareBracketFixtureMatch 120000 30000 generated 1 1000 1004 7) openDB.
Definition foughtMatch : MatchRow := Eval vm_compute in
  preparedMatch <| m_status := FINISHED |> <| m_lifecycle := LIFECYCLE_COMPLETED |> <| m_startedAt := Some 0 |> <| m_finishedAt := Some 9 |>.
Definition foughtDB : DB := Eval vm_compute in preparedDB <| db_matches := [sampleMatch 11 WAITING NOT_STARTED None None; foughtMatch] |>.
Definition redEntrant : EntrantRow := Eval vm_compute in default (bracketEntrant 0 0 1 RED) (seated 1004 RED openDB).
Definition blueEntrant : EntrantRow := Eval vm_compute in default (bracketEntrant 0 0 1 BLUE) (seated 1004 BLUE openDB).

Lemma prepared_run : prepareBracketFixtureMatch 120000 30000 generated 1 1000 1004 7 openDB = Ok (preparedMatch, preparedDB).
Proof. vm_compute; reflexivity. Defined.
Lemma openDB_sound : sound openDB.
Proof. solve_sound. Defined.
Lemma openDB_seats : seat_refs openDB.
Proof. intros x [<- | [<- | []]]; reflexivity. Defined.

Lemma prepare_seats_entrants_witness : m_publicId preparedMatch = "P"%string /\ m_bracketFixtureId preparedMatch = Some 1004%N.
Proof.
  split; [reflexivity |].
  destruct (prepare_seats_entrants _ _ _ _ _ _ _ _ _ _ prepared_run openDB_sound) as (fx & br & red & blue & st & H).
  exact (proj1 (proj2 (proj2 (proj2 (proj2 H))))).
Defined.

(** Meanwhile another bracket appeared, with a seat in another match. *)
Definition elsewhereDB : DB := Eval vm_compute in foughtDB <| db_bracketFixtures := db_bracketFixtures foughtDB ++ [mkFixtureRow 2004 2000 1 1 FIXTURE_READY None None "R1-M01"] |>
  <| db_bracketSlots := mkSlotRow 2005 2004 RED None (Some 2001%N) (Some 2001%N) :: db_bracketSlots foughtDB |>
  <| db_bracketEntrants := (bracketEntrant 2001 131 1 RED) :: db_bracketEntrants foughtDB |>
  <| db_matchAthletes := mkMatchAthleteRow 25 11 (Some 131%N) RED "D" None :: db_matchAthletes foughtDB |>.
Lemma prepared_match_decides_witness : exists snapshot, processFinishedMatch (at_time 10) 1013 (Some BLUE) elsewhereDB =
  (r ← BracketOutcome.decide (at_time 10) 1004 1002 (mkDecision None RULES None (Some snapshot)); mret (OutcomeDecided r)) elsewhereDB.
Proof.
  eapply (proj1 (prepared_match_decides 120000 30000 generated (at_time 10) 1 1000 1004 7 openDB preparedMatch preparedDB
    prepared_run openDB_sound openDB_seats) elsewhereDB foughtMatch _ BLUE blueEntrant); try (vm_compute; reflexivity).
  - split; vm_compute; reflexivity.
  - eexists; split; vm_compute; reflexivity.
Defined.

Lemma openDB_preparable : exists br fx st, preparable 1 1000 1004 openDB br fx redEntrant blueEntrant st.
Proof. do 3 eexists; split; try (vm_compute; reflexivity); [eexists; split; [reflexivity | discriminate] | discriminate]. Defined.

Lemma prepare_succeeds_witness : exists m d', prepareBracketFixtureMatch 120000 30000 generated 1 1000 1004 7 openDB = Ok (m, d') /\
  m_publicId m = "P"%string.
Proof.
  destruct openDB_preparable as (br & fx & st & Hp).
  destruct (prepare_succeeds 120000 30000 generated 1 1000 1004 7 openDB br fx redEntrant blueEntrant st 2 Hp openDB_sound openDB_seats)
    as (m & d' & H & Hid & _); [unfold PUBLIC_ID_GENERATION_ATTEMPTS; lia | | reflexivity | eauto].
  intros i Hi; replace i with 1%nat by lia; reflexivity.
Defined.

Lemma staffing_within_policy_witness : exists st lbl d', updateStaffing 1 5 1 5 7 openDB = Ok ((st, lbl, 5), d') /\ Z.odd 5 = true.
Proof.
  eexists _, _, _; split; [vm_compute; reflexivity |].
  eapply (staffing_within_policy 1 5 1 5 7 openDB); [vm_compute; reflexivity | exact openDB_sound].
Defined.

Lemma prepare_freezes_staffing_witness : exists w n, m_weightClassId preparedMatch = Some w /\
  updateStaffing 1 w n 5 7 preparedDB = Err (Conflict "BRACKET_ROUND_STAFFING_LOCKED").
Proof.
  destruct (prepare_freezes_staffing _ _ _ _ _ _ _ _ _ _ sampleTournament 5 7 prepared_run openDB_sound)
    as (w & n & Hw & _ & H); [reflexivity | reflexivity | eauto].
Defined.

Lemma cancel_frees_class_witness : exists d', cancelBracket (at_time 9) 1 5 7 "redraw" openDB = Ok ((1000%N, 9), d') /\
  find_first (currentBracket 1 5) (db_tournamentBrackets d') = None.
Proof.
  eexists; split; [vm_compute; reflexivity |].
  edestruct (cancel_frees_class (at_time 9) 1 5 7 "redraw" openDB) as (b & _ & _ & _ & H & _);
    [vm_compute; reflexivity | exact openDB_sound | exact H].
Defined.

Definition completedDB : DB := Eval vm_compute in
  confirmedDB <| db_tournamentBrackets ::= map (fun b => b <| br_status := BRACKET_STATUS_COMPLETED |> <| br_completedAt := Some 8 |>) |>.
Lemma completed_bracket_uncancellable_witness : cancelBracket (at_time 9) 1 5 7 "redraw" completedDB = Err CheckViolation.
Proof.
  eapply (completed_bracket_uncancellable (at_time 9) 1 5 7 "redraw" completedDB); [solve_sound | vm_compute; reflexivity | reflexivity | reflexivity].
Defined.

Definition replaced : UpdateMatchDto := mkUpdateMatchDto (Some [mkMatchAthleteDto BLUE 123; mkMatchAthleteDto RED 122]) None None.
Lemma replacement_before_activity_witness : exists m d', updateMatch 11 7 replaced openDB = Ok (m, d') /\ matchActivity 11 openDB = 0%nat.
Proof.
  eexists _, _; split; [vm_compute; reflexivity |].
  edestruct (replacement_before_activity 11 7 replaced [mkMatchAthleteDto BLUE 123; mkMatchAthleteDto RED 122] openDB)
    as (m0 & _ & _ & _ & _ & H & _); [vm_compute; reflexivity | exact openDB_sound | reflexivity | exact H].
Defined.
