(* ===== verification/Calendar.v ===== *)
(** * Calendar

    The proleptic Gregorian calendar of JavaScript's [Date] in UTC, on epochs in
    milliseconds: the fields of a date, [Date.UTC], and [addUtcMonths] of
    subscriptions/admin-access.policy.ts, by which entitlements are prolonged and the
    grace period of a lapsed one ends. [Date.UTC] reads the years 0 to 99 as 1900 to
    1999; the limit of 8.64e15 ms around the epoch, beyond which a [Date] is invalid, is
    not modelled. *)
From S2P Require Import Prelude Schema.

Definition MS_PER_DAY : Z := 86400000.

(** ** Days and years *)

Definition dayFromYear (y : Z) : Z :=
  365 * (y - 1970) + (y - 1969) / 4 - (y - 1901) / 100 + (y - 1601) / 400.

Definition leap (y : Z) : bool := (y mod 4 =? 0) && (negb (y mod 100 =? 0) || (y mod 400 =? 0)).

(** The year of a day: a year holds 146097/400 days on average, and the estimate is off by
    one at most. *)
Definition yearFromDay (d : Z) : Z :=
  let y := d * 400 / 146097 + 1970 in
  if d <? dayFromYear y then y - 1
  else if dayFromYear (y + 1) <=? d then y + 1 else y.

Lemma dayFromYear_succ y : dayFromYear (y + 1) = dayFromYear y + (if leap y then 366 else 365).
Proof.
  unfold dayFromYear, leap.
  destruct (Z.eqb_spec (y mod 4) 0), (Z.eqb_spec (y mod 100) 0), (Z.eqb_spec (y mod 400) 0); cbn;
    Z.div_mod_to_equations; lia.
Qed.

Lemma dayFromYear_near d : let y := d * 400 / 146097 + 1970 in
  dayFromYear (y - 1) <= d /\ d < dayFromYear (y + 2).
Proof. cbv zeta; unfold dayFromYear; Z.div_mod_to_equations; lia. Qed.

Lemma yearFromDay_bounds d : dayFromYear (yearFromDay d) <= d < dayFromYear (yearFromDay d + 1).
Proof.
  unfold yearFromDay; pose proof (dayFromYear_near d) as [H1 H2]; cbv zeta in H1, H2 |- *.
  set (y := d * 400 / 146097 + 1970) in *.
  destruct (Z.ltb_spec d (dayFromYear y)) as [Hd |]; [replace (y - 1 + 1) with y by lia; lia |].
  destruct (Z.leb_spec (dayFromYear (y + 1)) d) as [Hd |]; [| lia].
  replace (y + 1 + 1) with (y + 2) by lia; lia.
Qed.

Lemma dayFromYear_mono y y' : y < y' -> dayFromYear y + 365 * (y' - y) <= dayFromYear y'.
Proof. unfold dayFromYear; intros; Z.div_mod_to_equations; lia. Qed.

Lemma yearFromDay_unique d y : dayFromYear y <= d < dayFromYear (y + 1) -> yearFromDay d = y.
Proof.
  pose proof (yearFromDay_bounds d); intros H'.
  destruct (Z.lt_trichotomy (yearFromDay d) y) as [Hlt | [E | Hlt]]; [| exact E |].
  - pose proof (dayFromYear_mono _ _ Hlt); destruct (Z.eq_dec (yearFromDay d + 1) y) as [E | Hne];
      [rewrite E in *; lia |].
    pose proof (dayFromYear_mono (yearFromDay d + 1) y ltac:(lia)); lia.
  - destruct (Z.eq_dec (y + 1) (yearFromDay d)) as [E | Hne]; [rewrite E in *; lia |].
    pose proof (dayFromYear_mono (y + 1) (yearFromDay d) ltac:(lia)); lia.
Qed.

(** ** Months, numbered from 0 *)

(** The day of the year month [m] starts on; the start of month 12 is the length of the year. *)
Definition monthStart (l : bool) (m : Z) : Z :=
  let leapDay := if l then 1 else 0 in
  if m <=? 0 then 0 else if m =? 1 then 31
  else leapDay + (if m =? 2 then 59 else if m =? 3 then 90 else if m =? 4 then 120
    else if m =? 5 then 151 else if m =? 6 then 181 else if m =? 7 then 212
    else if m =? 8 then 243 else if m =? 9 then 273 else if m =? 10 then 304
    else if m =? 11 then 334 else 365).

Definition daysInMonth (l : bool) (m : Z) : Z := monthStart l (m + 1) - monthStart l m.

Definition monthFromDay (l : bool) (dy : Z) : Z :=
  if dy <? monthStart l 1 then 0 else if dy <? monthStart l 2 then 1
  else if dy <? monthStart l 3 then 2 else if dy <? monthStart l 4 then 3
  else if dy <? monthStart l 5 then 4 else if dy <? monthStart l 6 then 5
  else if dy <? monthStart l 7 then 6 else if dy <? monthStart l 8 then 7
  else if dy <? monthStart l 9 then 8 else if dy <? monthStart l 10 then 9
  else if dy <? monthStart l 11 then 10 else 11.

(** Evaluates the month starts of constants. *)
Ltac month_consts :=
  repeat match goal with
  | |- context [monthStart ?l ?m] =>
      let v := eval vm_compute in (monthStart l m) in change (monthStart l m) with v
  | H : context [monthStart ?l ?m] |- _ =>
      let v := eval vm_compute in (monthStart l m) in change (monthStart l m) with v in H
  end.

(** Cases on a month number. *)
Lemma month_cases (P : Z -> Prop) m : 0 <= m <= 11 ->
  P 0 -> P 1 -> P 2 -> P 3 -> P 4 -> P 5 -> P 6 -> P 7 -> P 8 -> P 9 -> P 10 -> P 11 -> P m.
Proof.
  intros H; assert (E : m = 0 \/ m = 1 \/ m = 2 \/ m = 3 \/ m = 4 \/ m = 5 \/ m = 6 \/ m = 7 \/
    m = 8 \/ m = 9 \/ m = 10 \/ m = 11) by lia.
  repeat (destruct E as [-> | E]; [tauto |]); subst; tauto.
Qed.

Lemma monthFromDay_bounds l dy : 0 <= dy < monthStart l 12 ->
  0 <= monthFromDay l dy <= 11 /\
  monthStart l (monthFromDay l dy) <= dy < monthStart l (monthFromDay l dy + 1).
Proof.
  intros H; unfold monthFromDay.
  repeat match goal with |- context [if ?a <? ?b then _ else _] => destruct (Z.ltb_spec a b) end;
    destruct l; month_consts; lia.
Qed.

Lemma daysInMonth_bounds l m : 0 <= m <= 11 -> 28 <= daysInMonth l m <= 31.
Proof.
  intros H; unfold daysInMonth; pattern m; apply month_cases; [exact H | destruct l; month_consts; lia ..].
Qed.

Lemma monthFromDay_unique l dy m : 0 <= m <= 11 -> monthStart l m <= dy < monthStart l (m + 1) ->
  monthFromDay l dy = m.
Proof.
  intros Hm; pattern m; apply month_cases; [exact Hm | intros H; unfold monthFromDay ..].
  all: destruct l; month_consts;
    repeat match goal with |- context [if ?a <? ?b then _ else _] => destruct (Z.ltb_spec a b) end; lia.
Qed.

Lemma monthStart_year y : monthStart (leap y) 12 = dayFromYear (y + 1) - dayFromYear y.
Proof. rewrite dayFromYear_succ; destruct (leap y); month_consts; lia. Qed.

(** ** Dates *)

Definition day (t : timestamp) : Z := t / MS_PER_DAY.
Definition timeWithinDay (t : timestamp) : Z := t mod MS_PER_DAY.

Definition getUTCFullYear (t : timestamp) : Z := yearFromDay (day t).
Definition dayWithinYear (t : timestamp) : Z := day t - dayFromYear (getUTCFullYear t).
Definition getUTCMonth (t : timestamp) : Z := monthFromDay (leap (getUTCFullYear t)) (dayWithinYear t).
Definition getUTCDate (t : timestamp) : Z :=
  dayWithinYear t - monthStart (leap (getUTCFullYear t)) (getUTCMonth t) + 1.
Definition getUTCHours (t : timestamp) : Z := t / 3600000 mod 24.
Definition getUTCMinutes (t : timestamp) : Z := t / 60000 mod 60.
Definition getUTCSeconds (t : timestamp) : Z := t / 1000 mod 60.
Definition getUTCMilliseconds (t : timestamp) : Z := t mod 1000.

(** The day number of day [dt] of month [m] of year [y], with any month and day carried. *)
Definition makeDay (y m dt : Z) : Z :=
  let ym := y + m / 12 in
  dayFromYear ym + monthStart (leap ym) (m mod 12) + dt - 1.

Definition dateUTC (y m dt h mi s ms : Z) : timestamp :=
  let y := if (0 <=? y) && (y <=? 99) then 1900 + y else y in
  makeDay y m dt * MS_PER_DAY + (h * 3600000 + mi * 60000 + s * 1000 + ms).

(** [addUtcMonths] *)
Definition addUtcMonths (value : timestamp) (months : Z) : timestamp :=
  let lastDay := dateUTC (getUTCFullYear value) (getUTCMonth value + months + 1) 0 0 0 0 0 in
  dateUTC (getUTCFullYear lastDay) (getUTCMonth lastDay)
    (Z.min (getUTCDate value) (getUTCDate lastDay))
    (getUTCHours value) (getUTCMinutes value) (getUTCSeconds value) (getUTCMilliseconds value).

(** ** Month indices

    Months are counted through from year 0, so that adding months is an addition. *)

Definition monthOf (t : timestamp) : Z := 12 * getUTCFullYear t + getUTCMonth t.
Definition firstOfMonth (k : Z) : Z := dayFromYear (k / 12) + monthStart (leap (k / 12)) (k mod 12).
Definition daysIn (k : Z) : Z := daysInMonth (leap (k / 12)) (k mod 12).

Lemma month_index y m : 0 <= m <= 11 -> (12 * y + m) / 12 = y /\ (12 * y + m) mod 12 = m.
Proof. intros; Z.div_mod_to_equations; lia. Qed.

Lemma month_bounds k : 0 <= k mod 12 <= 11.
Proof. pose proof (Z.mod_pos_bound k 12); lia. Qed.

Lemma daysIn_bounds k : 28 <= daysIn k <= 31.
Proof. apply daysInMonth_bounds, month_bounds. Qed.

Lemma firstOfMonth_succ k : firstOfMonth (k + 1) = firstOfMonth k + daysIn k.
Proof.
  unfold firstOfMonth, daysIn, daysInMonth; pose proof (month_bounds k) as Hm.
  destruct (Z.eq_dec (k mod 12) 11) as [E | Hne].
  - assert (E1 : (k + 1) / 12 = k / 12 + 1 /\ (k + 1) mod 12 = 0) by (Z.div_mod_to_equations; lia).
    destruct E1 as [-> ->]; rewrite E; pose proof (monthStart_year (k / 12)) as Hy.
    replace (monthStart (leap (k / 12 + 1)) 0) with 0 by reflexivity.
    change (11 + 1) with 12; lia.
  - assert (E1 : (k + 1) / 12 = k / 12 /\ (k + 1) mod 12 = k mod 12 + 1) by (Z.div_mod_to_equations; lia).
    destruct E1 as [-> ->]; lia.
Qed.

Lemma firstOfMonth_mono k k' : k <= k' -> firstOfMonth k + 28 * (k' - k) <= firstOfMonth k'.
Proof.
  intros H; pattern k'; apply Zlt_lower_bound_ind with (z := k); [| exact H].
  clear k' H; intros k' IH Hle; destruct (Z.eq_dec k' k) as [-> | Hne]; [lia |].
  specialize (IH (k' - 1) ltac:(lia)); pose proof (firstOfMonth_succ (k' - 1)) as Hs.
  pose proof (daysIn_bounds (k' - 1)); replace (k' - 1 + 1) with k' in Hs by lia; lia.
Qed.

(** A date is its month, its day of the month and its time of day. *)
Lemma date_spec t :
  1 <= getUTCDate t <= daysIn (monthOf t) /\ day t = firstOfMonth (monthOf t) + getUTCDate t - 1 /\
  t = day t * MS_PER_DAY + timeWithinDay t /\ 0 <= timeWithinDay t < MS_PER_DAY.
Proof.
  pose proof (yearFromDay_bounds (day t)) as Hy; pose proof (monthStart_year (getUTCFullYear t)) as Hl.
  destruct (monthFromDay_bounds (leap (getUTCFullYear t)) (dayWithinYear t)) as [Hm Hb];
    [unfold dayWithinYear, getUTCFullYear in *; lia |].
  unfold monthOf, daysIn, firstOfMonth; fold (getUTCMonth t) in Hm, Hb.
  destruct (month_index (getUTCFullYear t) (getUTCMonth t) Hm) as [-> ->].
  unfold getUTCDate, daysInMonth, dayWithinYear, timeWithinDay, day, MS_PER_DAY in *.
  split_and!; try lia; Z.div_mod_to_equations; lia.
Qed.

Lemma date_unique t k dt : 1 <= dt <= daysIn k -> day t = firstOfMonth k + dt - 1 ->
  monthOf t = k /\ getUTCDate t = dt.
Proof.
  intros Hdt Hd; destruct (date_spec t) as (Hb & Hd' & _).
  assert (E : monthOf t = k).
  { pose proof (firstOfMonth_succ k); pose proof (firstOfMonth_succ (monthOf t)).
    destruct (Z.lt_trichotomy (monthOf t) k) as [Hlt | [E | Hlt]]; [| exact E |].
    - pose proof (firstOfMonth_mono (monthOf t + 1) k ltac:(lia)); lia.
    - pose proof (firstOfMonth_mono (k + 1) (monthOf t) ltac:(lia)); lia. }
  split; [exact E | rewrite E in Hd'; lia].
Qed.

Lemma getUTCMonth_bounds t : 0 <= getUTCMonth t <= 11.
Proof.
  unfold getUTCMonth, monthFromDay.
  repeat match goal with |- context [if ?b then _ else _] => destruct b end; lia.
Qed.

Lemma year_of_month t : getUTCFullYear t = monthOf t / 12.
Proof. pose proof (getUTCMonth_bounds t); unfold monthOf; Z.div_mod_to_equations; lia. Qed.
Lemma month_of_month t : getUTCMonth t = monthOf t mod 12.
Proof. pose proof (getUTCMonth_bounds t); unfold monthOf; Z.div_mod_to_equations; lia. Qed.

Lemma makeDay_month y m dt : makeDay y m dt = firstOfMonth (12 * y + m) + dt - 1.
Proof.
  unfold makeDay, firstOfMonth.
  assert (E : (12 * y + m) / 12 = y + m / 12 /\ (12 * y + m) mod 12 = m mod 12) by (Z.div_mod_to_equations; lia).
  destruct E as [-> ->]; lia.
Qed.

(** [Date.UTC] of a year after 99 *)
Lemma dateUTC_day y m dt h mi s ms : 100 <= y -> 0 <= h < 24 -> 0 <= mi < 60 -> 0 <= s < 60 -> 0 <= ms < 1000 ->
  day (dateUTC y m dt h mi s ms) = firstOfMonth (12 * y + m) + dt - 1 /\
  timeWithinDay (dateUTC y m dt h mi s ms) = h * 3600000 + mi * 60000 + s * 1000 + ms.
Proof.
  intros Hy Hh Hmi Hs Hms; unfold dateUTC.
  destruct (Z.leb_spec y 99); [lia |]; rewrite andb_false_r, makeDay_month.
  unfold day, timeWithinDay, MS_PER_DAY; set (k := firstOfMonth _ + _ - _); clearbody k.
  Z.div_mod_to_equations; lia.
Qed.

Lemma time_fields t :
  getUTCHours t * 3600000 + getUTCMinutes t * 60000 + getUTCSeconds t * 1000 + getUTCMilliseconds t
    = timeWithinDay t /\
  0 <= getUTCHours t < 24 /\ 0 <= getUTCMinutes t < 60 /\ 0 <= getUTCSeconds t < 60 /\
  0 <= getUTCMilliseconds t < 1000.
Proof.
  unfold getUTCHours, getUTCMinutes, getUTCSeconds, getUTCMilliseconds, timeWithinDay, MS_PER_DAY.
  Z.div_mod_to_equations; lia.
Qed.

(** The result of [addUtcMonths] in terms of month indices, for years that [Date.UTC] takes
    as they are: the month [months] later, the day clamped to that month, the time kept. *)
Lemma addUtcMonths_month t n : 1200 <= monthOf t -> 1200 <= monthOf t + n ->
  let r := addUtcMonths t n in
  monthOf r = monthOf t + n /\ getUTCDate r = Z.min (getUTCDate t) (daysIn (monthOf t + n)) /\
  timeWithinDay r = timeWithinDay t.
Proof.
  intros Hy Hn r; unfold r, addUtcMonths; clear r.
  destruct (date_spec t) as (Hdate & _); pose proof (daysIn_bounds (monthOf t + n)) as Hdays.
  set (last := dateUTC _ _ 0 0 0 0 0).
  assert (Hlast : monthOf last = monthOf t + n /\ getUTCDate last = daysIn (monthOf t + n)).
  { destruct (dateUTC_day (getUTCFullYear t) (getUTCMonth t + n + 1) 0 0 0 0 0) as [Hd _]; try lia.
    { rewrite year_of_month; Z.div_mod_to_equations; lia. }
    apply date_unique; [lia |]; fold last in Hd; rewrite Hd.
    replace (12 * getUTCFullYear t + (getUTCMonth t + n + 1)) with (monthOf t + n + 1) by (unfold monthOf; lia).
    rewrite firstOfMonth_succ; lia. }
  destruct Hlast as [Hlm Hld]; clearbody last; destruct (time_fields t) as (Htime & Hh & Hmi & Hs & Hms).
  destruct (dateUTC_day (getUTCFullYear last) (getUTCMonth last) (Z.min (getUTCDate t) (getUTCDate last))
    (getUTCHours t) (getUTCMinutes t) (getUTCSeconds t) (getUTCMilliseconds t)) as [Hd Ht]; try assumption.
  { rewrite year_of_month, Hlm; Z.div_mod_to_equations; lia. }
  rewrite Ht; fold (monthOf last) in Hd; rewrite Hlm, Hld in Hd.
  assert (Hdt : 1 <= Z.min (getUTCDate t) (daysIn (monthOf t + n)) <= daysIn (monthOf t + n)) by lia.
  rewrite Hld; destruct (date_unique _ _ _ Hdt Hd) as [E1 E2]; auto.
Qed.

Lemma firstOfMonth_upper k n : 0 <= n -> firstOfMonth (k + n) <= firstOfMonth k + 31 * n.
Proof.
  intros H; pattern n; apply natlike_ind; [rewrite Z.add_0_r; lia | | exact H].
  intros m Hm IH; pose proof (firstOfMonth_succ (k + m)); pose proof (daysIn_bounds (k + m)).
  replace (k + Z.succ m) with (k + m + 1) by lia; lia.
Qed.

(** How far a month reaches. *)
Lemma addUtcMonths_span t n : 100 <= getUTCFullYear t -> 0 <= n ->
  let r := addUtcMonths t n in
  monthOf r = monthOf t + n /\ getUTCDate r = Z.min (getUTCDate t) (daysIn (monthOf r)) /\
  timeWithinDay r = timeWithinDay t /\
  (28 * n - 3) * MS_PER_DAY <= r - t <= 31 * n * MS_PER_DAY /\ (n = 0 -> r = t).
Proof.
  intros Hy Hn r; assert (Hk : 1200 <= monthOf t) by (rewrite year_of_month in Hy; Z.div_mod_to_equations; lia).
  destruct (addUtcMonths_month t n Hk ltac:(lia)) as (Em & Ed & Et); fold r in Em, Ed, Et; clearbody r.
  destruct (date_spec t) as (Hd & Hday & Ht & _), (date_spec r) as (Hd' & Hday' & Ht' & _).
  pose proof (firstOfMonth_mono (monthOf t) (monthOf t + n) ltac:(lia)) as Hlow.
  pose proof (firstOfMonth_upper (monthOf t) n Hn) as Hup.
  pose proof (daysIn_bounds (monthOf t + n)); pose proof (daysIn_bounds (monthOf t)).
  split; [exact Em |]; split; [rewrite Em; exact Ed |]; split; [exact Et |].
  rewrite Em in Hd', Hday'; clear Em Hy Hk.
  assert (EM : MS_PER_DAY = 86400000) by reflexivity; rewrite EM in *; clear EM; split; [lia |].
  intros ->; rewrite Z.add_0_r in *; lia.
Qed.

(** A date plus months is later. *)
Lemma addUtcMonths_later t n : 100 <= getUTCFullYear t -> 1 <= n -> t < addUtcMonths t n.
Proof.
  intros Hy Hn; destruct (addUtcMonths_span t n Hy ltac:(lia)) as (_ & _ & _ & Hb & _).
  unfold MS_PER_DAY in Hb; lia.
Qed.

(** ** Theorems *)

(** A date plus [n] months is the date [n] months later at the same time of day, on the
    same day of the month or on the last one if that month is shorter; so it lies at least
    28 days per month less three and at most 31 days per month later, and adding no months
    changes nothing. *)
Theorem addUtcMonths_calendar t n (Hy : 100 <= getUTCFullYear t) (Hn : 0 <= n) :
  let r := addUtcMonths t n in
  monthOf r = monthOf t + n /\ getUTCDate r = Z.min (getUTCDate t) (daysIn (monthOf r)) /\
  timeWithinDay r = timeWithinDay t /\
  (28 * n - 3) * MS_PER_DAY <= r - t <= 31 * n * MS_PER_DAY /\ (n = 0 -> r = t).
Proof. exact (addUtcMonths_span t n Hy Hn). Qed.

(** The last day of January, a leap year and thirteen months later. *)
Lemma addUtcMonths_calendar_witness :
  addUtcMonths 1706696430456 1 = 1709202030456 /\ addUtcMonths 1706696430456 13 = 1740738030456 /\
  getUTCDate (addUtcMonths 1706696430456 13) = 28 /\
  daysIn (monthOf (addUtcMonths 1706696430456 13)) = 28.
Proof.
  split; [reflexivity | split; [reflexivity |]]; split; [| reflexivity].
  destruct (addUtcMonths_calendar 1706696430456 13) as (_ & Hd & _); [vm_compute; discriminate | lia |].
  exact Hd.
Defined.
