(* ===== verification/Pricing.v ===== *)
(** * Pricing

    pricing/pricing-calculator.ts and pricing/pricing.service.ts: what a subscription costs
    under the active plan, and the publication of a new plan. Amounts are the integers the
    plan and tier columns hold; the quotient of a discount is exact for products below
    2^53, where the double division of the source does not round up to an integer. *)
From S2P Require Import Prelude Schema Database Rules Scenario.

(** ** The calculator *)

Record PricingSelection : Type := mkSelectionOf { durationBundle : option Z; tournamentBundle : option Z }.

Record PricingAddon : Type := mkAddon { subtotalVnd : Z; discountVnd : Z }.

Record Quote : Type := mkQuote {
  pricingVersionId : uuid; baseAmountVnd : Z; durationAddon : PricingAddon; tournamentAddon : PricingAddon;
  totalDurationMonths : Z; totalTournamentLimit : Z; totalPayableVnd : Z }.

Definition tierFor (tiers : list TierRow) (type : PricingDiscountType) (quantity : Z) : option TierRow :=
  find_first (fun t => (dt_type t === type) && (dt_quantity t === quantity)) tiers.

Definition calculateAddon (tiers : list TierRow) (type : PricingDiscountType) (quantity unit_ : Z)
    : result string PricingAddon :=
  if quantity <? 0 then Err "INVALID_BUNDLE_QUANTITY"%string
  else if quantity =? 0 then Ok (mkAddon 0 0)
  else match tierFor tiers type quantity with
       | None => Err "UNSUPPORTED_BUNDLE"%string
       | Some discount =>
           let subtotal := quantity * unit_ in
           Ok (mkAddon subtotal (Z.quot (subtotal * dt_discountBasisPoints discount) 10000))
       end.

Definition calculateQuote (plan : PlanRow) (tiers : list TierRow) (selection : PricingSelection)
    : result string Quote :=
  let duration := default 0 (durationBundle selection) in
  let tournaments := default 0 (tournamentBundle selection) in
  match calculateAddon tiers DURATION duration (pp_durationAddonUnitAmountVnd plan) with
  | Err e => Err e
  | Ok d =>
      match calculateAddon tiers TOURNAMENT tournaments (pp_tournamentAddonUnitAmountVnd plan) with
      | Err e => Err e
      | Ok t => Ok (mkQuote (pp_id plan) (pp_baseAmountVnd plan) d t
          (pp_baseDurationMonths plan + duration) (pp_baseTournamentLimit plan + tournaments)
          (pp_baseAmountVnd plan + subtotalVnd d - discountVnd d + subtotalVnd t - discountVnd t))
      end
  end.

(** ** The service *)

Definition tiersOf (planId : uuid) (d : DB) : list TierRow :=
  List.filter (fun t => dt_pricingPlanVersionId t === planId) (db_pricingDiscountTiers d).

(** [PricingService.quote] *)
Definition quote (selection : PricingSelection) : DbM Quote :=
  plan ← find_one pricingPlanVersions pp_active;
  plan ← or_throw plan (NotFound "ACTIVE_PRICING_NOT_FOUND");
  tiers ← gets (tiersOf (pp_id plan));
  from_result BadRequest (calculateQuote plan tiers selection).

Record TierInput : Type := mkTierInput { ti_type : PricingDiscountType; ti_quantity : Z; ti_discountBasisPoints : Z }.
Record PlanInput : Type := mkPlanInput {
  pi_baseAmountVnd : Z; pi_baseDurationMonths : Z; pi_baseTournamentLimit : Z;
  pi_durationAddonUnitAmountVnd : Z; pi_tournamentAddonUnitAmountVnd : Z; pi_discountTiers : list TierInput }.

Definition tierKey (t : TierInput) : PricingDiscountType * Z := (ti_type t, ti_quantity t).
Definition requiredTiers : list (PricingDiscountType * Z) :=
  [(DURATION, 6); (DURATION, 12); (TOURNAMENT, 3); (TOURNAMENT, 5); (TOURNAMENT, 10)].

Definition tierInputInvalid (x : TierInput) : bool :=
  (ti_quantity x <? 1) || (ti_discountBasisPoints x <? 0) || (10000 <? ti_discountBasisPoints x).

(** [PricingService.validate] *)
Definition validatePlan (input : PlanInput) : DbM unit :=
  throw_if ((pi_baseAmountVnd input <? 0) || (pi_baseDurationMonths input <? 1) ||
            (pi_baseTournamentLimit input <? 1) || (pi_durationAddonUnitAmountVnd input <? 0) ||
            (pi_tournamentAddonUnitAmountVnd input <? 0) ||
            existsb tierInputInvalid (pi_discountTiers input))
    (BadRequest "INVALID_PRICING_CONFIGURATION");;
  let keys := map tierKey (pi_discountTiers input) in
  throw_if (negb (bool_decide (NoDup keys)) ||
            existsb (fun key => negb (bool_decide (key ∈ keys))) requiredTiers)
    (BadRequest "INVALID_PRICING_TIERS").

Definition planRow (input : PlanInput) (now : timestamp) (actorId id : uuid) : PlanRow :=
  mkPlanRow id (pi_baseAmountVnd input) (pi_baseDurationMonths input) (pi_baseTournamentLimit input)
    (pi_durationAddonUnitAmountVnd input) (pi_tournamentAddonUnitAmountVnd input) true (Some now) (Some actorId).
Definition tierRow (planId : uuid) (t : TierInput) (id : uuid) : TierRow :=
  mkTierRow id planId (ti_type t) (ti_quantity t) (ti_discountBasisPoints t).

(** [PricingService.create] *)
Definition createPlan (input : PlanInput) (now : timestamp) (actorId : uuid) : DbM PlanRow :=
  validatePlan input;;
  previous ← find_one pricingPlanVersions pp_active;
  _ ← update_many pricingPlanVersions pp_active (fun p => p <| pp_active := false |>);
  plan ← create pricingPlanVersions (planRow input now actorId);
  create_many pricingDiscountTiers (tierRow (pp_id plan)) (pi_discountTiers input);;
  _ ← create auditLogs (fun id => mkAuditRow id None (Some actorId) None None PRICING_VERSION_CREATED
    (JObj [("oldVersionId", jopt JId (option_map pp_id previous)); ("newVersionId", JId (pp_id plan));
           ("actorId", JId actorId)]%string));
  mret plan.

(** ** Lemmas *)

Lemma calculateAddon_ok tiers type q u a : calculateAddon tiers type q u = Ok a ->
  0 <= q /\
  (q = 0 /\ a = mkAddon 0 0 \/
   exists t, In t tiers /\ dt_type t = type /\ dt_quantity t = q /\ subtotalVnd a = q * u /\
     discountVnd a = Z.quot (q * u * dt_discountBasisPoints t) 10000).
Proof.
  unfold calculateAddon; destruct (Z.ltb_spec q 0); [discriminate |].
  destruct (Z.eqb_spec q 0); [intros [= <-]; auto |].
  destruct (tierFor tiers type q) as [t |] eqn:E; [| discriminate]; intros [= <-].
  apply find_first_some in E as [Hin Hp]; to_prop; split; [lia | right; exists t; auto].
Qed.

(** A supported bundle of a plan is quoted. *)
Lemma calculateAddon_total tiers type q u t : In t tiers -> dt_type t = type -> dt_quantity t = q -> 0 <= q ->
  exists a, calculateAddon tiers type q u = Ok a.
Proof.
  intros Hin Ht Hq H0; unfold calculateAddon; destruct (Z.ltb_spec q 0); [lia |].
  destruct (q =? 0); [eauto |]; unfold tierFor.
  destruct (find_first _ tiers) as [t' |] eqn:E; [eauto |].
  eapply find_first_none in E; [| exact Hin]; cbn in E.
  rewrite !bool_decide_eq_true_2 in E by assumption; discriminate.
Qed.

Lemma addon_bounds tiers type q u a : calculateAddon tiers type q u = Ok a -> 0 <= u ->
  Forall (fun t => 0 <= dt_discountBasisPoints t <= 10000) tiers ->
  0 <= discountVnd a <= subtotalVnd a /\ subtotalVnd a = q * u.
Proof.
  intros H Hu Ht; apply calculateAddon_ok in H as (Hq & [[-> ->] | (t & Hin & _ & _ & -> & ->)]); [cbn; lia |].
  rewrite list.Forall_forall in Ht; apply list_elem_of_In, Ht in Hin.
  rewrite Z.quot_div_nonneg by nia; split; [| reflexivity]; split; [apply Z.div_pos; nia |].
  apply Z.div_le_upper_bound; nia.
Qed.

Lemma validatePlan_ok input d u d' : validatePlan input d = Ok (u, d') -> d' = d /\
  0 <= pi_durationAddonUnitAmountVnd input /\ 0 <= pi_tournamentAddonUnitAmountVnd input /\
  0 <= pi_baseAmountVnd input /\ 1 <= pi_baseDurationMonths input /\ 1 <= pi_baseTournamentLimit input /\
  Forall (fun t => 0 <= ti_discountBasisPoints t <= 10000) (pi_discountTiers input) /\
  NoDup (map tierKey (pi_discountTiers input)) /\ forall k, In k requiredTiers -> In k (map tierKey (pi_discountTiers input)).
Proof.
  intros H; apply bind_ok in H as ([] & d1 & H1 & H2); apply throw_if_ok in H1 as [H1 ->].
  apply throw_if_ok in H2 as [H2 ->].
  apply orb_false_elim in H1 as [H1 Htiers]; to_prop.
  split; [reflexivity |]; split_and!; try lia; try assumption.
  - apply list.Forall_forall; intros t Ht; apply list_elem_of_In in Ht.
    apply (existsb_none _ _ Htiers) in Ht; unfold tierInputInvalid in Ht; to_prop; lia.
  - match goal with H : existsb _ requiredTiers = false |- _ => rename H into Hreq end.
    intros k Hk; apply (existsb_none _ _ Hreq) in Hk; to_prop; apply list_elem_of_In; assumption.
Qed.

Lemma createPlan_ok input now a d p d' : createPlan input now a d = Ok (p, d') ->
  validatePlan input d = Ok (tt, d) /\ p = planRow input now a (db_nextId d) /\
  db_pricingPlanVersions d' =
    map_where pp_active (fun p => p <| pp_active := false |>) (db_pricingPlanVersions d) ++ [p] /\
  db_pricingDiscountTiers d' =
    db_pricingDiscountTiers d ++ numbered (tierRow (pp_id p)) (N.succ (db_nextId d)) (pi_discountTiers input).
Proof.
  unfold createPlan; intros H; apply bind_ok in H as ([] & d0 & Hv & H).
  pose proof (proj1 (validatePlan_ok _ _ _ _ Hv)) as ->; split; [exact Hv |].
  apply bind_ok in H as (prev & d1 & H1 & H); apply gets_ok in H1 as [-> ->].
  apply bind_ok in H as (n & d2 & H2 & H); apply (update_many_ok pricingPlanVersions) in H2 as (_ & _ & ->).
  apply bind_ok in H as (p0 & d3 & H3 & H); apply (create_ok pricingPlanVersions) in H3 as (-> & _ & ->).
  apply bind_ok in H as ([] & d4 & H4 & H).
  apply (create_many_run pricingDiscountTiers) in H4 as (Ht & _ & Ho).
  apply bind_ok in H as (al & d5 & H5 & H); apply (create_ok auditLogs) in H5 as (_ & _ & ->).
  apply ret_ok in H as [<- <-]; split; [reflexivity |]; split.
  - exact (Ho pricingPlanVersions ltac:(discriminate)).
  - exact Ht.
Qed.

Lemma quote_ok selection d q d' (Hs : sound d) (H : quote selection d = Ok (q, d')) :
  d' = d /\ exists p, In p (db_pricingPlanVersions d) /\ pp_active p = true /\ 1 <= pp_baseDurationMonths p /\ pricingVersionId q = pp_id p /\
  let months := default 0 (durationBundle selection) in
  let limit := default 0 (tournamentBundle selection) in
  0 <= months /\ 0 <= limit /\
  totalDurationMonths q = pp_baseDurationMonths p + months /\
  totalTournamentLimit q = pp_baseTournamentLimit p + limit /\
  pp_baseAmountVnd p <= totalPayableVnd q <=
    pp_baseAmountVnd p + months * pp_durationAddonUnitAmountVnd p + limit * pp_tournamentAddonUnitAmountVnd p.
Proof.
  apply bind_ok in H as (o & d1 & H1 & H); apply gets_ok in H1 as [-> ->].
  apply bind_ok in H as (p & d1 & H1 & H); apply or_throw_ok in H1 as [Hp ->].
  apply bind_ok in H as (tiers & d1 & H1 & H); apply gets_ok in H1 as [-> ->].
  apply from_result_ok in H as [H ->]; split; [reflexivity |].
  apply find_first_some in Hp as [Hin Hact]; exists p; split; [exact Hin |]; split; [exact Hact |].
  pose proof (wf_row pricingPlanVersions d p (proj1 Hs) Hin) as Hrow; cbn in Hrow; unfold plan_ok in Hrow.
  assert (Htiers : Forall (fun t => 0 <= dt_discountBasisPoints t <= 10000) (tiersOf (pp_id p) d)).
  { apply list.Forall_forall; intros t Ht; apply list_elem_of_In, filter_In in Ht as [Ht _].
    pose proof (wf_row pricingDiscountTiers d t (proj1 Hs) Ht) as Ho; cbn in Ho; unfold tier_ok in Ho; to_prop; lia. }
  unfold calculateQuote in H.
  destruct (calculateAddon _ DURATION _ _) as [da |] eqn:Ed; [| discriminate].
  destruct (calculateAddon _ TOURNAMENT _ _) as [ta |] eqn:Et; [| discriminate].
  injection H as <-; cbn; to_prop.
  pose proof (proj1 (calculateAddon_ok _ _ _ _ _ Ed)); pose proof (proj1 (calculateAddon_ok _ _ _ _ _ Et)).
  apply addon_bounds in Ed as [Hd Hsd]; [| lia | exact Htiers].
  apply addon_bounds in Et as [Ht Hst]; [| lia | exact Htiers].
  rewrite Hsd in *; rewrite Hst in *; split; [lia |]; split; [reflexivity |]; split_and!; lia.
Qed.

(** ** Theorems *)

(** A quote never charges less than the base amount nor more than the undiscounted total
    of the selected bundles, and grants the base months and tournaments plus the selected ones. *)
Theorem quote_bounds selection d q d' (Hs : sound d) (H : quote selection d = Ok (q, d')) :
  d' = d /\ exists p, In p (db_pricingPlanVersions d) /\ pp_active p = true /\ pricingVersionId q = pp_id p /\
  let months := default 0 (durationBundle selection) in
  let limit := default 0 (tournamentBundle selection) in
  0 <= months /\ 0 <= limit /\
  totalDurationMonths q = pp_baseDurationMonths p + months /\
  totalTournamentLimit q = pp_baseTournamentLimit p + limit /\
  pp_baseAmountVnd p <= totalPayableVnd q <=
    pp_baseAmountVnd p + months * pp_durationAddonUnitAmountVnd p + limit * pp_tournamentAddonUnitAmountVnd p.
Proof.
  destruct (quote_ok _ _ _ _ Hs H) as (-> & p & Hin & Hact & _ & Hrest); split; [reflexivity |]; exists p; auto.
Qed.

(** Publishing a plan makes it the only active one, and from then on every combination of
    the bundles on offer (no, 6 or 12 months; no, 3, 5 or 10 tournaments) is quoted under it. *)
Theorem published_plan_quotes input now a d p d' (Hs : sound d) (H : createPlan input now a d = Ok (p, d'))
    months limit (Hm : months ∈ [None; Some 6; Some 12]) (Hl : limit ∈ [None; Some 3; Some 5; Some 10]) :
  (forall x, In x (db_pricingPlanVersions d') -> pp_active x = true <-> x = p) /\
  exists q, quote (mkSelectionOf months limit) d' = Ok (q, d') /\ pricingVersionId q = pp_id p.
Proof.
  apply createPlan_ok in H as (Hv & Ep & Hplans & Htiers).
  apply validatePlan_ok in Hv as (_ & _ & _ & _ & _ & _ & _ & _ & Hreq).
  assert (Hnew : forall x, In x (db_pricingPlanVersions d') -> pp_active x = true -> x = p).
  { intros x Hx Ha; rewrite Hplans in Hx; apply in_app_iff in Hx as [Hx | [-> | []]]; [| reflexivity].
    apply in_map_where in Hx as (y & _ & ->); destruct (pp_active y) eqn:E; [discriminate Ha | congruence]. }
  assert (Hp : In p (db_pricingPlanVersions d')) by (rewrite Hplans; apply in_app_iff; right; left; reflexivity).
  assert (Hact : pp_active p = true) by (rewrite Ep; reflexivity).
  split; [intros x Hx; split; [apply Hnew, Hx | intros ->; exact Hact] |].
  assert (Hfind : find_first pp_active (db_pricingPlanVersions d') = Some p).
  { destruct (find_first pp_active _) as [x |] eqn:E.
    - apply find_first_some in E as [Hx Ha]; f_equal; auto.
    - eapply find_first_none in E; [| exact Hp]; congruence. }
  assert (Htier : forall k, In k requiredTiers ->
    exists t, In t (tiersOf (pp_id p) d') /\ dt_type t = fst k /\ dt_quantity t = snd k).
  { intros k Hk; apply Hreq, in_map_iff in Hk as (ti & <- & Hin).
    destruct (numbered_surj (tierRow (pp_id p)) (pi_discountTiers input) (N.succ (db_nextId d)) ti Hin) as (i & Hi).
    exists (tierRow (pp_id p) ti i); split; [| split; reflexivity].
    apply filter_In; rewrite Htiers; split; [apply in_app_iff; auto | apply bool_decide_eq_true_2; reflexivity]. }
  assert (Haddon : forall type k u, k ∈ match type with DURATION => [None; Some 6; Some 12]
      | TOURNAMENT => [None; Some 3; Some 5; Some 10] end ->
    exists ad, calculateAddon (tiersOf (pp_id p) d') type (default 0 k) u = Ok ad).
  { intros type k u Hk; destruct k as [k |]; [| exists (mkAddon 0 0); reflexivity].
    assert (Hrq : In (type, k) requiredTiers).
    { destruct type; repeat (apply list.elem_of_cons in Hk as [Hk | Hk]; [try discriminate Hk; injection Hk as ->; cbn; tauto |]); inversion Hk. }
    destruct (Htier _ Hrq) as (t & Hin & Hty & Hq).
    assert (H0 : 0 <= k) by (destruct type; repeat (apply list.elem_of_cons in Hk as [Hk | Hk]; [try discriminate Hk; injection Hk as ->; lia |]); inversion Hk).
    apply (calculateAddon_total _ _ _ _ t Hin Hty Hq H0). }
  destruct (Haddon DURATION months (pp_durationAddonUnitAmountVnd p) Hm) as (da & Hda).
  destruct (Haddon TOURNAMENT limit (pp_tournamentAddonUnitAmountVnd p) Hl) as (ta & Hta).
  eexists; split.
  - unfold quote; rewrite (bind_step _ _ _ (Some p) d') by (unfold find_one, gets; f_equal; f_equal; exact Hfind).
    rewrite (bind_step _ _ _ p d') by reflexivity; rewrite (bind_step _ _ _ (tiersOf (pp_id p) d') d') by reflexivity.
    unfold calculateQuote; cbn [durationBundle tournamentBundle]; rewrite Hda, Hta; reflexivity.
  - reflexivity.
Qed.

(** ** Witnesses *)

Definition samplePlan : PlanInput := mkPlanInput 500000 1 1 100000 150000
  [mkTierInput DURATION 6 500; mkTierInput DURATION 12 1000; mkTierInput TOURNAMENT 3 0;
   mkTierInput TOURNAMENT 5 500; mkTierInput TOURNAMENT 10 1500].
Definition pricedDB : DB := Eval vm_compute in after (createPlan samplePlan 0 2) waitingDB.

Lemma waitingDB_sound : sound waitingDB.
Proof. solve_sound. Defined.
Lemma pricedDB_sound : sound pricedDB.
Proof. solve_sound. Defined.

(** Twelve more months at ten percent off and three more tournaments. *)
Lemma quote_bounds_witness : exists q, quote (mkSelectionOf (Some 12) (Some 3)) pricedDB = Ok (q, pricedDB) /\
  totalPayableVnd q = 2030000 /\ totalDurationMonths q = 13.
Proof.
  destruct (quote (mkSelectionOf (Some 12) (Some 3)) pricedDB) as [[q d'] |] eqn:E; [| vm_compute in E; discriminate].
  destruct (quote_bounds _ _ _ _ pricedDB_sound E) as (-> & _).
  exists q; split; [reflexivity |]; vm_compute in E; injection E as <-; split; reflexivity.
Defined.

Lemma published_plan_quotes_witness : exists p q,
  createPlan samplePlan 0 2 waitingDB = Ok (p, pricedDB) /\
  quote (mkSelectionOf (Some 6) (Some 10)) pricedDB = Ok (q, pricedDB) /\ pricingVersionId q = pp_id p.
Proof.
  destruct (createPlan samplePlan 0 2 waitingDB) as [[p d'] |] eqn:E; [| vm_compute in E; discriminate].
  assert (Ed : d' = pricedDB) by (vm_compute in E; injection E as _ <-; reflexivity); subst d'.
  destruct (published_plan_quotes _ _ _ _ _ _ waitingDB_sound E (Some 6) (Some 10)) as (_ & q & Hq & Hid).
  - apply (bool_decide_eq_true_1 _); reflexivity.
  - apply (bool_decide_eq_true_1 _); reflexivity.
  - exists p, q; auto.
Defined.
