(* ===== verification/Entitlements.v ===== *)
(** * Entitlements

    subscriptions/admin-access.policy.ts and subscriptions/subscriptions.service.ts: the
    state an administrator's subscription is in at a time, its activation and renewal, and
    the quota it reports. Concurrent activations are ordered by the Serializable isolation
    of the transaction. *)
From stdpp Require Import pretty.
From S2P Require Import Prelude Schema Database Rules Scenario Calendar Pricing.

(** ** The access policy *)

Definition ADMIN_GRACE_MONTHS : Z := 12.

Inductive AdminAccessState : Type :=
  | ACTIVE_ADMIN | EXPIRED_READ_ONLY | HIDDEN | ACCESS_SUSPENDED | ACCESS_REVOKED.
#[export] Instance AdminAccessState_eq_dec : EqDecision AdminAccessState. Proof. solve_decision. Defined.

Definition adminAccessEndedAt (e : EntitlementRow) : timestamp :=
  default (ae_activeUntil e) (ae_adminAccessEndedAt e).

Definition calculateAdminAccessState (databaseRole : UserRole) (entitlement : option EntitlementRow)
    (now : timestamp) : AdminAccessState :=
  if databaseRole === SUPER_ADMIN then ACTIVE_ADMIN
  else match entitlement with
  | None => HIDDEN
  | Some e =>
      if ae_status e === ENTITLEMENT_SUSPENDED then ACCESS_SUSPENDED
      else if ae_status e === ENTITLEMENT_REVOKED then ACCESS_REVOKED
      else if (ae_status e === ENTITLEMENT_ACTIVE) && (ae_activeFrom e <=? now) && (now <? ae_activeUntil e)
      then ACTIVE_ADMIN
      else if ((ae_status e === ENTITLEMENT_EXPIRED) ||
               ((ae_status e === ENTITLEMENT_ACTIVE) && (ae_activeUntil e <=? now))) &&
              (now <? addUtcMonths (adminAccessEndedAt e) ADMIN_GRACE_MONTHS)
      then EXPIRED_READ_ONLY
      else HIDDEN
  end.

Definition isActiveAdminState (state : AdminAccessState) : bool := state === ACTIVE_ADMIN.

Definition entitlementOf (userId : uuid) (d : DB) : option EntitlementRow :=
  find_first (fun e => ae_userId e === userId) (db_adminEntitlements d).
Definition userOf (id : uuid) (d : DB) : option UserRow :=
  find_first (fun u => us_id u === id) (db_users d).

(** ** Activation *)

(** [AuthenticatedUser], as far as the services read it *)
Record Actor : Type := mkActor { actor_id : uuid; actor_role : UserRole }.

Record ActivateInput : Type := mkActivateInput {
  ai_durationBundle : option Z; ai_tournamentBundle : option Z; ai_idempotencyKey : string }.

Definition assertSubscriptionAllowed (role : option UserRole) : DbM unit :=
  throw_if (role === Some SUPER_ADMIN) (Forbidden "SUPER_ADMIN_SUBSCRIPTION_NOT_ALLOWED").

Definition addonJson (a : PricingAddon) : json :=
  JObj [("subtotalVnd", JNum (subtotalVnd a)); ("discountVnd", JNum (discountVnd a))]%string.
Definition quoteJson (q : Quote) : json :=
  JObj [("pricingVersionId", JId (pricingVersionId q)); ("baseAmountVnd", JNum (baseAmountVnd q));
        ("durationAddon", addonJson (durationAddon q)); ("tournamentAddon", addonJson (tournamentAddon q));
        ("totalDurationMonths", JNum (totalDurationMonths q));
        ("totalTournamentLimit", JNum (totalTournamentLimit q));
        ("totalPayableVnd", JNum (totalPayableVnd q))]%string.

Definition orderRow (actorId : uuid) (input : ActivateInput) (q : Quote) (id : uuid) : OrderRow :=
  mkOrderRow id actorId (pricingVersionId q) (ai_idempotencyKey input)
    (default 0 (ai_durationBundle input)) (default 0 (ai_tournamentBundle input))
    (totalDurationMonths q) (totalTournamentLimit q) (quoteJson q) (totalPayableVnd q).

(** [if (order) { if (order.userId !== actor.id) throw new ForbiddenException(); return order }] *)
Definition replayOrder (actorId : uuid) (o : OrderRow) : DbM OrderRow :=
  throw_if (so_userId o !== actorId) (Forbidden "Forbidden");; mret o.

Definition orderOf (key : string) : DbM (option OrderRow) :=
  find_one subscriptionOrders (fun o => so_idempotencyKey o === key).

Definition running (current : option EntitlementRow) (now : timestamp) : option EntitlementRow :=
  match current with
  | Some e => if (ae_status e === ENTITLEMENT_ACTIVE) && (now <? ae_activeUntil e) then Some e else None
  | None => None
  end.

(** [tx.adminEntitlement.upsert] of the user whose entitlement is [current]. *)
Definition upsertEntitlement (userId : uuid) (current : option EntitlementRow) (mk : uuid -> EntitlementRow)
    (data : EntitlementRow -> EntitlementRow) : DbM EntitlementRow :=
  match current with
  | None => create adminEntitlements mk
  | Some _ => update adminEntitlements (fun x => ae_userId x === userId) data
  end.

Definition grantEntitlement (userId : uuid) (current : option EntitlementRow) (now until : timestamp) (limit : Z)
    : DbM EntitlementRow :=
  upsertEntitlement userId current
    (fun id => mkEntitlementRow id userId ENTITLEMENT_ACTIVE now until limit None)
    (fun x => x <| ae_status := ENTITLEMENT_ACTIVE |>
                <| ae_activeFrom := match running current now with Some e => ae_activeFrom e | None => now end |>
                <| ae_activeUntil := until |> <| ae_tournamentLimit := limit |>
                <| ae_adminAccessEndedAt := None |>).

Definition lapsed (t : TournamentRow) : bool :=
  (tn_deletionReason t === Some ADMIN_SUBSCRIPTION_LAPSED) && set_ (tn_softDeletedAt t).
Definition restoredTournament (now : timestamp) (t : TournamentRow) : TournamentRow :=
  t <| tn_deletionReason := None |> <| tn_purgeAfter := None |> <| tn_restoredAt := Some now |>
    <| tn_softDeletedAt := None |>.

(** The transaction of [activate]. *)
Definition activateTx (actor : Actor) (input : ActivateInput) (q : Quote) (now : timestamp) : DbM OrderRow :=
  user ← gets (userOf (actor_id actor));
  assertSubscriptionAllowed (option_map us_role user);;
  duplicate ← orderOf (ai_idempotencyKey input);
  match duplicate with
  | Some o => replayOrder (actor_id actor) o
  | None =>
      current ← gets (entitlementOf (actor_id actor));
      let active := running current now in
      let starts := match active with Some e => ae_activeUntil e | None => now end in
      let until := addUtcMonths starts (totalDurationMonths q) in
      let limit := match active with Some e => ae_tournamentLimit e | None => 0 end + totalTournamentLimit q in
      order ← create subscriptionOrders (orderRow (actor_id actor) input q);
      _ ← grantEntitlement (actor_id actor) current now until limit;
      _ ← update_many tournaments (fun t => lapsed t && (tn_ownerUserId t === actor_id actor)) (restoredTournament now);
      updatedUser ← update_many users (fun u => (us_id u === actor_id actor) && (us_role u !== SUPER_ADMIN))
                      (fun u => u <| us_role := ADMIN |>);
      throw_if (negb (bool_decide (updatedUser = 1%nat))) (Forbidden "SUPER_ADMIN_SUBSCRIPTION_NOT_ALLOWED");;
      _ ← create auditLogs (fun id => mkAuditRow id None (Some (actor_id actor)) None None ADMIN_ACTION
        (JObj [("action", JStr "SUBSCRIPTION_SIMULATED_SUCCESS"); ("orderId", JId (so_id order))]%string));
      mret order
  end.

(** [catch (error)]: a lost race for the key is answered like a replay. *)
Definition orElseReplay (actorId : uuid) (key : string) (c : DbM OrderRow) : DbM OrderRow := fun d =>
  match c d with
  | Err UniqueViolation =>
      match find_first (fun o => so_idempotencyKey o === key) (db_subscriptionOrders d) with
      | Some o => replayOrder actorId o d
      | None => Err UniqueViolation
      end
  | r => r
  end.

(** [SubscriptionsService.activate] *)
Definition activate (actor : Actor) (input : ActivateInput) (now : timestamp) : DbM OrderRow :=
  assertSubscriptionAllowed (Some (actor_role actor));;
  throw_if (trim (ai_idempotencyKey input) === EmptyString) (Conflict "INVALID_IDEMPOTENCY_KEY");;
  old ← orderOf (ai_idempotencyKey input);
  match old with
  | Some o => replayOrder (actor_id actor) o
  | None =>
      q ← quote (mkSelectionOf (ai_durationBundle input) (ai_tournamentBundle input));
      orElseReplay (actor_id actor) (ai_idempotencyKey input) (activateTx actor input q now)
  end.

(** ** The subscription page *)

Record MeView : Type := mkMeView {
  me_entitlement : EntitlementRow; me_accessState : AdminAccessState; me_readOnlyUntil : timestamp;
  me_usedTournamentQuota : Z; me_remainingTournamentQuota : Z }.

Definition ownedBy (userId : uuid) (t : TournamentRow) : bool := tn_ownerUserId t === userId.

(** [SubscriptionsService.me] *)
Definition me (userId : uuid) (now : timestamp) : DbM (option MeView) :=
  user ← gets (userOf userId);
  used ← count tournaments (fun t => ownedBy userId t && (tn_softDeletedAt t === None));
  entitlement ← gets (fun d => match user with Some _ => entitlementOf userId d | None => None end);
  mret (match entitlement with
        | None => None
        | Some e => Some (mkMeView e
            (calculateAdminAccessState (match user with Some u => us_role u | None => USER end) entitlement now)
            (addUtcMonths (adminAccessEndedAt e) 12) used (Z.max 0 (ae_tournamentLimit e - used)))
        end).

(** ** Lemmas *)

Lemma replayOrder_ok a o d r d' : replayOrder a o d = Ok (r, d') -> so_userId o = a /\ r = o /\ d' = d.
Proof.
  intros H; apply bind_ok in H as ([] & d1 & H1 & H2); apply throw_if_ok in H1 as [H1 ->].
  apply ret_ok in H2 as [<- <-]; to_prop; auto.
Qed.

Lemma orderOf_ok key d o d' : orderOf key d = Ok (o, d') ->
  d' = d /\ o = find_first (fun o => so_idempotencyKey o === key) (db_subscriptionOrders d).
Proof. intros H; apply gets_ok in H as [-> ->]; auto. Qed.

Lemma assertSubscriptionAllowed_ok r d u d' : assertSubscriptionAllowed r d = Ok (u, d') -> d' = d /\ r <> Some SUPER_ADMIN.
Proof. intros H; apply throw_if_ok in H as [H ->]; to_prop; auto. Qed.

Lemma entitlementOf_app l x userId :
  find_first (fun e => ae_userId e === userId) (l ++ [x]) =
  match find_first (fun e => ae_userId e === userId) l with
  | Some e => Some e | None => if ae_userId x === userId then Some x else None end.
Proof. rewrite find_first_app; reflexivity. Qed.

(** What the upsert leaves, for the user and for everyone else. *)
Lemma upsertEntitlement_ok a mk data d r d' :
  upsertEntitlement a (entitlementOf a d) mk data d = Ok (r, d') ->
  (forall n, ae_userId (mk n) = a) -> (forall x, ae_userId (data x) = ae_userId x) ->
  r = match entitlementOf a d with Some e => data e | None => mk (db_nextId d) end /\
  entitlementOf a d' = Some r /\ (forall x, x <> a -> entitlementOf x d' = entitlementOf x d) /\
  touches [adminEntitlements] d d'.
Proof.
  unfold upsertEntitlement; destruct (entitlementOf a d) as [e |] eqn:E; intros H Hmk Hdata.
  - pose proof (touches_update adminEntitlements [adminEntitlements] _ _ ltac:(table_in) _ _ _ H) as Ht.
    apply (update_ok adminEntitlements) in H as (x & Hx & -> & _ & ->).
    assert (x = e) as -> by (pose proof (eq_trans (eq_sym Hx) E); congruence).
    assert (Hext : forall y, entitlementOf y (put adminEntitlements (map_where (fun x => ae_userId x === a) data (get adminEntitlements d)) d) =
      option_map (fun x => if ae_userId x === a then data x else x) (entitlementOf y d)).
    { intros y; unfold entitlementOf; change db_adminEntitlements with (get adminEntitlements); rewrite get_put_same.
      apply find_first_map_where; intros x _; rewrite Hdata; reflexivity. }
    split; [reflexivity |]; split; [| split; [| exact Ht]].
    + rewrite Hext, E; cbn; apply find_first_some in E as [_ E]; rewrite E; reflexivity.
    + intros y Hy; rewrite Hext; destruct (entitlementOf y d) as [z |] eqn:Ez; [| reflexivity]; cbn.
      apply find_first_some in Ez as [_ Ez]; to_prop; rewrite bool_decide_eq_false_2 by congruence; reflexivity.
  - pose proof (touches_create adminEntitlements [adminEntitlements] _ ltac:(table_in) _ _ _ H) as Ht.
    apply (create_ok adminEntitlements) in H as (-> & _ & ->).
    assert (Hext : forall y l, entitlementOf y (put adminEntitlements (get adminEntitlements d ++ [mk (db_nextId d)]) l) =
      match entitlementOf y d with Some e => Some e | None => if ae_userId (mk (db_nextId d)) === y then Some (mk (db_nextId d)) else None end).
    { intros y l; unfold entitlementOf; change db_adminEntitlements with (get adminEntitlements); rewrite get_put_same; apply entitlementOf_app. }
    split; [reflexivity |]; split; [| split; [| exact Ht]].
    + rewrite Hext, E, Hmk, bool_decide_eq_true_2 by reflexivity; reflexivity.
    + intros y Hy; rewrite Hext, Hmk, bool_decide_eq_false_2 by congruence; destruct (entitlementOf y d); reflexivity.
Qed.

Lemma upsertEntitlement_sound a c mk data : (forall n, ae_id (mk n) = n) -> (forall x, ae_id (data x) = ae_id x) ->
  respects keeps_sound (upsertEntitlement a c mk data).
Proof.
  intros Hm Hd; unfold upsertEntitlement; destruct c as [e |].
  - apply (keeps_sound_update adminEntitlements); intros x; cbn; rewrite Hd; reflexivity.
  - apply (keeps_sound_create adminEntitlements); intros n i H; cbn in H; rewrite Hm in H; congruence.
Qed.

(** A committed activation replays a stored order or runs the transaction under a quote. *)
Lemma activate_ok actor input now d o d' (Hs : sound d) : activate actor input now d = Ok (o, d') ->
  actor_role actor <> SUPER_ADMIN /\
  (find_first (fun o => so_idempotencyKey o === ai_idempotencyKey input) (db_subscriptionOrders d) = Some o /\
     so_userId o = actor_id actor /\ d' = d \/
   find_first (fun o => so_idempotencyKey o === ai_idempotencyKey input) (db_subscriptionOrders d) = None /\
   exists q, quote (mkSelectionOf (ai_durationBundle input) (ai_tournamentBundle input)) d = Ok (q, d) /\
     activateTx actor input q now d = Ok (o, d')).
Proof.
  intros H; apply bind_ok in H as ([] & d1 & H1 & H); apply assertSubscriptionAllowed_ok in H1 as [-> Hr].
  apply bind_ok in H as ([] & d1 & H1 & H); apply throw_if_ok in H1 as [_ ->].
  apply bind_ok in H as (old & d1 & H1 & H); apply orderOf_ok in H1 as [-> ->].
  split; [congruence |]; destruct (find_first _ (db_subscriptionOrders d)) as [o' |] eqn:E.
  - apply replayOrder_ok in H as (Hu & -> & ->); left; auto.
  - apply bind_ok in H as (q & d1 & H1 & H); destruct (quote_ok _ _ _ _ Hs H1) as [-> _].
    right; split; [reflexivity |]; exists q; split; [exact H1 |].
    unfold orElseReplay in H; destruct (activateTx _ _ _ _ d) as [r | e]; [exact H |].
    destruct e; try discriminate H; rewrite E in H; discriminate H.
Qed.

Lemma activateTx_ok actor input q now d o d' : activateTx actor input q now d = Ok (o, d') ->
  find_first (fun o => so_idempotencyKey o === ai_idempotencyKey input) (db_subscriptionOrders d) = None ->
  o = orderRow (actor_id actor) input q (db_nextId d) /\ db_subscriptionOrders d' = db_subscriptionOrders d ++ [o] /\
  (exists e, entitlementOf (actor_id actor) d' = Some e /\ ae_status e = ENTITLEMENT_ACTIVE /\
     ae_activeFrom e = match running (entitlementOf (actor_id actor) d) now with Some e => ae_activeFrom e | None => now end /\
     ae_activeUntil e = addUtcMonths match running (entitlementOf (actor_id actor) d) now with
       Some e => ae_activeUntil e | None => now end (totalDurationMonths q) /\
     ae_tournamentLimit e = match running (entitlementOf (actor_id actor) d) now with
       Some e => ae_tournamentLimit e | None => 0 end + totalTournamentLimit q) /\
  (forall x, x <> actor_id actor -> entitlementOf x d' = entitlementOf x d) /\
  db_tournaments d' = map_where (fun t => lapsed t && (tn_ownerUserId t === actor_id actor))
    (restoredTournament now) (db_tournaments d) /\
  touches [subscriptionOrders; adminEntitlements; tournaments; users; auditLogs] d d'.
Proof.
  intros H Hnew; apply bind_ok in H as (user & d1 & H1 & H); apply gets_ok in H1 as [-> ->].
  apply bind_ok in H as ([] & d1 & H1 & H); apply assertSubscriptionAllowed_ok in H1 as [-> _].
  apply bind_ok in H as (dup & d1 & H1 & H); apply orderOf_ok in H1 as [-> ->]; rewrite Hnew in H.
  apply bind_ok in H as (cur & d1 & H1 & H); apply gets_ok in H1 as [-> ->].
  apply bind_ok in H as (ord & d1 & H1 & H); apply (create_ok subscriptionOrders) in H1 as (-> & _ & E1).
  apply bind_ok in H as (g & d2 & H2 & H).
  assert (Ee : forall x, entitlementOf x d = entitlementOf x d1) by (intros x; rewrite E1; reflexivity).
  rewrite Ee in H2; apply upsertEntitlement_ok in H2 as (Eg & He & Hother & Ht2); [| reflexivity..].
  apply bind_ok in H as (n & d3 & H3 & H); apply (update_many_ok tournaments) in H3 as (_ & _ & E3).
  apply bind_ok in H as (n' & d4 & H4 & H); apply (update_many_ok users) in H4 as (_ & _ & E4).
  apply bind_ok in H as ([] & d5 & H5 & H); apply throw_if_ok in H5 as [_ ->].
  apply bind_ok in H as (al & d6 & H6 & H); apply (create_ok auditLogs) in H6 as (_ & _ & E6).
  apply ret_ok in H as [<- <-].
  assert (Ee' : forall x, entitlementOf x d6 = entitlementOf x d2) by (intros x; rewrite E6, E4, E3; reflexivity).
  split; [reflexivity |]; split.
  { rewrite E6, E4, E3; cbn -[get]; change (db_subscriptionOrders d2) with (get subscriptionOrders d2).
    rewrite (Ht2 subscriptionOrders ltac:(table_notin)), E1; reflexivity. }
  split; [exists g; rewrite Ee'; split; [exact He |]; rewrite Eg, <- !Ee; destruct (entitlementOf _ d); cbn -[running]; auto |].
  split; [intros x Hx; rewrite Ee', (Hother x Hx), <- Ee; reflexivity |]; split.
  { rewrite E6, E4, E3; cbn -[map_where get lapsed]; rewrite (Ht2 tournaments ltac:(table_notin)), E1; reflexivity. }
  intros t Ht; rewrite E6, E4, E3.
  rewrite get_put_other, get_nextId, !get_put_other by (intros ->; apply Ht; table_in).
  rewrite (Ht2 t) by (intros Hin; apply list_elem_of_singleton in Hin as ->; apply Ht; table_in).
  rewrite E1, get_put_other, get_nextId by (intros ->; apply Ht; table_in); reflexivity.
Qed.

Lemma orders_unique d o key : wf d -> In o (db_subscriptionOrders d) -> so_idempotencyKey o = key ->
  find_first (fun o => so_idempotencyKey o === key) (db_subscriptionOrders d) = Some o.
Proof.
  intros Hw Hin Hk; match goal with |- find_first ?p ?l = _ => destruct (find_first p l) as [o' |] eqn:E end.
  - apply find_first_some in E as [Hin' E]; to_prop; f_equal.
    specialize (Hw subscriptionOrders); apply table_ok_true in Hw as (_ & _ & Hix); cbn in Hix.
    apply (unique_by_inj _ _ _ _ key Hix Hin' Hin); cbn; congruence.
  - exfalso; pose proof (proj1 (find_first_none _ _) E o Hin) as Ho; cbn in Ho.
    rewrite bool_decide_eq_true_2 in Ho by exact Hk; discriminate.
Qed.

Lemma activateTx_sound actor input q now : respects keeps_sound (activateTx actor input q now).
Proof.
  unfold activateTx, replayOrder, assertSubscriptionAllowed, orderOf, grantEntitlement.
  repeat first [apply (respects_gets keeps_sound); intros ?; reflexivity
    | apply respects_bind; [apply _ | |]; intros | apply respects_throw_if; apply _ | apply respects_ret; apply _
    | apply respects_find_one; apply _ | apply upsertEntitlement_sound; reflexivity
    | apply (keeps_sound_update_many tournaments); intros; reflexivity
    | apply (keeps_sound_update_many users); intros; reflexivity
    | apply (keeps_sound_create subscriptionOrders); intros ? ? Hid; inversion Hid; reflexivity
    | apply (keeps_sound_create auditLogs); intros ? ? Hid; inversion Hid; reflexivity
    | match goal with |- respects _ (match ?o with Some _ => _ | None => _ end) => destruct o end].
Qed.

(** The answer is the order stored under the key, and the store stays sound. *)
Lemma activate_stored actor input now d o d' (Hs : sound d) : activate actor input now d = Ok (o, d') ->
  sound d' /\ In o (db_subscriptionOrders d') /\ so_userId o = actor_id actor /\
  so_idempotencyKey o = ai_idempotencyKey input.
Proof.
  intros H; destruct (activate_ok _ _ _ _ _ _ Hs H) as (_ & [(Ho & Hu & ->) | (Hnew & q & _ & Htx)]).
  - apply find_first_some in Ho as [Hin Hk]; to_prop; auto.
  - split; [eapply activateTx_sound; eassumption |].
    destruct (activateTx_ok _ _ _ _ _ _ _ Htx Hnew) as (-> & -> & _); split; [apply in_app_iff; right; left |]; auto.
Qed.

(** A month of the plan is at least a month of access. *)
Lemma quote_months selection d q d' (Hs : sound d) : quote selection d = Ok (q, d') -> 1 <= totalDurationMonths q.
Proof.
  intros H; destruct (quote_ok _ _ _ _ Hs H) as (_ & p & _ & _ & Hb & _ & Hm & _ & -> & _); cbn in Hm; lia.
Qed.

Lemma state_running role e now :
  ae_status e = ENTITLEMENT_ACTIVE -> ae_activeFrom e <= now < ae_activeUntil e ->
  calculateAdminAccessState role (Some e) now = ACTIVE_ADMIN.
Proof.
  intros Hst [Hf Hu]; unfold calculateAdminAccessState; destruct (role === SUPER_ADMIN); [reflexivity |].
  apply Z.leb_le in Hf; apply Z.ltb_lt in Hu; rewrite Hst, Hf, Hu; reflexivity.
Qed.

(** ** Theorems *)

(** Without writes access only declines. An entitlement that was never ended early gives
    full access exactly from its first instant to its last, read-only access for the twelve
    calendar months after it, and none before or after that; whatever its status, a later time
    never gives more access than an earlier one in which it had begun, and a suspended or
    revoked user stays so. *)
Theorem access_timeline role e (Hr : role <> SUPER_ADMIN) :
  (ae_status e = ENTITLEMENT_ACTIVE -> ae_adminAccessEndedAt e = None ->
   ae_activeFrom e <= ae_activeUntil e -> forall now,
   calculateAdminAccessState role (Some e) now =
   if now <? ae_activeFrom e then HIDDEN else if now <? ae_activeUntil e then ACTIVE_ADMIN
   else if now <? addUtcMonths (ae_activeUntil e) ADMIN_GRACE_MONTHS then EXPIRED_READ_ONLY else HIDDEN) /\
  (forall t t', ae_activeFrom e <= t <= t' ->
   let s := calculateAdminAccessState role (Some e) t in
   let s' := calculateAdminAccessState role (Some e) t' in
   s' = s \/ s = ACTIVE_ADMIN /\ (s' = EXPIRED_READ_ONLY \/ s' = HIDDEN) \/ s = EXPIRED_READ_ONLY /\ s' = HIDDEN).
Proof.
  split.
  - intros Hst Hend Hfu now.
    unfold calculateAdminAccessState, adminAccessEndedAt; rewrite Hend, Hst; cbn [default].
    rewrite bool_decide_eq_false_2 by exact Hr; cbn -[addUtcMonths Z.leb Z.ltb].
    destruct (Z.leb_spec (ae_activeFrom e) now), (Z.ltb_spec now (ae_activeFrom e)),
      (Z.ltb_spec now (ae_activeUntil e)), (Z.leb_spec (ae_activeUntil e) now); try lia; cbn -[addUtcMonths Z.leb Z.ltb];
      try reflexivity.
  - intros t t' Ht; unfold calculateAdminAccessState; rewrite bool_decide_eq_false_2 by exact Hr.
    destruct (ae_status e); cbn -[addUtcMonths Z.leb Z.ltb]; auto;
      destruct (Z.leb_spec (ae_activeFrom e) t), (Z.leb_spec (ae_activeFrom e) t'), (Z.ltb_spec t (ae_activeUntil e)),
        (Z.ltb_spec t' (ae_activeUntil e)), (Z.leb_spec (ae_activeUntil e) t), (Z.leb_spec (ae_activeUntil e) t'),
        (Z.ltb_spec t (addUtcMonths (adminAccessEndedAt e) ADMIN_GRACE_MONTHS)),
        (Z.ltb_spec t' (addUtcMonths (adminAccessEndedAt e) ADMIN_GRACE_MONTHS)); try lia; cbn; auto 8.
Qed.

(** A new activation stores the order under the current quote and leaves the user with an
    ACTIVE entitlement: a running one is extended by the quoted calendar months from its end and
    its tournament limit raised by the quoted number, otherwise a new term starts now; from its
    first instant to its end (which lies ahead) the user has full access. None of the user's
    tournaments is left hidden by an earlier lapse, and other users' entitlements and
    tournaments are untouched. *)
Theorem activation_grants actor input now d o d' (Hs : sound d) (H : activate actor input now d = Ok (o, d'))
    (Hnew : orderOf (ai_idempotencyKey input) d = Ok (None, d)) :
  exists q e, quote (mkSelectionOf (ai_durationBundle input) (ai_tournamentBundle input)) d = Ok (q, d) /\
  let before := running (entitlementOf (actor_id actor) d) now in
  let starts := match before with Some e => ae_activeUntil e | None => now end in
  db_subscriptionOrders d' = db_subscriptionOrders d ++ [o] /\ so_userId o = actor_id actor /\
  so_totalAmountVnd o = totalPayableVnd q /\
  entitlementOf (actor_id actor) d' = Some e /\
  ae_activeFrom e = match before with Some e => ae_activeFrom e | None => now end /\
  ae_activeUntil e = addUtcMonths starts (totalDurationMonths q) /\
  ae_tournamentLimit e = match before with Some e => ae_tournamentLimit e | None => 0 end + totalTournamentLimit q /\
  (100 <= getUTCFullYear starts -> now < ae_activeUntil e) /\
  (forall role t, ae_activeFrom e <= t < ae_activeUntil e ->
     calculateAdminAccessState role (Some e) t = ACTIVE_ADMIN) /\
  (forall t, In t (db_tournaments d') -> tn_ownerUserId t = actor_id actor -> lapsed t = false) /\
  (forall x, x <> actor_id actor -> entitlementOf x d' = entitlementOf x d /\
     List.filter (ownedBy x) (db_tournaments d') = List.filter (ownedBy x) (db_tournaments d)).
Proof.
  destruct (activate_ok _ _ _ _ _ _ Hs H) as (_ & [(Ho & _) | (Hno & q & Hq & Htx)]).
  { injection Hnew as Hnew; exfalso; pose proof (eq_trans (eq_sym Ho) Hnew); discriminate. }
  destruct (activateTx_ok _ _ _ _ _ _ _ Htx Hno) as (-> & Hord & (e & He & Hst & Hf & Hu & Hl) & Hoth & Htn & _).
  exists q, e; split; [exact Hq |]; intros before starts; split_and!; auto.
  - intros Hy; rewrite Hu; eapply Z.le_lt_trans;
      [| apply addUtcMonths_later; [exact Hy | eapply quote_months; eassumption]].
    subst starts before; unfold running; destruct (entitlementOf _ d) as [c |]; [| lia].
    destruct (ae_status c === ENTITLEMENT_ACTIVE), (Z.ltb_spec now (ae_activeUntil c)); cbn; lia.
  - intros role t Ht; apply state_running; auto.
  - intros t Ht Hown; rewrite Htn in Ht; apply in_map_where in Ht as (t0 & _ & ->).
    destruct (lapsed t0 && _) eqn:E; [reflexivity |].
    rewrite bool_decide_eq_true_2 in E by exact Hown; rewrite andb_true_r in E; exact E.
  - intros x Hx; split; [apply Hoth, Hx |]; rewrite Htn; apply filter_map_where.
    intros t Ht; apply andb_true_iff in Ht as [_ Ht]; apply bool_decide_eq_true in Ht; unfold ownedBy; cbn.
    rewrite Ht, bool_decide_eq_false_2 by congruence; auto.
Qed.

(** Activation happens once per idempotency key: after it any later request with the key is
    answered with the same order and changes nothing when it is the buyer's, and is refused when
    it is someone else's. *)
Theorem activation_once actor input now d o d' (Hs : sound d) (H : activate actor input now d = Ok (o, d'))
    actor' input' now' (Hk : ai_idempotencyKey input' = ai_idempotencyKey input)
    (Hr : actor_role actor' <> SUPER_ADMIN) :
  activate actor' input' now' d' =
  if actor_id actor' === actor_id actor then Ok (o, d') else Err (Forbidden "Forbidden").
Proof.
  destruct (activate_stored _ _ _ _ _ _ Hs H) as (Hs' & Hin & Hu & Hko).
  apply bind_ok in H as ([] & d1 & H1 & H); apply bind_ok in H as ([] & d2 & H2 & _).
  apply throw_if_ok in H2 as [Hblank _]; rewrite <- Hk in Hblank, Hko.
  unfold activate, assertSubscriptionAllowed; rewrite (bind_step _ _ _ tt d').
  2: { apply throw_if_ok; split; [| reflexivity]; apply bool_decide_eq_false_2; congruence. }
  rewrite (bind_step _ _ _ tt d') by (apply throw_if_ok; auto).
  rewrite (bind_step _ _ _ (Some o) d') by (unfold orderOf, find_one, gets; f_equal; f_equal;
    exact (orders_unique _ _ _ (proj1 Hs') Hin Hko)).
  unfold replayOrder; rewrite Hu; destruct (decide (actor_id actor' = actor_id actor)) as [E | E].
  - rewrite !bool_decide_eq_true_2 by congruence; reflexivity.
  - rewrite !bool_decide_eq_false_2 by congruence; reflexivity.
Qed.

(** ** Witnesses *)

Definition sampleUser (id : uuid) (role : UserRole) : UserRow :=
  mkUserRow id (pretty id) (pretty id) (Some "User"%string) None None None None None "hash" role true None.

(** 31 January 2024. *)
Definition newYear : timestamp := 1706696430456.

(** User 2 still has a day left; a tournament of theirs was hidden by an earlier lapse. *)
Definition subscriberDB : DB := pricedDB <| db_users := [sampleUser 2 ADMIN; sampleUser 4 USER] |>
  <| db_adminEntitlements := [mkEntitlementRow 900 2 ENTITLEMENT_ACTIVE 0 (newYear + MS_PER_DAY) 2 None] |>
  <| db_tournaments := [sampleTournament <| tn_softDeletedAt := Some 5 |>
                          <| tn_deletionReason := Some ADMIN_SUBSCRIPTION_LAPSED |>] |>.
Lemma subscriberDB_sound : sound subscriberDB.
Proof. solve_sound. Defined.
Definition sampleOrder : ActivateInput := mkActivateInput (Some 12) None "key".

Lemma access_timeline_witness :
  map (calculateAdminAccessState ADMIN (Some (mkEntitlementRow 900 2 ENTITLEMENT_ACTIVE 0 newYear 2 None)))
    [-1; 0; newYear; addUtcMonths newYear 12 - 1; addUtcMonths newYear 12] =
  [HIDDEN; ACTIVE_ADMIN; EXPIRED_READ_ONLY; EXPIRED_READ_ONLY; HIDDEN].
Proof.
  assert (H := fun t => proj1 (access_timeline ADMIN (mkEntitlementRow 900 2 ENTITLEMENT_ACTIVE 0 newYear 2 None)
    ltac:(discriminate)) eq_refl eq_refl ltac:(discriminate) t).
  cbn [map]; rewrite !H; vm_compute; reflexivity.
Defined.

Lemma activation_grants_witness : exists o d' e, activate (mkActor 2 ADMIN) sampleOrder newYear subscriberDB = Ok (o, d') /\
  entitlementOf 2 d' = Some e /\ ae_tournamentLimit e = 3 /\ so_totalAmountVnd o = 1580000.
Proof.
  destruct (activate (mkActor 2 ADMIN) sampleOrder newYear subscriberDB) as [[o d'] |] eqn:E; [| vm_compute in E; discriminate].
  destruct (activation_grants _ _ _ _ _ _ subscriberDB_sound E eq_refl) as (q & e & Hq & _ & _ & Ht & He & _ & _ & Hl & _).
  exists o, d', e; split; [reflexivity |]; split; [exact He |].
  vm_compute in Hq; injection Hq as <-; split; [rewrite Hl | rewrite Ht]; vm_compute; reflexivity.
Defined.

Lemma activation_once_witness : exists o d', activate (mkActor 2 ADMIN) sampleOrder newYear subscriberDB = Ok (o, d') /\
  activate (mkActor 2 ADMIN) sampleOrder (newYear + 1) d' = Ok (o, d') /\
  activate (mkActor 4 USER) sampleOrder (newYear + 1) d' = Err (Forbidden "Forbidden").
Proof.
  destruct (activate (mkActor 2 ADMIN) sampleOrder newYear subscriberDB) as [[o d'] |] eqn:E; [| vm_compute in E; discriminate].
  exists o, d'; split; [reflexivity |].
  split; rewrite (activation_once _ _ _ _ _ _ subscriberDB_sound E) by (reflexivity || discriminate); reflexivity.
Defined.
