(* ===== verification/MediaDeletion.v ===== *)
(** * MediaDeletion

    media/media-deletion.service.ts and media-deletion.outbox.ts: the durable outbox of image
    deletions. A worker's run is a sequence of database calls that commit one by one and of calls
    to the object store; the store is a parameter, its answer to a delete given the deletes asked
    of it before. Another worker's calls can only come between those of a run; the lease is what
    keeps the two apart, and is studied on the single calls. *)
From stdpp Require Import pretty.
From S2P Require Import Prelude Schema Database Rules Scenario.

Definition LEASE_MS : Z := 5 * 60000.
Definition PROTECTED_RECHECK_MS : Z := 15 * 60000.
Definition FAILURE_BACKOFF_MIN_MS : Z := 5 * 60000.
Definition FAILURE_BACKOFF_MAX_MS : Z := 60 * 60000.

Definition failureBackoffMs (previousAttempts : Z) : Z :=
  Z.min (FAILURE_BACKOFF_MIN_MS * 2 ^ Z.min previousAttempts 20) FAILURE_BACKOFF_MAX_MS.

(** [enqueueMediaDeletion]; [at_] is the time of the database. *)
Definition enqueueMediaDeletion (storageKey : option string) (reason : string) (at_ : timestamp) : DbM unit :=
  match storageKey with
  | None => mret tt
  | Some key =>
      queued ← find_one mediaDeletions (fun r => md_storageKey r === key);
      match queued with
      | Some _ => mret tt
      | None => _ ← create mediaDeletions (fun id => mkMediaDeletionRow id key reason at_ 0 None None at_ None None); mret tt
      end
  end.

(** ** One run of a worker *)

Record World : Type := mkWorld { w_db : DB; w_deletes : list string }.
Abbreviation IO A := (tx World error A).

Definition lift {A} (c : DbM A) : IO A := fun w =>
  match c (w_db w) with Ok (a, d) => Ok (a, mkWorld d (w_deletes w)) | Err e => Err e end.

(** Due and not leased. *)
Definition due (now : timestamp) (r : MediaDeletionRow) : bool :=
  (md_nextAttemptAt r <=? now) && match md_leaseUntil r with None => true | Some u => u <? now end.

Definition page (now : timestamp) (limit : nat) (d : DB) : list MediaDeletionRow :=
  list.take (Nat.min (Nat.max limit 1) 1000)
    (sort_by md_nextAttemptAt (sort_by md_createdAt (sort_by (fun r => Z.of_N (md_id r))
      (List.filter (due now) (db_mediaDeletions d))))).

Definition refersTo (key : string) (path : option string) : bool := path === Some key.

(** [isProtected] *)
Definition isProtected (key : string) (d : DB) : bool :=
  let rows :=
    (length (List.filter (fun t => refersTo key (tn_imagePath t)) (db_tournaments d)) +
     length (List.filter (fun o => refersTo key (og_imagePath o)) (db_tournamentOrganizations d)) +
     length (List.filter (fun a => refersTo key (at_imagePath a)) (db_tournamentAthletes d)) +
     length (List.filter (fun e => refersTo key (en_snapshotImagePath e)) (db_bracketEntrants d)) +
     length (List.filter (fun m => (mg_storageKey m === key) && (mg_state m === "PENDING"%string)) (db_mediaMigrations d)))%nat in
  (0 <? rows)%nat.

(** [WHERE id = row.id AND lease_owner = worker] *)
Definition heldBy (worker : string) (r x : MediaDeletionRow) : bool :=
  (md_id x === md_id r) && (md_leaseOwner x === Some worker).

Definition claim (worker : string) (now : timestamp) (r : MediaDeletionRow) : DbM nat :=
  update_many mediaDeletions (fun x => (md_id x === md_id r) && due now x)
    (fun x => x <| md_leaseOwner := Some worker |> <| md_leaseUntil := Some (now + LEASE_MS) |>).

Definition deferred (now : timestamp) (x : MediaDeletionRow) : MediaDeletionRow :=
  x <| md_nextAttemptAt := now + PROTECTED_RECHECK_MS |> <| md_lastTriedAt := Some now |>
    <| md_lastError := Some "protected by a live media reference or PENDING migration"%string |>
    <| md_leaseOwner := None |> <| md_leaseUntil := None |>.

Definition failed (now : timestamp) (previousAttempts : Z) (message : string) (x : MediaDeletionRow) : MediaDeletionRow :=
  x <| md_attempts := md_attempts x + 1 |> <| md_lastError := Some (String.substring 0 2000 message) |>
    <| md_lastTriedAt := Some now |> <| md_nextAttemptAt := now + failureBackoffMs previousAttempts |>
    <| md_leaseOwner := None |> <| md_leaseUntil := None |>.

Inductive Settled : Type := DELETED | FAILED | DEFERRED | CONTENTION.
#[export] Instance Settled_eq_dec : EqDecision Settled. Proof. solve_decision. Defined.

Record Reconciled : Type := mkReconciled { rc_deleted : nat; rc_failed : nat; rc_deferred : nat; rc_contention : nat }.

Section Worker.
Context (storage_delete : list string -> string -> option string).

(** [this.storage.delete(key)], with the message it throws. *)
Definition storageDelete (key : string) : IO (option string) := fun w =>
  Ok (storage_delete (w_deletes w) key, mkWorld (w_db w) (w_deletes w ++ [key])).

Definition settle (worker : string) (now : timestamp) (r : MediaDeletionRow) : IO Settled :=
  isProt ← lift (gets (isProtected (md_storageKey r)));
  if (isProt : bool) then
    _ ← lift (update_many mediaDeletions (heldBy worker r) (deferred now));
    mret DEFERRED
  else
    failure ← storageDelete (md_storageKey r);
    match failure with
    | None =>
        cleanup ← lift (delete_many mediaDeletions (heldBy worker r));
        mret (if (cleanup =? 0)%nat then CONTENTION else DELETED)
    | Some message =>
        _ ← lift (update_many mediaDeletions (heldBy worker r) (failed now (md_attempts r) message));
        mret FAILED
    end.

Definition reconcileRow (worker : string) (now : timestamp) (r : MediaDeletionRow) : IO Settled :=
  claimed ← lift (claim worker now r);
  if (claimed =? 0)%nat then mret CONTENTION else settle worker now r.

Fixpoint reconcileRows (worker : string) (now : timestamp) (rows : list MediaDeletionRow) : IO (list Settled) :=
  match rows with
  | [] => mret []
  | r :: rows => x ← reconcileRow worker now r; l ← reconcileRows worker now rows; mret (x :: l)
  end.

Definition tally (l : list Settled) (x : Settled) : nat := length (List.filter (fun y => y === x) l).

(** [MediaDeletionService.reconcile] *)
Definition reconcile (worker : string) (now : timestamp) (limit : nat) : IO Reconciled :=
  rows ← lift (gets (page now limit));
  l ← reconcileRows worker now rows;
  mret (mkReconciled (tally l DELETED) (tally l FAILED) (tally l DEFERRED) (tally l CONTENTION)).
End Worker.

(** ** What a run does to one row *)

Lemma omap_ext_in {A B} (f g : A -> option B) l : (forall x, In x l -> f x = g x) -> omap f l = omap g l.
Proof.
  induction l as [| x l IH]; intros H; [reflexivity |]; cbn; rewrite (H x) by (left; reflexivity).
  rewrite IH by (intros y Hy; apply H; right; exact Hy); reflexivity.
Qed.

Lemma map_as_omap {A B} (f : A -> B) l : map f l = omap (fun x => Some (f x)) l.
Proof. induction l as [| x l IH]; cbn; [reflexivity | rewrite IH; reflexivity]. Qed.

Lemma filter_as_omap {A} (p : A -> bool) l : List.filter p l = omap (fun x => if p x then Some x else None) l.
Proof. induction l as [| x l IH]; cbn; [reflexivity |]; destruct (p x); cbn; rewrite IH; reflexivity. Qed.

Lemma omap_map {A B C} (f : A -> B) (g : B -> option C) l : omap g (map f l) = omap (fun x => g (f x)) l.
Proof. induction l as [| x l IH]; cbn; [reflexivity |]; rewrite IH; reflexivity. Qed.

Section Runs.
Context (storage_delete : list string -> string -> option string) (worker : string) (now : timestamp).

(** The row after its turn: postponed while it is protected, gone once the store has deleted its
    object, retried later when the store failed. *)
Definition treated (deletes : list string) (d : DB) (r : MediaDeletionRow) : option MediaDeletionRow :=
  if isProtected (md_storageKey r) d then Some (deferred now r)
  else match storage_delete deletes (md_storageKey r) with
       | None => None
       | Some message => Some (failed now (md_attempts r) message r)
       end.
Definition treatment (deletes : list string) (d : DB) (r : MediaDeletionRow) : Settled :=
  if isProtected (md_storageKey r) d then DEFERRED
  else match storage_delete deletes (md_storageKey r) with None => DELETED | Some _ => FAILED end.
Definition asked (d : DB) (r : MediaDeletionRow) : list string :=
  if isProtected (md_storageKey r) d then [] else [md_storageKey r].

Definition afterTurn (deletes : list string) (d : DB) (r : MediaDeletionRow) : DB :=
  put mediaDeletions (omap (fun x => if md_id x === md_id r then treated deletes d r else Some x) (db_mediaDeletions d)) d.

Lemma isProtected_media key l d : isProtected key (d <| db_mediaDeletions := l |>) = isProtected key d.
Proof. reflexivity. Qed.

Lemma same_row d x r : sound d -> In x (db_mediaDeletions d) -> In r (db_mediaDeletions d) -> md_id x = md_id r -> x = r.
Proof. intros [Hw _] Hx Hr E; eapply (wf_id mediaDeletions d); eauto; cbn; congruence. Qed.

Definition claimedRow (x : MediaDeletionRow) : MediaDeletionRow :=
  x <| md_leaseOwner := Some worker |> <| md_leaseUntil := Some (now + LEASE_MS) |>.
Definition claimedDB (r : MediaDeletionRow) (d : DB) : DB :=
  put mediaDeletions (map_where (fun x => (md_id x === md_id r) && due now x) claimedRow (db_mediaDeletions d)) d.

Lemma claim_run d r : sound d -> In r (db_mediaDeletions d) -> due now r = true ->
  exists n, claim worker now r d = Ok (S n, claimedDB r d) /\ sound (claimedDB r d).
Proof.
  intros Hs Hin Hdue.
  assert (E : claim worker now r d = Ok (length (List.filter (fun x => (md_id x === md_id r) && due now x) (db_mediaDeletions d)), claimedDB r d)).
  { unfold claim, claimedDB; apply (update_many_total mediaDeletions); auto.
    cbn -[map_where]; apply unique_by_map_where; reflexivity. }
  exists (pred (length (List.filter (fun x => (md_id x === md_id r) && due now x) (db_mediaDeletions d)))); split.
  - rewrite E; f_equal; f_equal; symmetry; apply Nat.succ_pred_pos.
    assert (Hf : In r (List.filter (fun x => (md_id x === md_id r) && due now x) (db_mediaDeletions d))).
    { apply filter_In; split; [exact Hin |]; rewrite Hdue, bool_decide_eq_true_2; reflexivity. }
    destruct (List.filter _ _); [destruct Hf | cbn; lia].
  - eapply keeps_sound_update_many; [| exact E | exact Hs]; reflexivity.
Qed.

(** Among the claimed rows the worker holds exactly the one it claimed, if it was free. *)
Lemma held_claimed d r x : sound d -> In r (db_mediaDeletions d) -> In x (db_mediaDeletions d) -> due now r = true ->
  (if (md_id x === md_id r) && due now x then claimedRow x else x) = (if md_id x === md_id r then claimedRow r else x) /\
  heldBy worker r (if md_id x === md_id r then claimedRow r else x) = (md_id x === md_id r).
Proof.
  intros Hs Hr Hx Hdue; unfold heldBy; destruct (decide (md_id x = md_id r)) as [E | E].
  - rewrite (same_row d x r Hs Hx Hr E), Hdue, (bool_decide_eq_true_2 (md_id r = md_id r)) by reflexivity.
    split; [reflexivity |]; apply andb_true_iff; split; apply bool_decide_eq_true_2; reflexivity.
  - rewrite !(bool_decide_eq_false_2 (md_id x = md_id r)) by exact E; auto.
Qed.

(** What a write to the claimed row leaves. *)
Definition rewritten (r : MediaDeletionRow) (o : option MediaDeletionRow) (d : DB) : DB :=
  put mediaDeletions (omap (fun x => if md_id x === md_id r then o else Some x) (db_mediaDeletions d)) d.

Section Claimed.
Context (d : DB) (r : MediaDeletionRow) (Hs : sound d) (Hin : In r (db_mediaDeletions d)) (Hdue : due now r = true).

Lemma claimed_omap (f : MediaDeletionRow -> option MediaDeletionRow) (o : option MediaDeletionRow) :
  f (claimedRow r) = o -> (forall x, heldBy worker r x = false -> f x = Some x) ->
  put mediaDeletions (omap f (get mediaDeletions (claimedDB r d))) (claimedDB r d) = rewritten r o d.
Proof.
  intros Hr Hx; unfold claimedDB, rewritten; rewrite get_put_same, put_put; f_equal.
  unfold map_where; rewrite omap_map; apply omap_ext_in; intros x Hin'.
  destruct (held_claimed d r x Hs Hin Hin' Hdue) as [-> E]; destruct (md_id x === md_id r); [exact Hr | apply Hx, E].
Qed.

Lemma held_claimedRow : heldBy worker r (claimedRow r) = true.
Proof. unfold heldBy; apply andb_true_iff; split; apply bool_decide_eq_true_2; reflexivity. Qed.

Lemma held_update (Hs1 : sound (claimedDB r d)) g :
  (forall x, md_id (g x) = md_id x /\ md_storageKey (g x) = md_storageKey x) ->
  exists k, update_many mediaDeletions (heldBy worker r) g (claimedDB r d) = Ok (k, rewritten r (Some (g (claimedRow r))) d) /\
    sound (rewritten r (Some (g (claimedRow r))) d).
Proof.
  intros Hg.
  assert (E : update_many mediaDeletions (heldBy worker r) g (claimedDB r d) =
      Ok (length (List.filter (heldBy worker r) (get mediaDeletions (claimedDB r d))), rewritten r (Some (g (claimedRow r))) d)).
  { rewrite (update_many_total mediaDeletions _ _ _ Hs1).
    - f_equal; f_equal; unfold map_where; rewrite map_as_omap; apply claimed_omap; [rewrite held_claimedRow; reflexivity |].
      intros x ->; reflexivity.
    - intros x; cbn; rewrite (proj1 (Hg x)); reflexivity.
    - apply unique_by_map_where; intros x _ _; cbn; rewrite (proj2 (Hg x)); reflexivity.
    - reflexivity. }
  eexists; split; [exact E |]; eapply keeps_sound_update_many; [| exact E | exact Hs1].
  intros x; cbn; rewrite (proj1 (Hg x)); reflexivity.
Qed.

Lemma held_delete (Hs1 : sound (claimedDB r d)) :
  exists k, delete_many mediaDeletions (heldBy worker r) (claimedDB r d) = Ok (S k, rewritten r None d) /\ sound (rewritten r None d).
Proof.
  assert (E : delete_many mediaDeletions (heldBy worker r) (claimedDB r d) =
      Ok (length (List.filter (heldBy worker r) (get mediaDeletions (claimedDB r d))), rewritten r None d)).
  { apply delete_many_ok; split; [reflexivity |]; symmetry; rewrite filter_as_omap; apply claimed_omap.
    - rewrite held_claimedRow; reflexivity.
    - intros x ->; reflexivity. }
  exists (pred (length (List.filter (heldBy worker r) (get mediaDeletions (claimedDB r d))))); split.
  - rewrite E; f_equal; f_equal; symmetry; apply Nat.succ_pred_pos.
    assert (Hf : In (claimedRow r) (List.filter (heldBy worker r) (get mediaDeletions (claimedDB r d)))).
    { apply filter_In; split; [| apply held_claimedRow]; unfold claimedDB; rewrite get_put_same.
      apply in_map_where; exists r; split; [exact Hin |]; rewrite Hdue, bool_decide_eq_true_2; reflexivity. }
    destruct (List.filter _ _); [destruct Hf | cbn; lia].
  - eapply keeps_sound_delete_many; [exact E | exact Hs1].
Qed.
End Claimed.

Lemma reconcileRow_run d deletes r : sound d -> In r (db_mediaDeletions d) -> due now r = true ->
  reconcileRow storage_delete worker now r (mkWorld d deletes) =
    Ok (treatment deletes d r, mkWorld (afterTurn deletes d r) (deletes ++ asked d r)) /\ sound (afterTurn deletes d r).
Proof.
  intros Hs Hin Hdue; destruct (claim_run d r Hs Hin Hdue) as (n & Hc & Hs1).
  assert (Hlift : forall A (c : DbM A) k d1 d2 l, c d1 = Ok (k, d2) -> lift c (mkWorld d1 l) = Ok (k, mkWorld d2 l))
    by (intros A c k d1 d2 l E; unfold lift; cbn [w_db w_deletes]; rewrite E; reflexivity).
  unfold reconcileRow; rewrite (bind_step _ _ _ _ _ (Hlift _ _ _ _ _ _ Hc)); cbn [Nat.eqb]; unfold settle.
  rewrite (bind_step _ _ _ (isProtected (md_storageKey r) d) (mkWorld (claimedDB r d) deletes)) by reflexivity.
  unfold treatment, afterTurn, treated, asked; destruct (isProtected (md_storageKey r) d).
  - destruct (held_update d r Hs Hin Hdue Hs1 (deferred now) ltac:(intros; split; reflexivity)) as (k & Hk & Hs2).
    rewrite (bind_step _ _ _ _ _ (Hlift _ _ _ _ _ _ Hk)), app_nil_r; split; [reflexivity | exact Hs2].
  - rewrite (bind_step _ _ _ (storage_delete deletes (md_storageKey r)) (mkWorld (claimedDB r d) (deletes ++ [md_storageKey r]))) by reflexivity.
    destruct (storage_delete deletes (md_storageKey r)) as [message |].
    + destruct (held_update d r Hs Hin Hdue Hs1 (failed now (md_attempts r) message) ltac:(intros; split; reflexivity)) as (k & Hk & Hs2).
      rewrite (bind_step _ _ _ _ _ (Hlift _ _ _ _ _ _ Hk)); split; [reflexivity | exact Hs2].
    + destruct (held_delete d r Hs Hin Hdue Hs1) as (k & Hk & Hs2).
      rewrite (bind_step _ _ _ _ _ (Hlift _ _ _ _ _ _ Hk)); split; [reflexivity | exact Hs2].
Qed.

Lemma treated_id deletes d r y : treated deletes d r = Some y -> md_id y = md_id r.
Proof.
  unfold treated; destruct (isProtected _ _); [intros [= <-]; reflexivity |].
  destruct (storage_delete _ _); [intros [= <-]; reflexivity | discriminate].
Qed.

Lemma afterTurn_in deletes d r y : In y (db_mediaDeletions (afterTurn deletes d r)) <->
  exists x, In x (db_mediaDeletions d) /\ (if md_id x === md_id r then treated deletes d r else Some x) = Some y.
Proof.
  unfold afterTurn; change (db_mediaDeletions (put mediaDeletions ?l d)) with l.
  rewrite <- list_elem_of_In, list_elem_of_omap; split; intros (x & Hx & E); exists x; rewrite list_elem_of_In in *; auto.
Qed.

(** The rows whose object may be deleted, and what the store answers when asked for one after the other *)
Definition unprotected (d : DB) (r : MediaDeletionRow) : bool := negb (isProtected (md_storageKey r) d).
Lemma unprotected_cons d r rows : List.filter (unprotected d) (r :: rows) =
  if isProtected (md_storageKey r) d then List.filter (unprotected d) rows else r :: List.filter (unprotected d) rows.
Proof. cbn [List.filter]; unfold unprotected at 1; destruct (isProtected (md_storageKey r) d); reflexivity. Qed.
Fixpoint answers (deletes keys : list string) : list (option string) :=
  match keys with [] => [] | k :: keys => storage_delete deletes k :: answers (deletes ++ [k]) keys end.
(** What an answer leaves of the row: nothing, or the row with a later attempt. *)
Definition answered (d' : DB) (r : MediaDeletionRow) (answer : option string) : Prop :=
  match answer with
  | None => forall y, In y (db_mediaDeletions d') -> md_id y <> md_id r
  | Some message => In (failed now (md_attempts r) message r) (db_mediaDeletions d')
  end.

(** The rows of a run: the ones it was to treat, and the rest. *)
Record run_of (deletes : list string) (d d' : DB) (rows : list MediaDeletionRow) : Prop := {
  run_sound : sound d';
  run_touches : touches [mediaDeletions] d d';
  run_rest : forall x, In x (db_mediaDeletions d) -> ~ In x rows -> In x (db_mediaDeletions d');
  run_answered : let asked := List.filter (unprotected d) rows in
    Forall2 (answered d') asked (answers deletes (map md_storageKey asked));
  run_deferred : forall x, In x rows -> isProtected (md_storageKey x) d = true -> In (deferred now x) (db_mediaDeletions d');
  run_from : forall y, In y (db_mediaDeletions d') -> exists x, In x (db_mediaDeletions d) /\ md_id x = md_id y }.

Lemma run_step deletes d d' r rows : sound d -> (forall x, In x (r :: rows) -> In x (db_mediaDeletions d)) ->
  NoDup (map md_id (r :: rows)) -> run_of (deletes ++ asked d r) (afterTurn deletes d r) d' rows -> run_of deletes d d' (r :: rows).
Proof.
  intros Hs Hin Hnd [H1 H2 H3 H4 H4' H5]; cbn in Hnd; apply list.NoDup_cons in Hnd as [Hr Hnd].
  assert (Hid : forall x, In x rows -> md_id x <> md_id r).
  { intros x Hx E; apply Hr, list_elem_of_In; rewrite <- E; apply in_map, Hx. }
  assert (Hkeep : forall x, In x (db_mediaDeletions d) -> x <> r -> In x (db_mediaDeletions (afterTurn deletes d r))).
  { intros x Hx Hne; apply afterTurn_in; exists x; split; [exact Hx |]; rewrite bool_decide_eq_false_2; [reflexivity |].
    intros E; apply Hne, (same_row d); auto; apply Hin; left; reflexivity. }
  assert (Hfrom : forall y, In y (db_mediaDeletions d') -> exists x, In x (db_mediaDeletions d) /\ md_id x = md_id y /\
    (md_id x = md_id r -> treated deletes d r <> None)).
  { intros y Hy; apply H5 in Hy as (z & Hz & Ez); apply afterTurn_in in Hz as (x & Hx & E); exists x; split; [exact Hx |].
    destruct (decide (md_id x = md_id r)) as [Ex | Ex];
      [rewrite bool_decide_eq_true_2 in E by exact Ex | rewrite bool_decide_eq_false_2 in E by exact Ex].
    - pose proof (treated_id _ _ _ _ E) as Et; split; congruence.
    - injection E as <-; split; [exact Ez | congruence]. }
  split; auto.
  - intros t Ht; rewrite (H2 t Ht); unfold afterTurn; apply get_put_other; intros ->; apply Ht; table_in.
  - intros x Hx Hni; apply H3; [apply Hkeep; [exact Hx | intros ->; apply Hni; left; reflexivity] |].
    intros Hx'; apply Hni; right; exact Hx'.
  - change (List.filter (unprotected (afterTurn deletes d r)) rows) with (List.filter (unprotected d) rows) in H4; cbv zeta in *.
    rewrite unprotected_cons; unfold asked in H4; destruct (isProtected (md_storageKey r) d) eqn:Ep.
    + rewrite app_nil_r in H4; exact H4.
    + cbn [map answers]; constructor; [| exact H4]; unfold answered.
      destruct (storage_delete deletes (md_storageKey r)) as [message |] eqn:Ea.
      * apply H3; [apply afterTurn_in; exists r; rewrite bool_decide_eq_true_2 by reflexivity; unfold treated; rewrite Ep, Ea; split; [apply Hin; left |]; auto |].
        intros Hy; apply (Hid _ Hy); reflexivity.
      * intros y Hy Ey; destruct (Hfrom y Hy) as (x & _ & Ex & Ht); apply Ht; [congruence |]; unfold treated; rewrite Ep, Ea; reflexivity.
  - intros x [<- | Hx] Ep; [| exact (H4' x Hx Ep)].
    apply H3; [apply afterTurn_in; exists r; rewrite bool_decide_eq_true_2 by reflexivity; unfold treated; rewrite Ep; split; [apply Hin; left |]; auto |].
    intros Hy; apply (Hid _ Hy); reflexivity.
  - intros y Hy; destruct (Hfrom y Hy) as (x & Hx & Ex & _); eauto.
Qed.

(** The outcomes counted: as many deleted and failed as the store answered, as many deferred as are protected. *)
Definition tallied (d : DB) (deletes : list string) (rows : list MediaDeletionRow) (l : list Settled) : Prop :=
  let given := answers deletes (map md_storageKey (List.filter (unprotected d) rows)) in
  tally l DELETED = length (List.filter (fun a => a === None) given) /\
  tally l FAILED = length (List.filter set_ given) /\
  tally l DEFERRED = length (List.filter (fun r => isProtected (md_storageKey r) d) rows) /\ tally l CONTENTION = 0%nat.

Lemma tallied_step deletes d r rows l : tallied d (deletes ++ asked d r) rows l -> tallied d deletes (r :: rows) (treatment deletes d r :: l).
Proof.
  unfold tallied, tally, treatment, asked; rewrite unprotected_cons; cbn [List.filter]; cbv zeta.
  destruct (isProtected (md_storageKey r) d); [rewrite app_nil_r | cbn [map answers List.filter]; destruct (storage_delete deletes (md_storageKey r))];
    intros (H1 & H2 & H3 & H4); decide_consts_goal; cbn [set_ length List.filter]; decide_consts_goal; cbn [length negb]; auto.
Qed.

Lemma reconcileRows_run rows : forall d deletes, sound d ->
  (forall x, In x rows -> In x (db_mediaDeletions d) /\ due now x = true) -> NoDup (map md_id rows) ->
  exists l d', reconcileRows storage_delete worker now rows (mkWorld d deletes) =
      Ok (l, mkWorld d' (deletes ++ concat (map (asked d) rows))) /\
    tallied d deletes rows l /\ run_of deletes d d' rows.
Proof.
  induction rows as [| r rows IH]; intros d deletes Hs Hin Hnd.
  - exists [], d; cbn; rewrite app_nil_r; split_and!; auto; [split_and!; reflexivity |]; split; try done; eauto.
  - destruct (Hin r (or_introl eq_refl)) as [Hr Hdue].
    destruct (reconcileRow_run d deletes r Hs Hr Hdue) as [E Hs1].
    pose proof Hnd as Hnd'; cbn in Hnd'; apply list.NoDup_cons in Hnd' as [Hn Hnd'].
    destruct (IH (afterTurn deletes d r) (deletes ++ asked d r) Hs1) as (l & d' & El & Htally & Hrun); [| exact Hnd' |].
    { intros x Hx; destruct (Hin x (or_intror Hx)) as [Hx' Hd]; split; [| exact Hd].
      apply afterTurn_in; exists x; split; [exact Hx' |]; rewrite bool_decide_eq_false_2; [reflexivity |].
      intros Ex; apply Hn, list_elem_of_In; rewrite <- Ex; apply in_map, Hx. }
    exists (treatment deletes d r :: l), d'; cbn [reconcileRows concat map].
    rewrite (bind_step _ _ _ _ _ E), (bind_step _ _ _ _ _ El), <- app_assoc; split; [reflexivity |].
    split; [exact (tallied_step _ _ _ _ _ Htally) |]; apply (run_step deletes); auto; intros x Hx; apply Hin, Hx.
Qed.
End Runs.

Lemma page_in now limit d r : In r (page now limit d) -> In r (db_mediaDeletions d) /\ due now r = true.
Proof.
  intros H; assert (Hl : In r (sort_by md_nextAttemptAt (sort_by md_createdAt (sort_by (fun r => Z.of_N (md_id r))
    (List.filter (due now) (db_mediaDeletions d)))))).
  { rewrite <- (list.take_drop (Nat.min (Nat.max limit 1) 1000) (sort_by _ _)); apply in_app_iff; left; exact H. }
  rewrite !sort_by_perm in Hl; apply filter_In, Hl.
Qed.

Lemma page_nodup now limit d : sound d -> NoDup (map md_id (page now limit d)).
Proof.
  intros [Hw _]; unfold page.
  set (l := sort_by _ _); assert (Hl : NoDup (map md_id l)).
  { unfold l; rewrite !sort_by_perm; specialize (Hw mediaDeletions); apply table_ok_true in Hw as (_ & Hpk & _).
    apply (unique_by_filter _ md_id _ _ Hpk); reflexivity. }
  rewrite <- (list.take_drop (Nat.min (Nat.max limit 1) 1000) l), map_app in Hl.
  apply list.NoDup_app in Hl as [Hl _]; exact Hl.
Qed.

Lemma failureBackoff_bounds n : 0 <= n -> FAILURE_BACKOFF_MIN_MS <= failureBackoffMs n <= FAILURE_BACKOFF_MAX_MS.
Proof.
  intros Hn; unfold failureBackoffMs, FAILURE_BACKOFF_MIN_MS, FAILURE_BACKOFF_MAX_MS.
  assert (1 <= 2 ^ Z.min n 20) by (apply (Z.pow_le_mono_r 2 0); lia); lia.
Qed.

Lemma asked_keys d rows : concat (map (asked d) rows) =
  map md_storageKey (List.filter (fun r => negb (isProtected (md_storageKey r) d)) rows).
Proof.
  induction rows as [| r rows IH]; [reflexivity |]; cbn [map concat List.filter]; rewrite IH; unfold asked.
  destruct (isProtected _ _); reflexivity.
Qed.

(** A worker that lost its lease changes nothing. *)
Lemma settle_lost storage worker now r d deletes out w : wf d ->
  (forall x, In x (db_mediaDeletions d) -> heldBy worker r x = false) ->
  settle storage worker now r (mkWorld d deletes) = Ok (out, w) -> w_db w = d.
Proof.
  intros Hw Hn H; assert (Hupd : forall g, update_many mediaDeletions (heldBy worker r) g d = Ok (0%nat, d)).
  { intros g; apply (update_many_ok mediaDeletions); rewrite (map_where_nil _ _ (get mediaDeletions d)) by exact Hn.
    rewrite filter_nothing by exact Hn; split; [reflexivity |]; split; [apply Hw | symmetry; apply put_get]. }
  assert (Hdel : delete_many mediaDeletions (heldBy worker r) d = Ok (0%nat, d)).
  { apply delete_many_ok; rewrite filter_nothing by exact Hn; split; [reflexivity |].
    rewrite filter_everything; [symmetry; apply put_get | intros x Hx; rewrite (Hn x Hx); reflexivity]. }
  unfold settle in H; rewrite (bind_step _ _ _ (isProtected (md_storageKey r) d) (mkWorld d deletes)) in H by reflexivity.
  destruct (isProtected _ _).
  - unfold mbind, tx_bind, lift in H; cbn [w_db] in H; rewrite Hupd in H; injection H as _ <-; reflexivity.
  - rewrite (bind_step _ _ _ (storage deletes (md_storageKey r)) (mkWorld d (deletes ++ [md_storageKey r]))) in H by reflexivity.
    destruct (storage deletes (md_storageKey r)); unfold mbind, tx_bind, lift in H; cbn [w_db] in H;
      [rewrite Hupd in H | rewrite Hdel in H]; injection H as _ <-; reflexivity.
Qed.

(** The claimed row is the only one with its id, and it carries the claim. *)
Lemma claimed_only worker now r d x : sound d -> In r (db_mediaDeletions d) -> due now r = true ->
  In x (db_mediaDeletions (claimedDB worker now r d)) -> md_id x = md_id r -> x = claimedRow worker now r.
Proof.
  intros Hs Hin Hdue Hx Ex; unfold claimedDB in Hx; change (db_mediaDeletions (put mediaDeletions ?l d)) with l in Hx.
  apply in_map_where in Hx as (y & Hy & ->); destruct (held_claimed worker now d r y Hs Hin Hy Hdue) as [Ey _]; rewrite Ey in *.
  destruct (decide (md_id y = md_id r)) as [Ei | Ei];
    [rewrite bool_decide_eq_true_2 by exact Ei; reflexivity | rewrite bool_decide_eq_false_2 in * by exact Ei; congruence].
Qed.

Lemma claimed_in worker now r d : In r (db_mediaDeletions d) -> due now r = true ->
  In (claimedRow worker now r) (db_mediaDeletions (claimedDB worker now r d)).
Proof.
  intros Hin Hdue; unfold claimedDB; change (db_mediaDeletions (put mediaDeletions ?l d)) with l; apply in_map_where; exists r.
  rewrite Hdue, bool_decide_eq_true_2 by reflexivity; auto.
Qed.

(** A claim takes the row from everyone else until its lease ends. *)
Lemma nothing_due r d : wf d ->
  (forall x, In x (db_mediaDeletions d) -> md_id x = md_id r -> md_leaseUntil x <> None) ->
  forall worker now, (forall x u, In x (db_mediaDeletions d) -> md_id x = md_id r -> md_leaseUntil x = Some u -> now <= u) ->
  claim worker now r d = Ok (0%nat, d).
Proof.
  intros Hw Hl worker now Hu.
  assert (Hnone : forall x, In x (get mediaDeletions d) -> (md_id x === md_id r) && due now x = false).
  { intros x Hx; unfold due; destruct (decide (md_id x = md_id r)) as [E | E];
      [rewrite bool_decide_eq_true_2 by exact E | rewrite bool_decide_eq_false_2 by exact E; reflexivity]; cbn [andb].
    specialize (Hl x Hx E); destruct (md_leaseUntil x) as [u |] eqn:Eu; [| congruence].
    specialize (Hu x u Hx E Eu); apply andb_false_iff; right; apply Z.ltb_ge; exact Hu. }
  apply (update_many_ok mediaDeletions); rewrite (map_where_nil _ _ (get mediaDeletions d)) by exact Hnone.
  rewrite filter_nothing by exact Hnone; split; [reflexivity |]; split; [apply Hw | symmetry; apply put_get].
Qed.

(** ** Theorems *)

(** C39: a run always completes and settles exactly its page, the due rows that no one leases. It asks the object store
    to delete the images of the page that no tournament, organization, athlete, bracket snapshot or pending migration
    refers to, in order and nothing else; the row of an image the store deleted is gone, and one it refused is there
    for a retry after five to sixty minutes, with the message and no lease; a row whose image is still referred to is
    looked at again a quarter of an hour later. The run counts them so, and leaves the rows outside the page and all
    other tables as they are. *)
Theorem reconcile_settles_page storage worker now limit d deletes (Hs : sound d)
    (Ha : forall r, In r (db_mediaDeletions d) -> 0 <= md_attempts r) :
  let asked := List.filter (fun r => negb (isProtected (md_storageKey r) d)) (page now limit d) in
  let given := answers storage deletes (map md_storageKey asked) in
  exists out d', reconcile storage worker now limit (mkWorld d deletes) = Ok (out, mkWorld d' (deletes ++ map md_storageKey asked)) /\
  (rc_deleted out = length (List.filter (fun a => a === None) given) /\ rc_failed out = length (List.filter set_ given) /\
   rc_deferred out = length (List.filter (fun r => isProtected (md_storageKey r) d) (page now limit d)) /\ rc_contention out = 0%nat) /\
  touches [mediaDeletions] d d' /\
  (forall r, In r (db_mediaDeletions d) -> ~ In r (page now limit d) -> In r (db_mediaDeletions d')) /\
  Forall2 (fun r answer => match answer with
    | None => forall y, In y (db_mediaDeletions d') -> md_id y <> md_id r
    | Some message => exists y, In y (db_mediaDeletions d') /\ md_id y = md_id r /\ md_storageKey y = md_storageKey r /\
        md_attempts y = md_attempts r + 1 /\ md_lastError y = Some (String.substring 0 2000 message) /\
        now + 300000 <= md_nextAttemptAt y <= now + 3600000 /\ md_leaseOwner y = None /\ md_leaseUntil y = None
    end) asked given /\
  (forall r, In r (page now limit d) -> isProtected (md_storageKey r) d = true ->
     exists y, In y (db_mediaDeletions d') /\ md_id y = md_id r /\ md_storageKey y = md_storageKey r /\ md_attempts y = md_attempts r /\
       md_nextAttemptAt y = now + 900000 /\ md_leaseOwner y = None /\ md_leaseUntil y = None).
Proof.
  intros asked given; destruct (reconcileRows_run storage worker now (page now limit d) d deletes Hs) as (l & d' & E & Htally & Hrun).
  - intros x Hx; apply (page_in now limit), Hx.
  - apply page_nodup, Hs.
  - eexists _, d'; unfold reconcile; rewrite (bind_step _ _ _ (page now limit d) (mkWorld d deletes)) by reflexivity.
    rewrite (bind_step _ _ _ _ _ E), asked_keys; split; [reflexivity |]; split; [exact Htally |].
    split; [apply Hrun |]; split; [apply Hrun |]; split.
    + assert (Hin : forall r, In r asked -> 0 <= md_attempts r)
        by (intros r Hr; apply filter_In in Hr as [Hr _]; apply Ha, (page_in now limit d r Hr)).
      pose proof (run_answered _ _ _ _ _ _ Hrun) as Hf; cbv zeta in Hf; change (List.filter (unprotected d) _) with asked in Hf; fold given in Hf.
      revert Hin; induction Hf as [| r a rs l' Hr _ IH]; intros Hin; constructor; [| apply IH; intros; apply Hin; right; assumption].
      destruct a as [message |]; [| exact Hr]; exists (failed now (md_attempts r) message r); cbn; split_and!; auto; try reflexivity;
        destruct (failureBackoff_bounds (md_attempts r) (Hin r (or_introl eq_refl))); unfold FAILURE_BACKOFF_MIN_MS, FAILURE_BACKOFF_MAX_MS in *; lia.
    + intros r Hr Hp; exists (deferred now r); split_and!; try reflexivity; exact (run_deferred _ _ _ _ _ _ Hrun r Hr Hp).
Qed.

(** The lease keeps workers apart: within five minutes of a claim no other claim of the row
    succeeds; afterwards another worker takes the row over, and then whatever the first one still
    does with it leaves the database as it is. *)
Theorem lease_excludes worker now r d n d1 (Hs : sound d) (Hin : In r (db_mediaDeletions d))
    (H : claim worker now r d = Ok (S n, d1)) :
  (forall worker' now', now' <= now + LEASE_MS -> claim worker' now' r d1 = Ok (0%nat, d1)) /\
  (forall worker' now', worker' <> worker -> now + LEASE_MS < now' -> exists k d2,
     claim worker' now' r d1 = Ok (S k, d2) /\
     forall storage deletes out w, settle storage worker now r (mkWorld d2 deletes) = Ok (out, w) -> w_db w = d2).
Proof.
  pose proof H as H0; apply (update_many_ok mediaDeletions) in H as (Hn & Hok & E1).
  assert (Hdue : due now r = true).
  { destruct (List.filter _ _) as [| x l] eqn:Ef in Hn; [discriminate |].
    assert (Hx : In x (x :: l)) by (left; reflexivity); rewrite <- Ef in Hx; apply filter_In in Hx as [Hx Ex]; to_prop.
    rewrite <- (same_row d x r Hs Hx Hin) by assumption; assumption. }
  assert (E : d1 = claimedDB worker now r d) by exact E1; clear E1 Hn Hok.
  destruct (claim_run worker now d r Hs Hin Hdue) as (m & _ & Hs1); rewrite <- E in Hs1.
  assert (Hrow : forall x, In x (db_mediaDeletions d1) -> md_id x = md_id r -> x = claimedRow worker now r)
    by (intros x; rewrite E; apply claimed_only; assumption).
  split.
  - intros worker' now' Hn'; apply nothing_due; [apply Hs1 | |].
    + intros x Hx Ex; rewrite (Hrow x Hx Ex); discriminate.
    + intros x u Hx Ex; rewrite (Hrow x Hx Ex); intros [= <-]; exact Hn'.
  - intros worker' now' Hw Hn'; set (r1 := claimedRow worker now r).
    assert (Hr1 : In r1 (db_mediaDeletions d1)) by (rewrite E; apply claimed_in; assumption).
    assert (Hdue1 : due now' r1 = true).
    { apply andb_true_iff in Hdue as [Hd _]; to_prop; apply andb_true_iff; split; [apply Z.leb_le | apply Z.ltb_lt]; cbn;
        unfold LEASE_MS in *; lia. }
    destruct (claim_run worker' now' d1 r1 Hs1 Hr1 Hdue1) as (k & Hk & Hs2).
    exists k, (claimedDB worker' now' r1 d1); split; [exact Hk |].
    intros storage deletes out w; apply settle_lost; [apply Hs2 |].
    intros x Hx; unfold heldBy; destruct (decide (md_id x = md_id r)) as [Ex | Ex];
      [| rewrite bool_decide_eq_false_2 by exact Ex; reflexivity].
    rewrite (claimed_only worker' now' r1 d1 x Hs1 Hr1 Hdue1 Hx Ex); apply andb_false_iff; right.
    apply bool_decide_eq_false_2; cbn; congruence.
Qed.

(** ** Witnesses: three due rows, one protected by an athlete's image and one the store refuses. *)

Definition queuedRow (id : uuid) (key : string) (next : timestamp) : MediaDeletionRow :=
  mkMediaDeletionRow id key "IMAGE_REPLACED_OR_REMOVED" 0 2 None None next None None.
Definition queueDB : DB := waitingDB
  <| db_mediaDeletions := [queuedRow 801 "a" 30; queuedRow 802 "b" 20; queuedRow 803 "c" 10; queuedRow 804 "d" 5000] |>
  <| db_tournamentAthletes := [mkAthleteRow 121 1 None 5 "A" 2000 (Some "b"%string) false true 7 None None] |>.
Definition refusing (_ : list string) (key : string) : option string :=
  if key === "c"%string then Some "timeout"%string else None.
Lemma queueDB_sound : sound queueDB.
Proof. solve_sound. Defined.

Lemma reconcile_settles_page_witness : exists out d', reconcile refusing "w" 1000 100 (mkWorld queueDB []) =
  Ok (out, mkWorld d' ["c"; "a"]%string) /\ rc_deferred out = 1%nat /\
  exists y, In y (db_mediaDeletions d') /\ md_id y = 802%N.
Proof.
  destruct (reconcile_settles_page refusing "w" 1000 100 queueDB [] queueDB_sound) as (out & d' & E & (_ & _ & Ht & _) & _ & _ & _ & Hr).
  { intros r Hr; vm_compute in Hr; repeat (destruct Hr as [<- | Hr]; [discriminate |]); destruct Hr. }
  exists out, d'; split; [exact E |]; split; [exact Ht |].
  destruct (Hr (queuedRow 802 "b" 20)) as (y & Hy & Ey & _); [vm_compute; auto | reflexivity | exists y; auto].
Defined.

Lemma lease_excludes_witness : exists d1, claim "w" 1000 (queuedRow 801 "a" 30) queueDB = Ok (1%nat, d1) /\
  claim "v" (1000 + LEASE_MS) (queuedRow 801 "a" 30) d1 = Ok (0%nat, d1).
Proof.
  destruct (claim "w" 1000 (queuedRow 801 "a" 30) queueDB) as [[n d1] |] eqn:E; [| vm_compute in E; discriminate].
  assert (n = 1%nat) as -> by (vm_compute in E; injection E as <-; reflexivity).
  exists d1; split; [reflexivity |].
  apply (proj1 (lease_excludes "w" 1000 (queuedRow 801 "a" 30) queueDB 0 d1 queueDB_sound (or_introl eq_refl) E)); lia.
Defined.
