(* ===== verification/Retention.v ===== *)
(** * Retention

    subscriptions/tournament-lifecycle.service.ts: the hourly run that expires entitlements, hides
    the tournaments of owners whose read-only year is over, restores those of owners who renewed,
    and purges what has been hidden for sixty days. What a DELETE takes along or refuses is decided
    by PostgreSQL from the foreign keys: it is a parameter, with the clauses the run relies on as
    the laws of [Cascades]. *)
From S2P Require Import Prelude Schema Database Rules Scenario Calendar Pricing Entitlements MediaDeletion.

Definition RECOVERY_DAYS : Z := 60.

Record LifecycleRun : Type := mkLifecycleRun { lr_expired : nat; lr_softDeleted : nat; lr_restored : nat; lr_purged : nat }.

Definition expiring (now : timestamp) (e : EntitlementRow) : bool :=
  (ae_status e === ENTITLEMENT_ACTIVE) && (ae_activeUntil e <=? now).
Definition unended (e : EntitlementRow) : bool :=
  (ae_status e === ENTITLEMENT_EXPIRED) && (ae_adminAccessEndedAt e === None).

(** [adminEntitlement: { status: EXPIRED }] of a user *)
Definition expiredUser (d : DB) (userId : uuid) : bool :=
  match entitlementOf userId d with Some e => ae_status e === ENTITLEMENT_EXPIRED | None => false end.
(** [adminEntitlement: { status: ACTIVE, activeFrom: { lte: now }, activeUntil: { gt: now } }] *)
Definition runningUser (now : timestamp) (d : DB) (userId : uuid) : bool :=
  match entitlementOf userId d with
  | Some e => (ae_status e === ENTITLEMENT_ACTIVE) && (ae_activeFrom e <=? now) && (now <? ae_activeUntil e)
  | None => false
  end.

(** The three updates of entitlements and roles. *)
Definition expireEntitlements (now : timestamp) : DbM nat :=
  expired ← update_many adminEntitlements (expiring now) (fun e => e <| ae_status := ENTITLEMENT_EXPIRED |>);
  _ ← update_many adminEntitlements unended (fun e => e <| ae_adminAccessEndedAt := Some (ae_activeUntil e) |>);
  d ← gets (fun d => d);
  _ ← update_many users (fun u => (us_role u === ADMIN) && expiredUser d (us_id u)) (fun u => u <| us_role := USER |>);
  mret expired.

Definition restoreTournaments (now : timestamp) : DbM nat :=
  d ← gets (fun d => d);
  update_many tournaments (fun t => lapsed t && runningUser now d (tn_ownerUserId t)) (restoredTournament now).

(** [if (owner.adminAccessEndedAt === null || addUtcMonths(...) > now) continue] *)
Definition inGrace (now : timestamp) (e : EntitlementRow) : bool :=
  match ae_adminAccessEndedAt e with
  | None => true
  | Some endedAt => now <? addUtcMonths endedAt ADMIN_GRACE_MONTHS
  end.

Definition hiddenTournament (now : timestamp) (t : TournamentRow) : TournamentRow :=
  t <| tn_softDeletedAt := Some now |> <| tn_purgeAfter := Some (now + RECOVERY_DAYS * 86400000) |>
    <| tn_deletionReason := Some ADMIN_SUBSCRIPTION_LAPSED |>.

Fixpoint hideOwners (now : timestamp) (owners : list EntitlementRow) : DbM nat :=
  match owners with
  | [] => mret 0%nat
  | e :: owners =>
      if inGrace now e then hideOwners now owners else
      changed ← update_many tournaments (fun t => (tn_ownerUserId t === ae_userId e) && (tn_softDeletedAt t === None))
                  (hiddenTournament now);
      rest ← hideOwners now owners;
      mret (changed + rest)%nat
  end.

Definition purgeable (now : timestamp) (t : TournamentRow) : bool :=
  set_ (tn_softDeletedAt t) && match tn_purgeAfter t with Some p => p <=? now | None => false end.

(** The images of a tournament, its organizations and its athletes. *)
Definition imagesOf (id : uuid) (d : DB) : list string :=
  omap (fun x => x)
    (match find_first (fun t => tn_id t === id) (db_tournaments d) with Some t => [tn_imagePath t] | None => [] end ++
     map og_imagePath (List.filter (fun o => og_tournamentId o === id) (db_tournamentOrganizations d)) ++
     map at_imagePath (List.filter (fun a => at_tournamentId a === id) (db_tournamentAthletes d))).

Definition logRun (expired restored softDeleted purged : nat) : DbM unit :=
  when (negb (expired + restored + softDeleted + purged =? 0)%nat)
    (_ ← create auditLogs (fun id => mkAuditRow id None None None None SYSTEM_EVENT
       (JObj [("action", JStr "TOURNAMENT_LIFECYCLE"); ("expired", JNum (Z.of_nat expired));
              ("restored", JNum (Z.of_nat restored)); ("softDeleted", JNum (Z.of_nat softDeleted));
              ("purged", JNum (Z.of_nat purged))]%string)); mret tt).

Section Run.
Context (deleteMany : forall t : table, (row_of t -> bool) -> DbM nat).

(** One candidate; [at_] is the time of the database. *)
Definition purgeTournament (now at_ : timestamp) (id : uuid) : DbM nat :=
  keys ← gets (imagesOf id);
  _ ← deleteMany matches (fun m => m_tournamentId m === id);
  deleted ← deleteMany tournaments (fun t => (tn_id t === id) && purgeable now t);
  when (negb (deleted =? 0)%nat) (for_each (fun key => enqueueMediaDeletion (Some key) "TOURNAMENT_PURGE" at_) keys);;
  mret deleted.

Fixpoint purgeAll (now at_ : timestamp) (ids : list uuid) : DbM nat :=
  match ids with
  | [] => mret 0%nat
  | id :: ids => purged ← purgeTournament now at_ id; rest ← purgeAll now at_ ids; mret (purged + rest)%nat
  end.

(** The transaction of [TournamentLifecycleService.run], with the answer of the advisory lock. *)
Definition run (locked : bool) (now at_ : timestamp) : DbM LifecycleRun :=
  if negb locked then mret (mkLifecycleRun 0 0 0 0) else
  expired ← expireEntitlements now;
  restored ← restoreTournaments now;
  owners ← find_many adminEntitlements (fun e => (ae_status e === ENTITLEMENT_EXPIRED) && set_ (ae_adminAccessEndedAt e));
  softDeleted ← hideOwners now owners;
  candidates ← find_many tournaments (purgeable now);
  purged ← purgeAll now at_ (map tn_id candidates);
  logRun expired restored softDeleted purged;;
  mret (mkLifecycleRun expired softDeleted restored purged).
End Run.

(** ** What the run relies on of a DELETE

    The rows selected go, as many as the call answers; entitlements, users and tournaments are out
    of reach of the cascade of a match; matches and what was published of them are out of reach
    of the cascade of a tournament; and a match that an outcome, a decision or a publication
    refers to cannot be deleted, these three keys being ON DELETE RESTRICT. *)
Definition accountTables : list table := [users; adminEntitlements].
Definition publishedTables : list table := [matchOutcomes; matchResultDecisions; matchResultPublications].

Class Cascades (deleteMany : forall t : table, (row_of t -> bool) -> DbM nat) : Prop := {
  cascade_rows t p d n d' : deleteMany t p d = Ok (n, d') ->
    n = length (List.filter p (get t d)) /\ get t d' = List.filter (fun r => negb (p r)) (get t d);
  cascade_sound t p d n d' : deleteMany t p d = Ok (n, d') -> sound d -> sound d';
  cascade_accounts t p d n d' : t ∈ [matches; tournaments] -> deleteMany t p d = Ok (n, d') ->
    forall t', t' ∈ accountTables -> get t' d' = get t' d;
  cascade_matches p d n d' : deleteMany matches p d = Ok (n, d') ->
    get tournaments d' = get tournaments d /\
    forall t r m, t ∈ publishedTables -> In r (get t d) -> row_match t r = Some m ->
      (forall x, In x (db_matches d) -> p x = true -> m_id x <> m) -> In r (get t d');
  cascade_tournaments p d n d' : deleteMany tournaments p d = Ok (n, d') ->
    forall t, t ∈ matches :: publishedTables -> get t d' = get t d;
  cascade_restrict p d x t r : In x (db_matches d) -> p x = true ->
    t ∈ publishedTables -> In r (get t d) -> row_match t r = Some (m_id x) ->
    exists e, deleteMany matches p d = Err e }.

(** ** The store a run settles

    No entitlement is overdue, every ended one has the time it ended, no expired user is still an
    administrator, nothing is hidden from an owner with a running entitlement, nothing is shown of
    an owner whose year is over, and nothing due is left to purge. *)
Record settledAt (now : timestamp) (d : DB) : Prop := {
  settled_active : forall e, In e (db_adminEntitlements d) -> expiring now e = false;
  settled_ended : forall e, In e (db_adminEntitlements d) -> unended e = false;
  settled_roles : forall u, In u (db_users d) -> (us_role u === ADMIN) && expiredUser d (us_id u) = false;
  settled_restored : forall t, In t (db_tournaments d) -> lapsed t && runningUser now d (tn_ownerUserId t) = false;
  settled_hidden : forall e t, In e (db_adminEntitlements d) -> ae_status e = ENTITLEMENT_EXPIRED -> inGrace now e = false ->
    In t (db_tournaments d) -> tn_ownerUserId t = ae_userId e -> tn_softDeletedAt t <> None;
  settled_purged : forall t, In t (db_tournaments d) -> purgeable now t = false }.

Lemma update_nothing t p g d : wf d -> (forall r, In r (get t d) -> p r = false) -> update_many t p g d = Ok (0%nat, d).
Proof.
  intros Hw H; apply update_many_ok; rewrite map_where_nil, filter_nothing by exact H.
  split; [reflexivity |]; split; [apply Hw | symmetry; apply put_get].
Qed.

Lemma hideOwners_settled now d owners : wf d ->
  (forall e t, In e owners -> inGrace now e = false -> In t (db_tournaments d) -> tn_ownerUserId t = ae_userId e -> tn_softDeletedAt t <> None) ->
  hideOwners now owners d = Ok (0%nat, d).
Proof.
  intros Hw; induction owners as [| e owners IH]; intros H; [reflexivity |]; cbn [hideOwners].
  assert (IH' : hideOwners now owners d = Ok (0%nat, d)) by (apply IH; intros; eapply H; eauto; right; assumption).
  destruct (inGrace now e) eqn:Eg; [exact IH' |].
  rewrite (bind_step _ _ _ 0%nat d), (bind_step _ _ _ 0%nat d) by
    (exact IH' || (apply (update_nothing tournaments); [exact Hw |]; intros t Ht; apply andb_false_iff;
      destruct (decide (tn_ownerUserId t = ae_userId e)) as [E | E]; [right | left; apply bool_decide_eq_false_2; exact E];
      apply bool_decide_eq_false_2; eapply H; eauto; left; reflexivity)).
  reflexivity.
Qed.

(** A run at a settled store finds nothing to do. *)
Lemma run_settled deleteMany now at_ d : wf d -> settledAt now d ->
  run deleteMany true now at_ d = Ok (mkLifecycleRun 0 0 0 0, d).
Proof.
  intros Hw Hst; unfold run; cbn [negb]; unfold expireEntitlements, restoreTournaments.
  rewrite (bind_step _ _ _ 0%nat d).
  2: { rewrite (bind_step _ _ _ 0%nat d) by (apply (update_nothing adminEntitlements); [exact Hw | apply Hst]).
       rewrite (bind_step _ _ _ 0%nat d) by (apply (update_nothing adminEntitlements); [exact Hw | apply Hst]).
       rewrite (bind_step _ _ _ d d) by reflexivity.
       rewrite (bind_step _ _ _ 0%nat d) by (apply (update_nothing users); [exact Hw | apply Hst]); reflexivity. }
  rewrite (bind_step _ _ _ 0%nat d).
  2: { rewrite (bind_step _ _ _ d d) by reflexivity; apply (update_nothing tournaments); [exact Hw | apply Hst]. }
  rewrite (bind_step _ _ _ _ d) by reflexivity.
  rewrite (bind_step _ _ _ 0%nat d).
  2: { apply hideOwners_settled; [exact Hw |]; intros e t He; apply filter_In in He as [He Hx]; to_prop.
       apply (settled_hidden _ _ Hst); assumption. }
  rewrite (bind_step _ _ _ [] d) by (unfold find_many, gets; f_equal; f_equal; apply filter_nothing, Hst).
  reflexivity.
Qed.

(** ** What each phase leaves *)

(** An entitlement after the expiry: overdue ones are EXPIRED since the end of their term. *)
Definition ended (e : EntitlementRow) : EntitlementRow :=
  if unended e then e <| ae_adminAccessEndedAt := Some (ae_activeUntil e) |> else e.
Definition overdue (now : timestamp) (e : EntitlementRow) : EntitlementRow :=
  ended (if expiring now e then e <| ae_status := ENTITLEMENT_EXPIRED |> else e).

Lemma overdue_user now e : ae_userId (overdue now e) = ae_userId e.
Proof. unfold overdue, ended; destruct (expiring now e), (unended _); reflexivity. Qed.

Lemma overdue_settled now e : expiring now (overdue now e) = false /\ unended (overdue now e) = false.
Proof.
  unfold overdue, ended, expiring, unended; destruct e as [i u st f un l ea]; cbn.
  destruct st, ea, (un <=? now) eqn:E; cbn; rewrite ?E; auto.
Qed.

Lemma overdue_not_running now e : (ae_status (overdue now e) === ENTITLEMENT_ACTIVE) && (ae_activeFrom (overdue now e) <=? now) &&
  (now <? ae_activeUntil (overdue now e)) = (ae_status e === ENTITLEMENT_ACTIVE) && (ae_activeFrom e <=? now) && (now <? ae_activeUntil e).
Proof.
  unfold overdue, ended, expiring, unended; destruct e as [i u st f un l ea]; cbn.
  destruct st, ea, (Z.leb_spec un now) as [Hun | Hun]; repeat (cbn; decide_consts_goal); try reflexivity;
    rewrite (proj2 (Z.ltb_ge now un) Hun), andb_false_r; reflexivity.
Qed.

Lemma entitlementOf_map f d d' : (forall e, ae_userId (f e) = ae_userId e) ->
  db_adminEntitlements d' = map f (db_adminEntitlements d) -> forall u, entitlementOf u d' = option_map f (entitlementOf u d).
Proof.
  intros Hf E u; unfold entitlementOf; rewrite E; generalize (db_adminEntitlements d); intros l.
  induction l as [| e l IH]; [reflexivity |]; cbn; rewrite Hf; destruct (ae_userId e === u); auto.
Qed.

Lemma entitlementOf_ext d d' : db_adminEntitlements d' = db_adminEntitlements d -> forall u, entitlementOf u d' = entitlementOf u d.
Proof. intros E u; unfold entitlementOf; rewrite E; reflexivity. Qed.

Lemma entitlementOf_in d e : wf d -> In e (db_adminEntitlements d) -> entitlementOf (ae_userId e) d = Some e.
Proof.
  intros Hw Hin; unfold entitlementOf; match goal with |- find_first ?p ?l = _ => destruct (find_first p l) as [x |] eqn:E end.
  - apply find_first_some in E as [Hx E]; to_prop; f_equal; specialize (Hw adminEntitlements).
    apply table_ok_true in Hw as (_ & _ & Hix); apply (unique_by_inj _ _ _ _ (ae_userId e) Hix Hx Hin); cbn; congruence.
  - exfalso; pose proof (proj1 (find_first_none _ _) E e Hin) as He; cbn in He; rewrite bool_decide_eq_true_2 in He; congruence.
Qed.

Lemma expireEntitlements_ok now d n d1 : expireEntitlements now d = Ok (n, d1) -> sound d ->
  sound d1 /\ touches [adminEntitlements; users] d d1 /\
  db_adminEntitlements d1 = map (overdue now) (db_adminEntitlements d) /\
  db_users d1 = map_where (fun u => (us_role u === ADMIN) && expiredUser d1 (us_id u)) (fun u => u <| us_role := USER |>) (db_users d) /\
  (forall u, In u (db_users d1) -> (us_role u === ADMIN) && expiredUser d1 (us_id u) = false).
Proof.
  intros H Hs.
  assert (Hk : respects keeps_sound (expireEntitlements now)) by (unfold expireEntitlements; respects_auto).
  assert (Hto : respects (touches [adminEntitlements; users]) (expireEntitlements now)) by (unfold expireEntitlements; respects_auto).
  pose proof (Hk _ _ _ H Hs) as Hs1; pose proof (Hto _ _ _ H) as Ht; clear Hk Hto.
  split; [exact Hs1 |]; split; [exact Ht |].
  apply bind_ok in H as (x & d2 & H1 & H); apply (update_many_ok adminEntitlements) in H1 as (_ & _ & E1).
  apply bind_ok in H as (y & d3 & H2 & H); apply (update_many_ok adminEntitlements) in H2 as (_ & _ & E2).
  apply bind_ok in H as (z & d4 & H3 & H); apply gets_ok in H3 as [-> ->].
  apply bind_ok in H as (z & d4 & H3 & H); apply (update_many_ok users) in H3 as (_ & _ & E3).
  apply ret_ok in H as [_ <-].
  assert (Ea : forall l, db_adminEntitlements (put users l d3) = db_adminEntitlements d3) by reflexivity.
  split.
  - rewrite E3, Ea, E2, E1; change db_adminEntitlements with (get adminEntitlements); rewrite !get_put_same.
    unfold map_where; rewrite map_map; apply map_ext; intros e; reflexivity.
  - assert (Eu : db_users d4 = map_where (fun u => (us_role u === ADMIN) && expiredUser d4 (us_id u)) (fun u => u <| us_role := USER |>) (db_users d)).
    { assert (Eu0 : get users d3 = get users d) by (rewrite E2, get_put_other by discriminate; rewrite E1, get_put_other by discriminate; reflexivity).
      transitivity (map_where (fun u : UserRow => (us_role u === ADMIN) && expiredUser d3 (us_id u)) (fun u => u <| us_role := USER |>) (get users d3));
        [rewrite E3; apply (get_put_same users) |]; rewrite Eu0.
      apply map_where_eq; intros u _; f_equal; unfold expiredUser; rewrite (entitlementOf_ext d3 d4); [reflexivity | rewrite E3; apply Ea]. }
    split; [exact Eu |]; intros u Hu; rewrite Eu in Hu; apply in_map_where in Hu as (v & _ & ->).
    destruct ((us_role v === ADMIN) && expiredUser d4 (us_id v)) eqn:E; [reflexivity | exact E].
Qed.

Lemma restoreTournaments_ok now d n d' : restoreTournaments now d = Ok (n, d') -> sound d ->
  sound d' /\ touches [tournaments] d d' /\
  db_tournaments d' = map_where (fun t => lapsed t && runningUser now d (tn_ownerUserId t)) (restoredTournament now) (db_tournaments d).
Proof.
  intros H Hs.
  assert (Hk : respects keeps_sound (restoreTournaments now)) by (unfold restoreTournaments; respects_auto).
  assert (Ht : respects (touches [tournaments]) (restoreTournaments now)) by (unfold restoreTournaments; respects_auto).
  split; [exact (Hk _ _ _ H Hs) |]; split; [exact (Ht _ _ _ H) |].
  apply bind_ok in H as (z & d1 & H1 & H); apply gets_ok in H1 as [-> ->].
  apply (update_many_ok tournaments) in H as (_ & _ & ->); reflexivity.
Qed.

(** Who hides a tournament: an owner past the grace year. *)
Definition hides (now : timestamp) (owners : list EntitlementRow) (t : TournamentRow) : bool :=
  (tn_softDeletedAt t === None) && existsb (fun e => (ae_userId e === tn_ownerUserId t) && negb (inGrace now e)) owners.

Lemma hideOwners_ok now owners : forall d n d', hideOwners now owners d = Ok (n, d') ->
  touches [tournaments] d d' /\ (sound d -> sound d') /\
  db_tournaments d' = map_where (hides now owners) (hiddenTournament now) (db_tournaments d).
Proof.
  induction owners as [| e owners IH]; intros d n d' H.
  - apply ret_ok in H as [_ <-]; split; [reflexivity |]; split; [auto |]; symmetry; apply map_where_nil.
    intros t _; apply andb_false_r.
  - cbn [hideOwners] in H; destruct (inGrace now e) eqn:Eg.
    + destruct (IH _ _ _ H) as (Ht & Hs & E); split; [exact Ht |]; split; [exact Hs |]; rewrite E; apply map_where_eq.
      intros t _; unfold hides; cbn; rewrite Eg, andb_false_r; reflexivity.
    + apply bind_ok in H as (x & d1 & H1 & H); apply bind_ok in H as (y & d2 & H2 & H); apply ret_ok in H as [_ <-].
      pose proof (touches_update_many tournaments [tournaments] _ _ ltac:(table_in) _ _ _ H1) as Ht1.
      pose proof (keeps_sound_update_many tournaments _ (hiddenTournament now) (fun _ => eq_refl) _ _ _ H1) as Hs1.
      destruct (IH _ _ _ H2) as (Ht & Hs & E); split; [etransitivity; eassumption |]; split; [intros; apply Hs, Hs1; assumption |].
      apply (update_many_ok tournaments) in H1 as (_ & _ & E1); rewrite E, E1.
      change db_tournaments with (get tournaments); rewrite get_put_same; unfold map_where; rewrite map_map; apply map_ext.
      intros t; rewrite (bool_decide_ext (tn_ownerUserId t = ae_userId e) (ae_userId e = tn_ownerUserId t)) by (split; congruence).
      unfold hides at 2; cbn [existsb]; rewrite Eg; cbn [negb]; rewrite andb_true_r.
      destruct (ae_userId e === tn_ownerUserId t); cbn [andb orb]; [| reflexivity].
      rewrite andb_true_r; destruct (tn_softDeletedAt t === None) eqn:E0; [reflexivity |].
      unfold hides; rewrite E0; reflexivity.
Qed.

Section Purges.
Context (deleteMany : forall t : table, (row_of t -> bool) -> DbM nat) `{!Cascades deleteMany}.

Lemma enqueue_respects R `{!PreOrder R} key reason at_ :
  (forall mk, (forall n i, row_id mediaDeletions (mk n) = Some i -> i = n) -> respects R (create mediaDeletions mk)) ->
  respects R (enqueueMediaDeletion key reason at_).
Proof.
  intros Hc; unfold enqueueMediaDeletion; destruct key as [key |]; [| apply respects_ret; assumption].
  apply respects_bind; [assumption | apply respects_find_one; assumption |]; intros [r |]; [apply respects_ret; assumption |].
  apply respects_bind; [assumption | | intros; apply respects_ret; assumption].
  apply Hc; intros n i; cbn; congruence.
Qed.

(** A purge takes the tournament along, if it is still due, and leaves the accounts alone. *)
Lemma purgeTournament_ok now at_ id d n d' : purgeTournament deleteMany now at_ id d = Ok (n, d') ->
  (sound d -> sound d') /\ (forall t, t ∈ accountTables -> get t d' = get t d) /\
  db_tournaments d' = List.filter (fun t => negb ((tn_id t === id) && purgeable now t)) (db_tournaments d).
Proof.
  intros H; apply bind_ok in H as (keys & d1 & H1 & H); apply gets_ok in H1 as [-> ->].
  apply bind_ok in H as (n1 & d1 & H1 & H); apply bind_ok in H as (n2 & d2 & H2 & H).
  apply bind_ok in H as ([] & d3 & H3 & H); apply ret_ok in H as [_ <-].
  assert (Ht3 : touches [mediaDeletions] d2 d3).
  { refine ((_ : respects (touches [mediaDeletions]) (when _ _)) _ _ _ H3); apply respects_when; [apply _ |].
    apply respects_for_each; [apply _ |]; intros key; apply enqueue_respects; [apply _ |]; intros; apply touches_create; table_in. }
  assert (Hs3 : keeps_sound d2 d3).
  { refine ((_ : respects keeps_sound (when _ _)) _ _ _ H3); apply respects_when; [apply _ |].
    apply respects_for_each; [apply _ |]; intros key; apply enqueue_respects; [apply _ |]; intros; apply keeps_sound_create; assumption. }
  split; [intros Hs; apply Hs3; eapply cascade_sound; [exact H2 |]; eapply cascade_sound; eassumption |]; split.
  - intros t Ht; rewrite (Ht3 t); [| intros E; apply list_elem_of_singleton in E as ->; revert Ht; apply (bool_decide_eq_false_1 _); reflexivity].
    assert (Hm : matches ∈ [matches; tournaments]) by table_in; assert (Hn : tournaments ∈ [matches; tournaments]) by table_in.
    rewrite (cascade_accounts _ _ _ _ _ Hn H2 t Ht); apply (cascade_accounts _ _ _ _ _ Hm H1 t Ht).
  - change db_tournaments with (get tournaments); rewrite (Ht3 tournaments ltac:(table_notin)).
    rewrite (proj2 (cascade_rows _ _ _ _ _ H2)), (proj1 (cascade_matches _ _ _ _ H1)); reflexivity.
Qed.

Lemma purgeAll_ok now at_ ids : forall d n d', purgeAll deleteMany now at_ ids d = Ok (n, d') ->
  (sound d -> sound d') /\ (forall t, t ∈ accountTables -> get t d' = get t d) /\
  (forall t, In t (db_tournaments d') <-> In t (db_tournaments d) /\ ~ (In (tn_id t) ids /\ purgeable now t = true)).
Proof.
  induction ids as [| id ids IH]; intros d n d' H.
  - apply ret_ok in H as [_ <-]; split; [auto |]; split; [reflexivity |]; intros t; cbn; tauto.
  - apply bind_ok in H as (x & d1 & H1 & H); apply bind_ok in H as (y & d2 & H2 & H); apply ret_ok in H as [_ <-].
    destruct (purgeTournament_ok _ _ _ _ _ _ H1) as (Hs1 & Ha1 & Et), (IH _ _ _ H2) as (Hs & Ha & Ht).
    split; [auto |]; split; [intros t Hin; rewrite (Ha t Hin); apply Ha1, Hin |].
    intros t; rewrite Ht, Et, filter_In, negb_true_iff, andb_false_iff, bool_decide_eq_false; cbn [In].
    destruct (purgeable now t); [| intuition congruence].
    destruct (decide (tn_id t = id)) as [-> | Hid]; intuition congruence.
Qed.

(** A committed run decomposed. *)
Lemma run_cases now at_ d r d' : run deleteMany true now at_ d = Ok (r, d') -> sound d ->
  exists d1 d3 owners, sound d1 /\ sound d' /\
  db_adminEntitlements d1 = map (overdue now) (db_adminEntitlements d) /\
  (db_users d1 = map_where (fun u => (us_role u === ADMIN) && expiredUser d1 (us_id u)) (fun u => u <| us_role := USER |>) (db_users d) /\
   forall u, In u (db_users d1) -> (us_role u === ADMIN) && expiredUser d1 (us_id u) = false) /\
  owners = List.filter (fun e => (ae_status e === ENTITLEMENT_EXPIRED) && set_ (ae_adminAccessEndedAt e)) (db_adminEntitlements d1) /\
  db_tournaments d3 = map_where (hides now owners) (hiddenTournament now)
    (map_where (fun t => lapsed t && runningUser now d1 (tn_ownerUserId t)) (restoredTournament now) (db_tournaments d)) /\
  (forall t, t ∈ accountTables -> get t d' = get t d1) /\
  (forall t, In t (db_tournaments d') <-> In t (db_tournaments d3) /\ purgeable now t = false).
Proof.
  intros H Hs; unfold run in H; cbn [negb] in H.
  apply bind_ok in H as (n1 & d1 & H1 & H); destruct (expireEntitlements_ok _ _ _ _ H1 Hs) as (Hs1 & Ht1 & Ee & Er).
  apply bind_ok in H as (n2 & d2 & H2 & H); destruct (restoreTournaments_ok _ _ _ _ H2 Hs1) as (Hs2 & Ht2 & Et2).
  apply bind_ok in H as (owners & d2' & H3 & H); apply gets_ok in H3 as [-> ->].
  apply bind_ok in H as (n3 & d3 & H3 & H); destruct (hideOwners_ok _ _ _ _ _ H3) as (Ht3 & Hs3 & Et3).
  apply bind_ok in H as (cs & d3' & H4 & H); apply gets_ok in H4 as [-> ->].
  apply bind_ok in H as (n4 & d4 & H4 & H); destruct (purgeAll_ok _ _ _ _ _ _ H4) as (Hs4 & Ha4 & Et4).
  apply bind_ok in H as ([] & d5 & H5 & H); apply ret_ok in H as [_ <-].
  assert (Hw : respects (touches [auditLogs]) (logRun n1 n2 n3 n4)) by (unfold logRun; respects_auto).
  assert (Hk : respects keeps_sound (logRun n1 n2 n3 n4)) by (unfold logRun; respects_auto).
  specialize (Hw _ _ _ H5); specialize (Hk _ _ _ H5); cbv beta in Hw, Hk.
  assert (Ha : forall t, t ∈ accountTables -> t ∉ [tournaments] /\ t ∉ [auditLogs]).
  { intros t Ht; repeat (apply list.elem_of_cons in Ht as [-> | Ht]; [split; table_notin |]); inversion Ht. }
  assert (Hacc : forall t, t ∈ accountTables -> get t d3 = get t d1).
  { intros t Ht; destruct (Ha t Ht) as [Hn _]; rewrite (Ht3 t Hn); apply Ht2, Hn. }
  exists d1, d3, (List.filter (fun e => (ae_status e === ENTITLEMENT_EXPIRED) && set_ (ae_adminAccessEndedAt e)) (db_adminEntitlements d1)).
  split; [exact Hs1 |]; split; [auto |]; split; [exact Ee |]; split; [exact Er |]; split; [reflexivity |]; split.
  { rewrite Et3, Et2; change db_adminEntitlements with (get adminEntitlements); rewrite (Ht2 adminEntitlements ltac:(table_notin)).
    change db_tournaments with (get tournaments); rewrite (Ht1 tournaments ltac:(table_notin)); reflexivity. }
  split.
  - intros t Ht; rewrite (Hw t (proj2 (Ha t Ht))), (Ha4 t Ht); apply Hacc, Ht.
  - intros t; change (db_tournaments d5) with (get tournaments d5); rewrite (Hw tournaments ltac:(table_notin)); cbn [get]; rewrite Et4.
    destruct (purgeable now t) eqn:Ep; [| intuition congruence].
    split; [intros [Hin Hn] | intros [_ Hf]; discriminate]; exfalso; apply Hn; split; [| reflexivity].
    apply in_map, filter_In; auto.
Qed.

Lemma run_settles now at_ d r d' : run deleteMany true now at_ d = Ok (r, d') -> sound d ->
  settledAt now d' /\ sound d' /\ db_adminEntitlements d' = map (overdue now) (db_adminEntitlements d).
Proof.
  intros H Hs; destruct (run_cases _ _ _ _ _ H Hs) as (d1 & d3 & owners & Hs1 & Hs' & Ee & (_ & Er) & Eo & Et3 & Hacc & Ht).
  assert (Ea : db_adminEntitlements d' = db_adminEntitlements d1) by exact (Hacc adminEntitlements ltac:(table_in)).
  assert (Eu : db_users d' = db_users d1) by exact (Hacc users ltac:(table_in)).
  assert (Hent : forall u, entitlementOf u d' = entitlementOf u d1) by (apply entitlementOf_ext, Ea).
  assert (Hrun : forall u, runningUser now d' u = runningUser now d1 u) by (intros u; unfold runningUser; rewrite Hent; reflexivity).
  assert (Hover : forall e, In e (db_adminEntitlements d') -> expiring now e = false /\ unended e = false).
  { intros e He; rewrite Ea, Ee in He; apply in_map_iff in He as (x & <- & _); apply overdue_settled. }
  assert (Howner : forall e, In e owners -> entitlementOf (ae_userId e) d1 = Some e /\ ae_status e = ENTITLEMENT_EXPIRED).
  { intros e He; rewrite Eo in He; apply filter_In in He as [He Hx]; to_prop; split; [apply entitlementOf_in; [apply Hs1 | exact He] | assumption]. }
  assert (Hpast : forall t, In t (db_tournaments d') -> exists s, In s (map_where (fun t => lapsed t && runningUser now d1 (tn_ownerUserId t))
      (restoredTournament now) (db_tournaments d)) /\ t = if hides now owners s then hiddenTournament now s else s).
  { intros t Hin; apply Ht in Hin as [Hin _]; rewrite Et3 in Hin; apply in_map_where in Hin; exact Hin. }
  split; [| split; [exact Hs' | rewrite Ea; exact Ee]]; split.
  - intros e He; apply Hover, He.
  - intros e He; apply Hover, He.
  - intros u Hu; rewrite Eu in Hu; unfold expiredUser; rewrite Hent; apply Er, Hu.
  - intros t Hin; destruct (Hpast t Hin) as (s & Hin' & ->); rewrite Hrun; destruct (hides now owners s) eqn:Eh.
    + apply andb_true_iff in Eh as [_ Eh]; apply existsb_exists in Eh as (e & He & Ee'); to_prop.
      destruct (Howner e He) as [Hf Hst]; cbn [tn_ownerUserId hiddenTournament]; apply andb_false_iff; right.
      unfold runningUser; change (tn_ownerUserId (hiddenTournament now s)) with (tn_ownerUserId s).
      replace (tn_ownerUserId s) with (ae_userId e) by assumption; rewrite Hf, Hst; reflexivity.
    + apply in_map_where in Hin' as (x & _ & ->); destruct (lapsed x && runningUser now d1 (tn_ownerUserId x)) eqn:Ex; [reflexivity | exact Ex].
  - intros e t He Hst Hg Hin Hown; destruct (Hpast t Hin) as (s & _ & ->); destruct (hides now owners s) eqn:Eh; [discriminate |].
    intros Hn; unfold hides in Eh; rewrite bool_decide_eq_true_2 in Eh by exact Hn; cbn [andb] in Eh.
    pose proof (existsb_none _ _ Eh e) as Hx; cbv beta in Hx; rewrite Hg, bool_decide_eq_true_2 in Hx by congruence.
    discriminate Hx; rewrite Eo; apply filter_In; split; [rewrite <- Ea; exact He |].
    destruct (Hover e He) as [_ Hun]; unfold unended in Hun; rewrite Hst in *; destruct (ae_adminAccessEndedAt e); [reflexivity | discriminate Hun].
  - intros t Hin; apply Ht, Hin.
Qed.
End Purges.

(** ** Theorems *)

Section Theorems.
Context (deleteMany : forall t : table, (row_of t -> bool) -> DbM nat) `{!Cascades deleteMany}.

Lemma overdue_access now e role t : now <= t ->
  calculateAdminAccessState role (Some (overdue now e)) t = calculateAdminAccessState role (Some e) t.
Proof.
  intros Hn; unfold overdue, ended, expiring, unended, calculateAdminAccessState, adminAccessEndedAt; destruct e as [i u st f un l ea].
  cbn -[addUtcMonths]; destruct (role === SUPER_ADMIN); [reflexivity |].
  destruct st, ea, (Z.leb_spec un now) as [Hun | Hun]; repeat (cbn -[addUtcMonths]; decide_consts_goal); try reflexivity;
    rewrite (proj2 (Z.ltb_ge t un)), (proj2 (Z.leb_le un t)) by lia; rewrite !andb_false_r; reflexivity.
Qed.

(** What the access policy lets a user do at a time: the stored role and entitlement decide. *)
Definition accessOf (user : uuid) (d : DB) (t : timestamp) : option AdminAccessState :=
  option_map (fun u => calculateAdminAccessState (us_role u) (entitlementOf user d) t) (userOf user d).

(** The entitlement of a user that has run out by a time, whether that is recorded yet or not *)
Definition ranOut (user : uuid) (d : DB) (now : timestamp) : bool :=
  match entitlementOf user d with
  | Some e => (ae_status e === ENTITLEMENT_EXPIRED) || ((ae_status e === ENTITLEMENT_ACTIVE) && (ae_activeUntil e <=? now))
  | None => false
  end.

Lemma overdue_expired now e : ae_status (overdue now e) === ENTITLEMENT_EXPIRED =
  (ae_status e === ENTITLEMENT_EXPIRED) || ((ae_status e === ENTITLEMENT_ACTIVE) && (ae_activeUntil e <=? now)).
Proof.
  unfold overdue, ended, expiring, unended; destruct e as [i u st f un l ea]; cbn.
  destruct st, ea, (un <=? now); reflexivity.
Qed.

(** The users after a run: the administrators whose entitlement has run out are plain users, all others as before. *)
Lemma run_users now at_ d r d' : run deleteMany true now at_ d = Ok (r, d') -> sound d ->
  db_users d' = map_where (fun u => (us_role u === ADMIN) && ranOut (us_id u) d now) (fun u => u <| us_role := USER |>) (db_users d).
Proof.
  intros H Hs; destruct (run_cases _ _ _ _ _ _ H Hs) as (d1 & d3 & owners & _ & _ & Ee & (Eu & _) & _ & _ & Hacc & _).
  change (get users d' = map_where (fun u => (us_role u === ADMIN) && ranOut (us_id u) d now) (fun u => u <| us_role := USER |>) (db_users d)).
  rewrite (Hacc users ltac:(table_in)); change (get users d1) with (db_users d1); rewrite Eu; apply map_where_eq; intros u _; f_equal.
  unfold expiredUser, ranOut; rewrite (entitlementOf_map _ _ _ (overdue_user now) Ee).
  destruct (entitlementOf (us_id u) d) as [e |]; [apply overdue_expired | reflexivity].
Qed.

(** C36: the hourly run never changes what anyone may do: at the time it runs and at any later one the access policy
    gives every user, with the role and the entitlement stored before and after it, the same state. Of the users it
    changes nothing but the role of the administrators whose entitlement has run out, who become plain users; a super
    administrator stays one. *)
Theorem run_keeps_access now at_ d r d' (Hs : sound d) (H : run deleteMany true now at_ d = Ok (r, d')) :
  (forall user t, now <= t -> accessOf user d' t = accessOf user d t) /\
  db_users d' = map_where (fun u => (us_role u === ADMIN) && ranOut (us_id u) d now) (fun u => u <| us_role := USER |>) (db_users d).
Proof.
  pose proof (run_users _ _ _ _ _ H Hs) as Eu; split; [| exact Eu]; intros user t Ht.
  destruct (run_settles _ _ _ _ _ _ H Hs) as (_ & _ & E); unfold accessOf, userOf; rewrite (entitlementOf_map _ _ _ (overdue_user now) E).
  rewrite Eu, find_first_map_where by reflexivity; destruct (find_first _ (db_users d)) as [u |]; [| reflexivity]; cbn; f_equal.
  transitivity (calculateAdminAccessState (us_role u) (option_map (overdue now) (entitlementOf user d)) t).
  - destruct (bool_decide_reflect (us_role u = ADMIN)) as [Ea |]; cbn [andb]; [| reflexivity].
    destruct (ranOut (us_id u) d now); [| reflexivity]; cbn; rewrite Ea; reflexivity.
  - destruct (entitlementOf user d) as [e |]; [apply overdue_access, Ht | reflexivity].
Qed.

(** C37: After a run the tournaments follow the access policy: none is hidden by a lapse from an owner
    with full access, none is shown of an owner whose entitlement has expired and whose read-only
    year is over, none that is due is left unpurged, and no expired user is an ADMIN. *)
Theorem run_enforces_policy now at_ d r d' (Hs : sound d) (H : run deleteMany true now at_ d = Ok (r, d')) role
    (Hr : role <> SUPER_ADMIN) :
  (forall t, In t (db_tournaments d') ->
     let state := calculateAdminAccessState role (entitlementOf (tn_ownerUserId t) d') now in
     (state = ACTIVE_ADMIN -> lapsed t = false) /\
     (state = HIDDEN -> expiredUser d' (tn_ownerUserId t) = true -> tn_softDeletedAt t <> None) /\
     purgeable now t = false) /\
  (forall u, In u (db_users d') -> expiredUser d' (us_id u) = true -> us_role u <> ADMIN).
Proof.
  destruct (run_settles _ _ _ _ _ _ H Hs) as (Hst & Hs' & _); split.
  - intros t Hin state; subst state; split; [| split; [| apply (settled_purged _ _ Hst t Hin)]].
    + intros Ha; pose proof (settled_restored _ _ Hst t Hin) as Hn; destruct (lapsed t); [| reflexivity]; cbn [andb] in Hn.
      exfalso; revert Ha Hn; unfold calculateAdminAccessState, runningUser; rewrite (bool_decide_eq_false_2 (role = _)) by exact Hr.
      destruct (entitlementOf _ d') as [e |]; [| discriminate]; repeat case_match; congruence.
    + unfold expiredUser; destruct (entitlementOf _ d') as [e |] eqn:Ee; [| discriminate]; intros Hh Hx; to_prop.
      apply find_first_some in Ee as [He Eu]; to_prop; apply (settled_hidden _ _ Hst e t He); auto.
      pose proof (settled_ended _ _ Hst e He) as Hun; unfold unended in Hun; unfold inGrace.
      revert Hh Hun; unfold calculateAdminAccessState, adminAccessEndedAt; rewrite (bool_decide_eq_false_2 (role = _)), Hx by exact Hr.
      destruct (ae_adminAccessEndedAt e) as [x |]; [| discriminate]; cbn -[addUtcMonths].
      destruct (now <? addUtcMonths x ADMIN_GRACE_MONTHS); [discriminate | reflexivity].
  - intros u Hu Hx E; pose proof (settled_roles _ _ Hst u Hu) as Hn; rewrite E, Hx in Hn; discriminate.
Qed.

(** The run is idempotent: run again at the same time it finds nothing to do and writes nothing,
    not even an audit entry. *)
Theorem run_idempotent now at_ d r d' (Hs : sound d) (H : run deleteMany true now at_ d = Ok (r, d')) :
  run deleteMany true now at_ d' = Ok (mkLifecycleRun 0 0 0 0, d').
Proof. destruct (run_settles _ _ _ _ _ _ H Hs) as (Hst & Hs' & _); apply run_settled; [apply Hs' | exact Hst]. Qed.

(** A match of the tournament has been published. *)
Definition published (id : uuid) (d : DB) : Prop :=
  exists x t r, In x (db_matches d) /\ m_tournamentId x = id /\ t ∈ publishedTables /\ In r (get t d) /\ row_match t r = Some (m_id x).

Lemma published_refused id d : published id d -> exists e, deleteMany matches (fun m => m_tournamentId m === id) d = Err e.
Proof.
  intros (x & t & r & Hx & Hid & Ht & Hr & Hm); eapply cascade_restrict; eauto; apply bool_decide_eq_true_2, Hid.
Qed.

Lemma published_same id d d' : (forall t, t ∈ matches :: publishedTables -> get t d' = get t d) -> published id d -> published id d'.
Proof.
  intros He (x & t & r & Hx & Hid & Ht & Hr & Hm); exists x, t, r; split_and!; auto.
  - change (In x (get matches d')); rewrite (He matches) by (apply list.elem_of_cons; left; reflexivity); exact Hx.
  - rewrite (He t) by (apply list.elem_of_cons; right; exact Ht); exact Hr.
Qed.

(** The deletion of another tournament's matches leaves the published ones. *)
Lemma published_matches id id' d n d' : sound d -> id' <> id -> published id d ->
  deleteMany matches (fun m => m_tournamentId m === id') d = Ok (n, d') -> published id d'.
Proof.
  intros [Hw _] Hne (x & t & r & Hx & Hid & Ht & Hr & Hm) H; exists x, t, r; split_and!; auto.
  - change (In x (get matches d')); rewrite (proj2 (cascade_rows _ _ _ _ _ H)); apply filter_In; split; [exact Hx |].
    rewrite bool_decide_eq_false_2 by congruence; reflexivity.
  - refine (proj2 (cascade_matches _ _ _ _ H) t r (m_id x) Ht Hr Hm _); intros y Hy Hp Ey; to_prop.
    assert (y = x) as -> by (eapply (wf_id matches d); eauto; cbn; congruence); congruence.
Qed.

Lemma purgeAll_stuck now at_ id ids : forall d, sound d -> In id ids -> published id d ->
  exists e, purgeAll deleteMany now at_ ids d = Err e.
Proof.
  induction ids as [| id' ids IH]; intros d Hs Hin Hp; [destruct Hin |]; cbn [purgeAll].
  destruct (decide (id' = id)) as [-> | Hne].
  - destruct (published_refused id d Hp) as (e & He); exists e; apply bind_err; unfold purgeTournament.
    rewrite (bind_step _ _ _ (imagesOf id d) d) by reflexivity; apply bind_err, He.
  - destruct Hin as [Hin | Hin]; [congruence |].
    destruct (purgeTournament deleteMany now at_ id' d) as [[n d1] | e] eqn:E; [| exists e; apply bind_err, E].
    destruct (IH d1) as (e & He); [apply (purgeTournament_ok _ _ _ _ _ _ _ E), Hs | exact Hin | |
      exists e; rewrite (bind_step _ _ _ _ _ E); apply bind_err, He].
    apply bind_ok in E as (keys & d2 & H1 & E); apply gets_ok in H1 as [-> ->].
    apply bind_ok in E as (n1 & d2 & H1 & E); apply bind_ok in E as (n2 & d3 & H2 & E).
    apply bind_ok in E as ([] & d4 & H3 & E); apply ret_ok in E as [_ <-].
    apply (published_same id d3), (published_same id d2), (published_matches id id' d n1); auto.
    + assert (Hq : respects (touches [mediaDeletions]) (when (negb (n2 =? 0)%nat)
        (for_each (fun key => enqueueMediaDeletion (Some key) "TOURNAMENT_PURGE" at_) (imagesOf id' d)))).
      { apply respects_when; [apply _ |]; apply respects_for_each; [apply _ |]; intros key; apply enqueue_respects; [apply _ |].
        intros; apply touches_create; table_in. }
      intros t Ht; apply (Hq _ _ _ H3); intros Et; apply list_elem_of_singleton in Et as ->; revert Ht.
      apply (bool_decide_eq_false_1 _); reflexivity.
    + intros t Ht; apply (cascade_tournaments _ _ _ _ H2 t Ht).
Qed.

(** Purging never gets past a tournament with a published match. Once a hidden tournament's sixty
    days are over, a match of it has an outcome, a result decision or a publication, and its owner has
    not renewed, every run fails, for that tournament can never be deleted; and as the run is one
    transaction nothing it did before is kept: no entitlement expires, no tournament is hidden,
    restored or purged any more. *)
Theorem published_purge_stuck now at_ d t purgeAfter (Hs : sound d) (Hin : In t (db_tournaments d))
    (Hd : tn_softDeletedAt t <> None) (Hp : tn_purgeAfter t = Some purgeAfter) (Hn : purgeAfter <= now)
    (Ho : runningUser now d (tn_ownerUserId t) = false) (Hpub : published (tn_id t) d) :
  exists e, run deleteMany true now at_ d = Err e /\ transaction (run deleteMany true now at_) d = (Err e, d).
Proof.
  enough (Hrun : exists e, run deleteMany true now at_ d = Err e)
    by (destruct Hrun as (e & He); exists e; unfold transaction; rewrite He; auto).
  destruct (run deleteMany true now at_ d) as [[r d'] | e] eqn:H; [exfalso | eauto]; unfold run in H; cbn [negb] in H.
  apply bind_ok in H as (n1 & d1 & H1 & H); destruct (expireEntitlements_ok _ _ _ _ H1 Hs) as (Hs1 & Ht1 & Ee & _).
  apply bind_ok in H as (n2 & d2 & H2 & H); destruct (restoreTournaments_ok _ _ _ _ H2 Hs1) as (Hs2 & Ht2 & Et2).
  apply bind_ok in H as (owners & d2' & H3 & H); apply gets_ok in H3 as [-> ->].
  apply bind_ok in H as (n3 & d3 & H3 & H); destruct (hideOwners_ok _ _ _ _ _ H3) as (Ht3 & Hs3 & Et3).
  apply bind_ok in H as (cs & d3' & H4 & H); apply gets_ok in H4 as [-> ->].
  apply bind_ok in H as (n4 & d4 & H4 & _).
  assert (Hrest : runningUser now d1 (tn_ownerUserId t) = false).
  { revert Ho; unfold runningUser; rewrite (entitlementOf_map _ _ _ (overdue_user now) Ee).
    destruct (entitlementOf _ d) as [e |]; cbn [option_map]; [rewrite overdue_not_running; auto | auto]. }
  assert (Hin3 : In t (db_tournaments d3)).
  { rewrite Et3; apply in_map_where; exists t; split.
    - rewrite Et2; apply in_map_where; exists t; rewrite Hrest, andb_false_r; split; [| reflexivity].
      change (In t (get tournaments d1)); rewrite (Ht1 tournaments ltac:(table_notin)); exact Hin.
    - unfold hides; rewrite bool_decide_eq_false_2 by exact Hd; reflexivity. }
  destruct (purgeAll_stuck now at_ (tn_id t) (map tn_id (List.filter (purgeable now) (db_tournaments d3))) d3) as (e & He).
  - apply Hs3, Hs2.
  - apply in_map, filter_In; split; [exact Hin3 |]; unfold purgeable; rewrite Hp.
    destruct (tn_softDeletedAt t); [apply Z.leb_le, Hn | congruence].
  - apply (published_same (tn_id t) d2), (published_same (tn_id t) d1), (published_same (tn_id t) d); [| | | exact Hpub];
      intros t' Ht'; [apply Ht3 | apply Ht2 | apply Ht1]; intros Hx; revert Ht';
      repeat (apply list.elem_of_cons in Hx as [-> | Hx]; [apply (bool_decide_eq_false_1 _); reflexivity |]); inversion Hx.
  - pose proof (eq_trans (eq_sym He) H4); discriminate.
Qed.
End Theorems.

(** ** Witnesses

    A DELETE that obeys the laws: a match takes its children along unless it was published, anything
    else goes alone. *)
Definition sweep (keep : forall t : table, row_of t -> bool) (ts : list table) (d : DB) : DB :=
  fold_right (fun t d => put t (List.filter (keep t) (get t d)) d) d ts.

Lemma get_sweep keep ts d t : NoDup ts ->
  get t (sweep keep ts d) = if bool_decide (t ∈ ts) then List.filter (keep t) (get t d) else get t d.
Proof.
  induction 1 as [| t' ts Hni Hnd IH]; [reflexivity |]; cbn [sweep fold_right].
  destruct (decide (t = t')) as [-> | Hne].
  - rewrite get_put_same; change (fold_right _ d ts) with (sweep keep ts d); rewrite IH.
    rewrite bool_decide_eq_false_2 by exact Hni; rewrite bool_decide_eq_true_2 by (apply list.elem_of_cons; left; reflexivity); reflexivity.
  - rewrite get_put_other by exact Hne; change (fold_right _ d ts) with (sweep keep ts d); rewrite IH.
    rewrite (bool_decide_ext (t ∈ t' :: ts) (t ∈ ts)); [reflexivity | rewrite list.elem_of_cons; tauto].
Qed.

Lemma sweep_sound keep ts d : sound d -> sound (sweep keep ts d).
Proof.
  intros Hs; induction ts as [| t ts IH]; [exact Hs |]; cbn [sweep fold_right]; apply sound_put; [exact IH | apply table_ok_sub, IH |].
  intros r i Hr; apply filter_In in Hr as [Hr _]; apply IH, Hr.
Qed.

Definition matchTables : list table :=
  [rounds; scoringWindows; judgeVotes; scoreEvents; penalties; faults; roundAthleteResults; matchAppeals;
   matchResultOperations; matchAthletes; matchOfficialAssignments; matchAccessCodes; matchSessions].
Definition ofMatches (ids : list uuid) (t : table) (r : row_of t) : bool :=
  match row_match t r with Some m => bool_decide (m ∈ ids) | None => false end.

Definition deleteMatches (p : MatchRow -> bool) : DbM nat := fun d =>
  let ids := map m_id (List.filter p (db_matches d)) in
  if existsb (fun t => existsb (ofMatches ids t) (get t d)) publishedTables then Err CheckViolation
  else delete_many matches p (sweep (fun t r => negb (ofMatches ids t r)) matchTables d).
Definition sampleDelete (t : table) : (row_of t -> bool) -> DbM nat :=
  match t return (row_of t -> bool) -> DbM nat with
  | matches => deleteMatches
  | t => delete_many t
  end.

Lemma sampleDelete_other t p : t <> matches -> sampleDelete t p = delete_many t p.
Proof. destruct t; try reflexivity; intros H; destruct (H eq_refl). Qed.

Lemma deleteMatches_ok p d n d' : deleteMatches p d = Ok (n, d') ->
  exists d1, (sound d -> sound d1) /\ delete_many matches p d1 = Ok (n, d') /\
  forall t, t ∉ matchTables -> get t d1 = get t d.
Proof.
  unfold deleteMatches; destruct (existsb _ _); [discriminate |]; intros H; eexists; split; [| split; [exact H |]].
  - apply sweep_sound.
  - intros t Ht; rewrite get_sweep by (apply (bool_decide_eq_true_1 _); reflexivity); rewrite bool_decide_eq_false_2 by exact Ht; reflexivity.
Qed.

#[export] Instance sampleDelete_cascades : Cascades sampleDelete.
Proof.
  split.
  - intros t p d n d' H; destruct (decide (t = matches)) as [-> | Hne].
    + apply deleteMatches_ok in H as (d1 & _ & H & Ho); apply delete_many_ok in H as [-> ->].
      rewrite get_put_same, (Ho matches ltac:(table_notin)); auto.
    + rewrite sampleDelete_other in H by exact Hne; apply delete_many_ok in H as [-> ->]; rewrite get_put_same; auto.
  - intros t p d n d' H Hs; destruct (decide (t = matches)) as [-> | Hne].
    + apply deleteMatches_ok in H as (d1 & Hs1 & H & _); exact (keeps_sound_delete_many _ _ _ _ _ H (Hs1 Hs)).
    + rewrite sampleDelete_other in H by exact Hne; exact (keeps_sound_delete_many _ _ _ _ _ H Hs).
  - intros t p d n d' Ht H t' Ht'.
    assert (Hacc : forall t, t ∈ accountTables -> t ∉ matches :: tournaments :: matchTables) by tables_apart.
    specialize (Hacc t' Ht'); rewrite !list.not_elem_of_cons in Hacc; destruct Hacc as (Hm & Htn & Hmt).
    destruct (decide (t = matches)) as [-> | Hne].
    + apply deleteMatches_ok in H as (d1 & _ & H & Ho); apply delete_many_ok in H as [_ ->].
      rewrite get_put_other by exact Hm; apply Ho, Hmt.
    + rewrite sampleDelete_other in H by exact Hne; apply delete_many_ok in H as [_ ->]; apply get_put_other.
      intros ->; rewrite !list.elem_of_cons in Ht; destruct Ht as [Ht | [Ht | Ht]]; [congruence.. | inversion Ht].
  - intros p d n d' H; apply deleteMatches_ok in H as (d1 & _ & H & Ho); apply delete_many_ok in H as [_ ->]; split.
    { rewrite get_put_other by discriminate; apply Ho; table_notin. }
    intros t r m Ht Hr _ _.
    assert (Hpt : forall t, t ∈ publishedTables -> t ∉ matches :: matchTables) by tables_apart.
    specialize (Hpt t Ht); rewrite list.not_elem_of_cons in Hpt; rewrite get_put_other, Ho; tauto.
  - intros p d n d' H t Ht; apply delete_many_ok in H as [_ ->]; apply get_put_other; intros ->; revert Ht; table_notin.
  - intros p d x t r Hx Hp Ht Hr Hm; exists CheckViolation; cbn [sampleDelete]; unfold deleteMatches.
    rewrite (proj2 (existsb_exists _ _)); [reflexivity |]; exists t; rewrite <- list_elem_of_In; split; [exact Ht |].
    apply existsb_exists; exists r; split; [exact Hr |]; unfold ofMatches; rewrite Hm; apply bool_decide_eq_true_2.
    apply list_elem_of_In, in_map, filter_In; auto.
Qed.

Definition lifecycleDB : DB := waitingDB
  <| db_users := [sampleUser 2 ADMIN; sampleUser 4 ADMIN] |>
  <| db_adminEntitlements := [mkEntitlementRow 900 2 ENTITLEMENT_ACTIVE 0 (newYear - 400 * MS_PER_DAY) 2 None;
                              mkEntitlementRow 901 4 ENTITLEMENT_ACTIVE 0 (newYear + MS_PER_DAY) 2 None] |>
  <| db_matches := [] |> <| db_matchAthletes := [] |> <| db_matchAccessCodes := [] |> <| db_matchSessions := [] |>
  <| db_tournaments := [sampleTournament <| tn_imagePath := Some "cup"%string |>;
      sampleTournament <| tn_id := 6%N |> <| tn_publicCode := "T6"%string |> <| tn_ownerUserId := 4%N |>
        <| tn_softDeletedAt := Some 5 |> <| tn_purgeAfter := Some (newYear + 1) |> <| tn_deletionReason := Some ADMIN_SUBSCRIPTION_LAPSED |>;
      sampleTournament <| tn_id := 7%N |> <| tn_publicCode := "T7"%string |> <| tn_softDeletedAt := Some 5 |>
        <| tn_purgeAfter := Some newYear |> <| tn_imagePath := Some "old"%string |>] |>.
Lemma lifecycleDB_sound : sound lifecycleDB.
Proof. solve_sound. Defined.
Definition lifecycleRun : LifecycleRun * DB := Eval vm_compute in
  match run sampleDelete true newYear newYear lifecycleDB with Ok r => r | Err _ => (mkLifecycleRun 0 0 0 0, emptyDB) end.
Lemma lifecycle_runs : run sampleDelete true newYear newYear lifecycleDB = Ok (lifecycleRun.1, lifecycleRun.2).
Proof. vm_compute; reflexivity. Defined.

Lemma run_keeps_access_witness : lifecycleRun.1 = mkLifecycleRun 1 1 1 1 /\
  accessOf 2 lifecycleRun.2 newYear = accessOf 2 lifecycleDB newYear.
Proof.
  split; [reflexivity |].
  apply (proj1 (run_keeps_access sampleDelete _ _ _ _ _ lifecycleDB_sound lifecycle_runs)); lia.
Defined.

Lemma run_enforces_policy_witness : Forall (fun t => lapsed t = (tn_id t === 1%N)) (db_tournaments lifecycleRun.2) /\
  forall u, In u (db_users lifecycleRun.2) -> expiredUser lifecycleRun.2 (us_id u) = true -> us_role u <> ADMIN.
Proof.
  split; [| apply (proj2 (run_enforces_policy sampleDelete _ _ _ _ _ lifecycleDB_sound lifecycle_runs ADMIN ltac:(discriminate)))].
  repeat constructor.
Defined.

Lemma run_idempotent_witness : run sampleDelete true newYear newYear lifecycleRun.2 = Ok (mkLifecycleRun 0 0 0 0, lifecycleRun.2).
Proof. apply (run_idempotent sampleDelete _ _ _ _ _ lifecycleDB_sound lifecycle_runs). Defined.

(** Tournament 1 is due, and the result of its match 10 was once decided by its supervisor. *)
Definition publishedDB : DB := waitingDB
  <| db_users := [sampleUser 2 USER] |>
  <| db_adminEntitlements := [mkEntitlementRow 900 2 ENTITLEMENT_EXPIRED 0 5 2 (Some 5)] |>
  <| db_tournaments := [sampleTournament <| tn_softDeletedAt := Some 5 |> <| tn_purgeAfter := Some 100 |>] |>
  <| db_matchResultDecisions := [mkDecisionRow 60 10 21 RED 61 62 None (Some 40%N) 5 None None] |>.
Lemma publishedDB_sound : sound publishedDB.
Proof. solve_sound. Defined.

Lemma published_purge_stuck_witness : exists e, transaction (run sampleDelete true newYear newYear) publishedDB = (Err e, publishedDB).
Proof.
  destruct (published_purge_stuck sampleDelete newYear newYear publishedDB
    (sampleTournament <| tn_softDeletedAt := Some 5 |> <| tn_purgeAfter := Some 100 |>) 100 publishedDB_sound) as (e & _ & He).
  - left; reflexivity.
  - discriminate.
  - reflexivity.
  - vm_compute; discriminate.
  - reflexivity.
  - exists (sampleMatch 10 WAITING NOT_STARTED None None), matchResultDecisions,
      (mkDecisionRow 60 10 21 RED 61 62 None (Some 40%N) 5 None None); split_and!; try (left; reflexivity); try reflexivity.
    table_in.
  - exists e; exact He.
Defined.
