(* ===== verification/Accounts.v ===== *)
(** * Accounts

    super-admin/super-admin.service.ts with the identity normalization, the password policy and the
    roles guard of auth/: the accounts, their administration by super administrators, and what a
    request may do. The mutations are serialized by an advisory lock, so one runs at a time. The
    bcrypt hash and the index the driver names in a unique violation are parameters. *)
From stdpp Require Import pretty relations.
From S2P Require Import Prelude Schema Database Rules Scenario Calendar Pricing Entitlements MediaDeletion Retention.

(** ** Identities and passwords *)

(** [IdentityNormalizationService] *)
Definition normalizeUsername (value : string) : string := lower (trim value).
Definition normalizeEmail (value : string) : string := lower (trim value).

Definition phoneChar (c : Ascii.ascii) : bool :=
  let n := Ascii.nat_of_ascii c in (((48 <=? n) && (n <=? 57)) || (n =? 43))%nat.
Fixpoint phoneChars (s : string) : string :=
  match s with
  | EmptyString => EmptyString
  | String c s => if phoneChar c then String c (phoneChars s) else phoneChars s
  end.
Definition normalizePhone (value : string) : string :=
  let s := phoneChars value in
  if String.prefix "00" s then String.append "+" (String.substring 2 (String.length s - 2) s) else s.

Definition MIN_PASSWORD_CHARACTERS : Z := 8.
Definition MAX_BCRYPT_PASSWORD_BYTES : Z := 72.
Definition passwordValidationCode (password : string) : option string :=
  if utf16Length password <? MIN_PASSWORD_CHARACTERS then Some "PASSWORD_TOO_SHORT"%string
  else if MAX_BCRYPT_PASSWORD_BYTES <? Z.of_nat (String.length password) then Some "PASSWORD_TOO_LONG"%string
  else None.

(** [i.organization?.trim() || null] *)
Definition trimmedOr (o : option string) : option string :=
  match o with
  | Some s => if trim s === EmptyString then None else Some (trim s)
  | None => None
  end.

(** What a unique violation on the columns [target] is answered with. *)
Definition unique (target : string) (e : error) : error :=
  match e with
  | UniqueViolation =>
      Conflict (if includes "normalized_email" target then "EMAIL_ALREADY_EXISTS"
                else if includes "normalized_phone" target then "PHONE_ALREADY_EXISTS"
                else "USERNAME_ALREADY_EXISTS")
  | e => e
  end.

(** ** The roles guard *)

(** [RolesGuard.canActivate] for a route that requires [required], a GET or not. *)
Definition canActivate (required : list UserRole) (isGet : bool) (userId : uuid) (now : timestamp) : DbM bool :=
  databaseUser ← gets (userOf userId);
  u ← or_throw databaseUser (Forbidden "Forbidden");
  entitlement ← gets (entitlementOf userId);
  if (us_role u === SUPER_ADMIN) && bool_decide (us_role u ∈ required) then mret true
  else
    let state := calculateAdminAccessState (us_role u) entitlement now in
    if bool_decide (ADMIN ∈ required) && isActiveAdminState state then mret true
    else if bool_decide (ADMIN ∈ required) && isGet && (state === EXPIRED_READ_ONLY) then mret true
    else throw (Forbidden match entitlement with Some _ => "ADMIN_SUBSCRIPTION_EXPIRED" | None => "ADMIN_SUBSCRIPTION_REQUIRED" end).

(** ** The administration of users *)

Definition Safe : Type := UserRow * option EntitlementRow.
Definition safeOf (id : uuid) (d : DB) : option Safe :=
  option_map (fun u => (u, entitlementOf id d)) (userOf id d).

(** [snapshot] *)
Definition snapshot (user : Safe) (changedFields : list string) : json :=
  JObj [("userId", JId (us_id user.1)); ("role", JUserRole (us_role user.1)); ("isActive", JBool (us_isActive user.1));
        ("deletedAt", jopt JTime (us_deletedAt user.1));
        ("entitlement", jopt (fun e => JObj [("status", JEntitlement (ae_status e)); ("activeFrom", JTime (ae_activeFrom e));
           ("activeUntil", JTime (ae_activeUntil e)); ("tournamentLimit", JNum (ae_tournamentLimit e))]%string) user.2);
        ("changedFields", JList (map JStr changedFields))]%string.

Definition auditRow (actor : uuid) (action : string) (target : uuid) (before after : json) (reason : option string)
    (id : uuid) : AuditRow :=
  mkAuditRow id None (Some actor) None None ADMIN_ACTION
    (JObj [("action", JStr action); ("targetUserId", JId target); ("reason", jopt JStr (trimmedOr reason));
           ("before", before); ("after", after)]%string).

(** [canRemove] *)
Definition activeSuperAdmin (u : UserRow) : bool :=
  (us_role u === SUPER_ADMIN) && us_isActive u && (us_deletedAt u === None).
Definition canRemove : DbM unit :=
  n ← count users activeSuperAdmin; throw_if (n <=? 1) (Conflict "LAST_SUPER_ADMIN").

(** The request bodies. *)
Record InitialAdminAccess : Type := mkInitialAccess {
  ia_activeFrom : option timestamp; ia_activeUntil : timestamp; ia_tournamentLimit : Z }.
Record CreateUser : Type := mkCreateUser {
  cu_fullName : string; cu_username : string; cu_email : string; cu_phone : string; cu_password : string;
  cu_organization : option string; cu_initialAdminAccess : option InitialAdminAccess }.
Record UpdateUser : Type := mkUpdateUser {
  uu_fullName : option string; uu_username : option string; uu_email : option string; uu_phone : option string;
  uu_organization : option string; uu_isActive : option bool; uu_reason : option string }.
Inductive AccessAction : Type := ACTIVATE | SUSPEND | REVOKE | ADJUST.
#[export] Instance AccessAction_eq_dec : EqDecision AccessAction. Proof. solve_decision. Defined.
Record AdminAccess : Type := mkAdminAccess {
  ax_action : AccessAction; ax_activeFrom : option timestamp; ax_activeUntil : option timestamp;
  ax_tournamentLimit : option Z; ax_reason : option string }.

Section Service.
Context (hash : string -> string) (target : string).


Definition newUser (i : CreateUser) (role : UserRole) (id : uuid) : UserRow :=
  mkUserRow id (trim (cu_username i)) (normalizeUsername (cu_username i)) (Some (trim (cu_fullName i)))
    (Some (trim (cu_email i))) (Some (normalizeEmail (cu_email i)))
    (Some (trim (cu_phone i))) (Some (normalizePhone (cu_phone i)))
    (trimmedOr (cu_organization i)) (hash (cu_password i)) role true None.

(** [phone] *)
Definition phoneOk (v : string) : bool := (6 <=? String.length (normalizePhone v))%nat.

(** [SuperAdminService.create] *)
Definition createUser (i : CreateUser) (a : Actor) (now : timestamp) : DbM Safe :=
  _ ← match passwordValidationCode (cu_password i) with Some code => throw (BadRequest code) | None => mret tt end;
  throw_if (negb (phoneOk (cu_phone i))) (BadRequest "INVALID_PHONE");;
  let activeFrom access := default now (ia_activeFrom access) in
  throw_if match cu_initialAdminAccess i with Some x => ia_activeUntil x <=? activeFrom x | None => false end
    (BadRequest "INVALID_ENTITLEMENT_PERIOD");;
  rethrow (unique target)
    (user ← create users (newUser i match cu_initialAdminAccess i with Some _ => ADMIN | None => USER end);
     created ← match cu_initialAdminAccess i with
       | Some x =>
           e ← create adminEntitlements (fun id => mkEntitlementRow id (us_id user) ENTITLEMENT_ACTIVE (activeFrom x)
                 (ia_activeUntil x) (ia_tournamentLimit x) None);
           mret (user, Some e)
       | None => mret (user, None)
       end;
     _ ← create auditLogs (auditRow (actor_id a) "SUPER_ADMIN_USER_CREATED" (us_id user) JNull (snapshot created []) None);
     mret (created : Safe)).

(** [mutate] *)
Definition mutate {T} (id : uuid) (a : Actor) (action : string) (reason : option string)
    (op : Safe -> DbM (T * json)) : DbM T :=
  rethrow (unique target)
    (before ← gets (safeOf id);
     before ← or_throw before (NotFound "USER_NOT_FOUND");
     mutation ← op before;
     _ ← create auditLogs (auditRow (actor_id a) action id (snapshot before []) mutation.2 reason);
     mret mutation.1).

Definition updateUserRow (id : uuid) (f : UserRow -> UserRow) : DbM UserRow := update users (fun u => us_id u === id) f.
(** The user with [select], after a write. *)
Definition selectUser (u : UserRow) : DbM Safe := e ← gets (entitlementOf (us_id u)); mret (u, e).

Definition setIf {A} (o : option A) (f : A -> UserRow -> UserRow) (u : UserRow) : UserRow :=
  match o with Some x => f x u | None => u end.
Definition profile (i : UpdateUser) (u : UserRow) : UserRow :=
  setIf (uu_isActive i) (fun b u => u <| us_isActive := b |>)
  (setIf (uu_organization i) (fun s u => u <| us_organization := trimmedOr (Some s) |>)
  (setIf (uu_phone i) (fun s u => u <| us_phone := Some (trim s) |> <| us_normalizedPhone := Some (normalizePhone s) |>)
  (setIf (uu_email i) (fun s u => u <| us_email := Some (trim s) |> <| us_normalizedEmail := Some (normalizeEmail s) |>)
  (setIf (uu_fullName i) (fun s u => u <| us_fullName := Some (trim s) |>)
  (setIf (uu_username i) (fun s u => u <| us_username := trim s |> <| us_normalizedUsername := normalizeUsername s |>) u))))).

(** [changedProfileFields] *)
Definition changedProfileFields (i : UpdateUser) : list string :=
  map fst (List.filter (fun f => f.2)
    [("username", set_ (uu_username i)); ("fullName", set_ (uu_fullName i)); ("email", set_ (uu_email i));
     ("phone", set_ (uu_phone i)); ("organization", set_ (uu_organization i)); ("isActive", set_ (uu_isActive i))])%string.

(** [SuperAdminService.update] *)
Definition updateUser (id : uuid) (i : UpdateUser) (a : Actor) : DbM Safe :=
  throw_if match uu_phone i with Some v => negb (phoneOk v) | None => false end (BadRequest "INVALID_PHONE");;
  mutate id a "SUPER_ADMIN_USER_UPDATED" (uu_reason i) (fun before =>
    throw_if ((id === actor_id a) && (uu_isActive i === Some false)) (Forbidden "CANNOT_MODIFY_SELF");;
    when ((us_role before.1 === SUPER_ADMIN) && (uu_isActive i === Some false)) canRemove;;
    u ← updateUserRow id (profile i);
    result ← selectUser u;
    mret (result, snapshot result (changedProfileFields i))).

(** [SuperAdminService.remove] *)
Definition removeUser (id : uuid) (reason : option string) (a : Actor) (now : timestamp) : DbM Safe :=
  mutate id a "SUPER_ADMIN_USER_SOFT_DELETED" reason (fun before =>
    throw_if (id === actor_id a) (Forbidden "CANNOT_MODIFY_SELF");;
    when (us_role before.1 === SUPER_ADMIN) canRemove;;
    _ ← update_many adminEntitlements (fun e => (ae_userId e === id) && (ae_status e === ENTITLEMENT_ACTIVE))
          (fun e => e <| ae_status := ENTITLEMENT_REVOKED |> <| ae_adminAccessEndedAt := Some now |>);
    u ← updateUserRow id (fun u => u <| us_deletedAt := Some now |> <| us_isActive := false |>);
    result ← selectUser u;
    mret (result, snapshot result [])).

(** [SuperAdminService.restore] *)
Definition restoreUser (id : uuid) (reason : option string) (a : Actor) : DbM Safe :=
  mutate id a "SUPER_ADMIN_USER_RESTORED" reason (fun before =>
    throw_if (us_deletedAt before.1 === None) (Conflict "USER_NOT_DELETED");;
    u ← updateUserRow id (fun u => u <| us_deletedAt := None |> <| us_isActive := false |>);
    result ← selectUser u;
    mret (result, snapshot result [])).


(** The status an action gives. *)
Definition accessStatus (action : AccessAction) (current : option EntitlementRow) : option AdminEntitlementStatus :=
  match action with
  | ACTIVATE => Some ENTITLEMENT_ACTIVE
  | SUSPEND => Some ENTITLEMENT_SUSPENDED
  | REVOKE => Some ENTITLEMENT_REVOKED
  | ADJUST => option_map ae_status current
  end.

(** [SuperAdminService.access]; the two [!] of the source are the cases the guards exclude. *)
Definition access (id : uuid) (i : AdminAccess) (a : Actor) (now : timestamp) : DbM (Safe * EntitlementRow) :=
  mutate id a "SUPER_ADMIN_ADMIN_ACCESS_CHANGED" (ax_reason i) (fun user =>
    throw_if (us_deletedAt user.1 !== None) (Conflict "USER_DELETED");;
    throw_if (us_role user.1 === SUPER_ADMIN) (Forbidden "CANNOT_CHANGE_SUPER_ADMIN_ENTITLEMENT");;
    current ← gets (entitlementOf id);
    throw_if (negb (set_ current) && (ax_action i !== ACTIVATE)) (BadRequest "ENTITLEMENT_NOT_FOUND");;
    let from := match ax_activeFrom i with Some t => t | None => default now (option_map ae_activeFrom current) end in
    let until := match ax_activeUntil i with Some t => Some t | None => option_map ae_activeUntil current end in
    throw_if (((ax_action i === ACTIVATE) || (ax_action i === ADJUST)) &&
              match until with
              | None => true
              | Some u => (u <=? from) || (negb (set_ (ax_tournamentLimit i)) && negb (set_ current))
              end) (BadRequest "INVALID_ENTITLEMENT_PERIOD");;
    throw_if ((ax_action i === ACTIVATE) && match until with Some u => u <=? now | None => false end)
      (BadRequest "INVALID_ENTITLEMENT_PERIOD");;
    until ← or_throw until (InternalError "TypeError");
    status ← or_throw (accessStatus (ax_action i) current) (InternalError "TypeError");
    let endedAt := if status === ENTITLEMENT_ACTIVE then None else Some now in
    entitlement ← upsertEntitlement id current
      (fun e => mkEntitlementRow e id status from until (default 0 (ax_tournamentLimit i)) endedAt)
      (fun e => e <| ae_status := status |> <| ae_activeFrom := from |> <| ae_activeUntil := until |>
                  <| ae_tournamentLimit := default (ae_tournamentLimit e) (ax_tournamentLimit i) |>
                  <| ae_adminAccessEndedAt := endedAt |>);
    when (ax_action i === ACTIVATE)
      (_ ← updateUserRow id (fun u => u <| us_role := ADMIN |> <| us_isActive := true |>); mret tt);;
    when ((ax_action i === REVOKE) && (us_role user.1 === ADMIN))
      (_ ← updateUserRow id (fun u => u <| us_role := USER |>); mret tt);;
    updatedUser ← find_one_or_throw users (fun u => us_id u === id);
    updatedUser ← selectUser updatedUser;
    mret (updatedUser, entitlement, snapshot updatedUser [])).
End Service.

(** ** Lemmas *)

Section Mutations.
Context (hash : string -> string) (target : string).

(** A committed mutation: the operation ran on the user as it was, and one audit entry was added. *)
Lemma mutate_ok {T} id a action reason (op : Safe -> DbM (T * json)) d x d' :
  mutate target id a action reason op d = Ok (x, d') ->
  exists u after d1, userOf id d = Some u /\ op (u, entitlementOf id d) d = Ok ((x, after), d1) /\
  db_auditLogs d' = db_auditLogs d1 ++
    [auditRow (actor_id a) action id (snapshot (u, entitlementOf id d) []) after reason (db_nextId d1)] /\
  touches [auditLogs] d1 d' /\ keeps_sound d1 d'.
Proof.
  intros H; apply rethrow_ok in H; apply bind_ok in H as (o & d0 & H0 & H); apply gets_ok in H0 as [-> ->].
  apply bind_ok in H as (before & d0 & H0 & H); apply or_throw_ok in H0 as [H0 ->].
  apply bind_ok in H as ([y after] & d1 & H1 & H); apply bind_ok in H as (al & d2 & H2 & H); apply ret_ok in H as [<- <-].
  unfold safeOf in H0; destruct (userOf id d) as [u |]; [injection H0 as <- | discriminate].
  exists u, after, d1; split; [reflexivity |]; split; [exact H1 |].
  pose proof (touches_create auditLogs [auditLogs] _ ltac:(table_in) _ _ _ H2) as Ht.
  assert (Hk : keeps_sound d1 d2).
  { refine (keeps_sound_create auditLogs _ _ _ _ _ H2); intros n i Hi; cbn in Hi; congruence. }
  apply (create_ok auditLogs) in H2 as (-> & _ & E); split; [rewrite E; reflexivity | auto].
Qed.

Lemma userOf_in id d u : userOf id d = Some u -> In u (db_users d) /\ us_id u = id.
Proof. intros H; apply find_first_some in H as [Hin H]; to_prop; auto. Qed.

Lemma updateUserRow_ok id f d r d' : updateUserRow id f d = Ok (r, d') ->
  exists u, userOf id d = Some u /\ r = f u /\
  db_users d' = map_where (fun u => us_id u === id) f (db_users d) /\ touches [users] d d' /\
  ((forall u, us_id (f u) = us_id u) -> keeps_sound d d').
Proof.
  intros H; pose proof (touches_update users [users] _ _ ltac:(table_in) _ _ _ H) as Ht.
  assert (Hk : (forall u, us_id (f u) = us_id u) -> keeps_sound d d').
  { intros Hf; refine (keeps_sound_update users _ _ _ _ _ _ H); intros u; cbn; rewrite Hf; reflexivity. }
  apply (update_ok users) in H as (u & Hu & -> & _ & ->); exists u; auto.
Qed.

Lemma selectUser_ok u d s d' : selectUser u d = Ok (s, d') -> d' = d /\ s = (u, entitlementOf (us_id u) d).
Proof. intros H; apply bind_ok in H as (e & d1 & H1 & H); apply gets_ok in H1 as [-> ->]; apply ret_ok in H as [<- <-]; auto. Qed.
End Mutations.

(** *** Counting the active super administrators *)

Definition superAdmins (d : DB) : nat := length (List.filter activeSuperAdmin (db_users d)).
Definition keepsAdmins (d d' : DB) : Prop := (superAdmins d <= superAdmins d')%nat.
#[export] Instance keepsAdmins_preorder : PreOrder keepsAdmins.
Proof. split; unfold keepsAdmins; [intros ? | intros ???]; lia. Qed.

Lemma filter_map_where_mono {A} (q p : A -> bool) g l :
  (forall x, In x l -> p x = true -> q x = true -> q (g x) = true) ->
  (length (List.filter q l) <= length (List.filter q (map_where p g l)))%nat.
Proof.
  unfold map_where; induction l as [| x l IH]; intros H; [cbn; lia |]; cbn.
  specialize (IH (fun y Hy => H y (or_intror Hy))); specialize (H x (or_introl eq_refl)).
  destruct (p x); [| destruct (q x); cbn; lia]; destruct (q x); [rewrite H by reflexivity |]; cbn; repeat case_match; cbn; lia.
Qed.

Lemma filter_map_where_one {A} (q p : A -> bool) g l : NoDup l ->
  (forall x y, In x l -> In y l -> p x = true -> p y = true -> x = y) ->
  (length (List.filter q l) <= S (length (List.filter q (map_where p g l))))%nat.
Proof.
  unfold map_where; induction l as [| x l IH]; intros Hn Hp; [cbn; lia |]; cbn; apply list.NoDup_cons in Hn as [Hx Hn].
  destruct (p x) eqn:Ep; [| specialize (IH Hn (fun y z Hy Hz => Hp y z (or_intror Hy) (or_intror Hz))); destruct (q x); cbn; lia].
  replace (map (fun y => if p y then g y else y) l) with l; [destruct (q x), (q (g x)); cbn; lia |].
  rewrite <- (map_id l) at 1; apply map_ext_in; intros y Hy; destruct (p y) eqn:Ey; [| reflexivity].
  destruct Hx; rewrite (Hp x y (or_introl eq_refl) (or_intror Hy) Ep Ey); apply list_elem_of_In, Hy.
Qed.

Lemma admins_same d d' : get users d' = get users d -> keepsAdmins d d'.
Proof. intros E; unfold keepsAdmins, superAdmins; change db_users with (get users); rewrite E; reflexivity. Qed.

Lemma users_unique d x y : wf d -> In x (db_users d) -> In y (db_users d) -> us_id x = us_id y -> x = y.
Proof. intros Hw Hx Hy E; eapply (wf_id users d); eauto; cbn; congruence. Qed.

Lemma users_nodup d : wf d -> NoDup (db_users d).
Proof.
  intros Hw; specialize (Hw users); apply table_ok_true in Hw as (_ & Hpk & _).
  pose proof (unique_by_filter _ us_id (fun _ => true) _ Hpk ltac:(reflexivity)) as Hn.
  rewrite filter_everything in Hn by reflexivity; eapply list.NoDup_fmap_1, Hn.
Qed.

(** A write to one user costs at most one of them, and none when that one was none or stays one. *)
Lemma updateUserRow_admins id f d r d' : wf d -> updateUserRow id f d = Ok (r, d') ->
  (superAdmins d <= S (superAdmins d'))%nat /\
  ((forall u, userOf id d = Some u -> activeSuperAdmin u = true -> activeSuperAdmin (f u) = true) -> keepsAdmins d d').
Proof.
  intros Hw H; apply updateUserRow_ok in H as (u & Hu & _ & E & _); apply userOf_in in Hu as Hin; destruct Hin as [Hin Hid].
  unfold keepsAdmins, superAdmins; rewrite E; split.
  - apply filter_map_where_one; [apply users_nodup, Hw |]; intros x y Hx Hy Ex Ey; to_prop; eapply users_unique; eauto; congruence.
  - intros Hf; apply filter_map_where_mono; intros x Hx Ex; to_prop; apply Hf.
    rewrite Hu; f_equal; eapply users_unique; eauto; congruence.
Qed.

Lemma canRemove_ok d u d' : canRemove d = Ok (u, d') -> d' = d /\ (2 <= superAdmins d)%nat.
Proof.
  intros H; apply bind_ok in H as (n & d1 & H1 & H); apply gets_ok in H1 as [-> ->]; apply throw_if_ok in H as [H ->].
  split; [reflexivity |]; to_prop; change (1 < Z.of_nat (superAdmins d)) in H; lia.
Qed.

Lemma admins_create t mk : respects keepsAdmins (create t mk).
Proof.
  intros d r d' H; apply create_ok in H as (_ & _ & ->); destruct (decide (t = users)) as [-> | Hne].
  - unfold keepsAdmins, superAdmins; change db_users with (get users); rewrite get_put_same, List.filter_app, length_app.
    apply Nat.le_add_r.
  - apply admins_same; rewrite get_put_other, get_nextId by congruence; reflexivity.
Qed.
Lemma admins_update_many t p g : users <> t -> respects keepsAdmins (update_many t p g).
Proof. intros Hne d r d' H; apply admins_same; apply (untouched_update_many users t p g Hne _ _ _ H). Qed.
Lemma admins_update t p g : users <> t -> respects keepsAdmins (update t p g).
Proof. intros Hne d r d' H; apply admins_same; apply (untouched_update users t p g Hne _ _ _ H). Qed.
Lemma admins_users p g : (forall u, p u = true -> activeSuperAdmin u = true -> activeSuperAdmin (g u) = true) ->
  respects keepsAdmins (update_many users p g).
Proof.
  intros Hg d r d' H; apply (update_many_ok users) in H as (_ & _ & ->); unfold keepsAdmins, superAdmins.
  change db_users with (get users); rewrite get_put_same; apply filter_map_where_mono; intros u _; apply Hg.
Qed.
#[local] Hint Resolve admins_create : tx.
#[local] Hint Extern 2 (respects keepsAdmins (update_many _ _ _)) => apply admins_update_many; discriminate : tx.
#[local] Hint Extern 2 (respects keepsAdmins (update _ _ _)) => apply admins_update; discriminate : tx.

(** Whoever is not a super administrator is no active one. *)
Lemma not_admin u : us_role u <> SUPER_ADMIN -> activeSuperAdmin u = false.
Proof. intros H; unfold activeSuperAdmin; rewrite bool_decide_eq_false_2 by exact H; reflexivity. Qed.

Lemma admins_activate actor input now : respects keepsAdmins (activate actor input now).
Proof.
  assert (Htx : forall q, respects keepsAdmins (activateTx actor input q now)).
  { intros q; unfold activateTx, replayOrder, assertSubscriptionAllowed, orderOf, grantEntitlement, upsertEntitlement.
    repeat (cbv beta iota zeta; first [apply admins_users; intros u Hu Ha; to_prop; rewrite not_admin in Ha by assumption; discriminate
                                      | respects_step]). }
  unfold activate, assertSubscriptionAllowed, orderOf, replayOrder, quote; respects_auto; unfold orElseReplay.
  intros d r d' H; destruct (activateTx _ _ _ _ d) as [[o d1] | []] eqn:E; try discriminate.
  - injection H as _ <-; eapply Htx, E.
  - destruct (find_first _ _) as [o |]; [| discriminate]; apply replayOrder_ok in H as (_ & _ & ->); reflexivity.
Qed.

Section Retained.
Context (deleteMany : forall t : table, (row_of t -> bool) -> DbM nat) `{!Cascades deleteMany}.

Lemma admins_run locked now at_ : respects keepsAdmins (run deleteMany locked now at_).
Proof.
  unfold run, expireEntitlements, restoreTournaments, logRun.
  destruct locked; cbn [negb]; [| apply respects_ret, _].
  apply respects_bind; [apply _ | |].
  - repeat (cbv beta iota zeta; first [apply admins_users; intros u Hu Ha; to_prop; rewrite not_admin in Ha by congruence; discriminate
                                      | respects_step]).
  - intros n; repeat (cbv beta iota zeta; respects_step); intros d x d' H; apply admins_same.
    + apply hideOwners_ok in H as (Ht & _); apply Ht; table_notin.
    + destruct (purgeAll_ok deleteMany _ _ _ _ _ _ H) as (_ & Hacc & _); apply Hacc; table_in.
Qed.
End Retained.

(** *** What the mutations do to the users *)

Section Kept.
Context (hash : string -> string) (target : string).

Definition remains (d d' : DB) : Prop := (1 <= superAdmins d -> 1 <= superAdmins d')%nat.

Lemma createUser_kept i a now d s d' : createUser hash target i a now d = Ok (s, d') -> keeps_sound d d' /\ keepsAdmins d d'.
Proof.
  intros H; split; revert d s d' H; unfold createUser;
    refine ((_ : respects _ (createUser hash target i a now)) : forall d s d', _); unfold createUser; respects_auto.
Qed.

Lemma profile_keeps i u : us_id (profile i u) = us_id u /\ us_role (profile i u) = us_role u /\ us_deletedAt (profile i u) = us_deletedAt u /\
  us_isActive (profile i u) = default (us_isActive u) (uu_isActive i).
Proof.
  unfold profile, setIf; destruct (uu_isActive i), (uu_organization i), (uu_phone i), (uu_email i), (uu_fullName i), (uu_username i); auto.
Qed.

(** After the body of a mutation only the audit trail grows. *)
Lemma mutate_kept d d1 d2 : touches [auditLogs] d1 d2 -> keeps_sound d1 d2 ->
  sound d1 -> remains d d1 -> sound d2 /\ remains d d2.
Proof.
  intros Ht Hk Hs Hr; split; [auto |]; pose proof (admins_same d1 d2 (Ht users ltac:(table_notin))); unfold remains, keepsAdmins in *; lia.
Qed.

Lemma updateUser_kept id i a d s d' : updateUser target id i a d = Ok (s, d') -> sound d -> sound d' /\ remains d d'.
Proof.
  intros H Hs; apply bind_ok in H as ([] & d0 & H0 & H); apply throw_if_ok in H0 as [_ ->].
  apply mutate_ok in H as (u & after & d1 & Hu & H & _ & Ht & Hk); apply (mutate_kept _ _ _ Ht Hk); clear Ht Hk;
    apply bind_ok in H as ([] & d2 & H1 & H); apply throw_if_ok in H1 as [_ ->];
    apply bind_ok in H as ([] & d2 & Hw & H); apply bind_ok in H as (r & d3 & H2 & H);
    apply bind_ok in H as (r' & d4 & H3 & H); apply selectUser_ok in H3 as [-> _]; apply ret_ok in H as [_ <-];
    cbn [fst] in Hw.
  - assert (d2 = d) as -> by (unfold when in Hw; destruct (_ && _); [apply canRemove_ok in Hw as [-> _] | apply ret_ok in Hw as [_ <-]]; auto).
    apply updateUserRow_ok in H2 as (_ & _ & _ & _ & _ & Hk); apply Hk, Hs; intros x; apply profile_keeps.
  - unfold when in Hw; destruct (_ && _) eqn:Ec.
    + apply canRemove_ok in Hw as [-> Hn]; apply updateUserRow_admins in H2 as [H2 _]; [| apply Hs]; unfold remains; lia.
    + apply ret_ok in Hw as [_ <-]; apply updateUserRow_admins in H2 as [_ H2]; [| apply Hs].
      intros Hn; etransitivity; [exact Hn |]; apply H2; intros x Hx Ha; rewrite Hu in Hx; injection Hx as <-.
      destruct (profile_keeps i u) as (_ & Er & Ed & Ei); unfold activeSuperAdmin in *; rewrite Er, Ed, Ei.
      apply andb_true_iff in Ha as [Ha Hd]; apply andb_true_iff in Ha as [Hr Ha]; rewrite Hr, Hd in *; cbn [andb] in Ec.
      destruct (uu_isActive i) as [[] |]; cbn; [reflexivity | discriminate Ec | rewrite Ha; reflexivity].
Qed.

Lemma removeUser_kept id reason a now d s d' : removeUser target id reason a now d = Ok (s, d') -> sound d -> sound d' /\ remains d d'.
Proof.
  intros H Hs; apply mutate_ok in H as (u & after & d1 & Hu & H & _ & Ht & Hk).
  apply bind_ok in H as ([] & d2 & H1 & H); apply throw_if_ok in H1 as [_ ->].
  apply bind_ok in H as ([] & d2 & Hw & H); apply bind_ok in H as (n & d3 & H1 & H).
  apply bind_ok in H as (r & d4 & H2 & H); apply bind_ok in H as (r' & d5 & H3 & H).
  apply selectUser_ok in H3 as [-> _]; apply ret_ok in H as [_ <-]; cbn [fst] in Hw.
  assert (Hd : d2 = d /\ (us_role u = SUPER_ADMIN -> (2 <= superAdmins d)%nat)).
  { unfold when in Hw; destruct (us_role u === SUPER_ADMIN) eqn:Er; [apply canRemove_ok in Hw as [-> Hw]; auto |].
    apply ret_ok in Hw as [_ <-]; to_prop; split; [reflexivity | intros; contradiction]. }
  destruct Hd as [-> Hd].
  assert (Hs3 : sound d3) by (refine (keeps_sound_update_many adminEntitlements _ _ _ _ _ _ H1 Hs); reflexivity).
  assert (Eu : db_users d3 = db_users d) by exact (untouched_update_many users adminEntitlements _ _ ltac:(discriminate) _ _ _ H1).
  apply (mutate_kept _ _ _ Ht Hk).
  - apply updateUserRow_ok in H2 as (_ & _ & _ & _ & _ & Hk2); apply Hk2, Hs3; reflexivity.
  - intros Hn; apply updateUserRow_admins in H2 as [Hone Hkeep]; [| apply Hs3]; unfold keepsAdmins, superAdmins in *; rewrite Eu in *.
    destruct (decide (us_role u = SUPER_ADMIN)) as [Er | Er]; [specialize (Hd Er); lia |].
    etransitivity; [exact Hn |]; apply Hkeep; intros x Hx Ha; unfold userOf in Hx; rewrite Eu in Hx; change (userOf id d = Some x) in Hx.
    rewrite Hu in Hx; injection Hx as <-; rewrite not_admin in Ha by exact Er; discriminate.
Qed.

Lemma restoreUser_kept id reason a d s d' : restoreUser target id reason a d = Ok (s, d') -> sound d -> sound d' /\ remains d d'.
Proof.
  intros H Hs; apply mutate_ok in H as (u & after & d1 & Hu & H & _ & Ht & Hk).
  apply bind_ok in H as ([] & d2 & H1 & H); apply throw_if_ok in H1 as [Hd ->].
  apply bind_ok in H as (r & d4 & H2 & H); apply bind_ok in H as (r' & d5 & H3 & H).
  apply selectUser_ok in H3 as [-> _]; apply ret_ok in H as [_ <-]; apply (mutate_kept _ _ _ Ht Hk).
  - apply updateUserRow_ok in H2 as (_ & _ & _ & _ & _ & Hk2); apply Hk2, Hs; reflexivity.
  - intros Hn; apply updateUserRow_admins in H2 as [_ Hkeep]; [| apply Hs].
    etransitivity; [exact Hn |]; apply Hkeep; intros x Hx Ha; rewrite Hu in Hx; injection Hx as <-.
    cbn [fst] in Hd; unfold activeSuperAdmin in Ha; rewrite Hd, andb_false_r in Ha; discriminate.
Qed.

(** What a change of access does to the user's role. *)
Definition accessRole (action : AccessAction) (u : UserRow) : UserRow :=
  match action with
  | ACTIVATE => u <| us_role := ADMIN |> <| us_isActive := true |>
  | REVOKE => if us_role u === ADMIN then u <| us_role := USER |> else u
  | _ => u
  end.

Lemma accessRole_ok id action u d d1 d2 x y : userOf id d = Some u -> wf d ->
  when (action === ACTIVATE) (_ ← updateUserRow id (fun u => u <| us_role := ADMIN |> <| us_isActive := true |>); mret tt) d = Ok (x, d1) ->
  when ((action === REVOKE) && (us_role u === ADMIN)) (_ ← updateUserRow id (fun u => u <| us_role := USER |>); mret tt) d1 = Ok (y, d2) ->
  touches [users] d d2 /\ keeps_sound d d2 /\ db_users d2 = map_where (fun u => us_id u === id) (accessRole action) (db_users d).
Proof.
  intros Hu Hw; assert (Hid : db_users d = map_where (fun u => us_id u === id) (fun u => u) (db_users d))
    by (symmetry; apply map_where_id; reflexivity).
  assert (Huniq : forall v, In v (db_users d) -> us_id v = id -> v = u)
    by (intros v Hv Ev; apply userOf_in in Hu as [Hin Hu']; eapply users_unique; eauto; congruence).
  unfold when; destruct action; decide_consts_goal; cbn [andb]; intros H1 H2; try (apply ret_ok in H1 as [_ <-]); try (apply ret_ok in H2 as [_ <-]).
  - apply bind_ok in H1 as (r & d3 & H1 & H3); apply ret_ok in H3 as [_ <-].
    apply updateUserRow_ok in H1 as (_ & _ & _ & E & Ht & Hk); split; [exact Ht |]; split; [apply Hk; reflexivity | exact E].
  - split; [reflexivity |]; split; [intros ?; assumption | exact Hid].
  - destruct (us_role u === ADMIN) eqn:Er.
    + apply bind_ok in H2 as (r & d3 & H2 & H3); apply ret_ok in H3 as [_ <-].
      apply updateUserRow_ok in H2 as (_ & _ & _ & E & Ht & Hk); split; [exact Ht |]; split; [apply Hk; reflexivity |].
      rewrite E; apply map_where_ext; intros v Hv Ev; to_prop; rewrite (Huniq v Hv Ev); cbn [accessRole].
      rewrite bool_decide_eq_true_2 by assumption; reflexivity.
    + apply ret_ok in H2 as [_ <-]; split; [reflexivity |]; split; [intros ?; assumption |].
      rewrite Hid at 1; apply map_where_ext; intros v Hv Ev; to_prop; rewrite (Huniq v Hv Ev); cbn [accessRole].
      rewrite bool_decide_eq_false_2 by assumption; reflexivity.
  - split; [reflexivity |]; split; [intros ?; assumption | exact Hid].
Qed.

(** The effect of a committed access change on the entitlement and on the users. *)
Lemma access_ok id i a now d res d' : access target id i a now d = Ok (res, d') -> sound d ->
  exists u e, userOf id d = Some u /\ us_deletedAt u = None /\ us_role u <> SUPER_ADMIN /\ res.2 = e /\
  entitlementOf id d' = Some e /\ (forall x, x <> id -> entitlementOf x d' = entitlementOf x d) /\
  accessStatus (ax_action i) (entitlementOf id d) = Some (ae_status e) /\
  ae_activeFrom e = match ax_activeFrom i with Some t => t | None => default now (option_map ae_activeFrom (entitlementOf id d)) end /\
  Some (ae_activeUntil e) = match ax_activeUntil i with Some t => Some t | None => option_map ae_activeUntil (entitlementOf id d) end /\
  ae_adminAccessEndedAt e = (if ae_status e === ENTITLEMENT_ACTIVE then None else Some now) /\
  (ax_action i = ACTIVATE \/ ax_action i = ADJUST -> ae_activeFrom e < ae_activeUntil e) /\
  (ax_action i = ACTIVATE -> now < ae_activeUntil e) /\
  db_users d' = map_where (fun u => us_id u === id) (accessRole (ax_action i)) (db_users d) /\ sound d'.
Proof.
  intros H Hs; apply mutate_ok in H as (u & after & d1 & Hu & H & _ & Ht & Hk).
  apply bind_ok in H as ([] & d2 & H1 & H); apply throw_if_ok in H1 as [Hdel ->].
  apply bind_ok in H as ([] & d2 & H1 & H); apply throw_if_ok in H1 as [Hrole ->].
  apply bind_ok in H as (cur & d2 & H1 & H); apply gets_ok in H1 as [-> ->].
  apply bind_ok in H as ([] & d2 & H1 & H); apply throw_if_ok in H1 as [_ ->]; cbv zeta in H.
  apply bind_ok in H as ([] & d2 & H1 & H); apply throw_if_ok in H1 as [Hperiod ->].
  apply bind_ok in H as ([] & d2 & H1 & H); apply throw_if_ok in H1 as [Hahead ->].
  apply bind_ok in H as (until & d2 & H1 & H); apply or_throw_ok in H1 as [Huntil ->].
  apply bind_ok in H as (status & d2 & H1 & H); apply or_throw_ok in H1 as [Hstatus ->].
  apply bind_ok in H as (e & d2 & H2 & H); pose proof H2 as Hk2; apply upsertEntitlement_ok in H2 as (Ee & He & Hoth & Ht2); [| reflexivity..].
  apply upsertEntitlement_sound in Hk2; [| reflexivity..].
  apply bind_ok in H as ([] & d3 & H3 & H); apply bind_ok in H as ([] & d4 & H4 & H).
  apply bind_ok in H as (uu & d5 & H5 & H); apply (find_one_or_throw_ok users) in H5 as [_ ->].
  apply bind_ok in H as (uu' & d5 & H5 & H); apply selectUser_ok in H5 as [-> _]; apply ret_ok in H as [E <-].
  injection E as <- _; cbn [fst snd] in *; rewrite Huntil in *; to_prop.
  assert (Hu2 : userOf id d2 = Some u) by (unfold userOf; change db_users with (get users); rewrite (Ht2 users ltac:(table_notin)); exact Hu).
  assert (Eus : db_users d2 = db_users d) by exact (Ht2 users ltac:(table_notin)).
  destruct (accessRole_ok _ _ _ _ _ _ _ _ Hu2 (proj1 (Hk2 Hs)) H3 H4) as (Ht4 & Hk4 & Eu4).
  assert (Hent : forall x, entitlementOf x d' = entitlementOf x d2).
  { intros x; apply entitlementOf_ext; etransitivity; [exact (Ht adminEntitlements ltac:(table_notin)) | exact (Ht4 adminEntitlements ltac:(table_notin))]. }
  exists u, e; split; [exact Hu |]; split; [assumption |]; split; [assumption |]; split; [reflexivity |].
  split; [rewrite Hent; exact He |]; split; [intros x Hx; rewrite Hent; apply Hoth, Hx |].
  assert (Ef : ae_status e = status /\ ae_activeFrom e = match ax_activeFrom i with Some t => t | None => default now (option_map ae_activeFrom (entitlementOf id d)) end /\
    ae_activeUntil e = until /\ ae_adminAccessEndedAt e = if status === ENTITLEMENT_ACTIVE then None else Some now)
    by (rewrite Ee; destruct (entitlementOf id d); auto).
  destruct Ef as (-> & Ef & -> & Eend); split; [exact Hstatus |]; split; [exact Ef |]; split; [reflexivity |]; split; [exact Eend |].
  split; [| split; [| split]].
  - intros Ha; rewrite Ef; assert (E : (ax_action i === ACTIVATE) || (ax_action i === ADJUST) = true)
      by (destruct Ha as [-> | ->]; reflexivity); rewrite E in Hperiod; cbn [andb] in Hperiod; to_prop; lia.
  - intros Ha; rewrite Ha in Hahead; cbn [andb] in Hahead; decide_consts Hahead; to_prop; lia.
  - change (get users d' = map_where (fun u => us_id u === id) (accessRole (ax_action i)) (db_users d)).
    rewrite (Ht users ltac:(table_notin)), <- Eus; exact Eu4.
  - apply Hk, Hk4, Hk2, Hs.
Qed.
End Kept.

(** ** Theorems *)

(** A route for administrators is open exactly to users the access policy calls active, and to
    reads of those in their read-only year; everyone else with an account is told whether an
    entitlement has lapsed or was never there. A route for super administrators is open to them
    alone. No request changes anything. *)
Theorem guard_follows_policy userId u isGet now d (Hu : userOf userId d = Some u) :
  (let state := calculateAdminAccessState (us_role u) (entitlementOf userId d) now in
   canActivate [ADMIN] isGet userId now d =
     if (state === ACTIVE_ADMIN) || (isGet && (state === EXPIRED_READ_ONLY)) then Ok (true, d)
     else Err (Forbidden match entitlementOf userId d with
       Some _ => "ADMIN_SUBSCRIPTION_EXPIRED" | None => "ADMIN_SUBSCRIPTION_REQUIRED" end)) /\
  (canActivate [SUPER_ADMIN] isGet userId now d = Ok (true, d) <-> us_role u = SUPER_ADMIN).
Proof.
  unfold canActivate; rewrite !(bind_step _ _ _ (Some u) d) by (rewrite <- Hu; reflexivity).
  rewrite !(bind_step _ _ _ u d), !(bind_step _ _ _ (entitlementOf userId d) d) by reflexivity; split.
  - cbv zeta; set (state := calculateAdminAccessState _ _ _); assert (Hst : us_role u = SUPER_ADMIN -> state = ACTIVE_ADMIN)
      by (intros E; subst state; rewrite E; reflexivity); clearbody state.
    rewrite (bool_decide_eq_true_2 (ADMIN ∈ [ADMIN])) by (apply list_elem_of_singleton; reflexivity).
    replace (bool_decide (us_role u ∈ [ADMIN])) with (us_role u === ADMIN) by (apply bool_decide_ext; rewrite list_elem_of_singleton; reflexivity).
    destruct (us_role u); decide_consts_goal; cbn [andb]; unfold isActiveAdminState;
      destruct (state === ACTIVE_ADMIN); cbn [orb]; try reflexivity; destruct isGet, (state === EXPIRED_READ_ONLY); reflexivity.
  - replace (bool_decide (us_role u ∈ [SUPER_ADMIN])) with (us_role u === SUPER_ADMIN)
      by (apply bool_decide_ext; rewrite list_elem_of_singleton; reflexivity).
    rewrite (bool_decide_eq_false_2 (ADMIN ∈ [SUPER_ADMIN])) by (rewrite list_elem_of_singleton; discriminate); cbn [andb].
    destruct (decide (us_role u = SUPER_ADMIN)) as [E | E];
      [rewrite bool_decide_eq_true_2 by exact E; split; auto | rewrite bool_decide_eq_false_2 by exact E; split; [discriminate | contradiction]].
Qed.

Section Claims.
Context (hash : string -> string) (target : string).
Context (deleteMany : forall t : table, (row_of t -> bool) -> DbM nat) `{!Cascades deleteMany}.

(** One committed operation on accounts. *)
Inductive account_step (d d' : DB) : Prop :=
  | step_create i a now s : createUser hash target i a now d = Ok (s, d') -> account_step d d'
  | step_update id i a s : updateUser target id i a d = Ok (s, d') -> account_step d d'
  | step_remove id reason a now s : removeUser target id reason a now d = Ok (s, d') -> account_step d d'
  | step_restore id reason a s : restoreUser target id reason a d = Ok (s, d') -> account_step d d'
  | step_access id i a now s : access target id i a now d = Ok (s, d') -> account_step d d'
  | step_activate a input now o : activate a input now d = Ok (o, d') -> account_step d d'
  | step_lifecycle locked now at_ r : run deleteMany locked now at_ d = Ok (r, d') -> account_step d d'.

Lemma account_step_kept d d' : account_step d d' -> sound d -> sound d' /\ remains d d'.
Proof.
  intros [i a now s H | id i a s H | id reason a now s H | id reason a s H | id i a now s H | a input now o H | locked now at_ r H] Hs.
  - apply createUser_kept in H as [Hk Ha]; split; [auto |]; unfold remains, keepsAdmins in *; lia.
  - eapply updateUser_kept; eassumption.
  - eapply removeUser_kept; eassumption.
  - eapply restoreUser_kept; eassumption.
  - apply access_ok in H as (u & e & Hu & _ & Hr & _ & _ & _ & _ & _ & _ & _ & _ & _ & Eu & Hs'); [| exact Hs]; split; [exact Hs' |].
    intros Hn; etransitivity; [exact Hn |]; unfold superAdmins; rewrite Eu; apply filter_map_where_mono.
    intros x Hx Ex Ha; to_prop; apply userOf_in in Hu as [Hin Hid].
    rewrite (users_unique d x u (proj1 Hs) Hx Hin) in Ha by congruence; rewrite not_admin in Ha by exact Hr; discriminate.
  - destruct (activate_stored _ _ _ _ _ _ Hs H) as (Hs' & _); split; [exact Hs' |].
    apply admins_activate in H; unfold remains, keepsAdmins in *; lia.
  - split; [| apply (admins_run deleteMany) in H; unfold remains, keepsAdmins in *; lia].
    destruct locked; [destruct (run_settles _ _ _ _ _ _ H Hs) as (_ & Hs' & _); exact Hs' |].
    apply ret_ok in H as [_ <-]; exact Hs.
Qed.

(** C38: No sequence of account operations, subscriptions and lifecycle runs locks everyone out: as
    long as there was an active super administrator there is one. *)
Theorem super_admin_remains d d' (Hs : sound d) (Hd : exists u, In u (db_users d) /\ activeSuperAdmin u = true)
    (H : rtc account_step d d') : exists u, In u (db_users d') /\ activeSuperAdmin u = true.
Proof.
  assert (Hn : (1 <= superAdmins d)%nat).
  { destruct Hd as (u & Hin & Ha); unfold superAdmins; destruct (List.filter _ _) as [| x l] eqn:E; [| cbn; lia].
    assert (Hf : In u (List.filter activeSuperAdmin (db_users d))) by (apply filter_In; auto); rewrite E in Hf; destruct Hf. }
  clear Hd; assert (Hn' : (1 <= superAdmins d')%nat).
  { induction H as [d | d d1 d2 H1 _ IH]; [exact Hn |]; destruct (account_step_kept _ _ H1 Hs) as [Hs1 Hr]; auto. }
  unfold superAdmins in Hn'; destruct (List.filter _ _) as [| u l] eqn:E; [cbn in Hn'; lia |]; exists u.
  apply filter_In; rewrite E; left; reflexivity.
Qed.
End Claims.

Section More.
Context (hash : string -> string) (target : string).

(** What the actions on an entitlement mean for access. Activation makes an undeleted user an
    active ADMIN with full access for the whole period, which has not passed; suspension and
    revocation end access at once and, the latter, the ADMIN role; an adjustment keeps the status.
    No other user's entitlement or account changes, and a super administrator has none. *)
Theorem access_transitions id i a now d res d' (Hs : sound d) (H : access target id i a now d = Ok (res, d')) :
  (exists u, userOf id d = Some u /\ us_deletedAt u = None /\ us_role u <> SUPER_ADMIN) /\
  entitlementOf id d' = Some res.2 /\
  (forall role t, role <> SUPER_ADMIN ->
     let state := calculateAdminAccessState role (Some res.2) t in
     match ax_action i with
     | ACTIVATE => ae_activeFrom res.2 <= t < ae_activeUntil res.2 -> state = ACTIVE_ADMIN
     | SUSPEND => state = ACCESS_SUSPENDED
     | REVOKE => state = ACCESS_REVOKED
     | ADJUST => option_map ae_status (entitlementOf id d) = Some (ae_status res.2)
     end) /\
  (ax_action i = ACTIVATE -> now < ae_activeUntil res.2 /\ ae_activeFrom res.2 < ae_activeUntil res.2) /\
  (forall u, In u (db_users d') -> us_id u = id ->
     (ax_action i = ACTIVATE -> us_role u = ADMIN /\ us_isActive u = true) /\ (ax_action i = REVOKE -> us_role u <> ADMIN)) /\
  (forall x, x <> id -> entitlementOf x d' = entitlementOf x d /\
     List.filter (fun u => us_id u === x) (db_users d') = List.filter (fun u => us_id u === x) (db_users d)).
Proof.
  destruct (access_ok target _ _ _ _ _ _ _ H Hs) as (u & e & Hu & Hd & Hr & <- & He & Ho & Hst & _ & _ & _ & Hp & Ha & Eu & _).
  split; [eauto |]; split; [exact He |]; split; [| split; [auto | split]].
  - intros role t Hrole; cbv zeta; unfold accessStatus in Hst; destruct (ax_action i); [| | | exact Hst].
    + intros Ht; apply state_running; [congruence | exact Ht].
    + unfold calculateAdminAccessState; rewrite bool_decide_eq_false_2 by exact Hrole; injection Hst as <-; reflexivity.
    + unfold calculateAdminAccessState; rewrite bool_decide_eq_false_2 by exact Hrole; injection Hst as <-; reflexivity.
  - intros v Hv Ev; rewrite Eu in Hv; apply in_map_where in Hv as (w & _ & ->).
    destruct (us_id w === id) eqn:Ew; [| to_prop; contradiction]; unfold accessRole in *; split; intros ->; [auto |].
    destruct (us_role w === ADMIN) eqn:Er; [discriminate | to_prop; exact Er].
  - intros x Hx; split; [apply Ho, Hx |]; rewrite Eu; apply filter_map_where; intros v Ev; to_prop.
    assert (Ei : us_id (accessRole (ax_action i) v) = us_id v) by (unfold accessRole; destruct (ax_action i); [..| reflexivity]; repeat case_match; reflexivity).
    rewrite Ei, !bool_decide_eq_false_2 by congruence; auto.
Qed.

(** The audit entry of a mutation. *)
Definition audited (id : uuid) (d d' : DB) : Prop :=
  exists u u' actor action fields reason, userOf id d = Some u /\ userOf id d' = Some u' /\
  db_auditLogs d' = db_auditLogs d ++
    [auditRow actor action id (snapshot (u, entitlementOf id d) []) (snapshot (u', entitlementOf id d') fields) reason
       (al_id (List.last (db_auditLogs d') (auditRow 0 EmptyString 0 JNull JNull None 0)))].

Lemma mutate_audited {T} id a action reason (op : Safe -> DbM (T * json)) d x d' :
  mutate target id a action reason op d = Ok (x, d') ->
  (forall u x after d1, userOf id d = Some u -> op (u, entitlementOf id d) d = Ok ((x, after), d1) ->
     db_auditLogs d1 = db_auditLogs d /\ exists u' fields, userOf id d1 = Some u' /\ after = snapshot (u', entitlementOf id d1) fields) ->
  audited id d d'.
Proof.
  intros H Hop; apply mutate_ok in H as (u & after & d1 & Hu & H & Eal & Ht & _).
  destruct (Hop _ _ _ _ Hu H) as (E1 & u' & fields & Hu' & ->); exists u, u', (actor_id a), action, fields, reason.
  split; [exact Hu |]; split.
  - unfold userOf; change db_users with (get users); rewrite (Ht users ltac:(table_notin)); exact Hu'.
  - rewrite (entitlementOf_ext d1 d') by exact (Ht adminEntitlements ltac:(table_notin)).
    rewrite Eal, E1, List.last_last; reflexivity.
Qed.

Lemma updateUserRow_select id f d r d1 s d2 : updateUserRow id f d = Ok (r, d1) ->
  selectUser r d1 = Ok (s, d2) -> (forall u, us_id (f u) = us_id u) ->
  db_auditLogs d2 = db_auditLogs d /\ userOf id d2 = Some s.1 /\ s.2 = entitlementOf id d2.
Proof.
  intros H Hsel Hf; apply selectUser_ok in Hsel as [-> ->]; apply updateUserRow_ok in H as (u & Hu & -> & E & Ht & _).
  split; [exact (Ht auditLogs ltac:(table_notin)) |]; apply userOf_in in Hu as Hin; destruct Hin as [_ Hid]; cbn [fst snd].
  rewrite Hf, Hid; split; [| reflexivity]; unfold userOf in *; rewrite E.
  rewrite find_first_map_where by (intros x _; rewrite Hf; reflexivity); rewrite Hu; cbn.
  rewrite bool_decide_eq_true_2 by exact Hid; reflexivity.
Qed.

(** Every change of an account leaves exactly one audit entry, which states the authorization of
    the account before and after it as they are stored. *)
Theorem changes_audited id d d'
    (H : (exists i a s, updateUser target id i a d = Ok (s, d')) \/ (exists r a now s, removeUser target id r a now d = Ok (s, d')) \/
         (exists r a s, restoreUser target id r a d = Ok (s, d'))) : audited id d d'.
Proof.
  destruct H as [(i & a & s & H) | [(r & a & now & s & H) | (r & a & s & H)]].
  - apply bind_ok in H as ([] & d0 & H0 & H); apply throw_if_ok in H0 as [_ ->].
    apply (mutate_audited _ _ _ _ _ _ _ _ H); clear H; intros u x after d1 Hu H.
    apply bind_ok in H as ([] & d2 & H1 & H); apply throw_if_ok in H1 as [_ ->].
    apply bind_ok in H as ([] & d2 & Hw & H); apply bind_ok in H as (r & d3 & H2 & H).
    apply bind_ok in H as (sel & d4 & H3 & H); apply ret_ok in H as [E <-]; injection E as <- <-.
    assert (d2 = d) as -> by (unfold when in Hw; destruct (_ && _); [apply canRemove_ok in Hw as [-> _] | apply ret_ok in Hw as [_ <-]]; auto).
    destruct (updateUserRow_select _ _ _ _ _ _ _ H2 H3 (fun u => proj1 (profile_keeps i u))) as (Ea & Hsel & Ee).
    split; [exact Ea |]; exists sel.1, (changedProfileFields i); split; [exact Hsel |]; rewrite <- Ee; destruct sel; reflexivity.
  - apply (mutate_audited _ _ _ _ _ _ _ _ H); clear H; intros u x after d1 Hu H.
    apply bind_ok in H as ([] & d2 & H1 & H); apply throw_if_ok in H1 as [_ ->].
    apply bind_ok in H as ([] & d2 & Hw & H); apply bind_ok in H as (n & d3 & H1 & H).
    apply bind_ok in H as (r' & d4 & H2 & H); apply bind_ok in H as (sel & d5 & H3 & H); apply ret_ok in H as [E <-]; injection E as <- <-.
    assert (d2 = d) as -> by (unfold when in Hw; destruct (_ === _); [apply canRemove_ok in Hw as [-> _] | apply ret_ok in Hw as [_ <-]]; auto).
    destruct (updateUserRow_select _ _ _ _ _ _ _ H2 H3 (fun u => eq_refl)) as (Ea & Hsel & Ee).
    split; [rewrite Ea; exact (untouched_update_many auditLogs adminEntitlements _ _ ltac:(discriminate) _ _ _ H1) |].
    exists sel.1, []; split; [exact Hsel |]; rewrite <- Ee; destruct sel; reflexivity.
  - apply (mutate_audited _ _ _ _ _ _ _ _ H); clear H; intros u x after d1 Hu H.
    apply bind_ok in H as ([] & d2 & H1 & H); apply throw_if_ok in H1 as [_ ->].
    apply bind_ok in H as (r' & d4 & H2 & H); apply bind_ok in H as (sel & d5 & H3 & H); apply ret_ok in H as [E <-]; injection E as <- <-.
    destruct (updateUserRow_select _ _ _ _ _ _ _ H2 H3 (fun u => eq_refl)) as (Ea & Hsel & Ee).
    split; [exact Ea |]; exists sel.1, []; split; [exact Hsel |]; rewrite <- Ee; destruct sel; reflexivity.
Qed.

(** Adjusting an entitlement that has expired restarts its read-only year: whatever was left of
    the year, the user may read for twelve calendar months from the adjustment. *)
Theorem adjust_restarts_grace id i a now d res d' e (Hs : sound d) (H : access target id i a now d = Ok (res, d'))
    (Ha : ax_action i = ADJUST) (He : entitlementOf id d = Some e) (Hx : ae_status e = ENTITLEMENT_EXPIRED) role
    (Hr : role <> SUPER_ADMIN) t :
  calculateAdminAccessState role (entitlementOf id d') t =
  if t <? addUtcMonths now ADMIN_GRACE_MONTHS then EXPIRED_READ_ONLY else HIDDEN.
Proof.
  destruct (access_ok target _ _ _ _ _ _ _ H Hs) as (u & e' & _ & _ & _ & _ & He' & _ & Hst & _ & _ & Hend & _).
  rewrite He', Ha in *; cbn in Hst; rewrite He in Hst; cbn in Hst; rewrite Hx in Hst; injection Hst as Hst.
  unfold calculateAdminAccessState, adminAccessEndedAt; rewrite Hend, <- Hst, bool_decide_eq_false_2 by exact Hr.
  decide_consts_goal; cbn [andb orb default]; reflexivity.
Qed.

(** A super administrator who is already inactive cannot be removed while only one active one is
    left, though the removal would leave that one. *)
Theorem inactive_super_admin_kept id reason a now d u (Hu : userOf id d = Some u) (Hr : us_role u = SUPER_ADMIN)
    (Hi : us_isActive u = false) (Ha : actor_id a <> id) (Hn : superAdmins d = 1%nat) :
  removeUser target id reason a now d = Err (Conflict "LAST_SUPER_ADMIN").
Proof.
  unfold removeUser, mutate, rethrow.
  rewrite (bind_step _ _ _ (Some (u, entitlementOf id d)) d) by (unfold gets, safeOf; rewrite Hu; reflexivity).
  rewrite (bind_step _ _ _ (u, entitlementOf id d) d) by reflexivity; cbn [fst].
  rewrite (bind_err _ _ _ (Conflict "LAST_SUPER_ADMIN")); [reflexivity |].
  rewrite (bool_decide_eq_false_2 (id = actor_id a)) by congruence; rewrite (bind_step _ _ _ tt d) by reflexivity.
  apply bind_err; rewrite bool_decide_eq_true_2 by exact Hr; unfold when, canRemove.
  rewrite (bind_step _ _ _ 1 d); [reflexivity |]; unfold count, gets; f_equal; f_equal.
  change (Z.of_nat (superAdmins d) = 1); rewrite Hn; reflexivity.
Qed.
End More.

(** ** Witnesses: an administrator whose year is over, a user, and two super administrators, one of
    them inactive. *)

Definition accountsDB : DB := waitingDB
  <| db_users := [sampleUser 2 ADMIN; sampleUser 4 USER; sampleUser 8 SUPER_ADMIN; (sampleUser 9 SUPER_ADMIN) <| us_isActive := false |>] |>
  <| db_adminEntitlements := [mkEntitlementRow 900 2 ENTITLEMENT_EXPIRED 0 5 2 (Some 5)] |>.
Lemma accountsDB_sound : sound accountsDB.
Proof. solve_sound. Defined.
Definition root : Actor := mkActor 8 SUPER_ADMIN.
Definition newName : UpdateUser := mkUpdateUser (Some "New Name"%string) None None None None None None.


Lemma guard_follows_policy_witness :
  canActivate [ADMIN] true 2 6 accountsDB = Ok (true, accountsDB) /\
  canActivate [ADMIN] false 2 6 accountsDB = Err (Forbidden "ADMIN_SUBSCRIPTION_EXPIRED").
Proof.
  split; rewrite (proj1 (guard_follows_policy 2 (sampleUser 2 ADMIN) _ 6 accountsDB eq_refl)); vm_compute; reflexivity.
Defined.

(** The inactive super administrator is activated and then removes the other. *)
Definition activatedDB : DB := Eval vm_compute in
  after (updateUser "" 9 (mkUpdateUser None None None None None (Some true) None) root) accountsDB.
Definition removedDB : DB := Eval vm_compute in after (removeUser "" 8 None (mkActor 9 SUPER_ADMIN) 100) activatedDB.

Lemma super_admin_remains_witness : db_users removedDB <> db_users accountsDB /\
  exists u, In u (db_users removedDB) /\ activeSuperAdmin u = true.
Proof.
  split; [vm_compute; discriminate |].
  apply (super_admin_remains (fun p => p) "" sampleDelete accountsDB removedDB accountsDB_sound).
  - exists (sampleUser 8 SUPER_ADMIN); split; [right; right; left; reflexivity | reflexivity].
  - apply (rtc_l _ _ activatedDB); [| apply (rtc_l _ _ removedDB); [| apply rtc_refl]].
    + destruct (updateUser "" 9 (mkUpdateUser None None None None None (Some true) None) root accountsDB) as [[s d'] |] eqn:E;
        [| vm_compute in E; discriminate].
      apply (step_update _ _ _ _ _ 9 (mkUpdateUser None None None None None (Some true) None) root s); rewrite E.
      vm_compute in E; injection E as _ <-; reflexivity.
    + destruct (removeUser "" 8 None (mkActor 9 SUPER_ADMIN) 100 activatedDB) as [[s d'] |] eqn:E; [| vm_compute in E; discriminate].
      apply (step_remove _ _ _ _ _ 8 None (mkActor 9 SUPER_ADMIN) 100 s); rewrite E.
      vm_compute in E; injection E as _ <-; reflexivity.
Defined.

Definition grantAccess : AdminAccess := mkAdminAccess ACTIVATE None (Some (newYear + MS_PER_DAY)) (Some 3) None.
Lemma access_transitions_witness : exists res d', access "" 4 grantAccess root newYear accountsDB = Ok (res, d') /\
  calculateAdminAccessState ADMIN (Some res.2) newYear = ACTIVE_ADMIN.
Proof.
  destruct (access "" 4 grantAccess root newYear accountsDB) as [[res d'] |] eqn:E; [| vm_compute in E; discriminate].
  exists res, d'; split; [reflexivity |].
  destruct (access_transitions "" _ _ _ _ _ _ _ accountsDB_sound E) as (_ & _ & Hst & _).
  apply (Hst ADMIN newYear ltac:(discriminate)); vm_compute in E; injection E as <- _; vm_compute; split; [discriminate | reflexivity].
Defined.

Lemma changes_audited_witness : exists d', audited 4 accountsDB d'.
Proof.
  destruct (updateUser "" 4 newName root accountsDB) as [[s d'] |] eqn:E;
    [| vm_compute in E; discriminate].
  exists d'; apply (changes_audited "" 4 accountsDB d'); left; exists newName, root, s; exact E.
Defined.

Lemma adjust_restarts_grace_witness : calculateAdminAccessState ADMIN (entitlementOf 2 accountsDB) newYear = HIDDEN /\
  exists res d', access "" 2 (mkAdminAccess ADJUST None None (Some 9) None) root newYear accountsDB = Ok (res, d') /\
    calculateAdminAccessState ADMIN (entitlementOf 2 d') newYear = EXPIRED_READ_ONLY.
Proof.
  split; [vm_compute; reflexivity |].
  destruct (access "" 2 (mkAdminAccess ADJUST None None (Some 9) None) root newYear accountsDB) as [[res d'] |] eqn:E; [| vm_compute in E; discriminate].
  exists res, d'; split; [reflexivity |].
  rewrite (adjust_restarts_grace "" _ _ _ _ _ _ _ _ accountsDB_sound E eq_refl eq_refl eq_refl) by discriminate; vm_compute; reflexivity.
Defined.

Lemma inactive_super_admin_kept_witness : removeUser "" 9 None root 100 accountsDB = Err (Conflict "LAST_SUPER_ADMIN") /\
  activeSuperAdmin ((sampleUser 9 SUPER_ADMIN) <| us_isActive := false |>) = false.
Proof.
  split; [| reflexivity].
  apply (inactive_super_admin_kept "" 9 None root 100 accountsDB ((sampleUser 9 SUPER_ADMIN) <| us_isActive := false |>)); try reflexivity; discriminate.
Defined.
