(* ===== verification/Tournaments.v ===== *)
(** * Tournaments

    The tournament operations of admin-management/admin-management.service.ts (access, creation within
    the quota, update, archiving) and super-admin/sport-catalog.service.ts. A tournament row carries
    the code of its sport's group, which the source reads through the sport; [coherent] says it is the
    one the catalogue gives. Description and location are not kept in the model. The generated public
    codes, the Unicode normalization of names and the index the driver names are parameters. *)
From stdpp Require Import pretty relations.
From S2P Require Import Prelude Schema Database Rules Scenario Calendar Pricing Entitlements MediaDeletion Retention Accounts.

(** ** Dates of the form YYYY-MM-DD *)

Definition digitChar (n : Z) : Ascii.ascii := Ascii.ascii_of_nat (Z.to_nat (48 + n)).
Definition digitOf (c : Ascii.ascii) : option Z :=
  let n := Z.of_nat (Ascii.nat_of_ascii c) - 48 in if (0 <=? n) && (n <=? 9) then Some n else None.

Definition pad2 (n : Z) : list Ascii.ascii := [digitChar (n / 10); digitChar (n mod 10)].
Definition dash : Ascii.ascii := Ascii.ascii_of_nat 45.

(** [toISOString().slice(0, 10)] of a year between 0 and 9999 *)
Definition toISODate (t : timestamp) : list Ascii.ascii :=
  pad2 (getUTCFullYear t / 100) ++ pad2 (getUTCFullYear t mod 100) ++ [dash] ++
  pad2 (getUTCMonth t + 1) ++ [dash] ++ pad2 (getUTCDate t).

Definition number2 (a b : Ascii.ascii) : option Z :=
  match digitOf a, digitOf b with Some x, Some y => Some (10 * x + y) | _, _ => None end.

(** [new Date(`${value}T00:00:00.000Z`)]; a month or a day out of range is no date. *)
Definition readISODate (value : list Ascii.ascii) : option timestamp :=
  match value with
  | [y1; y2; y3; y4; s1; m1; m2; s2; d1; d2] =>
      if (s1 === dash) && (s2 === dash) then
        match number2 y1 y2, number2 y3 y4, number2 m1 m2, number2 d1 d2 with
        | Some c, Some y, Some m, Some d =>
            if (1 <=? m) && (m <=? 12) && (1 <=? d) && (d <=? 31)
            then Some (makeDay (100 * c + y) (m - 1) d * MS_PER_DAY) else None
        | _, _, _, _ => None
        end
      else None
  | _ => None
  end.

(** [parseDate] of a given value *)
Definition parseISODate (value : list Ascii.ascii) : option timestamp :=
  match readISODate value with
  | Some t => if toISODate t === value then Some t else None
  | None => None
  end.

Definition parseDate (value : option string) : DbM (option timestamp) :=
  match value with
  | None => mret None
  | Some v => t ← or_throw (parseISODate (String.list_ascii_of_string v)) (BadRequest "INVALID_DATE"); mret (Some t)
  end.

(** [assertDateRange] *)
Definition startsAfterEnd (startDate endDate : option timestamp) : bool :=
  match startDate, endDate with Some s, Some e => e <? s | _, _ => false end.
Definition assertDateRange (startDate endDate : option timestamp) : DbM unit :=
  throw_if (startsAfterEnd startDate endDate) (BadRequest "INVALID_TOURNAMENT_DATE_RANGE").

(** [requiredTrimmedText] *)
Definition requiredTrimmedText (value : string) : DbM string :=
  throw_if (trim value === EmptyString) (BadRequest "INVALID_TEXT");; mret (trim value).

(** ** Access *)

(** What an administrator without access is told. *)
Definition subscriptionConflict (entitlement : option EntitlementRow) : error :=
  Conflict match entitlement with Some _ => "ADMIN_SUBSCRIPTION_EXPIRED" | None => "ADMIN_SUBSCRIPTION_REQUIRED" end.

(** [assertAdminAccess]: whether the user is a super administrator *)
Definition assertAdminAccess (actorId : uuid) (mutation : bool) (now : timestamp) : DbM bool :=
  user ← gets (userOf actorId);
  user ← or_throw user (Forbidden "Forbidden");
  entitlement ← gets (entitlementOf actorId);
  if us_role user === SUPER_ADMIN then mret true
  else
    let state := calculateAdminAccessState (us_role user) entitlement now in
    if negb mutation && (state === EXPIRED_READ_ONLY) then mret false
    else if isActiveAdminState state then mret false
    else throw (subscriptionConflict entitlement).

(** [assertTournamentAccess] *)
Definition visibleTo (isSuperAdmin : bool) (actorId : uuid) (t : TournamentRow) : bool :=
  (isSuperAdmin || (tn_ownerUserId t === actorId)) && (tn_softDeletedAt t === None).
Definition assertTournamentAccess (id actorId : uuid) (mutation : bool) (now : timestamp) : DbM unit :=
  isSuperAdmin ← assertAdminAccess actorId mutation now;
  tournament ← find_one tournaments (fun t => (tn_id t === id) && visibleTo isSuperAdmin actorId t);
  _ ← or_throw tournament (NotFound "TOURNAMENT_NOT_FOUND"); mret tt.

(** [assertMatchAccess] *)
Definition assertMatchAccess (id actorId : uuid) (mutation : bool) (now : timestamp) : DbM unit :=
  isSuperAdmin ← assertAdminAccess actorId mutation now;
  d ← gets (fun d => d);
  match_ ← find_one matches (fun m => (m_id m === id) &&
    existsb (fun t => (tn_id t === m_tournamentId m) && visibleTo isSuperAdmin actorId t) (db_tournaments d));
  _ ← or_throw match_ (NotFound "MATCH_NOT_FOUND"); mret tt.

(** [assertTournamentMutationAccessInTransaction] *)
Definition assertMutationAccessInTransaction (tournamentId actorId : uuid) (now : timestamp) : DbM unit :=
  actor ← gets (userOf actorId);
  actor ← or_throw actor (Forbidden "Forbidden");
  throw_if (negb (us_isActive actor) || (us_deletedAt actor !== None)) (Forbidden "Forbidden");;
  let isSuperAdmin := us_role actor === SUPER_ADMIN in
  entitlement ← gets (entitlementOf actorId);
  throw_if (negb isSuperAdmin && negb (set_ entitlement &&
              isActiveAdminState (calculateAdminAccessState (us_role actor) entitlement now)))
    (subscriptionConflict entitlement);;
  tournament ← find_one tournaments (fun t => (tn_id t === tournamentId) && visibleTo isSuperAdmin actorId t);
  _ ← or_throw tournament (NotFound "TOURNAMENT_NOT_FOUND"); mret tt.

(** ** Tournaments *)

Record CreateTournamentDto : Type := mkCreateTournament {
  ct_sportId : uuid; ct_name : string; ct_startDate : option string; ct_endDate : option string;
  ct_status : option TournamentStatus }.

Definition TOURNAMENT_PUBLIC_CODE_GENERATION_ATTEMPTS : nat := 8.

Definition groupOf (s : SportRow) (d : DB) : option SportGroupRow :=
  find_first (fun g => sg_id g === sp_sportGroupId s) (db_sportGroups d).
Definition groupCode (s : SportRow) (d : DB) : string := match groupOf s d with Some g => sg_code g | None => EmptyString end.

(** The quota check of [createTournament], for anyone but a super administrator. *)
Definition assertQuota (actor : UserRow) (adminUserId : uuid) (now : timestamp) : DbM unit :=
  entitlement ← gets (entitlementOf adminUserId);
  match entitlement with
  | None => throw (subscriptionConflict None)
  | Some e =>
      throw_if (negb (isActiveAdminState (calculateAdminAccessState (us_role actor) (Some e) now))) (subscriptionConflict (Some e));;
      used ← count tournaments (ownedBy adminUserId);
      throw_if (ae_tournamentLimit e <=? used) (Conflict "TOURNAMENT_LIMIT_REACHED")
  end.

(** The transaction of [createTournament] under one public code. *)
Definition createTournamentAs (input : CreateTournamentDto) (name : string) (startDate endDate : option timestamp)
    (adminUserId : uuid) (now : timestamp) (publicCode : string) : DbM TournamentRow :=
  actor ← find_one_or_throw users (fun u => us_id u === adminUserId);
  when (us_role actor !== SUPER_ADMIN) (assertQuota actor adminUserId now);;
  sport ← find_one sports (fun s => sp_id s === ct_sportId input);
  sport ← or_throw sport (NotFound "SPORT_NOT_FOUND");
  throw_if (negb (sp_isActive sport)) (Conflict "SPORT_INACTIVE");;
  code ← gets (groupCode sport);
  tournament ← create tournaments (fun id => mkTournamentRow id code (default TOURNAMENT_DRAFT (ct_status input)) None
    publicCode name adminUserId (sp_id sport) startDate endDate None None None None);
  _ ← create auditLogs (fun id => mkAuditRow id None (Some adminUserId) None None TOURNAMENT_CREATED
    (JObj [("tournamentId", JId (tn_id tournament)); ("sportId", JId (sp_id sport)); ("sport", JId (sp_id sport))]%string));
  mret tournament.

(** [isTournamentPublicCodeCollision]: a unique violation whose target is the index on [public_code]. *)
Definition isPublicCodeCollision (publicCode : string) (d : DB) (e : error) : bool :=
  match e with UniqueViolation => existsb (fun t => tn_publicCode t === publicCode) (db_tournaments d) | _ => false end.

Fixpoint withPublicCode {A} (attempts : nat) (generate : nat -> string) (attempt : nat) (body : string -> DbM A) : DbM A := fun d =>
  match attempts with
  | O => Err (Conflict "TOURNAMENT_PUBLIC_CODE_COLLISION")
  | S attempts =>
      match body (generate attempt) d with
      | Ok r => Ok r
      | Err e => if isPublicCodeCollision (generate attempt) d e then withPublicCode attempts generate (S attempt) body d else Err e
      end
  end.

(** [AdminManagementService.createTournament]; [generate] are the codes the attempts draw. *)
Definition createTournament (generate : nat -> string) (input : CreateTournamentDto) (adminUserId : uuid) (now : timestamp) :
    DbM TournamentRow :=
  name ← requiredTrimmedText (ct_name input);
  startDate ← parseDate (ct_startDate input);
  endDate ← parseDate (ct_endDate input);
  assertDateRange startDate endDate;;
  withPublicCode TOURNAMENT_PUBLIC_CODE_GENERATION_ATTEMPTS generate 1
    (createTournamentAs input name startDate endDate adminUserId now).

(** A date property of an update is absent, null or a date. *)
Record UpdateTournamentDto : Type := mkUpdateTournament {
  ut_sportId : option uuid; ut_name : option string; ut_startDate : option (option string);
  ut_endDate : option (option string); ut_status : option TournamentStatus }.

Definition tournamentFields (input : UpdateTournamentDto) : list string :=
  map fst (List.filter (fun f => f.2)
    [("sportId", set_ (ut_sportId input)); ("name", set_ (ut_name input)); ("startDate", set_ (ut_startDate input));
     ("endDate", set_ (ut_endDate input)); ("status", set_ (ut_status input))])%string.

(** The sport an update moves to, with its group. *)
Definition targetSport (id : uuid) (input : UpdateTournamentDto) (current : TournamentRow) : DbM (option (uuid * string)) :=
  match ut_sportId input with
  | None => mret None
  | Some s =>
      if s === tn_sportId current then mret None else
      target ← find_one sports (fun x => sp_id x === s);
      target ← or_throw target (NotFound "SPORT_NOT_FOUND");
      throw_if (negb (sp_isActive target)) (Conflict "SPORT_INACTIVE");;
      n ← count matches (fun m => m_tournamentId m === id);
      throw_if (0 <? n) (Conflict "TOURNAMENT_SPORT_CHANGE_NOT_ALLOWED");;
      code ← gets (groupCode target);
      mret (Some (sp_id target, code))
  end.

Definition updatedTournament (input : UpdateTournamentDto) (sport : option (uuid * string)) (name : option string)
    (startDate endDate : option timestamp) (t : TournamentRow) : TournamentRow :=
  t <| tn_name := default (tn_name t) name |> <| tn_startDate := startDate |> <| tn_endDate := endDate |>
    <| tn_status := default (tn_status t) (ut_status input) |>
    <| tn_sportId := match sport with Some s => s.1 | None => tn_sportId t end |>
    <| tn_sportGroupCode := match sport with Some s => s.2 | None => tn_sportGroupCode t end |>.

(** [AdminManagementService.updateTournament] *)
Definition updateTournament (id : uuid) (input : UpdateTournamentDto) (adminUserId : uuid) : DbM TournamentRow :=
  throw_if (bool_decide (tournamentFields input = [])) (BadRequest "INVALID_TOURNAMENT");;
  current ← find_one tournaments (fun t => tn_id t === id);
  current ← or_throw current (NotFound "TOURNAMENT_NOT_FOUND");
  sport ← targetSport id input current;
  startDate ← match ut_startDate input with None => mret (tn_startDate current) | Some v => parseDate v end;
  endDate ← match ut_endDate input with None => mret (tn_endDate current) | Some v => parseDate v end;
  assertDateRange startDate endDate;;
  name ← match ut_name input with None => mret None | Some v => n ← requiredTrimmedText v; mret (Some n) end;
  tournament ← update tournaments (fun t => tn_id t === id) (updatedTournament input sport name startDate endDate);
  _ ← create auditLogs (fun a => mkAuditRow a None (Some adminUserId) None None TOURNAMENT_UPDATED
    (JObj ([("fields", JList (map JStr (tournamentFields input))); ("tournamentId", JId id)]%string ++
       match sport with Some s => [("previousSportId", JId (tn_sportId current)); ("sportId", JId s.1)]%string | None => [] end)));
  mret tournament.

(** [AdminManagementService.archiveTournament] *)
Definition archiveTournament (id adminUserId : uuid) : DbM TournamentRow :=
  current ← find_one tournaments (fun t => tn_id t === id);
  current ← or_throw current (NotFound "TOURNAMENT_NOT_FOUND");
  tournament ← update tournaments (fun t => tn_id t === id) (fun t => t <| tn_status := TOURNAMENT_ARCHIVED |>);
  _ ← create auditLogs (fun a => mkAuditRow a None (Some adminUserId) None None TOURNAMENT_UPDATED
    (JObj [("action", JStr "ARCHIVED"); ("previousStatus", JTournamentStatus (tn_status current)); ("tournamentId", JId id)]%string));
  mret tournament.

(** ** The sport catalogue *)

Section Catalogue.
Context (normalized : string -> string) (target : string).

(** [name] and [unique] of the sport catalogue *)
Definition sportName (value : string) : DbM string :=
  throw_if (trim value === EmptyString) (Conflict "SPORT_NAME_INVALID");; mret (trim value).
Definition uniqueSport (e : error) : error :=
  match e with
  | UniqueViolation =>
      Conflict (if includes "normalized_name" target then "SPORT_NAME_ALREADY_EXISTS" else "SPORT_CODE_ALREADY_EXISTS")
  | e => e
  end.

(** [safe] *)
Definition safeSport (s : SportRow) : json :=
  JObj [("id", JId (sp_id s)); ("code", JStr (sp_code s)); ("name", JStr (sp_name s));
        ("sportGroupId", JId (sp_sportGroupId s)); ("isActive", JBool (sp_isActive s))]%string.
Definition auditSport (actorId : uuid) (action : string) (targetSportId : uuid) (before after : json) : DbM unit :=
  _ ← create auditLogs (fun id => mkAuditRow id None (Some actorId) None None ADMIN_ACTION
    (JObj [("action", JStr action); ("targetSportId", JId targetSportId); ("before", before); ("after", after)]%string));
  mret tt.

Record CreateSportDto : Type := mkCreateSport { cs_code : string; cs_name : string; cs_sportGroupId : uuid; cs_isActive : bool }.

(** [SportCatalogService.create] *)
Definition createSport (input : CreateSportDto) (actorId : uuid) : DbM SportRow :=
  name ← sportName (cs_name input);
  rethrow uniqueSport
    (group ← find_one sportGroups (fun g => sg_id g === cs_sportGroupId input);
     group ← or_throw group (NotFound "SPORT_GROUP_NOT_FOUND");
     created ← create sports (fun id => mkSportRow id (trim (cs_code input)) name (normalized name) (sg_id group) (cs_isActive input));
     auditSport actorId "SPORT_CREATED" (sp_id created) JNull (safeSport created);;
     mret created).

Record UpdateSportDto : Type := mkUpdateSport { ud_name : option string; ud_sportGroupId : option uuid; ud_isActive : option bool }.

Definition movesGroup (input : UpdateSportDto) (before : SportRow) : bool :=
  match ud_sportGroupId input with Some g => g !== sp_sportGroupId before | None => false end.

(** [SportCatalogService.update] *)
Definition updateSport (id : uuid) (input : UpdateSportDto) (actorId : uuid) : DbM SportRow :=
  throw_if (negb (set_ (ud_name input) || set_ (ud_sportGroupId input) || set_ (ud_isActive input))) (Conflict "SPORT_UPDATE_EMPTY");;
  rethrow uniqueSport
    (before ← find_one sports (fun s => sp_id s === id);
     before ← or_throw before (NotFound "SPORT_NOT_FOUND");
     n ← count tournaments (fun t => tn_sportId t === id);
     let used := 0 <? n in
     throw_if ((ud_isActive input === Some false) && sp_isActive before && used) (Conflict "SPORT_IN_USE");;
     throw_if (movesGroup input before && used) (Conflict "SPORT_GROUP_CHANGE_NOT_ALLOWED");;
     group ← find_one sportGroups (fun g => Some (sg_id g) === ud_sportGroupId input);
     throw_if (movesGroup input before && negb (set_ group)) (NotFound "SPORT_GROUP_NOT_FOUND");;
     name ← match ud_name input with None => mret None | Some v => n ← sportName v; mret (Some n) end;
     updated ← update sports (fun s => sp_id s === id)
       (fun s => s <| sp_name := default (sp_name s) name |>
                   <| sp_normalizedName := match name with Some n => normalized n | None => sp_normalizedName s end |>
                   <| sp_sportGroupId := default (sp_sportGroupId s) (ud_sportGroupId input) |>
                   <| sp_isActive := default (sp_isActive s) (ud_isActive input) |>);
     auditSport actorId "SPORT_UPDATED" id (safeSport before) (safeSport updated);;
     mret updated).
End Catalogue.

(** ** Lemmas *)

(** *** Dates *)

Lemma digitOf_digitChar n : 0 <= n <= 9 -> digitOf (digitChar n) = Some n.
Proof.
  intros H; assert (Hk : forall k, (k < 10)%nat -> digitOf (digitChar (Z.of_nat k)) = Some (Z.of_nat k)).
  { intros k Hk; do 10 (destruct k as [| k]; [reflexivity |]); lia. }
  rewrite <- (Z2Nat.id n) by lia; apply Hk; lia.
Qed.

Lemma number2_pad2 n : 0 <= n <= 99 -> match pad2 n with [a; b] => number2 a b = Some n | _ => False end.
Proof.
  intros H; cbn -[digitChar]; unfold number2; rewrite !digitOf_digitChar by (Z.div_mod_to_equations; lia).
  f_equal; Z.div_mod_to_equations; lia.
Qed.

Lemma readISODate_toISODate t : timeWithinDay t = 0 -> 0 <= getUTCFullYear t <= 9999 -> readISODate (toISODate t) = Some t.
Proof.
  intros Ht Hy; destruct (date_spec t) as (Hd & Hday & Et & _); pose proof (daysIn_bounds (monthOf t)) as Hb.
  pose proof (getUTCMonth_bounds t) as Hm; unfold toISODate.
  pose proof (number2_pad2 (getUTCFullYear t / 100) ltac:(Z.div_mod_to_equations; lia)) as N1.
  pose proof (number2_pad2 (getUTCFullYear t mod 100) ltac:(Z.div_mod_to_equations; lia)) as N2.
  pose proof (number2_pad2 (getUTCMonth t + 1) ltac:(lia)) as N3; pose proof (number2_pad2 (getUTCDate t) ltac:(lia)) as N4.
  unfold pad2 in *; cbn [app readISODate]; rewrite N1, N2, N3, N4, !bool_decide_eq_true_2 by reflexivity; cbn [andb].
  rewrite !(proj2 (Z.leb_le _ _)) by lia; cbn [andb]; f_equal; rewrite makeDay_month.
  replace (100 * (getUTCFullYear t / 100) + getUTCFullYear t mod 100) with (getUTCFullYear t) by (Z.div_mod_to_equations; lia).
  replace (12 * getUTCFullYear t + (getUTCMonth t + 1 - 1)) with (monthOf t) by (unfold monthOf; lia); lia.
Qed.

Lemma readISODate_midnight v t : readISODate v = Some t -> timeWithinDay t = 0.
Proof.
  unfold readISODate; repeat case_match; try discriminate; intros [= <-]; unfold timeWithinDay, MS_PER_DAY; apply Z.mod_mul; lia.
Qed.

Lemma number2_bounds a b n : number2 a b = Some n -> 0 <= n <= 99.
Proof.
  unfold number2, digitOf; cbv zeta; repeat (case_match; try discriminate); intros [= <-].
  repeat match goal with H : Some _ = Some _ |- _ => injection H as <- end; to_prop; lia.
Qed.

Lemma readISODate_year v t : readISODate v = Some t -> 0 <= getUTCFullYear t <= 9999.
Proof.
  unfold readISODate; repeat (case_match; try discriminate); intros [= <-]; to_prop.
  repeat match goal with H : number2 _ _ = Some _ |- _ => apply number2_bounds in H end.
  match goal with |- context [makeDay (100 * ?c + ?y) (?m - 1) ?dt] => set (k := 12 * (100 * c + y) + (m - 1));
    assert (Hk : 0 <= k <= 12 * 9999 + 11) by lia; set (t := makeDay (100 * c + y) (m - 1) dt * MS_PER_DAY);
    assert (Hd : day t = firstOfMonth k + dt - 1)
      by (unfold day, t; rewrite Z.div_mul by (unfold MS_PER_DAY; lia); rewrite makeDay_month; reflexivity) end.
  rewrite year_of_month; destruct (date_spec t) as (Hb & Hd' & _); pose proof (daysIn_bounds (monthOf t)).
  assert (Hlo : k <= monthOf t).
  { destruct (Z.le_gt_cases k (monthOf t)) as [| Hlt]; [assumption |].
    pose proof (firstOfMonth_mono (monthOf t + 1) k ltac:(lia)); pose proof (firstOfMonth_succ (monthOf t)); lia. }
  assert (Hhi : monthOf t <= 12 * 9999 + 11); [| Z.div_mod_to_equations; lia].
  destruct (Z.le_gt_cases (monthOf t) (12 * 9999 + 11)) as [| Hgt]; [assumption |].
  pose proof (firstOfMonth_mono (12 * 9999 + 11 + 1) (monthOf t) ltac:(lia)) as Hm1.
  pose proof (firstOfMonth_succ (12 * 9999 + 11)) as Hm2; change (daysIn (12 * 9999 + 11)) with 31 in Hm2.
  pose proof (firstOfMonth_mono k (12 * 9999 + 11) ltac:(lia)); lia.
Qed.

(** *** Access *)

Lemma assertAdminAccess_run a mutation now d u : userOf a d = Some u ->
  assertAdminAccess a mutation now d =
  if us_role u === SUPER_ADMIN then Ok (true, d)
  else let state := calculateAdminAccessState (us_role u) (entitlementOf a d) now in
    if (negb mutation && (state === EXPIRED_READ_ONLY)) || isActiveAdminState state then Ok (false, d)
    else Err (subscriptionConflict (entitlementOf a d)).
Proof.
  intros Hu; unfold assertAdminAccess.
  rewrite (bind_step _ _ _ (Some u) d) by (unfold gets; rewrite Hu; reflexivity); rewrite (bind_step _ _ _ u d) by reflexivity.
  rewrite (bind_step _ _ _ (entitlementOf a d) d) by reflexivity.
  destruct (us_role u === SUPER_ADMIN); [reflexivity |]; cbv zeta; destruct (negb mutation && _); [reflexivity |].
  destruct (isActiveAdminState _); reflexivity.
Qed.

Lemma tournament_found super id a d :
  (tournament ← find_one tournaments (fun t => (tn_id t === id) && visibleTo super a t);
   _ ← or_throw tournament (NotFound "TOURNAMENT_NOT_FOUND"); mret tt) d = Ok (tt, d) <->
  exists t, In t (db_tournaments d) /\ tn_id t = id /\ tn_softDeletedAt t = None /\ (super = true \/ tn_ownerUserId t = a).
Proof.
  rewrite (bind_step _ _ _ (find_first (fun t => (tn_id t === id) && visibleTo super a t) (db_tournaments d)) d) by reflexivity.
  match goal with |- context [find_first ?p ?l] => destruct (find_first p l) as [t |] eqn:E end.
  - apply find_first_some in E as [Hin E]; unfold visibleTo in E; to_prop; split; [| reflexivity]; intros _.
    exists t; split_and!; auto; destruct super; [auto | cbn in *; to_prop; auto].
  - split; [discriminate |]; intros (t & Hin & <- & Hs & Ho); exfalso.
    rewrite find_first_none in E; specialize (E t Hin); cbn beta in E; revert E; unfold visibleTo; rewrite Hs.
    rewrite (bool_decide_eq_true_2 (tn_id t = _)), (bool_decide_eq_true_2 (None = None)) by reflexivity.
    destruct super; [discriminate |]; destruct Ho as [| ->]; [discriminate |]; rewrite bool_decide_eq_true_2 by reflexivity; discriminate.
Qed.

Lemma sports_unique d x y : wf d -> In x (db_sports d) -> In y (db_sports d) -> sp_id x = sp_id y -> x = y.
Proof. intros Hw Hx Hy E; eapply (wf_id sports d); eauto; cbn; congruence. Qed.

(** *** What a committed operation leaves *)

Lemma withPublicCode_ok {A} attempts generate (body : string -> DbM A) : forall attempt d r d',
  withPublicCode attempts generate attempt body d = Ok (r, d') -> exists code, body code d = Ok (r, d').
Proof.
  induction attempts as [| n IH]; intros attempt d r d'; cbn [withPublicCode]; [discriminate |].
  destruct (body (generate attempt) d) as [[r1 d1] | e] eqn:E; [intros [= <- <-]; eauto |].
  destruct (isPublicCodeCollision _ _ _); [apply IH | discriminate].
Qed.

Lemma parseDate_read d v t d' : parseDate v d = Ok (t, d') -> d' = d.
Proof.
  destruct v as [v |]; intros H; [| apply ret_ok in H as [_ <-]; reflexivity].
  apply bind_ok in H as (x & d1 & H1 & H); apply or_throw_ok in H1 as [_ ->]; apply ret_ok in H as [_ <-]; reflexivity.
Qed.

Lemma createTournament_ok generate input a now d t d' : createTournament generate input a now d = Ok (t, d') ->
  exists u s, userOf a d = Some u /\ In s (db_sports d) /\ sp_id s = ct_sportId input /\ sp_isActive s = true /\
  (us_role u <> SUPER_ADMIN -> exists e, entitlementOf a d = Some e /\
     calculateAdminAccessState (us_role u) (Some e) now = ACTIVE_ADMIN /\
     Z.of_nat (length (List.filter (ownedBy a) (db_tournaments d))) < ae_tournamentLimit e) /\
  tn_sportId t = sp_id s /\ tn_sportGroupCode t = groupCode s d /\ tn_ownerUserId t = a /\ tn_id t = db_nextId d /\
  startsAfterEnd (tn_startDate t) (tn_endDate t) = false /\
  db_tournaments d' = db_tournaments d ++ [t] /\ touches [tournaments; auditLogs] d d' /\ keeps_sound d d'.
Proof.
  intros H; apply bind_ok in H as (name & d1 & H1 & H); apply bind_ok in H1 as ([] & d2 & H1 & H2).
  apply throw_if_ok in H1 as [_ ->]; apply ret_ok in H2 as [_ <-].
  apply bind_ok in H as (sd & d1 & H1 & H); apply parseDate_read in H1 as ->.
  apply bind_ok in H as (ed & d1 & H1 & H); apply parseDate_read in H1 as ->.
  apply bind_ok in H as ([] & d1 & H1 & H); apply throw_if_ok in H1 as [Hrange ->].
  apply withPublicCode_ok in H as (code & H).
  assert (Htou : respects (touches [tournaments; auditLogs]) (createTournamentAs input name sd ed a now code))
    by (unfold createTournamentAs, assertQuota; respects_auto).
  assert (Hk : respects keeps_sound (createTournamentAs input name sd ed a now code)) by (unfold createTournamentAs, assertQuota; respects_auto).
  specialize (Htou _ _ _ H); specialize (Hk _ _ _ H).
  apply bind_ok in H as (u & d1 & H1 & H); apply (find_one_or_throw_ok users) in H1 as [Hu ->].
  apply bind_ok in H as ([] & d1 & Hq & H).
  assert (Hquota : d1 = d /\ (us_role u <> SUPER_ADMIN -> exists e, entitlementOf a d = Some e /\
     calculateAdminAccessState (us_role u) (Some e) now = ACTIVE_ADMIN /\
     Z.of_nat (length (List.filter (ownedBy a) (db_tournaments d))) < ae_tournamentLimit e)).
  { unfold when in Hq; destruct (us_role u === SUPER_ADMIN) eqn:Er; cbn [negb] in Hq.
    - apply ret_ok in Hq as [_ <-]; to_prop; split; [reflexivity | contradiction].
    - apply bind_ok in Hq as (e & d2 & H2 & Hq); apply gets_ok in H2 as [-> ->]; destruct (entitlementOf a d) as [e |]; [| discriminate].
      apply bind_ok in Hq as ([] & d3 & H3 & Hq); apply throw_if_ok in H3 as [H3 ->].
      apply bind_ok in Hq as (n & d3 & H4 & Hq); apply gets_ok in H4 as [-> ->]; apply throw_if_ok in Hq as [Hq ->].
      split; [reflexivity |]; intros _; exists e; unfold isActiveAdminState in H3; to_prop; auto. }
  destruct Hquota as [-> Hquota]; clear Hq.
  apply bind_ok in H as (so & d1 & H1 & H); apply gets_ok in H1 as [-> ->].
  apply bind_ok in H as (s & d1 & H1 & H); apply or_throw_ok in H1 as [Hs ->].
  apply bind_ok in H as ([] & d1 & H1 & H); apply throw_if_ok in H1 as [Hact ->].
  apply bind_ok in H as (gc & d1 & H1 & H); apply gets_ok in H1 as [-> ->].
  apply bind_ok in H as (t' & d1 & H1 & H); apply (create_ok tournaments) in H1 as (Et & _ & E1).
  apply bind_ok in H as (al & d2 & H2 & H); apply (create_ok auditLogs) in H2 as (_ & _ & E2).
  apply ret_ok in H as [<- <-]; apply find_first_some in Hs as [Hin Hid]; to_prop.
  exists u, s; split; [exact Hu |]; split; [exact Hin |]; rewrite Et; cbn; split_and!; auto.
  rewrite E2, E1, Et; reflexivity.
Qed.

Lemma targetSport_ok id i cur d r d' : targetSport id i cur d = Ok (r, d') -> d' = d /\
  match r with
  | None => True
  | Some (sid, code) => exists s, In s (db_sports d) /\ sp_id s = sid /\ code = groupCode s d /\ sp_isActive s = true /\
      forall m, In m (db_matches d) -> m_tournamentId m <> id
  end.
Proof.
  unfold targetSport; destruct (ut_sportId i) as [s |]; [| intros H; apply ret_ok in H as [<- <-]; auto].
  destruct (s === tn_sportId cur); [intros H; apply ret_ok in H as [<- <-]; auto |]; intros H.
  apply bind_ok in H as (o & d1 & H1 & H); apply gets_ok in H1 as [-> ->].
  apply bind_ok in H as (x & d1 & H1 & H); apply or_throw_ok in H1 as [Hx ->]; apply find_first_some in Hx as [Hin _].
  apply bind_ok in H as ([] & d1 & H1 & H); apply throw_if_ok in H1 as [Ha ->].
  apply bind_ok in H as (n & d1 & H1 & H); apply gets_ok in H1 as [-> ->].
  apply bind_ok in H as ([] & d1 & H1 & H); apply throw_if_ok in H1 as [Hn ->].
  apply bind_ok in H as (c & d1 & H1 & H); apply gets_ok in H1 as [-> ->]; apply ret_ok in H as [<- <-].
  split; [reflexivity |]; exists x; to_prop; split_and!; auto; intros m Hm E.
  assert (Hf : In m (List.filter (fun m => m_tournamentId m === id) (db_matches d)))
    by (apply filter_In; split; [exact Hm | apply bool_decide_eq_true, E]).
  change (get matches d) with (db_matches d) in Hn; destruct (List.filter _ _); [destruct Hf | cbn in Hn; lia].
Qed.

(** A given date is read and an absent one kept. *)
Lemma dateOrCurrent_read d v c t d' : match v with None => mret c | Some v => parseDate v end d = Ok (t, d') -> d' = d.
Proof. destruct v; [apply parseDate_read | intros H; apply ret_ok in H as [_ <-]; reflexivity]. Qed.

Lemma updateTournament_ok id i a d t d' : updateTournament id i a d = Ok (t, d') ->
  exists current sport name sd ed, find_first (fun t => tn_id t === id) (db_tournaments d) = Some current /\
  targetSport id i current d = Ok (sport, d) /\ startsAfterEnd sd ed = false /\
  t = updatedTournament i sport name sd ed current /\
  db_tournaments d' = map_where (fun t => tn_id t === id) (updatedTournament i sport name sd ed) (db_tournaments d) /\
  touches [tournaments; auditLogs] d d' /\ keeps_sound d d'.
Proof.
  intros H; assert (Hk : respects keeps_sound (updateTournament id i a)) by (unfold updateTournament, targetSport, parseDate; respects_auto).
  assert (Ht : respects (touches [tournaments; auditLogs]) (updateTournament id i a)) by (unfold updateTournament, targetSport, parseDate; respects_auto).
  specialize (Hk _ _ _ H); specialize (Ht _ _ _ H).
  apply bind_ok in H as ([] & d1 & H1 & H); apply throw_if_ok in H1 as [_ ->].
  apply bind_ok in H as (o & d1 & H1 & H); apply gets_ok in H1 as [-> ->].
  apply bind_ok in H as (cur & d1 & H1 & H); apply or_throw_ok in H1 as [Hcur ->].
  apply bind_ok in H as (sp & d1 & Hsp & H); pose proof (targetSport_ok _ _ _ _ _ _ Hsp) as [-> _].
  apply bind_ok in H as (sd & d1 & H1 & H); apply dateOrCurrent_read in H1 as ->.
  apply bind_ok in H as (ed & d1 & H1 & H); apply dateOrCurrent_read in H1 as ->.
  apply bind_ok in H as ([] & d1 & H1 & H); apply throw_if_ok in H1 as [Hr ->].
  apply bind_ok in H as (n & d1 & H1 & H).
  assert (d1 = d) as ->.
  { destruct (ut_name i); [| apply ret_ok in H1 as [_ <-]; reflexivity].
    apply bind_ok in H1 as (x & d2 & H1 & H2); apply ret_ok in H2 as [_ <-].
    apply bind_ok in H1 as ([] & d3 & H1 & H2); apply throw_if_ok in H1 as [_ ->]; apply ret_ok in H2 as [_ <-]; reflexivity. }
  apply bind_ok in H as (t' & d1 & H2 & H); apply (update_ok tournaments) in H2 as (c & Hc & -> & _ & E1).
  pose proof (same_answer _ _ _ Hc Hcur) as ->.
  apply bind_ok in H as (al & d2 & H2 & H); apply (create_ok auditLogs) in H2 as (_ & _ & E2); apply ret_ok in H as [<- <-].
  exists cur, sp, n, sd, ed; split_and!; auto; rewrite E2, E1; reflexivity.
Qed.

Lemma archiveTournament_ok id a d t d' : archiveTournament id a d = Ok (t, d') ->
  db_tournaments d' = map_where (fun t => tn_id t === id) (fun t => t <| tn_status := TOURNAMENT_ARCHIVED |>) (db_tournaments d) /\
  touches [tournaments; auditLogs] d d' /\ keeps_sound d d'.
Proof.
  intros H; assert (Hk : respects keeps_sound (archiveTournament id a)) by (unfold archiveTournament; respects_auto).
  assert (Ht : respects (touches [tournaments; auditLogs]) (archiveTournament id a)) by (unfold archiveTournament; respects_auto).
  specialize (Hk _ _ _ H); specialize (Ht _ _ _ H).
  apply bind_ok in H as (o & d1 & H1 & H); apply gets_ok in H1 as [-> ->].
  apply bind_ok in H as (cur & d1 & H1 & H); apply or_throw_ok in H1 as [Hcur ->].
  apply bind_ok in H as (t' & d1 & H2 & H); apply (update_ok tournaments) in H2 as (c & _ & _ & _ & E1).
  apply bind_ok in H as (al & d2 & H2 & H); apply (create_ok auditLogs) in H2 as (_ & _ & E2); apply ret_ok in H as [_ <-].
  split; [rewrite E2, E1; reflexivity | auto].
Qed.

Section Sports.
Context (normalized : string -> string) (target : string).

Lemma createSport_ok i a d s d' : createSport normalized target i a d = Ok (s, d') ->
  db_sports d' = db_sports d ++ [s] /\ touches [sports; auditLogs] d d' /\ keeps_sound d d'.
Proof.
  intros H; assert (Hk : respects keeps_sound (createSport normalized target i a))
    by (unfold createSport, sportName, auditSport; respects_auto).
  assert (Ht : respects (touches [sports; auditLogs]) (createSport normalized target i a))
    by (unfold createSport, sportName, auditSport; respects_auto).
  specialize (Hk _ _ _ H); specialize (Ht _ _ _ H).
  apply bind_ok in H as (n & d1 & H1 & H); apply bind_ok in H1 as ([] & d2 & H1 & H2).
  apply throw_if_ok in H1 as [_ ->]; apply ret_ok in H2 as [_ <-]; apply rethrow_ok in H.
  apply bind_ok in H as (o & d1 & H1 & H); apply gets_ok in H1 as [-> ->].
  apply bind_ok in H as (g & d1 & H1 & H); apply or_throw_ok in H1 as [_ ->].
  apply bind_ok in H as (c & d1 & H1 & H); apply (create_ok sports) in H1 as (Ec & _ & E1).
  apply bind_ok in H as ([] & d2 & H1 & H); apply ret_ok in H as [<- <-].
  apply bind_ok in H1 as (al & d3 & H1 & H2); apply ret_ok in H2 as [_ <-]; apply (create_ok auditLogs) in H1 as (_ & _ & E2).
  split; [rewrite E2, E1; reflexivity | auto].
Qed.

Lemma updateSport_ok id i a d s d' : updateSport normalized target id i a d = Ok (s, d') ->
  exists before name, find_first (fun s => sp_id s === id) (db_sports d) = Some before /\
  (movesGroup i before = true -> forall t, In t (db_tournaments d) -> tn_sportId t <> id) /\
  (sp_isActive before = true -> ud_isActive i = Some false -> forall t, In t (db_tournaments d) -> tn_sportId t <> id) /\
  db_sports d' = map_where (fun s => sp_id s === id)
    (fun s => s <| sp_name := default (sp_name s) name |>
                <| sp_normalizedName := match name with Some n => normalized n | None => sp_normalizedName s end |>
                <| sp_sportGroupId := default (sp_sportGroupId s) (ud_sportGroupId i) |>
                <| sp_isActive := default (sp_isActive s) (ud_isActive i) |>) (db_sports d) /\
  touches [sports; auditLogs] d d' /\ keeps_sound d d'.
Proof.
  intros H; assert (Hk : respects keeps_sound (updateSport normalized target id i a))
    by (unfold updateSport, sportName, auditSport; respects_auto).
  assert (Ht : respects (touches [sports; auditLogs]) (updateSport normalized target id i a))
    by (unfold updateSport, sportName, auditSport; respects_auto).
  specialize (Hk _ _ _ H); specialize (Ht _ _ _ H).
  apply bind_ok in H as ([] & d1 & H1 & H); apply throw_if_ok in H1 as [_ ->]; apply rethrow_ok in H.
  apply bind_ok in H as (o & d1 & H1 & H); apply gets_ok in H1 as [-> ->].
  apply bind_ok in H as (before & d1 & H1 & H); apply or_throw_ok in H1 as [Hb ->].
  apply bind_ok in H as (n & d1 & H1 & H); apply gets_ok in H1 as [-> ->]; cbv zeta in H.
  apply bind_ok in H as ([] & d1 & H1 & H); apply throw_if_ok in H1 as [Hdeact ->].
  apply bind_ok in H as ([] & d1 & H1 & H); apply throw_if_ok in H1 as [Hmove ->].
  apply bind_ok in H as (g & d1 & H1 & H); apply gets_ok in H1 as [-> ->].
  apply bind_ok in H as ([] & d1 & H1 & H); apply throw_if_ok in H1 as [_ ->].
  apply bind_ok in H as (name & d1 & H1 & H).
  assert (d1 = d) as ->.
  { destruct (ud_name i); [| apply ret_ok in H1 as [_ <-]; reflexivity].
    apply bind_ok in H1 as (x & d2 & H1 & H2); apply ret_ok in H2 as [_ <-].
    apply bind_ok in H1 as ([] & d3 & H1 & H2); apply throw_if_ok in H1 as [_ ->]; apply ret_ok in H2 as [_ <-]; reflexivity. }
  apply bind_ok in H as (u & d1 & H2 & H); apply (update_ok sports) in H2 as (c & _ & _ & _ & E1).
  apply bind_ok in H as ([] & d2 & H2 & H); apply ret_ok in H as [_ <-].
  apply bind_ok in H2 as (al & d3 & H2 & H3); apply ret_ok in H3 as [_ <-]; apply (create_ok auditLogs) in H2 as (_ & _ & E2).
  assert (Hunused : (0 <? Z.of_nat (length (List.filter (fun t => tn_sportId t === id) (get tournaments d)))) = false ->
    forall t, In t (db_tournaments d) -> tn_sportId t <> id).
  { intros Hu t Ht' E; assert (Hf : In t (List.filter (fun t => tn_sportId t === id) (db_tournaments d)))
      by (apply filter_In; split; [exact Ht' | apply bool_decide_eq_true, E]).
    change (get tournaments d) with (db_tournaments d) in Hu; destruct (List.filter _ _); [destruct Hf | apply Z.ltb_ge in Hu; cbn in Hu; lia]. }
  exists before, name; split; [exact Hb |]; split.
  - intros Hm; apply Hunused; rewrite Hm in Hmove; exact Hmove.
  - split; [| split; [rewrite E2, E1; reflexivity | auto]].
    intros Ha Hi; apply Hunused; rewrite Ha, Hi in Hdeact; exact Hdeact.
Qed.
End Sports.

(** ** Properties *)

(** A date string is accepted exactly when it is what [toISOString] prints of a midnight of the
    years 0 to 9999, and it reads as that midnight; every other string is refused. *)
Theorem dates_roundtrip v t : parseISODate v = Some t <->
  v = toISODate t /\ timeWithinDay t = 0 /\ 0 <= getUTCFullYear t <= 9999.
Proof.
  split.
  - unfold parseISODate; destruct (readISODate v) as [u |] eqn:E; [| discriminate].
    destruct (toISODate u === v) eqn:Ev; [| discriminate]; intros [= ->]; to_prop.
    split; [auto |]; split; [exact (readISODate_midnight _ _ E) |]; exact (readISODate_year _ _ E).
  - intros (-> & Ht & Hy); unfold parseISODate; rewrite (readISODate_toISODate t Ht Hy), bool_decide_eq_true_2; reflexivity.
Qed.

(** The check a mutation repeats inside its transaction answers as the check before it did, error
    by error, for an actor whose account is active; for any other it is refused. *)
Theorem transaction_recheck id a now d u (Hu : userOf a d = Some u) :
  assertMutationAccessInTransaction id a now d =
  if us_isActive u && (us_deletedAt u === None) then assertTournamentAccess id a true now d else Err (Forbidden "Forbidden").
Proof.
  unfold assertMutationAccessInTransaction, assertTournamentAccess.
  rewrite (bind_step _ _ _ (Some u) d) by (unfold gets; rewrite Hu; reflexivity); rewrite (bind_step _ _ _ u d) by reflexivity.
  destruct (us_isActive u), (us_deletedAt u === None); try reflexivity; cbn [negb andb orb].
  rewrite (bind_step _ _ _ tt d) by reflexivity; rewrite (bind_step _ _ _ (entitlementOf a d) d) by reflexivity.
  pose proof (assertAdminAccess_run a true now d u Hu) as R; cbn [negb andb orb] in R.
  destruct (us_role u === SUPER_ADMIN) eqn:Er; cbn [negb andb].
  - rewrite (bind_step _ _ _ true d R); reflexivity.
  - cbv zeta in R; destruct (entitlementOf a d) as [e |] eqn:Ee; cbn [set_ andb negb].
    + destruct (isActiveAdminState _); [rewrite (bind_step _ _ _ false d R) | rewrite (bind_err _ _ _ _ R)]; reflexivity.
    + unfold calculateAdminAccessState in R; rewrite Er in R; rewrite (bind_err _ _ _ _ R); reflexivity.
Qed.

(** A tournament is opened to a user exactly when the user is a super administrator, or owns it
    and has running access - or only wants to read within the read-only year - and the tournament is
    not deleted; asking never writes. *)
Theorem tournament_access_policy id a mutation now d u (Hu : userOf a d = Some u) :
  assertTournamentAccess id a mutation now d = Ok (tt, d) <->
  exists t, In t (db_tournaments d) /\ tn_id t = id /\ tn_softDeletedAt t = None /\
    (us_role u = SUPER_ADMIN \/ tn_ownerUserId t = a /\
       let state := calculateAdminAccessState (us_role u) (entitlementOf a d) now in
       state = ACTIVE_ADMIN \/ mutation = false /\ state = EXPIRED_READ_ONLY).
Proof.
  unfold assertTournamentAccess; pose proof (assertAdminAccess_run a mutation now d u Hu) as R.
  destruct (us_role u === SUPER_ADMIN) eqn:Er; to_prop.
  - rewrite (bind_step _ _ _ true d R), tournament_found; split; intros (t & H1 & H2 & H3 & _); exists t; auto.
  - cbv zeta in R |- *; set (state := calculateAdminAccessState _ _ _) in *; clearbody state.
    assert (Hother : (negb mutation && (state === EXPIRED_READ_ONLY)) || isActiveAdminState state = true <->
      (state = ACTIVE_ADMIN \/ mutation = false /\ state = EXPIRED_READ_ONLY)).
    { unfold isActiveAdminState; rewrite orb_true_iff, andb_true_iff, negb_true_iff, !bool_decide_eq_true; tauto. }
    destruct (_ || _).
    + rewrite (bind_step _ _ _ false d R), tournament_found; split; intros (t & H1 & H2 & H3 & H4); exists t; split_and!; auto.
      * right; destruct H4 as [| H4]; [discriminate | split; [exact H4 | apply Hother; reflexivity]].
      * destruct H4 as [| [H4 _]]; [contradiction | auto].
    + rewrite (bind_err _ _ _ _ R); split; [discriminate |]; intros (t & _ & _ & _ & [| [_ H4]]); [contradiction |].
      apply Hother in H4; discriminate.
Qed.

(** Creating a tournament as anyone but a super administrator needs running access and stays
    within the quota of the entitlement, counting every tournament of the owner, deleted ones too. *)
Theorem create_within_quota generate i a now d t d' u (H : createTournament generate i a now d = Ok (t, d'))
    (Hu : userOf a d = Some u) (Hr : us_role u <> SUPER_ADMIN) :
  calculateAdminAccessState (us_role u) (entitlementOf a d) now = ACTIVE_ADMIN /\ tn_ownerUserId t = a /\
  exists e, entitlementOf a d' = Some e /\
    Z.of_nat (length (List.filter (ownedBy a) (db_tournaments d'))) <= ae_tournamentLimit e.
Proof.
  apply createTournament_ok in H as (v & s & Hv & _ & _ & _ & Hq & _ & _ & Ho & _ & _ & E & Ht & _).
  pose proof (same_answer _ _ _ Hv Hu) as ->; destruct (Hq Hr) as (e & He & Hst & Hn).
  split; [rewrite He; exact Hst |]; split; [exact Ho |]; exists e; split.
  - rewrite <- He; unfold entitlementOf; change db_adminEntitlements with (get adminEntitlements).
    rewrite (Ht adminEntitlements ltac:(table_notin)); reflexivity.
  - rewrite E, List.filter_app, length_app; cbn [List.filter]; unfold ownedBy at 2; rewrite Ho, bool_decide_eq_true_2 by reflexivity.
    cbn [length]; lia.
Qed.

(** *** The catalogue *)

Section Coherence.
Context (normalized : string -> string) (target : string).

(** A step of an administrator on a tournament or of a super administrator on the catalogue. *)
Inductive catalogue_step (d d' : DB) : Prop :=
  | step_create_tournament generate i a now t : createTournament generate i a now d = Ok (t, d') -> catalogue_step d d'
  | step_update_tournament id i a t : updateTournament id i a d = Ok (t, d') -> catalogue_step d d'
  | step_archive id a t : archiveTournament id a d = Ok (t, d') -> catalogue_step d d'
  | step_create_sport i a s : createSport normalized target i a d = Ok (s, d') -> catalogue_step d d'
  | step_update_sport id i a s : updateSport normalized target id i a d = Ok (s, d') -> catalogue_step d d'.

(** A tournament's sport is active, its group code is the one of the sport, and it does not start
    after it ends. *)
Definition coherentTournament (d : DB) (t : TournamentRow) : Prop :=
  (exists s, In s (db_sports d) /\ sp_id s = tn_sportId t /\ sp_isActive s = true /\ tn_sportGroupCode t = groupCode s d) /\
  startsAfterEnd (tn_startDate t) (tn_endDate t) = false.
Definition coherent (d : DB) : Prop := forall t, In t (db_tournaments d) -> coherentTournament d t.

(** What a tournament keeps from one store to a later one. *)
Definition keepsRules (d d' : DB) : Prop :=
  db_matches d' = db_matches d /\
  forall t, In t (db_tournaments d) -> exists t', In t' (db_tournaments d') /\ tn_id t' = tn_id t /\ tn_ownerUserId t' = tn_ownerUserId t /\
    (forall m, In m (db_matches d) -> m_tournamentId m = tn_id t ->
       tn_sportId t' = tn_sportId t /\ tn_sportGroupCode t' = tn_sportGroupCode t).

#[export] Instance keepsRules_preorder : PreOrder keepsRules.
Proof.
  split; [intros d; split; [reflexivity |]; eauto 10 |]; intros d1 d2 d3 [E1 H1] [E2 H2]; split; [congruence |].
  intros t Ht; destruct (H1 t Ht) as (t1 & Ht1 & Ei1 & Eo1 & Hm1); destruct (H2 t1 Ht1) as (t2 & Ht2 & Ei2 & Eo2 & Hm2).
  exists t2; split_and!; [exact Ht2 | congruence | congruence |]; intros m Hm Et.
  destruct (Hm1 m Hm Et) as [F1 F2]; rewrite <- E1 in Hm; destruct (Hm2 m Hm ltac:(congruence)) as [F3 F4].
  rewrite F3, F4; auto.
Qed.

Lemma keepsRules_same d d' : db_matches d' = db_matches d -> db_tournaments d' = db_tournaments d -> keepsRules d d'.
Proof. intros E1 E2; split; [exact E1 |]; rewrite E2; eauto 10. Qed.

Lemma coherent_ext d d' t : db_sports d' = db_sports d -> db_sportGroups d' = db_sportGroups d ->
  coherentTournament d t -> coherentTournament d' t.
Proof. intros E1 E2; unfold coherentTournament, groupCode, groupOf; rewrite E1, E2; auto. Qed.

Lemma keepsRules_map id g d d' : db_matches d' = db_matches d ->
  db_tournaments d' = map_where (fun t => tn_id t === id) g (db_tournaments d) ->
  (forall t, tn_id (g t) = tn_id t /\ tn_ownerUserId (g t) = tn_ownerUserId t) ->
  (forall t, In t (db_tournaments d) -> (forall m, In m (db_matches d) -> m_tournamentId m <> id) \/
     tn_sportId (g t) = tn_sportId t /\ tn_sportGroupCode (g t) = tn_sportGroupCode t) -> keepsRules d d'.
Proof.
  intros Em Et Hg Hc; split; [exact Em |]; intros t Ht; exists (if tn_id t === id then g t else t).
  split; [rewrite Et; apply in_map_where; eauto |]; destruct (tn_id t === id) eqn:E; [| auto].
  destruct (Hg t) as [-> ->]; split_and!; auto; intros m Hm Hmt; to_prop.
  destruct (Hc t Ht) as [Hn | H]; [destruct (Hn m Hm); congruence | exact H].
Qed.

Lemma catalogue_step_kept d d' : catalogue_step d d' -> sound d -> keepsRules d d' /\ sound d' /\ (coherent d -> coherent d').
Proof.
  intros [generate i a now t H | id i a t H | id a t H | i a s H | id i a s H] Hs.
  - apply createTournament_ok in H as (u & s & _ & Hin & _ & Ha & _ & E1 & E2 & _ & _ & Hr & E & Ht & Hk).
    split; [| split; [auto |]].
    + split; [exact (Ht matches ltac:(table_notin)) |]; intros x Hx; exists x; rewrite E, in_app_iff; split_and!; auto.
    + intros Hc x Hx; rewrite E in Hx; apply (coherent_ext d); [exact (Ht sports ltac:(table_notin)) | exact (Ht sportGroups ltac:(table_notin)) |].
      apply in_app_iff in Hx as [Hx | [<- | []]]; [apply Hc, Hx |]; split; [| exact Hr]; exists s; auto.
  - apply updateTournament_ok in H as (cur & sp & name & sd & ed & Hcur & Hsp & Hr & _ & E & Ht & Hk).
    apply targetSport_ok in Hsp as [_ Hsp]; split; [| split; [auto |]].
    + apply (keepsRules_map id _ _ _ (Ht matches ltac:(table_notin)) E); [auto |]; intros x _.
      destruct sp as [[sid code] |]; [left; destruct Hsp as (s & _ & _ & _ & _ & Hm); exact Hm | right; auto].
    + intros Hc x Hx; apply (coherent_ext d); [exact (Ht sports ltac:(table_notin)) | exact (Ht sportGroups ltac:(table_notin)) |].
      rewrite E in Hx; apply in_map_where in Hx as (y & Hy & ->); destruct (tn_id y === id); [| apply Hc, Hy].
      split; [| exact Hr]; destruct sp as [[sid code] |]; [| exact (proj1 (Hc y Hy))].
      destruct Hsp as (s & Hin & <- & -> & Ha & _); exists s; auto.
  - apply archiveTournament_ok in H as (E & Ht & Hk); split; [| split; [auto |]].
    + apply (keepsRules_map id _ _ _ (Ht matches ltac:(table_notin)) E); auto.
    + intros Hc x Hx; apply (coherent_ext d); [exact (Ht sports ltac:(table_notin)) | exact (Ht sportGroups ltac:(table_notin)) |].
      rewrite E in Hx; apply in_map_where in Hx as (y & Hy & ->); destruct (tn_id y === id); exact (Hc y Hy).
  - apply createSport_ok in H as (E & Ht & Hk); split; [| split; [auto |]].
    + apply keepsRules_same; [exact (Ht matches ltac:(table_notin)) | exact (Ht tournaments ltac:(table_notin))].
    + intros Hc x Hx; change db_tournaments with (get tournaments) in Hx; rewrite (Ht tournaments ltac:(table_notin)) in Hx.
      destruct (Hc x Hx) as [(s1 & H1 & H2 & H3 & H4) Hr]; split; [| exact Hr]; exists s1; rewrite E, in_app_iff; split_and!; auto.
      rewrite H4; unfold groupCode, groupOf; change db_sportGroups with (get sportGroups); rewrite (Ht sportGroups ltac:(table_notin)); reflexivity.
  - apply updateSport_ok in H as (b & name & Hb & Hmove & Hoff & E & Ht & Hk); split; [| split; [auto |]].
    + apply keepsRules_same; [exact (Ht matches ltac:(table_notin)) | exact (Ht tournaments ltac:(table_notin))].
    + intros Hc x Hx; change db_tournaments with (get tournaments) in Hx; rewrite (Ht tournaments ltac:(table_notin)) in Hx.
      destruct (Hc x Hx) as [(s1 & H1 & H2 & H3 & H4) Hr]; split; [| exact Hr].
      destruct (sp_id s1 === id) eqn:Ei; to_prop.
      * assert (s1 = b) as -> by (apply find_first_some in Hb as [Hb1 Hb2]; to_prop;
          apply (sports_unique d); [apply Hs | exact H1 | exact Hb1 | congruence]).
        eexists; split; [rewrite E; apply in_map_where; exists b; split; [exact H1 | reflexivity] |].
        rewrite (bool_decide_eq_true_2 (sp_id b = id)) by assumption; cbn; split; [exact H2 |]; split.
        -- destruct (ud_isActive i) as [[] |] eqn:Ea; cbn; auto; exfalso; exact (Hoff H3 eq_refl x Hx ltac:(congruence)).
        -- rewrite H4; unfold groupCode, groupOf; change db_sportGroups with (get sportGroups); rewrite (Ht sportGroups ltac:(table_notin)); cbn.
           destruct (ud_sportGroupId i) as [g |] eqn:Eg; [| reflexivity]; cbn.
           destruct (g === sp_sportGroupId b) eqn:Em; to_prop; [subst g; reflexivity |].
           exfalso; refine (Hmove _ x Hx _); [unfold movesGroup; rewrite Eg, bool_decide_eq_false_2 by exact Em; reflexivity | congruence].
      * exists s1; split; [rewrite E; apply in_map_where; exists s1; rewrite bool_decide_eq_false_2 by exact Ei; auto |].
        split_and!; auto; rewrite H4; unfold groupCode, groupOf; change db_sportGroups with (get sportGroups); rewrite (Ht sportGroups ltac:(table_notin)); reflexivity.
Qed.

(** Whatever administrators and super administrators do to tournaments and to the catalogue: every
    tournament's sport is active and gives the tournament its rules, no tournament starts after it
    ends, none disappears or changes owner, and one that has a match keeps its sport and its rules. *)
Theorem rules_never_change d d' (Hs : sound d) (Hc : coherent d) (H : rtc catalogue_step d d') :
  coherent d' /\ keepsRules d d'.
Proof.
  assert (Hall : sound d' /\ coherent d' /\ keepsRules d d'); [| tauto].
  induction H as [d | d d1 d2 H1 _ IH]; [split_and!; auto; reflexivity |].
  destruct (catalogue_step_kept _ _ H1 Hs) as (K1 & S1 & C1); destruct (IH S1 (C1 Hc)) as (S2 & C2 & K2).
  split_and!; auto; etransitivity; eauto.
Qed.
End Coherence.

(** ** Witnesses: two sports of two groups, tournament 1 of administrator 2 with its matches, and an
    entitlement for two tournaments. *)

Definition catalogueDB : DB := waitingDB
  <| db_sportGroups := [mkSportGroupRow 901 "ONE_ON_ONE_COMBAT" "Combat"; mkSportGroupRow 902 "PERFORMANCE" "Forms"] |>
  <| db_sports := [mkSportRow 3 "VO" "Vo" "vo" 901 true; mkSportRow 4 "FORMS" "Forms" "forms" 902 true] |>
  <| db_users := [sampleUser 2 ADMIN; sampleUser 8 SUPER_ADMIN] |>
  <| db_adminEntitlements := [mkEntitlementRow 900 2 ENTITLEMENT_ACTIVE 0 (newYear * 2) 2 None] |>.
Lemma catalogueDB_sound : sound catalogueDB.
Proof. solve_sound. Defined.
Lemma catalogueDB_coherent : coherent catalogueDB.
Proof.
  intros t [<- | []]; split; [| reflexivity].
  exists (mkSportRow 3 "VO" "Vo" "vo" 901 true); split_and!; try reflexivity; left; reflexivity.
Defined.

Definition springCup : CreateTournamentDto :=
  mkCreateTournament 4 " Spring cup " (Some "2026-02-27"%string) (Some "2026-03-01"%string) None.
Definition publicCodes (attempt : nat) : string := match attempt with 1%nat => "T1" | _ => "T2" end.
(** The first code is taken and the second is not. *)
Definition createdDB : DB := Eval vm_compute in after (createTournament publicCodes springCup 2 newYear) catalogueDB.
Definition movedDB : DB := Eval vm_compute in
  after (updateTournament 1000 (mkUpdateTournament (Some 3%N) None None None None) 2) createdDB.

Lemma dates_roundtrip_witness : parseISODate (String.list_ascii_of_string "2026-02-29") = None /\
  exists t, parseISODate (String.list_ascii_of_string "2024-02-29") = Some t /\ timeWithinDay t = 0.
Proof.
  split; [vm_compute; reflexivity |].
  destruct (parseISODate (String.list_ascii_of_string "2024-02-29")) as [t |] eqn:E; [| vm_compute in E; discriminate].
  exists t; split; [reflexivity | apply (dates_roundtrip (String.list_ascii_of_string "2024-02-29") t), E].
Defined.

Lemma transaction_recheck_witness :
  assertMutationAccessInTransaction 1 2 newYear catalogueDB = Ok (tt, catalogueDB) /\
  assertMutationAccessInTransaction 1 2 (newYear * 3) catalogueDB = Err (Conflict "ADMIN_SUBSCRIPTION_EXPIRED").
Proof.
  split; rewrite (transaction_recheck 1 2 _ catalogueDB (sampleUser 2 ADMIN) eq_refl); vm_compute; reflexivity.
Defined.

Lemma tournament_access_policy_witness : assertTournamentAccess 1 8 true 0 catalogueDB = Ok (tt, catalogueDB).
Proof.
  apply (tournament_access_policy 1 8 true 0 catalogueDB (sampleUser 8 SUPER_ADMIN) eq_refl).
  exists sampleTournament; split_and!; try reflexivity; left; reflexivity.
Defined.

Lemma create_within_quota_witness : exists t d', createTournament publicCodes springCup 2 newYear catalogueDB = Ok (t, d') /\
  tn_ownerUserId t = 2%N /\ createTournament publicCodes springCup 2 newYear d' = Err (Conflict "TOURNAMENT_LIMIT_REACHED").
Proof.
  destruct (createTournament publicCodes springCup 2 newYear catalogueDB) as [[t d'] |] eqn:E; [| vm_compute in E; discriminate].
  exists t, d'; split; [reflexivity |]; split.
  - apply (create_within_quota publicCodes springCup 2 newYear catalogueDB t d' (sampleUser 2 ADMIN) E); [reflexivity | discriminate].
  - vm_compute in E; injection E as _ <-; vm_compute; reflexivity.
Defined.

Lemma rules_never_change_witness : length (db_tournaments movedDB) = 2%nat /\
  coherent movedDB /\ keepsRules catalogueDB movedDB.
Proof.
  split; [reflexivity |].
  apply (rules_never_change (fun n => n) "" catalogueDB movedDB catalogueDB_sound catalogueDB_coherent).
  apply (rtc_l _ _ createdDB); [| apply (rtc_l _ _ movedDB); [| apply rtc_refl]].
  - destruct (createTournament publicCodes springCup 2 newYear catalogueDB) as [[t d'] |] eqn:E; [| vm_compute in E; discriminate].
    apply (step_create_tournament _ _ _ _ publicCodes springCup 2 newYear t); rewrite E; vm_compute in E; injection E as _ <-; reflexivity.
  - destruct (updateTournament 1000 (mkUpdateTournament (Some 3%N) None None None None) 2 createdDB) as [[t d'] |] eqn:E;
      [| vm_compute in E; discriminate].
    apply (step_update_tournament _ _ _ _ 1000 (mkUpdateTournament (Some 3%N) None None None None) 2 t); rewrite E.
    vm_compute in E; injection E as _ <-; reflexivity.
Defined.
