(* ===== verification/Roster.v ===== *)
(** * Roster

    tournament-roster/tournament-roster.service.ts and athlete.service.ts: the participating
    organizations, the weight classes and the athletes of a tournament. The Unicode normalization
    (NFKC and lower case) of names, the database's order of names and its case-insensitive search are
    parameters; the times a transaction reads are one [now]. *)
From stdpp Require Import pretty relations.
From S2P Require Import Prelude Schema Database Rules Scenario BracketGenerator BracketTokens BracketDraws BracketStorage BracketMatches Calendar Pricing Entitlements MediaDeletion Retention Accounts.

(** ** Common parts *)

(** [lockTournament] and [lock] *)
Definition lockTournament (id : uuid) : DbM unit :=
  tournament ← find_one tournaments (fun t => tn_id t === id);
  throw_if (match tournament with Some t => set_ (tn_softDeletedAt t) | None => true end) (NotFound "TOURNAMENT_NOT_FOUND");;
  throw_if (match tournament with Some t => tn_status t === TOURNAMENT_ARCHIVED | None => false end) (Conflict "TOURNAMENT_ARCHIVED").

(** [name] *)
Definition rosterName (value : string) : DbM string :=
  throw_if (trim value === EmptyString) (BadRequest "INVALID_TEXT");; mret (trim value).
(** [x === undefined ? undefined : this.name(x)] *)
Definition optionalName (value : option string) : DbM (option string) :=
  match value with None => mret None | Some v => n ← rosterName v; mret (Some n) end.

(** [audit] *)
Definition rosterAudit (actorId : uuid) (action : string) (targetId : uuid) (before after : json) : DbM unit :=
  _ ← create auditLogs (fun id => mkAuditRow id None (Some actorId) None None ADMIN_ACTION
    (JObj [("action", JStr action); ("targetId", JId targetId); ("before", before); ("after", after)]%string));
  mret tt.

(** The rows an audit entry keeps, as the views select them. *)
Definition organizationView (o : OrganizationRow) : json :=
  JObj [("id", JId (og_id o)); ("tournamentId", JId (og_tournamentId o)); ("name", JStr (og_name o));
        ("location", jopt JStr (og_location o)); ("details", jopt JStr (og_details o)); ("imagePath", jopt JStr (og_imagePath o));
        ("isActive", JBool (og_isActive o)); ("deactivatedAt", jopt JTime (og_deactivatedAt o))]%string.
Definition weightClassView (w : WeightClassRow) : json :=
  JObj [("id", JId (wc_id w)); ("tournamentId", JId (wc_tournamentId w)); ("name", JStr (wc_name w));
        ("details", jopt JStr (wc_details w)); ("intermissionDurationSeconds", JNum (wc_intermissionDurationSeconds w));
        ("isActive", JBool (wc_isActive w)); ("deactivatedAt", jopt JTime (wc_deactivatedAt w))]%string.
Definition athleteView (a : AthleteRow) : json :=
  JObj [("id", JId (at_id a)); ("tournamentId", JId (at_tournamentId a)); ("organizationId", jopt JId (at_organizationId a));
        ("weightClassId", JId (at_weightClassId a)); ("name", JStr (at_name a)); ("birthYear", JNum (at_birthYear a));
        ("details", jopt JStr (at_details a)); ("imagePath", jopt JStr (at_imagePath a)); ("isSeed", JBool (at_isSeed a));
        ("isActive", JBool (at_isActive a)); ("deactivatedAt", jopt JTime (at_deactivatedAt a))]%string.

(** What the change of [isActive] is called. *)
Definition changeName (kind : string) (isActive : option bool) (before : bool) : string :=
  (kind ++ (if (isActive === Some true) && negb before then "_RESTORED"
            else if (isActive === Some false) && before then "_DEACTIVATED" else "_UPDATED"))%string.

Definition organizationOfTournament (tournamentId id : uuid) (o : OrganizationRow) : bool :=
  (og_id o === id) && (og_tournamentId o === tournamentId).
Definition weightClassOfTournament (tournamentId id : uuid) (w : WeightClassRow) : bool :=
  (wc_id w === id) && (wc_tournamentId w === tournamentId).
Definition athleteOfTournament (tournamentId id : uuid) (a : AthleteRow) : bool :=
  (at_id a === id) && (at_tournamentId a === tournamentId).

Section Roster.
Context (normalized : string -> string).

(** ** Organizations *)

Record CreateRosterItemDto : Type := mkCreateItem { ci_name : string; ci_location : option string; ci_details : option string }.
(** A text property of an update is absent, null or a text. *)
Record UpdateRosterItemDto : Type := mkUpdateItem {
  ui_name : option string; ui_location : option (option string); ui_details : option (option string); ui_isActive : option bool }.
Definition emptyItem (i : UpdateRosterItemDto) : bool :=
  negb (set_ (ui_name i) || set_ (ui_location i) || set_ (ui_details i) || set_ (ui_isActive i)).

Definition uniqueOrganization (e : error) : error :=
  match e with UniqueViolation => Conflict "ORGANIZATION_NAME_ALREADY_EXISTS" | e => e end.

(** [create] of an organization *)
Definition createOrganization (tournamentId : uuid) (input : CreateRosterItemDto) (actorId : uuid) (now : timestamp) :
    DbM OrganizationRow :=
  name ← rosterName (ci_name input);
  rethrow uniqueOrganization
    (lockTournament tournamentId;;
     let location := trimmedOr (ci_location input) in
     row ← create tournamentOrganizations (fun id => mkOrganizationRow id tournamentId name true now (normalized name)
       (normalized (default EmptyString location)) location (trimmedOr (ci_details input)) None None);
     rosterAudit actorId "ORGANIZATION_CREATED" (og_id row) JNull (organizationView row);;
     mret row).

(** [tx.tournamentAthlete.updateMany] of a deactivated organization *)
Definition releaseAthletes (tournamentId id : uuid) (now : timestamp) : DbM nat :=
  update_many tournamentAthletes (fun a => (at_tournamentId a === tournamentId) && (at_organizationId a === Some id))
    (fun a => a <| at_organizationId := None |> <| at_updatedAt := now |>).

Definition updatedOrganization (input : UpdateRosterItemDto) (name : option string) (now : timestamp) (o : OrganizationRow) :
    OrganizationRow :=
  o <| og_name := default (og_name o) name |>
    <| og_normalizedName := match name with Some n => normalized n | None => og_normalizedName o end |>
    <| og_details := match ui_details input with Some v => trimmedOr v | None => og_details o end |>
    <| og_location := match ui_location input with Some v => trimmedOr v | None => og_location o end |>
    <| og_normalizedLocation :=
         match ui_location input with Some v => normalized (default EmptyString (trimmedOr v)) | None => og_normalizedLocation o end |>
    <| og_isActive := default (og_isActive o) (ui_isActive input) |>
    <| og_deactivatedAt := match ui_isActive input with
         | Some active => if active then None else Some now | None => og_deactivatedAt o end |>
    <| og_updatedAt := now |>.

(** [update] of an organization *)
Definition updateOrganization (tournamentId id : uuid) (input : UpdateRosterItemDto) (actorId : uuid) (now : timestamp) :
    DbM OrganizationRow :=
  throw_if (emptyItem input) (BadRequest "ORGANIZATION_UPDATE_EMPTY");;
  name ← optionalName (ui_name input);
  rethrow uniqueOrganization
    (lockTournament tournamentId;;
     before ← find_one tournamentOrganizations (organizationOfTournament tournamentId id);
     before ← or_throw before (NotFound "ORGANIZATION_NOT_FOUND");
     when ((ui_isActive input === Some false) && og_isActive before) (_ ← releaseAthletes tournamentId id now; mret tt);;
     after ← update tournamentOrganizations (fun o => og_id o === id) (updatedOrganization input name now);
     rosterAudit actorId (changeName "ORGANIZATION" (ui_isActive input) (og_isActive before)) id
       (organizationView before) (organizationView after);;
     mret after).

(** [deactivateOrganization] *)
Definition deactivateOrganization (tournamentId id actorId : uuid) (now : timestamp) : DbM OrganizationRow :=
  lockTournament tournamentId;;
  before ← find_one tournamentOrganizations (organizationOfTournament tournamentId id);
  before ← or_throw before (NotFound "ORGANIZATION_NOT_FOUND");
  if negb (og_isActive before) then mret before else
  _ ← releaseAthletes tournamentId id now;
  after ← update tournamentOrganizations (fun o => og_id o === id)
    (fun o => o <| og_isActive := false |> <| og_deactivatedAt := Some now |> <| og_updatedAt := now |>);
  rosterAudit actorId "ORGANIZATION_DEACTIVATED" id (organizationView before) (organizationView after);;
  mret after.

(** ** Weight classes *)

Record UpdateWeightClassDto : Type := mkUpdateWeightClass { uw_item : UpdateRosterItemDto; uw_intermissionDurationSeconds : option Z }.

Definition uniqueWeightClass (e : error) : error :=
  match e with UniqueViolation => Conflict "WEIGHT_CLASS_NAME_ALREADY_EXISTS" | e => e end.

(** [create] of a weight class, whose intermission is the default of the database *)
Definition createWeightClass (tournamentId : uuid) (input : CreateRosterItemDto) (actorId : uuid) :
    DbM WeightClassRow :=
  name ← rosterName (ci_name input);
  rethrow uniqueWeightClass
    (lockTournament tournamentId;;
     row ← create tournamentWeightClasses (fun id => mkWeightClassRow id tournamentId name 0 true
       (normalized name) (trimmedOr (ci_details input)) None);
     rosterAudit actorId "WEIGHT_CLASS_CREATED" (wc_id row) JNull (weightClassView row);;
     mret row).

(** The class is referenced by an active athlete, a match or a current bracket. *)
Definition assertWeightClassUnused (tournamentId id : uuid) : DbM unit :=
  athletes ← count tournamentAthletes (fun a => (at_tournamentId a === tournamentId) && (at_weightClassId a === id) && at_isActive a);
  matches_ ← count matches (fun m => (m_tournamentId m === tournamentId) && (m_weightClassId m === Some id));
  brackets ← count tournamentBrackets (currentBracket tournamentId id);
  throw_if ((athletes !== 0) || (matches_ !== 0) || (brackets !== 0)) (Conflict "WEIGHT_CLASS_IN_USE").

Definition updatedWeightClass (input : UpdateWeightClassDto) (name : option string) (now : timestamp) (w : WeightClassRow) :
    WeightClassRow :=
  w <| wc_name := default (wc_name w) name |>
    <| wc_normalizedName := match name with Some n => normalized n | None => wc_normalizedName w end |>
    <| wc_details := match ui_details (uw_item input) with Some v => trimmedOr v | None => wc_details w end |>
    <| wc_intermissionDurationSeconds := default (wc_intermissionDurationSeconds w) (uw_intermissionDurationSeconds input) |>
    <| wc_isActive := default (wc_isActive w) (ui_isActive (uw_item input)) |>
    <| wc_deactivatedAt := match ui_isActive (uw_item input) with
         | Some active => if active then None else Some now | None => wc_deactivatedAt w end |>.

(** [update] of a weight class *)
Definition updateWeightClass (tournamentId id : uuid) (input : UpdateWeightClassDto) (actorId : uuid) (now : timestamp) :
    DbM WeightClassRow :=
  throw_if (emptyItem (uw_item input) && negb (set_ (uw_intermissionDurationSeconds input))) (BadRequest "WEIGHT_CLASS_UPDATE_EMPTY");;
  name ← optionalName (ui_name (uw_item input));
  rethrow uniqueWeightClass
    (lockTournament tournamentId;;
     before ← find_one tournamentWeightClasses (weightClassOfTournament tournamentId id);
     before ← or_throw before (NotFound "WEIGHT_CLASS_NOT_FOUND");
     when ((ui_isActive (uw_item input) === Some false) && wc_isActive before) (assertWeightClassUnused tournamentId id);;
     after ← update tournamentWeightClasses (fun w => wc_id w === id) (updatedWeightClass input name now);
     rosterAudit actorId (changeName "WEIGHT_CLASS" (ui_isActive (uw_item input)) (wc_isActive before)) id
       (weightClassView before) (weightClassView after);;
     mret after).

(** [deactivateWeightClass] *)
Definition deactivateWeightClass (tournamentId id actorId : uuid) (now : timestamp) : DbM WeightClassRow :=
  lockTournament tournamentId;;
  before ← find_one tournamentWeightClasses (weightClassOfTournament tournamentId id);
  before ← or_throw before (NotFound "WEIGHT_CLASS_NOT_FOUND");
  if negb (wc_isActive before) then mret before else
  assertWeightClassUnused tournamentId id;;
  after ← update tournamentWeightClasses (fun w => wc_id w === id)
    (fun w => w <| wc_isActive := false |> <| wc_deactivatedAt := Some now |>);
  rosterAudit actorId "WEIGHT_CLASS_DEACTIVATED" id (weightClassView before) (weightClassView after);;
  mret after.
End Roster.

(** ** Athletes *)

(** [birth] *)
Definition birth (year : Z) (now : timestamp) : DbM Z :=
  throw_if ((year <? 1900) || (getUTCFullYear now <? year)) (BadRequest "INVALID_BIRTH_YEAR");; mret year.

(** [assignments]: the weight class and the organization an athlete is put in *)
Definition assignments (tournamentId weightClassId : uuid) (organizationId : option uuid) (lockBracket : bool) :
    DbM (uuid * option uuid) :=
  weight ← find_one tournamentWeightClasses (activeWeightClass tournamentId weightClassId);
  _ ← or_throw weight (NotFound "ROSTER_ASSIGNMENT_NOT_FOUND");
  when lockBracket
    (current ← find_one tournamentBrackets (currentBracket tournamentId weightClassId);
     throw_if (set_ current) (Conflict "WEIGHT_CLASS_BRACKET_LOCKED"));;
  match organizationId with
  | None => mret tt
  | Some o =>
      organization ← find_one tournamentOrganizations (fun g => organizationOfTournament tournamentId o g && og_isActive g);
      _ ← or_throw organization (NotFound "ROSTER_ASSIGNMENT_NOT_FOUND"); mret tt
  end;;
  mret (weightClassId, organizationId).

Record CreateAthleteDto : Type := mkCreateAthlete {
  ca_name : string; ca_birthYear : Z; ca_weightClassId : uuid; ca_organizationId : option uuid; ca_details : option string;
  ca_isSeed : option bool }.

(** [AthleteService.create] *)
Definition createAthlete (tournamentId : uuid) (input : CreateAthleteDto) (actor : uuid) (now : timestamp) : DbM AthleteRow :=
  lockTournament tournamentId;;
  _ ← assignments tournamentId (ca_weightClassId input) (ca_organizationId input) true;
  name ← rosterName (ca_name input);
  birthYear ← birth (ca_birthYear input) now;
  row ← create tournamentAthletes (fun id => mkAthleteRow id tournamentId (ca_organizationId input) (ca_weightClassId input) name
    birthYear None (default false (ca_isSeed input)) true now (option_map trim (ca_details input)) None);
  rosterAudit actor "ATHLETE_CREATED" (at_id row) JNull (athleteView row);;
  mret row.

(** The organization and the details of an update are absent, null or given. *)
Record UpdateAthleteDto : Type := mkUpdateAthlete {
  ud_name : option string; ud_birthYear : option Z; ud_weightClassId : option uuid; ud_organizationId : option (option uuid);
  ud_details : option (option string); ud_isActive : option bool; ud_isSeed : option bool }.
Definition emptyAthlete (i : UpdateAthleteDto) : bool :=
  negb (set_ (ud_name i) || set_ (ud_birthYear i) || set_ (ud_weightClassId i) || set_ (ud_organizationId i) ||
        set_ (ud_details i) || set_ (ud_isActive i) || set_ (ud_isSeed i)).

Definition moving (input : UpdateAthleteDto) (before : AthleteRow) : bool :=
  match ud_weightClassId input with Some w => w !== at_weightClassId before | None => false end.
Definition restoring (input : UpdateAthleteDto) (before : AthleteRow) : bool :=
  (ud_isActive input === Some true) && negb (at_isActive before).
Definition changesEligibility (input : UpdateAthleteDto) (before : AthleteRow) : bool :=
  ((ud_isActive input === Some false) && at_isActive before) || moving input before.

(** The athlete is an entrant of an active or completed bracket. *)
Definition activeEntrant (id : uuid) (d : DB) : bool :=
  existsb (fun e => (en_athleteId e === id) &&
    existsb (fun b => (br_id b === en_bracketId e) && ((br_status b === BRACKET_ACTIVE) || (br_status b === BRACKET_STATUS_COMPLETED)))
      (db_tournamentBrackets d)) (db_bracketEntrants d).

Definition updatedAthlete (input : UpdateAthleteDto) (assigned : option (uuid * option uuid)) (name : option string)
    (birthYear : option Z) (now : timestamp) (a : AthleteRow) : AthleteRow :=
  a <| at_weightClassId := match assigned with Some x => x.1 | None => at_weightClassId a end |>
    <| at_organizationId := match assigned with Some x => x.2 | None => at_organizationId a end |>
    <| at_name := default (at_name a) name |> <| at_birthYear := default (at_birthYear a) birthYear |>
    <| at_details := match ud_details input with Some v => option_map trim v | None => at_details a end |>
    <| at_isActive := default (at_isActive a) (ud_isActive input) |>
    <| at_deactivatedAt := match ud_isActive input with
         | Some active => if active then None else Some now | None => at_deactivatedAt a end |>
    <| at_isSeed := default (at_isSeed a) (ud_isSeed input) |> <| at_updatedAt := now |>.

(** [AthleteService.update] *)
Definition updateAthlete (tournamentId id : uuid) (input : UpdateAthleteDto) (actor : uuid) (now : timestamp) : DbM AthleteRow :=
  throw_if (emptyAthlete input) (BadRequest "ATHLETE_UPDATE_EMPTY");;
  lockTournament tournamentId;;
  before ← find_one tournamentAthletes (athleteOfTournament tournamentId id);
  before ← or_throw before (NotFound "ATHLETE_NOT_FOUND");
  entrant ← gets (activeEntrant id);
  throw_if (changesEligibility input before && entrant) (Conflict "ATHLETE_IN_ACTIVE_BRACKET");;
  assigned ← (if set_ (ud_weightClassId input) || set_ (ud_organizationId input) || restoring input before
              then x ← assignments tournamentId (default (at_weightClassId before) (ud_weightClassId input))
                     (default (at_organizationId before) (ud_organizationId input)) (moving input before || restoring input before);
                   mret (Some x)
              else mret None);
  birthYear ← match ud_birthYear input with None => mret None | Some y => b ← birth y now; mret (Some b) end;
  name ← optionalName (ud_name input);
  row ← update tournamentAthletes (fun a => at_id a === id) (updatedAthlete input assigned name birthYear now);
  rosterAudit actor (changeName "ATHLETE" (ud_isActive input) (at_isActive before)) id (athleteView before) (athleteView row);;
  mret row.

(** [AthleteService.deactivate] *)
Definition deactivateAthlete (tournamentId id actor : uuid) (now : timestamp) : DbM AthleteRow :=
  updateAthlete tournamentId id (mkUpdateAthlete None None None None None (Some false) None) actor now.

(** ** The athlete list *)

Record AthleteListQueryDto : Type := mkAthleteList {
  q_page : option Z; q_pageSize : option Z; q_search : option string; q_weightClassId : option uuid;
  q_organizationId : option uuid; q_noOrganization : option bool; q_isActive : option bool }.

Section List_.
(** The order of the names in the database and its search for a part of a name. *)
Context (byName : list AthleteRow -> list AthleteRow) (contains : string -> string -> bool).

Definition listed (tournamentId : uuid) (q : AthleteListQueryDto) (a : AthleteRow) : bool :=
  (at_tournamentId a === tournamentId) &&
  match q_weightClassId q with Some w => at_weightClassId a === w | None => true end &&
  match q_organizationId q with Some o => at_organizationId a === Some o | None => true end &&
  (if q_noOrganization q === Some true then at_organizationId a === None else true) &&
  match q_isActive q with Some b => eqb (at_isActive a) b | None => true end &&
  match q_search q with Some s => if trim s === EmptyString then true else contains (trim s) (at_name a) | None => true end.

(** [AthleteService.list]: the items, the page, its size, the total and the number of pages *)
Definition listAthletes (tournamentId : uuid) (q : AthleteListQueryDto) : DbM (list AthleteRow * Z * Z * Z * Z) :=
  let page := default 1 (q_page q) in
  let pageSize := default 25 (q_pageSize q) in
  throw_if ((page <? 1) || (pageSize <? 1) || (100 <? pageSize)) (BadRequest "INVALID_PAGINATION");;
  throw_if ((q_noOrganization q === Some true) && set_ (q_organizationId q)) (BadRequest "INVALID_ATHLETE_FILTERS");;
  rows ← gets (fun d => byName (List.filter (listed tournamentId q) (db_tournamentAthletes d)));
  total ← count tournamentAthletes (listed tournamentId q);
  mret (firstn (Z.to_nat pageSize) (skipn (Z.to_nat ((page - 1) * pageSize)) rows), page, pageSize, total,
        (total + pageSize - 1) / pageSize).
End List_.

(** ** What a committed operation leaves *)

Lemma respects_lockTournament R `{!PreOrder R} id : respects R (lockTournament id).
Proof. unfold lockTournament; respects_auto. Qed.
Lemma respects_rosterName R `{!PreOrder R} v : respects R (rosterName v).
Proof. unfold rosterName; respects_auto. Qed.
Lemma respects_optionalName R `{!PreOrder R} v : respects R (optionalName v).
Proof. unfold optionalName, rosterName; respects_auto. Qed.
Lemma respects_birth R `{!PreOrder R} y now : respects R (birth y now).
Proof. unfold birth; respects_auto. Qed.
Lemma respects_assignments R `{!PreOrder R} t w o b : respects R (assignments t w o b).
Proof. unfold assignments; respects_auto. Qed.
Lemma respects_unused R `{!PreOrder R} t id : respects R (assertWeightClassUnused t id).
Proof. unfold assertWeightClassUnused; respects_auto. Qed.
#[export] Hint Resolve respects_lockTournament respects_rosterName respects_optionalName respects_birth respects_assignments
  respects_unused : tx.

Lemma rosterAudit_kept R `{!PreOrder R} a action target b c : (forall mk, respects R (create auditLogs mk)) ->
  respects R (rosterAudit a action target b c).
Proof. intros H; unfold rosterAudit; respects_auto. Qed.
#[export] Hint Extern 2 (respects (touches _) (rosterAudit _ _ _ _ _)) =>
  apply rosterAudit_kept; [apply _ | intros ?; apply touches_create; table_in] : tx.
#[export] Hint Extern 2 (respects keeps_sound (rosterAudit _ _ _ _ _)) =>
  unfold rosterAudit; respects_auto : tx.

Lemma locked id d u d' : lockTournament id d = Ok (u, d') -> d' = d.
Proof. apply (read_only (lockTournament id)); auto with tx typeclass_instances. Qed.
Lemma named v d n d' : rosterName v d = Ok (n, d') -> d' = d.
Proof. apply (read_only (rosterName v)); auto with tx typeclass_instances. Qed.
Lemma optionally_named v d n d' : optionalName v d = Ok (n, d') -> d' = d.
Proof. apply (read_only (optionalName v)); auto with tx typeclass_instances. Qed.

Lemma audited_ok a action target b c d u d' : rosterAudit a action target b c d = Ok (u, d') -> touches [auditLogs] d d'.
Proof.
  apply (rosterAudit_kept (touches [auditLogs]) a action target b c (fun mk => touches_create auditLogs [auditLogs] mk ltac:(table_in))).
Qed.

(** *** What an operation does to the organizations *)

Record organizationsChanged (t id : uuid) (off : bool) (now : timestamp) (g : OrganizationRow -> OrganizationRow) (d d' : DB) : Prop := {
  oc_rows : db_tournamentOrganizations d' = map_where (fun o => og_id o === id) g (db_tournamentOrganizations d);
  oc_athletes : db_tournamentAthletes d' = if off
    then map_where (fun a => (at_tournamentId a === t) && (at_organizationId a === Some id))
           (fun a => a <| at_organizationId := None |> <| at_updatedAt := now |>) (db_tournamentAthletes d)
    else db_tournamentAthletes d;
  oc_keeps : forall o, og_id (g o) = og_id o /\ og_tournamentId (g o) = og_tournamentId o;
  oc_active : off = false -> forall o, In o (db_tournamentOrganizations d) -> og_id o = id -> og_isActive o = true -> og_isActive (g o) = true;
  oc_owner : forall o, In o (db_tournamentOrganizations d) -> og_id o = id -> og_tournamentId o = t;
  oc_touches : touches [tournamentOrganizations; tournamentAthletes; auditLogs] d d';
  oc_sound : keeps_sound d d' }.

Lemma organizations_unique d x y : wf d -> In x (db_tournamentOrganizations d) -> In y (db_tournamentOrganizations d) ->
  og_id x = og_id y -> x = y.
Proof. intros Hw Hx Hy E; eapply (wf_id tournamentOrganizations d); eauto; cbn; congruence. Qed.
Lemma weightClasses_unique d x y : wf d -> In x (db_tournamentWeightClasses d) -> In y (db_tournamentWeightClasses d) ->
  wc_id x = wc_id y -> x = y.
Proof. intros Hw Hx Hy E; eapply (wf_id tournamentWeightClasses d); eauto; cbn; congruence. Qed.
Lemma athletes_unique d x y : wf d -> In x (db_tournamentAthletes d) -> In y (db_tournamentAthletes d) ->
  at_id x = at_id y -> x = y.
Proof. intros Hw Hx Hy E; eapply (wf_id tournamentAthletes d); eauto; cbn; congruence. Qed.

(** A written organization with its released athletes, as both operations write it. *)
Lemma organization_written t id off now g before d r d' : wf d -> (forall o, og_id (g o) = og_id o /\ og_tournamentId (g o) = og_tournamentId o) ->
  (off = false -> og_isActive before = true -> og_isActive (g before) = true) ->
  find_first (organizationOfTournament t id) (db_tournamentOrganizations d) = Some before ->
  (when off (_ ← releaseAthletes t id now; mret tt);; update tournamentOrganizations (fun o => og_id o === id) g) d = Ok (r, d') ->
  organizationsChanged t id off now g d d' /\ r = g before.
Proof.
  intros Hw Hg Hact Hb H.
  assert (Ht : respects (touches [tournamentOrganizations; tournamentAthletes])
    (when off (_ ← releaseAthletes t id now; mret tt);; update tournamentOrganizations (fun o => og_id o === id) g))
    by (unfold releaseAthletes; respects_auto).
  assert (Hk : keeps_sound d d').
  { apply bind_ok in H as ([] & d1 & H1 & H); intros Hs.
    refine (keeps_sound_update tournamentOrganizations _ _ _ _ _ _ H _); [intros o; cbn; f_equal; apply Hg |].
    assert (Hr : respects keeps_sound (when off (_ ← releaseAthletes t id now; mret tt))) by (unfold releaseAthletes; respects_auto).
    exact (Hr _ _ _ H1 Hs). }
  specialize (Ht _ _ _ H); apply find_first_some in Hb as [Hin Hb]; unfold organizationOfTournament in Hb; to_prop.
  apply bind_ok in H as ([] & d1 & Hoff & H); apply (update_ok tournamentOrganizations) in H as (x & Hx & -> & _ & E2).
  assert (E1 : db_tournamentOrganizations d1 = db_tournamentOrganizations d /\ db_tournamentAthletes d1 = if off
    then map_where (fun a => (at_tournamentId a === t) && (at_organizationId a === Some id))
           (fun a => a <| at_organizationId := None |> <| at_updatedAt := now |>) (db_tournamentAthletes d)
    else db_tournamentAthletes d).
  { destruct off; cbn [when] in Hoff; [| apply ret_ok in Hoff as [_ <-]; auto].
    apply bind_ok in Hoff as (n & d2 & Hn & H2); apply ret_ok in H2 as [_ <-].
    apply (update_many_ok tournamentAthletes) in Hn as (_ & _ & ->); auto. }
  destruct E1 as [E1 Ea].
  assert (Hone : forall o, In o (db_tournamentOrganizations d) -> og_id o = id -> o = before)
    by (intros o Ho Eo; apply (organizations_unique d); auto; congruence).
  split; [split |]; auto.
  - rewrite E2; change (db_tournamentOrganizations (put tournamentOrganizations ?l d1)) with l.
    change (get tournamentOrganizations d1) with (db_tournamentOrganizations d1); rewrite E1; reflexivity.
  - rewrite E2; exact Ea.
  - intros Ho o Hi Eo; rewrite (Hone o Hi Eo); auto.
  - intros o Hi Eo; rewrite (Hone o Hi Eo); assumption.
  - intros tb Hn; apply Ht; set_solver.
  - change (get tournamentOrganizations d1) with (db_tournamentOrganizations d1) in Hx; rewrite E1 in Hx.
    apply find_first_some in Hx as [Hx Ex]; to_prop; rewrite (Hone x Hx Ex); reflexivity.
Qed.

(** The rest of the store and the audit trail. *)
Lemma organizationsChanged_audited t id off now g d d1 d' : organizationsChanged t id off now g d d1 -> touches [auditLogs] d1 d' ->
  keeps_sound d1 d' -> organizationsChanged t id off now g d d'.
Proof.
  intros [E1 E2 Hg Ha Ho Ht Hk] Ht' Hk'; split; auto.
  - change db_tournamentOrganizations with (get tournamentOrganizations) in *; rewrite (Ht' tournamentOrganizations ltac:(table_notin)); exact E1.
  - change (db_tournamentAthletes d') with (get tournamentAthletes d'); rewrite (Ht' tournamentAthletes ltac:(table_notin)); exact E2.
  - intros tb Hn; rewrite (Ht' tb); [apply Ht; set_solver | set_solver].
  - intros Hs; auto.
Qed.

Lemma audited_sound a action target b c d u d' : rosterAudit a action target b c d = Ok (u, d') -> keeps_sound d d'.
Proof. assert (H : respects keeps_sound (rosterAudit a action target b c)) by (unfold rosterAudit; respects_auto); apply H. Qed.

Section Effects.
Context (normalized : string -> string).

Lemma createOrganization_ok t i a now d r d' : createOrganization normalized t i a now d = Ok (r, d') ->
  db_tournamentOrganizations d' = db_tournamentOrganizations d ++ [r] /\
  og_tournamentId r = t /\ og_isActive r = true /\ trim (ci_name i) = og_name r /\ og_normalizedName r = normalized (og_name r) /\
  touches [tournamentOrganizations; auditLogs] d d' /\ keeps_sound d d'.
Proof.
  intros H; assert (Ht : respects (touches [tournamentOrganizations; auditLogs]) (createOrganization normalized t i a now))
    by (unfold createOrganization; respects_auto).
  assert (Hk : respects keeps_sound (createOrganization normalized t i a now)) by (unfold createOrganization; respects_auto).
  specialize (Ht _ _ _ H); specialize (Hk _ _ _ H).
  apply bind_ok in H as (n & d1 & Hn & H); pose proof (named _ _ _ _ Hn) as ->; apply rethrow_ok in H.
  apply bind_ok in Hn as ([] & d0 & _ & Hn); apply ret_ok in Hn as [<- _].
  apply bind_ok in H as ([] & d1 & Hl & H); apply locked in Hl as ->; cbv zeta in H.
  apply bind_ok in H as (x & d1 & Hx & H); apply (create_ok tournamentOrganizations) in Hx as (Er & _ & E1).
  apply bind_ok in H as ([] & d2 & Ha & H); apply ret_ok in H as [<- <-]; apply audited_ok in Ha.
  split; [change db_tournamentOrganizations with (get tournamentOrganizations); rewrite (Ha tournamentOrganizations ltac:(table_notin)), E1, get_put_same; reflexivity |].
  rewrite Er; cbn; split_and!; auto.
Qed.

Lemma updateOrganization_ok t id i a now d r d' : updateOrganization normalized t id i a now d = Ok (r, d') -> wf d ->
  exists name before, find_first (organizationOfTournament t id) (db_tournamentOrganizations d) = Some before /\
  r = updatedOrganization normalized i name now before /\
  organizationsChanged t id ((ui_isActive i === Some false) && og_isActive before) now (updatedOrganization normalized i name now) d d'.
Proof.
  intros H Hw; apply bind_ok in H as ([] & d1 & H1 & H); apply throw_if_ok in H1 as [_ ->].
  apply bind_ok in H as (n & d1 & Hn & H); pose proof (optionally_named _ _ _ _ Hn) as ->; apply rethrow_ok in H.
  apply bind_ok in H as ([] & d1 & Hl & H); apply locked in Hl as ->.
  apply bind_ok in H as (o & d1 & H1 & H); apply gets_ok in H1 as [-> ->].
  apply bind_ok in H as (before & d1 & H1 & H); apply or_throw_ok in H1 as [Hb ->].
  apply bind_ok in H as ([] & d1 & Hoff & H); apply bind_ok in H as (x & d2 & Hx & H).
  apply bind_ok in H as ([] & d3 & Ha & H); apply ret_ok in H as [<- <-].
  exists n, before; split; [exact Hb |].
  destruct (organization_written t id ((ui_isActive i === Some false) && og_isActive before) now
    (updatedOrganization normalized i n now) before d x d2) as [Hc ->]; auto.
  - intros Hf Hact; cbn; destruct (ui_isActive i) as [[] |]; cbn; auto; rewrite Hact in Hf; discriminate Hf.
  - apply bind_ok; eauto.
  - split; [reflexivity |]; eapply organizationsChanged_audited; eauto using audited_ok, audited_sound.
Qed.

Lemma deactivateOrganization_ok t id a now d r d' : deactivateOrganization t id a now d = Ok (r, d') -> wf d ->
  exists before, find_first (organizationOfTournament t id) (db_tournamentOrganizations d) = Some before /\
  (og_isActive before = false /\ d' = d \/
   og_isActive before = true /\ organizationsChanged t id true now
     (fun o => o <| og_isActive := false |> <| og_deactivatedAt := Some now |> <| og_updatedAt := now |>) d d').
Proof.
  intros H Hw; apply bind_ok in H as ([] & d1 & Hl & H); apply locked in Hl as ->.
  apply bind_ok in H as (o & d1 & H1 & H); apply gets_ok in H1 as [-> ->].
  apply bind_ok in H as (before & d1 & H1 & H); apply or_throw_ok in H1 as [Hb ->]; exists before; split; [exact Hb |].
  destruct (og_isActive before) eqn:Eb; cbn [negb] in H; [right | left; apply ret_ok in H as [_ <-]; auto].
  apply bind_ok in H as (n & d1 & Hoff & H); apply bind_ok in H as (x & d2 & Hx & H).
  apply bind_ok in H as ([] & d3 & Ha & H); apply ret_ok in H as [<- <-]; split; [reflexivity |].
  destruct (organization_written t id true now
    (fun o => o <| og_isActive := false |> <| og_deactivatedAt := Some now |> <| og_updatedAt := now |>) before d x d2) as [Hc ->]; auto.
  - apply bind_ok; exists tt, d1; split; [apply bind_ok; exists n, d1; split; [exact Hoff | reflexivity] | exact Hx].
  - eapply organizationsChanged_audited; eauto using audited_ok, audited_sound.
Qed.

(** *** What an operation does to the weight classes *)

Record weightClassesChanged (t id : uuid) (g : WeightClassRow -> WeightClassRow) (d d' : DB) : Prop := {
  cc_rows : db_tournamentWeightClasses d' = map_where (fun w => wc_id w === id) g (db_tournamentWeightClasses d);
  cc_keeps : forall w, wc_id (g w) = wc_id w /\ wc_tournamentId (g w) = wc_tournamentId w;
  cc_used : forall w a, In w (db_tournamentWeightClasses d) -> wc_id w = id -> wc_isActive w = true -> In a (db_tournamentAthletes d) ->
    at_isActive a = true -> at_tournamentId a = wc_tournamentId w -> at_weightClassId a = id -> wc_isActive (g w) = true;
  cc_touches : touches [tournamentWeightClasses; auditLogs] d d';
  cc_sound : keeps_sound d d' }.

Lemma createWeightClass_ok t i a d r d' : createWeightClass normalized t i a d = Ok (r, d') ->
  db_tournamentWeightClasses d' = db_tournamentWeightClasses d ++ [r] /\ wc_tournamentId r = t /\ wc_isActive r = true /\
  touches [tournamentWeightClasses; auditLogs] d d' /\ keeps_sound d d'.
Proof.
  intros H; assert (Ht : respects (touches [tournamentWeightClasses; auditLogs]) (createWeightClass normalized t i a))
    by (unfold createWeightClass; respects_auto).
  assert (Hk : respects keeps_sound (createWeightClass normalized t i a)) by (unfold createWeightClass; respects_auto).
  specialize (Ht _ _ _ H); specialize (Hk _ _ _ H).
  apply bind_ok in H as (nm & d1 & Hn & H); pose proof (named _ _ _ _ Hn) as ->; apply rethrow_ok in H.
  apply bind_ok in H as ([] & d1 & Hl & H); apply locked in Hl as ->.
  apply bind_ok in H as (x & d1 & Hx & H); apply (create_ok tournamentWeightClasses) in Hx as (Er & _ & E1).
  apply bind_ok in H as ([] & d2 & Ha & H); apply ret_ok in H as [<- <-]; apply audited_ok in Ha.
  split; [change db_tournamentWeightClasses with (get tournamentWeightClasses); rewrite (Ha tournamentWeightClasses ltac:(table_notin)), E1, get_put_same; reflexivity |].
  rewrite Er; cbn; split_and!; auto.
Qed.

Lemma unused_ok t id d u d' : assertWeightClassUnused t id d = Ok (u, d') -> d' = d /\
  (forall a, In a (db_tournamentAthletes d) -> at_tournamentId a = t -> at_weightClassId a = id -> at_isActive a = false) /\
  find_first (currentBracket t id) (db_tournamentBrackets d) = None.
Proof.
  intros H; apply bind_ok in H as (n & d1 & H1 & H); apply gets_ok in H1 as [-> ->].
  apply bind_ok in H as (m & d1 & H1 & H); apply gets_ok in H1 as [-> ->].
  apply bind_ok in H as (b & d1 & H1 & H); apply gets_ok in H1 as [-> ->].
  apply throw_if_ok in H as [H ->]; to_prop; split; [reflexivity |].
  repeat match goal with H : negb _ = false |- _ => apply negb_false_iff, bool_decide_eq_true in H end.
  assert (Hnil : forall A (l : list A), Z.of_nat (length l) = 0 -> l = []) by (intros A [|]; [reflexivity | discriminate]).
  split.
  - intros a Ha Et Ew; destruct (at_isActive a) eqn:Ea; [| reflexivity]; exfalso.
    match goal with H : Z.of_nat (length (List.filter _ (get tournamentAthletes d))) = 0 |- _ => apply Hnil in H; rename H into Hf end.
    assert (Hi : In a (@nil (row_of tournamentAthletes)))
      by (rewrite <- Hf; apply filter_In; split; [exact Ha |]; rewrite Et, Ew, Ea, !bool_decide_eq_true_2 by reflexivity; reflexivity).
    destruct Hi.
  - apply find_first_none; intros x Hx; destruct (currentBracket t id x) eqn:E; [| reflexivity]; exfalso.
    match goal with H : Z.of_nat (length (List.filter _ (get tournamentBrackets d))) = 0 |- _ => apply Hnil in H; rename H into Hf end.
    assert (Hi : In x (@nil (row_of tournamentBrackets))) by (rewrite <- Hf; apply filter_In; auto).
    destruct Hi.
Qed.

Lemma updateWeightClass_ok t id i a now d r d' : updateWeightClass normalized t id i a now d = Ok (r, d') -> wf d ->
  exists name before, find_first (weightClassOfTournament t id) (db_tournamentWeightClasses d) = Some before /\
  r = updatedWeightClass normalized i name now before /\
  weightClassesChanged t id (updatedWeightClass normalized i name now) d d'.
Proof.
  intros H Hw; assert (Ht : respects (touches [tournamentWeightClasses; auditLogs]) (updateWeightClass normalized t id i a now))
    by (unfold updateWeightClass; respects_auto).
  assert (Hk : respects keeps_sound (updateWeightClass normalized t id i a now)) by (unfold updateWeightClass; respects_auto).
  specialize (Ht _ _ _ H); specialize (Hk _ _ _ H).
  apply bind_ok in H as ([] & d1 & H1 & H); apply throw_if_ok in H1 as [_ ->].
  apply bind_ok in H as (n & d1 & Hn & H); pose proof (optionally_named _ _ _ _ Hn) as ->; apply rethrow_ok in H.
  apply bind_ok in H as ([] & d1 & Hl & H); apply locked in Hl as ->.
  apply bind_ok in H as (o & d1 & H1 & H); apply gets_ok in H1 as [-> ->].
  apply bind_ok in H as (before & d1 & H1 & H); apply or_throw_ok in H1 as [Hb ->].
  apply bind_ok in H as ([] & d1 & Hoff & H); apply bind_ok in H as (x & d2 & Hx & H).
  apply bind_ok in H as ([] & d3 & Ha & H); apply ret_ok in H as [<- <-].
  assert (d1 = d) as ->.
  { unfold when in Hoff; destruct (_ && _); [apply unused_ok in Hoff as [-> _] | apply ret_ok in Hoff as [_ <-]]; reflexivity. }
  apply (update_ok tournamentWeightClasses) in Hx as (y & Hy & -> & _ & E2); apply audited_ok in Ha.
  apply find_first_some in Hb as Hb'; destruct Hb' as [Hin Hof]; unfold weightClassOfTournament in Hof; to_prop.
  assert (Hone : forall o, In o (db_tournamentWeightClasses d) -> wc_id o = id -> o = before)
    by (intros o Ho Eo; apply (weightClasses_unique d); auto; congruence).
  apply find_first_some in Hy as [Hy Ey]; to_prop; rewrite (Hone y Hy Ey).
  exists n, before; split; [exact Hb |]; split; [reflexivity |]; split; auto.
  - change db_tournamentWeightClasses with (get tournamentWeightClasses); rewrite (Ha tournamentWeightClasses ltac:(table_notin)), E2, get_put_same; reflexivity.
  - intros w x Hi Ei Hact Hx Hxa Hxt Hxw; rewrite (Hone w Hi Ei) in *; cbn.
    destruct (ui_isActive (uw_item i)) as [[] |] eqn:Eu; cbn; auto; exfalso.
    unfold when in Hoff; rewrite bool_decide_eq_true_2, Hact in Hoff by reflexivity.
    apply unused_ok in Hoff as (_ & Hnone & _); rewrite (Hnone x Hx) in Hxa; [discriminate | congruence | congruence].
Qed.

Lemma deactivateWeightClass_ok t id a now d r d' : deactivateWeightClass t id a now d = Ok (r, d') -> wf d ->
  d' = d \/ weightClassesChanged t id (fun w => w <| wc_isActive := false |> <| wc_deactivatedAt := Some now |>) d d'.
Proof.
  intros H Hw; assert (Ht : respects (touches [tournamentWeightClasses; auditLogs]) (deactivateWeightClass t id a now))
    by (unfold deactivateWeightClass; respects_auto).
  assert (Hk : respects keeps_sound (deactivateWeightClass t id a now)) by (unfold deactivateWeightClass; respects_auto).
  specialize (Ht _ _ _ H); specialize (Hk _ _ _ H).
  apply bind_ok in H as ([] & d1 & Hl & H); apply locked in Hl as ->.
  apply bind_ok in H as (o & d1 & H1 & H); apply gets_ok in H1 as [-> ->].
  apply bind_ok in H as (before & d1 & H1 & H); apply or_throw_ok in H1 as [Hb ->].
  destruct (wc_isActive before) eqn:Eb; cbn [negb] in H; [right | left; apply ret_ok in H as [_ <-]; auto].
  apply bind_ok in H as ([] & d1 & Hoff & H); apply unused_ok in Hoff as (-> & Hnone & _).
  apply bind_ok in H as (x & d2 & Hx & H); apply bind_ok in H as ([] & d3 & Ha & H); apply ret_ok in H as [<- <-].
  apply (update_ok tournamentWeightClasses) in Hx as (y & Hy & -> & _ & E2); apply audited_ok in Ha.
  apply find_first_some in Hb as [Hin Hof]; unfold weightClassOfTournament in Hof; to_prop.
  split; auto.
  - change db_tournamentWeightClasses with (get tournamentWeightClasses); rewrite (Ha tournamentWeightClasses ltac:(table_notin)), E2, get_put_same; reflexivity.
  - intros w x Hi Ei Hact Hx Hxa Hxt Hxw; exfalso.
    assert (w = before) as -> by (apply (weightClasses_unique d); auto; congruence).
    rewrite (Hnone x Hx) in Hxa; [discriminate | congruence | congruence].
Qed.
End Effects.

(** *** What an operation does to the athletes *)

Lemma assignments_ok t w o lock d x d' : assignments t w o lock d = Ok (x, d') ->
  d' = d /\ x = (w, o) /\ (exists c, In c (db_tournamentWeightClasses d) /\ activeWeightClass t w c = true) /\
  (lock = true -> find_first (currentBracket t w) (db_tournamentBrackets d) = None) /\
  (forall og, o = Some og -> exists g, In g (db_tournamentOrganizations d) /\ organizationOfTournament t og g && og_isActive g = true).
Proof.
  intros H; apply bind_ok in H as (wo & d1 & H1 & H); apply gets_ok in H1 as [-> ->].
  apply bind_ok in H as (c & d1 & H1 & H); apply or_throw_ok in H1 as [Hc ->]; apply find_first_some in Hc as [Hin Hc].
  apply bind_ok in H as ([] & d1 & Hl & H).
  assert (Hlock : d1 = d /\ (lock = true -> find_first (currentBracket t w) (db_tournamentBrackets d) = None)).
  { destruct lock; cbn [when] in Hl; [| apply ret_ok in Hl as [_ <-]; split; [reflexivity | discriminate]].
    apply bind_ok in Hl as (b & d2 & H1 & Hl); apply gets_ok in H1 as [-> ->]; apply throw_if_ok in Hl as [Hl ->].
    apply set_none in Hl; auto. }
  destruct Hlock as [-> Hlock]; apply bind_ok in H as ([] & d1 & Ho & H); apply ret_ok in H as [<- <-].
  destruct o as [og |]; [| apply ret_ok in Ho as [_ <-]; split_and!; eauto; discriminate].
  apply bind_ok in Ho as (gx & d2 & H1 & Ho); apply gets_ok in H1 as [-> ->].
  apply bind_ok in Ho as (g & d2 & H1 & Ho); apply or_throw_ok in H1 as [Hg ->]; apply ret_ok in Ho as [_ <-].
  apply find_first_some in Hg as [Hg1 Hg2]; split_and!; eauto; intros x [= <-]; eauto.
Qed.

Lemma birth_ok y now d b d' : birth y now d = Ok (b, d') -> d' = d /\ b = y /\ 1900 <= y <= getUTCFullYear now.
Proof.
  intros H; apply bind_ok in H as ([] & d1 & H1 & H); apply throw_if_ok in H1 as [H1 ->]; apply ret_ok in H as [<- <-].
  to_prop; auto.
Qed.

Lemma named_ok v d n d' : rosterName v d = Ok (n, d') -> d' = d /\ n = trim v /\ n <> EmptyString.
Proof.
  intros H; apply bind_ok in H as ([] & d1 & H1 & H); apply throw_if_ok in H1 as [H1 ->]; apply ret_ok in H as [<- <-].
  to_prop; auto.
Qed.

Lemma createAthlete_ok t i a now d r d' : createAthlete t i a now d = Ok (r, d') ->
  db_tournamentAthletes d' = db_tournamentAthletes d ++ [r] /\
  r = mkAthleteRow (db_nextId d) t (ca_organizationId i) (ca_weightClassId i) (trim (ca_name i)) (ca_birthYear i) None
        (default false (ca_isSeed i)) true now (option_map trim (ca_details i)) None /\
  trim (ca_name i) <> EmptyString /\ 1900 <= ca_birthYear i <= getUTCFullYear now /\
  assignments t (ca_weightClassId i) (ca_organizationId i) true d = Ok ((ca_weightClassId i, ca_organizationId i), d) /\
  touches [tournamentAthletes; auditLogs] d d' /\ keeps_sound d d'.
Proof.
  intros H; assert (Ht : respects (touches [tournamentAthletes; auditLogs]) (createAthlete t i a now))
    by (unfold createAthlete; respects_auto).
  assert (Hk : respects keeps_sound (createAthlete t i a now)) by (unfold createAthlete; respects_auto).
  specialize (Ht _ _ _ H); specialize (Hk _ _ _ H).
  apply bind_ok in H as ([] & d1 & Hl & H); apply locked in Hl as ->.
  apply bind_ok in H as (x & d1 & Hx & H); destruct (assignments_ok _ _ _ _ _ _ _ Hx) as (-> & -> & _).
  apply bind_ok in H as (n & d1 & Hn & H); apply named_ok in Hn as (-> & -> & Hn).
  apply bind_ok in H as (y & d1 & Hy & H); apply birth_ok in Hy as (-> & -> & Hy).
  apply bind_ok in H as (row & d1 & Hr & H); apply (create_ok tournamentAthletes) in Hr as (Er & _ & E1).
  apply bind_ok in H as ([] & d2 & Ha & H); apply ret_ok in H as [<- <-]; apply audited_ok in Ha.
  split; [change db_tournamentAthletes with (get tournamentAthletes); rewrite (Ha tournamentAthletes ltac:(table_notin)), E1, get_put_same; reflexivity |].
  split; [exact Er |]; auto.
Qed.

Lemma updateAthlete_ok t id i a now d r d' : updateAthlete t id i a now d = Ok (r, d') -> wf d ->
  exists before assigned name birthYear, In before (db_tournamentAthletes d) /\ at_id before = id /\ at_tournamentId before = t /\
  r = updatedAthlete i assigned name birthYear now before /\
  db_tournamentAthletes d' = map_where (fun a => at_id a === id) (updatedAthlete i assigned name birthYear now) (db_tournamentAthletes d) /\
  (changesEligibility i before = true -> activeEntrant id d = false) /\
  match assigned with
  | None => moving i before = false /\ restoring i before = false
  | Some x => x = (default (at_weightClassId before) (ud_weightClassId i), default (at_organizationId before) (ud_organizationId i)) /\
      assignments t x.1 x.2 (moving i before || restoring i before) d = Ok (x, d)
  end /\
  touches [tournamentAthletes; auditLogs] d d' /\ keeps_sound d d'.
Proof.
  intros H Hw; assert (Ht : respects (touches [tournamentAthletes; auditLogs]) (updateAthlete t id i a now))
    by (unfold updateAthlete; respects_auto).
  assert (Hk : respects keeps_sound (updateAthlete t id i a now)) by (unfold updateAthlete; respects_auto).
  specialize (Ht _ _ _ H); specialize (Hk _ _ _ H).
  apply bind_ok in H as ([] & d1 & H1 & H); apply throw_if_ok in H1 as [_ ->].
  apply bind_ok in H as ([] & d1 & Hl & H); apply locked in Hl as ->.
  apply bind_ok in H as (o & d1 & H1 & H); apply gets_ok in H1 as [-> ->].
  apply bind_ok in H as (before & d1 & H1 & H); apply or_throw_ok in H1 as [Hb ->].
  apply bind_ok in H as (en & d1 & H1 & H); apply gets_ok in H1 as [-> ->].
  apply bind_ok in H as ([] & d1 & H1 & H); apply throw_if_ok in H1 as [Hel ->].
  apply bind_ok in H as (assigned & d1 & Has & H).
  assert (HA : d1 = d /\ match assigned with
    | None => moving i before = false /\ restoring i before = false
    | Some x => x = (default (at_weightClassId before) (ud_weightClassId i), default (at_organizationId before) (ud_organizationId i)) /\
        assignments t x.1 x.2 (moving i before || restoring i before) d = Ok (x, d)
    end).
  { destruct (set_ (ud_weightClassId i) || set_ (ud_organizationId i) || restoring i before) eqn:Ec.
    - apply bind_ok in Has as (x & d2 & Hx & Has); apply ret_ok in Has as [<- <-].
      destruct (assignments_ok _ _ _ _ _ _ _ Hx) as (-> & -> & _); auto.
    - apply ret_ok in Has as [<- <-]; apply orb_false_iff in Ec as [Ec ->]; apply orb_false_iff in Ec as [Ec _].
      unfold moving; rewrite (set_none _ Ec); auto. }
  destruct HA as [-> HA]; apply bind_ok in H as (y & d1 & Hy & H).
  assert (d1 = d) as ->.
  { destruct (ud_birthYear i); [| apply ret_ok in Hy as [_ <-]; reflexivity].
    apply bind_ok in Hy as (b & d2 & Hb2 & Hy); apply ret_ok in Hy as [_ <-]; apply birth_ok in Hb2; apply Hb2. }
  apply bind_ok in H as (n & d1 & Hn & H); pose proof (optionally_named _ _ _ _ Hn) as ->.
  apply bind_ok in H as (row & d1 & Hr & H); apply (update_ok tournamentAthletes) in Hr as (z & Hz & -> & _ & E1).
  apply bind_ok in H as ([] & d2 & Ha & H); apply ret_ok in H as [<- <-]; apply audited_ok in Ha.
  apply find_first_some in Hb as [Hin Hof]; unfold athleteOfTournament in Hof; apply find_first_some in Hz as [Hz Ez]; to_prop.
  assert (z = before) as -> by (apply (athletes_unique d); auto; congruence).
  exists before, assigned, n, y; split_and!; auto.
  - change db_tournamentAthletes with (get tournamentAthletes); rewrite (Ha tournamentAthletes ltac:(table_notin)), E1, get_put_same; reflexivity.
  - intros Hc; rewrite Hc in Hel; exact Hel.
Qed.

(** ** The roster invariant *)

Definition isCurrent (b : BracketRow) : bool := (br_status b === BRACKET_ACTIVE) || (br_status b === BRACKET_STATUS_COMPLETED).

(** The athlete's weight class is an active one of its tournament while the athlete is active, and its
    organization, if it has one, always is. *)
Record assignedWell (d : DB) (a : AthleteRow) : Prop := {
  as_class : at_isActive a = true -> exists w, In w (db_tournamentWeightClasses d) /\
    activeWeightClass (at_tournamentId a) (at_weightClassId a) w = true;
  as_organization : forall o, at_organizationId a = Some o -> exists g, In g (db_tournamentOrganizations d) /\
    organizationOfTournament (at_tournamentId a) o g && og_isActive g = true }.

(** The athletes who compete in the class of a bracket, and its entrants. *)
Definition competes (d : DB) (b : BracketRow) (x : uuid) : Prop :=
  exists a, In a (db_tournamentAthletes d) /\ at_id a = x /\ at_isActive a = true /\
    at_tournamentId a = br_tournamentId b /\ at_weightClassId a = br_weightClassId b.
Definition entered (d : DB) (b : BracketRow) (x : uuid) : Prop :=
  exists e, In e (db_bracketEntrants d) /\ en_bracketId e = br_id b /\ en_athleteId e = x.

Record rosterOk (d : DB) : Prop := {
  ro_assigned : forall a, In a (db_tournamentAthletes d) -> assignedWell d a;
  ro_entrants : forall b, In b (db_tournamentBrackets d) -> isCurrent b = true -> forall x, entered d b x <-> competes d b x }.

Lemma current_of b : isCurrent b = true -> currentBracket (br_tournamentId b) (br_weightClassId b) b = true.
Proof. intros H; unfold currentBracket; rewrite !bool_decide_eq_true_2 by reflexivity; exact H. Qed.

Lemma no_current d t w b : find_first (currentBracket t w) (db_tournamentBrackets d) = None -> In b (db_tournamentBrackets d) ->
  isCurrent b = true -> br_tournamentId b = t -> br_weightClassId b = w -> False.
Proof.
  intros H Hb Hc <- <-; apply find_first_none with (x := b) in H; [| exact Hb]; rewrite (current_of b Hc) in H; discriminate.
Qed.

Lemma competes_map d d' p g b x : db_tournamentAthletes d' = map_where p g (db_tournamentAthletes d) ->
  (forall a, In a (db_tournamentAthletes d) -> p a = true -> at_id (g a) = at_id a /\ at_isActive (g a) = at_isActive a /\
     at_tournamentId (g a) = at_tournamentId a /\ at_weightClassId (g a) = at_weightClassId a) -> competes d' b x <-> competes d b x.
Proof.
  intros E Hg; unfold competes; rewrite E; split.
  - intros (a & Ha & Hx); apply in_map_where in Ha as (y & Hy & ->); exists y; split; [exact Hy |].
    destruct (p y) eqn:Ep; [| exact Hx]; destruct (Hg y Hy Ep) as (E1 & E2 & E3 & E4); rewrite E1, E2, E3, E4 in Hx; exact Hx.
  - intros (a & Ha & Hx); exists (if p a then g a else a); split; [apply in_map_where; eauto |].
    destruct (p a) eqn:Ep; [| exact Hx]; destruct (Hg a Ha Ep) as (E1 & E2 & E3 & E4); rewrite E1, E2, E3, E4; exact Hx.
Qed.

Lemma competes_same d d' b x : db_tournamentAthletes d' = db_tournamentAthletes d -> competes d' b x <-> competes d b x.
Proof. intros E; unfold competes; rewrite E; reflexivity. Qed.

(** An operation that leaves the brackets and the entrants alone and changes no one's eligibility. *)
Lemma rosterOk_intro d d' : rosterOk d -> touches [tournamentOrganizations; tournamentWeightClasses; tournamentAthletes; auditLogs; athleteImportConfirmations] d d' ->
  (forall a, In a (db_tournamentAthletes d') -> assignedWell d' a) ->
  (forall b x, In b (db_tournamentBrackets d) -> isCurrent b = true -> competes d' b x <-> competes d b x) -> rosterOk d'.
Proof.
  intros [_ Hen] Ht Ha Hc; split; [exact Ha |].
  change db_tournamentBrackets with (get tournamentBrackets); rewrite (Ht tournamentBrackets ltac:(table_notin)).
  intros b Hb Hcur x; rewrite (Hc b x Hb Hcur), <- (Hen b Hb Hcur x); unfold entered.
  change db_bracketEntrants with (get bracketEntrants); rewrite (Ht bracketEntrants ltac:(table_notin)); reflexivity.
Qed.

Lemma assigned_ext d d' a : db_tournamentWeightClasses d' = db_tournamentWeightClasses d ->
  db_tournamentOrganizations d' = db_tournamentOrganizations d -> assignedWell d a -> assignedWell d' a.
Proof. intros E1 E2 [H1 H2]; split; rewrite ?E1, ?E2; auto. Qed.

Lemma rosterOk_organizations t id off now g d d' : organizationsChanged t id off now g d d' -> rosterOk d -> rosterOk d'.
Proof.
  intros [Er Ea Hg Hact Hown Ht _] Hok; apply (rosterOk_intro d); [exact Hok | apply (touches_weaken _ _ _ _ Ht); set_solver | |].
  - assert (Hkeep : forall a, In a (db_tournamentAthletes d) -> (off = true -> at_tournamentId a = t -> at_organizationId a <> Some id) -> assignedWell d' a).
    { intros a Ha Hnot; destruct (ro_assigned d Hok a Ha) as [Hc Ho]; split.
      - change (db_tournamentWeightClasses d') with (get tournamentWeightClasses d'); rewrite (Ht tournamentWeightClasses ltac:(table_notin)); exact Hc.
      - intros o Eo; destruct (Ho o Eo) as (g0 & Hi & Hg0); exists (if og_id g0 === id then g g0 else g0).
        split; [rewrite Er; apply in_map_where; eauto |]; destruct (og_id g0 === id) eqn:Ei; [| exact Hg0]; to_prop.
        unfold organizationOfTournament in *; destruct (Hg g0) as [-> ->]; to_prop; rewrite !bool_decide_eq_true_2 by assumption; cbn.
        destruct off; [| apply Hact; auto]; exfalso; apply Hnot; [reflexivity | | congruence].
        rewrite <- (Hown g0 Hi ltac:(assumption)); congruence. }
    intros a Ha; rewrite Ea in Ha; destruct off; [| apply Hkeep; [exact Ha | discriminate]].
    apply in_map_where in Ha as (y & Hy & ->).
    destruct ((at_tournamentId y === t) && (at_organizationId y === Some id)) eqn:Ep.
    + destruct (ro_assigned d Hok y Hy) as [Hc _]; split; [| discriminate]; cbn.
      change (db_tournamentWeightClasses d') with (get tournamentWeightClasses d'); rewrite (Ht tournamentWeightClasses ltac:(table_notin)); exact Hc.
    + apply Hkeep; [exact Hy |]; intros _ Et Eo; rewrite Et, Eo, !bool_decide_eq_true_2 in Ep by reflexivity; discriminate.
  - intros b x _ _; destruct off; [| apply competes_same, Ea].
    apply (competes_map _ _ _ _ _ _ Ea); auto.
Qed.

Lemma rosterOk_organization_added d d' r : db_tournamentOrganizations d' = db_tournamentOrganizations d ++ [r] ->
  touches [tournamentOrganizations; auditLogs] d d' -> rosterOk d -> rosterOk d'.
Proof.
  intros E Ht Hok; assert (Ea : db_tournamentAthletes d' = db_tournamentAthletes d) by exact (Ht tournamentAthletes ltac:(table_notin)).
  apply (rosterOk_intro d); [exact Hok | apply (touches_weaken _ _ _ _ Ht); set_solver | | intros b x _ _; apply competes_same, Ea].
  intros a Ha; rewrite Ea in Ha; destruct (ro_assigned d Hok a Ha) as [Hc Ho]; split.
  - change (db_tournamentWeightClasses d') with (get tournamentWeightClasses d'); rewrite (Ht tournamentWeightClasses ltac:(table_notin)); exact Hc.
  - intros o Eo; destruct (Ho o Eo) as (g & Hg & Hg2); exists g; rewrite E, in_app_iff; auto.
Qed.

Lemma rosterOk_weightClasses t id g d d' : weightClassesChanged t id g d d' -> rosterOk d -> rosterOk d'.
Proof.
  intros [Er Hg Hused Ht _] Hok; assert (Ea : db_tournamentAthletes d' = db_tournamentAthletes d) by exact (Ht tournamentAthletes ltac:(table_notin)).
  apply (rosterOk_intro d); [exact Hok | apply (touches_weaken _ _ _ _ Ht); set_solver | | intros b x _ _; apply competes_same, Ea].
  intros a Ha; rewrite Ea in Ha; destruct (ro_assigned d Hok a Ha) as [Hc Ho]; split.
  - intros Hact; destruct (Hc Hact) as (w & Hw & Hw2); unfold activeWeightClass in *; to_prop.
    exists (if wc_id w === id then g w else w); split; [rewrite Er; apply in_map_where; eauto |].
    destruct (wc_id w === id) eqn:Ei; to_prop.
    + destruct (Hg w) as [-> ->]; rewrite !bool_decide_eq_true_2 by congruence; cbn; apply (Hused w a); auto; congruence.
    + rewrite !bool_decide_eq_true_2 by congruence; cbn; assumption.
  - change (db_tournamentOrganizations d') with (get tournamentOrganizations d'); rewrite (Ht tournamentOrganizations ltac:(table_notin)); exact Ho.
Qed.

Lemma rosterOk_weightClass_added d d' r : db_tournamentWeightClasses d' = db_tournamentWeightClasses d ++ [r] ->
  touches [tournamentWeightClasses; auditLogs] d d' -> rosterOk d -> rosterOk d'.
Proof.
  intros E Ht Hok; assert (Ea : db_tournamentAthletes d' = db_tournamentAthletes d) by exact (Ht tournamentAthletes ltac:(table_notin)).
  apply (rosterOk_intro d); [exact Hok | apply (touches_weaken _ _ _ _ Ht); set_solver | | intros b x _ _; apply competes_same, Ea].
  intros a Ha; rewrite Ea in Ha; destruct (ro_assigned d Hok a Ha) as [Hc Ho]; split.
  - intros Hact; destruct (Hc Hact) as (w & Hw & Hw2); exists w; rewrite E, in_app_iff; auto.
  - change (db_tournamentOrganizations d') with (get tournamentOrganizations d'); rewrite (Ht tournamentOrganizations ltac:(table_notin)); exact Ho.
Qed.

(** An added athlete, whose class has no current bracket. *)
Lemma rosterOk_athlete_added d d' r ts : db_tournamentAthletes d' = db_tournamentAthletes d ++ [r] ->
  touches ts d d' -> (forall t, t ∈ ts -> t ∈ [tournamentAthletes; auditLogs]) -> rosterOk d -> assignedWell d r ->
  find_first (currentBracket (at_tournamentId r) (at_weightClassId r)) (db_tournamentBrackets d) = None -> rosterOk d'.
Proof.
  intros E Ht' Hsub Hok Hr Hnone; pose proof (touches_weaken _ _ _ _ Ht' Hsub) as Ht; clear Ht' Hsub.
  apply (rosterOk_intro d); [exact Hok | apply (touches_weaken _ _ _ _ Ht); set_solver | |].
  - intros a Ha; apply (assigned_ext d); [exact (Ht tournamentWeightClasses ltac:(table_notin)) | exact (Ht tournamentOrganizations ltac:(table_notin)) |].
    rewrite E in Ha; apply in_app_iff in Ha as [Ha | [<- | []]]; [apply (ro_assigned d Hok a Ha) | exact Hr].
  - intros b x Hb Hcur; unfold competes; rewrite E; split.
    + intros (a & Ha & Ex & Hact & E1 & E2); apply in_app_iff in Ha as [Ha | [<- | []]]; [exists a; auto |].
      exfalso; exact (no_current _ _ _ b Hnone Hb Hcur (eq_sym E1) (eq_sym E2)).
    + intros (a & Ha & Hx); exists a; rewrite in_app_iff; auto.
Qed.

Lemma entrant_active d b x : In b (db_tournamentBrackets d) -> isCurrent b = true -> entered d b x -> activeEntrant x d = true.
Proof.
  intros Hb Hc (e & He & E1 & E2); apply existsb_exists; exists e; split; [exact He |].
  rewrite E2, bool_decide_eq_true_2 by reflexivity; apply existsb_exists; exists b; split; [exact Hb |].
  rewrite E1, bool_decide_eq_true_2 by reflexivity; exact Hc.
Qed.

Lemma rosterOk_updateAthlete t id i a now d r d' : updateAthlete t id i a now d = Ok (r, d') -> wf d -> rosterOk d -> rosterOk d'.
Proof.
  intros H Hw Hok; destruct (updateAthlete_ok _ _ _ _ _ _ _ _ H Hw) as (before & assigned & name & y & Hin & Ei & Et & _ & Ea & Hel & Has & Ht & _).
  set (g := updatedAthlete i assigned name y now) in *.
  assert (Hone : forall z, In z (db_tournamentAthletes d) -> (at_id z === id) = true -> z = before)
    by (intros z Hz Ez; to_prop; apply (athletes_unique d); auto; congruence).
  assert (Hkeep : at_id (g before) = at_id before /\ at_tournamentId (g before) = at_tournamentId before) by auto.
  assert (Hact : at_isActive (g before) = default (at_isActive before) (ud_isActive i)) by reflexivity.
  assert (Hcls : at_weightClassId (g before) = match assigned with Some x => x.1 | None => at_weightClassId before end) by reflexivity.
  apply (rosterOk_intro d); [exact Hok | apply (touches_weaken _ _ _ _ Ht); set_solver | |].
  - intros z Hz; apply (assigned_ext d); [exact (Ht tournamentWeightClasses ltac:(table_notin)) | exact (Ht tournamentOrganizations ltac:(table_notin)) |].
    rewrite Ea in Hz; apply in_map_where in Hz as (u & Hu & ->); destruct (at_id u === id) eqn:Eu; [| apply (ro_assigned d Hok u Hu)].
    rewrite (Hone u Hu Eu); destruct (ro_assigned d Hok before Hin) as [Hc Ho]; destruct assigned as [[w o] |].
    + destruct Has as [_ Has]; destruct (assignments_ok _ _ _ _ _ _ _ Has) as (_ & _ & Hwc & _ & Hog); cbn [fst snd] in *; rewrite <- Et in Hwc, Hog.
      split; [intros _; exact Hwc | exact Hog].
    + destruct Has as [_ Hre]; split; [| exact Ho]; intros Hna; apply Hc; rewrite Hact in Hna; unfold restoring in Hre.
      destruct (ud_isActive i) as [[] |]; cbn in Hna; [| discriminate | exact Hna].
      rewrite bool_decide_eq_true_2 in Hre by reflexivity; destruct (at_isActive before); [reflexivity | discriminate].
  - intros b x Hb Hcur; destruct (changesEligibility i before || restoring i before) eqn:Ec.
    + (* the athlete was no entrant of the bracket and does not become a competitor of its class *)
      assert (Hno : ~ competes d b id).
      { intros Hx; assert (Hen : activeEntrant id d = true) by (apply (entrant_active d b); auto; apply (ro_entrants d Hok b Hb Hcur); exact Hx).
        apply orb_true_iff in Ec as [Ec | Ec]; [rewrite (Hel Ec) in Hen; discriminate |].
        destruct Hx as (z & Hz & Ez & Hza & _); rewrite (Hone z Hz) in Hza by (apply bool_decide_eq_true_2, Ez).
        unfold restoring in Ec; rewrite Hza, andb_false_r in Ec; discriminate. }
      assert (Hno' : ~ (at_isActive (g before) = true /\ at_tournamentId (g before) = br_tournamentId b /\ at_weightClassId (g before) = br_weightClassId b)).
      { intros (H1 & H2 & H3); destruct (moving i before || restoring i before) eqn:Em.
        - destruct assigned as [[w o] |]; [| destruct Has as [M1 M2]; rewrite M1, M2 in Em; discriminate].
          destruct Has as [_ Has]; destruct (assignments_ok _ _ _ _ _ _ _ Has) as (_ & _ & _ & Hlock & _).
          apply (no_current _ _ _ b (Hlock eq_refl) Hb Hcur); [rewrite <- H2, <- Et; reflexivity | rewrite <- H3, Hcls; reflexivity].
        - apply orb_false_iff in Em as [Em Er]; rewrite Er, orb_false_r in Ec; unfold changesEligibility in Ec; rewrite Em, orb_false_r in Ec.
          apply andb_true_iff in Ec as [Ec _]; to_prop; rewrite Hact, Ec in H1; discriminate. }
      unfold competes; rewrite Ea; split.
      * intros (z & Hz & Ez & Hz3); apply in_map_where in Hz as (u & Hu & ->); destruct (at_id u === id) eqn:Eu.
        -- exfalso; apply Hno'; rewrite (Hone u Hu Eu) in Hz3; exact Hz3.
        -- exists u; auto.
      * intros (z & Hz & Ez & Hz3); destruct (at_id z === id) eqn:Eu.
        -- exfalso; apply Hno; exists z; to_prop; auto.
        -- exists z; split; [apply in_map_where; exists z; rewrite Eu; auto | auto].
    + apply orb_false_iff in Ec as [Ec Er]; apply orb_false_iff in Ec as [Eoff Em].
      apply (competes_map _ _ _ _ _ _ Ea); intros z Hz Ez; rewrite (Hone z Hz Ez); split_and!; try apply Hkeep.
      * rewrite Hact; unfold restoring in Er; destruct (ud_isActive i) as [[] |]; cbn; [| | reflexivity].
        -- rewrite bool_decide_eq_true_2 in Er by reflexivity; destruct (at_isActive before); [reflexivity | discriminate].
        -- rewrite bool_decide_eq_true_2 in Eoff by reflexivity; destruct (at_isActive before); [discriminate | reflexivity].
      * rewrite Hcls; destruct assigned as [ax |]; [| reflexivity]; destruct Has as [-> _]; cbn.
        unfold moving in Em; destruct (ud_weightClassId i); [| reflexivity]; cbn; to_prop; congruence.
Qed.

(** ** Properties *)

Lemma chunks {A} (s n : nat) : forall l : list A, (length l <= n * s)%nat ->
  concat (map (fun i => firstn s (skipn (i * s) l)) (seq 0 n)) = l.
Proof.
  induction n as [| n IH]; intros l Hl; [destruct l; [reflexivity | cbn in Hl; lia] |].
  cbn [seq map concat]; rewrite <- seq_shift, map_map; cbn [skipn Nat.mul].
  rewrite (map_ext _ (fun i => firstn s (skipn (i * s) (skipn s l)))).
  - rewrite IH; [apply firstn_skipn | rewrite length_skipn; cbn in Hl; lia].
  - intros i; f_equal; rewrite skipn_skipn; f_equal; lia.
Qed.

#[export] Instance eta_AthleteListQueryDto : Eta AthleteListQueryDto := fun q => mkAthleteList (q_page q) (q_pageSize q) (q_search q)
  (q_weightClassId q) (q_organizationId q) (q_noOrganization q) (q_isActive q).

(** The pages of the athlete list are exactly the listed athletes, in order and none twice: page
    after page of any size from 1 to 100 they add up to the whole list, whose length and number of
    pages every page states, and listing never writes. *)
Theorem pages_cover byName contains t q size d rows (Hs : 1 <= size <= 100)
    (Hq : q_noOrganization q = Some true -> q_organizationId q = None)
    (Hr : rows = byName (List.filter (listed contains t q) (db_tournamentAthletes d)))
    (Hlen : length rows = length (List.filter (listed contains t q) (db_tournamentAthletes d))) :
  exists items : nat -> list AthleteRow, exists totalPages : nat,
  (forall i, listAthletes byName contains t (q <| q_page := Some (Z.of_nat i + 1) |> <| q_pageSize := Some size |>) d =
     Ok (items i, Z.of_nat i + 1, size, Z.of_nat (length rows), Z.of_nat totalPages, d)) /\
  concat (map items (seq 0 totalPages)) = rows /\ (forall i, (totalPages <= i)%nat -> items i = []) /\
  forall i, (length (items i) <= Z.to_nat size)%nat.
Proof.
  exists (fun i => firstn (Z.to_nat size) (skipn (i * Z.to_nat size) rows)), (Z.to_nat ((Z.of_nat (length rows) + size - 1) / size)).
  assert (Hceil : (length rows <= Z.to_nat ((Z.of_nat (length rows) + size - 1) / size) * Z.to_nat size)%nat).
  { apply Nat2Z.inj_le; rewrite Nat2Z.inj_mul, !Z2Nat.id by (try apply Z.div_pos; lia); Z.div_mod_to_equations; nia. }
  split_and!.
  - intros i; unfold listAthletes; cbn [q_page q_pageSize q_noOrganization q_organizationId default field_upd].
    rewrite (bind_step _ _ _ tt d) by (unfold throw_if; cbn; rewrite !(proj2 (Z.ltb_ge _ _)) by lia; reflexivity).
    rewrite (bind_step _ _ _ tt d)
      by (unfold throw_if; cbn; destruct (q_noOrganization q === Some true) eqn:E; [to_prop; rewrite (Hq E) |]; reflexivity).
    rewrite (bind_step _ _ _ rows d) by (rewrite Hr; reflexivity).
    rewrite (bind_step _ _ _ (Z.of_nat (length rows)) d) by (rewrite Hlen; reflexivity).
    cbn [q_page q_pageSize from_option]; cbv [mret tx_ret id]; rewrite Z2Nat.id by (apply Z.div_pos; lia).
    replace (Z.to_nat ((Z.of_nat i + 1 - 1) * size)) with (i * Z.to_nat size)%nat by nia; reflexivity.
  - apply chunks, Hceil.
  - intros i Hi; rewrite skipn_all2; [apply firstn_nil |]; nia.
  - intros i; apply firstn_le_length.
Qed.

(** ** Witness: the athletes of a class, in the order of their ids *)

Definition everyAthlete : AthleteListQueryDto := mkAthleteList None None None (Some 5%N) None None (Some true).
Definition firstPage : result error (list AthleteRow * Z * Z * Z * Z * DB) := Eval vm_compute in
  listAthletes (sort_by (fun a => Z.of_N (at_id a))) (fun s n => includes s n) 1
    (everyAthlete <| q_page := Some 1 |> <| q_pageSize := Some 2 |>) drawDB.
Lemma pages_cover_witness : exists items totalPages,
  listAthletes (sort_by (fun a => Z.of_N (at_id a))) (fun s n => includes s n) 1
    (everyAthlete <| q_page := Some 1 |> <| q_pageSize := Some 2 |>) drawDB = Ok (items, 1, 2, 3, totalPages, drawDB) /\
  length items = 2%nat /\ totalPages = 2.
Proof.
  destruct (pages_cover (sort_by (fun a => Z.of_N (at_id a))) (fun s n => includes s n) 1 everyAthlete 2 drawDB _
    ltac:(lia) ltac:(discriminate) eq_refl ltac:(vm_compute; reflexivity)) as (items & n & Hp & _).
  specialize (Hp 0%nat); exists (items 0%nat), (Z.of_nat n).
  assert (E : listAthletes (sort_by (fun a => Z.of_N (at_id a))) (fun s n => includes s n) 1
    (everyAthlete <| q_page := Some (Z.of_nat 0 + 1) |> <| q_pageSize := Some 2 |>) drawDB = firstPage) by (vm_compute; reflexivity).
  rewrite Hp in E; unfold firstPage in E; injection E as E1 E2; rewrite E1, E2; split; [vm_compute; reflexivity | split; reflexivity].
Defined.
