(* ===== verification/AthleteImport.v ===== *)
(** * Athlete import

    tournament-roster/athlete-import.service.ts: a list of rows is validated against the roster and
    imported row by row, each under a savepoint, once per idempotency key. The Unicode normalization
    (NFKC and lower case), SHA-256 of the rows and the messages of driver errors are parameters. *)
From stdpp Require Import pretty relations.
From S2P Require Import Prelude Schema Database Rules Scenario BracketGenerator BracketTokens BracketDraws BracketStorage BracketMatches Calendar Pricing Entitlements MediaDeletion Retention Accounts Roster.

(** [AthleteImportRowDto] *)
Record ImportRow : Type := mkImportRow {
  ar_rowNumber : Z; ar_name : string; ar_birthYear : Z; ar_weightClass : string; ar_organizationName : string;
  ar_organizationLocation : string }.
#[export] Instance ImportRow_eq_dec : EqDecision ImportRow. Proof. solve_decision. Defined.

Definition NO_ORGANIZATION_NAME : string := "Không đơn vị".
Definition nul : string := String (Ascii.ascii_of_nat 0) EmptyString.

(** [organizationName] *)
Definition organizationName (value : string) : string := if trim value === EmptyString then NO_ORGANIZATION_NAME else trim value.

(** [assertUniqueRowNumbers]: the numbers that occur again, in the order of their second occurrence. *)
Fixpoint duplicateRowNumbers (seen duplicates : list Z) (rows : list ImportRow) : list Z :=
  match rows with
  | [] => duplicates
  | r :: rows =>
      duplicateRowNumbers (ar_rowNumber r :: seen)
        (if bool_decide (ar_rowNumber r ∈ seen) && negb (bool_decide (ar_rowNumber r ∈ duplicates))
         then duplicates ++ [ar_rowNumber r] else duplicates) rows
  end.
Definition assertUniqueRowNumbers (rows : list ImportRow) : DbM unit :=
  let duplicates := duplicateRowNumbers [] [] rows in
  throw_if (negb (bool_decide (duplicates = [])))
    (BadRequest ("Số dòng bảng tính bị trùng: " ++ String.concat ", " (map pretty duplicates))%string).

Section Importing.
Context (nfkcLower : string -> string) (sha256 : list ImportRow -> string) (driverMessage : error -> string).

(** [normalized] *)
Definition importNormalized (value : string) : string := nfkcLower (trim value).

(** ** Validation *)

Definition unitMatches (row : ImportRow) (o : OrganizationRow) : bool :=
  (og_normalizedName o === importNormalized (organizationName (ar_organizationName row))) &&
  (og_normalizedLocation o === importNormalized (ar_organizationLocation row)).

Definition unitKey (row : ImportRow) : string :=
  (importNormalized (organizationName (ar_organizationName row)) ++ nul ++ importNormalized (ar_organizationLocation row))%string.
Definition athleteKey (row : ImportRow) : string :=
  (importNormalized (ar_name row) ++ nul ++ pretty (ar_birthYear row) ++ nul ++ unitKey row)%string.

(** The weight classes, units and brackets the validation reads. *)
Definition importWeights (t : uuid) (d : DB) : list WeightClassRow :=
  List.filter (fun w => (wc_tournamentId w === t) && wc_isActive w) (db_tournamentWeightClasses d).
Definition importWeight (t : uuid) (row : ImportRow) (d : DB) : option WeightClassRow :=
  find_first (fun w => wc_normalizedName w === importNormalized (ar_weightClass row)) (importWeights t d).
Definition matchingUnit (t : uuid) (row : ImportRow) (d : DB) : option OrganizationRow :=
  find_first (fun o => (og_tournamentId o === t) && unitMatches row o) (db_tournamentOrganizations d).

(** The same athlete is registered with the same unit. *)
Definition registered (t : uuid) (row : ImportRow) (d : DB) (a : AthleteRow) : bool :=
  (at_tournamentId a === t) && at_isActive a && (importNormalized (at_name a) === importNormalized (ar_name row)) &&
  (at_birthYear a === ar_birthYear row) &&
  match organizationOf d a with Some o => unitMatches row o | None => false end.

Definition optionally (b : bool) (message : string) : list string := if b then [message] else [].

Definition unitErrorsOf (row : ImportRow) : list string :=
  optionally ((trim (ar_organizationLocation row) === EmptyString) &&
              (organizationName (ar_organizationName row) !== NO_ORGANIZATION_NAME))
    "Địa phương của đơn vị tham gia là bắt buộc".

Definition athleteErrorsOf (t : uuid) (seen : list string) (row : ImportRow) (now : timestamp) (d : DB) : list string :=
  let weight := importWeight t row d in
  optionally ((trim (ar_name row) === EmptyString) || (255 <? utf16Length (trim (ar_name row)))) "Họ và tên vận động viên là bắt buộc" ++
  optionally ((ar_birthYear row <? 1900) || (getUTCFullYear now <? ar_birthYear row))
    ("Năm sinh phải trong khoảng từ 1900 đến " ++ pretty (getUTCFullYear now))%string ++
  optionally (negb (set_ weight)) "Không tìm thấy hạng cân hoặc hạng cân đã ngừng hoạt động" ++
  optionally (match weight with
              | Some w => existsb (currentBracket t (wc_id w)) (db_tournamentBrackets d)
              | None => false end) "Hạng cân đã có nhánh đấu hiện tại" ++
  optionally (bool_decide (athleteKey row ∈ seen)) "Trùng dòng vận động viên trong tệp nhập" ++
  optionally (existsb (registered t row d) (db_tournamentAthletes d)) "Vận động viên đã đăng ký với đơn vị tham gia này".

(** One row of [validate]. *)
Definition validateRow (t : uuid) (seen : list string) (inputIndex : nat) (row : ImportRow) (now : timestamp) (d : DB) : ImportResult :=
  let unitErrors := unitErrorsOf row in
  let athleteErrors := athleteErrorsOf t seen row now d in
  let errors := unitErrors ++ athleteErrors in
  mkImportResult inputIndex (ar_rowNumber row) (if bool_decide (errors = []) then IMPORT_ELIGIBLE else IMPORT_INVALID) errors
    (organizationName (ar_organizationName row)) (ar_organizationLocation row)
    (if negb (bool_decide (unitErrors = [])) then UNIT_INVALID
     else match matchingUnit t row d with
          | Some o => if og_isActive o then UNIT_EXISTING else UNIT_RESTORED
          | None => UNIT_PENDING end) unitErrors
    (ar_name row) (if bool_decide (athleteErrors = []) then ATHLETE_PENDING else ATHLETE_INVALID) athleteErrors.

(** [validate]: the rows from [inputIndex] on, with the keys of the rows before. *)
Fixpoint validateFrom (t : uuid) (seen : list string) (inputIndex : nat) (rows : list ImportRow) (now : timestamp) (d : DB) :
    list ImportResult :=
  match rows with
  | [] => []
  | row :: rows => validateRow t seen inputIndex row now d :: validateFrom t (athleteKey row :: seen) (S inputIndex) rows now d
  end.
Definition validate (t : uuid) (rows : list ImportRow) (now : timestamp) (d : DB) : list ImportResult := validateFrom t [] 0 rows now d.

(** [AthleteImportService.preview] *)
Definition previewImport (tournamentId : uuid) (rows : list ImportRow) (now : timestamp) : DbM (list ImportRow * list ImportResult) :=
  assertUniqueRowNumbers rows;;
  results ← gets (validate tournamentId rows now);
  mret (rows, results).

(** ** Import *)

Definition unitView (o : OrganizationRow) : json :=
  JObj [("id", JId (og_id o)); ("isActive", JBool (og_isActive o)); ("name", JStr (og_name o)); ("location", jopt JStr (og_location o))]%string.

(** The unit of a row: found, restored or created. *)
Definition importUnit (tournamentId : uuid) (row : ImportRow) (actorId : uuid) (now : timestamp) : DbM (OrganizationRow * UnitStatus) :=
  found ← gets (matchingUnit tournamentId row);
  match found with
  | None =>
      unit ← create tournamentOrganizations (fun id => mkOrganizationRow id tournamentId (organizationName (ar_organizationName row))
        true now (importNormalized (organizationName (ar_organizationName row))) (importNormalized (ar_organizationLocation row))
        (trimmedOr (Some (ar_organizationLocation row))) None None None);
      rosterAudit actorId "ORGANIZATION_CREATED" (og_id unit) JNull (unitView unit);;
      mret (unit, UNIT_CREATED)
  | Some before =>
      if negb (og_isActive before) then
        unit ← update tournamentOrganizations (fun o => og_id o === og_id before)
          (fun o => o <| og_isActive := true |> <| og_deactivatedAt := None |> <| og_updatedAt := now |>);
        rosterAudit actorId "ORGANIZATION_RESTORED" (og_id unit) (unitView before) (unitView unit);;
        mret (unit, UNIT_RESTORED)
      else mret (before, UNIT_EXISTING)
  end.

(** [importRow]: the result with what the import sets in it *)
Definition importRow (tournamentId : uuid) (row : ImportRow) (actorId : uuid) (result : ImportResult) (now : timestamp) :
    DbM ImportResult :=
  u ← importUnit tournamentId row actorId now;
  weight ← find_one tournamentWeightClasses (fun w => (wc_tournamentId w === tournamentId) &&
    (wc_normalizedName w === importNormalized (ar_weightClass row)) && wc_isActive w);
  weight ← or_throw weight (InternalError "Hạng cân không còn hoạt động");
  bracket ← find_one tournamentBrackets (currentBracket tournamentId (wc_id weight));
  throw_if (set_ bracket) (InternalError "Hạng cân đã có nhánh đấu hiện tại");;
  athlete ← create tournamentAthletes (fun id => mkAthleteRow id tournamentId (Some (og_id u.1)) (wc_id weight) (trim (ar_name row))
    (ar_birthYear row) None false true now None None);
  _ ← create auditLogs (fun id => mkAuditRow id None (Some actorId) None None ADMIN_ACTION
    (JObj [("action", JStr "ATHLETE_CREATED"); ("targetId", JId (at_id athlete)); ("before", JNull);
           ("after", JObj [("id", JId (at_id athlete))]); ("rowNumber", JNum (ir_rowNumber result))]%string));
  mret (result <| ir_status := IMPORT_CREATED |> <| ir_unitStatus := u.2 |> <| ir_athleteStatus := ATHLETE_CREATED |>).

(** [withSavepoint]: the work, or its error with the store as it was before it *)
Definition withSavepoint {A} (work : DbM A) : DbM (A + error) := fun d =>
  match work d with
  | Ok (a, d') => Ok (inl a, d')
  | Err e => Ok (inr e, d)
  end.

(** [errorMessage] *)
Definition errorMessage (e : error) : string := match e with InternalError m => m | e => driverMessage e end.

Definition failedResult (message : string) (r : ImportResult) : ImportResult :=
  r <| ir_status := IMPORT_FAILED |> <| ir_errors := ir_errors r ++ [message] |> <| ir_unitStatus := UNIT_INVALID |>
    <| ir_unitErrors := ir_unitErrors r ++ [message] |> <| ir_athleteStatus := ATHLETE_FAILED |>
    <| ir_athleteErrors := ir_athleteErrors r ++ [message] |>.

(** The loop of [confirm] over the results. *)
Fixpoint importAll (tournamentId : uuid) (rows : list ImportRow) (actorId : uuid) (now : timestamp) (results : list ImportResult) :
    DbM (list ImportResult) :=
  match results with
  | [] => mret []
  | r :: results =>
      r' ← (if ir_status r !== IMPORT_ELIGIBLE then mret r else
            outcome ← withSavepoint
              (row ← or_throw (rows !! ir_inputIndex r) (InternalError "TypeError");
               importRow tournamentId row actorId r now);
            mret match outcome with inl r' => r' | inr e => failedResult (errorMessage e) r end);
      rest ← importAll tournamentId rows actorId now results;
      mret (r' :: rest)
  end.

(** [AthleteImportService.confirm] *)
Definition confirmImport (tournamentId : uuid) (rows : list ImportRow) (actorId : uuid) (idempotencyKey : string) (now : timestamp) :
    DbM (list ImportResult) :=
  assertUniqueRowNumbers rows;;
  let key := trim idempotencyKey in
  throw_if (key === EmptyString) (BadRequest "Cần có khóa chống trùng lặp");;
  let fingerprint := sha256 rows in
  lockTournament tournamentId;;
  prior ← find_one athleteImportConfirmations (fun c => ic_key c === key);
  match prior with
  | Some p =>
      throw_if ((ic_tournamentId p !== tournamentId) || (ic_actorId p !== actorId) || (ic_fingerprint p !== fingerprint))
        (Conflict "Khóa chống trùng lặp đã được dùng cho một lần nhập khác");;
      mret (ic_results p)
  | None =>
      results ← gets (validate tournamentId rows now);
      results ← importAll tournamentId rows actorId now results;
      _ ← create athleteImportConfirmations (fun id => mkImportConfirmationRow id tournamentId actorId key fingerprint results);
      mret results
  end.
End Importing.

(** ** Facts *)

(** Units are only added and restored. *)
Definition unitsKept (d d' : DB) : Prop := forall g, In g (db_tournamentOrganizations d) ->
  exists g', In g' (db_tournamentOrganizations d') /\ og_id g' = og_id g /\ og_tournamentId g' = og_tournamentId g /\
    og_normalizedName g' = og_normalizedName g /\ og_normalizedLocation g' = og_normalizedLocation g /\
    (og_isActive g = true -> og_isActive g' = true).
#[export] Instance unitsKept_preorder : PreOrder unitsKept.
Proof.
  split; [intros d g Hg; exists g; auto 10 |]; intros d1 d2 d3 H1 H2 g Hg.
  destruct (H1 g Hg) as (g1 & Hg1 & E1 & E2 & E3 & E4 & E5); destruct (H2 g1 Hg1) as (g2 & Hg2 & F1 & F2 & F3 & F4 & F5).
  exists g2; split_and!; try congruence; auto.
Qed.

Lemma audit_runs mk d : sound d -> (forall n, al_id (mk n) = n) ->
  exists d', create auditLogs mk d = Ok (mk (db_nextId d), d') /\ sound d' /\ touches [auditLogs] d d'.
Proof.
  intros Hs Hid; destruct (create_sound auditLogs mk d Hs) as (d' & H & _ & Hs'); [intros n; cbn; rewrite Hid; reflexivity | reflexivity | reflexivity |].
  exists d'; split_and!; auto; exact (touches_create auditLogs [auditLogs] mk ltac:(table_in) _ _ _ H).
Qed.

Lemma rosterAudit_runs a action target b c d : sound d -> exists d', rosterAudit a action target b c d = Ok (tt, d') /\ sound d' /\ touches [auditLogs] d d'.
Proof.
  intros Hs; unfold rosterAudit; edestruct (audit_runs (fun id => mkAuditRow id None (Some a) None None ADMIN_ACTION
    (JObj [("action", JStr action); ("targetId", JId target); ("before", b); ("after", c)]%string)) d Hs ltac:(reflexivity)) as (d' & H & Hs' & Ht).
  exists d'; split_and!; auto; rewrite (bind_step _ _ _ _ _ H); reflexivity.
Qed.

Section Facts.
Context (nfkcLower : string -> string) (sha256 : list ImportRow -> string) (driverMessage : error -> string).
Notation unitMatches := (unitMatches nfkcLower).
Notation importNormalized := (importNormalized nfkcLower).
Notation athleteKey := (athleteKey nfkcLower).
Notation validate := (validate nfkcLower).
Notation validateFrom := (validateFrom nfkcLower).
Notation matchingUnit := (matchingUnit nfkcLower).
Notation confirmImport := (confirmImport nfkcLower sha256 driverMessage).

(** The unit of a row always comes to be an active one, and the roster stays in order. *)
Lemma importUnit_runs t row a now d : sound d -> exists u st d', importUnit nfkcLower t row a now d = Ok ((u, st), d') /\ sound d' /\
  touches [tournamentOrganizations; auditLogs] d d' /\ In u (db_tournamentOrganizations d') /\ og_tournamentId u = t /\
  og_isActive u = true /\ unitMatches row u = true /\ st <> UNIT_PENDING /\ st <> UNIT_INVALID /\ unitsKept d d' /\ (rosterOk d -> rosterOk d').
Proof.
  intros Hs; unfold importUnit; rewrite (bind_step _ _ _ (matchingUnit t row d) d) by reflexivity.
  destruct (matchingUnit t row d) as [before |] eqn:Em; unfold AthleteImport.matchingUnit in Em.
  - apply find_first_some in Em as [Hin Hm]; to_prop; destruct (og_isActive before) eqn:Ea; cbn [negb].
    + exists before, UNIT_EXISTING, d; split_and!; auto; try discriminate; reflexivity.
    + set (g := fun o : OrganizationRow => o <| og_isActive := true |> <| og_deactivatedAt := None |> <| og_updatedAt := now |>).
      assert (Hfind : find_first (fun o => og_id o === og_id before) (get tournamentOrganizations d) = Some before).
      { apply (find_unique tournamentOrganizations d _ before (og_id before)); auto; [apply Hs | apply bool_decide_eq_true_2; reflexivity |].
        intros y Hy; to_prop; cbn; f_equal; assumption. }
      destruct (update_sound tournamentOrganizations (fun o => og_id o === og_id before) g d before Hs Hfind) as (d1 & H1 & E1 & Hs1);
        [reflexivity | | reflexivity |].
      { cbn; unfold unique_by; f_equal; apply unique_by_map_where; reflexivity. }
      rewrite (bind_step _ _ _ _ _ H1).
      destruct (rosterAudit_runs a "ORGANIZATION_RESTORED" (og_id (g before)) (unitView before) (unitView (g before)) d1 Hs1) as (d2 & H2 & Hs2 & Ht2).
      rewrite (bind_step _ _ _ _ _ H2); exists (g before), UNIT_RESTORED, d2.
      assert (Eo : db_tournamentOrganizations d2 = map_where (fun o => og_id o === og_id before) g (db_tournamentOrganizations d)).
      { change db_tournamentOrganizations with (get tournamentOrganizations); rewrite (Ht2 tournamentOrganizations ltac:(table_notin)), E1, get_put_same; reflexivity. }
      assert (Ht : touches [tournamentOrganizations; auditLogs] d d2).
      { intros tb Hn; rewrite (Ht2 tb) by set_solver; rewrite E1; apply get_put_other; set_solver. }
      split_and!; auto; try discriminate.
      * rewrite Eo; apply in_map_where; exists before; rewrite bool_decide_eq_true_2 by reflexivity; auto.
      * intros o Ho; exists (if og_id o === og_id before then g o else o); split; [rewrite Eo; apply in_map_where; eauto |].
        destruct (og_id o === og_id before); auto 10.
      * apply (rosterOk_organizations t (og_id before) false now g).
        split; auto; [| intros o Ho Eq; assert (o = before) as -> by (apply (organizations_unique d); auto; apply Hs); assumption | | intros _; exact Hs2].
        -- exact (Ht tournamentAthletes ltac:(table_notin)).
        -- intros tb Hn; apply Ht; set_solver.
  - set (mk := fun id => mkOrganizationRow id t (organizationName (ar_organizationName row)) true now
      (importNormalized (organizationName (ar_organizationName row))) (importNormalized (ar_organizationLocation row))
      (trimmedOr (Some (ar_organizationLocation row))) None None None).
    destruct (create_sound tournamentOrganizations mk d Hs) as (d1 & H1 & E1 & Hs1); [reflexivity | reflexivity | |].
    { cbn; apply unique_by_snoc; [pose proof (proj2 (proj2 (proj1 (table_ok_true _ _) (proj1 Hs tournamentOrganizations)))) as Hix; exact Hix |].
      intros o k Ho [= <-] [= E2 E3 E4]; rewrite find_first_none in Em; specialize (Em o Ho); cbn beta in Em.
      unfold AthleteImport.unitMatches in Em; rewrite <- E2, <- E3, <- E4, !bool_decide_eq_true_2 in Em by reflexivity; discriminate. }
    rewrite (bind_step _ _ _ _ _ H1).
    destruct (rosterAudit_runs a "ORGANIZATION_CREATED" (og_id (mk (db_nextId d))) JNull (unitView (mk (db_nextId d))) d1 Hs1) as (d2 & H2 & Hs2 & Ht2).
    rewrite (bind_step _ _ _ _ _ H2); exists (mk (db_nextId d)), UNIT_CREATED, d2.
    assert (Eo : db_tournamentOrganizations d2 = db_tournamentOrganizations d ++ [mk (db_nextId d)]).
    { change db_tournamentOrganizations with (get tournamentOrganizations); rewrite (Ht2 tournamentOrganizations ltac:(table_notin)), E1, get_put_same; reflexivity. }
    assert (Ht : touches [tournamentOrganizations; auditLogs] d d2).
    { intros tb Hn; rewrite (Ht2 tb) by set_solver; rewrite E1, get_put_other, get_nextId by set_solver; reflexivity. }
    split_and!; auto; try discriminate.
    + rewrite Eo; apply in_app_iff; right; left; reflexivity.
    + unfold AthleteImport.unitMatches; cbn; rewrite !bool_decide_eq_true_2 by reflexivity; reflexivity.
    + intros o Ho; exists o; rewrite Eo, in_app_iff; auto 10.
    + apply (rosterOk_organization_added _ _ _ Eo Ht).
Qed.

(** The athlete a row is imported as. *)
Definition importedAs (t : uuid) (d : DB) (row : ImportRow) (a : AthleteRow) : Prop :=
  at_name a = trim (ar_name row) /\ at_birthYear a = ar_birthYear row /\ at_tournamentId a = t /\ at_isActive a = true /\
  (exists w, In w (importWeights t d) /\ wc_normalizedName w = importNormalized (ar_weightClass row) /\ at_weightClassId a = wc_id w) /\
  (exists o, In o (db_tournamentOrganizations d) /\ unitMatches row o = true /\ og_tournamentId o = t /\ og_isActive o = true /\ at_organizationId a = Some (og_id o)).

Lemma importedAs_kept t d d' row a : get tournamentWeightClasses d' = get tournamentWeightClasses d -> unitsKept d d' ->
  importedAs t d row a -> importedAs t d' row a.
Proof.
  intros E Hu (H1 & H2 & H3 & H4 & (w & Hw) & (o & Ho & Hm & Ht & Ha & Hid)); split_and!; auto.
  - exists w; unfold importWeights in *; change (db_tournamentWeightClasses d') with (get tournamentWeightClasses d'); rewrite E; exact Hw.
  - destruct (Hu o Ho) as (o' & Ho' & E1 & E2 & E3 & E4 & E5); exists o'; unfold AthleteImport.unitMatches in *; rewrite E1, E2, E3, E4; split_and!; auto.
Qed.

(** The result of a row after its import. *)
Definition importedResult (st : UnitStatus) (r : ImportResult) : ImportResult :=
  r <| ir_status := IMPORT_CREATED |> <| ir_unitStatus := st |> <| ir_athleteStatus := ATHLETE_CREATED |>.

Lemma importRow_runs t row a r now d w : sound d -> importWeight nfkcLower t row d = Some w ->
  existsb (currentBracket t (wc_id w)) (db_tournamentBrackets d) = false ->
  exists st x d', importRow nfkcLower t row a r now d = Ok (importedResult st r, d') /\ st <> UNIT_PENDING /\ st <> UNIT_INVALID /\ sound d' /\
  touches [tournamentOrganizations; tournamentAthletes; auditLogs] d d' /\ unitsKept d d' /\
  db_tournamentAthletes d' = db_tournamentAthletes d ++ [x] /\ importedAs t d' row x /\ (rosterOk d -> rosterOk d').
Proof.
  intros Hs Hw Hb; destruct (importUnit_runs t row a now d Hs) as (u & st & d1 & H1 & Hs1 & Ht1 & Hu & Eu & Hua & Hum & Hn1 & Hn2 & Hk & Hok1).
  unfold importRow; rewrite (bind_step _ _ _ _ _ H1).
  apply find_first_some in Hw as Hw'; destruct Hw' as [Hwin Hwn]; apply filter_In in Hwin as [Hwin Hwa]; apply andb_true_iff in Hwa as [Hwt Hwa]; to_prop.
  assert (Ew : get tournamentWeightClasses d1 = get tournamentWeightClasses d) by exact (Ht1 tournamentWeightClasses ltac:(table_notin)).
  assert (Hfind : find_first (fun w => (wc_tournamentId w === t) && (wc_normalizedName w === importNormalized (ar_weightClass row)) && wc_isActive w)
    (get tournamentWeightClasses d1) = Some w).
  { rewrite Ew; unfold importWeight, importWeights in Hw; change (get tournamentWeightClasses d) with (db_tournamentWeightClasses d).
    revert Hw; generalize (db_tournamentWeightClasses d); intros l; induction l as [| y l IH]; cbn [List.filter find_first]; [discriminate |].
    destruct (wc_tournamentId y === t), (wc_isActive y); cbn [andb find_first]; rewrite ?andb_false_r, ?andb_true_r; try exact IH.
    destruct (_ === _); [auto | exact IH]. }
  rewrite (bind_step _ _ _ (Some w) d1) by (unfold find_one, gets; f_equal; f_equal; exact Hfind).
  rewrite (bind_step _ _ _ w d1) by reflexivity.
  assert (Hnob : find_first (currentBracket t (wc_id w)) (get tournamentBrackets d1) = None).
  { rewrite (Ht1 tournamentBrackets ltac:(table_notin)); apply find_first_none; exact (existsb_none _ _ Hb). }
  rewrite (bind_step _ _ _ None d1) by (unfold find_one, gets; f_equal; f_equal; exact Hnob).
  rewrite (bind_step _ _ _ tt d1) by reflexivity.
  set (mk := fun id => mkAthleteRow id t (Some (og_id u)) (wc_id w) (trim (ar_name row)) (ar_birthYear row) None false true now None None).
  destruct (create_sound tournamentAthletes mk d1 Hs1) as (d2 & H2 & E2 & Hs2); [reflexivity | reflexivity | reflexivity |].
  rewrite (bind_step _ _ _ _ _ H2).
  match goal with |- context [create auditLogs ?m] => destruct (audit_runs m d2 Hs2 ltac:(reflexivity)) as (d3 & H3 & Hs3 & Ht3) end.
  rewrite (bind_step _ _ _ _ _ H3); exists st, (mk (db_nextId d1)), d3.
  assert (Ht2 : touches [tournamentAthletes; auditLogs] d1 d3).
  { intros tb Hn; rewrite (Ht3 tb) by set_solver; rewrite E2, get_put_other, get_nextId by set_solver; reflexivity. }
  assert (Ea : db_tournamentAthletes d3 = db_tournamentAthletes d1 ++ [mk (db_nextId d1)]).
  { change db_tournamentAthletes with (get tournamentAthletes); rewrite (Ht3 tournamentAthletes ltac:(table_notin)), E2, get_put_same; reflexivity. }
  assert (Eo : db_tournamentOrganizations d3 = db_tournamentOrganizations d1) by exact (Ht2 tournamentOrganizations ltac:(table_notin)).
  assert (Ew3 : db_tournamentWeightClasses d3 = db_tournamentWeightClasses d) by (etransitivity; [exact (Ht2 tournamentWeightClasses ltac:(table_notin)) | exact Ew]).
  split_and!; auto.
  - intros tb Hn; rewrite (Ht2 tb), (Ht1 tb) by set_solver; reflexivity.
  - etransitivity; [exact Hk |]; unfold unitsKept; rewrite Eo; apply (unitsKept_preorder.(PreOrder_Reflexive) d1).
  - rewrite Ea; f_equal; exact (Ht1 tournamentAthletes ltac:(table_notin)).
  - split_and!; try reflexivity.
    + exists w; split_and!; auto; unfold importWeights; rewrite Ew3; apply filter_In; rewrite bool_decide_eq_true_2, Hwa by assumption; auto.
    + exists u; rewrite Eo; auto.
  - intros Hok; apply (rosterOk_athlete_added d1 d3 (mk (db_nextId d1)) _ Ea Ht2 (fun _ H => H)); [auto | | exact Hnob].
    split.
    + intros _; exists w; split.
      * change (db_tournamentWeightClasses d1) with (get tournamentWeightClasses d1); rewrite Ew; exact Hwin.
      * unfold activeWeightClass; cbn; rewrite !bool_decide_eq_true_2, Hwa by auto; reflexivity.
    + intros o [= <-]; exists u; split; [exact Hu |]; unfold organizationOfTournament; cbn; rewrite !bool_decide_eq_true_2, Hua by auto; reflexivity.
Qed.

Lemma eligible_row t seen i row now d : ir_status (validateRow nfkcLower t seen i row now d) = IMPORT_ELIGIBLE ->
  (exists w, importWeight nfkcLower t row d = Some w /\ existsb (currentBracket t (wc_id w)) (db_tournamentBrackets d) = false) /\
  athleteKey row ∉ seen /\ existsb (registered nfkcLower t row d) (db_tournamentAthletes d) = false.
Proof.
  unfold validateRow; cbv zeta; cbn [ir_status].
  destruct (bool_decide (unitErrorsOf row ++ athleteErrorsOf nfkcLower t seen row now d = [])) eqn:E; [| discriminate]; intros _; to_prop.
  apply app_eq_nil in E as [_ E]; unfold athleteErrorsOf in E; cbv zeta in E.
  repeat match goal with H : _ ++ _ = [] |- _ => apply app_eq_nil in H as [? H] end.
  assert (Ho : forall b m, optionally b m = [] -> b = false) by (intros [] m; [discriminate | reflexivity]).
  repeat match goal with H : optionally _ _ = [] |- _ => apply Ho in H end; to_prop.
  destruct (importWeight nfkcLower t row d) as [w |]; [| discriminate]; split; [eauto | auto].
Qed.

(** The rows whose results a validation finds eligible. *)
Definition eligibleRows (rows : list ImportRow) (results : list ImportResult) : list ImportRow :=
  omap (fun v => if ir_status v === IMPORT_ELIGIBLE then rows !! ir_inputIndex v else None) results.

Definition imported (v r : ImportResult) : Prop :=
  if ir_status v === IMPORT_ELIGIBLE
  then exists st, st <> UNIT_PENDING /\ st <> UNIT_INVALID /\ r = importedResult st v else r = v.

Lemma validate_keys t rows now d : forall rest seen k, (forall i, rest !! i = rows !! (k + i)%nat) ->
  NoDup (map athleteKey (eligibleRows rows (validateFrom t seen k rest now d))) /\
  Forall (fun row => athleteKey row ∉ seen /\ existsb (registered nfkcLower t row d) (db_tournamentAthletes d) = false)
    (eligibleRows rows (validateFrom t seen k rest now d)).
Proof.
  induction rest as [| row rest IH]; intros seen k Hk; [split; constructor |].
  destruct (IH (athleteKey row :: seen) (S k)) as [Hn Hf];
    [intros i; replace (S k + i)%nat with (k + S i)%nat by lia; exact (Hk (S i)) |].
  pose proof (Hk 0%nat) as H0; rewrite Nat.add_0_r in H0; cbn [validateFrom]; unfold eligibleRows in *; cbn [omap list_omap].
  change (ir_inputIndex (validateRow nfkcLower t seen k row now d)) with k; rewrite <- H0; cbn [lookup list_lookup].
  assert (Hf' : Forall (fun row => athleteKey row ∉ seen /\ existsb (registered nfkcLower t row d) (db_tournamentAthletes d) = false)
    (omap (fun v => if ir_status v === IMPORT_ELIGIBLE then rows !! ir_inputIndex v else None) (validateFrom t (athleteKey row :: seen) (S k) rest now d))).
  { revert Hf; apply Forall_impl; intros x [Hx Hr]; split; [intros Hin; apply Hx; right; exact Hin | exact Hr]. }
  destruct (ir_status (validateRow nfkcLower t seen k row now d) === IMPORT_ELIGIBLE) eqn:E; [| auto].
  to_prop; destruct (eligible_row _ _ _ _ _ _ E) as (_ & Hkey & Hreg); cbn [map]; split; [| constructor; auto].
  apply list.NoDup_cons; split; [| exact Hn]; rewrite list_elem_of_In; intros Hin; apply in_map_iff in Hin as (x & Ex & Hx).
  rewrite list.Forall_forall in Hf; destruct (Hf x) as [Hx' _]; [apply list_elem_of_In, Hx |]; apply Hx'; rewrite Ex; left.
Qed.

Lemma importWeight_ext t row d d' : get tournamentWeightClasses d' = get tournamentWeightClasses d ->
  importWeight nfkcLower t row d' = importWeight nfkcLower t row d.
Proof. intros E; unfold importWeight, importWeights; change db_tournamentWeightClasses with (get tournamentWeightClasses); rewrite E; reflexivity. Qed.

Lemma importAll_runs t rows a now d0 : forall rest seen k d, (forall i, rest !! i = rows !! (k + i)%nat) -> sound d ->
  touches [tournamentOrganizations; tournamentAthletes; auditLogs] d0 d ->
  exists results news d', importAll nfkcLower driverMessage t rows a now (validateFrom t seen k rest now d0) d = Ok (results, d') /\
  Forall2 imported (validateFrom t seen k rest now d0) results /\
  sound d' /\ touches [tournamentOrganizations; tournamentAthletes; auditLogs] d d' /\ unitsKept d d' /\
  db_tournamentAthletes d' = db_tournamentAthletes d ++ news /\
  Forall2 (importedAs t d') (eligibleRows rows (validateFrom t seen k rest now d0)) news /\ (rosterOk d -> rosterOk d').
Proof.
  induction rest as [| row rest IH]; intros seen k d Hk Hs Ht0.
  { exists [], [], d; cbn; rewrite app_nil_r; split_and!; auto; try constructor; try reflexivity. }
  pose proof (Hk 0%nat) as H0; rewrite Nat.add_0_r in H0; cbn [lookup list_lookup] in H0.
  assert (Hk' : forall i, rest !! i = rows !! (S k + i)%nat)
    by (intros i; replace (S k + i)%nat with (k + S i)%nat by lia; exact (Hk (S i))).
  cbn [validateFrom importAll]; set (v := validateRow nfkcLower t seen k row now d0).
  assert (Ev : ir_inputIndex v = k) by reflexivity.
  destruct (ir_status v === IMPORT_ELIGIBLE) eqn:E; cbn [negb].
  - apply bool_decide_eq_true in E as E'; destruct (eligible_row _ _ _ _ _ _ E') as ((w & Hw & Hb) & _ & _).
    destruct (importRow_runs t row a v now d w Hs) as (st & x & d1 & H1 & Hn1 & Hn2 & Hs1 & Ht1 & Hu1 & Ea1 & Hi1 & Hok1).
    { rewrite (importWeight_ext t row d0 d); [exact Hw | exact (Ht0 tournamentWeightClasses ltac:(table_notin))]. }
    { change db_tournamentBrackets with (get tournamentBrackets); rewrite (Ht0 tournamentBrackets ltac:(table_notin)); exact Hb. }
    assert (Ht01 : touches [tournamentOrganizations; tournamentAthletes; auditLogs] d0 d1) by (etransitivity; eassumption).
    destruct (IH (athleteKey row :: seen) (S k) d1 Hk' Hs1 Ht01) as (rs & news & d2 & H2 & Hf2 & Hs2 & Ht2 & Hu2 & Ea2 & Hi2 & Hok2).
    exists (importedResult st v :: rs), (x :: news), d2; split.
    + rewrite (bind_step _ _ _ (importedResult st v) d1); [rewrite (bind_step _ _ _ _ _ H2); reflexivity |].
      rewrite (bind_step _ _ _ (inl (importedResult st v)) d1); [reflexivity |]; unfold withSavepoint.
      rewrite Ev, <- H0, (bind_step _ _ _ row d) by reflexivity; rewrite H1; reflexivity.
    + split_and!; auto.
      * constructor; [unfold imported; rewrite E; eauto | exact Hf2].
      * etransitivity; eassumption.
      * etransitivity; eassumption.
      * rewrite Ea2, Ea1, <- app_assoc; reflexivity.
      * unfold eligibleRows in *; cbn [omap list_omap]; rewrite E, Ev, <- H0; constructor; [| exact Hi2].
        apply (importedAs_kept t d1); auto; exact (Ht2 tournamentWeightClasses ltac:(table_notin)).
  - destruct (IH (athleteKey row :: seen) (S k) d Hk' Hs Ht0) as (rs & news & d2 & H2 & Hf2 & Hs2 & Ht2 & Hu2 & Ea2 & Hi2 & Hok2).
    exists (v :: rs), news, d2; split; [rewrite (bind_step _ _ _ v d) by reflexivity; rewrite (bind_step _ _ _ _ _ H2); reflexivity |].
    split_and!; auto.
    + constructor; [unfold imported; rewrite E; reflexivity | exact Hf2].
    + unfold eligibleRows in *; cbn [omap list_omap]; rewrite E; exact Hi2.
Qed.

(** What a first confirmation does after its checks. *)
Lemma confirm_first t rows a key now d : sound d -> duplicateRowNumbers [] [] rows = [] -> trim key <> EmptyString ->
  lockTournament t d = Ok (tt, d) -> find_first (fun c => ic_key c === trim key) (db_athleteImportConfirmations d) = None ->
  exists results news d', confirmImport t rows a key now d = Ok (results, d') /\ Forall2 imported (validate t rows now d) results /\
  sound d' /\ touches [tournamentOrganizations; tournamentAthletes; auditLogs; athleteImportConfirmations] d d' /\ unitsKept d d' /\
  db_tournamentAthletes d' = db_tournamentAthletes d ++ news /\
  Forall2 (importedAs t d') (eligibleRows rows (validate t rows now d)) news /\
  db_athleteImportConfirmations d' = db_athleteImportConfirmations d ++
    [mkImportConfirmationRow (N.pred (db_nextId d')) t a (trim key) (sha256 rows) results] /\ (rosterOk d -> rosterOk d').
Proof.
  intros Hs Hdup Hkey Hl Hnew.
  destruct (importAll_runs t rows a now d rows [] 0 d (fun i => eq_refl) Hs ltac:(reflexivity)) as (rs & news & d1 & H1 & Hf & Hs1 & Ht1 & Hu1 & Ea1 & Hi1 & Hok1).
  set (mk := fun id => mkImportConfirmationRow id t a (trim key) (sha256 rows) rs).
  assert (Ec : get athleteImportConfirmations d1 = get athleteImportConfirmations d) by exact (Ht1 athleteImportConfirmations ltac:(table_notin)).
  destruct (create_sound athleteImportConfirmations mk d1 Hs1) as (d2 & H2 & E2 & Hs2); [reflexivity | reflexivity | |].
  { rewrite Ec; cbn; apply unique_by_snoc; [exact (proj2 (proj2 (proj1 (table_ok_true _ _) (proj1 Hs athleteImportConfirmations)))) |].
    intros y k Hy [= <-] [= E]; rewrite find_first_none in Hnew; specialize (Hnew y Hy); cbn beta in Hnew; to_prop; congruence. }
  assert (Eo : db_tournamentOrganizations d2 = db_tournamentOrganizations d1) by (rewrite E2; reflexivity).
  assert (Ew : db_tournamentWeightClasses d2 = db_tournamentWeightClasses d1) by (rewrite E2; reflexivity).
  assert (Ht12 : touches [athleteImportConfirmations] d1 d2)
    by exact (touches_create athleteImportConfirmations [athleteImportConfirmations] mk ltac:(table_in) _ _ _ H2).
  assert (Hu12 : unitsKept d1 d2) by (unfold unitsKept; rewrite Eo; apply (unitsKept_preorder.(PreOrder_Reflexive) d1)).
  exists rs, news, d2; split; [| split; [exact Hf |]; split; [exact Hs2 |]].
  - unfold AthleteImport.confirmImport; rewrite (bind_step _ _ _ tt d) by (unfold assertUniqueRowNumbers; rewrite Hdup; reflexivity).
    cbv zeta; rewrite (bind_step _ _ _ tt d) by (unfold throw_if; rewrite bool_decide_eq_false_2 by exact Hkey; reflexivity).
    rewrite (bind_step _ _ _ _ _ Hl).
    rewrite (bind_step _ _ _ None d) by (unfold find_one, gets; f_equal; f_equal; exact Hnew).
    rewrite (bind_step _ _ _ (validate t rows now d) d) by reflexivity.
    rewrite (bind_step _ _ _ _ _ H1), (bind_step _ _ _ _ _ H2); reflexivity.
  - split_and!.
    + intros tb Hn; rewrite (Ht12 tb), (Ht1 tb) by set_solver; reflexivity.
    + etransitivity; eassumption.
    + rewrite <- Ea1; exact (Ht12 tournamentAthletes ltac:(table_notin)).
    + revert Hi1; apply Forall2_impl; intros row x Hx; apply (importedAs_kept t d1); auto; exact Ew.
    + rewrite E2; change (db_athleteImportConfirmations (put athleteImportConfirmations ?l ?x)) with l; rewrite Ec; f_equal; f_equal.
      unfold mk; f_equal; rewrite nextId_put; cbn; lia.
    + intros Hok; apply (rosterOk_intro d1); [auto | apply (touches_weaken _ _ _ _ Ht12); set_solver | |].
      * assert (Ea : db_tournamentAthletes d2 = db_tournamentAthletes d1) by exact (Ht12 tournamentAthletes ltac:(table_notin)); rewrite Ea.
        intros x Hx; apply (assigned_ext d1); auto; apply (ro_assigned d1 (Hok1 Hok)), Hx.
      * intros b x _ _; apply competes_same; exact (Ht12 tournamentAthletes ltac:(table_notin)).
Qed.

(** The two ways a confirmation is answered. *)
Lemma confirmImport_cases t rows a key now d results d' : confirmImport t rows a key now d = Ok (results, d') ->
  duplicateRowNumbers [] [] rows = [] /\ trim key <> EmptyString /\ lockTournament t d = Ok (tt, d) /\
  ((exists p, find_first (fun c => ic_key c === trim key) (db_athleteImportConfirmations d) = Some p /\
      ic_tournamentId p = t /\ ic_actorId p = a /\ ic_fingerprint p = sha256 rows /\ results = ic_results p /\ d' = d) \/
   find_first (fun c => ic_key c === trim key) (db_athleteImportConfirmations d) = None).
Proof.
  intros H; apply bind_ok in H as ([] & d1 & H1 & H); apply throw_if_ok in H1 as [Hdup ->]; cbv zeta in H.
  apply bind_ok in H as ([] & d1 & H1 & H); apply throw_if_ok in H1 as [Hkey ->].
  apply bind_ok in H as ([] & d1 & Hl & H); pose proof (locked _ _ _ _ Hl) as ->.
  apply bind_ok in H as (o & d1 & H1 & H); apply gets_ok in H1 as [-> ->]; to_prop; split_and!; auto.
  change (get athleteImportConfirmations d) with (db_athleteImportConfirmations d) in H.
  destruct (find_first (fun c => ic_key c === trim key) (db_athleteImportConfirmations d)) as [p |] eqn:E; [left; exists p | auto].
  change (find_first (fun c : row_of athleteImportConfirmations => ic_key c === trim key) (db_athleteImportConfirmations d)) with
    (find_first (fun c => ic_key c === trim key) (db_athleteImportConfirmations d)) in H; rewrite E in H.
  apply bind_ok in H as ([] & d1 & H1 & H); apply throw_if_ok in H1 as [H1 ->]; apply ret_ok in H as [<- <-].
  to_prop; repeat match goal with H : negb _ = false |- _ => apply negb_false_iff, bool_decide_eq_true in H end; auto 10.
Qed.

(** ** Properties *)

(** C35: A first confirmation of an import on a live tournament always succeeds: every row the
    validation finds eligible - the rows a preview shows as such - is reported as created and has
    become one active athlete with the row's name and birth year in the row's weight class and unit,
    every other row keeps its validation result, nobody is imported twice nor had been registered
    with the unit before, and nothing but the roster, the audit trail and the confirmation changes. *)
Theorem import_creates_eligible t rows a key now d (Hs : sound d) (Hdup : duplicateRowNumbers [] [] rows = [])
    (Hkey : trim key <> EmptyString) (Hl : lockTournament t d = Ok (tt, d))
    (Hnew : find_first (fun c => ic_key c === trim key) (db_athleteImportConfirmations d) = None) :
  let eligible := eligibleRows rows (validate t rows now d) in
  previewImport nfkcLower t rows now d = Ok ((rows, validate t rows now d), d) /\
  exists results news d', confirmImport t rows a key now d = Ok (results, d') /\
  Forall2 imported (validate t rows now d) results /\
  db_tournamentAthletes d' = db_tournamentAthletes d ++ news /\ Forall2 (importedAs t d') eligible news /\
  NoDup (map athleteKey eligible) /\
  (forall row, In row eligible -> existsb (registered nfkcLower t row d) (db_tournamentAthletes d) = false) /\
  touches [tournamentOrganizations; tournamentAthletes; auditLogs; athleteImportConfirmations] d d' /\ sound d'.
Proof.
  intros eligible; split.
  - unfold previewImport; rewrite (bind_step _ _ _ tt d) by (unfold assertUniqueRowNumbers; rewrite Hdup; reflexivity); reflexivity.
  - destruct (confirm_first t rows a key now d Hs Hdup Hkey Hl Hnew) as (rs & news & d' & H & Hf & Hs' & Ht & _ & Ea & Hi & _ & _).
    destruct (validate_keys t rows now d rows [] 0 (fun i => eq_refl)) as [Hn Hr].
    exists rs, news, d'; split_and!; auto; intros row Hrow; rewrite list.Forall_forall in Hr; apply (Hr row), list_elem_of_In, Hrow.
Qed.

(** An import runs once per idempotency key: after a confirmation, the same rows of the same actor
    under the key are answered with the stored results, anything else is refused, and nothing is written. *)
Theorem import_once t rows a key now d results d' t2 rows2 a2 key2 now2 (Hs : sound d)
    (H : confirmImport t rows a key now d = Ok (results, d')) (Hk : trim key2 = trim key)
    (Hdup : duplicateRowNumbers [] [] rows2 = []) (Hl : lockTournament t2 d' = Ok (tt, d')) :
  confirmImport t2 rows2 a2 key2 now2 d' =
  if (t2 === t) && (a2 === a) && (sha256 rows2 === sha256 rows) then Ok (results, d')
  else Err (Conflict "Khóa chống trùng lặp đã được dùng cho một lần nhập khác").
Proof.
  destruct (confirmImport_cases _ _ _ _ _ _ _ _ H) as (Hdup1 & Hkey & Hl1 & Hcase).
  assert (Hp : exists p, find_first (fun c => ic_key c === trim key) (db_athleteImportConfirmations d') = Some p /\
      ic_tournamentId p = t /\ ic_actorId p = a /\ ic_fingerprint p = sha256 rows /\ results = ic_results p).
  { destruct Hcase as [(p & Hp & E1 & E2 & E3 & E4 & ->) | Hnew]; [exists p; auto |].
    destruct (confirm_first t rows a key now d Hs Hdup1 Hkey Hl1 Hnew) as (rs & news & d2 & H2 & _ & _ & _ & _ & _ & _ & Ec & _).
    rewrite H2 in H; injection H as -> ->; eexists; rewrite Ec, find_first_app, Hnew; cbn; rewrite bool_decide_eq_true_2 by reflexivity.
    split; [reflexivity | auto]. }
  destruct Hp as (p & Hp & E1 & E2 & E3 & E4); unfold AthleteImport.confirmImport.
  rewrite (bind_step _ _ _ tt d') by (unfold assertUniqueRowNumbers; rewrite Hdup; reflexivity); cbv zeta; rewrite Hk.
  rewrite (bind_step _ _ _ tt d') by (unfold throw_if; rewrite bool_decide_eq_false_2 by exact Hkey; reflexivity).
  rewrite (bind_step _ _ _ _ _ Hl).
  rewrite (bind_step _ _ _ (Some p) d') by (unfold find_one, gets; f_equal; f_equal; exact Hp); rewrite E1, E2, E3.
  assert (Hsym : forall A `{EqDecision A} (x y : A), (x === y) = (y === x)) by (intros; apply bool_decide_ext; split; congruence).
  rewrite (Hsym _ _ t t2), (Hsym _ _ a a2), (Hsym _ _ (sha256 rows) (sha256 rows2)).
  destruct (t2 === t), (a2 === a), (sha256 rows2 === sha256 rows); try reflexivity; rewrite E4; reflexivity.
Qed.
End Facts.

(** ** Witnesses: a new unit, the same athlete again, an athlete without a unit, and a class unknown *)

Definition importRows : list ImportRow :=
  [mkImportRow 1 " An " 2000 "54" "Club" "Ha Noi"; mkImportRow 2 "an" 2000 "54" "club " " ha noi";
   mkImportRow 3 "Binh" 2001 " 54 " "" ""; mkImportRow 4 "Chi" 2001 "99" "" ""].
Definition joinNames (rows : list ImportRow) : string := String.concat "," (map ar_name rows).
Definition importDB : DB := Eval vm_compute in
  after (confirmImport lower joinNames (fun _ => EmptyString) 1 importRows 2 "key" newYear) drawDB.

Lemma import_creates_eligible_witness : exists results news d',
  confirmImport lower joinNames (fun _ => EmptyString) 1 importRows 2 "key" newYear drawDB = Ok (results, d') /\
  map ir_status results = [IMPORT_CREATED; IMPORT_INVALID; IMPORT_CREATED; IMPORT_INVALID] /\
  db_tournamentAthletes d' = db_tournamentAthletes drawDB ++ news /\ map at_name news = ["An"; "Binh"]%string.
Proof.
  destruct (import_creates_eligible lower joinNames (fun _ => EmptyString) 1 importRows 2 "key" newYear drawDB drawDB_sound
    ltac:(vm_compute; reflexivity) ltac:(vm_compute; discriminate) ltac:(vm_compute; reflexivity) ltac:(vm_compute; reflexivity))
    as (_ & results & news & d' & H & _ & Ea & _).
  exists results, news, d'; split; [exact H |].
  destruct (confirmImport lower joinNames (fun _ => EmptyString) 1 importRows 2 "key" newYear drawDB) as [[r x] |] eqn:R; [| vm_compute in R; discriminate].
  injection H as -> ->; vm_compute in R; injection R as <- <-; vm_compute in Ea.
  split; [reflexivity |]; split; [exact Ea |]; injection Ea as <-; reflexivity.
Defined.

Lemma import_once_witness :
  confirmImport lower joinNames (fun _ => EmptyString) 1 importRows 2 " key" 0 importDB =
    Ok (map (fun c => ic_results c) (db_athleteImportConfirmations importDB) !!! 0%nat, importDB) /\
  confirmImport lower joinNames (fun _ => EmptyString) 1 [] 2 "key" 0 importDB =
    Err (Conflict "Khóa chống trùng lặp đã được dùng cho một lần nhập khác").
Proof.
  destruct (confirmImport lower joinNames (fun _ => EmptyString) 1 importRows 2 "key" newYear drawDB) as [[r x] |] eqn:R; [| vm_compute in R; discriminate].
  assert (E : x = importDB /\ r = map (fun c => ic_results c) (db_athleteImportConfirmations importDB) !!! 0%nat)
    by (vm_compute in R; injection R as <- <-; vm_compute; auto).
  destruct E as [-> ->].
  split; rewrite (import_once lower joinNames (fun _ => EmptyString) _ _ _ _ _ _ _ _ _ _ _ _ _ drawDB_sound R) by (vm_compute; reflexivity); reflexivity.
Defined.
