(* ===== verification/Eligibility.v ===== *)
(** * Eligibility

    The roster and the brackets together: whatever is done to organizations, weight classes and
    athletes (Roster, AthleteImport) and to the draws of a tournament (BracketDraws, BracketMatches),
    the entrants of a current bracket are exactly the active athletes of its class. *)
From stdpp Require Import pretty relations gmap.
From S2P Require Import Prelude Schema Database Rules Scenario BracketGenerator BracketTokens BracketDraws BracketStorage BracketMatches Calendar Pricing Entitlements MediaDeletion Retention Accounts Roster AthleteImport.

(** ** Confirmed brackets *)

Lemma keeps_sound_createFixtures b entrants fs : forall ids, respects keeps_sound (createFixtures b entrants fs ids).
Proof.
  induction fs as [| f fs IH]; intros ids; cbn [createFixtures]; [apply respects_ret; apply _ |].
  apply respects_bind; [apply _ | apply (keeps_sound_create bracketFixtures); intros n i [= <-]; reflexivity | intros row].
  apply respects_bind; [apply _ | apply (keeps_sound_create_many bracketSlots); intros s n i; cbn; rewrite (proj1 (slotRow_id _ _ _ _ _)); intros [= <-]; reflexivity |].
  intros _; apply IH.
Qed.
#[local] Hint Resolve keeps_sound_createFixtures : tx.

Section Confirmed.
Context (sha256 : json -> string) (signature : string -> string) (decode : string -> option json).

Lemma keeps_sound_storeBracket t w user key claims athletes rules g :
  respects keeps_sound (storeBracket sha256 t w user key claims athletes rules g).
Proof. unfold storeBracket, createEntrant; cbv zeta; respects_auto. Qed.

Lemma confirm_sound t w token key user now d b d' : BracketDraws.confirm sha256 signature decode t w token key user now d = Ok (b, d') ->
  sound d -> sound d'.
Proof.
  intros H Hs; destruct (BracketStorage.confirm_cases _ _ _ _ _ _ _ _ _ _ _ _ H) as (c & _ & [(_ & _ & ->) | (_ & rules & g & _ & _ & _ & Hst)]); [exact Hs |].
  exact (keeps_sound_storeBracket _ _ _ _ _ _ _ _ _ _ _ Hst Hs).
Qed.
End Confirmed.

(** ** Foreign keys of the bracket tables *)

Record bracketFks (d : DB) : Prop := {
  fk_entrants : forall e, In e (db_bracketEntrants d) -> exists b, In b (db_tournamentBrackets d) /\ br_id b = en_bracketId e;
  fk_fixtures : forall f, In f (db_bracketFixtures d) -> exists b, In b (db_tournamentBrackets d) /\ br_id b = fx_bracketId f;
  fk_slots : forall s, In s (db_bracketSlots d) -> (exists f, In f (db_bracketFixtures d) /\ fx_id f = sl_fixtureId s) /\
    forall u, sl_sourceFixtureId s = Some u -> exists f, In f (db_bracketFixtures d) /\ fx_id f = u }.

Lemma fks_refs d : fresh d -> bracketFks d -> bracket_refs d.
Proof.
  intros Hf [He Hx Hs]; split_and!.
  - intros e Hin; destruct (He e Hin) as (b & Hb & <-); exact (Hf tournamentBrackets b _ Hb eq_refl).
  - intros f Hin; destruct (Hx f Hin) as (b & Hb & <-); exact (Hf tournamentBrackets b _ Hb eq_refl).
  - intros s Hin; destruct (Hs s Hin) as ((f & Hfx & <-) & Hsrc); split; [exact (Hf bracketFixtures f _ Hfx eq_refl) |].
    intros u Hu; destruct (Hsrc u Hu) as (g & Hg & <-); exact (Hf bracketFixtures g _ Hg eq_refl).
Qed.

Lemma fks_touches ts d d' : touches ts d d' -> tournamentBrackets ∉ ts -> bracketEntrants ∉ ts -> bracketFixtures ∉ ts -> bracketSlots ∉ ts ->
  bracketFks d -> bracketFks d'.
Proof.
  intros Ht H1 H2 H3 H4 [He Hx Hs].
  assert (E1 : db_tournamentBrackets d' = db_tournamentBrackets d) by exact (Ht tournamentBrackets H1).
  assert (E2 : db_bracketEntrants d' = db_bracketEntrants d) by exact (Ht bracketEntrants H2).
  assert (E3 : db_bracketFixtures d' = db_bracketFixtures d) by exact (Ht bracketFixtures H3).
  assert (E4 : db_bracketSlots d' = db_bracketSlots d) by exact (Ht bracketSlots H4).
  split; rewrite ?E1, ?E2, ?E3, ?E4; assumption.
Qed.

Lemma idsBefore_range fs : forall ids n k u, idsBefore ids n fs !! k = Some u ->
  ids !! k = Some u \/ exists j, (j < length fs)%nat /\ u = (n + 3 * N.of_nat j)%N.
Proof.
  induction fs as [| f fs IH]; intros ids n k u H; [auto |]; cbn [idsBefore] in H; apply IH in H as [H | (j & Hj & ->)].
  - destruct (decide (gf_id f = k)) as [<- | Hne]; [rewrite lookup_insert_eq in H; injection H as <- | rewrite lookup_insert_ne in H by exact Hne; auto].
    right; exists 0%nat; cbn; split; lia.
  - right; exists (S j); cbn; split; lia.
Qed.

Lemma stored_fks d d' b ps g : stored d d' b ps g -> bracketFks d -> bracketFks d'.
Proof.
  intros [(rows & He & _ & Hb & _ & n & _ & Hf & Hs) Eb _ _ _] [Fe Fx Fs]; cbv zeta in Hf, Hs.
  set (entrants := jsMap (map (fun e => (en_athleteId e, en_id e)) rows)) in *.
  assert (Hnew : forall i f, gb_fixtures g !! i = Some f -> exists x, In x (db_bracketFixtures d') /\ fx_id x = (n + 3 * N.of_nat i)%N).
  { intros i f Hi; eexists; rewrite Hf, in_app_iff; split; [right; apply list_elem_of_In, list_elem_of_lookup; exists i; rewrite fixtureRows_lookup, Hi; reflexivity |].
    reflexivity. }
  split.
  - intros e Hin; rewrite He, in_app_iff in Hin; rewrite Eb; destruct Hin as [Hin | Hin].
    + destruct (Fe e Hin) as (x & Hx & E); exists x; rewrite in_app_iff; auto.
    + exists b; rewrite in_app_iff, (Hb e Hin); split; [right; left; reflexivity | reflexivity].
  - intros f Hin; rewrite Hf, in_app_iff in Hin; rewrite Eb; destruct Hin as [Hin | Hin].
    + destruct (Fx f Hin) as (x & Hx & E); exists x; rewrite in_app_iff; auto.
    + exists b; rewrite in_app_iff; split; [right; left; reflexivity |].
      apply list_elem_of_In, list_elem_of_lookup in Hin as (i & Hi); rewrite fixtureRows_lookup in Hi.
      destruct (gb_fixtures g !! i); [injection Hi as <-; reflexivity | discriminate].
  - intros s Hin; rewrite Hs, in_app_iff in Hin; destruct Hin as [Hin | Hin].
    + destruct (Fs s Hin) as ((f & Hx & E) & Hsrc); split; [exists f; rewrite Hf, in_app_iff; auto |].
      intros u Hu; destruct (Hsrc u Hu) as (x & Hx2 & E2); exists x; rewrite Hf, in_app_iff; auto.
    + apply slotRows_in in Hin as (i & f & gs & k & Hi & _ & ->); destruct (slotRow_id entrants (idsBefore ∅ n (list.take i (gb_fixtures g))) (n + 3 * N.of_nat i) gs k) as (_ & -> & _).
      split; [exact (Hnew i f Hi) |]; intros u Hu; unfold slotRow in Hu; destruct (gs_source gs) as [e | src]; [discriminate |]; cbn in Hu.
      apply idsBefore_range in Hu as [Hu | (j & Hj & ->)]; [rewrite lookup_empty in Hu; discriminate |].
      rewrite length_take in Hj; destruct (lookup_lt_is_Some_2 (gb_fixtures g) j ltac:(lia)) as [x Hx]; exact (Hnew j x Hx).
Qed.

(** ** The steps *)

Section Steps.
Context (sha256 : json -> string) (signature : string -> string) (decode : string -> option json).
Context (normalized nfkcLower : string -> string) (rowsHash : list ImportRow -> string) (driverMessage : error -> string).

(** A committed request on the roster or on the draws. *)
Inductive roster_step (d d' : DB) : Prop :=
  | step_create_organization t i a now r : createOrganization normalized t i a now d = Ok (r, d') -> roster_step d d'
  | step_update_organization t id i a now r : updateOrganization normalized t id i a now d = Ok (r, d') -> roster_step d d'
  | step_deactivate_organization t id a now r : deactivateOrganization t id a now d = Ok (r, d') -> roster_step d d'
  | step_create_class t i a r : createWeightClass normalized t i a d = Ok (r, d') -> roster_step d d'
  | step_update_class t id i a now r : updateWeightClass normalized t id i a now d = Ok (r, d') -> roster_step d d'
  | step_deactivate_class t id a now r : deactivateWeightClass t id a now d = Ok (r, d') -> roster_step d d'
  | step_create_athlete t i a now r : createAthlete t i a now d = Ok (r, d') -> roster_step d d'
  | step_update_athlete t id i a now r : updateAthlete t id i a now d = Ok (r, d') -> roster_step d d'
  | step_import t rows a key now r : confirmImport nfkcLower rowsHash driverMessage t rows a key now d = Ok (r, d') -> roster_step d d'
  | step_confirm_draw t w token key user now b : BracketDraws.confirm sha256 signature decode t w token key user now d = Ok (b, d') -> roster_step d d'
  | step_cancel_draw clk t w a reason r : cancelBracket clk t w a reason d = Ok (r, d') -> roster_step d d'.

(** The eligible athletes of a draw are the active athletes of its class. *)
Lemma eligible_competes d t w b x : wf d -> rosterOk d -> br_tournamentId b = t -> br_weightClassId b = w ->
  In x (idsOf (eligibleAthletes t w d)) <-> competes d b x.
Proof.
  intros Hw Hok Et Ew; unfold idsOf, eligibleAthletes; rewrite map_map, in_map_iff; cbn [fst].
  assert (Hel : forall a, In a (db_tournamentAthletes d) -> eligible t w d a =
    (at_tournamentId a === t) && (at_weightClassId a === w) && at_isActive a).
  { intros a Ha; unfold eligible; destruct (at_isActive a) eqn:Ea; [| rewrite !andb_false_r; reflexivity].
    destruct (ro_assigned d Hok a Ha) as [Hc Ho]; destruct (Hc Ea) as (c & Hin & Hcl); unfold activeWeightClass in Hcl; to_prop.
    rewrite (proj2 (existsb_exists _ _)) by (exists c; split; [exact Hin |]; rewrite bool_decide_eq_true_2 by congruence; assumption).
    rewrite !andb_true_r; destruct (at_organizationId a) as [o |] eqn:Eo; [| rewrite (bool_decide_eq_true_2 (@None uuid = None)) by reflexivity; rewrite andb_true_r; reflexivity].
    destruct (Ho o eq_refl) as (g & Hg & Hgo); unfold organizationOfTournament in Hgo; to_prop; unfold organizationOf; rewrite Eo.
    assert (Hf : find_first (fun g => og_id g === o) (db_tournamentOrganizations d) = Some g).
    { apply (find_unique tournamentOrganizations d (fun g => og_id g === o) g o); auto; [apply bool_decide_eq_true_2; assumption | cbn; congruence |].
      intros y Hy; to_prop; cbn; congruence. }
    rewrite Hf; match goal with H : og_isActive g = true |- _ => rewrite H end; rewrite orb_true_r, andb_true_r; reflexivity. }
  split.
  - intros (a & Ex & Ha); apply list_elem_of_In in Ha; rewrite sort_by_perm in Ha; apply list_elem_of_In, filter_In in Ha as [Ha He].
    rewrite Hel in He by exact Ha; to_prop; exists a; split_and!; auto; congruence.
  - intros (a & Ha & Ex & Hact & E1 & E2); exists a; split; [exact Ex |]; apply list_elem_of_In; rewrite sort_by_perm; apply list_elem_of_In, filter_In.
    rewrite Hel, Hact, !bool_decide_eq_true_2 by (auto; congruence); auto.
Qed.

Lemma confirm_rosterOk t w token key user now d b d' : BracketDraws.confirm sha256 signature decode t w token key user now d = Ok (b, d') ->
  sound d -> bracketFks d -> rosterOk d -> bracketFks d' /\ rosterOk d'.
Proof.
  intros H Hs Hfk Hok.
  destruct (find_first (fun b => br_confirmationKey b === key) (db_tournamentBrackets d)) as [b0 |] eqn:Hnew.
  { destruct (BracketStorage.confirm_cases _ _ _ _ _ _ _ _ _ _ _ _ H) as (c & _ & [(_ & _ & ->) | (E & _)]); [auto | congruence]. }
  destruct (confirm_stored _ _ _ _ _ _ _ _ _ _ _ _ H Hs (fks_refs d (proj2 Hs) Hfk) Hnew) as (c & g & _ & _ & Hb & Hst & _ & Hperm & _).
  split; [exact (stored_fks _ _ _ _ _ Hst Hfk) |].
  destruct Hst as [(rows & He & Hids & Hrb & _) Eb _ _ Ht].
  assert (Ea : db_tournamentAthletes d' = db_tournamentAthletes d) by exact (Ht tournamentAthletes ltac:(table_notin)).
  assert (Hid : br_id b = db_nextId d) by (rewrite Hb; reflexivity).
  split.
  - rewrite Ea; intros a Ha; apply (assigned_ext d); [exact (Ht tournamentWeightClasses ltac:(table_notin)) | exact (Ht tournamentOrganizations ltac:(table_notin)) | apply (ro_assigned d Hok a Ha)].
  - rewrite Eb; intros x Hx Hcur u; rewrite (competes_same d d' x u Ea); apply in_app_iff in Hx as [Hx | [<- | []]].
    + rewrite <- (ro_entrants d Hok x Hx Hcur u); unfold entered; rewrite He; split; [| intros (e & Hi & E); exists e; rewrite in_app_iff; auto].
      intros (e & Hi & E1 & E2); apply in_app_iff in Hi as [Hi | Hi]; [exists e; auto |]; exfalso.
      rewrite (Hrb e Hi), Hid in E1; pose proof (proj2 Hs tournamentBrackets x (br_id x) Hx eq_refl); lia.
    + rewrite <- (eligible_competes d t w b u (proj1 Hs) Hok) by (rewrite Hb; reflexivity).
      rewrite <- Hperm, <- Hids, in_map_iff; unfold entered; rewrite He; split.
      * intros (e & Hi & E1 & E2); apply in_app_iff in Hi as [Hi | Hi]; [| eauto]; exfalso.
        pose proof (proj1 (fks_refs d (proj2 Hs) Hfk) e Hi); lia.
      * intros (e & E & Hi); exists e; rewrite in_app_iff, (Hrb e Hi); auto.
Qed.

Lemma cancel_ok clk t w a reason d r d' : cancelBracket clk t w a reason d = Ok (r, d') ->
  sound d -> bracketFks d -> rosterOk d -> sound d' /\ bracketFks d' /\ rosterOk d'.
Proof.
  intros H Hs [Fe Fx Fs] Hok.
  assert (Hk : respects keeps_sound (cancelBracket clk t w a reason)) by (unfold cancelBracket; respects_auto).
  specialize (Hk _ _ _ H Hs); destruct (cancel_frees_class _ _ _ _ _ _ _ _ H Hs) as (b & _ & _ & _ & _ & Eb & Ht).
  set (g := fun x : BracketRow => x <| br_status := BRACKET_STATUS_CANCELLED |> <| br_cancelledAt := Some (jsNow clk 0) |>) in *.
  assert (Ea : db_tournamentAthletes d' = db_tournamentAthletes d) by exact (Ht tournamentAthletes ltac:(table_notin)).
  assert (Ee : db_bracketEntrants d' = db_bracketEntrants d) by exact (Ht bracketEntrants ltac:(table_notin)).
  assert (Ef : db_bracketFixtures d' = db_bracketFixtures d) by exact (Ht bracketFixtures ltac:(table_notin)).
  assert (Es : db_bracketSlots d' = db_bracketSlots d) by exact (Ht bracketSlots ltac:(table_notin)).
  assert (Hkeep : forall x, In x (db_tournamentBrackets d) -> exists y, In y (db_tournamentBrackets d') /\ br_id y = br_id x).
  { intros x Hx; exists (if br_id x === br_id b then g x else x); split; [rewrite Eb; apply in_map_where; eauto | destruct (_ === _); reflexivity]. }
  split; [exact Hk |]; split; [split |].
  - rewrite Ee; intros e He; destruct (Fe e He) as (x & Hx & E); destruct (Hkeep x Hx) as (y & Hy & E2); exists y; split; [exact Hy | congruence].
  - rewrite Ef; intros e He; destruct (Fx e He) as (x & Hx & E); destruct (Hkeep x Hx) as (y & Hy & E2); exists y; split; [exact Hy | congruence].
  - rewrite Es, Ef; exact Fs.
  - split.
    + rewrite Ea; intros x Hx; apply (assigned_ext d); [exact (Ht tournamentWeightClasses ltac:(table_notin)) | exact (Ht tournamentOrganizations ltac:(table_notin)) | apply (ro_assigned d Hok x Hx)].
    + rewrite Eb; intros y Hy Hcur x; apply in_map_where in Hy as (z & Hz & ->); destruct (br_id z === br_id b); [discriminate Hcur |].
      rewrite (competes_same d d' z x Ea), <- (ro_entrants d Hok z Hz Hcur x); unfold entered; rewrite Ee; reflexivity.
Qed.

Lemma roster_step_ok d d' : roster_step d d' -> sound d -> bracketFks d -> rosterOk d -> sound d' /\ bracketFks d' /\ rosterOk d'.
Proof.
  assert (Htouch : forall ts, touches ts d d' -> keeps_sound d d' -> (tournamentBrackets ∉ ts /\ bracketEntrants ∉ ts /\ bracketFixtures ∉ ts /\ bracketSlots ∉ ts) ->
    (rosterOk d -> rosterOk d') -> sound d -> bracketFks d -> rosterOk d -> sound d' /\ bracketFks d' /\ rosterOk d').
  { intros ts Ht Hk (N1 & N2 & N3 & N4) Hr Hs Hf Hok; split_and!; auto; apply (fks_touches _ _ _ Ht); auto. }
  intros [t i a now r H | t id i a now r H | t id a now r H | t i a r H | t id i a now r H | t id a now r H | t i a now r H | t id i a now r H
         | t rows a key now r H | t w token key user now b H | clk t w a reason r H] Hs.
  - destruct (createOrganization_ok _ _ _ _ _ _ _ _ H) as (E & _ & _ & _ & _ & Ht & Hk); apply (Htouch _ Ht Hk); auto; [split_and!; table_notin |].
    apply (rosterOk_organization_added _ _ _ E Ht).
  - destruct (updateOrganization_ok _ _ _ _ _ _ _ _ _ H (proj1 Hs)) as (n & before & _ & _ & Hc).
    apply (Htouch _ (oc_touches _ _ _ _ _ _ _ Hc) (oc_sound _ _ _ _ _ _ _ Hc)); auto; [split_and!; table_notin | apply (rosterOk_organizations _ _ _ _ _ _ _ Hc)].
  - destruct (deactivateOrganization_ok _ _ _ _ _ _ _ H (proj1 Hs)) as (before & _ & [(_ & ->) | (_ & Hc)]); [auto |].
    apply (Htouch _ (oc_touches _ _ _ _ _ _ _ Hc) (oc_sound _ _ _ _ _ _ _ Hc)); auto; [split_and!; table_notin | apply (rosterOk_organizations _ _ _ _ _ _ _ Hc)].
  - destruct (createWeightClass_ok _ _ _ _ _ _ _ H) as (E & _ & _ & Ht & Hk); apply (Htouch _ Ht Hk); auto; [split_and!; table_notin |].
    apply (rosterOk_weightClass_added _ _ _ E Ht).
  - destruct (updateWeightClass_ok _ _ _ _ _ _ _ _ _ H (proj1 Hs)) as (n & before & _ & _ & Hc).
    apply (Htouch _ (cc_touches _ _ _ _ _ Hc) (cc_sound _ _ _ _ _ Hc)); auto; [split_and!; table_notin | apply (rosterOk_weightClasses _ _ _ _ _ Hc)].
  - destruct (deactivateWeightClass_ok _ _ _ _ _ _ _ H (proj1 Hs)) as [-> | Hc]; [auto |].
    apply (Htouch _ (cc_touches _ _ _ _ _ Hc) (cc_sound _ _ _ _ _ Hc)); auto; [split_and!; table_notin | apply (rosterOk_weightClasses _ _ _ _ _ Hc)].
  - destruct (createAthlete_ok _ _ _ _ _ _ _ H) as (E & Er & _ & _ & Has & Ht & Hk); apply (Htouch _ Ht Hk); auto; [split_and!; table_notin |].
    destruct (assignments_ok _ _ _ _ _ _ _ Has) as (_ & _ & Hc & Hlock & Ho); intros Hok.
    apply (rosterOk_athlete_added _ _ _ _ E Ht (fun _ H => H) Hok); rewrite Er; [split; cbn; auto | exact (Hlock eq_refl)].
  - destruct (updateAthlete_ok _ _ _ _ _ _ _ _ H (proj1 Hs)) as (before & as_ & n & y & _ & _ & _ & _ & _ & _ & _ & Ht & Hk).
    apply (Htouch _ Ht Hk); auto; [split_and!; table_notin | apply (rosterOk_updateAthlete _ _ _ _ _ _ _ _ H (proj1 Hs))].
  - destruct (AthleteImport.confirmImport_cases _ _ _ _ _ _ _ _ _ _ _ H) as (Hdup & Hkey & Hl & [(p & _ & _ & _ & _ & _ & ->) | Hnew]); [auto |].
    destruct (confirm_first nfkcLower rowsHash driverMessage t rows a key now d Hs Hdup Hkey Hl Hnew) as (rs & news & d2 & H2 & _ & Hs2 & Ht & _ & _ & _ & _ & Hr).
    rewrite H2 in H; injection H as _ ->; apply (Htouch _ Ht (fun _ => Hs2)); auto; split_and!; table_notin.
  - intros Hf Hok; split; [exact (confirm_sound _ _ _ _ _ _ _ _ _ _ _ _ H Hs) | exact (confirm_rosterOk _ _ _ _ _ _ _ _ _ H Hs Hf Hok)].
  - apply (cancel_ok _ _ _ _ _ _ _ _ H Hs).
Qed.

(** C34: Whatever is done to the roster - organizations, weight classes and athletes created, changed,
    deactivated, restored and imported - and to the draws - confirmed and cancelled: an active athlete's
    weight class is an active one of the tournament, an athlete's organization is active, and the
    entrants of a current bracket are exactly the active athletes of its class. *)
Theorem entrants_stay_eligible d d' (Hs : sound d) (Hf : bracketFks d) (Hok : rosterOk d) (H : rtc roster_step d d') : rosterOk d'.
Proof.
  assert (Hall : sound d' /\ bracketFks d' /\ rosterOk d'); [| tauto].
  induction H as [d | d d1 d2 H1 _ IH]; [auto |]; destruct (roster_step_ok _ _ H1 Hs Hf Hok) as (Hs1 & Hf1 & Hok1); auto.
Qed.
End Steps.

(** ** Witness: a draw is confirmed and the organization of one of its entrants deactivated *)

Lemma drawDB_fks : bracketFks drawDB.
Proof. split; intros ? []. Defined.
Lemma drawDB_roster : rosterOk drawDB.
Proof.
  split; [| intros b []].
  intros a [<- | [<- | [<- | []]]]; split; try discriminate; try (intros _; exists (mkWeightClassRow 5 1 "54" 30 true "54" None None); split; [left; reflexivity | reflexivity]).
  intros o [= <-]; exists (mkOrganizationRow 61 1 "O" true 7 "o" EmptyString None None None None); split; [left; reflexivity | reflexivity].
Defined.
Definition withoutOrganization : DB := Eval vm_compute in after (deactivateOrganization 1 61 2 newYear) confirmedDB.

Lemma entrants_stay_eligible_witness : rosterOk withoutOrganization /\
  map at_organizationId (db_tournamentAthletes withoutOrganization) = [None; None; None] /\
  entered withoutOrganization confirmedRow 121 /\
  deactivateAthlete 1 121 2 newYear withoutOrganization = Err (Conflict "ATHLETE_IN_ACTIVE_BRACKET").
Proof.
  assert (Hok : rosterOk withoutOrganization).
  { apply (entrants_stay_eligible drawHash drawSignature drawDecode lower lower joinNames (fun _ => EmptyString) drawDB withoutOrganization
      drawDB_sound drawDB_fks drawDB_roster).
    apply (rtc_l _ _ confirmedDB); [| apply (rtc_l _ _ withoutOrganization); [| apply rtc_refl]].
    - eapply step_confirm_draw; exact draw_confirmed.
    - destruct (deactivateOrganization 1 61 2 newYear confirmedDB) as [[r d'] |] eqn:E; [| vm_compute in E; discriminate].
      apply (step_deactivate_organization _ _ _ _ _ _ _ _ _ 1 61 2 newYear r); rewrite E; vm_compute in E; injection E as _ <-; reflexivity. }
  split; [exact Hok |]; split; [reflexivity |]; split; [| vm_compute; reflexivity].
  apply (ro_entrants _ Hok confirmedRow); [left; reflexivity | reflexivity |].
  exists ((drawAthlete 121 None true) <| at_updatedAt := newYear |>); split; [vm_compute; auto | split_and!; reflexivity].
Defined.
