(* ===== verification/Redis.v ===== *)
(** * Redis

    redis/redis.service.ts: the counters with an expiry and the texts the services keep in Redis.
    Redis itself is modelled as far as its commands GET, SET EX, DEL, INCR, INCRBY and EXPIRE go: a map
    of keys to values that end at their expiry; a key is kept by its parts, of which the services
    derive a string (with an HMAC where the part is a secret). An error of a request does not undo the
    commands it ran, so requests answer with a result and the store they leave. *)
From stdpp Require Import gmap.
From Stdlib Require Import Sorting.Sorted.
From S2P Require Import Prelude Schema Database.

(** ** Keys *)

Inductive RedisKey : Type :=
  (* admin-auth.service.ts *)
  | LoginIdentityKey (username : string) | LoginIpKey (address : string) | RegistrationIpKey (address : string)
  | AdminSessionKey (token : string)
  (* official-access.service.ts *)
  | OfficialIdentityKey (code passcode : string) | OfficialIpKey (address : string)
  (* match-access.service.ts *)
  | MatchIdentityKey (publicId code : string) | MatchIpKey (address : string)
  (* realtime-session-registry.service.ts *)
  | PresenceKey (publicId : string) (role : MatchAccessRole) | ScoreboardPresenceKey (publicId : string)
  | OfficialPresenceKey (publicId : string) (officialId : uuid) (socketId : string) | OfficialOnlineKey (officialId : uuid).
#[export] Instance RedisKey_eq_dec : EqDecision RedisKey. Proof. solve_decision. Defined.

Definition roleIndex (r : MatchAccessRole) : N :=
  match r with ACCESS_JUDGE_1 => 1 | ACCESS_JUDGE_2 => 2 | ACCESS_JUDGE_3 => 3 | ACCESS_SUPERVISOR => 4 end.
Definition roleAt (n : N) : option MatchAccessRole :=
  match n with
  | 1 => Some ACCESS_JUDGE_1 | 2 => Some ACCESS_JUDGE_2 | 3 => Some ACCESS_JUDGE_3 | 4 => Some ACCESS_SUPERVISOR | _ => None
  end%N.

Definition keyParts (k : RedisKey) : N * list string * N :=
  match k with
  | LoginIdentityKey v => (0, [v], 0) | LoginIpKey v => (1, [v], 0) | RegistrationIpKey v => (2, [v], 0)
  | AdminSessionKey v => (3, [v], 0) | OfficialIdentityKey c p => (4, [c; p], 0) | OfficialIpKey v => (5, [v], 0)
  | MatchIdentityKey c p => (6, [c; p], 0) | MatchIpKey v => (7, [v], 0) | PresenceKey p r => (8, [p], roleIndex r)
  | ScoreboardPresenceKey p => (9, [p], 0) | OfficialPresenceKey p o s => (10, [p; s], o) | OfficialOnlineKey o => (11, [], o)
  end%N.
Definition keyOf (parts : N * list string * N) : option RedisKey :=
  match parts with
  | (0, [v], _) => Some (LoginIdentityKey v) | (1, [v], _) => Some (LoginIpKey v) | (2, [v], _) => Some (RegistrationIpKey v)
  | (3, [v], _) => Some (AdminSessionKey v) | (4, [c; p], _) => Some (OfficialIdentityKey c p) | (5, [v], _) => Some (OfficialIpKey v)
  | (6, [c; p], _) => Some (MatchIdentityKey c p) | (7, [v], _) => Some (MatchIpKey v)
  | (8, [p], r) => option_map (PresenceKey p) (roleAt r)
  | (9, [p], _) => Some (ScoreboardPresenceKey p) | (10, [p; s], o) => Some (OfficialPresenceKey p o s) | (11, [], o) => Some (OfficialOnlineKey o)
  | _ => None
  end%N.
#[export] Instance RedisKey_countable : Countable RedisKey.
Proof. refine (inj_countable keyParts keyOf _); intros []; try reflexivity; destruct role; reflexivity. Defined.

(** ** The store *)

Inductive RedisValue : Type := Counter (n : Z) | Text (s : string).
Record Entry : Type := mkEntry { en_value : RedisValue; en_expiresAt : option timestamp }.
Abbreviation Redis := (gmap RedisKey Entry).

Definition live (now : timestamp) (e : Entry) : bool := match en_expiresAt e with Some t => now <? t | None => true end.
Definition lookupAt (now : timestamp) (key : RedisKey) (st : Redis) : option Entry :=
  match st !! key with Some e => if live now e then Some e else None | None => None end.

(** A request: its answer and what it leaves. *)
Abbreviation RedisM A := (Redis -> result error A * Redis).

Definition isSafe (n : Z) : bool := (- (2 ^ 53) <? n) && (n <? 2 ^ 53).

(** [get] *)
Definition redisGet (key : RedisKey) (now : timestamp) (st : Redis) : option RedisValue := option_map en_value (lookupAt now key st).

(** [setWithExpiry] *)
Definition setWithExpiry (key : RedisKey) (value : string) (ttlSeconds : Z) (now : timestamp) (st : Redis) : Redis :=
  <[key := mkEntry (Text value) (Some (now + ttlSeconds * 1000))]> st.

(** [delete] of one key *)
Definition redisDelete (key : RedisKey) (st : Redis) : Redis := delete key st.

(** [INCRBY key n]: the entry it leaves; a text is no counter. *)
Definition incrBy (n : Z) (e : option Entry) : option Entry :=
  match e with
  | None => Some (mkEntry (Counter n) None)
  | Some (mkEntry (Counter c) t) => Some (mkEntry (Counter (c + n)) t)
  | Some (mkEntry (Text _) _) => None
  end.
Definition countOf (e : Entry) : Z := match en_value e with Counter n => n | Text _ => 0 end.

(** [incrementWithExpiry] *)
Definition incrementWithExpiry (key : RedisKey) (ttlSeconds : Z) (now : timestamp) : RedisM Z := fun st =>
  match incrBy 1 (lookupAt now key st) with
  | None => (Err (InternalError "WRONGTYPE"), st)
  | Some e =>
      let e := if countOf e =? 1 then mkEntry (en_value e) (Some (now + ttlSeconds * 1000)) else e in
      (if negb (isSafe (countOf e)) || (countOf e <? 1) then Err (InternalError "Redis returned an invalid rate-limit counter")
       else Ok (countOf e), <[key := e]> st)
  end.

(** [incrementByWithExpiry] *)
Definition incrementByWithExpiry (key : RedisKey) (increment ttlSeconds : Z) (now : timestamp) : RedisM Z := fun st =>
  match incrBy increment (lookupAt now key st) with
  | None => (Err (InternalError "WRONGTYPE"), st)
  | Some e =>
      if countOf e <=? 0 then (Ok 0, delete key st)
      else
        let e := if (countOf e =? 1) && (increment =? 1) then mkEntry (en_value e) (Some (now + ttlSeconds * 1000)) else e in
        (if negb (isSafe (countOf e)) || (countOf e <? 0) then Err (InternalError "Redis returned an invalid presence counter")
         else Ok (countOf e), <[key := e]> st)
  end.

(** ** A rate limiter: attempts at the given times on one key, and those let through *)

Fixpoint admitted (key : RedisKey) (ttlSeconds limit : Z) (times : list timestamp) (st : Redis) : list timestamp :=
  match times with
  | [] => []
  | t :: times =>
      let r := incrementWithExpiry key ttlSeconds t st in
      (match r.1 with Ok n => if n <=? limit then [t] else [] | Err _ => [] end) ++ admitted key ttlSeconds limit times r.2
  end.

(** The store of the key while only the limiter uses it: nothing live, or a count of this window. *)
Definition windowAt (key : RedisKey) (ttl : Z) (now : timestamp) (start : timestamp) (count : Z) (st : Redis) : Prop :=
  st !! key = Some (mkEntry (Counter count) (Some (start + ttl))) /\ 1 <= count /\ start <= now.

Definition within (s ttl : Z) (l : list timestamp) : Z := Z.of_nat (length (List.filter (fun t => (s <=? t) && (t <? s + ttl)) l)).

Lemma within_app s ttl l1 l2 : within s ttl (l1 ++ l2) = within s ttl l1 + within s ttl l2.
Proof. unfold within; rewrite List.filter_app, length_app; lia. Qed.
Lemma within_one s ttl t : within s ttl [t] = if (s <=? t) && (t <? s + ttl) then 1 else 0.
Proof. unfold within; cbn; destruct (_ && _); reflexivity. Qed.

(** What may still pass in the interval that starts at [s]. *)
Definition remaining (limit s ttl start count : Z) : Z :=
  if s <=? start then Z.max 0 (limit - count) else if s <? start + ttl then Z.max 0 (limit - count) + limit else 2 * limit.

Lemma increment_fresh key secs now st : lookupAt now key st = None ->
  incrementWithExpiry key secs now st = (Ok 1, <[key := mkEntry (Counter 1) (Some (now + secs * 1000))]> st).
Proof. unfold incrementWithExpiry; intros ->; reflexivity. Qed.

Lemma increment_window key secs now start count st : windowAt key (secs * 1000) now start count st -> now < start + secs * 1000 ->
  incrementWithExpiry key secs now st =
  (if isSafe (count + 1) then Ok (count + 1) else Err (InternalError "Redis returned an invalid rate-limit counter"),
   <[key := mkEntry (Counter (count + 1)) (Some (start + secs * 1000))]> st).
Proof.
  intros (E & Hc & _) Hn; unfold incrementWithExpiry, lookupAt; rewrite E; unfold live; cbn [en_expiresAt].
  rewrite (proj2 (Z.ltb_lt _ _) Hn); cbn [incrBy countOf en_value]; rewrite (proj2 (Z.eqb_neq _ _)) by lia; cbn [countOf en_value].
  rewrite (proj2 (Z.ltb_ge _ _)) by lia; rewrite orb_false_r; destruct (isSafe _); reflexivity.
Qed.

Lemma within_attempt s ttl t (b : bool) (r : result error Z) limit : (forall n, r = Ok n -> (n <=? limit) = b) ->
  within s ttl (match r with Ok n => if n <=? limit then [t] else [] | Err _ => [] end) <=
  if (s <=? t) && (t <? s + ttl) && b then 1 else 0.
Proof.
  intros H; destruct r as [n |]; [rewrite (H n eq_refl); destruct b; rewrite ?within_one, ?andb_true_r | ]; try lia;
    unfold within; cbn; case_match; lia.
Qed.

Lemma admitted_later key secs limit : forall times st now, Sorted Z.le (now :: times) ->
  forall t, In t (admitted key secs limit times st) -> now <= t.
Proof.
  induction times as [| t times IH]; intros st now Hsort x Hx; [destruct Hx |].
  apply Sorted_inv in Hsort as [Hsort Hle]; apply HdRel_inv in Hle; cbn [admitted] in Hx; apply in_app_iff in Hx as [Hx | Hx].
  - destruct (incrementWithExpiry _ _ _ _).1 as [n |]; [destruct (n <=? limit) |]; cbn [In] in Hx; [destruct Hx as [<- | []]; exact Hle | destruct Hx ..].
  - pose proof (IH _ _ Hsort x Hx); lia.
Qed.

Lemma within_none s ttl l : (forall t, In t l -> s + ttl <= t) -> within s ttl l = 0.
Proof.
  intros H; unfold within; replace (List.filter _ l) with (@nil timestamp); [reflexivity |]; symmetry; induction l as [| t l IH]; [reflexivity |]; cbn.
  rewrite (proj2 (Z.ltb_ge t (s + ttl))) by (apply H; left; reflexivity); rewrite andb_false_r; apply IH; intros x Hx; apply H; right; exact Hx.
Qed.

Lemma admitted_bound key secs limit s : 0 < secs -> 0 <= limit -> forall times st now, Sorted Z.le (now :: times) ->
  (forall start count, windowAt key (secs * 1000) now start count st ->
     within s (secs * 1000) (admitted key secs limit times st) <= remaining limit s (secs * 1000) start count) /\
  (lookupAt now key st = None -> within s (secs * 1000) (admitted key secs limit times st) <= if s <=? now then limit else 2 * limit).
Proof.
  intros Hs Hl; set (T := secs * 1000) in *; assert (HT : 0 < T) by (unfold T; lia).
  induction times as [| t times IH]; intros st now Hsort.
  { split; [intros start count _; unfold remaining | intros _]; cbn [admitted]; change (within s T []) with 0; repeat case_match; lia. }
  apply Sorted_inv in Hsort as [Hsort Hle]; apply HdRel_inv in Hle.
  assert (Hfresh : forall st, lookupAt t key st = None ->
    within s T (admitted key secs limit (t :: times) st) <= if s <=? t then limit else 2 * limit).
  { intros st' Hn; cbn [admitted]; rewrite (increment_fresh key secs t st' Hn); cbn [fst snd]; fold T; rewrite within_app.
    pose proof (within_attempt s T t (1 <=? limit) (Ok 1) limit ltac:(intros n [= <-]; reflexivity)) as Hone; cbn iota in Hone.
    destruct (IH (<[key := mkEntry (Counter 1) (Some (t + T))]> st') t Hsort) as [Hw _].
    specialize (Hw t 1); unfold windowAt, remaining in Hw; rewrite lookup_insert_eq in Hw; specialize (Hw ltac:(split_and!; [reflexivity | lia | lia])).
    destruct (Z.leb_spec s t), (Z.ltb_spec t (s + T)), (Z.ltb_spec s (t + T)), (Z.leb_spec 1 limit); cbn [andb] in *; lia. }
  split.
  - intros start count Hw; pose proof Hw as (E & Hc & Hst); destruct (Z.lt_ge_cases t (start + T)) as [Hlt | Hge].
    + cbn [admitted]; assert (Hw' : windowAt key T t start count st) by (split_and!; [exact E | exact Hc | lia]).
      rewrite (increment_window key secs t start count st Hw' Hlt); cbn [fst snd]; fold T; rewrite within_app.
      destruct (IH (<[key := mkEntry (Counter (count + 1)) (Some (start + T))]> st) t Hsort) as [Hn _].
      specialize (Hn start (count + 1)); unfold windowAt in Hn; rewrite lookup_insert_eq in Hn; specialize (Hn ltac:(split_and!; [reflexivity | lia | lia])).
      pose proof (within_attempt s T t (count + 1 <=? limit) (if isSafe (count + 1) then Ok (count + 1)
        else Err (InternalError "Redis returned an invalid rate-limit counter")) limit ltac:(intros n; destruct (isSafe _); [intros [= <-]; reflexivity | discriminate])) as Hone.
      unfold remaining in *; destruct (Z.leb_spec s t), (Z.ltb_spec t (s + T)), (Z.leb_spec (count + 1) limit), (Z.leb_spec s start), (Z.ltb_spec s (start + T));
        cbn [andb] in Hone; lia.
    + assert (Hn : lookupAt t key st = None).
      { unfold lookupAt, live; rewrite E; cbn; rewrite (proj2 (Z.ltb_ge _ _)) by exact Hge; reflexivity. }
      specialize (Hfresh st Hn); unfold remaining; destruct (Z.leb_spec s start).
      * rewrite within_none; [lia |]; intros x Hx; assert (t <= x); [| lia].
        apply (admitted_later key secs limit (t :: times) st t); [constructor; [exact Hsort | constructor; lia] | exact Hx].
      * destruct (Z.leb_spec s t), (Z.ltb_spec s (start + T)); lia.
  - intros Hn; assert (Hn' : lookupAt t key st = None).
    { revert Hn; unfold lookupAt, live; destruct (st !! key) as [e |]; [| reflexivity]; destruct (en_expiresAt e) as [u |]; [| discriminate].
      destruct (Z.ltb_spec now u); [discriminate | intros _; rewrite (proj2 (Z.ltb_ge _ _)) by lia; reflexivity]. }
    specialize (Hfresh st Hn'); destruct (Z.leb_spec s now), (Z.leb_spec s t); lia.
Qed.

(** A limiter of [limit] attempts per window of [secs] seconds, however the attempts come: no
    interval as long as the window sees more than twice the limit pass, and none that starts with the
    first attempt more than the limit. *)
Theorem limiter_bounds key secs limit times st (Hs : 0 < secs) (Hl : 0 <= limit) (Ht : Sorted Z.le times) (Hst : st !! key = None) s :
  within s (secs * 1000) (admitted key secs limit times st) <= 2 * limit /\
  (forall t, head times = Some t -> s <= t -> within s (secs * 1000) (admitted key secs limit times st) <= limit).
Proof.
  destruct times as [| t times]; [split; [unfold within; cbn; lia | discriminate] |].
  destruct (admitted_bound key secs limit s Hs Hl (t :: times) st t ltac:(constructor; [exact Ht | constructor; lia])) as [_ H].
  specialize (H ltac:(unfold lookupAt; rewrite Hst; reflexivity)); destruct (Z.leb_spec s t) as [Hle | Hgt].
  - split; [lia | intros x _ _; exact H].
  - split; [exact H |]; intros x [= <-] Hx; lia.
Qed.

(** Two attempts a minute: the third is refused, and the two windows meet in one minute. *)
Lemma limiter_bounds_witness : admitted (LoginIpKey "ip") 60 2 [0; 50000; 55000; 60000; 61000; 62000] ∅ = [0; 50000; 60000; 61000] /\
  within 50000 60000 (admitted (LoginIpKey "ip") 60 2 [0; 50000; 55000; 60000; 61000; 62000] ∅) <= 4.
Proof.
  split; [vm_compute; reflexivity |].
  apply (limiter_bounds (LoginIpKey "ip") 60 2 [0; 50000; 55000; 60000; 61000; 62000] ∅ ltac:(lia) ltac:(lia)).
  - repeat constructor; discriminate.
  - reflexivity.
Defined.
