(* ===== verification/Presence.v ===== *)
(** * Presence

    realtime/realtime-session-registry.service.ts: the sockets an API instance holds, by session, and
    the counters in Redis that show them. A registration's [revoke] callback is kept by what calls it,
    the socket. Each operation is one step: the map changes at once and its one Redis command follows;
    the commands of different operations on a counter commute. *)
From stdpp Require Import gmap relations.
From S2P Require Import Prelude Schema Database Redis.

Definition PRESENCE_TTL_SECONDS : Z := 24 * 60 * 60.
Definition OFFICIAL_MATCH_PRESENCE_TTL_SECONDS : Z := 45.

Record RealtimeConnectionRegistration : Type := mkRegistration { rg_accessRole : MatchAccessRole; rg_matchPublicId : string }.
#[export] Instance RealtimeConnectionRegistration_eq_dec : EqDecision RealtimeConnectionRegistration. Proof. solve_decision. Defined.
Record OfficialConnectionRegistration : Type := mkOfficialRegistration { or_matchPublicId : option string; or_officialId : uuid }.
#[export] Instance OfficialConnectionRegistration_eq_dec : EqDecision OfficialConnectionRegistration. Proof. solve_decision. Defined.

(** The maps by session id and socket id, and the store. *)
Record Registry : Type := mkRegistry {
  connectionsBySession : gmap (uuid * string) RealtimeConnectionRegistration;
  scoreboardConnections : gmap string string;
  officialConnections : gmap (uuid * string) OfficialConnectionRegistration;
  rg_redis : Redis }.
#[export] Instance eta_Registry : Eta Registry := fun x => mkRegistry (connectionsBySession x) (scoreboardConnections x)
  (officialConnections x) (rg_redis x).

(** [await this.redis.incrementByWithExpiry(...)] *)
Definition bump (key : RedisKey) (increment : Z) (now : timestamp) (g : Registry) : Registry :=
  g <| rg_redis := (incrementByWithExpiry key increment PRESENCE_TTL_SECONDS now (rg_redis g)).2 |>.

Definition register (sessionId : uuid) (socketId : string) (r : RealtimeConnectionRegistration) (now : timestamp) (g : Registry) : Registry :=
  bump (PresenceKey (rg_matchPublicId r) (rg_accessRole r)) 1 now
    (g <| connectionsBySession := <[(sessionId, socketId) := r]> (connectionsBySession g) |>).

Definition unregister (sessionId : uuid) (socketId : string) (now : timestamp) (g : Registry) : Registry :=
  match officialConnections g !! (sessionId, socketId) with
  | Some o =>
      let g := bump (OfficialOnlineKey (or_officialId o)) (-1) now
        (g <| officialConnections := delete (sessionId, socketId) (officialConnections g) |>) in
      match or_matchPublicId o with
      | Some m => g <| rg_redis := redisDelete (OfficialPresenceKey m (or_officialId o) socketId) (rg_redis g) |>
      | None => g
      end
  | None =>
      match connectionsBySession g !! (sessionId, socketId) with
      | None => g
      | Some r => bump (PresenceKey (rg_matchPublicId r) (rg_accessRole r)) (-1) now
          (g <| connectionsBySession := delete (sessionId, socketId) (connectionsBySession g) |>)
      end
  end.

Definition registerOfficial (sessionId : uuid) (socketId : string) (r : OfficialConnectionRegistration) (now : timestamp) (g : Registry) :
    Registry :=
  match officialConnections g !! (sessionId, socketId) with
  | Some _ => g
  | None => bump (OfficialOnlineKey (or_officialId r)) 1 now
      (g <| officialConnections := <[(sessionId, socketId) := r]> (officialConnections g) |>)
  end.

(** [enterOfficialMatchPresence] and [renewOfficialMatchPresence] *)
Definition enterOfficialMatchPresence (sessionId : uuid) (socketId matchPublicId : string) (now : timestamp) (g : Registry) : bool * Registry :=
  match officialConnections g !! (sessionId, socketId) with
  | None => (false, g)
  | Some r => (true, g
      <| rg_redis := setWithExpiry (OfficialPresenceKey matchPublicId (or_officialId r) socketId) "1"
           OFFICIAL_MATCH_PRESENCE_TTL_SECONDS now (rg_redis g) |>
      <| officialConnections := <[(sessionId, socketId) := mkOfficialRegistration (Some matchPublicId) (or_officialId r)]> (officialConnections g) |>)
  end.

(** [leaveOfficialMatchPresence] and [clearOfficialMatchPresence] *)
Definition leaveOfficialMatchPresence (sessionId : uuid) (socketId : string) (g : Registry) : option string * Registry :=
  match officialConnections g !! (sessionId, socketId) with
  | None => (None, g)
  | Some r =>
      match or_matchPublicId r with
      | None => (None, g)
      | Some m => (Some m, g
          <| rg_redis := redisDelete (OfficialPresenceKey m (or_officialId r) socketId) (rg_redis g) |>
          <| officialConnections := <[(sessionId, socketId) := mkOfficialRegistration None (or_officialId r)]> (officialConnections g) |>)
      end
  end.

Definition registerScoreboard (matchPublicId socketId : string) (now : timestamp) (g : Registry) : Registry :=
  match scoreboardConnections g !! socketId with
  | Some _ => g
  | None => bump (ScoreboardPresenceKey matchPublicId) 1 now (g <| scoreboardConnections := <[socketId := matchPublicId]> (scoreboardConnections g) |>)
  end.

Definition unregisterScoreboard (socketId : string) (now : timestamp) (g : Registry) : option string * Registry :=
  match scoreboardConnections g !! socketId with
  | None => (None, g)
  | Some m => (Some m, bump (ScoreboardPresenceKey m) (-1) now (g <| scoreboardConnections := delete socketId (scoreboardConnections g) |>))
  end.

(** A counter as the reads answer it: what is no positive safe integer counts as none. *)
Definition connectedCount (key : RedisKey) (now : timestamp) (g : Registry) : Z :=
  match redisGet key now (rg_redis g) with
  | Some (Counter n) => if isSafe n && (0 <? n) then n else 0
  | _ => 0
  end.
Definition connectedSocketCount (matchPublicId : string) (accessRole : MatchAccessRole) := connectedCount (PresenceKey matchPublicId accessRole).
Definition scoreboardConnectedCount (matchPublicId : string) := connectedCount (ScoreboardPresenceKey matchPublicId).
Definition isOfficialConnected (officialId : uuid) (now : timestamp) (g : Registry) : bool := 0 <? connectedCount (OfficialOnlineKey officialId) now g.

(** [countKeys]: the pages a scan answers, until the limit is reached *)
Fixpoint countKeys (limit count : Z) (pages : list (list RedisKey)) : Z :=
  match pages with
  | [] => count
  | keys :: pages =>
      let count := count + Z.of_nat (length keys) in
      if limit <=? count then count else countKeys limit count pages
  end.

(** [revokeSessions]: the sockets whose [revoke] is called here, before any of them leaves the maps *)
Definition revokedSockets (sessionIds : list uuid) (g : Registry) : list string :=
  flat_map (fun s =>
    map (fun c => c.1.2) (List.filter (fun c => c.1.1 === s) (map_to_list (connectionsBySession g))) ++
    map (fun c => c.1.2) (List.filter (fun c => c.1.1 === s) (map_to_list (officialConnections g)))) sessionIds.

(** ** The counters count the sockets *)

(** The counter a registration is counted in, and the registrations a counter stands for. *)
Definition socketKey (c : (uuid * string) * RealtimeConnectionRegistration) : RedisKey := PresenceKey (rg_matchPublicId c.2) (rg_accessRole c.2).
Definition scoreboardKey (c : string * string) : RedisKey := ScoreboardPresenceKey c.2.
Definition officialKey (c : (uuid * string) * OfficialConnectionRegistration) : RedisKey := OfficialOnlineKey (or_officialId c.2).

Definition population (key : RedisKey) (g : Registry) : nat :=
  (size (filter (fun c => socketKey c = key) (connectionsBySession g)) +
   size (filter (fun c => scoreboardKey c = key) (scoreboardConnections g)) +
   size (filter (fun c => officialKey c = key) (officialConnections g)))%nat.

Definition isCounter (key : RedisKey) : bool :=
  match key with PresenceKey _ _ | ScoreboardPresenceKey _ | OfficialOnlineKey _ => true | _ => false end.

Section Sizes.
Context {K A : Type} `{Countable K} (f : K * A -> RedisKey).

Definition sizeAt (key : RedisKey) (m : gmap K A) : nat := size (filter (fun c => f c = key) m).

Lemma sizeAt_insert key m k a : m !! k = None -> sizeAt key (<[k := a]> m) = ((if f (k, a) === key then 1 else 0) + sizeAt key m)%nat.
Proof.
  intros Hk; unfold sizeAt; destruct (f (k, a) === key) eqn:E; to_prop.
  - rewrite map_filter_insert_True by exact E; rewrite map_size_insert_None; [lia |].
    apply map_lookup_filter_None; auto.
  - rewrite map_filter_insert_not' by (try exact E; intros y Hy; congruence); reflexivity.
Qed.

Lemma sizeAt_delete key m k a : m !! k = Some a -> sizeAt key m = ((if f (k, a) === key then 1 else 0) + sizeAt key (delete k m))%nat.
Proof.
  intros Hk; rewrite <- (insert_id m k a Hk) at 1; rewrite <- insert_delete_eq; apply sizeAt_insert, lookup_delete_eq.
Qed.

Lemma sizeAt_replace key m k a b : m !! k = Some a -> f (k, b) = f (k, a) -> sizeAt key (<[k := b]> m) = sizeAt key m.
Proof.
  intros Hk E; rewrite <- insert_delete_eq, sizeAt_insert by apply lookup_delete_eq; rewrite E; symmetry; apply sizeAt_delete, Hk.
Qed.
End Sizes.

Lemma population_sizes key g : population key g =
  (sizeAt socketKey key (connectionsBySession g) + sizeAt scoreboardKey key (scoreboardConnections g) +
   sizeAt officialKey key (officialConnections g))%nat.
Proof. reflexivity. Qed.

(** *** What a command leaves in a counter *)

(** The counter of [n] sockets, none of which came before [start]. *)
Definition counts (start : timestamp) (n : nat) (e : option Entry) : Prop :=
  match n with
  | O => e = None
  | _ => exists t, e = Some (mkEntry (Counter (Z.of_nat n)) (Some t)) /\ start + PRESENCE_TTL_SECONDS * 1000 <= t
  end.

Lemma counts_up start n key now st : start <= now < start + PRESENCE_TTL_SECONDS * 1000 -> counts start n (st !! key) ->
  counts start (S n) ((incrementByWithExpiry key 1 PRESENCE_TTL_SECONDS now st).2 !! key).
Proof.
  intros Hn H; unfold incrementByWithExpiry, lookupAt; destruct n as [| n]; cbn [counts] in H.
  - rewrite H; cbn [incrBy countOf en_value Z.leb Z.compare Z.eqb andb Pos.eqb snd]; rewrite lookup_insert_eq; exists (now + PRESENCE_TTL_SECONDS * 1000); split; [reflexivity | lia].
  - destruct H as (t & -> & Ht); unfold live; cbn [en_expiresAt]; rewrite (proj2 (Z.ltb_lt _ _)) by lia; cbn [incrBy countOf en_value].
    rewrite (proj2 (Z.leb_gt _ _)), (proj2 (Z.eqb_neq _ _)) by lia; cbn [andb snd]; rewrite lookup_insert_eq; exists t; split; [do 3 f_equal; lia | exact Ht].
Qed.

Lemma counts_down start n key now st : start <= now < start + PRESENCE_TTL_SECONDS * 1000 -> counts start (S n) (st !! key) ->
  counts start n ((incrementByWithExpiry key (-1) PRESENCE_TTL_SECONDS now st).2 !! key).
Proof.
  intros Hn (t & E & Ht); unfold incrementByWithExpiry, lookupAt; rewrite E; unfold live; cbn [en_expiresAt].
  rewrite (proj2 (Z.ltb_lt _ _)) by lia; cbn [incrBy countOf en_value]; destruct n as [| n]; cbn [counts].
  - cbn; apply lookup_delete_eq.
  - rewrite (proj2 (Z.leb_gt _ _)) by lia; change (-1 =? 1) with false; rewrite andb_false_r; cbn [snd]; rewrite lookup_insert_eq.
    exists t; split; [do 3 f_equal; lia | exact Ht].
Qed.

Lemma increment_other key key' n secs now st : key' <> key -> (incrementByWithExpiry key n secs now st).2 !! key' = st !! key'.
Proof.
  intros Hne; unfold incrementByWithExpiry; destruct (incrBy _ _) as [e |]; [| reflexivity]; destruct (countOf e <=? 0); cbn [snd].
  - apply lookup_delete_ne; congruence.
  - apply lookup_insert_ne; congruence.
Qed.

Definition counted (start : timestamp) (g : Registry) : Prop :=
  forall key, isCounter key = true -> counts start (population key g) (rg_redis g !! key).

Lemma bump_counts start key n now (g : Registry) m : start <= now < start + PRESENCE_TTL_SECONDS * 1000 -> isCounter key = true ->
  (forall k, isCounter k = true -> counts start (m k) (rg_redis g !! k)) ->
  (n = 1 \/ n = -1 /\ m key <> 0%nat) ->
  forall k, isCounter k = true ->
  counts start (if k === key then if n =? 1 then S (m k) else pred (m k) else m k) (rg_redis (bump key n now g) !! k).
Proof.
  intros Hn Hc Hm Hv k Hk; unfold bump; change (rg_redis (g <| rg_redis := ?x |>)) with x.
  destruct (k === key) eqn:E; to_prop; [subst k | rewrite increment_other by congruence; auto].
  specialize (Hm key Hk); destruct Hv as [-> | [-> Hpos]]; [apply counts_up; auto |].
  change (-1 =? 1) with false; cbn iota; destruct (m key) as [| k]; [contradiction | apply counts_down; auto].
Qed.

(** ** The steps of a registry *)

(** A new socket registers under an id of its own. *)
Inductive registry_step (now : timestamp) (g : Registry) : Registry -> Prop :=
  | step_register s k r : connectionsBySession g !! (s, k) = None -> registry_step now g (register s k r now g)
  | step_unregister s k : registry_step now g (unregister s k now g)
  | step_register_official s k r : registry_step now g (registerOfficial s k r now g)
  | step_enter s k m : registry_step now g (enterOfficialMatchPresence s k m now g).2
  | step_leave s k : registry_step now g (leaveOfficialMatchPresence s k g).2
  | step_register_scoreboard m k : registry_step now g (registerScoreboard m k now g)
  | step_unregister_scoreboard k : registry_step now g (unregisterScoreboard k now g).2.

Lemma counted_bump start key n now (g0 g : Registry) : start <= now < start + PRESENCE_TTL_SECONDS * 1000 -> isCounter key = true ->
  counted start g0 -> rg_redis g = rg_redis g0 ->
  (n = 1 /\ (forall k, population k g = (if key === k then 1 else 0) + population k g0)%nat \/
   n = -1 /\ (forall k, population k g0 = (if key === k then 1 else 0) + population k g)%nat) -> counted start (bump key n now g).
Proof.
  intros Hn Hc H0 Er Hp k Hk.
  pose proof (bump_counts start key n now g (fun k => population k g0) Hn Hc ltac:(intros x Hx; rewrite Er; apply H0, Hx)) as Hb.
  change (population k (bump key n now g)) with (population k g); destruct Hp as [[-> Hp] | [-> Hp]].
  - specialize (Hb (or_introl eq_refl) k Hk); rewrite Hp; cbn [Z.eqb Pos.eqb] in Hb.
    rewrite (bool_decide_ext (key = k) (k = key)) by (split; congruence); destruct (k === key); exact Hb.
  - specialize (Hb ltac:(right; split; [reflexivity |]; rewrite Hp, bool_decide_eq_true_2 by reflexivity; lia) k Hk); change (-1 =? 1) with false in Hb.
    rewrite (Hp k), (bool_decide_ext (key = k) (k = key)) in Hb by (split; congruence); destruct (k === key); exact Hb.
Qed.

(** A change outside the counters and of who is where, but not of who is there. *)
Lemma counted_same start (g g' : Registry) : counted start g -> (forall k, isCounter k = true -> rg_redis g' !! k = rg_redis g !! k) ->
  (forall k, population k g' = population k g) -> counted start g'.
Proof. intros H Er Ep k Hk; rewrite Er, Ep by exact Hk; apply H, Hk. Qed.

Lemma registry_step_counted start now g g' : start <= now < start + PRESENCE_TTL_SECONDS * 1000 -> registry_step now g g' ->
  counted start g -> counted start g'.
Proof.
  intros Hn [s k r Hnew | s k | s k r | s k m | s k | m k | k] H.
  - apply (counted_bump start _ 1 now g); auto; left; split; [reflexivity |]; intros key; rewrite !population_sizes.
    change (connectionsBySession (g <| connectionsBySession := ?x |>)) with x; rewrite sizeAt_insert by exact Hnew; change (socketKey (s, k, r)) with (PresenceKey (rg_matchPublicId r) (rg_accessRole r)).
    change (officialConnections (g <| connectionsBySession := ?x |>)) with (officialConnections g);
      change (scoreboardConnections (g <| connectionsBySession := ?x |>)) with (scoreboardConnections g).
    lia.
  - unfold unregister; destruct (officialConnections g !! (s, k)) as [o |] eqn:Eo.
    + assert (Hb : counted start (bump (OfficialOnlineKey (or_officialId o)) (-1) now
        (g <| officialConnections := delete (s, k) (officialConnections g) |>))).
      { apply (counted_bump start _ (-1) now g); auto; right; split; [reflexivity |]; intros key; rewrite !population_sizes.
        change (officialConnections (g <| officialConnections := ?x |>)) with x; rewrite (sizeAt_delete officialKey key _ _ _ Eo); change (officialKey (s, k, o)) with (OfficialOnlineKey (or_officialId o)).
        change (connectionsBySession (g <| officialConnections := ?x |>)) with (connectionsBySession g);
          change (scoreboardConnections (g <| officialConnections := ?x |>)) with (scoreboardConnections g); lia. }
      cbv zeta; destruct (or_matchPublicId o) as [m |]; [| exact Hb].
      apply (counted_same start _ _ Hb); [| reflexivity]; intros key Hk; apply lookup_delete_ne; intros <-; discriminate.
    + destruct (connectionsBySession g !! (s, k)) as [r |] eqn:Er; [| exact H].
      apply (counted_bump start _ (-1) now g); auto; right; split; [reflexivity |]; intros key; rewrite !population_sizes.
      change (connectionsBySession (g <| connectionsBySession := ?x |>)) with x; rewrite (sizeAt_delete socketKey key _ _ _ Er); change (socketKey (s, k, r)) with (PresenceKey (rg_matchPublicId r) (rg_accessRole r)).
      change (officialConnections (g <| connectionsBySession := ?x |>)) with (officialConnections g);
        change (scoreboardConnections (g <| connectionsBySession := ?x |>)) with (scoreboardConnections g); lia.
  - unfold registerOfficial; destruct (officialConnections g !! (s, k)) eqn:Eo; [exact H |].
    apply (counted_bump start _ 1 now g); auto; left; split; [reflexivity |]; intros key; rewrite !population_sizes.
    change (officialConnections (g <| officialConnections := ?x |>)) with x; rewrite sizeAt_insert by exact Eo; change (officialKey (s, k, r)) with (OfficialOnlineKey (or_officialId r)).
    change (connectionsBySession (g <| officialConnections := ?x |>)) with (connectionsBySession g);
      change (scoreboardConnections (g <| officialConnections := ?x |>)) with (scoreboardConnections g); lia.
  - unfold enterOfficialMatchPresence; destruct (officialConnections g !! (s, k)) as [o |] eqn:Eo; [| exact H]; cbn [snd].
    apply (counted_same start g); [exact H | |].
    + intros key Hk; cbn; unfold setWithExpiry; apply lookup_insert_ne; intros <-; discriminate.
    + intros key; rewrite !population_sizes; cbn [snd].
      change (officialConnections (?y <| officialConnections := ?x |>)) with x; rewrite (sizeAt_replace officialKey key _ _ _ _ Eo) by reflexivity; reflexivity.
  - unfold leaveOfficialMatchPresence; destruct (officialConnections g !! (s, k)) as [o |] eqn:Eo; [| exact H].
    destruct (or_matchPublicId o) as [m |]; [| exact H]; cbn [snd]; apply (counted_same start g); [exact H | |].
    + intros key Hk; cbn; unfold redisDelete; apply lookup_delete_ne; intros <-; discriminate.
    + intros key; rewrite !population_sizes.
      change (officialConnections (?y <| officialConnections := ?x |>)) with x; rewrite (sizeAt_replace officialKey key _ _ _ _ Eo) by reflexivity; reflexivity.
  - unfold registerScoreboard; destruct (scoreboardConnections g !! k) eqn:Es; [exact H |].
    apply (counted_bump start _ 1 now g); auto; left; split; [reflexivity |]; intros key; rewrite !population_sizes.
    change (scoreboardConnections (g <| scoreboardConnections := ?x |>)) with x; rewrite sizeAt_insert by exact Es; change (scoreboardKey (k, m)) with (ScoreboardPresenceKey m).
    change (connectionsBySession (g <| scoreboardConnections := ?x |>)) with (connectionsBySession g);
      change (officialConnections (g <| scoreboardConnections := ?x |>)) with (officialConnections g); lia.
  - unfold unregisterScoreboard; destruct (scoreboardConnections g !! k) as [m |] eqn:Es; [| exact H]; cbn [snd].
    apply (counted_bump start _ (-1) now g); auto; right; split; [reflexivity |]; intros key; rewrite !population_sizes.
    change (scoreboardConnections (g <| scoreboardConnections := ?x |>)) with x; rewrite (sizeAt_delete scoreboardKey key _ _ _ Es); change (scoreboardKey (k, m)) with (ScoreboardPresenceKey m).
    change (connectionsBySession (g <| scoreboardConnections := ?x |>)) with (connectionsBySession g);
      change (officialConnections (g <| scoreboardConnections := ?x |>)) with (officialConnections g); lia.
Qed.

(** ** Properties *)

(** A step within the lifetime of the counters that start at [start]. *)
Definition step_within (start : timestamp) (g g' : Registry) : Prop :=
  exists now, start <= now < start + PRESENCE_TTL_SECONDS * 1000 /\ registry_step now g g'.

Lemma counted_steps start g g' : counted start g -> rtc (step_within start) g g' -> counted start g'.
Proof.
  intros H Hr; induction Hr as [g | g g1 g2 (now & Hn & H1) _ IH]; [exact H |].
  apply IH, (registry_step_counted start now g g1 Hn H1 H).
Qed.

Lemma emptyRegistry_counted start : counted start (mkRegistry ∅ ∅ ∅ ∅).
Proof. intros key _; change (population key (mkRegistry ∅ ∅ ∅ ∅)) with 0%nat; apply lookup_empty. Qed.

(** C40: For a day after an instance starts, whatever sockets register, leave, move between matches and
    disconnect, every presence counter - of a role in a match, of the scoreboards of a match and of an
    official - is the number of sockets registered there. *)
Theorem presence_counts_sockets start g key now (H : rtc (step_within start) (mkRegistry ∅ ∅ ∅ ∅) g) (Hk : isCounter key = true)
    (Hn : start <= now < start + PRESENCE_TTL_SECONDS * 1000) (Hsafe : Z.of_nat (population key g) < 2 ^ 53) :
  connectedCount key now g = Z.of_nat (population key g).
Proof.
  pose proof (counted_steps _ _ _ (emptyRegistry_counted start) H key Hk) as Hc; unfold connectedCount, redisGet, lookupAt.
  destruct (population key g) as [| n]; cbn [counts] in Hc; [rewrite Hc; reflexivity |].
  destruct Hc as (t & -> & Ht); unfold live; cbn [en_expiresAt]; rewrite (proj2 (Z.ltb_lt _ _)) by lia; cbn [option_map en_value].
  unfold isSafe; rewrite !(proj2 (Z.ltb_lt _ _)) by lia; reflexivity.
Qed.

(** *** A counter is not renewed *)

Lemma step_bumps now g g' : registry_step now g g' ->
  (forall k, isCounter k = true -> rg_redis g' !! k = rg_redis g !! k) \/
  exists key n, (n = 1 \/ n = -1) /\ forall k, isCounter k = true ->
    rg_redis g' !! k = (incrementByWithExpiry key n PRESENCE_TTL_SECONDS now (rg_redis g)).2 !! k.
Proof.
  intros [s k r _ | s k | s k r | s k m | s k | m k | k].
  - right; eexists _, 1; split; [auto | reflexivity].
  - unfold unregister; destruct (officialConnections g !! (s, k)) as [o |].
    + right; eexists _, (-1); split; [auto |]; intros key Hk; destruct (or_matchPublicId o) as [m |]; [| reflexivity].
      cbv zeta; unfold redisDelete; change (rg_redis (?y <| rg_redis := ?x |>)) with x; rewrite lookup_delete_ne by (intros <-; discriminate); reflexivity.
    + destruct (connectionsBySession g !! (s, k)) as [r |]; [right; eexists _, (-1); split; [auto | reflexivity] | left; reflexivity].
  - unfold registerOfficial; destruct (officialConnections g !! (s, k)); [left; reflexivity | right; eexists _, 1; split; [auto | reflexivity]].
  - left; intros key Hk; unfold enterOfficialMatchPresence; destruct (officialConnections g !! (s, k)) as [o |]; [| reflexivity].
    cbn; unfold setWithExpiry; apply lookup_insert_ne; intros <-; discriminate.
  - left; intros key Hk; unfold leaveOfficialMatchPresence; destruct (officialConnections g !! (s, k)) as [o |]; [| reflexivity].
    destruct (or_matchPublicId o); [| reflexivity]; cbn; unfold redisDelete; apply lookup_delete_ne; intros <-; discriminate.
  - unfold registerScoreboard; destruct (scoreboardConnections g !! k); [left; reflexivity | right; eexists _, 1; split; [auto | reflexivity]].
  - unfold unregisterScoreboard; destruct (scoreboardConnections g !! k); [right; eexists _, (-1); split; [auto | reflexivity] | left; reflexivity].
Qed.

(** A counter that stays above zero keeps its expiry. *)
Lemma increment_keeps_expiry key n now c e st : st !! key = Some (mkEntry (Counter c) (Some e)) -> now < e -> 1 <= c -> n = 1 \/ n = -1 ->
  forall x, (incrementByWithExpiry key n PRESENCE_TTL_SECONDS now st).2 !! key = Some x -> en_expiresAt x = Some e.
Proof.
  intros E Hn Hc Hv x; unfold incrementByWithExpiry, lookupAt; rewrite E; unfold live; cbn [en_expiresAt].
  rewrite (proj2 (Z.ltb_lt _ _) Hn); cbn [incrBy countOf en_value]; destruct (c + n <=? 0) eqn:El; cbn [snd].
  - rewrite lookup_delete_eq; discriminate.
  - rewrite lookup_insert_eq; intros [= <-]; destruct Hv as [-> | ->]; [rewrite (proj2 (Z.eqb_neq _ _)) by lia | change (-1 =? 1) with false; rewrite andb_false_r]; reflexivity.
Qed.

(** A counter is given a day when its first socket comes and never more: if from then on at least
    one socket is always registered, the counter reads zero once the day is over - the match or the
    official is shown as disconnected though sockets are. *)
Theorem presence_forgotten start g g' key now (Hc : counted start g) (Hk : isCounter key = true)
    (He : exists n, rg_redis g !! key = Some (mkEntry (Counter n) (Some (start + PRESENCE_TTL_SECONDS * 1000))))
    (H : rtc (fun a b => step_within start a b /\ (1 <= population key b)%nat) g g') (Hn : start + PRESENCE_TTL_SECONDS * 1000 <= now) :
  connectedCount key now g' = 0 /\ (1 <= population key g')%nat.
Proof.
  set (e := start + PRESENCE_TTL_SECONDS * 1000) in *.
  assert (Hall : counted start g' /\ (1 <= population key g')%nat /\ exists x, rg_redis g' !! key = Some x /\ en_expiresAt x = Some e).
  { assert (H0 : counted start g /\ (1 <= population key g)%nat /\ exists x, rg_redis g !! key = Some x /\ en_expiresAt x = Some e).
    { destruct He as [n He]; split; [exact Hc |]; split; [| eexists; split; [exact He | reflexivity]].
      specialize (Hc key Hk); destruct (population key g); [cbn in Hc; congruence | lia]. }
    clear He Hc; induction H as [g | g g1 g2 ((t & Ht & Hs) & Hp) _ IH]; [exact H0 |]; apply IH; clear IH.
    destruct H0 as (Hc & Hg & x & Hx & Ex); pose proof (registry_step_counted start t g g1 Ht Hs Hc) as Hc1.
    split; [exact Hc1 |]; split; [exact Hp |]; pose proof (Hc1 key Hk) as Hk1; destruct (population key g1) as [| n1] eqn:En1; [lia |].
    destruct Hk1 as (t1 & Hy & _); eexists; split; [exact Hy |].
    pose proof (Hc key Hk) as Hk0; destruct (population key g) as [| n0]; [lia |]; destruct Hk0 as (t0 & Hx0 & _).
    destruct (step_bumps t g g1 Hs) as [Hsame | (k2 & n & Hn2 & Hsame)].
    - rewrite Hsame, Hx in Hy by exact Hk; injection Hy as ->; exact Ex.
    - rewrite Hsame in Hy by exact Hk; destruct (decide (k2 = key)) as [-> | Hne]; [| rewrite increment_other, Hx in Hy by congruence; injection Hy as ->; exact Ex].
      rewrite Hx0 in Hx; injection Hx as <-; cbn in Ex; injection Ex as ->.
      exact (increment_keeps_expiry key n t (Z.of_nat (S n0)) e _ Hx0 ltac:(lia) ltac:(lia) Hn2 _ Hy). }
  destruct Hall as (_ & Hp & x & Hx & Ex); split; [| exact Hp]; unfold connectedCount, redisGet, lookupAt, live; rewrite Hx, Ex.
  rewrite (proj2 (Z.ltb_ge _ _)) by exact Hn; reflexivity.
Qed.

(** ** Witnesses: a judge's device and a scoreboard *)

Definition judgeSocket : RealtimeConnectionRegistration := mkRegistration ACCESS_JUDGE_1 "M".
Definition oneSocket : Registry := register 41 "a" judgeSocket 0 (mkRegistry ∅ ∅ ∅ ∅).
Definition twoSockets : Registry := registerScoreboard "M" "b" 2000 (register 41 "c" judgeSocket 1000 oneSocket).

Lemma presence_counts_sockets_witness : connectedSocketCount "M" ACCESS_JUDGE_1 3000 twoSockets = 2 /\ scoreboardConnectedCount "M" 3000 twoSockets = 1.
Proof.
  assert (H : rtc (step_within 0) (mkRegistry ∅ ∅ ∅ ∅) twoSockets).
  { eapply rtc_l; [exists 0; split; [vm_compute; split; [discriminate | reflexivity] | apply (step_register 0 _ 41 "a" judgeSocket); reflexivity] |].
    eapply rtc_l; [exists 1000; split; [vm_compute; split; [discriminate | reflexivity] | apply (step_register 1000 _ 41 "c" judgeSocket); reflexivity] |].
    eapply rtc_l; [exists 2000; split; [vm_compute; split; [discriminate | reflexivity] | apply (step_register_scoreboard 2000 _ "M" "b")] | apply rtc_refl]. }
  split.
  - apply (presence_counts_sockets 0 twoSockets (PresenceKey "M" ACCESS_JUDGE_1) 3000 H eq_refl); vm_compute; [split; [discriminate | reflexivity] | reflexivity].
  - apply (presence_counts_sockets 0 twoSockets (ScoreboardPresenceKey "M") 3000 H eq_refl); vm_compute; [split; [discriminate | reflexivity] | reflexivity].
Defined.

Lemma presence_forgotten_witness : connectedSocketCount "M" ACCESS_JUDGE_1 86400000 twoSockets = 0 /\
  (1 <= population (PresenceKey "M" ACCESS_JUDGE_1) twoSockets)%nat.
Proof.
  apply (presence_forgotten 0 oneSocket twoSockets (PresenceKey "M" ACCESS_JUDGE_1) 86400000); [| reflexivity | exists 1; vm_compute; reflexivity | | vm_compute; discriminate].
  - apply (counted_steps 0 (mkRegistry ∅ ∅ ∅ ∅)); [apply emptyRegistry_counted |].
    eapply rtc_l; [exists 0; split; [vm_compute; split; [discriminate | reflexivity] | apply (step_register 0 _ 41 "a" judgeSocket); reflexivity] | apply rtc_refl].
  - eapply rtc_l; [split; [exists 1000; split; [vm_compute; split; [discriminate | reflexivity] | apply (step_register 1000 _ 41 "c" judgeSocket); reflexivity] | vm_compute; lia] |].
    eapply rtc_l; [split; [exists 2000; split; [vm_compute; split; [discriminate | reflexivity] | apply (step_register_scoreboard 2000 _ "M" "b")] | vm_compute; lia] | apply rtc_refl].
Defined.
