(* ===== verification/Sessions.v ===== *)
(** * Sessions

    What the three authentication services share: the state of the server a request works on (the
    database, Redis and the sessions whose sockets are told to close), the limiter they all apply, the
    signed challenges of a takeover, and the specification their sessions implement: a register that
    holds at most one lease per credential, taken by a compare and swap. *)
From S2P Require Import Prelude Schema Database Redis BracketTokens.

(** ** Requests *)

Record Server : Type := mkServer { sv_db : DB; sv_redis : Redis; sv_closed : list uuid }.

(** A request answers or fails, and leaves what it has done: an error undoes the transaction it was
    raised in, not the commands before it. *)
Definition Req (A : Type) : Type := Server -> result error A * Server.
#[global] Instance req_ret : MRet Req := fun A a w => (Ok a, w).
#[global] Instance req_bind : MBind Req := fun A B k c w =>
  match c w with
  | (Ok a, w') => k a w'
  | (Err e, w') => (Err e, w')
  end.

Definition refuse {A} (e : error) : Req A := fun w => (Err e, w).
Definition refuse_if (b : bool) (e : error) : Req unit := if b then refuse e else mret tt.
Definition or_refuse {A} (o : option A) (e : error) : Req A := match o with Some a => mret a | None => refuse e end.

(** [prisma.$transaction(c)], or a single statement *)
Definition inDb {A} (c : DbM A) : Req A := fun w =>
  match c (sv_db w) with
  | Ok (a, d) => (Ok a, mkServer d (sv_redis w) (sv_closed w))
  | Err e => (Err e, w)
  end.
Definition inRedis {A} (c : Redis -> result error A * Redis) : Req A := fun w =>
  let '(r, st) := c (sv_redis w) in (r, mkServer (sv_db w) st (sv_closed w)).

(** [realtimeSessions.revokeSessions] *)
Definition revokeSessions (ids : list uuid) : Req unit := fun w =>
  (Ok tt, mkServer (sv_db w) (sv_redis w) (sv_closed w ++ ids)).

(** [Promise.all] of two commands: both are sent. *)
Definition both {A B} (c1 : Req A) (c2 : Req B) : Req (A * B) := fun w =>
  let '(r1, w1) := c1 w in
  let '(r2, w2) := c2 w1 in
  (match r1, r2 with Ok a, Ok b => Ok (a, b) | Err e, _ => Err e | Ok _, Err e => Err e end, w2).

(** The limiter of the services: an attempt counts for an identity and for an address. *)
Definition limitAttempts (identityKey addressKey : RedisKey) (identityLimit addressLimit windowSeconds : Z) (now : timestamp)
    (e : error) : Req unit :=
  attempts ← both (inRedis (incrementWithExpiry identityKey windowSeconds now)) (inRedis (incrementWithExpiry addressKey windowSeconds now));
  refuse_if ((identityLimit <? attempts.1) || (addressLimit <? attempts.2)) e.

(** ** Strings *)

(** [toUpperCase] on ASCII. *)
Definition upperChar (c : Ascii.ascii) : Ascii.ascii :=
  let n := Ascii.nat_of_ascii c in
  if ((97 <=? n) && (n <=? 122))%nat then Ascii.ascii_of_nat (n - 32) else c.
Fixpoint upper (s : string) : string :=
  match s with EmptyString => EmptyString | String c s => String (upperChar c) (upper s) end.

(** [A-Za-z0-9_-] *)
Definition isBase64Url (c : Ascii.ascii) : bool :=
  let n := Z.of_N (Ascii.N_of_ascii c) in
  ((48 <=? n) && (n <=? 57)) || ((65 <=? n) && (n <=? 90)) || ((97 <=? n) && (n <=? 122)) || (n =? 95) || (n =? 45).
(** [/^[A-Za-z0-9_-]+$/] and [/^[A-Za-z0-9_-]{43}$/] *)
Definition isToken (s : string) : bool := (s !== EmptyString) && forallChars isBase64Url s.
Definition SESSION_TOKEN_PATTERN (s : string) : bool := (String.length s =? 43)%nat && forallChars isBase64Url s.

(** The UTF-8 length of a string of bytes. *)
Definition byteLength (s : string) : Z := Z.of_nat (String.length s).

(** ** Signed texts: [encoded.signature], where the signature is the base64url text of an HMAC that is
    compared byte by byte. *)

Section Signed.
Context (hmac : string -> string) (base64url unbase64url : string -> string).

Definition sign (encoded : string) : string := (encoded +:+ "." +:+ base64url (hmac encoded))%string.

(** [timingSafeEqual] of the decoded signature and the expected one, after the comparison of their lengths *)
Definition signatureMatches (encoded signature : string) : bool := unbase64url signature === hmac encoded.
End Signed.

(** ** The specification: a register of leases *)

Record Lease : Type := mkLease { le_session : uuid; le_token : string; le_until : timestamp }.
#[export] Instance Lease_eq_dec : EqDecision Lease. Proof. solve_decision. Defined.

(** The last lease granted under each credential. *)
Definition Register : Type := uuid -> option Lease.

(** Who holds a credential at a time. *)
Definition holder (g : Register) (k : uuid) (now : timestamp) : option Lease :=
  match g k with Some l => if now <? le_until l then Some l else None | None => None end.

Definition granted (k : uuid) (l : Lease) (g : Register) : Register := fun k' => if base.decide (k' = k) then Some l else g k'.
Definition released (k : uuid) (g : Register) : Register := fun k' => if base.decide (k' = k) then None else g k'.

Inductive Acquisition : Type := Granted (g : Register) | Held (session : uuid).

(** Compare and swap: the lease is granted when nobody holds the credential, or the session the caller
    has observed does. *)
Definition compareSwap (k : uuid) (observed : option uuid) (l : Lease) (now : timestamp) (g : Register) : Acquisition :=
  match holder g k now with
  | Some o => if Some (le_session o) === observed then Granted (granted k l g) else Held (le_session o)
  | None => Granted (granted k l g)
  end.

(** Registers with the same holders from [now] on. *)
Definition sameFrom (now : timestamp) (g g' : Register) : Prop := forall k t, now <= t -> holder g k t = holder g' k t.

#[export] Instance sameFrom_equivalence now : Equivalence (sameFrom now).
Proof.
  split; unfold sameFrom; [intros g k t _; reflexivity | intros g g' H k t Ht; symmetry; auto | intros g1 g2 g3 H1 H2 k t Ht; rewrite (H1 k t Ht); auto].
Qed.

Lemma sameFrom_later now now' g g' : now <= now' -> sameFrom now g g' -> sameFrom now' g g'.
Proof. intros Hle H k t Ht; apply H; lia. Qed.

#[export] Instance granted_proper now k l : Proper (sameFrom now ==> sameFrom now) (granted k l).
Proof. intros g g' H k' t Ht; unfold holder, granted; destruct (base.decide (k' = k)); [reflexivity | exact (H k' t Ht)]. Qed.
#[export] Instance released_proper now k : Proper (sameFrom now ==> sameFrom now) (released k).
Proof. intros g g' H k' t Ht; unfold holder, released; destruct (base.decide (k' = k)); [reflexivity | exact (H k' t Ht)]. Qed.

Definition sameAcquisition (now : timestamp) (a a' : Acquisition) : Prop :=
  match a, a' with Granted g, Granted g' => sameFrom now g g' | Held s, Held s' => s = s' | _, _ => False end.
#[export] Instance swap_proper k observed l now : Proper (sameFrom now ==> sameAcquisition now) (compareSwap k observed l now).
Proof.
  intros g g' H; unfold compareSwap; rewrite (H k now (Z.le_refl _)); destruct (holder g' k now) as [o |].
  - destruct (_ === _); cbn; [apply granted_proper, H | reflexivity].
  - apply granted_proper, H.
Qed.

(** What an access request does to the register. *)
Inductive registerStep (now : timestamp) (g : Register) : Register -> Prop :=
  | access_nothing : registerStep now g g
  | access_granted k observed l g' : compareSwap k observed l now g = Granted g' -> registerStep now g g'
  | access_released k : registerStep now g (released k g).

(** ** Laws of requests *)

Lemma req_bind_ok {A B} (c : Req A) (k : A -> Req B) w b w' :
  (c ≫= k) w = (Ok b, w') <-> exists a w1, c w = (Ok a, w1) /\ k a w1 = (Ok b, w').
Proof.
  unfold mbind, req_bind; split.
  - destruct (c w) as [[a | e] w1]; [intros H; eauto | discriminate].
  - intros (a & w1 & -> & H); exact H.
Qed.
Lemma req_bind_step {A B} (c : Req A) (k : A -> Req B) w a w1 : c w = (Ok a, w1) -> (c ≫= k) w = k a w1.
Proof. unfold mbind, req_bind; intros ->; reflexivity. Qed.
Lemma req_bind_err {A B} (c : Req A) (k : A -> Req B) w e w1 : c w = (Err e, w1) -> (c ≫= k) w = (Err e, w1).
Proof. unfold mbind, req_bind; intros ->; reflexivity. Qed.
Lemma req_ret_ok {A} (a b : A) w w' : mret (M:=Req) a w = (Ok b, w') <-> a = b /\ w = w'.
Proof. unfold mret, req_ret; split; [intros H; inv H; auto | intros [-> ->]; reflexivity]. Qed.

Lemma refuse_if_ok b e u w w' : refuse_if b e w = (Ok u, w') <-> b = false /\ w' = w.
Proof.
  unfold refuse_if, refuse; destruct b, u; cbn; split; try discriminate; try (intros [? _]; discriminate).
  - intros H; inv H; auto.
  - intros [_ ->]; reflexivity.
Qed.
Lemma refuse_if_err b e0 e w w' : refuse_if b e0 w = (Err e, w') -> w' = w.
Proof. destruct b; intros H; inv H; reflexivity. Qed.
Lemma or_refuse_ok {A} (o : option A) e a w w' : or_refuse o e w = (Ok a, w') <-> o = Some a /\ w' = w.
Proof.
  unfold or_refuse, refuse; destruct o; cbn; split; try discriminate.
  - intros H; inv H; auto.
  - intros [H ->]; inv H; reflexivity.
  - intros [H _]; discriminate.
Qed.

Lemma inDb_ok {A} (c : DbM A) a w w' : inDb c w = (Ok a, w') <->
  c (sv_db w) = Ok (a, sv_db w') /\ sv_redis w' = sv_redis w /\ sv_closed w' = sv_closed w.
Proof.
  unfold inDb; destruct (c (sv_db w)) as [[x d] | e]; split.
  - intros H; inv H; auto.
  - intros (H & Hr & Hc); inv H; destruct w'; cbn in *; subst; reflexivity.
  - discriminate.
  - intros (H & _); discriminate.
Qed.

(** *** Relations all requests respect, whether they answer or fail *)
Definition leads (R : Server -> Server -> Prop) {A} (c : Req A) : Prop := forall w r w', c w = (r, w') -> R w w'.

Section Leads.
Context (R : Server -> Server -> Prop) `{!PreOrder R}.
Lemma leads_ret {A} (a : A) : leads R (mret (M:=Req) a).
Proof. intros w r w' H; inv H; reflexivity. Qed.
Lemma leads_refuse {A} e : leads R (refuse (A:=A) e).
Proof. intros w r w' H; inv H; reflexivity. Qed.
Lemma leads_refuse_if b e : leads R (refuse_if b e).
Proof. destruct b; [apply leads_refuse | apply leads_ret]. Qed.
Lemma leads_or_refuse {A} (o : option A) e : leads R (or_refuse o e).
Proof. destruct o; [apply leads_ret | apply leads_refuse]. Qed.
Lemma leads_bind {A B} (c : Req A) (k : A -> Req B) : leads R c -> (forall a, leads R (k a)) -> leads R (c ≫= k).
Proof.
  intros Hc Hk w r w' H; unfold mbind, req_bind in H; destruct (c w) as [[a | e] w1] eqn:E.
  - transitivity w1; [exact (Hc _ _ _ E) | exact (Hk a _ _ _ H)].
  - inv H; exact (Hc _ _ _ E).
Qed.
Lemma leads_both {A B} (c1 : Req A) (c2 : Req B) : leads R c1 -> leads R c2 -> leads R (both c1 c2).
Proof.
  intros H1 H2 w r w' H; unfold both in H; destruct (c1 w) as [r1 w1] eqn:E1, (c2 w1) as [r2 w2] eqn:E2; inv H.
  transitivity w1; [exact (H1 _ _ _ E1) | exact (H2 _ _ _ E2)].
Qed.
End Leads.

(** The database before and after. *)
Definition sameDb (w w' : Server) : Prop := sv_db w' = sv_db w.
#[export] Instance sameDb_preorder : PreOrder sameDb.
Proof. split; [intros w; reflexivity | intros w1 w2 w3 H1 H2; unfold sameDb in *; congruence]. Qed.

Lemma sameDb_inRedis {A} (c : Redis -> result error A * Redis) : leads sameDb (inRedis c).
Proof. intros w r w' H; unfold inRedis in H; destruct (c (sv_redis w)); inv H; reflexivity. Qed.
Lemma sameDb_revokeSessions ids : leads sameDb (revokeSessions ids).
Proof. intros w r w' H; inv H; reflexivity. Qed.
Lemma sameDb_limitAttempts k1 k2 l1 l2 secs now e : leads sameDb (limitAttempts k1 k2 l1 l2 secs now e).
Proof.
  apply leads_bind; [apply _ | apply leads_both; [apply _ | |]; apply sameDb_inRedis | intros a; apply leads_refuse_if; apply _].
Qed.

(** A query changes nothing. *)
Lemma inDb_gets {A} (f : DB -> A) w : inDb (gets f) w = (Ok (f (sv_db w)), w).
Proof. destruct w; reflexivity. Qed.
Lemma inDb_err {A} (c : DbM A) w e : c (sv_db w) = Err e -> inDb c w = (Err e, w).
Proof. unfold inDb; intros ->; reflexivity. Qed.

#[export] Hint Resolve sameDb_inRedis sameDb_revokeSessions sameDb_limitAttempts : tx.

(** ** The register *)

(** Whoever takes a credential holds it alone until the lease ends: later acquisitions of others are
    refused unless they name its session. *)
Lemma swap_granted k observed l now g g' : compareSwap k observed l now g = Granted g' ->
  g' = granted k l g /\ (holder g k now = None \/ exists o, holder g k now = Some o /\ observed = Some (le_session o)).
Proof.
  unfold compareSwap; destruct (holder g k now) as [o |]; [| intros [= <-]; auto].
  destruct (bool_decide_reflect (Some (le_session o) = observed)) as [<- | _]; [intros [= <-]; eauto | discriminate].
Qed.
Lemma swap_held k observed l now g s : compareSwap k observed l now g = Held s ->
  exists o, holder g k now = Some o /\ s = le_session o /\ observed <> Some s.
Proof.
  unfold compareSwap; destruct (holder g k now) as [o |]; [| discriminate].
  destruct (bool_decide_reflect (Some (le_session o) = observed)) as [_ | Hne]; [discriminate | intros [= <-]; eauto].
Qed.
Lemma holder_granted k l g k' t : holder (granted k l g) k' t =
  if base.decide (k' = k) then (if t <? le_until l then Some l else None) else holder g k' t.
Proof. unfold holder, granted; destruct (base.decide (k' = k)); reflexivity. Qed.
Lemma holder_released k g k' t : holder (released k g) k' t = if base.decide (k' = k) then None else holder g k' t.
Proof. unfold holder, released; destruct (base.decide (k' = k)); reflexivity. Qed.

(** ** Session tables: the interface the two tables of sessions offer *)

Class SessionTable (R : Type) : Type := {
  ss_id : R -> uuid; ss_key : R -> uuid; ss_token : R -> string; ss_active : R -> bool;
  ss_expiresAt : R -> option timestamp; ss_revokedAt : R -> option timestamp }.

Section Table.
Context {R : Type} `{SessionTable R}.

Definition unrevoked (s : R) : bool := ss_active s && (ss_revokedAt s === None).
Definition liveAt (now : timestamp) (s : R) : bool :=
  unrevoked s && match ss_expiresAt s with Some e => now <? e | None => false end.
Definition leaseOf (s : R) : option Lease := option_map (mkLease (ss_id s) (ss_token s)) (ss_expiresAt s).

(** The register a table of sessions stores. *)
Definition leases (l : list R) : Register := fun k =>
  match find_first (fun s => (ss_key s === k) && unrevoked s) l with Some s => leaseOf s | None => None end.

(** What the unique indexes of the table give. *)
Definition oneOwner (l : list R) : Prop := forall x y, In x l -> In y l -> unrevoked x = true -> unrevoked y = true -> ss_key x = ss_key y -> x = y.
Definition distinctIds (l : list R) : Prop := forall x y, In x l -> In y l -> ss_id x = ss_id y -> x = y.

Definition offers (l : list R) (k : uuid) (t : timestamp) (le : Lease) : Prop :=
  exists s, In s l /\ ss_key s = k /\ liveAt t s = true /\ leaseOf s = Some le.

Lemma liveAt_spec t s : liveAt t s = true <-> unrevoked s = true /\ exists e, ss_expiresAt s = Some e /\ t < e.
Proof.
  unfold liveAt; rewrite andb_true_iff; split.
  - intros [Hu He]; split; [exact Hu |]; destruct (ss_expiresAt s) as [e |]; [| discriminate]; apply Z.ltb_lt in He; eauto.
  - intros [Hu (e & -> & Ht)]; split; [exact Hu | apply Z.ltb_lt, Ht].
Qed.
Lemma liveAt_earlier t t' s : t' <= t -> liveAt t s = true -> liveAt t' s = true.
Proof. rewrite !liveAt_spec; intros Hle (Hu & e & He & Ht); split; [exact Hu | exists e; split; [exact He | lia]]. Qed.

Lemma holder_leases l k t le : oneOwner l -> holder (leases l) k t = Some le <-> offers l k t le.
Proof.
  intros Ho; unfold holder, leases; split.
  - destruct (find_first _ l) as [s |] eqn:E; [| discriminate]; apply find_first_some in E as [Hin Hp]; to_prop.
    unfold leaseOf; destruct (ss_expiresAt s) as [e |] eqn:Ee; [cbn | discriminate].
    destruct (Z.ltb_spec t e) as [Ht |]; [intros [= <-] | discriminate].
    exists s; split_and!; auto; [apply liveAt_spec; eauto | unfold leaseOf; rewrite Ee; reflexivity].
  - intros (s & Hin & Hk & Hl & Hle); apply liveAt_spec in Hl as (Hu & e & He & Ht).
    destruct (find_first _ l) as [s' |] eqn:E.
    + apply find_first_some in E as [Hin' Hp]; to_prop; rewrite (Ho s' s) by (auto; congruence); rewrite Hle.
      unfold leaseOf in Hle; rewrite He in Hle; injection Hle as <-; cbn; rewrite (proj2 (Z.ltb_lt _ _) Ht); reflexivity.
    + eapply find_first_none in E; [| exact Hin]; cbn in E; rewrite Hu, bool_decide_eq_true_2 in E by exact Hk; discriminate.
Qed.

Lemma sameFrom_offers now l (g : Register) : oneOwner l -> (forall k t le, now <= t -> offers l k t le <-> holder g k t = Some le) ->
  sameFrom now (leases l) g.
Proof.
  intros Ho Hx k t Ht; apply option_eq; intros le; rewrite (holder_leases l k t le Ho); exact (Hx k t le Ht).
Qed.

(** The row a query for the current owner finds. *)
Lemma holder_find l k now : oneOwner l ->
  match find_first (fun s => (ss_key s === k) && liveAt now s) l with
  | Some s => ss_key s = k /\ liveAt now s = true /\ In s l /\ exists le, leaseOf s = Some le /\ le_session le = ss_id s /\ holder (leases l) k now = Some le
  | None => holder (leases l) k now = None
  end.
Proof.
  intros Ho; destruct (find_first _ l) as [s |] eqn:E.
  - apply find_first_some in E as [Hin Hp]; apply andb_prop in Hp as [Hk Hl]; to_prop; pose proof Hl as Hl'.
    apply liveAt_spec in Hl' as (_ & e & He & _); split_and!; auto; exists (mkLease (ss_id s) (ss_token s) e).
    unfold leaseOf; rewrite He; split_and!; auto; apply holder_leases; [exact Ho |].
    exists s; split_and!; auto; unfold leaseOf; rewrite He; reflexivity.
  - destruct (holder (leases l) k now) as [le |] eqn:Eh; [| reflexivity]; exfalso; apply holder_leases in Eh as (s & Hin & Hk & Hl & _); [| exact Ho].
    eapply find_first_none in E; [| exact Hin]; cbn in E; rewrite Hl, bool_decide_eq_true_2 in E by exact Hk; discriminate.
Qed.

(** Closing rows that are not live from [now] on leaves the offers from [now] on. *)
Lemma offers_idle now p g l k t le : now <= t -> (forall s, p s = true -> liveAt now s = false /\ unrevoked (g s) = false) ->
  offers (map_where p g l) k t le <-> offers l k t le.
Proof.
  intros Ht Hp; split; intros (s & Hin & Hk & Hl & Hle).
  - apply in_map_where in Hin as (x & Hin & ->); destruct (p x) eqn:E; [| exists x; auto].
    apply liveAt_spec in Hl as [Hu _]; destruct (Hp x E); congruence.
  - exists s; split_and!; auto; apply in_map_where; exists s; split; [exact Hin |]; destruct (p s) eqn:E; [| reflexivity].
    destruct (Hp s E) as [Hn _]; rewrite (liveAt_earlier t now s Ht Hl) in Hn; discriminate.
Qed.

(** Rows rewritten elsewhere offer the same. *)
Lemma offers_touched p g l k t le : (forall s, ss_id (g s) = ss_id s /\ ss_key (g s) = ss_key s /\ ss_token (g s) = ss_token s /\
    ss_active (g s) = ss_active s /\ ss_expiresAt (g s) = ss_expiresAt s /\ ss_revokedAt (g s) = ss_revokedAt s) ->
  offers (map_where p g l) k t le <-> offers l k t le.
Proof.
  intros Hg; assert (Hs : forall s, ss_key (g s) = ss_key s /\ liveAt t (g s) = liveAt t s /\ leaseOf (g s) = leaseOf s).
  { intros s; destruct (Hg s) as (Hi & Hk & Ht & Ha & He & Hr); unfold liveAt, unrevoked, leaseOf; rewrite Hi, Ht, Ha, He, Hr; auto. }
  split; intros (s & Hin & Hk & Hl & Hle).
  - apply in_map_where in Hin as (x & Hin & ->); destruct (Hs x) as (E1 & E2 & E3); exists x; destruct (p x); split_and!; congruence.
  - destruct (Hs s) as (E1 & E2 & E3); exists (if p s then g s else s); split_and!; [apply in_map_where; eauto | destruct (p s); congruence ..].
Qed.

(** Revoking a session withdraws its offer. *)
Lemma offers_revoked i g l k t le : (forall s, unrevoked (g s) = false) ->
  offers (map_where (fun s => (ss_id s === i) && ss_active s) g l) k t le <-> offers l k t le /\ le_session le <> i.
Proof.
  intros Hg; split.
  - intros (s & Hin & Hk & Hl & Hle); apply in_map_where in Hin as (x & Hin & ->); apply liveAt_spec in Hl as Hl'; destruct Hl' as [Hu (e & He & _)].
    destruct ((ss_id x === i) && ss_active x) eqn:E; [rewrite Hg in Hu; discriminate |]; split; [exists x; auto |].
    unfold leaseOf in Hle; rewrite He in Hle; injection Hle as <-; cbn; apply andb_prop in Hu as [Hu _]; rewrite Hu, andb_true_r in E; to_prop; exact E.
  - intros [(s & Hin & Hk & Hl & Hle) Hne]; exists s; split_and!; auto; apply in_map_where; exists s; split; [exact Hin |].
    destruct (bool_decide_reflect (ss_id s = i)) as [Hi |]; [| reflexivity]; exfalso; apply Hne; subst i.
    unfold leaseOf in Hle; destruct (ss_expiresAt s); [injection Hle as <-; reflexivity | discriminate].
Qed.

Lemma offers_app l x k t le : offers (l ++ [x]) k t le <-> offers l k t le \/ (ss_key x = k /\ liveAt t x = true /\ leaseOf x = Some le).
Proof.
  split.
  - intros (s & [Hin | [<- | []]]%in_app_iff & Hk & Hl & Hle); [left; exists s; auto | auto].
  - intros [(s & Hin & Hx) | (Hk & Hl & Hle)]; [exists s | exists x]; split_and!; try apply in_app_iff; cbn; auto; apply Hx.
Qed.

(** A credential nobody holds is granted by appending a row. *)
Lemma leases_granted now l x le : oneOwner l -> oneOwner (l ++ [x]) -> holder (leases l) (ss_key x) now = None -> unrevoked x = true ->
  leaseOf x = Some le -> sameFrom now (leases (l ++ [x])) (granted (ss_key x) le (leases l)).
Proof.
  intros Ho Ho' Hn Hu Hle; apply sameFrom_offers; [exact Ho' |]; intros k t le' Ht; rewrite offers_app, holder_granted.
  assert (He : ss_expiresAt x = Some (le_until le)).
  { unfold leaseOf in Hle; destruct (ss_expiresAt x); [injection Hle as <-; reflexivity | discriminate]. }
  destruct (base.decide (k = ss_key x)) as [-> | Hk].
  - split.
    + intros [Hoff | (_ & Hl & E)].
      * exfalso; destruct Hoff as (s & Hin & Hk & Hl & Hls).
        assert (Hh : holder (leases l) (ss_key x) now = Some le') by (apply holder_leases; [exact Ho | exists s; split_and!; auto; exact (liveAt_earlier t now s Ht Hl)]).
        congruence.
      * apply liveAt_spec in Hl as (_ & e & E' & Hlt); replace (t <? le_until le) with true; [congruence |].
        symmetry; apply Z.ltb_lt; congruence.
    + destruct (Z.ltb_spec t (le_until le)) as [Hlt |]; [intros [= <-]; right | discriminate].
      split_and!; auto; apply liveAt_spec; eauto.
  - rewrite <- (holder_leases l k t le' Ho); split; [intros [Hx | (E & _)]; [exact Hx | congruence] | auto].
Qed.

(** The held credential of a row is released by revoking it. *)
Lemma leases_revoked now l s g : oneOwner l -> distinctIds l -> oneOwner (map_where (fun x => (ss_id x === ss_id s) && ss_active x) g l) ->
  (forall x, unrevoked (g x) = false) -> In s l -> unrevoked s = true ->
  sameFrom now (leases (map_where (fun x => (ss_id x === ss_id s) && ss_active x) g l)) (released (ss_key s) (leases l)).
Proof.
  intros Ho Hd Ho' Hg Hin Hu; apply sameFrom_offers; [exact Ho' |]; intros k t le _; rewrite (offers_revoked (ss_id s) g l k t le Hg), holder_released.
  destruct (base.decide (k = ss_key s)) as [-> | Hk]; [split; [| discriminate] | rewrite (holder_leases l k t le Ho); split; [tauto |]].
  - intros [(x & Hx & Hk & Hl & Hle) Hne]; exfalso; apply liveAt_spec in Hl as [Hux _].
    rewrite (Ho x s) in Hle by auto; unfold leaseOf in Hle; destruct (ss_expiresAt s); [injection Hle as <-; apply Hne; reflexivity | discriminate].
  - intros Hoff; split; [exact Hoff |]; destruct Hoff as (x & Hx & Hkx & Hl & Hle) ; intros E.
    unfold leaseOf in Hle; destruct (ss_expiresAt x); [injection Hle as <-; cbn in E | discriminate].
    apply Hk; rewrite <- Hkx; f_equal; exact (Hd x s Hx Hin E).
Qed.
End Table.

(** Unique indexes survive updates that only give keys up. *)
Lemma unique_by_shrink {A K} `{EqDecision K} (key : A -> option K) p g l :
  (forall x, p x = true -> key (g x) = key x \/ key (g x) = None) -> unique_by key l = true -> unique_by key (map_where p g l) = true.
Proof.
  intros Hg; unfold unique_by; rewrite !bool_decide_eq_true.
  assert (Hsub : forall l, omap key (map_where p g l) `sublist_of` omap key l).
  { clear l; unfold map_where; induction l as [| x l IH]; cbn; [constructor |].
    destruct (p x) eqn:E; [destruct (Hg x E) as [-> | ->]; destruct (key x) | destruct (key x)]; try constructor; exact IH. }
  intros Hnd; eapply sublist_NoDup; [exact Hnd | apply Hsub].
Qed.

(** A query answers from the store as it is. *)
Lemma find_one_run t p d : find_one t p d = Ok (find_first p (get t d), d).
Proof. reflexivity. Qed.

(** *** Reading a request step by step *)

Lemma req_bind_inv {A B} (c : Req A) (k : A -> Req B) w r w' : (c ≫= k) w = (r, w') ->
  (exists e, c w = (Err e, w') /\ r = Err e) \/ exists a w1, c w = (Ok a, w1) /\ k a w1 = (r, w').
Proof.
  unfold mbind, req_bind; destruct (c w) as [[a | e] w1]; intros H; [right; eauto | left; inv H; eauto].
Qed.
Lemma inDb_inv {A} (c : DbM A) w r w' : inDb c w = (r, w') ->
  (exists e, r = Err e /\ c (sv_db w) = Err e /\ w' = w) \/
  exists a, r = Ok a /\ c (sv_db w) = Ok (a, sv_db w') /\ sv_redis w' = sv_redis w /\ sv_closed w' = sv_closed w.
Proof. unfold inDb; destruct (c (sv_db w)) as [[a d] | e]; intros H; inv H; [right | left]; eauto. Qed.

(** Commands that leave the database and the sockets alone. *)
Definition quiet (w w' : Server) : Prop := sv_db w' = sv_db w /\ sv_closed w' = sv_closed w.
#[export] Instance quiet_preorder : PreOrder quiet.
Proof. split; [intros w; split; reflexivity | intros w1 w2 w3 [H1 H2] [H3 H4]; split; congruence]. Qed.
Lemma quiet_inRedis {A} (c : Redis -> result error A * Redis) : leads quiet (inRedis c).
Proof. intros w r w' H; unfold inRedis in H; destruct (c (sv_redis w)); inv H; split; reflexivity. Qed.
Lemma quiet_limitAttempts k1 k2 l1 l2 secs now e : leads quiet (limitAttempts k1 k2 l1 l2 secs now e).
Proof.
  apply leads_bind; [apply _ | apply leads_both; [apply _ | |]; apply quiet_inRedis | intros a; apply leads_refuse_if; apply _].
Qed.

(** Reading a quiet command of a request. *)
Lemma quiet_bind_inv {A B} (c : Req A) (k : A -> Req B) w r w' : leads quiet c -> (c ≫= k) w = (r, w') ->
  (exists e, r = Err e /\ quiet w w') \/ exists a w1, quiet w w1 /\ c w = (Ok a, w1) /\ k a w1 = (r, w').
Proof.
  intros Hq H; apply req_bind_inv in H as [(e & H & ->) | (a & w1 & H & Hk)]; [left | right]; eauto 8.
Qed.
Lemma quiet_inDb_read {A} (c : DbM A) : respects eq c -> leads quiet (inDb c).
Proof.
  intros Hc w r w' H; apply inDb_inv in H as [(e & _ & _ & ->) | (a & _ & H & _ & Hcl)]; [split; reflexivity |].
  split; [symmetry; exact (Hc _ _ _ H) | exact Hcl].
Qed.

(** ** Signed texts *)

Lemma token_noDot s : forallChars isBase64Url s = true -> noDot s = true.
Proof.
  induction s as [| c s IH]; [reflexivity |]; cbn [forallChars noDot]; intros [Hc Hs]%andb_prop; rewrite (IH Hs), andb_true_r.
  apply negb_true_iff; destruct (Ascii.eqb_spec c dot) as [-> |]; [discriminate Hc | reflexivity].
Qed.
Lemma isToken_noDot s : isToken s = true -> noDot s = true /\ s <> EmptyString.
Proof. intros [Hne Hs]%andb_prop; to_prop; split; [apply token_noDot, Hs | exact Hne]. Qed.

(** ** A register over time *)

(** Nobody holds a credential with the token [h] from [now] on. *)
Definition silent (h : string) (now : timestamp) (g : Register) : Prop := forall k t le, now <= t -> holder g k t = Some le -> le_token le <> h.

#[export] Instance silent_proper h now : Proper (sameFrom now ==> iff) (silent h now).
Proof.
  intros g g' H; split; intros Hs k t le Ht Hh; apply (Hs k t le Ht); [rewrite (H k t Ht) | rewrite <- (H k t Ht)]; exact Hh.
Qed.
Lemma silent_later h now now' g : now <= now' -> silent h now g -> silent h now' g.
Proof. intros Hle H k t le Ht; apply H; lia. Qed.
Lemma silent_granted h now k l g : le_token l <> h -> silent h now g -> silent h now (granted k l g).
Proof.
  intros Hl Hg k' t le Ht; rewrite holder_granted; destruct (base.decide (k' = k)); [| exact (Hg k' t le Ht)].
  destruct (t <? le_until l); [intros [= <-]; exact Hl | discriminate].
Qed.
Lemma silent_released h now k g : silent h now g -> silent h now (released k g).
Proof. intros Hg k' t le Ht; rewrite holder_released; destruct (base.decide (k' = k)); [discriminate | exact (Hg k' t le Ht)]. Qed.
