(* ===== verification/MatchAccess.v ===== *)
(** * Match access

    match-access/match-access.service.ts: logging in with the security code of a match role, taking a
    session over, resolving and revoking it. The tokens and nonces drawn at random are arguments; bcrypt,
    the HMACs, base64url and the JSON codec are parameters. The clock is read once per request. *)
From stdpp Require Import sets.
From S2P Require Import Prelude Schema Database Rules Scenario Redis BracketGenerator BracketTokens Sessions.

Definition TAKEOVER_CHALLENGE_TTL_SECONDS : Z := 2 * 60.
Definition BCRYPT_MAX_INPUT_BYTES : Z := 72.

Record VerifiedCredential : Type := mkCredential {
  vc_accessCodeId : uuid; vc_codeHash : string; vc_matchId : uuid; vc_matchPublicId : string; vc_role : MatchAccessRole }.

Record OwnershipConflict : Type := mkConflict {
  oc_accessCodeId : uuid; oc_deviceId : string; oc_matchId : uuid; oc_matchPublicId : string; oc_observedSessionId : uuid }.

Record MatchSessionIdentity : Type := mkIdentity {
  si_deviceId : string; si_expiresAt : timestamp; si_matchPublicId : string; si_judgeSlot : option JudgeSlot; si_role : MatchRole;
  si_sessionId : uuid }.

Record ValidatedMatchSession : Type := mkValidated {
  vs_accessCodeId : uuid; vs_deviceId : string; vs_expiresAt : timestamp; vs_matchId : uuid; vs_matchPublicId : string;
  vs_judgeSlot : option JudgeSlot; vs_role : MatchRole; vs_sessionId : uuid }.

Inductive SessionAcquisitionResult : Type :=
  | SessionConflict (conflict : OwnershipConflict)
  | SessionCreated (revokedSessionId : option uuid) (session : MatchSessionIdentity).

(** The answer to a login or a takeover: the session and its token, or the 409 body with a takeover token. *)
Inductive AccessAnswer : Type :=
  | CreatedMatchSession (session : MatchSessionIdentity) (sessionToken : string)
  | SessionAlreadyActive (takeoverToken : string).

(** [sessionRole] *)
Definition sessionRole (accessRole : MatchAccessRole) : option JudgeSlot * MatchRole :=
  match accessRole with
  | ACCESS_JUDGE_1 => (Some SLOT_JUDGE_1, ROLE_JUDGE)
  | ACCESS_JUDGE_2 => (Some SLOT_JUDGE_2, ROLE_JUDGE)
  | ACCESS_JUDGE_3 => (Some SLOT_JUDGE_3, ROLE_JUDGE)
  | ACCESS_SUPERVISOR => (None, ROLE_SUPERVISOR)
  end.

Definition INVALID_MATCH_CREDENTIALS : error := Unauthorized "INVALID_MATCH_CREDENTIALS".
Definition INVALID_TAKEOVER : error := Unauthorized "INVALID_TAKEOVER".

Record MatchAccessConfig : Type := mkAccessConfig {
  legacyAccessEnabled : bool; sessionTtlSeconds : Z; rateLimitIdentityMaxAttempts : Z; rateLimitIpMaxAttempts : Z;
  rateLimitWindowSeconds : Z }.

(** [normalizeLoginInput]: the device, the public id and the code *)
Definition normalizeLoginInput (matchPublicId securityCode deviceId : string) : Req (string * string * string) :=
  refuse_if (trim deviceId === EmptyString) (BadRequest "INVALID_DEVICE_ID");;
  mret (trim deviceId, upper (trim matchPublicId), trim securityCode).

(** ** The takeover challenge *)

Record TakeoverChallenge : Type := mkChallenge { tc_conflict : OwnershipConflict; tc_expiresAt : Z; tc_nonce : string }.

Definition challengeJson (c : TakeoverChallenge) : json :=
  JObj [("accessCodeId", JId (oc_accessCodeId (tc_conflict c))); ("deviceId", JStr (oc_deviceId (tc_conflict c)));
        ("matchId", JId (oc_matchId (tc_conflict c))); ("matchPublicId", JStr (oc_matchPublicId (tc_conflict c)));
        ("observedSessionId", JId (oc_observedSessionId (tc_conflict c))); ("expiresAt", JNum (tc_expiresAt c));
        ("nonce", JStr (tc_nonce c)); ("version", JNum 1)]%string.

(** [isTakeoverPayload], with the payload it recognizes *)
Definition readChallenge (payload : json) : option TakeoverChallenge :=
  match jfield "version" payload, readId (jfield "accessCodeId" payload), readId (jfield "matchId" payload),
        readId (jfield "observedSessionId" payload), readStr (jfield "matchPublicId" payload), readStr (jfield "deviceId" payload),
        readStr (jfield "nonce" payload), readNum (jfield "expiresAt" payload) with
  | Some (JNum 1), Some accessCodeId, Some matchId, Some observedSessionId, Some matchPublicId, Some deviceId, Some nonce, Some expiresAt =>
      if (0 <? utf16Length matchPublicId) && (utf16Length matchPublicId <=? 32) &&
         (0 <? utf16Length deviceId) && (utf16Length deviceId <=? 255) &&
         (String.length nonce =? 22)%nat && forallChars isBase64Url nonce
      then Some (mkChallenge (mkConflict accessCodeId deviceId matchId matchPublicId observedSessionId) expiresAt nonce)
      else None
  | _, _, _, _, _, _, _, _ => None
  end.

Section Access.
Context (config : MatchAccessConfig).
(** [hashSessionToken], bcrypt's [compare], the HMAC of a challenge, and the codecs; [decode] is [None]
    where [JSON.parse] throws. *)
Context (hashSessionToken : string -> string) (compare : string -> string -> bool) (hmac : string -> string).
Context (base64url unbase64url : string -> string) (encode : json -> string) (decode : string -> option json).

(** [createTakeoverToken] *)
Definition createTakeoverToken (conflict : OwnershipConflict) (now : timestamp) (nonce : string) : string :=
  sign hmac base64url (encode (challengeJson (mkChallenge conflict (now / 1000 + TAKEOVER_CHALLENGE_TTL_SECONDS) nonce))).

(** [verifyTakeoverToken] *)
Definition verifyTakeoverToken (token : string) (now : timestamp) : option TakeoverChallenge :=
  match splitDots token with
  | [encodedPayload; encodedSignature] =>
      if (encodedPayload === EmptyString) || (2048 <? String.length token)%nat then None
      else if negb (isToken encodedPayload) || negb (isToken encodedSignature) then None
      else if negb (signatureMatches hmac unbase64url encodedPayload encodedSignature) then None
      else match decode encodedPayload with
           | None => None
           | Some payload =>
               match readChallenge payload with
               | Some c => if tc_expiresAt c <=? now / 1000 then None else Some c
               | None => None
               end
           end
  | _ => None
  end.

(** ** Credentials *)

(** [enforceAccessRateLimit] *)
Definition enforceAccessRateLimit (matchPublicId securityCode clientAddress : string) (now : timestamp) : Req unit :=
  limitAttempts (MatchIdentityKey matchPublicId securityCode)
    (MatchIpKey (if trim clientAddress === EmptyString then "unknown"%string else trim clientAddress))
    (rateLimitIdentityMaxAttempts config) (rateLimitIpMaxAttempts config) (rateLimitWindowSeconds config) now
    (TooManyRequests "MATCH_ACCESS_RATE_LIMITED").

Definition liveTournament (id : uuid) (d : DB) : bool :=
  existsb (fun t => (tn_id t === id) && (tn_softDeletedAt t === None)) (db_tournaments d).
Definition staffed (matchId : uuid) (d : DB) : bool :=
  existsb (fun a => (oa_matchId a === matchId) && (oa_releasedAt a === None)) (db_matchOfficialAssignments d).

(** [verifyCredential] *)
Definition verifyCredential (matchPublicId securityCode : string) : DbM VerifiedCredential :=
  found ← gets (fun d => find_first (fun m => (m_publicId m === matchPublicId) && liveTournament (m_tournamentId m) d) (db_matches d));
  let codeFitsBcrypt := byteLength securityCode <=? BCRYPT_MAX_INPUT_BYTES in
  m ← or_throw found INVALID_MATCH_CREDENTIALS;
  assigned ← gets (staffed (m_id m));
  throw_if assigned INVALID_MATCH_CREDENTIALS;;
  let comparisonInput := if codeFitsBcrypt then securityCode else "invalid-overlong-security-code"%string in
  accessCode ← find_one matchAccessCodes (fun c => (ac_matchId c === m_id m) && compare comparisonInput (ac_codeHash c));
  throw_if (negb codeFitsBcrypt) INVALID_MATCH_CREDENTIALS;;
  accessCode ← or_throw accessCode INVALID_MATCH_CREDENTIALS;
  mret (mkCredential (ac_id accessCode) (ac_codeHash accessCode) (m_id m) (m_publicId m) (ac_role accessCode)).

(** [lockAndReverifyCredential]: the row lock orders the requests under one code. *)
Definition lockAndReverifyCredential (credential : VerifiedCredential) (securityCode : string) : DbM VerifiedCredential :=
  accessCode ← find_one matchAccessCodes (fun c => ac_id c === vc_accessCodeId credential);
  accessCode ← or_throw accessCode INVALID_MATCH_CREDENTIALS;
  m ← find_one_or_throw matches (fun m => m_id m === ac_matchId accessCode);
  alive ← gets (liveTournament (m_tournamentId m));
  throw_if ((m_id m !== vc_matchId credential) || (m_publicId m !== vc_matchPublicId credential) || negb alive ||
            negb (compare securityCode (ac_codeHash accessCode))) INVALID_MATCH_CREDENTIALS;;
  mret (mkCredential (ac_id accessCode) (ac_codeHash accessCode) (m_id m) (m_publicId m) (ac_role accessCode)).

(** ** Sessions *)

Definition stale (accessCodeId : uuid) (now : timestamp) (s : SessionRow) : bool :=
  (ms_accessCodeId s === accessCodeId) && ms_active s &&
  (match ms_expiresAt s with None => true | Some e => e <=? now end || set_ (ms_revokedAt s)).

(** [deactivateStaleSessions] *)
Definition deactivateStaleSessions (accessCodeId : uuid) (now : timestamp) : DbM unit :=
  _ ← update_many matchSessions (stale accessCodeId now) (fun s => s <| ms_active := false |>); mret tt.

Definition liveSession (now : timestamp) (s : SessionRow) : bool :=
  ms_active s && match ms_expiresAt s with Some e => now <? e | None => false end && (ms_revokedAt s === None).

(** [findCurrentOwner]: the unique index leaves at most one candidate, so the order is immaterial. *)
Definition findCurrentOwner (accessCodeId : uuid) (now : timestamp) : DbM (option SessionRow) :=
  find_one matchSessions (fun s => (ms_accessCodeId s === accessCodeId) && liveSession now s).

(** [createSessionRecord] *)
Definition createSessionRecord (credential : VerifiedCredential) (deviceId tokenHash : string) (now expiresAt : timestamp)
    (action : string) : DbM MatchSessionIdentity :=
  let '(judgeSlot, role) := sessionRole (vc_role credential) in
  session ← create matchSessions (fun id => mkSessionRow id (vc_matchId credential) (vc_accessCodeId credential) role judgeSlot
    tokenHash true (Some expiresAt) None deviceId (Some now));
  _ ← create auditLogs (fun id => mkAuditRow id (Some (vc_matchId credential)) None (Some (ms_id session)) None SESSION_ACTION
    (JObj [("action", JStr action); ("deviceId", JStr deviceId); ("judgeSlot", jopt JSlot judgeSlot); ("role", JMatchRole role)]%string));
  sessionExpiresAt ← or_throw (ms_expiresAt session) (InternalError "Created match session is missing its expiry");
  mret (mkIdentity (ms_deviceId session) sessionExpiresAt (vc_matchPublicId credential) (ms_judgeSlot session) (ms_role session)
    (ms_id session)).

(** [revokeSessionRecord] *)
Definition revokeSessionRecord (sessionId : uuid) (revokedAt : timestamp) : DbM unit :=
  _ ← update_many matchSessions (fun s => (ms_id s === sessionId) && ms_active s)
        (fun s => s <| ms_active := false |> <| ms_revokedAt := Some revokedAt |>); mret tt.

Definition ownershipConflict (credential : VerifiedCredential) (observedSessionId : uuid) (deviceId : string) : OwnershipConflict :=
  mkConflict (vc_accessCodeId credential) deviceId (vc_matchId credential) (vc_matchPublicId credential) observedSessionId.

Definition sessionExpiry (now : timestamp) : timestamp := now + sessionTtlSeconds config * 1000.

(** The transaction of [login]. *)
Definition loginTx (credential : VerifiedCredential) (securityCode deviceId sessionToken : string) (now : timestamp) :
    DbM SessionAcquisitionResult :=
  locked ← lockAndReverifyCredential credential securityCode;
  deactivateStaleSessions (vc_accessCodeId locked) now;;
  currentOwner ← findCurrentOwner (vc_accessCodeId locked) now;
  match currentOwner with
  | Some owner => mret (SessionConflict (ownershipConflict locked (ms_id owner) deviceId))
  | None =>
      session ← createSessionRecord locked deviceId (hashSessionToken sessionToken) now (sessionExpiry now) "LOGIN";
      mret (SessionCreated None session)
  end.

(** The transaction of [takeover]. *)
Definition takeoverTx (credential : VerifiedCredential) (observedSessionId : uuid) (securityCode deviceId sessionToken : string)
    (now : timestamp) : DbM SessionAcquisitionResult :=
  locked ← lockAndReverifyCredential credential securityCode;
  deactivateStaleSessions (vc_accessCodeId locked) now;;
  currentOwner ← findCurrentOwner (vc_accessCodeId locked) now;
  let acquired revokedSessionId :=
    session ← createSessionRecord locked deviceId (hashSessionToken sessionToken) now (sessionExpiry now) "TAKEOVER";
    mret (SessionCreated revokedSessionId session) in
  match currentOwner with
  | Some owner =>
      if ms_id owner !== observedSessionId then mret (SessionConflict (ownershipConflict locked (ms_id owner) deviceId))
      else revokeSessionRecord (ms_id owner) now;; acquired (Some (ms_id owner))
  | None => acquired None
  end.

(** ** Requests *)

(** [MatchAccessService.login] *)
Definition login (matchPublicId securityCode deviceId clientAddress sessionToken nonce : string) (now : timestamp) : Req AccessAnswer :=
  normalized ← normalizeLoginInput matchPublicId securityCode deviceId;
  let '(deviceId, matchPublicId, securityCode) := normalized in
  enforceAccessRateLimit matchPublicId securityCode clientAddress now;;
  credential ← inDb (verifyCredential matchPublicId securityCode);
  result ← inDb (loginTx credential securityCode deviceId sessionToken now);
  match result with
  | SessionConflict conflict => mret (SessionAlreadyActive (createTakeoverToken conflict now nonce))
  | SessionCreated _ session => mret (CreatedMatchSession session sessionToken)
  end.

(** [MatchAccessService.takeover] *)
Definition takeover (matchPublicId securityCode deviceId takeoverToken clientAddress sessionToken nonce : string) (now : timestamp) :
    Req AccessAnswer :=
  normalized ← normalizeLoginInput matchPublicId securityCode deviceId;
  let '(deviceId, matchPublicId, securityCode) := normalized in
  challenge ← or_refuse (verifyTakeoverToken takeoverToken now) INVALID_TAKEOVER;
  let observed := tc_conflict challenge in
  refuse_if ((oc_matchPublicId observed !== matchPublicId) || (oc_deviceId observed !== deviceId)) INVALID_TAKEOVER;;
  enforceAccessRateLimit matchPublicId securityCode clientAddress now;;
  credential ← inDb (verifyCredential matchPublicId securityCode);
  refuse_if ((vc_accessCodeId credential !== oc_accessCodeId observed) || (vc_matchId credential !== oc_matchId observed)) INVALID_TAKEOVER;;
  result ← inDb (takeoverTx credential (oc_observedSessionId observed) securityCode deviceId sessionToken now);
  match result with
  | SessionConflict conflict => mret (SessionAlreadyActive (createTakeoverToken conflict now nonce))
  | SessionCreated revokedSessionId session =>
      match revokedSessionId with Some id => revokeSessions [id] | None => mret tt end;;
      mret (CreatedMatchSession session sessionToken)
  end.

(** The transaction of [resolveSession]. *)
Definition resolveTx (tokenHash : string) (now : timestamp) : DbM (option ValidatedMatchSession) :=
  initialSession ← find_one matchSessions (fun s => ms_tokenHash s === tokenHash);
  match initialSession with
  | None => mret None
  | Some initial =>
      accessCode ← find_one matchAccessCodes (fun c => ac_id c === ms_accessCodeId initial);
      if negb (set_ accessCode) then mret None else
      deactivateStaleSessions (ms_accessCodeId initial) now;;
      session ← find_one matchSessions (fun s => liveSession now s && (ms_tokenHash s === tokenHash));
      match session with
      | None => mret None
      | Some s =>
          m ← find_one_or_throw matches (fun m => m_id m === ms_matchId s);
          match ms_expiresAt s with
          | None => mret None
          | Some expiresAt =>
              currentOwner ← findCurrentOwner (ms_accessCodeId s) now;
              if option_map ms_id currentOwner !== Some (ms_id s) then mret None else
              touched ← update_many matchSessions
                (fun x => ms_active x && (ms_id x === ms_id s) && (ms_revokedAt x === None)) (fun x => x <| ms_lastSeenAt := Some now |>);
              if negb (touched =? 1)%nat then mret None else
              mret (Some (mkValidated (ms_accessCodeId s) (ms_deviceId s) expiresAt (ms_matchId s) (m_publicId m)
                (ms_judgeSlot s) (ms_role s) (ms_id s)))
          end
      end
  end.

(** [MatchAccessService.resolveSession] *)
Definition resolveSession (sessionToken : string) (now : timestamp) : Req (option ValidatedMatchSession) :=
  if negb (legacyAccessEnabled config) then mret None
  else if negb (SESSION_TOKEN_PATTERN sessionToken) then mret None
  else inDb (resolveTx (hashSessionToken sessionToken) now).

(** The transaction of [revokeSession]. *)
Definition revokeTx (tokenHash : string) (now : timestamp) : DbM (option uuid) :=
  initialSession ← find_one matchSessions (fun s => ms_tokenHash s === tokenHash);
  match initialSession with
  | None => mret None
  | Some initial =>
      accessCode ← find_one matchAccessCodes (fun c => ac_id c === ms_accessCodeId initial);
      if negb (set_ accessCode) then mret None else
      deactivateStaleSessions (ms_accessCodeId initial) now;;
      session ← find_one matchSessions (fun s => ms_active s && (ms_revokedAt s === None) && (ms_tokenHash s === tokenHash));
      match session with
      | None => mret None
      | Some s =>
          revokeSessionRecord (ms_id s) now;;
          _ ← create auditLogs (fun id => mkAuditRow id (Some (ms_matchId s)) None (Some (ms_id s)) None SESSION_ACTION
            (JObj [("action", JStr "LOGOUT")]%string));
          mret (Some (ms_id s))
      end
  end.

(** [MatchAccessService.revokeSession] *)
Definition revokeSession (sessionToken : string) (now : timestamp) : Req unit :=
  if negb (SESSION_TOKEN_PATTERN sessionToken) then mret tt else
  revokedSessionId ← inDb (revokeTx (hashSessionToken sessionToken) now);
  match revokedSessionId with Some id => revokeSessions [id] | None => mret tt end.
End Access.

(** ** The sessions of access codes as a session table *)

#[export] Instance matchSessions_table : SessionTable SessionRow := {|
  ss_id := ms_id; ss_key := ms_accessCodeId; ss_token := ms_tokenHash; ss_active := ms_active; ss_expiresAt := ms_expiresAt;
  ss_revokedAt := ms_revokedAt |}.

(** The register the sessions of a store make up. *)
Abbreviation owners d := (leases (db_matchSessions d)).

Lemma liveSession_liveAt now s : liveSession now s = liveAt now s.
Proof. unfold liveSession, liveAt, unrevoked; cbn; rewrite <- !andb_assoc; f_equal; apply andb_comm. Qed.

Lemma find_first_ext {A} (p q : A -> bool) l : (forall x, p x = q x) -> find_first p l = find_first q l.
Proof. intros H; induction l as [| x l IH]; cbn; [reflexivity |]; rewrite H, IH; reflexivity. Qed.

Lemma sessions_unique d : sound d -> oneOwner (db_matchSessions d) /\ distinctIds (db_matchSessions d) /\
  unique_by (fun s => Some (ms_tokenHash s)) (db_matchSessions d) = true.
Proof.
  intros [Hwf _]; pose proof (Hwf matchSessions) as Ht; apply table_ok_true in Ht as (_ & Hpk & Hix).
  cbn [indexes_ok get] in Hix; apply andb_prop in Hix as [Htok Hone]; split_and!; [| | exact Htok].
  - intros x y Hx Hy Ux Uy E; eapply (unique_by_inj active_credential_key _ x y (ms_accessCodeId x)); [exact Hone | exact Hx | exact Hy | |];
      unfold active_credential_key, unrevoked in *; cbn in *; [rewrite Ux; reflexivity | rewrite Uy; congruence].
  - intros x y Hx Hy E; exact (wf_id matchSessions d x y (ms_id x) Hwf Hx Hy eq_refl (f_equal Some (eq_sym E))).
Qed.

Lemma owners_unique d : sound d -> oneOwner (db_matchSessions d).
Proof. intros Hs; apply sessions_unique, Hs. Qed.

(** An update that only closes sessions succeeds. *)
Lemma close_run p g d : sound d -> (forall s, ms_id (g s) = ms_id s /\ ms_tokenHash (g s) = ms_tokenHash s /\ ms_active (g s) = false) ->
  exists n, update_many matchSessions p g d = Ok (n, put matchSessions (map_where p g (db_matchSessions d)) d) /\
    sound (put matchSessions (map_where p g (db_matchSessions d)) d).
Proof.
  intros Hs Hg; pose proof Hs as [Hwf Hf]; pose proof (Hwf matchSessions) as Ht; apply table_ok_true in Ht as (_ & Hpk & Hix).
  cbn [indexes_ok get] in Hix; apply andb_prop in Hix as [Htok Hone].
  assert (Hok : table_ok matchSessions (map_where p g (db_matchSessions d)) = true).
  { apply table_ok_true; split_and!.
    - apply forallb_forall; intros; reflexivity.
    - rewrite unique_by_map_where; [exact Hpk |]; intros x _ _; cbn; rewrite (proj1 (Hg x)); reflexivity.
    - cbn [indexes_ok]; apply andb_true_intro; split.
      + rewrite unique_by_map_where; [exact Htok |]; intros x _ _; rewrite (proj1 (proj2 (Hg x))); reflexivity.
      + apply unique_by_shrink; [| exact Hone]; intros x _; right; unfold active_credential_key; rewrite (proj2 (proj2 (Hg x))); reflexivity. }
  eexists; split; [apply (update_many_ok matchSessions); split_and!; [reflexivity | exact Hok | reflexivity] |].
  apply sound_put; [exact Hs | exact Hok |]; intros r i Hr; apply in_map_where in Hr as (x & Hx & ->); intros Hi.
  apply (Hf matchSessions x i Hx); revert Hi; cbn; destruct (p x); [rewrite (proj1 (Hg x)) |]; auto.
Qed.

(** Only the sessions and the audit log are written, and the audit log only by appending. *)
Definition sessionsOnly (d d' : DB) : Prop := touches [matchSessions; auditLogs] d d'.

Lemma deactivate_run code now d : sound d -> exists d1, deactivateStaleSessions code now d = Ok (tt, d1) /\ sound d1 /\
  d1 = put matchSessions (map_where (stale code now) (fun s => s <| ms_active := false |>) (db_matchSessions d)) d /\
  sameFrom now (owners d1) (owners d).
Proof.
  intros Hs; destruct (close_run (stale code now) (fun s => s <| ms_active := false |>) d Hs ltac:(intros s; auto)) as (n & Hn & Hs1).
  eexists; split_and!; [unfold deactivateStaleSessions; rewrite (bind_step _ _ _ _ _ Hn); reflexivity | exact Hs1 | reflexivity |].
  apply sameFrom_offers; [exact (owners_unique _ Hs1) |]; intros k t le Ht; rewrite (holder_leases _ _ _ _ (owners_unique d Hs)).
  apply (offers_idle now); [exact Ht |]; intros s Hp; split; [| reflexivity].
  unfold stale in Hp; apply andb_prop in Hp as [_ Hp]; unfold liveAt, unrevoked; cbn.
  apply orb_prop in Hp as [Hp | Hp].
  - destruct (ms_expiresAt s) as [e |]; [rewrite (proj2 (Z.ltb_ge _ _)) by (apply Z.leb_le, Hp) |]; apply andb_false_r.
  - destruct (ms_revokedAt s); [rewrite bool_decide_eq_false_2 by discriminate; rewrite andb_false_r; reflexivity | discriminate].
Qed.

Lemma owner_found code now d : sound d -> findCurrentOwner code now d =
  Ok (find_first (fun s => (ms_accessCodeId s === code) && liveAt now s) (db_matchSessions d), d).
Proof.
  intros _; unfold findCurrentOwner, find_one, gets; do 2 f_equal; apply find_first_ext; intros s; rewrite liveSession_liveAt; reflexivity.
Qed.

Lemma createSession_ok c dev tok now e action d s d' : createSessionRecord c dev tok now e action d = Ok (s, d') -> sound d ->
  sound d' /\ exists row, db_matchSessions d' = db_matchSessions d ++ [row] /\ unrevoked row = true /\ ms_accessCodeId row = vc_accessCodeId c /\
    ms_tokenHash row = tok /\ ms_deviceId row = dev /\ (ms_judgeSlot row, ms_role row) = sessionRole (vc_role c) /\ ms_matchId row = vc_matchId c /\
    leaseOf row = Some (mkLease (si_sessionId s) tok e) /\
    s = mkIdentity dev e (vc_matchPublicId c) (ms_judgeSlot row) (ms_role row) (ms_id row) /\ touches [matchSessions; auditLogs] d d'.
Proof.
  intros H Hs; assert (Hs' : sound d').
  { revert H Hs; assert (Hr : respects keeps_sound (createSessionRecord c dev tok now e action)).
    { unfold createSessionRecord; destruct (sessionRole _); respects_auto. }
    intros H; exact (Hr _ _ _ H). }
  assert (Ht : touches [matchSessions; auditLogs] d d').
  { assert (Hr : respects (touches [matchSessions; auditLogs]) (createSessionRecord c dev tok now e action)).
    { unfold createSessionRecord; destruct (sessionRole _); respects_auto. }
    exact (Hr _ _ _ H). }
  split; [exact Hs' |]; unfold createSessionRecord in H; destruct (sessionRole (vc_role c)) as [slot role].
  apply bind_ok in H as (row & d1 & Hrow & H); apply (create_ok matchSessions) in Hrow as (-> & _ & Ed1).
  apply bind_ok in H as (? & d2 & Ha & H); apply (create_ok auditLogs) in Ha as (_ & _ & Ed2).
  apply bind_ok in H as (u & d3 & Hu & H); apply or_throw_ok in Hu as [[= <-] ->]; apply ret_ok in H as [<- <-].
  subst; eexists; split_and!; [reflexivity .. | exact Ht].
Qed.

Lemma acquire_free c dev tok now e action d s d' : sound d -> holder (owners d) (vc_accessCodeId c) now = None ->
  createSessionRecord c dev tok now e action d = Ok (s, d') ->
  sound d' /\ sameFrom now (owners d') (granted (vc_accessCodeId c) (mkLease (si_sessionId s) tok e) (owners d)).
Proof.
  intros Hs Hn H; destruct (createSession_ok _ _ _ _ _ _ _ _ _ H Hs) as (Hs' & row & Hl & Hu & Hk & _ & _ & _ & _ & Hle & _).
  split; [exact Hs' |]; pose proof (owners_unique _ Hs') as Ho'; rewrite Hl in *; rewrite <- Hk in *.
  exact (leases_granted now (db_matchSessions d) row _ (owners_unique _ Hs) Ho' Hn Hu Hle).
Qed.

Lemma revoke_run now s d : sound d -> In s (db_matchSessions d) -> unrevoked s = true ->
  exists d', revokeSessionRecord (ms_id s) now d = Ok (tt, d') /\ sound d' /\
    sameFrom now (owners d') (released (ms_accessCodeId s) (owners d)) /\ touches [matchSessions; auditLogs] d d'.
Proof.
  intros Hs Hin Hu; destruct (close_run (fun x => (ms_id x === ms_id s) && ms_active x)
    (fun x => x <| ms_active := false |> <| ms_revokedAt := Some now |>) d Hs ltac:(intros x; auto)) as (n & Hn & Hs').
  eexists; split_and!; [unfold revokeSessionRecord; rewrite (bind_step _ _ _ _ _ Hn); reflexivity | exact Hs' | |].
  - destruct (sessions_unique d Hs) as (Ho & Hd & _).
    exact (leases_revoked now (db_matchSessions d) s (fun x => x <| ms_active := false |> <| ms_revokedAt := Some now |>)
      Ho Hd (owners_unique _ Hs') (fun _ => eq_refl) Hin Hu).
  - eapply touches_update_many; [| exact Hn]; set_solver.
Qed.

Lemma granted_released now k l g : sameFrom now (granted k l (released k g)) (granted k l g).
Proof. intros k' t _; rewrite !holder_granted, holder_released; destruct (base.decide (k' = k)); reflexivity. Qed.

Lemma acquire_held c dev tok now e action d o d1 s d' : sound d -> In o (db_matchSessions d) -> unrevoked o = true ->
  ms_accessCodeId o = vc_accessCodeId c -> revokeSessionRecord (ms_id o) now d = Ok (tt, d1) ->
  createSessionRecord c dev tok now e action d1 = Ok (s, d') ->
  sound d' /\ sameFrom now (owners d') (granted (vc_accessCodeId c) (mkLease (si_sessionId s) tok e) (owners d)).
Proof.
  intros Hs Hin Hu Hk Hr H; destruct (revoke_run now o d Hs Hin Hu) as (d1' & Hr' & Hs1 & Hsame & _).
  rewrite Hr in Hr'; injection Hr' as <-; rewrite Hk in Hsame.
  assert (Hn : holder (owners d1) (vc_accessCodeId c) now = None).
  { rewrite (Hsame _ now (Z.le_refl _)), holder_released; destruct (base.decide _); [reflexivity | congruence]. }
  destruct (acquire_free _ _ _ _ _ _ _ _ _ Hs1 Hn H) as [Hs' Hg]; split; [exact Hs' |].
  rewrite Hg, Hsame; apply granted_released.
Qed.

Section Requests.
Context (config : MatchAccessConfig).
Context (hashSessionToken : string -> string) (compare : string -> string -> bool) (hmac : string -> string).
Context (base64url unbase64url : string -> string) (encode : json -> string) (decode : string -> option json).
Abbreviation lease s tok now := (mkLease (si_sessionId s) (hashSessionToken tok) (sessionExpiry config now)).

Lemma reverify_ok c code d locked d' : lockAndReverifyCredential compare c code d = Ok (locked, d') ->
  d' = d /\ vc_accessCodeId locked = vc_accessCodeId c /\ vc_matchId locked = vc_matchId c /\ vc_matchPublicId locked = vc_matchPublicId c.
Proof.
  intros H; unfold lockAndReverifyCredential in H.
  apply bind_ok in H as (found & d1 & Hf & H); apply gets_ok in Hf as [-> ->].
  apply bind_ok in H as (ac & d1 & Hc & H); apply or_throw_ok in Hc as [Hc ->]; apply find_first_some in Hc as [_ Hc]; to_prop.
  apply bind_ok in H as (m & d1 & Hm & H); apply (find_one_or_throw_ok matches) in Hm as [_ ->].
  apply bind_ok in H as (alive & d1 & Ha & H); apply gets_ok in Ha as [-> ->].
  apply bind_ok in H as (? & d1 & Ht & H); apply throw_if_ok in Ht as [Ht ->]; apply ret_ok in H as [<- <-]; to_prop.
  cbn; split_and!; auto.
Qed.

(** What a transaction of [login] or [takeover] leaves, where [observed] is the session it may replace. *)
Definition swapped (code : uuid) (observed : option uuid) (tok : string) (now : timestamp) (d : DB) (r : SessionAcquisitionResult) (d' : DB) : Prop :=
  sound d' /\
  match r with
  | SessionConflict c => oc_accessCodeId c = code /\ (forall l, compareSwap code observed l now (owners d) = Held (oc_observedSessionId c)) /\
      sameFrom now (owners d') (owners d)
  | SessionCreated revoked s => revoked = option_map le_session (holder (owners d) code now) /\ si_expiresAt s = sessionExpiry config now /\
      exists g, compareSwap code observed (lease s tok now) now (owners d) = Granted g /\ sameFrom now (owners d') g
  end.

Lemma swapped_later code observed tok now d d1 r d' : sameFrom now (owners d1) (owners d) ->
  swapped code observed tok now d1 r d' -> swapped code observed tok now d r d'.
Proof.
  intros Hsame [Hs' H]; split; [exact Hs' |]; pose proof (Hsame code now (Z.le_refl _)) as Hh; destruct r as [c | revoked s].
  - destruct H as (Hc & Hheld & He); split_and!; [exact Hc | | rewrite He; exact Hsame].
    intros l; specialize (Hheld l); unfold compareSwap in *; rewrite <- Hh.
    destruct (holder _ _ _) as [o |]; [destruct (_ === _) |]; try discriminate Hheld; exact Hheld.
  - destruct H as (Hr & He & g & Hg & Hsg); split_and!; [congruence | exact He |].
    pose proof (swap_proper code observed (lease s tok now) now _ _ Hsame) as Hp; rewrite Hg in Hp.
    destruct (compareSwap code observed _ now (owners d)) as [g' |]; [exists g'; split; [reflexivity | rewrite Hsg; exact Hp] | destruct Hp].
Qed.

Lemma created_expiry c dev tok now e action d s d' : createSessionRecord c dev tok now e action d = Ok (s, d') -> sound d -> si_expiresAt s = e.
Proof. intros H Hs; destruct (createSession_ok _ _ _ _ _ _ _ _ _ H Hs) as (_ & row & _ & _ & _ & _ & _ & _ & _ & _ & -> & _); reflexivity. Qed.

Lemma loginTx_swapped c code dev tok now d r d' : loginTx config hashSessionToken compare c code dev tok now d = Ok (r, d') -> sound d ->
  swapped (vc_accessCodeId c) None tok now d r d'.
Proof.
  intros H Hs; unfold loginTx in H; apply bind_ok in H as (locked & d0 & Hl & H); apply reverify_ok in Hl as (-> & Ek & _).
  destruct (deactivate_run (vc_accessCodeId locked) now d Hs) as (d1 & Hd & Hs1 & _ & Hsame).
  rewrite (bind_step _ _ _ _ _ Hd), (bind_step _ _ _ _ _ (owner_found _ now d1 Hs1)) in H; rewrite <- Ek; apply (swapped_later _ _ _ _ _ d1 _ _ Hsame).
  pose proof (holder_find (db_matchSessions d1) (vc_accessCodeId locked) now (owners_unique d1 Hs1)) as Ho; cbn [ss_key matchSessions_table] in Ho.
  destruct (find_first _ _) as [o |].
  - destruct Ho as (_ & _ & _ & le & _ & Hid & Hh); apply ret_ok in H as [<- <-]; split; [exact Hs1 |].
    split_and!; [reflexivity | | reflexivity]; intros l; unfold compareSwap; rewrite Hh; cbn; rewrite Hid; reflexivity.
  - apply bind_ok in H as (s & d2 & Hc & H); apply ret_ok in H as [<- <-].
    destruct (acquire_free _ _ _ _ _ _ _ _ _ Hs1 Ho Hc) as [Hs' Hg]; split; [exact Hs' |].
    split_and!; [rewrite Ho; reflexivity | exact (created_expiry _ _ _ _ _ _ _ _ _ Hc Hs1) | unfold compareSwap; rewrite Ho; eauto].
Qed.

Lemma takeoverTx_swapped c observed code dev tok now d r d' : takeoverTx config hashSessionToken compare c observed code dev tok now d = Ok (r, d') ->
  sound d -> swapped (vc_accessCodeId c) (Some observed) tok now d r d'.
Proof.
  intros H Hs; unfold takeoverTx in H; apply bind_ok in H as (locked & d0 & Hl & H); apply reverify_ok in Hl as (-> & Ek & _).
  destruct (deactivate_run (vc_accessCodeId locked) now d Hs) as (d1 & Hd & Hs1 & _ & Hsame).
  rewrite (bind_step _ _ _ _ _ Hd), (bind_step _ _ _ _ _ (owner_found _ now d1 Hs1)) in H; rewrite <- Ek; apply (swapped_later _ _ _ _ _ d1 _ _ Hsame).
  pose proof (holder_find (db_matchSessions d1) (vc_accessCodeId locked) now (owners_unique d1 Hs1)) as Ho; cbn [ss_key matchSessions_table] in Ho.
  destruct (find_first _ _) as [o |].
  - destruct Ho as (Hk & Hlive & Hin & le & _ & Hid & Hh); cbn [ss_id matchSessions_table] in Hid.
    destruct (bool_decide_reflect (ms_id o = observed)) as [Eo | Hne]; cbn [negb] in H.
    + apply bind_ok in H as ([] & d2 & Hr & H); apply bind_ok in H as (s & d3 & Hc & H); apply ret_ok in H as [<- <-].
      apply liveAt_spec in Hlive as [Hu _]; destruct (acquire_held _ _ _ _ _ _ _ _ _ _ _ Hs1 Hin Hu Hk Hr Hc) as [Hs' Hg]; split; [exact Hs' |].
      assert (Hs2 : sound d2) by (destruct (revoke_run now o d1 Hs1 Hin Hu) as (d2' & Hr' & Hs2 & _); rewrite Hr in Hr'; injection Hr' as <-; exact Hs2).
      split_and!; [rewrite Hh; cbn; rewrite Hid; reflexivity | exact (created_expiry _ _ _ _ _ _ _ _ _ Hc Hs2) |].
      unfold compareSwap; rewrite Hh, Hid, Eo, bool_decide_eq_true_2 by reflexivity; eauto.
    + apply ret_ok in H as [<- <-]; split; [exact Hs1 |]; split_and!; [reflexivity | | reflexivity].
      intros l; unfold compareSwap; rewrite Hh; cbn; rewrite Hid, bool_decide_eq_false_2 by congruence; reflexivity.
  - apply bind_ok in H as (s & d2 & Hc & H); apply ret_ok in H as [<- <-].
    destruct (acquire_free _ _ _ _ _ _ _ _ _ Hs1 Ho Hc) as [Hs' Hg]; split; [exact Hs' |].
    split_and!; [rewrite Ho; reflexivity | exact (created_expiry _ _ _ _ _ _ _ _ _ Hc Hs1) | unfold compareSwap; rewrite Ho; eauto].
Qed.

(** *** Resolving and revoking *)

(** The foreign keys of the sessions. *)
Definition sessionRefs (d : DB) : Prop := forall s, In s (db_matchSessions d) ->
  (exists c, In c (db_matchAccessCodes d) /\ ac_id c = ms_accessCodeId s) /\ (exists m, In m (db_matches d) /\ m_id m = ms_matchId s).

Definition publicIdOf (d : DB) (s : SessionRow) : string :=
  match find_first (fun m => m_id m === ms_matchId s) (db_matches d) with Some m => m_publicId m | None => EmptyString end.
Definition validated (d : DB) (s : SessionRow) : ValidatedMatchSession :=
  mkValidated (ms_accessCodeId s) (ms_deviceId s) (default 0 (ms_expiresAt s)) (ms_matchId s) (publicIdOf d s) (ms_judgeSlot s) (ms_role s) (ms_id s).

(** Closing idle rows does not change what a query that refuses them finds. *)
Lemma find_first_idle {A} (q p : A -> bool) g l : (forall x, p x = true -> q x = false /\ q (g x) = false) ->
  find_first q (map_where p g l) = find_first q l.
Proof.
  intros Hp; unfold map_where; induction l as [| x l IH]; cbn; [reflexivity |]; destruct (p x) eqn:E; rewrite IH; [| reflexivity].
  destruct (Hp x E) as [-> ->]; reflexivity.
Qed.

Lemma stale_idle code now s : stale code now s = true -> liveAt now s = false /\ unrevoked (s <| ms_active := false |>) = false.
Proof.
  intros Hp; split; [| reflexivity]; unfold stale in Hp; apply andb_prop in Hp as [_ Hp]; unfold liveAt, unrevoked; cbn.
  apply orb_prop in Hp as [Hp | Hp].
  - destruct (ms_expiresAt s) as [e |]; [rewrite (proj2 (Z.ltb_ge _ _)) by (apply Z.leb_le, Hp) |]; apply andb_false_r.
  - destruct (ms_revokedAt s); [rewrite bool_decide_eq_false_2 by discriminate; rewrite andb_false_r; reflexivity | discriminate].
Qed.

Lemma find_token d h s : sound d -> find_first (fun s => ms_tokenHash s === h) (db_matchSessions d) = Some s ->
  In s (db_matchSessions d) /\ ms_tokenHash s = h /\ forall x, In x (db_matchSessions d) -> ms_tokenHash x = h -> x = s.
Proof.
  intros Hs E; apply find_first_some in E as [Hin Hp]; to_prop; split_and!; auto; intros x Hx Hxh.
  destruct (sessions_unique d Hs) as (_ & _ & Hu); exact (unique_by_inj _ _ x s h Hu Hx Hin (f_equal Some Hxh) (f_equal Some Hp)).
Qed.

Lemma touch_run s now d : sound d -> In s (db_matchSessions d) -> unrevoked s = true ->
  exists d', update_many matchSessions (fun x => ms_active x && (ms_id x === ms_id s) && (ms_revokedAt x === None))
    (fun x => x <| ms_lastSeenAt := Some now |>) d = Ok (1%nat, d') /\ sound d' /\ sameFrom now (owners d') (owners d).
Proof.
  intros Hs Hin Hu; destruct (sessions_unique d Hs) as (Ho & Hd & _).
  set (p := fun x => ms_active x && (ms_id x === ms_id s) && (ms_revokedAt x === None)); set (g := fun x : SessionRow => x <| ms_lastSeenAt := Some now |>).
  assert (Hn : List.filter p (db_matchSessions d) = [s]).
  { apply filter_single; [| exact Hin | |].
    - destruct Hs as [Hwf _]; pose proof (Hwf matchSessions) as Ht; apply table_ok_true in Ht as (_ & Hpk & _).
      pose proof (unique_by_filter (row_id matchSessions) ms_id (fun _ => true) (db_matchSessions d) Hpk (fun _ _ _ => eq_refl)) as Hnd.
      rewrite filter_everything in Hnd by reflexivity; exact (NoDup_fmap_1 ms_id _ Hnd).
    - unfold p; rewrite bool_decide_eq_true_2 by reflexivity; rewrite andb_true_r; exact Hu.
    - intros y Hy Hp; unfold p in Hp; to_prop; apply Hd; auto. }
  assert (E : update_many matchSessions p g d = Ok (length (List.filter p (db_matchSessions d)), put matchSessions (map_where p g (db_matchSessions d)) d)).
  { apply (update_many_total matchSessions); [exact Hs | reflexivity | | auto].
    cbn [indexes_ok get]; rewrite !unique_by_map_where by (intros; reflexivity); reflexivity. }
  rewrite Hn in E.
  assert (Hs' : sound (put matchSessions (map_where p g (db_matchSessions d)) d)).
  { assert (Hk : respects keeps_sound (update_many matchSessions p g)) by respects_auto; exact (Hk _ _ _ E Hs). }
  eexists; split_and!; [exact E | exact Hs' |]; apply sameFrom_offers; [exact (owners_unique _ Hs') |]; intros k t le _.
  rewrite (holder_leases _ _ _ _ Ho); apply offers_touched; intros x; split_and!; reflexivity.
Qed.

Lemma resolveTx_run h now d : sound d -> sessionRefs d -> exists d',
  resolveTx h now d = Ok (option_map (validated d) (find_first (fun s => liveAt now s && (ms_tokenHash s === h)) (db_matchSessions d)), d') /\
  sound d' /\ sameFrom now (owners d') (owners d).
Proof.
  intros Hs Hrefs; unfold resolveTx; rewrite (bind_step _ _ _ _ _ (find_one_run matchSessions _ d)); cbn [get row_of].
  destruct (find_first (fun s => ms_tokenHash s === h) (db_matchSessions d)) as [i |] eqn:Ei.
  2: { assert (E : find_first (fun s => liveAt now s && (ms_tokenHash s === h)) (db_matchSessions d) = None).
       { apply find_first_none; intros x Hx; eapply find_first_none in Ei; [| exact Hx]; cbn in Ei; rewrite Ei; apply andb_false_r. }
       rewrite E; exists d; split_and!; auto; reflexivity. }
  apply (find_token d h i Hs) in Ei as (Hin & Hh & Hi); destruct (Hrefs i Hin) as ((c & Hc & Hck) & (m & Hm & Hmk)).
  rewrite (bind_step _ _ _ _ _ (find_one_run matchAccessCodes _ d)); cbn [get row_of].
  destruct (find_first (fun c => ac_id c === ms_accessCodeId i) (db_matchAccessCodes d)) as [c' |] eqn:Ec.
  2: { eapply find_first_none in Ec; [| exact Hc]; cbn in Ec; rewrite bool_decide_eq_true_2 in Ec by exact Hck; discriminate. }
  cbn [set_ negb]; destruct (deactivate_run (ms_accessCodeId i) now d Hs) as (d1 & Hd & Hs1 & Ed1 & Hsame); rewrite (bind_step _ _ _ _ _ Hd).
  assert (Hfind : forall q, (forall s, q s = true -> liveAt now s = true) ->
    (forall s, q (s <| ms_active := false |>) = false) -> find_first q (db_matchSessions d1) = find_first q (db_matchSessions d)).
  { intros q Hq Hq'; rewrite Ed1; apply find_first_idle; intros x Hx; split; [| apply Hq'].
    apply stale_idle in Hx as [Hx _]; destruct (q x) eqn:E; [rewrite (Hq x E) in Hx; discriminate | reflexivity]. }
  rewrite (bind_step _ _ _ _ _ (find_one_run matchSessions _ d1)); cbn [get row_of].
  rewrite (find_first_ext _ (fun s => liveAt now s && (ms_tokenHash s === h))) by (intros s; rewrite liveSession_liveAt; reflexivity).
  rewrite Hfind by (try (intros s E; apply andb_prop in E as [E _]; exact E); intros s; reflexivity).
  destruct (find_first _ (db_matchSessions d)) as [s |] eqn:Es; [| exists d1; auto].
  pose proof (find_first_some _ _ _ Es) as [Hins Hps]; apply andb_prop in Hps as [Hlive Hsh]; to_prop; assert (s = i) as -> by auto.
  assert (Hmatch : find_first (fun m => m_id m === ms_matchId i) (db_matches d1) = find_first (fun m => m_id m === ms_matchId i) (db_matches d)) by (rewrite Ed1; reflexivity).
  destruct (find_first (fun m => m_id m === ms_matchId i) (db_matches d)) as [m' |] eqn:Em.
  2: { eapply find_first_none in Em; [| exact Hm]; cbn in Em; rewrite bool_decide_eq_true_2 in Em by exact Hmk; discriminate. }
  rewrite (bind_step _ _ _ _ _ (find_one_or_throw_total matches _ d1 m' Hmatch)).
  assert (Hin1 : In i (db_matchSessions d1)).
  { rewrite Ed1; apply in_map_where; exists i; split; [exact Hin |]; destruct (stale _ _ i) eqn:E; [| reflexivity].
    apply stale_idle in E as [E _]; congruence. }
  pose proof Hlive as Hlive'; apply liveAt_spec in Hlive' as (Hu & e & He & _); cbn in He; rewrite He.
  rewrite (bind_step _ _ _ _ _ (owner_found _ now d1 Hs1)).
  pose proof (holder_find (db_matchSessions d1) (ms_accessCodeId i) now (owners_unique d1 Hs1)) as Ho; cbn [ss_key matchSessions_table] in Ho.
  destruct (find_first (fun s => (ms_accessCodeId s === ms_accessCodeId i) && liveAt now s) (db_matchSessions d1)) as [o |] eqn:Eo.
  2: { eapply find_first_none in Eo; [| exact Hin1]; cbn in Eo; rewrite Hlive, bool_decide_eq_true_2 in Eo by reflexivity; discriminate. }
  destruct Ho as (Hk & Hol & Hoin & _); apply liveAt_spec in Hol as [Hou _].
  assert (o = i) as -> by exact (owners_unique d1 Hs1 o i Hoin Hin1 Hou Hu Hk).
  cbn [option_map]; rewrite bool_decide_eq_true_2 by reflexivity; cbn [negb].
  destruct (touch_run i now d1 Hs1 Hin1 Hu) as (d2 & Ht & Hs2 & Hsame2); rewrite (bind_step _ _ _ _ _ Ht); cbn [Nat.eqb negb].
  exists d2; split_and!; [| exact Hs2 | rewrite Hsame2; exact Hsame].
  unfold validated, publicIdOf; rewrite Em, He; reflexivity.
Qed.

(** Who holds a credential with a token is the session the token is stored with. *)
Lemma holder_token d k t le : sound d -> holder (owners d) k t = Some le -> exists s, In s (db_matchSessions d) /\
  ms_accessCodeId s = k /\ liveAt t s = true /\ leaseOf s = Some le /\ ms_tokenHash s = le_token le /\ ms_id s = le_session le.
Proof.
  intros Hs Hh; apply holder_leases in Hh as (s & Hin & Hk & Hl & Hle); [| exact (owners_unique d Hs)]; exists s; split_and!; auto;
    unfold leaseOf in Hle; cbn in Hle; destruct (ms_expiresAt s); try discriminate; injection Hle as <-; reflexivity.
Qed.

Lemma audit_run mk d : sound d -> (forall n, al_id (mk n) = n) -> exists d', create auditLogs mk d = Ok (mk (db_nextId d), d') /\ sound d' /\
  db_matchSessions d' = db_matchSessions d.
Proof.
  intros Hs Hid; destruct (create_sound auditLogs mk d Hs) as (d' & E & Ed & Hs'); [intros n; cbn; rewrite Hid; reflexivity | reflexivity | reflexivity |].
  exists d'; split_and!; [exact E | exact Hs' | rewrite Ed; reflexivity].
Qed.

Lemma revokeTx_run h now d : sound d -> sessionRefs d -> exists r d', revokeTx h now d = Ok (r, d') /\ sound d' /\ silent h now (owners d') /\
  (sameFrom now (owners d') (owners d) \/ exists k, sameFrom now (owners d') (released k (owners d))).
Proof.
  intros Hs Hrefs; unfold revokeTx; rewrite (bind_step _ _ _ _ _ (find_one_run matchSessions _ d)); cbn [get row_of].
  destruct (find_first (fun s => ms_tokenHash s === h) (db_matchSessions d)) as [i |] eqn:Ei.
  2: { exists None, d; split_and!; [reflexivity | exact Hs | | left; reflexivity].
       intros k t le _ Hh E; destruct (holder_token d k t le Hs Hh) as (s & Hin & _ & _ & _ & Ht & _).
       eapply find_first_none in Ei; [| exact Hin]; cbn in Ei; rewrite bool_decide_eq_true_2 in Ei by congruence; discriminate. }
  apply (find_token d h i Hs) in Ei as (Hin & Hh & Hi); destruct (Hrefs i Hin) as ((c & Hc & Hck) & _).
  assert (Honly : forall k t le, holder (owners d) k t = Some le -> le_token le = h -> k = ms_accessCodeId i /\ liveAt t i = true).
  { intros k t le Hhold E; destruct (holder_token d k t le Hs Hhold) as (s & Hx & Hk & Hl & _ & Ht & _); assert (s = i) as -> by (apply Hi; [exact Hx | congruence]); auto. }
  rewrite (bind_step _ _ _ _ _ (find_one_run matchAccessCodes _ d)); cbn [get row_of].
  destruct (find_first (fun c => ac_id c === ms_accessCodeId i) (db_matchAccessCodes d)) as [c' |] eqn:Ec.
  2: { eapply find_first_none in Ec; [| exact Hc]; cbn in Ec; rewrite bool_decide_eq_true_2 in Ec by exact Hck; discriminate. }
  cbn [set_ negb]; destruct (deactivate_run (ms_accessCodeId i) now d Hs) as (d1 & Hd & Hs1 & Ed1 & Hsame); rewrite (bind_step _ _ _ _ _ Hd).
  rewrite (bind_step _ _ _ _ _ (find_one_run matchSessions _ d1)); cbn [get row_of].
  destruct (find_first (fun s => ms_active s && (ms_revokedAt s === None) && (ms_tokenHash s === h)) (db_matchSessions d1)) as [s |] eqn:Es.
  - apply find_first_some in Es as [Hins Hps]; apply andb_prop in Hps as [Hu Hsh]; apply bool_decide_eq_true in Hsh.
    assert (ms_accessCodeId s = ms_accessCodeId i) as Hk.
    { rewrite Ed1 in Hins; apply in_map_where in Hins as (x & Hx & ->); assert (x = i) as ->; [apply Hi; [exact Hx |] |];
        destruct (stale _ _ _); first [exact Hsh | reflexivity]. }
    destruct (revoke_run now s d1 Hs1 Hins Hu) as (d2 & Hr & Hs2 & Hsame2 & _).
    rewrite (bind_step _ _ _ _ _ Hr).
    destruct (audit_run (fun id => mkAuditRow id (Some (ms_matchId s)) None (Some (ms_id s)) None SESSION_ACTION (JObj [("action", JStr "LOGOUT")]%string)) d2 Hs2
      ltac:(reflexivity)) as (d3 & Ha & Hs3 & E3); rewrite (bind_step _ _ _ _ _ Ha).
    assert (Hg : sameFrom now (owners d3) (released (ms_accessCodeId i) (owners d))) by (rewrite E3, Hsame2, Hk, Hsame; reflexivity).
    exists (Some (ms_id s)), d3; split_and!; [reflexivity | exact Hs3 | |].
    + intros k t le Ht Hhold E; rewrite (Hg k t Ht), holder_released in Hhold; destruct (base.decide _) as [| Hne]; [discriminate |].
      destruct (Honly k t le Hhold E); auto.
    + right; exists (ms_accessCodeId i); exact Hg.
  - exists None, d1; split_and!; [reflexivity | exact Hs1 | | left; exact Hsame].
    intros k t le Ht Hhold E; destruct (holder_token d1 k t le Hs1 Hhold) as (x & Hx & _ & Hl & _ & Htok & _).
    eapply find_first_none in Es; [| exact Hx]; cbn in Es; apply liveAt_spec in Hl as [Hu _]; unfold unrevoked in Hu; cbn in Hu.
    rewrite Hu, bool_decide_eq_true_2 in Es by congruence; discriminate.
Qed.

(** *** The foreign keys are kept *)

Lemma refs_closed p (g : SessionRow -> SessionRow) d : (forall s, ms_accessCodeId (g s) = ms_accessCodeId s /\ ms_matchId (g s) = ms_matchId s) ->
  sessionRefs d -> sessionRefs (put matchSessions (map_where p g (db_matchSessions d)) d).
Proof.
  intros Hg Hr s Hs; apply in_map_where in Hs as (x & Hx & ->); destruct (Hr x Hx) as [Hc Hm], (Hg x) as [E1 E2].
  destruct (p x); [rewrite E1, E2 |]; split; assumption.
Qed.
Lemma refs_update_many p g : (forall s, ms_accessCodeId (g s) = ms_accessCodeId s /\ ms_matchId (g s) = ms_matchId s) ->
  respects (fun d d' => sessionRefs d -> sessionRefs d') (update_many matchSessions p g).
Proof. intros Hg d n d' H; apply (update_many_ok matchSessions) in H as (_ & _ & ->); apply refs_closed, Hg. Qed.

Lemma refs_audit mk : respects (fun d d' => sessionRefs d -> sessionRefs d') (create auditLogs mk).
Proof. intros d r d' H Hr; apply (create_ok auditLogs) in H as (_ & _ & ->); exact Hr. Qed.

#[local] Instance refs_preorder : PreOrder (fun d d' => sessionRefs d -> sessionRefs d').
Proof. split; [intros d; auto | intros d1 d2 d3; auto]. Qed.

Lemma refs_deactivate code now : respects (fun d d' => sessionRefs d -> sessionRefs d') (deactivateStaleSessions code now).
Proof. apply respects_bind; [apply _ | apply refs_update_many; auto | intros; apply respects_ret; apply _]. Qed.
Lemma refs_revoke id now : respects (fun d d' => sessionRefs d -> sessionRefs d') (revokeSessionRecord id now).
Proof. apply respects_bind; [apply _ | apply refs_update_many; auto | intros; apply respects_ret; apply _]. Qed.

Lemma refs_find t p : respects (fun d d' => sessionRefs d -> sessionRefs d') (find_one t p).
Proof. apply respects_gets; apply _. Qed.

Lemma refs_create c dev tok now e action d s d' : createSessionRecord c dev tok now e action d = Ok (s, d') -> sound d -> sessionRefs d ->
  (exists a, In a (db_matchAccessCodes d) /\ ac_id a = vc_accessCodeId c) -> (exists m, In m (db_matches d) /\ m_id m = vc_matchId c) -> sessionRefs d'.
Proof.
  intros H Hs Hr Hc Hm x Hx; destruct (createSession_ok _ _ _ _ _ _ _ _ _ H Hs) as (_ & row & Hl & _ & Hk & _ & _ & _ & Hmk & _ & _ & Ht).
  pose proof (Ht matchAccessCodes ltac:(table_notin)) as Ec; pose proof (Ht matches ltac:(table_notin)) as Em; cbn in Ec, Em.
  rewrite Ec, Em; rewrite Hl in Hx; apply in_app_iff in Hx as [Hx | [<- | []]]; [exact (Hr x Hx) |]; rewrite Hk, Hmk; split; assumption.
Qed.

Lemma reverify_refs c code d locked d' : lockAndReverifyCredential compare c code d = Ok (locked, d') ->
  (exists a, In a (db_matchAccessCodes d) /\ ac_id a = vc_accessCodeId locked) /\ (exists m, In m (db_matches d) /\ m_id m = vc_matchId locked).
Proof.
  intros H; unfold lockAndReverifyCredential in H.
  apply bind_ok in H as (found & d1 & Hf & H); apply gets_ok in Hf as [-> ->].
  apply bind_ok in H as (ac & d1 & Hc & H); apply or_throw_ok in Hc as [Hc ->]; apply find_first_some in Hc as [Hin Hc]; to_prop.
  apply bind_ok in H as (m & d1 & Hm & H); apply (find_one_or_throw_ok matches) in Hm as [Hm ->]; apply find_first_some in Hm as [Hmin Hm]; to_prop.
  apply bind_ok in H as (alive & d1 & Ha & H); apply gets_ok in Ha as [-> ->].
  apply bind_ok in H as (? & d1 & Ht & H); apply throw_if_ok in Ht as [_ ->]; apply ret_ok in H as [<- <-]; split; [exists ac | exists m]; auto.
Qed.

Lemma deactivate_tables code now d d1 : deactivateStaleSessions code now d = Ok (tt, d1) -> sound d ->
  sound d1 /\ db_matchAccessCodes d1 = db_matchAccessCodes d /\ db_matches d1 = db_matches d.
Proof.
  intros H Hs; destruct (deactivate_run code now d Hs) as (d1' & E & Hs1 & Ed & _); rewrite H in E; injection E as <-; split_and!; [exact Hs1 | rewrite Ed; reflexivity ..].
Qed.

Lemma loginTx_refs c code dev tok now d r d' : loginTx config hashSessionToken compare c code dev tok now d = Ok (r, d') -> sound d -> sessionRefs d -> sessionRefs d'.
Proof.
  intros H Hs Hr; unfold loginTx in H; apply bind_ok in H as (locked & d0 & Hl & H); pose proof (reverify_refs _ _ _ _ _ Hl) as [Hc Hm].
  apply reverify_ok in Hl as (-> & _); apply bind_ok in H as ([] & d1 & Hd & H); pose proof (refs_deactivate _ _ _ _ _ Hd Hr) as Hr1.
  destruct (deactivate_tables _ _ _ _ Hd Hs) as (Hs1 & Ec & Em); rewrite <- Ec in Hc; rewrite <- Em in Hm.
  apply bind_ok in H as (o & d2 & Ho & H); apply gets_ok in Ho as [-> ->]; destruct (find_first _ _); [apply ret_ok in H as [_ <-]; exact Hr1 |].
  apply bind_ok in H as (s & d2 & Hs2 & H); apply ret_ok in H as [_ <-]; exact (refs_create _ _ _ _ _ _ _ _ _ Hs2 Hs1 Hr1 Hc Hm).
Qed.

Lemma takeoverTx_refs c obs code dev tok now d r d' : takeoverTx config hashSessionToken compare c obs code dev tok now d = Ok (r, d') ->
  sound d -> sessionRefs d -> sessionRefs d'.
Proof.
  intros H Hs Hr; unfold takeoverTx in H; apply bind_ok in H as (locked & d0 & Hl & H); pose proof (reverify_refs _ _ _ _ _ Hl) as [Hc Hm].
  apply reverify_ok in Hl as (-> & _); apply bind_ok in H as ([] & d1 & Hd & H); pose proof (refs_deactivate _ _ _ _ _ Hd Hr) as Hr1.
  destruct (deactivate_tables _ _ _ _ Hd Hs) as (Hs1 & Ec & Em); rewrite <- Ec in Hc; rewrite <- Em in Hm.
  rewrite (bind_step _ _ _ _ _ (owner_found _ now d1 Hs1)) in H.
  destruct (find_first _ _) as [o |] eqn:Eo; [destruct (_ !== _); [apply ret_ok in H as [_ <-]; exact Hr1 |] |].
  - apply find_first_some in Eo as [Hin Hp]; apply andb_prop in Hp as [_ Hp]; apply liveAt_spec in Hp as [Hu _].
    apply bind_ok in H as ([] & d2 & Hrev & H); apply bind_ok in H as (s & d3 & Hs2 & H); apply ret_ok in H as [_ <-].
    pose proof (refs_revoke _ _ _ _ _ Hrev Hr1) as Hr2; destruct (revoke_run now o d1 Hs1 Hin Hu) as (d2' & E & Hs2' & _ & Ht).
    rewrite Hrev in E; injection E as <-; pose proof (Ht matchAccessCodes ltac:(table_notin)) as Ec2; pose proof (Ht matches ltac:(table_notin)) as Em2; cbn in Ec2, Em2.
    rewrite <- Ec2 in Hc; rewrite <- Em2 in Hm; exact (refs_create _ _ _ _ _ _ _ _ _ Hs2 Hs2' Hr2 Hc Hm).
  - apply bind_ok in H as (s & d2 & Hs2 & H); apply ret_ok in H as [_ <-]; exact (refs_create _ _ _ _ _ _ _ _ _ Hs2 Hs1 Hr1 Hc Hm).
Qed.

(** A request leaves a sound store, whose foreign keys hold if they did. *)
Definition keeps (d d' : DB) : Prop := sound d' /\ (sessionRefs d -> sessionRefs d').
Lemma keeps_same d : sound d -> keeps d d.
Proof. split; auto. Qed.

(** ** Whole requests *)

Lemma verify_pure code id d c d' : verifyCredential compare id code d = Ok (c, d') -> d' = d.
Proof.
  intros H; unfold verifyCredential in H; apply bind_ok in H as (found & d1 & Hf & H); apply gets_ok in Hf as [-> ->].
  apply bind_ok in H as (m & d1 & Hm & H); apply or_throw_ok in Hm as [_ ->]; apply bind_ok in H as (b & d1 & Hb & H); apply gets_ok in Hb as [-> ->].
  apply bind_ok in H as (? & d1 & Ht & H); apply throw_if_ok in Ht as [_ ->].
  apply bind_ok in H as (ac & d1 & Hac & H); apply gets_ok in Hac as [-> ->]; apply bind_ok in H as (? & d1 & Ht & H); apply throw_if_ok in Ht as [_ ->].
  apply bind_ok in H as (a & d1 & Ha & H); apply or_throw_ok in Ha as [_ ->]; apply ret_ok in H as [_ <-]; reflexivity.
Qed.

Lemma quiet_normalize id code dev : leads quiet (normalizeLoginInput id code dev).
Proof. apply leads_bind; [apply _ | apply leads_refuse_if; apply _ | intros; apply leads_ret; apply _]. Qed.

(** The preliminaries of [login] and [takeover]: a failure or the verified credential, with the
    database as it was. *)
Lemma verified_inv id code w (k : VerifiedCredential -> Req AccessAnswer) r w' :
  (c ← inDb (verifyCredential compare id code); k c) w = (r, w') ->
  (w' = w /\ exists e, r = Err e) \/ exists c w1, quiet w w1 /\ k c w1 = (r, w').
Proof.
  intros H; apply req_bind_inv in H as [(e & H & ->) | (c & w1 & H & Hk)].
  - left; apply inDb_inv in H as [(e' & _ & _ & ->) | (a & [=] & _)]; eauto.
  - right; apply inDb_inv in H as [(e' & [=] & _) | (a & [= <-] & Hc & _ & Hcl)]; apply verify_pure in Hc.
    exists c, w1; split; [split; [exact Hc | exact Hcl] | exact Hk].
Qed.

(** What a login, which has observed no session, or a takeover of the session [observed] answers: it
    compares and swaps the lease of its credential, and the sockets of a replaced session are closed. *)
Definition outcome (observed : option uuid) (tok nonce : string) (now : timestamp) (w : Server) (r : result error AccessAnswer) (w' : Server) : Prop :=
  match r with
  | Ok (CreatedMatchSession s t) => t = tok /\ si_expiresAt s = sessionExpiry config now /\ exists k g,
      compareSwap k observed (lease s tok now) now (owners (sv_db w)) = Granted g /\ sameFrom now (owners (sv_db w')) g /\
      sv_closed w' = sv_closed w ++ match holder (owners (sv_db w)) k now with Some o => [le_session o] | None => [] end
  | Ok (SessionAlreadyActive t) => exists c, t = createTakeoverToken hmac base64url encode c now nonce /\
      (forall l, compareSwap (oc_accessCodeId c) observed l now (owners (sv_db w)) = Held (oc_observedSessionId c)) /\
      sameFrom now (owners (sv_db w')) (owners (sv_db w)) /\ sv_closed w' = sv_closed w
  | Err _ => sv_db w' = sv_db w /\ sv_closed w' = sv_closed w
  end.

Lemma outcome_quiet observed tok nonce now w1 w2 r w' : quiet w1 w2 -> outcome observed tok nonce now w2 r w' -> outcome observed tok nonce now w1 r w'.
Proof. intros [Hd Hc]; unfold outcome; rewrite Hd, Hc; auto. Qed.

Lemma outcome_refused observed tok nonce now w e w' : quiet w w' -> outcome observed tok nonce now w (Err e) w'.
Proof. intros [Hd Hc]; split; assumption. Qed.

Lemma login_outcome id code dev addr tok nonce now w : sound (sv_db w) -> forall r w',
  login config hashSessionToken compare hmac base64url encode id code dev addr tok nonce now w = (r, w') ->
  outcome None tok nonce now w r w' /\ keeps (sv_db w) (sv_db w').
Proof.
  intros Hs r w' H; unfold login in H; apply req_bind_inv in H as [(e & H & ->) | ([[dev' id'] code'] & w1 & H1 & H)].
  { pose proof (quiet_normalize _ _ _ _ _ _ H) as Hq; split; [exact (outcome_refused _ _ _ _ _ _ _ Hq) | destruct Hq as [-> _]; exact (keeps_same _ Hs)]. }
  pose proof (quiet_normalize _ _ _ _ _ _ H1) as Hq1; apply req_bind_inv in H as [(e & H & ->) | (u & w2 & H2 & H)].
  { pose proof (quiet_limitAttempts _ _ _ _ _ _ _ _ _ _ H) as Hq; assert (Hq' : quiet w w') by (transitivity w1; assumption).
    split; [exact (outcome_refused _ _ _ _ _ _ _ Hq') | destruct Hq' as [-> _]; exact (keeps_same _ Hs)]. }
  pose proof (quiet_limitAttempts _ _ _ _ _ _ _ _ _ _ H2) as Hq2; assert (Hq : quiet w w2) by (transitivity w1; assumption).
  apply verified_inv in H as [(-> & e & ->) | (c & w3 & Hq3 & H)]; [split; [exact (outcome_refused _ _ _ _ _ _ _ Hq) | destruct Hq as [-> _]; exact (keeps_same _ Hs)] |].
  assert (Hq' : quiet w w3) by (transitivity w2; assumption); pose proof Hq' as [Ed Ec]; apply req_bind_inv in H as [(e & H & ->) | (result & w4 & H & Hr)].
  { apply inDb_inv in H as [(e' & _ & _ & ->) | (a & [=] & _)]; split; [exact (outcome_refused _ _ _ _ _ _ _ Hq') | rewrite Ed; exact (keeps_same _ Hs)]. }
  apply inDb_inv in H as [(e' & [=] & _) | (a & [= <-] & Htx & _ & Hcl)]; rewrite Ed in Htx.
  pose proof (loginTx_refs _ _ _ _ _ _ _ _ Htx Hs) as Hrefs; apply loginTx_swapped in Htx as [Hs' Hsw]; [| exact Hs].
  destruct result as [cf | revoked s]; injection Hr as <- <-; (split; [| split; assumption]).
  - destruct Hsw as (Hc & Hheld & Hsame); exists cf; split_and!; [reflexivity | rewrite Hc; exact Hheld | exact Hsame | congruence].
  - destruct Hsw as (_ & He & g & Hg & Hsame); split_and!; [reflexivity | exact He |]; exists (vc_accessCodeId c), g; split_and!; [exact Hg | exact Hsame |].
    apply swap_granted in Hg as (_ & [Hn | (o & _ & [=])]); rewrite Hn, app_nil_r; congruence.
Qed.

Lemma takeover_outcome id code dev tk addr tok nonce now w : sound (sv_db w) -> forall r w',
  takeover config hashSessionToken compare hmac base64url unbase64url encode decode id code dev tk addr tok nonce now w = (r, w') ->
  outcome (option_map (fun c => oc_observedSessionId (tc_conflict c)) (verifyTakeoverToken hmac unbase64url decode tk now)) tok nonce now w r w' /\
  keeps (sv_db w) (sv_db w').
Proof.
  intros Hs r w' H; unfold takeover in H; apply req_bind_inv in H as [(e & H & ->) | ([[dev' id'] code'] & w1 & H1 & H)].
  { pose proof (quiet_normalize _ _ _ _ _ _ H) as Hq; split; [exact (outcome_refused _ _ _ _ _ _ _ Hq) | destruct Hq as [-> _]; exact (keeps_same _ Hs)]. }
  pose proof (quiet_normalize _ _ _ _ _ _ H1) as Hq1; destruct (verifyTakeoverToken _ _ _ _ _) as [challenge |].
  2: { injection H as <- <-; split; [exact (outcome_refused _ _ _ _ _ _ _ Hq1) | destruct Hq1 as [-> _]; exact (keeps_same _ Hs)]. }
  cbn [or_refuse option_map] in *; rewrite (req_bind_step _ _ w1 challenge w1 eq_refl) in H.
  apply req_bind_inv in H as [(e & H & ->) | (u & w2 & H2 & H)].
  { apply refuse_if_err in H as ->; split; [exact (outcome_refused _ _ _ _ _ _ _ Hq1) | destruct Hq1 as [-> _]; exact (keeps_same _ Hs)]. }
  apply refuse_if_ok in H2 as [_ ->]; apply req_bind_inv in H as [(e & H & ->) | (u' & w2 & H2 & H)].
  { pose proof (quiet_limitAttempts _ _ _ _ _ _ _ _ _ _ H) as Hq; assert (Hq' : quiet w w') by (transitivity w1; assumption).
    split; [exact (outcome_refused _ _ _ _ _ _ _ Hq') | destruct Hq' as [-> _]; exact (keeps_same _ Hs)]. }
  pose proof (quiet_limitAttempts _ _ _ _ _ _ _ _ _ _ H2) as Hq2; assert (Hq : quiet w w2) by (transitivity w1; assumption).
  apply verified_inv in H as [(-> & e & ->) | (c & w3 & Hq3 & H)]; [split; [exact (outcome_refused _ _ _ _ _ _ _ Hq) | destruct Hq as [-> _]; exact (keeps_same _ Hs)] |].
  assert (Hq' : quiet w w3) by (transitivity w2; assumption); pose proof Hq' as [Ed Ec]; apply req_bind_inv in H as [(e & H & ->) | (u2 & w4 & H4 & H)].
  { apply refuse_if_err in H as ->; split; [exact (outcome_refused _ _ _ _ _ _ _ Hq') | rewrite Ed; exact (keeps_same _ Hs)]. }
  apply refuse_if_ok in H4 as [_ ->]; apply req_bind_inv in H as [(e & H & ->) | (result & w4 & H & Hr)].
  { apply inDb_inv in H as [(e' & _ & _ & ->) | (a & [=] & _)]; split; [exact (outcome_refused _ _ _ _ _ _ _ Hq') | rewrite Ed; exact (keeps_same _ Hs)]. }
  apply inDb_inv in H as [(e' & [=] & _) | (a & [= <-] & Htx & _ & Hcl)]; rewrite Ed in Htx.
  pose proof (takeoverTx_refs _ _ _ _ _ _ _ _ _ Htx Hs) as Hrefs; apply takeoverTx_swapped in Htx as [Hs' Hsw]; [| exact Hs].
  destruct result as [cf | revoked s].
  - injection Hr as <- <-; split; [| split; assumption]; destruct Hsw as (Hc & Hheld & Hsame).
    exists cf; split_and!; [reflexivity | rewrite Hc; exact Hheld | exact Hsame | congruence].
  - destruct Hsw as (Hrev & He & g & Hg & Hsame); subst revoked; destruct (holder (owners (sv_db w)) (vc_accessCodeId c) now) as [o |] eqn:Eh; injection Hr as <- <-;
      (split; [| split; assumption]); split_and!; [reflexivity | exact He | | reflexivity | exact He |];
      exists (vc_accessCodeId c), g; rewrite Eh; split_and!; [exact Hg | exact Hsame | cbn; congruence | exact Hg | exact Hsame | rewrite app_nil_r; congruence].
Qed.

Ltac refs := repeat first
  [ apply respects_bind; [apply _ | | intros] | apply respects_ret; apply _ | apply refs_find | apply refs_deactivate | apply refs_revoke | apply refs_audit
  | apply refs_update_many; auto | apply respects_gets; apply _ | apply respects_or_throw; apply _ | case_match ].
Lemma resolveTx_refs h now : respects (fun d d' => sessionRefs d -> sessionRefs d') (resolveTx h now).
Proof. unfold resolveTx, findCurrentOwner, find_one_or_throw; refs. Qed.
Lemma revokeTx_refs h now : respects (fun d d' => sessionRefs d -> sessionRefs d') (revokeTx h now).
Proof. unfold revokeTx; refs. Qed.

(** One request of the service at a time, with the session token it draws. *)
Inductive access_request (now : timestamp) (w w' : Server) : option string -> Prop :=
  | request_login id code dev addr tok nonce r :
      login config hashSessionToken compare hmac base64url encode id code dev addr tok nonce now w = (r, w') -> access_request now w w' (Some tok)
  | request_takeover id code dev tk addr tok nonce r :
      takeover config hashSessionToken compare hmac base64url unbase64url encode decode id code dev tk addr tok nonce now w = (r, w') ->
      access_request now w w' (Some tok)
  | request_resolve tok r : resolveSession config hashSessionToken tok now w = (r, w') -> access_request now w w' None
  | request_revoke tok r : revokeSession hashSessionToken tok now w = (r, w') -> access_request now w w' None.

(** What a request does to the register of the store. *)
Definition registered_step (now : timestamp) (w w' : Server) (drawn : option string) : Prop :=
  (exists g, registerStep now (owners (sv_db w)) g /\ sameFrom now (owners (sv_db w')) g) /\
  forall h, (forall t, drawn = Some t -> hashSessionToken t <> h) -> silent h now (owners (sv_db w)) -> silent h now (owners (sv_db w')).

Lemma unchanged_step now w w' drawn : sameFrom now (owners (sv_db w')) (owners (sv_db w)) -> registered_step now w w' drawn.
Proof. intros H; split; [exists (owners (sv_db w)); split; [constructor | exact H] | intros h _; rewrite H; auto]. Qed.

Lemma outcome_step observed tok nonce now w r w' : outcome observed tok nonce now w r w' -> registered_step now w w' (Some tok).
Proof.
  destruct r as [[s t | t] | e]; intros H.
  - destruct H as (_ & _ & k & g & Hg & Hsame & _); split; [exists g; split; [eapply access_granted; exact Hg | exact Hsame] |].
    intros h Hh Hq; rewrite Hsame; apply swap_granted in Hg as [-> _]; apply silent_granted; [apply (Hh tok eq_refl) | exact Hq].
  - destruct H as (c & _ & _ & Hsame & _); exact (unchanged_step _ _ _ _ Hsame).
  - destruct H as [E _]; apply unchanged_step; rewrite E; reflexivity.
Qed.

(** [login] and [takeover] keep the foreign keys. *)
Lemma db_respects {A} (R : DB -> DB -> Prop) `{!PreOrder R} (c : DbM A) : respects R c -> leads (fun w w' => R (sv_db w) (sv_db w')) (inDb c).
Proof. intros Hc w r w' H; apply inDb_inv in H as [(e & _ & _ & ->) | (a & _ & Hd & _)]; [reflexivity | exact (Hc _ _ _ Hd)]. Qed.

Lemma resolveSession_run tok now w : sound (sv_db w) -> sessionRefs (sv_db w) -> exists r w', resolveSession config hashSessionToken tok now w = (Ok r, w') /\
  keeps (sv_db w) (sv_db w') /\ sameFrom now (owners (sv_db w')) (owners (sv_db w)) /\ sv_closed w' = sv_closed w /\
  r = if legacyAccessEnabled config && SESSION_TOKEN_PATTERN tok
      then option_map (validated (sv_db w)) (find_first (fun s => liveAt now s && (ms_tokenHash s === hashSessionToken tok)) (db_matchSessions (sv_db w)))
      else None.
Proof.
  intros Hs Hr; unfold resolveSession; destruct (legacyAccessEnabled config), (SESSION_TOKEN_PATTERN tok); cbn [negb andb];
    try (exists None, w; split_and!; [reflexivity | apply keeps_same, Hs | reflexivity ..]).
  destruct (resolveTx_run (hashSessionToken tok) now (sv_db w) Hs Hr) as (d' & H & Hs' & Hsame).
  eexists _, (mkServer d' (sv_redis w) (sv_closed w)); split_and!; [unfold inDb; rewrite H; reflexivity | | exact Hsame | reflexivity ..].
  split; [exact Hs' | exact (resolveTx_refs _ _ _ _ _ H)].
Qed.

Lemma revokeSession_run tok now w : sound (sv_db w) -> sessionRefs (sv_db w) -> exists w', revokeSession hashSessionToken tok now w = (Ok tt, w') /\
  keeps (sv_db w) (sv_db w') /\ registered_step now w w' None /\ (SESSION_TOKEN_PATTERN tok = true -> silent (hashSessionToken tok) now (owners (sv_db w'))).
Proof.
  intros Hs Hr; unfold revokeSession; destruct (SESSION_TOKEN_PATTERN tok); cbn [negb].
  2: { exists w; split_and!; [reflexivity | apply keeps_same, Hs | apply unchanged_step; reflexivity | discriminate]. }
  destruct (revokeTx_run (hashSessionToken tok) now (sv_db w) Hs Hr) as (r & d' & H & Hs' & Hq & Hsame).
  assert (Hstep : forall st closed, let w' := mkServer d' st closed in
    keeps (sv_db w) (sv_db w') /\ registered_step now w w' None /\ (true = true -> silent (hashSessionToken tok) now (owners (sv_db w')))).
  { intros st closed; cbn; split_and!; [split; [exact Hs' | exact (revokeTx_refs _ _ _ _ _ H)] | | intros _; exact Hq].
    destruct Hsame as [Hsame | (k & Hsame)]; [apply unchanged_step, Hsame |]; split; [exists (released k (owners (sv_db w))); split; [constructor | exact Hsame] |].
    intros h _ Hh; cbn; rewrite Hsame; apply silent_released, Hh. }
  rewrite (req_bind_step _ _ w r (mkServer d' (sv_redis w) (sv_closed w))) by (unfold inDb; rewrite H; reflexivity).
  destruct r as [id |]; eexists; (split; [reflexivity | apply Hstep]).
Qed.

Lemma request_registered now w w' drawn : access_request now w w' drawn -> sound (sv_db w) -> sessionRefs (sv_db w) ->
  sound (sv_db w') /\ sessionRefs (sv_db w') /\ registered_step now w w' drawn.
Proof.
  intros Hreq Hs Hr; enough (keeps (sv_db w) (sv_db w') /\ registered_step now w w' drawn) as [[Hs' Hr'] Hstep] by auto; destruct Hreq as [??????? H | ???????? H | ?? H | ?? H].
  - destruct (login_outcome _ _ _ _ _ _ _ _ Hs _ _ H) as [Ho Hk]; split; [exact Hk | exact (outcome_step _ _ _ _ _ _ _ Ho)].
  - destruct (takeover_outcome _ _ _ _ _ _ _ _ _ Hs _ _ H) as [Ho Hk]; split; [exact Hk | exact (outcome_step _ _ _ _ _ _ _ Ho)].
  - destruct (resolveSession_run tok now w Hs Hr) as (r' & w1 & E & Hk & Hsame & _); rewrite E in H; injection H as <- <-; split; [exact Hk | exact (unchanged_step _ _ _ _ Hsame)].
  - destruct (revokeSession_run tok now w Hs Hr) as (w1 & E & Hk & Hstep & _); rewrite E in H; injection H as <- <-; split; [exact Hk | exact Hstep].
Qed.

(** Requests in the order of their times, none of which draws a token with the hash [h]. *)
Inductive later (h : string) : timestamp -> Server -> timestamp -> Server -> Prop :=
  | later_here t t' w : t <= t' -> later h t w t' w
  | later_step t t1 w w1 drawn t' w' : t <= t1 -> access_request t1 w w1 drawn -> (forall tok, drawn = Some tok -> hashSessionToken tok <> h) ->
      later h t1 w1 t' w' -> later h t w t' w'.

Lemma silent_stays h t w t' w' : later h t w t' w' -> sound (sv_db w) -> sessionRefs (sv_db w) -> silent h t (owners (sv_db w)) ->
  sound (sv_db w') /\ sessionRefs (sv_db w') /\ silent h t' (owners (sv_db w')).
Proof.
  induction 1 as [t t' w Hle | t t1 w w1 drawn t' w' Hle Hreq Hd _ IH]; intros Hs Hr Hq; [split_and!; [exact Hs | exact Hr | exact (silent_later _ _ _ _ Hle Hq)] |].
  destruct (request_registered _ _ _ _ Hreq Hs Hr) as (Hs1 & Hr1 & _ & Hstep); apply IH; [exact Hs1 | exact Hr1 |].
  apply Hstep; [exact Hd | exact (silent_later _ _ _ _ Hle Hq)].
Qed.

Lemma silent_unresolved tok now w : sound (sv_db w) -> sessionRefs (sv_db w) -> silent (hashSessionToken tok) now (owners (sv_db w)) ->
  exists w', resolveSession config hashSessionToken tok now w = (Ok None, w').
Proof.
  intros Hs Hr Hq; destruct (resolveSession_run tok now w Hs Hr) as (r & w' & H & _ & _ & _ & Er); exists w'; rewrite H; repeat f_equal; rewrite Er.
  destruct (_ && _); [| reflexivity]; destruct (find_first _ _) as [s |] eqn:E; [exfalso | reflexivity].
  apply find_first_some in E as [Hin Hp]; apply andb_prop in Hp as [Hl Ht]; to_prop; pose proof Hl as Hl'; apply liveAt_spec in Hl' as (_ & e & He & _).
  apply (Hq (ms_accessCodeId s) now (mkLease (ms_id s) (ms_tokenHash s) e) (Z.le_refl _)); [| exact Ht].
  apply holder_leases; [exact (owners_unique _ Hs) |]; exists s; split_and!; auto; unfold leaseOf; rewrite He; reflexivity.
Qed.

(** A session replaced by another token is out of the register. *)
Lemma replaced_silent observed tok nonce now w s w' k o h : sound (sv_db w) -> outcome observed tok nonce now w (Ok (CreatedMatchSession s tok)) w' ->
  holder (owners (sv_db w)) k now = Some o -> le_token o = h -> sv_closed w' = sv_closed w ++ [le_session o] -> hashSessionToken tok <> h ->
  silent h now (owners (sv_db w')).
Proof.
  intros Hs (_ & _ & k' & g & Hg & Hsame & Hcl) Ho Ht Hc Hne; rewrite Hc in Hcl; apply app_inv_head in Hcl.
  destruct (holder (owners (sv_db w)) k' now) as [o' |] eqn:Eo'; [injection Hcl as Hid | discriminate].
  destruct (holder_token _ _ _ _ Hs Ho) as (y & Hy & Hky & _ & Hly & Hty & Hiy), (holder_token _ _ _ _ Hs Eo') as (y' & Hy' & Hky' & _ & _ & _ & Hiy').
  destruct (sessions_unique _ Hs) as (_ & Hd & Hu); assert (y' = y) as -> by (apply Hd; auto; cbn; congruence); assert (k' = k) as -> by congruence.
  apply swap_granted in Hg as [-> _]; intros k'' t le Hle; rewrite (Hsame k'' t Hle), holder_granted; destruct (base.decide (k'' = k)) as [| Hk].
  - destruct (t <? _); [intros [= <-]; exact Hne | discriminate].
  - intros Hh Heq; destruct (holder_token _ _ _ _ Hs Hh) as (x & Hx & Hkx & _ & _ & Htx & _); apply Hk.
    rewrite <- Hkx, <- Hky; f_equal; eapply (unique_by_inj _ _ x y h Hu Hx Hy); cbn; congruence.
Qed.
End Requests.

(** ** Properties *)

Section Properties.
Context (config : MatchAccessConfig).
Context (hashSessionToken : string -> string) (compare : string -> string -> bool) (hmac : string -> string).
Context (base64url unbase64url : string -> string) (encode : json -> string) (decode : string -> option json).

(** C27: The sessions of the access codes implement the register of leases: a login is a compare and
    swap that has observed no session, a takeover one that has observed the session its token names. A
    granted request leaves its new session as the only holder until the session expires and closes
    the sockets of the session it replaced; a refused one (409) names the holder in the takeover
    token it answers with; every other error leaves the database as it was. *)
Theorem acquisition_swaps id code dev tk addr tok nonce now w (Hs : sound (sv_db w)) :
  (forall r w', login config hashSessionToken compare hmac base64url encode id code dev addr tok nonce now w = (r, w') ->
     outcome config hashSessionToken hmac base64url encode None tok nonce now w r w') /\
  (forall r w', takeover config hashSessionToken compare hmac base64url unbase64url encode decode id code dev tk addr tok nonce now w = (r, w') ->
     outcome config hashSessionToken hmac base64url encode
       (option_map (fun c => oc_observedSessionId (tc_conflict c)) (verifyTakeoverToken hmac unbase64url decode tk now)) tok nonce now w r w').
Proof.
  split; intros r w' H.
  - eapply login_outcome; eassumption.
  - eapply takeover_outcome; eassumption.
Qed.

(** Resolving a session token never fails; it finds a session exactly when legacy access is
    enabled, the token has the form of one and the session it was issued with holds its access code at
    that time, and answers that session's role, slot, device and expiry. It changes no holder. *)
Theorem resolve_finds_holder tok now w (Hs : sound (sv_db w)) (Hr : sessionRefs (sv_db w)) :
  exists r w', resolveSession config hashSessionToken tok now w = (Ok r, w') /\
    sameFrom now (owners (sv_db w')) (owners (sv_db w)) /\
    match r with
    | Some v => legacyAccessEnabled config = true /\ SESSION_TOKEN_PATTERN tok = true /\
        holder (owners (sv_db w)) (vs_accessCodeId v) now = Some (mkLease (vs_sessionId v) (hashSessionToken tok) (vs_expiresAt v)) /\
        exists s, In s (db_matchSessions (sv_db w)) /\ v = validated (sv_db w) s
    | None => legacyAccessEnabled config = false \/ SESSION_TOKEN_PATTERN tok = false \/
        forall k le, holder (owners (sv_db w)) k now = Some le -> le_token le <> hashSessionToken tok
    end.
Proof.
  destruct (resolveSession_run config hashSessionToken tok now w Hs Hr) as (r & w' & H & _ & Hsame & _ & ->).
  eexists _, w'; split_and!; [exact H | exact Hsame |]; destruct (legacyAccessEnabled config), (SESSION_TOKEN_PATTERN tok); cbn [andb]; auto.
  destruct (find_first _ _) as [s |] eqn:E; cbn [option_map].
  - apply find_first_some in E as [Hin Hp]; apply andb_prop in Hp as [Hl Ht]; to_prop; split_and!; [reflexivity .. | | eauto].
    pose proof Hl as Hl'; apply liveAt_spec in Hl' as (_ & e & He & _); cbn in He |- *; rewrite He.
    apply holder_leases; [exact (owners_unique _ Hs) |]; exists s; split_and!; auto; unfold leaseOf; cbn; rewrite He, Ht; reflexivity.
  - right; right; intros k le Hh Heq; destruct (holder_token _ _ _ _ Hs Hh) as (s & Hin & _ & Hl & _ & Ht & _).
    eapply find_first_none in E; [| exact Hin]; cbn in E; rewrite Hl, bool_decide_eq_true_2 in E by congruence; discriminate.
Qed.

(** C28: A session that was revoked, or replaced by a takeover, is over for good: however the requests
    go on, as long as its token is not drawn again it never resolves. *)
Theorem ended_stays_ended tok now w r w1 now' w' (Hs : sound (sv_db w)) (Hr : sessionRefs (sv_db w))
    (H : revokeSession hashSessionToken tok now w = (r, w1) \/
         exists id code dev tk addr tok' nonce s k o,
           takeover config hashSessionToken compare hmac base64url unbase64url encode decode id code dev tk addr tok' nonce now w =
             (Ok (CreatedMatchSession s tok'), w1) /\
           holder (owners (sv_db w)) k now = Some o /\ le_token o = hashSessionToken tok /\
           sv_closed w1 = sv_closed w ++ [le_session o] /\ hashSessionToken tok' <> hashSessionToken tok)
    (Hlater : later config hashSessionToken compare hmac base64url unbase64url encode decode (hashSessionToken tok) now w1 now' w') :
  exists w'', resolveSession config hashSessionToken tok now' w' = (Ok None, w'').
Proof.
  destruct (SESSION_TOKEN_PATTERN tok) eqn:Ep.
  2: { unfold resolveSession; destruct (legacyAccessEnabled config); rewrite ?Ep; eexists; reflexivity. }
  assert (Hq : keeps (sv_db w) (sv_db w1) /\ silent (hashSessionToken tok) now (owners (sv_db w1))).
  { destruct H as [H | (id & code & dev & tk & addr & tok' & nonce & s & k & o & H & Ho & Ht & Hc & Hne)].
    - destruct (revokeSession_run hashSessionToken tok now w Hs Hr) as (w2 & E & Hk & _ & Hq); rewrite E in H; injection H as <- <-; auto.
    - destruct (takeover_outcome _ _ _ _ _ _ _ _ _ _ _ _ _ _ _ _ _ Hs _ _ H) as [Hout Hk]; split; [exact Hk |].
      exact (replaced_silent _ _ _ _ _ _ _ _ _ _ _ _ _ _ _ Hs Hout Ho Ht Hc Hne). }
  destruct Hq as [[Hs1 Hr1] Hq]; destruct (silent_stays _ _ _ _ _ _ _ _ _ _ _ _ _ Hlater Hs1 (Hr1 Hr) Hq) as (Hs' & Hr' & Hq').
  exact (silent_unresolved _ _ _ _ _ Hs' Hr' Hq').
Qed.

(** The codec carries one challenge. *)
Definition carriesChallenge (c : TakeoverChallenge) : Prop :=
  decode (encode (challengeJson c)) = Some (challengeJson c) /\ isToken (encode (challengeJson c)) = true /\
  isToken (base64url (hmac (encode (challengeJson c)))) = true /\
  unbase64url (base64url (hmac (encode (challengeJson c)))) = hmac (encode (challengeJson c)) /\
  (String.length (sign hmac base64url (encode (challengeJson c))) <= 2048)%nat.

Definition challengeFits (c : TakeoverChallenge) : bool :=
  (0 <? utf16Length (oc_matchPublicId (tc_conflict c))) && (utf16Length (oc_matchPublicId (tc_conflict c)) <=? 32) &&
  (0 <? utf16Length (oc_deviceId (tc_conflict c))) && (utf16Length (oc_deviceId (tc_conflict c)) <=? 255) &&
  (String.length (tc_nonce c) =? 22)%nat && forallChars isBase64Url (tc_nonce c) && isSafeInteger (tc_expiresAt c).

(** A takeover token is read back as the challenge it was made of for 120 seconds and refused
    afterwards; and no text is read as a challenge unless its signature is the HMAC of its payload,
    the payload is well formed and it has not expired. *)
Theorem takeover_token_roundtrip conflict now nonce now'
    (Hc : carriesChallenge (mkChallenge conflict (now / 1000 + TAKEOVER_CHALLENGE_TTL_SECONDS) nonce))
    (Hf : challengeFits (mkChallenge conflict (now / 1000 + TAKEOVER_CHALLENGE_TTL_SECONDS) nonce) = true) :
  verifyTakeoverToken hmac unbase64url decode (createTakeoverToken hmac base64url encode conflict now nonce) now' =
    (if now / 1000 + 120 <=? now' / 1000 then None
     else Some (mkChallenge conflict (now / 1000 + TAKEOVER_CHALLENGE_TTL_SECONDS) nonce)) /\
  forall token c, verifyTakeoverToken hmac unbase64url decode token now' = Some c ->
    exists payload signature j, splitDots token = [payload; signature] /\ unbase64url signature = hmac payload /\
      decode payload = Some j /\ readChallenge j = Some c /\ now' / 1000 < tc_expiresAt c.
Proof.
  split.
  - unfold createTakeoverToken; set (c := mkChallenge _ _ _) in *; destruct Hc as (Hd & Ht & Hst & Hsig & Hlen); unfold verifyTakeoverToken, sign in *.
    destruct (isToken_noDot _ Ht) as [Hn Hne], (isToken_noDot _ Hst) as [Hsn _]; rewrite splitDots_join by assumption.
    rewrite (bool_decide_eq_false_2 _ Hne), (proj2 (Nat.ltb_ge _ _) Hlen), Ht, Hst; unfold signatureMatches; rewrite bool_decide_eq_true_2 by exact Hsig; cbn [orb negb].
    rewrite Hd; change (readChallenge (challengeJson c)) with
      (match readNum (Some (JNum (tc_expiresAt c))) with
       | Some e => if (0 <? utf16Length (oc_matchPublicId (tc_conflict c))) && (utf16Length (oc_matchPublicId (tc_conflict c)) <=? 32) &&
                      (0 <? utf16Length (oc_deviceId (tc_conflict c))) && (utf16Length (oc_deviceId (tc_conflict c)) <=? 255) &&
                      (String.length (tc_nonce c) =? 22)%nat && forallChars isBase64Url (tc_nonce c)
                   then Some (mkChallenge (mkConflict (oc_accessCodeId (tc_conflict c)) (oc_deviceId (tc_conflict c)) (oc_matchId (tc_conflict c))
                          (oc_matchPublicId (tc_conflict c)) (oc_observedSessionId (tc_conflict c))) e (tc_nonce c)) else None
       | None => None end).
    unfold challengeFits in Hf; apply andb_prop in Hf as [Hf Hsafe]; unfold readNum; rewrite Hsafe, Hf.
    replace (mkChallenge _ _ _) with c by (destruct conflict; reflexivity); reflexivity.
  - intros token c H; unfold verifyTakeoverToken in H; destruct (splitDots token) as [| payload [| signature [| ? ?]]]; try discriminate.
    destruct (_ || _); [discriminate |]; destruct (_ || _); [discriminate |]; destruct (signatureMatches _ _ _ _) eqn:Es; [| discriminate]; cbn [negb] in H.
    destruct (decode payload) as [j |] eqn:Ed; [| discriminate]; destruct (readChallenge j) as [c' |] eqn:Er; [| discriminate].
    destruct (Z.leb_spec (tc_expiresAt c') (now' / 1000)); [discriminate | injection H as <-]; unfold signatureMatches in Es; to_prop.
    exists payload, signature, j; auto.
Qed.
End Properties.

(** ** Witnesses: the first judge's session is taken over on another device. *)

Definition accessConfig : MatchAccessConfig := mkAccessConfig true 3600 5 20 60.
Definition heldToken : string := "AAAAAAAAAAAAAAAAAAAAAAAAAAAAAAAAAAAAAAAAAAA".
Definition drawnToken : string := "BBBBBBBBBBBBBBBBBBBBBBBBBBBBBBBBBBBBBBBBBBB".
Definition sampleHash (token : string) : string := if token === heldToken then "hash1"%string else token.
Definition sampleCompare (code hash : string) : bool := ("hash of " +:+ code)%string === ("hash of C" +:+ hash)%string.
Definition takeoverConflict : OwnershipConflict := mkConflict 31 "tablet" 10 "M" 41.
Definition takeoverChallenge : TakeoverChallenge := mkChallenge takeoverConflict 125 "0123456789012345678901".
Definition challengeDecode : string -> option json := fixedDecode (challengeJson takeoverChallenge).
Definition sampleTakeover : string := createTakeoverToken fixedSignature id fixedEncode takeoverConflict 5000 "0123456789012345678901".

Definition accessServer : Server := mkServer waitingDB ∅ [].
Abbreviation sampleLogin := (login accessConfig sampleHash sampleCompare fixedSignature id fixedEncode "m" "Ccode1" "tablet" "ip" drawnToken
  "0123456789012345678901" 5000).
Abbreviation takeOver := (takeover accessConfig sampleHash sampleCompare fixedSignature id id fixedEncode challengeDecode "m" "Ccode1"
  "tablet" sampleTakeover "ip" drawnToken "0123456789012345678901" 6000).
Definition takenServer : Server := Eval vm_compute in (takeOver accessServer).2.
Definition takenSession : MatchSessionIdentity := mkIdentity "tablet" 3606000 "M" (Some SLOT_JUDGE_1) ROLE_JUDGE 1000.
Lemma takeOver_run : takeOver accessServer = (Ok (CreatedMatchSession takenSession drawnToken), takenServer).
Proof. vm_compute; reflexivity. Qed.

Lemma accessServer_sound : sound (sv_db accessServer).
Proof. solve_sound. Defined.
Lemma accessServer_refs : sessionRefs (sv_db accessServer).
Proof.
  assert (H : forallb (fun s => existsb (fun c => ac_id c === ms_accessCodeId s) (db_matchAccessCodes waitingDB) &&
    existsb (fun m => m_id m === ms_matchId s) (db_matches waitingDB)) (db_matchSessions waitingDB) = true) by (vm_compute; reflexivity).
  intros s Hs; rewrite forallb_forall in H; specialize (H s Hs); apply andb_prop in H as [Hc Hm].
  apply existsb_exists in Hc as (c & Hc & Ec), Hm as (m & Hm & Em); to_prop; split; eauto.
Defined.

(** Session 41 holds the first judge's code. *)
Lemma first_judge_holds k o : holder (owners (sv_db accessServer)) k 6000 = Some o -> le_session o = 41%N -> k = 31%N.
Proof.
  intros Eo Hid; destruct (holder_token _ _ _ _ accessServer_sound Eo) as (x & Hx & Hk & _ & _ & _ & Hi); rewrite Hid in Hi; clear Eo.
  vm_compute in Hx; repeat (destruct Hx as [<- | Hx]; [first [discriminate Hi | symmetry; exact Hk] |]); destruct Hx.
Qed.

Lemma acquisition_swaps_witness :
  sampleLogin accessServer = (Ok (SessionAlreadyActive sampleTakeover), (sampleLogin accessServer).2) /\
  (exists g, compareSwap 31 (Some 41%N) (mkLease (si_sessionId takenSession) drawnToken 3606000) 6000 (owners waitingDB) = Granted g /\
    sameFrom 6000 (owners (sv_db takenServer)) g) /\ sv_closed takenServer = [41%N].
Proof.
  split; [vm_compute; reflexivity |]; split; [| reflexivity].
  destruct (acquisition_swaps accessConfig sampleHash sampleCompare fixedSignature id id fixedEncode challengeDecode "m" "Ccode1" "tablet"
    sampleTakeover "ip" drawnToken "0123456789012345678901" 6000 accessServer accessServer_sound) as [_ H].
  destruct (H _ _ takeOver_run) as (_ & _ & k & g & Hg & Hsame & Hcl); clear H.
  destruct (holder (owners (sv_db accessServer)) k 6000) as [o |] eqn:Eo; [| discriminate Hcl].
  apply (app_inv_head (sv_closed accessServer) [41%N]) in Hcl; injection Hcl as Hid.
  rewrite (first_judge_holds k o Eo (eq_sym Hid)) in Hg; exists g; split; [exact Hg | exact Hsame].
Defined.

Lemma resolve_finds_holder_witness : exists w', resolveSession accessConfig sampleHash heldToken 5000 accessServer =
  (Ok (Some (mkValidated 31 "device" 100000000 10 "M" (Some SLOT_JUDGE_1) ROLE_JUDGE 41)), w') /\
  sameFrom 5000 (owners (sv_db w')) (owners waitingDB).
Proof.
  destruct (resolve_finds_holder accessConfig sampleHash heldToken 5000 accessServer accessServer_sound accessServer_refs) as (r & w' & H & Hsame & _).
  exists w'; split; [| exact Hsame]; rewrite H; f_equal.
  transitivity (resolveSession accessConfig sampleHash heldToken 5000 accessServer).1; [rewrite H; reflexivity | vm_compute; reflexivity].
Defined.

(** The replaced judge's token stays unknown after the new device has logged out. *)
Definition loggedOut : Server := Eval vm_compute in (revokeSession sampleHash drawnToken 7000 takenServer).2.
Lemma loggedOut_run : revokeSession sampleHash drawnToken 7000 takenServer = (Ok tt, loggedOut).
Proof. vm_compute; reflexivity. Qed.
Lemma first_judge_lease : holder (owners (sv_db accessServer)) 31 6000 = Some (mkLease 41 "hash1" 100000000).
Proof. vm_compute; reflexivity. Qed.

Lemma ended_stays_ended_witness : exists w'', resolveSession accessConfig sampleHash heldToken 8000 loggedOut = (Ok None, w'').
Proof.
  apply (ended_stays_ended accessConfig sampleHash sampleCompare fixedSignature id id fixedEncode challengeDecode heldToken 6000 accessServer
    (Ok tt) takenServer 8000 loggedOut accessServer_sound accessServer_refs).
  - right; exists "m"%string, "Ccode1"%string, "tablet"%string, sampleTakeover, "ip"%string, drawnToken, "0123456789012345678901"%string,
      takenSession, 31%N, (mkLease 41 "hash1" 100000000).
    exact (conj takeOver_run (conj first_judge_lease (conj eq_refl (conj eq_refl (fun E : drawnToken = "hash1"%string => ltac:(discriminate E)))))).
  - eapply (later_step _ _ _ _ _ _ _ _ _ 6000 7000 _ _ None);
      [lia | exact (request_revoke _ _ _ _ _ _ _ _ 7000 _ _ drawnToken (Ok tt) loggedOut_run) | discriminate |].
    apply later_here; lia.
Defined.

Lemma takeover_token_roundtrip_witness :
  verifyTakeoverToken fixedSignature id challengeDecode sampleTakeover 124999 = Some takeoverChallenge /\
  verifyTakeoverToken fixedSignature id challengeDecode sampleTakeover 125000 = None.
Proof.
  assert (H : forall now, verifyTakeoverToken fixedSignature id challengeDecode sampleTakeover now =
    if 5000 / 1000 + 120 <=? now / 1000 then None else Some takeoverChallenge).
  { intros now; apply (takeover_token_roundtrip fixedSignature id id fixedEncode challengeDecode takeoverConflict 5000 "0123456789012345678901" now).
    - repeat split; vm_compute; try reflexivity; repeat constructor.
    - reflexivity. }
  rewrite !H; split; reflexivity.
Defined.
