(* ===== verification/OfficialAccess.v ===== *)
(** * Official access

    official-access/official-access.service.ts: an official of a tournament logs in with the private
    passcode or with a login link, takes a session over, and is recognized by the session's token. Tokens
    and nonces drawn at random are arguments; bcrypt's [compare], the HMAC under each secret, base64url
    and the JSON codec are parameters. The clock is read once per request. *)
From stdpp Require Import sets.
From S2P Require Import Prelude Schema Database Rules Scenario Redis BracketGenerator BracketTokens Sessions.

Definition BCRYPT_MAX_BYTES : Z := 72.
Definition CHALLENGE_TTL_SECONDS : Z := 120.
Definition LOGIN_LINK_TTL_MS : Z := 7 * 24 * 60 * 60 * 1000.

Definition INVALID_OFFICIAL_CREDENTIALS : error := Unauthorized "INVALID_OFFICIAL_CREDENTIALS".
Definition INVALID_OFFICIAL_TAKEOVER : error := Unauthorized "INVALID_OFFICIAL_TAKEOVER".

Record Credentials : Type := mkCredentials {
  cr_tournamentId : uuid; cr_officialId : uuid; cr_passcodeHash : string; cr_role : TournamentOfficialRole; cr_tournamentCode : string }.

Record Challenge : Type := mkOfficialChallenge {
  oc_observed : uuid; oc_officialId : uuid; oc_device : string; oc_deadline : Z; oc_challengeNonce : string }.

Record ActiveAssignment : Type := mkActiveAssignment {
  as_id : uuid; as_role : TournamentOfficialRole; as_judgePosition : option Z; as_matchId : uuid; as_matchPublicId : string;
  as_matchStatus : MatchStatus }.

Inductive OfficialSessionStatus : Type := OFFICIAL_READY | OFFICIAL_IN_MATCH.

Record ValidatedOfficialSession : Type := mkValidatedOfficial {
  vo_sessionId : uuid; vo_deviceId : string; vo_expiresAt : timestamp; vo_officialId : uuid; vo_tournamentId : uuid;
  vo_name : string; vo_role : TournamentOfficialRole; vo_publicCode : string; vo_tournamentName : string;
  vo_activeAssignment : option ActiveAssignment; vo_status : OfficialSessionStatus }.

Inductive Acquisition : Type :=
  | AcquisitionConflict (conflict : uuid)
  | AcquisitionCreated (session : ValidatedOfficialSession) (sessionToken : string) (revokedSessionId : option uuid).

(** The answer to a login or a takeover: the session, or the 409 body with a takeover token. *)
Inductive OfficialAnswer : Type :=
  | OfficialSessionCreated (session : ValidatedOfficialSession) (sessionToken : string) (revokedSessionId : option uuid)
  | OfficialSessionAlreadyActive (takeoverToken : string).

Record LoginLink : Type := mkLoginLink { ll_token : string; ll_role : TournamentOfficialRole; ll_expiresAt : timestamp }.

Record OfficialAccessConfig : Type := mkOfficialConfig { ttl : Z; identityLimit : Z; ipLimit : Z; window : Z }.

(** ** Queries *)

Definition currentTournament (id : uuid) (d : DB) : bool :=
  existsb (fun t => (tn_id t === id) && (tn_softDeletedAt t === None) && (tn_status t !== TOURNAMENT_ARCHIVED)) (db_tournaments d).

Definition currentOfficial (officialId tournamentId : uuid) (d : DB) : option OfficialRow :=
  find_first (fun o => (tf_id o === officialId) && (tf_tournamentId o === tournamentId) && tf_isActive o && currentTournament (tf_tournamentId o) d)
    (db_tournamentOfficials d).

(** [present] of a session row, with the relations [sessionSelect] reads. *)
Definition present (row : OfficialSessionRow) : DbM ValidatedOfficialSession :=
  official ← find_one_or_throw tournamentOfficials (fun o => tf_id o === os_officialId row);
  tournament ← find_one_or_throw tournaments (fun t => tn_id t === tf_tournamentId official);
  assignment ← find_one matchOfficialAssignments (fun a => (oa_officialId a === tf_id official) && (oa_releasedAt a === None));
  expiresAt ← or_throw (os_expiresAt row) (InternalError "Official session missing expiry");
  activeAssignment ← match assignment with
    | None => mret None
    | Some a =>
        m ← find_one_or_throw matches (fun m => m_id m === oa_matchId a);
        mret (Some (mkActiveAssignment (oa_id a) (oa_role a) (oa_judgePosition a) (m_id m) (m_publicId m) (m_status m)))
    end;
  mret (mkValidatedOfficial (os_id row) (os_deviceId row) expiresAt (tf_id official) (tn_id tournament) (tf_name official)
    (tf_role official) (tn_publicCode tournament) (tn_name tournament) activeAssignment
    (if set_ activeAssignment then OFFICIAL_IN_MATCH else OFFICIAL_READY)).

(** ** Signed payloads *)

Definition nul : string := String Ascii.zero EmptyString.

Definition officialChallengeJson (c : Challenge) : json :=
  JObj [("version", JNum 1); ("observedSessionId", JId (oc_observed c)); ("officialId", JId (oc_officialId c));
        ("deviceId", JStr (oc_device c)); ("expiresAt", JNum (oc_deadline c)); ("nonce", JStr (oc_challengeNonce c))]%string.

(** A number of JSON, safe or not. *)
Definition readNumber (j : option json) : option Z := match j with Some (JNum n) => Some n | _ => None end.

(** [isChallenge], with the challenge it recognizes *)
Definition isChallenge (value : json) : option Challenge :=
  match jfield "version" value, readId (jfield "observedSessionId" value), readId (jfield "officialId" value),
        readStr (jfield "deviceId" value), readNumber (jfield "expiresAt" value), readStr (jfield "nonce" value) with
  | Some (JNum 1), Some observed, Some officialId, Some deviceId, Some expiresAt, Some nonce =>
      Some (mkOfficialChallenge observed officialId deviceId expiresAt nonce)
  | _, _, _, _, _, _ => None
  end.

Record LinkPayload : Type := mkLinkPayload { lp_officialId : uuid; lp_tournamentId : uuid; lp_expiresAt : Z; lp_credential : string }.

Definition linkJson (p : LinkPayload) (nonce : string) : json :=
  JObj [("officialId", JId (lp_officialId p)); ("tournamentId", JId (lp_tournamentId p)); ("expiresAt", JNum (lp_expiresAt p));
        ("credential", JStr (lp_credential p)); ("nonce", JStr nonce)]%string.

(** The checks of a login link's payload *)
Definition readLink (payload : json) (now : timestamp) : option LinkPayload :=
  match readId (jfield "officialId" payload), readId (jfield "tournamentId" payload), readNumber (jfield "expiresAt" payload),
        readStr (jfield "credential" payload) with
  | Some officialId, Some tournamentId, Some expiresAt, Some credential =>
      if expiresAt <=? now then None else Some (mkLinkPayload officialId tournamentId expiresAt credential)
  | _, _, _, _ => None
  end.

Section Official.
Context (config : OfficialAccessConfig).
(** bcrypt's [compare], the HMAC under the session secret, the hex HMAC under the passcode secret, and the
    codecs; [decode] is [None] where [JSON.parse] throws. *)
Context (bcrypt : string -> string -> bool) (hmac : string -> string) (passcodeDigest : string -> string).
Context (base64url unbase64url : string -> string) (encode : json -> string) (decode : string -> option json).

Definition linkSignature (value : string) : string := base64url (hmac ("official-login-link" +:+ nul +:+ value))%string.
Definition tokenHash (token : string) : string := base64url (hmac ("official-session-token" +:+ nul +:+ token))%string.
Definition takeoverHmac (encoded : string) : string := hmac ("official-takeover" +:+ nul +:+ encoded)%string.

(** [challenge] *)
Definition challenge (observedSessionId officialId : uuid) (deviceId : string) (now : timestamp) (nonce : string) : string :=
  sign takeoverHmac base64url (encode (officialChallengeJson
    (mkOfficialChallenge observedSessionId officialId deviceId (now / 1000 + CHALLENGE_TTL_SECONDS) nonce))).

(** [verifyChallenge]: parts after the second are not looked at. *)
Definition verifyChallenge (token : string) (now : timestamp) : option Challenge :=
  match splitDots token with
  | encoded :: signature :: _ =>
      if (encoded === EmptyString) || (signature === EmptyString) || (2048 <? utf16Length token) || negb (isToken encoded) || negb (isToken signature)
      then None
      else if negb (signatureMatches takeoverHmac unbase64url encoded signature) then None
      else match decode encoded with
           | None => None
           | Some data =>
               match isChallenge data with
               | Some c => if oc_deadline c <=? now / 1000 then None else Some c
               | None => None
               end
           end
  | _ => None
  end.

(** ** Credentials *)

(** [compare] *)
Definition compareFits (value digest : string) : bool := (byteLength value <=? BCRYPT_MAX_BYTES) && bcrypt value digest.

(** [normalize] *)
Definition normalize (code passcode deviceId : string) : Req (string * string * string) :=
  refuse_if (trim deviceId === EmptyString) INVALID_OFFICIAL_CREDENTIALS;;
  mret (upper (trim code), trim passcode, trim deviceId).

(** [rateLimit] *)
Definition rateLimit (code passcode ip : string) (now : timestamp) : Req unit :=
  limitAttempts (OfficialIdentityKey code passcode) (OfficialIpKey (if trim ip === EmptyString then "unknown"%string else trim ip))
    (identityLimit config) (ipLimit config) (window config) now (TooManyRequests "OFFICIAL_ACCESS_RATE_LIMITED").

(** [verify]; the comparisons with a dummy hash only take time. *)
Definition verify (code passcode : string) (expectedRole : option TournamentOfficialRole) : DbM Credentials :=
  throw_if (BCRYPT_MAX_BYTES <? byteLength passcode) INVALID_OFFICIAL_CREDENTIALS;;
  tournament ← find_one tournaments (fun t => (tn_publicCode t === code) && (tn_softDeletedAt t === None) && (tn_status t !== TOURNAMENT_ARCHIVED));
  tournament ← or_throw tournament INVALID_OFFICIAL_CREDENTIALS;
  official ← find_one tournamentOfficials (fun o => (tf_tournamentId o === tn_id tournament) &&
    (tf_passcodeLookupDigest o === passcodeDigest passcode) && tf_isActive o);
  official ← or_throw official INVALID_OFFICIAL_CREDENTIALS;
  throw_if (negb (compareFits passcode (tf_passcodeHash official)) || (set_ expectedRole && (expectedRole !== Some (tf_role official))))
    INVALID_OFFICIAL_CREDENTIALS;;
  mret (mkCredentials (tn_id tournament) (tf_id official) (tf_passcodeHash official) (tf_role official) code).

(** ** Sessions *)

Definition lapsedSession (officialId : uuid) (now : timestamp) (s : OfficialSessionRow) : bool :=
  (os_officialId s === officialId) && os_active s && match os_expiresAt s with Some e => e <=? now | None => true end.
Definition endSession (now : timestamp) (s : OfficialSessionRow) : OfficialSessionRow :=
  s <| os_active := false |> <| os_revokedAt := Some now |>.
Definition liveOfficialSession (now : timestamp) (s : OfficialSessionRow) : bool :=
  os_active s && (os_revokedAt s === None) && match os_expiresAt s with Some e => now <? e | None => false end.

(** [acquire], whose row lock orders the requests of one official *)
Definition acquire (credential : Credentials) (passcode : option string) (deviceId : string) (observed : option uuid) (token : string)
    (now : timestamp) : DbM Acquisition :=
  current ← gets (currentOfficial (cr_officialId credential) (cr_tournamentId credential));
  current ← or_throw current INVALID_OFFICIAL_CREDENTIALS;
  throw_if (match passcode with
            | None => tf_passcodeHash current !== cr_passcodeHash credential
            | Some p => negb (compareFits p (tf_passcodeHash current)) end) INVALID_OFFICIAL_CREDENTIALS;;
  _ ← update_many tournamentOfficialSessions (lapsedSession (cr_officialId credential) now) (endSession now);
  owner ← find_one tournamentOfficialSessions (fun s => (os_officialId s === cr_officialId credential) && liveOfficialSession now s);
  let conflict := match owner with Some o => Some (os_id o) !== observed | None => false end in
  match owner, conflict with
  | Some o, true => mret (AcquisitionConflict (os_id o))
  | _, _ =>
      match owner with Some o => _ ← update tournamentOfficialSessions (fun s => os_id s === os_id o) (endSession now); mret tt | None => mret tt end;;
      session ← create tournamentOfficialSessions (fun id => mkOfficialSessionRow id (cr_officialId credential) true
        (Some (now + ttl config * 1000)) None deviceId (tokenHash token) (Some now));
      view ← present session;
      mret (AcquisitionCreated view token (option_map os_id owner))
  end.

(** ** Requests *)

(** The end of a login or takeover: the conflict answer, or the sockets of the replaced session. *)
Definition answer (result : Acquisition) (officialId : uuid) (deviceId nonce : string) (now : timestamp) : Req OfficialAnswer :=
  match result with
  | AcquisitionConflict conflict => mret (OfficialSessionAlreadyActive (challenge conflict officialId deviceId now nonce))
  | AcquisitionCreated session sessionToken revokedSessionId =>
      match revokedSessionId with Some id => revokeSessions [id] | None => mret tt end;;
      mret (OfficialSessionCreated session sessionToken revokedSessionId)
  end.

(** [OfficialAccessService.createLoginToken] *)
Definition createLoginToken (tournamentId officialId : uuid) (nonce : string) (now : timestamp) : Req LoginLink :=
  official ← inDb (gets (currentOfficial officialId tournamentId));
  official ← or_refuse official INVALID_OFFICIAL_CREDENTIALS;
  let expiresAt := now + LOGIN_LINK_TTL_MS in
  let encoded := encode (linkJson (mkLinkPayload officialId tournamentId expiresAt (linkSignature (tf_passcodeHash official))) nonce) in
  mret (mkLoginLink (encoded +:+ "." +:+ linkSignature encoded)%string (tf_role official) expiresAt).

(** The payload of a login link: three parts with an empty third pass. *)
Definition openLink (token : string) (now : timestamp) : option LinkPayload :=
  match splitDots token with
  | encoded :: signature :: rest =>
      if (encoded === EmptyString) || (signature === EmptyString) || match rest with extra :: _ => extra !== EmptyString | [] => false end ||
         (2048 <? utf16Length token) then None
      else if unbase64url signature !== unbase64url (linkSignature encoded) then None
      else match decode encoded with Some payload => readLink payload now | None => None end
  | _ => None
  end.

(** [OfficialAccessService.loginWithToken] *)
Definition loginWithToken (token deviceId : string) (expectedRole : option TournamentOfficialRole) (clientIp : string)
    (takeoverToken : option string) (sessionToken nonce : string) (now : timestamp) : Req OfficialAnswer :=
  rateLimit "login-link" token clientIp now;;
  payload ← or_refuse (openLink token now) INVALID_OFFICIAL_CREDENTIALS;
  official ← inDb (gets (currentOfficial (lp_officialId payload) (lp_tournamentId payload)));
  official ← or_refuse official INVALID_OFFICIAL_CREDENTIALS;
  refuse_if ((linkSignature (tf_passcodeHash official) !== lp_credential payload) ||
    (set_ expectedRole && (expectedRole !== Some (tf_role official))) || (trim deviceId === EmptyString)) INVALID_OFFICIAL_CREDENTIALS;;
  tournament ← inDb (find_one_or_throw tournaments (fun t => tn_id t === tf_tournamentId official));
  let credential := mkCredentials (lp_tournamentId payload) (lp_officialId payload) (tf_passcodeHash official) (tf_role official)
    (tn_publicCode tournament) in
  observed ← match takeoverToken with
    | Some t => if t === EmptyString then mret None else c ← or_refuse (verifyChallenge t now) INVALID_OFFICIAL_TAKEOVER; mret (Some c)
    | None => mret None
    end;
  refuse_if (match observed with Some c => (oc_officialId c !== cr_officialId credential) || (oc_device c !== trim deviceId) | None => false end)
    INVALID_OFFICIAL_TAKEOVER;;
  result ← inDb (acquire credential None (trim deviceId) (option_map oc_observed observed) sessionToken now);
  answer result (cr_officialId credential) (trim deviceId) nonce now.

(** [OfficialAccessService.login] *)
Definition login (tournamentCode privatePasscode deviceId : string) (expectedRole : option TournamentOfficialRole) (clientIp sessionToken nonce : string)
    (now : timestamp) : Req OfficialAnswer :=
  input ← normalize tournamentCode privatePasscode deviceId;
  let '(code, passcode, deviceId) := input in
  rateLimit code passcode clientIp now;;
  credential ← inDb (verify code passcode expectedRole);
  result ← inDb (acquire credential (Some passcode) deviceId None sessionToken now);
  answer result (cr_officialId credential) deviceId nonce now.

(** [OfficialAccessService.takeover] *)
Definition takeover (tournamentCode privatePasscode deviceId : string) (expectedRole : option TournamentOfficialRole)
    (takeoverToken clientIp sessionToken nonce : string) (now : timestamp) : Req OfficialAnswer :=
  input ← normalize tournamentCode privatePasscode deviceId;
  let '(code, passcode, deviceId) := input in
  c ← or_refuse (verifyChallenge takeoverToken now) INVALID_OFFICIAL_TAKEOVER;
  refuse_if (oc_device c !== deviceId) INVALID_OFFICIAL_TAKEOVER;;
  rateLimit code passcode clientIp now;;
  credential ← inDb (verify code passcode expectedRole);
  refuse_if (cr_officialId credential !== oc_officialId c) INVALID_OFFICIAL_TAKEOVER;;
  result ← inDb (acquire credential (Some passcode) deviceId (Some (oc_observed c)) sessionToken now);
  answer result (cr_officialId credential) deviceId nonce now.

(** [OfficialAccessService.revokeSession]: two statements of their own. *)
Definition revokeSession (token : string) (now : timestamp) : Req unit :=
  if negb (SESSION_TOKEN_PATTERN token) then mret tt else
  sessions ← inDb (find_many tournamentOfficialSessions (fun s => (os_tokenHash s === tokenHash token) && os_active s));
  _ ← inDb (update_many tournamentOfficialSessions (fun s => bool_decide (os_id s ∈ map os_id sessions)) (endSession now));
  revokeSessions (map os_id sessions).

(** [OfficialAccessService.resolveSession] *)
Definition resolveSession (token : string) (now : timestamp) : Req (option ValidatedOfficialSession) :=
  if negb (SESSION_TOKEN_PATTERN token) then mret None else
  found ← inDb (gets (fun d => find_first (fun s => (os_tokenHash s === tokenHash token) && liveOfficialSession now s &&
      existsb (fun o => (tf_id o === os_officialId s) && tf_isActive o && currentTournament (tf_tournamentId o) d) (db_tournamentOfficials d))
    (db_tournamentOfficialSessions d)));
  match found with
  | None => mret None
  | Some row =>
      view ← inDb (present row);
      touched ← inDb (update_many tournamentOfficialSessions (fun s => (os_id s === os_id row) && os_active s && (os_revokedAt s === None))
        (fun s => s <| os_lastSeenAt := Some now |>));
      if (touched =? 0)%nat then mret None else mret (Some view)
  end.

(** [resolveIdentity] *)
Definition resolveIdentity (sessionId : uuid) (now : timestamp) : DbM (option ValidatedOfficialSession) :=
  row ← find_one tournamentOfficialSessions (fun s => (os_id s === sessionId) && liveOfficialSession now s);
  match row with Some row => view ← present row; mret (Some view) | None => mret None end.

(** [OfficialAccessService.assertRole] *)
Definition assertRole (sessionId : uuid) (role : TournamentOfficialRole) (now : timestamp) : DbM unit :=
  fresh ← resolveIdentity sessionId now;
  throw_if (match fresh with Some v => vo_role v !== role | None => true end) INVALID_OFFICIAL_CREDENTIALS.

(** [OfficialAccessService.requireActiveAssignment] *)
Definition requireActiveAssignment (sessionId : uuid) (now : timestamp) : DbM (option ActiveAssignment) :=
  fresh ← resolveIdentity sessionId now;
  mret (match fresh with Some v => vo_activeAssignment v | None => None end).
End Official.

(** ** The sessions of officials as a session table *)

#[export] Instance officialSessions_table : SessionTable OfficialSessionRow := {|
  ss_id := os_id; ss_key := os_officialId; ss_token := os_tokenHash; ss_active := os_active; ss_expiresAt := os_expiresAt;
  ss_revokedAt := os_revokedAt |}.

Abbreviation officialOwners d := (leases (db_tournamentOfficialSessions d)).

Lemma liveOfficialSession_liveAt now s : liveOfficialSession now s = liveAt now s.
Proof. reflexivity. Qed.

Lemma officialSessions_unique d : sound d -> oneOwner (db_tournamentOfficialSessions d) /\ distinctIds (db_tournamentOfficialSessions d) /\
  unique_by (fun s => Some (os_tokenHash s)) (db_tournamentOfficialSessions d) = true /\
  unique_by active_session_key (db_tournamentOfficialSessions d) = true.
Proof.
  intros [Hwf _]; pose proof (Hwf tournamentOfficialSessions) as Ht; apply table_ok_true in Ht as (_ & _ & Hix).
  cbn [indexes_ok get] in Hix; apply andb_prop in Hix as [Htok Hone]; split_and!; [| | exact Htok | exact Hone].
  - intros x y Hx Hy Ux Uy E; apply andb_prop in Ux as [Ux _], Uy as [Uy _]; cbn in Ux, Uy, E.
    eapply (unique_by_inj active_session_key _ x y (os_officialId x)); [exact Hone | exact Hx | exact Hy | |];
      unfold active_session_key; [rewrite Ux; reflexivity | rewrite Uy, E; reflexivity].
  - intros x y Hx Hy E; exact (wf_id tournamentOfficialSessions d x y (os_id x) Hwf Hx Hy eq_refl (f_equal Some (eq_sym E))).
Qed.
Lemma officialOwners_unique d : sound d -> oneOwner (db_tournamentOfficialSessions d).
Proof. intros Hs; apply officialSessions_unique, Hs. Qed.

Lemma map_where_agree {A} (p q : A -> bool) g l : (forall x, In x l -> p x = q x) -> map_where p g l = map_where q g l.
Proof. intros H; unfold map_where; apply map_ext_in; intros x Hx; rewrite (H x Hx); reflexivity. Qed.

(** Ending sessions succeeds. *)
Lemma end_table_ok p now d : sound d ->
  table_ok tournamentOfficialSessions (map_where p (endSession now) (db_tournamentOfficialSessions d)) = true.
Proof.
  intros [Hwf _]; pose proof (Hwf tournamentOfficialSessions) as Ht; apply table_ok_true in Ht as (_ & Hpk & Hix).
  cbn [indexes_ok get] in Hix; apply andb_prop in Hix as [Htok Hone]; apply table_ok_true; split_and!.
  - apply forallb_forall; intros; reflexivity.
  - rewrite unique_by_map_where; [exact Hpk | reflexivity].
  - cbn [indexes_ok]; apply andb_true_intro; split; [rewrite unique_by_map_where; [exact Htok | reflexivity] |].
    apply unique_by_shrink; [intros x _; right; reflexivity | exact Hone].
Qed.
Abbreviation ended p now d := (put tournamentOfficialSessions (map_where p (endSession now) (db_tournamentOfficialSessions d)) d).
Lemma end_sound p now d : sound d -> sound (ended p now d).
Proof. intros Hs; apply sound_map_where; [reflexivity | exact (end_table_ok p now d Hs) | exact Hs]. Qed.
Lemma end_run p now d : sound d -> update_many tournamentOfficialSessions p (endSession now) d =
  Ok (length (List.filter p (db_tournamentOfficialSessions d)), ended p now d).
Proof. intros Hs; apply (update_many_ok tournamentOfficialSessions); split_and!; [reflexivity | exact (end_table_ok p now d Hs) | reflexivity]. Qed.

Lemma lapsed_idle k now s : lapsedSession k now s = true -> liveAt now s = false /\ unrevoked (endSession now s) = false.
Proof.
  intros Hp; split; [| reflexivity]; unfold lapsedSession in Hp; apply andb_prop in Hp as [_ Hp]; unfold liveAt; cbn.
  destruct (os_expiresAt s) as [e |]; [rewrite (proj2 (Z.ltb_ge _ _)) by (apply Z.leb_le, Hp) |]; apply andb_false_r.
Qed.
Lemma lapsed_ended k now d : sound d -> sameFrom now (officialOwners (ended (lapsedSession k now) now d)) (officialOwners d).
Proof.
  intros Hs; pose proof (end_sound (lapsedSession k now) now d Hs) as Hs1; apply sameFrom_offers; [exact (officialOwners_unique _ Hs1) |].
  intros k' t le Ht; rewrite (holder_leases _ _ _ _ (officialOwners_unique d Hs)); apply (offers_idle now); [exact Ht | apply lapsed_idle].
Qed.

Lemma lapsed_run k now d : sound d -> exists n d1, update_many tournamentOfficialSessions (lapsedSession k now) (endSession now) d = Ok (n, d1) /\
  sound d1 /\ sameFrom now (officialOwners d1) (officialOwners d).
Proof.
  intros Hs; do 2 eexists; split_and!; [exact (end_run _ now d Hs) | exact (end_sound _ now d Hs) | exact (lapsed_ended k now d Hs)].
Qed.

(** Ending the session that holds a credential releases it. *)
Lemma owner_ended now o d : sound d -> In o (db_tournamentOfficialSessions d) -> unrevoked o = true ->
  sameFrom now (officialOwners (ended (fun s => os_id s === os_id o) now d)) (released (os_officialId o) (officialOwners d)).
Proof.
  intros Hs Hin Hu; destruct (officialSessions_unique d Hs) as (Ho & Hd & _).
  assert (E : map_where (fun s => os_id s === os_id o) (endSession now) (db_tournamentOfficialSessions d) =
              map_where (fun x => (ss_id x === ss_id o) && ss_active x) (endSession now) (db_tournamentOfficialSessions d)).
  { apply map_where_agree; intros x Hx; cbn; destruct (bool_decide_reflect (os_id x = os_id o)) as [Hi |]; [| reflexivity].
    rewrite (Hd x o Hx Hin Hi); apply andb_prop in Hu as [Hu _]; symmetry; exact Hu. }
  pose proof (officialOwners_unique _ (end_sound (fun s => os_id s === os_id o) now d Hs)) as Ho'; cbn in Ho' |- *; rewrite E in *.
  exact (leases_revoked now (db_tournamentOfficialSessions d) o (endSession now) Ho Hd Ho' (fun _ => eq_refl) Hin Hu).
Qed.

Lemma present_ok row d v d' : present row d = Ok (v, d') -> d' = d /\ vo_sessionId v = os_id row /\ vo_officialId v = os_officialId row /\
  vo_deviceId v = os_deviceId row /\ os_expiresAt row = Some (vo_expiresAt v).
Proof.
  intros H; unfold present in H.
  apply bind_ok in H as (o & d1 & Ho & H); apply (find_one_or_throw_ok tournamentOfficials) in Ho as [Ho ->]; apply find_first_some in Ho as [_ Ho]; to_prop.
  apply bind_ok in H as (t & d1 & Ht & H); apply (find_one_or_throw_ok tournaments) in Ht as [_ ->].
  apply bind_ok in H as (a & d1 & Ha & H); apply gets_ok in Ha as [_ ->].
  apply bind_ok in H as (e & d1 & He & H); apply or_throw_ok in He as [He ->].
  apply bind_ok in H as (asg & d1 & Hasg & H); apply ret_ok in H as [<- <-]; cbn; split_and!; auto.
  destruct a; [apply bind_ok in Hasg as (m & d2 & Hm & Hasg); apply (find_one_or_throw_ok matches) in Hm as [_ ->] |]; apply ret_ok in Hasg as [_ ->]; reflexivity.
Qed.

Section Acquire.
Context (config : OfficialAccessConfig).
Context (bcrypt : string -> string -> bool) (hmac : string -> string) (passcodeDigest : string -> string).
Context (base64url unbase64url : string -> string) (encode : json -> string) (decode : string -> option json).
Abbreviation hash := (tokenHash hmac base64url).
Abbreviation expiry now := (now + ttl config * 1000).
Abbreviation lease v tok now := (mkLease (vo_sessionId v) (hash tok) (expiry now)).

(** What [acquire] leaves for the official [k]. *)
Definition acquired (k : uuid) (observed : option uuid) (tok : string) (now : timestamp) (d : DB) (r : Acquisition) (d' : DB) : Prop :=
  sound d' /\ touches [tournamentOfficialSessions] d d' /\
  match r with
  | AcquisitionConflict s => (forall l, compareSwap k observed l now (officialOwners d) = Held s) /\ sameFrom now (officialOwners d') (officialOwners d)
  | AcquisitionCreated v t revoked => t = tok /\ vo_officialId v = k /\ vo_expiresAt v = expiry now /\
      revoked = option_map le_session (holder (officialOwners d) k now) /\
      exists g, compareSwap k observed (lease v tok now) now (officialOwners d) = Granted g /\ sameFrom now (officialOwners d') g
  end.

Lemma create_free k dev tok now d s d1 v d' : sound d -> holder (officialOwners d) k now = None ->
  create tournamentOfficialSessions (fun id => mkOfficialSessionRow id k true (Some (expiry now)) None dev (hash tok) (Some now)) d = Ok (s, d1) ->
  present s d1 = Ok (v, d') ->
  sound d' /\ vo_officialId v = k /\ vo_expiresAt v = expiry now /\ sameFrom now (officialOwners d') (granted k (lease v tok now) (officialOwners d)).
Proof.
  intros Hs Hn Hc Hp; apply present_ok in Hp as (-> & Hid & Hk & _ & He).
  assert (Hs' : sound d1).
  { assert (Hr : respects keeps_sound (create tournamentOfficialSessions (fun id => mkOfficialSessionRow id k true (Some (expiry now)) None dev (hash tok) (Some now))))
      by respects_auto; exact (Hr _ _ _ Hc Hs). }
  apply (create_ok tournamentOfficialSessions) in Hc as (-> & _ & Ed); cbn in Hid, Hk, He; injection He as He; split_and!; auto.
  pose proof (officialOwners_unique _ Hs') as Ho'; rewrite Ed in Ho' |- *; cbn in Ho' |- *.
  refine (leases_granted now (db_tournamentOfficialSessions d) _ _ (officialOwners_unique d Hs) Ho' Hn eq_refl _).
  unfold leaseOf; cbn; rewrite Hid; reflexivity.
Qed.

Lemma acquire_ok c passcode dev observed tok now d r d' :
  acquire config bcrypt hmac base64url c passcode dev observed tok now d = Ok (r, d') -> sound d ->
  acquired (cr_officialId c) observed tok now d r d'.
Proof.
  intros H Hs; pose proof H as Hall; unfold acquire in H.
  assert (Ht : touches [tournamentOfficialSessions] d d').
  { assert (Hr : respects (touches [tournamentOfficialSessions]) (acquire config bcrypt hmac base64url c passcode dev observed tok now)).
    { unfold acquire, present; respects_auto. }
    exact (Hr _ _ _ Hall). }
  apply bind_ok in H as (o0 & d0 & E & H); apply gets_ok in E as [_ ->].
  apply bind_ok in H as (o & d0 & E & H); apply or_throw_ok in E as [_ ->].
  apply bind_ok in H as (u & d0 & E & H); apply throw_if_ok in E as [_ ->].
  destruct (lapsed_run (cr_officialId c) now d Hs) as (n & d1 & E & Hs1 & Hsame); rewrite (bind_step _ _ _ _ _ E) in H; clear E.
  apply bind_ok in H as (owner & d2 & E & H); apply gets_ok in E as [-> ->].
  pose proof (Hsame (cr_officialId c) now (Z.le_refl _)) as Hh.
  pose proof (holder_find (db_tournamentOfficialSessions d1) (cr_officialId c) now (officialOwners_unique d1 Hs1)) as Ho; cbn [ss_key officialSessions_table get row_of] in Ho, H.
  change (fun s => (os_officialId s === cr_officialId c) && liveOfficialSession now s) with
    (fun s => (os_officialId s === cr_officialId c) && liveAt now s) in H.
  destruct (find_first _ (db_tournamentOfficialSessions d1)) as [w |].
  - destruct Ho as (Hk & Hl & Hin & le & _ & Hid & Hw); cbn [ss_id officialSessions_table] in Hid; rewrite Hw in Hh.
    apply liveAt_spec in Hl as [Hu _]; destruct (bool_decide_reflect (Some (os_id w) = observed)) as [Eo | Hne]; cbn [negb] in H.
    + apply bind_ok in H as (u1 & d2 & E & H); apply bind_ok in E as (w' & d3 & E & E3); apply ret_ok in E3 as [_ <-].
      apply (update_ok tournamentOfficialSessions) in E as (w0 & _ & _ & _ & E3); cbn [get] in E3.
      pose proof (end_sound (fun s => os_id s === os_id w) now d1 Hs1) as Hs2; pose proof (owner_ended now w d1 Hs1 Hin Hu) as Hrel.
      change (put tournamentOfficialSessions (map_where (fun s => os_id s === os_id w) (endSession now) (db_tournamentOfficialSessions d1)) d1)
        with (ended (fun s => os_id s === os_id w) now d1) in E3; rewrite <- E3 in Hs2, Hrel; clear E3.
      apply bind_ok in H as (s & d4 & Hc & H); apply bind_ok in H as (v & d5 & Hv & H); apply ret_ok in H as [<- <-].
      assert (Hn : holder (officialOwners d3) (cr_officialId c) now = None).
      { rewrite (Hrel _ now (Z.le_refl _)), holder_released, <- Hk; destruct (base.decide _); [reflexivity | congruence]. }
      destruct (create_free _ _ _ _ _ _ _ _ _ Hs2 Hn Hc Hv) as (Hs' & Hvk & Hve & Hg); split_and!; auto.
      * rewrite <- Hh; cbn; congruence.
      * exists (granted (cr_officialId c) (lease v tok now) (officialOwners d)); split.
        { unfold compareSwap; rewrite <- Hh, Hid, bool_decide_eq_true_2 by exact Eo; reflexivity. }
        rewrite Hg, Hrel, Hk, Hsame; intros k' t _; rewrite !holder_granted, holder_released; destruct (base.decide _); reflexivity.
    + apply ret_ok in H as [<- <-]; split_and!; auto; intros l; unfold compareSwap; rewrite <- Hh, Hid, bool_decide_eq_false_2 by exact Hne; reflexivity.
  - apply bind_ok in H as (u1 & d2 & E & H); apply ret_ok in E as [_ <-].
    apply bind_ok in H as (s & d4 & Hc & H); apply bind_ok in H as (v & d5 & Hv & H); apply ret_ok in H as [<- <-].
    destruct (create_free _ _ _ _ _ _ _ _ _ Hs1 Ho Hc Hv) as (Hs' & Hvk & Hve & Hg); rewrite Ho in Hh; split_and!; auto.
    + rewrite <- Hh; reflexivity.
    + eexists; split; [unfold compareSwap; rewrite <- Hh; reflexivity | rewrite Hg, Hsame; reflexivity].
Qed.
End Acquire.

(** *** Requests *)

Lemma official_verify_pure bcrypt pd code passcode role : respects eq (verify bcrypt pd code passcode role).
Proof. unfold verify; respects_auto. Qed.

Section Requests.
Context (config : OfficialAccessConfig).
Context (bcrypt : string -> string -> bool) (hmac : string -> string) (passcodeDigest : string -> string).
Context (base64url unbase64url : string -> string) (encode : json -> string) (decode : string -> option json).
Abbreviation hash := (tokenHash hmac base64url).
Abbreviation expiry now := (now + ttl config * 1000).
Abbreviation lease v tok now := (mkLease (vo_sessionId v) (hash tok) (expiry now)).

(** What a login, which has observed no session, or a takeover of the session [observed] answers. *)
Definition granted_or_held (observed : option uuid) (tok nonce : string) (now : timestamp) (w : Server) (r : result error OfficialAnswer) (w' : Server) : Prop :=
  match r with
  | Ok (OfficialSessionCreated v t revoked) => t = tok /\ vo_expiresAt v = expiry now /\
      revoked = option_map le_session (holder (officialOwners (sv_db w)) (vo_officialId v) now) /\
      sv_closed w' = sv_closed w ++ match revoked with Some s => [s] | None => [] end /\
      exists g, compareSwap (vo_officialId v) observed (lease v tok now) now (officialOwners (sv_db w)) = Granted g /\ sameFrom now (officialOwners (sv_db w')) g
  | Ok (OfficialSessionAlreadyActive t) => exists s k dev, t = challenge hmac base64url encode s k dev now nonce /\
      (forall l, compareSwap k observed l now (officialOwners (sv_db w)) = Held s) /\
      sameFrom now (officialOwners (sv_db w')) (officialOwners (sv_db w)) /\ sv_closed w' = sv_closed w
  | Err _ => sv_db w' = sv_db w /\ sv_closed w' = sv_closed w
  end.

(** The invariant requests keep, with what they answer. *)
Definition official_step observed tok nonce now w r w' : Prop :=
  granted_or_held observed tok nonce now w r w' /\ sound (sv_db w') /\ touches [tournamentOfficialSessions] (sv_db w) (sv_db w').

Lemma step_quiet observed tok nonce now w e w' : sound (sv_db w) -> quiet w w' -> official_step observed tok nonce now w (Err e) w'.
Proof. intros Hs [Hd Hc]; split; [split; [exact Hd | exact Hc] | rewrite Hd; split; [exact Hs | reflexivity]]. Qed.

Lemma acquire_answer observed tok nonce now w w1 c passcode dev r w' : sound (sv_db w) -> quiet w w1 ->
  (result ← inDb (acquire config bcrypt hmac base64url c passcode dev observed tok now);
   answer hmac base64url encode result (cr_officialId c) dev nonce now) w1 = (r, w') ->
  official_step observed tok nonce now w r w'.
Proof.
  intros Hs Hq H; pose proof Hq as [Ed Ec]; apply req_bind_inv in H as [(e & H & ->) | (res & w2 & H & Ha)].
  { apply inDb_inv in H as [(e' & _ & _ & ->) | (a & [=] & _)]; exact (step_quiet _ _ _ _ _ _ _ Hs Hq). }
  apply inDb_inv in H as [(e' & [=] & _) | (a & [= <-] & Htx & _ & Hcl)]; rewrite Ed in Htx.
  apply acquire_ok in Htx as (Hs' & Ht & Hres); [| exact Hs]; destruct res as [s | v t revoked]; cbn [answer] in Ha.
  - injection Ha as <- <-; destruct Hres as [Hheld Hsame]; split; [| split; assumption].
    exists s, (cr_officialId c), dev; split_and!; [reflexivity | exact Hheld | exact Hsame | congruence].
  - destruct Hres as (-> & Hk & He & Hrev & g & Hg & Hsame); rewrite <- Hk in Hrev, Hg.
    assert (Hw : sv_db w' = sv_db w2 /\ sv_closed w' = sv_closed w2 ++ match revoked with Some s => [s] | None => [] end /\ r = Ok (OfficialSessionCreated v tok revoked)).
    { destruct revoked; injection Ha as <- <-; rewrite ?app_nil_r; auto. }
    destruct Hw as (Ed' & Ec' & ->); rewrite <- Ed' in Hs', Ht, Hsame; split; [| split; assumption].
    split_and!; [reflexivity | exact He | exact Hrev | congruence | exists g; split; assumption].
Qed.

Lemma quiet_official_normalize code passcode dev : leads quiet (normalize code passcode dev).
Proof. apply leads_bind; [apply _ | apply leads_refuse_if; apply _ | intros; apply leads_ret; apply _]. Qed.
Lemma quiet_rateLimit code passcode ip now : leads quiet (rateLimit config code passcode ip now).
Proof. exact (quiet_limitAttempts _ _ _ _ _ _ _). Qed.
End Requests.

Ltac quiet_step H Hs Hq :=
  let e := fresh "e" in let Hq1 := fresh "Hq1" in let w1 := fresh "w1" in let a := fresh "a" in
  apply quiet_bind_inv in H as [(e & -> & Hq1) | (a & w1 & Hq1 & _ & H)];
  [apply step_quiet; [exact Hs | etransitivity; [exact Hq | exact Hq1]]
  | assert (Hq' : quiet _ w1) by (etransitivity; [exact Hq | exact Hq1]); clear Hq Hq1; rename Hq' into Hq |
  first [apply quiet_official_normalize | apply quiet_rateLimit | apply leads_refuse_if; apply _ | apply leads_or_refuse; apply _ |
         apply quiet_inDb_read; first [apply official_verify_pure | solve [respects_auto]]]].

Section Answers.
Context (config : OfficialAccessConfig).
Context (bcrypt : string -> string -> bool) (hmac : string -> string) (passcodeDigest : string -> string).
Context (base64url unbase64url : string -> string) (encode : json -> string) (decode : string -> option json).

(** The session a takeover token names. *)
Definition observedBy (token : string) (now : timestamp) : option uuid :=
  option_map oc_observed (verifyChallenge hmac unbase64url decode token now).

Lemma official_login_step code passcode dev role ip tok nonce now w r w' : sound (sv_db w) ->
  login config bcrypt hmac passcodeDigest base64url encode code passcode dev role ip tok nonce now w = (r, w') ->
  official_step config hmac base64url encode None tok nonce now w r w'.
Proof.
  intros Hs H; unfold login in H; assert (Hq : quiet w w) by reflexivity.
  quiet_step H Hs Hq; destruct a as [[code' passcode'] dev']; quiet_step H Hs Hq; quiet_step H Hs Hq.
  eapply acquire_answer; eassumption.
Qed.

Lemma official_takeover_step code passcode dev role tk ip tok nonce now w r w' : sound (sv_db w) ->
  takeover config bcrypt hmac passcodeDigest base64url unbase64url encode decode code passcode dev role tk ip tok nonce now w = (r, w') ->
  official_step config hmac base64url encode (observedBy tk now) tok nonce now w r w'.
Proof.
  intros Hs H; unfold takeover in H; assert (Hq : quiet w w) by reflexivity; unfold observedBy.
  quiet_step H Hs Hq; destruct a as [[code' passcode'] dev'].
  destruct (verifyChallenge _ _ _ _ _) as [c |]; [| injection H as <- <-; exact (step_quiet _ _ _ _ _ _ _ _ _ _ _ Hs Hq)].
  cbn [or_refuse option_map] in *; rewrite (req_bind_step _ _ w1 c w1 eq_refl) in H.
  quiet_step H Hs Hq; quiet_step H Hs Hq; quiet_step H Hs Hq; quiet_step H Hs Hq.
  eapply acquire_answer; eassumption.
Qed.

Lemma official_link_step token dev role ip tk tok nonce now w r w' : sound (sv_db w) ->
  loginWithToken config bcrypt hmac base64url unbase64url encode decode token dev role ip tk tok nonce now w = (r, w') ->
  official_step config hmac base64url encode
    (match tk with Some t => if t === EmptyString then None else observedBy t now | None => None end) tok nonce now w r w'.
Proof.
  intros Hs H; unfold loginWithToken in H; assert (Hq : quiet w w) by reflexivity.
  quiet_step H Hs Hq; quiet_step H Hs Hq; quiet_step H Hs Hq; quiet_step H Hs Hq; quiet_step H Hs Hq; quiet_step H Hs Hq.
  assert (Hobs : forall x v2, match tk with
      | Some t => if t === EmptyString then mret None else c ← or_refuse (verifyChallenge hmac unbase64url decode t now) INVALID_OFFICIAL_TAKEOVER; mret (Some c)
      | None => mret None end v2 = (Ok x, v2) ->
    option_map oc_observed x = match tk with Some t => if t === EmptyString then None else observedBy t now | None => None end).
  { intros x v2 E; unfold observedBy; destruct tk as [t |]; [| injection E as <-; reflexivity]; destruct (t === EmptyString); [injection E as <-; reflexivity |].
    destruct (verifyChallenge _ _ _ t now); [injection E as <-; reflexivity | discriminate]. }
  apply quiet_bind_inv in H as [(e & -> & Hq1) | (x & v2 & Hq1 & Ex & H)].
  3: { destruct tk as [t |]; [destruct (t === EmptyString); [| apply leads_bind; [apply _ | apply leads_or_refuse; apply _ | intros]] |]; apply leads_ret; apply _. }
  1: { apply step_quiet; [exact Hs | etransitivity; [exact Hq | exact Hq1]]. }
  lazymatch type of Ex with _ ?u = _ => assert (Ew : v2 = u) end.
  { destruct tk as [t |]; [| inv Ex; reflexivity]; destruct (t === EmptyString); [inv Ex; reflexivity |]; destruct (verifyChallenge _ _ _ t now); inv Ex; reflexivity. }
  subst v2; rewrite <- (Hobs _ _ Ex); clear Hobs Ex Hq1.
  quiet_step H Hs Hq; eapply acquire_answer; eassumption.
Qed.
End Answers.

(** *** Enough for a session to be granted *)

(** The foreign keys [present] follows, and that sessions are deactivated and revoked together. *)
Definition officialRefs (d : DB) : Prop :=
  (forall a, In a (db_matchOfficialAssignments d) -> exists m, In m (db_matches d) /\ m_id m = oa_matchId a) /\
  (forall s, In s (db_tournamentOfficialSessions d) -> os_active s = true -> os_revokedAt s = None).

Lemma refs_ended p now d : officialRefs d -> officialRefs (ended p now d).
Proof.
  intros [Hm Hr]; split; [exact Hm |]; cbn; intros s Hs Ha; apply in_map_where in Hs as (x & Hx & ->).
  destruct (p x); [discriminate Ha | exact (Hr x Hx Ha)].
Qed.

Lemma currentOfficial_some i t d o : currentOfficial i t d = Some o -> tf_id o = i /\ tf_tournamentId o = t /\ tf_isActive o = true /\
  find_first (fun x => tf_id x === i) (db_tournamentOfficials d) <> None /\ exists x, In x (db_tournaments d) /\ tn_id x = t.
Proof.
  unfold currentOfficial; intros H; apply find_first_some in H as [Hin H]; to_prop; split_and!; auto.
  - intros E; eapply find_first_none in E; [| exact Hin]; cbn in E; rewrite bool_decide_eq_true_2 in E by assumption; discriminate.
  - match goal with H : currentTournament _ _ = true |- _ => apply existsb_exists in H as (x & Hx & E); to_prop; exists x; split; congruence end.
Qed.

Lemma find_first_total {A} (p : A -> bool) l x : In x l -> p x = true -> exists y, find_first p l = Some y.
Proof.
  intros Hin Hp; destruct (find_first p l) as [y |] eqn:E; [eauto |]; eapply find_first_none in E; [| exact Hin]; congruence.
Qed.

Lemma present_total row d e o t : wf d -> officialRefs d -> In o (db_tournamentOfficials d) -> tf_id o = os_officialId row ->
  In t (db_tournaments d) -> tn_id t = tf_tournamentId o -> os_expiresAt row = Some e -> exists v, present row d = Ok (v, d).
Proof.
  intros Hwf [Hm _] Ho Hid Ht Htid He; unfold present.
  assert (Eo : find_first (fun x => tf_id x === os_officialId row) (db_tournamentOfficials d) = Some o).
  { apply (find_unique tournamentOfficials d (fun x => tf_id x === os_officialId row) o (os_officialId row) Hwf Ho); cbn; [apply bool_decide_eq_true_2, Hid | congruence |].
    intros y Hy; to_prop; congruence. }
  rewrite (bind_step _ _ _ _ _ (find_one_or_throw_total tournamentOfficials _ d o Eo)).
  destruct (find_first_total (fun x => tn_id x === tf_tournamentId o) (db_tournaments d) t Ht (bool_decide_eq_true_2 _ Htid)) as (t' & Et).
  rewrite (bind_step _ _ _ _ _ (find_one_or_throw_total tournaments _ d t' Et)), (bind_step _ _ _ _ _ (find_one_run matchOfficialAssignments _ d)).
  rewrite (bind_step _ _ _ e d) by (rewrite He; reflexivity).
  destruct (find_first _ (get matchOfficialAssignments d)) as [a |] eqn:Ea; [| rewrite (bind_step _ _ _ None d eq_refl); eexists; reflexivity].
  apply find_first_some in Ea as [Hin _]; destruct (Hm a Hin) as (m & Hmin & Hmid).
  destruct (find_first_total (fun x => m_id x === oa_matchId a) (db_matches d) m Hmin (bool_decide_eq_true_2 _ Hmid)) as (m' & Em).
  erewrite bind_step; [eexists; reflexivity |].
  rewrite (bind_step _ _ _ _ _ (find_one_or_throw_total matches _ d m' Em)); reflexivity.
Qed.

(** The tables [present] reads are as before, and no session has gained a token or been reactivated. *)
Definition sessionsEnded (d d1 : DB) : Prop :=
  sound d1 /\ officialRefs d1 /\ db_tournamentOfficials d1 = db_tournamentOfficials d /\ db_tournaments d1 = db_tournaments d /\
  forall s, In s (db_tournamentOfficialSessions d1) -> exists x, In x (db_tournamentOfficialSessions d) /\ os_tokenHash s = os_tokenHash x /\
    os_officialId s = os_officialId x /\ (os_active s = true -> s = x).

Lemma ended_ended p now d : sound d -> officialRefs d -> sessionsEnded d (ended p now d).
Proof.
  intros Hs Hr; split; [exact (end_sound p now d Hs) | split; [exact (refs_ended p now d Hr) |]]; split_and!; [reflexivity .. |].
  cbn; intros s Hin; apply in_map_where in Hin as (x & Hx & ->); exists x; destruct (p x); split_and!; auto; discriminate.
Qed.

Lemma end_facts p now d : sound d -> officialRefs d -> exists n d1,
  update_many tournamentOfficialSessions p (endSession now) d = Ok (n, d1) /\ sessionsEnded d d1 /\
  db_tournamentOfficialSessions d1 = map_where p (endSession now) (db_tournamentOfficialSessions d).
Proof. intros Hs Hr; do 2 eexists; split_and!; [exact (end_run p now d Hs) | exact (ended_ended p now d Hs Hr) | reflexivity]. Qed.

Section Total.
Context (config : OfficialAccessConfig).
Context (bcrypt : string -> string -> bool) (hmac base64url : string -> string).
Abbreviation hash := (tokenHash hmac base64url).
Abbreviation newSession k dev tok now := (fun id => mkOfficialSessionRow id k true (Some (now + ttl config * 1000)) None dev (hash tok) (Some now)).

(** A session is created for an official without an active one. *)
Lemma create_total k dev tok now d : sound d -> (forall s, In s (db_tournamentOfficialSessions d) -> os_tokenHash s <> hash tok) ->
  (forall s, In s (db_tournamentOfficialSessions d) -> os_active s = true -> os_officialId s <> k) ->
  exists d', create tournamentOfficialSessions (newSession k dev tok now) d = Ok (newSession k dev tok now (db_nextId d), d') /\ sound d' /\
    db_tournamentOfficials d' = db_tournamentOfficials d /\ db_tournaments d' = db_tournaments d /\
    db_tournamentOfficialSessions d' = db_tournamentOfficialSessions d ++ [newSession k dev tok now (db_nextId d)] /\
    db_matchOfficialAssignments d' = db_matchOfficialAssignments d /\ db_matches d' = db_matches d.
Proof.
  intros Hs Htok Hact; destruct (officialSessions_unique d Hs) as (_ & _ & Hut & Hua).
  destruct (create_sound tournamentOfficialSessions (newSession k dev tok now) d Hs ltac:(reflexivity) ltac:(reflexivity)) as (d' & E & -> & Hs').
  - cbn [indexes_ok get]; apply andb_true_intro; split.
    + apply unique_by_snoc; [exact Hut |]; cbn; intros y h Hy [= <-] [= E]; exact (Htok y Hy (eq_sym E)).
    + apply unique_by_snoc; [exact Hua |]; cbn; intros y h Hy; unfold active_session_key; cbn; destruct (os_active y) eqn:Ea; [| discriminate].
      intros [= <-] [= E]; exact (Hact y Hy Ea (eq_sym E)).
  - eexists; split_and!; [exact E | exact Hs' | reflexivity ..].
Qed.

Lemma acquire_total c passcode dev observed tok now d o : sound d -> officialRefs d ->
  currentOfficial (cr_officialId c) (cr_tournamentId c) d = Some o ->
  match passcode with None => tf_passcodeHash o = cr_passcodeHash c | Some p => compareFits bcrypt p (tf_passcodeHash o) = true end ->
  (forall s, In s (db_tournamentOfficialSessions d) -> os_tokenHash s <> hash tok) ->
  exists r d', acquire config bcrypt hmac base64url c passcode dev observed tok now d = Ok (r, d').
Proof.
  intros Hs Hr Ho Hp Htok; unfold acquire; rewrite (bind_step _ _ _ (Some o) d) by (unfold gets; rewrite Ho; reflexivity).
  rewrite (bind_step _ _ _ o d eq_refl), (bind_step _ _ _ tt d).
  2: { destruct passcode; [rewrite Hp | rewrite Hp, bool_decide_eq_true_2 by reflexivity]; reflexivity. }
  destruct (end_facts (lapsedSession (cr_officialId c) now) now d Hs Hr) as (n & d1 & E & (Hs1 & Hr1 & Eo & Et & Hold) & El1).
  rewrite (bind_step _ _ _ _ _ E); clear E.
  assert (Hl : forall s, In s (db_tournamentOfficialSessions d1) -> os_active s = true -> os_officialId s = cr_officialId c -> liveAt now s = true).
  { rewrite El1; intros s Hin Ha Hk; apply in_map_where in Hin as (x & Hx & ->); destruct (lapsedSession _ now x) eqn:El; [discriminate Ha |].
    unfold lapsedSession in El; rewrite Ha, bool_decide_eq_true_2 in El by exact Hk; cbn in El.
    unfold liveAt, unrevoked; cbn; rewrite Ha, (proj2 Hr x Hx Ha), bool_decide_eq_true_2 by reflexivity; cbn.
    destruct (os_expiresAt x); [apply Z.leb_gt in El; apply Z.ltb_lt, El | discriminate]. }
  assert (Hgo : forall d2, sessionsEnded d1 d2 -> (forall s, In s (db_tournamentOfficialSessions d2) -> os_active s = true -> os_officialId s <> cr_officialId c) ->
    exists r d', (session ← create tournamentOfficialSessions (newSession (cr_officialId c) dev tok now); present session) d2 = Ok (r, d')).
  { intros d2 (Hs2 & Hr2 & Eo2 & Et2 & Hold2) Hfree.
    destruct (create_total (cr_officialId c) dev tok now d2 Hs2) as (d3 & Ec & Hs3 & Eo3 & Et3 & Es3 & Ea3 & Em3); [| exact Hfree |].
    { intros s Hin; destruct (Hold2 s Hin) as (x & Hx & -> & _), (Hold x Hx) as (y & Hy & -> & _); exact (Htok y Hy). }
    rewrite (bind_step _ _ _ _ _ Ec); unfold currentOfficial in Ho; apply find_first_some in Ho as [Hino Ho]; to_prop.
    match goal with H : currentTournament _ _ = true |- _ => apply existsb_exists in H as (t & Ht & Ht'); to_prop end.
    destruct (present_total (newSession (cr_officialId c) dev tok now (db_nextId d2)) d3 (now + ttl config * 1000) o t) as (v & Hv); cbn; try congruence; [exact (proj1 Hs3) | | eauto].
    split; [rewrite Ea3, Em3; exact (proj1 Hr2) |]; rewrite Es3; intros s [Hin | [<- | []]]%in_app_iff; [exact (proj2 Hr2 s Hin) | reflexivity]. }
  rewrite (bind_step _ _ _ _ _ (find_one_run tournamentOfficialSessions _ d1)); cbn [get row_of].
  destruct (find_first _ (db_tournamentOfficialSessions d1)) as [w |] eqn:Ew.
  - destruct (Some (os_id w) !== observed); [do 2 eexists; reflexivity |].
    apply find_first_some in Ew as [Hin Hw]; apply andb_prop in Hw as [Hk Hlw]; to_prop; rewrite liveOfficialSession_liveAt in Hlw.
    assert (Eu : update tournamentOfficialSessions (fun s => os_id s === os_id w) (endSession now) d1 =
      Ok (endSession now w, ended (fun s => os_id s === os_id w) now d1)).
    { apply (update_ok tournamentOfficialSessions); exists w; split_and!; [| reflexivity | exact (end_table_ok _ now d1 Hs1) | reflexivity].
      apply (find_unique tournamentOfficialSessions d1 (fun s => os_id s === os_id w) w (os_id w) (proj1 Hs1) Hin); cbn; [apply bool_decide_eq_true_2; reflexivity | reflexivity |].
      intros y Hy; to_prop; congruence. }
    destruct (Hgo (ended (fun s => os_id s === os_id w) now d1) (ended_ended _ now d1 Hs1 Hr1)) as (r & d' & E).
    { cbn; intros s Hs2 Ha Ek; apply in_map_where in Hs2 as (x & Hx & ->); destruct (bool_decide_reflect (os_id x = os_id w)) as [| Hne]; [discriminate Ha |].
      apply Hne; f_equal; apply (officialOwners_unique d1 Hs1); auto; cbn; try congruence;
        [pose proof (Hl x Hx Ha Ek) as Hlx; apply liveAt_spec in Hlx as [Hlx _]; exact Hlx | apply liveAt_spec in Hlw as [Hlw' _]; exact Hlw']. }
    apply bind_ok in E as (s & d3 & Ec & Ev).
    rewrite (bind_step _ _ _ tt (ended (fun s => os_id s === os_id w) now d1)) by (rewrite (bind_step _ _ _ _ _ Eu); reflexivity).
    rewrite (bind_step _ _ _ _ _ Ec), (bind_step _ _ _ _ _ Ev); do 2 eexists; reflexivity.
  - destruct (Hgo d1) as (r & d' & E).
    { split_and!; auto; intros s Hin; exists s; auto. }
    { intros s Hin Ha Hk; eapply find_first_none in Ew; [| exact Hin]; cbn in Ew; rewrite bool_decide_eq_true_2 in Ew by exact Hk.
      rewrite liveOfficialSession_liveAt, (Hl s Hin Ha Hk) in Ew; discriminate. }
    apply bind_ok in E as (s & d3 & Ec & Ev); rewrite (bind_step _ _ _ tt d1 eq_refl), (bind_step _ _ _ _ _ Ec), (bind_step _ _ _ _ _ Ev).
    do 2 eexists; reflexivity.
Qed.
End Total.

(** *** Login links *)

Section Links.
Context (config : OfficialAccessConfig).
Context (bcrypt : string -> string -> bool) (hmac : string -> string) (passcodeDigest : string -> string).
Context (base64url unbase64url : string -> string) (encode : json -> string) (decode : string -> option json).
Abbreviation signed v := (linkSignature hmac base64url v).

(** The codec carries the payload of a link. *)
Definition carriesLink (p : LinkPayload) (nonce : string) : Prop :=
  let e := encode (linkJson p nonce) in
  decode e = Some (linkJson p nonce) /\ noDot e = true /\ e <> EmptyString /\ noDot (signed e) = true /\ signed e <> EmptyString /\
  utf16Length (e +:+ "." +:+ signed e)%string <= 2048.

Lemma openLink_link p nonce now : carriesLink p nonce ->
  openLink hmac base64url unbase64url decode (encode (linkJson p nonce) +:+ "." +:+ signed (encode (linkJson p nonce)))%string now =
  if lp_expiresAt p <=? now then None else Some p.
Proof.
  intros (Hd & He & Hne & Hsig & Hsne & Hlen); unfold openLink; rewrite splitDots_join by assumption.
  rewrite (bool_decide_eq_false_2 _ Hne), (bool_decide_eq_false_2 _ Hsne), (proj2 (Z.ltb_ge _ _) Hlen), bool_decide_eq_true_2 by reflexivity.
  cbn [orb negb]; rewrite Hd; destruct p; reflexivity.
Qed.

(** What a link needs: it has not expired, and its official still has the passcode it was made under. *)
Definition linkGood (tournamentId officialId : uuid) (passcodeHash : string) (role : option TournamentOfficialRole) (dev : string)
    (issuedAt now : timestamp) (d : DB) : bool :=
  (now <? issuedAt + LOGIN_LINK_TTL_MS) &&
  match currentOfficial officialId tournamentId d with
  | Some o => (signed (tf_passcodeHash o) === signed passcodeHash) && (negb (set_ role) || (role === Some (tf_role o))) && (trim dev !== EmptyString)
  | None => false
  end.

Lemma inDb_read {A} (c : DbM A) w a : c (sv_db w) = Ok (a, sv_db w) -> inDb c w = (Ok a, w).
Proof. unfold inDb; intros ->; destruct w; reflexivity. Qed.
Lemma limiter_db code passcode ip now w w2 : rateLimit config code passcode ip now w = (Ok tt, w2) -> sv_db w2 = sv_db w.
Proof. intros H; exact (proj1 (quiet_rateLimit config _ _ _ _ _ _ _ H)). Qed.

Lemma link_run tid oid nonce issuedAt o0 dev role ip tok nonce' now w w2 :
  let p := mkLinkPayload oid tid (issuedAt + LOGIN_LINK_TTL_MS) (signed (tf_passcodeHash o0)) in
  let token := (encode (linkJson p nonce) +:+ "." +:+ signed (encode (linkJson p nonce)))%string in
  carriesLink p nonce -> sound (sv_db w) -> officialRefs (sv_db w) ->
  (forall s, In s (db_tournamentOfficialSessions (sv_db w)) -> os_tokenHash s <> tokenHash hmac base64url tok) ->
  rateLimit config "login-link" token ip now w = (Ok tt, w2) ->
  if linkGood tid oid (tf_passcodeHash o0) role dev issuedAt now (sv_db w)
  then exists a w', loginWithToken config bcrypt hmac base64url unbase64url encode decode token dev role ip None tok nonce' now w = (Ok a, w') /\
         match a with OfficialSessionCreated v _ _ => vo_officialId v = oid | OfficialSessionAlreadyActive _ => True end
  else loginWithToken config bcrypt hmac base64url unbase64url encode decode token dev role ip None tok nonce' now w = (Err INVALID_OFFICIAL_CREDENTIALS, w2).
Proof.
  intros p token Hc Hs Hr Htok Hlim; unfold loginWithToken; rewrite (req_bind_step _ _ _ _ _ Hlim); pose proof (limiter_db _ _ _ _ _ _ Hlim) as Ed.
  pose proof (openLink_link p nonce now Hc) as Ho; fold token in Ho; rewrite Ho; cbn [lp_expiresAt p]; unfold linkGood.
  rewrite Z.ltb_antisym; destruct (_ <=? now); [reflexivity |]; cbn [negb andb or_refuse]; rewrite (req_bind_step _ _ w2 p w2 eq_refl).
  rewrite (req_bind_step _ _ _ _ _ (inDb_gets _ w2)); cbn [lp_officialId lp_tournamentId lp_credential p]; rewrite Ed.
  destruct (currentOfficial oid tid (sv_db w)) as [o |] eqn:Eo; [| reflexivity].
  cbn [or_refuse]; rewrite (req_bind_step _ _ w2 o w2 eq_refl).
  destruct (bool_decide_reflect (signed (tf_passcodeHash o) = signed (tf_passcodeHash o0))) as [Esig |]; cbn [negb orb andb]; [| reflexivity].
  replace (negb (set_ role) || (role === Some (tf_role o))) with (negb (set_ role && (role !== Some (tf_role o)))) by (destruct (set_ role), (bool_decide _); reflexivity).
  destruct (set_ role && _); cbn [negb orb andb]; [reflexivity |].
  destruct (bool_decide_reflect (trim dev = EmptyString)) as [|]; cbn [negb]; [reflexivity |].
  rewrite (req_bind_step _ _ w2 tt w2 eq_refl); destruct (currentOfficial_some _ _ _ _ Eo) as (_ & Et & _ & _ & x & Hx & Exid).
  destruct (find_first_total (fun t => tn_id t === tf_tournamentId o) (db_tournaments (sv_db w2)) x) as (t & Hft); [rewrite Ed; exact Hx | apply bool_decide_eq_true_2; congruence |].
  rewrite (req_bind_step _ _ _ _ _ (inDb_read _ w2 t (find_one_or_throw_total tournaments _ (sv_db w2) t Hft))).
  rewrite (req_bind_step (mret (M:=Req) (@None Challenge)) _ w2 None w2 eq_refl), (req_bind_step (refuse_if false _) _ w2 tt w2 eq_refl).
  set (c := mkCredentials _ _ _ _ _); destruct (acquire_total config bcrypt hmac base64url c None (trim dev) None tok now (sv_db w2) o) as (r & d' & E);
    [rewrite Ed; assumption .. | reflexivity | rewrite Ed; exact Htok |].
  rewrite (req_bind_step _ _ w2 r (mkServer d' (sv_redis w2) (sv_closed w2))) by (unfold inDb; cbn [option_map]; rewrite E; reflexivity).
  apply acquire_ok in E as (_ & _ & Hres); [| rewrite Ed; exact Hs]; destruct r as [s | v t' revoked]; [do 2 eexists; split; [reflexivity | exact I] |].
  destruct Hres as (_ & Hk & _); destruct revoked; (do 2 eexists; split; [reflexivity | exact Hk]).
Qed.
End Links.

(** *** Resolving *)

Definition admits (d : DB) (o : OfficialRow) : bool := tf_isActive o && currentTournament (tf_tournamentId o) d.

Lemma holder_session d k t le : sound d -> holder (officialOwners d) k t = Some le -> exists s, In s (db_tournamentOfficialSessions d) /\
  os_officialId s = k /\ liveAt t s = true /\ os_tokenHash s = le_token le /\ os_id s = le_session le /\ os_expiresAt s = Some (le_until le).
Proof.
  intros Hs H; apply holder_leases in H as (s & Hin & Hk & Hl & Hle); [| exact (officialOwners_unique d Hs)].
  exists s; unfold leaseOf in Hle; cbn in *; destruct (os_expiresAt s) as [e |]; [injection Hle as <- |]; [split_and!; auto | discriminate].
Qed.

Lemma session_holds d s t : sound d -> In s (db_tournamentOfficialSessions d) -> liveAt t s = true ->
  holder (officialOwners d) (os_officialId s) t = Some (mkLease (os_id s) (os_tokenHash s) (default 0 (os_expiresAt s))).
Proof.
  intros Hs Hin Hl; apply holder_leases; [exact (officialOwners_unique d Hs) |]; exists s; split_and!; auto.
  apply liveAt_spec in Hl as (_ & e & He & _); unfold leaseOf; cbn in *; rewrite He; reflexivity.
Qed.

Lemma touch_session row now d : sound d -> In row (db_tournamentOfficialSessions d) -> unrevoked row = true ->
  exists n d', update_many tournamentOfficialSessions (fun s => (os_id s === os_id row) && os_active s && (os_revokedAt s === None))
    (fun s => s <| os_lastSeenAt := Some now |>) d = Ok (S n, d') /\ sound d' /\ sameFrom now (officialOwners d') (officialOwners d).
Proof.
  intros Hs Hin Hu; set (p := fun s => (os_id s === os_id row) && os_active s && (os_revokedAt s === None)).
  assert (E : update_many tournamentOfficialSessions p (fun s => s <| os_lastSeenAt := Some now |>) d =
    Ok (length (List.filter p (db_tournamentOfficialSessions d)), put tournamentOfficialSessions (map_where p (fun s => s <| os_lastSeenAt := Some now |>) (db_tournamentOfficialSessions d)) d)).
  { apply (update_many_total tournamentOfficialSessions); [exact Hs | reflexivity | | auto].
    cbn [indexes_ok get]; rewrite !unique_by_map_where by (intros; reflexivity); reflexivity. }
  assert (Hin' : In row (List.filter p (db_tournamentOfficialSessions d))).
  { apply filter_In; split; [exact Hin |]; unfold p; rewrite bool_decide_eq_true_2 by reflexivity; exact Hu. }
  destruct (length _) as [| n] eqn:En; [apply length_zero_iff_nil in En; rewrite En in Hin'; destruct Hin' |].
  assert (Hs' : sound (put tournamentOfficialSessions (map_where p (fun s => s <| os_lastSeenAt := Some now |>) (db_tournamentOfficialSessions d)) d)).
  { assert (Hk : respects keeps_sound (update_many tournamentOfficialSessions p (fun s => s <| os_lastSeenAt := Some now |>))) by respects_auto; exact (Hk _ _ _ E Hs). }
  do 2 eexists; split_and!; [exact E | exact Hs' |]; apply sameFrom_offers; [exact (officialOwners_unique _ Hs') |]; intros k t le _.
  rewrite (holder_leases _ _ _ _ (officialOwners_unique d Hs)); apply offers_touched; intros x; split_and!; reflexivity.
Qed.

Section Resolve.
Context (hmac base64url : string -> string).
Abbreviation hash := (tokenHash hmac base64url).

Lemma resolve_run tok now w : sound (sv_db w) -> officialRefs (sv_db w) -> exists r w', resolveSession hmac base64url tok now w = (Ok r, w') /\
  sound (sv_db w') /\ sameFrom now (officialOwners (sv_db w')) (officialOwners (sv_db w)) /\
  match r with
  | Some v => SESSION_TOKEN_PATTERN tok = true /\
      holder (officialOwners (sv_db w)) (vo_officialId v) now = Some (mkLease (vo_sessionId v) (hash tok) (vo_expiresAt v)) /\
      exists o, In o (db_tournamentOfficials (sv_db w)) /\ tf_id o = vo_officialId v /\ admits (sv_db w) o = true
  | None => SESSION_TOKEN_PATTERN tok = false \/
      forall k le o, holder (officialOwners (sv_db w)) k now = Some le -> le_token le = hash tok -> In o (db_tournamentOfficials (sv_db w)) ->
        tf_id o = k -> admits (sv_db w) o = false
  end.
Proof.
  intros Hs Hr; unfold resolveSession; destruct (SESSION_TOKEN_PATTERN tok); cbn [negb]; [| exists None, w; split_and!; auto; reflexivity].
  rewrite (req_bind_step _ _ _ _ _ (inDb_gets _ w)); destruct (find_first _ (db_tournamentOfficialSessions (sv_db w))) as [s |] eqn:Es.
  - apply find_first_some in Es as [Hin Hp]; apply andb_prop in Hp as [Hp Hoff]; apply andb_prop in Hp as [Ht Hl]; rewrite liveOfficialSession_liveAt in Hl; to_prop.
    apply existsb_exists in Hoff as (o & Ho & Ho'); apply andb_prop in Ho' as [Ho' Hcur]; apply andb_prop in Ho' as [Hid Hact]; to_prop.
    pose proof Hcur as Hcur'; apply existsb_exists in Hcur' as (t & Htin & Ht'); to_prop; pose proof Hl as Hl'; apply liveAt_spec in Hl' as (Hu & e & He & _); cbn in He.
    destruct (present_total s (sv_db w) e o t (proj1 Hs) Hr Ho) as (v & Hv); auto.
    rewrite (req_bind_step _ _ _ _ _ (inDb_read _ w v Hv)); destruct (touch_session s now (sv_db w) Hs Hin Hu) as (n & d' & E & Hs' & Hsame).
    rewrite (req_bind_step _ _ w (S n) (mkServer d' (sv_redis w) (sv_closed w))) by (unfold inDb; rewrite E; reflexivity).
    apply present_ok in Hv as (_ & Hsid & Hoid & _ & Hexp); exists (Some v), (mkServer d' (sv_redis w) (sv_closed w)); split_and!; [reflexivity | exact Hs' | exact Hsame | reflexivity | | exists o; split_and!; [exact Ho | congruence | unfold admits; rewrite Hact, Hcur; reflexivity]].
    rewrite Hoid, (session_holds (sv_db w) s now Hs Hin Hl), Hexp, Ht, Hsid; reflexivity.
  - exists None, w; split_and!; [reflexivity | exact Hs | reflexivity |]; right; intros k le o Hh Ht Ho Hid.
    destruct (holder_session _ _ _ _ Hs Hh) as (s & Hin & Hk & Hl & Htok & _); destruct (admits (sv_db w) o) eqn:Ea; [exfalso | reflexivity].
    eapply find_first_none in Es; [| exact Hin]; cbn in Es; rewrite liveOfficialSession_liveAt, Hl, bool_decide_eq_true_2 in Es by congruence; cbn in Es.
    rewrite <- not_true_iff_false in Es; apply Es, existsb_exists; exists o; split; [exact Ho |].
    unfold admits in Ea; apply andb_prop in Ea as [-> ->]; rewrite bool_decide_eq_true_2 by congruence; reflexivity.
Qed.
End Resolve.

(** ** Properties *)

Section Properties.
Context (config : OfficialAccessConfig).
Context (bcrypt : string -> string -> bool) (hmac : string -> string) (passcodeDigest : string -> string).
Context (base64url unbase64url : string -> string) (encode : json -> string) (decode : string -> option json).

(** C29: The sessions of officials implement the register of leases with the officials as credentials: a
    login with the passcode is a compare and swap that has observed no session, a takeover one that has
    observed the session its token names, and a login link either, by the token it comes with. A grant
    leaves the new session as the official's only one and closes the sockets of the one it replaced; the
    409 answer names the holder in its takeover token; an error changes neither the store nor any socket. *)
Theorem official_acquisition_swaps now w (Hs : sound (sv_db w)) :
  (forall code passcode dev role ip tok nonce r w',
     login config bcrypt hmac passcodeDigest base64url encode code passcode dev role ip tok nonce now w = (r, w') ->
     granted_or_held config hmac base64url encode None tok nonce now w r w') /\
  (forall code passcode dev role tk ip tok nonce r w',
     takeover config bcrypt hmac passcodeDigest base64url unbase64url encode decode code passcode dev role tk ip tok nonce now w = (r, w') ->
     granted_or_held config hmac base64url encode (observedBy hmac unbase64url decode tk now) tok nonce now w r w') /\
  (forall token dev role ip tk tok nonce r w',
     loginWithToken config bcrypt hmac base64url unbase64url encode decode token dev role ip tk tok nonce now w = (r, w') ->
     granted_or_held config hmac base64url encode
       (match tk with Some t => if t === EmptyString then None else observedBy hmac unbase64url decode t now | None => None end) tok nonce now w r w').
Proof.
  split_and!; intros.
  - eapply official_login_step; eassumption.
  - eapply official_takeover_step; eassumption.
  - eapply official_link_step; eassumption.
Qed.

(** C30: A login link admits its official, and nobody else, for seven days, as long as the official is
    active, the tournament is neither archived nor deleted and the passcode is the one the link was made
    under: then a login that the limiter lets through is answered with a session of that official or the
    offer to take it over. In every other case it is refused and changes nothing. *)
Theorem login_link_admits tid oid nonce issuedAt w0 l w1 dev role ip tok nonce' now w w2
    (Hl : createLoginToken hmac base64url encode tid oid nonce issuedAt w0 = (Ok l, w1))
    (Hc : forall o, currentOfficial oid tid (sv_db w0) = Some o -> carriesLink hmac base64url encode decode
      (mkLinkPayload oid tid (issuedAt + LOGIN_LINK_TTL_MS) (linkSignature hmac base64url (tf_passcodeHash o))) nonce)
    (Hs : sound (sv_db w)) (Hr : officialRefs (sv_db w))
    (Htok : forall s, In s (db_tournamentOfficialSessions (sv_db w)) -> os_tokenHash s <> tokenHash hmac base64url tok)
    (Hlim : rateLimit config "login-link" (ll_token l) ip now w = (Ok tt, w2)) :
  exists o, currentOfficial oid tid (sv_db w0) = Some o /\ ll_role l = tf_role o /\ ll_expiresAt l = issuedAt + 604800000 /\
    if linkGood hmac base64url tid oid (tf_passcodeHash o) role dev issuedAt now (sv_db w)
    then exists a w', loginWithToken config bcrypt hmac base64url unbase64url encode decode (ll_token l) dev role ip None tok nonce' now w = (Ok a, w') /\
           match a with OfficialSessionCreated v _ _ => vo_officialId v = oid | OfficialSessionAlreadyActive _ => True end
    else loginWithToken config bcrypt hmac base64url unbase64url encode decode (ll_token l) dev role ip None tok nonce' now w =
           (Err INVALID_OFFICIAL_CREDENTIALS, w2).
Proof.
  unfold createLoginToken in Hl; rewrite (req_bind_step _ _ _ _ _ (inDb_gets _ w0)) in Hl.
  destruct (currentOfficial oid tid (sv_db w0)) as [o |] eqn:Eo; [| discriminate Hl].
  cbn [or_refuse] in Hl; rewrite (req_bind_step _ _ w0 o w0 eq_refl) in Hl; injection Hl as <- <-; exists o; split_and!; auto.
  cbn [ll_token] in *; exact (link_run config bcrypt hmac base64url unbase64url encode decode tid oid nonce issuedAt o dev role ip tok nonce' now w w2
    (Hc o eq_refl) Hs Hr Htok Hlim).
Qed.

(** Resolving a session token never fails. It answers a session exactly when the token has the form
    of one and its session holds the official's credential at that time, while the official is active and
    the tournament neither archived nor deleted; it moves no lease. *)
Theorem official_resolves tok now w (Hs : sound (sv_db w)) (Hr : officialRefs (sv_db w)) :
  exists r w', resolveSession hmac base64url tok now w = (Ok r, w') /\ sameFrom now (officialOwners (sv_db w')) (officialOwners (sv_db w)) /\
  match r with
  | Some v => SESSION_TOKEN_PATTERN tok = true /\
      holder (officialOwners (sv_db w)) (vo_officialId v) now = Some (mkLease (vo_sessionId v) (tokenHash hmac base64url tok) (vo_expiresAt v)) /\
      exists o, In o (db_tournamentOfficials (sv_db w)) /\ tf_id o = vo_officialId v /\ admits (sv_db w) o = true
  | None => SESSION_TOKEN_PATTERN tok = false \/
      forall k le o, holder (officialOwners (sv_db w)) k now = Some le -> le_token le = tokenHash hmac base64url tok ->
        In o (db_tournamentOfficials (sv_db w)) -> tf_id o = k -> admits (sv_db w) o = false
  end.
Proof.
  destruct (resolve_run hmac base64url tok now w Hs Hr) as (r & w' & H & _ & Hsame & Hx); exists r, w'; auto.
Qed.
End Properties.

(** ** Witnesses: the judge 60 is logged in on one device and changes to another. *)

Definition officialConfig : OfficialAccessConfig := mkOfficialConfig 3600 5 20 60.
Definition officialToken : string := "AAAAAAAAAAAAAAAAAAAAAAAAAAAAAAAAAAAAAAAAAAA".
Definition otherToken : string := "BBBBBBBBBBBBBBBBBBBBBBBBBBBBBBBBBBBBBBBBBBB".
Definition sampleHmac (text : string) : string := if String.prefix "official-session" text then text else "digest".
Definition sampleBcrypt (passcode hash : string) : bool := hash === ("hash-" +:+ passcode)%string.
Definition sampleDigest (passcode : string) : string := ("digest-" +:+ passcode)%string.
Definition officialDB : DB := Eval vm_compute in waitingDB
  <| db_tournamentOfficials := [sampleOfficial 60 OFFICIAL_JUDGE; sampleOfficial 61 OFFICIAL_SUPERVISOR] |>
  <| db_tournamentOfficialSessions := [mkOfficialSessionRow 70 60 true (Some 100000000) None "phone" (tokenHash sampleHmac id officialToken) None] |>.
Definition officialServer : Server := mkServer officialDB ∅ [].

Lemma officialServer_sound : sound (sv_db officialServer).
Proof. solve_sound. Defined.
Lemma officialServer_refs : officialRefs (sv_db officialServer).
Proof. split; [intros a [] | intros s [<- | []] _; reflexivity]. Defined.

Definition observedChallenge : Challenge := mkOfficialChallenge 70 60 "tablet" 125 "nonce".
Definition takeoverDecode : string -> option json := fixedDecode (officialChallengeJson observedChallenge).
Definition officialTakeover : string := challenge sampleHmac id fixedEncode 70 60 "tablet" 5000 "nonce".
Abbreviation officialLogin := (login officialConfig sampleBcrypt sampleHmac sampleDigest id fixedEncode "t1" "60" "tablet" None "ip" otherToken
  "nonce" 5000).
Abbreviation officialTakes := (takeover officialConfig sampleBcrypt sampleHmac sampleDigest id id fixedEncode takeoverDecode "t1" "60" "tablet"
  (Some OFFICIAL_JUDGE) officialTakeover "ip" otherToken "nonce" 6000).
Definition officialTaken : Server := Eval vm_compute in (officialTakes officialServer).2.
Definition officialView (session : uuid) (dev : string) (until : timestamp) : ValidatedOfficialSession :=
  mkValidatedOfficial session dev until 60 1 "60" OFFICIAL_JUDGE "T1" "Cup" None OFFICIAL_READY.
Lemma officialLogin_run : exists w, officialLogin officialServer = (Ok (OfficialSessionAlreadyActive officialTakeover), w).
Proof. eexists; vm_compute; reflexivity. Qed.
Lemma officialTakes_run : officialTakes officialServer = (Ok (OfficialSessionCreated (officialView 1000 "tablet" 3606000) otherToken (Some 70%N)), officialTaken).
Proof. vm_compute; reflexivity. Qed.

Lemma official_acquisition_swaps_witness : exists g,
  compareSwap 60 (Some 70%N) (mkLease 1000 (tokenHash sampleHmac id otherToken) 3606000) 6000 (officialOwners officialDB) = Granted g /\
  sameFrom 6000 (officialOwners (sv_db officialTaken)) g /\ sv_closed officialTaken = [70%N].
Proof.
  destruct (official_acquisition_swaps officialConfig sampleBcrypt sampleHmac sampleDigest id id fixedEncode takeoverDecode 6000 officialServer
    officialServer_sound) as (_ & H & _).
  destruct (H _ _ _ _ _ _ _ _ _ _ officialTakes_run) as (_ & _ & _ & Hcl & g & Hg & Hsame).
  exists g; split_and!; [exact Hg | exact Hsame | exact Hcl].
Defined.

Definition linkOf (credential : string) : LinkPayload := mkLinkPayload 60 1 604805000 credential.
Definition linkDecode : string -> option json := fixedDecode (linkJson (linkOf "digest") "nonce").
Definition loginLink : LoginLink := mkLoginLink "payload.digest" OFFICIAL_JUDGE 604805000.
Lemma loginLink_made : createLoginToken sampleHmac id fixedEncode 1 60 "nonce" 5000 officialServer = (Ok loginLink, officialServer).
Proof. vm_compute; reflexivity. Qed.

Definition limitedServer : Server := (rateLimit officialConfig "login-link" (ll_token loginLink) "ip" 6000 officialServer).2.
Lemma limited_run : rateLimit officialConfig "login-link" (ll_token loginLink) "ip" 6000 officialServer = (Ok tt, limitedServer).
Proof. rewrite (surjective_pairing (rateLimit _ _ _ _ _ _)); f_equal; vm_compute; reflexivity. Qed.

Lemma login_link_admits_witness : exists a w',
  loginWithToken officialConfig sampleBcrypt sampleHmac id id fixedEncode linkDecode (ll_token loginLink) "tablet" None "ip" None otherToken "nonce" 6000
    officialServer = (Ok a, w').
Proof.
  destruct (login_link_admits officialConfig sampleBcrypt sampleHmac id id fixedEncode linkDecode 1 60 "nonce" 5000 officialServer loginLink officialServer
    "tablet" None "ip" otherToken "nonce" 6000 officialServer limitedServer loginLink_made) as (o & Ho & _ & _ & H); [| exact officialServer_sound | exact officialServer_refs | | exact limited_run |].
  - intros o Ho; vm_compute in Ho; injection Ho as <-; repeat split; vm_compute; congruence.
  - intros s [<- | []]; vm_compute; discriminate.
  - vm_compute in Ho; injection Ho as <-; destruct H as (a & w' & H & _); exists a, w'; exact H.
Defined.

Lemma official_resolves_witness : exists w', resolveSession sampleHmac id officialToken 6000 officialServer = (Ok (Some (officialView 70 "phone" 100000000)), w') /\
  sameFrom 6000 (officialOwners (sv_db w')) (officialOwners officialDB).
Proof.
  destruct (official_resolves sampleHmac id officialToken 6000 officialServer officialServer_sound officialServer_refs) as (r & w' & H & Hsame & _).
  exists w'; split; [| exact Hsame]; rewrite H; f_equal.
  transitivity (resolveSession sampleHmac id officialToken 6000 officialServer).1; [rewrite H; reflexivity | vm_compute; reflexivity].
Defined.
