(* ===== verification/Officials.v ===== *)
(** * Tournament officials

    tournament-officials/tournament-officials.service.ts: the officials of a tournament, their
    deactivation within the staffing of the brackets, and their passcodes. The passcodes drawn are
    arguments; the bcrypt hash, the HMAC of the passcodes and the Unicode normalization of names (NFKC and
    lower case) are parameters. PostgreSQL checks the unique indexes of a table in the order they were
    made: the one on names comes before the one on passcode digests. *)
From stdpp Require Import sets relations pretty.
From S2P Require Import Prelude Schema Database Rules Scenario BracketOutcome BracketGenerator BracketTokens BracketDraws BracketStorage BracketMatches Redis Sessions OfficialAccess.

Definition PASSCODE_GENERATION_ATTEMPTS : nat := 8.

Definition OFFICIAL_NOT_FOUND : error := NotFound "OFFICIAL_NOT_FOUND".
Definition OFFICIAL_NAME_EXISTS : error := Conflict "OFFICIAL_NAME_EXISTS".
Definition ROLE_CHANGE_NOT_ALLOWED : error := Conflict "ROLE_CHANGE_NOT_ALLOWED".
Definition OFFICIAL_UPDATE_EMPTY : error := BadRequest "OFFICIAL_UPDATE_EMPTY".
Definition OFFICIAL_IN_ACTIVE_MATCH : error := Conflict "OFFICIAL_IN_ACTIVE_MATCH".
Definition OFFICIAL_COUNT_BELOW_STAFFING_REQUIREMENT : error := Conflict "OFFICIAL_COUNT_BELOW_STAFFING_REQUIREMENT".

Record CreateOfficial : Type := mkCreateOfficial { co_role : TournamentOfficialRole; co_name : string }.
Record UpdateOfficial : Type := mkUpdateOfficial { uo_name : option string; uo_isActive : option bool; uo_role : option TournamentOfficialRole }.

(** [OfficialRow]: the official with the match it is assigned to *)
Record SelectedOfficial : Type := mkSelectedOfficial { so_row : OfficialRow; so_match : option (uuid * string * MatchStatus) }.

Inductive OfficialViewStatus : Type := VIEW_DISABLED | VIEW_IN_MATCH | VIEW_READY.
Record OfficialView : Type := mkOfficialView {
  ov_id : uuid; ov_tournamentId : uuid; ov_role : TournamentOfficialRole; ov_name : string; ov_isActive : bool;
  ov_deactivatedAt : option timestamp; ov_status : OfficialViewStatus; ov_connected : bool;
  ov_currentMatch : option (uuid * string * MatchStatus) }.

(** [safe] *)
Definition safeOfficial (o : OfficialRow) : json :=
  JObj [("role", JRole (tf_role o)); ("name", JStr (tf_name o)); ("isActive", JBool (tf_isActive o));
        ("deactivatedAt", jopt JTime (tf_deactivatedAt o))]%string.

(** [audit] *)
Definition auditOfficial (actorId : uuid) (eventType : AuditEventType) (tournamentId officialId : uuid) (before : option OfficialRow)
    (after : OfficialRow) : DbM unit :=
  _ ← create auditLogs (fun id => mkAuditRow id None (Some actorId) None None eventType
    (JObj [("tournamentId", JId tournamentId); ("officialId", JId officialId); ("role", JRole (tf_role after));
           ("before", jopt safeOfficial before); ("after", safeOfficial after)]%string));
  mret tt.

(** [officialSelect] *)
Definition selected (o : OfficialRow) : DbM SelectedOfficial :=
  assignment ← find_one matchOfficialAssignments (fun a => (oa_officialId a === tf_id o) && (oa_releasedAt a === None));
  match assignment with
  | None => mret (mkSelectedOfficial o None)
  | Some a => m ← find_one_or_throw matches (fun m => m_id m === oa_matchId a); mret (mkSelectedOfficial o (Some (m_id m, m_publicId m, m_status m)))
  end.

(** [require] *)
Definition requireOfficial (tournamentId id : uuid) : DbM SelectedOfficial :=
  row ← find_one tournamentOfficials (fun o => (tf_id o === id) && (tf_tournamentId o === tournamentId));
  row ← or_throw row OFFICIAL_NOT_FOUND;
  selected row.

(** [lockMutableTournament] *)
Definition lockMutableTournament (tournamentId : uuid) : DbM unit :=
  tournament ← find_one tournaments (fun t => tn_id t === tournamentId);
  tournament ← or_throw tournament (NotFound "TOURNAMENT_NOT_FOUND");
  throw_if (set_ (tn_softDeletedAt tournament)) (NotFound "TOURNAMENT_NOT_FOUND");;
  throw_if (tn_status tournament === TOURNAMENT_ARCHIVED) (Conflict "TOURNAMENT_ARCHIVED").

(** [name] *)
Definition officialName (value : string) : DbM string :=
  throw_if (trim value === EmptyString) (BadRequest "INVALID_TEXT");; mret (trim value).

(** The rounds [assertDeactivationAllowed] looks at: those of the tournament's active brackets with an
    unfinished fixture. *)
Definition unfinished (bracketId : uuid) (d : DB) : bool :=
  existsb (fun f => (fx_bracketId f === bracketId) && (fx_status f !== FIXTURE_COMPLETED)) (db_bracketFixtures d).
Definition staffingRequirement (tournamentId : uuid) (d : DB) (s : StaffingRow) : bool :=
  existsb (fun b => (br_id b === st_bracketId s) && (br_tournamentId b === tournamentId) && (br_status b === BRACKET_ACTIVE) && unfinished (br_id b) d)
    (db_tournamentBrackets d).
Definition maximum (l : list Z) : Z := match l with [] => 0 | x :: l => fold_left Z.max l x end.

(** [assertDeactivationAllowed] *)
Definition assertDeactivationAllowed (tournamentId : uuid) (official : SelectedOfficial) : DbM unit :=
  throw_if (set_ (so_match official)) OFFICIAL_IN_ACTIVE_MATCH;;
  if tf_role (so_row official) !== OFFICIAL_JUDGE then mret tt else
  requirements ← gets (fun d => List.filter (staffingRequirement tournamentId d) (db_bracketRoundStaffing d));
  match requirements with
  | [] => mret tt
  | _ => active ← count tournamentOfficials (activeJudgeOf tournamentId);
         throw_if (active - 1 <? maximum (map st_requiredJudgeCount requirements)) OFFICIAL_COUNT_BELOW_STAFFING_REQUIREMENT
  end.

(** The sessions of an official are ended; their ids. *)
Definition endOfficialSessions (officialId : uuid) (now : timestamp) : DbM (list uuid) :=
  revokedSessions ← find_many tournamentOfficialSessions (fun s => (os_officialId s === officialId) && os_active s);
  _ ← update_many tournamentOfficialSessions (fun s => bool_decide (os_id s ∈ map os_id revokedSessions)) (endSession now);
  mret (map os_id revokedSessions).

(** [isOfficialConnected] *)
Definition officialConnected (officialId : uuid) (now : timestamp) (st : Redis) : bool :=
  match redisGet (OfficialOnlineKey officialId) now st with Some (Counter n) => isSafe n && (0 <? n) | _ => false end.

(** [present] *)
Definition presentOfficial (row : SelectedOfficial) (now : timestamp) : Req OfficialView := fun w =>
  let o := so_row row in
  (Ok (mkOfficialView (tf_id o) (tf_tournamentId o) (tf_role o) (tf_name o) (tf_isActive o) (tf_deactivatedAt o)
     (if negb (tf_isActive o) then VIEW_DISABLED else if set_ (so_match row) then VIEW_IN_MATCH else VIEW_READY)
     (officialConnected (tf_id o) now (sv_redis w)) (so_match row)), w).

(** [TournamentOfficialsService.get] *)
Definition getOfficial (tournamentId officialId : uuid) (now : timestamp) : Req OfficialView :=
  row ← inDb (requireOfficial tournamentId officialId); presentOfficial row now.

(** The loop of [create] and [regeneratePasscode]: a passcode whose digest collides is drawn again, except
    on the last attempt; every other error is translated. *)
Fixpoint withPasscode {A} (collides : string -> error -> DB -> bool) (translate : error -> DB -> error) (body : string -> DbM A)
    (draw : nat -> string) (left attempt : nat) : Req (A * string) := fun w =>
  match left with
  | O => (Err (Conflict "OFFICIAL_PASSCODE_COLLISION"), w)
  | S left' =>
      match inDb (body (draw attempt)) w with
      | (Ok a, w') => (Ok (a, draw attempt), w')
      | (Err e, w') =>
          if collides (draw attempt) e (sv_db w') && negb (left' =? 0)%nat then withPasscode collides translate body draw left' (S attempt) w'
          else (Err (translate e (sv_db w')), w')
      end
  end.

Section Service.
Context (hashPasscode passcodeDigest : string -> string) (normalized : string -> string).

Definition nameTaken (tournamentId : uuid) (role : TournamentOfficialRole) (name : string) (d : DB) : bool :=
  existsb (fun o => (tf_tournamentId o === tournamentId) && (tf_role o === role) && (tf_normalizedName o === normalized name)) (db_tournamentOfficials d).
Definition digestTaken (tournamentId : uuid) (passcode : string) (d : DB) : bool :=
  existsb (fun o => (tf_tournamentId o === tournamentId) && (tf_passcodeLookupDigest o === passcodeDigest passcode)) (db_tournamentOfficials d).

(** The transaction of [create] *)
Definition createOfficialTx (tournamentId : uuid) (role : TournamentOfficialRole) (name : string) (actorId : uuid) (passcode : string) :
    DbM SelectedOfficial :=
  lockMutableTournament tournamentId;;
  created ← create tournamentOfficials (fun id => mkOfficialRow id tournamentId role true name (normalized name) (hashPasscode passcode)
    (passcodeDigest passcode) None);
  row ← selected created;
  auditOfficial actorId TOURNAMENT_OFFICIAL_CREATED tournamentId (tf_id created) None created;;
  mret row.

(** [TournamentOfficialsService.create] *)
Definition createOfficial (tournamentId : uuid) (input : CreateOfficial) (actorId : uuid) (draw : nat -> string) (now : timestamp) :
    Req (OfficialView * string) :=
  name ← inDb (officialName (co_name input));
  created ← withPasscode
    (fun p e d => match e with UniqueViolation => digestTaken tournamentId p d && negb (nameTaken tournamentId (co_role input) name d) | _ => false end)
    (fun e d => match e with UniqueViolation => if nameTaken tournamentId (co_role input) name d then OFFICIAL_NAME_EXISTS else e | _ => e end)
    (createOfficialTx tournamentId (co_role input) name actorId) draw PASSCODE_GENERATION_ATTEMPTS 0;
  view ← presentOfficial created.1 now;
  mret (view, created.2).

(** The row [update] writes *)
Definition updatedOfficial (name : option string) (isActive : option bool) (now : timestamp) (o : OfficialRow) : OfficialRow :=
  let o := match name with Some n => o <| tf_name := n |> <| tf_normalizedName := normalized n |> | None => o end in
  match isActive with Some b => o <| tf_isActive := b |> <| tf_deactivatedAt := if b then None else Some now |> | None => o end.

(** The transaction of [update]; a violated index is the one on names. *)
Definition updateOfficialTx (tournamentId officialId : uuid) (input : UpdateOfficial) (actorId : uuid) (now : timestamp) :
    DbM (SelectedOfficial * list uuid) :=
  lockMutableTournament tournamentId;;
  before ← requireOfficial tournamentId officialId;
  throw_if (set_ (uo_role input) && (uo_role input !== Some (tf_role (so_row before)))) ROLE_CHANGE_NOT_ALLOWED;;
  name ← match uo_name input with None => mret None | Some v => n ← officialName v; mret (Some n) end;
  let deactivated := (uo_isActive input === Some false) && tf_isActive (so_row before) in
  when deactivated (assertDeactivationAllowed tournamentId before);;
  rethrow (fun e => match e with UniqueViolation => OFFICIAL_NAME_EXISTS | _ => e end)
    (after ← update tournamentOfficials (fun o => tf_id o === officialId) (updatedOfficial name (uo_isActive input) now);
     row ← selected after;
     auditOfficial actorId (if deactivated then TOURNAMENT_OFFICIAL_DEACTIVATED else TOURNAMENT_OFFICIAL_UPDATED) tournamentId officialId
       (Some (so_row before)) after;;
     revokedSessionIds ← (if deactivated then endOfficialSessions officialId now else mret []);
     mret (row, revokedSessionIds)).

(** [TournamentOfficialsService.update] *)
Definition updateOfficial (tournamentId officialId : uuid) (input : UpdateOfficial) (actorId : uuid) (now : timestamp) : Req OfficialView :=
  refuse_if (negb (set_ (uo_name input) || set_ (uo_isActive input) || set_ (uo_role input))) OFFICIAL_UPDATE_EMPTY;;
  result ← inDb (updateOfficialTx tournamentId officialId input actorId now);
  revokeSessions result.2;;
  presentOfficial result.1 now.

(** [TournamentOfficialsService.deactivate] *)
Definition deactivateOfficial (tournamentId officialId actorId : uuid) (now : timestamp) : Req OfficialView :=
  updateOfficial tournamentId officialId (mkUpdateOfficial None (Some false) None) actorId now.

(** The transaction of [regeneratePasscode] *)
Definition regenerateTx (tournamentId officialId actorId : uuid) (now : timestamp) (passcode : string) : DbM (SelectedOfficial * list uuid) :=
  lockMutableTournament tournamentId;;
  current ← requireOfficial tournamentId officialId;
  _ ← update tournamentOfficials (fun o => tf_id o === officialId)
        (fun o => o <| tf_passcodeHash := hashPasscode passcode |> <| tf_passcodeLookupDigest := passcodeDigest passcode |>);
  revokedSessionIds ← endOfficialSessions officialId now;
  auditOfficial actorId TOURNAMENT_OFFICIAL_PASSCODE_REGENERATED tournamentId officialId (Some (so_row current)) (so_row current);;
  official ← requireOfficial tournamentId officialId;
  mret (official, revokedSessionIds).

(** [TournamentOfficialsService.regeneratePasscode]; only the index on digests can be violated. *)
Definition regeneratePasscode (tournamentId officialId actorId : uuid) (draw : nat -> string) (now : timestamp) : Req (OfficialView * string) :=
  official ← withPasscode (fun _ e _ => match e with UniqueViolation => true | _ => false end) (fun e _ => e)
    (regenerateTx tournamentId officialId actorId now) draw PASSCODE_GENERATION_ATTEMPTS 0;
  revokeSessions official.1.2;;
  view ← presentOfficial official.1.1 now;
  mret (view, official.2).
End Service.

(** ** Laws *)

Section Laws.
Context (hashPasscode passcodeDigest : string -> string) (normalized : string -> string).

Definition officialTables : list table := [tournamentOfficials; tournamentOfficialSessions; auditLogs].

Lemma updated_id name b now o : row_id tournamentOfficials (updatedOfficial normalized name b now o) = row_id tournamentOfficials o.
Proof. destruct name, b; reflexivity. Qed.
Lemma createTx_kept t role name a p : respects keeps_sound (createOfficialTx hashPasscode passcodeDigest normalized t role name a p) /\
  respects (touches officialTables) (createOfficialTx hashPasscode passcodeDigest normalized t role name a p).
Proof. split; unfold createOfficialTx, lockMutableTournament, selected, auditOfficial; respects_auto. Qed.
Lemma updateTx_kept t o i a now : respects keeps_sound (updateOfficialTx normalized t o i a now) /\
  respects (touches officialTables) (updateOfficialTx normalized t o i a now).
Proof.
  split; unfold updateOfficialTx, lockMutableTournament, requireOfficial, assertDeactivationAllowed, officialName, endOfficialSessions, selected, auditOfficial;
    respects_auto.
  apply (keeps_sound_update tournamentOfficials); intros r; exact (updated_id _ _ _ r).
Qed.
Lemma regenerateTx_kept t o a now p : respects keeps_sound (regenerateTx hashPasscode passcodeDigest t o a now p) /\
  respects (touches officialTables) (regenerateTx hashPasscode passcodeDigest t o a now p).
Proof.
  split; unfold regenerateTx, lockMutableTournament, requireOfficial, endOfficialSessions, selected, auditOfficial; respects_auto.
Qed.

(** The loop commits the transaction of one passcode, or nothing. *)
Lemma withPasscode_inv {A} collides translate (body : string -> DbM A) draw left : forall attempt w r w',
  withPasscode collides translate body draw left attempt w = (r, w') ->
  match r with
  | Ok (a, p) => (exists k, p = draw k) /\ body p (sv_db w) = Ok (a, sv_db w') /\ sv_redis w' = sv_redis w /\ sv_closed w' = sv_closed w
  | Err _ => w' = w
  end.
Proof.
  induction left as [| left IH]; intros attempt w r w' H; cbn [withPasscode] in H; [injection H as <- <-; reflexivity |].
  destruct (inDb (body (draw attempt)) w) as [[a | e] w1] eqn:E; apply inDb_inv in E as [(e' & [=] & _ & Ew) | (a' & [=] & Hb & Hr & Hc)]; subst.
  - injection H as <- <-; split_and!; eauto.
  - destruct (_ && _); [exact (IH _ _ _ _ H) | injection H as <- <-; reflexivity].
Qed.

(** *** Counting *)

Lemma filter_length_split {A} (p q : A -> bool) l :
  length (List.filter q l) = (length (List.filter (fun x => negb (p x) && q x) l) + length (List.filter q (List.filter p l)))%nat.
Proof. induction l as [| x l IH]; cbn; [reflexivity |]; destruct (p x); cbn; destruct (q x); cbn; rewrite IH; lia. Qed.
Lemma filter_map_where_length {A} (p q : A -> bool) g l :
  length (List.filter q (map_where p g l)) =
  (length (List.filter (fun x => negb (p x) && q x) l) + length (List.filter (fun x => q (g x)) (List.filter p l)))%nat.
Proof.
  unfold map_where; induction l as [| x l IH]; cbn; [reflexivity |].
  destruct (p x) eqn:E; cbn; [destruct (q (g x)) | destruct (q x)]; cbn; rewrite IH; lia.
Qed.

Lemma fold_max_bound l : forall m x, x <= m \/ In x l -> x <= fold_left Z.max l m.
Proof.
  induction l as [| y l IH]; cbn; intros m x [Hx | Hx]; try (destruct Hx; fail); auto.
  - apply IH; left; lia.
  - apply IH; destruct Hx as [-> | Hx]; [left; lia | auto].
Qed.
Lemma maximum_le l x : In x l -> x <= maximum l.
Proof. destruct l as [| y l]; cbn; [intros [] |]; intros [-> | Hx]; apply fold_max_bound; [left; lia | auto]. Qed.

Lemma official_rows d i x : wf d -> In x (db_tournamentOfficials d) -> tf_id x = i ->
  List.filter (fun o => tf_id o === i) (db_tournamentOfficials d) = [x].
Proof.
  intros Hwf Hin Hx; apply filter_single; [| exact Hin | apply bool_decide_eq_true_2, Hx |].
  - pose proof (Hwf tournamentOfficials) as Ht; apply table_ok_true in Ht as (_ & Hpk & _).
    pose proof (unique_by_filter (row_id tournamentOfficials) tf_id (fun _ => true) (db_tournamentOfficials d) Hpk (fun _ _ _ => eq_refl)) as Hnd.
    rewrite filter_everything in Hnd by reflexivity; exact (NoDup_fmap_1 tf_id _ Hnd).
  - intros y Hy Hyi; to_prop; apply (wf_id tournamentOfficials d y x i Hwf Hy Hin); cbn; congruence.
Qed.

Definition activeJudges (t : uuid) (d : DB) : Z := Z.of_nat (length (List.filter (activeJudgeOf t) (db_tournamentOfficials d))).

(** Rewriting one official changes the number of judges by that official. *)
Lemma activeJudges_updated t i x g d d' : wf d -> In x (db_tournamentOfficials d) -> tf_id x = i ->
  db_tournamentOfficials d' = map_where (fun o => tf_id o === i) g (db_tournamentOfficials d) ->
  activeJudges t d' = activeJudges t d - (if activeJudgeOf t x then 1 else 0) + (if activeJudgeOf t (g x) then 1 else 0).
Proof.
  intros Hwf Hin Hx E; unfold activeJudges; rewrite E, filter_map_where_length, (filter_length_split (fun o => tf_id o === i) (activeJudgeOf t) (db_tournamentOfficials d)).
  rewrite (official_rows d i x Hwf Hin Hx); cbn; destruct (activeJudgeOf t x), (activeJudgeOf t (g x)); cbn; lia.
Qed.

(** *** What the transactions leave of the officials *)

Lemma require_ok t i d s d' : requireOfficial t i d = Ok (s, d') -> d' = d /\ In (so_row s) (db_tournamentOfficials d) /\ tf_id (so_row s) = i /\ tf_tournamentId (so_row s) = t.
Proof.
  intros H; unfold requireOfficial in H; apply bind_ok in H as (o & d1 & Ho & H); apply gets_ok in Ho as [-> ->].
  apply bind_ok in H as (o & d1 & Ho & H); apply or_throw_ok in Ho as [Ho ->]; apply find_first_some in Ho as [Hin Ho]; to_prop.
  unfold selected in H; apply bind_ok in H as (a & d1 & Ha & H); apply gets_ok in Ha as [_ ->].
  destruct a as [a |]; [apply bind_ok in H as (m & d1 & Hm & H); apply (find_one_or_throw_ok matches) in Hm as [_ ->] |]; apply ret_ok in H as [<- <-]; auto.
Qed.

Lemma createTx_rows t role name a p d s d' : createOfficialTx hashPasscode passcodeDigest normalized t role name a p d = Ok (s, d') ->
  exists o, db_tournamentOfficials d' = db_tournamentOfficials d ++ [o] /\ tf_tournamentId o = t /\ tf_role o = role /\ tf_isActive o = true /\
    tf_passcodeHash o = hashPasscode p /\ so_row s = o.
Proof.
  intros H; unfold createOfficialTx in H; apply bind_ok in H as (u & d1 & Hl & H).
  assert (d1 = d) as -> by (refine (read_only _ _ _ _ _ Hl); unfold lockMutableTournament; respects_auto).
  apply bind_ok in H as (o & d2 & Ho & H); apply (create_ok tournamentOfficials) in Ho as (-> & _ & Ed2).
  apply bind_ok in H as (r & d3 & Hr & H); assert (d3 = d2) as -> by (refine (read_only _ _ _ _ _ Hr); unfold selected; respects_auto).
  apply bind_ok in H as (u' & d4 & Ha & H); apply ret_ok in H as [<- <-].
  assert (Ht : touches [auditLogs] d2 d4) by (refine ((_ : respects (touches [auditLogs]) (auditOfficial _ _ _ _ _ _)) _ _ _ Ha); unfold auditOfficial; respects_auto).
  eexists; split_and!; [rewrite (Ht tournamentOfficials ltac:(table_notin) : db_tournamentOfficials d4 = db_tournamentOfficials d2), Ed2; reflexivity | reflexivity .. |].
  unfold selected in Hr; apply bind_ok in Hr as (x & d5 & Hx & Hr); apply gets_ok in Hx as [_ ->].
  destruct x as [x |]; [apply bind_ok in Hr as (m & d5 & Hm & Hr) |]; apply ret_ok in Hr as [<- _]; reflexivity.
Qed.

Lemma allowed_ok t off d u d' : assertDeactivationAllowed t off d = Ok (u, d') -> d' = d /\ so_match off = None /\
  (tf_role (so_row off) = OFFICIAL_JUDGE -> forall s, In s (db_bracketRoundStaffing d) -> staffingRequirement t d s = true ->
     st_requiredJudgeCount s <= activeJudges t d - 1).
Proof.
  intros H; unfold assertDeactivationAllowed in H; apply bind_ok in H as (u1 & d1 & E & H); apply throw_if_ok in E as [Em ->].
  apply set_none in Em; destruct (bool_decide_reflect (tf_role (so_row off) = OFFICIAL_JUDGE)) as [Er | Er]; cbn [negb] in H.
  2: { apply ret_ok in H as [_ <-]; split_and!; auto; congruence. }
  apply bind_ok in H as (l & d1 & E & H); apply gets_ok in E as [El ->]; destruct l as [| y l].
  - apply ret_ok in H as [_ <-]; split_and!; auto; intros _ s Hs Hreq.
    assert (Hin : In s (List.filter (staffingRequirement t d) (db_bracketRoundStaffing d))) by (apply filter_In; auto); rewrite <- El in Hin; destruct Hin.
  - apply bind_ok in H as (n & d1 & E & H); apply gets_ok in E as [-> ->]; apply throw_if_ok in H as [Hlt ->]; split_and!; auto; intros _ s Hs Hreq.
    assert (Hin : In s (y :: l)) by (rewrite El; apply filter_In; auto).
    pose proof (maximum_le (map st_requiredJudgeCount (y :: l)) _ (in_map st_requiredJudgeCount _ _ Hin)) as Hmax.
    apply Z.ltb_ge in Hlt; unfold activeJudges; cbn [get row_of] in Hlt. clear - Hlt Hmax; lia.
Qed.

(** The sessions ended are the active ones of the official. *)
Lemma endSessions_ok o now d ids d' : endOfficialSessions o now d = Ok (ids, d') -> sound d ->
  ids = map os_id (List.filter (fun s => (os_officialId s === o) && os_active s) (db_tournamentOfficialSessions d)) /\
  db_tournamentOfficialSessions d' = map_where (fun s => (os_officialId s === o) && os_active s) (endSession now) (db_tournamentOfficialSessions d) /\
  touches [tournamentOfficialSessions] d d'.
Proof.
  intros H Hs; unfold endOfficialSessions in H; apply bind_ok in H as (l & d1 & E & H); apply gets_ok in E as [-> ->].
  apply bind_ok in H as (n & d1 & E & H); apply ret_ok in H as [<- <-]; apply (update_many_ok tournamentOfficialSessions) in E as (_ & _ & ->); cbn [get].
  split; [reflexivity |]; split; [apply map_where_agree | intros t' Ht'; apply get_put_other; set_solver].
  intros x Hx; destruct ((os_officialId x === o) && os_active x) eqn:E.
  - apply bool_decide_eq_true_2, list_elem_of_In, in_map, filter_In; auto.
  - apply bool_decide_eq_false_2; intros Hin; apply list_elem_of_In, in_map_iff in Hin as (y & Hid & Hy); apply filter_In in Hy as [Hy Hp].
    destruct (officialSessions_unique d Hs) as (_ & Hd & _); rewrite (Hd y x Hy Hx Hid), E in Hp; discriminate.
Qed.

(** What an update leaves. *)
Lemma updateTx_rows t o i a now d s ids d' : updateOfficialTx normalized t o i a now d = Ok ((s, ids), d') -> sound d ->
  exists before name, In before (db_tournamentOfficials d) /\ tf_id before = o /\ tf_tournamentId before = t /\
    db_tournamentOfficials d' = map_where (fun x => tf_id x === o) (updatedOfficial normalized name (uo_isActive i) now) (db_tournamentOfficials d) /\
    if (uo_isActive i === Some false) && tf_isActive before
    then (tf_role before = OFFICIAL_JUDGE -> forall st, In st (db_bracketRoundStaffing d) -> staffingRequirement t d st = true ->
            st_requiredJudgeCount st <= activeJudges t d - 1) /\
         ids = map os_id (List.filter (fun x => (os_officialId x === o) && os_active x) (db_tournamentOfficialSessions d)) /\
         db_tournamentOfficialSessions d' = map_where (fun x => (os_officialId x === o) && os_active x) (endSession now) (db_tournamentOfficialSessions d)
    else ids = [] /\ db_tournamentOfficialSessions d' = db_tournamentOfficialSessions d.
Proof.
  intros H Hs; unfold updateOfficialTx in H; apply bind_ok in H as (u & d1 & E & H).
  assert (d1 = d) as -> by (refine (read_only _ _ _ _ _ E); unfold lockMutableTournament; respects_auto); clear E.
  apply bind_ok in H as (before & d1 & E & H); apply require_ok in E as (-> & Hin & Hid & Ht).
  apply bind_ok in H as (u1 & d1 & E & H); apply throw_if_ok in E as [_ ->].
  apply bind_ok in H as (name & d1 & E & H); assert (d1 = d) as -> by (refine (read_only _ _ _ _ _ E); unfold officialName; respects_auto); clear E.
  cbv zeta in H; destruct ((uo_isActive i === Some false) && tf_isActive (so_row before)) eqn:Edeact; cbn [when] in H.
  - apply bind_ok in H as (u2 & d1 & E & H); apply allowed_ok in E as (-> & _ & Hallow).
    apply rethrow_ok, bind_ok in H as (after & d1 & E & H); apply (update_ok tournamentOfficials) in E as (x & _ & _ & Hok & Ed1).
    assert (Hs1 : sound d1) by (rewrite Ed1; apply (sound_map_where tournamentOfficials); [intros r; exact (updated_id _ _ _ r) | exact Hok | exact Hs]).
    apply bind_ok in H as (row & d2 & E & H); assert (d2 = d1) as -> by (refine (read_only _ _ _ _ _ E); unfold selected; respects_auto); clear E.
    apply bind_ok in H as (u3 & d2 & E & H).
    assert (Ha : touches [auditLogs] d1 d2) by (refine ((_ : respects (touches [auditLogs]) (auditOfficial _ _ _ _ _ _)) _ _ _ E); unfold auditOfficial; respects_auto).
    assert (Hs2 : sound d2) by (refine ((_ : respects keeps_sound (auditOfficial _ _ _ _ _ _)) _ _ _ E Hs1); unfold auditOfficial; respects_auto).
    apply bind_ok in H as (ids' & d3 & He & H); apply ret_ok in H as [H <-]; injection H as <- <-; apply endSessions_ok in He as (-> & Es & Hte); [| exact Hs2].
    pose proof (Ha tournamentOfficialSessions ltac:(table_notin) : db_tournamentOfficialSessions d2 = _) as E2.
    pose proof (Hte tournamentOfficials ltac:(table_notin) : db_tournamentOfficials d3 = _) as E3.
    pose proof (Ha tournamentOfficials ltac:(table_notin) : db_tournamentOfficials d2 = _) as E4.
    exists (so_row before), name; rewrite Edeact; split_and!; auto.
    + rewrite E3; cbn [get]; rewrite E4; cbn [get]; rewrite Ed1; reflexivity.
    + rewrite E2; cbn [get]; rewrite Ed1; reflexivity.
    + rewrite Es, E2; cbn [get]; rewrite Ed1; reflexivity.
  - apply bind_ok in H as (u2 & d1 & E & H); apply ret_ok in E as [_ <-].
    apply rethrow_ok, bind_ok in H as (after & d1 & E & H); apply (update_ok tournamentOfficials) in E as (x & _ & _ & _ & Ed1).
    apply bind_ok in H as (row & d2 & E & H); assert (d2 = d1) as -> by (refine (read_only _ _ _ _ _ E); unfold selected; respects_auto); clear E.
    apply bind_ok in H as (u3 & d2 & E & H).
    assert (Ha : touches [auditLogs] d1 d2) by (refine ((_ : respects (touches [auditLogs]) (auditOfficial _ _ _ _ _ _)) _ _ _ E); unfold auditOfficial; respects_auto).
    apply bind_ok in H as (ids' & d3 & He & H); apply ret_ok in He as [<- <-]; apply ret_ok in H as [H <-]; injection H as <- <-.
    exists (so_row before), name; rewrite Edeact; split_and!; auto.
    + rewrite (Ha tournamentOfficials ltac:(table_notin) : db_tournamentOfficials d2 = _); cbn [get]; rewrite Ed1; reflexivity.
    + rewrite (Ha tournamentOfficialSessions ltac:(table_notin) : db_tournamentOfficialSessions d2 = _); cbn [get]; rewrite Ed1; reflexivity.
Qed.

Lemma regenerateTx_rows t o a now p d s ids d' : regenerateTx hashPasscode passcodeDigest t o a now p d = Ok ((s, ids), d') -> sound d ->
  exists current, In current (db_tournamentOfficials d) /\ tf_id current = o /\ tf_tournamentId current = t /\
    db_tournamentOfficials d' = map_where (fun x => tf_id x === o)
      (fun x => x <| tf_passcodeHash := hashPasscode p |> <| tf_passcodeLookupDigest := passcodeDigest p |>) (db_tournamentOfficials d) /\
    ids = map os_id (List.filter (fun x => (os_officialId x === o) && os_active x) (db_tournamentOfficialSessions d)) /\
    db_tournamentOfficialSessions d' = map_where (fun x => (os_officialId x === o) && os_active x) (endSession now) (db_tournamentOfficialSessions d).
Proof.
  intros H Hs; unfold regenerateTx in H; apply bind_ok in H as (u & d1 & E & H).
  assert (d1 = d) as -> by (refine (read_only _ _ _ _ _ E); unfold lockMutableTournament; respects_auto); clear E.
  apply bind_ok in H as (cur & d1 & E & H); apply require_ok in E as (-> & Hin & Hid & Ht).
  apply bind_ok in H as (x & d1 & E & H); apply (update_ok tournamentOfficials) in E as (y & _ & _ & Hok & Ed1).
  assert (Hs1 : sound d1) by (rewrite Ed1; apply (sound_map_where tournamentOfficials); [intros r; reflexivity | exact Hok | exact Hs]).
  apply bind_ok in H as (ids' & d2 & E & H); apply endSessions_ok in E as (-> & Es & Hte); [| exact Hs1].
  apply bind_ok in H as (u3 & d3 & E & H).
  assert (Ha : touches [auditLogs] d2 d3) by (refine ((_ : respects (touches [auditLogs]) (auditOfficial _ _ _ _ _ _)) _ _ _ E); unfold auditOfficial; respects_auto).
  apply bind_ok in H as (off & d4 & E4 & H); apply require_ok in E4 as (-> & _); apply ret_ok in H as [H <-]; injection H as <- <-.
  exists (so_row cur); split_and!; auto.
  - rewrite (Ha tournamentOfficials ltac:(table_notin) : db_tournamentOfficials d3 = _); cbn [get].
    rewrite (Hte tournamentOfficials ltac:(table_notin) : db_tournamentOfficials d2 = _); cbn [get]; rewrite Ed1; reflexivity.
  - rewrite Ed1; reflexivity.
  - rewrite (Ha tournamentOfficialSessions ltac:(table_notin) : db_tournamentOfficialSessions d3 = _); cbn [get]; rewrite Es, Ed1; reflexivity.
Qed.
End Laws.

(** *** Judges suffice for the brackets *)

Section Staffing.
Context (hashPasscode passcodeDigest : string -> string) (normalized : string -> string).

(** Every round of an unfinished active bracket is staffed with no more judges than are active. *)
Definition judgesSuffice (d : DB) : Prop := forall t st, In st (db_bracketRoundStaffing d) -> staffingRequirement t d st = true ->
  st_requiredJudgeCount st <= activeJudges t d.

Definition sameBrackets (d d' : DB) : Prop := db_tournamentBrackets d' = db_tournamentBrackets d /\ db_bracketFixtures d' = db_bracketFixtures d.
Lemma requirement_same d d' t st : sameBrackets d d' -> staffingRequirement t d' st = staffingRequirement t d st.
Proof. intros [Hb Hf]; unfold staffingRequirement, unfinished; rewrite Hb, Hf; reflexivity. Qed.

Lemma officialTables_brackets d d' : touches officialTables d d' -> sameBrackets d d' /\ db_bracketRoundStaffing d' = db_bracketRoundStaffing d.
Proof.
  intros Ht; split; [split |]; [exact (Ht tournamentBrackets ltac:(table_notin)) | exact (Ht bracketFixtures ltac:(table_notin)) | exact (Ht bracketRoundStaffing ltac:(table_notin))].
Qed.

(** A round of an unfinished active bracket that asks for more judges than are active *)
Definition asksTooMany (t : uuid) (st : StaffingRow) (d : DB) : Prop :=
  In st (db_bracketRoundStaffing d) /\ staffingRequirement t d st = true /\ activeJudges t d < st_requiredJudgeCount st.
(** Whatever asks for too many afterwards did before, of no more judges. *)
Definition noNewShortage (d d' : DB) : Prop := forall t st, asksTooMany t st d' -> asksTooMany t st d /\ activeJudges t d <= activeJudges t d'.
#[export] Instance noNewShortage_preorder : PreOrder noNewShortage.
Proof.
  split; [intros d t st H; split; [exact H | lia] |]; intros d1 d2 d3 H12 H23 t st H.
  destruct (H23 t st H) as [H2 L2], (H12 t st H2) as [H1 L1]; split; [exact H1 | lia].
Qed.
Lemma noShortage_suffices d d' : noNewShortage d d' -> judgesSuffice d -> judgesSuffice d'.
Proof.
  intros H Hj t st Hin Hreq; destruct (Z.le_gt_cases (st_requiredJudgeCount st) (activeJudges t d')) as [| Hgt]; [assumption |].
  destruct (H t st ltac:(split_and!; auto)) as [(Hin0 & Hreq0 & Hlt) _]; specialize (Hj t st Hin0 Hreq0); lia.
Qed.

Lemma suffice_officials d d' : touches officialTables d d' ->
  (forall t, activeJudges t d <= activeJudges t d' \/
     forall st, In st (db_bracketRoundStaffing d) -> staffingRequirement t d st = true -> st_requiredJudgeCount st <= activeJudges t d') ->
  noNewShortage d d'.
Proof.
  intros Ht Hx t st (Hin & Hreq & Hlt); destruct (officialTables_brackets d d' Ht) as [Hb Es]; rewrite Es in Hin; rewrite (requirement_same d d' t st Hb) in Hreq.
  destruct (Hx t) as [Hle | Hst]; [split; [split_and!; auto; lia | exact Hle] | specialize (Hst st Hin Hreq); lia].
Qed.

Lemma createTx_suffices t role name a p d s d' : createOfficialTx hashPasscode passcodeDigest normalized t role name a p d = Ok (s, d') ->
  noNewShortage d d'.
Proof.
  intros H; refine (suffice_officials d d' (proj2 (createTx_kept _ _ _ _ _ _ _ _) _ _ _ H) _); intros t'; left.
  destruct (createTx_rows _ _ _ _ _ _ _ _ _ _ _ H) as (o & E & _); unfold activeJudges; rewrite E, filter_app, length_app; lia.
Qed.

Lemma updateTx_suffices t o i a now d s ids d' : updateOfficialTx normalized t o i a now d = Ok ((s, ids), d') -> sound d ->
  noNewShortage d d'.
Proof.
  intros H Hs; refine (suffice_officials d d' (proj2 (updateTx_kept _ _ _ _ _ _) _ _ _ H) _); intros t'.
  destruct (updateTx_rows _ _ _ _ _ _ _ _ _ _ H Hs) as (x & name & Hin & Hid & Ht & E & Hd).
  rewrite (activeJudges_updated t' o x _ d d' (proj1 Hs) Hin Hid E).
  assert (Hg : activeJudgeOf t' (updatedOfficial normalized name (uo_isActive i) now x) =
    (tf_tournamentId x === t') && (tf_role x === OFFICIAL_JUDGE) && default (tf_isActive x) (uo_isActive i)).
  { destruct name, (uo_isActive i); reflexivity. }
  rewrite Hg; unfold activeJudgeOf; destruct (bool_decide_reflect (tf_tournamentId x = t')) as [Et |]; cbn [andb]; [| left; lia].
  destruct (bool_decide_reflect (tf_role x = OFFICIAL_JUDGE)) as [Er |]; cbn [andb]; [| left; lia].
  destruct (tf_isActive x), (uo_isActive i) as [[] |]; cbn in Hd |- *; try (left; lia).
  right; destruct Hd as [Hallow _]; intros st Hst Hreq; specialize (Hallow Er st Hst); replace t with t' in Hallow by congruence.
  specialize (Hallow Hreq); lia.
Qed.

Lemma regenerateTx_suffices t o a now p d s ids d' : regenerateTx hashPasscode passcodeDigest t o a now p d = Ok ((s, ids), d') -> sound d ->
  noNewShortage d d'.
Proof.
  intros H Hs; refine (suffice_officials d d' (proj2 (regenerateTx_kept _ _ _ _ _ _ _) _ _ _ H) _); intros t'; left.
  destruct (regenerateTx_rows _ _ _ _ _ _ _ _ _ _ _ H Hs) as (x & Hin & Hid & _ & E & _); rewrite (activeJudges_updated t' o x _ d d' (proj1 Hs) Hin Hid E).
  unfold activeJudgeOf; cbn; destruct (_ && _); lia.
Qed.

Lemma updateStaffing_suffices t wc n k a d r d' : updateStaffing t wc n k a d = Ok (r, d') -> sound d -> noNewShortage d d'.
Proof.
  destruct r as [[st lbl] c]; intros H Hs; destruct (updateStaffing_ok _ _ _ _ _ _ _ _ _ _ H) as (br & old & Hbr & Hold & _ & Hinv & Hc & _ & Erows & Ht).
  assert (Hb : sameBrackets d d') by (split; [exact (Ht tournamentBrackets ltac:(table_notin)) | exact (Ht bracketFixtures ltac:(table_notin))]).
  assert (Eo : db_tournamentOfficials d' = db_tournamentOfficials d) by exact (Ht tournamentOfficials ltac:(table_notin)).
  intros t' s (Hin & Hreq & Hlt); rewrite (requirement_same d d' t' s Hb) in Hreq; unfold activeJudges in *; rewrite Eo in *; fold (activeJudges t' d) in *.
  rewrite Erows in Hin; apply in_map_where in Hin as (x & Hx & ->).
  destruct (bool_decide_reflect (st_id x = st_id old)) as [Ei |]; [| split; [split_and!; auto | lia]].
  apply find_first_some in Hold as [Hold Hp]; to_prop.
  assert (x = old) as -> by (apply (wf_id bracketRoundStaffing d x old (st_id old) (proj1 Hs) Hx Hold); cbn; congruence).
  apply find_first_some in Hbr as [Hbrin Hbr]; to_prop; cbn in Hreq, Hlt |- *; apply existsb_exists in Hreq as (b & Hbin & Hb'); to_prop.
  change (st_bracketId (old <| st_requiredJudgeCount := k |>)) with (st_bracketId old) in *.
  assert (b = br) as -> by (apply (wf_id tournamentBrackets d b br (br_id br) (proj1 Hs) Hbin Hbrin); cbn; congruence).
  unfold staffingInvalid in Hinv; apply orb_false_elim in Hinv as [_ Hinv]; apply Z.ltb_ge in Hinv.
  exfalso; replace t' with t in Hlt by congruence; unfold activeJudges in Hlt; lia.
Qed.

Inductive staffing_request (w w' : Server) : Prop :=
  | request_create t i a draw now r : createOfficial hashPasscode passcodeDigest normalized t i a draw now w = (r, w') -> staffing_request w w'
  | request_update t o i a now r : updateOfficial normalized t o i a now w = (r, w') -> staffing_request w w'
  | request_regenerate t o a draw now r : regeneratePasscode hashPasscode passcodeDigest t o a draw now w = (r, w') -> staffing_request w w'
  | request_staffing t wc n k a r : inDb (updateStaffing t wc n k a) w = (r, w') -> staffing_request w w'.

(** What the requests leave: nothing, or what their transaction does. *)
Lemma createOfficial_inv t i a draw now w r w' : createOfficial hashPasscode passcodeDigest normalized t i a draw now w = (r, w') ->
  (exists e, r = Err e /\ quiet w w') \/
  exists v p s, r = Ok (v, p) /\ createOfficialTx hashPasscode passcodeDigest normalized t (co_role i) (trim (co_name i)) a p (sv_db w) = Ok (s, sv_db w') /\
    sv_closed w' = sv_closed w.
Proof.
  intros H; unfold createOfficial in H; apply quiet_bind_inv in H as [(e & -> & Hq) | (name & w1 & Hq & Hn & H)]; [left; eauto | |].
  2: { apply quiet_inDb_read; unfold officialName; respects_auto. }
  assert (name = trim (co_name i)) as ->.
  { apply inDb_inv in Hn as [(e & [=] & _) | (x & [= <-] & Hn & _)]; unfold officialName in Hn; apply bind_ok in Hn as (u & d1 & _ & Hn).
    apply ret_ok in Hn as [<- _]; reflexivity. }
  destruct Hq as [Ed Ec]; apply req_bind_inv in H as [(e & H & ->) | ([s p] & w2 & H & Hk)]; apply withPasscode_inv in H.
  - left; subst w'; exists e; split; [reflexivity | split; assumption].
  - destruct H as (_ & Hb & _ & Hc); rewrite Ed in Hb; injection Hk as <- <-; right; do 3 eexists; split_and!; [reflexivity | exact Hb | congruence].
Qed.
Lemma updateOfficial_inv t o i a now w r w' : updateOfficial normalized t o i a now w = (r, w') ->
  (exists e, r = Err e /\ quiet w w') \/
  exists v s ids, r = Ok v /\ updateOfficialTx normalized t o i a now (sv_db w) = Ok ((s, ids), sv_db w') /\ sv_closed w' = sv_closed w ++ ids.
Proof.
  intros H; unfold updateOfficial in H; apply quiet_bind_inv in H as [(e & -> & Hq) | (u & w1 & Hq & _ & H)]; [left; eauto | |].
  2: { apply leads_refuse_if; apply _. }
  destruct Hq as [Ed Ec]; apply req_bind_inv in H as [(e & H & ->) | ([s ids] & w2 & H & Hk)].
  - apply inDb_inv in H as [(e' & _ & _ & ->) | (x & [=] & _)]; left; exists e; split; [reflexivity | split; assumption].
  - apply inDb_inv in H as [(e' & [=] & _) | (x & [= <-] & Hb & _ & Hc)]; rewrite Ed in Hb; injection Hk as <- <-.
    right; do 3 eexists; split_and!; [reflexivity | exact Hb | cbn; congruence].
Qed.

Lemma regenerate_inv t o a draw now w r w' : regeneratePasscode hashPasscode passcodeDigest t o a draw now w = (r, w') ->
  (exists e, r = Err e /\ quiet w w') \/
  exists v p s ids, r = Ok (v, p) /\ regenerateTx hashPasscode passcodeDigest t o a now p (sv_db w) = Ok ((s, ids), sv_db w') /\
    sv_closed w' = sv_closed w ++ ids.
Proof.
  intros H; unfold regeneratePasscode in H; apply req_bind_inv in H as [(e & H & ->) | ([[s ids] p] & w2 & H & Hk)]; apply withPasscode_inv in H.
  - left; subst w'; exists e; split; [reflexivity | split; reflexivity].
  - destruct H as (_ & Hb & _ & Hc); injection Hk as <- <-; right; do 4 eexists; split_and!; [reflexivity | exact Hb | cbn; congruence].
Qed.

Lemma staffing_request_kept w w' : staffing_request w w' -> sound (sv_db w) -> sound (sv_db w') /\ noNewShortage (sv_db w) (sv_db w').
Proof.
  intros H Hs; destruct H as [t i a draw now r H | t o i a now r H | t o a draw now r H | t wc n k a r H].
  - apply createOfficial_inv in H as [(e & _ & [-> _]) | (v & p & s & _ & H & _)]; [split; [exact Hs | reflexivity] |].
    split; [exact (proj1 (createTx_kept _ _ _ _ _ _ _ _) _ _ _ H Hs) | exact (createTx_suffices _ _ _ _ _ _ _ _ H)].
  - apply updateOfficial_inv in H as [(e & _ & [-> _]) | (v & s & ids & _ & H & _)]; [split; [exact Hs | reflexivity] |].
    split; [exact (proj1 (updateTx_kept _ _ _ _ _ _) _ _ _ H Hs) | exact (updateTx_suffices _ _ _ _ _ _ _ _ _ H Hs)].
  - apply regenerate_inv in H as [(e & _ & [-> _]) | (v & p & s & ids & _ & H & _)]; [split; [exact Hs | reflexivity] |].
    split; [exact (proj1 (regenerateTx_kept _ _ _ _ _ _ _) _ _ _ H Hs) | exact (regenerateTx_suffices _ _ _ _ _ _ _ _ _ H Hs)].
  - apply inDb_inv in H as [(e & _ & _ & ->) | (x & _ & H & _)]; [split; [exact Hs | reflexivity] |].
    split; [| exact (updateStaffing_suffices _ _ _ _ _ _ _ _ H Hs)].
    refine ((_ : respects keeps_sound (updateStaffing t wc n k a)) _ _ _ H Hs); unfold updateStaffing, resolveRulesConflict, resolveRules; respects_auto.
Qed.

(** C31: judges stay enough. However officials are created, renamed, deactivated, reactivated and given new passcodes
    and rounds restaffed, from any store, a round of an unfinished active bracket that then asks for more judges than
    its tournament has active ones did so before, with the same count and no more active judges: these requests bring
    about no shortage and worsen none. So when there was none at first there is none. (Confirming a bracket is not one
    of these requests: it staffs each round with the default of three without asking how many judges are active.) *)
Theorem judges_always_suffice w w' (Hs : sound (sv_db w)) (H : rtc staffing_request w w') :
  noNewShortage (sv_db w) (sv_db w') /\ (judgesSuffice (sv_db w) -> judgesSuffice (sv_db w')).
Proof.
  enough (E : noNewShortage (sv_db w) (sv_db w')) by (split; [exact E | exact (noShortage_suffices _ _ E)]).
  induction H as [w | w w1 w' Hstep _ IH]; [reflexivity |].
  destruct (staffing_request_kept w w1 Hstep Hs) as [Hs1 Hj1]; etransitivity; [exact Hj1 | exact (IH Hs1)].
Qed.
End Staffing.

(** *** Ended sessions *)

Definition activeSessionsOf (o : uuid) (d : DB) : list uuid :=
  map os_id (List.filter (fun s => (os_officialId s === o) && os_active s) (db_tournamentOfficialSessions d)).

Section LockOut.
Context (hashPasscode passcodeDigest : string -> string) (normalized : string -> string).
Context (hmac base64url : string -> string).

Lemma ended_silent o now d d' : sound d' ->
  db_tournamentOfficialSessions d' = map_where (fun s => (os_officialId s === o) && os_active s) (endSession now) (db_tournamentOfficialSessions d) ->
  forall t, holder (officialOwners d') o t = None.
Proof.
  intros Hs E t; destruct (holder (officialOwners d') o t) as [le |] eqn:Eh; [exfalso | reflexivity].
  destruct (holder_session _ _ _ _ Hs Eh) as (s & Hin & Hk & Hl & _); rewrite E in Hin; apply in_map_where in Hin as (x & Hx & ->).
  apply liveAt_spec in Hl as [Hu _]; destruct ((os_officialId x === o) && os_active x) eqn:Ep; [discriminate Hu |].
  apply andb_prop in Hu as [Ha _]; cbn in Ha; rewrite Ha, bool_decide_eq_true_2 in Ep by exact Hk; discriminate.
Qed.

Lemma ended_refs o now d d' : touches officialTables d d' ->
  db_tournamentOfficialSessions d' = map_where (fun s => (os_officialId s === o) && os_active s) (endSession now) (db_tournamentOfficialSessions d) ->
  officialRefs d -> officialRefs d'.
Proof.
  intros Ht E [Hm Hr]; split.
  - rewrite (Ht matchOfficialAssignments ltac:(table_notin) : db_matchOfficialAssignments d' = _), (Ht matches ltac:(table_notin) : db_matches d' = _); exact Hm.
  - rewrite E; intros s Hs Ha; apply in_map_where in Hs as (x & Hx & ->); destruct (_ && _); [discriminate Ha | exact (Hr x Hx Ha)].
Qed.

Lemma silent_not_resolved o w' : sound (sv_db w') -> officialRefs (sv_db w') -> (forall t, holder (officialOwners (sv_db w')) o t = None) ->
  forall tok now' v w'', resolveSession hmac base64url tok now' w' = (Ok (Some v), w'') -> vo_officialId v <> o.
Proof.
  intros Hs Hr Hn tok now' v w'' H E; destruct (resolve_run hmac base64url tok now' w' Hs Hr) as (r & w3 & H' & _ & _ & Hx).
  rewrite H in H'; injection H' as <- <-; destruct Hx as (_ & Hh & _); rewrite E, Hn in Hh; discriminate.
Qed.

Lemma currentOfficial_at o t x d : wf d -> In x (db_tournamentOfficials d) -> tf_id x = o ->
  forall y, currentOfficial o t d = Some y -> y = x.
Proof.
  intros Hwf Hin Hx y H; unfold currentOfficial in H; apply find_first_some in H as [Hy H]; to_prop.
  apply (wf_id tournamentOfficials d y x o Hwf Hy Hin); cbn; congruence.
Qed.

(** C32: Deactivating an active official and regenerating a passcode lock the official out at once:
    exactly the active sessions of the official are closed, nobody holds the official's credential at any
    later time and no token resolves to the official. After a deactivation no credential of the official
    is accepted; after a new passcode, a login link made under a hash with another signature is dead. *)
Theorem officials_locked_out t o a now w w' (Hs : sound (sv_db w)) (Hr : officialRefs (sv_db w)) :
  (forall v x, deactivateOfficial normalized t o a now w = (Ok v, w') -> In x (db_tournamentOfficials (sv_db w)) -> tf_id x = o -> tf_isActive x = true ->
     sv_closed w' = sv_closed w ++ activeSessionsOf o (sv_db w) /\ (forall t', holder (officialOwners (sv_db w')) o t' = None) /\
     (forall tok now' y w'', resolveSession hmac base64url tok now' w' = (Ok (Some y), w'') -> vo_officialId y <> o) /\
     (forall t', currentOfficial o t' (sv_db w') = None)) /\
  (forall draw v p, regeneratePasscode hashPasscode passcodeDigest t o a draw now w = (Ok (v, p), w') ->
     sv_closed w' = sv_closed w ++ activeSessionsOf o (sv_db w) /\ (forall t', holder (officialOwners (sv_db w')) o t' = None) /\
     (forall tok now' y w'', resolveSession hmac base64url tok now' w' = (Ok (Some y), w'') -> vo_officialId y <> o) /\
     forall t' old role dev issuedAt now', linkSignature hmac base64url (hashPasscode p) <> linkSignature hmac base64url old ->
       linkGood hmac base64url t' o old role dev issuedAt now' (sv_db w') = false).
Proof.
  split.
  - intros v x H Hx Hid Ha; apply updateOfficial_inv in H as [(e & [=] & _) | (v' & s & ids & _ & H & Hc)].
    destruct (updateTx_kept normalized t o (mkUpdateOfficial None (Some false) None) a now) as [Hks Hkt]; pose proof (Hks _ _ _ H Hs) as Hs'; pose proof (Hkt _ _ _ H) as Ht.
    destruct (updateTx_rows _ _ _ _ _ _ _ _ _ _ H Hs) as (y & name & Hin & Hyid & _ & Eo & Hd).
    assert (y = x) as -> by (apply (wf_id tournamentOfficials (sv_db w) y x o (proj1 Hs) Hin Hx); cbn; congruence).
    rewrite Ha in Hd; destruct Hd as (_ & -> & Es); pose proof (ended_silent o now _ _ Hs' Es) as Hn.
    split_and!; [exact Hc | exact Hn | exact (silent_not_resolved o w' Hs' (ended_refs o now _ _ Ht Es Hr) Hn) |].
    intros t'; destruct (currentOfficial o t' (sv_db w')) as [z |] eqn:Ez; [exfalso | reflexivity].
    assert (Hin' : In (updatedOfficial normalized name (Some false) now x) (db_tournamentOfficials (sv_db w'))).
    { rewrite Eo; apply in_map_where; exists x; split; [exact Hx |]; rewrite bool_decide_eq_true_2 by exact Hid; reflexivity. }
    destruct (currentOfficial_some _ _ _ _ Ez) as (_ & _ & Hza & _).
    rewrite (currentOfficial_at o t' _ _ (proj1 Hs') Hin' ltac:(destruct name; exact Hid) z Ez) in Hza; destruct name; discriminate.
  - intros draw v p H; apply regenerate_inv in H as [(e & [=] & _) | (v' & p' & s & ids & [= <- <-] & H & Hc)].
    destruct (regenerateTx_kept hashPasscode passcodeDigest t o a now p) as [Hks Hkt]; pose proof (Hks _ _ _ H Hs) as Hs'; pose proof (Hkt _ _ _ H) as Ht.
    destruct (regenerateTx_rows _ _ _ _ _ _ _ _ _ _ _ H Hs) as (x & Hin & Hid & _ & Eo & -> & Es); pose proof (ended_silent o now _ _ Hs' Es) as Hn.
    split_and!; [exact Hc | exact Hn | exact (silent_not_resolved o w' Hs' (ended_refs o now _ _ Ht Es Hr) Hn) |].
    intros t' old role dev issuedAt now' Hne; unfold linkGood; destruct (currentOfficial o t' (sv_db w')) as [z |] eqn:Ez; [| apply andb_false_r].
    assert (Hin' : In (x <| tf_passcodeHash := hashPasscode p |> <| tf_passcodeLookupDigest := passcodeDigest p |>) (db_tournamentOfficials (sv_db w'))).
    { rewrite Eo; apply in_map_where; exists x; split; [exact Hin |]; rewrite bool_decide_eq_true_2 by exact Hid; reflexivity. }
    rewrite (currentOfficial_at o t' _ _ (proj1 Hs') Hin' Hid z Ez).
    change (tf_passcodeHash (x <| tf_passcodeHash := hashPasscode p |> <| tf_passcodeLookupDigest := passcodeDigest p |>)) with (hashPasscode p).
    rewrite bool_decide_eq_false_2 by exact Hne; apply andb_false_r.
Qed.

(** When every passcode drawn has a digest that an official of the tournament already has, creating an
    official under a free name does not answer OFFICIAL_PASSCODE_COLLISION after eight attempts: the last
    one does not retry and hands the violation of the unique index on. *)
Theorem passcodes_exhausted t i a draw now w tn (Hs : sound (sv_db w)) (Hname : trim (co_name i) <> EmptyString)
    (Htn : find_first (fun x => tn_id x === t) (db_tournaments (sv_db w)) = Some tn)
    (Hopen : tn_softDeletedAt tn = None /\ tn_status tn <> TOURNAMENT_ARCHIVED)
    (Hfree : nameTaken normalized t (co_role i) (trim (co_name i)) (sv_db w) = false)
    (Htaken : forall k, (k < PASSCODE_GENERATION_ATTEMPTS)%nat -> digestTaken passcodeDigest t (draw k) (sv_db w) = true) :
  createOfficial hashPasscode passcodeDigest normalized t i a draw now w = (Err UniqueViolation, w).
Proof.
  assert (Hbody : forall k, (k < PASSCODE_GENERATION_ATTEMPTS)%nat ->
    createOfficialTx hashPasscode passcodeDigest normalized t (co_role i) (trim (co_name i)) a (draw k) (sv_db w) = Err UniqueViolation).
  { intros k Hk; unfold createOfficialTx; rewrite (bind_step _ _ _ tt (sv_db w)).
    2: { unfold lockMutableTournament; rewrite (bind_step _ _ _ _ _ (find_one_run tournaments _ (sv_db w))); cbn [get row_of]; rewrite Htn.
         destruct Hopen as [E Ne]; rewrite (bind_step _ _ _ tn (sv_db w) eq_refl), E, (bool_decide_eq_false_2 _ Ne); reflexivity. }
    apply bind_err; unfold create; destruct (table_ok _ _) eqn:E; [exfalso |].
    - apply table_ok_true in E as (_ & _ & E); cbn [indexes_ok get] in E; apply andb_prop in E as [_ E].
      specialize (Htaken k Hk); apply existsb_exists in Htaken as (x & Hx & Hx'); to_prop.
      set (row := mkOfficialRow _ _ _ _ _ _ _ _ _) in E.
      assert (x = row) as Exr by (eapply (unique_by_inj _ _ x row _ E); [apply in_app_iff; auto | apply in_app_iff; right; left; reflexivity | reflexivity | cbn; congruence]).
      destruct Hs as [_ Hf]; specialize (Hf tournamentOfficials x (tf_id x) Hx eq_refl); rewrite Exr in Hf; cbn in Hf; lia.
    - unfold table_error; cbn [row_ok get]; replace (forallb _ _) with true; [reflexivity | symmetry; apply forallb_forall; reflexivity]. }
  assert (Hn : officialName (co_name i) (sv_db w) = Ok (trim (co_name i), sv_db w)) by (unfold officialName; rewrite (bool_decide_eq_false_2 _ Hname); reflexivity).
  unfold createOfficial; rewrite (req_bind_step _ _ _ _ _ (inDb_read _ w _ Hn)).
  enough (E : forall left attempt, (0 < left)%nat -> (attempt + left = PASSCODE_GENERATION_ATTEMPTS)%nat ->
    withPasscode (fun p e d => match e with UniqueViolation => digestTaken passcodeDigest t p d && negb (nameTaken normalized t (co_role i) (trim (co_name i)) d) | _ => false end)
      (fun e d => match e with UniqueViolation => if nameTaken normalized t (co_role i) (trim (co_name i)) d then OFFICIAL_NAME_EXISTS else e | _ => e end)
      (createOfficialTx hashPasscode passcodeDigest normalized t (co_role i) (trim (co_name i)) a) draw left attempt w = (Err UniqueViolation, w)).
  { apply req_bind_err, E; unfold PASSCODE_GENERATION_ATTEMPTS; lia. }
  induction left as [| left IH]; intros attempt Hl Ha; [lia |]; cbn [withPasscode].
  rewrite (inDb_err _ w _ (Hbody attempt ltac:(lia))), (Htaken attempt) by lia; rewrite Hfree; cbn [negb andb].
  destruct left as [| left]; [cbn [Nat.eqb negb]; reflexivity | cbn [Nat.eqb negb]; apply IH; lia].
Qed.
End LockOut.

(** ** Witnesses *)

Lemma suffice_check d : forallb (fun st => forallb (fun b => (br_id b !== st_bracketId st) || (st_requiredJudgeCount st <=? activeJudges (br_tournamentId b) d))
  (db_tournamentBrackets d)) (db_bracketRoundStaffing d) = true -> judgesSuffice d.
Proof.
  intros H t st Hst Hreq; rewrite forallb_forall in H; specialize (H st Hst); rewrite forallb_forall in H.
  apply existsb_exists in Hreq as (b & Hb & Hb'); to_prop; specialize (H b Hb).
  rewrite bool_decide_eq_true_2 in H by congruence; apply Z.leb_le in H; subst t; exact H.
Qed.

Abbreviation lowered := (fun s : string => s).
Abbreviation sampleHash := (fun p : string => "hash-" +:+ p)%string.
Definition openServer : Server := mkServer openDB ∅ [].
Definition restaffedServer : Server := Eval vm_compute in (inDb (updateStaffing 1 5 1 5 7) openServer).2.
Definition aJudge : uuid := Eval vm_compute in
  match List.filter (activeJudgeOf 1) (db_tournamentOfficials openDB) with o :: _ => tf_id o | [] => 0%N end.

Lemma openServer_suffices : judgesSuffice (sv_db openServer).
Proof. apply suffice_check; vm_compute; reflexivity. Qed.
Lemma restaffed_run : exists r, inDb (updateStaffing 1 5 1 5 7) openServer = (r, restaffedServer).
Proof. eexists; vm_compute; reflexivity. Qed.
(** Five of five judges are asked for, so none can go. *)
Lemma last_judge_stays : deactivateOfficial lowered 1 aJudge 7 9 restaffedServer = (Err OFFICIAL_COUNT_BELOW_STAFFING_REQUIREMENT, restaffedServer).
Proof. vm_compute; reflexivity. Qed.

Lemma judges_always_suffice_witness : judgesSuffice (sv_db restaffedServer) /\
  (exists st, In st (db_bracketRoundStaffing (sv_db restaffedServer)) /\ st_requiredJudgeCount st = 5) /\ activeJudges 1 (sv_db restaffedServer) = 5.
Proof.
  split; [| split; [eexists; split; [left; reflexivity | reflexivity] | vm_compute; reflexivity]].
  refine (proj2 (judges_always_suffice sampleHash sampleDigest lowered openServer restaffedServer openDB_sound _) openServer_suffices).
  destruct restaffed_run as [r Hr].
  eapply rtc_l; [exact (request_staffing _ _ _ _ _ _ _ _ _ _ _ Hr) |].
  eapply rtc_l; [exact (request_update _ _ _ _ _ _ _ _ _ _ _ last_judge_stays) | apply rtc_refl].
Defined.

Definition withoutJudge : Server := Eval vm_compute in (deactivateOfficial lowered 1 60 7 9 officialServer).2.
Lemma withoutJudge_run : exists v, deactivateOfficial lowered 1 60 7 9 officialServer = (Ok v, withoutJudge).
Proof. eexists; vm_compute; reflexivity. Qed.

Lemma officials_locked_out_witness : sv_closed withoutJudge = [70%N] /\ (forall t', currentOfficial 60 t' (sv_db withoutJudge) = None) /\
  exists w, OfficialAccess.resolveSession sampleHmac id officialToken 10 withoutJudge = (Ok None, w).
Proof.
  destruct (officials_locked_out sampleHash sampleDigest lowered sampleHmac id 1 60 7 9 officialServer withoutJudge officialServer_sound officialServer_refs) as [H _].
  destruct withoutJudge_run as [v Hv]; destruct (H v (sampleOfficial 60 OFFICIAL_JUDGE) Hv (or_introl eq_refl) eq_refl eq_refl) as (_ & _ & _ & Hnone).
  split; [reflexivity |]; split; [exact Hnone | eexists; vm_compute; reflexivity].
Defined.

Lemma passcodes_exhausted_witness :
  createOfficial sampleHash sampleDigest lowered 1 (mkCreateOfficial OFFICIAL_JUDGE "New judge") 7 (fun _ => "60"%string) 9 officialServer =
    (Err UniqueViolation, officialServer).
Proof.
  apply (passcodes_exhausted sampleHash sampleDigest lowered 1 (mkCreateOfficial OFFICIAL_JUDGE "New judge") 7 (fun _ => "60"%string) 9 officialServer sampleTournament officialServer_sound);
    [discriminate | vm_compute; reflexivity | split; [reflexivity | discriminate] | vm_compute; reflexivity | intros k _; vm_compute; reflexivity].
Defined.
