(* ===== verification/AdminAuth.v ===== *)
(** * Administrator sessions

    auth/admin-auth.service.ts: logging in with a password, the sessions that are kept in Redis alone, and
    registering. bcrypt's [hash] and [compare] and the columns the driver names in a unique violation are
    parameters, the session tokens drawn are arguments. A user id is stored as its text; the clock is read
    once per request. *)
From stdpp Require Import gmap pretty sets.
From Stdlib Require Import Sorting.Sorted.
From S2P Require Import Prelude Schema Database Rules Scenario Calendar Pricing Entitlements MediaDeletion Retention Accounts Redis BracketTokens Sessions.

Definition IP_RATE_LIMIT_MULTIPLIER : Z := 20.

Definition INVALID_CREDENTIALS : error := Unauthorized "INVALID_CREDENTIALS".
Definition LOGIN_RATE_LIMITED : error := TooManyRequests "LOGIN_RATE_LIMITED".
Definition REGISTRATION_RATE_LIMITED : error := TooManyRequests "REGISTRATION_RATE_LIMITED".

Record AuthenticatedUser : Type := mkAuthenticatedUser {
  au_id : uuid; au_username : string; au_fullName : option string; au_role : UserRole; au_isActive : bool }.

Record RegisterInput : Type := mkRegisterInput {
  ri_fullName : string; ri_username : string; ri_email : string; ri_phone : string; ri_organization : option string; ri_password : string }.

Record AuthConfig : Type := mkAuthConfig { loginRateLimitMaxAttempts : Z; loginRateLimitWindowSeconds : Z; sessionTtlSeconds : Z }.

(** [safeUser] *)
Definition safeUser (u : UserRow) : AuthenticatedUser := mkAuthenticatedUser (us_id u) (us_username u) (us_fullName u) (us_role u) (us_isActive u).

(** A command of Redis that answers nothing the service uses. *)
Definition command (f : Redis -> Redis) : Req unit := inRedis (fun st => (Ok tt, f st)).
Definition readRedis {A} (f : Redis -> A) : Req A := inRedis (fun st => (Ok (f st), st)).

Definition usable (u : UserRow) : bool := us_isActive u && (us_deletedAt u === None).

Section Auth.
Context (config : AuthConfig) (hash : string -> string) (compare : string -> string -> bool) (target : string).

(** [AuthService.login] *)
Definition login (username password clientAddress sessionToken : string) (now : timestamp) : Req (AuthenticatedUser * string) :=
  let normalizedUsername := normalizeUsername username in
  limitAttempts (LoginIdentityKey normalizedUsername) (LoginIpKey clientAddress) (loginRateLimitMaxAttempts config)
    (loginRateLimitMaxAttempts config * IP_RATE_LIMIT_MULTIPLIER) (loginRateLimitWindowSeconds config) now LOGIN_RATE_LIMITED;;
  found ← inDb (find_one users (fun u => us_normalizedUsername u === normalizedUsername));
  user ← or_refuse found INVALID_CREDENTIALS;
  refuse_if (negb (usable user) || negb (compare password (us_passwordHash user)) || (MAX_BCRYPT_PASSWORD_BYTES <? byteLength password)) INVALID_CREDENTIALS;;
  command (redisDelete (LoginIdentityKey normalizedUsername));;
  command (setWithExpiry (AdminSessionKey sessionToken) (pretty (us_id user)) (sessionTtlSeconds config) now);;
  mret (safeUser user, sessionToken).

(** [AuthService.resolveSession]; a session key never holds a counter. *)
Definition resolveSession (sessionToken : string) (now : timestamp) : Req (option AuthenticatedUser) :=
  if negb (SESSION_TOKEN_PATTERN sessionToken) then mret None else
  userId ← readRedis (redisGet (AdminSessionKey sessionToken) now);
  match userId with
  | Some (Text userId) =>
      found ← inDb (find_one users (fun u => pretty (us_id u) === userId));
      match found with
      | Some user =>
          if usable user then mret (Some (safeUser user))
          else command (redisDelete (AdminSessionKey sessionToken));; mret None
      | None => command (redisDelete (AdminSessionKey sessionToken));; mret None
      end
  | _ => mret None
  end.

(** [AuthService.revokeSession] *)
Definition revokeSession (sessionToken : string) : Req unit :=
  if negb (SESSION_TOKEN_PATTERN sessionToken) then mret tt else command (redisDelete (AdminSessionKey sessionToken)).

(** The account [register] creates *)
Definition registered (i : RegisterInput) (id : uuid) : UserRow :=
  mkUserRow id (trim (ri_username i)) (normalizeUsername (ri_username i)) (Some (trim (ri_fullName i))) (Some (trim (ri_email i)))
    (Some (normalizeEmail (ri_email i))) (Some (trim (ri_phone i))) (Some (normalizePhone (ri_phone i))) (trimmedOr (ri_organization i))
    (hash (ri_password i)) USER true None.

(** [AuthService.register] *)
Definition register (i : RegisterInput) (clientAddress sessionToken : string) (now : timestamp) : Req (AuthenticatedUser * string) :=
  match passwordValidationCode (ri_password i) with Some code => refuse (BadRequest code) | None => mret tt end;;
  attempts ← inRedis (incrementWithExpiry (RegistrationIpKey clientAddress) (loginRateLimitWindowSeconds config) now);
  refuse_if (loginRateLimitMaxAttempts config <? attempts) REGISTRATION_RATE_LIMITED;;
  refuse_if (negb (phoneOk (ri_phone i))) (BadRequest "INVALID_PHONE");;
  _ ← inDb (rethrow (unique target) (create users (registered i)));
  session ← login (ri_username i) (ri_password i) clientAddress sessionToken now;
  command (redisDelete (RegistrationIpKey clientAddress));;
  mret session.
End Auth.

(** ** Password guesses *)

Record LoginAttempt : Type := mkLoginAttempt { la_username : string; la_password : string; la_address : string; la_token : string; la_now : timestamp }.

Section Guesses.
Context (config : AuthConfig) (compare : string -> string -> bool).

Definition attempt (a : LoginAttempt) : Req (AuthenticatedUser * string) :=
  login config compare (la_username a) (la_password a) (la_address a) (la_token a) (la_now a).

(** Logins one after the other, with what they answer. *)
Fixpoint logins (l : list LoginAttempt) (w : Server) : list (LoginAttempt * result error (AuthenticatedUser * string)) :=
  match l with
  | [] => []
  | a :: l => let '(r, w') := attempt a w in (a, r) :: logins l w'
  end.

(** Whether the password was looked at. *)
Definition checked (r : result error (AuthenticatedUser * string)) : bool := match r with Ok _ | Err (Unauthorized _) => true | Err _ => false end.
Definition answered (r : result error (AuthenticatedUser * string)) : bool := match r with Ok _ => true | Err _ => false end.
Definition guesses (name : string) (l : list (LoginAttempt * result error (AuthenticatedUser * string))) : list timestamp :=
  omap (fun x => if (normalizeUsername (la_username x.1) === name) && checked x.2 then Some (la_now x.1) else None) l.
Definition timesOf (name : string) (l : list LoginAttempt) : list timestamp :=
  omap (fun a => if normalizeUsername (la_username a) === name then Some (la_now a) else None) l.

(** The counter of an identity counts the logins on it. *)
Lemma admitted_same key secs limit times : forall st st', st !! key = st' !! key -> admitted key secs limit times st = admitted key secs limit times st'.
Proof.
  induction times as [| t times IH]; intros st st' E; [reflexivity |]; cbn [admitted].
  assert (Ei : (incrementWithExpiry key secs t st).1 = (incrementWithExpiry key secs t st').1 /\
    (incrementWithExpiry key secs t st).2 !! key = (incrementWithExpiry key secs t st').2 !! key).
  { unfold incrementWithExpiry, lookupAt; rewrite E; destruct (incrBy 1 _) as [e |]; [cbn; rewrite !lookup_insert_eq; auto | auto]. }
  destruct Ei as [-> E2]; f_equal; apply IH, E2.
Qed.

Lemma increment_elsewhere key key' secs now st : key <> key' -> (incrementWithExpiry key secs now st).2 !! key' = st !! key'.
Proof. intros Hne; unfold incrementWithExpiry; destruct (incrBy 1 _); [cbn; apply lookup_insert_ne; exact Hne | reflexivity]. Qed.

Lemma increment_errors key secs now st e : (incrementWithExpiry key secs now st).1 = Err e -> exists m, e = InternalError m.
Proof.
  unfold incrementWithExpiry; destruct (incrBy 1 _); [cbn; destruct (_ || _); [intros [= <-]; eauto | discriminate] | intros [= <-]; eauto].
Qed.

Lemma limit_run k1 k2 l1 l2 secs now w r w' : k1 <> k2 -> limitAttempts k1 k2 l1 l2 secs now LOGIN_RATE_LIMITED w = (r, w') ->
  sv_redis w' !! k1 = (incrementWithExpiry k1 secs now (sv_redis w)).2 !! k1 /\
  (forall k, k <> k1 -> k <> k2 -> sv_redis w' !! k = sv_redis w !! k) /\
  match r with
  | Ok _ => exists n, (incrementWithExpiry k1 secs now (sv_redis w)).1 = Ok n /\ n <= l1
  | Err e => e = LOGIN_RATE_LIMITED \/ exists m, e = InternalError m
  end.
Proof.
  intros Hne H; unfold limitAttempts, mbind, req_bind, both, inRedis in H.
  pose proof (increment_errors k1 secs now (sv_redis w)) as He1; destruct (incrementWithExpiry k1 secs now (sv_redis w)) as [r1 st1] eqn:E1; cbn [sv_redis] in H.
  pose proof (increment_errors k2 secs now st1) as He2; destruct (incrementWithExpiry k2 secs now st1) as [r2 st2] eqn:E2; cbn [fst snd] in *.
  assert (Hk : st2 !! k1 = st1 !! k1 /\ forall k, k <> k1 -> k <> k2 -> st2 !! k = sv_redis w !! k).
  { split; [pose proof (increment_elsewhere k2 k1 secs now st1 ltac:(congruence)) as E; rewrite E2 in E; exact E |]; intros k H1 H2.
    pose proof (increment_elsewhere k2 k secs now st1 ltac:(congruence)) as E; rewrite E2 in E; cbn in E; rewrite E.
    pose proof (increment_elsewhere k1 k secs now (sv_redis w) ltac:(congruence)) as E'; rewrite E1 in E'; exact E'. }
  destruct r1 as [n1 | e1]; [| injection H as <- <-; destruct Hk; split_and!; auto].
  destruct r2 as [n2 | e2]; [| injection H as <- <-; destruct Hk; split_and!; auto].
  unfold refuse_if, refuse in H; cbn [fst snd] in H; destruct (Z.ltb_spec l1 n1) as [Hlt | Hle]; cbn [orb] in H; [injection H as <- <-; destruct Hk; split_and!; auto |].
  destruct (l2 <? n2); injection H as <- <-; destruct Hk; split_and!; eauto.
Qed.

(** After the limiter a refused login leaves Redis alone. *)
Lemma login_cases a w r w' : attempt a w = (r, w') ->
  exists r1 w1, limitAttempts (LoginIdentityKey (normalizeUsername (la_username a))) (LoginIpKey (la_address a)) (loginRateLimitMaxAttempts config)
    (loginRateLimitMaxAttempts config * IP_RATE_LIMIT_MULTIPLIER) (loginRateLimitWindowSeconds config) (la_now a) LOGIN_RATE_LIMITED w = (r1, w1) /\
  match r1 with
  | Err e => r = Err e /\ w' = w1
  | Ok _ => r = Err INVALID_CREDENTIALS /\ w' = w1 \/ answered r = true
  end.
Proof.
  intros H; unfold attempt, login in H; apply req_bind_inv in H as [(e & H & ->) | (u & w1 & H & Hk)]; [exists (Err e), w'; auto |].
  exists (Ok u), w1; split; [exact H |]; clear H; unfold find_one in Hk; rewrite (req_bind_step _ _ _ _ _ (inDb_gets _ w1)) in Hk.
  destruct (find_first _ _) as [user |]; [| injection Hk as <- <-; auto].
  cbn [or_refuse] in Hk; rewrite (req_bind_step _ _ w1 user w1 eq_refl) in Hk; apply req_bind_inv in Hk as [(e & H & ->) | (u' & w2 & _ & Hk)].
  - left; unfold refuse_if, refuse in H; destruct (_ || _); [injection H as <- <-; auto | discriminate].
  - right; injection Hk as <- _; reflexivity.
Qed.

Lemma login_refused a w r w' name : attempt a w = (r, w') -> answered r = false ->
  let key := LoginIdentityKey name in let secs := loginRateLimitWindowSeconds config in
  if normalizeUsername (la_username a) === name
  then sv_redis w' !! key = (incrementWithExpiry key secs (la_now a) (sv_redis w)).2 !! key /\
       (checked r = true -> exists n, (incrementWithExpiry key secs (la_now a) (sv_redis w)).1 = Ok n /\ n <= loginRateLimitMaxAttempts config)
  else sv_redis w' !! key = sv_redis w !! key.
Proof.
  intros H Hr; apply login_cases in H as (r1 & w1 & H1 & Hx); apply limit_run in H1 as (Hk1 & Hother & Hres); [| discriminate].
  assert (Hw : w' = w1 /\ (checked r = true -> exists n, (incrementWithExpiry (LoginIdentityKey (normalizeUsername (la_username a))) (loginRateLimitWindowSeconds config)
    (la_now a) (sv_redis w)).1 = Ok n /\ n <= loginRateLimitMaxAttempts config)).
  { destruct r1 as [u | e].
    - destruct Hx as [[-> ->] | Ha]; [auto | congruence].
    - destruct Hx as [-> ->]; split; [reflexivity |]; destruct Hres as [-> | (m & ->)]; discriminate. }
  destruct Hw as [-> Hn]; cbn; destruct (bool_decide_reflect (normalizeUsername (la_username a) = name)) as [<- | Hne]; [auto |].
  apply Hother; [congruence | discriminate].
Qed.

(** The guesses on a name pass the limiter of its identity. *)
Lemma guesses_admitted name l : forall w, Forall (fun x => normalizeUsername (la_username x.1) = name -> answered x.2 = false) (logins l w) ->
  (forall a r w w', attempt a w = (r, w') -> normalizeUsername (la_username a) <> name -> sv_redis w' !! LoginIdentityKey name = sv_redis w !! LoginIdentityKey name) ->
  guesses name (logins l w) `sublist_of` admitted (LoginIdentityKey name) (loginRateLimitWindowSeconds config) (loginRateLimitMaxAttempts config) (timesOf name l) (sv_redis w).
Proof.
  induction l as [| a l IH]; intros w Hf Hother; [apply sublist_nil_l |].
  cbn [logins] in *; destruct (attempt a w) as [r w1] eqn:E; apply list.Forall_cons in Hf as [Ha Hf]; cbn [fst snd] in Ha.
  specialize (IH w1 Hf Hother); unfold guesses, timesOf; cbn [omap list_omap fst snd]; fold (guesses name (logins l w1)); fold (timesOf name l).
  destruct (bool_decide_reflect (normalizeUsername (la_username a) = name)) as [En | Hne]; cbn [andb].
  - pose proof (login_refused a w r w1 name E (Ha En)) as Hl; cbn in Hl; rewrite bool_decide_eq_true_2 in Hl by exact En; destruct Hl as [Hk Hn].
    cbn [admitted]; rewrite (admitted_same _ _ _ _ _ _ Hk) in IH; destruct (checked r).
    + destruct (Hn eq_refl) as (n & -> & Hle); rewrite (proj2 (Z.leb_le _ _) Hle); apply sublist_skip, IH.
    + apply sublist_inserts_l, IH.
  - rewrite (admitted_same _ _ _ _ _ _ (Hother _ _ _ _ E Hne)) in IH; exact IH.
Qed.
End Guesses.

(** ** Facts *)

Section Facts.
Context (config : AuthConfig) (hash : string -> string) (compare : string -> string -> bool) (target : string).

(** A login that is answered: what it read and what it leaves. *)
Lemma login_ok username password address tok now w u t w' : login config compare username password address tok now w = (Ok (u, t), w') ->
  exists w1 user, sv_db w1 = sv_db w /\ sv_closed w1 = sv_closed w /\
    limitAttempts (LoginIdentityKey (normalizeUsername username)) (LoginIpKey address) (loginRateLimitMaxAttempts config)
      (loginRateLimitMaxAttempts config * IP_RATE_LIMIT_MULTIPLIER) (loginRateLimitWindowSeconds config) now LOGIN_RATE_LIMITED w = (Ok tt, w1) /\
    find_first (fun x => us_normalizedUsername x === normalizeUsername username) (db_users (sv_db w)) = Some user /\
    usable user = true /\ compare password (us_passwordHash user) = true /\ byteLength password <= MAX_BCRYPT_PASSWORD_BYTES /\
    u = safeUser user /\ t = tok /\
    w' = mkServer (sv_db w) (setWithExpiry (AdminSessionKey tok) (pretty (us_id user)) (sessionTtlSeconds config) now
      (redisDelete (LoginIdentityKey (normalizeUsername username)) (sv_redis w1))) (sv_closed w).
Proof.
  intros H; unfold login in H; apply quiet_bind_inv in H as [(e & [=] & _) | ([] & w1 & [Ed Ec] & Hlim & H)]; [| exact (quiet_limitAttempts _ _ _ _ _ _ _)].
  unfold find_one in H; rewrite (req_bind_step _ _ _ _ _ (inDb_gets _ w1)) in H; cbn [get row_of] in H; rewrite Ed in H.
  destruct (find_first _ (db_users (sv_db w))) as [user |] eqn:Eu; [| discriminate H].
  cbn [or_refuse] in H; rewrite (req_bind_step _ _ w1 user w1 eq_refl) in H; apply req_bind_inv in H as [(e & _ & [=]) | (u' & w2 & H2 & H)].
  apply refuse_if_ok in H2 as [Hb ->]; apply orb_false_elim in Hb as [Hb Hlen]; apply orb_false_elim in Hb as [Hu Hc].
  apply negb_false_iff in Hu, Hc; apply Z.ltb_ge in Hlen; injection H as <- <- <-.
  exists w1, user; split_and!; auto; cbn; congruence.
Qed.

Lemma attempt_other a r w w' name : attempt config compare a w = (r, w') -> normalizeUsername (la_username a) <> name ->
  sv_redis w' !! LoginIdentityKey name = sv_redis w !! LoginIdentityKey name.
Proof.
  intros H Hne; destruct r as [[u t] | e].
  - unfold attempt in H; apply login_ok in H as (w1 & user & _ & _ & Hl & _ & _ & _ & _ & _ & _ & ->); cbn; apply limit_run in Hl as (_ & Hother & _); [| discriminate].
    unfold setWithExpiry, redisDelete; rewrite lookup_insert_ne, lookup_delete_ne by congruence; apply Hother; congruence.
  - pose proof (login_refused config compare a w (Err e) w' name H eq_refl) as Hl; cbn in Hl; rewrite bool_decide_eq_false_2 in Hl by exact Hne; exact Hl.
Qed.

Lemma within_sublist s ttl l l' : l `sublist_of` l' -> within s ttl l <= within s ttl l'.
Proof.
  unfold within; induction 1 as [| x l l' _ IH | x l l' _ IH]; cbn; [lia | destruct (_ && _); cbn; lia | destruct (_ && _); cbn; lia].
Qed.

Lemma timesOf_sorted name l : Sorted Z.le (map la_now l) -> Sorted Z.le (timesOf name l).
Proof.
  intros H; apply Sorted_StronglySorted in H; [| intros x y z; apply Z.le_trans]; apply StronglySorted_Sorted.
  induction l as [| a l IH]; cbn in *; [constructor |]; apply StronglySorted_inv in H as [H Hf]; specialize (IH H).
  unfold timesOf in *; cbn; destruct (_ === _); [constructor; [exact IH |] | exact IH].
  rewrite List.Forall_forall in *; intros t Ht; apply Hf; apply list_elem_of_In, list_elem_of_omap in Ht as (b & Hb & E).
  apply list_elem_of_In in Hb; revert E; cbv beta; destruct (_ === _); [intros [= <-]; apply in_map, Hb | discriminate].
Qed.

(** The user an id is the text of. *)
Lemma user_by_text id d : find_first (fun u => pretty (us_id u) === pretty id) (db_users d) = find_first (fun u => us_id u === id) (db_users d).
Proof.
  induction (db_users d) as [| u l IH]; [reflexivity |]; cbn; rewrite IH.
  destruct (bool_decide_reflect (us_id u = id)) as [-> | Hne]; [rewrite bool_decide_eq_true_2 by reflexivity; reflexivity |].
  rewrite bool_decide_eq_false_2; [reflexivity |]; intros E; apply Hne, (inj pretty), E.
Qed.
End Facts.

(** ** Properties *)

Section Properties.
Context (config : AuthConfig) (hash : string -> string) (compare : string -> string -> bool) (target : string).

(** C33: Passwords are not guessed fast: however logins come, on whatever names and from whatever
    addresses, while none on a name succeeds its password is compared at most twice the limit times in
    any window, and at most the limit times in one that starts with the first of them. *)
Theorem password_guesses_bounded name l w s (Hw : 0 < loginRateLimitWindowSeconds config) (Hm : 0 <= loginRateLimitMaxAttempts config)
    (Hsort : Sorted Z.le (map la_now l)) (Hnew : sv_redis w !! LoginIdentityKey name = None)
    (Hfail : Forall (fun x => normalizeUsername (la_username x.1) = name -> answered x.2 = false) (logins config compare l w)) :
  within s (loginRateLimitWindowSeconds config * 1000) (guesses name (logins config compare l w)) <= 2 * loginRateLimitMaxAttempts config /\
  (forall t, head (timesOf name l) = Some t -> s <= t ->
     within s (loginRateLimitWindowSeconds config * 1000) (guesses name (logins config compare l w)) <= loginRateLimitMaxAttempts config).
Proof.
  pose proof (within_sublist s (loginRateLimitWindowSeconds config * 1000) _ _ (guesses_admitted config compare name l w Hfail
    (fun a r w0 w1 => attempt_other config compare a r w0 w1 name))) as Hle.
  pose proof (timesOf_sorted name l Hsort) as Hs; destruct (timesOf name l) as [| t times] eqn:Et; [split; [cbn in Hle; unfold within in Hle at 2; cbn in Hle; lia | discriminate] |].
  destruct (admitted_bound (LoginIdentityKey name) _ _ s Hw Hm (t :: times) (sv_redis w) t ltac:(constructor; [exact Hs | constructor; lia])) as [_ H].
  specialize (H ltac:(unfold lookupAt; rewrite Hnew; reflexivity)); split.
  - destruct (s <=? t); lia.
  - intros x [= <-] Hx; rewrite (proj2 (Z.leb_le _ _) Hx) in H; lia.
Qed.

(** The session a login answers names the account whose password was given, and follows it: while its
    entry in Redis is left alone it resolves, for exactly the configured time, to the account as it then
    is, and to nothing once the account is deactivated, deleted or gone. *)
Theorem session_follows_account username password address tok now w u t w' later w2
    (H : login config compare username password address tok now w = (Ok (u, t), w')) (Hpat : SESSION_TOKEN_PATTERN tok = true)
    (Hkey : sv_redis w2 !! AdminSessionKey tok = sv_redis w' !! AdminSessionKey tok) :
  exists user, In user (db_users (sv_db w)) /\ us_normalizedUsername user = normalizeUsername username /\ usable user = true /\
    compare password (us_passwordHash user) = true /\ u = safeUser user /\ t = tok /\
    (resolveSession tok later w2).1 = Ok (
      if later <? now + sessionTtlSeconds config * 1000
      then match find_first (fun x => us_id x === us_id user) (db_users (sv_db w2)) with
           | Some x => if usable x then Some (safeUser x) else None
           | None => None
           end
      else None).
Proof.
  apply login_ok in H as (w1 & user & _ & _ & _ & Hu & Huse & Hc & _ & -> & -> & ->); apply find_first_some in Hu as [Hin Hn]; to_prop.
  exists user; split_and!; auto; cbn in Hkey; unfold setWithExpiry in Hkey; rewrite lookup_insert_eq in Hkey.
  unfold resolveSession; rewrite Hpat; cbn [negb].
  rewrite (req_bind_step _ _ w2 (redisGet (AdminSessionKey tok) later (sv_redis w2)) w2) by (unfold readRedis, inRedis; destruct w2; reflexivity).
  unfold redisGet, lookupAt; rewrite Hkey; unfold live; cbn [en_expiresAt]; destruct (later <? _); [cbn [option_map en_value] | reflexivity].
  unfold find_one; rewrite (req_bind_step _ _ _ _ _ (inDb_gets _ w2)); cbn [get row_of]; rewrite user_by_text.
  destruct (find_first _ (db_users (sv_db w2))) as [x |]; [destruct (usable x) |]; reflexivity.
Qed.

(** A registration that is answered leaves one new active account without a role, under its normalized
    identities, is logged in to it, and forgets its count: registrations that succeed are never limited. *)
Theorem registration_logs_in i address tok now w u t w'
    (H : register config hash compare target i address tok now w = (Ok (u, t), w')) (Hs : sound (sv_db w)) :
  exists id, db_users (sv_db w') = db_users (sv_db w) ++ [registered hash i id] /\ touches [users] (sv_db w) (sv_db w') /\
    u = safeUser (registered hash i id) /\ t = tok /\ passwordValidationCode (ri_password i) = None /\
    sv_redis w' !! AdminSessionKey tok = Some (mkEntry (Text (pretty id)) (Some (now + sessionTtlSeconds config * 1000))) /\
    sv_redis w' !! RegistrationIpKey address = None.
Proof.
  unfold register in H; apply quiet_bind_inv in H as [(e & [=] & _) | ([] & w1 & _ & Hp & H)].
  2: { destruct (passwordValidationCode _); [apply leads_refuse; apply _ | apply leads_ret; apply _]. }
  assert (Hcode : passwordValidationCode (ri_password i) = None /\ w1 = w) by (destruct (passwordValidationCode _); [discriminate Hp | injection Hp as <-; auto]).
  destruct Hcode as [Hcode ->]; apply quiet_bind_inv in H as [(e & [=] & _) | (n & w2 & [Ed2 _] & _ & H)]; [| apply quiet_inRedis].
  apply req_bind_inv in H as [(e & _ & [=]) | (u1 & w3 & E & H)]; apply refuse_if_ok in E as [_ ->].
  apply req_bind_inv in H as [(e & _ & [=]) | (u2 & w3 & E & H)]; apply refuse_if_ok in E as [_ ->].
  apply req_bind_inv in H as [(e & _ & [=]) | (row & w3 & E & H)]; apply inDb_inv in E as [(e & [=] & _) | (row' & [= <-] & E & _)].
  apply rethrow_ok in E; assert (Hs3 : sound (sv_db w3)).
  { refine ((_ : respects keeps_sound (create users (registered hash i))) _ _ _ E _); [respects_auto | rewrite Ed2; exact Hs]. }
  apply (create_ok users) in E as (-> & _ & Ed3); apply req_bind_inv in H as [(e & _ & [=]) | ([u' t'] & w4 & E & H)].
  apply login_ok in E as (w5 & user & _ & _ & _ & Hu & _ & _ & _ & -> & -> & ->); injection H as <- <- <-; cbn [sv_db sv_redis command inRedis].
  assert (Eu : db_users (sv_db w3) = db_users (sv_db w) ++ [registered hash i (db_nextId (sv_db w2))]) by (rewrite Ed3, <- Ed2; reflexivity).
  assert (user = registered hash i (db_nextId (sv_db w2))) as ->.
  { apply find_first_some in Hu as [Hin Hn]; to_prop; destruct Hs3 as [Hwf _]; specialize (Hwf users); apply table_ok_true in Hwf as (_ & _ & Hix).
    cbn [indexes_ok get] in Hix; apply andb_prop in Hix as [Hix _]; apply andb_prop in Hix as [Hix _].
    eapply (unique_by_inj _ _ user _ (normalizeUsername (ri_username i)) Hix Hin); [rewrite Eu; apply in_app_iff; right; left; reflexivity | cbn; congruence | reflexivity]. }
  exists (db_nextId (sv_db w2)); split_and!; auto.
  - intros tb Htb; rewrite Ed3, get_put_other, get_nextId, Ed2 by set_solver; reflexivity.
  - unfold setWithExpiry, redisDelete; rewrite lookup_delete_ne, lookup_insert_eq by discriminate; reflexivity.
  - apply lookup_delete_eq.
Qed.

(** When the address has used up its logins, a registration creates the account and then answers 429. *)
Theorem registered_yet_refused i address tok now w n st row d start count
    (Hcode : passwordValidationCode (ri_password i) = None) (Hphone : phoneOk (ri_phone i) = true)
    (Hreg : incrementWithExpiry (RegistrationIpKey address) (loginRateLimitWindowSeconds config) now (sv_redis w) = (Ok n, st))
    (Hn : n <= loginRateLimitMaxAttempts config) (Hcreate : create users (registered hash i) (sv_db w) = Ok (row, d))
    (Hcount : windowAt (LoginIpKey address) (loginRateLimitWindowSeconds config * 1000) now start count (sv_redis w))
    (Hrun : now < start + loginRateLimitWindowSeconds config * 1000)
    (Hfull : loginRateLimitMaxAttempts config * IP_RATE_LIMIT_MULTIPLIER <= count < 2 ^ 53 - 1)
    (Hid : sv_redis w !! LoginIdentityKey (normalizeUsername (ri_username i)) = None) :
  exists w', register config hash compare target i address tok now w = (Err LOGIN_RATE_LIMITED, w') /\ sv_db w' = d.
Proof.
  unfold register; rewrite Hcode; rewrite (req_bind_step (mret (M:=Req) tt) _ w tt w eq_refl).
  rewrite (req_bind_step _ _ w n (mkServer (sv_db w) st (sv_closed w))) by (unfold inRedis; rewrite Hreg; reflexivity).
  rewrite (proj2 (Z.ltb_ge _ _) Hn), Hphone; cbn [negb]; set (w1 := mkServer (sv_db w) st (sv_closed w)).
  rewrite (req_bind_step (refuse_if false _) _ w1 tt w1 eq_refl), (req_bind_step (refuse_if false _) _ w1 tt w1 eq_refl).
  set (w2 := mkServer d st (sv_closed w)); rewrite (req_bind_step _ _ w1 row w2) by (unfold inDb, rethrow; cbn [sv_db w1]; rewrite Hcreate; reflexivity).
  assert (Hst : forall k, RegistrationIpKey address <> k -> st !! k = sv_redis w !! k).
  { intros k Hk; pose proof (increment_elsewhere _ k (loginRateLimitWindowSeconds config) now (sv_redis w) Hk) as E; rewrite Hreg in E; exact E. }
  set (ik := LoginIdentityKey (normalizeUsername (ri_username i))); set (st1 := <[ik := mkEntry (Counter 1) (Some (now + loginRateLimitWindowSeconds config * 1000))]> st).
  assert (E1 : incrementWithExpiry ik (loginRateLimitWindowSeconds config) now st = (Ok 1, st1)).
  { apply increment_fresh; unfold lookupAt; rewrite (Hst ik) by discriminate; unfold ik; rewrite Hid; reflexivity. }
  assert (Hw : windowAt (LoginIpKey address) (loginRateLimitWindowSeconds config * 1000) now start count st1).
  { destruct Hcount as (E & Hc & Hle); split_and!; auto; unfold st1; rewrite lookup_insert_ne, Hst by discriminate; exact E. }
  pose proof (increment_window _ _ now start count st1 Hw Hrun) as E2.
  replace (isSafe (count + 1)) with true in E2 by (symmetry; unfold isSafe; destruct Hw as (_ & Hc & _); apply andb_true_intro; split; apply Z.ltb_lt; lia).
  exists (mkServer d (<[LoginIpKey address := mkEntry (Counter (count + 1)) (Some (start + loginRateLimitWindowSeconds config * 1000))]> st1) (sv_closed w)).
  split; [| reflexivity]; apply req_bind_err; unfold login; apply req_bind_err; unfold limitAttempts, mbind, req_bind, both, inRedis.
  cbn [sv_redis sv_db sv_closed w2]; fold ik; rewrite E1; cbn [sv_redis sv_db sv_closed]; rewrite E2; cbn [fst snd]; unfold refuse_if, refuse.
  rewrite (proj2 (Z.ltb_lt (loginRateLimitMaxAttempts config * IP_RATE_LIMIT_MULTIPLIER) (count + 1))) by lia; rewrite orb_true_r; reflexivity.
Qed.
End Properties.

(** ** Witnesses: one administrator, whose password is "secret-password". *)

Definition authConfig : AuthConfig := mkAuthConfig 2 60 3600.
Definition sampleBcryptHash (password : string) : string := ("bcrypt-" +:+ password)%string.
Definition sampleMatches (password hash : string) : bool := hash === sampleBcryptHash password.
Definition adminToken : string := "AAAAAAAAAAAAAAAAAAAAAAAAAAAAAAAAAAAAAAAAAAA".
Definition authDB : DB := Eval vm_compute in waitingDB <| db_users := [mkUserRow 2 "Owner" "owner" (Some "O"%string) (Some "o@x"%string) (Some "o@x"%string)
  (Some "0123456"%string) (Some "0123456"%string) None (sampleBcryptHash "secret-password") ADMIN true None] |>.
Definition authServer : Server := mkServer authDB ∅ [].
Lemma authServer_sound : sound (sv_db authServer).
Proof. solve_sound. Defined.

Definition wrongLogins : list LoginAttempt :=
  map (fun t => mkLoginAttempt "OWNER" "password" ("ip-" +:+ pretty t) adminToken t) [0; 1000; 2000; 60000].

Lemma password_guesses_bounded_witness : guesses "owner" (logins authConfig sampleMatches wrongLogins authServer) = [0; 1000; 60000] /\
  within 500 60000 (guesses "owner" (logins authConfig sampleMatches wrongLogins authServer)) <= 4.
Proof.
  split; [vm_compute; reflexivity |].
  apply (password_guesses_bounded authConfig sampleMatches "owner" wrongLogins authServer 500 ltac:(vm_compute; reflexivity) ltac:(vm_compute; discriminate)).
  - repeat constructor; discriminate.
  - reflexivity.
  - apply List.Forall_forall; intros x Hx _; revert x Hx; apply List.Forall_forall; vm_compute; repeat constructor.
Defined.

Definition ownerServer : Server := (login authConfig sampleMatches " Owner" "secret-password" "ip" adminToken 5000 authServer).2.
Definition ownerUser : AuthenticatedUser := mkAuthenticatedUser 2 "Owner" (Some "O"%string) ADMIN true.
Lemma owner_login : login authConfig sampleMatches " Owner" "secret-password" "ip" adminToken 5000 authServer = (Ok (ownerUser, adminToken), ownerServer).
Proof. rewrite (surjective_pairing (login _ _ _ _ _ _ _ _)); f_equal; vm_compute; reflexivity. Qed.

Lemma session_follows_account_witness : (resolveSession adminToken 3604999 ownerServer).1 = Ok (Some ownerUser) /\
  (resolveSession adminToken 3605000 ownerServer).1 = Ok None.
Proof.
  split.
  - destruct (session_follows_account authConfig sampleMatches " Owner" "secret-password" "ip" adminToken 5000 authServer ownerUser adminToken ownerServer 3604999
      ownerServer owner_login ltac:(vm_compute; reflexivity) ltac:(reflexivity)) as (user & [<- | []] & _ & _ & _ & _ & _ & H).
    etransitivity; [exact H | vm_compute; reflexivity].
  - vm_compute; reflexivity.
Defined.

Definition newcomer : RegisterInput := mkRegisterInput "New Comer" "Newcomer" "n@x" "09 8765 4321" None "another-password".
Definition newcomerServer : Server := (register authConfig sampleBcryptHash sampleMatches "username" newcomer "ip" adminToken 5000 authServer).2.
Lemma newcomer_registered : register authConfig sampleBcryptHash sampleMatches "username" newcomer "ip" adminToken 5000 authServer =
  (Ok (mkAuthenticatedUser 1000 "Newcomer" (Some "New Comer"%string) USER true, adminToken), newcomerServer).
Proof. rewrite (surjective_pairing (register _ _ _ _ _ _ _ _ _)); f_equal; vm_compute; reflexivity. Qed.

Lemma registration_logs_in_witness : sv_redis newcomerServer !! RegistrationIpKey "ip" = None /\
  exists id, db_users (sv_db newcomerServer) = db_users authDB ++ [registered sampleBcryptHash newcomer id].
Proof.
  destruct (registration_logs_in authConfig sampleBcryptHash sampleMatches "username" newcomer "ip" adminToken 5000 authServer _ _ _ newcomer_registered
    authServer_sound) as (id & E & _ & _ & _ & _ & _ & Hr).
  split; [exact Hr | exists id; exact E].
Defined.

(** Forty logins from the address in the last minute. *)
Definition busyServer : Server := mkServer authDB {[LoginIpKey "ip" := mkEntry (Counter 40) (Some 60000)]} [].

Lemma registered_yet_refused_witness : exists w', register authConfig sampleBcryptHash sampleMatches "username" newcomer "ip" adminToken 5000 busyServer =
    (Err LOGIN_RATE_LIMITED, w') /\ map us_normalizedUsername (db_users (sv_db w')) = ["owner"; "newcomer"]%string.
Proof.
  destruct (create users (registered sampleBcryptHash newcomer) authDB) as [[row d] |] eqn:E; [| vm_compute in E; discriminate].
  destruct (registered_yet_refused authConfig sampleBcryptHash sampleMatches "username" newcomer "ip" adminToken 5000 busyServer 1 _ row d 0 40
    ltac:(reflexivity) ltac:(reflexivity) (increment_fresh (RegistrationIpKey "ip") 60 5000 (sv_redis busyServer) ltac:(vm_compute; reflexivity))
    ltac:(discriminate) E) as (w' & H & Hd).
  - split_and!; [vm_compute; reflexivity | lia | lia].
  - reflexivity.
  - split; [discriminate | reflexivity].
  - vm_compute; reflexivity.
  - exists w'; split; [exact H |]; rewrite Hd; vm_compute in E; injection E as _ <-; reflexivity.
Defined.
