(* ===== verification/System.v ===== *)
(** * System

    The commands a match takes, run one after the other on the store, and the proof that
    they implement the abstract phases of the file [Phases]: a command moves the match it
    is addressed to along one abstract step, or leaves its phase alone, and never the phase
    of another match. A refused command leaves the store as it was. *)
From stdpp Require Import relations.
From S2P Require Import Prelude Schema Database Rules Authorization Scenario Scoring Lifecycle BracketOutcome Cancellation Exit Appeals Publication Sanctions Assignments Phases.

(** ** Commands *)

Inductive Command : Type :=
  | StartRound (net : Presence) (identity : SupervisorCommandIdentity)
  | PauseRound (identity : SupervisorCommandIdentity)
  | ResumeRound (identity : SupervisorCommandIdentity)
  | ExpireRound (roundId : uuid)
  | CancelResults (identity : SupervisorCommandIdentity) (entireMatch : bool)
  | UndoCancellation (operationId : uuid) (identity : SupervisorCommandIdentity)
  | ExitMatch (identity : SupervisorCommandIdentity) (mode : MatchExitMode)
  | CompleteMatch (identity : SupervisorCommandIdentity)
  | CompleteRegulation (identity : SupervisorCommandIdentity) (payload : AppealInput)
  | CompleteOvertime (identity : SupervisorCommandIdentity) (payload : AppealInput)
  | RestartOvertime (identity : SupervisorCommandIdentity)
  | ManualWinner (identity : SupervisorCommandIdentity) (winner : AthleteColor)
  | Publish (identity : SupervisorCommandIdentity) (key : string) (traceId : option string)
  | SubmitVote (athlete : AthleteColor) (officialSessionId : option uuid) (judgeSlot : option JudgeSlot)
      (sessionId : option uuid)
  | ResolveWindow (windowId : uuid)
  | RecordFault (identity : SupervisorCommandIdentity) (athlete : AthleteColor) (severity : FaultSeverity)
      (traceId : option string)
  | AddPenalty (identity : SupervisorCommandIdentity) (athlete : AthleteColor)
  | TakeMatch (judgeIds : list uuid) (official : OfficialIdentity)
  | ConfirmJudges (judgeIds : list uuid) (official : OfficialIdentity)
  | ReleaseMatch (official : OfficialIdentity).

(** The answer is left out: a command is followed by what it leaves in the store. *)
Definition run_ {A} (c : DbM A) : DbM unit := _ ← c; mret tt.

Section System.
Context (sha256 : json -> string).

Definition exec (clk : Clock) (m : uuid) (c : Command) : DbM unit :=
  match c with
  | StartRound net i => run_ (startRound clk net m i)
  | PauseRound i => run_ (pauseRound clk m i)
  | ResumeRound i => run_ (resumeRound clk m i)
  | ExpireRound rid => run_ (evaluateExpiration clk m rid)
  | CancelResults i b => run_ (cancelResults clk m i b)
  | UndoCancellation oid i => run_ (undoResultCancellation clk m oid i)
  | ExitMatch i mode => run_ (exitMatch clk m i mode)
  | CompleteMatch i => run_ (completeMatch clk m i)
  | CompleteRegulation i p => run_ (completeRegulation clk m i p)
  | CompleteOvertime i p => run_ (completeOvertime clk m i p)
  | RestartOvertime i => run_ (restart clk m i)
  | ManualWinner i w => run_ (manualWinner clk m i w)
  | Publish i k t => run_ (publish sha256 clk m i k t)
  | SubmitVote a o j s => run_ (submitVote clk (mkVoteInput a m o j s))
  | ResolveWindow w => run_ (resolveIfDue clk m w)
  | RecordFault i a s t => run_ (record clk m i a s t)
  | AddPenalty i a => run_ (addPenalty clk m i a)
  | TakeMatch ids i => run_ (take clk m ids i)
  | ConfirmJudges ids i => run_ (confirm clk m ids i)
  | ReleaseMatch i => run_ (release clk m i)
  end.

(** What a command asks of the phase of its match. *)
Definition actionOf (c : Command) : Action :=
  match c with
  | StartRound _ _ => AStart | PauseRound _ => APause | ResumeRound _ => AResume
  | ExpireRound _ => AExpire | CancelResults _ _ => ACancel | UndoCancellation _ _ => AUndo
  | ExitMatch _ mode => AExit mode | CompleteMatch _ => AComplete
  | CompleteRegulation _ _ => ARegulationAppeal | CompleteOvertime _ _ => AOvertimeAppeal
  | RestartOvertime _ => ARestart | ManualWinner _ _ => AManualWinner | Publish _ _ _ => APublish
  | TakeMatch _ _ => ATake
  | SubmitVote _ _ _ _ | ResolveWindow _ | RecordFault _ _ _ _ | AddPenalty _ _
  | ConfirmJudges _ _ | ReleaseMatch _ => ANothing
  end.

(** One request: it commits or is refused. *)
Definition request : Type := Clock * uuid * Command.
Definition serve (r : request) (d : DB) : DB :=
  let '(clk, m, c) := r in snd (transaction (exec clk m c) d).
Definition serve_all (l : list request) (d : DB) : DB := fold_left (fun d r => serve r d) l d.
End System.

(** ** Abstraction *)

Definition phaseOf (m : MatchRow) : Phase := phase (m_lifecycle m) (m_status m) (m_currentRound m).
Definition savedOf (o : OperationRow) : Saved :=
  saved (phase (op_previousLifecycle o) (op_previousStatus o) (op_previousCurrentRound o))
    (op_resultingStatus o) (op_resultingCurrentRound o).
Definition applied (m : uuid) (o : OperationRow) : bool :=
  (op_matchId o === m) && (op_status o === APPLIED).
Definition savedIn (m : uuid) (d : DB) : list Saved :=
  map savedOf (List.filter (applied m) (db_matchResultOperations d)).

Definition abs (d : DB) (m : uuid) : option (MatchRulesVersion * AState) :=
  option_map (fun mr => (m_rulesVersion mr, astate (phaseOf mr) (savedIn m d)))
    (find_first (fun x => m_id x === m) (db_matches d)).

(** Every match and everything it can be brought back to is well formed. *)
Definition consistent (d : DB) : Prop :=
  forall m v s, abs d m = Some (v, s) -> aok v s.

(** The effect a command on [m] may have on phases. *)
Definition steps (m : uuid) (a : Action) (d d' : DB) : Prop :=
  (forall m', m' <> m -> abs d' m' = abs d m') /\
  (abs d' m = abs d m \/
   exists v s s', abs d m = Some (v, s) /\ abs d' m = Some (v, s') /\ astep v a s s').

Lemma steps_same m a d d' :
  db_matches d' = db_matches d -> db_matchResultOperations d' = db_matchResultOperations d -> steps m a d d'.
Proof.
  intros Hm Ho; assert (E : forall m', abs d' m' = abs d m').
  { intros m'; unfold abs, savedIn; rewrite Hm, Ho; reflexivity. }
  split; [intros m' _; apply E | left; apply E].
Qed.

(** A write to the match row and to its own operations. *)
Lemma steps_write m a f mr d d' s' :
  find_first (fun x => m_id x === m) (db_matches d) = Some mr ->
  (forall x, m_id (f x) = m_id x) -> m_rulesVersion (f mr) = m_rulesVersion mr ->
  db_matches d' = map_where (fun x => m_id x === m) f (db_matches d) ->
  (forall m', m' <> m -> savedIn m' d' = savedIn m' d) ->
  s' = astate (phaseOf (f mr)) (savedIn m d') ->
  astep (m_rulesVersion mr) a (astate (phaseOf mr) (savedIn m d)) s' -> steps m a d d'.
Proof.
  intros Hm Hid Hv Hms Hsv -> Hstep.
  assert (E : forall m', find_first (fun x => m_id x === m') (db_matches d') =
    option_map (fun x => if m_id x === m then f x else x) (find_first (fun x => m_id x === m') (db_matches d))).
  { intros m'; rewrite Hms; apply find_first_map_where; intros x _; rewrite Hid; reflexivity. }
  split.
  - intros m' Hne; unfold abs; rewrite E, Hsv by exact Hne.
    destruct (find_first (fun x => m_id x === m') (db_matches d)) as [x |] eqn:Ex; [cbn | reflexivity].
    apply find_first_some in Ex as [_ Ex]; to_prop; rewrite bool_decide_eq_false_2; [reflexivity | congruence].
  - right; exists (m_rulesVersion mr), (astate (phaseOf mr) (savedIn m d)), (astate (phaseOf (f mr)) (savedIn m d')).
    pose proof (find_first_some _ _ _ Hm) as [_ Hmm]; to_prop.
    unfold abs; rewrite E, Hm; cbn; rewrite bool_decide_eq_true_2, Hv by exact Hmm; auto.
Qed.

(** A write that leaves the operations alone. *)
Lemma steps_moves m a f mr d d' :
  find_first (fun x => m_id x === m) (db_matches d) = Some mr ->
  (forall x, m_id (f x) = m_id x) -> m_rulesVersion (f mr) = m_rulesVersion mr ->
  db_matches d' = map_where (fun x => m_id x === m) f (db_matches d) ->
  db_matchResultOperations d' = db_matchResultOperations d ->
  moves (m_rulesVersion mr) a (phaseOf mr) (phaseOf (f mr)) -> steps m a d d'.
Proof.
  intros Hm Hid Hv Hms Hops Hmv.
  assert (E : forall m', savedIn m' d' = savedIn m' d) by (intros m'; unfold savedIn; rewrite Hops; reflexivity).
  eapply steps_write; eauto; rewrite E; apply step_move, Hmv.
Qed.

(** What the invariants say of a stored match. *)
Lemma consistent_match d m mr :
  consistent d -> find_first (fun x => m_id x === m) (db_matches d) = Some mr ->
  phase_ok (m_rulesVersion mr) (phaseOf mr) = true.
Proof.
  intros Hc Hm; assert (E : abs d m = Some (m_rulesVersion mr, astate (phaseOf mr) (savedIn m d)))
    by (unfold abs; rewrite Hm; reflexivity).
  destruct (Hc m _ _ E) as [H _]; exact H.
Qed.

Lemma phase_facts d m mr :
  consistent d -> find_first (fun x => m_id x === m) (db_matches d) = Some mr ->
  (m_lifecycle mr = NOT_STARTED <-> m_status mr = WAITING) /\
  (m_lifecycle mr = LIFECYCLE_COMPLETED <-> m_status mr = FINISHED) /\
  (m_lifecycle mr = SUSPENDED -> suspendable (m_status mr) = true) /\
  (v2Status (m_status mr) = true -> m_rulesVersion mr = FAULT_APPEAL_OVERTIME_V2) /\
  round_fits (m_status mr) (m_currentRound mr) = true.
Proof. intros Hc Hm; exact (phase_ok_facts _ _ _ _ (consistent_match d m mr Hc Hm)). Qed.

(** A suspended match keeps its suspension time, so no write that moves it on without
    clearing that time commits. *)
Lemma not_suspended m f mr d d' :
  sound d -> sound d' -> find_first (fun x => m_id x === m) (db_matches d) = Some mr ->
  db_matches d' = map_where (fun x => m_id x === m) f (db_matches d) ->
  m_suspendedAt (f mr) = m_suspendedAt mr ->
  (m_lifecycle (f mr) = SUSPENDED <-> m_lifecycle mr = SUSPENDED).
Proof.
  intros [Hwf _] [Hwf' _] Hm Hms Hsus.
  assert (Hlc : forall x, match_ok x = true -> (m_lifecycle x = SUSPENDED <-> m_suspendedAt x <> None)).
  { intros x Hx; unfold match_ok in Hx; apply andb_prop in Hx as [_ Hx]; apply eqb_prop in Hx.
    rewrite <- (bool_decide_eq_true (m_lifecycle x = SUSPENDED)), Hx.
    destruct (m_suspendedAt x); cbn; split; congruence. }
  apply find_first_some in Hm as [Hin Hid].
  pose proof (wf_row matches d mr Hwf Hin) as Hok.
  assert (Hok' : match_ok (f mr) = true).
  { apply (wf_row matches d' (f mr) Hwf'); change (In (f mr) (db_matches d')); rewrite Hms.
    apply in_map_where; exists mr; rewrite Hid; auto. }
  rewrite (Hlc _ Hok'), (Hlc _ Hok), Hsus; reflexivity.
Qed.

(** ** Commands step by step *)

Lemma run_ok {A} (c : DbM A) d u d' : run_ c d = Ok (u, d') -> exists a, c d = Ok (a, d').
Proof. unfold run_; intros H; apply bind_ok in H as (a & d1 & H & H2); apply ret_ok in H2 as [_ <-]; eauto. Qed.

Lemma in_progress d m mr :
  consistent d -> find_first (fun x => m_id x === m) (db_matches d) = Some mr ->
  m_status mr <> WAITING -> m_status mr <> FINISHED -> m_lifecycle mr <> SUSPENDED ->
  m_lifecycle mr = IN_PROGRESS.
Proof.
  intros Hc Hm Hw Hf Hs; destruct (phase_facts d m mr Hc Hm) as ([Hn _] & [Hl _] & _).
  destruct (m_lifecycle mr); auto; [destruct Hw | destruct Hs | destruct Hf]; auto.
Qed.

Lemma startRound_steps clk net m i d t d' :
  sound d -> consistent d -> startRound clk net m i d = Ok (t, d') -> steps m AStart d d'.
Proof.
  intros Hs Hc H; pose proof (keeps_sound_startRound _ _ _ _ _ _ _ H Hs) as Hs'.
  apply startRound_ok in H as (mr & ds & entry & Hm & _ & Hds & _ & _ & _ & Hd').
  set (f := fun x : MatchRow => x <| m_currentRound := _ |> <| m_intermissionEndsAt := None |>
    <| m_lifecycle := IN_PROGRESS |> <| m_startedAt := _ |> <| m_status := _ |>) in Hd'.
  assert (Hms : db_matches d' = map_where (fun x => m_id x === m) f (db_matches d)) by (rewrite Hd'; reflexivity).
  assert (Hops : db_matchResultOperations d' = db_matchResultOperations d) by (rewrite Hd'; reflexivity).
  apply (steps_moves m _ f mr); auto; clear Hd'.
  destruct (phase_facts d m mr Hc Hm) as ([_ Hw] & _ & _ & _ & Hr).
  assert (Hl : m_status mr <> WAITING -> m_status mr <> FINISHED -> m_lifecycle mr = IN_PROGRESS).
  { intros H1 H2; apply (in_progress d m mr Hc Hm H1 H2); intros Hsus.
    apply (not_suspended m f mr d d' Hs Hs' Hm Hms eq_refl) in Hsus; discriminate. }
  apply nextRoundDescriptor_ok in Hds as [_ Hds]; unfold phaseOf; cbn.
  destruct Hds as [(E & E2 & _ & ->) | [(E & E2 & _ & ->) | (E & ->)]]; rewrite ?E, ?E2 in *.
  - rewrite Hw by reflexivity; apply move_start_first.
  - rewrite Hl by discriminate; apply move_start_second.
  - rewrite Hl by discriminate; apply move_start_overtime.
Qed.

Lemma pauseRound_steps clk m i d t d' : pauseRound clk m i d = Ok (t, d') -> steps m APause d d'.
Proof.
  intros H; apply pauseRound_ok in H as (_ & mr & n & rd & entry & Hm & Hn & _ & _ & _ & ->).
  eapply (steps_moves m _ (fun x => x <| m_status := pauseStatus (m_status mr) n |>) mr); auto.
  unfold phaseOf; cbn; apply move_pause.
  destruct (m_status mr); try discriminate Hn; injection Hn as <-; constructor.
Qed.

Lemma resumeRound_steps clk m i d t d' : resumeRound clk m i d = Ok (t, d') -> steps m AResume d d'.
Proof.
  intros H; apply resumeRound_ok in H as (mr & n & rd & left_ & entry & Hm & Hn & _ & _ & _ & ->).
  eapply (steps_moves m _ (fun x => x <| m_status := resumeStatus (m_status mr) n |>) mr); auto.
  unfold phaseOf; cbn; apply move_resume.
  destruct (m_status mr); try discriminate Hn; injection Hn as <-; constructor.
Qed.

Lemma evaluateExpiration_steps clk m rid d t d' :
  sound d -> consistent d -> evaluateExpiration clk m rid d = Ok (t, d') -> steps m AExpire d d'.
Proof.
  intros Hs Hc H; pose proof (keeps_sound_evaluateExpiration _ _ _ _ _ _ H Hs) as Hs'.
  apply evaluateExpiration_ok in H as (mr & Hm & H); cbv zeta in H.
  destruct t as [| delay | t]; [subst; apply steps_same; reflexivity | destruct H as [-> _]; apply steps_same; reflexivity |].
  destruct H as (rd & _ & Hcur & _ & He).
  pose proof (touches_endRound _ _ _ _ _ _ He matchResultOperations ltac:(table_notin)) as Hops.
  apply endRound_ok in He as (_ & Hms & _); unfold expiredMatch in Hms.
  pose proof (find_first_some _ _ _ Hm) as [_ Hid]; to_prop; rewrite Hid in Hms.
  match type of Hms with _ = map_where _ ?g _ => set (f := g) in Hms end.
  apply (steps_moves m _ f mr); auto.
  unfold roundIsCurrent in Hcur; to_prop.
  assert (Hl : m_lifecycle mr = IN_PROGRESS).
  { apply (in_progress d m mr Hc Hm).
    1,2: intros E; rewrite E in *; destruct (r_stage rd); cbn in *; repeat case_match; discriminate.
    intros Hsus; apply (not_suspended m f mr d d' Hs Hs' Hm Hms eq_refl) in Hsus; discriminate. }
  destruct (phase_facts d m mr Hc Hm) as (_ & _ & _ & _ & Hr).
  unfold phaseOf; cbn; rewrite Hl.
  match goal with E : Some _ = runningStatus _ _ |- _ => rename E into Est end.
  destruct (r_stage rd); cbn in *.
  - unfold expirationStatus; decide_consts_goal.
    destruct (Z.eqb_spec (r_roundNumber rd) 1) as [En | _]; [| destruct (Z.eqb_spec (r_roundNumber rd) 2) as [En | _]; [| discriminate]];
      injection Est as Est; rewrite Est in *; cbn in Hr; apply bool_decide_eq_true in Hr; rewrite Hr; [apply move_end_first | apply move_end_second].
  - injection Est as Est; rewrite Est in *; cbn in Hr.
    apply bool_decide_eq_true in Hr; rewrite Hr; apply move_end_overtime.
Qed.

(** *** Saved phases *)

Lemma saved_append m op d d' :
  op_matchId op = m -> op_status op = APPLIED ->
  db_matchResultOperations d' = db_matchResultOperations d ++ [op] ->
  savedIn m d' = savedIn m d ++ [savedOf op] /\ forall m', m' <> m -> savedIn m' d' = savedIn m' d.
Proof.
  intros Hm Ha Hops; unfold savedIn; rewrite Hops; split; [| intros m' Hne];
    rewrite List.filter_app, map_app; cbn; unfold applied at 2; rewrite Hm, Ha.
  - rewrite !bool_decide_eq_true_2 by reflexivity; reflexivity.
  - rewrite bool_decide_eq_false_2 by congruence; cbn; apply app_nil_r.
Qed.

(** Undoing an operation takes its phase out of the saved ones. *)
Lemma saved_undone m op g d d' :
  wf d -> In op (db_matchResultOperations d) -> op_matchId op = m -> op_status op = APPLIED ->
  (forall o, op_matchId (g o) = op_matchId o) -> (forall o, op_status (g o) = UNDONE) ->
  db_matchResultOperations d' = map_where (fun o => op_id o === op_id op) g (db_matchResultOperations d) ->
  (exists l1 l2, savedIn m d = l1 ++ savedOf op :: l2 /\ savedIn m d' = l1 ++ l2) /\
  forall m', m' <> m -> savedIn m' d' = savedIn m' d.
Proof.
  intros Hwf Hin Hm Ha Hgm Hgs Hops.
  assert (Huniq : forall o, In o (db_matchResultOperations d) -> op_id o = op_id op -> o = op).
  { intros o Ho E; eapply (wf_id matchResultOperations d); eauto; cbn; congruence. }
  assert (Hnd : NoDup (map op_id (db_matchResultOperations d))).
  { specialize (Hwf matchResultOperations); apply table_ok_true in Hwf as (_ & Hpk & _).
    pose proof (unique_by_filter (row_id matchResultOperations) op_id (fun _ => true) _ Hpk (fun _ _ _ => eq_refl)) as N.
    replace (List.filter (fun _ => true) (get matchResultOperations d)) with (db_matchResultOperations d) in N;
      [exact N | cbn; clear; induction (db_matchResultOperations d); cbn; congruence]. }
  unfold savedIn; rewrite Hops; apply in_split in Hin as (a & b & E); rewrite E in *.
  assert (Hkeep : forall l, (forall o, In o l -> In o (a ++ b)) ->
            map_where (fun o => op_id o === op_id op) g l = l).
  { intros l Hl; apply map_where_nil; intros o Ho; apply bool_decide_eq_false; intros Eo.
    rewrite map_app in Hnd; cbn in Hnd; apply list.NoDup_app in Hnd as (_ & Hd & Hb).
    inversion Hb as [| ? ? Hb' _]; subst; specialize (Hl o Ho); apply in_app_iff in Hl as [Hl | Hl].
    - apply (Hd (op_id o)); [apply list_elem_of_In, in_map, Hl | rewrite Eo; constructor].
    - apply Hb'; rewrite <- Eo; apply list_elem_of_In, in_map, Hl. }
  assert (Em : map_where (fun o => op_id o === op_id op) g (a ++ op :: b) = a ++ g op :: b).
  { unfold map_where in *; rewrite map_app; cbn; rewrite bool_decide_eq_true_2 by reflexivity.
    rewrite (Hkeep a), (Hkeep b); [reflexivity | |]; intros; apply in_app_iff; auto. }
  assert (Hg : forall x, applied x (g op) = false).
  { intros x; unfold applied; rewrite Hgs; apply andb_false_r. }
  rewrite Em; split; [| intros m' Hne]; rewrite !List.filter_app, !map_app; cbn; rewrite Hg.
  - unfold applied at 2; rewrite Hm, Ha, !bool_decide_eq_true_2 by reflexivity.
    eexists _, _; split; reflexivity.
  - unfold applied at 4; rewrite Hm, bool_decide_eq_false_2 by congruence; reflexivity.
Qed.

(** Where the selected rounds of a cancellation lead. *)
Lemma cancelledStatus_cases b m active :
  selectedRounds b m active <> [] ->
  let next := cancelledStatus b (selectedRounds b m active) in
  next = WAITING \/
  (overtimePhase (m_status m) = true /\ next = OVERTIME_READY) \/
  ((m_status m = REGULATION_APPEAL \/
    (m_status m = FINISHED \/ m_status m = AWAITING_RESULT_SAVE) /\ m_currentRound m = Some 2) /\ next = BREAK).
Proof.
  assert (Hreg : forall l, existsb (regulationRound 1) (List.filter (regulationRound 2) l) = false /\
    existsb (fun r => r_stage r === OVERTIME) (List.filter (regulationRound 2) l) = false).
  { intros l; split; apply not_true_is_false; intros H; apply existsb_exists in H as (r & Hr & H);
      apply filter_In in Hr as [_ Hr]; unfold regulationRound in *; to_prop; [lia | congruence]. }
  unfold selectedRounds, cancelledStatus; destruct b; [intros _; left; reflexivity |]; cbn [orb]; cbv zeta.
  destruct (m_status m === REGULATION_APPEAL) eqn:E1; [intros _ | destruct (overtimePhase (m_status m)) eqn:E2].
  - destruct (Hreg active) as [-> ->]; to_prop; right; right; auto.
  - intros Hne; right; left; split; [reflexivity |].
    destruct (List.filter (fun r => r_stage r === OVERTIME) active) as [| r l] eqn:E; [destruct (Hne eq_refl) |].
    assert (Hr : r_stage r = OVERTIME).
    { assert (In r (List.filter (fun r => r_stage r === OVERTIME) active)) as Hr by (rewrite E; left; reflexivity).
      apply filter_In in Hr as [_ Hr]; to_prop; exact Hr. }
    cbn; unfold regulationRound; rewrite Hr; reflexivity.
  - destruct ((m_status m === BREAK) && (m_currentRound m === Some 1)) eqn:E3; [intros Hne; left |].
    + destruct (List.filter (regulationRound 1) active) as [| r l] eqn:E; [destruct (Hne eq_refl) |].
      assert (Hr : regulationRound 1 r = true).
      { assert (In r (List.filter (regulationRound 1) active)) as Hr by (rewrite E; left; reflexivity).
        apply filter_In in Hr; apply Hr. }
      cbn; rewrite Hr; reflexivity.
    + destruct (((m_status m === FINISHED) || _) && _) eqn:E4; [intros _ | intros Hne; destruct (Hne eq_refl)].
      destruct (Hreg active) as [-> ->]; cbn; right; right; split; [right | reflexivity].
      apply andb_prop in E4 as [E4 E5]; apply orb_prop in E4 as [E4 | E4]; to_prop; auto.
Qed.

Lemma cancelResults_steps clk m i b d t d' :
  sound d -> consistent d -> cancelResults clk m i b d = Ok (t, d') -> steps m ACancel d d'.
Proof.
  intros Hs Hc H.
  apply cancelResults_ok in H as (mr & sel & op & Hm & Hne & _ & Eop & Hops & _ & _ & _ & Hms & Hs' & act & ->); auto.
  pose proof (find_first_some _ _ _ Hm) as [_ Hid]; to_prop.
  set (next := cancelledStatus b (selectedRounds b mr act)) in *.
  assert (Hl : m_lifecycle mr <> SUSPENDED).
  { intros Hsus; apply (not_suspended m (cancelledRow next mr) mr d d' Hs Hs' Hm Hms eq_refl) in Hsus.
    cbn in Hsus; unfold cancellationLifecycle in Hsus; destruct (next === WAITING); discriminate. }
  assert (Hlp : lifecycleForPhase (m_status mr) = m_lifecycle mr).
  { destruct (phase_facts d m mr Hc Hm) as ([Hn Hw] & [Hco Hf] & _).
    destruct (m_status mr) eqn:Est; cbn; try (symmetry; auto; fail).
    all: symmetry; apply (in_progress d m mr Hc Hm); rewrite ?Est; try discriminate; exact Hl. }
  destruct (saved_append m op d d') as [Hsv Hother]; [rewrite Eop; exact Hid | rewrite Eop; reflexivity | exact Hops |].
  eapply (steps_write m _ (cancelledRow next mr) mr); eauto; rewrite Hsv.
  replace (savedOf op) with (saved (phaseOf mr) (ph_status (phaseOf (cancelledRow next mr mr)))
    (ph_round (phaseOf (cancelledRow next mr mr)))).
  2:{ rewrite Eop; unfold savedOf, cancellationRow, phaseOf; cbn; rewrite Hlp; reflexivity. }
  apply step_cancel; unfold phaseOf; cbn.
  destruct (phase_facts d m mr Hc Hm) as (_ & _ & _ & _ & Hr).
  destruct (cancelledStatus_cases b mr act Hne) as [E | [[Ho E] | [Hst E]]]; fold next in E; rewrite E.
  - apply cancel_match, Hl.
  - apply cancel_overtime; auto.
  - assert (E2 : m_currentRound mr = Some 2).
    { destruct Hst as [Est | [_ Hcr]]; [| exact Hcr]; rewrite Est in Hr; cbn in Hr; to_prop; exact Hr. }
    rewrite E2; apply cancel_second_round; tauto.
Qed.

Lemma undo_steps clk m oid i d t d' :
  sound d -> sound d' -> undoResultCancellation clk m oid i d = Ok (t, d') -> steps m AUndo d d'.
Proof.
  intros Hs Hs' H.
  apply undo_ok in H as (op & d1 & Hin & _ & Ha & _ & _ & Hms & _ & Hom & Hops & mr & Hm & Est & Ecr).
  match type of Hops with _ = map_where _ ?u _ => set (g := u) in Hops end.
  destruct (saved_undone m op g d d' (proj1 Hs) Hin Hom Ha (fun _ => eq_refl) (fun _ => eq_refl) Hops)
    as [(l1 & l2 & E1 & E2) Hother].
  eapply (steps_write m _ (undoneRow op) mr); eauto; rewrite E1, E2.
  apply (step_undo _ (phaseOf mr) (savedOf op)); [exact Est | exact Ecr |].
  symmetry; exact (not_suspended m (undoneRow op) mr d d' Hs Hs' Hm Hms eq_refl).
Qed.

Lemma exitMatch_steps clk m i mode d t d' :
  exitMatch clk m i mode d = Ok (t, d') -> steps m (AExit mode) d d'.
Proof.
  intros H; apply exitMatch_ok in H as (mr & aid & open & Hm & _ & Hl & Hr & _ & Hms & _ & _ & _ & id & Hops).
  pose proof (find_first_some _ _ _ Hm) as [_ Hid]; to_prop.
  destruct (saved_append m (exitRow clk mr i mode aid id) d d') as [Hsv Hother];
    [exact Hid | reflexivity | exact Hops |].
  eapply (steps_write m _ (exitedRow clk mode mr) mr); eauto; rewrite Hsv.
  apply (step_exit _ mode (phaseOf mr)); [exact Hl |].
  intros ->; unfold exitRefused in Hr; apply orb_false_elim in Hr as [Hr _].
  apply orb_false_elim in Hr as [Hr _]; decide_consts Hr; apply negb_false_iff in Hr; exact Hr.
Qed.

Lemma completeMatch_steps clk m i d t d' :
  consistent d -> completeMatch clk m i d = Ok (t, d') -> steps m AComplete d d'.
Proof.
  intros Hc H; apply completeMatch_ok in H as (mr & Hm & H).
  destruct (_ || _) eqn:Edone in H; [destruct H as [-> _]; apply steps_same; reflexivity |].
  destruct H as (Est & Hl & _ & _ & _ & _ & _ & Hms & Ht).
  apply (steps_moves m _ (fun x => x <| m_finishedAt := Some (serverNow clk) |>
      <| m_lifecycle := LIFECYCLE_COMPLETED |> <| m_status := FINISHED |>) mr); auto.
  - exact (Ht matchResultOperations ltac:(table_notin)).
  - unfold phaseOf; cbn; rewrite Est.
    rewrite (in_progress d m mr Hc Hm) by (try exact Hl; rewrite Est; discriminate).
    apply move_complete.
Qed.

Lemma completeRegulation_steps clk m i p d t d' :
  sound d -> completeRegulation clk m i p d = Ok (t, d') -> steps m ARegulationAppeal d d'.
Proof.
  intros Hs H; pose proof (touches_completeRegulation _ _ _ _ _ _ _ H matchResultOperations ltac:(table_notin)) as Hops.
  unfold completeRegulation in H.
  apply bind_ok in H as ([] & d0 & ? & H); reads.
  apply bind_ok in H as (mr & d0 & Hm & H); apply (find_one_or_throw_ok matches) in Hm as [Hm ->].
  apply bind_ok in H as ([] & d1 & Hst & H).
  pose proof (keeps_sound_invalidateStaleAppeals _ _ _ _ _ _ Hst Hs) as Hs1.
  pose proof (touches_invalidateStaleAppeals _ _ _ _ _ _ Hst matches ltac:(table_notin)) as Em.
  change (db_matches d1 = db_matches d) in Em.
  apply bind_ok in H as (ex & d2 & He & H); apply gets_ok in He as [-> ->].
  destruct (find_first _ (get matchAppeals d1)) as [a |] in H.
  { apply bind_ok in H as (adj & d2 & Hadj & H); apply gets_ok in Hadj as [-> ->].
    apply or_throw_ok in H as [_ ->]; apply steps_same; auto. }
  apply bind_ok in H as ([] & d2 & Hg & H); apply throw_if_ok in Hg as [Hg ->]; to_prop.
  apply bind_ok in H as ([[rds ath] su] & d2 & Hi & H); cbv beta iota in H.
  pose proof (respects_regulationInputs eq _ _ _ _ Hi) as <-.
  apply regulationInputs_ok in Hi as (r1 & r2 & red & blue & -> & -> & _ & _ & Cr & Cb & _); [| apply Hs1].
  apply recordRegulation_ok in H as (_ & _ & _ & _ & Hms); [| exact Cr | exact Cb].
  pose proof (find_first_some _ _ _ Hm) as [_ Hid]; to_prop; rewrite Hid, Em in Hms.
  match type of Hms with _ = map_where _ ?g _ => set (f := g) in Hms end.
  apply (steps_moves m _ f mr); auto.
  unfold phaseOf; cbn; rewrite ?H0, ?H1; unfold settledPhase.
  repeat match goal with E : m_status mr = _ |- _ => rewrite E; clear E | E : m_lifecycle mr = _ |- _ => rewrite E; clear E end.
  destruct (_ === _); [apply move_regulation_tied | apply move_regulation_decided].
Qed.

Lemma completeOvertime_steps clk m i p d t d' :
  completeOvertime clk m i p d = Ok (t, d') -> steps m AOvertimeAppeal d d'.
Proof.
  intros H; pose proof (touches_completeOvertime _ _ _ _ _ _ _ H matchResultOperations ltac:(table_notin)) as Hops.
  unfold completeOvertime in H.
  apply bind_ok in H as ([] & d0 & ? & H); reads.
  apply bind_ok in H as (mr & d0 & Hm & H); apply (find_one_or_throw_ok matches) in Hm as [Hm ->].
  apply bind_ok in H as (ex & d0 & He & H); apply gets_ok in He as [-> ->].
  destruct (find_first _ (get matchAppeals d)) as [a |] in H.
  { apply bind_ok in H as (adj & d2 & Hadj & H); apply gets_ok in Hadj as [-> ->].
    apply (respects_overtimeReplay eq) in H as <-; apply steps_same; reflexivity. }
  apply bind_ok in H as ([] & d0 & Hg & H); apply throw_if_ok in Hg as [_ ->].
  apply bind_ok in H as ([] & d0 & Hg & H); apply throw_if_ok in Hg as [Hg ->]; to_prop.
  apply bind_ok in H as ([[r ath] su] & d0 & Hi & H); cbv beta iota in H.
  pose proof (respects_overtimeInputs eq _ _ _ _ Hi) as <-.
  apply bind_ok in H as (va & d0 & Hva & H); apply (respects_overtimeValue eq) in Hva as <-.
  apply bind_ok in H as (vb & d0 & Hvb & H); apply (respects_overtimeValue eq) in Hvb as <-.
  apply recordOvertime_ok in H as (_ & _ & _ & Hms).
  pose proof (find_first_some _ _ _ Hm) as [_ Hid]; to_prop; rewrite Hid in Hms.
  match type of Hms with _ = map_where _ ?g _ => set (f := g) in Hms end.
  apply (steps_moves m _ f mr); auto.
  unfold phaseOf; cbn; unfold settledPhase.
  repeat match goal with E : m_status mr = _ |- _ => rewrite E; clear E | E : m_lifecycle mr = _ |- _ => rewrite E; clear E end.
  destruct (_ === _); [apply move_overtime_tied | apply move_overtime_decided].
Qed.

Lemma restart_steps clk m i d t d' : restart clk m i d = Ok (t, d') -> steps m ARestart d d'.
Proof.
  intros H; unfold restart in H.
  apply bind_ok in H as ([mr a] & d0 & Ht & H); apply tiedOvertime_ok in Ht as (-> & Hm & Hst & _).
  apply bind_ok in H as (au & d1 & H1 & H); apply (create_ok auditLogs) in H1 as (_ & _ & ->).
  apply bind_ok in H as (rr & d2 & H2 & H); apply (update_ok rounds) in H2 as (? & _ & _ & _ & ->).
  apply bind_ok in H as (n3 & d3 & H3 & H); apply (update_many_ok roundAthleteResults) in H3 as (_ & _ & ->).
  apply bind_ok in H as (n4 & d4 & H4 & H); apply (update_many_ok scoreEvents) in H4 as (_ & _ & ->).
  apply bind_ok in H as (n5 & d5 & H5 & H); apply (update_many_ok faults) in H5 as (_ & _ & ->).
  apply bind_ok in H as (n6 & d6 & H6 & H); apply (update_many_ok scoringWindows) in H6 as (_ & _ & ->).
  apply bind_ok in H as (a7 & d7 & H7 & H); apply (update_ok matchAppeals) in H7 as (? & _ & _ & _ & ->).
  apply bind_ok in H as (n8 & d8 & H8 & H); apply (update_many_ok matchResultDecisions) in H8 as (_ & _ & ->).
  apply bind_ok in H as (mr9 & d9 & H9 & H); apply (update_ok matches) in H9 as (? & _ & _ & _ & ->).
  apply ret_ok in H as [_ <-].
  apply (steps_moves m _ (fun x => x <| m_status := OVERTIME_READY |>) mr); auto.
  unfold phaseOf; cbn; rewrite Hst; apply move_restart.
Qed.

Lemma manualWinner_steps clk m i w d t d' : manualWinner clk m i w d = Ok (t, d') -> steps m AManualWinner d d'.
Proof.
  intros H; unfold manualWinner in H.
  apply bind_ok in H as ([mr a] & d0 & Ht & H); apply tiedOvertime_ok in Ht as (-> & Hm & Hst & _).
  apply bind_ok in H as (at_ & d1 & Ha & H); apply (find_one_or_throw_ok matchAthletes) in Ha as [_ ->].
  apply bind_ok in H as (dec & d2 & H2 & H); apply (create_ok matchResultDecisions) in H2 as (_ & _ & ->).
  apply bind_ok in H as (mr9 & d9 & H9 & H); apply (update_ok matches) in H9 as (? & _ & _ & _ & ->).
  apply bind_ok in H as (au & d1 & Hau & H); apply (create_ok auditLogs) in Hau as (_ & _ & ->).
  apply ret_ok in H as [_ <-].
  apply (steps_moves m _ (fun x => x <| m_status := RESULT_PUBLICATION_READY |>) mr); auto.
  unfold phaseOf; cbn; rewrite Hst; apply move_manual_winner.
Qed.

Lemma touches_recordPublication sha256 clk m i k t a s :
  respects (touches ([matchOutcomes; matches; matchOfficialAssignments; matchResultPublications] ++ outcomeTables))
    (recordPublication sha256 clk m i k t a s).
Proof.
  unfold recordPublication; set (ts := _ ++ _).
  assert (Hsub : forall t, t ∈ outcomeTables -> t ∈ ts) by (intros x Hx; apply elem_of_app; auto).
  assert (Hpf : forall clk m c, respects (touches ts) (processFinishedMatch clk m c)).
  { intros ? ? ? d r d' H; eapply touches_weaken; [eapply touches_processFinishedMatch, H | exact Hsub]. }
  unfold releaseForTransition, releaseRole, auditCommand; subst ts; cbn [app outcomeTables] in *; respects_auto.
Qed.

Lemma publish_steps sha256 clk m i k tr d t d' :
  wf d -> publish sha256 clk m i k tr d = Ok (t, d') -> steps m APublish d d'.
Proof.
  intros Hwf H; unfold publish in H.
  apply bind_ok in H as (rp & d0 & Hr & H); apply gets_ok in Hr as [-> ->].
  destruct (find_first _ (get matchResultPublications d)) as [p |] in H.
  { apply bind_ok in H as ([] & d0 & Hg & H); apply throw_if_ok in Hg as [_ ->].
    apply ret_ok in H as [_ <-]; apply steps_same; reflexivity. }
  apply bind_ok in H as ([[mr a] s] & d0 & Hi & H); cbv beta iota in H.
  apply publicationInputs_ok in Hi as (-> & Hm & _ & Hst & Hl & _).
  pose proof (touches_recordPublication _ _ _ _ _ _ _ _ _ _ _ H matchResultOperations ltac:(table_notin)) as Hops.
  apply recordPublication_ok in H as (_ & _ & Hms & _); [| exact Hwf].
  pose proof (find_first_some _ _ _ Hm) as [_ Hid]; to_prop; rewrite Hid in Hms.
  apply (steps_moves m _ (finishedRow (jsNow clk 0)) mr); auto.
  unfold phaseOf; cbn; rewrite Hst, Hl; apply move_publish.
Qed.

Lemma take_steps clk m ids i d t d' :
  wf d -> take clk m ids i d = Ok (t, d') -> steps m ATake d d'.
Proof.
  intros Hwf H; pose proof (touches_take _ _ _ _ _ _ _ H matchResultOperations ltac:(table_notin)) as Hops.
  apply take_ok in H as (mr & Hm & _ & _ & _ & _ & _ & H).
  destruct (tr_publish t); [| destruct H as [-> _]; apply steps_same; reflexivity].
  destruct H as (_ & _ & _ & Ha); apply assembleCrew_ok in Ha as (_ & _ & _ & _ & _ & Hms).
  destruct (m_lifecycle mr === SUSPENDED) eqn:El; [| apply steps_same; assumption].
  apply find_first_some in Hm as [Hin Hq]; to_prop.
  assert (Hm : find_first (fun x => m_id x === m) (db_matches d) = Some mr).
  { apply (wf_find_id matches d _ mr m Hwf Hin); cbn; [congruence |].
    intros y; rewrite bool_decide_eq_true; split; congruence. }
  assert (Hid : m_id mr = m) by assumption; rewrite Hid in Hms.
  match type of Hms with _ = map_where _ ?g _ => set (f := g) in Hms end.
  apply (steps_moves m _ f mr); auto; unfold phaseOf; cbn; rewrite El; apply move_take.
Qed.

(** ** The engine as a whole *)

#[local] Hint Resolve keeps_sound_decide : tx.
Lemma keeps_sound_processFinishedMatch clk m c : respects keeps_sound (processFinishedMatch clk m c).
Proof. unfold processFinishedMatch, decideFinished; respects_auto. Qed.
#[local] Hint Resolve keeps_sound_processFinishedMatch keeps_sound_retractFinishedMatch
  keeps_sound_invalidateScores keeps_sound_invalidateAppeals keeps_sound_invalidateRounds
  keeps_sound_releaseForTransition keeps_sound_clearMarks : tx.

Lemma keeps_sound_exec sha256 clk m c : respects keeps_sound (exec sha256 clk m c).
Proof.
  destruct c; unfold exec, run_; apply respects_bind; try apply _; try (intros; apply respects_ret; apply _).
  - apply keeps_sound_startRound.
  - apply keeps_sound_pauseRound.
  - unfold resumeRound, latestOpenRound, auditCommand; respects_auto.
  - apply keeps_sound_evaluateExpiration.
  - intros d t d' H Hs; apply cancelResults_ok in H; [| exact Hs].
    destruct H as (? & ? & ? & H); apply H.
  - unfold undoResultCancellation, applyUndo, auditCommand; respects_auto.
  - unfold exitMatch, applyExit, recordExit, invalidateRoundNumbers, auditCommand; respects_auto.
  - unfold completeMatch, auditCommand; respects_auto.
  - apply keeps_sound_completeRegulation.
  - apply keeps_sound_completeOvertime.
  - unfold restart, auditCommand; respects_auto.
  - apply keeps_sound_manualWinner.
  - unfold publish, publicationInputs, latestAppeal, selectWinner, recordPublication, auditCommand; respects_auto.
  - apply respects_submitVote; [apply _ | |]; intros;
      [apply keeps_sound_create; congruence | apply keeps_sound_update_many; auto].
  - apply respects_resolveIfDue; [apply _ | |]; intros;
      [apply keeps_sound_create; congruence | apply keeps_sound_update_many; auto].
  - apply keeps_sound_record.
  - apply keeps_sound_addPenalty.
  - apply keeps_sound_take.
  - apply keeps_sound_confirm.
  - apply keeps_sound_release.
Qed.

Lemma touches_scoring_steps {A} (c : DbM A) ts m a d r d' :
  respects (touches ts) c -> matches ∉ ts -> matchResultOperations ∉ ts -> c d = Ok (r, d') -> steps m a d d'.
Proof.
  intros Hc Hm Ho H; apply Hc in H; apply steps_same; [exact (H matches Hm) | exact (H matchResultOperations Ho)].
Qed.

Lemma exec_steps sha256 clk m c d u d' :
  sound d -> consistent d -> exec sha256 clk m c d = Ok (u, d') -> steps m (actionOf c) d d'.
Proof.
  intros Hs Hc H; pose proof (keeps_sound_exec _ _ _ _ _ _ _ H Hs) as Hs'.
  destruct c; apply run_ok in H as (r & H).
  - eapply startRound_steps; eauto.
  - eapply pauseRound_steps; eauto.
  - eapply resumeRound_steps; eauto.
  - eapply evaluateExpiration_steps; eauto.
  - eapply cancelResults_steps; eauto.
  - eapply undo_steps; eauto.
  - eapply exitMatch_steps; eauto.
  - eapply completeMatch_steps; eauto.
  - eapply completeRegulation_steps; eauto.
  - eapply completeOvertime_steps; eauto.
  - eapply restart_steps; eauto.
  - eapply manualWinner_steps; eauto.
  - eapply publish_steps; [apply Hs | exact H].
  - eapply (touches_scoring_steps _ scoringTables); [| table_notin | table_notin | exact H].
    apply respects_submitVote; [apply _ | |]; intros; [apply touches_create | apply touches_update_many]; auto.
  - eapply (touches_scoring_steps _ scoringTables); [| table_notin | table_notin | exact H].
    apply respects_resolveIfDue; [apply _ | |]; intros; [apply touches_create | apply touches_update_many]; auto.
  - eapply touches_scoring_steps; [apply touches_record | table_notin | table_notin | exact H].
  - eapply touches_scoring_steps; [apply touches_addPenalty | table_notin | table_notin | exact H].
  - eapply take_steps; [apply Hs | exact H].
  - eapply touches_scoring_steps; [apply touches_confirm | table_notin | table_notin | exact H].
  - eapply touches_scoring_steps; [apply touches_release | table_notin | table_notin | exact H].
Qed.

Section Theorems.
Context (sha256 : json -> string).

(** What one request does to the phases. *)
Lemma serve_step clk m c d :
  sound d -> consistent d ->
  let d' := serve sha256 (clk, m, c) d in
  sound d' /\ consistent d' /\ (d' = d \/ steps m (actionOf c) d d').
Proof.
  intros Hs Hc; cbn; unfold transaction; destruct (exec sha256 clk m c d) as [[u d'] | e] eqn:E; cbn; [| auto].
  pose proof (exec_steps _ _ _ _ _ _ _ Hs Hc E) as Hst.
  split_and!; [eapply keeps_sound_exec; eauto | | auto].
  intros m' v s' Habs; destruct Hst as [Hother Hm].
  destruct (base.decide (m' = m)) as [-> | Hne]; [| eapply Hc; rewrite <- Habs; symmetry; auto].
  destruct Hm as [Hm | (v0 & s & s1 & H1 & H2 & H3)].
  - eapply Hc; rewrite <- Habs; symmetry; exact Hm.
  - rewrite H2 in Habs; injection Habs as <- <-; eapply astep_ok; eauto.
Qed.

Definition addressed (m : uuid) (r : request) : bool := snd (fst r) === m.
Definition actionsFor (m : uuid) (l : list request) : list Action :=
  map (fun r => actionOf (snd r)) (List.filter (addressed m) l).

Lemma serve_runs l : forall d m v s,
  sound d -> consistent d -> abs d m = Some (v, s) ->
  let d' := serve_all sha256 l d in
  sound d' /\ consistent d' /\
  exists s', abs d' m = Some (v, s') /\ aruns v (actionsFor m l) s s'.
Proof.
  induction l as [| [[clk m0] c] l IH]; intros d m v s Hs Hc Habs.
  - cbn; split_and!; auto; exists s; split; [exact Habs | apply runs_nil].
  - destruct (serve_step clk m0 c d Hs Hc) as (Hs1 & Hc1 & Hst); cbv zeta in *.
    unfold serve_all; cbn [fold_left]; fold (serve_all sha256 l (serve sha256 (clk, m0, c) d)).
    set (d1 := serve sha256 (clk, m0, c) d) in *.
    assert (H1 : exists s1, abs d1 m = Some (v, s1) /\
      forall acts s', aruns v acts s1 s' ->
        aruns v (if m0 === m then actionOf c :: acts else acts) s s').
    { destruct Hst as [E | [Hother Hm]].
      - rewrite E; exists s; split; [exact Habs |]; intros acts s' Hr.
        destruct (m0 === m); [apply runs_refuse, Hr | exact Hr].
      - destruct (base.decide (m0 = m)) as [-> | Hne].
        + rewrite bool_decide_eq_true_2 by reflexivity.
          destruct Hm as [Hm | (v0 & s0 & s1 & E1 & E2 & Hstep)].
          * exists s; split; [congruence | intros; apply runs_refuse; assumption].
          * rewrite E1 in Habs; injection Habs as -> ->; exists s1; split; [exact E2 |].
            intros; eapply runs_step; eauto.
        + rewrite bool_decide_eq_false_2 by exact Hne; exists s; split; [| auto].
          rewrite Hother by congruence; exact Habs. }
    destruct H1 as (s1 & Ha1 & Hruns).
    destruct (IH d1 m v s1 Hs1 Hc1 Ha1) as (Hs2 & Hc2 & s' & Ha2 & Hr); split_and!; auto.
    exists s'; split; [exact Ha2 |]; specialize (Hruns _ _ Hr).
    unfold actionsFor; cbn [List.filter]; unfold addressed at 1; cbn [fst snd].
    destruct (m0 === m); exact Hruns.
Qed.

(** C1: The services implement the abstract phase machine. Whatever requests arrive in
    whatever order, for any matches, each match runs through its phases as the abstract
    machine does on exactly the requests addressed to it, every one of which takes one
    abstract step or is refused; its rules version never changes. *)
Theorem engine_refines_phases l d m v s
    (Hs : sound d) (Hc : consistent d) (Habs : abs d m = Some (v, s)) :
  exists s', abs (serve_all sha256 l d) m = Some (v, s') /\ aruns v (actionsFor m l) s s'.
Proof. destruct (serve_runs l d m v s Hs Hc Habs) as (_ & _ & H); exact H. Qed.

(** C2: Phases stay well formed: after any requests every stored match, and every phase
    one of its applied operations can bring back, has a lifecycle, status and round that fit
    together and its rules (waiting exactly when not started, finished exactly when
    completed, suspended only in a resumable phase, appeal and overtime phases only under
    the current rules, the round number of its phase). *)
Theorem phases_stay_well_formed l d mr
    (Hs : sound d) (Hc : consistent d) (Hin : In mr (db_matches (serve_all sha256 l d))) :
  phase_ok (m_rulesVersion mr) (phaseOf mr) = true /\
  forall o, In o (db_matchResultOperations (serve_all sha256 l d)) -> applied (m_id mr) o = true ->
    phase_ok (m_rulesVersion mr) (sv_previous (savedOf o)) = true.
Proof.
  assert (Hd : sound (serve_all sha256 l d) /\ consistent (serve_all sha256 l d)).
  { clear Hin; revert d Hs Hc; induction l as [| [[clk m0] c] l IH]; intros d Hs Hc; [auto |].
    destruct (serve_step clk m0 c d Hs Hc) as (Hs1 & Hc1 & _); apply (IH _ Hs1 Hc1). }
  set (d' := serve_all sha256 l d) in *; destruct Hd as [[Hwf _] Hc'].
  assert (Hm : find_first (fun x => m_id x === m_id mr) (db_matches d') = Some mr).
  { apply (wf_find_id matches d' _ mr (m_id mr) Hwf Hin); [reflexivity |].
    intros y; rewrite bool_decide_eq_true; cbn; split; congruence. }
  assert (E : abs d' (m_id mr) = Some (m_rulesVersion mr, astate (phaseOf mr) (savedIn (m_id mr) d')))
    by (unfold abs; rewrite Hm; reflexivity).
  destruct (Hc' _ _ _ E) as [Hp Hl]; split; [exact Hp |]; intros o Ho Ha.
  cbn in Hl; rewrite list.Forall_forall in Hl; apply Hl; apply list_elem_of_In, in_map, filter_In; auto.
Qed.

(** C3: A finished match stays finished until its results are cancelled, and a match is
    finished only by publication from its publication phase, by completion from its saved
    result, or by undoing the cancellation of a finished one; no request for another match
    does either. *)
Theorem finished_is_stable clk m0 c d m v s v' s'
    (Hs : sound d) (Hc : consistent d) (Habs : abs d m = Some (v, s))
    (Habs' : abs (serve sha256 (clk, m0, c) d) m = Some (v', s')) :
  (ph_status (a_phase s) = FINISHED -> ph_status (a_phase s') <> FINISHED ->
     m0 = m /\ exists i b, c = CancelResults i b) /\
  (ph_status (a_phase s) <> FINISHED -> ph_status (a_phase s') = FINISHED ->
     m0 = m /\
     ((exists i k t, c = Publish i k t) /\ ph_status (a_phase s) = RESULT_PUBLICATION_READY \/
      (exists i, c = CompleteMatch i) /\ ph_status (a_phase s) = AWAITING_RESULT_SAVE \/
      exists o i, c = UndoCancellation o i)).
Proof.
  destruct (serve_step clk m0 c d Hs Hc) as (_ & _ & Hst); cbv zeta in Hst.
  assert (H : s' = s \/ m0 = m /\ astep v (actionOf c) s s').
  { destruct Hst as [E | [Hother Hm]]; [rewrite E in Habs'; left; congruence |].
    destruct (base.decide (m = m0)) as [<- | Hne]; [| left; rewrite Hother in Habs' by exact Hne; congruence].
    destruct Hm as [Hm | (v0 & s0 & s1 & E1 & E2 & Hstep)]; [left; congruence |].
    rewrite E1 in Habs; injection Habs as -> ->; rewrite E2 in Habs'; injection Habs' as <- <-; auto. }
  destruct H as [-> | [-> Hstep]]; [split; contradiction |]; split.
  - intros Hf _; apply finished_moves in Hstep; [| eapply Hc; eauto | exact Hf].
    split; [reflexivity |]; destruct c; try discriminate Hstep; eauto.
  - intros Hne Hf; split; [reflexivity |].
    destruct (finishing_moves _ _ _ _ Hstep Hne Hf) as [[Ha Hst'] | [[Ha Hst'] | Ha]];
      destruct c; try discriminate Ha; eauto 10.
Qed.
End Theorems.

(** ** Scenario

    Match 10 from its start over its first round and a suspension to a take that resumes
    it, with a refused request for match 11 in between. *)
Definition noDigest (_ : json) : string := "digest".
Definition eveningRequests : list request :=
  [(at_time 1000, 10%N, StartRound everybody supervisor);
   (at_time 2000, 11%N, PauseRound supervisor);
   (at_time 121000, 10%N, ExpireRound 1000);
   (at_time 130000, 10%N, ExitMatch supervisor SUSPEND_KEEP_ROUND_1);
   (at_time 200000, 10%N, TakeMatch [61; 62; 63]%N crewIdentity)].

Definition waitingState : AState := astate (phase NOT_STARTED WAITING None) [].
Definition resumedState : AState :=
  astate (phase IN_PROGRESS BREAK (Some 1))
    [saved (phase IN_PROGRESS BREAK (Some 1)) BREAK (Some 1)].

(** The stored matches decide [consistent]. *)
Lemma consistent_stored d :
  forallb (fun mr => phase_ok (m_rulesVersion mr) (phaseOf mr) &&
    forallb (fun o => negb (applied (m_id mr) o) ||
        (phase_ok (m_rulesVersion mr) (sv_previous (savedOf o)) && (op_resultingStatus o !== FINISHED)))
      (db_matchResultOperations d)) (db_matches d) = true -> consistent d.
Proof.
  intros H m v s Habs; unfold abs in Habs.
  destruct (find_first _ (db_matches d)) as [mr |] eqn:E in Habs; [| discriminate].
  injection Habs as <- <-; apply find_first_some in E as [Hin Hid]; to_prop.
  rewrite forallb_forall in H; specialize (H mr Hin); apply andb_prop in H as [Hp Ho]; split; [exact Hp |].
  cbn; apply list.Forall_forall; intros sv Hsv; apply list_elem_of_In in Hsv.
  apply in_map_iff in Hsv as (o & <- & Ho'); apply filter_In in Ho' as [Hino Ha]; rewrite <- Hid in Ha.
  rewrite forallb_forall in Ho; specialize (Ho o Hino); rewrite Ha in Ho; cbn in Ho.
  apply andb_prop in Ho as [Ho1 Ho2]; to_prop; auto.
Qed.

Lemma unclaimedDB_consistent : consistent unclaimedDB.
Proof. apply consistent_stored; vm_compute; reflexivity. Defined.

Example evening_resumes :
  abs (serve_all noDigest eveningRequests unclaimedDB) 10 = Some (FAULT_APPEAL_OVERTIME_V2, resumedState).
Proof. vm_compute; reflexivity. Qed.

Lemma engine_refines_phases_witness :
  abs unclaimedDB 10 = Some (FAULT_APPEAL_OVERTIME_V2, waitingState) /\
  exists s', abs (serve_all noDigest eveningRequests unclaimedDB) 10 = Some (FAULT_APPEAL_OVERTIME_V2, s') /\
    aruns FAULT_APPEAL_OVERTIME_V2 [AStart; AExpire; AExit SUSPEND_KEEP_ROUND_1; ATake] waitingState s'.
Proof.
  split; [vm_compute; reflexivity |].
  exact (engine_refines_phases noDigest eveningRequests unclaimedDB 10 _ waitingState
           unclaimedDB_sound unclaimedDB_consistent eq_refl).
Defined.

Definition eveningMatch : MatchRow := Eval vm_compute in
  match db_matches (serve_all noDigest eveningRequests unclaimedDB) with x :: _ => x | [] => sampleMatch 0 WAITING NOT_STARTED None None end.

Lemma phases_stay_well_formed_witness :
  In eveningMatch (db_matches (serve_all noDigest eveningRequests unclaimedDB)) /\
  phase_ok (m_rulesVersion eveningMatch) (phaseOf eveningMatch) = true.
Proof.
  assert (H : In eveningMatch (db_matches (serve_all noDigest eveningRequests unclaimedDB)))
    by (vm_compute; left; reflexivity).
  split; [exact H |].
  exact (proj1 (phases_stay_well_formed noDigest eveningRequests unclaimedDB eveningMatch
                  unclaimedDB_sound unclaimedDB_consistent H)).
Defined.

(** Match 10 with its result saved under the earlier rules. *)
Definition savedResultDB : DB := Eval vm_compute in
  (sampleDB ((sampleMatch 10 AWAITING_RESULT_SAVE IN_PROGRESS (Some 2) (Some 0))
      <| m_rulesVersion := LEGACY_SCORE_PENALTY_V1 |>)
    [sampleRound 50 1 REGULATION 0 0 (Some 120000); sampleRound 51 2 REGULATION 0 150000 (Some 270000)]).
Lemma savedResultDB_sound : sound savedResultDB.
Proof. solve_sound. Qed.
Lemma savedResultDB_consistent : consistent savedResultDB.
Proof. apply consistent_stored; vm_compute; reflexivity. Defined.

Lemma finished_is_stable_witness :
  let d' := serve noDigest (at_time 300000, 10%N, CompleteMatch supervisor) savedResultDB in
  exists v s v' s', abs savedResultDB 10 = Some (v, s) /\ abs d' 10 = Some (v', s') /\
    ph_status (a_phase s) <> FINISHED /\ ph_status (a_phase s') = FINISHED /\
    10%N = 10%N /\ exists i, CompleteMatch supervisor = CompleteMatch i.
Proof.
  do 4 eexists; split; [vm_compute; reflexivity |]; split; [vm_compute; reflexivity |].
  split; [discriminate |]; split; [reflexivity |].
  edestruct (finished_is_stable noDigest (at_time 300000) 10 (CompleteMatch supervisor) savedResultDB 10)
    as [_ H]; [apply savedResultDB_sound | apply savedResultDB_consistent | vm_compute; reflexivity
              | vm_compute; reflexivity |].
  destruct H as [Hm _]; [discriminate | reflexivity |]; split; [exact Hm | eexists; reflexivity].
Defined.
