(* ===== verification/Sockets.v ===== *)
(** * Sockets

    realtime/realtime.gateway.ts and realtime.types.ts, the part that is about a socket: its data, its
    handshake, the session it is revalidated against before anything it asks for, the rooms it is in, its
    presence in a match, connecting and disconnecting, and what it is sent. The commands are in [Gateway].
    A handler runs on the server and on its own socket; joining a room and reading for a broadcast may fail
    as [Env] says. Log lines are left out. *)
From stdpp Require Import gmap sets.
From S2P Require Import Prelude Schema Database Rules Authorization Scoring Lifecycle Cancellation Exit Appeals Publication Sanctions Assignments Snapshots Redis BracketTokens Presence Sessions MatchAccess OfficialAccess.

(** ** Data (realtime.types.ts) *)

Inductive ConnectionKind : Type := ParticipantSocket | ScoreboardSocket | OfficialSocket.
#[export] Instance ConnectionKind_eq_dec : EqDecision ConnectionKind. Proof. solve_decision. Defined.

Record RealtimeSocketIdentity : Type := mkSocketIdentity {
  ri_deviceId : string; ri_matchId : uuid; ri_publicMatchId : string; ri_judgeSlot : option JudgeSlot; ri_role : MatchRole; ri_sessionId : uuid }.

Record OfficialSocketIdentity : Type := mkOfficialSocket { of_officialId : uuid; of_sessionId : uuid; of_tournamentId : uuid }.

Record RealtimeSocketData : Type := mkSocketData {
  sk_accessRole : option MatchAccessRole; sk_identity : option RealtimeSocketIdentity; sk_matchSessionToken : option string;
  sk_revoked : bool; sk_connectionKind : option ConnectionKind; sk_scoreboardMatchPublicId : option string;
  sk_officialSessionToken : option string; sk_officialIdentity : option OfficialSocketIdentity;
  sk_officialMatchPublicId : option string; sk_officialPresenceMatchPublicId : option string }.
#[export] Instance eta_RealtimeSocketData : Eta RealtimeSocketData := fun x => mkSocketData (sk_accessRole x) (sk_identity x)
  (sk_matchSessionToken x) (sk_revoked x) (sk_connectionKind x) (sk_scoreboardMatchPublicId x) (sk_officialSessionToken x)
  (sk_officialIdentity x) (sk_officialMatchPublicId x) (sk_officialPresenceMatchPublicId x).

(** The rooms (realtime.constants.ts) *)
Inductive SocketRoom : Type :=
  | matchRoom (publicMatchId : string) | officialRoom (officialId : uuid) | sessionRoom (sessionId : uuid)
  | tournamentRoom (tournamentId : uuid) | scoreboardRoom (publicMatchId : string).
#[export] Instance SocketRoom_eq_dec : EqDecision SocketRoom. Proof. solve_decision. Defined.

(** What is emitted ([ServerToClientEvents]) *)
Inductive ServerEvent : Type :=
  | EvSessionRevoked
  | EvMatchState (s : MatchStatePayload) | EvPublicMatchState (s : PublicMatchStatePayload)
  | EvPresenceUpdated (p : string * PresenceState * timestamp)
  | EvRoundStarted (t : RoundTransition) | EvRoundPaused (t : RoundTransition) | EvRoundResumed (t : RoundTransition)
  | EvRoundEnded (t : RoundTransition)
  | EvRoundCancelled (t : CancellationTransition) | EvMatchResetCompleted (t : CancellationTransition)
  | EvResultCancellationUndone (t : CancellationTransition)
  | EvResultPublished (t : PublicationResponse)
  | EvAssignmentReleased (matchId : uuid) (released : list uuid) | EvAssignmentUpdated (officialId : uuid)
  | EvScoringWindowOpened (w : WindowOpened) | EvScoringWindowResolved (t : ScoringResolutionTransition) | EvScoreUpdated (u : ScoreUpdated)
  | EvVoteAccepted (v : VoteAccepted) | EvVoteRejected (code : string) (publicMatchId : string)
  | EvFaultRecorded (t : FaultTransition) | EvPenaltyAdded (t : PenaltyTransition)
  | EvOfficialAssignmentSnapshot (v : ValidatedOfficialSession).

Inductive Target : Type := ToClient | ToRoom (r : SocketRoom).

(** The socket of a handler *)
Record Client : Type := mkClient { cl_id : string; cl_connected : bool; cl_rooms : list SocketRoom; cl_data : RealtimeSocketData }.
#[export] Instance eta_Client : Eta Client := fun x => mkClient (cl_id x) (cl_connected x) (cl_rooms x) (cl_data x).

(** The database, the registry with its Redis, the sessions told to close, the socket and what was sent *)
Record World : Type := mkWorld {
  wd_db : DB; wd_registry : Registry; wd_closed : list uuid; wd_client : Client; wd_sent : list (Target * ServerEvent) }.
#[export] Instance eta_World : Eta World := fun x => mkWorld (wd_db x) (wd_registry x) (wd_closed x) (wd_client x) (wd_sent x).

(** The instants of a handler, and the errors, if any, that joining a room and reading the state to show
    it end with *)
Record Env : Type := mkEnv { ev_now : timestamp; ev_clk : Clock; ev_joinError : option error; ev_readError : option error }.

(** ** Handlers *)

Definition Gw (A : Type) : Type := World -> result error A * World.
#[global] Instance gw_ret : MRet Gw := fun A a w => (Ok a, w).
#[global] Instance gw_bind : MBind Gw := fun A B k c w =>
  match c w with
  | (Ok a, w') => k a w'
  | (Err e, w') => (Err e, w')
  end.

Definition raise {A} (e : error) : Gw A := fun w => (Err e, w).
(** [try], with what it caught *)
Definition attempt {A} (c : Gw A) : Gw (result error A) := fun w => let '(r, w') := c w in (Ok r, w').
(** [.catch(log)] *)
Definition quietly {A} (c : Gw A) : Gw unit := _ ← attempt c; mret tt.
Definition asks {A} (f : World -> A) : Gw A := fun w => (Ok (f w), w).
Definition change (f : World -> World) : Gw unit := fun w => (Ok tt, f w).
Definition socketData : Gw RealtimeSocketData := asks (fun w => cl_data (wd_client w)).
Definition setClient (f : Client -> Client) : Gw unit := change (fun w => w <| wd_client := f (wd_client w) |>).
Definition setData (f : RealtimeSocketData -> RealtimeSocketData) : Gw unit := setClient (fun c => c <| cl_data := f (cl_data c) |>).
Definition emit (t : Target) (e : ServerEvent) : Gw unit := change (fun w => w <| wd_sent := wd_sent w ++ [(t, e)] |>).

(** A request of another service *)
Definition serverOf (w : World) : Server := mkServer (wd_db w) (rg_redis (wd_registry w)) (wd_closed w).
Definition inServer {A} (c : Req A) : Gw A := fun w =>
  let '(r, s) := c (serverOf w) in
  (r, w <| wd_db := sv_db s |> <| wd_registry := (wd_registry w) <| rg_redis := sv_redis s |> |> <| wd_closed := sv_closed s |>).
Definition stored {A} (c : DbM A) : Gw A := inServer (inDb c).
Definition registryStep {A} (f : Registry -> A * Registry) : Gw A := fun w =>
  let '(a, g) := f (wd_registry w) in (Ok a, w <| wd_registry := g |>).
Definition registryChange (f : Registry -> Registry) : Gw unit := registryStep (fun g => (tt, f g)).

Fixpoint eachOf {A} (f : A -> Gw unit) (l : list A) : Gw unit :=
  match l with [] => mret tt | a :: l => f a;; eachOf f l end.

(** The keys of an official's sockets in a match, as one page of a scan *)
Definition officialMatchKeys (now : timestamp) (publicId : string) (officialId : uuid) (g : Registry) : list RedisKey :=
  List.filter (fun k => set_ (lookupAt now k (rg_redis g)) &&
      match k with OfficialPresenceKey m o _ => (m === publicId) && (o === officialId) | _ => false end)
    (map fst (map_to_list (rg_redis g))).

(** The counts of the registry *)
Definition presenceOf (now : timestamp) (g : Registry) : Lifecycle.Presence :=
  mkPresence (fun m o => countKeys 100 0 [officialMatchKeys now m o g]) (fun m r => Presence.connectedSocketCount m r now g)
    (fun m => Presence.scoreboardConnectedCount m now g).

(** ** Cookies and the handshake *)

Definition MATCH_SESSION_COOKIE : string := "martial_arts_match_session".
Definition OFFICIAL_SESSION_COOKIE : string := "martial_arts_official_session".

(** [split(';')] *)
Fixpoint splitAt (sep : Ascii.ascii) (s : string) : list string :=
  match s with
  | EmptyString => [EmptyString]
  | String c rest =>
      if Ascii.eqb c sep then EmptyString :: splitAt sep rest
      else match splitAt sep rest with
           | part :: parts => String c part :: parts
           | [] => [String c EmptyString]
           end
  end.
Definition sliceFrom (n : nat) (s : string) : string := String.substring n (String.length s - n) s.

Section Gateway.
Context (config : MatchAccessConfig) (hashSessionToken : string -> string).
Context (officialHmac base64url : string -> string).
(** [decodeURIComponent], [None] where it throws *)
Context (decodeURIComponent : string -> option string).

(** [readCookie] *)
Definition readCookie (cookieHeader : option string) (name : string) : option string :=
  match cookieHeader with
  | None => None
  | Some header =>
      let prefix_ := (name +:+ "=")%string in
      match map (sliceFrom (String.length prefix_)) (List.filter (String.prefix prefix_) (map trim (splitAt (Ascii.ascii_of_nat 59) header))) with
      | [value] => decodeURIComponent value
      | _ => None
      end
  end.

(** [requestedScoreboardMatch] of the handshake's [auth] *)
Definition requestedScoreboardMatch (auth : json) : option string :=
  match readStr (jfield "mode" auth), readStr (jfield "matchPublicId" auth) with
  | Some mode, Some matchPublicId =>
      if mode !== "scoreboard"%string then None else
      let publicMatchId := upper (trim matchPublicId) in
      if (0 <? utf16Length publicMatchId) && (utf16Length publicMatchId <=? 32) then Some publicMatchId else None
  | _, _ => None
  end.

(** [accessRole]; a referee session without a slot throws. *)
Definition accessRole (identity : RealtimeSocketIdentity) : Gw MatchAccessRole :=
  match ri_role identity, ri_judgeSlot identity with
  | ROLE_SUPERVISOR, _ => mret ACCESS_SUPERVISOR
  | _, Some SLOT_JUDGE_1 => mret ACCESS_JUDGE_1
  | _, Some SLOT_JUDGE_2 => mret ACCESS_JUDGE_2
  | _, Some SLOT_JUDGE_3 => mret ACCESS_JUDGE_3
  | _, None => raise (InternalError "Referee session is missing its referee slot")
  end.

(** [socketIdentity] *)
Definition socketIdentity (s : ValidatedMatchSession) : RealtimeSocketIdentity :=
  mkSocketIdentity (vs_deviceId s) (vs_matchId s) (vs_matchPublicId s) (vs_judgeSlot s) (vs_role s) (vs_sessionId s).

(** Reading the state to show it *)
Definition shown {A} (e : Env) (c : Lifecycle.Presence -> DbM A) : Gw A :=
  match ev_readError e with
  | Some x => raise x
  | None => net ← asks (fun w => presenceOf (ev_now e) (wd_registry w)); stored (c net)
  end.
Definition snapshotFor (e : Env) (matchId : uuid) (viewer : option Viewer) : Gw MatchStatePayload :=
  shown e (fun net => snapshot net (ev_now e) matchId viewer).
Definition publicSnapshotFor (e : Env) (publicMatchId : string) : Gw PublicMatchStatePayload :=
  shown e (fun net => publicSnapshot net (ev_now e) publicMatchId).

(** [authenticate], the middleware of a connection *)
Definition authenticate (e : Env) (auth : json) (cookies : option string) : Gw unit :=
  match requestedScoreboardMatch auth with
  | Some requested =>
      s ← publicSnapshotFor e requested;
      setData (fun x => x <| sk_connectionKind := Some ScoreboardSocket |> <| sk_scoreboardMatchPublicId := Some (pu_publicId s) |>)
  | None =>
      match readCookie cookies OFFICIAL_SESSION_COOKIE with
      | Some token =>
          official ← inServer (OfficialAccess.resolveSession officialHmac base64url token (ev_now e));
          match official with
          | None => raise (InternalError "Invalid official session cookie")
          | Some v =>
              setData (fun x => x <| sk_connectionKind := Some OfficialSocket |> <| sk_officialSessionToken := Some token |>
                <| sk_officialIdentity := Some (mkOfficialSocket (vo_officialId v) (vo_sessionId v) (vo_tournamentId v)) |>
                <| sk_officialMatchPublicId := option_map as_matchPublicId (vo_activeAssignment v) |> <| sk_revoked := false |>)
          end
      | None =>
          match readCookie cookies MATCH_SESSION_COOKIE with
          | None => raise (InternalError "Missing match session cookie")
          | Some token =>
              session ← inServer (MatchAccess.resolveSession config hashSessionToken token (ev_now e));
              match session with
              | None => raise (InternalError "Invalid match session cookie")
              | Some v =>
                  role ← accessRole (socketIdentity v);
                  setData (fun x => x <| sk_accessRole := Some role |> <| sk_connectionKind := Some ParticipantSocket |>
                    <| sk_identity := Some (socketIdentity v) |> <| sk_matchSessionToken := Some token |> <| sk_revoked := false |>)
              end
          end
      end
  end.

(** ** The socket *)

(** [client.disconnect(true)], which leaves every room *)
Definition disconnect : Gw unit := setClient (fun c => c <| cl_connected := false |> <| cl_rooms := [] |>).

(** [revokeSocket] *)
Definition revokeSocket : Gw unit :=
  x ← socketData;
  if sk_revoked x then mret tt else
  setData (fun x => x <| sk_revoked := true |>);;
  emit ToClient EvSessionRevoked;;
  disconnect.

(** [isSocketUnavailable] *)
Definition isSocketUnavailable : Gw bool := asks (fun w => sk_revoked (cl_data (wd_client w)) || negb (cl_connected (wd_client w))).
Definition isScoreboardSocket : Gw bool := asks (fun w => sk_connectionKind (cl_data (wd_client w)) === Some ScoreboardSocket).

(** [client.join] and [client.leave] *)
Definition joinRoom (e : Env) (r : SocketRoom) : Gw unit :=
  match ev_joinError e with
  | Some x => raise x
  | None => setClient (fun c => c <| cl_rooms := if bool_decide (r ∈ cl_rooms c) then cl_rooms c else cl_rooms c ++ [r] |>)
  end.
Definition leaveRoom (r : SocketRoom) : Gw unit := setClient (fun c => c <| cl_rooms := List.filter (fun x => x !== r) (cl_rooms c) |>).

(** [sessionRegistry.revokeSessions], as far as this socket can tell: it is revoked when it is registered
    under one of the sessions, and disconnected when it is in the room of one. *)
Definition revokeSessions (ids : list uuid) : Gw unit :=
  inServer (Sessions.revokeSessions ids);;
  mine ← asks (fun w => bool_decide (cl_id (wd_client w) ∈ revokedSockets ids (wd_registry w)));
  (if mine : bool then revokeSocket else mret tt);;
  eachOf (fun id =>
    emit (ToRoom (sessionRoom id)) EvSessionRevoked;;
    inside ← asks (fun w => bool_decide (sessionRoom id ∈ cl_rooms (wd_client w)));
    if inside : bool then disconnect else mret tt) ids.

(** [broadcastMatchState] *)
Definition broadcastMatchState (e : Env) (matchId : uuid) (expectedPublicId : string) : Gw unit :=
  s ← snapshotFor e matchId None;
  if mi_publicId (st_match s) !== expectedPublicId
  then raise (InternalError "Lifecycle snapshot did not match its authorized room") else
  emit (ToRoom (matchRoom expectedPublicId)) (EvMatchState s);;
  p ← publicSnapshotFor e expectedPublicId;
  emit (ToRoom (scoreboardRoom expectedPublicId)) (EvPublicMatchState p).

(** [broadcastPresence]; [presenceUpdated] on the match of the socket *)
Definition broadcastPresence (e : Env) (identity : RealtimeSocketIdentity) : Gw unit :=
  p ← shown e (fun net => presence net (ev_now e) (ri_matchId identity) (ri_publicMatchId identity));
  emit (ToRoom (matchRoom (ri_publicMatchId identity))) (EvPresenceUpdated (ri_publicMatchId identity, p, ev_now e)).

(** [broadcastOfficialPresence] *)
Definition broadcastOfficialPresence (e : Env) (matchPublicId : string) : Gw unit :=
  p ← shown e (fun net => presenceUpdatedForPublicMatch net (ev_now e) matchPublicId);
  emit (ToRoom (matchRoom matchPublicId)) (EvPresenceUpdated p).

(** [broadcastScoreboardPresence]: a match that is gone is passed over. *)
Definition broadcastScoreboardPresence (e : Env) (matchPublicId : string) : Gw unit :=
  r ← attempt (shown e (fun net => presenceUpdatedForPublicMatch net (ev_now e) matchPublicId));
  match r with
  | Ok p => emit (ToRoom (matchRoom matchPublicId)) (EvPresenceUpdated p)
  | Err (NotFound _) => mret tt
  | Err x => raise x
  end.

(** ** Sessions *)

(** [revalidate] *)
Definition sameIdentity (v : ValidatedMatchSession) (i : RealtimeSocketIdentity) : bool :=
  (vs_sessionId v === ri_sessionId i) && (vs_matchId v === ri_matchId i) && (vs_matchPublicId v === ri_publicMatchId i) &&
  (vs_role v === ri_role i) && (vs_judgeSlot v === ri_judgeSlot i) && (vs_deviceId v === ri_deviceId i).
Definition revalidate (e : Env) : Gw (option RealtimeSocketIdentity) :=
  x ← socketData;
  match sk_revoked x, sk_identity x, sk_matchSessionToken x with
  | false, Some original, Some token =>
      resolved ← inServer (MatchAccess.resolveSession config hashSessionToken token (ev_now e));
      match resolved with
      | Some v =>
          if sameIdentity v original
          then setData (fun x => x <| sk_identity := Some (socketIdentity v) |>);; mret (Some (socketIdentity v))
          else revokeSessions [ri_sessionId original];; revokeSocket;; mret None
      | None => revokeSessions [ri_sessionId original];; revokeSocket;; mret None
      end
  | _, _, _ => revokeSocket;; mret None
  end.

(** [revalidateOfficial]; a socket whose official is on another match, or on none, leaves the old one. *)
Definition sameOfficial (v : ValidatedOfficialSession) (i : OfficialSocketIdentity) : bool :=
  (vo_sessionId v === of_sessionId i) && (vo_officialId v === of_officialId i) && (vo_tournamentId v === of_tournamentId i).
Definition departMatch (e : Env) (original : OfficialSocketIdentity) : Gw unit :=
  me ← asks (fun w => cl_id (wd_client w));
  departed ← registryStep (leaveOfficialMatchPresence (of_sessionId original) me);
  setData (fun x => x <| sk_officialPresenceMatchPublicId := None |>);;
  match departed with
  | Some m => leaveRoom (matchRoom m);; broadcastOfficialPresence e m
  | None => mret tt
  end.
Definition revalidateOfficial (e : Env) : Gw (option ValidatedOfficialSession) :=
  x ← socketData;
  match sk_revoked x, sk_officialIdentity x, sk_officialSessionToken x with
  | false, Some original, Some token =>
      if token === EmptyString then revokeSocket;; mret None else
      resolved ← inServer (OfficialAccess.resolveSession officialHmac base64url token (ev_now e));
      match resolved with
      | Some v =>
          if sameOfficial v original then
            let nextMatch := option_map as_matchPublicId (vo_activeAssignment v) in
            setData (fun x => x <| sk_officialMatchPublicId := nextMatch |>);;
            (if set_ (sk_officialPresenceMatchPublicId x) && (sk_officialPresenceMatchPublicId x !== nextMatch)
             then departMatch e original else mret tt);;
            mret (Some v)
          else revokeSessions [of_sessionId original];; revokeSocket;; mret None
      | None => revokeSessions [of_sessionId original];; revokeSocket;; mret None
      end
  | _, _, _ => revokeSocket;; mret None
  end.

(** [ensureMatchRoomMembership] *)
Definition ensureMatchRoomMembership (e : Env) (identity : RealtimeSocketIdentity) : Gw bool :=
  gone ← isSocketUnavailable;
  if gone : bool then mret false else
  joined ← attempt (joinRoom e (matchRoom (ri_publicMatchId identity)));
  match joined with
  | Err _ => mret false
  | Ok _ => asks (fun w => negb (sk_revoked (cl_data (wd_client w)) || negb (cl_connected (wd_client w))) &&
                          bool_decide (matchRoom (ri_publicMatchId identity) ∈ cl_rooms (wd_client w)))
  end.

(** ** Connecting and disconnecting *)

(** [connectOfficial] *)
Definition connectOfficial (e : Env) : Gw unit :=
  v ← revalidateOfficial e;
  gone ← isSocketUnavailable;
  x ← socketData;
  match v, gone, sk_officialIdentity x with
  | Some v, false, Some identity =>
      me ← asks (fun w => cl_id (wd_client w));
      registryChange (registerOfficial (of_sessionId identity) me (mkOfficialRegistration None (of_officialId identity)) (ev_now e));;
      joinRoom e (sessionRoom (of_sessionId identity));;
      joinRoom e (officialRoom (of_officialId identity));;
      joinRoom e (tournamentRoom (of_tournamentId identity));;
      emit ToClient (EvOfficialAssignmentSnapshot v)
  | _, _, _ => mret tt
  end.

(** [connectScoreboard] *)
Definition connectScoreboard (e : Env) : Gw unit :=
  x ← socketData;
  match sk_scoreboardMatchPublicId x with
  | None => disconnect
  | Some publicMatchId =>
      me ← asks (fun w => cl_id (wd_client w));
      registryChange (registerScoreboard publicMatchId me (ev_now e));;
      gone ← isSocketUnavailable;
      if gone : bool then _ ← registryStep (unregisterScoreboard me (ev_now e)); mret tt else
      joinRoom e (scoreboardRoom publicMatchId);;
      quietly (broadcastScoreboardPresence e publicMatchId);;
      s ← publicSnapshotFor e publicMatchId;
      emit ToClient (EvPublicMatchState s)
  end.

(** [handleConnection] *)
Definition connectParticipant (e : Env) (identity : RealtimeSocketIdentity) (role : MatchAccessRole) : Gw unit :=
  me ← asks (fun w => cl_id (wd_client w));
  registryChange (register (ri_sessionId identity) me (mkRegistration role (ri_publicMatchId identity)) (ev_now e));;
  validated ← revalidate e;
  gone ← isSocketUnavailable;
  match validated, gone with
  | Some v, false =>
      joined ← ensureMatchRoomMembership e v;
      if joined : bool then quietly (broadcastPresence e v) else disconnect
  | _, _ => registryChange (unregister (ri_sessionId identity) me (ev_now e))
  end.
Definition handleConnection (e : Env) : Gw unit :=
  x ← socketData;
  match sk_connectionKind x with
  | Some ScoreboardSocket => connectScoreboard e
  | Some OfficialSocket => connectOfficial e
  | _ =>
      match sk_identity x, sk_accessRole x with
      | Some identity, Some role => connectParticipant e identity role
      | _, _ => disconnect
      end
  end.

(** [handleDisconnect] *)
Definition handleDisconnect (e : Env) : Gw unit :=
  x ← socketData;
  me ← asks (fun w => cl_id (wd_client w));
  match sk_connectionKind x with
  | Some ScoreboardSocket =>
      m ← registryStep (unregisterScoreboard me (ev_now e));
      match m with Some m => quietly (broadcastScoreboardPresence e m) | None => mret tt end
  | Some OfficialSocket =>
      match sk_officialIdentity x with
      | Some i => registryChange (unregister (of_sessionId i) me (ev_now e))
      | None => mret tt
      end;;
      match sk_officialPresenceMatchPublicId x with
      | Some m => quietly (broadcastOfficialPresence e m)
      | None => mret tt
      end
  | _ =>
      match sk_identity x with
      | None => mret tt
      | Some i => registryChange (unregister (ri_sessionId i) me (ev_now e));; quietly (broadcastPresence e i)
      end
  end.

(** ** Presence of officials in their match *)

(** [enterOfficialMatchPresence] *)
Definition enterMatch (e : Env) : Gw unit :=
  official ← revalidateOfficial e;
  gone ← isSocketUnavailable;
  x ← socketData;
  match v ← official; vo_activeAssignment v, sk_officialIdentity x, gone with
  | Some a, Some identity, false =>
      me ← asks (fun w => cl_id (wd_client w));
      match sk_officialPresenceMatchPublicId x with
      | Some previousMatch =>
          if previousMatch !== as_matchPublicId a then
            _ ← registryStep (leaveOfficialMatchPresence (of_sessionId identity) me);
            leaveRoom (matchRoom previousMatch);;
            broadcastOfficialPresence e previousMatch
          else mret tt
      | None => mret tt
      end;;
      entered ← registryStep (Presence.enterOfficialMatchPresence (of_sessionId identity) me (as_matchPublicId a) (ev_now e));
      if negb entered then mret tt else
      setData (fun x => x <| sk_officialPresenceMatchPublicId := Some (as_matchPublicId a) |>);;
      joinRoom e (matchRoom (as_matchPublicId a));;
      broadcastOfficialPresence e (as_matchPublicId a)
  | _, _, _ => mret tt
  end.

(** [renewOfficialMatchPresence] *)
Definition renewMatch (e : Env) : Gw unit :=
  official ← revalidateOfficial e;
  x ← socketData;
  match v ← official; vo_activeAssignment v, sk_officialIdentity x, sk_officialPresenceMatchPublicId x with
  | Some a, Some identity, Some matchPublicId =>
      if as_matchPublicId a !== matchPublicId then mret tt else
      me ← asks (fun w => cl_id (wd_client w));
      _ ← registryStep (Presence.enterOfficialMatchPresence (of_sessionId identity) me matchPublicId (ev_now e));
      mret tt
  | _, _, _ => mret tt
  end.

(** [leaveOfficialMatchPresence]: also for a socket whose session has ended *)
Definition leaveMatch (e : Env) : Gw unit :=
  x ← socketData;
  match sk_officialIdentity x with
  | None => mret tt
  | Some identity =>
      me ← asks (fun w => cl_id (wd_client w));
      m ← registryStep (Presence.leaveOfficialMatchPresence (of_sessionId identity) me);
      setData (fun x => x <| sk_officialPresenceMatchPublicId := None |>);;
      match m with
      | Some m => leaveRoom (matchRoom m);; broadcastOfficialPresence e m
      | None => mret tt
      end
  end.

(** ** Requests for the state *)

(** The viewer an assigned referee's snapshot is for *)
Definition officialViewer (a : ActiveAssignment) : option Viewer :=
  match as_role a, as_judgePosition a with OFFICIAL_JUDGE, Some p => Some (ViewerOfficial (as_id a) p) | _, _ => None end.

(** [matchStateRequest] *)
Definition matchStateRequest (e : Env) : Gw unit :=
  x ← socketData;
  if sk_connectionKind x === Some OfficialSocket then
    official ← revalidateOfficial e;
    match official with
    | Some v =>
        match vo_activeAssignment v with
        | Some a =>
            s ← snapshotFor e (as_matchId a) (officialViewer a);
            if mi_publicId (st_match s) !== as_matchPublicId a then revokeSessions [vo_sessionId v];; revokeSocket
            else emit ToClient (EvMatchState s)
        | None => mret tt
        end
    | None => mret tt
    end
  else
    identity ← revalidate e;
    match identity with
    | None => mret tt
    | Some i =>
        joined ← ensureMatchRoomMembership e i;
        if negb joined then mret tt else
        s ← snapshotFor e (ri_matchId i) (Some (ViewerLegacy (ri_judgeSlot i)));
        if mi_publicId (st_match s) !== ri_publicMatchId i then revokeSessions [ri_sessionId i]
        else emit ToClient (EvMatchState s)
    end.

(** [officialAssignmentSnapshotRequest] *)
Definition officialAssignmentSnapshotRequest (e : Env) : Gw unit :=
  v ← revalidateOfficial e;
  match v with Some v => emit ToClient (EvOfficialAssignmentSnapshot v) | None => mret tt end.

(** [publicMatchStateRequest] *)
Definition publicMatchStateRequest (e : Env) : Gw unit :=
  x ← socketData;
  match sk_connectionKind x, sk_scoreboardMatchPublicId x with
  | Some ScoreboardSocket, Some publicMatchId => s ← publicSnapshotFor e publicMatchId; emit ToClient (EvPublicMatchState s)
  | _, _ => disconnect
  end.

(** ** Authority *)

(** What a command is made in the name of: the match and the identity, taken from the socket only *)
Record SupervisorCommand : Type := mkSupervisorCommand {
  cm_identity : SupervisorCommandIdentity; cm_matchId : uuid; cm_publicMatchId : string }.

(** [supervisorCommand] *)
Definition supervisorCommand (e : Env) : Gw (option SupervisorCommand) :=
  x ← socketData;
  if sk_connectionKind x === Some OfficialSocket then
    official ← revalidateOfficial e;
    mret (v ← official; a ← vo_activeAssignment v;
          if as_role a === OFFICIAL_SUPERVISOR
          then Some (mkSupervisorCommand (IdOfficial (as_id a) (vo_officialId v) (vo_sessionId v)) (as_matchId a) (as_matchPublicId a))
          else None)
  else
    identity ← revalidate e;
    x ← socketData;
    mret (i ← identity; token ← sk_matchSessionToken x;
          if (token === EmptyString) || (ri_role i !== ROLE_SUPERVISOR) then None
          else Some (mkSupervisorCommand (IdLegacy (ri_sessionId i) (hashSessionToken token)) (ri_matchId i) (ri_publicMatchId i))).

(** [ensureCommandRoomMembership] *)
Definition ensureCommandRoomMembership (e : Env) (publicMatchId : string) : Gw bool :=
  x ← socketData;
  if sk_connectionKind x !== Some OfficialSocket then
    match sk_identity x with Some i => ensureMatchRoomMembership e i | None => mret false end
  else
    gone ← isSocketUnavailable;
    if gone : bool then mret false else
    joinRoom e (matchRoom publicMatchId);;
    asks (fun w => negb (sk_revoked (cl_data (wd_client w)) || negb (cl_connected (wd_client w))) &&
                   bool_decide (matchRoom publicMatchId ∈ cl_rooms (wd_client w))).

(** [revokeCommandSocket] *)
Definition revokeCommandSocket (identity : SupervisorCommandIdentity) : Gw unit :=
  revokeSessions [match identity with IdLegacy sessionId _ => sessionId | IdOfficial _ _ officialSessionId => officialSessionId end];;
  revokeSocket.
End Gateway.

(** ** Laws of handlers *)

Lemma gw_bind_ok {A B} (c : Gw A) (k : A -> Gw B) w b w' :
  (c ≫= k) w = (Ok b, w') <-> exists a w1, c w = (Ok a, w1) /\ k a w1 = (Ok b, w').
Proof.
  unfold mbind, gw_bind; split.
  - destruct (c w) as [[a | e] w1]; [intros H; eauto | discriminate].
  - intros (a & w1 & -> & H); exact H.
Qed.
Lemma gw_bind_step {A B} (c : Gw A) (k : A -> Gw B) w a w1 : c w = (Ok a, w1) -> (c ≫= k) w = k a w1.
Proof. unfold mbind, gw_bind; intros ->; reflexivity. Qed.
Lemma gw_bind_err {A B} (c : Gw A) (k : A -> Gw B) w e w1 : c w = (Err e, w1) -> (c ≫= k) w = (Err e, w1).
Proof. unfold mbind, gw_bind; intros ->; reflexivity. Qed.
Lemma gw_ret_ok {A} (a b : A) w w' : mret (M:=Gw) a w = (Ok b, w') <-> a = b /\ w = w'.
Proof. unfold mret, gw_ret; split; [intros H; inv H; auto | intros [-> ->]; reflexivity]. Qed.

(** A transaction of the handler commits, or leaves the world as it was. *)
Lemma stored_ok {A} (c : DbM A) a w w' : stored c w = (Ok a, w') <-> exists d', c (wd_db w) = Ok (a, d') /\ w' = w <| wd_db := d' |>.
Proof.
  unfold stored, inServer, inDb; cbn; destruct (c (wd_db w)) as [[x d] | e]; split.
  - intros H; inv H; exists d; split; [reflexivity | destruct w as [? [] ? ? ?]; reflexivity].
  - intros (d' & H & ->); inv H; destruct w as [? [] ? ? ?]; reflexivity.
  - discriminate.
  - intros (d' & H & _); discriminate.
Qed.
Lemma stored_err {A} (c : DbM A) e w w' : stored c w = (Err e, w') <-> c (wd_db w) = Err e /\ w' = w.
Proof.
  unfold stored, inServer, inDb; cbn; destruct (c (wd_db w)) as [[x d] | e0]; split.
  - discriminate.
  - intros [H _]; discriminate.
  - intros H; inv H; split; [reflexivity | destruct w as [? [] ? ? ?]; reflexivity].
  - intros [H ->]; inv H; destruct w as [? [] ? ? ?]; reflexivity.
Qed.

(** *** Relations handlers respect, whether they end or throw *)
Definition gleads (R : World -> World -> Prop) {A} (c : Gw A) : Prop := forall w r w', c w = (r, w') -> R w w'.

Section Leads.
Context (R : World -> World -> Prop) `{!PreOrder R}.
Lemma gleads_ret {A} (a : A) : gleads R (mret (M:=Gw) a).
Proof. intros w r w' H; inv H; reflexivity. Qed.
Lemma gleads_raise {A} e : gleads R (raise (A:=A) e).
Proof. intros w r w' H; inv H; reflexivity. Qed.
Lemma gleads_bind {A B} (c : Gw A) (k : A -> Gw B) : gleads R c -> (forall a, gleads R (k a)) -> gleads R (c ≫= k).
Proof.
  intros Hc Hk w r w' H; unfold mbind, gw_bind in H; destruct (c w) as [[a | e] w1] eqn:E.
  - transitivity w1; [exact (Hc _ _ _ E) | exact (Hk a _ _ _ H)].
  - inv H; exact (Hc _ _ _ E).
Qed.
Lemma gleads_attempt {A} (c : Gw A) : gleads R c -> gleads R (attempt c).
Proof. intros Hc w r w' H; unfold attempt in H; destruct (c w) as [r1 w1] eqn:E; inv H; exact (Hc _ _ _ E). Qed.
Lemma gleads_quietly {A} (c : Gw A) : gleads R c -> gleads R (quietly c).
Proof. intros Hc; apply gleads_bind; [apply gleads_attempt, Hc | intros a; apply gleads_ret]. Qed.
Lemma gleads_asks {A} (f : World -> A) : gleads R (asks f).
Proof. intros w r w' H; inv H; reflexivity. Qed.
Lemma gleads_eachOf {A} (f : A -> Gw unit) l : (forall a, gleads R (f a)) -> gleads R (eachOf f l).
Proof. intros Hf; induction l as [| a l IH]; cbn; [apply gleads_ret | apply gleads_bind; auto]. Qed.
End Leads.

(** The database as it was, and the database as it was but for the rows of sessions: what resolving a
    session touches *)
Definition still (w w' : World) : Prop := wd_db w' = wd_db w.
Definition sessionTables : list table := [matchSessions; tournamentOfficialSessions].
Definition sessionsTouched (d d' : DB) : Prop := touches sessionTables d d' /\ keeps_sound d d'.
Definition idle (w w' : World) : Prop := sessionsTouched (wd_db w) (wd_db w').
#[export] Instance sessionsTouched_preorder : PreOrder sessionsTouched.
Proof. split; [intros d; split; reflexivity | intros d1 d2 d3 [H1 K1] [H2 K2]; split; etransitivity; eassumption]. Qed.
#[export] Instance still_preorder : PreOrder still.
Proof. split; [intros w; reflexivity | intros w1 w2 w3 H1 H2; unfold still in *; congruence]. Qed.
#[export] Instance idle_preorder : PreOrder idle.
Proof. split; [intros w; unfold idle; reflexivity | intros w1 w2 w3 H1 H2; unfold idle in *; etransitivity; eassumption]. Qed.
Lemma still_idle w w' : still w w' -> idle w w'.
Proof. unfold still, idle; intros ->; reflexivity. Qed.
Lemma gleads_still_idle {A} (c : Gw A) : gleads still c -> gleads idle c.
Proof. intros Hc w r w' H; exact (still_idle _ _ (Hc _ _ _ H)). Qed.

Lemma still_change f : (forall w, wd_db (f w) = wd_db w) -> gleads still (change f).
Proof. intros Hf w r w' H; inv H; apply Hf. Qed.
Lemma still_setClient f : gleads still (setClient f).
Proof. apply still_change; reflexivity. Qed.
Lemma still_emit t ev : gleads still (emit t ev).
Proof. apply still_change; reflexivity. Qed.
Lemma still_registryStep {A} (f : Registry -> A * Registry) : gleads still (registryStep f).
Proof. intros w r w' H; unfold registryStep in H; destruct (f (wd_registry w)); inv H; reflexivity. Qed.
Lemma still_stored {A} (c : DbM A) : respects eq c -> gleads still (stored c).
Proof.
  intros Hc w r w' H; destruct r as [a | e].
  - apply stored_ok in H as (d' & H & ->); symmetry; exact (Hc _ _ _ H).
  - apply stored_err in H as [_ ->]; reflexivity.
Qed.
Lemma still_revokes ids : gleads still (inServer (Sessions.revokeSessions ids)).
Proof. intros w r w' H; inv H; reflexivity. Qed.

#[export] Hint Resolve gleads_ret gleads_raise gleads_asks still_setClient still_emit still_registryStep still_revokes : gw.
#[export] Hint Extern 1 (PreOrder _) => typeclasses eauto : gw.

(** Takes a handler apart. *)
Ltac gw_step :=
  match goal with
  | |- forall _, _ => intro
  | |- gleads _ (_ ≫= _) => apply gleads_bind; [typeclasses eauto | |]
  | |- gleads _ (quietly _) => apply gleads_quietly; [typeclasses eauto |]
  | |- gleads _ (attempt _) => apply gleads_attempt
  | |- gleads _ (eachOf _ _) => apply gleads_eachOf; [typeclasses eauto |]
  | |- gleads _ (match ?x with _ => _ end) => destruct x
  | |- gleads _ (let '_ := ?x in _) => destruct x
  end.
Ltac gleads_auto := repeat (first [solve [eauto 3 with gw] | gw_step]).

Lemma still_shown {A} e (c : Lifecycle.Presence -> DbM A) : (forall net, respects eq (c net)) -> gleads still (shown e c).
Proof. intros Hc; unfold shown; gleads_auto; apply still_stored; auto. Qed.

Lemma reads_snapshot net now id v : respects eq (snapshot net now id v).
Proof. intros d s d' H; apply snapshot_ok in H as (m & l & -> & _); reflexivity. Qed.
Lemma reads_publicSnapshot net now p : respects eq (publicSnapshot net now p).
Proof. unfold publicSnapshot; respects_auto; apply reads_snapshot. Qed.
Lemma reads_presenceUpdated net now p : respects eq (presenceUpdatedForPublicMatch net now p).
Proof. unfold presenceUpdatedForPublicMatch; respects_auto. Qed.

Lemma still_snapshotFor e id v : gleads still (snapshotFor e id v).
Proof. apply still_shown; intros net; apply reads_snapshot. Qed.
Lemma still_publicSnapshotFor e p : gleads still (publicSnapshotFor e p).
Proof. apply still_shown; intros net; apply reads_publicSnapshot. Qed.
#[export] Hint Resolve still_snapshotFor still_publicSnapshotFor : gw.

Lemma still_disconnect : gleads still disconnect.
Proof. apply still_setClient. Qed.
Lemma still_setData f : gleads still (setData f).
Proof. apply still_setClient. Qed.
Lemma still_socketData : gleads still socketData.
Proof. apply gleads_asks; typeclasses eauto. Qed.
#[export] Hint Resolve still_disconnect still_setData still_socketData : gw.
Lemma still_joinRoom e r : gleads still (joinRoom e r).
Proof. unfold joinRoom; gleads_auto. Qed.
Lemma still_leaveRoom r : gleads still (leaveRoom r).
Proof. apply still_setClient. Qed.
Lemma still_revokeSocket : gleads still revokeSocket.
Proof. unfold revokeSocket; gleads_auto. Qed.
#[export] Hint Resolve still_joinRoom still_leaveRoom still_revokeSocket : gw.
Lemma still_revokeSessions ids : gleads still (revokeSessions ids).
Proof. unfold revokeSessions; gleads_auto. Qed.
Lemma still_broadcastMatchState e m p : gleads still (broadcastMatchState e m p).
Proof. unfold broadcastMatchState; gleads_auto. Qed.
Lemma still_broadcastPresence e i : gleads still (broadcastPresence e i).
Proof. unfold broadcastPresence; gleads_auto; apply still_shown; intros net; apply respects_presence; typeclasses eauto. Qed.
Lemma still_broadcastOfficialPresence e p : gleads still (broadcastOfficialPresence e p).
Proof. unfold broadcastOfficialPresence; gleads_auto; apply still_shown; intros net; apply reads_presenceUpdated. Qed.
Lemma still_broadcastScoreboardPresence e p : gleads still (broadcastScoreboardPresence e p).
Proof. unfold broadcastScoreboardPresence; gleads_auto; apply still_shown; intros net; apply reads_presenceUpdated. Qed.
#[export] Hint Resolve still_revokeSessions still_broadcastMatchState still_broadcastPresence still_broadcastOfficialPresence
  still_broadcastScoreboardPresence : gw.
Lemma still_revokeCommandSocket i : gleads still (revokeCommandSocket i).
Proof. unfold revokeCommandSocket; gleads_auto. Qed.
Lemma still_ensureMatchRoomMembership e i : gleads still (ensureMatchRoomMembership e i).
Proof. unfold ensureMatchRoomMembership, isSocketUnavailable; gleads_auto. Qed.
#[export] Hint Resolve still_revokeCommandSocket still_ensureMatchRoomMembership : gw.
Lemma still_ensureCommandRoomMembership e p : gleads still (ensureCommandRoomMembership e p).
Proof. unfold ensureCommandRoomMembership, isSocketUnavailable; gleads_auto. Qed.
Lemma still_departMatch e i : gleads still (departMatch e i).
Proof. unfold departMatch; gleads_auto. Qed.
#[export] Hint Resolve still_ensureCommandRoomMembership still_departMatch : gw.

Lemma respects_both {A} (c : DbM A) : respects (touches sessionTables) c -> respects keeps_sound c -> respects sessionsTouched c.
Proof. intros H1 H2 d a d' H; split; [exact (H1 _ _ _ H) | exact (H2 _ _ _ H)]. Qed.

(** Resolving a session touches its table alone. *)
Lemma idle_resolveMatch config hash tok now : gleads idle (inServer (MatchAccess.resolveSession config hash tok now)).
Proof.
  intros w r w' H; unfold inServer, MatchAccess.resolveSession in H.
  destruct (negb (legacyAccessEnabled config)); [inv H; unfold idle; reflexivity |].
  destruct (negb (SESSION_TOKEN_PATTERN tok)); [inv H; unfold idle; reflexivity |].
  fold (stored (resolveTx (hash tok) now) w) in H; change (stored (resolveTx (hash tok) now) w = (r, w')) in H.
  assert (Hr : respects sessionsTouched (resolveTx (hash tok) now)).
  { apply respects_both; unfold resolveTx, deactivateStaleSessions, MatchAccess.findCurrentOwner; respects_auto. }
  destruct r as [a | x]; [apply stored_ok in H as (d' & H & ->); exact (Hr _ _ _ H) | apply stored_err in H as [_ ->]; unfold idle; reflexivity].
Qed.

Lemma respects_present R `{!PreOrder R} row : respects R (present row).
Proof. unfold present; respects_auto. Qed.
#[export] Hint Resolve respects_present : tx.

(** What leads a request leads a handler. *)
Lemma leads_inServer (R : DB -> DB -> Prop) {A} (c : Req A) : leads (fun s s' => R (sv_db s) (sv_db s')) c ->
  gleads (fun w w' => R (wd_db w) (wd_db w')) (inServer c).
Proof. intros Hc w r w' H; unfold inServer in H; destruct (c (serverOf w)) as [r0 s] eqn:E; inv H; exact (Hc _ _ _ E). Qed.

Lemma leads_inDb (R : DB -> DB -> Prop) `{!PreOrder R} {A} (c : DbM A) : respects R c -> leads (fun s s' => R (sv_db s) (sv_db s')) (inDb c).
Proof.
  intros Hc s r s' H; unfold inDb in H; destruct (c (sv_db s)) as [[a d] | e] eqn:E; inv H; [exact (Hc _ _ _ E) | reflexivity].
Qed.

Lemma idle_resolveOfficial hmac base64url tok now : gleads idle (inServer (OfficialAccess.resolveSession hmac base64url tok now)).
Proof.
  assert (P : PreOrder (fun s s' : Server => sessionsTouched (sv_db s) (sv_db s'))).
  { split; [intros s; reflexivity | intros s1 s2 s3 H1 H2; etransitivity; eassumption]. }
  assert (L : forall B (c : DbM B), respects (touches sessionTables) c -> respects keeps_sound c ->
    leads (fun s s' => sessionsTouched (sv_db s) (sv_db s')) (inDb c)).
  { intros B c H1 H2; apply leads_inDb; [typeclasses eauto | apply respects_both; assumption]. }
  apply (leads_inServer sessionsTouched); unfold OfficialAccess.resolveSession.
  destruct (negb _); [apply leads_ret; exact P |]; apply leads_bind; [exact P | apply L; respects_auto |].
  intros [row |]; [| apply leads_ret; exact P]; apply leads_bind; [exact P | apply L; respects_auto |].
  intros v; apply leads_bind; [exact P | apply L; respects_auto |].
  intros n; destruct (n =? 0)%nat; apply leads_ret; exact P.
Qed.
#[export] Hint Resolve idle_resolveMatch idle_resolveOfficial gleads_still_idle : gw.

Section Sessions.
Context (config : MatchAccessConfig) (hashSessionToken : string -> string).
Context (officialHmac base64url : string -> string).

Lemma idle_revalidate e : gleads idle (revalidate config hashSessionToken e).
Proof. unfold revalidate; gleads_auto. Qed.
Lemma idle_revalidateOfficial e : gleads idle (revalidateOfficial officialHmac base64url e).
Proof. unfold revalidateOfficial; gleads_auto. Qed.
#[local] Hint Resolve idle_revalidate idle_revalidateOfficial : gw.
Lemma idle_supervisorCommand e : gleads idle (supervisorCommand config hashSessionToken officialHmac base64url e).
Proof. unfold supervisorCommand; gleads_auto. Qed.
Lemma idle_enterMatch e : gleads idle (enterMatch officialHmac base64url e).
Proof. unfold enterMatch, isSocketUnavailable; gleads_auto. Qed.
Lemma idle_renewMatch e : gleads idle (renewMatch officialHmac base64url e).
Proof. unfold renewMatch; gleads_auto. Qed.
Lemma idle_leaveMatch e : gleads idle (leaveMatch e).
Proof. unfold leaveMatch; gleads_auto. Qed.
Lemma idle_matchStateRequest e : gleads idle (matchStateRequest config hashSessionToken officialHmac base64url e).
Proof. unfold matchStateRequest; gleads_auto. Qed.
Lemma idle_assignmentRequest e : gleads idle (officialAssignmentSnapshotRequest officialHmac base64url e).
Proof. unfold officialAssignmentSnapshotRequest; gleads_auto. Qed.
Lemma idle_publicRequest e : gleads idle (publicMatchStateRequest e).
Proof. unfold publicMatchStateRequest; gleads_auto. Qed.
End Sessions.
#[export] Hint Resolve idle_revalidate idle_revalidateOfficial idle_supervisorCommand idle_enterMatch idle_renewMatch idle_leaveMatch
  idle_matchStateRequest idle_assignmentRequest idle_publicRequest : gw.

(** ** Authority

    In whose name a socket may command a match: the session its token resolves to now is that of the
    supervisor of the match, or of a judge. *)
Section Authority.
Context (config : MatchAccessConfig) (hashSessionToken : string -> string).
Context (officialHmac base64url : string -> string).

Definition officialHolder (e : Env) (w : World) (v : ValidatedOfficialSession) (a : ActiveAssignment) : Prop :=
  sk_revoked (cl_data (wd_client w)) = false /\
  exists tok s, sk_officialSessionToken (cl_data (wd_client w)) = Some tok /\
    OfficialAccess.resolveSession officialHmac base64url tok (ev_now e) (serverOf w) = (Ok (Some v), s) /\ vo_activeAssignment v = Some a.
Definition sessionHolder (e : Env) (w : World) (tok : string) (v : ValidatedMatchSession) : Prop :=
  sk_revoked (cl_data (wd_client w)) = false /\ sk_matchSessionToken (cl_data (wd_client w)) = Some tok /\
  exists s, MatchAccess.resolveSession config hashSessionToken tok (ev_now e) (serverOf w) = (Ok (Some v), s).

Definition supervises (e : Env) (w : World) (m : uuid) (i : SupervisorCommandIdentity) : Prop :=
  (exists v a, officialHolder e w v a /\ as_role a = OFFICIAL_SUPERVISOR /\ m = as_matchId a /\ i = IdOfficial (as_id a) (vo_officialId v) (vo_sessionId v)) \/
  (exists tok v, sessionHolder e w tok v /\ vs_role v = ROLE_SUPERVISOR /\ m = vs_matchId v /\ i = IdLegacy (vs_sessionId v) (hashSessionToken tok)).

Lemma inServer_ok {A} (c : Req A) a w w' : inServer c w = (Ok a, w') -> exists s, c (serverOf w) = (Ok a, s) /\ wd_client w' = wd_client w.
Proof. unfold inServer; destruct (c (serverOf w)) as [r s]; intros H; inv H; eauto. Qed.

Lemma revalidate_some e w i w' : revalidate config hashSessionToken e w = (Ok (Some i), w') ->
  exists tok v, sessionHolder e w tok v /\ i = socketIdentity v /\
    cl_data (wd_client w') = (cl_data (wd_client w)) <| sk_identity := Some i |> /\ cl_id (wd_client w') = cl_id (wd_client w) /\
    cl_connected (wd_client w') = cl_connected (wd_client w) /\ cl_rooms (wd_client w') = cl_rooms (wd_client w).
Proof.
  unfold revalidate; intros H; apply gw_bind_ok in H as (x & w1 & Hx & H); inv Hx.
  destruct (sk_revoked _) eqn:Er; [apply gw_bind_ok in H as (? & ? & _ & H); inv H |].
  destruct (sk_identity _) as [o |] eqn:Eo; [| apply gw_bind_ok in H as (? & ? & _ & H); inv H].
  destruct (sk_matchSessionToken _) as [tok |] eqn:Et; [| apply gw_bind_ok in H as (? & ? & _ & H); inv H].
  apply gw_bind_ok in H as ([v |] & w2 & Hv & H).
  - destruct (sameIdentity v o).
    + apply gw_bind_ok in H as (? & w3 & Hs & H); inv Hs; inv H; apply inServer_ok in Hv as (s & Hv & Hc).
      exists tok, v; cbn; rewrite Hc; split_and!; auto; unfold sessionHolder; eauto 10.
    + apply gw_bind_ok in H as (? & ? & _ & H); apply gw_bind_ok in H as (? & ? & _ & H); inv H.
  - apply gw_bind_ok in H as (? & ? & _ & H); apply gw_bind_ok in H as (? & ? & _ & H); inv H.
Qed.

Lemma revalidateOfficial_some e w v w' : revalidateOfficial officialHmac base64url e w = (Ok (Some v), w') ->
  sk_revoked (cl_data (wd_client w)) = false /\ exists tok s, sk_officialSessionToken (cl_data (wd_client w)) = Some tok /\
    OfficialAccess.resolveSession officialHmac base64url tok (ev_now e) (serverOf w) = (Ok (Some v), s).
Proof.
  unfold revalidateOfficial; intros H; apply gw_bind_ok in H as (x & w1 & Hx & H); inv Hx.
  destruct (sk_revoked _) eqn:Er; [apply gw_bind_ok in H as (? & ? & _ & H); inv H |]; split; [reflexivity |].
  destruct (sk_officialIdentity _) as [o |] eqn:Eo; [| apply gw_bind_ok in H as (? & ? & _ & H); inv H].
  destruct (sk_officialSessionToken _) as [tok |] eqn:Et; [| apply gw_bind_ok in H as (? & ? & _ & H); inv H].
  destruct (tok === EmptyString); [apply gw_bind_ok in H as (? & ? & _ & H); inv H |].
  apply gw_bind_ok in H as ([v0 |] & w2 & Hv & H).
  - destruct (sameOfficial v0 o).
    + apply gw_bind_ok in H as (? & w3 & _ & H); apply gw_bind_ok in H as (? & w4 & _ & H); inv H.
      apply inServer_ok in Hv as (s & Hv & _); eauto.
    + apply gw_bind_ok in H as (? & ? & _ & H); apply gw_bind_ok in H as (? & ? & _ & H); inv H.
  - apply gw_bind_ok in H as (? & ? & _ & H); apply gw_bind_ok in H as (? & ? & _ & H); inv H.
Qed.

(** A command is given in the name of the supervisor of its match. *)
Lemma supervisorCommand_some e w c w' : supervisorCommand config hashSessionToken officialHmac base64url e w = (Ok (Some c), w') ->
  supervises e w (cm_matchId c) (cm_identity c).
Proof.
  unfold supervisorCommand; intros H; apply gw_bind_ok in H as (x & w1 & Hx & H); inv Hx.
  destruct (sk_connectionKind _ === Some OfficialSocket); apply gw_bind_ok in H as (o & w2 & Ho & H).
  - apply gw_ret_ok in H as [H ->]; destruct o as [v |]; [| discriminate]; cbn in H.
    destruct (vo_activeAssignment v) as [a |] eqn:Ea; [| discriminate]; cbn in H.
    destruct (bool_decide_reflect (as_role a = OFFICIAL_SUPERVISOR)) as [Er |]; [| discriminate]; inv H.
    apply revalidateOfficial_some in Ho as (Hr & tok & s & Ht & Hv); left; exists v, a; split_and!; auto; unfold officialHolder; eauto 10.
  - apply gw_bind_ok in H as (x & w3 & Hx & H); inv Hx; apply gw_ret_ok in H as [H ->]; destruct o as [i |]; [| discriminate]; cbn in H.
    apply revalidate_some in Ho as (tok & v & Hh & -> & Hd & _); rewrite Hd in H; cbn in H.
    pose proof Hh as (_ & Ht & _); rewrite Ht in H; cbn in H.
    destruct (tok === EmptyString); [discriminate |]; cbn in H.
    destruct (bool_decide_reflect (vs_role v = ROLE_SUPERVISOR)) as [Er |]; [| discriminate]; inv H; right; exists tok, v; auto.
Qed.
End Authority.
