(* ===== verification/Gateway.v ===== *)
(** * Gateway

    realtime/realtime.gateway.ts, the commands: what a payload must look like, in whose name a command is
    given, the service it calls, how its errors are answered, and what is broadcast. [System] has the
    services' commands; the theorems compose the two: whatever sockets send, the store changes by the
    services' commands alone, given by the holder of a session, on the match of that session. *)
From stdpp Require Import sets relations.
From S2P Require Import Prelude Schema Database Rules Authorization Scenario Scoring Lifecycle Cancellation Exit Appeals Publication Sanctions Assignments Phases Snapshots Redis BracketTokens Presence Sessions MatchAccess OfficialAccess System Sockets.

(** ** Answers *)

Inductive Response (A : Type) : Type := Accepted (a : A) | Rejected (code : string).
Arguments Accepted {A} a.
Arguments Rejected {A} code.

Definition REALTIME_AUTHENTICATION_ERROR : string := "REALTIME_AUTHENTICATION_REQUIRED".
Definition SPORT_GROUP_RULES_NOT_IMPLEMENTED_ERROR : string := "SPORT_GROUP_RULES_NOT_IMPLEMENTED".
Definition ROUND_START_FORBIDDEN_ERROR : string := "ROUND_START_FORBIDDEN".
Definition ROUND_START_INVALID_STATE_ERROR : string := "ROUND_START_INVALID_STATE".
Definition ROUND_START_FAILED_ERROR : string := "ROUND_START_FAILED".
Definition ROUND_CONTROL_FORBIDDEN_ERROR : string := "ROUND_CONTROL_FORBIDDEN".
Definition ROUND_CONTROL_INVALID_STATE_ERROR : string := "ROUND_CONTROL_INVALID_STATE".
Definition ROUND_CONTROL_FAILED_ERROR : string := "ROUND_CONTROL_FAILED".
Definition MATCH_COMPLETION_NOT_READY_ERROR : string := "MATCH_COMPLETION_NOT_READY".
Definition MATCH_PARTICIPANTS_NOT_READY_ERROR : string := "MATCH_PARTICIPANTS_NOT_READY".
Definition VOTE_FORBIDDEN_ERROR : string := "VOTE_FORBIDDEN".
Definition VOTE_INVALID_ATHLETE_ERROR : string := "VOTE_INVALID_ATHLETE".
Definition VOTE_ALREADY_SUBMITTED_ERROR : string := "VOTE_ALREADY_SUBMITTED".
Definition VOTE_MATCH_NOT_RUNNING_ERROR : string := "VOTE_MATCH_NOT_RUNNING".
Definition ROUND_PAUSED_ERROR : string := "ROUND_PAUSED".
Definition RESULT_CANCELLATION_FORBIDDEN_ERROR : string := "RESULT_CANCELLATION_FORBIDDEN".
Definition RESULT_CANCELLATION_INVALID_STATE_ERROR : string := "RESULT_CANCELLATION_INVALID_STATE".
Definition RESULT_CANCELLATION_FAILED_ERROR : string := "RESULT_CANCELLATION_FAILED".
Definition BRACKET_PROGRESSION_LOCKED_ERROR : string := "BRACKET_PROGRESSION_LOCKED".
Definition RESET_UNDO_FORBIDDEN_ERROR : string := "RESET_UNDO_FORBIDDEN".
Definition RESET_UNDO_NOT_ALLOWED_ERROR : string := "RESET_UNDO_NOT_ALLOWED".
Definition RESET_UNDO_FAILED_ERROR : string := "RESET_UNDO_FAILED".
Definition VOTE_ROUND_ENDED_ERROR : string := "VOTE_ROUND_ENDED".
Definition VOTE_SCORING_WINDOW_PENDING_ERROR : string := "VOTE_SCORING_WINDOW_PENDING".
Definition VOTE_FAILED_ERROR : string := "VOTE_FAILED".
Definition PENALTY_FORBIDDEN_ERROR : string := "PENALTY_FORBIDDEN".
Definition PENALTY_INVALID_ATHLETE_ERROR : string := "PENALTY_INVALID_ATHLETE".
Definition PENALTY_LEGACY_ONLY_ERROR : string := "PENALTY_LEGACY_ONLY".
Definition PENALTY_MATCH_NOT_RUNNING_ERROR : string := "PENALTY_MATCH_NOT_RUNNING".
Definition PENALTY_ROUND_ENDED_ERROR : string := "PENALTY_ROUND_ENDED".
Definition PENALTY_FAILED_ERROR : string := "PENALTY_FAILED".

(** ** Payloads

    A payload is the value the client sent; strings of an enumeration and ids keep their type. An operation
    id that is no id, which the query refuses, is left out. *)

Definition MAX_MATCH_EXIT_TRACE_ID_LENGTH : Z := 128.
Definition MAX_REGULATION_APPEAL_POINTS : Z := 100.

Definition readColor (j : option json) : option AthleteColor := match j with Some (JColor c) => Some c | _ => None end.

(** [Object.keys] *)
Definition keysOf (fields : list (string * json)) : list string := remove_dups (map fst fields).
Definition only (names : list string) (fields : list (string * json)) : bool := forallb (fun k => bool_decide (k ∈ names)) (keysOf fields).

(** An optional trace id: [None] when it is refused *)
Definition readTrace (j : option json) (min_ : Z) : option (option string) :=
  match j with
  | None => Some None
  | Some (JStr s) => if (min_ <=? utf16Length s) && (utf16Length s <=? MAX_MATCH_EXIT_TRACE_ID_LENGTH) then Some (Some s) else None
  | Some _ => None
  end.
Definition readKey (j : option json) : option string :=
  match readStr j with Some s => if (1 <=? utf16Length s) && (utf16Length s <=? 255) then Some s else None | None => None end.

(** [isExitPayload], with the mode and the trace id *)
Definition isExitPayload (value : json) : option (MatchExitMode * option string) :=
  match jfield "mode" value, readTrace (jfield "traceId" value) 1 with
  | Some (JMode mode), Some traceId => Some (mode, traceId)
  | _, _ => None
  end.

(** [isVotePayload] and [isPenaltyPayload] *)
Definition isVotePayload (payload : json) : option AthleteColor := readColor (jfield "athlete" payload).

(** [normalizeFaultPayload] *)
Definition FAULT_INVALID_ATHLETE : string := "FAULT_INVALID_ATHLETE".
Definition FAULT_INVALID_SEVERITY : string := "FAULT_INVALID_SEVERITY".
Definition normalizeFaultPayload (payload : json) : AthleteColor * FaultSeverity * option string + string :=
  match payload with
  | JObj fields =>
      if negb (only ["athlete"; "severity"; "traceId"]%string fields) then inr FAULT_INVALID_SEVERITY else
      match readColor (jfield "athlete" payload) with
      | None => inr FAULT_INVALID_ATHLETE
      | Some athlete =>
          match readTrace (jfield "traceId" payload) 1 with
          | None => inr FAULT_INVALID_SEVERITY
          | Some traceId =>
              match default (JSeverity MINOR) (jfield "severity" payload) with
              | JSeverity severity => inl (athlete, severity, traceId)
              | _ => inr FAULT_INVALID_SEVERITY
              end
          end
      end
  | _ => inr FAULT_INVALID_SEVERITY
  end.

(** [isAppealPayload], with the appeal *)
Definition readPoints (j : option json) : option Z :=
  match j with Some (JNum n) => if (0 <=? n) && (n <=? MAX_REGULATION_APPEAL_POINTS) then Some n else None | _ => None end.
Definition readAdjustment (j : option json) : option (Z * Z) :=
  match j with
  | Some (JObj fields) =>
      if (length (keysOf fields) =? 2)%nat && only ["bonusPoints"; "penaltyPoints"]%string fields then
        b ← readPoints (jfield "bonusPoints" (JObj fields)); p ← readPoints (jfield "penaltyPoints" (JObj fields)); Some (b, p)
      else None
  | _ => None
  end.
Definition isAppealPayload (payload : json) : option AppealInput :=
  match payload with
  | JObj fields =>
      if negb (only ["RED"; "BLUE"; "idempotencyKey"; "traceId"]%string fields) then None else
      key ← readKey (jfield "idempotencyKey" payload);
      traceId ← readTrace (jfield "traceId" payload) 0;
      red ← readAdjustment (jfield "RED" payload);
      blue ← readAdjustment (jfield "BLUE" payload);
      Some (mkAppealInput (fun c => match c with RED => red.1 | BLUE => blue.1 end) (fun c => match c with RED => red.2 | BLUE => blue.2 end) key traceId)
  | _ => None
  end.

(** [isPublishPayload], with the key and the trace id *)
Definition isPublishPayload (payload : json) : option (string * option string) :=
  match payload with
  | JObj fields =>
      if negb (only ["idempotencyKey"; "traceId"]%string fields) then None else
      key ← readKey (jfield "idempotencyKey" payload); traceId ← readTrace (jfield "traceId" payload) 0; Some (key, traceId)
  | _ => None
  end.

(** [isResultCancellationUndoPayload] *)
Definition isResultCancellationUndoPayload (payload : json) : option uuid := readId (jfield "operationId" payload).

(** ** Handlers *)

Section Gateway.
Context (config : MatchAccessConfig) (hashSessionToken : string -> string).
Context (officialHmac base64url : string -> string) (sha256 : json -> string).

#[local] Notation supervisorCommand := (Sockets.supervisorCommand config hashSessionToken officialHmac base64url).
#[local] Notation revalidate := (Sockets.revalidate config hashSessionToken).
#[local] Notation revalidateOfficial := (Sockets.revalidateOfficial officialHmac base64url).

(** [try { body } catch (error) { recover }] *)
Definition tryWith {A} (body : Gw A) (recover : error -> Gw A) : Gw A :=
  r ← attempt body;
  match r with Ok a => mret a | Err x => recover x end.

(** A scoreboard is not let in, and neither is a socket without a command. *)
Definition supervised {A} (e : Env) (forbidden : string) (k : SupervisorCommand -> Gw (Response A)) : Gw (Response A) :=
  scoreboard ← isScoreboardSocket;
  if scoreboard : bool then mret (Rejected REALTIME_AUTHENTICATION_ERROR) else
  command ← supervisorCommand e;
  match command with None => mret (Rejected forbidden) | Some c => k c end.

(** Not in the room of the match: not let in either *)
Definition inRoom {A} (e : Env) (c : SupervisorCommand) (refusal : Gw (Response A)) (k : Gw (Response A)) : Gw (Response A) :=
  joined ← ensureCommandRoomMembership e (cm_publicMatchId c);
  if joined : bool then k else refusal.

(** The transaction of a command; what it throws is answered. *)
Definition commit {A B} (c : Gw A) (answer : error -> Gw (Response B)) (k : A -> Gw (Response B)) : Gw (Response B) :=
  r ← attempt c;
  match r with Err x => answer x | Ok a => k a end.

Definition reject {A} (code : string) : Gw (Response A) := mret (Rejected code).
(** The session of a command has ended meanwhile. *)
Definition dismiss {A} (c : SupervisorCommand) (code : string) : Gw (Response A) := revokeCommandSocket (cm_identity c);; reject code.

(** [publishRoundStarted] *)
Definition publishRoundStarted (e : Env) (t : RoundTransition) : Gw unit :=
  emit (ToRoom (matchRoom (tr_matchPublicId t))) (EvRoundStarted t);;
  broadcastMatchState e (tr_matchId t) (tr_matchPublicId t).

(** [publishRoundEnded], which the timer of a round calls; no transition of this service finishes a match. *)
Definition publishRoundEnded (e : Env) (t : RoundTransition) : Gw unit :=
  emit (ToRoom (matchRoom (tr_matchPublicId t))) (EvRoundEnded t);;
  broadcastMatchState e (tr_matchId t) (tr_matchPublicId t).

(** [publishScoringResolution] *)
Definition publishScoringResolution (e : Env) (t : ScoringResolutionTransition) : Gw unit :=
  let room := matchRoom (Scoring.rt_matchPublicId t) in
  emit (ToRoom room) (EvScoringWindowResolved t);;
  match rt_scoreUpdated t with Some u => emit (ToRoom room) (EvScoreUpdated u) | None => mret tt end;;
  broadcastMatchState e (Scoring.rt_matchId t) (Scoring.rt_matchPublicId t).

(** [publishPenaltyAdded] *)
Definition publishPenaltyAdded (e : Env) (t : PenaltyTransition) : Gw unit :=
  emit (ToRoom (matchRoom (pt_matchPublicId t))) (EvPenaltyAdded t);;
  emit (ToRoom (matchRoom (pt_matchPublicId t))) (EvScoreUpdated (pt_scoreUpdated t));;
  broadcastMatchState e (pt_matchId t) (pt_matchPublicId t).

(** [officialRouting.publishReleased] *)
Definition publishReleased (matchId : uuid) (matchPublicId : string) (released : list uuid) : Gw unit :=
  emit (ToRoom (matchRoom matchPublicId)) (EvAssignmentReleased matchId released);;
  eachOf (fun o => emit (ToRoom (officialRoom o)) (EvAssignmentReleased matchId released);;
                   emit (ToRoom (officialRoom o)) (EvAssignmentUpdated o)) released.
Definition publishIfReleased (matchId : uuid) (matchPublicId : string) (released : list uuid) : Gw unit :=
  match released with [] => mret tt | _ => publishReleased matchId matchPublicId released end.

(** [roundStart], and [overtimeStart], which is [roundStart] *)
Definition roundStart (e : Env) : Gw (Response MatchRoundState) :=
  supervised e ROUND_START_FORBIDDEN_ERROR (fun c =>
  inRoom e c (gone ← isSocketUnavailable; reject (if (gone : bool) then REALTIME_AUTHENTICATION_ERROR else ROUND_START_FAILED_ERROR)) (
  commit (net ← asks (fun w => presenceOf (ev_now e) (wd_registry w)); stored (startRound (ev_clk e) net (cm_matchId c) (cm_identity c)))
    (fun x => match x with
      | SportGroupRulesNotImplemented _ => reject SPORT_GROUP_RULES_NOT_IMPLEMENTED_ERROR
      | InactiveRoundStartSession => dismiss c REALTIME_AUTHENTICATION_ERROR
      | MatchParticipantsNotReady => reject MATCH_PARTICIPANTS_NOT_READY_ERROR
      | InvalidRoundStartState _ => reject ROUND_START_INVALID_STATE_ERROR
      | _ => reject ROUND_START_FAILED_ERROR
      end)
    (fun t => quietly (publishRoundStarted e t);; mret (Accepted (tr_round t))))).

(** [controlRound], for [roundPause] and [roundResume] *)
Definition controlRound (e : Env) (pause : bool) : Gw (Response MatchRoundState) :=
  supervised e ROUND_CONTROL_FORBIDDEN_ERROR (fun c =>
  inRoom e c (reject REALTIME_AUTHENTICATION_ERROR) (
  commit (stored (if pause then pauseRound (ev_clk e) (cm_matchId c) (cm_identity c) else resumeRound (ev_clk e) (cm_matchId c) (cm_identity c)))
    (fun x => match x with
      | SportGroupRulesNotImplemented _ => reject SPORT_GROUP_RULES_NOT_IMPLEMENTED_ERROR
      | InactiveRoundControlSession => dismiss c REALTIME_AUTHENTICATION_ERROR
      | InvalidRoundControlState _ => reject ROUND_CONTROL_INVALID_STATE_ERROR
      | _ => reject ROUND_CONTROL_FAILED_ERROR
      end)
    (fun t => emit (ToRoom (matchRoom (cm_publicMatchId c))) (if pause then EvRoundPaused t else EvRoundResumed t);;
       quietly (broadcastMatchState e (tr_matchId t) (cm_publicMatchId c));; mret (Accepted (tr_round t))))).

(** [completeMatch] of the gateway: kept for old clients *)
Definition completeMatchRequest : Gw (Response unit) := reject MATCH_COMPLETION_NOT_READY_ERROR.

(** [publishResult] *)
Definition publishResult (e : Env) (payload : json) : Gw (Response PublicationResponse) :=
  match isPublishPayload payload with
  | None => reject "RESULT_PUBLISH_INVALID_PAYLOAD"
  | Some (key, traceId) =>
      supervised e "RESULT_PUBLISH_FORBIDDEN" (fun c =>
      inRoom e c (reject "RESULT_PUBLISH_FORBIDDEN") (
      tryWith (
        t ← stored (publish sha256 (ev_clk e) (cm_matchId c) (cm_identity c) key traceId);
        emit (ToRoom (matchRoom (pr_matchPublicId t))) (EvResultPublished t);;
        publishIfReleased (pr_matchId t) (pr_matchPublicId t) (pr_releasedOfficialIds t);;
        broadcastMatchState e (pr_matchId t) (pr_matchPublicId t);;
        mret (Accepted t))
      (fun x => match x with
        | AppealIdentityError => dismiss c "RESULT_PUBLISH_STALE_ASSIGNMENT"
        | AppealStateError _ => reject "RESULT_PUBLISH_INVALID_STATE"
        | ResultPublicationConflict | BracketProgressionLocked => reject "RESULT_PUBLISH_CONFLICT"
        | _ => reject "RESULT_PUBLISH_FAILED"
        end)))
  end.

(** The answer to an appeal, with its scores when it is one on regulation *)
Record AppealCompleteResult : Type := mkAppealResult {
  ar_appealId : uuid; ar_matchId : uuid; ar_matchPublicId : string; ar_phase : MatchStatus; ar_regulation : option (SideScore * SideScore);
  ar_isTie : bool }.
Definition overtimeResult (t : OvertimeTransition) : AppealCompleteResult :=
  mkAppealResult (ot_appealId t) (ot_matchId t) (ot_matchPublicId t) (ot_phase t) None (ot_isTie t).
Definition regulationResult (t : RegulationTransition) : AppealCompleteResult :=
  mkAppealResult (Appeals.rt_appealId t) (Appeals.rt_matchId t) (Appeals.rt_matchPublicId t) (rt_phase t) (Some (rt_red t, rt_blue t)) (rt_isTie t).

(** The appeal is taken for one on overtime first, and for one on regulation when the state is wrong for that. *)
Definition eitherAppeal (e : Env) (c : SupervisorCommand) (payload : AppealInput) : Gw AppealCompleteResult :=
  tryWith (t ← stored (completeOvertime (ev_clk e) (cm_matchId c) (cm_identity c) payload); mret (overtimeResult t))
    (fun x => match x with
      | AppealStateError _ => t ← stored (completeRegulation (ev_clk e) (cm_matchId c) (cm_identity c) payload); mret (regulationResult t)
      | _ => raise x
      end).

(** [completeAppeal] *)
Definition completeAppeal (e : Env) (payload : json) : Gw (Response AppealCompleteResult) :=
  match isAppealPayload payload with
  | None => reject "APPEAL_INVALID_PAYLOAD"
  | Some input =>
      supervised e "APPEAL_FORBIDDEN" (fun c =>
      inRoom e c (reject REALTIME_AUTHENTICATION_ERROR) (
      tryWith (
        t ← eitherAppeal e c input;
        broadcastMatchState e (ar_matchId t) (ar_matchPublicId t);;
        mret (Accepted t))
      (fun x => match x with
        | AppealIdentityError => dismiss c "APPEAL_STALE_ASSIGNMENT"
        | AppealIdempotencyError => reject "APPEAL_IDEMPOTENCY_CONFLICT"
        | AppealStateError _ => reject "APPEAL_INVALID_STATE"
        | _ => reject "APPEAL_FAILED"
        end)))
  end.

Record OvertimeActionResult : Type := mkOvertimeAction {
  oa_match : uuid; oa_matchPublicId : string; oa_phase : MatchStatus; oa_attemptNumber : Z; oa_winner : option AthleteColor }.

(** [overtimeAction], for [restartOvertime] and [selectManualWinner] *)
Definition overtimeAction (e : Env) (invoke : SupervisorCommand -> DbM OvertimeActionResult) : Gw (Response OvertimeActionResult) :=
  supervised e "OVERTIME_ACTION_FORBIDDEN" (fun c =>
  inRoom e c (reject "OVERTIME_ACTION_FORBIDDEN") (
  tryWith (
    t ← stored (invoke c);
    broadcastMatchState e (oa_match t) (oa_matchPublicId t);;
    mret (Accepted t))
  (fun x => match x with
    | AppealIdentityError => dismiss c REALTIME_AUTHENTICATION_ERROR
    | AppealStateError _ => reject "OVERTIME_ACTION_INVALID_STATE"
    | _ => reject "OVERTIME_ACTION_FAILED"
    end))).
Definition restartAction (clk : Clock) (c : SupervisorCommand) : DbM OvertimeActionResult :=
  t ← restart clk (cm_matchId c) (cm_identity c);
  mret (mkOvertimeAction (Appeals.rs_matchId t) (rs_matchPublicId t) (rs_phase t) (Appeals.rs_attemptNumber t) None).
Definition winnerAction (clk : Clock) (winner : AthleteColor) (c : SupervisorCommand) : DbM OvertimeActionResult :=
  t ← manualWinner clk (cm_matchId c) (cm_identity c) winner;
  mret (mkOvertimeAction (mw_matchId t) (mw_matchPublicId t) (mw_phase t) (mw_attemptNumber t) (Some (mw_winner t))).
Definition restartOvertime (e : Env) : Gw (Response OvertimeActionResult) := overtimeAction e (restartAction (ev_clk e)).
Definition selectManualWinner (e : Env) (winner : json) : Gw (Response OvertimeActionResult) :=
  match readColor (Some winner) with
  | None => reject "OVERTIME_ACTION_INVALID_STATE"
  | Some w => overtimeAction e (winnerAction (ev_clk e) w)
  end.

(** [exitMatch] of the gateway *)
Definition exitRequest (e : Env) (payload : json) : Gw (Response (string * MatchExitMode)) :=
  supervised e "MATCH_EXIT_FORBIDDEN" (fun c =>
  match isExitPayload payload with
  | None => reject "MATCH_EXIT_FORBIDDEN"
  | Some (mode, _) =>
      inRoom e c (reject REALTIME_AUTHENTICATION_ERROR) (
      commit (stored (exitMatch (ev_clk e) (cm_matchId c) (cm_identity c) mode))
        (fun x => match x with
          | InactiveRoundStartSession | InactiveRoundControlSession => dismiss c REALTIME_AUTHENTICATION_ERROR
          | InvalidResultCancellationState _ => reject "MATCH_EXIT_INVALID_STATE"
          | _ => reject "MATCH_EXIT_FAILED"
          end)
        (fun t =>
           quietly (publishIfReleased (et_matchId t) (et_matchPublicId t) (et_releasedOfficialIds t);;
                    broadcastMatchState e (et_matchId t) (et_matchPublicId t));;
           mret (Accepted (et_matchPublicId t, et_mode t))))
  end).

(** [cancelResults], for [roundCancel] and [matchReset] *)
Definition cancelRequest (e : Env) (entireMatch : bool) : Gw (Response CancellationTransition) :=
  supervised e RESULT_CANCELLATION_FORBIDDEN_ERROR (fun c =>
  inRoom e c (reject REALTIME_AUTHENTICATION_ERROR) (
  commit (stored (cancelResults (ev_clk e) (cm_matchId c) (cm_identity c) entireMatch))
    (fun x => match x with
      | SportGroupRulesNotImplemented _ => reject SPORT_GROUP_RULES_NOT_IMPLEMENTED_ERROR
      | InactiveRoundControlSession => dismiss c REALTIME_AUTHENTICATION_ERROR
      | InvalidResultCancellationState _ => reject RESULT_CANCELLATION_INVALID_STATE_ERROR
      | BracketProgressionLocked => reject BRACKET_PROGRESSION_LOCKED_ERROR
      | _ => reject RESULT_CANCELLATION_FAILED_ERROR
      end)
    (fun t => emit (ToRoom (matchRoom (cm_publicMatchId c))) (if entireMatch then EvMatchResetCompleted t else EvRoundCancelled t);;
       quietly (broadcastMatchState e (ct_matchId t) (cm_publicMatchId c));; mret (Accepted t)))).

(** [undoResultCancellation] of the gateway: the payload is looked at between the scoreboard and the session. *)
Definition undoRequest (e : Env) (payload : json) : Gw (Response CancellationTransition) :=
  scoreboard ← isScoreboardSocket;
  if scoreboard : bool then reject REALTIME_AUTHENTICATION_ERROR else
  match isResultCancellationUndoPayload payload with
  | None => reject RESET_UNDO_NOT_ALLOWED_ERROR
  | Some operationId =>
      supervised e RESET_UNDO_FORBIDDEN_ERROR (fun c =>
      inRoom e c (reject REALTIME_AUTHENTICATION_ERROR) (
      commit (stored (undoResultCancellation (ev_clk e) (cm_matchId c) operationId (cm_identity c)))
        (fun x => match x with
          | SportGroupRulesNotImplemented _ => reject SPORT_GROUP_RULES_NOT_IMPLEMENTED_ERROR
          | InactiveRoundControlSession => dismiss c REALTIME_AUTHENTICATION_ERROR
          | ResultCancellationUndoNotAllowed => reject RESET_UNDO_NOT_ALLOWED_ERROR
          | BracketProgressionLocked => reject BRACKET_PROGRESSION_LOCKED_ERROR
          | _ => reject RESET_UNDO_FAILED_ERROR
          end)
        (fun t => emit (ToRoom (matchRoom (cm_publicMatchId c))) (EvResultCancellationUndone t);;
           quietly (broadcastMatchState e (ct_matchId t) (cm_publicMatchId c));; mret (Accepted t))))
  end.

(** The publication of an accepted vote: a window resolved before it, a window it opened, the vote *)
Definition publishVote (e : Env) (t : VoteSubmissionTransition) : Gw (Response VoteAccepted) :=
  match vs_resolvedBeforeAcceptance t with Some r => publishScoringResolution e r | None => mret tt end;;
  match vs_opened t with Some o => emit (ToRoom (matchRoom (wo_matchPublicId o))) (EvScoringWindowOpened o) | None => mret tt end;;
  emit ToClient (EvVoteAccepted (vs_accepted t));;
  mret (Accepted (vs_accepted t)).

(** [rejectVote] *)
Definition rejectVote {A} (matchPublicId : string) (code : string) : Gw (Response A) :=
  emit ToClient (EvVoteRejected code matchPublicId);; reject code.

(** [voteSubmit] of an assigned referee *)
Definition officialVote (e : Env) (payload : json) : Gw (Response VoteAccepted) :=
  official ← revalidateOfficial e;
  match (v ← official; a ← vo_activeAssignment v; if as_role a === OFFICIAL_JUDGE then Some (v, a) else None) with
  | None => reject VOTE_FORBIDDEN_ERROR
  | Some (v, a) =>
      match isVotePayload payload with
      | None => reject VOTE_INVALID_ATHLETE_ERROR
      | Some athlete =>
          tryWith (t ← stored (submitVote (ev_clk e) (mkVoteInput athlete (as_matchId a) (Some (vo_sessionId v)) None None)); publishVote e t)
            (fun x => match x with
              | DuplicateRefereeVote => reject VOTE_ALREADY_SUBMITTED_ERROR
              | InactiveVoteSession => reject REALTIME_AUTHENTICATION_ERROR
              | MatchNotRunningForVote => reject VOTE_MATCH_NOT_RUNNING_ERROR
              | RoundPausedForVote => reject ROUND_PAUSED_ERROR
              | RoundEndedForVote => reject VOTE_ROUND_ENDED_ERROR
              | PriorScoringWindowPending => reject VOTE_SCORING_WINDOW_PENDING_ERROR
              | _ => reject VOTE_FAILED_ERROR
              end)
      end
  end.

(** [voteSubmit] of a session of a security code *)
Definition legacyVote (e : Env) (payload : json) : Gw (Response VoteAccepted) :=
  identity ← revalidate e;
  match identity with
  | None => reject REALTIME_AUTHENTICATION_ERROR
  | Some i =>
      joined ← ensureMatchRoomMembership e i;
      if negb joined then reject REALTIME_AUTHENTICATION_ERROR else
      if (ri_role i !== ROLE_JUDGE) || (ri_judgeSlot i === None) then rejectVote (ri_publicMatchId i) VOTE_FORBIDDEN_ERROR else
      match isVotePayload payload with
      | None => rejectVote (ri_publicMatchId i) VOTE_INVALID_ATHLETE_ERROR
      | Some athlete =>
          tryWith (t ← stored (submitVote (ev_clk e) (mkVoteInput athlete (ri_matchId i) None (ri_judgeSlot i) (Some (ri_sessionId i)))); publishVote e t)
            (fun x => match x with
              | SportGroupRulesNotImplemented _ => rejectVote (ri_publicMatchId i) SPORT_GROUP_RULES_NOT_IMPLEMENTED_ERROR
              | InactiveVoteSession => revokeSessions [ri_sessionId i];; reject REALTIME_AUTHENTICATION_ERROR
              | DuplicateRefereeVote => rejectVote (ri_publicMatchId i) VOTE_ALREADY_SUBMITTED_ERROR
              | MatchNotRunningForVote => rejectVote (ri_publicMatchId i) VOTE_MATCH_NOT_RUNNING_ERROR
              | RoundPausedForVote => rejectVote (ri_publicMatchId i) ROUND_PAUSED_ERROR
              | RoundEndedForVote => rejectVote (ri_publicMatchId i) VOTE_ROUND_ENDED_ERROR
              | PriorScoringWindowPending => rejectVote (ri_publicMatchId i) VOTE_SCORING_WINDOW_PENDING_ERROR
              | _ => rejectVote (ri_publicMatchId i) VOTE_FAILED_ERROR
              end)
      end
  end.

(** [voteSubmit] *)
Definition voteSubmit (e : Env) (payload : json) : Gw (Response VoteAccepted) :=
  x ← socketData;
  if sk_connectionKind x === Some ScoreboardSocket then reject REALTIME_AUTHENTICATION_ERROR else
  if sk_connectionKind x === Some OfficialSocket then officialVote e payload else legacyVote e payload.

(** [faultRecord] *)
Definition faultRecord (e : Env) (payload : json) : Gw (Response FaultTransition) :=
  supervised e "FAULT_FORBIDDEN" (fun c =>
  inRoom e c (reject REALTIME_AUTHENTICATION_ERROR) (
  match normalizeFaultPayload payload with
  | inr code => reject code
  | inl (athlete, severity, traceId) =>
      tryWith (
        t ← stored (record (ev_clk e) (cm_matchId c) (cm_identity c) athlete severity traceId);
        emit (ToRoom (matchRoom (ft_matchPublicId t))) (EvFaultRecorded t);;
        broadcastMatchState e (ft_matchId t) (ft_matchPublicId t);;
        mret (Accepted t))
      (fun x => reject (match x with
        | InactiveFaultSupervisor => "FAULT_STALE_ASSIGNMENT"
        | FaultRoundPaused => "FAULT_ROUND_PAUSED"
        | FaultMatchNotRunning => "FAULT_MATCH_NOT_RUNNING"
        | FaultRoundEnded => "FAULT_ROUND_ENDED"
        | InvalidFaultState => "FAULT_INVALID_STATE"
        | _ => "FAULT_FAILED"
        end)%string)
  end)).

(** [penaltyAdd] *)
Definition penaltyAdd (e : Env) (payload : json) : Gw (Response PenaltyTransition) :=
  supervised e PENALTY_FORBIDDEN_ERROR (fun c =>
  inRoom e c (reject REALTIME_AUTHENTICATION_ERROR) (
  match isVotePayload payload with
  | None => reject PENALTY_INVALID_ATHLETE_ERROR
  | Some athlete =>
      tryWith (
        t ← stored (addPenalty (ev_clk e) (cm_matchId c) (cm_identity c) athlete);
        publishPenaltyAdded e t;;
        mret (Accepted t))
      (fun x => match x with
        | SportGroupRulesNotImplemented _ => reject SPORT_GROUP_RULES_NOT_IMPLEMENTED_ERROR
        | InactivePenaltySession => dismiss c REALTIME_AUTHENTICATION_ERROR
        | MatchNotRunningForPenalty => reject PENALTY_MATCH_NOT_RUNNING_ERROR
        | PenaltyLegacyOnly => reject PENALTY_LEGACY_ONLY_ERROR
        | RoundEndedForPenalty => reject PENALTY_ROUND_ENDED_ERROR
        | _ => reject PENALTY_FAILED_ERROR
        end)
  end)).

(** ** Messages *)

(** [RealtimeEvent]: what a socket may send, with its payload *)
Inductive SocketMessage : Type :=
  | MATCH_PRESENCE_ENTER | MATCH_PRESENCE_HEARTBEAT | MATCH_PRESENCE_LEAVE
  | MATCH_STATE_REQUEST | OFFICIAL_ASSIGNMENT_SNAPSHOT_REQUEST | PUBLIC_MATCH_STATE_REQUEST
  | ROUND_START | OVERTIME_START | ROUND_PAUSE | ROUND_RESUME | MATCH_COMPLETE
  | RESULT_PUBLISH (payload : json) | APPEAL_COMPLETE (payload : json) | OVERTIME_RESTART | OVERTIME_MANUAL_WINNER (winner : json)
  | MATCH_EXIT (payload : json) | ROUND_CANCEL | MATCH_RESET | RESULT_CANCELLATION_UNDO (payload : json)
  | VOTE_SUBMIT (payload : json) | FAULT_RECORD (payload : json) | PENALTY_ADD (payload : json).

(** The acknowledgement, without what it carries; a message without one is answered by nothing. *)
Definition ack {A} (c : Gw (Response A)) : Gw (Response unit) :=
  r ← c; mret (match r with Accepted _ => Accepted tt | Rejected code => Rejected code end).
Definition silent (c : Gw unit) : Gw (Response unit) := c;; mret (Accepted tt).

Definition handle (e : Env) (message : SocketMessage) : Gw (Response unit) :=
  match message with
  | MATCH_PRESENCE_ENTER => silent (enterMatch officialHmac base64url e)
  | MATCH_PRESENCE_HEARTBEAT => silent (renewMatch officialHmac base64url e)
  | MATCH_PRESENCE_LEAVE => silent (leaveMatch e)
  | MATCH_STATE_REQUEST => silent (matchStateRequest config hashSessionToken officialHmac base64url e)
  | OFFICIAL_ASSIGNMENT_SNAPSHOT_REQUEST => silent (officialAssignmentSnapshotRequest officialHmac base64url e)
  | PUBLIC_MATCH_STATE_REQUEST => silent (publicMatchStateRequest e)
  | ROUND_START | OVERTIME_START => ack (roundStart e)
  | ROUND_PAUSE => ack (controlRound e true)
  | ROUND_RESUME => ack (controlRound e false)
  | MATCH_COMPLETE => ack completeMatchRequest
  | RESULT_PUBLISH payload => ack (publishResult e payload)
  | APPEAL_COMPLETE payload => ack (completeAppeal e payload)
  | OVERTIME_RESTART => ack (restartOvertime e)
  | OVERTIME_MANUAL_WINNER winner => ack (selectManualWinner e winner)
  | MATCH_EXIT payload => ack (exitRequest e payload)
  | ROUND_CANCEL => ack (cancelRequest e false)
  | MATCH_RESET => ack (cancelRequest e true)
  | RESULT_CANCELLATION_UNDO payload => ack (undoRequest e payload)
  | VOTE_SUBMIT payload => ack (voteSubmit e payload)
  | FAULT_RECORD payload => ack (faultRecord e payload)
  | PENALTY_ADD payload => ack (penaltyAdd e payload)
  end.
End Gateway.

(** ** What a message does to the store *)

Definition identityOf (c : Command) : option SupervisorCommandIdentity :=
  match c with
  | StartRound _ i | PauseRound i | ResumeRound i | CancelResults i _ | UndoCancellation _ i | ExitMatch i _
  | CompleteRegulation i _ | CompleteOvertime i _ | RestartOvertime i | ManualWinner i _ | Publish i _ _ | RecordFault i _ _ _
  | AddPenalty i _ => Some i
  | _ => None
  end.

Section Effects.
Context (config : MatchAccessConfig) (hashSessionToken : string -> string).
Context (officialHmac base64url : string -> string) (sha256 : json -> string).
#[local] Notation supervises := (Sockets.supervises config hashSessionToken officialHmac base64url).
#[local] Notation sessionHolder := (Sockets.sessionHolder config hashSessionToken).
#[local] Notation officialHolder := (Sockets.officialHolder officialHmac base64url).

(** A vote is given in the name of a judge of the match. *)
Definition judges (e : Env) (w : World) (m : uuid) (c : Command) : Prop :=
  (exists v a athlete, officialHolder e w v a /\ as_role a = OFFICIAL_JUDGE /\ m = as_matchId a /\
     c = SubmitVote athlete (Some (vo_sessionId v)) None None) \/
  (exists tok v slot athlete, sessionHolder e w tok v /\ vs_role v = ROLE_JUDGE /\ vs_judgeSlot v = Some slot /\ m = vs_matchId v /\
     c = SubmitVote athlete None (Some slot) (Some (vs_sessionId v))).

Definition entitled (e : Env) (w : World) (m : uuid) (c : Command) : Prop :=
  (exists i, supervises e w m i /\ identityOf c = Some i) \/ judges e w m c.

(** The store is served at most one command that [P] allows, sessions apart. *)
Definition serves (e : Env) (P : uuid -> Command -> Prop) (d d' : DB) : Prop :=
  exists d1, sessionsTouched d d1 /\ (d' = d1 \/ exists m c, P m c /\ d' = serve sha256 (ev_clk e, m, c) d1).
Definition effects (e : Env) (P : uuid -> Command -> Prop) {A} (c : Gw A) (w : World) : Prop :=
  forall r w', c w = (r, w') -> serves e P (wd_db w) (wd_db w').

Lemma effects_idle e P {A} (c : Gw A) w : gleads idle c -> effects e P c w.
Proof. intros Hc r w' H; exists (wd_db w'); split; [exact (Hc _ _ _ H) | left; reflexivity]. Qed.

Lemma effects_bind e P {A B} (c : Gw A) (k : A -> Gw B) w : gleads idle c -> (forall a w1, c w = (Ok a, w1) -> effects e P (k a) w1) ->
  effects e P (c ≫= k) w.
Proof.
  intros Hc Hk r w' H; unfold mbind, gw_bind in H; destruct (c w) as [[a | x] w1] eqn:E.
  - destruct (Hk a w1 eq_refl r w' H) as (d1 & Ht & Hd); exists d1; split; [| exact Hd]; etransitivity; [exact (Hc _ _ _ E) | exact Ht].
  - inv H; exists (wd_db w'); split; [exact (Hc _ _ _ E) | left; reflexivity].
Qed.

Lemma effects_then e P {A B} (c : Gw A) (k : A -> Gw B) w : effects e P c w -> (forall a, gleads still (k a)) -> effects e P (c ≫= k) w.
Proof.
  intros Hc Hk r w' H; unfold mbind, gw_bind in H; destruct (c w) as [[a | x] w1] eqn:E.
  - unfold still in Hk; rewrite (Hk a _ _ _ H); exact (Hc _ _ E).
  - inv H; exact (Hc _ _ E).
Qed.

Lemma effects_attempt e P {A} (c : Gw A) w : effects e P c w -> effects e P (attempt c) w.
Proof. intros Hc r w' H; unfold attempt in H; destruct (c w) as [r1 w1] eqn:E; inv H; exact (Hc _ _ E). Qed.

Lemma effects_tryWith e P {A} (body : Gw A) recover w : effects e P body w -> (forall x, gleads still (recover x)) ->
  effects e P (tryWith body recover) w.
Proof. intros Hb Hr; apply effects_then; [apply effects_attempt, Hb | intros [a | x]; [apply gleads_ret; typeclasses eauto | apply Hr]]. Qed.

(** The transaction of a command is the command of the engine. *)
Lemma effects_stored e (P : uuid -> Command -> Prop) {A} (c : DbM A) m cmd w : P m cmd -> (forall d, exec sha256 (ev_clk e) m cmd d = run_ c d) -> effects e P (stored c) w.
Proof.
  intros HP Hx r w' H; exists (wd_db w); split; [reflexivity |]; destruct r as [a | x].
  - apply stored_ok in H as (d' & H & ->); right; exists m, cmd; split; [exact HP |]; cbn [serve]; unfold transaction; rewrite Hx; unfold run_.
    rewrite (bind_step _ _ _ _ _ H); reflexivity.
  - apply stored_err in H as [_ ->]; left; reflexivity.
Qed.

Lemma still_dismiss {A} c code : gleads still (dismiss (A:=A) c code).
Proof. unfold dismiss, reject; gleads_auto. Qed.
Lemma still_reject {A} code : gleads still (reject (A:=A) code).
Proof. apply gleads_ret; typeclasses eauto. Qed.
Lemma still_publishReleased m p l : gleads still (publishReleased m p l).
Proof. unfold publishReleased; gleads_auto. Qed.
#[local] Hint Resolve still_dismiss still_reject still_publishReleased : gw.
Lemma still_publishIfReleased m p l : gleads still (publishIfReleased m p l).
Proof. unfold publishIfReleased; gleads_auto. Qed.
Lemma still_publishRoundStarted e t : gleads still (publishRoundStarted e t).
Proof. unfold publishRoundStarted; gleads_auto. Qed.
Lemma still_publishScoringResolution e t : gleads still (publishScoringResolution e t).
Proof. unfold publishScoringResolution; gleads_auto. Qed.
Lemma still_publishPenaltyAdded e t : gleads still (publishPenaltyAdded e t).
Proof. unfold publishPenaltyAdded; gleads_auto. Qed.
#[local] Hint Resolve still_publishIfReleased still_publishRoundStarted still_publishScoringResolution still_publishPenaltyAdded : gw.
Lemma still_publishVote e t : gleads still (publishVote e t).
Proof. unfold publishVote; gleads_auto. Qed.
Lemma still_rejectVote {A} p code : gleads still (rejectVote (A:=A) p code).
Proof. unfold rejectVote; gleads_auto. Qed.
#[local] Hint Resolve still_publishVote still_rejectVote : gw.

Lemma effects_supervised e {A} forbidden (k : SupervisorCommand -> Gw (Response A)) w :
  (forall c w1, supervises e w (cm_matchId c) (cm_identity c) -> effects e (entitled e w) (k c) w1) ->
  effects e (entitled e w) (supervised config hashSessionToken officialHmac base64url e forbidden k) w.
Proof.
  intros Hk; unfold supervised; apply effects_bind; [unfold isScoreboardSocket; gleads_auto |]; intros s w1 H1; inv H1.
  destruct (_ === Some ScoreboardSocket); [apply effects_idle; gleads_auto |].
  apply effects_bind; [gleads_auto |]; intros [c |] w2 H2; [| apply effects_idle; gleads_auto].
  apply Hk; eapply supervisorCommand_some; exact H2.
Qed.

Lemma effects_inRoom e P {A} c (refusal k : Gw (Response A)) w : gleads still refusal -> (forall w1, effects e P k w1) ->
  effects e P (inRoom e c refusal k) w.
Proof.
  intros Hr Hk; unfold inRoom; apply effects_bind; [gleads_auto |]; intros [] w1 _; [apply Hk | apply effects_idle, gleads_still_idle, Hr].
Qed.

Lemma effects_commit e P {A B} (c : Gw A) answer (k : A -> Gw (Response B)) w : effects e P c w -> (forall x, gleads still (answer x)) ->
  (forall a, gleads still (k a)) -> effects e P (commit c answer k) w.
Proof. intros Hc Ha Hk; apply effects_then; [apply effects_attempt, Hc | intros [a | x]; auto]. Qed.

#[local] Notation handle := (handle config hashSessionToken officialHmac base64url sha256).

Lemma entitled_supervisor e w m i c : supervises e w m i -> identityOf c = Some i -> entitled e w m c.
Proof. intros H Hi; left; eauto. Qed.

Ltac by_command c := eapply (effects_stored _ _ _ _ c); [eapply entitled_supervisor; [eassumption | reflexivity] | reflexivity].
Ltac answers := intros; repeat case_match; gleads_auto.

Lemma effects_roundStart e w : effects e (entitled e w) (roundStart config hashSessionToken officialHmac base64url e) w.
Proof.
  apply effects_supervised; intros c w1 Hc; apply effects_inRoom; [unfold isSocketUnavailable; gleads_auto |]; intros w2.
  apply effects_commit; [| answers | answers]; apply effects_bind; [gleads_auto |]; intros net w3 _; by_command (StartRound net (cm_identity c)).
Qed.
Lemma effects_controlRound e b w : effects e (entitled e w) (controlRound config hashSessionToken officialHmac base64url e b) w.
Proof.
  apply effects_supervised; intros c w1 Hc; apply effects_inRoom; [gleads_auto |]; intros w2.
  apply effects_commit; [| answers | answers]; destruct b; [by_command (PauseRound (cm_identity c)) | by_command (ResumeRound (cm_identity c))].
Qed.
Lemma effects_publishResult e p w : effects e (entitled e w) (publishResult config hashSessionToken officialHmac base64url sha256 e p) w.
Proof.
  unfold publishResult; destruct (isPublishPayload p) as [[key tr] |]; [| apply effects_idle; gleads_auto].
  apply effects_supervised; intros c w1 Hc; apply effects_inRoom; [gleads_auto |]; intros w2.
  apply effects_tryWith; [| answers]; apply effects_then; [by_command (Publish (cm_identity c) key tr) | answers].
Qed.

Lemma tryWith_cases {A} (body : Gw A) recover w :
  tryWith body recover w = match body w with (Ok a, w1) => (Ok a, w1) | (Err x, w1) => recover x w1 end.
Proof. unfold tryWith, mbind, gw_bind, attempt; destruct (body w) as [[a | x] w1]; reflexivity. Qed.

(** Taking an appeal for one on overtime and then for one on regulation runs one of the two. *)
Lemma effects_eitherAppeal e w0 c input w : supervises e w0 (cm_matchId c) (cm_identity c) -> effects e (entitled e w0) (eitherAppeal e c input) w.
Proof.
  intros Hc r w' H; unfold eitherAppeal in H; rewrite tryWith_cases in H.
  destruct ((stored _ ≫= _) w) as [[t | x] w1] eqn:E in H.
  - assert (Hw : w' = w1) by (inv H; reflexivity); subst w'.
    revert E; refine (effects_then e (entitled e w0) _ _ w _ _ (Ok t) w1); [| intros a; apply gleads_ret; typeclasses eauto].
    by_command (CompleteOvertime (cm_identity c) input).
  - assert (w1 = w) as ->.
    { unfold mbind, gw_bind in E; destruct (stored _ w) as [[a | y] w2] eqn:E2; inv E; apply stored_err in E2 as [_ ->]; reflexivity. }
    assert (Hr : forall y, effects e (entitled e w0) (raise (A:=AppealCompleteResult) y) w) by (intros y; apply effects_idle; gleads_auto).
    destruct x; try (exact (Hr _ _ _ H)).
    revert H; refine (effects_then e (entitled e w0) _ _ w _ _ r w'); [| intros a; apply gleads_ret; typeclasses eauto].
    by_command (CompleteRegulation (cm_identity c) input).
Qed.
Lemma effects_completeAppeal e p w : effects e (entitled e w) (completeAppeal config hashSessionToken officialHmac base64url e p) w.
Proof.
  unfold completeAppeal; destruct (isAppealPayload p) as [input |]; [| apply effects_idle; gleads_auto].
  apply effects_supervised; intros c w1 Hc; apply effects_inRoom; [gleads_auto |]; intros w2.
  apply effects_tryWith; [| answers]; apply effects_then; [apply effects_eitherAppeal, Hc | answers].
Qed.

Lemma run_mapped {A B} (c : DbM A) (f : A -> B) d : run_ (t ← c; mret (f t)) d = run_ c d.
Proof.
  unfold run_; destruct (c d) as [[a d'] | x] eqn:E.
  - rewrite (bind_step _ _ _ _ _ E), (bind_step _ _ d (f a) d') by (rewrite (bind_step _ _ _ _ _ E); reflexivity); reflexivity.
  - rewrite (bind_err _ _ _ _ E), (bind_err _ _ d x) by (apply bind_err, E); reflexivity.
Qed.

Lemma effects_overtimeAction e invoke w :
  (forall c, exists cmd, identityOf cmd = Some (cm_identity c) /\ forall d, exec sha256 (ev_clk e) (cm_matchId c) cmd d = run_ (invoke c) d) ->
  effects e (entitled e w) (overtimeAction config hashSessionToken officialHmac base64url e invoke) w.
Proof.
  intros Hi; apply effects_supervised; intros c w1 Hc; apply effects_inRoom; [gleads_auto |]; intros w2.
  apply effects_tryWith; [| answers]; apply effects_then; [| answers]; destruct (Hi c) as (cmd & Hid & Hx).
  eapply effects_stored; [eapply entitled_supervisor; [exact Hc | exact Hid] | exact Hx].
Qed.
Lemma effects_exitRequest e p w : effects e (entitled e w) (exitRequest config hashSessionToken officialHmac base64url e p) w.
Proof.
  apply effects_supervised; intros c w1 Hc; destruct (isExitPayload p) as [[mode tr] |]; [| apply effects_idle; gleads_auto].
  apply effects_inRoom; [gleads_auto |]; intros w2; apply effects_commit; [| answers | answers]; by_command (ExitMatch (cm_identity c) mode).
Qed.
Lemma effects_cancelRequest e b w : effects e (entitled e w) (cancelRequest config hashSessionToken officialHmac base64url e b) w.
Proof.
  apply effects_supervised; intros c w1 Hc; apply effects_inRoom; [gleads_auto |]; intros w2.
  apply effects_commit; [| answers | answers]; by_command (CancelResults (cm_identity c) b).
Qed.
Lemma effects_undoRequest e p w : effects e (entitled e w) (undoRequest config hashSessionToken officialHmac base64url e p) w.
Proof.
  unfold undoRequest; apply effects_bind; [unfold isScoreboardSocket; gleads_auto |]; intros s w1 H1; inv H1.
  destruct (_ === Some ScoreboardSocket); [apply effects_idle; gleads_auto |].
  destruct (isResultCancellationUndoPayload p) as [oid |]; [| apply effects_idle; gleads_auto].
  apply effects_supervised; intros c w2 Hc; apply effects_inRoom; [gleads_auto |]; intros w3.
  apply effects_commit; [| answers | answers]; by_command (UndoCancellation oid (cm_identity c)).
Qed.
Lemma effects_faultRecord e p w : effects e (entitled e w) (faultRecord config hashSessionToken officialHmac base64url e p) w.
Proof.
  apply effects_supervised; intros c w1 Hc; apply effects_inRoom; [gleads_auto |]; intros w2.
  destruct (normalizeFaultPayload p) as [[[a s] tr] | code]; [| apply effects_idle; gleads_auto].
  apply effects_tryWith; [| answers]; apply effects_then; [by_command (RecordFault (cm_identity c) a s tr) | answers].
Qed.
Lemma effects_penaltyAdd e p w : effects e (entitled e w) (penaltyAdd config hashSessionToken officialHmac base64url e p) w.
Proof.
  apply effects_supervised; intros c w1 Hc; apply effects_inRoom; [gleads_auto |]; intros w2.
  destruct (isVotePayload p) as [a |]; [| apply effects_idle; gleads_auto].
  apply effects_tryWith; [| answers]; apply effects_then; [by_command (AddPenalty (cm_identity c) a) | answers].
Qed.
Lemma effects_officialVote e p w : effects e (entitled e w) (officialVote officialHmac base64url e p) w.
Proof.
  unfold officialVote; apply effects_bind; [gleads_auto |]; intros [v |] w1 Hv; cbn; [| apply effects_idle; gleads_auto].
  destruct (vo_activeAssignment v) as [a |] eqn:Ea; cbn; [| apply effects_idle; gleads_auto].
  destruct (bool_decide_reflect (as_role a = OFFICIAL_JUDGE)) as [Er |]; [| apply effects_idle; gleads_auto].
  destruct (isVotePayload p) as [athlete |]; [| apply effects_idle; gleads_auto].
  apply revalidateOfficial_some in Hv as (Hr & tok & s & Ht & Hv).
  apply effects_tryWith; [| answers]; apply effects_then; [| answers].
  eapply (effects_stored _ _ _ _ (SubmitVote athlete (Some (vo_sessionId v)) None None)); [| reflexivity].
  right; left; exists v, a, athlete; unfold Sockets.officialHolder; split_and!; eauto 10.
Qed.
Lemma effects_legacyVote e p w : effects e (entitled e w) (legacyVote config hashSessionToken e p) w.
Proof.
  unfold legacyVote; apply effects_bind; [gleads_auto |]; intros [i |] w1 Hv; [| apply effects_idle; gleads_auto].
  apply effects_bind; [gleads_auto |]; intros [] w2 _; cbn [negb]; [| apply effects_idle; gleads_auto].
  apply revalidate_some in Hv as (tok & v & Hh & -> & _); cbn [ri_role ri_judgeSlot socketIdentity].
  destruct (bool_decide_reflect (vs_role v = ROLE_JUDGE)) as [Er |]; cbn [negb orb]; [| apply effects_idle; gleads_auto].
  destruct (vs_judgeSlot v) as [slot |] eqn:Es; [rewrite bool_decide_eq_false_2 by discriminate | rewrite bool_decide_eq_true_2 by reflexivity; apply effects_idle; gleads_auto].
  destruct (isVotePayload p) as [athlete |]; [| apply effects_idle; gleads_auto].
  apply effects_tryWith; [| answers]; apply effects_then; [| answers].
  eapply (effects_stored _ _ _ _ (SubmitVote athlete None (Some slot) (Some (vs_sessionId v)))); [| reflexivity].
  right; right; exists tok, v, slot, athlete; auto.
Qed.
Lemma effects_voteSubmit e p w : effects e (entitled e w) (voteSubmit config hashSessionToken officialHmac base64url e p) w.
Proof.
  unfold voteSubmit; apply effects_bind; [gleads_auto |]; intros x w1 Hx; inv Hx.
  destruct (_ === Some ScoreboardSocket); [apply effects_idle; gleads_auto |].
  destruct (_ === Some OfficialSocket); [apply effects_officialVote | apply effects_legacyVote].
Qed.

Lemma effects_ack e P {A} (c : Gw (Response A)) w : effects e P c w -> effects e P (ack c) w.
Proof. intros Hc; apply effects_then; [exact Hc | intros a; apply gleads_ret; typeclasses eauto]. Qed.

Lemma effects_handle e message w : effects e (entitled e w) (handle e message) w.
Proof.
  destruct message; cbn [Gateway.handle]; try (apply effects_idle; unfold silent; gleads_auto; fail); apply effects_ack.
  - apply effects_roundStart.
  - apply effects_roundStart.
  - apply effects_controlRound.
  - apply effects_controlRound.
  - apply effects_idle; unfold completeMatchRequest; gleads_auto.
  - apply effects_publishResult.
  - apply effects_completeAppeal.
  - apply effects_overtimeAction; intros c; exists (RestartOvertime (cm_identity c)); split; [reflexivity | intros d; symmetry; apply run_mapped].
  - unfold selectManualWinner; destruct (readColor _) as [a |]; [| apply effects_idle; gleads_auto].
    apply effects_overtimeAction; intros c; exists (System.ManualWinner (cm_identity c) a); split; [reflexivity | intros d; symmetry; apply run_mapped].
  - apply effects_exitRequest.
  - apply effects_cancelRequest.
  - apply effects_cancelRequest.
  - apply effects_undoRequest.
  - apply effects_voteSubmit.
  - apply effects_faultRecord.
  - apply effects_penaltyAdd.
Qed.

(** ** Connections *)

(** Neither connecting nor disconnecting commands anything. *)
Lemma idle_connecting e : gleads idle (handleConnection config hashSessionToken officialHmac base64url e).
Proof.
  unfold handleConnection, connectParticipant, connectOfficial, connectScoreboard, isSocketUnavailable, registryChange; gleads_auto.
Qed.
Lemma idle_disconnecting e : gleads idle (handleDisconnect e).
Proof. unfold handleDisconnect, registryChange; gleads_auto. Qed.
Lemma idle_authenticate dec e auth cookies : gleads idle (authenticate config hashSessionToken officialHmac base64url dec e auth cookies).
Proof. unfold authenticate, accessRole; gleads_auto. Qed.

(** What sockets do to the store, whichever they are and whatever they hold *)
Inductive socket_step : DB -> DB -> Prop :=
  | socket_authenticates decode e auth cookies w r w' :
      authenticate config hashSessionToken officialHmac base64url decode e auth cookies w = (r, w') -> socket_step (wd_db w) (wd_db w')
  | socket_connects e w r w' : handleConnection config hashSessionToken officialHmac base64url e w = (r, w') -> socket_step (wd_db w) (wd_db w')
  | socket_asks e message w r w' : handle e message w = (r, w') -> socket_step (wd_db w) (wd_db w')
  | socket_disconnects e w r w' : handleDisconnect e w = (r, w') -> socket_step (wd_db w) (wd_db w').

(** What a socket may ask of the phase of a match: neither the timer's, nor a match taken, nor a result saved *)
Definition socketAction (a : Action) : Prop := a <> AExpire /\ a <> AComplete /\ a <> ATake.

Lemma entitled_action e w m c : entitled e w m c -> socketAction (actionOf c).
Proof.
  intros [(i & _ & Hi) | [(v & a & x & _ & _ & _ & ->) | (tok & v & slot & x & _ & _ & _ & _ & ->)]]; [destruct c; inv Hi |..];
    split_and!; discriminate.
Qed.

Lemma socket_step_serves d d' : socket_step d d' -> exists e w, serves e (entitled e w) d d'.
Proof.
  intros [dec e auth cookies w r w' H | e w r w' H | e message w r w' H | e w r w' H]; exists e, w.
  - exact (effects_idle _ _ _ _ (idle_authenticate _ _ _ _) _ _ H).
  - exact (effects_idle _ _ _ _ (idle_connecting _) _ _ H).
  - exact (effects_handle _ _ _ _ _ H).
  - exact (effects_idle _ _ _ _ (idle_disconnecting _) _ _ H).
Qed.

Lemma abs_sessionsTouched d d' m : sessionsTouched d d' -> abs d' m = abs d m.
Proof.
  intros [H _]; unfold abs, savedIn.
  rewrite (H matches ltac:(table_notin) : db_matches d' = db_matches d).
  rewrite (H matchResultOperations ltac:(table_notin) : db_matchResultOperations d' = db_matchResultOperations d); reflexivity.
Qed.

(** One step of sockets is at most one step of the phases of a match. *)
Lemma socket_step_phases d d' m v s : sound d -> consistent d -> socket_step d d' -> abs d m = Some (v, s) ->
  sound d' /\ consistent d' /\ exists s', abs d' m = Some (v, s') /\ (s' = s \/ exists a, socketAction a /\ astep v a s s').
Proof.
  intros Hs Hc H Habs; apply socket_step_serves in H as (e & w & d1 & Ht & Hd).
  assert (Hs1 : sound d1) by (apply Ht, Hs).
  assert (Hc1 : consistent d1) by (intros m' v' s' H; rewrite (abs_sessionsTouched _ _ _ Ht) in H; eapply Hc, H).
  assert (Habs1 : abs d1 m = Some (v, s)) by (rewrite (abs_sessionsTouched _ _ _ Ht); exact Habs).
  destruct Hd as [-> | (m0 & c & Hent & ->)]; [eauto 10 |].
  destruct (serve_step sha256 (ev_clk e) m0 c d1 Hs1 Hc1) as (Hs2 & Hc2 & Hst); split_and!; [assumption.. |].
  destruct Hst as [-> | [Hother Hm]]; [eauto |].
  destruct (base.decide (m = m0)) as [<- | Hne]; [| rewrite Hother by exact Hne; eauto].
  destruct Hm as [Hm | (v0 & s0 & s1 & E1 & E2 & Hstep)]; [rewrite Hm; eauto |].
  rewrite E1 in Habs1; injection Habs1 as -> ->; exists s1; split; [exact E2 |]; right; eexists; split; [eapply entitled_action, Hent | exact Hstep].
Qed.

(** C16: whatever a message does to the store, the sender was entitled to. Beside the rows of sessions, which
    resolving one touches, the store is left as it was or served one command of the services, on the match and in
    the name of the live session the socket's token resolves to: a supervisor's command for the supervisor, a
    vote under the own position for a judge. A revoked socket commands nothing. *)
Theorem messages_act_for_holder e message w r w' (H : handle e message w = (r, w')) :
  exists d1, sessionsTouched (wd_db w) d1 /\
    (wd_db w' = d1 \/ exists m c, entitled e w m c /\ sk_revoked (cl_data (wd_client w)) = false /\ wd_db w' = serve sha256 (ev_clk e, m, c) d1).
Proof.
  apply effects_handle in H as (d1 & Ht & [Hd | (m & c & Hent & Hd)]); exists d1; (split; [exact Ht |]); [left; exact Hd | right].
  exists m, c; split_and!; [exact Hent | | exact Hd].
  destruct Hent as [(i & [(v & a & [Hr _] & _) | (tok & v & [Hr _] & _)] & _) | [(v & a & x & [Hr _] & _) | (tok & v & sl & x & [Hr _] & _)]]; exact Hr.
Qed.

(** C17: the gateway implements the abstract phases. However many sockets authenticate, connect, send messages
    and disconnect, in whatever order, each match runs through the phases of the abstract machine, by commands
    alone: no socket ends a round, which the timer does, takes a match over or saves a result. *)
Theorem sockets_refine_phases d d' m v s (Hs : sound d) (Hc : consistent d) (H : rtc socket_step d d') (Habs : abs d m = Some (v, s)) :
  exists s' l, abs d' m = Some (v, s') /\ aruns v l s s' /\ Forall socketAction l.
Proof.
  revert s Hs Hc Habs; induction H as [d | d d1 d' H _ IH]; intros s Hs Hc Habs.
  - exists s, []; split_and!; [exact Habs | constructor | constructor].
  - destruct (socket_step_phases _ _ _ _ _ Hs Hc H Habs) as (Hs1 & Hc1 & s1 & H1 & Hst).
    destruct (IH s1 Hs1 Hc1 H1) as (s' & l & Habs' & Hr & Hl); destruct Hst as [-> | (a & Ha & Hst)]; [eauto 10 |].
    exists s', (a :: l); split_and!; [exact Habs' | eapply runs_step; eauto | constructor; assumption].
Qed.

(** ** Appeals sent again *)

(** The appeal of regulation stored under a key *)
Definition regulationKey (key : string) (d : DB) : Prop :=
  exists a, find_first (fun a => ap_idempotencyKey a === Some key) (db_matchAppeals d) = Some a /\ ap_scope a = SCOPE_REGULATION.

Lemma lockAndVerify_err clk m i e d x : lockAndVerify clk m i e d = Err x -> x = e.
Proof.
  destruct i; unfold lockAndVerify, mbind, tx_bind, gets, exactly_one; cbv beta iota;
    match goal with |- context [match ?l with [] => _ | _ :: _ => _ end] => destruct l as [| ? [|]] end; intros H; inv H; reflexivity.
Qed.
Lemma find_none_throws t p d : find_first p (get t d) = None -> find_one_or_throw t p d = Err RecordNotFound.
Proof. intros H; unfold find_one_or_throw, find_one; erewrite bind_step by reflexivity; rewrite H; reflexivity. Qed.

(** Under such a key an overtime appeal fails, and not on the state of the match. *)
Lemma overtime_keyed clk m i input d : regulationKey (in_idempotencyKey input) d -> exists x,
  completeOvertime clk m i input d = Err x /\ (forall text, x <> AppealStateError text) /\
  (forall mr, lockAndVerify clk m i AppealIdentityError d = Ok (tt, d) -> find_first (fun x => m_id x === m) (db_matches d) = Some mr -> x = AppealIdempotencyError).
Proof.
  intros (a & Ha & Hs); unfold completeOvertime; destruct (lockAndVerify clk m i AppealIdentityError d) as [[[] d0] | x] eqn:El.
  - assert (d0 = d) as -> by (symmetry; exact (respects_lockAndVerify eq clk m i AppealIdentityError _ _ _ El)).
    rewrite (bind_step _ _ _ _ _ El); destruct (find_first (fun x => m_id x === m) (db_matches d)) as [mr |] eqn:Em.
    + rewrite (bind_step _ _ _ mr d) by exact (find_one_or_throw_total matches _ _ _ Em).
      rewrite (bind_step _ _ _ (Some a) d) by (unfold find_one, gets; do 2 f_equal; exact Ha).
      cbn beta iota; rewrite (bind_step _ _ _ _ _ (eq_refl : gets _ d = Ok (_, d))).
      assert (E : overtimeReplay m (m_publicId mr) input a (adjustmentsOf (ap_id a) d) d = Err AppealIdempotencyError).
      { unfold overtimeReplay; destruct (adjustmentFor RED (adjustmentsOf (ap_id a) d)), (adjustmentFor BLUE (adjustmentsOf (ap_id a) d)); try reflexivity.
        rewrite Hs, orb_true_r; reflexivity. }
      eexists; split_and!; [exact E | discriminate | reflexivity].
    + eexists; split_and!; [apply bind_err, (find_none_throws matches), Em | discriminate | discriminate].
  - exists x; split_and!; [apply bind_err, El | | discriminate].
    rewrite (lockAndVerify_err _ _ _ _ _ _ El); discriminate.
Qed.

Lemma eitherAppeal_keyed e c input w : regulationKey (in_idempotencyKey input) (wd_db w) -> exists x, eitherAppeal e c input w = (Err x, w) /\
  (forall t d', completeRegulation (ev_clk e) (cm_matchId c) (cm_identity c) input (wd_db w) = Ok (t, d') -> x = AppealIdempotencyError).
Proof.
  intros Hk; destruct (overtime_keyed (ev_clk e) (cm_matchId c) (cm_identity c) input (wd_db w) Hk) as (x & Hx & Hn & Hi); exists x; split.
  - unfold eitherAppeal; rewrite tryWith_cases, (gw_bind_err _ _ _ x w) by (apply stored_err; auto).
    destruct x; try reflexivity; edestruct Hn; reflexivity.
  - intros t d' H; unfold completeRegulation in H; apply bind_ok in H as ([] & d1 & Hl & H).
    assert (d1 = wd_db w) as -> by (symmetry; exact (respects_lockAndVerify eq _ _ _ AppealIdentityError _ _ _ Hl)).
    apply bind_ok in H as (mr & d2 & Hm & _); apply (find_one_or_throw_ok matches) in Hm as [Hm _]; eauto.
Qed.

(** C18: an appeal on regulation sent again is refused. The service answers the same appeal under the same key
    with what it answered before, and the gateway never does: it takes every appeal for one on overtime first, the
    service of overtime finds the key on an appeal of another kind, and that error is not the one after which the
    gateway tries regulation. Whenever regulation would answer, the gateway's error is a conflict of keys. *)
Theorem regulation_retry_conflicts e w payload input a (Hp : isAppealPayload payload = Some input) (Hwf : wf (wd_db w))
    (Hin : In a (db_matchAppeals (wd_db w))) (Hkey : ap_idempotencyKey a = Some (in_idempotencyKey input)) (Hscope : ap_scope a = SCOPE_REGULATION) :
  (forall t w', completeAppeal config hashSessionToken officialHmac base64url e payload w <> (Ok (Accepted t), w')) /\
  (forall c t d', completeRegulation (ev_clk e) (cm_matchId c) (cm_identity c) input (wd_db w) = Ok (t, d') ->
     eitherAppeal e c input w = (Err AppealIdempotencyError, w)).
Proof.
  assert (Hk : regulationKey (in_idempotencyKey input) (wd_db w)).
  { exists a; split; [exact (appeal_by_key _ _ _ Hwf Hin Hkey) | exact Hscope]. }
  split.
  - intros t w' H; unfold completeAppeal in H; rewrite Hp in H; apply gw_bind_ok in H as (s & w1 & H1 & H); inv H1.
    destruct (_ === Some ScoreboardSocket); [inv H |]; apply gw_bind_ok in H as ([c |] & w2 & H2 & H); [| inv H].
    apply gw_bind_ok in H as ([] & w3 & H3 & H); [| inv H].
    assert (Hk3 : regulationKey (in_idempotencyKey input) (wd_db w3)).
    { apply (still_ensureCommandRoomMembership e _ _ _ _) in H3; rewrite H3.
      apply (idle_supervisorCommand config hashSessionToken officialHmac base64url e) in H2 as [H2 _].
      unfold regulationKey; rewrite (H2 matchAppeals ltac:(table_notin) : db_matchAppeals _ = _); exact Hk. }
    destruct (eitherAppeal_keyed e c input w3 Hk3) as (x & Hx & _).
    rewrite tryWith_cases, (gw_bind_err _ _ _ x w3 Hx) in H.
    destruct x; try (inv H; fail); apply gw_bind_ok in H as (? & ? & _ & H); inv H.
  - intros c t d' H; destruct (eitherAppeal_keyed e c input w Hk) as (x & Hx & Hi); rewrite (Hi t d' H) in Hx; exact Hx.
Qed.

(** ** Broadcasts that fail *)

(** Two runs of a handler from the same world, by what they answer and leave in the store *)
Definition alike {A} (x x0 : result error (Response A) * World) : Prop := x.1 = x0.1 /\ wd_db x.2 = wd_db x0.2.
(** The second is accepted, the first refused after the same commit. *)
Definition hides (failed : string) {A} (x x0 : result error (Response A) * World) : Prop :=
  wd_db x.2 = wd_db x0.2 /\ forall a, x0.1 = Ok (Accepted a) -> x.1 = Ok (Rejected failed).

(** The official of the socket was on a match that its session no longer assigns to it: identifying the socket
    shows the presence of the match it leaves. *)
Definition movedAway (now : timestamp) (w : World) : bool :=
  let x := cl_data (wd_client w) in
  (sk_connectionKind x === Some OfficialSocket) &&
  match sk_revoked x, sk_officialIdentity x, sk_officialSessionToken x with
  | false, Some original, Some token =>
      (token !== EmptyString) &&
      match (OfficialAccess.resolveSession officialHmac base64url token now (serverOf w)).1 with
      | Ok (Some v) =>
          sameOfficial v original && set_ (sk_officialPresenceMatchPublicId x) &&
          (sk_officialPresenceMatchPublicId x !== option_map as_matchPublicId (vo_activeAssignment v)) &&
          set_ (leaveOfficialMatchPresence (of_sessionId original) (cl_id (wd_client w)) (wd_registry w)).1
      | _ => false
      end
  | _, _, _ => false
  end.

Section Twins.
Context (now : timestamp) (clk : Clock) (join_ : option error) (text : string).
#[local] Notation lost := (mkEnv now clk join_ (Some (InternalError text))).
#[local] Notation read := (mkEnv now clk join_ None).

#[local] Notation stays w := (movedAway now w = false).

(** Identifying an official reads the state only when the official has moved. *)
Lemma revalidateOfficial_twins w : sk_connectionKind (cl_data (wd_client w)) = Some OfficialSocket ->
  if movedAway now w then exists w', revalidateOfficial officialHmac base64url lost w = (Err (InternalError text), w')
  else revalidateOfficial officialHmac base64url lost w = revalidateOfficial officialHmac base64url read w.
Proof.
  intros Ho; unfold movedAway, Sockets.revalidateOfficial; rewrite !(gw_bind_step socketData _ w _ w eq_refl), (bool_decide_eq_true_2 _ Ho).
  destruct (sk_revoked _); [reflexivity |]; destruct (sk_officialIdentity _) as [o |]; [| reflexivity].
  destruct (sk_officialSessionToken _) as [tok |]; [| reflexivity]; destruct (bool_decide_reflect (tok = EmptyString)) as [| _]; [reflexivity |].
  cbn [ev_now andb negb]; unfold inServer, mbind, gw_bind.
  destruct (OfficialAccess.resolveSession officialHmac base64url tok now (serverOf w)) as [[[v |] | x] s]; cbn [fst]; try reflexivity.
  destruct (sameOfficial v o); [| reflexivity]; cbn [andb].
  destruct (set_ _ && _) eqn:Em; cbn [andb]; [| reflexivity].
  unfold departMatch, asks, registryStep, mbind, gw_bind, setData, setClient, change; cbn.
  unfold leaveOfficialMatchPresence; cbn.
  destruct (officialConnections (wd_registry w) !! _) as [r |]; [| reflexivity].
  destruct (or_matchPublicId r) as [m |]; [| reflexivity]; cbn; eexists; reflexivity.
Qed.

Lemma supervisorCommand_twins w :
  if movedAway now w then exists w', supervisorCommand config hashSessionToken officialHmac base64url lost w = (Err (InternalError text), w')
  else supervisorCommand config hashSessionToken officialHmac base64url lost w = supervisorCommand config hashSessionToken officialHmac base64url read w.
Proof.
  unfold supervisorCommand; rewrite !(gw_bind_step socketData _ w _ w eq_refl).
  destruct (bool_decide_reflect (sk_connectionKind (cl_data (wd_client w)) = Some OfficialSocket)) as [Ho | Ho].
  - pose proof (revalidateOfficial_twins w Ho) as H; destruct (movedAway now w); unfold mbind, gw_bind.
    + destruct H as (w' & ->); eauto.
    + rewrite H; reflexivity.
  - unfold movedAway; rewrite (bool_decide_eq_false_2 _ Ho); reflexivity.
Qed.

Lemma supervised_twins {A} (Q : result error (Response A) * World -> result error (Response A) * World -> Prop) forbidden k k0 w :
  stays w -> (forall r w1, (forall a, r <> Ok (Accepted a)) -> Q (r, w1) (r, w1)) -> (forall c w1, Q (k c w1) (k0 c w1)) ->
  Q (supervised config hashSessionToken officialHmac base64url lost forbidden k w)
    (supervised config hashSessionToken officialHmac base64url read forbidden k0 w).
Proof.
  intros Hp Hr Hk; unfold supervised; rewrite !(gw_bind_step isScoreboardSocket _ w _ w eq_refl).
  destruct (_ === Some ScoreboardSocket); [apply Hr; discriminate |].
  pose proof (supervisorCommand_twins w) as E; rewrite Hp in E.
  unfold mbind, gw_bind; rewrite E; destruct (supervisorCommand _ _ _ _ read w) as [[[c |] | x] w1]; [apply Hk | apply Hr; discriminate..].
Qed.

Lemma inRoom_twins {A} (Q : result error (Response A) * World -> result error (Response A) * World -> Prop) c refusal k k0 w :
  (forall r w1, (forall a, r <> Ok (Accepted a)) -> Q (r, w1) (r, w1)) -> (forall w1 r w2, refusal w1 = (r, w2) -> forall a, r <> Ok (Accepted a)) ->
  (forall w1, Q (k w1) (k0 w1)) -> Q (inRoom lost c refusal k w) (inRoom read c refusal k0 w).
Proof.
  intros Hr Hf Hk; unfold inRoom, mbind, gw_bind.
  change (ensureCommandRoomMembership lost (cm_publicMatchId c) w) with (ensureCommandRoomMembership read (cm_publicMatchId c) w).
  destruct (ensureCommandRoomMembership read (cm_publicMatchId c) w) as [[[] | x] w1]; [apply Hk | | apply Hr; discriminate].
  destruct (refusal w1) as [r w2] eqn:E; apply Hr; eapply Hf, E.
Qed.

(** The same transaction, after which one run fails to broadcast. *)
Lemma tryWith_twins {A B} (c : Gw B) (k k0 : B -> Gw (Response A)) recover failed w :
  (forall x, gleads still (recover x)) -> (forall x w1 a w2, recover x w1 <> (Ok (Accepted a), w2)) ->
  (forall w1, (recover (InternalError text) w1).1 = Ok (Rejected failed)) ->
  (forall t, gleads still (k t)) -> (forall t, gleads still (k0 t)) -> (forall t w1, (k t w1).1 = Err (InternalError text)) ->
  hides failed (tryWith (c ≫= k) recover w) (tryWith (c ≫= k0) recover w).
Proof.
  intros Hr Hn Hf Hk Hk0 He; rewrite !tryWith_cases; unfold mbind, gw_bind; destruct (c w) as [[t | x] w1].
  - specialize (He t w1); destruct (k t w1) as [r w2] eqn:E, (k0 t w1) as [r0 w3] eqn:E0; cbn in He; subst r.
    pose proof (Hk t _ _ _ E) as H2; pose proof (Hk0 t _ _ _ E0) as H3; unfold still in H2, H3; split.
    + destruct (recover (InternalError text) w2) as [r4 w4] eqn:E4; apply Hr in E4; unfold still in E4; cbn; rewrite E4, H2.
      destruct r0 as [a | x]; [auto |]; destruct (recover x w3) as [r5 w5] eqn:E5; apply Hr in E5; unfold still in E5; cbn; congruence.
    + intros; apply Hf.
  - split; [reflexivity |]; intros a Ha; destruct (recover x w1) as [r w2] eqn:E; cbn in Ha; subst r; destruct (Hn x w1 a w2 E).
Qed.

Lemma quietly_alike {A} (c c0 : Gw unit) (a : A) w : gleads still c -> gleads still c0 ->
  alike ((quietly c;; mret (Accepted a)) w) ((quietly c0;; mret (Accepted a)) w).
Proof.
  intros H H0; unfold quietly, attempt, mbind, gw_bind, mret, gw_ret; destruct (c w) as [r w1] eqn:E, (c0 w) as [r0 w2] eqn:E0.
  apply H in E; apply H0 in E0; unfold still in *; split; cbn; congruence.
Qed.
Lemma commit_twins {A B} (c : Gw B) answer (k k0 : B -> Gw (Response A)) w : (forall t w1, alike (k t w1) (k0 t w1)) ->
  alike (commit c answer k w) (commit c answer k0 w).
Proof.
  intros Hk; unfold commit, attempt, mbind, gw_bind; destruct (c w) as [[t | x] w1]; [apply Hk | split; reflexivity].
Qed.

#[local] Notation lostly f := (f config hashSessionToken officialHmac base64url lost).
#[local] Notation readily f := (f config hashSessionToken officialHmac base64url read).
Ltac refuses := intros; repeat case_match; unfold dismiss, reject, mbind, gw_bind, mret, gw_ret; repeat case_match; congruence.

Lemma alike_refl {A} (x : result error (Response A) * World) : alike x x.
Proof. split; reflexivity. Qed.
Lemma hides_refused failed {A} (r : result error (Response A)) w : (forall a, r <> Ok (Accepted a)) -> hides failed (r, w) (r, w).
Proof. intros H; split; [reflexivity | intros a E; destruct (H a E)]. Qed.

Ltac prefixed := apply inRoom_twins; [intros; first [apply alike_refl | apply hides_refused; assumption] |
  unfold isSocketUnavailable, asks, reject, mbind, gw_bind, mret, gw_ret; intros; congruence | intros].
Ltac supervised_prefix Hp := apply supervised_twins; [exact Hp | intros; first [apply alike_refl | apply hides_refused; assumption] | intros].

Lemma roundStart_twins w : stays w -> alike (lostly roundStart w) (readily roundStart w).
Proof.
  intros Hp; unfold roundStart; supervised_prefix Hp; prefixed.
  apply commit_twins; intros t w3; apply quietly_alike; apply still_publishRoundStarted.
Qed.
Lemma after_emit {A} t ev (k k0 : Gw (Response A)) w : (forall w1, alike (k w1) (k0 w1)) -> alike ((emit t ev;; k) w) ((emit t ev;; k0) w).
Proof. intros H; apply H. Qed.
Lemma controlRound_twins b w : stays w ->
  alike (controlRound config hashSessionToken officialHmac base64url lost b w) (controlRound config hashSessionToken officialHmac base64url read b w).
Proof.
  intros Hp; unfold controlRound; supervised_prefix Hp; prefixed.
  apply commit_twins; intros t w3; apply after_emit; intros w4; apply quietly_alike; apply still_broadcastMatchState.
Qed.
Lemma exitRequest_twins p w : stays w ->
  alike (exitRequest config hashSessionToken officialHmac base64url lost p w) (exitRequest config hashSessionToken officialHmac base64url read p w).
Proof.
  intros Hp; unfold exitRequest; supervised_prefix Hp; destruct (isExitPayload p) as [[mode tr] |]; [| apply alike_refl]; prefixed.
  apply commit_twins; intros t w3; apply quietly_alike; gleads_auto.
Qed.
Lemma cancelRequest_twins b w : stays w ->
  alike (cancelRequest config hashSessionToken officialHmac base64url lost b w) (cancelRequest config hashSessionToken officialHmac base64url read b w).
Proof.
  intros Hp; unfold cancelRequest; supervised_prefix Hp; prefixed.
  apply commit_twins; intros t w3; apply after_emit; intros w4; apply quietly_alike; apply still_broadcastMatchState.
Qed.
Lemma undoRequest_twins p w : stays w ->
  alike (undoRequest config hashSessionToken officialHmac base64url lost p w) (undoRequest config hashSessionToken officialHmac base64url read p w).
Proof.
  intros Hp; unfold undoRequest; rewrite !(gw_bind_step isScoreboardSocket _ w _ w eq_refl).
  destruct (_ === Some ScoreboardSocket); [apply alike_refl |]; destruct (isResultCancellationUndoPayload p); [| apply alike_refl].
  supervised_prefix Hp; prefixed; apply commit_twins; intros t w3; apply after_emit; intros w4; apply quietly_alike; apply still_broadcastMatchState.
Qed.

Lemma eachOf_says {A} (f : A -> Gw unit) l : (forall a w, exists w', f a w = (Ok tt, w')) -> forall w, exists w', eachOf f l w = (Ok tt, w').
Proof.
  intros Hf; induction l as [| a l IH]; intros w; [eexists; reflexivity |]; destruct (Hf a w) as (w1 & H1), (IH w1) as (w2 & H2).
  exists w2; cbn [eachOf]; rewrite (gw_bind_step _ _ _ _ _ H1); exact H2.
Qed.
Lemma publishIfReleased_says m p l w : exists w', publishIfReleased m p l w = (Ok tt, w').
Proof.
  destruct l as [| o l]; [eexists; reflexivity |]; unfold publishIfReleased, publishReleased; erewrite gw_bind_step by reflexivity.
  apply eachOf_says; intros; eexists; reflexivity.
Qed.
Lemma after_released m p l {A} (k : Gw A) r w : (forall w1, (k w1).1 = r) -> ((publishIfReleased m p l;; k) w).1 = r.
Proof. intros Hk; destruct (publishIfReleased_says m p l w) as (w1 & H); rewrite (gw_bind_step _ _ _ _ _ H); apply Hk. Qed.
Ltac body_twins := apply tryWith_twins; [answers | refuses | reflexivity | answers | answers | intros; try reflexivity; erewrite gw_bind_step by reflexivity; apply after_released; reflexivity].
Lemma publishResult_twins p w : stays w ->
  hides "RESULT_PUBLISH_FAILED" (publishResult config hashSessionToken officialHmac base64url sha256 lost p w)
    (publishResult config hashSessionToken officialHmac base64url sha256 read p w).
Proof.
  intros Hp; unfold publishResult; destruct (isPublishPayload p) as [[key tr] |]; [| apply hides_refused; discriminate].
  supervised_prefix Hp; prefixed; body_twins.
Qed.
Lemma completeAppeal_twins p w : stays w ->
  hides "APPEAL_FAILED" (completeAppeal config hashSessionToken officialHmac base64url lost p w)
    (completeAppeal config hashSessionToken officialHmac base64url read p w).
Proof.
  intros Hp; unfold completeAppeal; destruct (isAppealPayload p) as [input |]; [| apply hides_refused; discriminate].
  supervised_prefix Hp; prefixed; change (eitherAppeal lost c input) with (eitherAppeal read c input); body_twins.
Qed.
Lemma overtimeAction_twins invoke w : stays w ->
  hides "OVERTIME_ACTION_FAILED" (overtimeAction config hashSessionToken officialHmac base64url lost invoke w)
    (overtimeAction config hashSessionToken officialHmac base64url read invoke w).
Proof. intros Hp; unfold overtimeAction; supervised_prefix Hp; prefixed; body_twins. Qed.
Lemma faultRecord_twins p w : stays w ->
  hides "FAULT_FAILED" (faultRecord config hashSessionToken officialHmac base64url lost p w)
    (faultRecord config hashSessionToken officialHmac base64url read p w).
Proof.
  intros Hp; unfold faultRecord; supervised_prefix Hp; prefixed.
  destruct (normalizeFaultPayload p) as [[[a s] tr] | code]; [| apply hides_refused; discriminate]; body_twins.
Qed.
Lemma penaltyAdd_twins p w : stays w ->
  hides "PENALTY_FAILED" (penaltyAdd config hashSessionToken officialHmac base64url lost p w)
    (penaltyAdd config hashSessionToken officialHmac base64url read p w).
Proof.
  intros Hp; unfold penaltyAdd; supervised_prefix Hp; prefixed.
  destruct (isVotePayload p) as [a |]; [| apply hides_refused; discriminate]; body_twins.
Qed.

Lemma ack_alike {A} (c c0 : Gw (Response A)) w : alike (c w) (c0 w) -> alike (ack c w) (ack c0 w).
Proof.
  unfold alike, ack, mbind, gw_bind, mret, gw_ret; destruct (c w) as [r w1], (c0 w) as [r0 w2]; cbn; intros [-> Hd].
  destruct r0; split; auto.
Qed.
Lemma ack_hides failed {A} (c c0 : Gw (Response A)) w : hides failed (c w) (c0 w) -> hides failed (ack c w) (ack c0 w).
Proof.
  unfold hides, ack, mbind, gw_bind, mret, gw_ret; destruct (c w) as [r w1], (c0 w) as [r0 w2]; cbn; intros [Hd Ha].
  split; [destruct r, r0; exact Hd |]; intros a H; destruct r0 as [[b | code] |]; cbn in H; inv H; rewrite (Ha b eq_refl); reflexivity.
Qed.
(** A command of an official who has moved is not run. *)
Definition unheard {A} (x : result error (Response A) * World) (w : World) : Prop :=
  (forall a, x.1 <> Ok (Accepted a)) /\ sessionsTouched (wd_db w) (wd_db x.2).
Lemma supervised_unheard {A} forbidden k w : movedAway now w = true ->
  unheard (supervised (A := A) config hashSessionToken officialHmac base64url lost forbidden k w) w.
Proof.
  intros Hm; unfold supervised; rewrite (gw_bind_step isScoreboardSocket _ w _ w eq_refl).
  destruct (_ === Some ScoreboardSocket); [split; [discriminate | reflexivity] |].
  pose proof (supervisorCommand_twins w) as E; rewrite Hm in E; destruct E as (w' & E); rewrite (gw_bind_err _ _ _ _ _ E).
  apply (idle_supervisorCommand config hashSessionToken officialHmac base64url lost) in E; split; [discriminate | exact E].
Qed.
Lemma reject_unheard {A} code w : unheard (reject (A := A) code w) w.
Proof. split; [discriminate | reflexivity]. Qed.
Lemma ack_unheard {A} (c : Gw (Response A)) w : unheard (c w) w -> unheard (ack c w) w.
Proof.
  unfold unheard, ack, mbind, gw_bind, mret, gw_ret; destruct (c w) as [[[a | code] | x] w1]; cbn; intros [Hn Hi]; (split; [| exact Hi]); try discriminate.
  destruct (Hn a eq_refl).
Qed.
End Twins.

(** The commands whose broadcast is caught, and the error of those whose broadcast is not *)
Definition broadcastCaught (message : SocketMessage) : bool :=
  match message with
  | ROUND_START | OVERTIME_START | ROUND_PAUSE | ROUND_RESUME | MATCH_EXIT _ | ROUND_CANCEL | MATCH_RESET | RESULT_CANCELLATION_UNDO _ => true
  | _ => false
  end.
Definition failureOf (message : SocketMessage) : option string :=
  match message with
  | RESULT_PUBLISH _ => Some "RESULT_PUBLISH_FAILED" | APPEAL_COMPLETE _ => Some "APPEAL_FAILED"
  | OVERTIME_RESTART | OVERTIME_MANUAL_WINNER _ => Some "OVERTIME_ACTION_FAILED"
  | FAULT_RECORD _ => Some "FAULT_FAILED" | PENALTY_ADD _ => Some "PENALTY_FAILED"
  | _ => None
  end%string.

Lemma handle_unheard now clk join_ text message w : movedAway now w = true -> broadcastCaught message = true \/ failureOf message <> None ->
  (handle (mkEnv now clk join_ (Some (InternalError text))) message w).1 <> Ok (Accepted tt) /\
  sessionsTouched (wd_db w) (wd_db (handle (mkEnv now clk join_ (Some (InternalError text))) message w).2).
Proof.
  intros Hm Hc; assert (H : forall c : Gw (Response unit), unheard (c w) w -> (c w).1 <> Ok (Accepted tt) /\ sessionsTouched (wd_db w) (wd_db (c w).2))
    by (intros c [Hn Hi]; split; [apply Hn | exact Hi]).
  destruct message; try (destruct Hc as [Hc | Hc]; [discriminate Hc | destruct (Hc eq_refl)]; fail); cbn [Gateway.handle]; apply H, ack_unheard;
    unfold roundStart, controlRound, exitRequest, cancelRequest, restartOvertime, overtimeAction, faultRecord, penaltyAdd; try (apply supervised_unheard, Hm).
  - unfold publishResult; destruct (isPublishPayload _) as [[] |]; [apply supervised_unheard, Hm | apply reject_unheard].
  - unfold completeAppeal; destruct (isAppealPayload _); [apply supervised_unheard, Hm | apply reject_unheard].
  - unfold selectManualWinner; destruct (readColor _); [apply supervised_unheard, Hm | apply reject_unheard].
  - unfold undoRequest; rewrite (gw_bind_step isScoreboardSocket _ w _ w eq_refl); destruct (_ === Some ScoreboardSocket); [apply reject_unheard |].
    destruct (isResultCancellationUndoPayload _); [apply supervised_unheard, Hm | apply reject_unheard].
Qed.

(** C9: a broadcast that fails after the commit. When the state to broadcast cannot be read, a command of any
    socket leaves the same store as when it can, unless it is the socket of an official who has moved to another
    match. Starting, pausing, resuming, leaving, cancelling and undoing also answer the same; publishing,
    appealing, deciding overtime, faults and penalties, where they would have been accepted, answer that they
    failed, with their effect committed. An official who has moved is not accepted any of these commands, and none
    of them is run: only the times of sessions change. *)
Theorem failed_broadcast_hides_commit now clk join_ text message w :
  let lost := mkEnv now clk join_ (Some (InternalError text)) in
  let read := mkEnv now clk join_ None in
  (movedAway now w = false ->
     (broadcastCaught message = true ->
        (handle lost message w).1 = (handle read message w).1 /\ wd_db (handle lost message w).2 = wd_db (handle read message w).2) /\
     (forall code, failureOf message = Some code ->
        wd_db (handle lost message w).2 = wd_db (handle read message w).2 /\
        ((handle read message w).1 = Ok (Accepted tt) -> (handle lost message w).1 = Ok (Rejected code)))) /\
  (movedAway now w = true -> broadcastCaught message = true \/ failureOf message <> None ->
     (handle lost message w).1 <> Ok (Accepted tt) /\ sessionsTouched (wd_db w) (wd_db (handle lost message w).2)).
Proof.
  cbv zeta; split; [intros Hp | intros Hm Hc; exact (handle_unheard now clk join_ text message w Hm Hc)].
  split; [intros Hm | intros code Hm]; destruct message; try discriminate Hm; cbn [Gateway.handle];
    try (cbn [failureOf] in Hm; injection Hm as <-).
  - apply ack_alike, (roundStart_twins now clk join_ text w Hp).
  - apply ack_alike, (roundStart_twins now clk join_ text w Hp).
  - apply ack_alike, (controlRound_twins now clk join_ text true w Hp).
  - apply ack_alike, (controlRound_twins now clk join_ text false w Hp).
  - apply ack_alike, (exitRequest_twins now clk join_ text payload w Hp).
  - apply ack_alike, (cancelRequest_twins now clk join_ text false w Hp).
  - apply ack_alike, (cancelRequest_twins now clk join_ text true w Hp).
  - apply ack_alike, (undoRequest_twins now clk join_ text payload w Hp).
  - destruct (ack_hides _ _ _ w (publishResult_twins now clk join_ text payload w Hp)) as [Hd Ha]; split; [exact Hd | exact (Ha tt)].
  - destruct (ack_hides _ _ _ w (completeAppeal_twins now clk join_ text payload w Hp)) as [Hd Ha]; split; [exact Hd | exact (Ha tt)].
  - destruct (ack_hides _ _ _ w (overtimeAction_twins now clk join_ text (restartAction clk) w Hp)) as [Hd Ha]; split; [exact Hd | exact (Ha tt)].
  - unfold selectManualWinner; destruct (readColor _) as [c |]; [| split; [reflexivity | discriminate]].
    destruct (ack_hides _ _ _ w (overtimeAction_twins now clk join_ text (winnerAction clk c) w Hp)) as [Hd Ha]; split; [exact Hd | exact (Ha tt)].
  - destruct (ack_hides _ _ _ w (faultRecord_twins now clk join_ text payload w Hp)) as [Hd Ha]; split; [exact Hd | exact (Ha tt)].
  - destruct (ack_hides _ _ _ w (penaltyAdd_twins now clk join_ text payload w Hp)) as [Hd Ha]; split; [exact Hd | exact (Ha tt)].
Qed.
End Effects.

(** ** Payloads of appeals *)

Definition pointsFit (n : Z) : bool := (0 <=? n) && (n <=? MAX_REGULATION_APPEAL_POINTS).
Definition appealFits (input : AppealInput) : Prop :=
  (forall c, pointsFit (in_bonusPoints input c) = true /\ pointsFit (in_penaltyPoints input c) = true) /\
  1 <= utf16Length (in_idempotencyKey input) <= 255 /\
  forall t, in_traceId input = Some t -> 0 <= utf16Length t <= MAX_MATCH_EXIT_TRACE_ID_LENGTH.

(** An appeal as a client writes it *)
Definition adjustmentJson (input : AppealInput) (c : AthleteColor) : json :=
  JObj [("bonusPoints", JNum (in_bonusPoints input c)); ("penaltyPoints", JNum (in_penaltyPoints input c))]%string.
Definition appealFields (input : AppealInput) : list (string * json) :=
  (("RED", adjustmentJson input RED) :: ("BLUE", adjustmentJson input BLUE) :: ("idempotencyKey", JStr (in_idempotencyKey input)) ::
        match in_traceId input with Some t => [("traceId", JStr t)] | None => [] end)%string.
Definition appealJson (input : AppealInput) : json := JObj (appealFields input).
Definition sameAppeal (x y : AppealInput) : Prop :=
  (forall c, in_bonusPoints x c = in_bonusPoints y c /\ in_penaltyPoints x c = in_penaltyPoints y c) /\
  in_idempotencyKey x = in_idempotencyKey y /\ in_traceId x = in_traceId y.

Lemma readPoints_some j n : readPoints j = Some n -> pointsFit n = true.
Proof. unfold readPoints, pointsFit; destruct j as [[] |]; try discriminate; destruct (_ && _) eqn:E; intros H; inv H; exact E. Qed.
Lemma readAdjustment_some j x : readAdjustment j = Some x -> pointsFit x.1 = true /\ pointsFit x.2 = true.
Proof.
  unfold readAdjustment; destruct j as [[] |]; try discriminate; destruct (_ && only _ _); [| discriminate].
  destruct (readPoints (jfield "bonusPoints" _)) as [b |] eqn:E1; [| discriminate]; cbn [mbind option_bind].
  destruct (readPoints (jfield "penaltyPoints" _)) as [p |] eqn:E2; [| discriminate]; intros H; inv H; cbn; eauto using readPoints_some.
Qed.
Lemma readKey_some j k : readKey j = Some k -> 1 <= utf16Length k <= 255.
Proof. unfold readKey; destruct (readStr j) as [s |]; [| discriminate]; destruct (_ && _) eqn:E; intros H; inv H; to_prop; lia. Qed.
Lemma readTrace_some j n o t : readTrace j n = Some o -> o = Some t -> n <= utf16Length t <= MAX_MATCH_EXIT_TRACE_ID_LENGTH.
Proof.
  intros H ->; unfold readTrace in H; destruct j as [[] |]; try discriminate; destruct (_ && _) eqn:E in H; inv H; to_prop; lia.
Qed.

Lemma isAppealPayload_some payload input : isAppealPayload payload = Some input -> appealFits input.
Proof.
  unfold isAppealPayload; destruct payload; try discriminate; destruct (negb _); [discriminate |].
  destruct (readKey _) as [key |] eqn:Ek; [| discriminate]; destruct (readTrace _ 0) as [tr |] eqn:Et; [| discriminate].
  destruct (readAdjustment (jfield "RED" _)) as [red |] eqn:Er; [| discriminate].
  destruct (readAdjustment (jfield "BLUE" _)) as [blue |] eqn:Eb; [| discriminate]; cbn [mbind option_bind]; intros H; inv H.
  apply readAdjustment_some in Er, Eb; apply readKey_some in Ek; split; [intros []; assumption |]; split; [exact Ek |].
  intros t Ht; exact (readTrace_some _ _ _ _ Et Ht).
Qed.

Lemma readAdjustment_json input c : appealFits input ->
  readAdjustment (Some (adjustmentJson input c)) = Some (in_bonusPoints input c, in_penaltyPoints input c).
Proof.
  intros [H _]; destruct (H c) as [H1 H2]; unfold pointsFit in *.
  change ((b ← readPoints (Some (JNum (in_bonusPoints input c))); p ← readPoints (Some (JNum (in_penaltyPoints input c))); Some (b, p)) =
    Some (in_bonusPoints input c, in_penaltyPoints input c)).
  unfold readPoints; rewrite H1, H2; reflexivity.
Qed.

(** what an appeal may ask for. A payload the gateway takes for an appeal has points from 0 to 100 on each side,
    a key of 1 to 255 units and a trace of at most 128. An appeal within these bounds, written as a client writes
    it, is read back as the same appeal, and one beyond them never is. *)
Theorem appeal_payload_exact input :
  (forall payload, isAppealPayload payload = Some input -> appealFits input) /\
  (appealFits input <-> exists input', isAppealPayload (appealJson input) = Some input' /\ sameAppeal input' input).
Proof.
  split; [intros payload; apply isAppealPayload_some |]; split.
  - intros Hf; pose proof (readAdjustment_json input RED Hf) as Hr; pose proof (readAdjustment_json input BLUE Hf) as Hb.
    destruct Hf as (_ & Hk & Ht); unfold isAppealPayload, appealJson; set (fields := appealFields input).
    assert (Hn : negb (only ["RED"; "BLUE"; "idempotencyKey"; "traceId"]%string fields) = false)
      by (subst fields; unfold appealFields; destruct (in_traceId input); reflexivity).
    assert (Fr : jfield "RED" (JObj fields) = Some (adjustmentJson input RED)) by (subst fields; unfold appealFields; destruct (in_traceId input); reflexivity).
    assert (Fb : jfield "BLUE" (JObj fields) = Some (adjustmentJson input BLUE)) by (subst fields; unfold appealFields; destruct (in_traceId input); reflexivity).
    assert (Fk : readKey (jfield "idempotencyKey" (JObj fields)) = Some (in_idempotencyKey input)).
    { replace (jfield "idempotencyKey" (JObj fields)) with (Some (JStr (in_idempotencyKey input)))
        by (subst fields; unfold appealFields; destruct (in_traceId input); reflexivity); unfold readKey, readStr.
      rewrite (proj2 (Z.leb_le 1 _)), (proj2 (Z.leb_le _ 255)) by lia; reflexivity. }
    assert (Ft : readTrace (jfield "traceId" (JObj fields)) 0 = Some (in_traceId input)).
    { subst fields; unfold appealFields; destruct (in_traceId input) as [t |]; [| reflexivity]; specialize (Ht t eq_refl).
      match goal with |- context [jfield ?k ?x] => change (jfield k x) with (Some (JStr t)) end; unfold readTrace.
      rewrite (proj2 (Z.leb_le 0 _)), (proj2 (Z.leb_le _ MAX_MATCH_EXIT_TRACE_ID_LENGTH)) by lia; reflexivity. }
    rewrite Hn, Fr, Fb, Fk, Ft, Hr, Hb; eexists; split; [reflexivity |]; split; [intros [] | ]; split; reflexivity.
  - intros (input' & H & Hp & Hk & Ht); apply isAppealPayload_some in H as (H1 & H2 & H3); rewrite Hk in H2; rewrite Ht in H3.
    split; [| auto]; intros c; destruct (Hp c) as [<- <-]; apply H1.
Qed.

(** ** Witnesses: the supervisor of match 10 on a socket of a security code *)

Definition deskHash (token : string) : string := if token === heldToken then "hash"%string else token.
Definition deskIdentity : RealtimeSocketIdentity := mkSocketIdentity "device" 10 "M" None ROLE_SUPERVISOR 40.
Definition deskClient : Client := mkClient "desk" true [] (mkSocketData (Some ACCESS_SUPERVISOR) (Some deskIdentity) (Some heldToken) false
  (Some ParticipantSocket) None None None None None).
Definition deskWorld (d : DB) : World := mkWorld d (mkRegistry ∅ ∅ ∅ ∅) [] deskClient [].
Definition envAt (t : timestamp) : Env := mkEnv t (at_time t) None None.
Definition sides (red blue : Z) (key : string) : json :=
  JObj [("RED", JObj [("bonusPoints", JNum red); ("penaltyPoints", JNum 0)]);
        ("BLUE", JObj [("bonusPoints", JNum blue); ("penaltyPoints", JNum 0)]); ("idempotencyKey", JStr key)]%string.

Abbreviation deskHandle := (handle accessConfig deskHash id id noDigest).
Abbreviation deskAppeal := (completeAppeal accessConfig deskHash id id).

(** The appeal settles regulation and is refused as a conflict when it is sent again. *)
Definition appealedWorld : World := Eval vm_compute in (deskHandle (envAt 300000) (APPEAL_COMPLETE (sides 0 2 "reg")) (deskWorld regulationAppealDB)).2.
Lemma appealed_run : deskHandle (envAt 300000) (APPEAL_COMPLETE (sides 0 2 "reg")) (deskWorld regulationAppealDB) = (Ok (Accepted tt), appealedWorld).
Proof. vm_compute; reflexivity. Qed.
Example appealed_again : (deskAppeal (envAt 310000) (sides 0 2 "reg") appealedWorld).1 = Ok (Rejected "APPEAL_IDEMPOTENCY_CONFLICT").
Proof. vm_compute; reflexivity. Qed.
Lemma messages_act_for_holder_witness : exists d1, sessionsTouched regulationAppealDB d1 /\
  (wd_db appealedWorld = d1 \/ exists m c,
     entitled accessConfig deskHash id id (envAt 300000) (deskWorld regulationAppealDB) m c /\ wd_db appealedWorld = serve noDigest (at_time 300000, m, c) d1).
Proof.
  destruct (messages_act_for_holder accessConfig deskHash id id noDigest _ _ _ _ _ appealed_run) as (d1 & Ht & [H | (m & c & He & _ & H)]);
    exists d1; (split; [exact Ht |]); [left; exact H | right; exists m, c; split; [exact He | exact H]].
Defined.

Lemma regulationAppealDB_consistent : consistent regulationAppealDB.
Proof. apply consistent_stored; vm_compute; reflexivity. Defined.
Definition appealPhase : AState := astate (phase IN_PROGRESS REGULATION_APPEAL (Some 2)) [].
Lemma sockets_refine_phases_witness : exists s' l, abs (wd_db appealedWorld) 10 = Some (FAULT_APPEAL_OVERTIME_V2, s') /\
  ph_status (a_phase s') = OVERTIME_READY /\ aruns FAULT_APPEAL_OVERTIME_V2 l appealPhase s'.
Proof.
  destruct (sockets_refine_phases accessConfig deskHash id id noDigest regulationAppealDB (wd_db appealedWorld) 10 FAULT_APPEAL_OVERTIME_V2 appealPhase)
    as (s' & l & Habs & Hr & _).
  - exact regulationAppealDB_sound.
  - exact regulationAppealDB_consistent.
  - eapply rtc_l; [exact (socket_asks _ _ _ _ _ _ _ _ _ _ appealed_run) | apply rtc_refl].
  - vm_compute; reflexivity.
  - exists s', l; split_and!; [exact Habs | | exact Hr].
    assert (E : abs (wd_db appealedWorld) 10 = Some (FAULT_APPEAL_OVERTIME_V2, astate (phase IN_PROGRESS OVERTIME_READY (Some 2)) []))
      by (vm_compute; reflexivity).
    rewrite E in Habs; injection Habs as <-; reflexivity.
Defined.

Definition recordedAppeal : AppealRow := Eval vm_compute in
  match db_matchAppeals (wd_db appealedWorld) with a :: _ => a | [] => appealRow 0 SCOPE_OVERTIME 0 0 supervisor 0 "" 0 end.
Lemma appealedWorld_wf : wf (wd_db appealedWorld). Proof. solve_wf. Defined.
Definition deskInput : AppealInput := Eval vm_compute in default (points 0 0 "") (isAppealPayload (sides 0 2 "reg")).
Definition deskCommand : SupervisorCommand := mkSupervisorCommand supervisor 10 "M".
Lemma regulation_retry_conflicts_witness :
  completeRegulation (at_time 310000) 10 supervisor deskInput (wd_db appealedWorld) = Ok (tiedRegulation, wd_db appealedWorld) /\
  eitherAppeal (envAt 310000) deskCommand deskInput appealedWorld = (Err AppealIdempotencyError, appealedWorld).
Proof.
  assert (H : completeRegulation (at_time 310000) 10 supervisor deskInput (wd_db appealedWorld) = Ok (tiedRegulation, wd_db appealedWorld))
    by (vm_compute; reflexivity).
  split; [exact H |].
  destruct (regulation_retry_conflicts accessConfig deskHash id id (envAt 310000) appealedWorld (sides 0 2 "reg") deskInput recordedAppeal
    eq_refl appealedWorld_wf (or_introl eq_refl) eq_refl eq_refl) as [_ Hc].
  exact (Hc deskCommand _ _ H).
Defined.

(** The appeal whose broadcast fails is answered as failed; the match is in overtime all the same. *)
Definition lostEnv : Env := mkEnv 300000 (at_time 300000) None (Some (InternalError "connection lost")).
Lemma failed_broadcast_hides_commit_witness :
  (deskHandle lostEnv (APPEAL_COMPLETE (sides 0 2 "reg")) (deskWorld regulationAppealDB)).1 = Ok (Rejected "APPEAL_FAILED") /\
  wd_db (deskHandle lostEnv (APPEAL_COMPLETE (sides 0 2 "reg")) (deskWorld regulationAppealDB)).2 = wd_db appealedWorld.
Proof.
  destruct (failed_broadcast_hides_commit accessConfig deskHash id id noDigest 300000 (at_time 300000) None "connection lost"
    (APPEAL_COMPLETE (sides 0 2 "reg")) (deskWorld regulationAppealDB)) as [Hs _]; destruct (Hs eq_refl) as [_ H].
  destruct (H "APPEAL_FAILED"%string eq_refl) as [Hd Ha]; split.
  - apply Ha; exact (f_equal fst appealed_run).
  - etransitivity; [exact Hd | exact (f_equal (fun x => wd_db x.2) appealed_run)].
Defined.

Lemma appeal_payload_exact_witness : appealFits deskInput /\ exists input', isAppealPayload (appealJson deskInput) = Some input' /\ sameAppeal input' deskInput.
Proof.
  destruct (appeal_payload_exact deskInput) as [H Hx]; assert (Hf : appealFits deskInput) by (apply (H (sides 0 2 "reg")); reflexivity).
  split; [exact Hf | apply Hx, Hf].
Defined.
